(* ===== verification/_CoqProject ===== *)
-Q . S2P
Prelude.v
Utf8.v
PbBase.v
PbWire.v
PbCommon.v
PbEncode.v
PbEncodeProofs.v
PbDecode.v
PbDecodeProofs.v
PbDecodeSafety.v
PbSample.v
PbFields.v
PbTheorems.v
Base64.v
Base64Proofs.v
Base64Stream.v
Base64Theorems.v
Cbs.v
Cbb.v
CbsProofs.v
CbsDer.v
CbsTheorems.v
CbbProofs.v
CbbTheorems.v
Unicode.v
UnicodeProofs.v
UnicodeTheorems.v
Ber.v
BerProofs.v
BerConvert.v
BerTheorems.v
Mem.v
MemTheorems.v
Stack.v
StackProofs.v
StackTheorems.v
Lhash.v
LhashProofs.v
LhashTable.v
LhashDoall.v
LhashTheorems.v
UvHeap.v
UvHeapOrder.v
UvHeapProofs.v
UvQueue.v
UvQueueProofs.v
UvLoop.v
UvTimer.v
UvRun.v
UvLoopInv.v
UvLoopOps.v
UvLogic.v
UvRunProofs.v
UvApi.v
UvTheorems.v
UvIo.v
UvPoll.v
UvIoInv.v
UvIoProofs.v
UvIoOps.v
UvIoLife.v
UvPollProofs.v
UvPollDispatch.v
UvPollQuiet.v
UvMainProofs.v
UvIoApi.v
UvMainTheorems.v
UvPool.v
UvPoolInv.v
UvPoolProofs.v
UvPoolSteps.v
UvPoolTheorems.v
UvInet.v
UvInetProofs.v
UvInet6Proofs.v
UvIdna.v
UvPuny.v
UvIdnaDecode.v
UvIdnaProofs.v
UvTextTheorems.v
