(* ===== verification/Prelude.v ===== *)
(** * The C code of the BlindBoard application, verified

    BlindBoard is a Swift application; its C code is the set of libraries
    vendored under [BlindBoard/Pods].  This development models the parts of that
    code that parse and write data or schedule work, and proves them correct:

    - nanopb, the protobuf library that the Firebase pods send their data with;
    - the byte strings, BER and DER, Unicode strings, base64, the allocation, the
      stacks, the buffers and the hash table of BoringSSL, below the TLS of gRPC;
    - the event loop with its I/O, the thread pool and the text utilities of
      libuv, below the I/O of gRPC.

    ** How the code is modelled

    A C function is a function in the outcome monad of this file: [M S A] takes
    the state [S] that the function reads and writes and gives [Done] (a normal
    return), [Fail] (it returns its error, with the state it leaves), [Undef] (an
    access outside of an object, a failed assert, a call through a null
    pointer) or [OutOfFuel] (a bound of the model was too small).  A theorem
    that gives the result of a call says [Done] or [Fail], so it excludes the two
    others.  The functions of the event loop have no error of their own: there
    [Fail] is a call of [abort()] ([UvLoop.aborted]), with the state in which the
    program ends, and the theorems say when it may come ([UvIoProofs.no_room], no
    memory for the table of watchers; [UvPollProofs.refused], an error of [kevent]
    that the code does not expect).  Integers are [Z], with the wrap-around of each C type written
    out ([u8] ... [s64]); the ABI is the LP64 one of the target.  A memory is a
    finite map from addresses, and pointers that alias in the code are equal
    keys in the model.  Callbacks of the user are parameters.

    ** The files, and what they model

    Prelude: the monad and its notation (scope [c_scope]), integers and bytes,
    callers that go on by the results of their calls and the simulation of all of
    them by that of each operation, lengths and counting on lists, the rewriting
    base [zlen], the tactics [zlen_pos], [zl] and [zdm].  Utf8: the scalar values of Unicode and UTF-8,
    the specification that the decoders of BoringSSL and of libuv share.

    nanopb ([Pods/nanopb]):
    - PbBase: [pb.h], type codes, field descriptors, the memory of the messages
      and the blocks of [malloc];
    - PbCommon: [pb_common.c], the field iterator;
    - PbEncode, PbDecode: [pb_encode.c], [pb_decode.c], function by function; a
      stream is the record of the C structure with its callback;
    - PbWire: the wire format as pure functions, the specification of both;
    - PbEncodeProofs, PbDecodeProofs, PbDecodeSafety, PbFields: the lemmas;
    - PbSample: a message type with memory and callbacks, for the witnesses;
    - PbTheorems: the encoder writes one byte string, of the size that
      [pb_get_encoded_size] gives; the decoder stays inside of its input; values
      and fields cross the wire unchanged; narrowing, allocation, skipping and
      the iterator are exact; [pb_decode_varint32] accepts overlong varints (a
      finding).

    BoringSSL ([Pods/BoringSSL-GRPC/src/crypto]):
    - Base64: [base64/base64.c]; Base64Proofs and Base64Stream, the lemmas on
      blocks and on streams; Base64Theorems: the encoder writes RFC 4648, the
      decoder undoes it however the text is cut, and neither leaves its buffer;
    - Cbs: [bytestring/cbs.c], the reader and the DER parser; CbsProofs and
      CbsDer, the lemmas; CbsTheorems: exactly the DER encodings are accepted;
    - Cbb: [bytestring/cbb.c], the builder, with the shared buffer and the chain
      of the children in a store; CbbProofs, the refinement to a stack of open
      frames; CbbTheorems: each write appends its bytes, [CBB_flush] closes the
      frames with their length prefixes, errors stick, and what is written is
      read back by the functions of Cbs; [CBB_cleanup] is defined after any
      failure;
    - Unicode: [bytestring/unicode.c], code points over Cbs and Cbb;
      UnicodeProofs; UnicodeTheorems: the readers accept exactly the encodings of
      valid code points, and what the writers append is read back;
    - Ber: [bytestring/ber.c], BER to DER over Cbs and Cbb; BerProofs: the grammar
      of the BER that is read, as a relation [converts] to DER, the conversion
      without the builder, and that its output is DER; BerConvert: the builder
      with its open elements follows that conversion, and the strings in pieces;
      BerTheorems: the output is the DER of the input, a DER input comes
      back as it is, and an input of the grammar is refused only without memory;
      some BER is missed (a finding);
    - Mem: [mem.c] and [buf/buf.c], blocks with their size in front, strings,
      buffers, and the functions of [bytestring/cbs.c] that copy to blocks;
      MemTheorems: tables of objects that own a block each, buffers as byte
      strings, bounded copies and comparisons of strings;
    - Stack: [stack/stack.c], arrays of pointers in that heap, with a sorted
      flag; StackProofs: the arrays are lists; StackTheorems: callers see lists,
      the binary search is the linear one while the flag is true ([sk_set] may
      make it false, a finding), elements are freed and copied once;
    - Lhash: [lhash/lhash.c], the hash table, items linked by pointers;
      LhashProofs: the chains are lists; LhashTable: the invariant and the
      operations; LhashDoall: the iteration and [OPENSSL_lh_free];
      LhashTheorems: the table is a finite set of elements up to the equality of
      the caller, with a bounded load, and an iteration visits each element once
      although its callback deletes.

    libuv ([Pods/Libuv-gRPC/src]):
    - UvHeap: [heap-inl.h], nodes linked by pointers; UvHeapOrder, the heap on
      lists; UvHeapProofs, the pointers implement it;
    - UvQueue: [queue.h], for any type of addresses; UvQueueProofs: the macros
      are list operations, on one queue and on a family of disjoint queues;
    - UvLoop: the loop, its handles and the macros of [uv-common.h]; UvTimer:
      [timer.c]; UvRun: [unix/loop-watcher.c], the closing of handles of
      [unix/core.c] and the walks of [uv-common.c];
    - UvLoopInv: the invariant that ties the heap, the queues, the closing chain
      and the active count to the flags of the handles; UvLoopOps: each call
      keeps it; UvRunProofs: the loops that call back keep it; UvApi: programs
      of calls that follow the life cycle of their handles;
    - UvTheorems: the heap is a priority queue, the due timers fire once each in
      order, watchers run in order, each close is called back once, and any
      program of calls runs without undefined behaviour;
    - UvIo: the I/O watchers of [unix/core.c]; UvPoll: [uv__io_poll] of
      [unix/kqueue.c] and [uv_run] with its phases, over a world that the system
      calls act on; UvLogic: a small program logic for safety and for total
      correctness up to [abort()];
    - UvIoInv: the invariant of the descriptor table, the queues and the events
      in hand; UvIoProofs, UvIoOps, UvIoLife: each call on a watcher keeps it;
      UvPollProofs: the laws of the kernel and of the callbacks, and the
      registration; UvPollDispatch: the delivery; UvPollQuiet: what a poll delivers;
      UvMainProofs: the phases of [uv_run] and their order; UvIoApi:
      programs of calls on watchers, and a kernel for the witnesses;
    - UvMainTheorems: a turn without waiting runs its phases in order, a poll makes
      exactly the calls that the ready events ask for, a poll with no timeout ends,
      a closed descriptor is not heard of again, the invariants hold through
      [uv_run] whatever the callbacks call, and [abort()] comes only without memory
      or when the kernel refuses; two defects of the poll as findings;
    - UvPool: [threadpool.c]; each critical section is one function, and a step
      relation interleaves them for the workers and the thread of the loop;
      UvPoolInv: who owns each queue node and where each work is; UvPoolProofs:
      the critical sections; UvPoolSteps: the invariant under every action;
    - UvPoolTheorems: no action goes wrong and the counters are those of the
      threads, each work is called and completed at most once, a cancellation
      takes exactly the works that were not started, no wakeup is lost;
    - UvInet: [strscpy.c] and [inet.c], on character arrays with their bounds;
      UvInetProofs, UvInet6Proofs: the printed forms and that they are read back;
      UvIdna: [idna.c]; UvPuny: Punycode as RFC 3492 has
      it, the reference; UvIdnaDecode, UvIdnaProofs: a label is that
      of the reference, a name is its labels;
    - UvTextTheorems: addresses make the round trip, labels are Punycode and
      decode, names are converted label by label within the destination; the
      defects of the UTF-8 decoder and of the empty destination as findings.

    The components meet where the code calls across them: the encoder and the
    decoder of nanopb share PbCommon and PbBase, the builder's DER writers are
    read back by the reader, stacks and buffers are on the blocks of Mem, Unicode strings and BER are on both, the timers use
    the heap, the loop, its watchers and the pool use the queues, [uv_run] is made
    of all of them; each client is proved from the theorems of what it calls,
    never from its pointers.  Code that is not in the sources is a class with its
    laws: the allocators, the kernel's queue of events, the callbacks.

    ** Bounds and fuel

    A loop of the code whose length depends on the data takes a fuel, and its
    theorem gives the fuel that is enough: the bytes left for the readers of
    nanopb, the length of the input for base64 and byte strings, the number of
    the nodes for the walks of the heap (33 bits for the path), the number of
    the handles for the loops that call back, 3 turns for the loop of a worker
    (a message is taken or put behind a work), the number of items of a hash
    table and the number of its buckets for an iteration, the number of
    the elements for the search in a stack, the length of the input
    for BER.  Bounds of the code's own are written out: 2048 levels of BER, with
    inputs below [2 ^ 28] bytes so that no output reaches the four-byte lengths;
    48 turns of a poll that does not wait; 12 digits of a generalized Punycode
    number, 8 divisions of its bias, one pass for each code point, names short
    enough (3853 code points) that no counter wraps around.  The timers and a poll
    that waits may go on for ever: for [uv_run] without a bound the theorems say
    that no step goes wrong, and that a turn with quiet callbacks ends.  The nesting of messages is
    bounded by the fuel of [pb_encode] and [pb_decode]: the size and the bounds of
    whole messages are proved for every fuel, whatever it is enough for.

    ** What is not modelled

    - The Swift application, and the pods written in C++ and Objective-C.
    - Of nanopb: the code under configurations that the pod does not set.
    - Of BoringSSL: cryptographic primitives, X.509 and TLS; of [mem.c], the two
      functions that hand their arguments to [vsnprintf].
    - Of libuv: [uv_loop_init] and [uv_loop_close]; the handles that wrap system
      calls (streams, sockets, processes, signals); the file system events: the
      branches of [uv__io_poll] for them are modelled, but the invariant of the
      watchers is that of loops without such watchers ([UvIoInv.watcher_ok]), so
      no theorem enters them; the creation and the join of the threads.
    - upb and the generated descriptors, which are data for these libraries. *)
From Stdlib Require Export ZArith Lia Bool.
From Stdlib Require Strings.Byte.
From stdpp Require Export base option list gmap strings.

#[global] Open Scope Z_scope.

(** ** Machine integers: the wrap-around of each unsigned width, and the two's
    complement reading of the signed ones. *)
Definition u8 (z : Z) : Z := z mod 2 ^ 8.
Definition u16 (z : Z) : Z := z mod 2 ^ 16.
Definition u32 (z : Z) : Z := z mod 2 ^ 32.
Definition u64 (z : Z) : Z := z mod 2 ^ 64.
Definition swrap (w z : Z) : Z := (z + 2 ^ (w - 1)) mod 2 ^ w - 2 ^ (w - 1).
Definition s8 (z : Z) : Z := swrap 8 z.
Definition s16 (z : Z) : Z := swrap 16 z.
Definition s32 (z : Z) : Z := swrap 32 z.
Definition s64 (z : Z) : Z := swrap 64 z.

(** ** Bytes *)
Abbreviation byte := Corelib.Init.Byte.byte.

Definition bz (b : byte) : Z := Z.of_N (Strings.Byte.to_N b).
Definition zb (z : Z) : byte :=
  default Corelib.Init.Byte.x00 (Strings.Byte.of_N (Z.to_N (z mod 256))).

(** The length of a list as a [Z], the type of the C [size_t] values. *)
Definition zlen {A} (l : list A) : Z := Z.of_nat (length l).

(** Little-endian object representation of unsigned integers. *)
Fixpoint le_bytes (n : nat) (z : Z) : list byte :=
  match n with
  | O => []
  | S n => zb z :: le_bytes n (Z.shiftr z 8)
  end.

Fixpoint le_val (l : list byte) : Z :=
  match l with
  | [] => 0
  | b :: l => bz b + 256 * le_val l
  end.

(** ** The outcome monad: a C call under explicit state.  [Done] is a normal
    return (of a [bool] function: [true]); [Fail] is [return false], with the
    state as the callee left it; [Undef] is undefined behaviour, with its kind;
    [OutOfFuel] is a loop or recursion bound of the model that was too small. *)
Inductive ub : Set :=
| UbRead      (* a stream callback reads outside of its input buffer *)
| UbWrite     (* a stream callback writes outside of its output buffer *)
| UbMem       (* an access outside of the mapped memory *)
| UbArray     (* an index outside of a local array or of a field descriptor array *)
| UbFree      (* free or realloc of a pointer that malloc did not return *)
| UbCall      (* a call through a null function pointer *)
| UbDiv       (* a division by zero *)
| UbAssert.   (* a failed assert *)

#[export] Instance ub_eq_dec : EqDecision ub.
Proof. solve_decision. Defined.

Inductive outcome (S A : Type) : Type :=
| Done (a : A) (s : S)
| Fail (s : S)
| Undef (u : ub)
| OutOfFuel.
Arguments Done {S A} a s.
Arguments Fail {S A} s.
Arguments Undef {S A} u.
Arguments OutOfFuel {S A}.

Definition M (S A : Type) : Type := S -> outcome S A.

Section Monad.
Context {S : Type}.

Definition ret {A} (a : A) : M S A := fun s => Done a s.
Definition failed {A} : M S A := fun s => Fail s.
Definition undef {A} (u : ub) : M S A := fun _ => Undef u.
Definition out_of_fuel {A} : M S A := fun _ => OutOfFuel.
Definition bind {A B} (m : M S A) (k : A -> M S B) : M S B := fun s =>
  match m s with
  | Done a s' => k a s'
  | Fail s' => Fail s'
  | Undef u => Undef u
  | OutOfFuel => OutOfFuel
  end.
Definition gets {A} (f : S -> A) : M S A := fun s => Done (f s) s.
Definition modify (f : S -> S) : M S unit := fun s => Done tt (f s).
(** [attempt m] is the [bool] that the C caller looks at itself instead of
    returning [false] at once: [None] for [false]. *)
Definition attempt {A} (m : M S A) : M S (option A) := fun s =>
  match m s with
  | Done a s' => Done (Some a) s'
  | Fail s' => Done None s'
  | Undef u => Undef u
  | OutOfFuel => OutOfFuel
  end.
Definition of_option {A} (u : ub) (o : option A) : M S A :=
  match o with Some a => ret a | None => undef u end.
Definition assert (b : bool) : M S unit := if b then ret tt else undef UbAssert.
End Monad.

Declare Scope c_scope.
Delimit Scope c_scope with c.
Notation "'let*' x ':=' m 'in' k" := (bind m (fun x => k))
  (at level 10, x pattern, m at level 100, k at level 200, only parsing) : c_scope.
Notation "m ;;; k" := (bind m (fun _ => k))
  (at level 100, right associativity, only parsing) : c_scope.
#[global] Open Scope c_scope.

(** The laws of the monad, state by state. *)
Lemma bind_assoc {S A B C} (m : M S A) (f : A -> M S B) (g : B -> M S C) s :
  bind (bind m f) g s = bind m (fun x => bind (f x) g) s.
Proof. unfold bind. by destruct (m s). Qed.

Lemma bind_ext {S A B} (m : M S A) (k k' : A -> M S B) s :
  (forall a t, k a t = k' a t) -> bind m k s = bind m k' s.
Proof. intros E. unfold bind. destruct (m s); [apply E|done..]. Qed.

Lemma bind_done {S A B} (m : M S A) (k : A -> M S B) s a t :
  m s = Done a t -> bind m k s = k a t.
Proof. unfold bind. by intros ->. Qed.

Lemma bind_fail {S A B} (m : M S A) (k : A -> M S B) s t : m s = Fail t -> bind m k s = Fail t.
Proof. unfold bind. by intros ->. Qed.

Lemma bind_gets {B S T} (f : S -> T) s (k : T -> M S B) : bind (gets f) k s = k (f s) s.
Proof. done. Qed.

(** An assert that holds, and what follows it. *)
Lemma bind_assert {S A} (b : bool) (k : unit -> M S A) s : b = true -> bind (assert b) k s = k tt s.
Proof. by intros ->. Qed.

Lemma bind_modify {B S} (f : S -> S) s (k : unit -> M S B) : bind (modify f) k s = k tt (f s).
Proof. done. Qed.

(** ** Callers: programs that call operations and go on by the results *)
Inductive caller (Op Res : Type) : Type := Stop | Calls (op : Op) (k : Res -> caller Op Res).
Arguments Stop {Op Res}.
Arguments Calls {Op Res} _ _.

Section Callers.
Context {St A Op Res : Type}.

(** The operations, and the specification: the steps of the abstract state, and
    what may be called in it. *)
Variables (run : Op -> M St Res) (step : A -> Op -> Res -> A -> Prop) (callable : A -> Op -> Prop).

Fixpoint run_caller (cl : caller Op Res) : M St (list Res) :=
  match cl with
  | Stop => ret []
  | Calls op k => let* r := run op in let* rs := run_caller (k r) in ret (r :: rs)
  end.

(** Each call is allowed, whatever the calls before it gave. *)
Fixpoint careful (a : A) (cl : caller Op Res) : Prop :=
  match cl with
  | Stop => True
  | Calls op k => callable a op /\ forall r a', step a op r a' -> careful a' (k r)
  end.

Inductive caller_steps : A -> caller Op Res -> list Res -> A -> Prop :=
| steps_stop a : caller_steps a Stop [] a
| steps_calls a op k r a1 rs a2 : step a op r a1 -> caller_steps a1 (k r) rs a2 -> caller_steps a (Calls op k) (r :: rs) a2.

(** A simulation of each operation is one of all callers. *)
Variable rep : St -> A -> Prop.
Hypothesis op_goes : forall op s a, rep s a -> callable a op -> exists r s' a', run op s = Done r s' /\ step a op r a' /\ rep s' a'.

Lemma caller_goes cl : forall s a, rep s a -> careful a cl ->
  exists rs s' a', run_caller cl s = Done rs s' /\ caller_steps a cl rs a' /\ rep s' a'.
Proof.
  induction cl as [|op k IH]; intros s a R Hc; cbn [run_caller].
  - exists [], s, a. split; [done|]. split; [constructor|done].
  - destruct Hc as [Hop Hk]. destruct (op_goes op s a R Hop) as (r & s1 & a1 & E & Hst & R1).
    destruct (IH r s1 a1 R1 (Hk r a1 Hst)) as (rs & s2 & a2 & E2 & Hsts & R2).
    exists (r :: rs), s2, a2. rewrite (bind_done _ _ _ _ _ E), (bind_done _ _ _ _ _ E2). split; [done|]. split; [|done].
    by apply (steps_calls _ _ _ _ a1).
Qed.
End Callers.

(** ** Bytes and their values *)
Lemma bz_range b : 0 <= bz b < 256.
Proof.
  unfold bz. pose proof (Strings.Byte.to_N_bounded b). lia.
Qed.

Lemma bz_zb z : bz (zb z) = z mod 256.
Proof.
  unfold bz, zb. pose proof (Z.mod_pos_bound z 256 ltac:(lia)) as Hz.
  destruct (Strings.Byte.of_N _) as [b|] eqn:E; simpl.
  - apply Strings.Byte.to_of_N in E. rewrite E. lia.
  - apply Strings.Byte.of_N_None_iff in E. lia.
Qed.

Lemma bz_inj b c : bz b = bz c -> b = c.
Proof.
  unfold bz. intros H. apply N2Z.inj in H.
  pose proof (Strings.Byte.of_to_N b) as Hb.
  pose proof (Strings.Byte.of_to_N c) as Hc. congruence.
Qed.

Lemma zb_bz b : zb (bz b) = b.
Proof.
  apply bz_inj. rewrite bz_zb. apply Z.mod_small, bz_range.
Qed.

Lemma bz_zb_small z : 0 <= z < 256 -> bz (zb z) = z.
Proof. intros. rewrite bz_zb. by apply Z.mod_small. Qed.

Lemma zb_mod z : zb (z mod 256) = zb z.
Proof. apply bz_inj. rewrite !bz_zb. apply Zmod_mod. Qed.

#[export] Instance byte_eq_dec : EqDecision byte := Strings.Byte.byte_eq_dec.

(** ** Lengths *)
Lemma zlen_nil {A} : zlen ([] : list A) = 0.
Proof. reflexivity. Qed.
Lemma zlen_cons {A} (x : A) l : zlen (x :: l) = 1 + zlen l.
Proof. unfold zlen. simpl length. lia. Qed.
Lemma zlen_app {A} (l k : list A) : zlen (l ++ k) = zlen l + zlen k.
Proof. unfold zlen. rewrite length_app. lia. Qed.
Lemma zlen_nonneg {A} (l : list A) : 0 <= zlen l.
Proof. unfold zlen. lia. Qed.
Lemma zlen_to_nat {A} (l : list A) : Z.to_nat (zlen l) = length l.
Proof. unfold zlen. lia. Qed.
Lemma zlen_drop {A} n (l : list A) : (n <= length l)%nat -> zlen (drop n l) = zlen l - Z.of_nat n.
Proof. intros. unfold zlen. rewrite length_drop. lia. Qed.
Lemma zlen_take {A} n (l : list A) : (n <= length l)%nat -> zlen (take n l) = Z.of_nat n.
Proof. intros. unfold zlen. rewrite length_take. lia. Qed.

Create Rewrite HintDb zlen.
#[export] Hint Rewrite @zlen_nil @zlen_cons @zlen_app : zlen.
#[export] Hint Resolve zlen_nonneg bz_range : core.

(** Arithmetic on lengths: push [zlen] to the atoms, which are not negative. *)
Ltac zlen_pos :=
  repeat match goal with
  | |- context [@zlen ?A ?l] =>
      lazymatch goal with
      | _ : 0 <= @zlen A l |- _ => fail
      | _ => pose proof (@zlen_nonneg A l)
      end
  | _ : context [@zlen ?A ?l] |- _ =>
      lazymatch goal with
      | _ : 0 <= @zlen A l |- _ => fail
      | _ => pose proof (@zlen_nonneg A l)
      end
  end.
Ltac zl := autorewrite with zlen in *; zlen_pos; lia.

(** ** How many elements satisfy a boolean predicate *)
Definition count {A} (f : A -> bool) (l : list A) : Z := zlen (List.filter f l).

Lemma count_cons {A} (f : A -> bool) x l : count f (x :: l) = Z.b2z (f x) + count f l.
Proof. unfold count. cbn. destruct (f x); [by rewrite zlen_cons|done]. Qed.

Lemma count_app {A} (f : A -> bool) l k : count f (l ++ k) = count f l + count f k.
Proof. unfold count. by rewrite List.filter_app, zlen_app. Qed.

Lemma count_ext {A} (f g : A -> bool) l : (forall x, x ∈ l -> f x = g x) -> count f l = count g l.
Proof.
  induction l as [|x l IH]; [done|]. intros E. rewrite !count_cons, IH, E; [done|by left|].
  intros y Hy. apply E. by right.
Qed.

#[export] Instance count_perm {A} (f : A -> bool) : Proper ((≡ₚ) ==> eq) (count f).
Proof.
  induction 1 as [|x l k _ IH|x y l|l k m _ IH1 _ IH2]; [done| | |congruence].
  - by rewrite !count_cons, IH.
  - rewrite !count_cons. lia.
Qed.

(** The predicate changes at one element. *)
Lemma count_change {A} (f g : A -> bool) x l :
  NoDup l -> x ∈ l -> (forall y, y <> x -> f y = g y) ->
  count f l = count g l + Z.b2z (f x) - Z.b2z (g x).
Proof.
  intros Hd Hx E. apply list_elem_of_split in Hx as (l1 & l2 & ->).
  rewrite <- Permutation_middle in *. apply NoDup_cons in Hd as [Hx _].
  rewrite !count_cons, (count_ext f g (l1 ++ l2)); [lia|]. intros y Hy. apply E. by intros ->.
Qed.

(** One element [x] that counts in [l] counts no more in [k], that has the same
    others. *)
Lemma count_less `{EqDecision A} (f g : A -> bool) x l k :
  NoDup l -> NoDup k -> x ∈ l -> g x = true -> (x ∈ k -> f x = false) ->
  (forall y, y <> x -> f y = g y) -> (forall y, y <> x -> y ∈ k <-> y ∈ l) ->
  count f k + 1 = count g l.
Proof.
  intros Hl Hk (l1 & l2 & ->)%list_elem_of_split Hg Hf Hfg Hm.
  rewrite <- Permutation_middle in *. apply NoDup_cons in Hl as Hl'. destruct Hl' as [Hx Hd].
  assert (forall y, y ∈ l1 ++ l2 -> y <> x) as Hne by (by intros y Hy ->).
  assert (k ≡ₚ x :: l1 ++ l2 /\ f x = false \/ k ≡ₚ l1 ++ l2) as Hk'.
  { assert (forall y, y <> x -> y ∈ k <-> y ∈ x :: l1 ++ l2) as Hm'.
    { intros y Hy. rewrite Hm, elem_of_cons, elem_of_app, elem_of_app, elem_of_cons by done. tauto. }
    destruct (decide (x ∈ k)) as [Hxk|Hxk]; [left; split; [|by apply Hf]|right];
      (apply NoDup_Permutation; [done..|]); intros y; destruct (decide (y = x)) as [->|Hy].
    - split; [by left|done].
    - by apply Hm'.
    - split; [done|]. by intros ?%Hne.
    - rewrite Hm', elem_of_cons by done. tauto. }
  rewrite count_cons, Hg. destruct Hk' as [[-> Hfx]| ->]; [rewrite count_cons, Hfx|];
    rewrite (count_ext f g (l1 ++ l2)) by (intros y Hy; by apply Hfg, Hne); cbn; lia.
Qed.

(** One element of a list is replaced. *)
Lemma count_insert {A} (f : A -> bool) l i x y :
  l !! i = Some x -> count f (<[i := y]> l) = count f l - Z.b2z (f x) + Z.b2z (f y).
Proof.
  intros E. rewrite <- (take_drop_middle l i x E) at 2. pose proof (lookup_lt_Some _ _ _ E).
  rewrite insert_take_drop, !count_app, !count_cons by done. lia.
Qed.

Lemma count_pos {A} (f : A -> bool) l : 0 < count f l <-> exists i x, l !! i = Some x /\ f x = true.
Proof.
  induction l as [|y l IH].
  - split; [done|]. intros (i & x & E & _). by rewrite lookup_nil in E.
  - rewrite count_cons. split.
    + destruct (f y) eqn:Ey; [intros _; by exists O, y|]. cbn. intros H. destruct (proj1 IH H) as (i & x & E & Ex).
      by exists (S i), x.
    + intros ([|i] & x & E & Ex); cbn in E.
      * injection E as ->. rewrite Ex. pose proof (zlen_nonneg (List.filter f l)). unfold count. cbn. lia.
      * assert (0 < count f l) by (apply IH; eauto). destruct (f y); cbn; lia.
Qed.

Lemma count_bounds {A} (f : A -> bool) l : 0 <= count f l <= zlen l.
Proof.
  induction l as [|x l IH]; [done|]. rewrite count_cons, zlen_cons. destruct (f x); cbn; lia.
Qed.

(** ** One element out of a list without duplicates *)
Lemma filter_none (p : Z) (k : list Z) : p ∉ k -> filter (fun q => q <> p) k = k.
Proof.
  intros Hp. induction k as [|x k IH]; [done|]. rewrite elem_of_cons in Hp.
  rewrite filter_cons_True, IH; [done|tauto..|]. intros ->. tauto.
Qed.

Lemma filter_at (p : Z) (k1 k2 : list Z) :
  NoDup (k1 ++ p :: k2) -> filter (fun q => q <> p) (k1 ++ p :: k2) = k1 ++ k2.
Proof.
  intros Hd. rewrite <- Permutation_middle in Hd. apply NoDup_cons in Hd as [Hn _].
  apply not_elem_of_app in Hn as [H1 H2]. rewrite filter_app, filter_cons_False by tauto.
  by rewrite !filter_none.
Qed.

(** ** Little-endian representations *)
Lemma length_le_bytes n z : length (le_bytes n z) = n.
Proof. revert z. induction n; simpl; auto. Qed.

Lemma le_val_range l : 0 <= le_val l < 256 ^ zlen l.
Proof.
  induction l as [|b l IH]; cbn [le_val]; [split; [lia|reflexivity]|].
  rewrite zlen_cons. pose proof (zlen_nonneg l).
  rewrite Z.pow_add_r by lia.
  pose proof (bz_range b). lia.
Qed.

Lemma le_val_bytes n z : le_val (le_bytes n z) = z mod 256 ^ Z.of_nat n.
Proof.
  revert z. induction n as [|n IH]; intros z; cbn [le_bytes le_val].
  { by rewrite Z.mod_1_r. }
  rewrite IH, bz_zb, Z.shiftr_div_pow2 by lia. change (2 ^ 8) with 256.
  rewrite Nat2Z.inj_succ, Z.pow_succ_r by lia.
  rewrite (Z.rem_mul_r z 256) by lia. lia.
Qed.

Lemma le_bytes_val l : le_bytes (length l) (le_val l) = l.
Proof.
  induction l as [|b l IH]; [done|]. cbn [length le_bytes le_val]. f_equal.
  - rewrite <- zb_mod, Z.mul_comm, Z_mod_plus_full, zb_mod. apply zb_bz.
  - rewrite Z.shiftr_div_pow2 by lia. change (2 ^ 8) with 256.
    rewrite Z.mul_comm, Z_div_plus_full by lia.
    rewrite Z.div_small by apply bz_range. apply IH.
Qed.

Lemma le_val_inj l k : length l = length k -> le_val l = le_val k -> l = k.
Proof.
  intros Hl Hv. rewrite <- (le_bytes_val l), <- (le_bytes_val k). congruence.
Qed.

(** ** Bit operations as arithmetic *)
Lemma land_low_shifted n a b : 0 <= n -> 0 <= a < 2 ^ n -> Z.land a (Z.shiftl b n) = 0.
Proof.
  intros Hn Ha. apply Z.bits_inj'. intros i Hi.
  rewrite Z.land_spec, Z.shiftl_spec, Z.bits_0 by lia.
  destruct (Z.ltb_spec i n).
  - rewrite (Z.testbit_neg_r b) by lia. apply andb_false_r.
  - rewrite <- (Z.mod_small a (2 ^ n)) by lia.
    by rewrite Z.mod_pow2_bits_high by lia.
Qed.

Lemma lor_low_shifted n a b : 0 <= n -> 0 <= a < 2 ^ n -> Z.lor a (Z.shiftl b n) = a + b * 2 ^ n.
Proof.
  intros Hn Ha. rewrite <- Z.shiftl_mul_pow2 by lia.
  by rewrite Z.add_nocarry_lor by (by apply land_low_shifted).
Qed.

Lemma land_ones_mod n a m : 0 <= n -> m = Z.ones n -> Z.land a m = a mod 2 ^ n.
Proof. intros ? ->. by apply Z.land_ones. Qed.

Lemma land_127 v : Z.land v 127 = v mod 128.
Proof. apply (land_ones_mod 7); [lia | reflexivity]. Qed.

Lemma land_255 v : Z.land v 255 = v mod 256.
Proof. apply (land_ones_mod 8); [lia | reflexivity]. Qed.

Lemma lor_128 a : 0 <= a < 128 -> Z.lor a 128 = a + 128.
Proof. intros. apply (lor_low_shifted 7 a 1); lia. Qed.

(** Bit 7, the continuation bit of a varint byte. *)
Lemma land_128 a : 0 <= a < 256 -> (Z.land a 128 =? 0) = (a <? 128).
Proof.
  intros Ha. change 128 with (2 ^ 7) at 1. rewrite Z.land_comm.
  assert (Z.land (2 ^ 7) a = if Z.testbit a 7 then 2 ^ 7 else 0) as ->.
  { apply Z.bits_inj'. intros i Hi. rewrite Z.land_spec, Z.pow2_bits_eqb by lia.
    destruct (Z.eqb_spec 7 i) as [<-|Hne]; [rewrite andb_true_l|rewrite andb_false_l].
    - destruct (Z.testbit a 7); [reflexivity|by rewrite Z.bits_0].
    - destruct (Z.testbit a 7); [|by rewrite Z.bits_0].
      rewrite Z.pow2_bits_eqb by lia. symmetry. by apply Z.eqb_neq. }
  rewrite Z.testbit_eqb by lia. change (2 ^ 7) with 128.
  destruct (Z.ltb_spec a 128) as [|Hge].
  - rewrite (Z.div_small a) by lia. done.
  - replace (a / 128) with 1; [done|]. apply (Z.div_unique a 128 1 (a - 128)); lia.
Qed.

(** A statement about the bytes, checked one by one. *)
Lemma forall_byte (P : Z -> bool) :
  forallb P (map Z.of_nat (seq 0 256)) = true -> forall a, 0 <= a < 256 -> P a = true.
Proof.
  intros H a Ha. rewrite forallb_forall in H. apply H. apply in_map_iff.
  exists (Z.to_nat a). split; [lia|]. apply in_seq. lia.
Qed.

(** ** Linear arithmetic with division and modulo *)
Ltac zdm := Z.div_mod_to_equations; lia.

Lemma zlen_insert {A} (l : list A) i x : zlen (<[i := x]> l) = zlen l.
Proof. unfold zlen. by rewrite length_insert. Qed.

Lemma u64_small z : 0 <= z < 2 ^ 64 -> u64 z = z.
Proof. apply Z.mod_small. Qed.
Lemma u32_small z : 0 <= z < 2 ^ 32 -> u32 z = z.
Proof. apply Z.mod_small. Qed.
Lemma u64_range z : 0 <= u64 z < 2 ^ 64.
Proof. by apply Z.mod_pos_bound. Qed.
Lemma u32_range z : 0 <= u32 z < 2 ^ 32.
Proof. by apply Z.mod_pos_bound. Qed.
Lemma u64_add_l a b : u64 (u64 a + b) = u64 (a + b).
Proof. apply Zplus_mod_idemp_l. Qed.
Lemma u64_add_r a b : u64 (a + u64 b) = u64 (a + b).
Proof. apply Zplus_mod_idemp_r. Qed.

Lemma swrap_range w z : 0 < w -> - 2 ^ (w - 1) <= swrap w z < 2 ^ (w - 1).
Proof.
  intros Hw. unfold swrap.
  assert (2 ^ w = 2 * 2 ^ (w - 1)) as -> by (rewrite <- Z.pow_succ_r by lia; f_equal; lia).
  pose proof (Z.pow_pos_nonneg 2 (w - 1) ltac:(lia) ltac:(lia)).
  pose proof (Z.mod_pos_bound (z + 2 ^ (w - 1)) (2 * 2 ^ (w - 1)) ltac:(lia)). lia.
Qed.

Lemma swrap_small w z : 0 < w -> - 2 ^ (w - 1) <= z < 2 ^ (w - 1) -> swrap w z = z.
Proof.
  intros Hw Hz. unfold swrap.
  assert (2 ^ w = 2 * 2 ^ (w - 1)) as -> by (rewrite <- Z.pow_succ_r by lia; f_equal; lia).
  rewrite Z.mod_small; lia.
Qed.

Lemma swrap_mod w z : 0 < w -> swrap w z mod 2 ^ w = z mod 2 ^ w.
Proof.
  intros Hw. unfold swrap. rewrite Zminus_mod_idemp_l. f_equal. lia.
Qed.

Lemma swrap_of_mod w z : 0 < w -> swrap w (z mod 2 ^ w) = swrap w z.
Proof. intros Hw. unfold swrap. by rewrite Zplus_mod_idemp_l. Qed.
