(* ===== verification/Utf8.v ===== *)
(** Unicode scalar values and UTF-8 (RFC 3629, section 3), the specification of
    the decoders and of the encoder of UTF-8 in libuv and in BoringSSL. *)
From S2P Require Import Prelude.

(** ** Unicode scalar values and their encoding *)
Definition scalar (c : Z) : Prop := 0 <= c <= 1114111 /\ ~ 55296 <= c <= 57343.

Definition utf8 (c : Z) : list Z :=
  if c <? 128 then [c]
  else if c <? 2048 then [192 + c / 64; 128 + c mod 64]
  else if c <? 65536 then [224 + c / 4096; 128 + c / 64 mod 64; 128 + c mod 64]
  else [240 + c / 262144; 128 + c / 4096 mod 64; 128 + c / 64 mod 64; 128 + c mod 64].

Definition utf8s (cps : list Z) : list Z := concat (map utf8 cps).

Lemma utf8s_cons c cps : utf8s (c :: cps) = utf8 c ++ utf8s cps.
Proof. done. Qed.
Lemma utf8s_app l k : utf8s (l ++ k) = utf8s l ++ utf8s k.
Proof. unfold utf8s. by rewrite map_app, concat_app. Qed.

Lemma zlen_utf8 c : 1 <= zlen (utf8 c) <= 4.
Proof. unfold utf8. destruct (c <? 128), (c <? 2048), (c <? 65536); unfold zlen; cbn; lia. Qed.

(** A statement about the numbers below [n], checked one by one. *)
Lemma forall_below n (P : Z -> bool) v : forallb P (seqZ 0 n) = true -> 0 <= v < n -> P v = true.
Proof.
  intros H Hv. apply (proj1 (forallb_forall _ _) H), list_elem_of_In, elem_of_seqZ. lia.
Qed.

