(* ===== verification/PbBase.v ===== *)
(** nanopb, the data of [pb.h]: the type codes of a field descriptor, the
    descriptors, the C memory that message structures live in (with the malloc
    blocks of the dynamically allocated fields) and its typed accesses.  The
    configuration is the one of the build (Target Support Files, nanopb
    xcconfig): PB_FIELD_32BIT, PB_NO_PACKED_STRUCTS, PB_ENABLE_MALLOC, 64-bit
    pointers. *)
From S2P Require Import Prelude.

(** ** Field type codes *)
Definition pb_type_t : Type := Z.

Definition PB_LTYPE_BOOL : Z := 0.
Definition PB_LTYPE_VARINT : Z := 1.
Definition PB_LTYPE_UVARINT : Z := 2.
Definition PB_LTYPE_SVARINT : Z := 3.
Definition PB_LTYPE_FIXED32 : Z := 4.
Definition PB_LTYPE_FIXED64 : Z := 5.
Definition PB_LTYPE_LAST_PACKABLE : Z := 5.
Definition PB_LTYPE_BYTES : Z := 6.
Definition PB_LTYPE_STRING : Z := 7.
Definition PB_LTYPE_SUBMESSAGE : Z := 8.
Definition PB_LTYPE_EXTENSION : Z := 9.
Definition PB_LTYPE_FIXED_LENGTH_BYTES : Z := 10.
Definition PB_LTYPES_COUNT : Z := 11.

Definition PB_HTYPE_REQUIRED : Z := 0.
Definition PB_HTYPE_OPTIONAL : Z := 16.
Definition PB_HTYPE_REPEATED : Z := 32.
Definition PB_HTYPE_ONEOF : Z := 48.

Definition PB_ATYPE_STATIC : Z := 0.
Definition PB_ATYPE_POINTER : Z := 128.
Definition PB_ATYPE_CALLBACK : Z := 64.

Definition PB_ATYPE (x : pb_type_t) : Z := Z.land x 192.
Definition PB_HTYPE (x : pb_type_t) : Z := Z.land x 48.
Definition PB_LTYPE (x : pb_type_t) : Z := Z.land x 15.

(** [pb_size_t] is [uint32_t] under PB_FIELD_32BIT. *)
Definition PB_SIZE_MAX : Z := 2 ^ 32 - 1.
Definition SIZE_MAX : Z := 2 ^ 64 - 1.
Definition sizeof_ptr : Z := 8.
Definition PB_MAX_REQUIRED_FIELDS : Z := 64.

(** ** Field descriptors.  [pf_ptr] is the pointer to the submessage's
    descriptor array, or to the default value. *)
Record pb_field : Type := mk_field {
  pf_tag : Z;
  pf_type : pb_type_t;
  pf_data_offset : Z;
  pf_size_offset : Z;
  pf_data_size : Z;
  pf_array_size : Z;
  pf_ptr : Z
}.

Definition PB_LAST_FIELD : pb_field := mk_field 0 0 0 0 0 0 0.

(** The descriptor arrays of the program, by address. *)
Class Descriptors : Type := descs : Z -> list pb_field.

(** The ranges of the C types of a descriptor's members. *)
Record field_typed (f : pb_field) : Prop := {
  typed_tag : 0 <= pf_tag f < 2 ^ 32;
  typed_type : 0 <= pf_type f < 2 ^ 8;
  typed_data_offset : 0 <= pf_data_offset f < 2 ^ 32;
  typed_size_offset : - 2 ^ 31 <= pf_size_offset f < 2 ^ 31;
  typed_data_size : 0 <= pf_data_size f < 2 ^ 32;
  typed_array_size : 0 <= pf_array_size f < 2 ^ 32
}.

Class TypedDescriptors `{Descriptors} : Prop :=
  descs_typed : forall p, Forall field_typed (descs p).

(** ** Wire types *)
Definition PB_WT_VARINT : Z := 0.
Definition PB_WT_64BIT : Z := 1.
Definition PB_WT_STRING : Z := 2.
Definition PB_WT_32BIT : Z := 5.

(** [offsetof(pb_bytes_array_t, bytes)] and the allocation size of a bytes array. *)
Definition pb_bytes_offset : Z := 4.
Definition PB_BYTES_ARRAY_T_ALLOCSIZE (n : Z) : Z := u64 (n + pb_bytes_offset).

(** Layout of [pb_callback_t], [pb_extension_type_t] and [pb_extension_t]. *)
Definition callback_funcs (p : Z) : Z := p.
Definition callback_arg (p : Z) : Z := p + 8.
Definition ext_type_decode (p : Z) : Z := p.
Definition ext_type_encode (p : Z) : Z := p + 8.
Definition ext_type_arg (p : Z) : Z := p + 16.
Definition ext_type (p : Z) : Z := p.
Definition ext_dest (p : Z) : Z := p + 8.
Definition ext_next (p : Z) : Z := p + 16.
Definition ext_found (p : Z) : Z := p + 24.

(** ** Memory: the mapped bytes, and the blocks that malloc handed out. *)
Record mem : Type := mk_mem { m_bytes : gmap Z byte; m_blocks : gmap Z Z }.

Fixpoint load_map (b : gmap Z byte) (a : Z) (n : nat) : option (list byte) :=
  match n with
  | O => Some []
  | S n => match b !! a, load_map b (a + 1) n with
           | Some x, Some l => Some (x :: l)
           | _, _ => None
           end
  end.

Fixpoint store_map (b : gmap Z byte) (a : Z) (l : list byte) : option (gmap Z byte) :=
  match l with
  | [] => Some b
  | x :: l => match b !! a with
              | Some _ => store_map (<[a := x]> b) (a + 1) l
              | None => None
              end
  end.

Definition load_bytes (m : mem) (a : Z) (n : Z) : option (list byte) :=
  load_map (m_bytes m) a (Z.to_nat n).

Definition store_bytes (m : mem) (a : Z) (l : list byte) : option mem :=
  match store_map (m_bytes m) a l with
  | Some b => Some (mk_mem b (m_blocks m))
  | None => None
  end.

Definition load_uint (m : mem) (a : Z) (n : Z) : option Z :=
  match load_bytes m a n with Some l => Some (le_val l) | None => None end.

Definition store_uint (m : mem) (a : Z) (n v : Z) : option mem :=
  store_bytes m a (le_bytes (Z.to_nat n) v).

(** ** The allocator: libc's, a parameter.  [pb_malloc m n] is the address of a
    new block of [n] bytes, [None] for failure; [junk] is what fresh memory holds. *)
Class Allocator : Type := {
  pb_malloc : mem -> Z -> option Z;
  junk : Z -> byte
}.

Fixpoint map_block (b : gmap Z byte) (a : Z) (l : list byte) : gmap Z byte :=
  match l with
  | [] => b
  | x :: l => map_block (<[a := x]> b) (a + 1) l
  end.

Fixpoint unmap_block (b : gmap Z byte) (a : Z) (n : nat) : gmap Z byte :=
  match n with
  | O => b
  | S n => unmap_block (delete a b) (a + 1) n
  end.

Fixpoint junk_bytes `{Allocator} (a : Z) (n : nat) : list byte :=
  match n with
  | O => []
  | S n => junk a :: junk_bytes (a + 1) n
  end.

(** [free(p)]: [None] when [p] is not a live block. *)
Definition pb_free (m : mem) (p : Z) : option mem :=
  if p =? 0 then Some m
  else match m_blocks m !! p with
       | Some n => Some (mk_mem (unmap_block (m_bytes m) p (Z.to_nat n)) (delete p (m_blocks m)))
       | None => None
       end.

(** [realloc(p, n)]: outer [None] for undefined behaviour; the pointer is 0 and
    the memory unchanged when the allocation fails. *)
Definition pb_realloc `{Allocator} (m : mem) (p n : Z) : option (Z * mem) :=
  let old := if p =? 0 then Some []
             else match m_blocks m !! p with
                  | Some k => load_bytes m p k
                  | None => None
                  end in
  match old, pb_free m p with
  | Some l, Some m' =>
      match pb_malloc m' n with
      | Some q =>
          let init := take (Z.to_nat n)
                        (l ++ junk_bytes (q + zlen l) (Z.to_nat (n - zlen l))) in
          Some (q, mk_mem (map_block (m_bytes m') q init) (<[q := n]> (m_blocks m')))
      | None => Some (0, m)
      end
  | _, _ => None
  end.

(** ** Reading and writing memory *)
Lemma load_map_length b a n l : load_map b a n = Some l -> length l = n.
Proof.
  revert a l. induction n as [|n IH]; intros a l; cbn [load_map].
  - intros [= <-]. done.
  - destruct (b !! a); [|done]. destruct (load_map b (a + 1) n) eqn:E; [|done].
    intros [= <-]. cbn. f_equal. eauto.
Qed.

Lemma load_bytes_len m a n l : 0 <= n -> load_bytes m a n = Some l -> zlen l = n.
Proof.
  intros Hn Hl. apply load_map_length in Hl. unfold zlen. lia.
Qed.

Lemma load_uint_range m a n v : 0 <= n -> load_uint m a n = Some v -> 0 <= v < 256 ^ n.
Proof.
  intros Hn. unfold load_uint. destruct (load_bytes m a n) as [l|] eqn:E; [|done].
  intros [= <-]. apply load_bytes_len in E; [|done]. rewrite <- E. apply le_val_range.
Qed.
