(* ===== verification/PbWire.v ===== *)
(** The protobuf wire format as pure functions: the specification that the
    nanopb writers and readers are proved against. *)
From S2P Require Import Prelude.

(** ** Varints: 7 bits per byte, least significant first, bit 7 for "more". *)
Fixpoint varint_digits (n : nat) (v : Z) : list byte :=
  match n with
  | O => []
  | S n => if v <? 128 then [zb v] else zb (v mod 128 + 128) :: varint_digits n (v / 128)
  end.

Definition varint_bytes (v : Z) : list byte := varint_digits 10 v.

(** ** Zigzag: signed integers as unsigned ones of the same magnitude. *)
Definition zigzag (v : Z) : Z := if v <? 0 then - 2 * v - 1 else 2 * v.
Definition unzigzag (z : Z) : Z := if Z.odd z then - (z / 2) - 1 else z / 2.

Lemma unzigzag_zigzag v : unzigzag (zigzag v) = v.
Proof.
  unfold unzigzag, zigzag. destruct (Z.ltb_spec v 0).
  - replace (- 2 * v - 1) with (2 * (- v - 1) + 1) by lia.
    rewrite Z.add_1_r, Z.odd_succ, Z.even_mul. simpl orb.
    change (- (Z.succ (2 * (- v - 1)) / 2) - 1 = v). zdm.
  - rewrite Z.odd_mul. simpl andb. zdm.
Qed.

(** The value of a run of varint bytes, with the top bit of the last one ignored. *)
Fixpoint digits_val (l : list byte) : Z :=
  match l with
  | [] => 0
  | b :: l => bz b mod 128 + 128 * digits_val l
  end.

Lemma varint_digits_len n v : (length (varint_digits n v) <= n)%nat.
Proof.
  revert v. induction n as [|n IH]; intros v; cbn [varint_digits]; [done|].
  destruct (v <? 128); cbn [length]; [lia|]. specialize (IH (v / 128)). lia.
Qed.

Lemma varint_digits_pos n v : (0 < n)%nat -> (0 < length (varint_digits n v))%nat.
Proof. destruct n; [lia|]. intros _. cbn [varint_digits]. destruct (v <? 128); cbn [length]; lia. Qed.

Lemma varint_bytes_len v : 1 <= zlen (varint_bytes v) <= 10.
Proof.
  pose proof (varint_digits_len 10 v). pose proof (varint_digits_pos 10 v ltac:(lia)).
  unfold zlen, varint_bytes. lia.
Qed.

Lemma varint_digits_small n v : v < 128 -> varint_digits (S n) v = [zb v].
Proof. intros. cbn [varint_digits]. by destruct (Z.ltb_spec v 128); [|lia]. Qed.

Lemma varint_digits_big n v :
  128 <= v -> varint_digits (S n) v = zb (v mod 128 + 128) :: varint_digits n (v / 128).
Proof. intros. cbn [varint_digits]. by destruct (Z.ltb_spec v 128); [lia|]. Qed.

Lemma digits_val_varint n v :
  0 <= v < 128 ^ Z.of_nat n -> (0 < n)%nat -> digits_val (varint_digits n v) = v.
Proof.
  revert v. induction n as [|n IH]; intros v Hv Hn; [lia|].
  destruct (Z.lt_ge_cases v 128).
  - rewrite varint_digits_small by lia. cbn [digits_val].
    rewrite bz_zb_small by lia. rewrite Z.mod_small; lia.
  - rewrite varint_digits_big by lia. cbn [digits_val].
    pose proof (Z.mod_pos_bound v 128 ltac:(lia)).
    rewrite bz_zb_small by lia.
    rewrite Nat2Z.inj_succ, Z.pow_succ_r in Hv by lia.
    assert (0 <= v / 128 < 128 ^ Z.of_nat n) as Hd.
    { split; [apply Z.div_pos; lia|]. apply Z.div_lt_upper_bound; lia. }
    destruct n as [|n].
    { change (128 ^ Z.of_nat 0) with 1 in Hv. lia. }
    rewrite IH by lia. rewrite <- Zplus_mod_idemp_r.
    change (128 mod 128) with 0. rewrite Z.add_0_r, Zmod_mod. zdm.
Qed.

(** As many digits as there are do. *)
Lemma varint_digits_enough n v :
  0 <= v < 128 ^ Z.of_nat n -> (0 < n)%nat ->
  let k := length (varint_digits n v) in
  (0 < k)%nat /\ 0 <= v < 128 ^ Z.of_nat k /\ varint_digits k v = varint_digits n v.
Proof.
  revert v. induction n as [|n IH]; intros v Hv Hn k; [lia|]. subst k.
  destruct (Z.lt_ge_cases v 128).
  - rewrite varint_digits_small by lia. cbn [length]. rewrite varint_digits_small by lia.
    change (128 ^ Z.of_nat 1) with 128. auto with lia.
  - rewrite Nat2Z.inj_succ, Z.pow_succ_r in Hv by lia.
    assert (1 <= v / 128 < 128 ^ Z.of_nat n) as Hv'.
    { split; [apply Z.div_le_lower_bound; lia|]. apply Z.div_lt_upper_bound; lia. }
    assert (0 < n)%nat by (destruct n; [change (128 ^ Z.of_nat 0) with 1 in Hv'; lia|lia]).
    destruct (IH (v / 128)) as (Hk & Hvk & Heq); [lia|done|].
    rewrite varint_digits_big by lia. cbn [length].
    rewrite varint_digits_big, Heq by lia. split; [lia|]. split; [|done].
    rewrite Nat2Z.inj_succ, Z.pow_succ_r by lia.
    pose proof (Z.mod_pos_bound v 128 ltac:(lia)).
    pose proof (Z.div_mod v 128 ltac:(lia)). nia.
Qed.
