(* ===== verification/PbCommon.v ===== *)
(** nanopb, [pb_common.c]: the field iterator that the encoder and the decoder
    walk a message's descriptor array with.  A position is an index in the
    array; reading past the array is [UbArray]. *)
From S2P Require Import Prelude.
From S2P Require Import PbBase.

(** Where [pSize] points: into memory, or at the local [fixed_count_size] of
    [pb_decode_noinit]. *)
Inductive size_cell : Type :=
| CMem (a : Z)
| CFixed.

#[export] Instance size_cell_eq_dec : EqDecision size_cell.
Proof. solve_decision. Defined.

Record pb_field_iter : Type := mk_iter {
  it_start : list pb_field;
  it_pos : nat;
  it_req : Z;                     (* required_field_index *)
  it_dest : Z;                    (* dest_struct *)
  it_pData : Z;
  it_pSize : size_cell
}.

Definition field_at (l : list pb_field) (i : nat) : M pb_field_iter pb_field :=
  of_option UbArray (l !! i).

(** [iter->pos] read. *)
Definition iter_field : M pb_field_iter pb_field := fun it =>
  field_at (it_start it) (it_pos it) it.

Definition pb_field_iter_begin (fields : list pb_field) (dest_struct : Z)
    : M pb_field_iter bool :=
  let* f := field_at fields 0 in
  let data := if dest_struct =? 0 then 0 else dest_struct + pf_data_offset f in
  let size := if dest_struct =? 0 then 0 else data + pf_size_offset f in
  modify (fun _ => mk_iter fields 0 0 dest_struct data (CMem size));;;
  ret (negb (pf_tag f =? 0)).

(** "Don't advance pointers inside unions": the early return of [next]. *)
Definition inside_union (prev cur : pb_field) : bool :=
  (PB_HTYPE (pf_type prev) =? PB_HTYPE_ONEOF)
  && (PB_HTYPE (pf_type cur) =? PB_HTYPE_ONEOF)
  && (pf_data_offset cur =? PB_SIZE_MAX).

(** [prev_size]: the room that the field takes in the structure. *)
Definition field_room (prev : pb_field) : Z :=
  if (PB_ATYPE (pf_type prev) =? PB_ATYPE_STATIC)
     && (PB_HTYPE (pf_type prev) =? PB_HTYPE_REPEATED)
  then u64 (pf_data_size prev * pf_array_size prev)
  else if PB_ATYPE (pf_type prev) =? PB_ATYPE_POINTER then sizeof_ptr
  else pf_data_size prev.

(** The assignments of [next] when [pos + 1] is not the terminator. *)
Definition iter_advance (prev cur : pb_field) (it : pb_field_iter) : pb_field_iter :=
  if inside_union prev cur then
    mk_iter (it_start it) (S (it_pos it)) (it_req it) (it_dest it) (it_pData it) (it_pSize it)
  else
    let req := if PB_HTYPE (pf_type prev) =? PB_HTYPE_REQUIRED
               then u32 (it_req it + 1) else it_req it in
    let data := it_pData it + field_room prev + pf_data_offset cur in
    mk_iter (it_start it) (S (it_pos it)) req (it_dest it) data
            (CMem (data + pf_size_offset cur)).

Definition pb_field_iter_next : M pb_field_iter bool := fun it =>
  (let* prev_field := iter_field in
   if pf_tag prev_field =? 0 then ret false
   else
     let* cur := field_at (it_start it) (S (it_pos it)) in
     if pf_tag cur =? 0 then
       pb_field_iter_begin (it_start it) (it_dest it);;; ret false
     else
       modify (iter_advance prev_field cur);;; ret true) it.

(** [do { if (match) return true; next } while (pos != start)]: one turn per
    unit of [fuel]; [stop] is the test of the two callers. *)
Fixpoint iter_search (fuel : nat) (stop : pb_field -> bool) (start : nat)
    : M pb_field_iter bool :=
  match fuel with
  | O => out_of_fuel
  | S fuel =>
      let* f := iter_field in
      if stop f then ret true
      else
        pb_field_iter_next;;;
        let* pos := gets it_pos in
        if Nat.eqb pos start then ret false else iter_search fuel stop start
  end.

Definition pb_field_iter_find (tag : Z) : M pb_field_iter bool := fun it =>
  iter_search (S (length (it_start it)))
    (fun f => (pf_tag f =? tag) && negb (PB_LTYPE (pf_type f) =? PB_LTYPE_EXTENSION))
    (it_pos it) it.

(** An iterator operation used from a function over another state. *)
Definition with_iter {S A} (op : M pb_field_iter A) (it : pb_field_iter)
    : M S (A * pb_field_iter) := fun s =>
  match op it with
  | Done a it' => Done (a, it') s
  | Fail _ => Fail s
  | Undef u => Undef u
  | OutOfFuel => OutOfFuel
  end.

(** The state of an iterator variable before [pb_field_iter_begin] runs. *)
Definition iter_uninit : pb_field_iter := mk_iter [] 0 0 0 0 (CMem 0).

(** ** Well-formed descriptor arrays: one terminator, at the end. *)
Record wf_fields (l : list pb_field) (n : nat) : Prop := {
  wf_len : length l = S n;
  wf_last : forall f, l !! n = Some f -> pf_tag f = 0;
  wf_body : forall i f, (i < n)%nat -> l !! i = Some f -> pf_tag f <> 0
}.

Lemma wf_lookup l n i : wf_fields l n -> (i <= n)%nat -> is_Some (l !! i).
Proof. intros [H _ _] Hi. apply lookup_lt_is_Some. lia. Qed.

(** The iterator as it stands at field [i]: the specification of the pointers. *)
Definition iter_first (l : list pb_field) (dest : Z) : pb_field_iter :=
  match l !! 0%nat with
  | Some f => mk_iter l 0 0 dest (dest + pf_data_offset f)
                      (CMem (dest + pf_data_offset f + pf_size_offset f))
  | None => mk_iter l 0 0 dest dest (CMem dest)
  end.

Fixpoint iter_at (l : list pb_field) (dest : Z) (i : nat) : pb_field_iter :=
  match i with
  | O => iter_first l dest
  | S j => match l !! j, l !! i with
           | Some p, Some c => iter_advance p c (iter_at l dest j)
           | _, _ => iter_at l dest j
           end
  end.

Lemma iter_at_start l dest i : it_start (iter_at l dest i) = l.
Proof.
  induction i as [|i IH]; cbn [iter_at].
  - unfold iter_first. by destruct (l !! 0%nat).
  - destruct (l !! i), (l !! S i); auto. unfold iter_advance.
    destruct (inside_union _ _); auto.
Qed.

Lemma iter_at_dest l dest i : it_dest (iter_at l dest i) = dest.
Proof.
  induction i as [|i IH]; cbn [iter_at].
  - unfold iter_first. by destruct (l !! 0%nat).
  - destruct (l !! i), (l !! S i); auto. unfold iter_advance.
    destruct (inside_union _ _); auto.
Qed.

Lemma iter_at_pos l dest i : (i < length l)%nat -> it_pos (iter_at l dest i) = i.
Proof.
  induction i as [|i IH]; intros Hi; cbn [iter_at].
  - unfold iter_first. by destruct (l !! 0%nat).
  - destruct (lookup_lt_is_Some_2 l i) as [p ->]; [lia|].
    destruct (lookup_lt_is_Some_2 l (S i)) as [c ->]; [lia|].
    unfold iter_advance. destruct (inside_union _ _); simpl; rewrite IH; auto; lia.
Qed.

(** The iterator variable at field [i], where the decoder may have redirected
    [pSize] of a repeated field to its local counter. *)
Inductive iter_on (l : list pb_field) (dest : Z) (i : nat) : pb_field_iter -> Prop :=
| iter_on_at : iter_on l dest i (iter_at l dest i)
| iter_on_fixed f :
    l !! i = Some f -> PB_HTYPE (pf_type f) = PB_HTYPE_REPEATED ->
    iter_on l dest i
      (mk_iter l i (it_req (iter_at l dest i)) dest (it_pData (iter_at l dest i)) CFixed).

Lemma iter_on_start l dest i it : iter_on l dest i it -> it_start it = l.
Proof. destruct 1; auto using iter_at_start. Qed.

Lemma iter_on_pos l dest i it :
  (i < length l)%nat -> iter_on l dest i it -> it_pos it = i.
Proof. intros Hi; destruct 1; auto using iter_at_pos. Qed.

Lemma iter_on_dest l dest i it : iter_on l dest i it -> it_dest it = dest.
Proof. destruct 1; auto using iter_at_dest. Qed.

Lemma iter_advance_on l dest i it p c :
  iter_on l dest i it -> l !! i = Some p -> l !! S i = Some c ->
  iter_advance p c it = iter_at l dest (S i).
Proof.
  intros Hon Hp Hc. cbn [iter_at]. rewrite Hp, Hc.
  destruct Hon as [|f Hf Hrep]; [done|].
  pose proof (lookup_lt_Some _ _ _ Hp). simplify_eq.
  unfold iter_advance, inside_union. rewrite Hrep. cbn.
  by rewrite iter_at_start, iter_at_dest, iter_at_pos by lia.
Qed.

Lemma begin_spec l n dest it :
  wf_fields l n -> dest <> 0 ->
  pb_field_iter_begin l dest it = Done (negb (n =? 0)%nat) (iter_at l dest 0).
Proof.
  intros Hwf Hd. unfold pb_field_iter_begin, field_at, bind, of_option.
  destruct (wf_lookup l n 0 Hwf ltac:(lia)) as [f Hf]. rewrite Hf.
  unfold modify, ret. cbn [iter_at]. unfold iter_first. rewrite Hf.
  destruct (Z.eqb_spec dest 0) as [|_]; [lia|]. f_equal. f_equal.
  destruct n as [|n]; simpl.
  - apply Z.eqb_eq. by apply (wf_last _ _ Hwf).
  - apply Z.eqb_neq. eapply (wf_body _ _ Hwf); [|done]. lia.
Qed.

Lemma next_spec l n dest i it :
  wf_fields l n -> dest <> 0 -> (i < n)%nat -> iter_on l dest i it ->
  pb_field_iter_next it =
    if (S i =? n)%nat then Done false (iter_at l dest 0)
    else Done true (iter_at l dest (S i)).
Proof.
  intros Hwf Hd Hi Hon. pose proof (wf_len _ _ Hwf) as Hlen.
  unfold pb_field_iter_next, iter_field, field_at, of_option, bind.
  rewrite (iter_on_start _ _ _ _ Hon), (iter_on_pos l dest i it) by (auto; lia).
  destruct (wf_lookup l n i Hwf ltac:(lia)) as [p Hp]. rewrite Hp. unfold ret.
  pose proof (wf_body _ _ Hwf _ _ Hi Hp) as Hnz.
  apply Z.eqb_neq in Hnz. rewrite Hnz.
  destruct (wf_lookup l n (S i) Hwf ltac:(lia)) as [c Hc]. rewrite Hc.
  destruct (Nat.eqb_spec (S i) n) as [<-|Hne].
  - rewrite (wf_last _ _ Hwf c Hc). cbn -[pb_field_iter_begin].
    rewrite (iter_on_dest _ _ _ _ Hon).
    by rewrite (begin_spec _ (S i)) by done.
  - assert (pf_tag c <> 0) as Hz by (eapply (wf_body _ _ Hwf); [|done]; lia).
    apply Z.eqb_neq in Hz. rewrite Hz. unfold modify.
    by rewrite (iter_advance_on l dest i).
Qed.

(** The positions still to be looked at by a search standing at [p]. *)
Definition search_rest (n start p j : nat) : Prop :=
  (p < start /\ p <= j < start \/ start < p /\ (p <= j < n \/ j < start) \/
   p = start /\ j < n)%nat.

Definition search_left (n start p : nat) : nat :=
  if (p <? start)%nat then start - p
  else if (p =? start)%nat then n else n - p + start.

Lemma search_rest_step n start p p' j :
  (p < n)%nat -> (start < n)%nat ->
  p' = (if (S p =? n)%nat then 0%nat else S p) ->
  search_rest n start p j -> j <> p -> p' <> start -> search_rest n start p' j.
Proof. unfold search_rest. intros. destruct (Nat.eqb_spec (S p) n); lia. Qed.

Lemma search_rest_last n start p p' j :
  (p < n)%nat -> (start < n)%nat ->
  p' = (if (S p =? n)%nat then 0%nat else S p) -> p' = start ->
  search_rest n start p j -> j = p.
Proof. unfold search_rest. intros. destruct (Nat.eqb_spec (S p) n); lia. Qed.

Lemma search_left_step n start p p' :
  (p < n)%nat -> (start < n)%nat ->
  p' = (if (S p =? n)%nat then 0%nat else S p) -> p' <> start ->
  (search_left n start p' < search_left n start p)%nat.
Proof.
  unfold search_left. intros.
  destruct (Nat.eqb_spec (S p) n), (Nat.ltb_spec p start), (Nat.ltb_spec p' start),
    (Nat.eqb_spec p start), (Nat.eqb_spec p' start); lia.
Qed.

Lemma search_left_pos n start p :
  (p < n)%nat -> (start < n)%nat -> (0 < search_left n start p <= n)%nat.
Proof.
  unfold search_left. intros.
  destruct (Nat.ltb_spec p start), (Nat.eqb_spec p start); lia.
Qed.

(** What a search ends with: a field that satisfies the test, or every
    position seen and the iterator back where it started. *)
Definition search_result (l : list pb_field) (n : nat) (dest : Z)
    (stop : pb_field -> bool) (start : nat) (seen : nat -> Prop)
    (it : pb_field_iter) (o : outcome pb_field_iter bool) : Prop :=
  match o with
  | Done true it' =>
      exists j f, (j < n)%nat /\ l !! j = Some f /\ stop f = true /\
        iter_on l dest j it' /\ (it' = it \/ it' = iter_at l dest j)
  | Done false it' =>
      it' = iter_at l dest start /\
      forall j f, seen j -> l !! j = Some f -> stop f = false
  | _ => False
  end.

Lemma search_spec l n dest stop start :
  wf_fields l n -> dest <> 0 -> (start < n)%nat ->
  forall fuel p it, (p < n)%nat -> iter_on l dest p it ->
  (search_left n start p <= fuel)%nat ->
  search_result l n dest stop start (search_rest n start p) it
    (iter_search fuel stop start it).
Proof.
  intros Hwf Hd Hs fuel. induction fuel as [|fuel IH]; intros p it Hp Hon Hfuel.
  { pose proof (search_left_pos n start p Hp Hs). lia. }
  cbn [iter_search]. unfold iter_field at 1, field_at, of_option.
  unfold bind at 1. pose proof (wf_len _ _ Hwf).
  rewrite (iter_on_start _ _ _ _ Hon), (iter_on_pos l dest p it) by (auto; lia).
  destruct (wf_lookup l n p Hwf ltac:(lia)) as [f Hf]. rewrite Hf. unfold ret at 1.
  destruct (stop f) eqn:Hstop.
  { exists p, f. repeat split; auto. }
  unfold bind at 1. rewrite (next_spec l n dest p) by auto.
  set (p' := if (S p =? n)%nat then 0%nat else S p).
  assert ((if (S p =? n)%nat then Done false (iter_at l dest 0)
           else Done true (iter_at l dest (S p)))
          = Done (negb (S p =? n)%nat) (iter_at l dest p')) as ->.
  { unfold p'. by destruct (Nat.eqb_spec (S p) n). }
  assert ((p' < n)%nat) as Hp' by (unfold p'; destruct (Nat.eqb_spec (S p) n); lia).
  unfold bind, gets, ret. rewrite (iter_at_pos l dest p') by lia.
  destruct (Nat.eqb_spec p' start) as [Heq|Hne].
  - split; [by rewrite Heq|]. intros j g Hj Hg.
    rewrite (search_rest_last n start p p' j) in Hg by done. by simplify_eq.
  - specialize (IH p' (iter_at l dest p') Hp' (iter_on_at _ _ _)).
    pose proof (search_left_step n start p p' Hp Hs eq_refl Hne).
    specialize (IH ltac:(lia)).
    destruct (iter_search fuel stop start _) as [[|] it'| | |]; try done; simpl in *.
    + destruct IH as (j & g & ?&?&?&?& [->| ->]); exists j, g; repeat split; auto.
      right. f_equal.
      by rewrite <- (iter_at_pos l dest p'), <- (iter_on_pos l dest j (iter_at l dest p'))
        by (auto; lia).
    + destruct IH as [-> Hseen]. split; [done|]. intros j g Hj Hg.
      destruct (decide (j = p)) as [->|]; [by simplify_eq|].
      eapply Hseen; [|done]. by apply (search_rest_step n start p p').
Qed.

(** The test of [pb_field_iter_find]. *)
Definition tag_matches (tag : Z) (f : pb_field) : bool :=
  (pf_tag f =? tag) && negb (PB_LTYPE (pf_type f) =? PB_LTYPE_EXTENSION).

Lemma find_result l n dest i it tag :
  wf_fields l n -> dest <> 0 -> (i < n)%nat -> iter_on l dest i it ->
  search_result l n dest (tag_matches tag) i (fun j => (j < n)%nat) it
    (pb_field_iter_find tag it).
Proof.
  intros Hwf Hd Hi Hon. pose proof (wf_len _ _ Hwf).
  unfold pb_field_iter_find.
  rewrite (iter_on_start _ _ _ _ Hon), (iter_on_pos l dest i it) by (auto; lia).
  pose proof (search_left_pos n i i Hi Hi).
  pose proof (search_spec l n dest (tag_matches tag) i Hwf Hd Hi
                (S (length l)) i it Hi Hon ltac:(lia)) as Hr.
  unfold search_result, tag_matches in *. destruct (iter_search _ _ _ _) as [[|]| | |]; auto.
  destruct Hr as [? Hseen]. split; [done|]. intros j f Hj. apply Hseen.
  unfold search_rest. lia.
Qed.

(** ** The array that the iterator walks never changes. *)
Lemma begin_start fields dest it b it' :
  pb_field_iter_begin fields dest it = Done b it' -> it_start it' = fields.
Proof.
  unfold pb_field_iter_begin, field_at, bind, of_option.
  destruct (fields !! 0%nat); [|done]. unfold ret, modify. by intros [= _ <-].
Qed.

Lemma iter_field_inv it f it' :
  iter_field it = Done f it' -> it' = it /\ it_start it !! it_pos it = Some f.
Proof.
  unfold iter_field, field_at, of_option.
  destruct (it_start it !! it_pos it); [|done]. by intros [= <- <-].
Qed.

Lemma next_start it b it' :
  pb_field_iter_next it = Done b it' -> it_start it' = it_start it.
Proof.
  unfold pb_field_iter_next, bind at 1.
  destruct (iter_field it) as [p it1| | |] eqn:E; try done.
  apply iter_field_inv in E as [-> _].
  destruct (pf_tag p =? 0); [by intros [= _ <-]|].
  unfold bind at 1, field_at, of_option.
  destruct (it_start it !! S (it_pos it)) as [c|]; [|done]. unfold ret at 1.
  destruct (pf_tag c =? 0).
  - unfold bind. destruct (pb_field_iter_begin _ _ it) eqn:Eb; try done.
    apply begin_start in Eb. by intros [= _ <-].
  - unfold bind, modify, ret, iter_advance. intros [= _ <-].
    by destruct (inside_union p c).
Qed.

Lemma with_iter_inv {S A} (op : M pb_field_iter A) it (s : S) a it' s' :
  with_iter op it s = Done (a, it') s' -> op it = Done a it' /\ s' = s.
Proof. unfold with_iter. destruct (op it); try done. by intros [= <- <- <-]. Qed.

Lemma Forall_field P it f it' :
  Forall P (it_start it) -> iter_field it = Done f it' -> P f.
Proof. intros HP [_ Hf]%iter_field_inv. by eapply Forall_lookup_1. Qed.
