(* ===== verification/PbEncode.v ===== *)
(** nanopb, [pb_encode.c]: output streams, the wire format writers and the
    message encoder.  The memory that holds the message is only read, so it is
    an argument; the state of the monad is the output stream.  A stream's
    [state] pointer is the list of the bytes stored before it, [os_room] what
    is left of the buffer object after it. *)
From S2P Require Import Prelude.
From S2P Require Import PbBase.
From S2P Require Import PbCommon.

(** ** Output streams *)
Inductive ocallback : Type :=
| cb_null                                  (* a sizing stream *)
| cb_buf_write
| cb_out (f : list byte -> list byte -> bool * list byte).   (* a caller's *)

Record pb_ostream : Type := mk_ostream {
  os_callback : ocallback;
  os_state : list byte;
  os_room : Z;
  os_max_size : Z;
  os_bytes_written : Z;
  os_errmsg : option string
}.

Definition E : Type -> Type := M pb_ostream.

Definition os_set_state (l : list byte) (room : Z) (s : pb_ostream) : pb_ostream :=
  mk_ostream (os_callback s) l room (os_max_size s) (os_bytes_written s) (os_errmsg s).
Definition os_set_written (n : Z) (s : pb_ostream) : pb_ostream :=
  mk_ostream (os_callback s) (os_state s) (os_room s) (os_max_size s) n (os_errmsg s).
Definition os_set_errmsg (e : option string) (s : pb_ostream) : pb_ostream :=
  mk_ostream (os_callback s) (os_state s) (os_room s) (os_max_size s) (os_bytes_written s) e.

(** [PB_RETURN_ERROR]: the message is kept if one has been set. *)
Definition PB_SET_ERROR (old : option string) (msg : string) : option string :=
  match old with Some e => Some e | None => Some msg end.

Definition os_error {A} (msg : string) : E A :=
  modify (fun s => os_set_errmsg (PB_SET_ERROR (os_errmsg s) msg) s);;; failed.

Definition PB_OSTREAM_SIZING : pb_ostream := mk_ostream cb_null [] 0 0 0 None.

(** The bytes that reading [count] bytes at the pointer [buf] gives: a [None]
    pointer is null, or does not point to readable memory. *)
Definition read_buf (buf : option (list byte)) (count : Z) : E (list byte) :=
  match buf with
  | Some l => if zlen l <? count then undef UbArray else ret (take (Z.to_nat count) l)
  | None => undef UbMem
  end.

Definition buf_write (buf : option (list byte)) (count : Z) : E unit :=
  let* data := read_buf buf count in
  let* s := gets id in
  if os_room s <? count then undef UbWrite
  else modify (os_set_state (os_state s ++ data) (os_room s - count)).

(** A buffer object of [room] bytes; [bufsize] is the size the caller claims. *)
Definition pb_ostream_from_buffer (room bufsize : Z) : pb_ostream :=
  mk_ostream cb_buf_write [] room bufsize 0 None.

(** [stream->callback(stream, buf, count)]. *)
Definition os_call (buf : option (list byte)) (count : Z) : E unit :=
  let* s := gets id in
  match os_callback s with
  | cb_null => undef UbCall
  | cb_buf_write => buf_write buf count
  | cb_out f =>
      let* data := read_buf buf count in
      let '(ok, st) := f (os_state s) data in
      modify (os_set_state st (os_room s));;;
      (if ok then ret tt else failed)
  end.

Definition is_null (cb : ocallback) : bool := match cb with cb_null => true | _ => false end.

Definition pb_write (buf : option (list byte)) (count : Z) : E unit :=
  let* s := gets id in
  (if (0 <? count) && negb (is_null (os_callback s)) then
     if (u64 (os_bytes_written s + count) <? os_bytes_written s)
        || (os_max_size s <? u64 (os_bytes_written s + count))
     then os_error "stream full"
     else
       let* ok := attempt (os_call buf count) in
       match ok with Some _ => ret tt | None => os_error "io error" end
   else ret tt);;;
  modify (fun s => os_set_written (u64 (os_bytes_written s + count)) s).

(** ** Wire format writers *)

(** [while (value) { buffer[i] = (value & 0x7F) | 0x80; value >>= 7; i++; }] on
    the local [buffer[10]]. *)
Fixpoint varint_loop (fuel : nat) (value : Z) (buffer : list byte) : E (list byte) :=
  match fuel with
  | O => out_of_fuel
  | S fuel =>
      if value =? 0 then ret buffer
      else if (length buffer <? 10)%nat then
        varint_loop fuel (Z.shiftr value 7)
          (buffer ++ [zb (Z.lor (Z.land value 127) 128)])
      else undef UbArray
  end.

(** [buffer[i-1] &= 0x7F]. *)
Definition clear_last (buffer : list byte) : E (list byte) :=
  match rev buffer with
  | [] => undef UbArray
  | b :: l => ret (rev (zb (Z.land (bz b) 127) :: l))
  end.

Definition pb_encode_varint (value : Z) : E unit :=
  if value <=? 127 then pb_write (Some [zb value]) 1
  else
    let* buffer := varint_loop 11 value [] in
    let* buffer := clear_last buffer in
    pb_write (Some buffer) (zlen buffer).

(** [value] is an [int64_t]. *)
Definition pb_encode_svarint (value : Z) : E unit :=
  let zigzagged := if value <? 0
                   then u64 (Z.lnot (u64 (Z.shiftl (u64 value) 1)))
                   else u64 (Z.shiftl (u64 value) 1) in
  pb_encode_varint zigzagged.

Definition pb_encode_fixed32 (val : Z) : E unit :=
  pb_write (Some [zb (Z.land val 255); zb (Z.land (Z.shiftr val 8) 255);
            zb (Z.land (Z.shiftr val 16) 255); zb (Z.land (Z.shiftr val 24) 255)]) 4.

Definition pb_encode_fixed64 (val : Z) : E unit :=
  pb_write (Some [zb (Z.land val 255); zb (Z.land (Z.shiftr val 8) 255);
            zb (Z.land (Z.shiftr val 16) 255); zb (Z.land (Z.shiftr val 24) 255);
            zb (Z.land (Z.shiftr val 32) 255); zb (Z.land (Z.shiftr val 40) 255);
            zb (Z.land (Z.shiftr val 48) 255); zb (Z.land (Z.shiftr val 56) 255)]) 8.

Definition pb_encode_tag (wiretype field_number : Z) : E unit :=
  pb_encode_varint (Z.lor (u64 (Z.shiftl field_number 3)) wiretype).

(** The [switch] of [pb_encode_tag_for_field]; [None] is its default. *)
Definition wiretype_of (ltype : Z) : option Z :=
  if (ltype =? PB_LTYPE_BOOL) || (ltype =? PB_LTYPE_VARINT)
     || (ltype =? PB_LTYPE_UVARINT) || (ltype =? PB_LTYPE_SVARINT)
  then Some PB_WT_VARINT
  else if ltype =? PB_LTYPE_FIXED32 then Some PB_WT_32BIT
  else if ltype =? PB_LTYPE_FIXED64 then Some PB_WT_64BIT
  else if (ltype =? PB_LTYPE_BYTES) || (ltype =? PB_LTYPE_STRING)
          || (ltype =? PB_LTYPE_SUBMESSAGE) || (ltype =? PB_LTYPE_FIXED_LENGTH_BYTES)
  then Some PB_WT_STRING
  else None.

Definition pb_encode_tag_for_field (field : pb_field) : E unit :=
  match wiretype_of (PB_LTYPE (pf_type field)) with
  | Some wiretype => pb_encode_tag wiretype (pf_tag field)
  | None => os_error "invalid field type"
  end.

Definition pb_encode_string (buffer : option (list byte)) (size : Z) : E unit :=
  pb_encode_varint size;;; pb_write buffer size.

(** ** Encoding a field.  [m] is the memory that the message is in; [rec] is
    [pb_encode], for the submessages; [fuel] bounds the loops over linked
    lists and the recursion of the proto3 default check. *)

(** The callbacks of the application: function pointer, field, address of its
    argument; function pointer and extension. *)
Class EncCallbacks : Type := {
  enc_callback : Z -> pb_field -> Z -> mem -> E unit;
  enc_extension : Z -> Z -> mem -> E unit
}.

(** Run on another stream: its outcome, this stream left alone. *)
Definition on_ostream {A} (s' : pb_ostream) (op : E A) : E (option A * pb_ostream) := fun s =>
  match op s' with
  | Done a t => Done (Some a, t) s
  | Fail t => Done (None, t) s
  | Undef u => Undef u
  | OutOfFuel => OutOfFuel
  end.

Section Encoder.
Context `{Descriptors} `{EncCallbacks} (m : mem).

Definition ld (a n : Z) : E Z := of_option UbMem (load_uint m a n).

(** [sizeof(bool)] is 1. *)
Definition safe_read_bool (p : Z) : E bool :=
  let* v := ld p 1 in ret (negb (v =? 0)).

(** The signed integer of [size] bytes at [src]. *)
Definition ld_signed (src size : Z) : E Z :=
  let* v := ld src size in ret (swrap (8 * size) v).

Definition pb_enc_bool (field : pb_field) (src : Z) : E unit :=
  let* b := safe_read_bool src in
  pb_encode_varint (if b then 1 else 0).

Definition int_size (n : Z) : bool := (n =? 1) || (n =? 2) || (n =? 4) || (n =? 8).

Definition pb_enc_varint (field : pb_field) (src : Z) : E unit :=
  if int_size (pf_data_size field) then
    let* value := ld_signed src (pf_data_size field) in
    pb_encode_varint (u64 value)
  else os_error "invalid data_size".

Definition pb_enc_uvarint (field : pb_field) (src : Z) : E unit :=
  if int_size (pf_data_size field) then
    let* value := ld src (pf_data_size field) in
    pb_encode_varint value
  else os_error "invalid data_size".

Definition pb_enc_svarint (field : pb_field) (src : Z) : E unit :=
  if int_size (pf_data_size field) then
    let* value := ld_signed src (pf_data_size field) in
    pb_encode_svarint value
  else os_error "invalid data_size".

Definition pb_enc_fixed32 (field : pb_field) (src : Z) : E unit :=
  let* val := ld src 4 in pb_encode_fixed32 val.

Definition pb_enc_fixed64 (field : pb_field) (src : Z) : E unit :=
  let* val := ld src 8 in pb_encode_fixed64 val.

Definition pb_enc_bytes (field : pb_field) (src : Z) : E unit :=
  if src =? 0 then pb_encode_string None 0
  else
    let* size := ld src 4 in
    if (PB_ATYPE (pf_type field) =? PB_ATYPE_STATIC)
       && (u64 (pf_data_size field - pb_bytes_offset) <? size)
    then os_error "bytes size exceeded"
    else pb_encode_string (load_bytes m (src + pb_bytes_offset) size) size.

(** [while (size < max_size && *p != '\0') { size++; p++; }]: the fuel is the
    number of mapped bytes, which the string cannot outrun. *)
Fixpoint strnlen_loop (fuel : nat) (p size max_size : Z) : E Z :=
  match fuel with
  | O => out_of_fuel
  | S fuel =>
      if size <? max_size then
        let* c := ld p 1 in
        if c =? 0 then ret size else strnlen_loop fuel (p + 1) (size + 1) max_size
      else ret size
  end.

Definition pb_enc_string (field : pb_field) (src : Z) : E unit :=
  let max_size := if PB_ATYPE (pf_type field) =? PB_ATYPE_POINTER
                  then SIZE_MAX else pf_data_size field in
  let* size := (if src =? 0 then ret 0
                else strnlen_loop (S (S (base.size (m_bytes m)))) src 0 max_size) in
  pb_encode_string (load_bytes m src size) size.

Definition pb_enc_fixed_length_bytes (field : pb_field) (src : Z) : E unit :=
  pb_encode_string (load_bytes m src (pf_data_size field)) (pf_data_size field).

Section Nested.
Variable rec : list pb_field -> Z -> E unit.
Variable fuel : nat.

Definition pb_encode_submessage (fields : list pb_field) (src_struct : Z) : E unit :=
  let* (r, substream) := on_ostream PB_OSTREAM_SIZING (rec fields src_struct) in
  match r with
  | None => modify (os_set_errmsg (os_errmsg substream));;; failed
  | Some _ =>
      let size := os_bytes_written substream in
      pb_encode_varint size;;;
      let* s := gets id in
      if is_null (os_callback s) then pb_write None size
      else if os_max_size s <? u64 (os_bytes_written s + size)
      then os_error "stream full"
      else
        let sub := mk_ostream (os_callback s) (os_state s) (os_room s) size 0 None in
        let* (status, t) := on_ostream sub (rec fields src_struct) in
        modify (fun s => mk_ostream (os_callback s) (os_state t) (os_room t)
                           (os_max_size s)
                           (u64 (os_bytes_written s + os_bytes_written t))
                           (os_errmsg t));;;
        if negb (os_bytes_written t =? size) then os_error "submsg size changed"
        else match status with Some _ => ret tt | None => failed end
  end.

Definition pb_enc_submessage (field : pb_field) (src : Z) : E unit :=
  if pf_ptr field =? 0 then os_error "invalid field descriptor"
  else pb_encode_submessage (descs (pf_ptr field)) src.

(** [PB_ENCODERS[ltype]]: outside of the table is undefined, and so is the
    call of its null entry. *)
Definition PB_ENCODERS (ltype : Z) : pb_field -> Z -> E unit :=
  if ltype =? PB_LTYPE_BOOL then pb_enc_bool
  else if ltype =? PB_LTYPE_VARINT then pb_enc_varint
  else if ltype =? PB_LTYPE_UVARINT then pb_enc_uvarint
  else if ltype =? PB_LTYPE_SVARINT then pb_enc_svarint
  else if ltype =? PB_LTYPE_FIXED32 then pb_enc_fixed32
  else if ltype =? PB_LTYPE_FIXED64 then pb_enc_fixed64
  else if ltype =? PB_LTYPE_BYTES then pb_enc_bytes
  else if ltype =? PB_LTYPE_STRING then pb_enc_string
  else if ltype =? PB_LTYPE_SUBMESSAGE then pb_enc_submessage
  else if ltype =? PB_LTYPE_EXTENSION then fun _ _ => undef UbCall
  else if ltype =? PB_LTYPE_FIXED_LENGTH_BYTES then pb_enc_fixed_length_bytes
  else fun _ _ => undef UbArray.

(** [for (i = 0; i < count; i++) { func(p); p += data_size; }]. *)
Fixpoint encode_items (func : Z -> E unit) (data_size : Z) (count : nat) (p : Z)
    : E unit :=
  match count with
  | O => ret tt
  | S count => func p;;; encode_items func data_size count (p + data_size)
  end.

Definition encode_array (field : pb_field) (pData count : Z)
    (func : pb_field -> Z -> E unit) : E unit :=
  let ltype := PB_LTYPE (pf_type field) in
  let pointer := PB_ATYPE (pf_type field) =? PB_ATYPE_POINTER in
  let items f := encode_items f (pf_data_size field) (Z.to_nat count) pData in
  if count =? 0 then ret tt
  else if negb pointer && (pf_array_size field <? count)
  then os_error "array max size exceeded"
  else if ltype <=? PB_LTYPE_LAST_PACKABLE then
    pb_encode_tag PB_WT_STRING (pf_tag field);;;
    let* size :=
      (if ltype =? PB_LTYPE_FIXED32 then ret (u64 (4 * count))
       else if ltype =? PB_LTYPE_FIXED64 then ret (u64 (8 * count))
       else
         let* (r, sizestream) := on_ostream PB_OSTREAM_SIZING (items (func field)) in
         match r with
         | Some _ => ret (os_bytes_written sizestream)
         | None => failed
         end) in
    pb_encode_varint size;;;
    let* s := gets id in
    if is_null (os_callback s) then pb_write None size
    else items (func field)
  else
    items (fun p =>
      pb_encode_tag_for_field field;;;
      if pointer && ((ltype =? PB_LTYPE_STRING) || (ltype =? PB_LTYPE_BYTES))
      then let* q := ld p sizeof_ptr in func field q
      else func field p).

(** [for (i = 0; i < data_size; i++) if (p[i] != 0) return false;]. *)
Fixpoint all_zero (n : nat) (p : Z) : E bool :=
  match n with
  | O => ret true
  | S n => let* c := ld p 1 in if c =? 0 then all_zero n (p + 1) else ret false
  end.

(** The loop over the fields of a submessage: [n] bounds the turns. *)
Fixpoint check_fields (check : pb_field -> Z -> E bool) (n : nat) (it : pb_field_iter)
    : E bool :=
  match n with
  | O => out_of_fuel
  | S n =>
      let* (f, it) := with_iter iter_field it in
      let* dflt := check f (it_pData it) in
      if dflt then
        let* (more, it) := with_iter pb_field_iter_next it in
        if more then check_fields check n it else ret true
      else ret false
  end.

Fixpoint pb_check_proto3_default_value (depth : nat) (field : pb_field) (pData : Z)
    : E bool :=
  match depth with
  | O => out_of_fuel
  | S depth =>
      let type := pf_type field in
      let pSize := pData + pf_size_offset field in
      let catch_all := all_zero (Z.to_nat (pf_data_size field)) pData in
      let pointer_or_zero :=
        if (PB_ATYPE type =? PB_ATYPE_POINTER)
           && (PB_LTYPE_LAST_PACKABLE <? PB_LTYPE type)
        then let* p := ld pData sizeof_ptr in ret (p =? 0)
        else catch_all in
      let singular :=
        if PB_ATYPE type =? PB_ATYPE_STATIC then
          if PB_LTYPE type =? PB_LTYPE_BYTES then
            let* size := ld pData 4 in ret (size =? 0)
          else if PB_LTYPE type =? PB_LTYPE_STRING then
            let* c := ld pData 1 in ret (c =? 0)
          else if PB_LTYPE type =? PB_LTYPE_FIXED_LENGTH_BYTES then
            ret (pf_data_size field =? 0)
          else if PB_LTYPE type =? PB_LTYPE_SUBMESSAGE then
            let fields := descs (pf_ptr field) in
            let* (nonempty, it) :=
              with_iter (pb_field_iter_begin fields pData) iter_uninit in
            if nonempty
            then check_fields (pb_check_proto3_default_value depth)
                              (length fields) it
            else ret true
          else pointer_or_zero
        else pointer_or_zero in
      if PB_HTYPE type =? PB_HTYPE_REQUIRED then ret false
      else if PB_HTYPE type =? PB_HTYPE_REPEATED then
        if negb (pf_size_offset field =? 0) then
          let* n := ld pSize 4 in ret (n =? 0)
        else if PB_ATYPE type =? PB_ATYPE_STATIC then ret false
        else singular
      else if PB_HTYPE type =? PB_HTYPE_ONEOF then
        let* which := ld pSize 4 in ret (which =? 0)
      else if (PB_HTYPE type =? PB_HTYPE_OPTIONAL) && negb (pf_size_offset field =? 0)
      then let* has := safe_read_bool pSize in ret (negb has)
      else singular
  end.

Definition encode_basic_field (field : pb_field) (pData : Z) : E unit :=
  let type := pf_type field in
  let func := PB_ENCODERS (PB_LTYPE type) in
  let explicit := negb (pf_size_offset field =? 0) in
  let pSize := pData + pf_size_offset field in
  let pointer := PB_ATYPE type =? PB_ATYPE_POINTER in
  let* implicit_has :=
    (if explicit then ret false     (* not initialized, not read *)
     else if PB_HTYPE type =? PB_HTYPE_OPTIONAL then
       let* d := pb_check_proto3_default_value fuel field pData in ret (negb d)
     else ret true) in
  let* pData := (if pointer then ld pData sizeof_ptr else ret pData) in
  let implicit_has := if pointer then negb (pData =? 0) else implicit_has in
  if PB_HTYPE type =? PB_HTYPE_REQUIRED then
    if pData =? 0 then os_error "missing required field"
    else pb_encode_tag_for_field field;;; func field pData
  else if PB_HTYPE type =? PB_HTYPE_OPTIONAL then
    let* has := (if explicit then safe_read_bool pSize else ret implicit_has) in
    if has then pb_encode_tag_for_field field;;; func field pData else ret tt
  else if PB_HTYPE type =? PB_HTYPE_REPEATED then
    let* count := (if explicit then ld pSize 4 else ret (pf_array_size field)) in
    encode_array field pData count func
  else
    (* oneof: without a size_offset the code would read the local bool as
       a pb_size_t *)
    let* which := (if explicit then ld pSize 4 else undef UbMem) in
    if which =? pf_tag field
    then pb_encode_tag_for_field field;;; func field pData else ret tt.

Definition encode_callback_field (field : pb_field) (pData : Z) : E unit :=
  let* encode := ld (callback_funcs pData) sizeof_ptr in
  if negb (encode =? 0) then
    let* ok := attempt (enc_callback encode field (callback_arg pData) m) in
    match ok with Some _ => ret tt | None => os_error "callback error" end
  else ret tt.

Definition encode_field (field : pb_field) (pData : Z) : E unit :=
  let atype := PB_ATYPE (pf_type field) in
  if (atype =? PB_ATYPE_STATIC) || (atype =? PB_ATYPE_POINTER)
  then encode_basic_field field pData
  else if atype =? PB_ATYPE_CALLBACK then encode_callback_field field pData
  else os_error "invalid field type".

Definition default_extension_encoder (extension : Z) : E unit :=
  let* type := ld (ext_type extension) sizeof_ptr in
  let* arg := ld (ext_type_arg type) sizeof_ptr in
  let* field := of_option UbArray (descs arg !! 0%nat) in
  if PB_ATYPE (pf_type field) =? PB_ATYPE_POINTER
  then encode_field field (ext_dest extension)
  else let* dest := ld (ext_dest extension) sizeof_ptr in encode_field field dest.

Fixpoint encode_extensions (n : nat) (extension : Z) : E unit :=
  match n with
  | O => out_of_fuel
  | S n =>
      if extension =? 0 then ret tt
      else
        let* type := ld (ext_type extension) sizeof_ptr in
        let* encode := ld (ext_type_encode type) sizeof_ptr in
        (if negb (encode =? 0) then enc_extension encode extension m
         else default_extension_encoder extension);;;
        let* next := ld (ext_next extension) sizeof_ptr in
        encode_extensions n next
  end.

Definition encode_extension_field (field : pb_field) (pData : Z) : E unit :=
  let* extension := ld pData sizeof_ptr in
  encode_extensions fuel extension.

(** [do { ... } while (pb_field_iter_next(&iter))] of [pb_encode]. *)
Fixpoint encode_fields (n : nat) (it : pb_field_iter) : E unit :=
  match n with
  | O => out_of_fuel
  | S n =>
      let* (f, it) := with_iter iter_field it in
      (if PB_LTYPE (pf_type f) =? PB_LTYPE_EXTENSION
       then encode_extension_field f (it_pData it)
       else encode_field f (it_pData it));;;
      let* (more, it) := with_iter pb_field_iter_next it in
      if more then encode_fields n it else ret tt
  end.

Definition encode_message (fields : list pb_field) (src_struct : Z) : E unit :=
  let* (nonempty, it) :=
    with_iter (pb_field_iter_begin fields src_struct) iter_uninit in
  if nonempty then encode_fields (length fields) it else ret tt.
End Nested.

(** [fuel] bounds the nesting of submessages, of the proto3 default check
    and the length of extension lists. *)
Fixpoint pb_encode (fuel : nat) (fields : list pb_field) (src_struct : Z) : E unit :=
  match fuel with
  | O => out_of_fuel
  | S fuel => encode_message (pb_encode fuel) fuel fields src_struct
  end.

Definition pb_encode_delimited (fuel : nat) (fields : list pb_field) (src_struct : Z)
    : E unit :=
  pb_encode_submessage (pb_encode fuel) fields src_struct.

Definition pb_encode_nullterminated (fuel : nat) (fields : list pb_field)
    (src_struct : Z) : E unit :=
  pb_encode fuel fields src_struct;;; pb_write (Some [zb 0]) 1.

(** The size, [None] for [false]. *)
Definition pb_get_encoded_size (fuel : nat) (fields : list pb_field) (src_struct : Z)
    : outcome unit Z :=
  match pb_encode fuel fields src_struct PB_OSTREAM_SIZING with
  | Done _ s => Done (os_bytes_written s) tt
  | Fail _ => Fail tt
  | Undef u => Undef u
  | OutOfFuel => OutOfFuel
  end.
End Encoder.
