(* ===== verification/PbEncodeProofs.v ===== *)
(** nanopb, the encoder: what an encoder writes is a byte string that does not
    depend on the stream, and the sizing pass measures it. *)
From S2P Require Import Prelude.
From S2P Require Import PbBase.
From S2P Require Import PbWire.
From S2P Require Import PbCommon.
From S2P Require Import PbEncode.

(** ** Emission: the abstract specification of an encoder *)

(** A caller's callback that stores all that it is given. *)
Definition appends (f : list byte -> list byte -> bool * list byte) : Prop :=
  forall st d, f st d = (true, st ++ d).

(** The stream after the bytes [bs]: counted by a sizing stream, stored by the others. *)
Definition os_push (bs : list byte) (s : pb_ostream) : pb_ostream :=
  match os_callback s with
  | cb_null => os_set_written (os_bytes_written s + zlen bs) s
  | cb_buf_write =>
      mk_ostream cb_buf_write (os_state s ++ bs) (os_room s - zlen bs)
        (os_max_size s) (os_bytes_written s + zlen bs) (os_errmsg s)
  | cb_out f =>
      mk_ostream (cb_out f) (os_state s ++ bs) (os_room s)
        (os_max_size s) (os_bytes_written s + zlen bs) (os_errmsg s)
  end.

(** A stream in its normal state: a buffer stream has the room it claims. *)
Record os_ok (s : pb_ostream) : Prop := {
  ok_errmsg : os_errmsg s = None;
  ok_written : 0 <= os_bytes_written s;
  ok_max : os_max_size s < 2 ^ 64;
  ok_limit : match os_callback s with
             | cb_null => True
             | _ => os_bytes_written s <= os_max_size s
             end;
  ok_room : match os_callback s with
            | cb_null => True
            | cb_buf_write => os_max_size s - os_bytes_written s <= os_room s
            | cb_out f => appends f
            end
}.

(** Whether [n] more bytes fit in the limit of the stream. *)
Definition os_fits (n : Z) (s : pb_ostream) : bool :=
  is_null (os_callback s) || (os_bytes_written s + n <=? os_max_size s).

(** [esc] allows for the case of a message that points to unmapped memory,
    which only a stream that stores the data finds out. *)
Definition emission (esc : bool) (e : E unit) (bs : list byte) (s : pb_ostream) : Prop :=
  (esc = true /\ e s = Undef UbMem) \/
  (if os_fits (zlen bs) s then e s = Done tt (os_push bs s)
   else exists s', e s = Fail s').

Definition emits (esc : bool) (e : E unit) (bs : list byte) : Prop :=
  forall s, os_ok s -> os_bytes_written s + zlen bs < 2 ^ 64 -> emission esc e bs s.

(** What a sizing stream sees. *)
Definition sizes (e : E unit) (n : Z) : Prop :=
  forall s, os_callback s = cb_null -> os_errmsg s = None ->
  0 <= os_bytes_written s < 2 ^ 64 ->
  e s = Done tt (os_set_written (u64 (os_bytes_written s + n)) s).

Record writes (esc : bool) (e : E unit) (bs : list byte) : Prop := {
  writes_emits : emits esc e bs;
  writes_sizes : sizes e (zlen bs)
}.

Lemma os_push_nil s : os_push [] s = s.
Proof.
  destruct s as [[| |f] st r mx w e]; unfold os_push, os_set_written; cbn;
    rewrite ?app_nil_r; f_equal; unfold zlen; simpl; lia.
Qed.

Lemma os_push_app a b s : os_push b (os_push a s) = os_push (a ++ b) s.
Proof.
  destruct s as [[| |f] st r mx w e]; unfold os_push, os_set_written; cbn;
    rewrite <- ?app_assoc; f_equal; rewrite zlen_app; lia.
Qed.

Lemma os_push_callback a s : os_callback (os_push a s) = os_callback s.
Proof. by destruct s as [[| |f] st r mx w e]. Qed.
Lemma os_push_written a s : os_bytes_written (os_push a s) = os_bytes_written s + zlen a.
Proof. by destruct s as [[| |f] st r mx w e]. Qed.
Lemma os_push_max a s : os_max_size (os_push a s) = os_max_size s.
Proof. by destruct s as [[| |f] st r mx w e]. Qed.

Lemma os_push_ok a s : os_ok s -> os_fits (zlen a) s = true -> os_ok (os_push a s).
Proof.
  intros [He Hw Hm Hl Hr] Hf. pose proof (zlen_nonneg a).
  destruct s as [[| |f] st r mx w e]; unfold os_fits in Hf; cbn in *;
    constructor; cbn; try apply Z.leb_le in Hf; auto; lia.
Qed.

Lemma os_fits_app a b s :
  os_fits (zlen (a ++ b)) s = true ->
  os_fits (zlen a) s = true /\ os_fits (zlen b) (os_push a s) = true.
Proof.
  unfold os_fits. rewrite os_push_callback, os_push_written, os_push_max, zlen_app.
  pose proof (zlen_nonneg a). pose proof (zlen_nonneg b).
  destruct (is_null (os_callback s)); simpl; [done|]. rewrite !Z.leb_le. lia.
Qed.

Lemma os_fits_app_false a b s :
  os_fits (zlen (a ++ b)) s = false -> os_fits (zlen a) s = true ->
  os_fits (zlen b) (os_push a s) = false.
Proof.
  unfold os_fits. rewrite os_push_callback, os_push_written, os_push_max, zlen_app.
  destruct (is_null (os_callback s)); simpl; [done|]. rewrite Z.leb_gt, Z.leb_le, Z.leb_gt. lia.
Qed.

Lemma emits_ret esc : emits esc (ret tt) [].
Proof.
  intros s Hok _. right. rewrite os_push_nil. unfold os_fits. destruct Hok as [_ ? ? Hl _].
  destruct (os_callback s); simpl; try done;
    change (zlen []) with 0; destruct (Z.leb_spec (os_bytes_written s + 0) (os_max_size s)); auto; lia.
Qed.

Lemma emits_bind esc e1 e2 a b :
  emits esc e1 a -> emits esc e2 b -> emits esc (e1;;; e2) (a ++ b).
Proof.
  intros H1 H2 s Hok Hlt. rewrite zlen_app in Hlt.
  pose proof (zlen_nonneg a). pose proof (zlen_nonneg b).
  unfold emits, emission in *. unfold bind. destruct (H1 s Hok ltac:(lia)) as [[? ->]|H1']; [auto|].
  destruct (os_fits (zlen (a ++ b)) s) eqn:Hf.
  - destruct (os_fits_app _ _ _ Hf) as [Hfa Hfb]. rewrite Hfa in H1'. rewrite H1'.
    specialize (H2 (os_push a s) (os_push_ok _ _ Hok Hfa)).
    rewrite os_push_written, Hfb, os_push_app in H2. apply H2. lia.
  - destruct (os_fits (zlen a) s) eqn:Hfa.
    + rewrite H1'. specialize (H2 (os_push a s) (os_push_ok _ _ Hok Hfa)).
      rewrite os_push_written, (os_fits_app_false a b) in H2 by auto.
      apply H2. lia.
    + right. destruct H1' as [s' ->]. eauto.
Qed.

Lemma sizes_bind e1 e2 n1 n2 : sizes e1 n1 -> sizes e2 n2 -> sizes (e1;;; e2) (n1 + n2).
Proof.
  intros H1 H2 s Hs He Hw. unfold bind. rewrite H1 by done.
  rewrite H2; [|done|done|apply u64_range].
  unfold os_set_written. cbn. by rewrite u64_add_l, Z.add_assoc.
Qed.

Lemma writes_bind esc e1 e2 a b :
  writes esc e1 a -> writes esc e2 b -> writes esc (e1;;; e2) (a ++ b).
Proof.
  intros [] []. constructor; [by apply emits_bind|]. rewrite zlen_app. by apply sizes_bind.
Qed.

Lemma writes_ext esc e e' bs : (forall s, e s = e' s) -> writes esc e bs -> writes esc e' bs.
Proof.
  intros Heq [H1 H2]. split; intros s; [unfold emission|]; rewrite <- Heq; [apply H1|apply H2].
Qed.

Lemma writes_weaken e bs : writes false e bs -> writes true e bs.
Proof.
  intros [H1 H2]. split; [|done]. intros s Hok Hlt.
  destruct (H1 s Hok Hlt) as [[? _]|]; [done|by right].
Qed.

Lemma set_written_same s : 0 <= os_bytes_written s < 2 ^ 64 ->
  os_set_written (u64 (os_bytes_written s + 0)) s = s.
Proof. intros. rewrite Z.add_0_r, u64_small by lia. by destruct s. Qed.

Lemma writes_ret esc : writes esc (ret tt) [].
Proof.
  split; [apply emits_ret|]. intros s _ _ Hw. change (zlen []) with 0.
  by rewrite set_written_same.
Qed.

Lemma sizes_pb_write b n : sizes (pb_write b n) n.
Proof.
  intros s Hs _ _. unfold pb_write, bind, gets, id. rewrite Hs. cbn [is_null negb].
  by rewrite andb_false_r.
Qed.

Lemma emits_pb_write_nil esc b : emits esc (pb_write b 0) [].
Proof.
  intros s Hok Hlt. pose proof (emits_ret esc s Hok Hlt) as Hr.
  unfold emission in *. assert (pb_write b 0 s = ret tt s) as ->; [|done].
  unfold pb_write, bind, gets, id, ret, modify. cbn.
  destruct Hok as [_ ? _ _ _]. change (zlen []) with 0 in Hlt.
  by rewrite set_written_same by lia.
Qed.

Lemma emits_pb_write esc bs : emits esc (pb_write (Some bs) (zlen bs)) bs.
Proof.
  destruct bs as [|b l]; [apply emits_pb_write_nil|].
  assert (0 < zlen (b :: l)) as Hpos0 by (rewrite zlen_cons; pose proof (zlen_nonneg l); lia).
  set (bs := b :: l) in *. clearbody bs. clear b l.
  intros s [He Hw Hm Hl Hr] Hlt. pose proof (zlen_nonneg bs) as Hz. right.
  destruct s as [cb st r mx w e]; cbn in *. subst e.
  unfold pb_write, bind, gets, id. cbn [os_callback os_bytes_written os_max_size].
  rewrite (u64_small (w + zlen bs)) by lia.
  unfold os_fits. cbn [os_callback os_bytes_written os_max_size].
  destruct (Z.ltb_spec 0 (zlen bs)) as [Hpos|]; [|lia]. cbn [andb].
  destruct cb as [| |f]; cbn [is_null negb andb orb].
  - unfold ret, modify, os_set_written. cbn. by rewrite u64_small by lia.
  - destruct (Z.ltb_spec (w + zlen bs) w); [lia|]. cbn [orb].
    destruct (Z.ltb_spec mx (w + zlen bs)), (Z.leb_spec (w + zlen bs) mx); try lia.
    { eexists. reflexivity. }
    unfold attempt, os_call, buf_write, read_buf, bind, gets, id, modify, ret. cbn.
    rewrite Z.ltb_irrefl. unfold os_set_state. cbn.
    destruct (Z.ltb_spec r (zlen bs)); [lia|]. cbn.
    rewrite zlen_to_nat, take_ge by lia. unfold os_set_written. cbn.
    by rewrite u64_small by lia.
  - destruct (Z.ltb_spec (w + zlen bs) w); [lia|]. cbn [orb].
    destruct (Z.ltb_spec mx (w + zlen bs)), (Z.leb_spec (w + zlen bs) mx); try lia.
    { eexists. reflexivity. }
    unfold attempt, os_call, read_buf, bind, gets, id, modify, ret. cbn.
    rewrite Z.ltb_irrefl. rewrite zlen_to_nat, take_ge by lia. rewrite Hr. cbn.
    unfold os_set_state, os_set_written. cbn. by rewrite u64_small by lia.
Qed.

Lemma writes_pb_write esc bs : writes esc (pb_write (Some bs) (zlen bs)) bs.
Proof. split; [apply emits_pb_write | apply sizes_pb_write]. Qed.

Lemma writes_pb_write_nil esc b : writes esc (pb_write b 0) [].
Proof. split; [apply emits_pb_write_nil | apply sizes_pb_write]. Qed.

(** ** The wire format writers emit the wire format *)
Lemma more_byte value : zb (Z.lor (Z.land value 127) 128) = zb (value mod 128 + 128).
Proof.
  pose proof (Z.mod_pos_bound value 128 ltac:(lia)).
  rewrite land_127, lor_128 by lia. done.
Qed.

Lemma last_byte value : 0 <= value < 128 ->
  zb (Z.land (bz (zb (value mod 128 + 128))) 127) = zb value.
Proof.
  intros. rewrite (Z.mod_small value) by lia. rewrite bz_zb_small by lia.
  rewrite land_127. f_equal. symmetry. apply (Z.mod_unique _ _ 1); lia.
Qed.

(** The loop fills the local buffer with the digits, all of them marked "more". *)
Lemma varint_loop_spec k fuel v buf s :
  0 < v < 128 ^ Z.of_nat k -> (length buf + k = 10)%nat -> (k < fuel)%nat ->
  exists raw b, varint_loop fuel v buf s = Done (buf ++ raw ++ [b]) s /\
    varint_digits k v = raw ++ [zb (Z.land (bz b) 127)].
Proof.
  revert fuel v buf. induction k as [|k IH]; intros fuel v buf Hv Hlen Hfuel.
  { change (128 ^ Z.of_nat 0) with 1 in Hv. lia. }
  destruct fuel as [|fuel]; [lia|]. cbn [varint_loop].
  destruct (Z.eqb_spec v 0); [lia|].
  destruct (Nat.ltb_spec (length buf) 10); [|lia].
  rewrite Nat2Z.inj_succ, Z.pow_succ_r in Hv by lia.
  rewrite more_byte, Z.shiftr_div_pow2 by lia. change (2 ^ 7) with 128.
  destruct (Z.lt_ge_cases v 128).
  - exists [], (zb (v mod 128 + 128)).
    rewrite varint_digits_small, last_byte by lia. split; [|done].
    destruct fuel as [|fuel]; [lia|]. cbn [varint_loop].
    by rewrite Z.div_small by lia.
  - destruct (IH fuel (v / 128) (buf ++ [zb (v mod 128 + 128)])) as (raw & b & Hl & Hd).
    + split; [apply Z.div_str_pos; lia|]. apply Z.div_lt_upper_bound; lia.
    + rewrite length_app. simpl. lia.
    + lia.
    + exists (zb (v mod 128 + 128) :: raw), b. rewrite Hl, varint_digits_big, Hd by lia.
      by rewrite <- app_assoc.
Qed.

Lemma encode_varint_eq v s :
  0 <= v < 2 ^ 64 ->
  pb_encode_varint v s = pb_write (Some (varint_bytes v)) (zlen (varint_bytes v)) s.
Proof.
  intros Hv. unfold pb_encode_varint, varint_bytes.
  destruct (Z.leb_spec v 127).
  - by rewrite varint_digits_small by lia.
  - destruct (varint_loop_spec 10 11 v [] s) as (raw & b & Hl & Hd);
      [change (128 ^ Z.of_nat 10) with (2 ^ 70); lia | reflexivity | lia |].
    unfold bind. rewrite Hl. rewrite Hd. cbn [app].
    unfold clear_last. rewrite rev_app_distr. cbn [rev app]. unfold ret.
    by rewrite rev_involutive.
Qed.

Lemma writes_varint esc v : 0 <= v < 2 ^ 64 -> writes esc (pb_encode_varint v) (varint_bytes v).
Proof.
  intros Hv. eapply writes_ext; [|apply writes_pb_write].
  intros s. by rewrite encode_varint_eq.
Qed.

(** Tags: the field number above the three bits of the wire type. *)
Definition tag_bytes (wiretype number : Z) : list byte := varint_bytes (8 * number + wiretype).

Lemma writes_tag esc wiretype number :
  0 <= wiretype < 8 -> 0 <= number < 2 ^ 32 ->
  writes esc (pb_encode_tag wiretype number) (tag_bytes wiretype number).
Proof.
  intros Hw Hn. unfold pb_encode_tag, tag_bytes.
  rewrite u64_small by (rewrite Z.shiftl_mul_pow2 by lia; lia).
  rewrite Z.lor_comm, lor_low_shifted by lia.
  replace (wiretype + number * 2 ^ 3) with (8 * number + wiretype) by lia.
  apply writes_varint. lia.
Qed.

Lemma writes_string esc l :
  zlen l < 2 ^ 64 ->
  writes esc (pb_encode_string (Some l) (zlen l)) (varint_bytes (zlen l) ++ l).
Proof.
  intros Hl. apply writes_bind; [|apply writes_pb_write].
  apply writes_varint. pose proof (zlen_nonneg l). lia.
Qed.

Lemma le_byte_at z k :
  0 <= k -> zb (Z.land (Z.shiftr z k) 255) = zb (Z.shiftr z k).
Proof. intros. by rewrite land_255, zb_mod. Qed.

Lemma writes_fixed32 esc v : writes esc (pb_encode_fixed32 v) (le_bytes 4 v).
Proof.
  unfold pb_encode_fixed32. rewrite <- (Z.shiftr_0_r v) at 1. rewrite !le_byte_at by lia.
  rewrite Z.shiftr_0_r.
  assert (le_bytes 4 v = [zb v; zb (v ≫ 8); zb (v ≫ 16); zb (v ≫ 24)]) as ->.
  { cbn [le_bytes]. by rewrite !Z.shiftr_shiftr by lia. }
  apply (writes_pb_write esc [_; _; _; _]).
Qed.

Lemma writes_fixed64 esc v : writes esc (pb_encode_fixed64 v) (le_bytes 8 v).
Proof.
  unfold pb_encode_fixed64. rewrite <- (Z.shiftr_0_r v) at 1. rewrite !le_byte_at by lia.
  rewrite Z.shiftr_0_r.
  assert (le_bytes 8 v = [zb v; zb (v ≫ 8); zb (v ≫ 16); zb (v ≫ 24);
            zb (v ≫ 32); zb (v ≫ 40); zb (v ≫ 48); zb (v ≫ 56)]) as ->.
  { cbn [le_bytes]. by rewrite !Z.shiftr_shiftr by lia. }
  apply (writes_pb_write esc [_; _; _; _; _; _; _; _]).
Qed.

Lemma writes_svarint esc v :
  - 2 ^ 63 <= v < 2 ^ 63 -> writes esc (pb_encode_svarint v) (varint_bytes (zigzag v)).
Proof.
  intros Hv. unfold pb_encode_svarint.
  assert ((if v <? 0 then u64 (Z.lnot (u64 (Z.shiftl (u64 v) 1)))
           else u64 (Z.shiftl (u64 v) 1)) = zigzag v) as ->.
  { unfold zigzag, u64. rewrite Z.shiftl_mul_pow2 by lia. change (2 ^ 1) with 2.
    destruct (Z.ltb_spec v 0).
    - assert (v mod 2 ^ 64 = v + 2 ^ 64) as -> by (symmetry; apply (Z.mod_unique _ _ (-1)); lia).
      assert (((v + 2 ^ 64) * 2) mod 2 ^ 64 = 2 * v + 2 ^ 64) as ->
        by (symmetry; apply (Z.mod_unique _ _ 1); lia).
      unfold Z.lnot. symmetry. apply (Z.mod_unique _ _ (-1)); lia.
    - rewrite (Z.mod_small v) by lia. rewrite Z.mod_small; lia. }
  apply writes_varint. unfold zigzag. destruct (Z.ltb_spec v 0); lia.
Qed.

Create HintDb writes.
Create HintDb regular.
#[export] Hint Resolve writes_ret writes_pb_write_nil writes_pb_write writes_varint writes_tag
  writes_string writes_fixed32 writes_fixed64 writes_svarint writes_bind : writes.

(** ** Regular encoders: what the sizing pass accepts is a byte string that
    every other stream gets too. *)
Definition regular (e : E unit) : Prop :=
  forall s s', os_callback s = cb_null -> os_errmsg s = None ->
  0 <= os_bytes_written s < 2 ^ 64 -> e s = Done tt s' -> exists bs, writes true e bs.

(** Operations that only read: the same value on every stream, or never one. *)
Definition pure_op {A} (op : E A) : Prop :=
  (exists a, forall s, op s = Done a s) \/ (forall s a s', op s <> Done a s').

Lemma pure_ret {A} (a : A) : pure_op (ret a).
Proof. left. by exists a. Qed.
Lemma pure_undef {A} u : pure_op (undef u : E A).
Proof. by right. Qed.
Lemma pure_fuel {A} : pure_op (out_of_fuel : E A).
Proof. by right. Qed.
Lemma pure_failed {A} : pure_op (failed : E A).
Proof. by right. Qed.
Lemma pure_option {A} u (o : option A) : pure_op (of_option u o).
Proof. destruct o; [apply pure_ret|apply pure_undef]. Qed.

Lemma pure_bind {A B} (op : E A) (k : A -> E B) :
  pure_op op -> (forall a, pure_op (k a)) -> pure_op (bind op k).
Proof.
  intros [[a Ha]|Hn] Hk.
  - destruct (Hk a) as [[b Hb]|Hb]; [left; exists b|right]; intros s; unfold bind;
      rewrite Ha; auto.
  - right. intros s b s'. unfold bind. destruct (op s) eqn:E; try done. by eapply Hn in E.
Qed.

Lemma pure_iter {A} (op : M pb_field_iter A) it : pure_op (with_iter op it).
Proof.
  unfold with_iter, pure_op. destruct (op it) as [a it'| | |]; eauto; right; done.
Qed.

Lemma regular_writes e bs : writes true e bs -> regular e.
Proof. intros H s s' _ _ _ _. eauto. Qed.

Lemma regular_never e : (forall s s', e s <> Done tt s') -> regular e.
Proof. intros H s s' _ _ _ He. by apply H in He. Qed.

Lemma regular_error msg : regular (os_error msg).
Proof. by apply regular_never. Qed.
Lemma regular_undef u : regular (undef u).
Proof. by apply regular_never. Qed.
Lemma regular_fuel : regular out_of_fuel.
Proof. by apply regular_never. Qed.
Lemma regular_failed : regular failed.
Proof. by apply regular_never. Qed.

Lemma regular_bind e1 e2 : regular e1 -> regular e2 -> regular (e1;;; e2).
Proof.
  intros H1 H2 s s' Hs He Hw Hd. unfold bind in Hd.
  destruct (e1 s) as [[] s1| | |] eqn:E1; try done.
  destruct (H1 _ _ Hs He Hw E1) as [b1 W1].
  rewrite (writes_sizes _ _ _ W1) in E1 by done. simplify_eq.
  destruct (H2 _ _ (Hs : os_callback (os_set_written _ s) = _) He (u64_range _) Hd) as [b2 W2].
  eauto using writes_bind.
Qed.

Lemma regular_pure {A} (op : E A) (k : A -> E unit) :
  pure_op op -> (forall a, (forall s, op s = Done a s) -> regular (k a)) ->
  regular (bind op k).
Proof.
  intros [[a Ha]|Hn] Hk s s' Hs He Hw Hd.
  - unfold bind in Hd. rewrite Ha in Hd. destruct (Hk a Ha _ _ Hs He Hw Hd) as [bs W].
    exists bs. eapply writes_ext; [|exact W]. intros t. unfold bind. by rewrite Ha.
  - unfold bind in Hd. destruct (op s) eqn:E; try done. by eapply Hn in E.
Qed.

Lemma regular_attempt e msg :
  regular e ->
  regular (let* ok := attempt e in
           match ok with Some _ => ret tt | None => os_error msg end).
Proof.
  intros H s s' Hs He Hw Hd. unfold bind, attempt in Hd.
  destruct (e s) as [[] t|t| |] eqn:E; try done.
  destruct (H _ _ Hs He Hw E) as [bs [H1 H2]]. exists bs. split.
  - intros u Hok Hlt. unfold emission, bind, attempt.
    destruct (H1 u Hok Hlt) as [[? ->]|H1']; [auto|]. right.
    destruct (os_fits (zlen bs) u); [by rewrite H1'|]. destruct H1' as [u' ->].
    eexists. reflexivity.
  - intros u Hu Heu Hwu. unfold bind, attempt. by rewrite H2.
Qed.

Lemma regular_write_data (b : option (list byte)) n :
  0 <= n < 2 ^ 64 -> (forall l, b = Some l -> zlen l = n) -> regular (pb_encode_string b n).
Proof.
  intros Hn Hb s s' _ _ _ _. destruct b as [l|].
  - rewrite <- (Hb l eq_refl) in *. exists (varint_bytes (zlen l) ++ l).
    apply writes_string. lia.
  - (* unmapped: any data of that length stands for what would be read *)
    exists (varint_bytes n ++ replicate (Z.to_nat n) (zb 0)).
    apply writes_bind; [by apply writes_varint|].
    assert (zlen (replicate (Z.to_nat n) (zb 0)) = n) as Hl
      by (unfold zlen; rewrite length_replicate; lia).
    split; [|rewrite Hl; apply sizes_pb_write].
    intros t Hok Hlt. destruct (Z.eq_dec n 0) as [->|Hnz].
    { apply (emits_pb_write_nil true None t Hok Hlt). }
    destruct (emits_pb_write false (replicate (Z.to_nat n) (zb 0)) t Hok Hlt) as [[]|Hr]; [done|].
    unfold emission in *. rewrite Hl in *. unfold pb_write, bind, gets, id in *.
    destruct (Z.ltb_spec 0 n); [|lia]. cbn [andb] in *.
    destruct (is_null (os_callback t)) eqn:Hnull; cbn [negb] in *; [by right|].
    destruct (_ || _); [by right|]. left. split; [done|].
    unfold attempt, os_call, buf_write, read_buf, bind, gets, id.
    by destruct (os_callback t).
Qed.

(** ** Every encoder is regular *)
Lemma pure_on_ostream {A} t (op : E A) : pure_op (on_ostream t op).
Proof.
  unfold pure_op, on_ostream. destruct (op t); eauto; right; done.
Qed.

(** A length prefix, then an encoder [e] that is not run by a sizing stream. *)
Lemma writes_sized size (e : pb_ostream -> E unit) bs :
  0 <= size < 2 ^ 64 -> size = u64 (zlen bs) ->
  (forall s, is_null (os_callback s) = false -> os_ok s ->
     os_bytes_written s + zlen bs < 2 ^ 64 -> emission true (e s) bs s) ->
  writes true
    (pb_encode_varint size;;;
     let* s := gets id in if is_null (os_callback s) then pb_write None size else e s)
    (varint_bytes size ++ bs).
Proof.
  intros Hs Hsz He. pose proof (zlen_nonneg bs) as Hn.
  assert (sizes (let* s := gets id in
                 if is_null (os_callback s) then pb_write None size else e s) (zlen bs)) as Hsizes.
  { intros s Hnull Herr Hw. unfold bind at 1, gets, id. rewrite Hnull. cbn [is_null].
    rewrite sizes_pb_write by done. do 2 f_equal. rewrite Hsz. apply u64_add_r. }
  split.
  - apply emits_bind; [by apply writes_varint|]. intros s Hok Hlt.
    destruct (is_null (os_callback s)) eqn:Hnull.
    + right. unfold os_fits. rewrite Hnull. cbn [orb].
      destruct Hok as [? ? _ _ _]. unfold os_push.
      destruct (os_callback s) eqn:Hcb; try done.
      rewrite Hsizes; [by rewrite u64_small by lia|done|done|lia].
    + unfold emission, bind, gets, id. rewrite Hnull. by apply He.
  - rewrite zlen_app. apply sizes_bind; [|done].
    by eapply (writes_sizes true), writes_varint.
Qed.

Lemma emission_sub s (r : E unit) bs :
  is_null (os_callback s) = false -> os_ok s ->
  os_bytes_written s + zlen bs < 2 ^ 64 -> emits true r bs ->
  emission true
    (if os_max_size s <? u64 (os_bytes_written s + zlen bs) then os_error "stream full"
     else
       let sub := mk_ostream (os_callback s) (os_state s) (os_room s) (zlen bs) 0 None in
       let* (status, t) := on_ostream sub r in
       modify (fun s => mk_ostream (os_callback s) (os_state t) (os_room t)
                 (os_max_size s) (u64 (os_bytes_written s + os_bytes_written t))
                 (os_errmsg t));;;
       if negb (os_bytes_written t =? zlen bs) then os_error "submsg size changed"
       else match status with Some _ => ret tt | None => failed end) bs s.
Proof.
  intros Hnull [He Hw Hm Hl Hr] Hlt Hemit. pose proof (zlen_nonneg bs) as Hn.
  unfold emission, os_fits. rewrite Hnull. cbn [orb].
  match goal with |- context [(if ?c then ?x else ?y) s] =>
    remember ((if c then x else y) s) as o eqn:Ho end.
  rewrite (u64_small (_ + _)) in Ho by lia.
  destruct (Z.ltb_spec (os_max_size s) (os_bytes_written s + zlen bs)),
    (Z.leb_spec (os_bytes_written s + zlen bs) (os_max_size s)); try lia.
  { right. subst o. eexists. reflexivity. }
  set (sub := mk_ostream _ _ _ _ _ _) in Ho.
  assert (os_ok sub) as Hsub.
  { destruct s as [[| |f] st rm mx w e]; unfold sub; cbn in *; try done;
      constructor; cbn; auto; lia. }
  assert (os_fits (zlen bs) sub = true) as Hfit.
  { unfold os_fits, sub. cbn. apply orb_true_iff. right. apply Z.leb_le. lia. }
  unfold bind at 1, on_ostream in Ho.
  destruct (Hemit sub Hsub) as [[_ Hub]|Hd]; [cbn; lia| |].
  - left. by rewrite Hub in Ho.
  - right. rewrite Hfit in Hd. rewrite Hd in Ho.
    unfold bind, modify in Ho. rewrite os_push_written in Ho. cbn [os_bytes_written sub] in Ho.
    rewrite Z.add_0_l, Z.eqb_refl in Ho. unfold ret in Ho. cbn [negb] in Ho. subst o. f_equal.
    destruct s as [[| |f] st rm mx w e]; try done; cbn in *; subst e;
      rewrite u64_small by lia; done.
Qed.

Section Regular.
Context `{Descriptors} `{!TypedDescriptors} `{EncCallbacks} (m : mem).

(** What the documentation asks of the application's encoding callbacks: to
    write the same data each time they are called. *)
Context (callbacks_regular : forall p f a, regular (enc_callback p f a m)).
Context (extensions_regular : forall p e, regular (enc_extension p e m)).

Lemma pure_ld a n : pure_op (ld m a n).
Proof. apply pure_option. Qed.

Lemma ld_range a n v s s' : 0 <= n -> ld m a n s = Done v s' -> 0 <= v < 256 ^ n.
Proof.
  intros Hn. unfold ld, of_option. destruct (load_uint m a n) eqn:E; [|done].
  intros [= <- _]. by eapply load_uint_range.
Qed.

Lemma pure_bool a : pure_op (safe_read_bool m a).
Proof. apply pure_bind; [apply pure_ld|intros; apply pure_ret]. Qed.

Lemma pure_strnlen fuel p size max_size : pure_op (strnlen_loop m fuel p size max_size).
Proof.
  revert p size. induction fuel as [|fuel IH]; intros p size; cbn [strnlen_loop].
  - apply pure_fuel.
  - destruct (size <? max_size); [|apply pure_ret].
    apply pure_bind; [apply pure_ld|]. intros c.
    destruct (c =? 0); [apply pure_ret|apply IH].
Qed.

Lemma strnlen_range fuel p size max_size s n s' :
  strnlen_loop m fuel p size max_size s = Done n s' -> size <= n <= Z.max size max_size.
Proof.
  revert p size s. induction fuel as [|fuel IH]; intros p size s; cbn [strnlen_loop]; [done|].
  destruct (Z.ltb_spec size max_size).
  - unfold bind, ld, of_option. destruct (load_uint m p 1) as [c|]; [|done]. unfold ret.
    destruct (c =? 0).
    + intros [= <- _]. lia.
    + intros Hd. apply IH in Hd. lia.
  - unfold ret. intros [= <- _]. lia.
Qed.

Lemma regular_load a n :
  0 <= n < 2 ^ 64 -> regular (pb_encode_string (load_bytes m a n) n).
Proof.
  intros Hn. apply regular_write_data; [done|]. intros l Hl.
  apply load_bytes_len in Hl; lia.
Qed.

Hint Resolve pure_ld pure_bool pure_strnlen pure_ret pure_iter regular_error regular_undef
  regular_fuel regular_failed : regular.

Lemma regular_varint v : 0 <= v < 2 ^ 64 -> regular (pb_encode_varint v).
Proof. intros. eapply regular_writes. by apply writes_varint. Qed.
Lemma regular_ret : regular (ret tt).
Proof. eapply regular_writes, writes_ret. Qed.

Lemma regular_tag_for_field f :
  field_typed f -> regular (pb_encode_tag_for_field f).
Proof.
  intros []. unfold pb_encode_tag_for_field.
  destruct (wiretype_of _) as [w|] eqn:Hw; [|auto with regular].
  eapply regular_writes, writes_tag; [|done].
  revert Hw. unfold wiretype_of.
  repeat case_match; intros; simplify_eq; unfold PB_WT_VARINT, PB_WT_32BIT, PB_WT_64BIT,
    PB_WT_STRING; lia.
Qed.

Lemma ld_unsigned a n v :
  int_size n = true -> (forall s : pb_ostream, ld m a n s = Done v s) -> 0 <= v < 2 ^ 64.
Proof.
  unfold int_size. rewrite !orb_true_iff, !Z.eqb_eq. intros Hn Hv.
  pose proof (ld_range a n v PB_OSTREAM_SIZING _ ltac:(lia) (Hv _)) as Hr.
  destruct Hn as [[[-> | ->] | ->] | ->]; cbn in Hr; lia.
Qed.

Lemma pure_signed a n : pure_op (ld_signed m a n).
Proof. apply pure_bind; auto with regular. Qed.

Lemma ld_signed_range a n v :
  int_size n = true -> (forall s : pb_ostream, ld_signed m a n s = Done v s) ->
  - 2 ^ 63 <= v < 2 ^ 63.
Proof.
  unfold int_size. rewrite !orb_true_iff, !Z.eqb_eq. intros Hn Hv.
  specialize (Hv PB_OSTREAM_SIZING). unfold ld_signed, bind, ld, of_option in Hv.
  destruct (load_uint m a n); [|done]. cbv [ret] in Hv.
  injection Hv as <-. pose proof (swrap_range (8 * n) z ltac:(lia)).
  destruct Hn as [[[-> | ->] | ->] | ->]; cbn in *; lia.
Qed.

Lemma writes_submessage (rec : list pb_field -> Z -> E unit) fields src bs :
  writes true (rec fields src) bs ->
  writes true (pb_encode_submessage rec fields src) (varint_bytes (u64 (zlen bs)) ++ bs).
Proof.
  intros Hbs. pose proof (writes_sizes _ _ _ Hbs PB_OSTREAM_SIZING eq_refl eq_refl
                            ltac:(cbn; lia)) as Hd.
  eapply writes_ext.
  { intros s. symmetry. unfold pb_encode_submessage, bind at 1, on_ostream at 1.
    rewrite Hd. cbv iota beta. reflexivity. }
  cbn [os_bytes_written os_set_written PB_OSTREAM_SIZING]. rewrite Z.add_0_l.
  eapply (writes_sized _ (fun s => _)); [apply u64_range|done|].
  intros s Hnull Hok Hlt. pose proof (zlen_nonneg bs). pose proof (ok_written _ Hok).
  rewrite (u64_small (zlen bs)) by lia. apply emission_sub; auto. apply Hbs.
Qed.

Lemma regular_submessage (rec : list pb_field -> Z -> E unit) fields src :
  regular (rec fields src) -> regular (pb_encode_submessage rec fields src).
Proof.
  intros Hrec s s' Hs He Hw Hd.
  destruct (rec fields src PB_OSTREAM_SIZING) as [[] t|t|u|] eqn:Er.
  - destruct (Hrec PB_OSTREAM_SIZING t eq_refl eq_refl ltac:(cbn; lia) Er) as [bs Hbs].
    eexists. by apply writes_submessage.
  - unfold pb_encode_submessage, bind at 1, on_ostream at 1 in Hd. by rewrite Er in Hd.
  - unfold pb_encode_submessage, bind at 1, on_ostream at 1 in Hd. by rewrite Er in Hd.
  - unfold pb_encode_submessage, bind at 1, on_ostream at 1 in Hd. by rewrite Er in Hd.
Qed.

Lemma regular_scalar (rec : list pb_field -> Z -> E unit) f src :
  field_typed f -> (forall fields a, Forall field_typed fields -> regular (rec fields a)) ->
  forall ltype, regular (PB_ENCODERS m rec ltype f src).
Proof.
  intros [] Hrec ltype. unfold PB_ENCODERS.
  repeat match goal with |- regular ((if ?c then _ else _) f src) => destruct c end;
    auto with regular.
  - (* bool *) apply regular_pure; [apply pure_bool|]. intros b _.
    apply regular_varint. destruct b; lia.
  - (* varint *) unfold pb_enc_varint. destruct (int_size _) eqn:Hn; [|auto with regular].
    apply regular_pure; [apply pure_signed|]. intros v _. apply regular_varint, u64_range.
  - (* uvarint *) unfold pb_enc_uvarint. destruct (int_size _) eqn:Hn; [|auto with regular].
    apply regular_pure; [apply pure_ld|]. intros v Hv.
    apply regular_varint. by eapply ld_unsigned.
  - (* svarint *) unfold pb_enc_svarint. destruct (int_size _) eqn:Hn; [|auto with regular].
    apply regular_pure; [apply pure_signed|]. intros v Hv.
    eapply regular_writes, writes_svarint. by eapply ld_signed_range.
  - (* fixed32 *) apply regular_pure; [apply pure_ld|]. intros v _.
    eapply regular_writes, writes_fixed32.
  - (* fixed64 *) apply regular_pure; [apply pure_ld|]. intros v _.
    eapply regular_writes, writes_fixed64.
  - (* bytes *) unfold pb_enc_bytes. destruct (src =? 0).
    + apply regular_write_data; [lia|]. intros ? [=].
    + apply regular_pure; [apply pure_ld|]. intros n Hn.
      destruct (_ && _); [auto with regular|]. apply regular_load.
      pose proof (ld_range src 4 n PB_OSTREAM_SIZING _ ltac:(lia) (Hn _)) as Hr.
      cbn in Hr. lia.
  - (* string *) unfold pb_enc_string. apply regular_pure.
    { destruct (src =? 0); auto with regular. }
    intros n Hn. apply regular_load.
    specialize (Hn PB_OSTREAM_SIZING). destruct (src =? 0).
    + injection Hn as <-. lia.
    + apply strnlen_range in Hn. unfold SIZE_MAX in Hn.
      destruct (PB_ATYPE _ =? _); lia.
  - (* submessage *) unfold pb_enc_submessage. destruct (pf_ptr f =? 0); [auto with regular|].
    apply regular_submessage, Hrec, descs_typed.
  - (* fixed length bytes *) apply regular_load. lia.
Qed.

Hint Resolve regular_ret regular_tag_for_field : regular.

Lemma regular_items func size n p :
  (forall q, regular (func q)) -> regular (encode_items func size n p).
Proof.
  intros Hf. revert p. induction n as [|n IH]; intros p; cbn [encode_items].
  - auto with regular.
  - apply regular_bind; auto.
Qed.

(** Fixed-width items: the code counts them without visiting them. *)
Lemma emits_fixed_items func size w n p :
  0 <= w -> (forall q, exists bs, zlen bs = w /\ emits true (func q) bs) ->
  exists bs, zlen bs = w * Z.of_nat n /\ emits true (encode_items func size n p) bs.
Proof.
  intros Hw Hf. revert p. induction n as [|n IH]; intros p; cbn [encode_items].
  - exists []. split; [rewrite zlen_nil; lia|apply emits_ret].
  - destruct (Hf p) as (b1 & Hl1 & He1), (IH (p + size)) as (b2 & Hl2 & He2).
    exists (b1 ++ b2). split; [rewrite zlen_app; lia|by apply emits_bind].
Qed.

Lemma emits_load_fixed (wr : Z -> E unit) a n k :
  (forall v, emits true (wr v) (le_bytes k v)) ->
  exists bs, zlen bs = Z.of_nat k /\ emits true (let* v := ld m a n in wr v) bs.
Proof.
  intros Hwr. unfold ld. destruct (load_uint m a n) as [v|].
  - exists (le_bytes k v). split; [unfold zlen; by rewrite length_le_bytes|]. apply Hwr.
  - exists (replicate k (zb 0)). split; [unfold zlen; by rewrite length_replicate|].
    intros s _ _. left. done.
Qed.

Lemma regular_packed_fixed func size w count pData :
  0 <= w -> 0 <= count -> w * count < 2 ^ 64 ->
  (forall q, exists bs, zlen bs = w /\ emits true (func q) bs) ->
  regular
    (pb_encode_varint (u64 (w * count));;;
     let* s := gets id in
     if is_null (os_callback s) then pb_write None (u64 (w * count))
     else encode_items func size (Z.to_nat count) pData).
Proof.
  intros Hw Hc Hlt Hf.
  destruct (emits_fixed_items func size w (Z.to_nat count) pData Hw Hf) as (bs & Hl & He).
  rewrite Z2Nat.id in Hl by done.
  eapply regular_writes, (writes_sized _ (fun _ => _) bs); [apply u64_range|by rewrite Hl|].
  intros s _ Hok Hb. by apply He.
Qed.

Lemma regular_packed (items : E unit) :
  regular items ->
  regular
    (let* size := (let* (r, sizestream) := on_ostream PB_OSTREAM_SIZING items in
                   match r with
                   | Some _ => ret (os_bytes_written sizestream)
                   | None => failed
                   end) in
     pb_encode_varint size;;;
     let* s := gets id in
     if is_null (os_callback s) then pb_write None size else items).
Proof.
  intros Hitems. apply regular_pure.
  { apply pure_bind; [apply pure_on_ostream|]. intros [[]?]; [apply pure_ret|apply pure_failed]. }
  intros size Hsize. specialize (Hsize PB_OSTREAM_SIZING).
  unfold bind, on_ostream in Hsize. destruct (items _) as [[] t|t| |] eqn:Ei; try done.
  cbv [ret] in Hsize. simplify_eq.
  destruct (Hitems PB_OSTREAM_SIZING t eq_refl eq_refl ltac:(cbn; lia) Ei) as [bs Hbs].
  rewrite (writes_sizes _ _ _ Hbs) in Ei by (cbn; auto; lia). simplify_eq.
  cbn [os_bytes_written os_set_written PB_OSTREAM_SIZING]. rewrite Z.add_0_l.
  eapply regular_writes, (writes_sized _ (fun _ => _) bs); [apply u64_range|done|].
  intros s _ Hok Hlt. by apply (writes_emits _ _ _ Hbs).
Qed.

Lemma regular_array (rec : list pb_field -> Z -> E unit) f pData count :
  field_typed f -> 0 <= count < 2 ^ 32 ->
  (forall fields a, Forall field_typed fields -> regular (rec fields a)) ->
  regular (encode_array m f pData count (PB_ENCODERS m rec (PB_LTYPE (pf_type f)))).
Proof.
  intros Hf Hc Hrec. unfold encode_array.
  destruct (count =? 0); [auto with regular|].
  destruct (_ && _); [auto with regular|].
  destruct (_ <=? _).
  - apply regular_bind.
    { destruct Hf. eapply regular_writes, writes_tag; unfold PB_WT_STRING; lia. }
    destruct (Z.eqb_spec (PB_LTYPE (pf_type f)) PB_LTYPE_FIXED32) as [->|].
    + apply regular_packed_fixed; try lia. intros q.
      apply (emits_load_fixed pb_encode_fixed32 q 4 4), writes_fixed32.
    + destruct (Z.eqb_spec (PB_LTYPE (pf_type f)) PB_LTYPE_FIXED64) as [->|].
      * apply regular_packed_fixed; try lia. intros q.
        apply (emits_load_fixed pb_encode_fixed64 q 8 8), writes_fixed64.
      * apply regular_packed, regular_items. intros q. by apply regular_scalar.
  - apply regular_items. intros q. apply regular_bind; [auto with regular|].
    destruct (_ && _); [|by apply regular_scalar].
    apply regular_pure; [apply pure_ld|]. intros a _. by apply regular_scalar.
Qed.

(** *** The proto3 default check only reads. *)
Lemma pure_all_zero n p : pure_op (all_zero m n p).
Proof.
  revert p. induction n as [|n IH]; intros p; cbn [all_zero]; [apply pure_ret|].
  apply pure_bind; [apply pure_ld|]. intros c. destruct (c =? 0); [apply IH|apply pure_ret].
Qed.

Lemma pure_check_fields check n it :
  (forall f a, pure_op (check f a)) -> pure_op (check_fields check n it).
Proof.
  intros Hc. revert it. induction n as [|n IH]; intros it; cbn [check_fields].
  { apply pure_fuel. }
  apply pure_bind; [apply pure_iter|]. intros [f it1].
  apply pure_bind; [apply Hc|]. intros []; [|apply pure_ret].
  apply pure_bind; [apply pure_iter|]. intros [[] it2]; [apply IH|apply pure_ret].
Qed.

Lemma pure_check depth f a : pure_op (pb_check_proto3_default_value m depth f a).
Proof.
  revert f a. induction depth as [|depth IH]; intros f a;
    cbn [pb_check_proto3_default_value]; [apply pure_fuel|].
  repeat match goal with
  | |- pure_op (if ?c then _ else _) => destruct c
  | |- pure_op (ret _) => apply pure_ret
  | |- pure_op (bind (ld _ _ _) _) => apply pure_bind; [apply pure_ld|intros ?]
  | |- pure_op (bind (safe_read_bool _ _) _) => apply pure_bind; [apply pure_bool|intros ?]
  | |- pure_op (all_zero _ _ _) => apply pure_all_zero
  | |- pure_op (bind (with_iter _ _) _) => apply pure_bind; [apply pure_iter|intros [??]]
  | |- pure_op (check_fields _ _ _) => apply pure_check_fields, IH
  end.
Qed.

Lemma regular_basic_field (rec : list pb_field -> Z -> E unit) fuel f pData :
  field_typed f ->
  (forall fields a, Forall field_typed fields -> regular (rec fields a)) ->
  regular (encode_basic_field m rec fuel f pData).
Proof.
  intros Hf Hrec. unfold encode_basic_field.
  assert (forall a, regular (pb_encode_tag_for_field f;;;
            PB_ENCODERS m rec (PB_LTYPE (pf_type f)) f a)) as Hone.
  { intros a. apply regular_bind; [auto with regular|by apply regular_scalar]. }
  apply regular_pure.
  { destruct (negb _); [apply pure_ret|]. destruct (_ =? _); [|apply pure_ret].
    apply pure_bind; [apply pure_check|intros; apply pure_ret]. }
  intros implicit_has _. apply regular_pure.
  { destruct (_ =? _); [apply pure_ld|apply pure_ret]. }
  intros data _. destruct (_ =? PB_HTYPE_REQUIRED).
  { destruct (data =? 0); auto with regular. }
  destruct (_ =? PB_HTYPE_OPTIONAL).
  { apply regular_pure.
    { destruct (negb _); [apply pure_bool|apply pure_ret]. }
    intros [] _; auto with regular. }
  destruct (_ =? PB_HTYPE_REPEATED).
  { apply regular_pure.
    { destruct (negb _); [apply pure_ld|apply pure_ret]. }
    intros count Hcount. apply regular_array; auto.
    specialize (Hcount PB_OSTREAM_SIZING). destruct (negb _).
    - apply ld_range in Hcount; [|lia]. by cbn in Hcount.
    - injection Hcount as <-. apply Hf. }
  apply regular_pure.
  { destruct (negb _); [apply pure_ld|apply pure_undef]. }
  intros which _. destruct (_ =? _); auto with regular.
Qed.

Lemma regular_field (rec : list pb_field -> Z -> E unit) fuel f pData :
  field_typed f ->
  (forall fields a, Forall field_typed fields -> regular (rec fields a)) ->
  regular (encode_field m rec fuel f pData).
Proof.
  intros Hf Hrec. unfold encode_field.
  destruct (_ || _); [by apply regular_basic_field|].
  destruct (_ =? _); [|auto with regular]. unfold encode_callback_field.
  apply regular_pure; [apply pure_ld|]. intros p _.
  destruct (negb _); [|auto with regular]. apply regular_attempt, callbacks_regular.
Qed.

Lemma regular_extensions (rec : list pb_field -> Z -> E unit) fuel n e :
  (forall fields a, Forall field_typed fields -> regular (rec fields a)) ->
  regular (encode_extensions m rec fuel n e).
Proof.
  intros Hrec. revert e. induction n as [|n IH]; intros e; cbn [encode_extensions].
  { auto with regular. }
  destruct (e =? 0); [auto with regular|].
  do 2 (apply regular_pure; [apply pure_ld|]; intros ? _).
  apply regular_bind; [|apply regular_pure; [apply pure_ld|]; intros ? _; apply IH].
  destruct (negb _); [apply extensions_regular|]. unfold default_extension_encoder.
  do 2 (apply regular_pure; [apply pure_ld|]; intros ? _).
  apply regular_pure; [apply pure_option|]. intros f Hf.
  assert (field_typed f) as Htyped.
  { specialize (Hf PB_OSTREAM_SIZING). destruct (descs a2 !! 0%nat) eqn:Hd; [|done].
    injection Hf as <-. eapply Forall_lookup_1; [apply descs_typed|done]. }
  destruct (_ =? _); [by apply regular_field|].
  apply regular_pure; [apply pure_ld|]. intros ? _. by apply regular_field.
Qed.

Lemma regular_fields (rec : list pb_field -> Z -> E unit) fuel n it :
  (forall fields a, Forall field_typed fields -> regular (rec fields a)) ->
  Forall field_typed (it_start it) -> regular (encode_fields m rec fuel n it).
Proof.
  intros Hrec. revert it. induction n as [|n IH]; intros it Hit; cbn [encode_fields].
  { auto with regular. }
  apply regular_pure; [apply pure_iter|]. intros [f it1] Hi.
  specialize (Hi PB_OSTREAM_SIZING). apply with_iter_inv in Hi as [Hi _].
  pose proof (Forall_field _ _ _ _ Hit Hi). apply iter_field_inv in Hi as [-> _].
  apply regular_bind.
  - destruct (_ =? _); [|by apply regular_field].
    apply regular_pure; [apply pure_ld|]. intros ? _. by apply regular_extensions.
  - apply regular_pure; [apply pure_iter|]. intros [more it2] Hn.
    specialize (Hn PB_OSTREAM_SIZING). apply with_iter_inv in Hn as [Hn _].
    apply next_start in Hn. destruct more; [|auto with regular].
    apply IH. by rewrite Hn.
Qed.

Lemma regular_pb_encode fuel fields src :
  Forall field_typed fields -> regular (pb_encode m fuel fields src).
Proof.
  revert fields src. induction fuel as [|fuel IH]; intros fields src Hf; cbn [pb_encode].
  { auto with regular. }
  unfold encode_message. apply regular_pure; [apply pure_iter|].
  intros [nonempty it] Hb. specialize (Hb PB_OSTREAM_SIZING).
  apply with_iter_inv in Hb as [Hb _]. apply begin_start in Hb.
  destruct nonempty; [|auto with regular].
  apply regular_fields; [auto|]. by rewrite Hb.
Qed.
End Regular.
