(* ===== verification/PbDecode.v ===== *)
(** nanopb, [pb_decode.c]: input streams, the wire format readers, the field
    decoders, the dynamic allocation of pointer fields and the message decoder.
    The state of the monad is the input stream, the memory that the message is
    decoded into, and the local [fixed_count_size] of the running
    [pb_decode_noinit].  A stream's [state] pointer is the list of the bytes of
    its buffer object from there on. *)
From S2P Require Import Prelude.
From S2P Require Import PbBase.
From S2P Require Import PbCommon.
From S2P Require Import PbEncode.

(** ** Input streams *)
Inductive icallback : Type :=
| cb_buf_read
| cb_in (f : list byte -> Z -> option (list byte) * list byte).   (* a caller's *)

Record pb_istream : Type := mk_istream {
  is_callback : icallback;
  is_state : list byte;
  is_bytes_left : Z;
  is_errmsg : option string
}.

Record dstate : Type := mk_dstate {
  ds_stream : pb_istream;
  ds_mem : mem;
  ds_fixed : Z                     (* fixed_count_size *)
}.

Definition D : Type -> Type := M dstate.

Definition set_stream (f : pb_istream -> pb_istream) (s : dstate) : dstate :=
  mk_dstate (f (ds_stream s)) (ds_mem s) (ds_fixed s).
Definition is_set_state (l : list byte) (s : pb_istream) : pb_istream :=
  mk_istream (is_callback s) l (is_bytes_left s) (is_errmsg s).
Definition is_set_left (n : Z) (s : pb_istream) : pb_istream :=
  mk_istream (is_callback s) (is_state s) n (is_errmsg s).
Definition is_set_errmsg (e : option string) (s : pb_istream) : pb_istream :=
  mk_istream (is_callback s) (is_state s) (is_bytes_left s) e.

Definition stream_of : D pb_istream := gets ds_stream.
Definition put_stream (s' : pb_istream) : D unit := modify (set_stream (fun _ => s')).

(** [PB_RETURN_ERROR]. *)
Definition is_error {A} (msg : string) : D A :=
  modify (set_stream (fun s => is_set_errmsg (PB_SET_ERROR (is_errmsg s) msg) s));;; failed.

(** [buf_read]: reading past the buffer object is undefined. *)
Definition buf_read (count : Z) : D (list byte) :=
  let* s := stream_of in
  if zlen (is_state s) <? count then undef UbRead
  else
    put_stream (is_set_state (drop (Z.to_nat count) (is_state s)) s);;;
    ret (take (Z.to_nat count) (is_state s)).

(** [stream->callback(stream, buf, count)]: a caller's callback gives the data,
    or [None] for false, and its new state. *)
Definition is_call (count : Z) : D (list byte) :=
  let* s := stream_of in
  match is_callback s with
  | cb_buf_read => buf_read count
  | cb_in f =>
      let (r, st) := f (is_state s) count in
      put_stream (is_set_state st s);;;
      match r with
      | Some l => if (zlen l =? count) then ret l else undef UbArray
      | None => failed
      end
  end.

(** [pb_read] with a buffer to read into: the data read. *)
Definition pb_read_buf (count : Z) : D (list byte) :=
  if count =? 0 then ret []
  else
    let* s := stream_of in
    if is_bytes_left s <? count then is_error "end-of-stream"
    else
      let* r := attempt (is_call count) in
      match r with
      | Some l =>
          modify (set_stream (fun s => is_set_left (is_bytes_left s - count) s));;; ret l
      | None => is_error "io error"
      end.

(** [while (count > 16) pb_read(tmp, 16)] then the rest. *)
Fixpoint skip_chunks (fuel : nat) (count : Z) : D unit :=
  match fuel with
  | O => out_of_fuel
  | S fuel =>
      if 16 <? count then pb_read_buf 16;;; skip_chunks fuel (count - 16)
      else pb_read_buf count;;; ret tt
  end.

(** [pb_read] with a null buffer: skip. *)
Definition pb_read_null (count : Z) : D unit :=
  if count =? 0 then ret tt
  else
    let* s := stream_of in
    match is_callback s with
    | cb_buf_read => pb_read_buf count;;; ret tt
    | cb_in _ => skip_chunks (S (Z.to_nat (count / 16))) count
    end.

Definition pb_readbyte : D byte :=
  let* s := stream_of in
  if is_bytes_left s =? 0 then is_error "end-of-stream"
  else
    let* r := attempt (is_call 1) in
    match r with
    | Some l =>
        modify (set_stream (fun s => is_set_left (is_bytes_left s - 1) s));;;
        of_option UbArray (head l)
    | None => is_error "io error"
    end.

Definition pb_istream_from_buffer (buf : list byte) (bufsize : Z) : pb_istream :=
  mk_istream cb_buf_read buf bufsize None.

(** ** Wire format readers *)

(** The [do ... while (byte & 0x80)] of the multibyte case; [bitpos] is a
    [uint_fast8_t]. *)
Fixpoint varint32_loop (fuel : nat) (bitpos result : Z) : D (Z * Z * Z) :=
  match fuel with
  | O => out_of_fuel
  | S fuel =>
      let* b := pb_readbyte in
      let byte := bz b in
      let* result :=
        (if 32 <=? bitpos then
           let sign_extension := if bitpos <? 63 then 255 else 1 in
           if negb (Z.land byte 127 =? 0)
              && ((Z.shiftr result 31 =? 0) || negb (byte =? sign_extension))
           then is_error "varint overflow"
           else ret result
         else ret (Z.lor result (u32 (Z.shiftl (Z.land byte 127) bitpos)))) in
      let bitpos := u8 (bitpos + 7) in
      if Z.land byte 128 =? 0 then ret (bitpos, byte, result)
      else varint32_loop fuel bitpos result
  end.

(** The loop reads one byte per turn, so the bytes of the stream bound it. *)
Definition loop_fuel : D nat :=
  let* s := stream_of in ret (S (Z.to_nat (is_bytes_left s))).

(** The result carries [*eof = true] of the failing first read: [inl tt] for
    "return false", with [*eof] set or not. *)
Definition pb_decode_varint32_eof : D (bool + Z) :=
  let* r := attempt pb_readbyte in
  match r with
  | None => let* s := stream_of in ret (inl (is_bytes_left s =? 0))
  | Some b =>
      let byte := bz b in
      if Z.land byte 128 =? 0 then ret (inr byte)
      else
        let* fuel := loop_fuel in
        let* r := attempt (varint32_loop fuel 7 (Z.land byte 127)) in
        match r with
        | None => ret (inl false)
        | Some (bitpos, byte, result) =>
            if (bitpos =? 35) && negb (Z.land byte 112 =? 0) then
              let* _ := attempt (@is_error unit "varint overflow") in ret (inl false)
            else ret (inr result)
        end
  end.

Definition pb_decode_varint32 : D Z :=
  let* r := pb_decode_varint32_eof in
  match r with inl _ => failed | inr v => ret v end.

Fixpoint varint_loop64 (fuel : nat) (bitpos result : Z) : D Z :=
  match fuel with
  | O => out_of_fuel
  | S fuel =>
      if 64 <=? bitpos then is_error "varint overflow"
      else
        let* b := pb_readbyte in
        let byte := bz b in
        let result := Z.lor result (u64 (Z.shiftl (Z.land byte 127) bitpos)) in
        let bitpos := u8 (bitpos + 7) in
        if Z.land byte 128 =? 0 then ret result else varint_loop64 fuel bitpos result
  end.

Definition pb_decode_varint : D Z :=
  let* fuel := loop_fuel in varint_loop64 fuel 0 0.

Fixpoint skip_varint_loop (fuel : nat) : D unit :=
  match fuel with
  | O => out_of_fuel
  | S fuel =>
      let* l := pb_read_buf 1 in
      let* b := of_option UbArray (head l) in
      if Z.land (bz b) 128 =? 0 then ret tt else skip_varint_loop fuel
  end.

Definition pb_skip_varint : D unit :=
  let* fuel := loop_fuel in skip_varint_loop fuel.

Definition pb_skip_string : D unit :=
  let* length := pb_decode_varint32 in pb_read_null length.

(** [inl eof] for "return false"; [inr (wire_type, tag)]. *)
Definition pb_decode_tag : D (bool + Z * Z) :=
  let* r := pb_decode_varint32_eof in
  match r with
  | inl eof => ret (inl eof)
  | inr temp =>
      if temp =? 0 then ret (inl true)
      else ret (inr (Z.land temp 7, Z.shiftr temp 3))
  end.

Definition pb_skip_field (wire_type : Z) : D unit :=
  if wire_type =? PB_WT_VARINT then pb_skip_varint
  else if wire_type =? PB_WT_64BIT then pb_read_null 8
  else if wire_type =? PB_WT_STRING then pb_skip_string
  else if wire_type =? PB_WT_32BIT then pb_read_null 4
  else is_error "invalid wire_type".

(** The loop of the varint case of [read_raw_value], [buf] holding what has
    been read; [*size] is the number of bytes. *)
Fixpoint raw_varint_loop (fuel : nat) (max_size : Z) (buf : list byte) : D (list byte) :=
  match fuel with
  | O => out_of_fuel
  | S fuel =>
      if max_size <? zlen buf + 1 then failed
      else
        let* l := pb_read_buf 1 in
        let* b := of_option UbArray (head l) in
        if Z.land (bz b) 128 =? 0 then ret (buf ++ [b])
        else raw_varint_loop fuel max_size (buf ++ [b])
  end.

Definition read_raw_value (wire_type max_size : Z) : D (list byte) :=
  if wire_type =? PB_WT_VARINT then
    raw_varint_loop (S (Z.to_nat max_size)) max_size []
  else if wire_type =? PB_WT_64BIT then pb_read_buf 8
  else if wire_type =? PB_WT_32BIT then pb_read_buf 4
  else is_error "invalid wire_type".

Definition pb_make_string_substream : D pb_istream :=
  let* size := pb_decode_varint32 in
  let* s := stream_of in
  if is_bytes_left s <? size then is_error "parent stream too short"
  else
    put_stream (is_set_left (is_bytes_left s - size) s);;;
    ret (is_set_left size s).

(** Run on a substream, the parent left alone. *)
Definition on_istream {A} (sub : pb_istream) (op : D A) : D (option A * pb_istream) := fun s =>
  match op (set_stream (fun _ => sub) s) with
  | Done a t => Done (Some a, ds_stream t) (set_stream (fun _ => ds_stream s) t)
  | Fail t => Done (None, ds_stream t) (set_stream (fun _ => ds_stream s) t)
  | Undef u => Undef u
  | OutOfFuel => OutOfFuel
  end.

Definition pb_close_string_substream (sub : pb_istream) : D unit :=
  let* (r, sub) :=
    (if negb (is_bytes_left sub =? 0)
     then on_istream sub (pb_read_null (is_bytes_left sub))
     else ret (Some tt, sub)) in
  match r with
  | None => failed
  | Some _ =>
      modify (set_stream (fun s => mk_istream (is_callback s) (is_state sub)
                                     (is_bytes_left s) (is_errmsg sub)))
  end.

(** ** Memory accesses of the decoder *)
Definition get_mem : D mem := gets ds_mem.
Definition put_mem (m : mem) : D unit :=
  modify (fun s => mk_dstate (ds_stream s) m (ds_fixed s)).
Definition put_fixed (n : Z) : D unit :=
  modify (fun s => mk_dstate (ds_stream s) (ds_mem s) n).

Definition dld (a n : Z) : D Z :=
  let* m := get_mem in of_option UbMem (load_uint m a n).
Definition dst_bytes (a : Z) (l : list byte) : D unit :=
  let* m := get_mem in
  let* m' := of_option UbMem (store_bytes m a l) in put_mem m'.
(** A store of [n] bytes of the two's complement of [v]. *)
Definition dst (a n v : Z) : D unit := dst_bytes a (le_bytes (Z.to_nat n) v).
Definition memset0 (a n : Z) : D unit := dst_bytes a (replicate (Z.to_nat n) (zb 0)).
Definition memcpy (a src n : Z) : D unit :=
  let* m := get_mem in
  let* l := of_option UbMem (load_bytes m src n) in dst_bytes a l.
Definition dfree (p : Z) : D unit :=
  let* m := get_mem in
  let* m' := of_option UbFree (pb_free m p) in put_mem m'.

(** [*(pb_size_t* )iter->pSize], and the [bool] there. *)
Definition ld_cell (c : size_cell) : D Z :=
  match c with CMem a => dld a 4 | CFixed => gets ds_fixed end.
Definition st_cell (c : size_cell) (v : Z) : D unit :=
  match c with CMem a => dst a 4 v | CFixed => put_fixed (u32 v) end.
Definition st_cell_bool (c : size_cell) (b : bool) : D unit :=
  match c with
  | CMem a => dst a 1 (if b then 1 else 0)
  | CFixed => undef UbMem       (* the local counter is only used for repeated fields *)
  end.

(** ** Scalar decoders *)
Definition pb_decode_svarint : D Z :=
  let* value := pb_decode_varint in
  ret (s64 (if Z.odd value then u64 (Z.lnot (Z.shiftr value 1)) else Z.shiftr value 1)).

Definition pb_decode_fixed32 (dest : Z) : D unit :=
  let* l := pb_read_buf 4 in
  match map bz l with
  | [b0; b1; b2; b3] =>
      dst dest 4 (Z.lor (Z.lor (Z.lor (Z.shiftl b0 0) (Z.shiftl b1 8)) (Z.shiftl b2 16))
                        (Z.shiftl b3 24))
  | _ => undef UbArray
  end.

Definition pb_decode_fixed64 (dest : Z) : D unit :=
  let* l := pb_read_buf 8 in
  match map bz l with
  | [b0; b1; b2; b3; b4; b5; b6; b7] =>
      dst dest 8
        (Z.lor (Z.lor (Z.lor (Z.lor (Z.lor (Z.lor (Z.lor (Z.shiftl b0 0) (Z.shiftl b1 8))
          (Z.shiftl b2 16)) (Z.shiftl b3 24)) (Z.shiftl b4 32)) (Z.shiftl b5 40))
          (Z.shiftl b6 48)) (Z.shiftl b7 56))
  | _ => undef UbArray
  end.

Definition pb_dec_bool (dest : Z) : D unit :=
  let* value := pb_decode_varint32 in
  dst dest 1 (if negb (value =? 0) then 1 else 0).

Definition pb_decode_bool (dest : Z) : D unit := pb_dec_bool dest.

(** [clamped = *(intN_t* )dest = (intN_t)value; if (clamped != value) error]. *)
Definition store_clamped (clamp : Z -> Z) (size dest value : Z) : D unit :=
  let clamped := clamp value in
  dst dest size clamped;;;
  if negb (clamped =? value) then is_error "integer too large" else ret tt.

Definition store_signed (data_size dest value : Z) : D unit :=
  if data_size =? 8 then store_clamped s64 8 dest value
  else if data_size =? 4 then store_clamped s32 4 dest value
  else if data_size =? 2 then store_clamped s16 2 dest value
  else if data_size =? 1 then store_clamped s8 1 dest value
  else is_error "invalid data_size".

Definition pb_dec_varint (field : pb_field) (dest : Z) : D unit :=
  let* value := pb_decode_varint in
  let svalue := if pf_data_size field =? 8 then s64 value else s32 value in
  store_signed (pf_data_size field) dest svalue.

Definition pb_dec_uvarint (field : pb_field) (dest : Z) : D unit :=
  let* value := pb_decode_varint in
  let data_size := pf_data_size field in
  if data_size =? 8 then store_clamped u64 8 dest value
  else if data_size =? 4 then store_clamped u32 4 dest value
  else if data_size =? 2 then store_clamped u16 2 dest value
  else if data_size =? 1 then store_clamped u8 1 dest value
  else is_error "invalid data_size".

Definition pb_dec_svarint (field : pb_field) (dest : Z) : D unit :=
  let* value := pb_decode_svarint in
  store_signed (pf_data_size field) dest value.

Definition pb_dec_fixed32 (dest : Z) : D unit := pb_decode_fixed32 dest.
Definition pb_dec_fixed64 (dest : Z) : D unit := pb_decode_fixed64 dest.

Definition pb_dec_fixed_length_bytes (field : pb_field) (dest : Z) : D unit :=
  let* size := pb_decode_varint32 in
  if PB_SIZE_MAX <? size then is_error "bytes overflow"
  else if size =? 0 then memset0 dest (pf_data_size field)
  else if negb (size =? pf_data_size field)
  then is_error "incorrect fixed length bytes size"
  else
    let* l := pb_read_buf (pf_data_size field) in dst_bytes dest l.

(** ** Dynamic allocation *)
Definition allocate_field `{Allocator} (pData data_size array_size : Z) : D unit :=
  let* ptr := dld pData sizeof_ptr in
  if (data_size =? 0) || (array_size =? 0) then is_error "invalid size"
  else
    let check_limit := Z.shiftl 1 32 in
    if ((check_limit <=? data_size) || (check_limit <=? array_size))
       && (SIZE_MAX / array_size <? data_size)
    then is_error "size too large"
    else
      let* m := get_mem in
      let* (q, m') := of_option UbFree (pb_realloc m ptr (u64 (array_size * data_size))) in
      put_mem m';;;
      if q =? 0 then is_error "realloc failed" else dst pData sizeof_ptr q.

Section AllocatingDecoders.
Context `{Allocator}.

Definition pb_dec_bytes (field : pb_field) (dest : Z) : D unit :=
  let* size := pb_decode_varint32 in
  if PB_SIZE_MAX <? size then is_error "bytes overflow"
  else
    let alloc_size := PB_BYTES_ARRAY_T_ALLOCSIZE size in
    if alloc_size <? size then is_error "size too large"
    else
      let* bdest :=
        (if PB_ATYPE (pf_type field) =? PB_ATYPE_POINTER then
           let* s := stream_of in
           if is_bytes_left s <? size then is_error "end-of-stream"
           else allocate_field dest alloc_size 1;;; dld dest sizeof_ptr
         else if pf_data_size field <? alloc_size then is_error "bytes overflow"
         else ret dest) in
      dst bdest 4 size;;;
      let* l := pb_read_buf size in dst_bytes (bdest + pb_bytes_offset) l.

Definition pb_dec_string (field : pb_field) (dest : Z) : D unit :=
  let* size := pb_decode_varint32 in
  let alloc_size := u32 (size + 1) in
  if alloc_size <? size then is_error "size too large"
  else
    let* dest :=
      (if PB_ATYPE (pf_type field) =? PB_ATYPE_POINTER then
         let* s := stream_of in
         if is_bytes_left s <? size then is_error "end-of-stream"
         else allocate_field dest alloc_size 1;;; dld dest sizeof_ptr
       else if pf_data_size field <? alloc_size then is_error "string overflow"
       else ret dest) in
    let* status := attempt (let* l := pb_read_buf size in dst_bytes dest l) in
    dst (dest + size) 1 0;;;
    match status with Some _ => ret tt | None => failed end.
End AllocatingDecoders.

(** ** Extension iterators *)
Definition diter {A} (op : M pb_field_iter A) (it : pb_field_iter) : D (A * pb_field_iter) :=
  with_iter op it.

Definition set_pData (a : Z) (it : pb_field_iter) : pb_field_iter :=
  mk_iter (it_start it) (it_pos it) (it_req it) (it_dest it) a (it_pSize it).
Definition set_pSize (c : size_cell) (it : pb_field_iter) : pb_field_iter :=
  mk_iter (it_start it) (it_pos it) (it_req it) (it_dest it) (it_pData it) c.

Section Decoder.
Context `{Descriptors} `{Allocator}.

(** The descriptor that [extension->type->arg] points to, and its array. *)
Definition extension_fields (extension : Z) : D (list pb_field) :=
  let* type := dld (ext_type extension) sizeof_ptr in
  let* arg := dld (ext_type_arg type) sizeof_ptr in
  ret (descs arg).

Definition iter_from_extension (extension : Z) : D pb_field_iter :=
  let* fields := extension_fields extension in
  let* field := of_option UbArray (fields !! 0%nat) in
  let* dest := dld (ext_dest extension) sizeof_ptr in
  let* (_, it) := diter (pb_field_iter_begin fields dest) iter_uninit in
  let it := set_pSize (CMem (ext_found extension)) (set_pData dest it) in
  if PB_ATYPE (pf_type field) =? PB_ATYPE_POINTER
  then ret (set_pData (ext_dest extension) it)
  else ret it.

(** [while (ext != NULL) { ...; ext = ext->next; }]. *)
Fixpoint each_extension (n : nat) (f : Z -> D unit) (ext : Z) : D unit :=
  match n with
  | O => out_of_fuel
  | S n =>
      if ext =? 0 then ret tt
      else
        f ext;;;
        let* next := dld (ext_next ext) sizeof_ptr in
        each_extension n f next
  end.

(** [do { f(&iter); } while (pb_field_iter_next(&iter))] over a message. *)
Fixpoint each_field_loop (n : nat) (f : pb_field_iter -> D unit) (it : pb_field_iter)
    : D unit :=
  match n with
  | O => out_of_fuel
  | S n =>
      f it;;;
      let* (more, it) := diter pb_field_iter_next it in
      if more then each_field_loop n f it else ret tt
  end.

Definition each_field (f : pb_field_iter -> D unit) (fields : list pb_field)
    (dest_struct : Z) : D unit :=
  let* (nonempty, it) := diter (pb_field_iter_begin fields dest_struct) iter_uninit in
  if nonempty then each_field_loop (length fields) f it else ret tt.

(** ** Default values *)
Fixpoint pb_field_set_to_default (fuel : nat) (it : pb_field_iter) : D unit :=
  match fuel with
  | O => out_of_fuel
  | S fuel =>
      let* (f, _) := diter iter_field it in
      let type := pf_type f in
      if PB_LTYPE type =? PB_LTYPE_EXTENSION then
        let* ext := dld (it_pData it) sizeof_ptr in
        each_extension fuel (fun ext =>
          dst (ext_found ext) 1 0;;;
          let* ext_iter := iter_from_extension ext in
          pb_field_set_to_default fuel ext_iter) ext
      else if PB_ATYPE type =? PB_ATYPE_STATIC then
        let* init_data :=
          (if (PB_HTYPE type =? PB_HTYPE_OPTIONAL)
              && negb (bool_decide (it_pSize it = CMem (it_pData it)))
           then st_cell_bool (it_pSize it) false;;; ret true
           else if (PB_HTYPE type =? PB_HTYPE_REPEATED)
                   || (PB_HTYPE type =? PB_HTYPE_ONEOF)
           then st_cell (it_pSize it) 0;;; ret false
           else ret true) in
        if negb init_data then ret tt
        else if PB_LTYPE type =? PB_LTYPE_SUBMESSAGE then
          each_field (pb_field_set_to_default fuel) (descs (pf_ptr f)) (it_pData it)
        else if negb (pf_ptr f =? 0) then
          memcpy (it_pData it) (pf_ptr f) (pf_data_size f)
        else memset0 (it_pData it) (pf_data_size f)
      else if PB_ATYPE type =? PB_ATYPE_POINTER then
        dst (it_pData it) sizeof_ptr 0;;;
        if (PB_HTYPE type =? PB_HTYPE_REPEATED) || (PB_HTYPE type =? PB_HTYPE_ONEOF)
        then st_cell (it_pSize it) 0 else ret tt
      else ret tt                      (* callbacks are not overwritten *)
  end.

Definition pb_message_set_to_defaults (fuel : nat) (fields : list pb_field)
    (dest_struct : Z) : D unit :=
  each_field (pb_field_set_to_default fuel) fields dest_struct.

(** ** Release *)

(** [for (; count > 0; count--) { f(pItem); pItem += size; }]. *)
Fixpoint each_item (count : nat) (f : Z -> D unit) (size pItem : Z) : D unit :=
  match count with
  | O => ret tt
  | S count => f pItem;;; each_item count f size (pItem + size)
  end.

Fixpoint pb_release_single_field (fuel : nat) (it : pb_field_iter) : D unit :=
  match fuel with
  | O => out_of_fuel
  | S fuel =>
      let* (f, _) := diter iter_field it in
      let type := pf_type f in
      let pointer := PB_ATYPE type =? PB_ATYPE_POINTER in
      let static := PB_ATYPE type =? PB_ATYPE_STATIC in
      let repeated := PB_HTYPE type =? PB_HTYPE_REPEATED in
      let* current := (if PB_HTYPE type =? PB_HTYPE_ONEOF
                       then let* which := ld_cell (it_pSize it) in ret (which =? pf_tag f)
                       else ret true) in
      if negb current then ret tt
      else
        (if PB_LTYPE type =? PB_LTYPE_EXTENSION then
           let* ext := dld (it_pData it) sizeof_ptr in
           each_extension fuel (fun ext =>
             let* ext_iter := iter_from_extension ext in
             pb_release_single_field fuel ext_iter) ext
         else if (PB_LTYPE type =? PB_LTYPE_SUBMESSAGE)
                 && negb (PB_ATYPE type =? PB_ATYPE_CALLBACK) then
           let* pItem := (if pointer then dld (it_pData it) sizeof_ptr
                          else ret (it_pData it)) in
           let* count :=
             (if repeated then
                let* count :=
                  (if static && bool_decide (it_pSize it = CMem (it_pData it))
                   then ret (pf_array_size f) else ld_cell (it_pSize it)) in
                ret (if static && (pf_array_size f <? count)
                     then pf_array_size f else count)
              else ret 1) in
           if pItem =? 0 then ret tt
           else each_item (Z.to_nat count)
                  (fun p => if p =? 0 then ret tt
                            else each_field (pb_release_single_field fuel)
                                   (descs (pf_ptr f)) p)
                  (pf_data_size f) pItem
         else ret tt);;;
        if pointer then
          (if repeated && ((PB_LTYPE type =? PB_LTYPE_STRING)
                           || (PB_LTYPE type =? PB_LTYPE_BYTES)) then
             let* pItem := dld (it_pData it) sizeof_ptr in
             let* count := ld_cell (it_pSize it) in
             each_item (Z.to_nat count)
               (fun p => let* q := dld p sizeof_ptr in dfree q;;; dst p sizeof_ptr 0)
               sizeof_ptr pItem
           else ret tt);;;
          (if repeated then st_cell (it_pSize it) 0 else ret tt);;;
          let* q := dld (it_pData it) sizeof_ptr in
          dfree q;;; dst (it_pData it) sizeof_ptr 0
        else ret tt
  end.

Definition pb_release (fuel : nat) (fields : list pb_field) (dest_struct : Z) : D unit :=
  if dest_struct =? 0 then ret tt
  else each_field (pb_release_single_field fuel) fields dest_struct.

(** The iterator comes back where it was, unless an error is returned. *)
Definition pb_release_union_field (fuel : nat) (it : pb_field_iter) : D pb_field_iter :=
  let* old_tag := ld_cell (it_pSize it) in
  let* (f, _) := diter iter_field it in
  let new_tag := pf_tag f in
  if (old_tag =? 0) || (old_tag =? new_tag) then ret it
  else
    let* (found, it) := diter (pb_field_iter_find old_tag) it in
    if negb found then is_error "invalid union tag"
    else
      pb_release_single_field fuel it;;;
      let* (found, it) := diter (pb_field_iter_find new_tag) it in
      if negb found then is_error "iterator error"
      else
        let* (f, _) := diter iter_field it in
        (if PB_ATYPE (pf_type f) =? PB_ATYPE_POINTER
         then dst (it_pData it) sizeof_ptr 0 else ret tt);;;
        ret it.
End Decoder.

(** ** Decoding a field, then a message *)

(** The callbacks of the application: function pointer, field, address of its
    argument; function pointer, extension, tag, wire type. *)
Class DecCallbacks : Type := {
  dec_callback : Z -> pb_field -> Z -> D unit;
  dec_extension : Z -> Z -> Z -> Z -> D unit
}.

Section MessageDecoder.
Context `{Descriptors} `{Allocator} `{DecCallbacks}.

Section Nested.
(** [rec] is [pb_decode_noinit]; [fuel] bounds the nesting of the defaults
    and releases, and the length of extension lists. *)
Variable rec : list pb_field -> Z -> D unit.
Variable fuel : nat.

(** [pb_decode]. *)
Definition decode_with_defaults (fields : list pb_field) (dest_struct : Z) : D unit :=
  pb_message_set_to_defaults fuel fields dest_struct;;;
  let* status := attempt (rec fields dest_struct) in
  match status with
  | Some _ => ret tt
  | None => pb_release fuel fields dest_struct;;; failed
  end.

Definition pb_dec_submessage (field : pb_field) (dest : Z) : D unit :=
  let submsg_fields := descs (pf_ptr field) in
  let* substream := pb_make_string_substream in
  if pf_ptr field =? 0 then is_error "invalid field descriptor"
  else
    let* (status, substream) :=
      on_istream substream
        (if PB_HTYPE (pf_type field) =? PB_HTYPE_REPEATED
         then decode_with_defaults submsg_fields dest
         else rec submsg_fields dest) in
    pb_close_string_substream substream;;;
    match status with Some _ => ret tt | None => failed end.

Definition PB_DECODERS (ltype : Z) : pb_field -> Z -> D unit :=
  if ltype =? PB_LTYPE_BOOL then fun _ => pb_dec_bool
  else if ltype =? PB_LTYPE_VARINT then pb_dec_varint
  else if ltype =? PB_LTYPE_UVARINT then pb_dec_uvarint
  else if ltype =? PB_LTYPE_SVARINT then pb_dec_svarint
  else if ltype =? PB_LTYPE_FIXED32 then fun _ => pb_dec_fixed32
  else if ltype =? PB_LTYPE_FIXED64 then fun _ => pb_dec_fixed64
  else if ltype =? PB_LTYPE_BYTES then pb_dec_bytes
  else if ltype =? PB_LTYPE_STRING then pb_dec_string
  else if ltype =? PB_LTYPE_SUBMESSAGE then pb_dec_submessage
  else if ltype =? PB_LTYPE_EXTENSION then fun _ _ => undef UbCall
  else if ltype =? PB_LTYPE_FIXED_LENGTH_BYTES then pb_dec_fixed_length_bytes
  else fun _ _ => undef UbArray.

(** [while (substream.bytes_left > 0 && *size < array_size)] of a packed
    static array; the status and the substream. *)
Fixpoint packed_static_loop (n : nat) (func : Z -> D unit) (f : pb_field)
    (it : pb_field_iter) (sub : pb_istream) : D (bool * pb_istream) :=
  match n with
  | O => out_of_fuel
  | S n =>
      let* size := ld_cell (it_pSize it) in
      if (0 <? is_bytes_left sub) && (size <? pf_array_size f) then
        let* (r, sub) := on_istream sub (func (it_pData it + pf_data_size f * size)) in
        match r with
        | None => ret (false, sub)
        | Some _ =>
            let* size := ld_cell (it_pSize it) in
            st_cell (it_pSize it) (u32 (size + 1));;;
            packed_static_loop n func f it sub
        end
      else ret (true, sub)
  end.

Definition decode_static_field (wire_type : Z) (it : pb_field_iter) : D unit :=
  let* (f, _) := diter iter_field it in
  let type := pf_type f in
  let func := PB_DECODERS (PB_LTYPE type) f in
  if PB_HTYPE type =? PB_HTYPE_REQUIRED then func (it_pData it)
  else if PB_HTYPE type =? PB_HTYPE_OPTIONAL then
    (if negb (bool_decide (it_pSize it = CMem (it_pData it)))
     then st_cell_bool (it_pSize it) true else ret tt);;;
    func (it_pData it)
  else if PB_HTYPE type =? PB_HTYPE_REPEATED then
    if (wire_type =? PB_WT_STRING) && (PB_LTYPE type <=? PB_LTYPE_LAST_PACKABLE) then
      let* sub := pb_make_string_substream in
      let* (status, sub) :=
        packed_static_loop (S (Z.to_nat (is_bytes_left sub))) func f it sub in
      if negb (is_bytes_left sub =? 0) then is_error "array overflow"
      else
        pb_close_string_substream sub;;;
        (if status : bool then ret tt else failed)
    else
      let* size := ld_cell (it_pSize it) in
      let pItem := it_pData it + pf_data_size f * size in
      st_cell (it_pSize it) (u32 (size + 1));;;
      if pf_array_size f <=? size then is_error "array overflow" else func pItem
  else
    (* oneof *)
    let* which := ld_cell (it_pSize it) in
    (if (PB_LTYPE type =? PB_LTYPE_SUBMESSAGE) && negb (which =? pf_tag f) then
       memset0 (it_pData it) (pf_data_size f);;;
       pb_message_set_to_defaults fuel (descs (pf_ptr f)) (it_pData it)
     else ret tt);;;
    st_cell (it_pSize it) (pf_tag f);;;
    func (it_pData it).

Definition initialize_pointer_field (pItem : Z) (f : pb_field) : D unit :=
  if (PB_LTYPE (pf_type f) =? PB_LTYPE_STRING)
     || (PB_LTYPE (pf_type f) =? PB_LTYPE_BYTES)
  then dst pItem sizeof_ptr 0
  else if PB_LTYPE (pf_type f) =? PB_LTYPE_SUBMESSAGE then
    memset0 pItem (pf_data_size f);;;
    pb_message_set_to_defaults fuel (descs (pf_ptr f)) pItem
  else ret tt.

(** [while (substream.bytes_left)] of a packed pointer array. *)
Fixpoint packed_pointer_loop (n : nat) (func : Z -> D unit) (f : pb_field)
    (it : pb_field_iter) (allocated_size : Z) (sub : pb_istream)
    : D (bool * pb_istream) :=
  match n with
  | O => out_of_fuel
  | S n =>
      if is_bytes_left sub =? 0 then ret (true, sub)
      else
        let* size := ld_cell (it_pSize it) in
        if size =? PB_SIZE_MAX then
          modify (set_stream (is_set_errmsg (Some "too many array entries"%string)));;;
          ret (false, sub)
        else
          let grow := allocated_size <? size + 1 in
          let remain := (is_bytes_left sub - 1) / pf_data_size f + 1 in
          let allocated_size :=
            if grow then
              if remain <? u64 (PB_SIZE_MAX - allocated_size)
              then u64 (allocated_size + remain) else u64 (allocated_size + 1)
            else allocated_size in
          let* (r, sub) :=
            (if grow && (pf_data_size f =? 0) then undef UbDiv
             else if grow
             then on_istream sub
                    (allocate_field (it_pData it) (pf_data_size f) allocated_size)
             else ret (Some tt, sub)) in
          match r with
          | None => ret (false, sub)
          | Some _ =>
              let* base := dld (it_pData it) sizeof_ptr in
              let pItem := base + pf_data_size f * size in
              if pItem =? 0 then ret (false, sub)
              else
                initialize_pointer_field pItem f;;;
                let* (r, sub) := on_istream sub (func pItem) in
                match r with
                | None => ret (false, sub)
                | Some _ =>
                    let* size := ld_cell (it_pSize it) in
                    st_cell (it_pSize it) (u32 (size + 1));;;
                    packed_pointer_loop n func f it allocated_size sub
                end
          end
  end.

Definition decode_pointer_field (wire_type : Z) (it : pb_field_iter) : D unit :=
  let* (f, _) := diter iter_field it in
  let type := pf_type f in
  let ltype := PB_LTYPE type in
  let func := PB_DECODERS ltype f in
  if negb (PB_HTYPE type =? PB_HTYPE_REPEATED) then
    let* old := (if ltype =? PB_LTYPE_SUBMESSAGE
                 then dld (it_pData it) sizeof_ptr else ret 0) in
    (if negb (old =? 0) then pb_release_single_field fuel it else ret tt);;;
    (if PB_HTYPE type =? PB_HTYPE_ONEOF then st_cell (it_pSize it) (pf_tag f)
     else ret tt);;;
    if (ltype =? PB_LTYPE_STRING) || (ltype =? PB_LTYPE_BYTES)
    then func (it_pData it)
    else
      allocate_field (it_pData it) (pf_data_size f) 1;;;
      let* p := dld (it_pData it) sizeof_ptr in
      initialize_pointer_field p f;;;
      let* p := dld (it_pData it) sizeof_ptr in
      func p
  else if (wire_type =? PB_WT_STRING) && (ltype <=? PB_LTYPE_LAST_PACKABLE) then
    let* size := ld_cell (it_pSize it) in
    let* sub := pb_make_string_substream in
    let* (status, sub) :=
      packed_pointer_loop (S (Z.to_nat (is_bytes_left sub))) func f it size sub in
    pb_close_string_substream sub;;;
    (if status : bool then ret tt else failed)
  else
    let* size := ld_cell (it_pSize it) in
    if size =? PB_SIZE_MAX then is_error "too many array entries"
    else
      allocate_field (it_pData it) (pf_data_size f) (u32 (size + 1));;;
      let* base := dld (it_pData it) sizeof_ptr in
      let pItem := base + pf_data_size f * size in
      st_cell (it_pSize it) (u32 (size + 1));;;
      initialize_pointer_field pItem f;;;
      func pItem.

(** [do { if (!decode(&substream, ...)) error; } while (substream.bytes_left)]. *)
Fixpoint callback_loop (n : nat) (func : D unit) (sub : pb_istream) : D pb_istream :=
  match n with
  | O => out_of_fuel
  | S n =>
      let* (r, sub) := on_istream sub func in
      match r with
      | None => is_error "callback failed"
      | Some _ =>
          if is_bytes_left sub =? 0 then ret sub else callback_loop n func sub
      end
  end.

Definition decode_callback_field (wire_type : Z) (it : pb_field_iter) : D unit :=
  let pCallback := it_pData it in
  let* (f, _) := diter iter_field it in
  let* decode := (if pCallback =? 0 then ret 0
                  else dld (callback_funcs pCallback) sizeof_ptr) in
  if decode =? 0 then pb_skip_field wire_type
  else
    let func := dec_callback decode f (callback_arg pCallback) in
    if wire_type =? PB_WT_STRING then
      let* sub := pb_make_string_substream in
      let* sub := callback_loop (S (Z.to_nat (is_bytes_left sub))) func sub in
      pb_close_string_substream sub
    else
      let* buffer := read_raw_value wire_type 10 in
      let* (r, _) :=
        on_istream (pb_istream_from_buffer buffer (zlen buffer)) func in
      match r with Some _ => ret tt | None => failed end.

Definition decode_field (wire_type : Z) (it : pb_field_iter) : D pb_field_iter :=
  let* (f, _) := diter iter_field it in
  let* it := (if PB_HTYPE (pf_type f) =? PB_HTYPE_ONEOF
              then pb_release_union_field fuel it else ret it) in
  let* (f, _) := diter iter_field it in
  let atype := PB_ATYPE (pf_type f) in
  (if atype =? PB_ATYPE_STATIC then decode_static_field wire_type it
   else if atype =? PB_ATYPE_POINTER then decode_pointer_field wire_type it
   else if atype =? PB_ATYPE_CALLBACK then decode_callback_field wire_type it
   else is_error "invalid field type");;;
  ret it.

Definition default_extension_decoder (extension tag wire_type : Z) : D unit :=
  let* fields := extension_fields extension in
  let* field := of_option UbArray (fields !! 0%nat) in
  if negb (pf_tag field =? tag) then ret tt
  else
    let* it := iter_from_extension extension in
    dst (ext_found extension) 1 1;;;
    decode_field wire_type it;;; ret tt.

(** [while (extension != NULL && pos == stream->bytes_left)]. *)
Fixpoint extension_loop (n : nat) (tag wire_type pos extension : Z) : D unit :=
  match n with
  | O => out_of_fuel
  | S n =>
      let* s := stream_of in
      if negb (extension =? 0) && (pos =? is_bytes_left s) then
        let* type := dld (ext_type extension) sizeof_ptr in
        let* decode := dld (ext_type_decode type) sizeof_ptr in
        (if negb (decode =? 0) then dec_extension decode extension tag wire_type
         else default_extension_decoder extension tag wire_type);;;
        let* next := dld (ext_next extension) sizeof_ptr in
        extension_loop n tag wire_type pos next
      else ret tt
  end.

Definition decode_extension (tag wire_type : Z) (it : pb_field_iter) : D unit :=
  let* extension := dld (it_pData it) sizeof_ptr in
  let* s := stream_of in
  extension_loop fuel tag wire_type (is_bytes_left s) extension.
End Nested.

Definition find_extension_field : M pb_field_iter bool := fun it =>
  iter_search (S (length (it_start it)))
    (fun f => PB_LTYPE (pf_type f) =? PB_LTYPE_EXTENSION) (it_pos it) it.

(** *** The locals of [pb_decode_noinit], but [fixed_count_size] *)
Record noinit_locals : Type := mk_locals {
  fields_seen : list Z;                    (* uint32_t[2] *)
  extension_range_start : Z;
  nl_iter : pb_field_iter;
  fixed_count_field : option nat           (* position in the array *)
}.

Definition set_iter (it : pb_field_iter) (l : noinit_locals) : noinit_locals :=
  mk_locals (fields_seen l) (extension_range_start l) it (fixed_count_field l).

Section Noinit.
Variable rec : list pb_field -> Z -> D unit.
Variable fuel : nat.

(** The branch for a tag that no field has: an extension, or skipped. *)
Definition decode_unknown (tag wire_type : Z) (l : noinit_locals) : D noinit_locals :=
  let skip l := pb_skip_field wire_type;;; ret l in
  if extension_range_start l <=? tag then
    let* (found, it) := diter find_extension_field (nl_iter l) in
    let* range :=
      (if found then let* (f, _) := diter iter_field it in ret (pf_tag f)
       else ret (2 ^ 32 - 1)) in
    let l := mk_locals (fields_seen l) range it (fixed_count_field l) in
    if range <=? tag then
      let* s := stream_of in
      let pos := is_bytes_left s in
      decode_extension rec fuel tag wire_type it;;;
      let* s := stream_of in
      if negb (pos =? is_bytes_left s) then ret l else skip l
    else skip l
  else skip l.

(** A repeated field without a counter in the structure counts in
    [fixed_count_size]. *)
Definition track_fixed_count (f : pb_field) (l : noinit_locals) : D noinit_locals :=
  let it := nl_iter l in
  if (PB_HTYPE (pf_type f) =? PB_HTYPE_REPEATED)
     && bool_decide (it_pSize it = CMem (it_pData it))
  then
    (if negb (bool_decide (fixed_count_field l = Some (it_pos it))) then
       let* n := gets ds_fixed in
       let* short :=
         (match fixed_count_field l with
          | Some i =>
              let* g := of_option UbArray (it_start it !! i) in
              ret (negb (n =? pf_array_size g))
          | None => ret false
          end) in
       if short : bool then is_error "wrong size for fixed count field"
       else put_fixed 0
     else ret tt);;;
    ret (mk_locals (fields_seen l) (extension_range_start l) (set_pSize CFixed it)
                   (Some (it_pos it)))
  else ret l.

(** [fields_seen[i >> 5] |= 1 << (i & 31)]. *)
Definition track_required (f : pb_field) (l : noinit_locals) : noinit_locals :=
  let i := it_req (nl_iter l) in
  if (PB_HTYPE (pf_type f) =? PB_HTYPE_REQUIRED) && (i <? PB_MAX_REQUIRED_FIELDS)
  then
    let tmp := u32 (Z.shiftl 1 (Z.land i 31)) in
    mk_locals (alter (fun w => Z.lor w tmp) (Z.to_nat (Z.shiftr i 5)) (fields_seen l))
              (extension_range_start l) (nl_iter l) (fixed_count_field l)
  else l.

Definition decode_known (wire_type : Z) (l : noinit_locals) : D noinit_locals :=
  let* (f, _) := diter iter_field (nl_iter l) in
  let* l := track_fixed_count f l in
  let l := track_required f l in
  let* it := decode_field rec fuel wire_type (nl_iter l) in
  ret (set_iter it l).

(** [while (stream->bytes_left)]: a turn reads at least the tag. *)
Fixpoint decode_loop (n : nat) (l : noinit_locals) : D noinit_locals :=
  match n with
  | O => out_of_fuel
  | S n =>
      let* s := stream_of in
      if is_bytes_left s =? 0 then ret l
      else
        let* t := pb_decode_tag in
        match t with
        | inl true => ret l
        | inl false => failed
        | inr (wire_type, tag) =>
            let* (found, it) := diter (pb_field_iter_find tag) (nl_iter l) in
            let l := set_iter it l in
            let* l := (if found then decode_known wire_type l
                       else decode_unknown tag wire_type l) in
            decode_loop n l
        end
  end.

(** [do { req_field_count = ...; last_type = ...; } while (next)]. *)
Fixpoint count_required (n : nat) (it : pb_field_iter) : D (Z * Z * pb_field_iter) :=
  match n with
  | O => out_of_fuel
  | S n =>
      let* (f, _) := diter iter_field it in
      let req_field_count := it_req it in
      let last_type := pf_type f in
      let* (more, it) := diter pb_field_iter_next it in
      if more then count_required n it else ret (req_field_count, last_type, it)
  end.

(** [for (i = 0; i < n; i++) if (fields_seen[i] != allbits)]. *)
Definition whole_words_seen (n : nat) (seen : list Z) : bool :=
  forallb (fun w => w =? 2 ^ 32 - 1) (take n seen).

Definition check_required (l : noinit_locals) : D unit :=
  let* (req, last_type, it) := count_required (length (it_start (nl_iter l))) (nl_iter l) in
  let* (f, _) := diter iter_field it in
  let req := if (PB_HTYPE last_type =? PB_HTYPE_REQUIRED) && negb (pf_tag f =? 0)
             then req + 1 else req in
  let req := if PB_MAX_REQUIRED_FIELDS <? req then PB_MAX_REQUIRED_FIELDS else req in
  if 0 <? req then
    let words := Z.to_nat (Z.shiftr req 5) in
    if negb (whole_words_seen words (fields_seen l))
    then is_error "missing required field"
    else if negb (Z.land req 31 =? 0) then
      let* w := of_option UbArray (fields_seen l !! words) in
      if negb (w =? Z.shiftr (2 ^ 32 - 1) (32 - Z.land req 31))
      then is_error "missing required field" else ret tt
    else ret tt
  else ret tt.

Definition check_fixed_count (l : noinit_locals) : D unit :=
  match fixed_count_field l with
  | Some i =>
      let* n := gets ds_fixed in
      let* g := of_option UbArray (it_start (nl_iter l) !! i) in
      if negb (n =? pf_array_size g)
      then is_error "wrong size for fixed count field" else ret tt
  | None => ret tt
  end.

Definition noinit_body (fields : list pb_field) (dest_struct : Z) : D unit :=
  let* (_, it) := diter (pb_field_iter_begin fields dest_struct) iter_uninit in
  let* s := stream_of in
  let* l := decode_loop (S (Z.to_nat (is_bytes_left s))) (mk_locals [0; 0] 0 it None) in
  check_fixed_count l;;;
  check_required l.
End Noinit.

(** The callee's [fixed_count_size] starts at 0 and dies with it. *)
Definition with_fixed_local {A} (op : D A) : D A := fun s =>
  let leave t := mk_dstate (ds_stream t) (ds_mem t) (ds_fixed s) in
  match op (mk_dstate (ds_stream s) (ds_mem s) 0) with
  | Done a t => Done a (leave t)
  | Fail t => Fail (leave t)
  | Undef u => Undef u
  | OutOfFuel => OutOfFuel
  end.

Fixpoint pb_decode_noinit (fuel : nat) (fields : list pb_field) (dest_struct : Z)
    : D unit :=
  match fuel with
  | O => out_of_fuel
  | S fuel =>
      with_fixed_local (noinit_body (pb_decode_noinit fuel) fuel fields dest_struct)
  end.

Definition pb_decode (fuel : nat) (fields : list pb_field) (dest_struct : Z) : D unit :=
  decode_with_defaults (pb_decode_noinit fuel) fuel fields dest_struct.

Definition decode_delimited (op : D unit) : D unit :=
  let* substream := pb_make_string_substream in
  let* (status, substream) := on_istream substream op in
  pb_close_string_substream substream;;;
  match status with Some _ => ret tt | None => failed end.

Definition pb_decode_delimited_noinit (fuel : nat) (fields : list pb_field)
    (dest_struct : Z) : D unit :=
  decode_delimited (pb_decode_noinit fuel fields dest_struct).

Definition pb_decode_delimited (fuel : nat) (fields : list pb_field)
    (dest_struct : Z) : D unit :=
  decode_delimited (pb_decode fuel fields dest_struct).

Definition pb_decode_nullterminated (fuel : nat) (fields : list pb_field)
    (dest_struct : Z) : D unit :=
  pb_decode fuel fields dest_struct.
End MessageDecoder.
