(* ===== verification/PbDecodeProofs.v ===== *)
(** nanopb, the wire format readers: what the writers emit is read back, and
    the limits of the varint readers. *)
From S2P Require Import Prelude.
From S2P Require Import PbBase.
From S2P Require Import PbWire.
From S2P Require Import PbCommon.
From S2P Require Import PbEncode.
From S2P Require Import PbEncodeProofs.
From S2P Require Import PbDecode.

(** ** Reading from a buffer: [op] consumes exactly [bs], gives [a] and
    changes the memory by [upd]. *)
Definition buf_state (l : list byte) (left : Z) (m : mem) (fx : Z) : dstate :=
  mk_dstate (mk_istream cb_buf_read l left None) m fx.

Definition parses {A} (op : D A) (bs : list byte) (a : A) : Prop :=
  forall rest left m fx, zlen bs <= left -> left <= zlen bs + zlen rest ->
  op (buf_state (bs ++ rest) left m fx) = Done a (buf_state rest (left - zlen bs) m fx).

Lemma parses_ret {A} (a : A) : parses (ret a) [] a.
Proof. intros rest left m fx _ _. cbn. by rewrite Z.sub_0_r. Qed.

Lemma parses_bind {A B} (op : D A) (k : A -> D B) b1 b2 a b :
  parses op b1 a -> parses (k a) b2 b -> parses (bind op k) (b1 ++ b2) b.
Proof.
  intros H1 H2 rest left m fx Hle Hge. rewrite zlen_app in *.
  pose proof (zlen_nonneg b1). pose proof (zlen_nonneg b2).
  unfold bind. rewrite <- app_assoc, H1 by (rewrite ?zlen_app; lia).
  rewrite H2 by lia. do 2 f_equal. lia.
Qed.

Lemma parses_attempt {A} (op : D A) bs a : parses op bs a -> parses (attempt op) bs (Some a).
Proof. intros H rest left m fx Hle Hge. unfold attempt. by rewrite H. Qed.

Lemma parses_readbyte b : parses pb_readbyte [b] b.
Proof.
  intros rest left m fx Hle Hge. rewrite zlen_cons, zlen_nil in *.
  unfold pb_readbyte, bind, stream_of, gets. cbn [buf_state ds_stream is_bytes_left].
  destruct (Z.eqb_spec left 0); [lia|].
  unfold attempt, is_call, buf_read, bind, stream_of, gets. cbn.
  destruct (Z.ltb_spec (zlen (b :: rest)) 1) as [Hl|_].
  { rewrite zlen_cons in Hl. pose proof (zlen_nonneg rest). lia. }
  by unfold buf_state, set_stream, is_set_left.
Qed.

Lemma parses_read_buf l : parses (pb_read_buf (zlen l)) l l.
Proof.
  intros rest left m fx Hle Hge. unfold pb_read_buf.
  destruct (Z.eqb_spec (zlen l) 0) as [H0|H0].
  { assert (l = []) as -> by (destruct l; [done|rewrite zlen_cons in H0; pose proof (zlen_nonneg l); lia]).
    apply parses_ret; cbn; lia. }
  unfold bind at 1, stream_of, gets. cbn [buf_state ds_stream is_bytes_left].
  destruct (Z.ltb_spec left (zlen l)); [lia|].
  unfold bind, attempt, is_call, buf_read, bind, stream_of, gets. cbn.
  destruct (Z.ltb_spec (zlen (l ++ rest)) (zlen l)) as [Hl|_].
  { rewrite zlen_app in Hl. pose proof (zlen_nonneg rest). lia. }
  rewrite zlen_to_nat. cbn. unfold buf_state, set_stream, is_set_left, is_set_state. cbn.
  by rewrite drop_app_length, take_app_length.
Qed.

(** ** The 64-bit varint reader *)
Lemma land_more_byte d : 0 <= d < 128 ->
  Z.land (bz (zb (d + 128))) 127 = d /\ (Z.land (bz (zb (d + 128))) 128 =? 0) = false.
Proof.
  intros Hd. rewrite bz_zb_small by lia. split.
  - rewrite land_127. symmetry. apply (Z.mod_unique _ _ 1); lia.
  - rewrite land_128 by lia. apply Z.ltb_ge. lia.
Qed.

Lemma land_last_byte d : 0 <= d < 128 ->
  Z.land (bz (zb d)) 127 = d /\ (Z.land (bz (zb d)) 128 =? 0) = true.
Proof.
  intros Hd. rewrite bz_zb_small by lia. split.
  - rewrite land_127. by apply Z.mod_small.
  - rewrite land_128 by lia. apply Z.ltb_lt. lia.
Qed.

(** One more digit above the [bitpos] bits read so far. *)
Lemma lor_digit wrap result d bitpos w :
  0 <= bitpos -> 0 <= result < 2 ^ bitpos -> 0 <= d -> d * 2 ^ bitpos < 2 ^ w ->
  (forall z, 0 <= z < 2 ^ w -> wrap z = z) ->
  Z.lor result (wrap (Z.shiftl d bitpos)) = result + d * 2 ^ bitpos.
Proof.
  intros Hb Hr Hd Hlt Hwrap.
  pose proof (Z.pow_pos_nonneg 2 bitpos ltac:(lia) Hb).
  rewrite Hwrap by (rewrite Z.shiftl_mul_pow2 by lia; nia).
  by apply lor_low_shifted.
Qed.

Lemma varint_loop64_spec n fuel v bitpos result :
  0 <= v < 128 ^ Z.of_nat n -> (0 < n)%nat -> (n <= fuel)%nat ->
  0 <= bitpos < 64 -> 0 <= result < 2 ^ bitpos -> v * 2 ^ bitpos < 2 ^ 64 ->
  parses (varint_loop64 fuel bitpos result) (varint_digits n v) (result + v * 2 ^ bitpos).
Proof.
  revert fuel v bitpos result. induction n as [|n IH]; intros fuel v bitpos result Hv Hn Hf Hb Hr Hlt;
    [lia|]. destruct fuel as [|fuel]; [lia|].
  rewrite Nat2Z.inj_succ, Z.pow_succ_r in Hv by lia.
  pose proof (Z.pow_pos_nonneg 2 bitpos ltac:(lia) ltac:(lia)) as Hpow.
  cbn [varint_loop64]. destruct (Z.leb_spec 64 bitpos); [lia|].
  assert (u8 (bitpos + 7) = bitpos + 7) as Hu8 by (apply Z.mod_small; lia).
  destruct (Z.lt_ge_cases v 128).
  - rewrite varint_digits_small by lia.
    rewrite <- (app_nil_r [zb v]). eapply parses_bind; [apply parses_readbyte|].
    destruct (land_last_byte v) as [-> ->]; [lia|].
    rewrite (lor_digit u64 _ _ _ 64) by (auto using u64_small; lia). apply parses_ret.
  - rewrite varint_digits_big by lia.
    pose proof (Z.mod_pos_bound v 128 ltac:(lia)).
    assert (Hdiv : v = 128 * (v / 128) + v mod 128) by (apply Z.div_mod; lia).
    assert (1 <= v / 128 < 128 ^ Z.of_nat n) as Hv'.
    { split; [apply Z.div_le_lower_bound; lia|]. apply Z.div_lt_upper_bound; lia. }
    assert (2 ^ (bitpos + 7) = 2 ^ bitpos * 128) as Hp7 by (rewrite Z.pow_add_r by lia; done).
    assert (bitpos + 7 < 64).
    { apply (Z.pow_lt_mono_r_iff 2); [lia|lia|]. nia. }
    change (zb (v mod 128 + 128) :: varint_digits n (v / 128))
      with ([zb (v mod 128 + 128)] ++ varint_digits n (v / 128)).
    eapply parses_bind; [apply parses_readbyte|].
    destruct (land_more_byte (v mod 128)) as [-> ->]; [lia|].
    rewrite (lor_digit u64 _ _ _ 64) by (auto using u64_small; nia). rewrite Hu8.
    replace (result + v * 2 ^ bitpos)
      with (result + v mod 128 * 2 ^ bitpos + v / 128 * 2 ^ (bitpos + 7)) by (rewrite Hp7; nia).
    apply IH; try nia; try lia.
    destruct n; [|lia]. change (128 ^ Z.of_nat 0) with 1 in Hv'. lia.
Qed.

Lemma loop_fuel_eq l left m fx :
  loop_fuel (buf_state l left m fx) = Done (S (Z.to_nat left)) (buf_state l left m fx).
Proof. done. Qed.

Lemma parses_varint v : 0 <= v < 2 ^ 64 -> parses pb_decode_varint (varint_bytes v) v.
Proof.
  intros Hv rest left m fx Hle Hge. unfold pb_decode_varint, bind. rewrite loop_fuel_eq.
  destruct (varint_digits_enough 10 v) as (Hk & Hvk & Hd);
    [change (128 ^ Z.of_nat 10) with (2 ^ 70); lia|lia|].
  unfold varint_bytes in *. unfold zlen in Hle.
  pose proof (varint_loop64_spec _ (S (Z.to_nat left)) v 0 0 Hvk Hk ltac:(lia) ltac:(lia)
    ltac:(lia) ltac:(lia)) as Hp.
  rewrite Hd in Hp. replace (0 + v * 2 ^ 0) with v in Hp by lia.
  apply Hp; [done|]. by unfold zlen in *.
Qed.

(** ** The 32-bit varint reader *)
Lemma varint32_loop_spec n fuel v bitpos result :
  0 <= v < 128 ^ Z.of_nat n -> (0 < n)%nat -> (n <= fuel)%nat ->
  0 <= bitpos < 32 -> 0 <= result < 2 ^ bitpos -> v * 2 ^ bitpos < 2 ^ 32 ->
  exists last byte,
    parses (varint32_loop fuel bitpos result) (varint_digits n v)
      (last, byte, result + v * 2 ^ bitpos) /\
    (last = 35 -> Z.land byte 112 = 0).
Proof.
  revert fuel v bitpos result. induction n as [|n IH]; intros fuel v bitpos result Hv Hn Hf Hb Hr Hlt;
    [lia|]. destruct fuel as [|fuel]; [lia|].
  rewrite Nat2Z.inj_succ, Z.pow_succ_r in Hv by lia.
  pose proof (Z.pow_pos_nonneg 2 bitpos ltac:(lia) ltac:(lia)) as Hpow.
  cbn [varint32_loop]. destruct (Z.leb_spec 32 bitpos); [lia|].
  assert (u8 (bitpos + 7) = bitpos + 7) as Hu8 by (apply Z.mod_small; lia).
  destruct (Z.lt_ge_cases v 128).
  - exists (bitpos + 7), v. split.
    + rewrite varint_digits_small by lia.
      rewrite <- (app_nil_r [zb v]). eapply parses_bind; [apply parses_readbyte|].
      change (parses ?x [] ?y) with (parses x ([] ++ []) y).
      eapply parses_bind; [apply parses_ret|].
      destruct (land_last_byte v) as [-> ->]; [lia|].
      rewrite (lor_digit u32 _ _ _ 32), Hu8 by (auto using u32_small; lia).
      rewrite bz_zb_small by lia. apply parses_ret.
    + intros Heq. assert (bitpos = 28) as -> by lia.
      apply (land_low_shifted 4 v 7); lia.
  - pose proof (Z.mod_pos_bound v 128 ltac:(lia)).
    assert (Hdiv : v = 128 * (v / 128) + v mod 128) by (apply Z.div_mod; lia).
    assert (1 <= v / 128 < 128 ^ Z.of_nat n) as Hv'.
    { split; [apply Z.div_le_lower_bound; lia|]. apply Z.div_lt_upper_bound; lia. }
    assert (2 ^ (bitpos + 7) = 2 ^ bitpos * 128) as Hp7 by (rewrite Z.pow_add_r by lia; done).
    assert (bitpos + 7 < 32).
    { apply (Z.pow_lt_mono_r_iff 2); [lia|lia|]. nia. }
    assert (0 < n)%nat by (destruct n; [change (128 ^ Z.of_nat 0) with 1 in Hv'; lia|lia]).
    destruct (IH fuel (v / 128) (bitpos + 7) (result + v mod 128 * 2 ^ bitpos))
      as (last & byte & Hp & Hl); try nia; try lia.
    exists last, byte. split; [|done].
    rewrite varint_digits_big by lia.
    change (zb (v mod 128 + 128) :: varint_digits n (v / 128))
      with ([zb (v mod 128 + 128)] ++ [] ++ varint_digits n (v / 128)).
    eapply parses_bind; [apply parses_readbyte|].
    eapply parses_bind; [apply parses_ret|].
    destruct (land_more_byte (v mod 128)) as [-> ->]; [lia|].
    rewrite (lor_digit u32 _ _ _ 32), Hu8 by (auto using u32_small; nia).
    replace (result + v * 2 ^ bitpos)
      with (result + v mod 128 * 2 ^ bitpos + v / 128 * 2 ^ (bitpos + 7)) by (rewrite Hp7; nia).
    apply Hp.
Qed.

Lemma parses_varint32_eof v :
  0 <= v < 2 ^ 32 -> parses pb_decode_varint32_eof (varint_bytes v) (inr v).
Proof.
  intros Hv. unfold pb_decode_varint32_eof, varint_bytes.
  destruct (Z.lt_ge_cases v 128).
  - rewrite varint_digits_small by lia. rewrite <- (app_nil_r [zb v]).
    eapply parses_bind; [apply parses_attempt, parses_readbyte|].
    destruct (land_last_byte v) as [_ ->]; [lia|].
    rewrite bz_zb_small by lia. apply parses_ret.
  - pose proof (Z.mod_pos_bound v 128 ltac:(lia)).
    rewrite varint_digits_big by lia.
    assert (1 <= v / 128 < 2 ^ 25) as Hv'.
    { split; [apply Z.div_le_lower_bound; lia|]. apply Z.div_lt_upper_bound; lia. }
    destruct (varint_digits_enough 9 (v / 128)) as (Hk & Hvk & Hd);
      [change (128 ^ Z.of_nat 9) with (2 ^ 63); lia|lia|].
    change (zb (v mod 128 + 128) :: varint_digits 9 (v / 128))
      with ([zb (v mod 128 + 128)] ++ varint_digits 9 (v / 128)).
    eapply parses_bind; [apply parses_attempt, parses_readbyte|].
    destruct (land_more_byte (v mod 128)) as [-> ->]; [lia|].
    intros rest left m fx Hle Hge. unfold bind at 1. rewrite loop_fuel_eq.
    destruct (varint32_loop_spec _ (S (Z.to_nat left)) (v / 128) 7 (v mod 128) Hvk Hk)
      as (last & byte & Hp & Hl).
    { unfold zlen in Hle. lia. }
    { lia. } { lia. } { lia. }
    rewrite Hd in Hp. unfold bind, attempt. rewrite Hp by done.
    destruct (Z.eqb_spec last 35) as [Hlast|].
    + rewrite (Hl Hlast). cbn [andb negb Z.eqb]. unfold ret. repeat f_equal. zdm.
    + cbn [andb]. unfold ret. repeat f_equal. zdm.
Qed.

Lemma parses_varint32 v : 0 <= v < 2 ^ 32 -> parses pb_decode_varint32 (varint_bytes v) v.
Proof.
  intros Hv. unfold pb_decode_varint32. rewrite <- (app_nil_r (varint_bytes v)).
  eapply parses_bind; [by apply parses_varint32_eof|apply parses_ret].
Qed.

Lemma parses_tag wiretype number :
  0 <= wiretype < 8 -> 0 <= number < 2 ^ 29 -> 8 * number + wiretype <> 0 ->
  parses pb_decode_tag (tag_bytes wiretype number) (inr (wiretype, number)).
Proof.
  intros Hw Hn Hnz. unfold pb_decode_tag, tag_bytes.
  rewrite <- (app_nil_r (varint_bytes _)).
  eapply parses_bind; [apply parses_varint32_eof; lia|]. cbv beta iota.
  destruct (Z.eqb_spec (8 * number + wiretype) 0); [lia|].
  replace (Z.land (8 * number + wiretype) 7) with wiretype.
  2:{ rewrite (land_ones_mod 3) by done. change (2 ^ 3) with 8. zdm. }
  replace (Z.shiftr (8 * number + wiretype) 3) with number.
  2:{ rewrite Z.shiftr_div_pow2 by lia. change (2 ^ 3) with 8. zdm. }
  apply parses_ret.
Qed.

Lemma parses_svarint v :
  - 2 ^ 63 <= v < 2 ^ 63 -> parses pb_decode_svarint (varint_bytes (zigzag v)) v.
Proof.
  intros Hv. unfold pb_decode_svarint. rewrite <- (app_nil_r (varint_bytes _)).
  assert (0 <= zigzag v < 2 ^ 64) as Hz by (unfold zigzag; destruct (Z.ltb_spec v 0); lia).
  eapply parses_bind; [by apply parses_varint|].
  assert (s64 (if Z.odd (zigzag v) then u64 (Z.lnot (Z.shiftr (zigzag v) 1))
               else Z.shiftr (zigzag v) 1) = v) as ->; [|apply parses_ret].
  pose proof (unzigzag_zigzag v) as Hu. unfold unzigzag in Hu.
  rewrite Z.shiftr_div_pow2 by lia. change (2 ^ 1) with 2.
  destruct (Z.odd (zigzag v)).
  - unfold s64, u64, Z.lnot. rewrite swrap_of_mod by lia.
    rewrite swrap_small by lia. lia.
  - rewrite Hu. apply swrap_small; lia.
Qed.

(** ** Skipping *)
Lemma parses_ext {A} (op op' : D A) bs a : (forall s, op s = op' s) -> parses op bs a -> parses op' bs a.
Proof. intros Heq H rest left m fx Hle Hge. rewrite <- Heq. by apply H. Qed.

Lemma parses_read1 {A} b (k : byte -> D A) bs a :
  parses (k b) bs a ->
  parses (let* l := pb_read_buf 1 in let* b := of_option UbArray (head l) in k b) (b :: bs) a.
Proof.
  intros H. change (b :: bs) with ([b] ++ bs).
  eapply parses_bind; [apply (parses_read_buf [b])|]. cbn [head of_option].
  change bs with ([] ++ bs). eapply parses_bind; [apply parses_ret|done].
Qed.

Lemma skip_varint_loop_spec n fuel v :
  0 <= v < 128 ^ Z.of_nat n -> (0 < n)%nat -> (n <= fuel)%nat ->
  parses (skip_varint_loop fuel) (varint_digits n v) tt.
Proof.
  revert fuel v. induction n as [|n IH]; intros fuel v Hv Hn Hf; [lia|].
  destruct fuel as [|fuel]; [lia|]. rewrite Nat2Z.inj_succ, Z.pow_succ_r in Hv by lia.
  cbn [skip_varint_loop]. destruct (Z.lt_ge_cases v 128).
  - rewrite varint_digits_small by lia. apply parses_read1.
    destruct (land_last_byte v) as [_ ->]; [lia|]. apply parses_ret.
  - rewrite varint_digits_big by lia.
    pose proof (Z.mod_pos_bound v 128 ltac:(lia)).
    assert (1 <= v / 128 < 128 ^ Z.of_nat n) as Hv'.
    { split; [apply Z.div_le_lower_bound; lia|]. apply Z.div_lt_upper_bound; lia. }
    apply parses_read1. destruct (land_more_byte (v mod 128)) as [_ ->]; [lia|].
    apply IH; try lia. destruct n; [|lia]. change (128 ^ Z.of_nat 0) with 1 in Hv'. lia.
Qed.

Lemma parses_skip_varint v : 0 <= v < 2 ^ 64 -> parses pb_skip_varint (varint_bytes v) tt.
Proof.
  intros Hv rest left m fx Hle Hge. unfold pb_skip_varint, bind. rewrite loop_fuel_eq.
  destruct (varint_digits_enough 10 v) as (Hk & Hvk & Hd);
    [change (128 ^ Z.of_nat 10) with (2 ^ 70); lia|lia|].
  unfold varint_bytes in *. unfold zlen in Hle.
  pose proof (skip_varint_loop_spec _ (S (Z.to_nat left)) v Hvk Hk ltac:(lia)) as Hp.
  rewrite Hd in Hp. apply Hp; [done|]. by unfold zlen in *.
Qed.

Lemma parses_read_null l : parses (pb_read_null (zlen l)) l tt.
Proof.
  intros rest left m fx Hle Hge. unfold pb_read_null.
  destruct (Z.eqb_spec (zlen l) 0) as [H0|H0].
  { assert (l = []) as -> by (destruct l; [done|rewrite zlen_cons in H0; pose proof (zlen_nonneg l); lia]).
    apply parses_ret; cbn; lia. }
  unfold bind at 1, stream_of, gets. cbn [buf_state ds_stream is_callback].
  unfold bind. by rewrite parses_read_buf.
Qed.

Lemma parses_skip_string l :
  zlen l < 2 ^ 32 -> parses pb_skip_string (varint_bytes (zlen l) ++ l) tt.
Proof.
  intros Hl. eapply parses_bind; [apply parses_varint32|apply parses_read_null].
  pose proof (zlen_nonneg l). lia.
Qed.

(** ** Substreams *)
Lemma make_substream_spec l rest left m fx :
  zlen l < 2 ^ 32 -> zlen (varint_bytes (zlen l) ++ l) <= left ->
  left <= zlen (varint_bytes (zlen l) ++ l) + zlen rest ->
  pb_make_string_substream (buf_state ((varint_bytes (zlen l) ++ l) ++ rest) left m fx) =
  Done (mk_istream cb_buf_read (l ++ rest) (zlen l) None)
    (buf_state (l ++ rest) (left - zlen (varint_bytes (zlen l) ++ l)) m fx).
Proof.
  intros Hl Hle Hge. pose proof (zlen_nonneg l). rewrite zlen_app in *.
  unfold pb_make_string_substream, bind. rewrite <- app_assoc.
  rewrite parses_varint32 by (rewrite ?zlen_app; lia).
  unfold stream_of, gets. cbn [buf_state ds_stream is_bytes_left].
  destruct (Z.ltb_spec (left - zlen (varint_bytes (zlen l))) (zlen l)); [lia|].
  unfold put_stream, modify, ret, set_stream, is_set_left, buf_state. cbn.
  do 3 f_equal. lia.
Qed.

(** Reading [l] through a substream, whole: the parent comes out right after it. *)
Lemma parses_substream {A} (op : D A) l (a : A) (k : option A -> D A) :
  zlen l < 2 ^ 32 -> parses op l a -> k (Some a) = ret a ->
  parses (let* sub := pb_make_string_substream in
          let* (r, sub) := on_istream sub op in
          pb_close_string_substream sub;;; k r) (varint_bytes (zlen l) ++ l) a.
Proof.
  intros Hl Hop Hk rest left m fx Hle Hge. unfold bind at 1.
  rewrite make_substream_spec by done. unfold bind, on_istream.
  pose proof (zlen_nonneg rest).
  assert (op (set_stream (fun _ => mk_istream cb_buf_read (l ++ rest) (zlen l) None)
            (buf_state (l ++ rest) (left - zlen (varint_bytes (zlen l) ++ l)) m fx))
          = Done a (buf_state rest 0 m fx)) as Hrun.
  { pose proof (Hop rest (zlen l) m fx ltac:(lia) ltac:(lia)) as Hr.
    by rewrite Z.sub_diag in Hr. }
  rewrite Hrun. unfold pb_close_string_substream, bind. cbn. rewrite Hk. unfold ret. done.
Qed.

(** ** Fixed-width values *)
Lemma fixed32_value v :
  match map bz (le_bytes 4 v) with
  | [b0; b1; b2; b3] =>
      Z.lor (Z.lor (Z.lor (Z.shiftl b0 0) (Z.shiftl b1 8)) (Z.shiftl b2 16)) (Z.shiftl b3 24)
      = v mod 2 ^ 32
  | _ => False
  end.
Proof.
  pose proof (le_val_bytes 4 v) as Hv. change (256 ^ Z.of_nat 4) with (2 ^ 32) in Hv.
  destruct (le_bytes 4 v) as [|b0 [|b1 [|b2 [|b3 [|]]]]] eqn:E;
    try (pose proof (length_le_bytes 4 v) as Hn; rewrite E in Hn; discriminate Hn).
  cbn [map le_val] in *. rewrite <- Hv.
  pose proof (bz_range b0). pose proof (bz_range b1). pose proof (bz_range b2).
  pose proof (bz_range b3). rewrite Z.shiftl_0_r.
  rewrite (lor_low_shifted 8), (lor_low_shifted 16), (lor_low_shifted 24) by lia. lia.
Qed.

Lemma fixed64_value v :
  match map bz (le_bytes 8 v) with
  | [b0; b1; b2; b3; b4; b5; b6; b7] =>
      Z.lor (Z.lor (Z.lor (Z.lor (Z.lor (Z.lor (Z.lor (Z.shiftl b0 0) (Z.shiftl b1 8))
          (Z.shiftl b2 16)) (Z.shiftl b3 24)) (Z.shiftl b4 32)) (Z.shiftl b5 40))
          (Z.shiftl b6 48)) (Z.shiftl b7 56)
      = v mod 2 ^ 64
  | _ => False
  end.
Proof.
  pose proof (le_val_bytes 8 v) as Hv. change (256 ^ Z.of_nat 8) with (2 ^ 64) in Hv.
  destruct (le_bytes 8 v) as [|b0 [|b1 [|b2 [|b3 [|b4 [|b5 [|b6 [|b7 [|]]]]]]]]] eqn:E;
    try (pose proof (length_le_bytes 8 v) as Hn; rewrite E in Hn; discriminate Hn).
  cbn [map le_val] in *. rewrite <- Hv.
  pose proof (bz_range b0). pose proof (bz_range b1). pose proof (bz_range b2).
  pose proof (bz_range b3). pose proof (bz_range b4). pose proof (bz_range b5).
  pose proof (bz_range b6). pose proof (bz_range b7). rewrite Z.shiftl_0_r.
  rewrite (lor_low_shifted 8), (lor_low_shifted 16), (lor_low_shifted 24), (lor_low_shifted 32),
    (lor_low_shifted 40), (lor_low_shifted 48), (lor_low_shifted 56) by lia. lia.
Qed.
