(* ===== verification/PbDecodeSafety.v ===== *)
(** nanopb, the decoder on memory buffers: no read outside of the input
    buffer, whatever the bytes are, and no endless loop in the readers. *)
From S2P Require Import Prelude.
From S2P Require Import PbBase.
From S2P Require Import PbCommon.
From S2P Require Import PbEncode.
From S2P Require Import PbDecode.

(** ** A program logic for outcomes: [Fu] says whether running out of fuel is
    allowed, and undefined behaviour other than [UbRead]. *)
Definition triple {A} (Fu : Prop) (P : dstate -> Prop) (op : D A)
    (Q : A -> dstate -> Prop) (F : dstate -> Prop) : Prop :=
  forall s, P s ->
  match op s with
  | Done a t => Q a t
  | Fail t => F t
  | Undef u => Fu /\ u <> UbRead
  | OutOfFuel => Fu
  end.

Section Triple.
Context {Fu : Prop}.

Lemma triple_ret {A} (a : A) (P : dstate -> Prop) Q F :
  (forall s, P s -> Q a s) -> triple Fu P (ret a) Q F.
Proof. intros H s Hs. by apply H. Qed.

Lemma triple_failed {A} (P : dstate -> Prop) (Q : A -> dstate -> Prop) (F : dstate -> Prop) :
  (forall s, P s -> F s) -> triple Fu P failed Q F.
Proof. intros H s Hs. by apply H. Qed.

Lemma triple_undef {A} u P (Q : A -> dstate -> Prop) F :
  Fu -> u <> UbRead -> triple Fu P (undef u) Q F.
Proof. by intros HF H s _. Qed.

Lemma triple_option {A} u (o : option A) (P : dstate -> Prop) F :
  Fu -> u <> UbRead -> triple Fu P (of_option u o) (fun _ => P) F.
Proof. intros HF H. destruct o; [by apply triple_ret|by apply triple_undef]. Qed.

Lemma triple_bind {A B} (op : D A) (k : A -> D B) P Q Q' F :
  triple Fu P op Q F -> (forall a, triple Fu (Q a) (k a) Q' F) ->
  triple Fu P (bind op k) Q' F.
Proof.
  intros H1 H2 s Hs. specialize (H1 s Hs). unfold bind.
  destruct (op s) as [a t|t|u|]; auto. by apply H2.
Qed.

Lemma triple_attempt {A} (op : D A) P (Q : A -> dstate -> Prop) F F' :
  triple Fu P op Q F ->
  triple Fu P (attempt op) (fun o t => match o with Some a => Q a t | None => F t end) F'.
Proof.
  intros H s Hs. specialize (H s Hs). unfold attempt. by destruct (op s).
Qed.

Lemma triple_conseq {A} (op : D A) (P P' : dstate -> Prop) (Q Q' : A -> dstate -> Prop)
    (F F' : dstate -> Prop) :
  triple Fu P op Q F -> (forall s, P' s -> P s) -> (forall a s, Q a s -> Q' a s) ->
  (forall s, F s -> F' s) -> triple Fu P' op Q' F'.
Proof.
  intros H HP HQ HF s Hs. specialize (H s (HP s Hs)). destruct (op s); auto.
Qed.

Lemma triple_gets {A} (f : dstate -> A) (P : dstate -> Prop) (Q : A -> dstate -> Prop) F :
  (forall s, P s -> Q (f s) s) -> triple Fu P (gets f) Q F.
Proof. intros H s Hs. by apply H. Qed.

Lemma triple_modify f (P : dstate -> Prop) (Q : unit -> dstate -> Prop) F :
  (forall s, P s -> Q tt (f s)) -> triple Fu P (modify f) Q F.
Proof. intros H s Hs. by apply H. Qed.
End Triple.

Lemma triple_fuel {A} (P : dstate -> Prop) (Q : A -> dstate -> Prop) F :
  triple True P out_of_fuel Q F.
Proof. by intros s _. Qed.

Lemma triple_weaken {A} (Fu : Prop) (op : D A) P Q F : triple False P op Q F -> triple Fu P op Q F.
Proof. intros H s Hs. specialize (H s Hs). destruct (op s); tauto. Qed.

(** ** The stream moves forward, never past the bytes that were consumed *)
Record stream_ok (s : pb_istream) : Prop := {
  so_callback : is_callback s = cb_buf_read;
  so_left : 0 <= is_bytes_left s <= zlen (is_state s)
}.

Record stream_adv (s t : pb_istream) (k : nat) : Prop := {
  sa_callback : is_callback t = cb_buf_read;
  sa_state : is_state t = drop k (is_state s);
  sa_behind : Z.of_nat k <= is_bytes_left s - is_bytes_left t;
  sa_left : 0 <= is_bytes_left t
}.

Definition reach (s0 : pb_istream) (s : dstate) : Prop :=
  exists k, stream_adv s0 (ds_stream s) k.

Lemma adv_refl s : stream_ok s -> stream_adv s s 0.
Proof. intros [? []]. constructor; auto. lia. Qed.

Lemma adv_trans s t u j k : stream_adv s t j -> stream_adv t u k -> stream_adv s u (j + k).
Proof.
  intros [? Hs ??] [? Ht ??]. constructor; auto; [|lia]. by rewrite Ht, Hs, drop_drop.
Qed.

Lemma adv_ok s t k : stream_ok s -> stream_adv s t k -> stream_ok t.
Proof.
  intros [_ [Hl Hz]] [Hc Hs Hb Ht]. constructor; [done|]. rewrite Hs.
  rewrite zlen_drop by (unfold zlen in *; lia). lia.
Qed.

Lemma reach_refl s : stream_ok (ds_stream s) -> reach (ds_stream s) s.
Proof. intros H. exists 0%nat. by apply adv_refl. Qed.

Lemma reach_ok s0 s : stream_ok s0 -> reach s0 s -> stream_ok (ds_stream s).
Proof. intros H [k Hk]. by eapply adv_ok. Qed.

Lemma reach_trans s0 s t : reach s0 s -> reach (ds_stream s) t -> reach s0 t.
Proof. intros [j Hj] [k Hk]. exists (j + k)%nat. by eapply adv_trans. Qed.

Lemma reach_stream s0 s t : ds_stream t = ds_stream s -> reach s0 s -> reach s0 t.
Proof. unfold reach. by intros ->. Qed.

(** An operation that is safe from every good stream. *)
Definition safe {A} (Fu : Prop) (op : D A) : Prop :=
  forall s0, stream_ok s0 -> triple Fu (reach s0) op (fun _ => reach s0) (reach s0).

(** It is enough to look at one step. *)
Lemma safe_step {A} Fu (op : D A) :
  (forall s, stream_ok (ds_stream s) ->
     match op s with
     | Done _ t | Fail t => reach (ds_stream s) t
     | Undef u => Fu /\ u <> UbRead
     | OutOfFuel => Fu
     end) -> safe Fu op.
Proof.
  intros H s0 Hok s Hs. pose proof (reach_ok _ _ Hok Hs) as Hs'. specialize (H s Hs').
  destruct (op s); eauto using reach_trans.
Qed.

Lemma safe_weaken {A} Fu (op : D A) : safe False op -> safe Fu op.
Proof. intros H s0 Hs0. by apply triple_weaken, H. Qed.

Lemma safe_ret {A} Fu (a : A) : safe Fu (ret a).
Proof. intros s0 _. by apply triple_ret. Qed.
Lemma safe_failed {A} Fu : safe Fu (failed : D A).
Proof. intros s0 _. by apply triple_failed. Qed.
Lemma safe_undef {A} u : u <> UbRead -> safe True (undef u : D A).
Proof. intros H s0 _. by apply triple_undef. Qed.
Lemma safe_option {A} u (o : option A) : u <> UbRead -> safe True (of_option u o).
Proof. intros H s0 _. by apply triple_option. Qed.
Lemma safe_fuel {A} : safe True (out_of_fuel : D A).
Proof. intros s0 _. apply triple_fuel. Qed.
Lemma safe_bind {A B} Fu (op : D A) (k : A -> D B) :
  safe Fu op -> (forall a, safe Fu (k a)) -> safe Fu (bind op k).
Proof. intros H1 H2 s0 Hs0. eapply triple_bind; [by apply H1|]. intros a. by apply H2. Qed.
Lemma safe_attempt {A} Fu (op : D A) : safe Fu op -> safe Fu (attempt op).
Proof.
  intros H s0 Hs0. eapply triple_conseq; [eapply triple_attempt, H, Hs0|done| |done].
  by intros [|] s.
Qed.
Lemma safe_gets {A} Fu (f : dstate -> A) : safe Fu (gets f).
Proof. intros s0 _. by apply triple_gets. Qed.

(** Operations that leave the stream's position alone. *)
Lemma safe_modify Fu f :
  (forall s, is_callback (ds_stream (f s)) = is_callback (ds_stream s) /\
             is_state (ds_stream (f s)) = is_state (ds_stream s) /\
             is_bytes_left (ds_stream (f s)) = is_bytes_left (ds_stream s)) ->
  safe Fu (modify f).
Proof.
  intros H. apply safe_step. intros s [Hc [Hl Hz]]. cbn.
  destruct (H s) as (Hc' & Hs' & Hl'). exists 0%nat.
  constructor; rewrite ?Hc', ?Hs', ?Hl'; auto; lia.
Qed.

Lemma safe_error {A} Fu msg : safe Fu (is_error msg : D A).
Proof.
  unfold is_error. apply safe_bind; [by apply safe_modify|]. intros _. apply safe_failed.
Qed.

Create HintDb safe.
#[export] Hint Resolve safe_ret safe_failed safe_gets safe_error safe_attempt : safe.
#[export] Hint Extern 1 (safe True (undef _)) => by apply safe_undef : safe.
#[export] Hint Extern 1 (safe True (of_option _ _)) => by apply safe_option : safe.
#[export] Hint Extern 1 (safe _ (modify _)) => by apply safe_modify : safe.
#[export] Hint Extern 1 (safe True out_of_fuel) => apply safe_fuel : safe.

(** Walk through a program: binds, tests and matches. *)
Ltac safe_auto :=
  repeat first
    [ progress auto 2 with safe nocore
    | match goal with
      | |- forall _, safe _ _ => intros ?
      | |- safe _ (bind _ _) => apply safe_bind; [|intros ?]
      | |- safe _ (if ?c then _ else _) => destruct c
      | |- safe _ (match ?x with _ => _ end) => destruct x
      | |- safe _ (let _ := _ in _) => cbv zeta
      end ].

(** With a fact about the result. *)
Definition safev {A} (Fu : Prop) (phi : A -> Prop) (op : D A) : Prop :=
  forall s0, stream_ok s0 ->
  triple Fu (reach s0) op (fun a s => reach s0 s /\ phi a) (reach s0).

Lemma safe_bindv {A B} Fu phi (op : D A) (k : A -> D B) :
  safev Fu phi op -> (forall a, phi a -> safe Fu (k a)) -> safe Fu (bind op k).
Proof.
  intros H1 H2 s0 Hs0. eapply triple_bind; [by apply H1|].
  intros a s [Hs Ha]. by apply H2.
Qed.

Lemma safev_bind {A B} Fu phi psi (op : D A) (k : A -> D B) :
  safev Fu phi op -> (forall a, phi a -> safev Fu psi (k a)) -> safev Fu psi (bind op k).
Proof.
  intros H1 H2 s0 Hs0. eapply triple_bind; [by apply H1|].
  intros a s [Hs Ha]. by apply H2.
Qed.

Lemma safev_safe {A} Fu phi (op : D A) : safev Fu phi op -> safe Fu op.
Proof.
  intros H s0 Hs0. eapply triple_conseq; [by apply H|done| |done]. by intros a s [? _].
Qed.

Lemma safe_safev {A} Fu (op : D A) : safe Fu op -> safev Fu (fun _ => True) op.
Proof.
  intros H s0 Hs0. eapply triple_conseq; [by apply H|done| |done]. done.
Qed.

Lemma safev_ret {A} Fu (phi : A -> Prop) a : phi a -> safev Fu phi (ret a).
Proof. intros H s0 _. by apply triple_ret. Qed.
Lemma safev_failed {A} Fu (phi : A -> Prop) : safev Fu phi failed.
Proof. intros s0 _. by apply triple_failed. Qed.
Lemma safev_error {A} Fu (phi : A -> Prop) msg : safev Fu phi (is_error msg).
Proof.
  unfold is_error. eapply (safev_bind _ (fun _ => True)); [|intros; apply safev_failed].
  apply safe_safev. by apply safe_modify.
Qed.

Lemma safev_bind_error {A B} Fu (phi : B -> Prop) msg (k : A -> D B) :
  safev Fu phi (bind (is_error msg) k).
Proof.
  eapply (safev_bind _ (fun _ => False)); [apply safev_error|done].
Qed.

(** ** The primitive reads *)
Lemma safe_read_buf Fu count : 0 <= count -> safe Fu (pb_read_buf count).
Proof.
  intros Hc. apply safe_step. intros s [Hcb Hl].
  unfold pb_read_buf. destruct (Z.eqb_spec count 0) as [_|Hnz].
  { by apply reach_refl. }
  unfold bind at 1, stream_of, gets.
  destruct (Z.ltb_spec (is_bytes_left (ds_stream s)) count) as [_|Hle].
  { eexists 0%nat. constructor; cbn; auto; lia. }
  unfold bind, attempt, is_call, buf_read, bind, stream_of, gets, put_stream, modify, ret.
  rewrite Hcb. destruct (Z.ltb_spec (zlen (is_state (ds_stream s))) count); [lia|].
  exists (Z.to_nat count). destruct s as [[cb st lf e] m fx]; cbn in *.
  constructor; cbn; auto; lia.
Qed.

Lemma safe_read_byte_list Fu : safe Fu (pb_read_buf 1).
Proof. by apply safe_read_buf. Qed.

(** A reader whose every turn consumes a byte. *)
Definition eats {A} (op : D A) : Prop :=
  forall s, stream_ok (ds_stream s) ->
  match op s with
  | Done _ t => reach (ds_stream s) t /\
                is_bytes_left (ds_stream t) = is_bytes_left (ds_stream s) - 1
  | Fail t => reach (ds_stream s) t
  | Undef _ | OutOfFuel => False
  end.

Lemma eats_call1 s :
  stream_ok (ds_stream s) -> 0 < is_bytes_left (ds_stream s) ->
  exists b rest, is_state (ds_stream s) = b :: rest /\
    is_call 1 s = Done [b] (set_stream (is_set_state rest) s).
Proof.
  intros [Hcb Hl] Hpos. unfold is_call, buf_read, bind, stream_of, gets, put_stream, modify, ret.
  rewrite Hcb. destruct (is_state (ds_stream s)) as [|b rest] eqn:Hst.
  - change (zlen []) with 0 in Hl. lia.
  - exists b, rest. split; [done|]. destruct (Z.ltb_spec (zlen (b :: rest)) 1) as [H1|_].
    { rewrite zlen_cons in H1. pose proof (zlen_nonneg rest). lia. }
    change (Z.to_nat 1) with 1%nat. cbn [take drop]. by rewrite take_0, drop_0.
Qed.

Lemma reach_eat s b rest :
  stream_ok (ds_stream s) -> is_state (ds_stream s) = b :: rest ->
  0 < is_bytes_left (ds_stream s) ->
  reach (ds_stream s)
    (set_stream (fun s => is_set_left (is_bytes_left s - 1) s)
       (set_stream (is_set_state rest) s)).
Proof.
  intros [Hcb Hl] Hst Hpos. exists 1%nat. destruct s as [[cb st lf e] m fx]; cbn in *.
  subst. constructor; cbn; auto; lia.
Qed.

Lemma eats_readbyte : eats pb_readbyte.
Proof.
  intros s Hok. unfold pb_readbyte, bind at 1, stream_of, gets.
  destruct (Z.eqb_spec (is_bytes_left (ds_stream s)) 0).
  { exists 0%nat. destruct Hok. constructor; cbn; auto; lia. }
  destruct (eats_call1 s Hok) as (b & rest & Hst & Hcall); [destruct Hok; lia|].
  unfold bind, attempt. rewrite Hcall. cbn. split; [|done].
  apply (reach_eat s b rest Hok Hst). destruct Hok; lia.
Qed.

Lemma eats_read1 : eats (let* l := pb_read_buf 1 in of_option UbArray (head l)).
Proof.
  intros s Hok. unfold pb_read_buf. cbn [Z.eqb].
  unfold bind at 2, stream_of, gets. unfold bind at 1.
  destruct (Z.ltb_spec (is_bytes_left (ds_stream s)) 1).
  { exists 0%nat. destruct Hok. constructor; cbn; auto; lia. }
  destruct (eats_call1 s Hok) as (b & rest & Hst & Hcall); [destruct Hok; lia|].
  unfold bind, attempt. rewrite Hcall. cbn. split; [|done].
  apply (reach_eat s b rest Hok Hst). destruct Hok; lia.
Qed.

Lemma safe_readbyte Fu : safe Fu pb_readbyte.
Proof.
  apply safe_step. intros s Hok. pose proof (eats_readbyte s Hok) as H.
  destruct (pb_readbyte s); tauto.
Qed.

(** A loop that eats at every turn needs no more turns than bytes left. *)
Definition loop_safe {A} (phi : A -> Prop) (n : nat) (op : D A) : Prop :=
  forall s, stream_ok (ds_stream s) -> is_bytes_left (ds_stream s) < Z.of_nat n ->
  match op s with
  | Done a t => reach (ds_stream s) t /\ phi a
  | Fail t => reach (ds_stream s) t
  | Undef _ | OutOfFuel => False
  end.

Lemma loop_safe_eat {A} (phi : A -> Prop) n (op : D byte) (k : byte -> D A) :
  eats op -> (forall b, loop_safe phi n (k b)) -> loop_safe phi (S n) (bind op k).
Proof.
  intros He Hk s Hok Hlt. specialize (He s Hok). unfold bind.
  destruct (op s) as [b t|t|u|] eqn:E; auto. destruct He as [Hr Hl].
  pose proof (reach_ok _ _ Hok Hr) as Hok'. specialize (Hk b t Hok' ltac:(lia)).
  destruct (k b t) as [a t'|t'|u|]; auto; [destruct Hk|]; eauto using reach_trans.
Qed.

Lemma loop_safe_of_safe {A} (phi : A -> Prop) n (op : D A) : safev False phi op -> loop_safe phi n op.
Proof.
  intros H s Hok _. specialize (H _ Hok s (reach_refl s Hok)). destruct (op s); try done. by destruct H.
Qed.

Lemma loop_safe_entry {A} (phi : A -> Prop) (loop : nat -> D A) :
  (forall n, loop_safe phi n (loop n)) -> safev False phi (let* fuel := loop_fuel in loop fuel).
Proof.
  intros Hl s0 Hs0 s Hs. pose proof (reach_ok _ _ Hs0 Hs) as Hok.
  unfold bind, loop_fuel, bind, stream_of, gets, ret.
  specialize (Hl (S (Z.to_nat (is_bytes_left (ds_stream s)))) s Hok).
  destruct Hok as [_ ?]. specialize (Hl ltac:(lia)).
  destruct (loop _ s) as [a t|t|u|]; eauto using reach_trans. destruct Hl. eauto using reach_trans.
Qed.

(** *** The varint readers *)
Lemma loop_safe_varint32 n bitpos result :
  0 <= result -> loop_safe (fun r => 0 <= r.2) n (varint32_loop n bitpos result).
Proof.
  revert bitpos result. induction n as [|n IH]; intros bitpos result Hr; cbn [varint32_loop].
  { intros s [_ ?] ?. lia. }
  apply loop_safe_eat; [apply eats_readbyte|]. intros b.
  assert (forall result, 0 <= result ->
    loop_safe (fun r => 0 <= r.2) n
      (if Z.land (bz b) 128 =? 0 then ret (u8 (bitpos + 7), bz b, result)
       else varint32_loop n (u8 (bitpos + 7)) result)) as Hnext.
  { intros r Hr'. destruct (_ =? 0); [|by apply IH].
    apply loop_safe_of_safe. by apply safev_ret. }
  destruct (32 <=? bitpos).
  - destruct (_ && _); [|by apply Hnext]. apply loop_safe_of_safe, safev_bind_error.
  - apply Hnext. apply Z.lor_nonneg. split; [done|]. apply u32_range.
Qed.

Definition nonneg_result (r : bool + Z) : Prop :=
  match r with inl _ => True | inr v => 0 <= v end.

Lemma land_nonneg_l a b : 0 <= a -> 0 <= Z.land a b.
Proof. intros. apply Z.land_nonneg. by left. Qed.

Lemma safev_varint32_eof : safev False nonneg_result pb_decode_varint32_eof.
Proof.
  unfold pb_decode_varint32_eof.
  eapply (safev_bind _ (fun _ => True)).
  { apply safe_safev, safe_attempt, safe_readbyte. }
  intros [b|] _.
  2:{ eapply (safev_bind _ (fun _ => True)); [apply safe_safev, safe_gets|].
      intros s _. by apply safev_ret. }
  pose proof (bz_range b). destruct (Z.land (bz b) 128 =? 0); [apply safev_ret; cbn; lia|].
  assert (0 <= Z.land (bz b) 127) as Hb by (apply land_nonneg_l; lia).
  intros s0 Hs0. unfold loop_fuel, bind at 1. intros s Hs.
  (* the fuel is read in the state where the loop starts *)
  pose proof (loop_safe_entry (fun r => 0 <= r.2)
    (fun n => varint32_loop n 7 (Z.land (bz b) 127))
    (fun n => loop_safe_varint32 n 7 _ Hb) s0 Hs0 s Hs) as Hl.
  unfold loop_fuel, bind, stream_of, gets, ret, attempt in *. cbv beta iota in *.
  destruct (varint32_loop _ _ _ s) as [[[bp last] r] t|t|u|]; [|by split|done|done].
  destruct Hl as [Ht Hr]. cbn in Hr.
  destruct (_ && _); [|by split].
  pose proof (safe_error (A:=unit) False "varint overflow" s0 Hs0 t Ht) as He.
  destruct (is_error _ t) as [a t'|t'|u|]; [by split|by split|done|done].
Qed.

Lemma safev_varint32 : safev False (fun v => 0 <= v) pb_decode_varint32.
Proof.
  unfold pb_decode_varint32. eapply safev_bind; [apply safev_varint32_eof|].
  intros [e|v] Hv; [apply safev_failed|by apply safev_ret].
Qed.

Lemma loop_safe_varint64 n bitpos result :
  0 <= result -> loop_safe (fun v => 0 <= v) n (varint_loop64 n bitpos result).
Proof.
  revert bitpos result. induction n as [|n IH]; intros bitpos result Hr; cbn [varint_loop64].
  { intros s [_ ?] ?. lia. }
  destruct (64 <=? bitpos).
  { intros s Hok _. apply (safev_error False (fun v => 0 <= v) "varint overflow" _ Hok s).
    by apply reach_refl. }
  apply loop_safe_eat; [apply eats_readbyte|]. intros b.
  assert (0 <= Z.lor result (u64 (Z.shiftl (Z.land (bz b) 127) bitpos))) as Hn.
  { apply Z.lor_nonneg. split; [done|]. apply u64_range. }
  destruct (_ =? 0); [|by apply IH]. apply loop_safe_of_safe. by apply safev_ret.
Qed.

Lemma safev_varint : safev False (fun v => 0 <= v) pb_decode_varint.
Proof.
  apply (loop_safe_entry _ (fun n => varint_loop64 n 0 0)).
  intros n. by apply loop_safe_varint64.
Qed.

Lemma eq_bind_assoc {A B C} (op : D A) (f : A -> D B) (g : B -> D C) s :
  bind (bind op f) g s = bind op (fun a => bind (f a) g) s.
Proof. unfold bind. by destruct (op s). Qed.

Lemma loop_safe_skip n : loop_safe (fun _ => True) n (skip_varint_loop n).
Proof.
  induction n as [|n IH]; cbn [skip_varint_loop].
  { intros s [_ ?] ?. lia. }
  intros s Hok Hlt. rewrite <- eq_bind_assoc.
  apply (loop_safe_eat (fun _ => True) n _
    (fun b => if Z.land (bz b) 128 =? 0 then ret tt else skip_varint_loop n)
    eats_read1); [|done|done].
  intros b. destruct (_ =? 0); [|done]. apply loop_safe_of_safe. by apply safev_ret.
Qed.

Lemma safe_skip_varint : safe False pb_skip_varint.
Proof.
  eapply safev_safe, (loop_safe_entry _ skip_varint_loop). apply loop_safe_skip.
Qed.

Lemma safe_read_null Fu count : 0 <= count -> safe Fu (pb_read_null count).
Proof.
  intros Hc. unfold pb_read_null. destruct (count =? 0); [apply safe_ret|].
  intros s0 Hs0 s Hs. pose proof (reach_ok _ _ Hs0 Hs) as [Hcb _].
  unfold bind at 1, stream_of, gets. rewrite Hcb.
  apply (safe_bind Fu (pb_read_buf count) (fun _ => ret tt)); auto with safe.
  by apply safe_read_buf.
Qed.

Lemma safe_skip_field wt : safe False (pb_skip_field wt).
Proof.
  unfold pb_skip_field. repeat case_match.
  - apply safe_skip_varint.
  - by apply safe_read_null.
  - eapply safe_bindv; [apply safev_varint32|]. intros v Hv. by apply safe_read_null.
  - by apply safe_read_null.
  - apply safe_error.
Qed.

Lemma safe_decode_tag : safe False pb_decode_tag.
Proof.
  unfold pb_decode_tag. eapply safe_bindv; [apply safev_varint32_eof|].
  intros [e|v] _; safe_auto.
Qed.

Lemma safev_svarint : safe False pb_decode_svarint.
Proof. unfold pb_decode_svarint. eapply safe_bindv; [apply safev_varint|]. safe_auto. Qed.

(** ** Substreams: the parent gave up the bytes of the substream, so both stay
    inside of the same buffer *)
Record subof (s0 : pb_istream) (sub : pb_istream) (s : dstate) : Prop := {
  so_parent : reach s0 s;
  so_sub_callback : is_callback sub = cb_buf_read;
  so_sub_left : 0 <= is_bytes_left sub;
  so_sub_at : exists k, is_state sub = drop k (is_state s0) /\
    Z.of_nat k + is_bytes_left sub <= is_bytes_left s0 - is_bytes_left (ds_stream s)
}.

Lemma subof_ok s0 sub s : stream_ok s0 -> subof s0 sub s -> stream_ok sub.
Proof.
  intros [_ [Hl Hz]] [[j Hp] Hcb Hsub (k & Hst & Hk)]. constructor; [done|].
  rewrite Hst. destruct Hp. rewrite zlen_drop by (unfold zlen in *; lia). lia.
Qed.

Lemma subof_safe {A} Fu s0 sub (op : D A) :
  stream_ok s0 -> safe Fu op -> triple Fu (subof s0 sub) op (fun _ => subof s0 sub) (reach s0).
Proof.
  intros Hok H s Hs. destruct Hs as [Hp Hcb Hl (k & Hst & Hk)].
  pose proof (reach_ok _ _ Hok Hp) as Hsok. specialize (H _ Hsok s (reach_refl s Hsok)).
  destruct (op s) as [a t|t|u|]; eauto using reach_trans.
  constructor; eauto using reach_trans. exists k. split; [done|].
  destruct H as [j [_ _ ? _]]. lia.
Qed.

Lemma subof_make Fu s0 :
  stream_ok s0 ->
  triple Fu (reach s0) pb_make_string_substream (fun sub => subof s0 sub) (reach s0).
Proof.
  intros Hok. unfold pb_make_string_substream.
  eapply triple_bind; [apply triple_weaken, safev_varint32, Hok|].
  intros size s [Hs Hsize]. unfold bind at 1, stream_of, gets.
  destruct (Z.ltb_spec (is_bytes_left (ds_stream s)) size) as [|Hle].
  { by apply (safe_error (A:=pb_istream) Fu "parent stream too short" s0 Hok s). }
  unfold bind, put_stream, modify, ret. destruct Hs as [k [Hcb Hst Hb Hl]].
  constructor; cbn; auto; [|exists k; split; [done|lia]].
  exists k. constructor; cbn; auto; lia.
Qed.

Lemma subof_on {A} Fu s0 sub (op : D A) :
  stream_ok s0 -> safe Fu op ->
  triple Fu (subof s0 sub) (on_istream sub op) (fun r => subof s0 (snd r)) (reach s0).
Proof.
  intros Hok H s Hs. pose proof (subof_ok _ _ _ Hok Hs) as Hsok.
  destruct Hs as [[j Hp] Hcb Hl (k & Hst & Hk)]. unfold on_istream.
  assert (forall t : dstate, reach sub t ->
    subof s0 (ds_stream t) (set_stream (fun _ => ds_stream s) t)) as Hback.
  { intros t [i [Hcb' Hst' Hb' Hl']]. constructor; cbn; auto.
    - by exists j.
    - exists (k + i)%nat. split; [by rewrite Hst', Hst, drop_drop|lia]. }
  specialize (H sub Hsok (set_stream (fun _ => sub) s)
                (reach_refl (set_stream (fun _ => sub) s) Hsok)).
  destruct (op _) as [a t|t|u|]; auto; by apply Hback.
Qed.

Lemma subof_read_null Fu s0 sub :
  stream_ok s0 ->
  triple Fu (subof s0 sub) (on_istream sub (pb_read_null (is_bytes_left sub)))
    (fun r => subof s0 (snd r)) (reach s0).
Proof.
  intros Hok s Hs. apply (subof_on Fu s0 sub); [done| |done].
  apply safe_read_null. by destruct Hs.
Qed.

Lemma subof_close Fu s0 sub :
  stream_ok s0 ->
  triple Fu (subof s0 sub) (pb_close_string_substream sub) (fun _ => reach s0) (reach s0).
Proof.
  intros Hok. unfold pb_close_string_substream.
  eapply (triple_bind _ _ _ (fun r => subof s0 (snd r))).
  { destruct (negb _); [by apply subof_read_null|]. by apply triple_ret. }
  intros [[[]|] sub']; cbn [snd].
  2:{ apply triple_failed. by intros s []. }
  apply triple_modify. intros s [[j [Hcb Hst Hb Hl]] Hcb' Hl' (k & Hst' & Hk)].
  exists k. constructor; cbn; auto; lia.
Qed.

(** An operation that holds a substream, and gives the parent back. *)
Definition sub_safe {A} Fu (sub : pb_istream) (op : D A) : Prop :=
  forall s0, stream_ok s0 -> triple Fu (subof s0 sub) op (fun _ => reach s0) (reach s0).

(** One that returns the substream, read from [g] in the result. *)
Definition sub_keeps {A} Fu (sub : pb_istream) (g : A -> pb_istream) (op : D A) : Prop :=
  forall s0, stream_ok s0 ->
  triple Fu (subof s0 sub) op (fun r => subof s0 (g r)) (reach s0).

Lemma safe_make {A} Fu (k : pb_istream -> D A) :
  (forall sub, sub_safe Fu sub (k sub)) -> safe Fu (bind pb_make_string_substream k).
Proof.
  intros H s0 Hok. eapply triple_bind; [by apply subof_make|]. intros sub. by apply H.
Qed.

Lemma sub_safe_bind {A B} Fu sub g (op : D A) (k : A -> D B) :
  sub_keeps Fu sub g op -> (forall a, sub_safe Fu (g a) (k a)) -> sub_safe Fu sub (bind op k).
Proof. intros H1 H2 s0 Hok. eapply triple_bind; [by apply H1|]. intros a. by apply H2. Qed.

Lemma sub_keeps_bind {A B} Fu sub g h (op : D A) (k : A -> D B) :
  sub_keeps Fu sub g op -> (forall a, sub_keeps Fu (g a) h (k a)) ->
  sub_keeps Fu sub h (bind op k).
Proof. intros H1 H2 s0 Hok. eapply triple_bind; [by apply H1|]. intros a. by apply H2. Qed.

Lemma sub_keeps_safe {A} Fu sub (op : D A) : safe Fu op -> sub_keeps Fu sub (fun _ => sub) op.
Proof. intros H s0 Hok. by apply subof_safe. Qed.

Lemma sub_safe_of {A} Fu sub (op : D A) : safe Fu op -> sub_safe Fu sub op.
Proof.
  intros H s0 Hok. eapply triple_conseq; [by apply H| |done|done]. by intros s [].
Qed.

Lemma sub_keeps_ret {A} Fu sub (g : A -> pb_istream) a :
  g a = sub -> sub_keeps Fu sub g (ret a).
Proof. intros E s0 _. apply triple_ret. by rewrite E. Qed.

Lemma sub_keeps_error {A} Fu sub (g : A -> pb_istream) msg : sub_keeps Fu sub g (is_error msg).
Proof.
  intros s0 Hok. pose proof (safev_error (A:=A) Fu (fun _ => False) msg s0 Hok) as H.
  eapply triple_conseq; [by apply H| | |done]; [by intros s []|]. by intros a s [_ []].
Qed.

Lemma sub_keeps_on {A} Fu sub (op : D A) : safe Fu op -> sub_keeps Fu sub snd (on_istream sub op).
Proof. intros H s0 Hok. by apply subof_on. Qed.

Lemma sub_safe_close Fu sub : sub_safe Fu sub (pb_close_string_substream sub).
Proof. intros s0 Hok. by apply subof_close. Qed.

Lemma sub_keeps_fuel {A} sub (g : A -> pb_istream) : sub_keeps True sub g out_of_fuel.
Proof. intros s0 _. apply triple_fuel. Qed.

(** Closing the substream, then returning the status. *)
Lemma sub_safe_close_then {A} Fu sub (k : D A) :
  safe Fu k -> sub_safe Fu sub (pb_close_string_substream sub;;; k).
Proof.
  intros H s0 Hok. eapply triple_bind; [by apply subof_close|]. intros ?. by apply H.
Qed.

(** A stream of its own: nothing of the parent is touched. *)
Lemma safe_on_fresh {A} Fu sub (op : D A) :
  stream_ok sub -> safe Fu op -> safe Fu (on_istream sub op).
Proof.
  intros Hsub H. apply safe_step. intros s Hs. unfold on_istream.
  specialize (H sub Hsub (set_stream (fun _ => sub) s)
                (reach_refl (set_stream (fun _ => sub) s) Hsub)).
  pose proof (reach_refl s Hs) as Hr.
  destruct (op _); auto; by eapply reach_stream, Hr.
Qed.

(** ** Scalars, memory, allocation *)
Lemma safe_with_iter {A} (op : M pb_field_iter A) it :
  (forall i, op i <> Undef UbRead) -> op it <> OutOfFuel -> safe True (diter op it).
Proof.
  intros Hu Hf. apply safe_step. intros s Hs. unfold diter, with_iter.
  specialize (Hu it). destruct (op it); auto using reach_refl. split; [done|congruence].
Qed.

Lemma safe_dld a n : safe True (dld a n).
Proof. unfold dld, get_mem. safe_auto. Qed.
Lemma safe_dst_bytes a l : safe True (dst_bytes a l).
Proof. unfold dst_bytes, get_mem, put_mem. safe_auto. Qed.
#[export] Hint Resolve safe_dld safe_dst_bytes : safe.
Lemma safe_dst a n v : safe True (dst a n v).
Proof. apply safe_dst_bytes. Qed.
Lemma safe_memset0 a n : safe True (memset0 a n).
Proof. apply safe_dst_bytes. Qed.
Lemma safe_memcpy a b n : safe True (memcpy a b n).
Proof. unfold memcpy, get_mem. safe_auto. Qed.
Lemma safe_dfree p : safe True (dfree p).
Proof. unfold dfree, get_mem, put_mem. safe_auto. Qed.
Lemma safe_ld_cell c : safe True (ld_cell c).
Proof. destruct c; cbn; safe_auto. Qed.
#[export] Hint Resolve safe_dst safe_memset0 safe_memcpy safe_dfree safe_ld_cell : safe.
Lemma safe_st_cell c v : safe True (st_cell c v).
Proof. destruct c; cbn; unfold put_fixed; safe_auto. Qed.
Lemma safe_st_cell_bool c v : safe True (st_cell_bool c v).
Proof. destruct c; cbn; safe_auto. Qed.
Lemma safe_skip_field' Fu wt : safe Fu (pb_skip_field wt).
Proof. apply safe_weaken, safe_skip_field. Qed.
Lemma safe_varint Fu : safe Fu pb_decode_varint.
Proof. eapply safe_weaken, safev_safe, safev_varint. Qed.
Lemma safe_varint32 Fu : safe Fu pb_decode_varint32.
Proof. eapply safe_weaken, safev_safe, safev_varint32. Qed.
Lemma safe_svarint Fu : safe Fu pb_decode_svarint.
Proof. apply safe_weaken, safev_svarint. Qed.
Lemma safe_tag Fu : safe Fu pb_decode_tag.
Proof. apply safe_weaken, safe_decode_tag. Qed.
#[export] Hint Resolve safe_st_cell safe_st_cell_bool safe_skip_field' safe_varint
  safe_varint32 safe_svarint safe_tag : safe.
#[export] Hint Extern 1 (safe _ stream_of) => apply safe_gets : safe.

(** A length that was just decoded is not negative. *)
Lemma safe_length {A} Fu (k : Z -> D A) :
  (forall size, 0 <= size -> safe Fu (k size)) -> safe Fu (bind pb_decode_varint32 k).
Proof.
  intros H s0 Hok. eapply triple_bind; [apply triple_weaken, safev_varint32, Hok|].
  intros size s [Hs Hsize]. by apply H.
Qed.

Lemma safe_fixed32 dest : safe True (pb_decode_fixed32 dest).
Proof. unfold pb_decode_fixed32. apply safe_bind; [by apply safe_read_buf|]. safe_auto. Qed.
Lemma safe_fixed64 dest : safe True (pb_decode_fixed64 dest).
Proof. unfold pb_decode_fixed64. apply safe_bind; [by apply safe_read_buf|]. safe_auto. Qed.
Lemma safe_dec_bool dest : safe True (pb_dec_bool dest).
Proof. unfold pb_dec_bool. safe_auto. Qed.
Lemma safe_clamped c n d v : safe True (store_clamped c n d v).
Proof. unfold store_clamped. safe_auto. Qed.
#[export] Hint Resolve safe_fixed32 safe_fixed64 safe_dec_bool safe_clamped : safe.
Lemma safe_store_signed n d v : safe True (store_signed n d v).
Proof. unfold store_signed. safe_auto. Qed.
#[export] Hint Resolve safe_store_signed : safe.
Lemma safe_dec_varint f d : safe True (pb_dec_varint f d).
Proof. unfold pb_dec_varint. safe_auto. Qed.
Lemma safe_dec_uvarint f d : safe True (pb_dec_uvarint f d).
Proof. unfold pb_dec_uvarint. safe_auto. Qed.
Lemma safe_dec_svarint f d : safe True (pb_dec_svarint f d).
Proof. unfold pb_dec_svarint. safe_auto. Qed.
Lemma safe_dec_fixed_bytes f d : safe True (pb_dec_fixed_length_bytes f d).
Proof.
  unfold pb_dec_fixed_length_bytes. apply safe_length. intros size Hsize.
  destruct (_ <? _); [safe_auto|]. destruct (size =? 0); [safe_auto|].
  destruct (Z.eqb_spec size (pf_data_size f)) as [<-|]; cbn; [|safe_auto].
  apply safe_bind; [by apply safe_read_buf|]. safe_auto.
Qed.
#[export] Hint Resolve safe_dec_varint safe_dec_uvarint safe_dec_svarint safe_dec_fixed_bytes : safe.

Lemma safe_read1 : safe False (let* l := pb_read_buf 1 in of_option UbArray (head l)).
Proof.
  apply safe_step. intros s Hok. pose proof (eats_read1 s Hok) as He. destruct (bind _ _ s); tauto.
Qed.

Lemma safe_reassoc {A B C} Fu (op : D A) (f : A -> D B) (g : B -> D C) :
  safe Fu (bind (bind op f) g) -> safe Fu (bind op (fun a => bind (f a) g)).
Proof. intros H s0 Hok s Hs. rewrite <- eq_bind_assoc. by apply H. Qed.

Lemma safe_raw_loop n max buf :
  zlen buf <= max < Z.of_nat n + zlen buf -> safe False (raw_varint_loop n max buf).
Proof.
  revert buf. induction n as [|n IH]; intros buf Hn; cbn [raw_varint_loop]; [lia|].
  destruct (Z.ltb_spec max (zlen buf + 1)) as [|Hle]; [apply safe_failed|].
  apply safe_reassoc, safe_bind; [apply safe_read1|].
  intros b. destruct (_ =? 0); [apply safe_ret|]. apply IH.
  rewrite zlen_app, zlen_cons. change (zlen []) with 0. lia.
Qed.

Lemma safe_raw_value wt max : 0 <= max -> safe False (read_raw_value wt max).
Proof.
  intros Hm. unfold read_raw_value. repeat case_match.
  - apply safe_raw_loop. change (zlen []) with 0. lia.
  - by apply safe_read_buf.
  - by apply safe_read_buf.
  - apply safe_error.
Qed.

Section Allocation.
Context `{Allocator}.

Lemma safe_allocate p d n : safe True (allocate_field p d n).
Proof. unfold allocate_field, get_mem, put_mem. safe_auto. Qed.
#[local] Hint Resolve safe_allocate : safe.

Lemma safe_dec_bytes f d : safe True (pb_dec_bytes f d).
Proof.
  unfold pb_dec_bytes. apply safe_length. intros size Hs.
  destruct (_ <? _); [safe_auto|]. cbv zeta. destruct (_ <? _); [safe_auto|].
  apply safe_bind; [safe_auto|]. intros b. apply safe_bind; [safe_auto|]. intros _.
  apply safe_bind; [by apply safe_read_buf|]. safe_auto.
Qed.

Lemma safe_dec_string f d : safe True (pb_dec_string f d).
Proof.
  unfold pb_dec_string. apply safe_length. intros size Hs. cbv zeta.
  destruct (_ <? _); [safe_auto|].
  apply safe_bind; [safe_auto|]. intros b.
  apply safe_bind; [apply safe_attempt, safe_bind; [by apply safe_read_buf|safe_auto]|].
  safe_auto.
Qed.
End Allocation.
#[export] Hint Resolve safe_allocate safe_dec_bytes safe_dec_string : safe.

(** ** Iterators: they do not touch the stream *)
Definition iter_safe {A} (op : M pb_field_iter A) : Prop := forall it, op it <> Undef UbRead.

Lemma iter_safe_bind {A B} (op : M pb_field_iter A) (k : A -> M pb_field_iter B) :
  iter_safe op -> (forall a, iter_safe (k a)) -> iter_safe (bind op k).
Proof.
  intros H1 H2 it. unfold bind. specialize (H1 it). destruct (op it); [by apply H2|done|congruence|done].
Qed.

Lemma iter_safe_field_at l i : iter_safe (field_at l i).
Proof. intros it. unfold field_at, of_option. by destruct (l !! i). Qed.
Lemma iter_safe_field : iter_safe iter_field.
Proof. intros it. apply iter_safe_field_at. Qed.
Lemma iter_safe_begin l d : iter_safe (pb_field_iter_begin l d).
Proof.
  unfold pb_field_iter_begin. apply iter_safe_bind; [apply iter_safe_field_at|].
  intros f it. unfold bind, modify, ret. done.
Qed.
Lemma iter_safe_next : iter_safe pb_field_iter_next.
Proof.
  intros it. unfold pb_field_iter_next. revert it.
  enough (forall j : pb_field_iter, iter_safe
    (let* prev_field := iter_field in
     if pf_tag prev_field =? 0 then ret false
     else
       let* cur := field_at (it_start j) (S (it_pos j)) in
       if pf_tag cur =? 0 then
         pb_field_iter_begin (it_start j) (it_dest j);;; ret false
       else modify (iter_advance prev_field cur);;; ret true)) as Hj.
  { intros it. apply Hj. }
  intros j. apply iter_safe_bind; [apply iter_safe_field|]. intros f.
  destruct (_ =? 0); [by intros ?|]. apply iter_safe_bind; [apply iter_safe_field_at|].
  intros c. destruct (_ =? 0); [|by intros ?].
  apply iter_safe_bind; [apply iter_safe_begin|by intros ? ?].
Qed.
Lemma iter_safe_search n stop start : iter_safe (iter_search n stop start).
Proof.
  induction n as [|n IH]; cbn [iter_search]; [by intros ?|].
  apply iter_safe_bind; [apply iter_safe_field|]. intros f.
  destruct (stop f); [by intros ?|]. apply iter_safe_bind; [apply iter_safe_next|].
  intros _. apply iter_safe_bind; [by intros ?|]. intros pos.
  destruct (Nat.eqb pos start); [by intros ?|done].
Qed.

Lemma safe_diter {A} (op : M pb_field_iter A) it : iter_safe op -> safe True (diter op it).
Proof.
  intros Hu. apply safe_step. intros s Hs. unfold diter, with_iter.
  specialize (Hu it). destruct (op it); auto using reach_refl. split; [done|congruence].
Qed.
Lemma safe_diter_field it : safe True (diter iter_field it).
Proof. apply safe_diter, iter_safe_field. Qed.
Lemma safe_diter_begin l d it : safe True (diter (pb_field_iter_begin l d) it).
Proof. apply safe_diter, iter_safe_begin. Qed.
Lemma safe_diter_next it : safe True (diter pb_field_iter_next it).
Proof. apply safe_diter, iter_safe_next. Qed.
Lemma safe_diter_find tag it : safe True (diter (pb_field_iter_find tag) it).
Proof. apply safe_diter. intros j. apply iter_safe_search. Qed.
Lemma safe_diter_ext it : safe True (diter find_extension_field it).
Proof. apply safe_diter. intros j. apply iter_safe_search. Qed.
#[export] Hint Resolve safe_diter_field safe_diter_begin safe_diter_next safe_diter_find
  safe_diter_ext : safe.

(** ** The message decoder *)
Section Messages.
Context `{Descriptors} `{Allocator} `{DecCallbacks}.

Lemma safe_extension_fields e : safe True (extension_fields e).
Proof. unfold extension_fields. safe_auto. Qed.
#[local] Hint Resolve safe_extension_fields : safe.
Lemma safe_iter_from_extension e : safe True (iter_from_extension e).
Proof. unfold iter_from_extension. safe_auto. Qed.
#[local] Hint Resolve safe_iter_from_extension : safe.

Lemma safe_each_extension n f e :
  (forall e, safe True (f e)) -> safe True (each_extension n f e).
Proof. intros Hf. revert e. induction n; intros e; cbn [each_extension]; safe_auto. Qed.

Lemma safe_each_field_loop n f it :
  (forall it, safe True (f it)) -> safe True (each_field_loop n f it).
Proof. intros Hf. revert it. induction n; intros it; cbn [each_field_loop]; safe_auto. Qed.

Lemma safe_each_field f l d : (forall it, safe True (f it)) -> safe True (each_field f l d).
Proof.
  intros Hf. unfold each_field. safe_auto. by apply safe_each_field_loop.
Qed.

Lemma safe_each_item n f sz p : (forall p, safe True (f p)) -> safe True (each_item n f sz p).
Proof. intros Hf. revert p. induction n; intros p; cbn [each_item]; safe_auto. Qed.
#[local] Hint Resolve safe_each_extension safe_each_field safe_each_item : safe.

Lemma safe_field_default fuel it : safe True (pb_field_set_to_default fuel it).
Proof.
  revert it. induction fuel as [|fuel IH]; intros it; cbn [pb_field_set_to_default];
    [apply safe_fuel|]. safe_auto; apply safe_each_extension; safe_auto.
Qed.
#[local] Hint Resolve safe_field_default : safe.

Lemma safe_message_defaults fuel l d : safe True (pb_message_set_to_defaults fuel l d).
Proof. unfold pb_message_set_to_defaults. safe_auto. Qed.
#[local] Hint Resolve safe_message_defaults : safe.

Lemma safe_release_single fuel it : safe True (pb_release_single_field fuel it).
Proof.
  revert it. induction fuel as [|fuel IH]; intros it; cbn [pb_release_single_field];
    [apply safe_fuel|].
  safe_auto; (apply safe_each_extension || apply safe_each_item); safe_auto.
Qed.
#[local] Hint Resolve safe_release_single : safe.

Lemma safe_release fuel l d : safe True (pb_release fuel l d).
Proof. unfold pb_release. safe_auto. Qed.
Lemma safe_release_union fuel it : safe True (pb_release_union_field fuel it).
Proof. unfold pb_release_union_field. safe_auto. Qed.
#[local] Hint Resolve safe_release safe_release_union : safe.

(** Callbacks of the application keep to the stream that they are given. *)
Hypothesis callbacks_safe : forall fn f arg, safe True (dec_callback fn f arg).
Hypothesis extensions_safe : forall fn e tag wt, safe True (dec_extension fn e tag wt).

Section Nested.
Variable rec : list pb_field -> Z -> D unit.
Variable fuel : nat.
Hypothesis rec_safe : forall l d, safe True (rec l d).
#[local] Hint Resolve rec_safe callbacks_safe extensions_safe : safe.

Lemma safe_with_defaults l d : safe True (decode_with_defaults rec fuel l d).
Proof. unfold decode_with_defaults. safe_auto. Qed.
#[local] Hint Resolve safe_with_defaults : safe.

Lemma safe_submessage f d : safe True (pb_dec_submessage rec fuel f d).
Proof.
  unfold pb_dec_submessage. apply safe_make. intros sub.
  destruct (pf_ptr f =? 0); [apply sub_safe_of, safe_error|].
  eapply sub_safe_bind; [apply sub_keeps_on; safe_auto|]. intros [[[]|] sub'];
    apply sub_safe_close_then; safe_auto.
Qed.
#[local] Hint Resolve safe_submessage : safe.

Lemma safe_decoders lt f d : safe True (PB_DECODERS rec fuel lt f d).
Proof. unfold PB_DECODERS. repeat case_match; safe_auto. Qed.
#[local] Hint Resolve safe_decoders : safe.

Lemma safe_packed_static n func f it sub :
  (forall d, safe True (func d)) ->
  sub_keeps True sub snd (packed_static_loop n func f it sub).
Proof.
  intros Hf. revert sub. induction n as [|n IH]; intros sub; cbn [packed_static_loop].
  { apply sub_keeps_fuel. }
  eapply sub_keeps_bind; [apply sub_keeps_safe; safe_auto|]. intros size.
  destruct (_ && _); [|by apply sub_keeps_ret].
  eapply sub_keeps_bind; [apply sub_keeps_on; auto|]. intros [[[]|] sub'];
    [|by apply sub_keeps_ret].
  eapply sub_keeps_bind; [apply sub_keeps_safe; safe_auto|]. intros size'.
  eapply sub_keeps_bind; [apply sub_keeps_safe; safe_auto|]. intros []. apply IH.
Qed.

Lemma safe_decode_static wt it : safe True (decode_static_field rec fuel wt it).
Proof.
  unfold decode_static_field. apply safe_bind; [safe_auto|]. intros [f it'].
  destruct (_ =? _); [safe_auto|]. destruct (_ =? _); [safe_auto|].
  destruct (_ =? _); [|safe_auto]. destruct (_ && _); [|safe_auto].
  apply safe_make. intros sub.
  eapply sub_safe_bind; [apply safe_packed_static; safe_auto|]. intros [st sub'].
  cbn [snd]. destruct (negb _); [apply sub_safe_of, safe_error|].
  apply sub_safe_close_then. safe_auto.
Qed.

Lemma safe_initialize p f : safe True (initialize_pointer_field fuel p f).
Proof. unfold initialize_pointer_field. safe_auto. Qed.
#[local] Hint Resolve safe_initialize : safe.

Lemma safe_packed_pointer n func f it al sub :
  (forall d, safe True (func d)) ->
  sub_keeps True sub snd (packed_pointer_loop fuel n func f it al sub).
Proof.
  intros Hf. revert al sub. induction n as [|n IH]; intros al sub; cbn [packed_pointer_loop].
  { apply sub_keeps_fuel. }
  destruct (_ =? _); [by apply sub_keeps_ret|].
  eapply sub_keeps_bind; [apply sub_keeps_safe; safe_auto|]. intros size.
  destruct (_ =? _).
  { eapply sub_keeps_bind; [apply sub_keeps_safe; safe_auto|]. intros [].
    by apply sub_keeps_ret. }
  cbv zeta. apply (sub_keeps_bind True sub snd).
  { destruct (_ && _); [intros s0 _; by apply triple_undef|].
    destruct (_ <? _); [apply sub_keeps_on; safe_auto|by apply sub_keeps_ret]. }
  intros [[[]|] sub']; cbn [snd]; [|by apply sub_keeps_ret].
  eapply sub_keeps_bind; [apply sub_keeps_safe; safe_auto|]. intros base.
  destruct (_ =? 0); [by apply sub_keeps_ret|].
  eapply sub_keeps_bind; [apply sub_keeps_safe; safe_auto|]. intros [].
  eapply sub_keeps_bind; [apply sub_keeps_on; auto|]. intros [[[]|] sub''];
    [|by apply sub_keeps_ret].
  eapply sub_keeps_bind; [apply sub_keeps_safe; safe_auto|]. intros size'.
  eapply sub_keeps_bind; [apply sub_keeps_safe; safe_auto|]. intros []. apply IH.
Qed.

Lemma safe_decode_pointer wt it : safe True (decode_pointer_field rec fuel wt it).
Proof.
  unfold decode_pointer_field. apply safe_bind; [safe_auto|]. intros [f it'].
  destruct (negb _); [safe_auto|]. destruct (_ && _); [|safe_auto].
  apply safe_bind; [safe_auto|]. intros size. apply safe_make. intros sub.
  eapply sub_safe_bind; [apply safe_packed_pointer; safe_auto|]. intros [st sub'].
  apply sub_safe_close_then. safe_auto.
Qed.

Lemma safe_callback_loop n func sub :
  safe True func -> sub_keeps True sub (fun s => s) (callback_loop n func sub).
Proof.
  intros Hf. revert sub. induction n as [|n IH]; intros sub; cbn [callback_loop].
  { apply sub_keeps_fuel. }
  eapply sub_keeps_bind; [by apply sub_keeps_on|]. intros [[[]|] sub']; cbn [snd];
    [|apply sub_keeps_error].
  destruct (_ =? 0); [by apply sub_keeps_ret|apply IH].
Qed.

Lemma safe_decode_callback wt it : safe True (decode_callback_field wt it).
Proof.
  unfold decode_callback_field. apply safe_bind; [safe_auto|]. intros [f it'].
  apply safe_bind; [safe_auto|]. intros decode.
  destruct (_ =? 0); [safe_auto|]. cbv zeta. destruct (_ =? PB_WT_STRING).
  - apply safe_make. intros sub.
    eapply sub_safe_bind; [by apply safe_callback_loop|]. intros sub'.
    apply sub_safe_close.
  - apply safe_bind; [by apply safe_weaken, safe_raw_value|]. intros buffer.
    apply safe_bind; [|safe_auto]. apply safe_on_fresh; [|done].
    constructor; [done|]. cbn. pose proof (zlen_nonneg buffer). lia.
Qed.
#[local] Hint Resolve safe_decode_static safe_decode_pointer safe_decode_callback : safe.

Lemma safe_decode_field wt it : safe True (decode_field rec fuel wt it).
Proof. unfold decode_field. safe_auto. Qed.
#[local] Hint Resolve safe_decode_field : safe.

Lemma safe_default_extension e tag wt : safe True (default_extension_decoder rec fuel e tag wt).
Proof. unfold default_extension_decoder. safe_auto. Qed.
#[local] Hint Resolve safe_default_extension : safe.

Lemma safe_extension_loop n tag wt pos e : safe True (extension_loop rec fuel n tag wt pos e).
Proof. revert e. induction n; intros e; cbn [extension_loop]; safe_auto. Qed.
#[local] Hint Resolve safe_extension_loop : safe.

Lemma safe_decode_extension tag wt it : safe True (decode_extension rec fuel tag wt it).
Proof. unfold decode_extension. safe_auto. Qed.
#[local] Hint Resolve safe_decode_extension : safe.

Lemma safe_unknown tag wt l : safe True (decode_unknown rec fuel tag wt l).
Proof. unfold decode_unknown. safe_auto. Qed.
Lemma safe_fixed_count f l : safe True (track_fixed_count f l).
Proof. unfold track_fixed_count, put_fixed. safe_auto. Qed.
#[local] Hint Resolve safe_unknown safe_fixed_count : safe.
Lemma safe_known wt l : safe True (decode_known rec fuel wt l).
Proof. unfold decode_known. safe_auto. Qed.
#[local] Hint Resolve safe_known : safe.

Lemma safe_decode_loop n l : safe True (decode_loop rec fuel n l).
Proof. revert l. induction n; intros l; cbn [decode_loop]; safe_auto. Qed.

Lemma safe_count_required n it : safe True (count_required n it).
Proof. revert it. induction n; intros it; cbn [count_required]; safe_auto. Qed.
#[local] Hint Resolve safe_decode_loop safe_count_required : safe.

Lemma safe_noinit_body l d : safe True (noinit_body rec fuel l d).
Proof. unfold noinit_body, check_fixed_count, check_required. safe_auto. Qed.
End Nested.

Lemma safe_with_fixed {A} (op : D A) : safe True op -> safe True (with_fixed_local op).
Proof.
  intros Hop. apply safe_step. intros s Hs. unfold with_fixed_local.
  set (s' := mk_dstate (ds_stream s) (ds_mem s) 0).
  specialize (Hop (ds_stream s') Hs s' (reach_refl s' Hs)).
  destruct (op s'); auto; by eapply reach_stream, Hop.
Qed.

Lemma safe_decode_noinit fuel l d : safe True (pb_decode_noinit fuel l d).
Proof.
  revert l d. induction fuel as [|fuel IH]; intros l d; cbn [pb_decode_noinit];
    [apply safe_fuel|]. by apply safe_with_fixed, safe_noinit_body.
Qed.

Lemma safe_decode fuel l d : safe True (pb_decode fuel l d).
Proof. apply safe_with_defaults, safe_decode_noinit. Qed.

Lemma safe_delimited op : safe True op -> safe True (decode_delimited op).
Proof.
  intros Hop. unfold decode_delimited. apply safe_make. intros sub.
  eapply sub_safe_bind; [by apply sub_keeps_on|]. intros [[[]|] sub'];
    apply sub_safe_close_then; safe_auto.
Qed.
End Messages.
