(* ===== verification/PbSample.v ===== *)
(** nanopb: a concrete message type, memory and set of callbacks, for the
    witnesses of the theorems. *)
From S2P Require Import Prelude.
From S2P Require Import PbBase.
From S2P Require Import PbCommon.
From S2P Require Import PbEncode.
From S2P Require Import PbDecode.

(** [struct point { int32_t x; bool has_y; uint32_t y; }] *)
Definition point_fields : list pb_field :=
  [mk_field 1 (PB_HTYPE_REQUIRED + PB_LTYPE_VARINT) 0 0 4 0 0;
   mk_field 2 (PB_HTYPE_OPTIONAL + PB_LTYPE_UVARINT) 4 (-4) 4 0 0;
   PB_LAST_FIELD].

(** [struct shape { uint32_t a; bool has_b; char b[8]; struct point p;
                    pb_size_t c_count; int32_t c[3]; }] *)
Definition shape_fields : list pb_field :=
  [mk_field 1 (PB_HTYPE_REQUIRED + PB_LTYPE_UVARINT) 0 0 4 0 0;
   mk_field 2 (PB_HTYPE_OPTIONAL + PB_LTYPE_STRING) 1 (-1) 8 0 0;
   mk_field 3 (PB_HTYPE_REQUIRED + PB_LTYPE_SUBMESSAGE) 3 0 12 0 1;
   mk_field 4 (PB_HTYPE_REPEATED + PB_LTYPE_VARINT) 4 (-4) 4 3 0;
   PB_LAST_FIELD].

#[export] Instance sample_descs : Descriptors := fun p =>
  if p =? 1 then point_fields else if p =? 2 then shape_fields else [PB_LAST_FIELD].

#[export] Instance sample_typed : TypedDescriptors.
Proof.
  intros p. unfold descs, sample_descs.
  destruct (p =? 1); [|destruct (p =? 2)]; repeat (apply Forall_cons; split); try apply Forall_nil; try done;
    constructor; cbn; lia.
Qed.

(** A bump allocator above every block and every mapped byte. *)
Definition bump (m : mem) : Z :=
  map_fold (fun k _ top => Z.max (k + 1) top) 4096 (m_bytes m).
#[export] Instance sample_allocator : Allocator := {|
  pb_malloc := fun m n => if (0 <? n) && (n <? 2 ^ 20) then Some (bump m) else None;
  junk := fun _ => zb 205
|}.

(** An encoder callback that writes a constant field, a decoder callback that reads
    a varint. *)
#[export] Instance sample_enc_callbacks : EncCallbacks := {|
  enc_callback := fun _ _ _ _ => pb_write (Some [zb 64; zb 7]) 2;
  enc_extension := fun _ _ _ => ret tt
|}.
#[export] Instance sample_dec_callbacks : DecCallbacks := {|
  dec_callback := fun _ _ _ => pb_decode_varint;;; ret tt;
  dec_extension := fun _ _ _ wire_type => pb_skip_field wire_type
|}.

Definition blank (a : Z) (n : nat) : mem :=
  mk_mem (map_block ∅ a (replicate n (zb 0))) ∅.

(** A [struct shape] at 1000: a = 300, b = "Hi", p = {-1, y = 5}, c = {5, -1}. *)
Definition shape_mem : mem :=
  mk_mem (map_block ∅ 1000
    (le_bytes 4 300 ++ [zb 1] ++ map zb [72; 105; 0; 0; 0; 0; 0; 0] ++ map zb [0; 0; 0]
     ++ (le_bytes 4 (-1) ++ map zb [1; 0; 0; 0] ++ le_bytes 4 5)
     ++ le_bytes 4 2 ++ le_bytes 4 5 ++ le_bytes 4 (-1) ++ le_bytes 4 0)) ∅.

(** What it encodes to. *)
Definition shape_bytes : list byte := map zb
  [8; 172; 2;  18; 2; 72; 105;
   26; 13; 8; 255; 255; 255; 255; 255; 255; 255; 255; 255; 1; 16; 5;
   34; 11; 5; 255; 255; 255; 255; 255; 255; 255; 255; 255; 1].

Lemma shape_encodes :
  pb_encode shape_mem 4 shape_fields 1000 (pb_ostream_from_buffer 64 64)
  = Done tt (mk_ostream cb_buf_write shape_bytes 29 64 35 None).
Proof. vm_compute. reflexivity. Qed.

Lemma shape_size : pb_get_encoded_size shape_mem 4 shape_fields 1000 = Done 35 tt.
Proof. vm_compute. reflexivity. Qed.

(** Decoding it into a blank structure at 2000 gives the same bytes. *)
Lemma shape_decodes :
  match pb_decode 4 shape_fields 2000
          (mk_dstate (pb_istream_from_buffer shape_bytes 35) (blank 2000 44) 0) with
  | Done _ t => load_bytes (ds_mem t) 2000 44 = load_bytes shape_mem 1000 44 /\
                is_bytes_left (ds_stream t) = 0
  | _ => False
  end.
Proof. vm_compute. split; reflexivity. Qed.
