(* ===== verification/PbFields.v ===== *)
(** nanopb: one field through the wire.  What the encoder of a field type reads
    from memory, and what the decoder of the type stores from the bytes that
    were written. *)
From S2P Require Import Prelude.
From S2P Require Import PbBase.
From S2P Require Import PbWire.
From S2P Require Import PbCommon.
From S2P Require Import PbEncode.
From S2P Require Import PbEncodeProofs.
From S2P Require Import PbDecode.
From S2P Require Import PbDecodeProofs.

(** ** Memory *)
Lemma load_uint_bytes m a n l : load_bytes m a n = Some l -> load_uint m a n = Some (le_val l).
Proof. intros H. unfold load_uint. by rewrite H. Qed.

Lemma store_map_app l1 : forall b a l2,
  store_map b a (l1 ++ l2) =
  match store_map b a l1 with Some b' => store_map b' (a + zlen l1) l2 | None => None end.
Proof.
  induction l1 as [|x l1 IH]; intros b a l2; cbn [app store_map].
  - change (zlen []) with 0. by rewrite Z.add_0_r.
  - destruct (b !! a); [|done]. rewrite IH. destruct (store_map _ _ l1); [|done].
    rewrite zlen_cons. f_equal. lia.
Qed.

Lemma store_bytes_app m a l1 l2 m' :
  store_bytes m a (l1 ++ l2) = Some m' ->
  exists m1, store_bytes m a l1 = Some m1 /\ store_bytes m1 (a + zlen l1) l2 = Some m'.
Proof.
  unfold store_bytes. rewrite store_map_app. destruct (store_map (m_bytes m) a l1) as [b|]; [|done].
  intros H. exists (mk_mem b (m_blocks m)). split; [done|]. exact H.
Qed.

Lemma load_map_app b a n k :
  load_map b a (n + k) =
  match load_map b a n, load_map b (a + Z.of_nat n) k with
  | Some l1, Some l2 => Some (l1 ++ l2) | _, _ => None end.
Proof.
  revert a. induction n as [|n IH]; intros a; cbn [Nat.add load_map].
  - change (Z.of_nat 0) with 0. rewrite Z.add_0_r. by destruct (load_map b a k).
  - destruct (b !! a); [|done]. rewrite IH. replace (a + 1 + Z.of_nat n) with (a + Z.of_nat (S n)) by lia.
    destruct (load_map b (a + 1) n); [|done]. by destruct (load_map b (a + Z.of_nat (S n)) k).
Qed.

Lemma load_bytes_app m a l1 l2 :
  load_bytes m a (zlen l1 + zlen l2) = Some (l1 ++ l2) ->
  load_bytes m a (zlen l1) = Some l1 /\ load_bytes m (a + zlen l1) (zlen l2) = Some l2.
Proof.
  unfold load_bytes, zlen. rewrite Z2Nat.inj_add, !Nat2Z.id, load_map_app by lia.
  destruct (load_map (m_bytes m) a (length l1)) as [k1|] eqn:E1; [|done].
  destruct (load_map (m_bytes m) _ (length l2)) as [k2|] eqn:E2; [|done]. intros [= E].
  apply load_map_length in E1. apply app_inj_1 in E as [-> ->]; [done|done].
Qed.

(** ** Reading into memory *)

(** From a stream that starts with [bs], [op dest] reads it and stores [l] at
    [dest]. *)
Definition parses_into (op : Z -> D unit) (bs l : list byte) : Prop :=
  forall dest rest left m m' fx,
  zlen bs <= left -> left <= zlen bs + zlen rest -> store_bytes m dest l = Some m' ->
  op dest (buf_state (bs ++ rest) left m fx) = Done tt (buf_state rest (left - zlen bs) m' fx).

Lemma dst_bytes_spec a l rest left m m' fx :
  store_bytes m a l = Some m' ->
  dst_bytes a l (buf_state rest left m fx) = Done tt (buf_state rest left m' fx).
Proof. intros H. unfold dst_bytes, bind, get_mem, gets. cbn. by rewrite H. Qed.

Lemma parses_into_store {A} (op : D A) (k : A -> Z -> D unit) bs a l :
  parses op bs a ->
  (forall dest s, k a dest s = dst_bytes dest l s) ->
  parses_into (fun dest => let* v := op in k v dest) bs l.
Proof.
  intros Hop Hk dest rest left m m' fx H1 H2 Hst. unfold bind. rewrite Hop by done.
  rewrite Hk. by apply dst_bytes_spec.
Qed.

Lemma le_bytes_mod n z : le_bytes n (z mod 256 ^ Z.of_nat n) = le_bytes n z.
Proof.
  apply le_val_inj; [by rewrite !length_le_bytes|].
  rewrite !le_val_bytes. apply Z.mod_mod. lia.
Qed.

(** Storing the integer of a body stores the body. *)
Lemma dst_le l dest v s : v mod 256 ^ zlen l = le_val l ->
  dst dest (zlen l) v s = dst_bytes dest l s.
Proof.
  intros Hv. unfold dst. do 2 f_equal. rewrite <- (le_bytes_val l) at 2.
  unfold zlen in *. rewrite Nat2Z.id, <- (le_bytes_mod _ v). by rewrite Hv.
Qed.

Lemma store_clamped_fits clamp size dest v s :
  clamp v = v -> store_clamped clamp size dest v s = dst dest size v s.
Proof.
  intros Hc. unfold store_clamped, bind. rewrite Hc, Z.eqb_refl. cbn [negb].
  by destruct (dst dest size v s) as [[]| | |].
Qed.

Lemma pow_8 n : 0 <= n -> 2 ^ (8 * n) = 256 ^ n.
Proof. intros. by rewrite Z.pow_mul_r by lia. Qed.

Lemma swrap_le l : 1 <= zlen l <= 8 -> let v := swrap (8 * zlen l) (le_val l) in
  - 2 ^ (8 * zlen l - 1) <= v < 2 ^ (8 * zlen l - 1) /\ v mod 256 ^ zlen l = le_val l.
Proof.
  intros Hl v. pose proof (swrap_range (8 * zlen l) (le_val l) ltac:(lia)). split; [done|].
  unfold v. rewrite <- (pow_8 (zlen l)), swrap_mod by lia. rewrite pow_8 by lia.
  apply Z.mod_small, le_val_range.
Qed.

(** [s8], [s16], [s32] and [s64] leave the values of their range alone. *)
Lemma store_signed_fits l dest v s :
  int_size (zlen l) = true ->
  - 2 ^ (8 * zlen l - 1) <= v < 2 ^ (8 * zlen l - 1) -> v mod 256 ^ zlen l = le_val l ->
  store_signed (zlen l) dest v s = dst_bytes dest l s.
Proof.
  intros Hi Hr Hm. rewrite <- (dst_le l dest v s) by done. unfold store_signed, int_size in *.
  destruct (Z.eqb_spec (zlen l) 8) as [E|]; [rewrite E in *; by apply store_clamped_fits, swrap_small|].
  destruct (Z.eqb_spec (zlen l) 4) as [E|]; [rewrite E in *; by apply store_clamped_fits, swrap_small|].
  destruct (Z.eqb_spec (zlen l) 2) as [E|]; [rewrite E in *; by apply store_clamped_fits, swrap_small|].
  destruct (Z.eqb_spec (zlen l) 1) as [E|]; [rewrite E in *; by apply store_clamped_fits, swrap_small|done].
Qed.

Lemma int_size_range n : int_size n = true -> 1 <= n <= 8 /\ 2 ^ (8 * n - 1) <= 2 ^ 63.
Proof.
  unfold int_size. intros H. assert (1 <= n <= 8) as Hn by lia. split; [done|].
  apply Z.pow_le_mono_r; lia.
Qed.

Section Scalars.
Context (m : mem).

Lemma ld_spec a l s : load_bytes m a (zlen l) = Some l -> ld m a (zlen l) s = Done (le_val l) s.
Proof. intros H. unfold ld. by rewrite (load_uint_bytes _ _ _ _ H). Qed.

Lemma enc_int {A} (k : A -> E unit) (get : E A) a bs esc :
  (forall s, get s = Done a s) -> writes esc (k a) bs -> writes esc (let* v := get in k v) bs.
Proof. intros Hg. apply writes_ext. intros s. unfold bind. by rewrite Hg. Qed.

(** *** One lemma per field type: the bytes written, and the bytes stored *)
Lemma cross_uvarint f src l esc :
  load_bytes m src (zlen l) = Some l -> pf_data_size f = zlen l -> int_size (zlen l) = true ->
  exists bs, writes esc (pb_enc_uvarint m f src) bs /\ parses_into (pb_dec_uvarint f) bs l.
Proof.
  intros Hl Hf Hi. destruct (int_size_range _ Hi) as [Hn _]. pose proof (le_val_range l) as Hr.
  assert (256 ^ zlen l <= 2 ^ 64) as Hp.
  { change (2 ^ 64) with (256 ^ 8). apply Z.pow_le_mono_r; lia. }
  exists (varint_bytes (le_val l)). split.
  - unfold pb_enc_uvarint. rewrite Hf, Hi. eapply enc_int; [intros s; by apply ld_spec|].
    apply writes_varint. lia.
  - apply (parses_into_store pb_decode_varint (fun v dest => _) _ (le_val l));
      [apply parses_varint; lia|].
    intros dest s. cbn zeta. rewrite Hf, <- (dst_le l dest (le_val l) s) by (by apply Z.mod_small).
    unfold int_size in Hi.
    destruct (Z.eqb_spec (zlen l) 8) as [E|]; [rewrite E in *; by apply store_clamped_fits, Z.mod_small|].
    destruct (Z.eqb_spec (zlen l) 4) as [E|]; [rewrite E in *; by apply store_clamped_fits, Z.mod_small|].
    destruct (Z.eqb_spec (zlen l) 2) as [E|]; [rewrite E in *; by apply store_clamped_fits, Z.mod_small|].
    destruct (Z.eqb_spec (zlen l) 1) as [E|]; [rewrite E in *; by apply store_clamped_fits, Z.mod_small|done].
Qed.

Lemma ld_signed_spec a l s : load_bytes m a (zlen l) = Some l ->
  ld_signed m a (zlen l) s = Done (swrap (8 * zlen l) (le_val l)) s.
Proof. intros H. unfold ld_signed, bind. by rewrite (ld_spec a l). Qed.

Lemma cross_varint f src l esc :
  load_bytes m src (zlen l) = Some l -> pf_data_size f = zlen l -> int_size (zlen l) = true ->
  exists bs, writes esc (pb_enc_varint m f src) bs /\ parses_into (pb_dec_varint f) bs l.
Proof.
  intros Hl Hf Hi. destruct (int_size_range _ Hi) as [Hn Hp].
  destruct (swrap_le l Hn) as [Hr Hm]. set (v := swrap (8 * zlen l) (le_val l)) in *.
  exists (varint_bytes (u64 v)). split.
  - unfold pb_enc_varint. rewrite Hf, Hi. eapply enc_int; [intros s; by apply ld_signed_spec|].
    apply writes_varint, u64_range.
  - apply (parses_into_store pb_decode_varint (fun v dest => _) _ (u64 v));
      [apply parses_varint, u64_range|].
    intros dest s. cbn zeta. rewrite Hf.
    replace (if zlen l =? 8 then s64 (u64 v) else s32 (u64 v)) with v;
      [by apply store_signed_fits|].
    unfold s64, u64. destruct (Z.eqb_spec (zlen l) 8) as [E|E].
    + rewrite swrap_of_mod by lia. symmetry. apply swrap_small; [lia|]. rewrite E in Hr. exact Hr.
    + assert (2 ^ (8 * zlen l - 1) <= 2 ^ 31) as Hp'.
      { apply Z.pow_le_mono_r; [lia|]. unfold int_size in Hi. lia. }
      unfold s32. rewrite <- swrap_of_mod by lia.
      replace (v mod 2 ^ 64) with (v + - (v / 2 ^ 64) * 2 ^ 32 * 2 ^ 32) by (pose proof (Z.div_mod v (2 ^ 64)); lia).
      rewrite Z.mod_add, swrap_of_mod by lia. symmetry. apply swrap_small; lia.
Qed.

Lemma cross_svarint f src l esc :
  load_bytes m src (zlen l) = Some l -> pf_data_size f = zlen l -> int_size (zlen l) = true ->
  exists bs, writes esc (pb_enc_svarint m f src) bs /\ parses_into (pb_dec_svarint f) bs l.
Proof.
  intros Hl Hf Hi. destruct (int_size_range _ Hi) as [Hn Hp].
  destruct (swrap_le l Hn) as [Hr Hm]. set (v := swrap (8 * zlen l) (le_val l)) in *.
  exists (varint_bytes (zigzag v)). split.
  - unfold pb_enc_svarint. rewrite Hf, Hi. eapply enc_int; [intros s; by apply ld_signed_spec|].
    apply writes_svarint. lia.
  - apply (parses_into_store pb_decode_svarint (fun v dest => _) _ v); [apply parses_svarint; lia|].
    intros dest s. rewrite Hf. by apply store_signed_fits.
Qed.

Lemma cross_bool f src (b : bool) esc :
  load_bytes m src 1 = Some [zb (if b then 1 else 0)] ->
  exists bs, writes esc (pb_enc_bool m f src) bs /\ parses_into pb_dec_bool bs [zb (if b then 1 else 0)].
Proof.
  intros Hl. exists (varint_bytes (if b then 1 else 0)). split.
  - apply (enc_int (fun b : bool => pb_encode_varint (if b then 1 else 0)) _ b).
    + intros s. unfold safe_read_bool, bind.
      pose proof (ld_spec src [zb (if b then 1 else 0)] s Hl) as E.
      change (zlen [zb (if b then 1 else 0)]) with 1 in E. rewrite E. by destruct b.
    + apply writes_varint. destruct b; lia.
  - apply (parses_into_store pb_decode_varint32 (fun v dest => _) _ (if b then 1 else 0));
      [apply parses_varint32; destruct b; lia|].
    intros dest s. by destruct b.
Qed.

Lemma cross_fixed32 f src l esc :
  load_bytes m src 4 = Some l ->
  exists bs, writes esc (pb_enc_fixed32 m f src) bs /\ parses_into pb_dec_fixed32 bs l.
Proof.
  intros Hl. pose proof (load_bytes_len m src 4 l ltac:(lia) Hl) as Hz. exists l. split.
  - apply (enc_int pb_encode_fixed32 _ (le_val l)); [intros s; rewrite <- Hz in Hl |- *; by apply ld_spec|].
    replace l with (le_bytes 4 (le_val l)) at 2; [apply writes_fixed32|].
    replace 4%nat with (length l) by (unfold zlen in Hz; lia). apply le_bytes_val.
  - unfold pb_dec_fixed32, pb_decode_fixed32.
    apply (parses_into_store (pb_read_buf 4) (fun v dest => _) _ l);
      [rewrite <- Hz; apply parses_read_buf|].
    intros dest s. pose proof (fixed32_value (le_val l)) as Hv.
    replace (le_bytes 4 (le_val l)) with l in Hv
      by (replace 4%nat with (length l) by (unfold zlen in Hz; lia); by rewrite le_bytes_val).
    destruct (map bz l) as [|b0 [|b1 [|b2 [|b3 [|]]]]]; try done. cbn beta iota.
    rewrite Hv. pose proof (dst_le l dest (le_val l mod 2 ^ 32) s) as Hd. rewrite Hz in Hd. apply Hd.
    change (256 ^ 4) with (2 ^ 32). rewrite Z.mod_mod by lia.
    apply Z.mod_small. pose proof (le_val_range l) as Hr. by rewrite Hz in Hr.
Qed.

Lemma cross_fixed64 f src l esc :
  load_bytes m src 8 = Some l ->
  exists bs, writes esc (pb_enc_fixed64 m f src) bs /\ parses_into pb_dec_fixed64 bs l.
Proof.
  intros Hl. pose proof (load_bytes_len m src 8 l ltac:(lia) Hl) as Hz. exists l. split.
  - apply (enc_int pb_encode_fixed64 _ (le_val l)); [intros s; rewrite <- Hz in Hl |- *; by apply ld_spec|].
    replace l with (le_bytes 8 (le_val l)) at 2; [apply writes_fixed64|].
    replace 8%nat with (length l) by (unfold zlen in Hz; lia). apply le_bytes_val.
  - unfold pb_dec_fixed64, pb_decode_fixed64.
    apply (parses_into_store (pb_read_buf 8) (fun v dest => _) _ l);
      [rewrite <- Hz; apply parses_read_buf|].
    intros dest s. pose proof (fixed64_value (le_val l)) as Hv.
    replace (le_bytes 8 (le_val l)) with l in Hv
      by (replace 8%nat with (length l) by (unfold zlen in Hz; lia); by rewrite le_bytes_val).
    destruct (map bz l) as [|b0 [|b1 [|b2 [|b3 [|b4 [|b5 [|b6 [|b7 [|]]]]]]]]]; try done. cbn beta iota.
    rewrite Hv. pose proof (dst_le l dest (le_val l mod 2 ^ 64) s) as Hd. rewrite Hz in Hd. apply Hd.
    change (256 ^ 8) with (2 ^ 64). rewrite Z.mod_mod by lia.
    apply Z.mod_small. pose proof (le_val_range l) as Hr. by rewrite Hz in Hr.
Qed.

(** *** Strings and bytes, stored in the structure *)
Lemma cross_bytes `{Allocator} f src d esc :
  PB_ATYPE (pf_type f) = PB_ATYPE_STATIC -> pf_data_size f < 2 ^ 32 -> src <> 0 ->
  zlen d + 4 <= pf_data_size f ->
  load_bytes m src (4 + zlen d) = Some (le_bytes 4 (zlen d) ++ d) ->
  exists bs, writes esc (pb_enc_bytes m f src) bs /\
    parses_into (pb_dec_bytes f) bs (le_bytes 4 (zlen d) ++ d).
Proof.
  intros Hat Hds Hsrc Hd Hl. pose proof (zlen_nonneg d) as Hd0.
  assert (zlen (le_bytes 4 (zlen d)) = 4) as H4 by (unfold zlen; rewrite length_le_bytes; done).
  rewrite <- H4 in Hl at 1. apply load_bytes_app in Hl as [Hl1 Hl2]. rewrite H4 in Hl2.
  assert (le_val (le_bytes 4 (zlen d)) = zlen d) as Hv
    by (rewrite le_val_bytes; apply Z.mod_small; change (256 ^ Z.of_nat 4) with (2 ^ 32); lia).
  exists (varint_bytes (zlen d) ++ d). split.
  - unfold pb_enc_bytes. destruct (Z.eqb_spec src 0); [done|].
    eapply writes_ext; [|apply writes_string; lia].
    intros s. unfold bind. rewrite <- H4 at 1. rewrite ld_spec, Hv by done.
    unfold pb_bytes_offset. rewrite Hat, (u64_small (pf_data_size f - 4)) by lia.
    rewrite (proj2 (Z.ltb_ge _ _)) by lia. cbn [andb Z.eqb]. rewrite Hl2. by destruct (PB_ATYPE_STATIC =? _).
  - intros dest rest left m0 m' fx H1 H2 Hst. rewrite zlen_app in *.
    apply store_bytes_app in Hst as (m1 & Hst1 & Hst2). rewrite H4 in Hst2.
    unfold pb_dec_bytes, bind at 1. rewrite <- app_assoc, parses_varint32 by (rewrite ?zlen_app; lia).
    unfold PB_SIZE_MAX, PB_BYTES_ARRAY_T_ALLOCSIZE, pb_bytes_offset. rewrite u64_small by lia.
    rewrite !(proj2 (Z.ltb_ge _ _)) by lia. rewrite Hat. change (PB_ATYPE_STATIC =? PB_ATYPE_POINTER) with false.
    cbn iota. unfold bind at 1, ret. unfold bind at 1, dst.
    rewrite (dst_bytes_spec _ _ _ _ _ _ _ Hst1). unfold bind. rewrite parses_read_buf by lia.
    rewrite (dst_bytes_spec _ _ _ _ _ _ _ Hst2). do 2 f_equal. lia.
Qed.

Lemma load_map_size n : forall b a l, load_map b a n = Some l -> (n <= size b)%nat.
Proof.
  induction n as [|n IH]; intros b a l; cbn [load_map]; [lia|].
  destruct (b !! a) as [x|] eqn:E; [|done]. destruct (load_map b (a + 1) n) as [k|] eqn:E1; [|done].
  intros _. rewrite <- (insert_delete_id b a x E).
  rewrite map_size_insert_None by apply lookup_delete_eq. apply le_n_S, (IH _ (a + 1) k).
  rewrite <- E1. assert (forall j i, a < i -> load_map (delete a b) i j = load_map b i j) as Hd.
  { induction j as [|j IHj]; intros i Hi; cbn [load_map]; [done|].
    rewrite lookup_delete_ne by lia. by rewrite IHj by lia. }
  apply Hd. lia.
Qed.

Lemma strnlen_loop_spec d : forall fuel p size max_size s,
  (length d < fuel)%nat -> ~ In (zb 0) d -> size + zlen d < max_size ->
  load_bytes m p (zlen d + 1) = Some (d ++ [zb 0]) ->
  strnlen_loop m fuel p size max_size s = Done (size + zlen d) s.
Proof.
  induction d as [|c d IH]; intros fuel p size max_size s Hf Hin Hm Hl;
    (destruct fuel as [|fuel]; [cbn in Hf; lia|]); cbn [strnlen_loop].
  - change (zlen []) with 0 in *. rewrite (proj2 (Z.ltb_lt _ _)) by lia. unfold bind.
    pose proof (ld_spec p [zb 0] s Hl) as E. change (zlen [zb 0]) with 1 in E. rewrite E.
    change (le_val [zb 0]) with 0. cbn. by rewrite Z.add_0_r.
  - rewrite zlen_cons in *. pose proof (zlen_nonneg d). rewrite (proj2 (Z.ltb_lt _ _)) by lia.
    pose proof (load_bytes_app m p [c] (d ++ [zb 0])) as Ha. rewrite zlen_app in Ha.
    change (zlen [c]) with 1 in Ha. change (zlen [zb 0]) with 1 in Ha. cbn [app] in Ha, Hl.
    destruct Ha as [Hc Hr]; [rewrite <- Hl; f_equal; lia|].
    pose proof (ld_spec p [c] s Hc) as E1. change (zlen [c]) with 1 in E1. unfold bind. rewrite E1.
    change (le_val [c]) with (bz c + 256 * 0). destruct (Z.eqb_spec (bz c + 256 * 0) 0) as [E|E].
    { exfalso. apply Hin. left. apply bz_inj. change (bz (zb 0)) with 0. lia. }
    rewrite IH; [f_equal; lia|cbn in Hf; lia|intros Hx; apply Hin; by right|lia|done].
Qed.

Lemma cross_string `{Allocator} f src d esc :
  PB_ATYPE (pf_type f) = PB_ATYPE_STATIC -> pf_data_size f < 2 ^ 32 -> src <> 0 ->
  zlen d + 1 <= pf_data_size f -> ~ In (zb 0) d ->
  load_bytes m src (zlen d + 1) = Some (d ++ [zb 0]) ->
  exists bs, writes esc (pb_enc_string m f src) bs /\ parses_into (pb_dec_string f) bs (d ++ [zb 0]).
Proof.
  intros Hat Hds Hsrc Hd Hin Hl. pose proof (zlen_nonneg d) as Hd0.
  pose proof (load_bytes_app m src d [zb 0] Hl) as [Hl1 _].
  exists (varint_bytes (zlen d) ++ d). split.
  - unfold pb_enc_string. rewrite Hat. change (PB_ATYPE_STATIC =? PB_ATYPE_POINTER) with false.
    cbn iota zeta. destruct (Z.eqb_spec src 0); [done|].
    eapply writes_ext; [|apply writes_string; lia].
    intros s. unfold bind. rewrite (strnlen_loop_spec d); [|  |done|lia|done].
    + rewrite Z.add_0_l. by rewrite Hl1.
    + pose proof Hl as Hs. unfold load_bytes in Hs. apply load_map_size in Hs.
      unfold zlen in Hs. lia.
  - intros dest rest left m0 m' fx H1 H2 Hst. rewrite zlen_app in *.
    apply store_bytes_app in Hst as (m1 & Hst1 & Hst2).
    unfold pb_dec_string, bind at 1. rewrite <- app_assoc, parses_varint32 by (rewrite ?zlen_app; lia).
    cbn zeta. rewrite u32_small by lia. rewrite !(proj2 (Z.ltb_ge _ _)) by lia.
    rewrite Hat. change (PB_ATYPE_STATIC =? PB_ATYPE_POINTER) with false.
    cbn iota. unfold bind at 1, ret. unfold bind at 1, attempt. unfold bind at 1.
    rewrite parses_read_buf by lia. rewrite (dst_bytes_spec _ _ _ _ _ _ _ Hst1).
    unfold bind, dst. change (le_bytes (Z.to_nat 1) 0) with [zb 0].
    rewrite (dst_bytes_spec _ _ _ _ _ _ _ Hst2). do 2 f_equal. lia.
Qed.

Lemma cross_fixed_length f src l esc :
  pf_data_size f = zlen l -> zlen l < 2 ^ 32 -> load_bytes m src (zlen l) = Some l ->
  exists bs, writes esc (pb_enc_fixed_length_bytes m f src) bs /\
    parses_into (pb_dec_fixed_length_bytes f) bs l.
Proof.
  intros Hds Hl32 Hl. pose proof (zlen_nonneg l) as Hl0. exists (varint_bytes (zlen l) ++ l). split.
  - unfold pb_enc_fixed_length_bytes. rewrite Hds, Hl. apply writes_string. lia.
  - intros dest rest left m0 m' fx H1 H2 Hst. rewrite zlen_app in *.
    unfold pb_dec_fixed_length_bytes, bind at 1.
    rewrite <- app_assoc, parses_varint32 by (rewrite ?zlen_app; lia). rewrite Hds.
    unfold PB_SIZE_MAX. rewrite (proj2 (Z.ltb_ge _ _)) by lia.
    destruct (Z.eqb_spec (zlen l) 0) as [E|E].
    + destruct l; [|rewrite zlen_cons in E; pose proof (zlen_nonneg l); lia].
      unfold memset0. change (Z.to_nat (zlen [])) with 0%nat. cbn [replicate app].
      rewrite (dst_bytes_spec dest [] rest _ m0 m' fx Hst). by rewrite E, Z.add_0_r.
    + rewrite Z.eqb_refl. cbn [negb]. unfold bind. rewrite parses_read_buf by lia.
      rewrite (dst_bytes_spec _ _ _ _ _ _ _ Hst). do 2 f_equal. lia.
Qed.
End Scalars.

(** ** The value of a static field, by its type *)

(** The bytes [l] at the address of a static field are a value of its type. *)
Definition static_value (f : pb_field) (l : list byte) : Prop :=
  let ltype := PB_LTYPE (pf_type f) in
  let n := pf_data_size f in
  (ltype = PB_LTYPE_BOOL /\ exists b : bool, l = [zb (if b then 1 else 0)]) \/
  (ltype = PB_LTYPE_VARINT /\ n = zlen l /\ int_size n = true) \/
  (ltype = PB_LTYPE_UVARINT /\ n = zlen l /\ int_size n = true) \/
  (ltype = PB_LTYPE_SVARINT /\ n = zlen l /\ int_size n = true) \/
  (ltype = PB_LTYPE_FIXED32 /\ zlen l = 4) \/
  (ltype = PB_LTYPE_FIXED64 /\ zlen l = 8) \/
  (ltype = PB_LTYPE_BYTES /\ exists d, l = le_bytes 4 (zlen d) ++ d /\ zlen l <= n) \/
  (ltype = PB_LTYPE_STRING /\ exists d, l = d ++ [zb 0] /\ ~ In (zb 0) d /\ zlen l <= n) \/
  (ltype = PB_LTYPE_FIXED_LENGTH_BYTES /\ n = zlen l).

Lemma static_value_crosses `{Descriptors} `{Allocator} `{DecCallbacks} m erec drec fuel f src l :
  PB_ATYPE (pf_type f) = PB_ATYPE_STATIC -> pf_data_size f < 2 ^ 32 -> src <> 0 ->
  static_value f l -> load_bytes m src (zlen l) = Some l ->
  exists bs, writes false (PB_ENCODERS m erec (PB_LTYPE (pf_type f)) f src) bs /\
    parses_into (PB_DECODERS drec fuel (PB_LTYPE (pf_type f)) f) bs l.
Proof.
  intros Hat Hds Hsrc Hv Hl. unfold static_value in Hv.
  destruct Hv as [[-> [b ->]]|[[-> [Hn Hi]]|[[-> [Hn Hi]]|[[-> [Hn Hi]]|[[-> Hn]|[[-> Hn]|[[-> (d & -> & Hn)]|[[-> (d & -> & Hin & Hn)]|[-> Hn]]]]]]]]].
  - exact (cross_bool m f src b false Hl).
  - rewrite Hn in Hi. exact (cross_varint m f src l false Hl Hn Hi).
  - rewrite Hn in Hi. exact (cross_uvarint m f src l false Hl Hn Hi).
  - rewrite Hn in Hi. exact (cross_svarint m f src l false Hl Hn Hi).
  - rewrite Hn in Hl. exact (cross_fixed32 m f src l false Hl).
  - rewrite Hn in Hl. exact (cross_fixed64 m f src l false Hl).
  - rewrite zlen_app in *. assert (zlen (le_bytes 4 (zlen d)) = 4) as H4 by (unfold zlen; by rewrite length_le_bytes).
    rewrite H4 in *. apply (cross_bytes m f src d false); auto; lia.
  - rewrite zlen_app in *. change (zlen [zb 0]) with 1 in *.
    apply (cross_string m f src d false); auto; lia.
  - apply (cross_fixed_length m f src l false); auto; lia.
Qed.
