(* ===== verification/PbTheorems.v ===== *)
(** nanopb: the properties of the encoder and of the decoder, with their
    witnesses on the sample message type. *)
From S2P Require Import Prelude.
From S2P Require Import PbBase.
From S2P Require Import PbWire.
From S2P Require Import PbCommon.
From S2P Require Import PbEncode.
From S2P Require Import PbEncodeProofs.
From S2P Require Import PbDecode.
From S2P Require Import PbDecodeProofs.
From S2P Require Import PbDecodeSafety.
From S2P Require Import PbFields.
From S2P Require Import PbSample.

(** ** The encoder *)

(** The outcome of an encoder of [bs] on a memory buffer of [size] bytes: the
    bytes in the buffer when they fit, an error when they do not; or, when
    the message points to unmapped memory, the fault of reading it. *)
Definition buffer_outcome (bs : list byte) (size : Z) (o : outcome pb_ostream unit) : Prop :=
  o = Undef UbMem \/
  if zlen bs <=? size
  then o = Done tt (mk_ostream cb_buf_write bs (size - zlen bs) size (zlen bs) None)
  else exists s, o = Fail s.

Lemma buffer_writes e bs size :
  writes true e bs -> 0 <= size < 2 ^ 64 -> zlen bs < 2 ^ 64 ->
  buffer_outcome bs size (e (pb_ostream_from_buffer size size)).
Proof.
  intros [He _] Hs Hbs. set (s := pb_ostream_from_buffer size size).
  assert (os_ok s) as Hok by (constructor; unfold s; cbn; auto; lia).
  assert (os_bytes_written s + zlen bs < 2 ^ 64) as Hw by (unfold s; cbn; lia).
  destruct (He s Hok Hw) as [[_ He']|He']; [by left|].
  right. change (os_fits (zlen bs) s) with (0 + zlen bs <=? size) in He'.
  rewrite Z.add_0_l in He'. destruct (zlen bs <=? size); [|done].
  rewrite He'. unfold s, os_push. cbn [os_callback pb_ostream_from_buffer os_state os_room os_max_size
    os_bytes_written os_errmsg app]. by rewrite Z.add_0_l.
Qed.

Section Encoder.
Context `{Descriptors} `{!TypedDescriptors} `{EncCallbacks} (m : mem).
(** The application's callbacks write the same bytes at each call. *)
Context (callbacks_regular : forall p f a, regular (enc_callback p f a m)).
Context (extensions_regular : forall p e, regular (enc_extension p e m)).

Lemma sized_message fuel fields src n :
  Forall field_typed fields ->
  pb_get_encoded_size m fuel fields src = Done n tt ->
  exists bs, n = u64 (zlen bs) /\ writes true (pb_encode m fuel fields src) bs.
Proof.
  intros Hf Hn. unfold pb_get_encoded_size in Hn.
  destruct (pb_encode m fuel fields src PB_OSTREAM_SIZING) as [[] s| | |] eqn:E; try done.
  injection Hn as <-.
  destruct (regular_pb_encode m callbacks_regular extensions_regular fuel fields src Hf
              PB_OSTREAM_SIZING s eq_refl eq_refl ltac:(cbn; lia) E) as [bs Hbs].
  exists bs. split; [|done].
  rewrite (writes_sizes _ _ _ Hbs) in E by (cbn; auto; lia). by injection E as <-.
Qed.


(** a delimited message is its length as a varint, then the message,
    and the null-terminated form is the message and a zero byte. *)
Theorem delimited_format fuel fields src n :
  Forall field_typed fields ->
  pb_get_encoded_size m fuel fields src = Done n tt ->
  exists bs, n = u64 (zlen bs) /\
    forall size, 0 <= size < 2 ^ 64 -> zlen bs < 2 ^ 64 - 10 ->
    buffer_outcome bs size
      (pb_encode m fuel fields src (pb_ostream_from_buffer size size)) /\
    buffer_outcome (varint_bytes (zlen bs) ++ bs) size
      (pb_encode_delimited m fuel fields src (pb_ostream_from_buffer size size)) /\
    buffer_outcome (bs ++ [zb 0]) size
      (pb_encode_nullterminated m fuel fields src (pb_ostream_from_buffer size size)).
Proof.
  intros Hf Hn. destruct (sized_message fuel fields src n Hf Hn) as (bs & Hz & Hbs).
  exists bs. split; [done|]. intros size Hs Hlt. pose proof (zlen_nonneg bs).
  pose proof (varint_bytes_len (zlen bs)).
  split; [apply buffer_writes; auto; lia|split].
  - apply buffer_writes; [|done|rewrite zlen_app; lia].
    rewrite <- (u64_small (zlen bs)) by lia. by apply writes_submessage.
  - apply buffer_writes; [|done|rewrite zlen_app; change (zlen [zb 0]) with 1; lia].
    apply writes_bind; [done|]. apply (writes_pb_write true [zb 0]).
Qed.
End Encoder.

Lemma sample_enc_regular m :
  (forall p f a, regular (enc_callback p f a m)) /\ (forall p e, regular (enc_extension p e m)).
Proof.
  split; intros.
  - apply (regular_writes _ [zb 64; zb 7]), (writes_pb_write true [zb 64; zb 7]).
  - apply (regular_writes _ []), writes_ret.
Qed.


Lemma delimited_format_witness :
  exists bs, 35 = u64 (zlen bs) /\
    forall size, 0 <= size < 2 ^ 64 -> zlen bs < 2 ^ 64 - 10 ->
    buffer_outcome bs size
      (pb_encode shape_mem 4 shape_fields 1000 (pb_ostream_from_buffer size size)) /\
    buffer_outcome (varint_bytes (zlen bs) ++ bs) size
      (pb_encode_delimited shape_mem 4 shape_fields 1000 (pb_ostream_from_buffer size size)) /\
    buffer_outcome (bs ++ [zb 0]) size
      (pb_encode_nullterminated shape_mem 4 shape_fields 1000
         (pb_ostream_from_buffer size size)).
Proof.
  apply (delimited_format shape_mem (proj1 (sample_enc_regular _))
           (proj2 (sample_enc_regular _)) 4 shape_fields 1000 35).
  - apply (sample_typed 2).
  - apply shape_size.
Defined.

(** ** The wire format readers undo the writers *)

(** every 64-bit value makes the round trip through [pb_encode_varint] and
    [pb_decode_varint], in at most ten bytes, and the 32-bit ones also through
    [pb_decode_varint32]; the reader consumes exactly what was written. *)
Theorem varint_roundtrip v :
  0 <= v < 2 ^ 64 ->
  exists bs, 1 <= zlen bs <= 10 /\
    writes false (pb_encode_varint v) bs /\ parses pb_decode_varint bs v /\
    (v < 2 ^ 32 -> parses pb_decode_varint32 bs v).
Proof.
  intros Hv. exists (varint_bytes v). split; [apply varint_bytes_len|].
  split; [by apply writes_varint|]. split; [by apply parses_varint|].
  intros H. apply parses_varint32. lia.
Qed.

Lemma varint_roundtrip_witness :
  exists bs, 1 <= zlen bs <= 10 /\
    writes false (pb_encode_varint 300) bs /\ parses pb_decode_varint bs 300 /\
    (300 < 2 ^ 32 -> parses pb_decode_varint32 bs 300).
Proof. apply (varint_roundtrip 300). lia. Defined.

(** Signed values make the round trip through the zigzag encoding, and the
    encoding of a value of small magnitude is short. *)
Theorem svarint_roundtrip v :
  - 2 ^ 63 <= v < 2 ^ 63 ->
  exists bs, writes false (pb_encode_svarint v) bs /\ parses pb_decode_svarint bs v /\
    (- 64 <= v < 64 -> zlen bs = 1).
Proof.
  intros Hv. exists (varint_bytes (zigzag v)). split; [by apply writes_svarint|].
  split; [by apply parses_svarint|]. intros Hs. unfold varint_bytes.
  rewrite varint_digits_small; [done|]. unfold zigzag. destruct (Z.ltb_spec v 0); lia.
Qed.

Lemma svarint_roundtrip_witness :
  exists bs, writes false (pb_encode_svarint (-3)) bs /\ parses pb_decode_svarint bs (-3) /\
    (- 64 <= -3 < 64 -> zlen bs = 1).
Proof. apply (svarint_roundtrip (-3)). lia. Defined.

(** the tag that [pb_encode_tag] writes is split by [pb_decode_tag] into the
    same wire type and field number, for every field number that protobuf
    allows. *)
Theorem tag_roundtrip wiretype number :
  0 <= wiretype < 8 -> 1 <= number < 2 ^ 29 ->
  exists bs, writes false (pb_encode_tag wiretype number) bs /\
    parses pb_decode_tag bs (inr (wiretype, number)).
Proof.
  intros Hw Hn. exists (tag_bytes wiretype number). split; [apply writes_tag; lia|].
  apply parses_tag; lia.
Qed.

Lemma tag_roundtrip_witness :
  exists bs, writes false (pb_encode_tag 2 5) bs /\ parses pb_decode_tag bs (inr (2, 5)).
Proof. apply (tag_roundtrip 2 5); lia. Defined.

(** C35: [pb_skip_field] skips exactly the field that was written, whatever its
    wire type, and leaves the memory alone. *)
Theorem skip_field_exact v l :
  0 <= v < 2 ^ 64 -> zlen l < 2 ^ 32 ->
  parses (pb_skip_field PB_WT_VARINT) (varint_bytes v) tt /\
  parses (pb_skip_field PB_WT_64BIT) (le_bytes 8 v) tt /\
  parses (pb_skip_field PB_WT_32BIT) (le_bytes 4 v) tt /\
  exists bs, writes false (pb_encode_string (Some l) (zlen l)) bs /\
    parses (pb_skip_field PB_WT_STRING) bs tt.
Proof.
  intros Hv Hl. split; [by apply parses_skip_varint|].
  split; [apply (parses_read_null (le_bytes 8 v))|].
  split; [apply (parses_read_null (le_bytes 4 v))|].
  exists (varint_bytes (zlen l) ++ l). split; [apply writes_string; lia|].
  by apply parses_skip_string.
Qed.

Lemma skip_field_exact_witness :
  parses (pb_skip_field PB_WT_VARINT) (varint_bytes 300) tt /\
  parses (pb_skip_field PB_WT_64BIT) (le_bytes 8 300) tt /\
  parses (pb_skip_field PB_WT_32BIT) (le_bytes 4 300) tt /\
  exists bs, writes false (pb_encode_string (Some [zb 72; zb 105]) (zlen [zb 72; zb 105])) bs /\
    parses (pb_skip_field PB_WT_STRING) bs tt.
Proof. apply (skip_field_exact 300 [zb 72; zb 105]); [lia|reflexivity]. Defined.

(** ** Safety of the decoder *)

(** A stream that has moved forward over [input], not past its first [n] bytes. *)
Definition within (input : list byte) (n : Z) (s : pb_istream) : Prop :=
  exists k, is_state s = drop k input /\ 0 <= is_bytes_left s /\
    Z.of_nat k + is_bytes_left s <= n.

Lemma reach_within input n s m fx :
  0 <= n <= zlen input ->
  reach (pb_istream_from_buffer input n) (mk_dstate s m fx) -> within input n s.
Proof. intros Hn [k [_ Hs Hb Hl]]. exists k. cbn in *. split; [done|]. lia. Qed.

(** The outcome of a decoder on the first [n] bytes of [input]. *)
Definition bounded_outcome {A} (input : list byte) (n : Z) (o : outcome dstate A) : Prop :=
  match o with
  | Done _ t | Fail t => within input n (ds_stream t)
  | Undef u => u <> UbRead
  | OutOfFuel => True
  end.

(** It returns, with success or without, and the stream stands inside of them. *)
Definition returns_within {A} (input : list byte) (n : Z) (o : outcome dstate A) : Prop :=
  match o with
  | Done _ t | Fail t => within input n (ds_stream t)
  | Undef _ | OutOfFuel => False
  end.

Lemma safe_outcome {A} Fu (op : D A) input n m fx :
  safe Fu op -> 0 <= n <= zlen input ->
  match op (mk_dstate (pb_istream_from_buffer input n) m fx) with
  | Done _ t | Fail t => within input n (ds_stream t)
  | Undef u => Fu /\ u <> UbRead
  | OutOfFuel => Fu
  end.
Proof.
  intros H Hn. set (s := mk_dstate _ _ _).
  assert (stream_ok (ds_stream s)) as Hok by (constructor; [done|exact Hn]).
  specialize (H _ Hok s (reach_refl s Hok)).
  destruct (op s) as [a [st m' f']|[st m' f']|u|]; try done; by eapply reach_within.
Qed.

Lemma safe_bounded {A} (op : D A) input n m fx :
  safe True op -> 0 <= n <= zlen input ->
  bounded_outcome input n (op (mk_dstate (pb_istream_from_buffer input n) m fx)).
Proof.
  intros H Hn. pose proof (safe_outcome True op input n m fx H Hn) as Ho. unfold bounded_outcome.
  destruct (op _); try done. apply Ho.
Qed.

Lemma safe_returns {A} (op : D A) input n m fx :
  safe False op -> 0 <= n <= zlen input ->
  returns_within input n (op (mk_dstate (pb_istream_from_buffer input n) m fx)).
Proof.
  intros H Hn. pose proof (safe_outcome False op input n m fx H Hn) as Ho. unfold returns_within.
  destruct (op _); try done. by destruct Ho.
Qed.

(** C2: no input makes the decoder read outside of the buffer that it was given,
    whatever the descriptors are; when it returns, successfully or not, the
    stream stands inside of the buffer and [bytes_left] is not more than what
    is left of it. *)
Theorem decode_in_bounds `{Descriptors} `{Allocator} `{DecCallbacks} fuel fields dest input n m fx :
  (forall fn f arg, safe True (dec_callback fn f arg)) ->
  (forall fn e tag wt, safe True (dec_extension fn e tag wt)) ->
  0 <= n <= zlen input ->
  bounded_outcome input n
    (pb_decode fuel fields dest (mk_dstate (pb_istream_from_buffer input n) m fx)) /\
  bounded_outcome input n
    (pb_decode_delimited fuel fields dest (mk_dstate (pb_istream_from_buffer input n) m fx)).
Proof.
  intros Hc He Hn. pose proof (safe_decode Hc He fuel fields dest) as Hs.
  split.
  - exact (safe_bounded _ input n m fx Hs Hn).
  - exact (safe_bounded _ input n m fx (safe_delimited _ Hs) Hn).
Qed.

Lemma sample_dec_safe :
  (forall fn f arg, safe True (dec_callback fn f arg)) /\
  (forall fn e tag wt, safe True (dec_extension fn e tag wt)).
Proof.
  split; intros; cbn; [|apply safe_skip_field'].
  apply safe_bind; [apply safe_varint|]. intros v. apply safe_ret.
Qed.

Lemma decode_in_bounds_witness :
  let input := [zb 18; zb 200; zb 1; zb 72] in
  bounded_outcome input 3
    (pb_decode 4 shape_fields 2000 (mk_dstate (pb_istream_from_buffer input 3) (blank 2000 44) 0)) /\
  bounded_outcome input 3
    (pb_decode_delimited 4 shape_fields 2000
       (mk_dstate (pb_istream_from_buffer input 3) (blank 2000 44) 0)).
Proof.
  intros input. apply (decode_in_bounds 4 shape_fields 2000 input 3 (blank 2000 44) 0).
  - apply sample_dec_safe.
  - apply sample_dec_safe.
  - vm_compute. split; discriminate.
Defined.

(** C36: the wire format readers and [pb_skip_field] return on every input, with
    success or without: none of them has undefined behaviour of any kind, their
    loops read a byte per turn, and they never leave the buffer. *)
Theorem readers_return input n m fx wire_type :
  0 <= n <= zlen input ->
  let s := mk_dstate (pb_istream_from_buffer input n) m fx in
  returns_within input n (pb_decode_varint s) /\
  returns_within input n (pb_decode_varint32 s) /\
  returns_within input n (pb_decode_tag s) /\
  returns_within input n (pb_decode_svarint s) /\
  returns_within input n (read_raw_value wire_type 10 s) /\
  returns_within input n (pb_skip_field wire_type s).
Proof.
  intros Hn s. repeat apply conj; apply safe_returns;
    auto using safe_varint, safe_varint32, safe_tag, safe_svarint, safe_skip_field;
    by apply safe_raw_value.
Qed.

Lemma readers_return_witness :
  let s := mk_dstate (pb_istream_from_buffer (replicate 12 (zb 128)) 12) (blank 0 0) 0 in
  let input := replicate 12 (zb 128) in
  returns_within input 12 (pb_decode_varint s) /\
  returns_within input 12 (pb_decode_varint32 s) /\
  returns_within input 12 (pb_decode_tag s) /\
  returns_within input 12 (pb_decode_svarint s) /\
  returns_within input 12 (read_raw_value 0 10 s) /\
  returns_within input 12 (pb_skip_field 0 s).
Proof.
  apply (readers_return (replicate 12 (zb 128)) 12 (blank 0 0) 0 0).
  vm_compute. split; discriminate.
Defined.

(** ** One field through the wire *)

(** C8: a static field of any type but a message (BOOL, the integers at each
    width, the fixed-width ones, BYTES, STRING, FIXED_LENGTH_BYTES) crosses the
    wire unchanged: the encoder of its type, reading a value in memory, writes
    one byte string, and the decoder of the type, reading this string, stores
    the very bytes of the value at its destination, and nothing else. *)
Theorem static_field_roundtrip `{Descriptors} `{Allocator} `{DecCallbacks} m erec drec fuel f src l :
  PB_ATYPE (pf_type f) = PB_ATYPE_STATIC -> pf_data_size f < 2 ^ 32 -> src <> 0 ->
  static_value f l -> load_bytes m src (zlen l) = Some l ->
  exists bs, writes false (PB_ENCODERS m erec (PB_LTYPE (pf_type f)) f src) bs /\
    parses_into (PB_DECODERS drec fuel (PB_LTYPE (pf_type f)) f) bs l.
Proof. apply static_value_crosses. Qed.

(** The string "Hi" of the sample. *)
Lemma static_field_roundtrip_witness :
  exists bs, writes false
      (PB_ENCODERS shape_mem (fun _ _ => ret tt) PB_LTYPE_STRING
         (mk_field 2 (PB_HTYPE_OPTIONAL + PB_LTYPE_STRING) 1 (-1) 8 0 0) 1005) bs /\
    parses_into
      (PB_DECODERS (fun _ _ => ret tt) 3 PB_LTYPE_STRING
         (mk_field 2 (PB_HTYPE_OPTIONAL + PB_LTYPE_STRING) 1 (-1) 8 0 0)) bs
      (map zb [72; 105; 0]).
Proof.
  apply (static_field_roundtrip shape_mem (fun _ _ => ret tt) (fun _ _ => ret tt) 3
           (mk_field 2 (PB_HTYPE_OPTIONAL + PB_LTYPE_STRING) 1 (-1) 8 0 0) 1005 (map zb [72; 105; 0]));
    try reflexivity; try lia.
  do 7 right. left. split; [reflexivity|]. exists (map zb [72; 105]).
  split; [reflexivity|]. split; [|vm_compute; discriminate].
  intros [H|[H|[]]]; discriminate H.
Defined.

(** an unsigned field of one, two, four or eight bytes takes the value that
    is on the wire when it fits in them, and makes the decoder fail with
    "integer too large" when it does not. *)
Theorem uvarint_narrowing f v dest l m' rest left m fx :
  int_size (pf_data_size f) = true -> 0 <= v < 2 ^ 64 ->
  l = le_bytes (Z.to_nat (pf_data_size f)) v -> store_bytes m dest l = Some m' ->
  zlen (varint_bytes v) <= left -> left <= zlen (varint_bytes v) + zlen rest ->
  pb_dec_uvarint f dest (buf_state (varint_bytes v ++ rest) left m fx) =
  if v <? 256 ^ pf_data_size f
  then Done tt (buf_state rest (left - zlen (varint_bytes v)) m' fx)
  else Fail (mk_dstate (mk_istream cb_buf_read rest (left - zlen (varint_bytes v))
                          (Some "integer too large"%string)) m' fx).
Proof.
  intros Hi Hv -> Hst H1 H2. unfold pb_dec_uvarint, bind at 1. rewrite parses_varint by done. cbn zeta.
  assert (forall n, 0 <= n -> n = pf_data_size f ->
    store_clamped (fun v => v mod 256 ^ n) n dest v
      (buf_state rest (left - zlen (varint_bytes v)) m fx) =
    if v <? 256 ^ n then Done tt (buf_state rest (left - zlen (varint_bytes v)) m' fx)
    else Fail (mk_dstate (mk_istream cb_buf_read rest (left - zlen (varint_bytes v))
                            (Some "integer too large"%string)) m' fx)) as Hclamp.
  { intros n Hn0 ->. set (n := pf_data_size f) in *. unfold store_clamped, bind, dst.
    replace (le_bytes (Z.to_nat n) (v mod 256 ^ n)) with (le_bytes (Z.to_nat n) v)
      by (rewrite <- (le_bytes_mod (Z.to_nat n) v), Z2Nat.id by lia; done).
    rewrite (dst_bytes_spec _ _ _ _ _ _ _ Hst). destruct (Z.ltb_spec v (256 ^ n)).
    - by rewrite Z.mod_small, Z.eqb_refl by lia.
    - destruct (Z.eqb_spec (v mod 256 ^ n) v) as [E|E]; [|done].
      pose proof (Z.mod_pos_bound v (256 ^ n) ltac:(lia)). lia. }
  unfold int_size in Hi.
  destruct (Z.eqb_spec (pf_data_size f) 8) as [E|]; [rewrite E in *; by apply (Hclamp 8)|].
  destruct (Z.eqb_spec (pf_data_size f) 4) as [E|]; [rewrite E in *; by apply (Hclamp 4)|].
  destruct (Z.eqb_spec (pf_data_size f) 2) as [E|]; [rewrite E in *; by apply (Hclamp 2)|].
  destruct (Z.eqb_spec (pf_data_size f) 1) as [E|]; [rewrite E in *; by apply (Hclamp 1)|done].
Qed.

Lemma uvarint_narrowing_witness :
  pb_dec_uvarint (mk_field 1 PB_LTYPE_UVARINT 0 0 1 0 0) 2000
    (buf_state (varint_bytes 300) 2 (blank 2000 4) 0)
  = Fail (mk_dstate (mk_istream cb_buf_read [] 0 (Some "integer too large"%string))
            (mk_mem (map_block ∅ 2000 (map zb [44; 0; 0; 0])) ∅) 0).
Proof.
  rewrite <- (app_nil_r (varint_bytes 300)).
  etransitivity;
    [apply (uvarint_narrowing (mk_field 1 PB_LTYPE_UVARINT 0 0 1 0 0) 300 2000 [zb 44]
              (mk_mem (map_block ∅ 2000 (map zb [44; 0; 0; 0])) ∅) [] 2 (blank 2000 4) 0)|];
    try reflexivity; vm_compute; done || (split; discriminate).
Defined.

(** ** The field iterator *)

(** on a well-formed descriptor array, [pb_field_iter_find] finds a field
    with the tag wherever the iterator stands, and leaves the iterator at it
    with the pointers that a walk from the start of the array computes; it
    returns false only when no field has the tag, and is then back where it
    was. *)
Theorem iterator_find_exact l n dest i it tag :
  wf_fields l n -> dest <> 0 -> (i < n)%nat -> iter_on l dest i it ->
  match pb_field_iter_find tag it with
  | Done true it' => exists j f, (j < n)%nat /\ l !! j = Some f /\ tag_matches tag f = true /\
      iter_on l dest j it' /\ (it' = it \/ it' = iter_at l dest j)
  | Done false it' => it' = iter_at l dest i /\
      forall j f, (j < n)%nat -> l !! j = Some f -> tag_matches tag f = false
  | _ => False
  end.
Proof. apply find_result. Qed.

Lemma point_wf : wf_fields point_fields 2.
Proof.
  constructor.
  - reflexivity.
  - intros f [= <-]. reflexivity.
  - intros [|[|i]] f Hi; [intros [= <-]; discriminate..|lia].
Qed.

Lemma iterator_find_exact_witness :
  match pb_field_iter_find 2 (iter_at point_fields 1000 0) with
  | Done true it' => it_pos it' = 1%nat /\ it_pData it' = 1008
  | _ => False
  end.
Proof.
  pose proof (iterator_find_exact point_fields 2 1000 0 (iter_at point_fields 1000 0) 2 point_wf
    ltac:(lia) ltac:(lia) (iter_on_at _ _ _)) as H.
  change (pb_field_iter_find 2 (iter_at point_fields 1000 0))
    with (Done true (iter_at point_fields 1000 1)) in *.
  destruct H as (j & f & Hj & Hf & Htag & _). split; reflexivity.
Defined.

(** ** Dynamic allocation *)

(** [allocate_field] refuses a size that does not fit in a [size_t], so
    that the block it allocates has the size asked for, and the field points
    to it. *)
Theorem allocate_field_exact `{Allocator} pData data_size array_size s :
  0 <= data_size < 2 ^ 64 -> 0 <= array_size < 2 ^ 64 ->
  match allocate_field pData data_size array_size s with
  | Done _ t => data_size * array_size < 2 ^ 64 /\ exists q,
      q <> 0 /\ m_blocks (ds_mem t) !! q = Some (data_size * array_size) /\
      exists m, store_bytes m pData (le_bytes 8 q) = Some (ds_mem t)
  | _ => True
  end.
Proof.
  intros Hd Ha. unfold allocate_field, bind. destruct (dld pData sizeof_ptr s) as [ptr s1|s1|u|]; try done.
  destruct ((data_size =? 0) || (array_size =? 0)) eqn:E0; [done|]. cbn zeta.
  destruct (_ && _) eqn:Elim; [done|].
  assert (data_size * array_size < 2 ^ 64) as Hfit.
  { unfold SIZE_MAX in Elim. change (Z.shiftl 1 32) with (2 ^ 32) in Elim.
    destruct (Z_lt_ge_dec data_size (2 ^ 32)); [destruct (Z_lt_ge_dec array_size (2 ^ 32)); [nia|]|].
    - assert (data_size <= (2 ^ 64 - 1) / array_size) as Hle by lia.
      pose proof (Z.mul_div_le (2 ^ 64 - 1) array_size ltac:(lia)). nia.
    - assert (data_size <= (2 ^ 64 - 1) / array_size) as Hle by lia.
      pose proof (Z.mul_div_le (2 ^ 64 - 1) array_size ltac:(lia)). nia. }
  rewrite u64_small by nia. unfold get_mem, gets.
  destruct (pb_realloc (ds_mem s1) ptr (array_size * data_size)) as [[q m']|] eqn:Er; [|done].
  cbn [of_option ret put_mem modify ds_stream ds_fixed]. destruct (Z.eqb_spec q 0) as [|Hq]; [done|].
  unfold dst, dst_bytes, bind, get_mem, gets. cbn [ds_mem].
  destruct (store_bytes m' pData (le_bytes (Z.to_nat sizeof_ptr) q)) as [m2|] eqn:Est; [|exact I].
  cbn [of_option ret put_mem modify ds_mem].
  split; [done|]. exists q. split; [done|]. split; [|by exists m'].
  assert (m_blocks m2 = m_blocks m') as ->.
  { unfold store_bytes in Est. destruct (store_map _ _ _); [|done]. by injection Est as <-. }
  unfold pb_realloc in Er. destruct (if ptr =? 0 then _ else _) as [old|]; [|done].
  destruct (pb_free (ds_mem s1) ptr) as [m1|]; [|done].
  destruct (pb_malloc m1 (array_size * data_size)) as [q'|]; injection Er as <- <-; [|done].
  cbn. rewrite lookup_insert_eq. f_equal. lia.
Qed.

Lemma allocate_field_exact_witness :
  match allocate_field 2000 12 3 (buf_state [] 0 (blank 2000 8) 0) with
  | Done _ t => 12 * 3 < 2 ^ 64 /\ exists q,
      q <> 0 /\ m_blocks (ds_mem t) !! q = Some (12 * 3) /\
      exists m, store_bytes m 2000 (le_bytes 8 q) = Some (ds_mem t)
  | _ => True
  end.
Proof. apply (allocate_field_exact 2000 12 3); split; reflexivity || discriminate. Defined.

(** ** A defect of the 32-bit varint reader *)

(** the bit position of [pb_decode_varint32_eof] is a [uint_fast8_t] that
    wraps around: a varint of 37 continuation bytes 0x80 and a final 0x01,
    which stands for 2^259 and which [pb_decode_varint] refuses, is accepted
    and decoded to 8. *)
Theorem varint32_overlong_accepted m fx :
  let input := replicate 37 (zb 128) ++ [zb 1] in
  pb_decode_varint32 (buf_state input 38 m fx) = Done 8 (buf_state [] 0 m fx) /\
  exists t, pb_decode_varint (buf_state input 38 m fx) = Fail t.
Proof. intros input. split; [vm_compute; reflexivity|eexists; vm_compute; reflexivity]. Qed.
