(* ===== verification/Base64.v ===== *)
(** BoringSSL, [crypto/base64/base64.c], with the constant-time helpers of
    [crypto/internal.h] that it uses.  The state of the monad is the output
    buffer, a list of bytes of fixed length: a write outside of it is
    undefined, and [out] pointers are positions in it.  Input pointers are
    lists of the bytes from there on. *)
From S2P Require Import Prelude.

(** ** Constant-time selections on 64-bit words *)
Definition constant_time_msb_w (a : Z) : Z := u64 (0 - Z.shiftr a 63).
Definition constant_time_is_zero_w (a : Z) : Z :=
  constant_time_msb_w (Z.land (u64 (Z.lnot a)) (u64 (a - 1))).
Definition constant_time_eq_w (a b : Z) : Z := constant_time_is_zero_w (Z.lxor a b).
Definition constant_time_eq_8 (a b : Z) : Z := u8 (constant_time_eq_w a b).
Definition constant_time_select_w (mask a b : Z) : Z :=
  Z.lor (Z.land mask a) (Z.land (u64 (Z.lnot mask)) b).
Definition constant_time_select_8 (mask a b : Z) : Z :=
  u8 (constant_time_select_w mask a b).

Definition constant_time_lt_args_8 (a b : Z) : Z := u8 (constant_time_msb_w (u64 (a - b))).
Definition constant_time_in_range_8 (a min max : Z) : Z :=
  constant_time_lt_args_8 (u8 (a - min)) (u8 (max - min + 1)).

(** ** The output buffer *)
Definition B : Type -> Type := M (list byte).

Definition put (i : Z) (v : Z) : B unit := fun out =>
  if (0 <=? i) && (i <? zlen out) then Done tt (<[Z.to_nat i := zb v]> out) else Undef UbWrite.
Definition rd (l : list byte) (i : nat) : B Z :=
  of_option UbRead (option_map bz (l !! i)).

(** ** Encoding *)
Definition conv_bin2ascii (a : Z) : Z :=
  let a := Z.land a 63 in
  let ret := constant_time_select_8 (constant_time_eq_8 a 62) 43 47 in
  let ret := constant_time_select_8 (constant_time_lt_args_8 a 62) (u8 (a - 52 + 48)) ret in
  let ret := constant_time_select_8 (constant_time_lt_args_8 a 52) (u8 (a - 26 + 97)) ret in
  constant_time_select_8 (constant_time_lt_args_8 a 26) (u8 (a + 65)) ret.

Definition EVP_EncodedLength (len : Z) : option Z :=
  if u64 (len + 2) <? len then None
  else
    let len := u64 (len + 2) / 3 in
    if negb (Z.shiftr (u64 (Z.shiftl len 2)) 2 =? len) then None
    else
      let len := u64 (Z.shiftl len 2) in
      if u64 (len + 1) <? len then None else Some (u64 (len + 1)).

Record EVP_ENCODE_CTX : Type := mk_ctx {
  data_used : Z;
  data : list byte;               (* uint8_t[48] *)
  eof_seen : bool;
  error_encountered : bool
}.
Definition sizeof_data : Z := 48.

Definition EVP_EncodeInit : EVP_ENCODE_CTX := mk_ctx 0 (replicate 48 (zb 0)) false false.

Definition set_data (used : Z) (d : list byte) (c : EVP_ENCODE_CTX) : EVP_ENCODE_CTX :=
  mk_ctx used d (eof_seen c) (error_encountered c).
Definition set_error (c : EVP_ENCODE_CTX) : EVP_ENCODE_CTX :=
  mk_ctx (data_used c) (data c) (eof_seen c) true.
Definition set_eof (c : EVP_ENCODE_CTX) : EVP_ENCODE_CTX :=
  mk_ctx (data_used c) (data c) true (error_encountered c).

(** [OPENSSL_memcpy(&ctx->data[pos], in, n)]. *)
Definition memcpy_data (d : list byte) (pos : Z) (l : list byte) (n : Z) : B (list byte) :=
  if zlen l <? n then undef UbRead
  else if (0 <=? pos) && (pos + n <=? zlen d)
  then ret (take (Z.to_nat pos) d ++ take (Z.to_nat n) l ++ drop (Z.to_nat (pos + n)) d)
  else undef UbArray.

(** The [while (remaining)] loop: the number of bytes written, [dst] the
    position of the next one. *)
Fixpoint encode_loop (fuel : nat) (dst : Z) (src : list byte) (remaining r : Z) : B (Z * Z) :=
  match fuel with
  | O => out_of_fuel
  | S fuel =>
      if remaining =? 0 then ret (dst, r)
      else if 3 <=? remaining then
        let* s0 := rd src 0 in
        let* s1 := rd src 1 in
        let* s2 := rd src 2 in
        let l := Z.lor (Z.lor (Z.shiftl s0 16) (Z.shiftl s1 8)) s2 in
        put dst (conv_bin2ascii (u8 (Z.shiftr l 18)));;;
        put (dst + 1) (conv_bin2ascii (u8 (Z.shiftr l 12)));;;
        put (dst + 2) (conv_bin2ascii (u8 (Z.shiftr l 6)));;;
        put (dst + 3) (conv_bin2ascii (u8 l));;;
        encode_loop fuel (dst + 4) (drop 3 src) (remaining - 3) (u64 (r + 4))
      else
        let* s0 := rd src 0 in
        let l := Z.shiftl s0 16 in
        let* l := (if remaining =? 2
                   then let* s1 := rd src 1 in ret (Z.lor l (Z.shiftl s1 8)) else ret l) in
        put dst (conv_bin2ascii (u8 (Z.shiftr l 18)));;;
        put (dst + 1) (conv_bin2ascii (u8 (Z.shiftr l 12)));;;
        put (dst + 2) (if remaining =? 1 then 61 else conv_bin2ascii (u8 (Z.shiftr l 6)));;;
        put (dst + 3) 61;;;
        encode_loop fuel (dst + 4) (drop 3 src) 0 (u64 (r + 4))
  end.

(** A turn of the loop uses up a byte at least. *)
Definition EVP_EncodeBlock (dst : Z) (src : list byte) (src_len : Z) : B Z :=
  let* (dst, r) := encode_loop (S (Z.to_nat src_len)) dst src src_len 0 in
  put dst 0;;; ret r.

(** [while (in_len >= sizeof(ctx->data))]; [None] is the early return for an
    overflow of [total]. *)
Fixpoint encode_lines (fuel : nat) (out : Z) (input : list byte) (in_len total : Z)
    : B (option (Z * list byte * Z * Z)) :=
  match fuel with
  | O => out_of_fuel
  | S fuel =>
      if sizeof_data <=? in_len then
        let* encoded := EVP_EncodeBlock out input sizeof_data in
        let input := drop (Z.to_nat sizeof_data) input in
        let in_len := in_len - sizeof_data in
        let out := out + encoded in
        put out 10;;;
        put (out + 1) 0;;;
        if u64 (total + encoded + 1) <? total then ret None
        else encode_lines fuel (out + 1) input in_len (u64 (total + encoded + 1))
      else ret (Some (out, input, in_len, total))
  end.

Definition INT_MAX : Z := 2 ^ 31 - 1.

(** The context and [*out_len]. *)
Definition EVP_EncodeUpdate (ctx : EVP_ENCODE_CTX) (out : Z) (input : list byte) (in_len : Z)
    : B (EVP_ENCODE_CTX * Z) :=
  if in_len =? 0 then ret (ctx, 0)
  else
  assert (data_used ctx <? sizeof_data);;;
  if in_len <? u64 (sizeof_data - data_used ctx) then
    let* d := memcpy_data (data ctx) (data_used ctx) input in_len in
    ret (set_data (u32 (data_used ctx + u32 in_len)) d ctx, 0)
  else
    let* (ctx, out, input, in_len, total) :=
      (if negb (data_used ctx =? 0) then
         let todo := u64 (sizeof_data - data_used ctx) in
         let* d := memcpy_data (data ctx) (data_used ctx) input todo in
         let* encoded := EVP_EncodeBlock out d sizeof_data in
         put (out + encoded) 10;;;
         put (out + encoded + 1) 0;;;
         ret (set_data 0 d ctx, out + encoded + 1, drop (Z.to_nat todo) input, in_len - todo,
              encoded + 1)
       else ret (ctx, out, input, in_len, 0)) in
    let* r := encode_lines (S (Z.to_nat (in_len / sizeof_data))) out input in_len total in
    match r with
    | None => ret (ctx, 0)
    | Some (out, input, in_len, total) =>
        let* d := (if negb (in_len =? 0) then memcpy_data (data ctx) 0 input in_len
                   else ret (data ctx)) in
        ret (set_data (u32 in_len) d ctx, if INT_MAX <? total then 0 else total)
    end.

Definition EVP_EncodeFinal (ctx : EVP_ENCODE_CTX) (out : Z) : B (EVP_ENCODE_CTX * Z) :=
  if data_used ctx =? 0 then ret (ctx, 0)
  else
    let* encoded := EVP_EncodeBlock out (data ctx) (data_used ctx) in
    put (out + encoded) 10;;;
    put (out + (encoded + 1)) 0;;;
    assert (encoded + 1 <=? INT_MAX);;;
    ret (set_data 0 (data ctx) ctx, encoded + 1).

(** ** Decoding *)
Definition EVP_DecodedLength (len : Z) : option Z :=
  if negb (len mod 4 =? 0) then None else Some (len / 4 * 3).

Definition EVP_DecodeInit : EVP_ENCODE_CTX := mk_ctx 0 (replicate 48 (zb 0)) false false.

Definition base64_ascii_to_bin (a : Z) : Z :=
  let is_upper := constant_time_in_range_8 a 65 90 in
  let is_lower := constant_time_in_range_8 a 97 122 in
  let is_digit := constant_time_in_range_8 a 48 57 in
  let is_plus := constant_time_eq_8 a 43 in
  let is_slash := constant_time_eq_8 a 47 in
  let is_equals := constant_time_eq_8 a 61 in
  let ret := 0 in
  let ret := Z.lor ret (Z.land is_upper (a - 65)) in
  let ret := Z.lor ret (Z.land is_lower (a - 97 + 26)) in
  let ret := Z.lor ret (Z.land is_digit (a - 48 + 52)) in
  let ret := Z.lor ret (Z.land is_plus 62) in
  let ret := Z.lor ret (Z.land is_slash 63) in
  let is_valid := Z.lor (Z.lor (Z.lor (Z.lor (Z.lor is_upper is_lower) is_digit) is_plus)
                               is_slash) is_equals in
  u8 (Z.lor ret (Z.lnot is_valid)).

Definition flag (b : bool) : Z := if b then 1 else 0.

(** The number of bytes written. *)
Definition base64_decode_quad (out : Z) (input : list byte) : B Z :=
  let* i0 := rd input 0 in
  let* i1 := rd input 1 in
  let* i2 := rd input 2 in
  let* i3 := rd input 3 in
  let a := base64_ascii_to_bin i0 in
  let b := base64_ascii_to_bin i1 in
  let c := base64_ascii_to_bin i2 in
  let d := base64_ascii_to_bin i3 in
  if (a =? 255) || (b =? 255) || (c =? 255) || (d =? 255) then failed
  else
    let v := Z.lor (Z.lor (Z.lor (u32 (Z.shiftl a 18)) (u32 (Z.shiftl b 12)))
                          (u32 (Z.shiftl c 6))) d in
    let padding_pattern :=
      Z.lor (Z.lor (Z.lor (Z.shiftl (flag (Z.eqb i0 61)) 3) (Z.shiftl (flag (Z.eqb i1 61)) 2))
                   (Z.shiftl (flag (Z.eqb i2 61)) 1)) (flag (Z.eqb i3 61)) in
    if padding_pattern =? 0 then
      put out (u8 (Z.shiftr v 16));;; put (out + 1) (u8 (Z.shiftr v 8));;;
      put (out + 2) (u8 v);;; ret 3
    else if padding_pattern =? 1 then
      put out (u8 (Z.shiftr v 16));;; put (out + 1) (u8 (Z.shiftr v 8));;; ret 2
    else if padding_pattern =? 3 then put out (u8 (Z.shiftr v 16));;; ret 1
    else failed.

Definition is_space (c : Z) : bool := (c =? 32) || (c =? 9) || (c =? 13) || (c =? 10).

(** The [for] loop over the input: [Some] for a normal end, [None] for
    [return -1]. *)
Fixpoint decode_update_loop (n : nat) (ctx : EVP_ENCODE_CTX) (out bytes_out : Z)
    (input : list byte) : B (EVP_ENCODE_CTX * option Z) :=
  match n with
  | O => ret (ctx, Some bytes_out)
  | S n =>
      let* c := rd input 0 in
      let input := drop 1 input in
      if is_space c then decode_update_loop n ctx out bytes_out input
      else if eof_seen ctx then ret (set_error ctx, None)
      else
        let* d := memcpy_data (data ctx) (data_used ctx) [zb c] 1 in
        let ctx := set_data (u32 (data_used ctx + 1)) d ctx in
        if data_used ctx =? 4 then
          let* r := attempt (base64_decode_quad out (data ctx)) in
          match r with
          | None => ret (set_error ctx, None)
          | Some num =>
              let ctx := set_data 0 (data ctx) ctx in
              let ctx := if num <? 3 then set_eof ctx else ctx in
              decode_update_loop n ctx (out + num) (bytes_out + num) input
          end
        else decode_update_loop n ctx out bytes_out input
  end.

(** The context, [*out_len] and the value returned. *)
Definition EVP_DecodeUpdate (ctx : EVP_ENCODE_CTX) (out : Z) (input : list byte) (in_len : Z)
    : B (EVP_ENCODE_CTX * Z * Z) :=
  if error_encountered ctx then ret (ctx, 0, -1)
  else
    let* (ctx, r) := decode_update_loop (Z.to_nat in_len) ctx out 0 input in
    match r with
    | None => ret (ctx, 0, -1)
    | Some bytes_out =>
        if INT_MAX <? bytes_out then ret (set_error ctx, 0, -1)
        else ret (ctx, bytes_out, if eof_seen ctx then 0 else 1)
    end.

(** [*out_len] and the value returned. *)
Definition EVP_DecodeFinal (ctx : EVP_ENCODE_CTX) : Z * Z :=
  if error_encountered ctx || negb (data_used ctx =? 0) then (0, -1) else (0, 1).

(** [for (i = 0; i < in_len; i += 4)]; [rest] is [in_len - i]. *)
Fixpoint decode_loop (fuel : nat) (out bytes_out : Z) (input : list byte) (rest : Z) : B Z :=
  match fuel with
  | O => out_of_fuel
  | S fuel =>
      if rest <=? 0 then ret bytes_out
      else
        let* num := base64_decode_quad out input in
        if negb (num =? 3) && negb (rest =? 4) then failed
        else decode_loop fuel (out + num) (bytes_out + num) (drop 4 input) (rest - 4)
  end.

(** [*out_len]; a failure is [return 0], with [*out_len = 0]. *)
Definition EVP_DecodeBase64 (out max_out : Z) (input : list byte) (in_len : Z) : B Z :=
  if negb (in_len mod 4 =? 0) then failed
  else
    match EVP_DecodedLength in_len with
    | None => failed
    | Some max_len =>
        if max_out <? max_len then failed
        else decode_loop (S (Z.to_nat (in_len / 4))) out 0 input in_len
    end.

Definition is_blank (c : Z) : bool := (c =? 32) || (c =? 9).

(** [while (src_len > 0)] from the front. *)
Fixpoint trim_front (n : nat) (src : list byte) (src_len : Z) : B (list byte * Z) :=
  match n with
  | O => ret (src, src_len)
  | S n =>
      if 0 <? src_len then
        let* c := rd src 0 in
        if negb (is_blank c) then ret (src, src_len)
        else trim_front n (drop 1 src) (src_len - 1)
      else ret (src, src_len)
  end.

(** [while (src_len > 0)] from the end. *)
Fixpoint trim_back (n : nat) (src : list byte) (src_len : Z) : B Z :=
  match n with
  | O => ret src_len
  | S n =>
      if 0 <? src_len then
        let* c := rd src (Z.to_nat (src_len - 1)) in
        if is_space c then trim_back n src (src_len - 1) else ret src_len
      else ret src_len
  end.

(** [while (dst_len % 3 != 0) dst[dst_len++] = 0]. *)
Fixpoint pad_zero (n : nat) (dst dst_len : Z) : B Z :=
  match n with
  | O => ret dst_len
  | S n =>
      if negb (dst_len mod 3 =? 0) then put (dst + dst_len) 0;;; pad_zero n dst (dst_len + 1)
      else ret dst_len
  end.

(** The value returned: -1, or the length. *)
Definition EVP_DecodeBlock (dst : Z) (src : list byte) (src_len : Z) : B Z :=
  let* (src, src_len) := trim_front (Z.to_nat src_len) src src_len in
  let* src_len := trim_back (Z.to_nat src_len) src src_len in
  match EVP_DecodedLength src_len with
  | None => ret (-1)
  | Some dst_len =>
      if INT_MAX <? dst_len then ret (-1)
      else
        let* r := attempt (EVP_DecodeBase64 dst dst_len src src_len) in
        match r with
        | None => ret (-1)
        | Some dst_len =>
            let* dst_len := pad_zero 2 dst dst_len in
            assert (dst_len <=? INT_MAX);;; ret dst_len
        end
  end.
