(* ===== verification/Base64Proofs.v ===== *)
(** BoringSSL base64: the encoder writes RFC 4648, in one block or as a stream
    of lines; the decoder undoes it and never writes outside of its output. *)
From S2P Require Import Prelude.
From S2P Require Import Base64.

(** ** The specification: the alphabet of RFC 4648, three bytes at a time *)
Definition alphabet : list Z :=
  [65;66;67;68;69;70;71;72;73;74;75;76;77;78;79;80;81;82;83;84;85;86;87;88;89;90;
   97;98;99;100;101;102;103;104;105;106;107;108;109;110;111;112;113;114;115;116;117;
   118;119;120;121;122; 48;49;50;51;52;53;54;55;56;57; 43; 47].
Definition b64_char (v : Z) : byte := zb (nth (Z.to_nat v) alphabet 0).

Fixpoint b64 (l : list byte) : list byte :=
  match l with
  | [] => []
  | [a] => [b64_char (bz a / 4); b64_char (bz a mod 4 * 16); zb 61; zb 61]
  | [a; b] => [b64_char (bz a / 4); b64_char (bz a mod 4 * 16 + bz b / 16);
               b64_char (bz b mod 16 * 4); zb 61]
  | a :: b :: c :: l =>
      b64_char (bz a / 4) :: b64_char (bz a mod 4 * 16 + bz b / 16) ::
      b64_char (bz b mod 16 * 4 + bz c / 64) :: b64_char (bz c mod 64) :: b64 l
  end.

(** Three at a time. *)
Lemma list_ind3 {A} (P : list A -> Prop) :
  P [] -> (forall a, P [a]) -> (forall a b, P [a; b]) ->
  (forall a b c l, P l -> P (a :: b :: c :: l)) -> forall l, P l.
Proof.
  intros H0 H1 H2 H3 l. enough (P l /\ (forall x, P (x :: l)) /\ (forall x y, P (x :: y :: l)))
    as [? _] by done.
  induction l as [|a l (IH0 & IH1 & IH2)]; auto.
Qed.

Lemma b64_length l : zlen (b64 l) = 4 * ((zlen l + 2) / 3).
Proof.
  induction l as [|a|a b|a b c l IH] using list_ind3; try done.
  cbn [b64]. rewrite !zlen_cons, IH. pose proof (zlen_nonneg l).
  replace (1 + (1 + (1 + zlen l)) + 2) with (zlen l + 2 + 1 * 3) by lia.
  rewrite Z_div_plus by lia. lia.
Qed.

Lemma b64_app3 l k : zlen l mod 3 = 0 -> b64 (l ++ k) = b64 l ++ b64 k.
Proof.
  induction l as [|a|a b|a b c l IH] using list_ind3; intros Hl; try done.
  cbn [app b64]. do 4 f_equal. apply IH. rewrite !zlen_cons in Hl.
  replace (1 + (1 + (1 + zlen l))) with (zlen l + 1 * 3) in Hl by lia.
  by rewrite Z_mod_plus_full in Hl.
Qed.

(** ** The two tables, byte by byte *)
Lemma conv_char a : 0 <= a < 256 -> zb (conv_bin2ascii a) = b64_char (a mod 64).
Proof.
  intros Ha. unfold b64_char. f_equal. apply Z.eqb_eq. revert a Ha.
  apply (forall_byte (fun a => conv_bin2ascii a =? nth (Z.to_nat (a mod 64)) alphabet 0)).
  vm_compute. reflexivity.
Qed.

Lemma char_bin v : 0 <= v < 64 ->
  base64_ascii_to_bin (bz (b64_char v)) = v /\ (bz (b64_char v) =? 61) = false.
Proof.
  intros Hv.
  assert (((base64_ascii_to_bin (bz (b64_char (v mod 64))) =? v mod 64) &&
           negb (bz (b64_char (v mod 64)) =? 61)) = true) as H.
  { apply (forall_byte (fun v => (base64_ascii_to_bin (bz (b64_char (v mod 64))) =? v mod 64) &&
           negb (bz (b64_char (v mod 64)) =? 61))); [vm_compute; reflexivity|lia]. }
  rewrite Z.mod_small in H by lia. apply andb_true_iff in H as [H1 H2].
  split; [by apply Z.eqb_eq|by apply negb_true_iff].
Qed.

(** The reader's table is onto the alphabet: a value below 64 comes from the
    character of that value, or from the padding character. *)
Lemma bin_char a : 0 <= a < 256 ->
  base64_ascii_to_bin a = 255 \/
  a = 61 /\ base64_ascii_to_bin a = 0 \/
  0 <= base64_ascii_to_bin a < 64 /\ bz (b64_char (base64_ascii_to_bin a)) = a /\ a <> 61.
Proof.
  intros Ha. set (v := base64_ascii_to_bin a).
  assert (((v =? 255) || ((a =? 61) && (v =? 0)) ||
           ((0 <=? v) && (v <? 64) && (bz (b64_char v) =? a) && negb (a =? 61))) = true) as H.
  { unfold v. apply (forall_byte (fun a => let v := base64_ascii_to_bin a in
      (v =? 255) || ((a =? 61) && (v =? 0)) ||
      ((0 <=? v) && (v <? 64) && (bz (b64_char v) =? a) && negb (a =? 61))));
      [vm_compute; reflexivity|lia]. }
  apply orb_true_iff in H as [H|H]; [apply orb_true_iff in H as [H|H]|].
  - left. lia.
  - right; left. lia.
  - right; right. lia.
Qed.

(** ** The output buffer: [l] stored at [pos] *)
Definition fill (out : list byte) (pos : Z) (l : list byte) : list byte :=
  take (Z.to_nat pos) out ++ l ++ drop (Z.to_nat pos + length l) out.

Definition room (out : list byte) (pos n : Z) : Prop := 0 <= pos /\ 0 <= n /\ pos + n <= zlen out.

Lemma fill_nil out pos : room out pos 0 -> fill out pos [] = out.
Proof. intros _. unfold fill. cbn. rewrite Nat.add_0_r. apply take_drop. Qed.

Lemma fill_length out pos l : room out pos (zlen l) -> zlen (fill out pos l) = zlen out.
Proof.
  unfold room, fill, zlen. intros H. rewrite !length_app, length_take, length_drop. lia.
Qed.

Lemma put_fill out pos l r v :
  room out pos (zlen l + 1) -> room out pos (zlen (l ++ r)) ->
  put (pos + zlen l) v (fill out pos (l ++ r)) = Done tt (fill out pos (l ++ zb v :: tail r)).
Proof.
  intros Hr1 Hr. unfold put. rewrite fill_length by done.
  pose proof (zlen_nonneg l). unfold room in *.
  destruct (Z.leb_spec 0 (pos + zlen l)); [|lia].
  destruct (Z.ltb_spec (pos + zlen l) (zlen out)); [|lia]. cbn [andb]. f_equal.
  unfold fill, zlen in *. rewrite <- !(app_assoc l).
  assert (Z.to_nat (pos + Z.of_nat (length l))
          = (length (take (Z.to_nat pos) out) + (length l + 0)))%nat as ->.
  { rewrite length_take. lia. }
  rewrite insert_app_r, insert_app_r. f_equal. f_equal.
  destruct r as [|x r]; cbn [app tail].
  - rewrite !app_nil_r, length_app. cbn [length].
    destruct (drop (Z.to_nat pos + length l) out) as [|y d] eqn:Ed.
    { apply (f_equal length) in Ed. rewrite length_drop in Ed. cbn in Ed. lia. }
    cbn. f_equal. replace (Z.to_nat pos + (length l + 1))%nat
      with (Z.to_nat pos + length l + 1)%nat by lia.
    rewrite <- drop_drop, Ed. done.
  - cbn. by rewrite !length_app.
Qed.

(** Storing after what is there, and over what comes next. *)
Lemma put_end out pos l v :
  room out pos (zlen l + 1) ->
  put (pos + zlen l) v (fill out pos l) = Done tt (fill out pos (l ++ [zb v])).
Proof.
  intros H. pose proof (put_fill out pos l [] v H) as Hp.
  rewrite app_nil_r in Hp. apply Hp. pose proof (zlen_nonneg l). unfold room in *. lia.
Qed.

Lemma fill_fill out pos l k :
  room out pos (zlen l + zlen k) ->
  fill (fill out pos l) (pos + zlen l) k = fill out pos (l ++ k).
Proof.
  intros H. unfold fill, room, zlen in *. rewrite <- !app_assoc.
  assert (Z.to_nat (pos + Z.of_nat (length l)) =
          length (take (Z.to_nat pos) out ++ l)) as Hn.
  { rewrite length_app, length_take. lia. }
  rewrite (app_assoc (take _ out)), Hn, take_app_length, <- app_assoc. do 2 f_equal.
  rewrite drop_app_add, drop_drop. f_equal. f_equal. rewrite length_app. lia.
Qed.

Lemma fill_over out pos l r k :
  room out pos (zlen l + zlen k) -> (length r <= length k)%nat ->
  fill (fill out pos (l ++ r)) (pos + zlen l) k = fill out pos (l ++ k).
Proof.
  intros H Hr. unfold fill, room, zlen in *. rewrite <- !app_assoc.
  assert (Z.to_nat (pos + Z.of_nat (length l)) =
          length (take (Z.to_nat pos) out ++ l)) as Hn.
  { rewrite length_app, length_take. lia. }
  rewrite (app_assoc (take _ out)), Hn, take_app_length, <- app_assoc. do 3 f_equal.
  rewrite drop_app_add, drop_app_ge, drop_drop by lia. f_equal. rewrite !length_app. lia.
Qed.

(** ** Encoding a block *)
Lemma lor3 a b c : 0 <= b < 256 -> 0 <= c < 256 ->
  Z.lor (Z.lor (Z.shiftl a 16) (Z.shiftl b 8)) c = a * 65536 + b * 256 + c.
Proof.
  intros Hb Hc. rewrite (Z.lor_comm (Z.shiftl a 16)).
  assert (Z.shiftl b 8 = b * 256) as E by (rewrite Z.shiftl_mul_pow2; lia).
  rewrite (lor_low_shifted 16) by (rewrite ?E; lia). rewrite E.
  replace (b * 256 + a * 2 ^ 16) with (Z.shiftl (b + a * 256) 8)
    by (rewrite Z.shiftl_mul_pow2 by lia; lia).
  rewrite Z.lor_comm, (lor_low_shifted 8) by lia. lia.
Qed.

Lemma conv_sextet v k : zb (conv_bin2ascii (u8 (Z.shiftr v k))) = b64_char ((Z.shiftr v k) mod 64).
Proof.
  rewrite conv_char by (apply Z.mod_pos_bound; lia). f_equal. unfold u8.
  change (2 ^ 8) with (64 * 4). rewrite Z.rem_mul_r by lia.
  rewrite Z.mul_comm, Z_mod_plus_full. apply Zmod_mod.
Qed.

Lemma conv_sextet0 v : zb (conv_bin2ascii (u8 v)) = b64_char (v mod 64).
Proof. rewrite <- (Z.shiftr_0_r v). apply conv_sextet. Qed.

Lemma rd_lookup l i b out : l !! i = Some b -> rd l i out = Done (bz b) out.
Proof. intros H. unfold rd. by rewrite H. Qed.

(** Bytes stored in a row. *)
Lemma put1 out pos pre a {A} (k : B A) :
  room out pos (zlen pre + 1) ->
  (put (pos + zlen pre) a;;; k) (fill out pos pre) = k (fill out pos (pre ++ [zb a])).
Proof. intros H. unfold bind. by rewrite put_end. Qed.

Lemma put2 out pos pre a b {A} (k : B A) :
  room out pos (zlen pre + 2) ->
  (put (pos + zlen pre) a;;; put (pos + zlen pre + 1) b;;; k) (fill out pos pre)
  = k (fill out pos (pre ++ [zb a; zb b])).
Proof.
  intros H. unfold room in H. rewrite put1 by (unfold room; zl).
  replace (pos + zlen pre + 1) with (pos + zlen (pre ++ [zb a])) by zl.
  rewrite put1 by (unfold room; zl). by rewrite <- app_assoc.
Qed.

Lemma put3 out pos pre a b c {A} (k : B A) :
  room out pos (zlen pre + 3) ->
  (put (pos + zlen pre) a;;; put (pos + zlen pre + 1) b;;; put (pos + zlen pre + 2) c;;; k)
    (fill out pos pre) = k (fill out pos (pre ++ [zb a; zb b; zb c])).
Proof.
  intros H. unfold room in H. rewrite put2 by (unfold room; zl).
  replace (pos + zlen pre + 2) with (pos + zlen (pre ++ [zb a; zb b])) by zl.
  rewrite put1 by (unfold room; zl). by rewrite <- app_assoc.
Qed.

Lemma put4 out pos pre a b c d {A} (k : B A) :
  room out pos (zlen pre + 4) ->
  (put (pos + zlen pre) a;;; put (pos + zlen pre + 1) b;;; put (pos + zlen pre + 2) c;;;
   put (pos + zlen pre + 3) d;;; k) (fill out pos pre)
  = k (fill out pos (pre ++ [zb a; zb b; zb c; zb d])).
Proof.
  intros H. unfold room in H. rewrite put3 by (unfold room; zl).
  replace (pos + zlen pre + 3) with (pos + zlen (pre ++ [zb a; zb b; zb c])) by zl.
  rewrite put1 by (unfold room; zl). by rewrite <- app_assoc.
Qed.

(** One turn of the loop, for each number of bytes left. *)
Lemma encode_step1 fuel dst a rest r s :
  encode_loop (S fuel) dst (a :: rest) 1 r s =
  (let l := Z.shiftl (bz a) 16 in
   put dst (conv_bin2ascii (u8 (Z.shiftr l 18)));;;
   put (dst + 1) (conv_bin2ascii (u8 (Z.shiftr l 12)));;;
   put (dst + 2) 61;;; put (dst + 3) 61;;;
   encode_loop fuel (dst + 4) (drop 2 rest) 0 (u64 (r + 4))) s.
Proof. reflexivity. Qed.

Lemma encode_step2 fuel dst a b rest r s :
  encode_loop (S fuel) dst (a :: b :: rest) 2 r s =
  (let l := Z.lor (Z.shiftl (bz a) 16) (Z.shiftl (bz b) 8) in
   put dst (conv_bin2ascii (u8 (Z.shiftr l 18)));;;
   put (dst + 1) (conv_bin2ascii (u8 (Z.shiftr l 12)));;;
   put (dst + 2) (conv_bin2ascii (u8 (Z.shiftr l 6)));;; put (dst + 3) 61;;;
   encode_loop fuel (dst + 4) (drop 1 rest) 0 (u64 (r + 4))) s.
Proof. reflexivity. Qed.

Lemma encode_step3 fuel dst a b c rest n r s :
  3 <= n ->
  encode_loop (S fuel) dst (a :: b :: c :: rest) n r s =
  (let l := Z.lor (Z.lor (Z.shiftl (bz a) 16) (Z.shiftl (bz b) 8)) (bz c) in
   put dst (conv_bin2ascii (u8 (Z.shiftr l 18)));;;
   put (dst + 1) (conv_bin2ascii (u8 (Z.shiftr l 12)));;;
   put (dst + 2) (conv_bin2ascii (u8 (Z.shiftr l 6)));;;
   put (dst + 3) (conv_bin2ascii (u8 l));;;
   encode_loop fuel (dst + 4) rest (n - 3) (u64 (r + 4))) s.
Proof.
  intros Hn. cbn [encode_loop]. destruct (Z.eqb_spec n 0); [lia|].
  destruct (Z.leb_spec 3 n); [|lia]. reflexivity.
Qed.

Lemma encode_loop_spec l : forall fuel rest out pos pre r,
  (length l < fuel)%nat -> room out pos (zlen pre + zlen (b64 l)) ->
  0 <= r -> r + zlen (b64 l) < 2 ^ 64 ->
  encode_loop fuel (pos + zlen pre) (l ++ rest) (zlen l) r (fill out pos pre) =
  Done (pos + zlen pre + zlen (b64 l), r + zlen (b64 l)) (fill out pos (pre ++ b64 l)).
Proof.
  induction l as [|a|a b|a b c l IH] using list_ind3; intros fuel rest out pos pre r Hf Hroom Hr Hlt;
    (destruct fuel as [|fuel]; [cbn in Hf; lia|]); cbn [app].
  - cbn. by rewrite !Z.add_0_r, app_nil_r.
  - cbn [b64] in *. change (zlen [_; _; _; _]) with 4 in *. change (zlen [a]) with 1.
    rewrite encode_step1. cbv zeta. unfold room in *. rewrite put4 by (unfold room; zlen_pos; lia).
    destruct fuel as [|fuel]; [cbn in Hf; lia|]. cbn [encode_loop Z.eqb].
    rewrite !conv_sextet, u64_small by lia. pose proof (bz_range a).
    rewrite Z.shiftl_mul_pow2, !Z.shiftr_div_pow2 by lia.
    replace ((bz a * 2 ^ 16 / 2 ^ 18) mod 64) with (bz a / 4) by zdm.
    by replace ((bz a * 2 ^ 16 / 2 ^ 12) mod 64) with (bz a mod 4 * 16) by zdm.
  - cbn [b64] in *. change (zlen [_; _; _; _]) with 4 in *. change (zlen [a; b]) with 2.
    rewrite encode_step2. cbv zeta. unfold room in *. rewrite put4 by (unfold room; zlen_pos; lia).
    destruct fuel as [|fuel]; [cbn in Hf; lia|]. cbn [encode_loop Z.eqb].
    pose proof (bz_range a). pose proof (bz_range b). rewrite <- (Z.lor_0_r (Z.lor _ _)).
    rewrite lor3, !conv_sextet, u64_small by lia. rewrite !Z.shiftr_div_pow2 by lia.
    set (v := bz a * 65536 + bz b * 256 + 0).
    replace ((v / 2 ^ 18) mod 64) with (bz a / 4) by zdm.
    replace ((v / 2 ^ 12) mod 64) with (bz a mod 4 * 16 + bz b / 16) by zdm.
    by replace ((v / 2 ^ 6) mod 64) with (bz b mod 16 * 4) by zdm.
  - cbn [b64 length] in *. autorewrite with zlen in *. pose proof (zlen_nonneg l).
    pose proof (zlen_nonneg (b64 l)). rewrite encode_step3 by lia. cbv zeta. unfold room in *.
    rewrite put4 by (unfold room; zlen_pos; lia).
    pose proof (bz_range a). pose proof (bz_range b). pose proof (bz_range c).
    rewrite lor3, !conv_sextet, conv_sextet0, u64_small by lia. rewrite !Z.shiftr_div_pow2 by lia.
    set (v := bz a * 65536 + bz b * 256 + bz c).
    replace ((v / 2 ^ 18) mod 64) with (bz a / 4) by zdm.
    replace ((v / 2 ^ 12) mod 64) with (bz a mod 4 * 16 + bz b / 16) by zdm.
    replace ((v / 2 ^ 6) mod 64) with (bz b mod 16 * 4 + bz c / 64) by zdm.
    replace (v mod 64) with (bz c mod 64) by zdm.
    replace (1 + (1 + (1 + zlen l)) - 3) with (zlen l) by lia.
    match goal with |- context [fill out pos ?p] => set (pre' := p) end.
    assert (zlen pre' = zlen pre + 4) as Hp by (unfold pre'; rewrite zlen_app; done).
    replace (pos + zlen pre + 4) with (pos + zlen pre') by lia.
    rewrite IH by (unfold room; lia). f_equal; [f_equal; lia|].
    unfold pre'. by rewrite <- app_assoc.
Qed.

(** [EVP_EncodeBlock]: the encoding and a null byte, at [dst]. *)
Lemma encode_block_spec l rest out dst :
  room out dst (zlen (b64 l) + 1) -> zlen (b64 l) < 2 ^ 64 ->
  EVP_EncodeBlock dst (l ++ rest) (zlen l) out =
  Done (zlen (b64 l)) (fill out dst (b64 l ++ [zb 0])).
Proof.
  intros Hr Hlt. unfold EVP_EncodeBlock, bind at 1. pose proof (zlen_nonneg (b64 l)).
  unfold room in *. rewrite zlen_to_nat.
  assert (room out dst (zlen (@nil byte) + zlen (b64 l))) as Hr0 by (unfold room; zl).
  pose proof (encode_loop_spec l (S (length l)) rest out dst [] 0 ltac:(lia) Hr0
    ltac:(lia) ltac:(lia)) as Hl.
  change (zlen []) with 0 in Hl. rewrite Z.add_0_r in Hl. cbn [app] in Hl.
  rewrite fill_nil in Hl by (unfold room; lia).
  rewrite Hl. unfold bind, ret. rewrite put_end by (unfold room; lia). done.
Qed.

(** ** Decoding a quad *)
Lemma lor4 a b c d : 0 <= a < 64 -> 0 <= b < 64 -> 0 <= c < 64 -> 0 <= d < 64 ->
  Z.lor (Z.lor (Z.lor (u32 (Z.shiftl a 18)) (u32 (Z.shiftl b 12))) (u32 (Z.shiftl c 6))) d
  = a * 262144 + b * 4096 + c * 64 + d.
Proof.
  intros Ha Hb Hc Hd.
  assert (forall x n, 0 <= n <= 18 -> 0 <= x < 64 -> u32 (Z.shiftl x n) = Z.shiftl x n) as Hu.
  { intros x n Hn Hx. apply u32_small. rewrite Z.shiftl_mul_pow2 by lia.
    pose proof (Z.pow_le_mono_r 2 n 18). change (2 ^ 18) with 262144 in *.
    pose proof (Z.pow_pos_nonneg 2 n). nia. }
  rewrite !Hu by lia.
  assert (Z.shiftl c 6 = c * 64) as Ec by (rewrite Z.shiftl_mul_pow2; lia).
  assert (Z.shiftl b 12 = b * 4096) as Eb by (rewrite Z.shiftl_mul_pow2; lia).
  rewrite (Z.lor_comm (Z.shiftl a 18)). rewrite (lor_low_shifted 18) by (rewrite ?Eb; lia).
  rewrite Eb. replace (b * 4096 + a * 2 ^ 18) with (Z.shiftl (b + a * 64) 12)
    by (rewrite Z.shiftl_mul_pow2 by lia; lia).
  rewrite (Z.lor_comm (Z.shiftl _ 12)), (lor_low_shifted 12) by (rewrite ?Ec; lia).
  rewrite Ec. replace (c * 64 + (b + a * 64) * 2 ^ 12) with (Z.shiftl (c + b * 64 + a * 4096) 6)
    by (rewrite Z.shiftl_mul_pow2 by lia; lia).
  rewrite Z.lor_comm, (lor_low_shifted 6) by lia. lia.
Qed.

Lemma u8_small z : 0 <= z < 256 -> u8 z = z.
Proof. apply Z.mod_small. Qed.

(** What the four characters hold. *)
Definition quad_bytes (a b c d : Z) : list byte :=
  [zb (a * 4 + b / 16); zb (b mod 16 * 16 + c / 4); zb (c mod 4 * 64 + d)].

Definition quad_len (i0 i1 i2 i3 : byte) : option nat :=
  match bz i0 =? 61, bz i1 =? 61, bz i2 =? 61, bz i3 =? 61 with
  | false, false, false, false => Some 3%nat
  | false, false, false, true => Some 2%nat
  | false, false, true, true => Some 1%nat
  | _, _, _, _ => None
  end.

(** The decoder of a quad, on every quad. *)
Lemma decode_quad_spec i0 i1 i2 i3 rest out pos pre :
  room out pos (zlen pre + 3) ->
  let a := base64_ascii_to_bin (bz i0) in
  let b := base64_ascii_to_bin (bz i1) in
  let c := base64_ascii_to_bin (bz i2) in
  let d := base64_ascii_to_bin (bz i3) in
  base64_decode_quad (pos + zlen pre) (i0 :: i1 :: i2 :: i3 :: rest) (fill out pos pre) =
  if (a =? 255) || (b =? 255) || (c =? 255) || (d =? 255) then Fail (fill out pos pre)
  else match quad_len i0 i1 i2 i3 with
       | Some n => Done (Z.of_nat n) (fill out pos (pre ++ take n (quad_bytes a b c d)))
       | None => Fail (fill out pos pre)
       end.
Proof.
  intros Hr a b c d. unfold base64_decode_quad, rd. cbn [lookup list_lookup option_map of_option].
  unfold bind at 1 2 3 4, ret at 1 2 3 4. fold a b c d.
  destruct ((a =? 255) || (b =? 255) || (c =? 255) || (d =? 255)) eqn:Hv; [done|].
  apply orb_false_iff in Hv as [Hv Hvd]. apply orb_false_iff in Hv as [Hv Hvc].
  apply orb_false_iff in Hv as [Hva Hvb].
  assert (forall i, (base64_ascii_to_bin (bz i) =? 255) = false ->
            0 <= base64_ascii_to_bin (bz i) < 64) as Hrange.
  { intros i Hi. pose proof (bin_char (bz i) (bz_range i)). lia. }
  assert (0 <= a < 64) by exact (Hrange i0 Hva). assert (0 <= b < 64) by exact (Hrange i1 Hvb).
  assert (0 <= c < 64) by exact (Hrange i2 Hvc). assert (0 <= d < 64) by exact (Hrange i3 Hvd).
  rewrite lor4 by done. set (v := a * 262144 + b * 4096 + c * 64 + d).
  assert (u8 (Z.shiftr v 16) = a * 4 + b / 16) as E0.
  { rewrite Z.shiftr_div_pow2 by lia. unfold u8, v. zdm. }
  assert (u8 (Z.shiftr v 8) = b mod 16 * 16 + c / 4) as E1.
  { rewrite Z.shiftr_div_pow2 by lia. unfold u8, v. zdm. }
  assert (u8 v = c mod 4 * 64 + d) as E2 by (unfold u8, v; zdm).
  rewrite E0, E1, E2. unfold quad_len, quad_bytes. unfold room in *.
  destruct (bz i0 =? 61), (bz i1 =? 61), (bz i2 =? 61), (bz i3 =? 61); try reflexivity.
  - match goal with |- _ = ?r => change ((put (pos + zlen pre) (a * 4 + b / 16);;; ret 1)
      (fill out pos pre) = r) end. by rewrite put1 by (unfold room; zl).
  - match goal with |- _ = ?r => change ((put (pos + zlen pre) (a * 4 + b / 16);;;
      put (pos + zlen pre + 1) (b mod 16 * 16 + c / 4);;; ret 2) (fill out pos pre) = r) end.
    by rewrite put2 by (unfold room; zl).
  - match goal with |- _ = ?r => change ((put (pos + zlen pre) (a * 4 + b / 16);;;
      put (pos + zlen pre + 1) (b mod 16 * 16 + c / 4);;;
      put (pos + zlen pre + 2) (c mod 4 * 64 + d);;; ret 3) (fill out pos pre) = r) end.
    by rewrite put3 by (unfold room; zl).
Qed.

Lemma quad_of_char v : 0 <= v < 64 ->
  base64_ascii_to_bin (bz (b64_char v)) = v /\ (base64_ascii_to_bin (bz (b64_char v)) =? 255) = false.
Proof. intros H. destruct (char_bin v H) as [-> _]. split; [done|]. lia. Qed.

Lemma equals_bin : base64_ascii_to_bin (bz (zb 61)) = 0 /\ (bz (zb 61) =? 61) = true.
Proof. vm_compute. auto. Qed.

(** The quads of the encoder hold the bytes it was given. *)
Lemma decode_b64_quad l rest out pos pre :
  l <> [] -> (length l <= 3)%nat -> room out pos (zlen pre + 3) ->
  base64_decode_quad (pos + zlen pre) (b64 l ++ rest) (fill out pos pre)
  = Done (zlen l) (fill out pos (pre ++ l)).
Proof.
  intros Hne Hl Hr.
  destruct l as [|x [|y [|z [|]]]]; [done| | | |cbn in Hl; lia]; cbn [b64 app];
    rewrite decode_quad_spec by done; cbv zeta; unfold quad_len;
    destruct equals_bin as [Hz Heq].
  - pose proof (bz_range x). destruct (quad_of_char (bz x / 4)) as [E0 F0]; [zdm|].
    destruct (quad_of_char (bz x mod 4 * 16)) as [E1 F1]; [zdm|].
    rewrite F0, F1, E0, E1, Hz, Heq. rewrite (proj2 (char_bin (bz x / 4) ltac:(zdm))).
    rewrite (proj2 (char_bin (bz x mod 4 * 16) ltac:(zdm))). cbn [orb Z.eqb].
    unfold quad_bytes. cbn [take]. do 3 f_equal.
    replace (bz x / 4 * 4 + bz x mod 4 * 16 / 16) with (bz x) by zdm. by rewrite zb_bz.
  - pose proof (bz_range x). pose proof (bz_range y).
    destruct (quad_of_char (bz x / 4)) as [E0 F0]; [zdm|].
    destruct (quad_of_char (bz x mod 4 * 16 + bz y / 16)) as [E1 F1]; [zdm|].
    destruct (quad_of_char (bz y mod 16 * 4)) as [E2 F2]; [zdm|].
    rewrite F0, F1, F2, E0, E1, E2, Hz, Heq. rewrite (proj2 (char_bin (bz x / 4) ltac:(zdm))).
    rewrite (proj2 (char_bin (bz x mod 4 * 16 + bz y / 16) ltac:(zdm))).
    rewrite (proj2 (char_bin (bz y mod 16 * 4) ltac:(zdm))). cbn [orb Z.eqb].
    unfold quad_bytes. cbn [take].
    replace (bz x / 4 * 4 + _) with (bz x) by zdm.
    replace (_ + bz y mod 16 * 4 / 4) with (bz y) by zdm. by rewrite !zb_bz.
  - pose proof (bz_range x). pose proof (bz_range y). pose proof (bz_range z).
    destruct (quad_of_char (bz x / 4)) as [E0 F0]; [zdm|].
    destruct (quad_of_char (bz x mod 4 * 16 + bz y / 16)) as [E1 F1]; [zdm|].
    destruct (quad_of_char (bz y mod 16 * 4 + bz z / 64)) as [E2 F2]; [zdm|].
    destruct (quad_of_char (bz z mod 64)) as [E3 F3]; [zdm|].
    rewrite F0, F1, F2, F3, E0, E1, E2, E3. rewrite (proj2 (char_bin (bz x / 4) ltac:(zdm))).
    rewrite (proj2 (char_bin (bz x mod 4 * 16 + bz y / 16) ltac:(zdm))).
    rewrite (proj2 (char_bin (bz y mod 16 * 4 + bz z / 64) ltac:(zdm))).
    rewrite (proj2 (char_bin (bz z mod 64) ltac:(zdm))). cbn [orb].
    unfold quad_bytes. cbn [take].
    replace (bz x / 4 * 4 + _) with (bz x) by zdm.
    replace (_ + (bz y mod 16 * 4 + bz z / 64) / 4) with (bz y) by zdm.
    replace (_ + bz z mod 64) with (bz z) by zdm. by rewrite !zb_bz.
Qed.

(** A quad that gives three bytes is the encoding of them. *)
Lemma quad_bytes_b64 i0 i1 i2 i3 :
  let a := base64_ascii_to_bin (bz i0) in
  let b := base64_ascii_to_bin (bz i1) in
  let c := base64_ascii_to_bin (bz i2) in
  let d := base64_ascii_to_bin (bz i3) in
  (a =? 255) || (b =? 255) || (c =? 255) || (d =? 255) = false ->
  quad_len i0 i1 i2 i3 = Some 3%nat -> b64 (quad_bytes a b c d) = [i0; i1; i2; i3].
Proof.
  intros a b c d Hv Hq.
  apply orb_false_iff in Hv as [Hv Hvd]. apply orb_false_iff in Hv as [Hv Hvc].
  apply orb_false_iff in Hv as [Hva Hvb].
  assert ((bz i0 =? 61) = false /\ (bz i1 =? 61) = false /\ (bz i2 =? 61) = false /\
          (bz i3 =? 61) = false) as (N0 & N1 & N2 & N3).
  { unfold quad_len in Hq. by destruct (bz i0 =? 61), (bz i1 =? 61), (bz i2 =? 61), (bz i3 =? 61). }
  assert (forall i, (base64_ascii_to_bin (bz i) =? 255) = false -> (bz i =? 61) = false ->
            0 <= base64_ascii_to_bin (bz i) < 64 /\ b64_char (base64_ascii_to_bin (bz i)) = i)
    as Hchar.
  { intros i Hi Hne. destruct (bin_char (bz i) (bz_range i)) as [?|[?|(? & Hc & _)]]; try lia.
    split; [done|]. by apply bz_inj. }
  destruct (Hchar i0 Hva N0) as [? C0]. destruct (Hchar i1 Hvb N1) as [? C1].
  destruct (Hchar i2 Hvc N2) as [? C2]. destruct (Hchar i3 Hvd N3) as [? C3].
  fold a in H, C0. fold b in H0, C1. fold c in H1, C2. fold d in H2, C3.
  unfold quad_bytes. cbn [b64]. rewrite !bz_zb_small by zdm.
  replace ((a * 4 + b / 16) / 4) with a by zdm.
  replace ((a * 4 + b / 16) mod 4 * 16 + (b mod 16 * 16 + c / 4) / 16) with b by zdm.
  replace ((b mod 16 * 16 + c / 4) mod 16 * 4 + (c mod 4 * 64 + d) / 64) with c by zdm.
  replace ((c mod 4 * 64 + d) mod 64) with d by zdm. by rewrite C0, C1, C2, C3.
Qed.

(** ** Decoding a block *)
Lemma decode_loop_b64 l rest : forall fuel out pos pre,
  zlen (b64 l) / 4 < Z.of_nat fuel -> room out pos (zlen pre + zlen (b64 l) / 4 * 3) ->
  decode_loop fuel (pos + zlen pre) (zlen pre) (b64 l ++ rest) (zlen (b64 l)) (fill out pos pre)
  = Done (zlen (pre ++ l)) (fill out pos (pre ++ l)).
Proof.
  induction l as [|a|a b|a b c l IH] using list_ind3; intros fuel out pos pre Hf Hr;
    (destruct fuel as [|fuel]; [zlen_pos; zdm|]); cbn [decode_loop].
  - cbn. by rewrite app_nil_r.
  - change (zlen (b64 [a])) with 4 in *. change (4 / 4 * 3) with 3 in Hr. cbn [Z.leb Z.compare].
    unfold bind. rewrite decode_b64_quad by (done || (cbn; lia)).
    destruct fuel as [|fuel]; [exfalso; change (4 / 4) with 1 in Hf; lia|]. cbn. by rewrite zlen_app.
  - change (zlen (b64 [a; b])) with 4 in *. change (4 / 4 * 3) with 3 in Hr. cbn [Z.leb Z.compare].
    unfold bind. rewrite decode_b64_quad by (done || (cbn; lia)).
    destruct fuel as [|fuel]; [exfalso; change (4 / 4) with 1 in Hf; lia|]. cbn. by rewrite zlen_app.
  - change (b64 (a :: b :: c :: l)) with (b64 [a; b; c] ++ b64 l) in *.
    rewrite zlen_app, <- app_assoc in *. change (zlen (b64 [a; b; c])) with 4 in *.
    pose proof (zlen_nonneg (b64 l)). unfold room in *.
    assert ((4 + zlen (b64 l)) / 4 * 3 = 3 + zlen (b64 l) / 4 * 3) as Hdiv by zdm.
    destruct (Z.leb_spec (4 + zlen (b64 l)) 0); [lia|].
    unfold bind. pose proof (Z.div_pos (zlen (b64 l)) 4 ltac:(lia) ltac:(lia)).
    rewrite decode_b64_quad by (done || (cbn; lia) || (unfold room; zlen_pos; lia)).
    change (zlen [a; b; c]) with 3. change (3 =? 3) with true. cbn [negb andb].
    change (drop 4 (b64 [a; b; c] ++ b64 l ++ rest)) with (b64 l ++ rest).
    replace (pos + zlen pre + 3) with (pos + zlen (pre ++ [a; b; c])) by zl.
    replace (zlen pre + 3) with (zlen (pre ++ [a; b; c])) by zl.
    replace (4 + zlen (b64 l) - 4) with (zlen (b64 l)) by lia.
    rewrite IH by (first [zdm | unfold room; rewrite zlen_app; change (zlen [a; b; c]) with 3; zlen_pos; lia]).
    by rewrite <- app_assoc.
Qed.

(** What the decoder leaves in the output on any input: whole quads decoded
    from the left, at most three bytes each. *)
Definition decoded_by (n : Z) (input out : list byte) (pos : Z) (pre : list byte)
    (o : outcome (list byte) Z) : Prop :=
  match o with
  | Done r out' => exists l, out' = fill out pos (pre ++ l) /\ r = zlen pre + zlen l /\
      zlen l <= 3 * n /\ (zlen l = 3 * n -> b64 l = take (Z.to_nat (4 * n)) input)
  | Fail out' => exists l, out' = fill out pos (pre ++ l) /\ zlen l <= 3 * n
  | _ => False
  end.

Lemma decode_loop_total n : forall fuel input out pos pre,
  (n < fuel)%nat -> 4 * Z.of_nat n <= zlen input -> room out pos (zlen pre + 3 * Z.of_nat n) ->
  decoded_by (Z.of_nat n) input out pos pre
    (decode_loop fuel (pos + zlen pre) (zlen pre) input (4 * Z.of_nat n) (fill out pos pre)).
Proof.
  induction n as [|n IH]; intros fuel input out pos pre Hf Hin Hr;
    (destruct fuel as [|fuel]; [lia|]); cbn [decode_loop].
  { exists []. rewrite app_nil_r. change (zlen []) with 0. repeat split; lia. }
  destruct (Z.leb_spec (4 * Z.of_nat (S n)) 0); [lia|].
  destruct input as [|i0 [|i1 [|i2 [|i3 input]]]]; try (unfold zlen in Hin; cbn in Hin; lia).
  unfold room in *. autorewrite with zlen in Hin.
  unfold bind. rewrite decode_quad_spec by (unfold room; zlen_pos; lia). cbv zeta.
  destruct (_ || _ || _ || _) eqn:Hv.
  { exists []. rewrite app_nil_r. split; [done|]. rewrite zlen_nil. lia. }
  destruct (quad_len i0 i1 i2 i3) as [k|] eqn:Hq.
  2:{ exists []. rewrite app_nil_r. split; [done|]. rewrite zlen_nil. lia. }
  set (qb := quad_bytes _ _ _ _). assert (k <= 3)%nat as Hk.
  { unfold quad_len in Hq. repeat case_match; simplify_eq; lia. }
  assert (zlen (take k qb) = Z.of_nat k) as Hlk.
  { unfold zlen. rewrite length_take. change (length qb) with 3%nat. lia. }
  destruct (negb (Z.of_nat k =? 3) && negb (4 * Z.of_nat (S n) =? 4)) eqn:Hstop.
  { exists (take k qb). split; [done|]. lia. }
  replace (pos + zlen pre + Z.of_nat k) with (pos + zlen (pre ++ take k qb)) by zl.
  replace (zlen pre + Z.of_nat k) with (zlen (pre ++ take k qb)) by zl.
  replace (4 * Z.of_nat (S n) - 4) with (4 * Z.of_nat n) by lia.
  specialize (IH fuel input out pos (pre ++ take k qb) ltac:(lia) ltac:(lia)
                ltac:(unfold room; zl)).
  unfold decoded_by in *.
  destruct (decode_loop _ _ _ _ _ _) as [r out'|out'| |]; try done.
  - destruct IH as (l & -> & -> & Hl & Hex). exists (take k qb ++ l).
    rewrite <- app_assoc. repeat split; try zl. intros Heq.
    rewrite zlen_app in Heq. assert (k = 3%nat) as -> by lia.
    rewrite b64_app3 by (by rewrite Hlk). rewrite Hex by lia. clear Hex.
    change (take 3 qb) with qb. unfold qb. rewrite quad_bytes_b64 by done.
    replace (Z.to_nat (4 * Z.of_nat (S n))) with (4 + Z.to_nat (4 * Z.of_nat n))%nat by lia.
    done.
  - destruct IH as (l & -> & Hl). exists (take k qb ++ l). rewrite <- app_assoc.
    split; [done|zl].
Qed.
