(* ===== verification/Base64Stream.v ===== *)
(** BoringSSL base64, the streaming interface: however the input is cut into
    chunks, the encoder writes the lines of 48 input bytes of the PEM format,
    and the decoder gives back the bytes, white space or not. *)
From S2P Require Import Prelude.
From S2P Require Import Base64.
From S2P Require Import Base64Proofs.

(** ** The lines of the PEM format *)
Definition line (l : list byte) : list byte := b64 l ++ [zb 10].

Fixpoint full_lines (n : nat) (l : list byte) : list byte :=
  match n with
  | O => []
  | S n => line (take 48 l) ++ full_lines n (drop 48 l)
  end.

Definition pem_lines (l : list byte) : list byte :=
  let n := (length l / 48)%nat in
  full_lines n l ++ (if (length l mod 48 =? 0)%nat then [] else line (drop (n * 48) l)).

Lemma b64_line_length l : length l = 48%nat -> zlen (b64 l) = 64.
Proof. intros H. rewrite b64_length. unfold zlen. by rewrite H. Qed.

Lemma full_lines_length n l : (n * 48 <= length l)%nat -> zlen (full_lines n l) = 65 * Z.of_nat n.
Proof.
  revert l. induction n as [|n IH]; intros l Hl; [done|]. cbn [full_lines]. unfold line.
  rewrite !zlen_app, b64_line_length by (rewrite length_take; lia).
  rewrite IH by (rewrite length_drop; lia). change (zlen [zb 10]) with 1. lia.
Qed.

(** ** Encoding a line over the null byte that ended the one before *)
Lemma encode_block_over l rest out pos pre r :
  (length r <= 1)%nat -> room out pos (zlen pre + zlen (b64 l) + 1) -> zlen (b64 l) < 2 ^ 64 ->
  EVP_EncodeBlock (pos + zlen pre) (l ++ rest) (zlen l) (fill out pos (pre ++ r)) =
  Done (zlen (b64 l)) (fill out pos (pre ++ b64 l ++ [zb 0])).
Proof.
  intros Hr Hroom Hlt. unfold room in *. pose proof (zlen_nonneg (b64 l)).
  assert (zlen r <= 1) by (unfold zlen; lia).
  rewrite encode_block_spec; [|unfold room; rewrite fill_length by (unfold room; zl); zl|done].
  f_equal. apply fill_over; [unfold room; zl|]. rewrite length_app. cbn. lia.
Qed.

(** [encoded] characters, a newline, and a null byte after it. *)
Lemma encode_line l rest out pos pre r {A} (k : Z -> B A) :
  (length r <= 1)%nat -> room out pos (zlen pre + zlen (line l) + 1) -> zlen (b64 l) < 2 ^ 64 ->
  (let* encoded := EVP_EncodeBlock (pos + zlen pre) (l ++ rest) (zlen l) in
   put (pos + zlen pre + encoded) 10;;; put (pos + zlen pre + encoded + 1) 0;;; k encoded)
    (fill out pos (pre ++ r))
  = k (zlen (b64 l)) (fill out pos (pre ++ line l ++ [zb 0])).
Proof.
  intros Hr Hroom Hlt. unfold line in *. rewrite zlen_app in Hroom.
  change (zlen [zb 10]) with 1 in *. unfold bind at 1. unfold room in *.
  rewrite encode_block_over by (done || (unfold room; zlen_pos; lia)). unfold bind.
  replace (pos + zlen pre + zlen (b64 l)) with (pos + zlen (pre ++ b64 l)) by zl.
  rewrite (app_assoc pre), (put_fill _ _ _ [zb 0]) by (unfold room; zl). cbn [tail].
  replace (pos + zlen (pre ++ b64 l) + 1) with (pos + zlen ((pre ++ b64 l) ++ [zb 10])) by zl.
  rewrite put_end by (unfold room; zl). by rewrite <- !app_assoc.
Qed.

(** ** The state of the encoder: the bytes that wait for the end of their line *)
Record ctx_holds (c : EVP_ENCODE_CTX) (p : list byte) : Prop := {
  ch_used : data_used c = zlen p;
  ch_data : take (length p) (data c) = p;
  ch_size : length (data c) = 48%nat;
  ch_short : (length p < 48)%nat
}.

Lemma memcpy_data_spec d (p l : list byte) n :
  length d = 48%nat -> take (length p) d = p -> (length p <= 48)%nat ->
  (n <= length l)%nat -> (length p + n <= 48)%nat ->
  forall out, exists d', memcpy_data d (zlen p) l (Z.of_nat n) out = Done d' out /\
    length d' = 48%nat /\ take (length p + n) d' = p ++ take n l.
Proof.
  intros Hd Hp Hp48 Hn Hpn out. unfold memcpy_data.
  destruct (Z.ltb_spec (zlen l) (Z.of_nat n)); [unfold zlen in *; lia|].
  pose proof (zlen_nonneg p). destruct (Z.leb_spec 0 (zlen p)); [|lia].
  destruct (Z.leb_spec (zlen p + Z.of_nat n) (zlen d)); [|unfold zlen in *; lia].
  cbn [andb]. eexists. split; [reflexivity|]. rewrite zlen_to_nat, Nat2Z.id, Hp.
  replace (Z.to_nat (zlen p + Z.of_nat n)) with (length p + n)%nat by (unfold zlen; lia).
  split.
  - rewrite !length_app, length_take, length_drop. lia.
  - rewrite app_assoc. rewrite take_app_length'; [done|]. rewrite length_app, length_take. lia.
Qed.

Lemma encode_lines_spec n : forall fuel l rem out pos pre r total,
  (n < fuel)%nat -> length l = (n * 48 + rem)%nat -> (rem < 48)%nat -> (length r <= 1)%nat ->
  room out pos (zlen pre + 65 * Z.of_nat n + 1) -> room out pos (zlen (pre ++ r)) ->
  0 <= total -> total + 65 * Z.of_nat n < 2 ^ 64 ->
  exists r', (length r' <= 1)%nat /\
    room out pos (zlen ((pre ++ full_lines n l) ++ r')) /\
    encode_lines fuel (pos + zlen pre) l (zlen l) total (fill out pos (pre ++ r)) =
    Done (Some (pos + zlen (pre ++ full_lines n l), drop (n * 48) l, Z.of_nat rem,
                total + 65 * Z.of_nat n))
      (fill out pos ((pre ++ full_lines n l) ++ r')).
Proof.
  induction n as [|n IH]; intros fuel l rem out pos pre r total Hf Hl Hrem Hr Hroom Hroomr Ht Hlt;
    (destruct fuel as [|fuel]; [lia|]); cbn [encode_lines full_lines]; unfold sizeof_data.
  - destruct (Z.leb_spec 48 (zlen l)); [unfold zlen in *; lia|].
    exists r. rewrite app_nil_r. repeat split; try done; try (unfold room in *; lia).
    unfold ret. repeat f_equal; unfold zlen; lia.
  - destruct (Z.leb_spec 48 (zlen l)); [|unfold zlen in *; lia].
    assert (length (take 48 l) = 48%nat) as H48 by (rewrite length_take; lia).
    pose proof (b64_line_length _ H48) as Hb64.
    assert (zlen (line (take 48 l)) = 65) as Hline by (unfold line; rewrite zlen_app, Hb64; done).
    pose proof (encode_line (take 48 l) (drop 48 l) out pos pre r
      (fun encoded => if u64 (total + encoded + 1) <? total then ret None
        else encode_lines fuel (pos + zlen pre + encoded + 1) (drop (Z.to_nat 48) l) (zlen l - 48)
               (u64 (total + encoded + 1))) Hr) as Hstep.
    rewrite take_drop in Hstep. change (zlen (take 48 l)) with (Z.of_nat (length (take 48 l))) in Hstep.
    rewrite H48, Hb64, Hline in Hstep. change (Z.of_nat 48) with 48 in Hstep.
    unfold room in *. specialize (Hstep ltac:(unfold room; zlen_pos; lia) ltac:(lia)).
    rewrite u64_small in Hstep by lia. destruct (Z.ltb_spec (total + 64 + 1) total); [lia|].
    change (Z.to_nat 48) with 48%nat in *.
    replace (zlen l - 48) with (zlen (drop 48 l)) in * by (unfold zlen; rewrite length_drop; lia).
    replace (pos + zlen pre + 64 + 1) with (pos + zlen (pre ++ line (take 48 l))) in Hstep by zl.
    rewrite (app_assoc pre) in Hstep.
    destruct (IH fuel (drop 48 l) rem out pos (pre ++ line (take 48 l)) [zb 0] (total + 64 + 1))
      as (r' & Hr' & Hroom' & He); try (rewrite ?length_drop; lia); try done;
      try (unfold room; rewrite !zlen_app, ?Hline; change (zlen [zb 0]) with 1; zlen_pos; lia).
    exists r'. rewrite (app_assoc pre). repeat split; try done; try apply Hroom'.
    etransitivity; [exact Hstep|]. rewrite He. rewrite drop_drop.
    replace (48 + n * 48)%nat with (S n * 48)%nat by lia. do 3 f_equal. lia.
Qed.

(** ** One call of the encoder *)
Lemma encode_update_short c p x out :
  ctx_holds c p -> x <> [] -> (length p + length x < 48)%nat ->
  exists c', ctx_holds c' (p ++ x) /\
    forall pos, EVP_EncodeUpdate c pos x (zlen x) out = Done (c', 0) out.
Proof.
  intros [Hu Hd Hs Hp] Hx Hlen.
  destruct (memcpy_data_spec (data c) p x (length x) Hs Hd ltac:(lia) ltac:(lia) ltac:(lia) out)
    as (d' & Hm & Hd' & Ht).
  rewrite (take_ge x) in Ht by lia.
  assert (forall pos, EVP_EncodeUpdate c pos x (zlen x) out =
            Done (set_data (zlen (p ++ x)) d' c, 0) out) as Heq.
  { intros pos. unfold EVP_EncodeUpdate. rewrite Hu.
    destruct (Z.eqb_spec (zlen x) 0) as [H0|_].
    { destruct x; [done|]. rewrite zlen_cons in H0. pose proof (zlen_nonneg x). lia. }
    rewrite bind_assert by (unfold sizeof_data, zlen; lia).
    unfold sizeof_data. rewrite u64_small by (unfold zlen; lia).
    destruct (Z.ltb_spec (zlen x) (48 - zlen p)); [|unfold zlen in *; lia].
    unfold bind. unfold zlen at 2. rewrite Hm. unfold ret. repeat f_equal.
    rewrite (u32_small (zlen x)), u32_small by (unfold zlen; lia). by rewrite zlen_app. }
  eexists. split; [|by eauto].
  constructor; cbn; auto; rewrite length_app; [done|lia].
Qed.

Lemma full_lines_S n p x :
  (length p < 48)%nat -> (48 - length p <= length x)%nat ->
  full_lines (S n) (p ++ x) =
  line (p ++ take (48 - length p) x) ++ full_lines n (drop (48 - length p) x).
Proof.
  intros Hp Hx. cbn [full_lines]. rewrite take_app_ge, drop_app_ge by lia. done.
Qed.

(** The rest of the input, after the pending line has been filled. *)
Lemma encode_tail c l out pos pre r total :
  length (data c) = 48%nat -> (length r <= 1)%nat ->
  let n := (length l / 48)%nat in
  room out pos (zlen pre + 65 * Z.of_nat n + 1) -> room out pos (zlen (pre ++ r)) ->
  0 <= total -> total + 65 * Z.of_nat n <= INT_MAX ->
  exists c' r', ctx_holds c' (drop (n * 48) l) /\ (length r' <= 1)%nat /\
    room out pos (zlen ((pre ++ full_lines n l) ++ r')) /\
    (let* r := encode_lines (S (Z.to_nat (zlen l / sizeof_data))) (pos + zlen pre) l (zlen l) total in
     match r with
     | None => ret (c, 0)
     | Some (out, input, in_len, total) =>
        let* d := (if negb (in_len =? 0) then memcpy_data (data c) 0 input in_len
                   else ret (data c)) in
        ret (set_data (u32 in_len) d c, if INT_MAX <? total then 0 else total)
     end) (fill out pos (pre ++ r)) =
    Done (c', total + 65 * Z.of_nat n) (fill out pos ((pre ++ full_lines n l) ++ r')).
Proof.
  intros Hc Hr n Hroom Hroomr Ht Hmax. set (rem := (length l mod 48)%nat).
  assert (length l = (n * 48 + rem)%nat /\ (rem < 48)%nat) as [Hl Hrem].
  { unfold n, rem. pose proof (Nat.div_mod_eq (length l) 48).
    pose proof (Nat.mod_upper_bound (length l) 48). lia. }
  assert (Z.to_nat (zlen l / sizeof_data) = n) as Hn.
  { unfold n, sizeof_data, zlen. change 48 with (Z.of_nat 48).
    rewrite <- Nat2Z.inj_div. lia. }
  rewrite Hn. unfold INT_MAX in *. clearbody rem.
  destruct (encode_lines_spec n (S n) l rem out pos pre r total) as (r' & Hr' & Hroom' & He);
    try done; try lia.
  assert (length (drop (n * 48) l) = rem) as Hdrop by (rewrite length_drop; lia).
  unfold bind at 1. rewrite He.
  destruct (Z.ltb_spec (2 ^ 31 - 1) (total + 65 * Z.of_nat n)); [lia|].
  rewrite u32_small by lia.
  destruct (Z.eqb_spec (Z.of_nat rem) 0) as [H0|H0]; cbn [negb].
  - exists (set_data (Z.of_nat rem) (data c) c), r'.
    split; [|split; [done|split; [done|reflexivity]]].
    destruct (drop (n * 48) l); [|cbn in Hdrop; lia].
    constructor; cbn; auto; lia.
  - destruct (memcpy_data_spec (data c) [] (drop (n * 48) l) rem Hc eq_refl
      ltac:(cbn; lia) ltac:(lia) ltac:(cbn; lia) (fill out pos ((pre ++ full_lines n l) ++ r')))
      as (d' & Hm & Hd' & Htk).
    exists (set_data (Z.of_nat rem) d' c), r'. cbn [length Nat.add app] in Htk.
    rewrite (take_ge (drop _ _)) in Htk by lia.
    split; [|split; [done|split; [done|]]].
    + constructor; cbn [set_data data_used data]; [unfold zlen|..]; rewrite ?Hdrop; auto; lia.
    + unfold bind. change (zlen []) with 0 in Hm. by rewrite Hm.
Qed.

Lemma encode_update_spec c p x out pos pre r :
  ctx_holds c p -> (length r <= 1)%nat ->
  let n := (length (p ++ x) / 48)%nat in
  room out pos (zlen pre + 65 * Z.of_nat n + 1) -> room out pos (zlen (pre ++ r)) ->
  65 * Z.of_nat n <= INT_MAX ->
  exists c' r', ctx_holds c' (drop (n * 48) (p ++ x)) /\ (length r' <= 1)%nat /\
    room out pos (zlen ((pre ++ full_lines n (p ++ x)) ++ r')) /\
    EVP_EncodeUpdate c (pos + zlen pre) x (zlen x) (fill out pos (pre ++ r)) =
    Done (c', 65 * Z.of_nat n) (fill out pos ((pre ++ full_lines n (p ++ x)) ++ r')).
Proof.
  intros Hc Hr n Hroom Hroomr Hmax.
  destruct (decide (length p + length x < 48)%nat) as [Hshort|Hlong].
  { assert (n = 0%nat) as -> by (unfold n; rewrite length_app; apply Nat.div_small; lia).
    cbn [Nat.mul full_lines drop]. rewrite app_nil_r.
    destruct x as [|b x].
    - exists c, r. rewrite app_nil_r. repeat split; try apply Hc; try done; apply Hroomr.
    - destruct (encode_update_short c p (b :: x) (fill out pos (pre ++ r)) Hc ltac:(done) Hshort)
        as (c' & Hc' & He).
      exists c', r. by rewrite He. }
  destruct Hc as [Hu Hd Hs Hp].
  unfold EVP_EncodeUpdate. rewrite Hu.
  destruct (Z.eqb_spec (zlen x) 0) as [H0|_]; [unfold zlen in *; lia|].
  rewrite bind_assert by (unfold sizeof_data, zlen; lia).
  change sizeof_data with 48. rewrite u64_small by (unfold zlen; lia).
  destruct (Z.ltb_spec (zlen x) (48 - zlen p)); [unfold zlen in *; lia|].
  destruct (Z.eqb_spec (zlen p) 0) as [Hp0|Hp0]; cbn [negb].
  { destruct p; [|unfold zlen in Hp0; cbn in Hp0; lia]. cbn [app] in *.
    unfold bind at 1, ret at 1. by apply encode_tail. }
  assert (exists k, n = S k /\ k = (length (drop (48 - length p) x) / 48)%nat) as (k & Hk & Hkd).
  { exists ((length (p ++ x) - 48) / 48)%nat. rewrite length_drop.
    assert (length (p ++ x) = 1 * 48 + (length (p ++ x) - 48))%nat as Hsplit
      by (rewrite length_app; lia).
    split.
    - unfold n. rewrite Hsplit at 1. rewrite Nat.div_add_l by lia. lia.
    - f_equal. rewrite length_app. lia. }
  set (todo := (48 - length p)%nat) in *.
  assert (Z.to_nat (48 - zlen p) = todo) as Htodo by (unfold todo, zlen; lia).
  destruct (memcpy_data_spec (data c) p x todo Hs Hd ltac:(lia) ltac:(unfold zlen in *; lia)
    ltac:(lia) (fill out pos (pre ++ r))) as (d' & Hm & Hd' & Htk).
  rewrite (take_ge d') in Htk by lia.
  replace (Z.of_nat todo) with (48 - zlen p) in Hm by (unfold todo, zlen; lia).
  assert (zlen d' = 48) as Hzd by (unfold zlen; lia).
  pose proof (b64_line_length d' Hd') as Hb64.
  assert (zlen (line d') = 65) as Hline by (unfold line; rewrite zlen_app, Hb64; done).
  rewrite Hk in *. unfold room in *.
  pose proof (encode_line d' [] out pos pre r
    (fun encoded => ret (set_data 0 d' c, pos + zlen pre + encoded + 1, drop todo x,
                         zlen x - (48 - zlen p), encoded + 1)) Hr
    ltac:(unfold room; zlen_pos; lia) ltac:(lia)) as Hstep.
  rewrite app_nil_r, Hzd, Hb64 in Hstep.
  unfold INT_MAX in *.
  destruct (encode_tail (set_data 0 d' c) (drop todo x) out pos (pre ++ line d') [zb 0] 65)
    as (c' & r' & Hc' & Hr' & Hroom' & Htail); try done; rewrite <- ?Hkd; unfold INT_MAX; try lia;
    try (unfold room; rewrite !zlen_app, ?Hline; change (zlen [zb 0]) with 1; zlen_pos; lia).
  rewrite <- Hkd in *. exists c', r'.
  rewrite full_lines_S by (unfold zlen in *; lia). fold todo. rewrite <- Htk, (app_assoc pre).
  split; [|split; [done|split; [done|]]].
  - replace (drop (S k * 48) (p ++ x)) with (drop (k * 48) (drop todo x)); [done|].
    rewrite drop_app_ge, drop_drop by lia. f_equal. unfold todo. lia.
  - rewrite Htodo. unfold bind at 1.
    match goal with |- match ?m with _ => _ end = _ =>
      assert (m = Done (set_data 0 d' c, pos + zlen (pre ++ line d'), drop todo x,
                        zlen (drop todo x), 65) (fill out pos ((pre ++ line d') ++ [zb 0]))) as -> end.
    + unfold bind at 1. rewrite Hm. etransitivity; [exact Hstep|]. unfold ret. rewrite <- app_assoc.
      assert (pos + zlen pre + 64 + 1 = pos + zlen (pre ++ line d')) as ->
        by (rewrite zlen_app, Hline; lia).
      assert (zlen x - (48 - zlen p) = zlen (drop todo x)) as ->; [|done].
      rewrite zlen_drop by (unfold zlen in *; lia). unfold zlen, todo in *. lia.
    + cbv beta iota. etransitivity; [exact Htail|]. do 2 f_equal. lia.
Qed.

(** ** The whole stream *)
Lemma pem_step l : (48 <= length l)%nat -> pem_lines l = line (take 48 l) ++ pem_lines (drop 48 l).
Proof.
  intros Hl. unfold pem_lines. rewrite length_drop.
  assert (length l = 1 * 48 + (length l - 48))%nat as Hs by lia.
  assert (length l / 48 = S ((length l - 48) / 48))%nat as ->.
  { rewrite Hs at 1. rewrite Nat.div_add_l by lia. lia. }
  assert (length l mod 48 = (length l - 48) mod 48)%nat as ->.
  { rewrite Hs at 1. rewrite Nat.add_comm, Nat.Div0.mod_add. done. }
  cbn [full_lines]. rewrite <- app_assoc, drop_drop.
  by replace (48 + (length l - 48) / 48 * 48)%nat with (S ((length l - 48) / 48) * 48)%nat by lia.
Qed.

Lemma pem_cut n l k : (n * 48 <= length l)%nat ->
  pem_lines (l ++ k) = full_lines n l ++ pem_lines (drop (n * 48) l ++ k).
Proof.
  revert l. induction n as [|n IH]; intros l Hl; [done|].
  rewrite pem_step by (rewrite length_app; lia).
  rewrite take_app_le, drop_app_le by lia. cbn [full_lines].
  rewrite IH by (rewrite length_drop; lia). rewrite <- app_assoc, drop_drop.
  by replace (48 + n * 48)%nat with (S n * 48)%nat by lia.
Qed.

Lemma pem_short p : (length p < 48)%nat ->
  pem_lines p = match p with [] => [] | _ => line p end.
Proof.
  intros Hp. unfold pem_lines. rewrite Nat.div_small, Nat.mod_small by done. cbn [full_lines].
  rewrite drop_0. by destruct p.
Qed.

Lemma pem_length l : zlen (pem_lines l) <= 65 * (zlen l / 48) + 65.
Proof.
  unfold pem_lines. rewrite zlen_app, full_lines_length by (rewrite Nat.mul_comm; apply Nat.Div0.mul_div_le).
  assert (Z.of_nat (length l / 48) = zlen l / 48) as -> by (unfold zlen; by rewrite Nat2Z.inj_div).
  destruct (_ =? 0)%nat; [change (zlen []) with 0; lia|]. unfold line.
  rewrite zlen_app, b64_length. change (zlen [zb 10]) with 1.
  assert (zlen (drop (length l / 48 * 48) l) < 48); [|zdm].
  unfold zlen. rewrite length_drop. pose proof (Nat.div_mod_eq (length l) 48).
  pose proof (Nat.mod_upper_bound (length l) 48). lia.
Qed.

Lemma encode_final_spec c p out pos pre r :
  ctx_holds c p -> (length r <= 1)%nat -> room out pos (zlen pre + zlen (pem_lines p) + 1) ->
  exists r' c', (length r' <= 1)%nat /\
    EVP_EncodeFinal c (pos + zlen pre) (fill out pos (pre ++ r)) =
    Done (c', zlen (pem_lines p)) (fill out pos ((pre ++ pem_lines p) ++ r')).
Proof.
  intros [Hu Hd Hs Hp] Hr Hroom. rewrite pem_short in * by done. unfold EVP_EncodeFinal. rewrite Hu.
  destruct p as [|b p'].
  - exists r, c. cbn. by rewrite app_nil_r.
  - set (p := b :: p') in *. destruct (Z.eqb_spec (zlen p) 0) as [H0|_].
    { unfold p in H0. rewrite zlen_cons in H0. zlen_pos. lia. }
    assert (data c = p ++ drop (length p) (data c)) as Hdata.
    { rewrite <- Hd at 1. by rewrite take_drop. }
    pose proof (encode_line p (drop (length p) (data c)) out pos pre r
      (fun encoded => assert (encoded + 1 <=? INT_MAX);;;
         ret (set_data 0 (data c) c, encoded + 1)) Hr Hroom) as Hl.
    exists [zb 0], (set_data 0 (data c) c). split; [cbn; lia|].
    assert (zlen (b64 p) < 2 ^ 64) as Hlt.
    { rewrite b64_length. unfold zlen. zdm. }
    specialize (Hl Hlt). rewrite <- Hdata, app_assoc in Hl.
    rewrite bind_assert in Hl by (unfold INT_MAX; rewrite b64_length; unfold zlen; zdm).
    replace (zlen (line p)) with (zlen (b64 p) + 1) by (unfold line; by rewrite zlen_app).
    etransitivity; [|exact Hl]. unfold bind. destruct (EVP_EncodeBlock _ _ _ _); try done.
    by rewrite Z.add_assoc.
Qed.

(** A caller that encodes the chunks one after the other, then finishes; the
    position after the last character. *)
Fixpoint encode_chunks (c : EVP_ENCODE_CTX) (out : Z) (chunks : list (list byte)) : B Z :=
  match chunks with
  | [] => let* (c, n) := EVP_EncodeFinal c out in ret (out + n)
  | x :: chunks =>
      let* (c, n) := EVP_EncodeUpdate c out x (zlen x) in encode_chunks c (out + n) chunks
  end.

Lemma encode_chunks_spec chunks : forall c p out pos pre r,
  ctx_holds c p -> (length r <= 1)%nat -> zlen p + zlen (concat chunks) < 2 ^ 30 ->
  room out pos (zlen pre + zlen (pem_lines (p ++ concat chunks)) + 1) ->
  room out pos (zlen (pre ++ r)) ->
  exists r', (length r' <= 1)%nat /\
    encode_chunks c (pos + zlen pre) chunks (fill out pos (pre ++ r)) =
    let text := pre ++ pem_lines (p ++ concat chunks) in
    Done (pos + zlen text) (fill out pos (text ++ r')).
Proof.
  induction chunks as [|x chunks IH]; intros c p out pos pre r Hc Hr Hlen Hroom Hroomr;
    cbn [encode_chunks concat] in *.
  - rewrite app_nil_r in *. unfold bind.
    destruct (encode_final_spec c p out pos pre r Hc Hr Hroom) as (r' & c' & Hr' & ->).
    exists r'. split; [done|]. cbv zeta. unfold ret. rewrite zlen_app. f_equal. lia.
  - rewrite app_assoc in *. set (n := (length (p ++ x) / 48)%nat).
    assert (n * 48 <= length (p ++ x))%nat as Hn
      by (unfold n; rewrite Nat.mul_comm; apply Nat.Div0.mul_div_le).
    pose proof (full_lines_length n (p ++ x) Hn) as Hfl.
    rewrite (pem_cut n) in * by done. rewrite zlen_app in Hroom, Hlen. unfold room in *.
    assert (Z.of_nat n * 48 <= zlen p + zlen x) as Hn'.
    { unfold zlen. rewrite length_app in Hn. lia. }
    destruct (encode_update_spec c p x out pos pre r Hc Hr) as (c' & r1 & Hc' & Hr1 & Hroom1 & He).
    { unfold room. fold n. zlen_pos. lia. }
    { done. }
    { fold n. unfold INT_MAX. zlen_pos. lia. }
    fold n in Hc', Hroom1, He. unfold bind. rewrite He.
    replace (pos + zlen pre + 65 * Z.of_nat n) with (pos + zlen (pre ++ full_lines n (p ++ x)))
      by (rewrite zlen_app; lia).
    destruct (IH c' (drop (n * 48) (p ++ x)) out pos (pre ++ full_lines n (p ++ x)) r1 Hc' Hr1)
      as (r' & Hr' & ->).
    + rewrite zlen_drop by done. rewrite zlen_app. lia.
    + unfold room. rewrite !zlen_app. lia.
    + exact Hroom1.
    + exists r'. cbv zeta. by rewrite <- (app_assoc pre).
Qed.

(** ** The streaming decoder *)
Definition nonspace (l : list byte) : list byte :=
  List.filter (fun b => negb (is_space (bz b))) l.

Record dec_holds (c : EVP_ENCODE_CTX) (q : list byte) : Prop := {
  dh_used : data_used c = zlen q;
  dh_data : take (length q) (data c) = q;
  dh_size : length (data c) = 48%nat;
  dh_short : (length q < 4)%nat;
  dh_error : error_encountered c = false
}.

Lemma b64_split l : l <> [] ->
  b64 l = b64 (take 3 l) ++ b64 (drop 3 l) /\ length (b64 (take 3 l)) = 4%nat.
Proof. by destruct l as [|a [|b [|d l]]]. Qed.

Lemma b64_nil_inv l : b64 l = [] -> l = [].
Proof. by destruct l as [|a [|b [|d l]]]. Qed.

Lemma b64_room l : l <> [] ->
  zlen (b64 l) / 4 * 3 = 3 + zlen (b64 (drop 3 l)) / 4 * 3.
Proof.
  intros Hl. destruct (b64_split l Hl) as [-> Hq]. rewrite zlen_app.
  assert (zlen (b64 (take 3 l)) = 4) as -> by (unfold zlen; lia).
  zlen_pos. zdm.
Qed.

Lemma decode_update_loop_spec x : forall c q l fut out pos pre n,
  dec_holds c q -> (eof_seen c = true -> l = []) -> q ++ nonspace x ++ fut = b64 l ->
  room out pos (zlen pre + zlen (b64 l) / 4 * 3) ->
  exists c' l1 l2 q', l = l1 ++ l2 /\ dec_holds c' q' /\ (eof_seen c' = true -> l2 = []) /\
    q' ++ fut = b64 l2 /\ zlen (b64 l) / 4 * 3 >= zlen l1 + zlen (b64 l2) / 4 * 3 /\
    decode_update_loop (length x) c (pos + zlen pre) n x (fill out pos pre) =
    Done (c', Some (n + zlen l1)) (fill out pos (pre ++ l1)).
Proof.
  induction x as [|b x IH]; intros c q l fut out pos pre n Hc Heof Hq Hroom.
  { exists c, [], l, q. cbn. rewrite app_nil_r, Z.add_0_r.
    do 4 (split; [done|]). split; [|done]. zl. }
  cbn [length decode_update_loop]. unfold bind at 1. rewrite (rd_lookup _ 0 b) by done.
  change (drop 1 (b :: x)) with x. unfold nonspace in Hq. cbn [List.filter] in Hq.
  fold (nonspace x) in Hq. destruct (is_space (bz b)); cbn [negb] in Hq.
  { by apply (IH c q). }
  assert (l <> []) as Hl.
  { intros ->. by destruct q. }
  destruct (eof_seen c) eqn:He; [by specialize (Heof eq_refl)|].
  destruct Hc as [Hu Hd Hs Hqs Herr]. rewrite Hu.
  destruct (memcpy_data_spec (data c) q [zb (bz b)] 1 Hs Hd ltac:(lia) ltac:(cbn; lia) ltac:(lia)
    (fill out pos pre)) as (d' & Hm & Hd' & Htk).
  unfold bind at 1. change (Z.of_nat 1) with 1 in Hm. rewrite Hm.
  rewrite zb_bz in *. change (take 1 [b]) with [b] in Htk.
  rewrite u32_small by (unfold zlen; lia). cbn [set_data data_used data].
  destruct (Z.eqb_spec (zlen q + 1) 4) as [H4|H4].
  - destruct (b64_split l Hl) as [Hsplit Hlen].
    assert (q ++ [b] = b64 (take 3 l) /\ nonspace x ++ fut = b64 (drop 3 l)) as [Hquad Hrest].
    { rewrite Hsplit in Hq. change ((b :: nonspace x) ++ fut) with ([b] ++ (nonspace x ++ fut)) in Hq.
      rewrite (app_assoc q [b]) in Hq. apply app_inj_1; [|exact Hq].
      rewrite length_app. cbn. unfold zlen in H4. lia. }
    assert (d' = b64 (take 3 l) ++ drop 4 d') as Hd4.
    { rewrite <- Hquad, <- Htk. replace (length q + 1)%nat with 4%nat by (unfold zlen in H4; lia).
      by rewrite take_drop. }
    pose proof (b64_room l Hl) as Hbr. unfold room in *. 
    pose proof (zlen_nonneg (b64 (drop 3 l))).
    pose proof (Z.div_pos (zlen (b64 (drop 3 l))) 4 ltac:(lia) ltac:(lia)).
    unfold bind, attempt. rewrite Hd4.
    rewrite decode_b64_quad; [|by destruct l|rewrite length_take; lia|unfold room; zlen_pos; lia].
    rewrite <- Hd4.
    set (c1 := if zlen (take 3 l) <? 3 then _ else _).
    assert (zlen (take 3 l) <= 3) as Ht3 by (unfold zlen; rewrite length_take; lia).
    destruct (IH c1 [] (drop 3 l) fut out pos (pre ++ take 3 l) (n + zlen (take 3 l)))
      as (c' & l1 & l2 & q' & Hl12 & Hc' & Heof' & Hq' & Hge & Hrun).
    + unfold c1. destruct (_ <? 3); constructor; cbn; auto; lia.
    + unfold c1. destruct (Z.ltb_spec (zlen (take 3 l)) 3) as [Hlt|]; cbn.
      * intros _. apply nil_length_inv. rewrite length_drop. unfold zlen in Hlt.
        rewrite length_take in Hlt. lia.
      * rewrite He. done.
    + by rewrite app_nil_l.
    + unfold room. rewrite zlen_app. zlen_pos. lia.
    + exists c', (take 3 l ++ l1), l2, q'. rewrite <- app_assoc, <- Hl12, take_drop.
      do 4 (split; [done|]). split; [rewrite zlen_app; lia|].
      rewrite zlen_app in Hrun. rewrite (app_assoc pre), zlen_app, Z.add_assoc.
      rewrite Z.add_assoc in Hrun. exact Hrun.
  - destruct (IH (set_data (zlen q + 1) d' c) (q ++ [b]) l fut out pos pre n)
      as (c' & l1 & l2 & q' & H1 & H2 & H3 & H5 & H6 & Hrun); try done.
    + constructor; cbn; auto; rewrite ?zlen_app, ?length_app; cbn; try done; unfold zlen in *; lia.
    + cbn. by rewrite He.
    + by rewrite <- app_assoc.
    + by exists c', l1, l2, q'.
Qed.

(** A caller that decodes the chunks one after the other, and gives up on -1. *)
Fixpoint decode_chunks (c : EVP_ENCODE_CTX) (out : Z) (chunks : list (list byte)) : B Z :=
  match chunks with
  | [] => if snd (EVP_DecodeFinal c) =? -1 then failed else ret (out + fst (EVP_DecodeFinal c))
  | x :: chunks =>
      let* (c, n, r) := EVP_DecodeUpdate c out x (zlen x) in
      if r =? -1 then failed else decode_chunks c (out + n) chunks
  end.

Lemma nonspace_app l k : nonspace (l ++ k) = nonspace l ++ nonspace k.
Proof. apply List.filter_app. Qed.

Lemma decode_chunks_spec chunks : forall c q l out pos pre,
  dec_holds c q -> (eof_seen c = true -> l = []) ->
  q ++ nonspace (concat chunks) = b64 l -> zlen l <= INT_MAX ->
  room out pos (zlen pre + zlen (b64 l) / 4 * 3) ->
  decode_chunks c (pos + zlen pre) chunks (fill out pos pre) =
  Done (pos + zlen (pre ++ l)) (fill out pos (pre ++ l)).
Proof.
  induction chunks as [|x chunks IH]; intros c q l out pos pre Hc Heof Hq Hmax Hroom;
    cbn [decode_chunks concat] in *.
  - rewrite app_nil_r in Hq. destruct Hc as [Hu _ _ Hs He].
    assert (l = []) as ->.
    { destruct (decide (l = [])) as [|Hne]; [done|]. destruct (b64_split l Hne) as [Hsp Hlen].
      apply (f_equal length) in Hq. rewrite Hsp, length_app in Hq. lia. }
    destruct q; [|done]. unfold EVP_DecodeFinal. rewrite He, Hu. cbn.
    by rewrite app_nil_r, Z.add_0_r.
  - rewrite nonspace_app in Hq.
    destruct (decode_update_loop_spec x c q l _ out pos pre 0 Hc Heof Hq Hroom)
      as (c' & l1 & l2 & q' & -> & Hc' & Heof' & Hq' & Hge & Hrun).
    unfold EVP_DecodeUpdate. rewrite (dh_error _ _ Hc). unfold bind at 1 2.
    rewrite zlen_to_nat, Hrun, Z.add_0_l. rewrite zlen_app in Hmax.
    destruct (Z.ltb_spec INT_MAX (zlen l1)); [zlen_pos; lia|].
    assert (((if eof_seen c' then 0 else 1) =? -1) = false) as Hr by (by destruct (eof_seen c')).
    unfold ret at 1. rewrite Hr.
    replace (pos + zlen pre + zlen l1) with (pos + zlen (pre ++ l1)) by zl.
    rewrite (IH c' q' l2 out pos (pre ++ l1)); auto.
    + by rewrite <- app_assoc.
    + zlen_pos. lia.
    + unfold room in *. rewrite zlen_app. zlen_pos.
      pose proof (Z.div_pos (zlen (b64 l2)) 4 ltac:(lia) ltac:(lia)). lia.
Qed.

(** The lines of the encoder are the encoding, but for the newlines. *)
Lemma nonspace_char v : 0 <= v < 64 -> is_space (bz (b64_char v)) = false.
Proof.
  intros Hv. apply negb_true_iff.
  assert (negb (is_space (bz (b64_char (v mod 64)))) = true) as H; [|by rewrite Z.mod_small in H].
  apply (forall_byte (fun v => negb (is_space (bz (b64_char (v mod 64)))))); [|lia].
  vm_compute. reflexivity.
Qed.

Lemma nonspace_b64 l : nonspace (b64 l) = b64 l.
Proof.
  assert (forall v k, 0 <= v < 64 -> nonspace (b64_char v :: k) = b64_char v :: nonspace k) as Hc.
  { intros v k Hv. unfold nonspace. cbn [List.filter]. by rewrite nonspace_char. }
  assert (forall k, nonspace (zb 61 :: k) = zb 61 :: nonspace k) as He by done.
  induction l as [|a|a b|a b c l IH] using list_ind3; [done| | |]; cbn [b64];
    pose proof (bz_range a); try pose proof (bz_range b); try pose proof (bz_range c);
    rewrite ?Hc, ?He by zdm; [done|done|by rewrite IH].
Qed.

Lemma nonspace_full_lines n l : (n * 48 <= length l)%nat ->
  nonspace (full_lines n l) = b64 (take (n * 48) l).
Proof.
  revert l. induction n as [|n IH]; intros l Hl; [done|].
  cbn [full_lines]. unfold line. rewrite !nonspace_app, nonspace_b64, IH by (rewrite length_drop; lia).
  change (nonspace [zb 10]) with (@nil byte). rewrite app_nil_r.
  rewrite <- b64_app3 by (unfold zlen; rewrite length_take, Nat.min_l by lia; done).
  f_equal. replace (S n * 48)%nat with (48 + n * 48)%nat by lia.
  by rewrite take_take_drop.
Qed.

Lemma nonspace_pem l : nonspace (pem_lines l) = b64 l.
Proof.
  unfold pem_lines. set (n := (length l / 48)%nat).
  assert (n * 48 <= length l)%nat as Hn by (unfold n; rewrite Nat.mul_comm; apply Nat.Div0.mul_div_le).
  rewrite nonspace_app, nonspace_full_lines by done.
  assert (b64 l = b64 (take (n * 48) l) ++ b64 (drop (n * 48) l)) as ->.
  { rewrite <- b64_app3, take_drop; [done|]. unfold zlen. rewrite length_take, Nat.min_l by done.
    replace (Z.of_nat (n * 48)) with (0 + 16 * Z.of_nat n * 3) by lia. by rewrite Z_mod_plus_full. }
  f_equal. destruct (Nat.eqb_spec (length l mod 48) 0) as [H0|H0].
  - assert (drop (n * 48) l = []) as ->; [|done]. apply nil_length_inv. rewrite length_drop.
    pose proof (Nat.div_mod_eq (length l) 48). unfold n in *. lia.
  - unfold line. rewrite nonspace_app, nonspace_b64. by rewrite app_nil_r.
Qed.
