(* ===== verification/Base64Theorems.v ===== *)
(** BoringSSL base64: the properties of the block and of the streaming
    interface, with their witnesses. *)
From S2P Require Import Prelude.
From S2P Require Import Base64.
From S2P Require Import Base64Proofs.
From S2P Require Import Base64Stream.

Definition hello : list byte := map zb [72; 101; 108; 108; 111; 33; 255].

(** [EVP_EncodedLength] gives the room that [EVP_EncodeBlock] needs, its
    null byte included, and an error exactly when this is not a [size_t];
    [EVP_EncodeBlock] writes the RFC 4648 encoding and a null byte there, and
    nothing else. *)
Theorem encode_block_exact l rest out dst :
  zlen l < 2 ^ 64 ->
  match EVP_EncodedLength (zlen l) with
  | Some n =>
      n = zlen (b64 l) + 1 /\
      (0 <= dst -> dst + n <= zlen out ->
       EVP_EncodeBlock dst (l ++ rest) (zlen l) out =
       Done (zlen (b64 l)) (fill out dst (b64 l ++ [zb 0])))
  | None => 2 ^ 64 <= zlen (b64 l) + 1
  end.
Proof.
  intros Hl. pose proof (zlen_nonneg l). pose proof (b64_length l) as Hb.
  unfold EVP_EncodedLength. destruct (Z.lt_ge_cases (zlen l + 2) (2 ^ 64)) as [Hw|Hw].
  2:{ assert (u64 (zlen l + 2) = zlen l + 2 - 2 ^ 64) as ->.
      { unfold u64. symmetry. apply (Z.mod_unique _ _ 1); lia. }
      destruct (Z.ltb_spec (zlen l + 2 - 2 ^ 64) (zlen l)); [|lia]. rewrite Hb. zdm. }
  rewrite (u64_small (zlen l + 2)) by lia.
  destruct (Z.ltb_spec (zlen l + 2) (zlen l)); [lia|]. set (k := (zlen l + 2) / 3) in *.
  assert (0 <= k) by (apply Z.div_pos; lia).
  rewrite Z.shiftl_mul_pow2, Z.shiftr_div_pow2 by lia. change (2 ^ 2) with 4.
  destruct (Z.lt_ge_cases (4 * k) (2 ^ 64)) as [Hk|Hk].
  - rewrite (u64_small (k * 4)), Z_div_mult, Z.eqb_refl by lia. cbn [negb].
    assert (k * 4 + 1 < 2 ^ 64) by lia. rewrite u64_small by lia.
    destruct (Z.ltb_spec (k * 4 + 1) (k * 4)); [lia|]. split; [lia|]. intros Hd Hout.
    apply encode_block_spec; unfold room; lia.
  - destruct (Z.eqb_spec (u64 (k * 4) / 4) k) as [He|]; cbn [negb]; [|lia].
    pose proof (u64_range (k * 4)). exfalso. zdm.
Qed.

Lemma encode_block_exact_witness :
  match EVP_EncodedLength (zlen hello) with
  | Some n =>
      n = zlen (b64 hello) + 1 /\
      (0 <= 2 -> 2 + n <= zlen (replicate 20 (zb 7)) ->
       EVP_EncodeBlock 2 (hello ++ [zb 1]) (zlen hello) (replicate 20 (zb 7)) =
       Done (zlen (b64 hello)) (fill (replicate 20 (zb 7)) 2 (b64 hello ++ [zb 0])))
  | None => 2 ^ 64 <= zlen (b64 hello) + 1
  end.
Proof. apply (encode_block_exact hello [zb 1] (replicate 20 (zb 7)) 2). reflexivity. Defined.

(** The decoder on an encoding, whatever follows it. *)
Lemma decode_b64 l rest out pos max_out :
  zlen (b64 l) / 4 * 3 <= max_out -> 0 <= pos -> pos + zlen (b64 l) / 4 * 3 <= zlen out ->
  EVP_DecodeBase64 pos max_out (b64 l ++ rest) (zlen (b64 l)) out = Done (zlen l) (fill out pos l).
Proof.
  intros Hm Hp Hout. unfold EVP_DecodeBase64, EVP_DecodedLength.
  assert (zlen (b64 l) mod 4 = 0) as ->.
  { rewrite b64_length, Z.mul_comm. apply Z_mod_mult. }
  cbn [Z.eqb negb]. destruct (Z.ltb_spec max_out (zlen (b64 l) / 4 * 3)); [lia|].
  pose proof (decode_loop_b64 l rest (S (Z.to_nat (zlen (b64 l) / 4))) out pos []) as Hd.
  pose proof (zlen_nonneg (b64 l)). pose proof (Z.div_pos (zlen (b64 l)) 4 ltac:(lia) ltac:(lia)).
  cbn [app] in Hd. change (zlen []) with 0 in Hd. rewrite Z.add_0_r in Hd.
  rewrite fill_nil in Hd by (unfold room; lia).
  apply Hd; unfold room; lia.
Qed.

(** C9: decoding the text that [EVP_EncodeBlock] left in a buffer of the
    length that [EVP_EncodedLength] asks for, from its first character on and
    for the length returned, gives the bytes back, whatever the buffer held
    before. *)
Theorem decode_encoded l rest dst enc n :
  EVP_EncodedLength (zlen l) = Some n -> zlen l < 2 ^ 64 -> 0 <= dst -> dst + n <= zlen enc ->
  match EVP_EncodeBlock dst (l ++ rest) (zlen l) enc with
  | Done len enc' =>
      len + 1 = n /\ zlen enc' = zlen enc /\
      (forall out pos max_out,
        len / 4 * 3 <= max_out -> 0 <= pos -> pos + len / 4 * 3 <= zlen out ->
        EVP_DecodeBase64 pos max_out (drop (Z.to_nat dst) enc') len out =
        Done (zlen l) (fill out pos l))
  | _ => False
  end.
Proof.
  intros Hn Hl Hd Henc. pose proof (encode_block_exact l rest enc dst Hl) as He.
  rewrite Hn in He. destruct He as [-> He]. rewrite (He Hd Henc). pose proof (zlen_nonneg (b64 l)).
  split; [done|split].
  { apply fill_length. unfold room. rewrite zlen_app. change (zlen [zb 0]) with 1. lia. }
  intros out pos max_out Hm Hp Hout. unfold fill at 1. rewrite <- app_assoc, drop_app_length'
    by (rewrite length_take; unfold zlen in *; lia).
  by apply decode_b64.
Qed.

Lemma decode_encoded_witness :
  match EVP_EncodeBlock 2 (hello ++ [zb 1]) (zlen hello) (replicate 20 (zb 7)) with
  | Done len enc' =>
      len + 1 = 13 /\ zlen enc' = zlen (replicate 20 (zb 7)) /\
      (forall out pos max_out,
        len / 4 * 3 <= max_out -> 0 <= pos -> pos + len / 4 * 3 <= zlen out ->
        EVP_DecodeBase64 pos max_out (drop (Z.to_nat 2) enc') len out =
        Done (zlen hello) (fill out pos hello))
  | _ => False
  end.
Proof.
  apply (decode_encoded hello [zb 1] 2 (replicate 20 (zb 7)) 13);
    vm_compute; (reflexivity || discriminate).
Defined.

(** on any input [EVP_DecodeBase64] returns, reads inside of it and writes at
    most [max_out] bytes, in the output only; when it succeeds without
    padding, the input is the encoding of the output. *)
Theorem decode_base64_bounded input in_len out pos max_out :
  0 <= in_len <= zlen input -> 0 <= pos -> 0 <= max_out -> pos + max_out <= zlen out ->
  match EVP_DecodeBase64 pos max_out input in_len out with
  | Done n out' => exists l, out' = fill out pos l /\ n = zlen l /\ zlen l <= max_out /\
      (zlen l = 3 * (in_len / 4) -> b64 l = take (Z.to_nat in_len) input)
  | Fail out' => exists l, out' = fill out pos l /\ zlen l <= max_out
  | _ => False
  end.
Proof.
  intros Hin Hpos Hmax Hout. unfold EVP_DecodeBase64, EVP_DecodedLength.
  assert (exists l, out = fill out pos l /\ zlen l <= max_out) as Hnone.
  { exists []. split; [by rewrite fill_nil by (unfold room; lia)|done]. }
  destruct (Z.eqb_spec (in_len mod 4) 0) as [H4|]; cbn [negb]; [|done].
  destruct (Z.ltb_spec max_out (in_len / 4 * 3)); [done|].
  set (n := Z.to_nat (in_len / 4)).
  assert (in_len = 4 * Z.of_nat n) as Hn by (unfold n; zdm).
  pose proof (decode_loop_total n (S n) input out pos [] ltac:(lia) ltac:(lia)) as Hd.
  change (zlen []) with 0 in Hd. rewrite Z.add_0_r, <- Hn, fill_nil in Hd by (unfold room; lia).
  assert (in_len / 4 = Z.of_nat n) as Hdiv by (unfold n; zdm).
  specialize (Hd ltac:(unfold room; lia)). unfold decoded_by in Hd. cbn [app] in Hd.
  rewrite Hdiv in *.
  destruct (decode_loop (S n) pos 0 input in_len out) as [r o|o| |]; try done.
  - destruct Hd as (l & -> & -> & Hl & Hex). exists l. repeat split; try lia. intros He.
    rewrite Hn. apply Hex. lia.
  - destruct Hd as (l & -> & Hl). exists l. split; [done|lia].
Qed.

Lemma decode_base64_bounded_witness :
  match EVP_DecodeBase64 1 6 (map zb [65; 66; 67; 68; 42; 42; 42; 42]) 8 (replicate 8 (zb 0)) with
  | Done n out' => exists l, out' = fill (replicate 8 (zb 0)) 1 l /\ n = zlen l /\ zlen l <= 6 /\
      (zlen l = 3 * (8 / 4) -> b64 l = take (Z.to_nat 8) (map zb [65; 66; 67; 68; 42; 42; 42; 42]))
  | Fail out' => exists l, out' = fill (replicate 8 (zb 0)) 1 l /\ zlen l <= 6
  | _ => False
  end.
Proof.
  apply (decode_base64_bounded (map zb [65; 66; 67; 68; 42; 42; 42; 42]) 8 (replicate 8 (zb 0)) 1 6);
    vm_compute; try split; discriminate.
Defined.

Lemma init_holds : ctx_holds EVP_EncodeInit [].
Proof. constructor; cbn; auto; lia. Qed.

Lemma decode_init_holds : dec_holds EVP_DecodeInit [].
Proof. constructor; cbn; auto; lia. Qed.

(** the streaming encoder does not depend on how its input is cut: the calls
    of [EVP_EncodeUpdate] on the chunks and [EVP_EncodeFinal] store the lines
    of 48 input bytes of all of the input, and nothing else but a null byte
    after them. *)
Theorem encode_stream_chunks chunks out pos :
  zlen (concat chunks) < 2 ^ 30 -> 0 <= pos ->
  pos + zlen (pem_lines (concat chunks)) + 1 <= zlen out ->
  exists nul, (length nul <= 1)%nat /\
    encode_chunks EVP_EncodeInit pos chunks out =
    Done (pos + zlen (pem_lines (concat chunks)))
      (fill out pos (pem_lines (concat chunks) ++ nul)).
Proof.
  intros Hlen Hpos Hout. pose proof (zlen_nonneg (pem_lines (concat chunks))).
  destruct (encode_chunks_spec chunks EVP_EncodeInit [] out pos [] [] init_holds) as (r' & Hr & He);
    try (cbn; lia); try (unfold room; change (zlen []) with 0; cbn [app]; lia).
  { unfold room. change (zlen (_ ++ _)) with 0. lia. }
  exists r'. split; [done|]. cbn [app] in He. change (zlen []) with 0 in He.
  rewrite Z.add_0_r, fill_nil in He by (unfold room; lia). exact He.
Qed.

Lemma encode_stream_chunks_witness :
  exists nul, (length nul <= 1)%nat /\
    encode_chunks EVP_EncodeInit 0 [replicate 30 (zb 65); replicate 70 (zb 66)]
      (replicate 160 (zb 0)) =
    Done (0 + zlen (pem_lines (concat [replicate 30 (zb 65); replicate 70 (zb 66)])))
      (fill (replicate 160 (zb 0)) 0
         (pem_lines (concat [replicate 30 (zb 65); replicate 70 (zb 66)]) ++ nul)).
Proof.
  apply (encode_stream_chunks [replicate 30 (zb 65); replicate 70 (zb 66)] (replicate 160 (zb 0)) 0);
    vm_compute; (reflexivity || discriminate).
Defined.

(** C40: the streaming decoder gives the bytes back from any text that is their
    encoding with white space put in, such as the lines of the encoder,
    however the text is cut into chunks. *)
Theorem decode_stream_chunks chunks l out pos :
  nonspace (concat chunks) = b64 l -> zlen l <= INT_MAX -> 0 <= pos ->
  pos + zlen (b64 l) / 4 * 3 <= zlen out ->
  decode_chunks EVP_DecodeInit pos chunks out = Done (pos + zlen l) (fill out pos l) /\
  nonspace (pem_lines l) = b64 l.
Proof.
  intros Hl Hmax Hpos Hout. split; [|apply nonspace_pem].
  pose proof (zlen_nonneg (b64 l)). pose proof (Z.div_pos (zlen (b64 l)) 4 ltac:(lia) ltac:(lia)).
  pose proof (decode_chunks_spec chunks EVP_DecodeInit [] l out pos [] decode_init_holds) as Hd.
  cbn [app] in Hd. change (zlen []) with 0 in Hd. rewrite Z.add_0_r, fill_nil in Hd by (unfold room; lia).
  apply Hd; try done. unfold room. lia.
Qed.

Lemma decode_stream_chunks_witness :
  decode_chunks EVP_DecodeInit 0 [map zb [83; 71; 32; 86]; map zb [115; 10; 98; 71; 56; 61]]
    (replicate 8 (zb 0)) =
  Done (0 + zlen (map zb [72; 101; 108; 108; 111]))
    (fill (replicate 8 (zb 0)) 0 (map zb [72; 101; 108; 108; 111])) /\
  nonspace (pem_lines (map zb [72; 101; 108; 108; 111])) = b64 (map zb [72; 101; 108; 108; 111]).
Proof.
  apply (decode_stream_chunks [map zb [83; 71; 32; 86]; map zb [115; 10; 98; 71; 56; 61]]
           (map zb [72; 101; 108; 108; 111]) (replicate 8 (zb 0)) 0);
    vm_compute; (reflexivity || discriminate).
Defined.
