(* ===== verification/Cbs.v ===== *)
(** BoringSSL, [crypto/bytestring/cbs.c]: the byte string reader and its DER
    parser.  The state of the monad is the [CBS]; its [data] pointer is the
    list of the bytes of the object from there on.  What a function stores
    through its [out] pointers is its result; on failure these are not
    looked at. *)
From S2P Require Import Prelude.

Record CBS : Type := mk_cbs { cbs_data : list byte; cbs_len : Z }.

Definition C : Type -> Type := M CBS.

Definition CBS_init (data : list byte) (len : Z) : CBS := mk_cbs data len.

Definition cbs_get (n : Z) : C (list byte) := fun cbs =>
  if cbs_len cbs <? n then Fail cbs
  else Done (cbs_data cbs) (mk_cbs (drop (Z.to_nat n) (cbs_data cbs)) (cbs_len cbs - n)).

(** [data[i]]. *)
Definition data_at (data : list byte) (i : Z) : C Z :=
  of_option UbRead (if i <? 0 then None else option_map bz (data !! Z.to_nat i)).

Definition CBS_skip (len : Z) : C unit := cbs_get len;;; ret tt.
Definition CBS_data : C (list byte) := gets cbs_data.
Definition CBS_len : C Z := gets cbs_len.

(** The first [len] bytes at [data], read one by one or by [memcpy]. *)
Definition bytes_at (data : list byte) (len : Z) : C (list byte) :=
  if zlen data <? len then undef UbRead else ret (take (Z.to_nat len) data).

Definition CBS_contains_zero_byte (cbs : CBS) : outcome CBS bool :=
  (let* l := bytes_at (cbs_data cbs) (cbs_len cbs) in
   ret (existsb (fun b => bz b =? 0) l)) cbs.

(** [CRYPTO_memcmp]: the "or" of the differences. *)
Fixpoint memcmp_loop (a b : list byte) (x : Z) : Z :=
  match a, b with
  | i :: a, j :: b => memcmp_loop a b (Z.lor x (Z.lxor (bz i) (bz j)))
  | _, _ => x
  end.

Definition CBS_mem_equal (cbs : CBS) (data : list byte) (len : Z) : outcome CBS bool :=
  (if negb (len =? cbs_len cbs) then ret false
   else
     let* a := bytes_at (cbs_data cbs) len in
     let* b := bytes_at data len in
     ret (memcmp_loop a b 0 =? 0)) cbs.

(** [for (i = 0; i < len; i++) { result <<= 8; result |= data[i]; }]. *)
Fixpoint get_u_loop (n : nat) (data : list byte) (i result : Z) : C Z :=
  match n with
  | O => ret result
  | S n =>
      let* b := data_at data i in
      get_u_loop n data (i + 1) (Z.lor (u64 (Z.shiftl result 8)) b)
  end.

Definition cbs_get_u (len : Z) : C Z :=
  let* data := cbs_get len in get_u_loop (Z.to_nat len) data 0 0.

Definition CBS_get_u8 : C Z := let* v := cbs_get 1 in data_at v 0.
Definition CBS_get_u16 : C Z := let* v := cbs_get_u 2 in ret (u16 v).
Definition CBS_get_u24 : C Z := let* v := cbs_get_u 3 in ret (u32 v).
Definition CBS_get_u32 : C Z := let* v := cbs_get_u 4 in ret (u32 v).
Definition CBS_get_u64 : C Z := cbs_get_u 8.

Definition CRYPTO_bswap2 (x : Z) : Z := u16 (Z.lor (Z.shiftr x 8) (u16 (Z.shiftl x 8))).
Definition CRYPTO_bswap4 (x : Z) : Z :=
  let x := Z.lor (Z.shiftr x 16) (u32 (Z.shiftl x 16)) in
  Z.lor (Z.shiftr (Z.land x 4278255360) 8) (u32 (Z.shiftl (Z.land x 16711935) 8)).
Definition CRYPTO_bswap8 (x : Z) : Z :=
  Z.lor (CRYPTO_bswap4 (u32 (Z.shiftr x 32))) (u64 (Z.shiftl (CRYPTO_bswap4 (u32 x)) 32)).

Definition CBS_get_u16le : C Z := let* v := CBS_get_u16 in ret (CRYPTO_bswap2 v).
Definition CBS_get_u32le : C Z := let* v := CBS_get_u32 in ret (CRYPTO_bswap4 v).
Definition CBS_get_u64le : C Z := let* v := CBS_get_u64 in ret (CRYPTO_bswap8 v).

Definition CBS_get_last_u8 : C Z := fun cbs =>
  if cbs_len cbs =? 0 then Fail cbs
  else (let* b := data_at (cbs_data cbs) (cbs_len cbs - 1) in
        modify (fun c => mk_cbs (cbs_data c) (cbs_len c - 1));;; ret b) cbs.

Definition CBS_get_bytes (len : Z) : C CBS :=
  let* v := cbs_get len in ret (CBS_init v len).

Definition CBS_copy_bytes (len : Z) : C (list byte) :=
  let* v := cbs_get len in bytes_at v len.

Definition cbs_get_length_prefixed (len_len : Z) : C CBS :=
  let* len := cbs_get_u len_len in assert (len_len <=? 3);;; CBS_get_bytes len.
Definition CBS_get_u8_length_prefixed : C CBS := cbs_get_length_prefixed 1.
Definition CBS_get_u16_length_prefixed : C CBS := cbs_get_length_prefixed 2.
Definition CBS_get_u24_length_prefixed : C CBS := cbs_get_length_prefixed 3.

(** [OPENSSL_memchr(data, c, n)], as an offset. *)
Fixpoint memchr (data : list byte) (c i : Z) (n : nat) : C (option Z) :=
  match n with
  | O => ret None
  | S n =>
      let* b := data_at data i in
      if b =? c then ret (Some i) else memchr data c (i + 1) n
  end.

Definition CBS_get_until_first (c : Z) : C CBS :=
  let* data := CBS_data in
  let* len := CBS_len in
  let* split := memchr data c 0 (Z.to_nat len) in
  match split with None => failed | Some n => CBS_get_bytes n end.

(** An operation on another [CBS], this one left alone. *)
Definition on_cbs {A} (c : CBS) (op : C A) : C (option A * CBS) := fun s =>
  match op c with
  | Done a c' => Done (Some a, c') s
  | Fail c' => Done (None, c') s
  | Undef u => Undef u
  | OutOfFuel => OutOfFuel
  end.

(** ** DER *)
Definition CBS_ASN1_TAG_SHIFT : Z := 24.
Definition CBS_ASN1_CONSTRUCTED : Z := Z.shiftl 32 CBS_ASN1_TAG_SHIFT.
Definition CBS_ASN1_TAG_NUMBER_MASK : Z := Z.shiftl 1 (5 + CBS_ASN1_TAG_SHIFT) - 1.
Definition CBS_ASN1_BOOLEAN : Z := 1.
Definition CBS_ASN1_INTEGER : Z := 2.
Definition CBS_ASN1_OCTETSTRING : Z := 4.

(** [do { ... } while (b & 0x80)]. *)
Fixpoint base128_loop (fuel : nat) (v : Z) : C Z :=
  match fuel with
  | O => out_of_fuel
  | S fuel =>
      let* b := CBS_get_u8 in
      if negb (Z.shiftr v (64 - 7) =? 0) then failed
      else if (v =? 0) && (b =? 128) then failed
      else
        let v := Z.lor (u64 (Z.shiftl v 7)) (Z.land b 127) in
        if Z.land b 128 =? 0 then ret v else base128_loop fuel v
  end.

(** A turn of the loop takes a byte. *)
Definition parse_base128_integer : C Z :=
  let* n := CBS_len in base128_loop (S (Z.to_nat n)) 0.

Definition parse_asn1_tag : C Z :=
  let* tag_byte := CBS_get_u8 in
  let tag := u32 (Z.shiftl (Z.land tag_byte 224) CBS_ASN1_TAG_SHIFT) in
  let tag_number := Z.land tag_byte 31 in
  let* tag_number :=
    (if tag_number =? 31 then
       let* v := parse_base128_integer in
       if (CBS_ASN1_TAG_NUMBER_MASK <? v) || (v <? 31) then failed else ret (u32 v)
     else ret tag_number) in
  ret (Z.lor tag tag_number).

(** The element, its tag, the length of its header and [*out_ber_found]. *)
Definition cbs_get_any_asn1_element (ber_ok : bool) : C (CBS * Z * Z * bool) :=
  let* cbs := gets id in
  let* (r, header) := on_cbs cbs parse_asn1_tag in
  match r with
  | None => failed
  | Some tag =>
      let* (r, header) := on_cbs header CBS_get_u8 in
      match r with
      | None => failed
      | Some length_byte =>
          let header_len := cbs_len cbs - cbs_len header in
          if Z.land length_byte 128 =? 0 then
            let* out := CBS_get_bytes (length_byte + header_len) in
            ret (out, tag, header_len, false)
          else
            let num_bytes := Z.land length_byte 127 in
            if ber_ok && negb (Z.land tag CBS_ASN1_CONSTRUCTED =? 0) && (num_bytes =? 0) then
              let* out := CBS_get_bytes header_len in ret (out, tag, header_len, true)
            else if (num_bytes =? 0) || (4 <? num_bytes) then failed
            else
              let* (r, header) := on_cbs header (cbs_get_u num_bytes) in
              match r with
              | None => failed
              | Some len64 =>
                  if (len64 <? 128) && negb ber_ok then failed
                  else if (Z.shiftr len64 ((num_bytes - 1) * 8) =? 0) && negb ber_ok then failed
                  else
                    let ber_found :=
                      (len64 <? 128) || (Z.shiftr len64 ((num_bytes - 1) * 8) =? 0) in
                    let len := len64 in
                    if u64 (len + header_len + num_bytes) <? len then failed
                    else
                      let len := u64 (len + header_len + num_bytes) in
                      let* out := CBS_get_bytes len in
                      ret (out, tag, header_len + num_bytes, ber_found)
              end
      end
  end.

Definition CBS_get_any_asn1_element : C (CBS * Z * Z) :=
  let* (out, tag, header_len, _) := cbs_get_any_asn1_element false in
  ret (out, tag, header_len).

Definition CBS_get_any_ber_asn1_element : C (CBS * Z * Z * bool) :=
  cbs_get_any_asn1_element true.

(** [CBS_skip(out, header_len)]; its failure is an [assert(0)]. *)
Definition skip_header (out : CBS) (header_len : Z) : C CBS :=
  let* (r, out) := on_cbs out (CBS_skip header_len) in
  match r with None => undef UbAssert | Some _ => ret out end.

(** [CBS_get_any_asn1], with [out] null or not: [CBS_skip] is given the pointer
    as it is. *)
Definition get_any_asn1_to (out_is_null : bool) : C (CBS * Z) :=
  let* (out, tag, header_len) := CBS_get_any_asn1_element in
  if out_is_null then undef UbMem
  else let* out := skip_header out header_len in ret (out, tag).
Definition CBS_get_any_asn1 : C (CBS * Z) := get_any_asn1_to false.

Definition cbs_get_asn1 (tag_value : Z) (skip : bool) : C CBS :=
  let* (out, tag, header_len) := CBS_get_any_asn1_element in
  if negb (tag =? tag_value) then failed
  else if skip then skip_header out header_len else ret out.

Definition CBS_get_asn1 (tag_value : Z) : C CBS := cbs_get_asn1 tag_value true.
Definition CBS_get_asn1_element (tag_value : Z) : C CBS := cbs_get_asn1 tag_value false.

Definition CBS_peek_asn1_tag (tag_value : Z) : C bool :=
  let* cbs := gets id in
  if cbs_len cbs <? 1 then ret false
  else
    let* (r, _) := on_cbs cbs parse_asn1_tag in
    ret (match r with Some actual_tag => tag_value =? actual_tag | None => false end).

(** [*out_is_negative] is set before the second byte is looked at; the result
    on success. *)
Definition CBS_is_valid_asn1_integer : C bool :=
  let* copy := gets id in
  let* (r, copy) := on_cbs copy CBS_get_u8 in
  match r with
  | None => failed
  | Some first_byte =>
      let is_negative := negb (Z.land first_byte 128 =? 0) in
      let* (r, _) := on_cbs copy CBS_get_u8 in
      match r with
      | None => ret is_negative
      | Some second_byte =>
          if ((first_byte =? 0) && (Z.land second_byte 128 =? 0))
             || ((first_byte =? 255) && negb (Z.land second_byte 128 =? 0))
          then failed else ret is_negative
      end
  end.

Definition CBS_is_unsigned_asn1_integer : C unit :=
  let* is_negative := CBS_is_valid_asn1_integer in
  if is_negative then failed else ret tt.

(** A test on a [CBS] that is not changed: false is failure. *)
Definition check_cbs {A} (c : CBS) (op : C A) : C A :=
  let* (r, _) := on_cbs c op in
  match r with Some a => ret a | None => failed end.

Fixpoint uint64_loop (n : nat) (data : list byte) (i out : Z) : C Z :=
  match n with
  | O => ret out
  | S n =>
      if negb (Z.shiftr out 56 =? 0) then failed
      else
        let* b := data_at data i in
        uint64_loop n data (i + 1) (Z.lor (u64 (Z.shiftl out 8)) b)
  end.

Definition CBS_get_asn1_uint64 : C Z :=
  let* bytes := CBS_get_asn1 CBS_ASN1_INTEGER in
  check_cbs bytes CBS_is_unsigned_asn1_integer;;;
  uint64_loop (Z.to_nat (cbs_len bytes)) (cbs_data bytes) 0 0.

(** [u.bytes[i] = data[len - i - 1]], on a little-endian machine. *)
Definition CBS_get_asn1_int64 : C Z :=
  let* bytes := CBS_get_asn1 CBS_ASN1_INTEGER in
  let* is_negative := check_cbs bytes CBS_is_valid_asn1_integer in
  let len := cbs_len bytes in
  if 8 <? len then failed
  else
    let* l := bytes_at (cbs_data bytes) len in
    let fill := replicate (8 - length l) (zb (if is_negative then 255 else 0)) in
    ret (s64 (le_val (rev l ++ fill))).

Definition CBS_get_asn1_bool : C bool :=
  let* bytes := CBS_get_asn1 CBS_ASN1_BOOLEAN in
  if negb (cbs_len bytes =? 1) then failed
  else
    let* value := data_at (cbs_data bytes) 0 in
    if negb (value =? 0) && negb (value =? 255) then failed else ret (negb (value =? 0)).

(** [None] when the element is not there. *)
Definition CBS_get_optional_asn1 (tag : Z) : C (option CBS) :=
  let* present := CBS_peek_asn1_tag tag in
  if present then let* out := CBS_get_asn1 tag in ret (Some out) else ret None.

(** The content of [child] read by [op], all of it. *)
Definition get_all {A} (child : CBS) (op : C A) : C A :=
  let* (r, child) := on_cbs child op in
  match r with
  | None => failed
  | Some out => if negb (cbs_len child =? 0) then failed else ret out
  end.

Definition CBS_get_optional_asn1_octet_string (tag : Z) : C (CBS * bool) :=
  let* child := CBS_get_optional_asn1 tag in
  match child with
  | Some child => let* out := get_all child (CBS_get_asn1 CBS_ASN1_OCTETSTRING) in ret (out, true)
  | None => ret (CBS_init [] 0, false)
  end.

Definition CBS_get_optional_asn1_uint64 (tag default_value : Z) : C Z :=
  let* child := CBS_get_optional_asn1 tag in
  match child with
  | Some child => get_all child CBS_get_asn1_uint64
  | None => ret default_value
  end.

Definition CBS_get_optional_asn1_bool (tag default_value : Z) : C Z :=
  let* child := CBS_get_optional_asn1 tag in
  match child with
  | Some child =>
      let* (r, child) := on_cbs child (CBS_get_asn1 CBS_ASN1_BOOLEAN) in
      match r with
      | None => failed
      | Some child2 =>
          if negb (cbs_len child2 =? 1) || negb (cbs_len child =? 0) then failed
          else
            let* boolean := data_at (cbs_data child2) 0 in
            if boolean =? 0 then ret 0 else if boolean =? 255 then ret 1 else failed
      end
  | None => ret default_value
  end.

Definition CBS_is_valid_asn1_bitstring : C unit :=
  let* cbs := gets id in
  let* (r, input) := on_cbs cbs CBS_get_u8 in
  match r with
  | None => failed
  | Some num_unused_bits =>
      if 7 <? num_unused_bits then failed
      else if num_unused_bits =? 0 then ret tt
      else
        let* (r, _) := on_cbs input CBS_get_last_u8 in
        match r with
        | None => failed
        | Some last =>
            if negb (Z.land last (Z.shiftl 1 num_unused_bits - 1) =? 0)
            then failed else ret tt
        end
  end.

Definition CBS_asn1_bitstring_has_bit (bit : Z) : C bool :=
  let* valid := attempt CBS_is_valid_asn1_bitstring in
  match valid with
  | None => ret false
  | Some _ =>
      let byte_num := u32 (Z.shiftr bit 3 + 1) in
      let bit_num := 7 - Z.land bit 7 in
      let* cbs := gets id in
      if byte_num <? cbs_len cbs then
        let* b := data_at (cbs_data cbs) byte_num in
        ret (negb (Z.land b (Z.shiftl 1 bit_num) =? 0))
      else ret false
  end.
