(* ===== verification/Cbb.v ===== *)
(** BoringSSL, [crypto/bytestring/cbb.c]: the byte string builder.  The [CBB]s
    of the callers and the shared buffers are kept in two stores, so that a
    parent and its children share one buffer as they do in the code: a pointer
    is a key, 0 is null.  A buffer object is the list of its bytes; pointers
    into it are positions. *)
From S2P Require Import Prelude.
From S2P Require Import Cbs.

Record cbb_buffer_st : Type := mk_base {
  b_buf : list byte;
  b_len : Z;
  b_cap : Z;
  can_resize : bool;
  b_error : bool
}.

Record CBB : Type := mk_cbb {
  base : Z;
  child : Z;
  offset : Z;
  pending_len_len : Z;          (* uint8_t *)
  pending_is_asn1 : bool;
  is_child : bool
}.

Definition cbb_zero : CBB := mk_cbb 0 0 0 0 false false.

Record cstate : Type := mk_cstate { cbbs : gmap Z CBB; bases : gmap Z cbb_buffer_st }.

Definition K : Type -> Type := M cstate.

(** libc's allocator: the contents of a new block, those of a block that was
    resized, and the address of a new [cbb_buffer_st]; [None] for failure. *)
Class CbbAllocator : Type := {
  c_malloc : Z -> option (list byte);
  c_realloc : list byte -> Z -> option (list byte);
  c_new_base : gmap Z cbb_buffer_st -> option Z
}.

(** ** Accesses *)
Definition get_cbb (a : Z) : K CBB :=
  let* m := gets cbbs in of_option UbMem (m !! a).
Definition put_cbb (a : Z) (c : CBB) : K unit :=
  modify (fun s => mk_cstate (<[a := c]> (cbbs s)) (bases s)).
(** Through a pointer: null and dangling pointers are undefined. *)
Definition get_base (b : Z) : K cbb_buffer_st :=
  let* m := gets bases in of_option UbMem (m !! b).
Definition put_base (b : Z) (v : cbb_buffer_st) : K unit :=
  modify (fun s => mk_cstate (cbbs s) (<[b := v]> (bases s))).

Definition set_len (n : Z) (b : cbb_buffer_st) : cbb_buffer_st :=
  mk_base (b_buf b) n (b_cap b) (can_resize b) (b_error b).
Definition set_error (b : cbb_buffer_st) : cbb_buffer_st :=
  mk_base (b_buf b) (b_len b) (b_cap b) (can_resize b) true.
Definition set_buf (l : list byte) (b : cbb_buffer_st) : cbb_buffer_st :=
  mk_base l (b_len b) (b_cap b) (can_resize b) (b_error b).

Definition set_child (x : Z) (c : CBB) : CBB :=
  mk_cbb (base c) x (offset c) (pending_len_len c) (pending_is_asn1 c) (is_child c).
Definition set_cbb_base (x : Z) (c : CBB) : CBB :=
  mk_cbb x (child c) (offset c) (pending_len_len c) (pending_is_asn1 c) (is_child c).
Definition set_pending (off n : Z) (c : CBB) : CBB :=
  mk_cbb (base c) (child c) off n (pending_is_asn1 c) (is_child c).

(** [l] stored at position [i] of a buffer. *)
Definition splice (i : Z) (l buf : list byte) : list byte :=
  take (Z.to_nat i) buf ++ l ++ drop (Z.to_nat i + length l) buf.
Definition buf_store (b : Z) (i : Z) (l : list byte) : K unit :=
  let* v := get_base b in
  if (0 <=? i) && (i + zlen l <=? zlen (b_buf v))
  then put_base b (set_buf (splice i l (b_buf v)) v) else undef UbWrite.
Definition buf_load (b : Z) (i n : Z) : K (list byte) :=
  let* v := get_base b in
  if (0 <=? i) && (0 <=? n) && (i + n <=? zlen (b_buf v))
  then ret (take (Z.to_nat n) (drop (Z.to_nat i) (b_buf v))) else undef UbRead.

(** [base->error = 1; return 0]. *)
Definition base_error {A} (b : Z) : K A :=
  let* v := get_base b in put_base b (set_error v);;; failed.

(** A [CBS] function on a local [CBS]. *)
Definition run_cbs {A} (c : CBS) (op : C A) : K (option A * CBS) := fun s =>
  match op c with
  | Done a c' => Done (Some a, c') s
  | Fail c' => Done (None, c') s
  | Undef u => Undef u
  | OutOfFuel => OutOfFuel
  end.

(** ** Set up and clean up *)
Section Builder.
Context `{CbbAllocator}.

Definition CBB_zero (cbb : Z) : K unit := put_cbb cbb cbb_zero.

Definition cbb_init (cbb : Z) (buf : list byte) (cap : Z) : K unit :=
  let* m := gets bases in
  match c_new_base m with
  | None => failed
  | Some b =>
      put_base b (mk_base buf 0 cap true false);;;
      let* c := get_cbb cbb in
      put_cbb cbb (mk_cbb b (child c) (offset c) (pending_len_len c) (pending_is_asn1 c) false)
  end.

(** [malloc(0)] may give null. *)
Definition CBB_init (cbb initial_capacity : Z) : K unit :=
  CBB_zero cbb;;;
  match c_malloc initial_capacity with
  | None => if 0 <? initial_capacity then failed else cbb_init cbb [] initial_capacity
  | Some buf => cbb_init cbb buf initial_capacity
  end.

Definition CBB_init_fixed (cbb : Z) (buf : list byte) (len : Z) : K unit :=
  CBB_zero cbb;;;
  cbb_init cbb buf len;;;
  let* c := get_cbb cbb in
  let* v := get_base (base c) in
  put_base (base c) (mk_base (b_buf v) (b_len v) (b_cap v) false (b_error v)).

Definition CBB_cleanup (cbb : Z) : K unit :=
  let* c := get_cbb cbb in
  assert (negb (is_child c));;;
  if is_child c then ret tt
  else
    (if negb (base c =? 0) then
       let* v := get_base (base c) in
       modify (fun s => mk_cstate (cbbs s) (delete (base c) (bases s)))
     else ret tt);;;
    put_cbb cbb (set_cbb_base 0 c).

(** ** Room: the position where the new bytes go. *)
Definition cbb_buffer_reserve (b : Z) (len : Z) : K Z :=
  if b =? 0 then failed
  else
    let* v := get_base b in
    let newlen := u64 (b_len v + len) in
    if newlen <? b_len v then base_error b
    else if b_cap v <? newlen then
      let newcap := u64 (b_cap v * 2) in
      if negb (can_resize v) then base_error b
      else
        let newcap := if (newcap <? b_cap v) || (newcap <? newlen) then newlen else newcap in
        match c_realloc (b_buf v) newcap with
        | None => base_error b
        | Some newbuf =>
            put_base b (mk_base newbuf (b_len v) newcap (can_resize v) (b_error v));;;
            ret (b_len v)
        end
    else ret (b_len v).

Definition cbb_buffer_add (b : Z) (len : Z) : K Z :=
  let* out := cbb_buffer_reserve b len in
  let* v := get_base b in
  put_base b (set_len (u64 (b_len v + len)) v);;; ret out.

(** [for (i = len_len - 1; i < len_len; i--) { buf[i] = v; v >>= 8; }]: the
    bytes, and what is left of [v]. *)
Fixpoint be_loop (n : nat) (v : Z) : list byte * Z :=
  match n with
  | O => ([], v)
  | S n => let (l, v') := be_loop n (Z.shiftr v 8) in (l ++ [zb v], v')
  end.

Definition cbb_buffer_add_u (b : Z) (v len_len : Z) : K unit :=
  if len_len =? 0 then ret tt
  else
    let* buf := cbb_buffer_add b len_len in
    let (l, v) := be_loop (Z.to_nat len_len) v in
    buf_store b buf l;;;
    if negb (v =? 0) then base_error b else ret tt.

(** ** Flushing *)

(** The pending length of an ASN.1 element: the bytes of the length field
    after the first, its first byte, and the length still to be written. *)
Definition asn1_len_form (len : Z) : option (Z * Z * Z) :=
  if 4294967294 <? len then None
  else if 16777215 <? len then Some (5, Z.lor 128 4, len)
  else if 65535 <? len then Some (4, Z.lor 128 3, len)
  else if 255 <? len then Some (3, Z.lor 128 2, len)
  else if 127 <? len then Some (2, Z.lor 128 1, len)
  else Some (1, len, 0).

(** The length prefix of [child], whose contents are the [len] bytes from
    [child_start] on: [Fail] is the jump to [err]. *)
Definition write_length (b : Z) (c : CBB) (child_start len : Z) : K CBB :=
  let* (c, len) :=
    (if pending_is_asn1 c then
       assert (pending_len_len c =? 1);;;
       match asn1_len_form len with
       | None => failed
       | Some (len_len, initial_length_byte, len) =>
           (if negb (len_len =? 1) then
              let extra_bytes := len_len - 1 in
              cbb_buffer_add b extra_bytes;;;
              let* contents := buf_load b child_start len in
              buf_store b (child_start + extra_bytes) contents
            else ret tt);;;
           buf_store b (offset c) [zb initial_length_byte];;;
           ret (set_pending (offset c + 1) (len_len - 1) c, len)
       end
     else ret (c, len)) in
  let (l, len) := be_loop (Z.to_nat (pending_len_len c)) len in
  (if pending_len_len c =? 0 then ret tt else buf_store b (offset c) l);;;
  if negb (len =? 0) then failed else ret c.

(** [fuel] bounds the depth of the children. *)
Fixpoint CBB_flush (fuel : nat) (cbb : Z) : K unit :=
  match fuel with
  | O => out_of_fuel
  | S fuel =>
      let* c := get_cbb cbb in
      if base c =? 0 then failed
      else
        let* v := get_base (base c) in
        if b_error v then failed
        else if child c =? 0 then ret tt
        else
          let* ch := get_cbb (child c) in
          if pending_len_len ch =? 0 then ret tt
          else
            let child_start := u64 (offset ch + pending_len_len ch) in
            let* r := attempt (CBB_flush fuel (child c)) in
            let* v := get_base (base c) in
            if match r with None => true | Some _ => false end
               || (child_start <? offset ch) || (b_len v <? child_start)
            then base_error (base c)
            else
              let* ch := get_cbb (child c) in
              let* r := attempt (write_length (base c) ch child_start (b_len v - child_start)) in
              match r with
              | None => base_error (base c)
              | Some ch =>
                  put_cbb (child c) (set_cbb_base 0 ch);;;
                  let* c := get_cbb cbb in
                  put_cbb cbb (set_child 0 c)
              end
  end.

(** ** Appending.  [fuel] bounds the depth of the children of a [CBB]. *)
Variable fuel : nat.

Definition flush (cbb : Z) : K unit := CBB_flush fuel cbb.

(** The buffer, [None] for one that the caller owns, and the length. *)
Definition CBB_finish (cbb : Z) : K (list byte * Z) :=
  let* c := get_cbb cbb in
  if is_child c then failed
  else
    flush cbb;;;
    let* v := get_base (base c) in
    put_base (base c) (set_buf [] v);;;
    CBB_cleanup cbb;;;
    ret (b_buf v, b_len v).

(** The position of the contents of a [CBB] in the buffer, and their length. *)
Definition CBB_data (cbb : Z) : K Z :=
  let* c := get_cbb cbb in
  assert (child c =? 0);;; ret (offset c + pending_len_len c).
Definition CBB_len (cbb : Z) : K Z :=
  let* c := get_cbb cbb in
  assert (child c =? 0);;;
  let* v := get_base (base c) in
  assert (u64 (offset c + pending_len_len c) <=? b_len v);;;
  ret (u64 (b_len v - offset c - pending_len_len c)).

Definition new_child (cbb out_contents off len_len : Z) (is_asn1 : bool) : K unit :=
  let* c := get_cbb cbb in
  put_cbb out_contents (mk_cbb (base c) 0 off len_len is_asn1 true);;;
  let* c := get_cbb cbb in
  put_cbb cbb (set_child out_contents c).

Definition cbb_add_length_prefixed (cbb out_contents len_len : Z) : K unit :=
  flush cbb;;;
  let* c := get_cbb cbb in
  let* v := get_base (base c) in
  let off := b_len v in
  let* prefix_bytes := cbb_buffer_add (base c) len_len in
  buf_store (base c) prefix_bytes (replicate (Z.to_nat len_len) (zb 0));;;
  new_child cbb out_contents off len_len false.

Definition CBB_add_u8_length_prefixed (cbb out : Z) : K unit := cbb_add_length_prefixed cbb out 1.
Definition CBB_add_u16_length_prefixed (cbb out : Z) : K unit := cbb_add_length_prefixed cbb out 2.
Definition CBB_add_u24_length_prefixed (cbb out : Z) : K unit := cbb_add_length_prefixed cbb out 3.

Definition add_u (cbb value len_len : Z) : K unit :=
  flush cbb;;;
  let* c := get_cbb cbb in cbb_buffer_add_u (base c) value len_len.
Definition CBB_add_u8 (cbb value : Z) : K unit := add_u cbb value 1.
Definition CBB_add_u16 (cbb value : Z) : K unit := add_u cbb value 2.
Definition CBB_add_u24 (cbb value : Z) : K unit := add_u cbb value 3.
Definition CBB_add_u32 (cbb value : Z) : K unit := add_u cbb value 4.
Definition CBB_add_u64 (cbb value : Z) : K unit := add_u cbb value 8.
Definition CBB_add_u16le (cbb value : Z) : K unit := CBB_add_u16 cbb (CRYPTO_bswap2 value).
Definition CBB_add_u32le (cbb value : Z) : K unit := CBB_add_u32 cbb (CRYPTO_bswap4 value).
Definition CBB_add_u64le (cbb value : Z) : K unit := CBB_add_u64 cbb (CRYPTO_bswap8 value).

(** [while (copy > 0) { len_len++; copy >>= 7; }]: ten turns are enough for
    64 bits. *)
Fixpoint base128_len (n : nat) (copy : Z) : nat :=
  match n with
  | O => O
  | S n => if 0 <? copy then S (base128_len n (Z.shiftr copy 7)) else O
  end.

(** [for (i = len_len - 1; i < len_len; i--)]. *)
Fixpoint base128_digits (n : nat) (cbb v : Z) : K unit :=
  match n with
  | O => ret tt
  | S i =>
      let byte := Z.land (u8 (Z.shiftr v (7 * Z.of_nat i))) 127 in
      let byte := if (i =? 0)%nat then byte else Z.lor byte 128 in
      CBB_add_u8 cbb byte;;; base128_digits i cbb v
  end.

Definition add_base128_integer (cbb v : Z) : K unit :=
  let len_len := base128_len 10 v in
  base128_digits (if (len_len =? 0)%nat then 1%nat else len_len) cbb v.

Definition CBB_add_asn1 (cbb out_contents tag : Z) : K unit :=
  flush cbb;;;
  let tag_bits := Z.land (Z.shiftr tag CBS_ASN1_TAG_SHIFT) 224 in
  let tag_number := Z.land tag CBS_ASN1_TAG_NUMBER_MASK in
  (if 31 <=? tag_number then
     CBB_add_u8 cbb (Z.lor tag_bits 31);;; add_base128_integer cbb tag_number
   else CBB_add_u8 cbb (Z.lor tag_bits tag_number));;;
  let* c := get_cbb cbb in
  let* v := get_base (base c) in
  let off := b_len v in
  CBB_add_u8 cbb 0;;;
  new_child cbb out_contents off 1 true.

Definition CBB_add_bytes (cbb : Z) (data : list byte) (len : Z) : K unit :=
  flush cbb;;;
  let* c := get_cbb cbb in
  let* dest := cbb_buffer_add (base c) len in
  if zlen data <? len then undef UbRead
  else buf_store (base c) dest (take (Z.to_nat len) data).

Definition CBB_add_space (cbb len : Z) : K Z :=
  flush cbb;;;
  let* c := get_cbb cbb in cbb_buffer_add (base c) len.

Definition CBB_add_zeros (cbb len : Z) : K unit :=
  let* out := CBB_add_space cbb len in
  let* c := get_cbb cbb in
  buf_store (base c) out (replicate (Z.to_nat len) (zb 0)).

Definition CBB_reserve (cbb len : Z) : K Z :=
  flush cbb;;;
  let* c := get_cbb cbb in cbb_buffer_reserve (base c) len.

Definition CBB_did_write (cbb len : Z) : K unit :=
  let* c := get_cbb cbb in
  let* v := get_base (base c) in
  let newlen := u64 (b_len v + len) in
  if negb (child c =? 0) || (newlen <? b_len v) || (b_cap v <? newlen) then failed
  else put_base (base c) (set_len newlen v).

Definition CBB_discard_child (cbb : Z) : K unit :=
  let* c := get_cbb cbb in
  if child c =? 0 then ret tt
  else
    let* ch := get_cbb (child c) in
    let* v := get_base (base c) in
    put_base (base c) (set_len (offset ch) v);;;
    put_cbb (child c) (set_cbb_base 0 ch);;;
    let* c := get_cbb cbb in put_cbb cbb (set_child 0 c).

(** ** DER values.  [tmp] is the address of the local [CBB child]. *)

(** [for (i = 0; i < 8; i++)], [n] turns left. *)
Fixpoint asn1_uint64_loop (n : nat) (tmp value : Z) (started : bool) : K bool :=
  match n with
  | O => ret started
  | S i =>
      let byte := Z.land (Z.shiftr value (8 * Z.of_nat i)) 255 in
      if negb started && (byte =? 0) then asn1_uint64_loop i tmp value started
      else
        (if negb started && negb (Z.land byte 128 =? 0) then CBB_add_u8 tmp 0 else ret tt);;;
        CBB_add_u8 tmp byte;;;
        asn1_uint64_loop i tmp value true
  end.

Definition CBB_add_asn1_uint64 (cbb tmp value : Z) : K unit :=
  CBB_add_asn1 cbb tmp CBS_ASN1_INTEGER;;;
  let* started := asn1_uint64_loop 8 tmp value false in
  (if negb started then CBB_add_u8 tmp 0 else ret tt);;;
  flush cbb.

(** [while (start > 0 && u.bytes[start] == 0xff && (u.bytes[start - 1] & 0x80))]. *)
Fixpoint int64_start (bytes : list byte) (start : nat) : nat :=
  match start with
  | O => O
  | S p =>
      match bytes !! start, bytes !! p with
      | Some hi, Some lo =>
          if (bz hi =? 255) && negb (Z.land (bz lo) 128 =? 0)
          then int64_start bytes p else start
      | _, _ => start
      end
  end.

(** [CBB_add_u8] of each byte. *)
Fixpoint add_each (tmp : Z) (l : list byte) : K unit :=
  match l with
  | [] => ret tt
  | b :: l => CBB_add_u8 tmp (bz b);;; add_each tmp l
  end.

Definition CBB_add_asn1_int64 (cbb tmp value : Z) : K unit :=
  if 0 <=? value then CBB_add_asn1_uint64 cbb tmp value
  else
    let bytes := le_bytes 8 value in
    let start := int64_start bytes 7 in
    CBB_add_asn1 cbb tmp CBS_ASN1_INTEGER;;;
    add_each tmp (rev (take (S start) bytes));;;
    flush cbb.

Definition CBB_add_asn1_octet_string (cbb tmp : Z) (data : list byte) (data_len : Z) : K unit :=
  CBB_add_asn1 cbb tmp CBS_ASN1_OCTETSTRING;;;
  CBB_add_bytes tmp data data_len;;;
  flush cbb.

Definition CBB_add_asn1_bool (cbb tmp : Z) (value : bool) : K unit :=
  CBB_add_asn1 cbb tmp CBS_ASN1_BOOLEAN;;;
  CBB_add_u8 tmp (if value then 255 else 0);;;
  flush cbb.

(** ** Object identifiers *)

(** The [for (;;)] of [parse_dotted_decimal]: [None] for [return 0]. *)
Fixpoint dotted_loop (n : nat) (out : Z) (seen_digit : bool) : C (Z * bool) :=
  match n with
  | O => out_of_fuel
  | S n =>
      let* r := attempt CBS_get_u8 in
      match r with
      | None => ret (out, seen_digit)
      | Some u =>
          let* len := CBS_len in
          if (u =? 46) && (0 <? len) then ret (out, seen_digit)
          else if (u <? 48) || (57 <? u) || (seen_digit && (out =? 0))
                  || ((2 ^ 64 - 1) / 10 <? out) || (2 ^ 64 - 1 - (u - 48) <? u64 (out * 10))
          then failed
          else dotted_loop n (u64 (u64 (out * 10) + (u - 48))) true
      end
  end.

Definition parse_dotted_decimal : C Z :=
  let* len := CBS_len in
  let* (out, seen_digit) := dotted_loop (S (Z.to_nat len)) 0 false in
  if seen_digit : bool then ret out else failed.

(** [while (CBS_len(&cbs) > 0)]. *)
Fixpoint oid_rest (n : nat) (cbb : Z) (cbs : CBS) : K unit :=
  match n with
  | O => out_of_fuel
  | S n =>
      if 0 <? cbs_len cbs then
        let* (a, cbs) := run_cbs cbs parse_dotted_decimal in
        match a with
        | None => failed
        | Some a => add_base128_integer cbb a;;; oid_rest n cbb cbs
        end
      else ret tt
  end.

Definition CBB_add_asn1_oid_from_text (cbb : Z) (text : list byte) (len : Z) : K unit :=
  flush cbb;;;
  let* (a, cbs) := run_cbs (CBS_init text len) parse_dotted_decimal in
  match a with
  | None => failed
  | Some a =>
      let* (b, cbs) := run_cbs cbs parse_dotted_decimal in
      match b with
      | None => failed
      | Some b =>
          if (2 <? a) || ((a <? 2) && (39 <? b)) || (2 ^ 64 - 1 - 80 <? b) then failed
          else
            add_base128_integer cbb (u64 (40 * a + b));;;
            oid_rest (S (Z.to_nat (cbs_len cbs))) cbb cbs
      end
  end.

(** ** Sorting the elements of a SET OF *)
Fixpoint memcmp (a b : list byte) : Z :=
  match a, b with
  | i :: a, j :: b => if bz i =? bz j then memcmp a b else bz i - bz j
  | _, _ => 0
  end.

Definition compare_set_of_element (a b : CBS) : Z :=
  let min_len := Z.to_nat (Z.min (cbs_len a) (cbs_len b)) in
  let r := memcmp (take min_len (cbs_data a)) (take min_len (cbs_data b)) in
  if negb (r =? 0) then r
  else if cbs_len a =? cbs_len b then 0
  else if cbs_len a <? cbs_len b then -1 else 1.

(** libc's [qsort]. *)
Fixpoint qsort_insert (x : CBS) (l : list CBS) : list CBS :=
  match l with
  | [] => [x]
  | y :: l => if compare_set_of_element x y <=? 0 then x :: y :: l else y :: qsort_insert x l
  end.
Definition qsort (l : list CBS) : list CBS := foldr qsort_insert [] l.

(** The elements of [cbs], by [CBS_get_any_asn1_element]. *)
Fixpoint split_elements (n : nat) (cbs : CBS) : K (list CBS) :=
  match n with
  | O => out_of_fuel
  | S n =>
      if cbs_len cbs =? 0 then ret []
      else
        let* (r, cbs) := run_cbs cbs CBS_get_any_asn1_element in
        match r with
        | None => failed
        | Some (e, _, _) => let* l := split_elements n cbs in ret (e :: l)
        end
  end.

Fixpoint add_elements (cbb : Z) (l : list CBS) : K unit :=
  match l with
  | [] => ret tt
  | e :: l => CBB_add_bytes cbb (cbs_data e) (cbs_len e);;; add_elements cbb l
  end.

(** The first pass counts the elements, the second one reads them again from
    a copy of the contents: the copy and the array are allocated. *)
Definition CBB_flush_asn1_set_of (cbb : Z) : K unit :=
  flush cbb;;;
  let* data := CBB_data cbb in
  let* buf_len := CBB_len cbb in
  let* c := get_cbb cbb in
  let* buf := buf_load (base c) data buf_len in
  let* children := split_elements (S (Z.to_nat buf_len)) (CBS_init buf buf_len) in
  if zlen children <? 2 then ret tt
  else
    match c_malloc buf_len, c_malloc (zlen children * 16) with
    | Some _, Some _ =>
        let* v := get_base (base c) in
        put_base (base c) (set_len (offset c + pending_len_len c) v);;;
        add_elements cbb (qsort children);;;
        let* n := CBB_len cbb in
        assert (n =? buf_len)
    | _, _ => failed
    end.

(** ** [CBS_asn1_oid_to_text] of cbs.c, a client of the builder *)

(** What [snprintf] prints for "%" PRIu64: twenty digits at most. *)
Fixpoint decimal_digits (n : nat) (v : Z) (l : list byte) : list byte :=
  match n with
  | O => l
  | S n =>
      let l := zb (48 + v mod 10) :: l in
      if v <? 10 then l else decimal_digits n (v / 10) l
  end.

Definition add_decimal (cbb v : Z) : K unit :=
  let buf := decimal_digits 20 v [] in CBB_add_bytes cbb buf (zlen buf).

Fixpoint oid_components (n : nat) (cbb : Z) (copy : CBS) : K unit :=
  match n with
  | O => out_of_fuel
  | S n =>
      if cbs_len copy =? 0 then ret tt
      else
        let* (v, copy) := run_cbs copy parse_base128_integer in
        match v with
        | None => failed
        | Some v =>
            CBB_add_u8 cbb 46;;; add_decimal cbb v;;; oid_components n cbb copy
        end
  end.

(** [tmp] is the address of the local [CBB cbb]; on failure it is cleaned up
    and the result is null. *)
Definition CBS_asn1_oid_to_text (tmp : Z) (cbs : CBS) : K (option (list byte)) :=
  let* r := attempt
    (CBB_init tmp 32;;;
     let* (v, copy) := run_cbs cbs parse_base128_integer in
     match v with
     | None => failed
     | Some v =>
         (if 80 <=? v then CBB_add_bytes tmp [zb 50; zb 46] 2;;; add_decimal tmp (v - 80)
          else
            add_decimal tmp (v / 40);;; CBB_add_u8 tmp 46;;; add_decimal tmp (v mod 40));;;
         oid_components (S (Z.to_nat (cbs_len copy))) tmp copy;;;
         CBB_add_u8 tmp 0;;;
         CBB_finish tmp
     end) in
  match r with
  | Some (buf, len) => ret (Some (take (Z.to_nat len) buf))
  | None => CBB_cleanup tmp;;; ret None
  end.
End Builder.
