(* ===== verification/CbsProofs.v ===== *)
(** BoringSSL byte strings, the reader: what each read gives, that none leaves
    the input, and that the DER parser accepts exactly the DER encoding. *)
From S2P Require Import Prelude.
From S2P Require Import Cbs.

(** ** Good readers, and reading forward *)
Definition cbs_ok (s : CBS) : Prop := 0 <= cbs_len s <= zlen (cbs_data s).

Definition adv (n : Z) (s : CBS) : CBS :=
  mk_cbs (drop (Z.to_nat n) (cbs_data s)) (cbs_len s - n).

(** The first [n] bytes. *)
Definition front (n : Z) (s : CBS) : list byte := take (Z.to_nat n) (cbs_data s).

Lemma cbs_adv_ok n s : cbs_ok s -> 0 <= n <= cbs_len s -> cbs_ok (adv n s).
Proof.
  unfold cbs_ok, adv. intros H Hn. cbn. rewrite zlen_drop by (unfold zlen in *; lia). lia.
Qed.

Lemma front_length n s : cbs_ok s -> 0 <= n <= cbs_len s -> zlen (front n s) = n.
Proof. unfold cbs_ok, front. intros H Hn. rewrite zlen_take by (unfold zlen in *; lia). lia. Qed.

Lemma front_adv n s : cbs_data s = front n s ++ cbs_data (adv n s).
Proof. unfold front, adv. cbn. by rewrite take_drop. Qed.

Lemma adv_adv n m s : 0 <= n -> 0 <= m -> adv m (adv n s) = adv (n + m) s.
Proof.
  intros Hn Hm. unfold adv. cbn. rewrite drop_drop. f_equal; [f_equal; lia|lia].
Qed.

(** Big-endian values. *)
Definition be_val (l : list byte) : Z := le_val (rev l).
Definition be_bytes (n : nat) (v : Z) : list byte := rev (le_bytes n v).

Lemma le_val_snoc l b : le_val (l ++ [b]) = le_val l + 256 ^ zlen l * bz b.
Proof.
  induction l as [|c l IH]; cbn [app le_val]; [change (256 ^ zlen []) with 1; lia|].
  rewrite IH, zlen_cons, Z.pow_add_r by (zlen_pos; lia). ring.
Qed.

Lemma be_val_cons b l : be_val (b :: l) = bz b * 256 ^ zlen l + be_val l.
Proof.
  unfold be_val. cbn [rev]. rewrite le_val_snoc. unfold zlen. rewrite length_rev. lia.
Qed.

Lemma be_val_snoc l b : be_val (l ++ [b]) = be_val l * 256 + bz b.
Proof. unfold be_val. rewrite rev_app_distr. cbn [rev app le_val]. lia. Qed.

Lemma be_val_range l : 0 <= be_val l < 256 ^ zlen l.
Proof.
  unfold be_val. pose proof (le_val_range (rev l)). unfold zlen in *. by rewrite length_rev in *.
Qed.

Lemma be_bytes_length n v : zlen (be_bytes n v) = Z.of_nat n.
Proof. unfold be_bytes, zlen. rewrite length_rev, length_le_bytes. done. Qed.

Lemma be_val_bytes n v : be_val (be_bytes n v) = v mod 256 ^ Z.of_nat n.
Proof. unfold be_val, be_bytes. rewrite rev_involutive. apply le_val_bytes. Qed.

Lemma be_bytes_val l : be_bytes (length l) (be_val l) = l.
Proof.
  unfold be_bytes, be_val. rewrite <- (length_rev l), le_bytes_val. apply rev_involutive.
Qed.

(** ** The reads of unsigned integers *)
Lemma cbs_get_eq n s :
  cbs_get n s = if cbs_len s <? n then Fail s else Done (cbs_data s) (adv n s).
Proof. reflexivity. Qed.

Lemma data_at_eq l i b s : l !! i = Some b -> data_at l (Z.of_nat i) s = Done (bz b) s.
Proof.
  intros H. unfold data_at. destruct (Z.ltb_spec (Z.of_nat i) 0); [lia|].
  by rewrite Nat2Z.id, H.
Qed.

Lemma lor_shift8 v b : 0 <= v -> 0 <= b < 256 -> Z.lor (Z.shiftl v 8) b = v * 256 + b.
Proof. intros Hv Hb. rewrite Z.lor_comm, (lor_low_shifted 8) by lia. lia. Qed.

Lemma get_u_loop_spec n : forall pre l rest result s,
  length l = n -> result = be_val pre -> zlen pre + Z.of_nat n <= 8 ->
  get_u_loop n (pre ++ l ++ rest) (zlen pre) result s = Done (be_val (pre ++ l)) s.
Proof.
  induction n as [|n IH]; intros pre l rest result s Hl -> Hn; cbn [get_u_loop].
  { destruct l; [|done]. by rewrite app_nil_r. }
  destruct l as [|b l]; [done|]. unfold bind.
  assert ((pre ++ (b :: l) ++ rest) !! length pre = Some b) as Hb.
  { rewrite lookup_app_r by lia. by rewrite Nat.sub_diag. }
  unfold zlen at 1. rewrite (data_at_eq _ _ b) by done.
  pose proof (be_val_range pre) as Hr. pose proof (bz_range b).
  assert (256 ^ zlen pre <= 256 ^ 7) as Hpow by (apply Z.pow_le_mono_r; [lia|]; zlen_pos; lia).
  change (256 ^ 7) with (2 ^ 56) in Hpow.
  assert (u64 (Z.shiftl (be_val pre) 8) = Z.shiftl (be_val pre) 8) as ->.
  { apply u64_small. rewrite Z.shiftl_mul_pow2 by lia. lia. }
  rewrite lor_shift8, <- be_val_snoc by lia.
  replace (zlen pre + 1) with (zlen (pre ++ [b])) by zl.
  change (pre ++ (b :: l) ++ rest) with (pre ++ [b] ++ l ++ rest).
  rewrite (app_assoc pre [b]). rewrite IH; [by rewrite <- app_assoc|cbn in Hl; lia|done|zl].
Qed.

(** A read of [n] bytes is their big-endian value, or nothing. *)
Lemma cbs_get_u_spec n s :
  cbs_ok s -> 0 <= n <= 8 ->
  cbs_get_u n s = if cbs_len s <? n then Fail s else Done (be_val (front n s)) (adv n s).
Proof.
  intros Hok Hn. unfold cbs_get_u, bind. rewrite cbs_get_eq.
  destruct (Z.ltb_spec (cbs_len s) n); [done|].
  pose proof (front_length n s Hok ltac:(lia)) as Hf.
  pose proof (get_u_loop_spec (Z.to_nat n) [] (front n s) (cbs_data (adv n s)) 0 (adv n s)
    ltac:(unfold zlen in Hf; lia) eq_refl ltac:(rewrite zlen_nil; lia)) as Hl.
  cbn [app] in Hl. by rewrite <- front_adv in Hl.
Qed.

Lemma get_u8_spec s :
  cbs_ok s -> CBS_get_u8 s = if cbs_len s <? 1 then Fail s else Done (be_val (front 1 s)) (adv 1 s).
Proof.
  intros Hok. unfold CBS_get_u8, bind. rewrite cbs_get_eq.
  destruct (Z.ltb_spec (cbs_len s) 1); [done|]. unfold cbs_ok, front in *.
  destruct (cbs_data s) as [|b l] eqn:E; [change (zlen []) with 0 in Hok; lia|].
  unfold data_at. cbn [Z.ltb Z.compare Z.to_nat lookup list_lookup option_map of_option].
  change (Z.to_nat 1) with 1%nat. cbn [take]. rewrite be_val_cons.
  change (be_val []) with 0. change (256 ^ zlen []) with 1. rewrite Z.mul_1_r, Z.add_0_r.
  reflexivity.
Qed.

Lemma front1_range s : 0 <= be_val (front 1 s) < 256.
Proof.
  unfold front. change (Z.to_nat 1) with 1%nat. destruct (cbs_data s) as [|b l]; cbn [take].
  - change (be_val []) with 0. lia.
  - rewrite take_0, be_val_cons. change (256 ^ zlen []) with 1. change (be_val []) with 0.
    pose proof (bz_range b). lia.
Qed.

(** ** Base 128, most significant digit first *)
Fixpoint b128_digits (n : nat) (v : Z) : list byte :=
  match n with
  | O => []
  | S i => zb ((v / 128 ^ Z.of_nat i) mod 128 + (if (i =? 0)%nat then 0 else 128))
           :: b128_digits i v
  end.

(** The number of digits: one for zero. *)
Definition b128_len (v : Z) : nat := S (Z.to_nat (Z.log2 v / 7)).
Definition b128 (v : Z) : list byte := b128_digits (b128_len v) v.

Lemma b128_digits_length n v : length (b128_digits n v) = n.
Proof. induction n; cbn; auto. Qed.

Lemma b128_len_spec v k :
  0 <= v < 128 ^ Z.of_nat (S k) -> (k = 0%nat \/ 128 ^ Z.of_nat k <= v) -> b128_len v = S k.
Proof.
  intros Hv Hk. unfold b128_len. f_equal. change 128 with (2 ^ 7) in *.
  rewrite <- !Z.pow_mul_r in * by lia.
  destruct (Z.eq_dec v 0) as [->|Hnz].
  { destruct Hk as [->|Hk]; [done|]. pose proof (Z.pow_pos_nonneg 2 (7 * Z.of_nat k)). lia. }
  assert (Z.log2 v < 7 * Z.of_nat (S k)) by (apply Z.log2_lt_pow2; lia).
  assert (7 * Z.of_nat k <= Z.log2 v).
  { destruct Hk as [->|Hk]; [apply Z.log2_nonneg|]. apply Z.log2_le_pow2; lia. }
  assert (Z.log2 v / 7 = Z.of_nat k) as ->; [|lia].
  symmetry. apply (Z.div_unique _ _ _ (Z.log2 v - 7 * Z.of_nat k)); lia.
Qed.

Lemma b128_len_bounds v :
  0 <= v -> v < 128 ^ Z.of_nat (b128_len v) /\
  (b128_len v = 1%nat \/ 128 ^ (Z.of_nat (b128_len v) - 1) <= v).
Proof.
  intros Hv. unfold b128_len. change 128 with (2 ^ 7). rewrite <- !Z.pow_mul_r by lia.
  destruct (Z.eq_dec v 0) as [->|Hnz]; [split; [done|by left]|].
  pose proof (Z.log2_spec v ltac:(lia)) as [Hlo Hhi]. pose proof (Z.log2_nonneg v).
  split.
  - eapply Z.lt_le_trans; [exact Hhi|]. apply Z.pow_le_mono_r; [lia|zdm].
  - right. eapply Z.le_trans; [|exact Hlo]. apply Z.pow_le_mono_r; [lia|zdm].
Qed.

Lemma base128_step v acc i b :
  0 <= i -> v / 128 ^ (i + 1) = acc -> b = (v / 128 ^ i) mod 128 -> v / 128 ^ i = acc * 128 + b.
Proof.
  intros Hi <- ->. rewrite Z.pow_add_r, <- Z.div_div by (try apply Z.pow_nonzero; lia).
  change (128 ^ 1) with 128. pose proof (Z.div_mod (v / 128 ^ i) 128). lia.
Qed.

Lemma lor_shift7 v b : 0 <= v < 2 ^ 57 -> 0 <= b < 128 ->
  Z.lor (u64 (Z.shiftl v 7)) b = v * 128 + b.
Proof.
  intros Hv Hb. rewrite u64_small by (rewrite Z.shiftl_mul_pow2; lia).
  rewrite Z.lor_comm, (lor_low_shifted 7) by lia. lia.
Qed.

Lemma shiftr57 v : 0 <= v -> (Z.shiftr v (64 - 7) =? 0) = (v <? 2 ^ 57).
Proof.
  intros Hv. rewrite Z.shiftr_div_pow2 by lia. change (64 - 7) with 57.
  destruct (Z.ltb_spec v (2 ^ 57)).
  - by rewrite Z.div_small.
  - apply Z.eqb_neq. pose proof (Z.div_str_pos v (2 ^ 57)). lia.
Qed.

Lemma get_u8_cons b l left :
  1 <= left -> CBS_get_u8 (mk_cbs (b :: l) left) = Done (bz b) (mk_cbs l (left - 1)).
Proof.
  intros Hl. unfold CBS_get_u8, bind. rewrite cbs_get_eq. cbn [cbs_len].
  destruct (Z.ltb_spec left 1); [lia|]. unfold adv. cbn [cbs_data cbs_len].
  change (Z.to_nat 1) with 1%nat. cbn [drop]. by rewrite drop_0.
Qed.

(** Digits read into the accumulator give the value. *)
Lemma base128_loop_digits k : forall fuel v rest left,
  (k < fuel)%nat -> 0 <= v < 2 ^ 64 ->
  (v / 128 ^ Z.of_nat (S k) = 0 -> k = 0%nat \/ 128 ^ Z.of_nat k <= v) ->
  Z.of_nat (S k) <= left ->
  base128_loop fuel (v / 128 ^ Z.of_nat (S k)) (mk_cbs (b128_digits (S k) v ++ rest) left)
  = Done v (mk_cbs rest (left - Z.of_nat (S k))).
Proof.
  induction k as [|k IH]; intros fuel v rest left Hf Hv Hmin Hleft;
    (destruct fuel as [|fuel]; [lia|]); cbn [base128_loop b128_digits app];
    set (acc := v / 128 ^ Z.of_nat _) in *;
    match goal with |- context [mk_cbs (zb ?d :: _) _] => set (dg := d) end;
    unfold bind; rewrite get_u8_cons by lia.
  - assert (0 <= acc < 2 ^ 57) as Hacc.
    { unfold acc. change (Z.of_nat 1) with 1. change (128 ^ 1) with 128. zdm. }
    rewrite shiftr57 by lia. destruct (Z.ltb_spec acc (2 ^ 57)); [|lia]. cbn [negb].
    assert (dg = v mod 128) as Hdg.
    { unfold dg. change (128 ^ Z.of_nat 0) with 1. rewrite Z.div_1_r. cbn. lia. }
    pose proof (Z.mod_pos_bound v 128 ltac:(lia)).
    rewrite bz_zb_small by lia. destruct (Z.eqb_spec dg 128); [lia|]. rewrite andb_false_r.
    rewrite land_127, (Z.mod_small dg) by lia. rewrite lor_shift7 by lia.
    rewrite land_128 by lia. destruct (Z.ltb_spec dg 128); [|lia].
    unfold ret. f_equal. unfold acc. change (128 ^ Z.of_nat 1) with 128. zdm.
  - pose proof (Z.pow_pos_nonneg 128 (Z.of_nat (S k)) ltac:(lia) ltac:(lia)) as Hp.
    assert (128 <= 128 ^ Z.of_nat (S k)) as Hp128.
    { rewrite Nat2Z.inj_succ, Z.pow_succ_r by lia.
      pose proof (Z.pow_pos_nonneg 128 (Z.of_nat k) ltac:(lia) ltac:(lia)). lia. }
    assert (0 <= v / 128 ^ Z.of_nat (S k) < 2 ^ 57) as Hnext.
    { split; [apply Z.div_pos; lia|]. apply Z.div_lt_upper_bound; [lia|]. nia. }
    set (d := (v / 128 ^ Z.of_nat (S k)) mod 128) in *.
    pose proof (Z.mod_pos_bound (v / 128 ^ Z.of_nat (S k)) 128 ltac:(lia)) as Hd. fold d in Hd.
    assert (dg = d + 128) as Hdg by done.
    assert (v / 128 ^ Z.of_nat (S k) = acc * 128 + d) as Hacc.
    { apply base128_step; [lia| |done]. unfold acc. do 2 f_equal. lia. }
    assert (0 <= acc < 2 ^ 57) as Hacc57 by lia.
    rewrite shiftr57 by lia. destruct (Z.ltb_spec acc (2 ^ 57)); [|lia]. cbn [negb].
    rewrite bz_zb_small by lia.
    destruct (Z.eqb_spec acc 0) as [H0|H0], (Z.eqb_spec dg 128) as [H1|H1]; cbn [andb].
    { exfalso. destruct (Hmin H0) as [|Hge]; [lia|].
      assert (v / 128 ^ Z.of_nat (S k) = 0) as Hz by lia.
      apply Z.div_small_iff in Hz; lia. }
    all: rewrite land_127, land_128 by lia.
    all: destruct (Z.ltb_spec dg 128); [lia|].
    all: replace (dg mod 128) with d by zdm.
    all: rewrite lor_shift7, <- Hacc by lia.
    all: etransitivity; [apply (IH fuel v rest (left - 1)); try lia|f_equal; f_equal; lia].
    all: intros Hz; apply Z.div_small_iff in Hz; lia.
Qed.

Lemma front_cons n s b l :
  cbs_data s = b :: l -> 0 <= n -> front (1 + n) s = b :: front n (adv 1 s).
Proof.
  intros E Hn. unfold front, adv. cbn [cbs_data]. rewrite E.
  replace (Z.to_nat (1 + n)) with (S (Z.to_nat n)) by lia.
  change (Z.to_nat 1) with 1%nat. cbn [take drop]. by rewrite drop_0.
Qed.

Lemma cbs_cons s : cbs_ok s -> 1 <= cbs_len s -> exists b l, cbs_data s = b :: l.
Proof.
  unfold cbs_ok. intros H Hl. destruct (cbs_data s) as [|b l]; [|eauto].
  change (zlen []) with 0 in H. lia.
Qed.

(** What the loop accepts is the minimal encoding of its result. *)
Lemma base128_loop_inv fuel : forall acc s,
  cbs_ok s -> 0 <= acc < 2 ^ 64 -> cbs_len s < Z.of_nat fuel ->
  match base128_loop fuel acc s with
  | Done v t => exists k, t = adv (Z.of_nat (S k)) s /\ Z.of_nat (S k) <= cbs_len s /\
      front (Z.of_nat (S k)) s = b128_digits (S k) v /\ v / 128 ^ Z.of_nat (S k) = acc /\
      0 <= v < 2 ^ 64 /\ (acc = 0 -> k = 0%nat \/ 128 ^ Z.of_nat k <= v)
  | Fail t => exists n, 0 <= n <= cbs_len s /\ t = adv n s
  | _ => False
  end.
Proof.
  induction fuel as [|fuel IH]; intros acc s Hok Hacc Hf; [unfold cbs_ok in Hok; lia|].
  cbn [base128_loop]. unfold bind. rewrite get_u8_spec by done.
  destruct (Z.ltb_spec (cbs_len s) 1) as [|Hl].
  { exists 0. split; [unfold cbs_ok in Hok; lia|]. unfold adv. cbn. rewrite drop_0, Z.sub_0_r.
    by destruct s. }
  destruct (cbs_cons s Hok Hl) as (b & l & E).
  assert (be_val (front 1 s) = bz b) as ->.
  { unfold front. rewrite E. change (Z.to_nat 1) with 1%nat. cbn [take].
    rewrite take_0, be_val_cons. change (256 ^ zlen []) with 1. change (be_val []) with 0. lia. }
  pose proof (bz_range b) as Hb.
  rewrite shiftr57 by lia. destruct (Z.ltb_spec acc (2 ^ 57)); cbn [negb].
  2:{ exists 1. split; [lia|done]. }
  destruct ((acc =? 0) && (bz b =? 128)) eqn:Hmin; [exists 1; split; [lia|done]|].
  pose proof (Z.mod_pos_bound (bz b) 128 ltac:(lia)).
  rewrite land_127, lor_shift7, land_128 by lia.
  destruct (Z.ltb_spec (bz b) 128) as [Hlast|Hmore].
  - unfold ret. rewrite (Z.mod_small (bz b)) by lia. exists 0%nat.
    split; [done|]. split; [lia|]. change (Z.of_nat 1) with (1 + 0).
    rewrite (front_cons 0 s b l) by (done || lia). unfold front. change (Z.to_nat 0) with 0%nat.
    rewrite take_0. cbn [b128_digits Nat.eqb]. change (128 ^ Z.of_nat 0) with 1.
    rewrite Z.div_1_r, Z.add_0_r. change (128 ^ (1 + 0)) with 128.
    split; [|split; [zdm|split; [lia|by left]]].
    f_equal. rewrite <- (zb_bz b). f_equal. rewrite zb_bz. zdm.
  - pose proof (cbs_adv_ok 1 s Hok ltac:(lia)) as Hok'.
    specialize (IH (acc * 128 + bz b mod 128) (adv 1 s) Hok' ltac:(lia)).
    cbn [adv cbs_len] in IH. specialize (IH ltac:(lia)).
    destruct (base128_loop fuel _ _) as [v t|t|u|]; try done.
    + destruct IH as (k & -> & Hk & Hfr & Hdiv & Hv & _). exists (S k).
      rewrite adv_adv by lia. split; [f_equal; lia|]. split; [lia|].
      pose proof (Z.pow_pos_nonneg 128 (Z.of_nat (S k)) ltac:(lia) ltac:(lia)) as Hp.
      replace (Z.of_nat (S (S k))) with (1 + Z.of_nat (S k)) by lia.
      rewrite (front_cons _ s b l) by (done || lia).
      split; [|split; [|split; [done|]]].
      * rewrite Hfr. cbn [b128_digits]. f_equal.
        change (S k =? 0)%nat with false. cbv iota. rewrite Hdiv.
        rewrite <- (zb_bz b) at 1. f_equal. zdm.
      * rewrite Z.pow_add_r, Z.mul_comm, <- Z.div_div, Hdiv by lia.
        change (128 ^ 1) with 128. zdm.
      * intros ->. right. apply andb_false_iff in Hmin as [Hmin|Hmin]; [lia|].
        destruct (Z.lt_ge_cases v (128 ^ Z.of_nat (S k))) as [Hlt|]; [|done].
        rewrite Z.div_small in Hdiv by lia. exfalso. zdm.
    + destruct IH as (n & Hn & ->). exists (1 + n). rewrite adv_adv by lia. split; [lia|done].
Qed.

(** ** The DER header: tag and length *)
Definition der_tag (tag : Z) : list byte :=
  let h := tag / 2 ^ 29 in
  let number := tag mod 2 ^ 29 in
  if number <? 31 then [zb (h * 32 + number)] else zb (h * 32 + 31) :: b128 number.

(** The number of length octets after the first. *)
Definition len_octets (n : Z) : nat :=
  if n <? 128 then 0 else if n <? 256 then 1 else if n <? 2 ^ 16 then 2
  else if n <? 2 ^ 24 then 3 else 4.

Definition der_len (n : Z) : list byte :=
  if n <? 128 then [zb n] else zb (128 + Z.of_nat (len_octets n)) :: be_bytes (len_octets n) n.

Definition der_header (tag n : Z) : list byte := der_tag tag ++ der_len n.
Definition der (tag : Z) (body : list byte) : list byte := der_header tag (zlen body) ++ body.

Lemma byte_masks x : 0 <= x < 256 ->
  Z.land x 224 = x / 32 * 32 /\ Z.land x 31 = x mod 32.
Proof.
  intros Hx. assert (((Z.land x 224 =? x / 32 * 32) && (Z.land x 31 =? x mod 32)) = true) as H.
  { apply (forall_byte (fun x => (Z.land x 224 =? x / 32 * 32) && (Z.land x 31 =? x mod 32)));
      [vm_compute; reflexivity|done]. }
  lia.
Qed.

Lemma tag_join h number : 0 <= h < 8 -> 0 <= number < 2 ^ 29 ->
  Z.lor (u32 (Z.shiftl (h * 32) CBS_ASN1_TAG_SHIFT)) number = h * 2 ^ 29 + number.
Proof.
  intros Hh Hn. unfold CBS_ASN1_TAG_SHIFT. rewrite u32_small by (rewrite Z.shiftl_mul_pow2; lia).
  replace (Z.shiftl (h * 32) 24) with (Z.shiftl h 29) by (rewrite !Z.shiftl_mul_pow2 by lia; lia).
  rewrite Z.lor_comm, (lor_low_shifted 29) by lia. lia.
Qed.

Lemma div_add_small h n m : 0 < m -> 0 <= n < m -> (h * m + n) / m = h /\ (h * m + n) mod m = n.
Proof.
  intros Hm Hn. split.
  - symmetry. apply (Z.div_unique _ _ _ n); lia.
  - symmetry. apply (Z.mod_unique _ _ h); lia.
Qed.

(** ** The tag *)
Lemma adv_front_eq l rest left :
  zlen l <= left -> adv (zlen l) (mk_cbs (l ++ rest) left) = mk_cbs rest (left - zlen l) /\
  front (zlen l) (mk_cbs (l ++ rest) left) = l.
Proof.
  intros H. unfold adv, front. cbn. rewrite zlen_to_nat, drop_app_length, take_app_length. done.
Qed.

Lemma parse_base128_b128 v rest left :
  0 <= v < 2 ^ 64 -> zlen (b128 v) <= left ->
  parse_base128_integer (mk_cbs (b128 v ++ rest) left)
  = Done v (mk_cbs rest (left - zlen (b128 v))).
Proof.
  intros Hv Hl. unfold parse_base128_integer, bind, CBS_len, gets. cbn [cbs_len].
  destruct (b128_len_bounds v ltac:(lia)) as [Hhi Hlo].
  unfold b128, zlen in *. rewrite b128_digits_length in *.
  destruct (b128_len v) as [|k] eqn:Hk; [discriminate Hk|].
  rewrite <- (base128_loop_digits k (S (Z.to_nat left)) v rest left) by
    first [lia | intros _; destruct Hlo as [|Hlo]; [left; lia|right;
      replace (Z.of_nat (S k) - 1) with (Z.of_nat k) in Hlo by lia; done]].
  by rewrite Z.div_small by lia.
Qed.

Lemma b128_number_length v : 0 <= v < 2 ^ 29 -> 1 <= zlen (b128 v) <= 5.
Proof.
  intros Hv. unfold b128, zlen. rewrite b128_digits_length. unfold b128_len.
  pose proof (Z.log2_nonneg v).
  assert (Z.log2 v < 29); [|zdm].
  destruct (Z.eq_dec v 0) as [->|]; [done|]. apply Z.log2_lt_pow2; lia.
Qed.

Lemma der_tag_length tag : 0 <= tag < 2 ^ 32 -> 1 <= zlen (der_tag tag) <= 6.
Proof.
  intros Ht. unfold der_tag. destruct (_ <? 31); [change (zlen [_]) with 1; lia|].
  rewrite zlen_cons. pose proof (b128_number_length (tag mod 2 ^ 29) ltac:(zdm)). lia.
Qed.

Lemma parse_tag_der tag rest left :
  0 <= tag < 2 ^ 32 -> zlen (der_tag tag) <= left ->
  parse_asn1_tag (mk_cbs (der_tag tag ++ rest) left)
  = Done tag (mk_cbs rest (left - zlen (der_tag tag))).
Proof.
  intros Ht Hl. pose proof (der_tag_length tag Ht). unfold parse_asn1_tag, der_tag, bind in *.
  set (h := tag / 2 ^ 29) in *. set (number := tag mod 2 ^ 29) in *.
  assert (0 <= h < 8) as Hh by (unfold h; zdm).
  assert (0 <= number < 2 ^ 29) as Hnum by (unfold number; zdm).
  assert (h * 2 ^ 29 + number = tag) as Hjoin by (unfold h, number; zdm).
  destruct (Z.ltb_spec number 31) as [Hsmall|Hbig]; cbn [app].
  - rewrite get_u8_cons by lia. rewrite bz_zb_small by lia.
    destruct (byte_masks (h * 32 + number) ltac:(lia)) as [-> ->].
    destruct (div_add_small h number 32 ltac:(lia) ltac:(lia)) as [-> ->].
    destruct (Z.eqb_spec number 31); [lia|]. unfold ret. rewrite tag_join by lia.
    rewrite Hjoin. done.
  - rewrite get_u8_cons by lia. rewrite bz_zb_small by lia.
    destruct (byte_masks (h * 32 + 31) ltac:(lia)) as [-> ->].
    destruct (div_add_small h 31 32 ltac:(lia) ltac:(lia)) as [-> ->]. cbn [Z.eqb Pos.eqb].
    rewrite zlen_cons in *. rewrite parse_base128_b128 by lia.
    change CBS_ASN1_TAG_NUMBER_MASK with (2 ^ 29 - 1).
    destruct (Z.ltb_spec (2 ^ 29 - 1) number); [lia|].
    destruct (Z.ltb_spec number 31); [lia|]. cbn [orb]. unfold ret.
    rewrite (u32_small number), tag_join, Hjoin by lia. do 2 f_equal. lia.
Qed.

(** The outcome of a header parser: it reads exactly [enc a], or fails. *)
Definition reads_enc {A} (enc : A -> list byte) (good : A -> Prop) (s : CBS)
    (o : outcome CBS A) : Prop :=
  match o with
  | Done a t => exists n, t = adv n s /\ 0 <= n <= cbs_len s /\ front n s = enc a /\ good a
  | Fail t => exists n, 0 <= n <= cbs_len s /\ t = adv n s
  | _ => False
  end.

Lemma parse_base128_inv s :
  cbs_ok s -> reads_enc b128 (fun v => 0 <= v < 2 ^ 64) s (parse_base128_integer s).
Proof.
  intros Hok. unfold parse_base128_integer, bind, CBS_len, gets.
  pose proof (base128_loop_inv (S (Z.to_nat (cbs_len s))) 0 s Hok ltac:(lia)
    ltac:(unfold cbs_ok in Hok; lia)) as H.
  destruct (base128_loop _ _ _) as [v t|t|u|]; try done.
  destruct H as (k & -> & Hk & Hfr & Hdiv & Hv & Hmin). exists (Z.of_nat (S k)).
  split; [done|]. split; [lia|]. split; [|done]. unfold b128.
  apply Z.div_small_iff in Hdiv; [|apply Z.pow_nonzero; lia].
  rewrite (b128_len_spec v k); [done| |by apply Hmin].
  destruct Hdiv; [lia|]. pose proof (Z.pow_pos_nonneg 128 (Z.of_nat (S k))). lia.
Qed.

Lemma parse_tag_inv s :
  cbs_ok s -> reads_enc der_tag (fun tag => 0 <= tag < 2 ^ 32) s (parse_asn1_tag s).
Proof.
  intros Hok. unfold parse_asn1_tag, bind. rewrite get_u8_spec by done.
  destruct (Z.ltb_spec (cbs_len s) 1) as [|Hl].
  { exists 0. split; [unfold cbs_ok in Hok; lia|]. unfold adv. cbn. rewrite drop_0, Z.sub_0_r.
    by destruct s. }
  destruct (cbs_cons s Hok Hl) as (b & l & E).
  assert (be_val (front 1 s) = bz b) as ->.
  { unfold front. rewrite E. change (Z.to_nat 1) with 1%nat. cbn [take].
    rewrite take_0, be_val_cons. change (256 ^ zlen []) with 1. change (be_val []) with 0. lia. }
  pose proof (bz_range b) as Hb. destruct (byte_masks (bz b) Hb) as [-> ->].
  assert (0 <= bz b / 32 < 8) as Hh by zdm.
  assert (front 1 s = [b]) as Hf1.
  { unfold front. rewrite E. change (Z.to_nat 1) with 1%nat. cbn [take]. by rewrite take_0. }
  destruct (Z.eqb_spec (bz b mod 32) 31) as [H31|Hne].
  - pose proof (parse_base128_inv (adv 1 s) (cbs_adv_ok 1 s Hok ltac:(lia))) as Hp.
    destruct (parse_base128_integer (adv 1 s)) as [v t|t|u|]; try done.
    + destruct Hp as (n & -> & Hn & Hfr & Hv). cbn [adv cbs_len] in Hn.
      change CBS_ASN1_TAG_NUMBER_MASK with (2 ^ 29 - 1).
      destruct (Z.ltb_spec (2 ^ 29 - 1) v), (Z.ltb_spec v 31); cbn [orb];
        try (exists (1 + n); rewrite adv_adv by lia; split; [lia|done]).
      unfold ret. rewrite (u32_small v), tag_join by lia. exists (1 + n).
      rewrite adv_adv by lia. split; [done|]. split; [lia|].
      rewrite (front_cons n s b l), Hfr by (done || lia). split; [|lia].
      unfold der_tag. destruct (div_add_small (bz b / 32) v (2 ^ 29)) as [-> ->]; [lia|lia|].
      destruct (Z.ltb_spec v 31); [lia|]. f_equal.
      replace (bz b / 32 * 32 + 31) with (bz b) by zdm. by rewrite zb_bz.
    + destruct Hp as (n & Hn & ->). cbn [adv cbs_len] in Hn. exists (1 + n).
      rewrite adv_adv by lia. split; [lia|done].
  - unfold ret. pose proof (Z.mod_pos_bound (bz b) 32 ltac:(lia)). rewrite tag_join by lia.
    exists 1. split; [done|]. split; [lia|]. split; [|lia]. rewrite Hf1.
    unfold der_tag. destruct (div_add_small (bz b / 32) (bz b mod 32) (2 ^ 29)) as [-> ->]; [lia|lia|].
    destruct (Z.ltb_spec (bz b mod 32) 31); [|lia].
    replace (bz b / 32 * 32 + bz b mod 32) with (bz b) by zdm. by rewrite zb_bz.
Qed.

(** ** The length *)
Lemma len_octets_spec n : 128 <= n < 2 ^ 32 ->
  1 <= Z.of_nat (len_octets n) <= 4 /\ n < 256 ^ Z.of_nat (len_octets n) /\
  (len_octets n = 1%nat \/ 256 ^ (Z.of_nat (len_octets n) - 1) <= n).
Proof.
  intros Hn. unfold len_octets.
  destruct (Z.ltb_spec n 128); [lia|]. destruct (Z.ltb_spec n 256).
  { change (256 ^ Z.of_nat 1) with 256. split; [lia|split; [lia|by left]]. }
  destruct (Z.ltb_spec n (2 ^ 16)).
  { change (256 ^ Z.of_nat 2) with (2 ^ 16). change (256 ^ (Z.of_nat 2 - 1)) with 256. lia. }
  destruct (Z.ltb_spec n (2 ^ 24)).
  { change (256 ^ Z.of_nat 3) with (2 ^ 24). change (256 ^ (Z.of_nat 3 - 1)) with (2 ^ 16). lia. }
  change (256 ^ Z.of_nat 4) with (2 ^ 32). change (256 ^ (Z.of_nat 4 - 1)) with (2 ^ 24). lia.
Qed.

Lemma len_octets_unique n k : (1 <= k <= 4)%nat -> 128 <= n < 256 ^ Z.of_nat k ->
  (256 ^ (Z.of_nat k - 1) <= n) -> len_octets n = k.
Proof.
  intros Hk Hn Hlo. unfold len_octets. destruct (Z.ltb_spec n 128); [lia|].
  destruct k as [|[|[|[|[|]]]]]; try lia;
    repeat match goal with
    | H : context [256 ^ ?e] |- _ => let v := eval vm_compute in (256 ^ e) in
        progress change (256 ^ e) with v in H
    end; change (2 ^ 16) with 65536; change (2 ^ 24) with 16777216;
    destruct (Z.ltb_spec n 256), (Z.ltb_spec n 65536), (Z.ltb_spec n 16777216); lia || done.
Qed.

Lemma der_len_length n : 0 <= n < 2 ^ 32 -> 1 <= zlen (der_len n) <= 5.
Proof.
  intros Hn. unfold der_len. destruct (Z.ltb_spec n 128); [change (zlen [_]) with 1; lia|].
  rewrite zlen_cons, be_bytes_length. pose proof (len_octets_spec n ltac:(lia)). lia.
Qed.

Lemma shiftr_octets n k : 0 <= n -> 1 <= k -> (Z.shiftr n ((k - 1) * 8) =? 0) = (n <? 256 ^ (k - 1)).
Proof.
  intros Hn Hk. rewrite Z.shiftr_div_pow2 by lia.
  rewrite Z.mul_comm, Z.pow_mul_r by lia. change (2 ^ 8) with 256.
  pose proof (Z.pow_pos_nonneg 256 (k - 1) ltac:(lia) ltac:(lia)).
  destruct (Z.ltb_spec n (256 ^ (k - 1))).
  - by rewrite Z.div_small.
  - apply Z.eqb_neq. pose proof (Z.div_str_pos n (256 ^ (k - 1))). lia.
Qed.

(** ** Elements *)
Lemma get_bytes_eq n s :
  CBS_get_bytes n s = if cbs_len s <? n then Fail s else Done (mk_cbs (cbs_data s) n) (adv n s).
Proof. unfold CBS_get_bytes, bind. rewrite cbs_get_eq. by destruct (cbs_len s <? n). Qed.

(** The DER parser reads back every element. *)
Lemma element_der tag n rest left :
  0 <= tag < 2 ^ 32 -> 0 <= n < 2 ^ 32 ->
  let hdr := der_header tag n in
  zlen hdr + n <= left -> left <= zlen hdr + zlen rest ->
  CBS_get_any_asn1_element (mk_cbs (hdr ++ rest) left) =
  Done (mk_cbs (hdr ++ rest) (zlen hdr + n), tag, zlen hdr)
    (adv (zlen hdr + n) (mk_cbs (hdr ++ rest) left)).
Proof.
  intros Ht Hn hdr Hle Hge. set (s := mk_cbs (hdr ++ rest) left).
  pose proof (der_tag_length tag Ht) as Htl. pose proof (der_len_length n Hn) as Hll.
  assert (zlen hdr = zlen (der_tag tag) + zlen (der_len n)) as Hhl
    by (unfold hdr, der_header; apply zlen_app).
  assert (parse_asn1_tag s =
          Done tag (mk_cbs (der_len n ++ rest) (left - zlen (der_tag tag)))) as Htag.
  { unfold s, hdr, der_header. rewrite <- app_assoc. apply parse_tag_der; lia. }
  unfold CBS_get_any_asn1_element, cbs_get_any_asn1_element, bind, on_cbs, gets, id.
  rewrite Htag. unfold der_len in *. destruct (Z.ltb_spec n 128) as [Hshort|Hlong].
  - change (zlen [_]) with 1 in *. cbn [app]. rewrite get_u8_cons by lia.
    rewrite bz_zb_small, land_128 by lia. destruct (Z.ltb_spec n 128); [|lia].
    cbn [cbs_len]. rewrite get_bytes_eq. cbn [s cbs_len cbs_data].
    replace (left - (left - zlen (der_tag tag) - 1)) with (zlen hdr) by lia.
    destruct (Z.ltb_spec left (n + zlen hdr)); [lia|]. unfold ret.
    by rewrite (Z.add_comm n).
  - destruct (len_octets_spec n ltac:(lia)) as (Hk & Hhi & Hlo).
    set (k := Z.of_nat (len_octets n)) in *. rewrite zlen_cons, be_bytes_length in *.
    fold k in Hll, Hhl. cbn [app]. rewrite get_u8_cons by lia.
    rewrite bz_zb_small, land_128, land_127 by lia.
    destruct (Z.ltb_spec (128 + k) 128); [lia|].
    replace ((128 + k) mod 128) with k by zdm. cbn [andb].
    destruct (Z.eqb_spec k 0); [lia|]. destruct (Z.ltb_spec 4 k); [lia|]. cbn [orb cbs_len].
    set (s2 := mk_cbs (be_bytes (len_octets n) n ++ rest) (left - zlen (der_tag tag) - 1)).
    assert (cbs_ok s2) as Hok2.
    { unfold cbs_ok, s2. cbn. rewrite zlen_app, be_bytes_length. fold k. zlen_pos. lia. }
    rewrite cbs_get_u_spec by (done || lia). cbn [s2 cbs_len].
    destruct (Z.ltb_spec (left - zlen (der_tag tag) - 1) k); [lia|].
    assert (front k s2 = be_bytes (len_octets n) n) as ->.
    { unfold k. rewrite <- (be_bytes_length (len_octets n) n). apply adv_front_eq.
      rewrite be_bytes_length. fold k. lia. }
    rewrite be_val_bytes. fold k. rewrite Z.mod_small by lia.
    destruct (Z.ltb_spec n 128); [lia|]. cbn [negb andb]. rewrite shiftr_octets by lia.
    assert ((n <? 256 ^ (k - 1)) = false) as Hmin.
    { apply Z.ltb_ge. destruct Hlo as [Hlo|Hlo]; [|done].
      unfold k. rewrite Hlo. change (256 ^ (Z.of_nat 1 - 1)) with 1. lia. }
    rewrite Hmin. cbn [andb orb]. change (cbs_len s) with left.
    replace (left - (left - zlen (der_tag tag) - 1)) with (zlen (der_tag tag) + 1) by lia.
    rewrite u64_small by lia.
    destruct (Z.ltb_spec (n + (zlen (der_tag tag) + 1) + k) n); [lia|].
    rewrite get_bytes_eq. cbn [s cbs_len cbs_data].
    replace (n + (zlen (der_tag tag) + 1) + k) with (zlen hdr + n) by lia.
    replace (zlen (der_tag tag) + 1 + k) with (zlen hdr) by lia.
    destruct (Z.ltb_spec left (zlen hdr + n)); [lia|]. done.
Qed.

Lemma front_app n m s : cbs_ok s -> 0 <= n -> 0 <= m -> n + m <= cbs_len s ->
  front (n + m) s = front n s ++ front m (adv n s).
Proof.
  intros Hok Hn Hm Hl. unfold front, adv. cbn.
  replace (Z.to_nat (n + m)) with (Z.to_nat n + Z.to_nat m)%nat by lia. by rewrite take_take_drop.
Qed.

(** An element that the parser accepts: it is inside of the input, nothing
    else is consumed; in DER its header is the encoding of its tag and of the
    length of its contents. *)
Definition element_read (ber : bool) (s : CBS) (o : outcome CBS (CBS * Z * Z * bool)) : Prop :=
  match o with
  | Done (out, tag, hl, _) t => exists n,
      out = mk_cbs (cbs_data s) (hl + n) /\ t = adv (hl + n) s /\
      2 <= hl /\ 0 <= n < 2 ^ 32 /\ hl + n <= cbs_len s /\ 0 <= tag < 2 ^ 32 /\
      (ber = false -> front hl s = der_header tag n)
  | Fail t => t = s
  | _ => False
  end.

Lemma element_inv ber s :
  cbs_ok s -> cbs_len s < 2 ^ 63 -> element_read ber s (cbs_get_any_asn1_element ber s).
Proof.
  intros Hok Hsz. unfold cbs_get_any_asn1_element, bind, on_cbs, gets, id.
  pose proof (parse_tag_inv s Hok) as Htag.
  destruct (parse_asn1_tag s) as [tag t|t|u|]; try done.
  destruct Htag as (tl & -> & Htl & Htf & Htr).
  pose proof (cbs_adv_ok tl s Hok Htl) as Hok1. pose proof (der_tag_length tag Htr) as Htl'.
  rewrite <- Htf, front_length in Htl' by done.
  rewrite get_u8_spec by done. cbn [adv cbs_len].
  destruct (Z.ltb_spec (cbs_len s - tl) 1) as [|Hl1]; [exact eq_refl|].
  change (mk_cbs (drop (Z.to_nat tl) (cbs_data s)) (cbs_len s - tl)) with (adv tl s).
  set (lb := be_val (front 1 (adv tl s))). pose proof (front1_range (adv tl s)) as Hlb. fold lb in Hlb.
  assert (front 1 (adv tl s) = [zb lb]) as Hf1.
  { destruct (cbs_cons (adv tl s) Hok1 Hl1) as (b & l & E). unfold lb, front. rewrite E.
    change (Z.to_nat 1) with 1%nat. cbn [take]. rewrite take_0, be_val_cons.
    change (256 ^ zlen []) with 1. change (be_val []) with 0.
    rewrite Z.mul_1_r, Z.add_0_r. by rewrite zb_bz. }
  assert (adv 1 (adv tl s) = adv (tl + 1) s) as Hadv by (rewrite adv_adv; lia || done).
  change (mk_cbs (drop (Z.to_nat 1) (cbs_data (adv tl s))) (cbs_len s - tl - 1)) with (adv 1 (adv tl s)).
  rewrite Hadv. change (cbs_len (adv (tl + 1) s)) with (cbs_len s - (tl + 1)).
  replace (cbs_len s - (cbs_len s - (tl + 1))) with (tl + 1) by lia.
  rewrite land_128, land_127 by lia.
  destruct (Z.ltb_spec lb 128) as [Hshort|Hlong].
  { rewrite get_bytes_eq. destruct (Z.ltb_spec (cbs_len s) (lb + (tl + 1))); [exact eq_refl|].
    unfold ret. exists lb. rewrite (Z.add_comm lb). repeat split; try done; try lia.
    intros _. rewrite front_app by (done || lia). rewrite Htf, Hf1. unfold der_header, der_len.
    destruct (Z.ltb_spec lb 128); [done|lia]. }
  set (k := lb mod 128). assert (0 <= k < 128) as Hk by (unfold k; zdm).
  assert (lb = 128 + k) as Hlbk by (unfold k; zdm).
  destruct (ber && _ && _) eqn:Hind.
  { rewrite get_bytes_eq. destruct (Z.ltb_spec (cbs_len s) (tl + 1)); [lia|]. unfold ret.
    exists 0. rewrite Z.add_0_r. repeat split; try done; try lia. intros ->. done. }
  destruct ((k =? 0) || (4 <? k)) eqn:Hk4; [exact eq_refl|]. apply orb_false_iff in Hk4 as [Hk0 Hk4].
  assert (1 <= k <= 4) as Hk14 by lia.
  pose proof (cbs_adv_ok (tl + 1) s Hok ltac:(lia)) as Hok2.
  rewrite cbs_get_u_spec by (done || lia). cbn [adv cbs_len].
  destruct (Z.ltb_spec (cbs_len s - (tl + 1)) k); [exact eq_refl|].
  change (mk_cbs (drop (Z.to_nat (tl + 1)) (cbs_data s)) (cbs_len s - (tl + 1))) with (adv (tl + 1) s).
  set (n := be_val (front k (adv (tl + 1) s))).
  pose proof (be_val_range (front k (adv (tl + 1) s))) as Hnr. fold n in Hnr.
  assert (zlen (front k (adv (tl + 1) s)) = k) as Hfl by (apply front_length; [done|cbn; lia]).
  rewrite Hfl in Hnr.
  assert (256 ^ k <= 2 ^ 32) as H32.
  { change (2 ^ 32) with (256 ^ 4). apply Z.pow_le_mono_r; lia. }
  rewrite shiftr_octets by lia.
  destruct ((n <? 128) && negb ber) eqn:Hm1; [exact eq_refl|].
  destruct ((n <? 256 ^ (k - 1)) && negb ber) eqn:Hm2; [exact eq_refl|].
  rewrite u64_small by lia. destruct (Z.ltb_spec (n + (tl + 1) + k) n); [exact eq_refl|].
  rewrite get_bytes_eq. destruct (Z.ltb_spec (cbs_len s) (n + (tl + 1) + k)); [exact eq_refl|].
  unfold ret. exists n. replace (n + (tl + 1) + k) with (tl + 1 + k + n) by lia.
  repeat split; try done; try lia.
  intros ->. rewrite andb_true_r in Hm1, Hm2. cbn [negb] in Hm1, Hm2.
  rewrite (front_app (tl + 1) k), (front_app tl 1), Htf, Hf1 by (done || lia).
  unfold der_header, der_len. destruct (Z.ltb_spec n 128); [lia|].
  assert (len_octets n = Z.to_nat k) as ->.
  { apply len_octets_unique; rewrite ?Z2Nat.id by lia; lia. }
  rewrite Z2Nat.id, <- Hlbk, <- app_assoc by lia. cbn [app]. do 2 f_equal.
  replace (Z.to_nat k) with (length (front k (adv (tl + 1) s))) by (unfold zlen in Hfl; lia).
  unfold n. by rewrite be_bytes_val.
Qed.

(** ** Readers: total on good input, and inside of it *)
Record sub (s t : CBS) : Prop := {
  sub_ok : cbs_ok t;
  sub_in : exists k, 0 <= k /\ cbs_data t = drop (Z.to_nat k) (cbs_data s) /\ k + cbs_len t <= cbs_len s
}.

Lemma sub_refl s : cbs_ok s -> sub s s.
Proof. intros H. split; [done|]. exists 0. rewrite drop_0. split; [done|]. split; [done|lia]. Qed.

Lemma sub_trans s t u : sub s t -> sub t u -> sub s u.
Proof.
  intros [_ (j & Hj & Ht & Hlj)] [Hok (k & Hk & Hu & Hlk)]. split; [done|].
  exists (j + k). rewrite Hu, Ht, drop_drop. split; [lia|]. split; [f_equal; lia|lia].
Qed.

Lemma sub_adv n s : cbs_ok s -> 0 <= n <= cbs_len s -> sub s (adv n s).
Proof. intros H Hn. split; [by apply cbs_adv_ok|]. exists n. cbn. split; [lia|]. split; [done|lia]. Qed.

Lemma sub_prefix n s : cbs_ok s -> 0 <= n <= cbs_len s -> sub s (mk_cbs (cbs_data s) n).
Proof.
  intros H Hn. unfold cbs_ok in H. split; [unfold cbs_ok; cbn; lia|]. exists 0. cbn.
  rewrite drop_0. split; [done|]. split; [done|lia].
Qed.

(** The inputs are objects of the address space. *)
Definition good (s : CBS) : Prop := cbs_ok s /\ cbs_len s < 2 ^ 63.

Lemma sub_good s t : good s -> sub s t -> good t.
Proof. intros [_ Hl] [Hok (k & Hk & _ & Hle)]. split; [done|]. lia. Qed.

Definition reader {A} (phi : CBS -> A -> Prop) (op : C A) : Prop :=
  forall s, good s ->
  match op s with
  | Done a t => sub s t /\ phi s a
  | Fail t => sub s t
  | _ => False
  end.

Definition any {A} (s : CBS) (a : A) : Prop := True.
Definition inside (s out : CBS) : Prop := sub s out.

Lemma reader_ret {A} phi (a : A) : (forall s, good s -> phi s a) -> reader phi (ret a).
Proof. intros H s Hs. split; [by apply sub_refl, Hs|auto]. Qed.
Lemma reader_failed {A} phi : reader phi (failed : C A).
Proof. intros s Hs. by apply sub_refl, Hs. Qed.

Lemma reader_bind {A B} phi psi (op : C A) (k : A -> C B) :
  reader phi op ->
  (forall a s t, good s -> phi s a -> sub s t ->
     match k a t with
     | Done b u => sub t u /\ psi s b
     | Fail u => sub t u
     | _ => False
     end) ->
  reader psi (bind op k).
Proof.
  intros H1 H2 s Hs. specialize (H1 s Hs). unfold bind.
  destruct (op s) as [a t|t|u|]; try done. destruct H1 as [Ht Ha].
  specialize (H2 a s t Hs Ha Ht). destruct (k a t) as [b u|u|u|]; try done.
  - destruct H2 as [Hu Hb]. split; [by eapply sub_trans|done].
  - by eapply sub_trans.
Qed.

(** When the rest does not look back at the first input. *)
Lemma reader_then {A B} phi (op : C A) (k : A -> C B) :
  reader phi op -> (forall a, reader any (k a)) -> reader any (bind op k).
Proof.
  intros H1 H2. apply (reader_bind phi); [done|]. intros a s t Hs _ Ht.
  specialize (H2 a t (sub_good _ _ Hs Ht)). destruct (k a t); tauto || done.
Qed.

Lemma reader_any {A} phi (op : C A) : reader phi op -> reader any op.
Proof. intros H s Hs. specialize (H s Hs). destruct (op s); try done. by destruct H. Qed.

(** A reader run on a part of the input. *)
Lemma on_cbs_spec {A} phi (op : C A) c s :
  reader phi op -> good c ->
  exists r c', on_cbs c op s = Done (r, c') s /\ sub c c' /\
    match r with Some a => phi c a | None => True end.
Proof.
  intros H Hc. specialize (H c Hc). unfold on_cbs.
  destruct (op c) as [a t|t|u|]; try done.
  - exists (Some a), t. by destruct H.
  - by exists None, t.
Qed.

Lemma reader_get_u n : 0 <= n <= 8 -> reader any (cbs_get_u n).
Proof.
  intros Hn s [Hok _]. rewrite cbs_get_u_spec by done. destruct (Z.ltb_spec (cbs_len s) n).
  - by apply sub_refl.
  - split; [apply sub_adv; [done|lia]|done].
Qed.

Lemma reader_u8 : reader any CBS_get_u8.
Proof.
  intros s [Hok _]. rewrite get_u8_spec by done. destruct (Z.ltb_spec (cbs_len s) 1).
  - by apply sub_refl.
  - split; [apply sub_adv; [done|lia]|done].
Qed.

Lemma reader_get_bytes n : 0 <= n -> reader inside (CBS_get_bytes n).
Proof.
  intros Hn s [Hok _]. rewrite get_bytes_eq. destruct (Z.ltb_spec (cbs_len s) n).
  - by apply sub_refl.
  - split; [apply sub_adv; [done|lia]|apply sub_prefix; [done|lia]].
Qed.

Lemma length_prefixed_spec n s :
  cbs_ok s -> 1 <= n <= 3 ->
  cbs_get_length_prefixed n s =
  if cbs_len s <? n then Fail s
  else let l := be_val (front n s) in
       if cbs_len s <? n + l then Fail (adv n s)
       else Done (mk_cbs (cbs_data (adv n s)) l) (adv (n + l) s).
Proof.
  intros Hok Hn. unfold cbs_get_length_prefixed, bind. rewrite cbs_get_u_spec by (done || lia).
  destruct (Z.ltb_spec (cbs_len s) n); [done|]. rewrite (proj2 (Z.leb_le n 3)) by lia.
  cbv zeta. cbn [assert ret]. rewrite get_bytes_eq.
  pose proof (be_val_range (front n s)). rewrite adv_adv by lia. cbn [adv cbs_len].
  destruct (Z.ltb_spec (cbs_len s - n) (be_val (front n s))),
    (Z.ltb_spec (cbs_len s) (n + be_val (front n s))); done || lia.
Qed.

Lemma reader_length_prefixed n : 1 <= n <= 3 -> reader inside (cbs_get_length_prefixed n).
Proof.
  intros Hn s [Hok _]. rewrite length_prefixed_spec by done.
  destruct (Z.ltb_spec (cbs_len s) n); [by apply sub_refl|]. cbv zeta.
  pose proof (be_val_range (front n s)).
  destruct (Z.ltb_spec (cbs_len s) (n + be_val (front n s))).
  - apply sub_adv; [done|lia].
  - split; [apply sub_adv; [done|lia]|]. eapply sub_trans; [apply (sub_adv n); [done|lia]|].
    apply sub_prefix; [apply cbs_adv_ok; [done|lia]|cbn; lia].
Qed.

Definition element_inside (s : CBS) (r : CBS * Z * Z) : Prop :=
  let '(out, tag, hl) := r in inside s out /\ 0 <= hl <= cbs_len out.

Lemma reader_element : reader element_inside CBS_get_any_asn1_element.
Proof.
  intros s [Hok Hl]. unfold CBS_get_any_asn1_element, bind.
  pose proof (element_inv false s Hok Hl) as H. unfold element_read in H.
  destruct (cbs_get_any_asn1_element false s) as [[[[out tag] hl] f] t|t|u|]; try done.
  - destruct H as (n & -> & -> & Hhl & Hn & Hle & _). split; [apply sub_adv; [done|lia]|].
    split; [apply sub_prefix; [done|lia]|]. cbn. lia.
  - subst. by apply sub_refl.
Qed.

Lemma skip_header_spec out hl s :
  cbs_ok out -> 0 <= hl <= cbs_len out -> skip_header out hl s = Done (adv hl out) s.
Proof.
  intros Hok Hl. unfold skip_header, bind, on_cbs, CBS_skip, bind. rewrite cbs_get_eq.
  by destruct (Z.ltb_spec (cbs_len out) hl); [lia|].
Qed.

Lemma reader_any_asn1 : reader (fun s r => inside s (fst r)) CBS_get_any_asn1.
Proof.
  apply (reader_bind element_inside); [apply reader_element|].
  intros [[out tag] hl] s t Hs [Hin Hhl] Ht. unfold bind. destruct Hin as [Hok Hin].
  rewrite skip_header_spec by done. unfold ret. split; [apply sub_refl, Ht|]. cbn.
  eapply sub_trans; [split; [done|exact Hin]|]. by apply sub_adv.
Qed.

Lemma reader_asn1 tag_value skip : reader inside (cbs_get_asn1 tag_value skip).
Proof.
  apply (reader_bind element_inside); [apply reader_element|].
  intros [[out tag] hl] s t Hs [Hin Hhl] Ht.
  destruct (negb _); [by apply sub_refl, Ht|]. destruct Hin as [Hok Hin]. destruct skip.
  - rewrite skip_header_spec by done. split; [apply sub_refl, Ht|].
    eapply sub_trans; [split; [done|exact Hin]|]. by apply sub_adv.
  - split; [apply sub_refl, Ht|by split].
Qed.

Lemma reader_on_cbs {A} phi (op : C A) (s t c : CBS) {B} (k : option A * CBS -> C B) psi :
  reader phi op -> good s -> sub s c -> sub s t ->
  (forall r c', sub c c' -> match r with Some a => phi c a | None => True end ->
     match k (r, c') t with
     | Done b u => sub t u /\ psi s b | Fail u => sub t u | _ => False end) ->
  match bind (on_cbs c op) k t with
  | Done b u => sub t u /\ psi s b | Fail u => sub t u | _ => False end.
Proof.
  intros H Hs Hc Ht Hk. unfold bind.
  destruct (on_cbs_spec phi op c t H (sub_good _ _ Hs Hc)) as (r & c' & -> & Hc' & Hr).
  by apply Hk.
Qed.

Lemma reader_valid_integer : reader any CBS_is_valid_asn1_integer.
Proof.
  intros s Hs. unfold CBS_is_valid_asn1_integer. unfold bind at 1, gets, id.
  pose proof (sub_refl s (proj1 Hs)) as Hr.
  apply (reader_on_cbs any CBS_get_u8 s s s); try done; [apply reader_u8|].
  intros [first|] c Hc _; [|done].
  apply (reader_on_cbs any CBS_get_u8 s s c); try done; [apply reader_u8|].
  intros [second|] c' _ _; [|done]. by destruct (_ || _).
Qed.

Lemma reader_unsigned_integer : reader any CBS_is_unsigned_asn1_integer.
Proof.
  apply (reader_then any); [apply reader_valid_integer|].
  intros []; [apply reader_failed|by apply reader_ret].
Qed.

Lemma data_at_ok s i t : cbs_ok s -> 0 <= i < cbs_len s ->
  exists b, data_at (cbs_data s) i t = Done (bz b) t.
Proof.
  unfold cbs_ok. intros Hok Hi.
  destruct (lookup_lt_is_Some_2 (cbs_data s) (Z.to_nat i)) as [b Hb]; [unfold zlen in *; lia|].
  exists b. unfold data_at. destruct (Z.ltb_spec i 0); [lia|]. by rewrite Hb.
Qed.

Lemma uint64_loop_ok n : forall c i out s,
  good s -> cbs_ok c -> 0 <= i -> i + Z.of_nat n <= cbs_len c ->
  match uint64_loop n (cbs_data c) i out s with
  | Done _ u => sub s u /\ True | Fail u => sub s u | _ => False end.
Proof.
  induction n as [|n IH]; intros c i out s Hs Hc Hi Hn; cbn [uint64_loop].
  { split; [by apply sub_refl, Hs|done]. }
  destruct (negb _); [by apply sub_refl, Hs|]. unfold bind.
  destruct (data_at_ok c i s Hc ltac:(lia)) as [b ->]. apply IH; auto; lia.
Qed.

Lemma reader_uint64 : reader any CBS_get_asn1_uint64.
Proof.
  apply (reader_bind inside); [apply reader_asn1|]. intros bytes s t Hs Hb Ht.
  unfold check_cbs.
  pose proof (on_cbs_spec any CBS_is_unsigned_asn1_integer bytes t reader_unsigned_integer
    (sub_good _ _ Hs Hb)) as (r & c & Hr & _ & _).
  unfold bind. rewrite Hr. destruct r as [[]|]; [|by apply sub_refl, Ht].
  destruct Hb as [[Hb0 Hb1] _]. apply uint64_loop_ok; [by eapply sub_good| |lia|lia].
  by split.
Qed.

Lemma bytes_at_ok c s : cbs_ok c ->
  bytes_at (cbs_data c) (cbs_len c) s = Done (front (cbs_len c) c) s.
Proof.
  unfold cbs_ok, bytes_at. intros H. by destruct (Z.ltb_spec (zlen (cbs_data c)) (cbs_len c)); [lia|].
Qed.

Lemma reader_int64 : reader any CBS_get_asn1_int64.
Proof.
  apply (reader_bind inside); [apply reader_asn1|]. intros bytes s t Hs Hb Ht.
  pose proof (on_cbs_spec any CBS_is_valid_asn1_integer bytes t reader_valid_integer
    (sub_good _ _ Hs Hb)) as (r & c & Hr & _ & _).
  unfold check_cbs, bind. rewrite Hr. destruct r as [neg|]; [|by apply sub_refl, Ht].
  unfold ret at 1. destruct (8 <? _); [by apply sub_refl, Ht|].
  rewrite bytes_at_ok by apply Hb. split; [by apply sub_refl, Ht|done].
Qed.

Lemma reader_bool : reader any CBS_get_asn1_bool.
Proof.
  apply (reader_bind inside); [apply reader_asn1|]. intros bytes s t Hs Hb Ht.
  destruct (Z.eqb_spec (cbs_len bytes) 1); cbn [negb]; [|by apply sub_refl, Ht].
  unfold bind. destruct (data_at_ok bytes 0 t) as [b ->]; [apply Hb|lia|].
  destruct (_ && _); [by apply sub_refl, Ht|]. split; [by apply sub_refl, Ht|done].
Qed.

Lemma reader_tag : reader any parse_asn1_tag.
Proof.
  intros s [Hok _]. pose proof (parse_tag_inv s Hok) as H.
  destruct (parse_asn1_tag s) as [a t|t|u|]; try done.
  - destruct H as (n & -> & Hn & _). split; [by apply sub_adv|done].
  - destruct H as (n & Hn & ->). by apply sub_adv.
Qed.

Lemma reader_peek tag : reader any (CBS_peek_asn1_tag tag).
Proof.
  intros s Hs. unfold CBS_peek_asn1_tag. unfold bind at 1, gets, id.
  pose proof (sub_refl s (proj1 Hs)) as Hr.
  destruct (_ <? 1); [done|]. apply (reader_on_cbs any parse_asn1_tag s s s); try done.
  apply reader_tag.
Qed.

Definition optional_inside (s : CBS) (o : option CBS) : Prop :=
  match o with Some c => inside s c | None => True end.

Lemma reader_optional tag : reader optional_inside (CBS_get_optional_asn1 tag).
Proof.
  apply (reader_bind any); [apply reader_peek|]. intros present s t Hs _ Ht.
  destruct present; [|split; [by apply sub_refl, Ht|done]].
  pose proof (reader_asn1 tag true t (sub_good _ _ Hs Ht)) as H. unfold bind, CBS_get_asn1.
  destruct (cbs_get_asn1 tag true t) as [a u|u|u|]; try done.
  destruct H as [Hu Ha]. split; [done|]. by eapply sub_trans.
Qed.

Lemma reader_get_all {A} phi (op : C A) (s t c : CBS) {B} (k : A -> C B) :
  reader phi op -> good s -> sub s c -> sub s t ->
  (forall a, match k a t with
     | Done b u => sub t u /\ any s b | Fail u => sub t u | _ => False end) ->
  match bind (get_all c op) k t with
  | Done b u => sub t u /\ any s b | Fail u => sub t u | _ => False end.
Proof.
  intros H Hs Hc Ht Hk. unfold bind, get_all, bind.
  destruct (on_cbs_spec phi op c t H (sub_good _ _ Hs Hc)) as (r & c' & -> & Hc' & Hr).
  destruct r as [a|]; [|by apply sub_refl, Ht].
  destruct (negb _); [by apply sub_refl, Ht|]. apply Hk.
Qed.

Lemma reader_optional_octet_string tag : reader any (CBS_get_optional_asn1_octet_string tag).
Proof.
  apply (reader_bind optional_inside); [apply reader_optional|].
  intros [c|] s t Hs Hc Ht; [|split; [by apply sub_refl, Ht|done]].
  apply (reader_get_all inside _ s); try done; [apply reader_asn1|].
  intros a. split; [by apply sub_refl, Ht|done].
Qed.

Lemma reader_optional_uint64 tag d : reader any (CBS_get_optional_asn1_uint64 tag d).
Proof.
  apply (reader_bind optional_inside); [apply reader_optional|].
  intros [c|] s t Hs Hc Ht; [|split; [by apply sub_refl, Ht|done]].
  assert (match bind (get_all c CBS_get_asn1_uint64) ret t with
     | Done b u => sub t u /\ any s b | Fail u => sub t u | _ => False end) as H.
  { apply (reader_get_all any); try done; [apply reader_uint64|].
    intros v. split; [by apply sub_refl, Ht|done]. }
  unfold bind, ret in H. by destruct (get_all c CBS_get_asn1_uint64 t).
Qed.

Lemma reader_optional_bool tag d : reader any (CBS_get_optional_asn1_bool tag d).
Proof.
  apply (reader_bind optional_inside); [apply reader_optional|].
  intros [c|] s t Hs Hc Ht; [|split; [by apply sub_refl, Ht|done]].
  apply (reader_on_cbs inside _ s t c); try done; [apply reader_asn1|].
  intros [c2|] c' Hc' Hc2; [|by apply sub_refl, Ht].
  destruct (Z.eqb_spec (cbs_len c2) 1); cbn [negb orb]; [|by apply sub_refl, Ht].
  destruct (negb _); [by apply sub_refl, Ht|]. unfold bind.
  destruct (data_at_ok c2 0 t) as [b ->]; [apply Hc2|lia|].
  destruct (_ =? 0); [|destruct (_ =? 255)]; try (split; [by apply sub_refl, Ht|done]).
  by apply sub_refl, Ht.
Qed.

Lemma reader_last_u8 : reader any CBS_get_last_u8.
Proof.
  intros s [Hok Hl]. unfold CBS_get_last_u8. destruct (Z.eqb_spec (cbs_len s) 0); [by apply sub_refl|].
  unfold bind. destruct (data_at_ok s (cbs_len s - 1) s Hok) as [b ->]; [unfold cbs_ok in Hok; lia|].
  unfold modify, ret. unfold cbs_ok in Hok. split; [|done].
  split; [unfold cbs_ok; cbn; lia|]. exists 0. cbn. rewrite drop_0. split; [done|split; [done|lia]].
Qed.

Lemma reader_bitstring : reader any CBS_is_valid_asn1_bitstring.
Proof.
  intros s Hs. unfold CBS_is_valid_asn1_bitstring. unfold bind at 1, gets, id.
  pose proof (sub_refl s (proj1 Hs)) as Hr.
  apply (reader_on_cbs any CBS_get_u8 s s s); try done; [apply reader_u8|].
  intros [bits|] c Hc _; [|done]. destruct (7 <? bits); [done|]. destruct (bits =? 0); [done|].
  apply (reader_on_cbs any CBS_get_last_u8 s s c); try done; [apply reader_last_u8|].
  intros [last|] c' _ _; [|done]. by destruct (negb _).
Qed.

Lemma reader_has_bit bit : 0 <= bit < 2 ^ 32 -> reader any (CBS_asn1_bitstring_has_bit bit).
Proof.
  intros Hbit s Hs. unfold CBS_asn1_bitstring_has_bit, bind, attempt.
  pose proof (reader_bitstring s Hs) as H.
  assert (match CBS_is_valid_asn1_bitstring s with
          | Done _ t | Fail t => t = s | _ => True end) as Hsame.
  { unfold CBS_is_valid_asn1_bitstring, bind, gets, id, on_cbs.
    destruct (CBS_get_u8 s); try done. destruct (7 <? a); [done|]. destruct (a =? 0); [done|].
    destruct (CBS_get_last_u8 _); try done. by destruct (negb _). }
  pose proof (sub_refl s (proj1 Hs)) as Hr.
  destruct (CBS_is_valid_asn1_bitstring s) as [[] t|t|u|]; try done; subst t.
  unfold gets, id. set (n := u32 _).
  destruct (Z.ltb_spec n (cbs_len s)); [|by split].
  destruct (data_at_ok s n s (proj1 Hs)) as [b ->]; [|by split].
  split; [|done]. apply u32_range.
Qed.

Lemma reader_ber_element : reader (fun s '(out, _, _, _) => inside s out) CBS_get_any_ber_asn1_element.
Proof.
  intros s [Hok Hl]. pose proof (element_inv true s Hok Hl) as H.
  unfold CBS_get_any_ber_asn1_element, element_read in *.
  destruct (cbs_get_any_asn1_element true s) as [[[[out tag] hl] f] t|t|u|]; try done.
  - destruct H as (n & -> & -> & Hhl & Hn & Hle & _). split; [apply sub_adv; [done|lia]|].
    apply sub_prefix; [done|lia].
  - subst. by apply sub_refl.
Qed.

Lemma memchr_ok n : forall c s b i, cbs_ok c -> 0 <= i -> i + Z.of_nat n <= cbs_len c ->
  exists r, memchr (cbs_data c) b i n s = Done r s /\
    match r with Some j => i <= j < i + Z.of_nat n | None => True end.
Proof.
  induction n as [|n IH]; intros c s b i Hc Hi Hn; cbn [memchr]; [by exists None|].
  unfold bind. destruct (data_at_ok c i s Hc ltac:(lia)) as [x ->].
  destruct (_ =? b); [exists (Some i); split; [done|lia]|].
  destruct (IH c s b (i + 1) Hc) as (r & -> & Hr); [lia|lia|].
  exists r. split; [done|]. destruct r; [lia|done].
Qed.

Lemma reader_until_first b : reader inside (CBS_get_until_first b).
Proof.
  intros s [Hok Hl]. unfold CBS_get_until_first, bind, CBS_data, CBS_len, gets.
  destruct (memchr_ok (Z.to_nat (cbs_len s)) s s b 0 Hok) as (r & -> & Hr);
    [lia|unfold cbs_ok in Hok; lia|].
  destruct r as [n|]; [|by apply sub_refl]. apply reader_get_bytes; [lia|by split].
Qed.

(** ** Byte swaps *)
Lemma testbit_low n a i : 0 <= a < 2 ^ n -> 0 <= n <= i -> Z.testbit a i = false.
Proof. intros Ha Hi. rewrite <- (Z.mod_small a (2 ^ n)) by lia. apply Z.mod_pow2_bits_high. lia. Qed.

Lemma land_bound n a c : 0 <= n -> 0 <= a < 2 ^ n -> 0 <= c -> 0 <= Z.land a c < 2 ^ n.
Proof.
  intros Hn Ha Hc.
  replace (Z.land a c) with (Z.land a c mod 2 ^ n); [apply Z.mod_pos_bound; lia|].
  rewrite <- Z.land_ones, <- Z.land_assoc, (Z.land_comm c), Z.land_assoc, Z.land_ones by lia.
  by rewrite (Z.mod_small a).
Qed.

Lemma lor_bound n a c : 0 <= n -> 0 <= a < 2 ^ n -> 0 <= c < 2 ^ n -> 0 <= Z.lor a c < 2 ^ n.
Proof.
  intros Hn Ha Hc.
  replace (Z.lor a c) with (Z.lor a c mod 2 ^ n); [apply Z.mod_pos_bound; lia|].
  rewrite <- Z.land_ones, Z.land_lor_distr_l, !Z.land_ones by lia. by rewrite !Z.mod_small.
Qed.

Lemma land_split n a b c d : 0 <= n -> 0 <= a < 2 ^ n -> 0 <= c < 2 ^ n ->
  Z.land (a + b * 2 ^ n) (c + d * 2 ^ n) = Z.land a c + Z.land b d * 2 ^ n.
Proof.
  intros Hn Ha Hc. pose proof (land_bound n a c Hn Ha (proj1 Hc)) as Hac.
  rewrite <- !lor_low_shifted by lia. apply Z.bits_inj'. intros i Hi.
  rewrite !Z.land_spec, !Z.lor_spec, !Z.shiftl_spec, !Z.land_spec by lia.
  destruct (Z.ltb_spec i n).
  - rewrite !(Z.testbit_neg_r _ (i - n)) by lia. by rewrite !orb_false_r.
  - by rewrite (testbit_low n a), (testbit_low n c) by lia.
Qed.

Lemma lor_split n a b c d : 0 <= n -> 0 <= a < 2 ^ n -> 0 <= c < 2 ^ n ->
  Z.lor (a + b * 2 ^ n) (c + d * 2 ^ n) = Z.lor a c + Z.lor b d * 2 ^ n.
Proof.
  intros Hn Ha Hc. pose proof (lor_bound n a c Hn Ha Hc) as Hac.
  rewrite <- !lor_low_shifted by lia. rewrite Z.shiftl_lor, !Z.lor_assoc. f_equal.
  rewrite <- !Z.lor_assoc. f_equal. apply Z.lor_comm.
Qed.

Lemma bswap2_spec b0 b1 : CRYPTO_bswap2 (be_val [b0; b1]) = le_val [b0; b1].
Proof.
  rewrite !be_val_cons. change (be_val []) with 0. change (256 ^ zlen [b1]) with 256.
  change (256 ^ zlen []) with 1. cbn [le_val]. pose proof (bz_range b0). pose proof (bz_range b1).
  unfold CRYPTO_bswap2, u16. rewrite Z.shiftr_div_pow2, Z.shiftl_mul_pow2 by lia.
  change (2 ^ 8) with 256. change (2 ^ 16) with 65536.
  replace ((bz b0 * 256 + (bz b1 * 1 + 0)) / 256) with (bz b0) by zdm.
  replace (((bz b0 * 256 + (bz b1 * 1 + 0)) * 256) mod 65536) with (Z.shiftl (bz b1) 8)
    by (rewrite Z.shiftl_mul_pow2 by lia; zdm).
  rewrite (lor_low_shifted 8) by lia. change (2 ^ 8) with 256. rewrite Z.mod_small; lia.
Qed.

Lemma bswap4_spec b0 b1 b2 b3 :
  CRYPTO_bswap4 (be_val [b0; b1; b2; b3]) = le_val [b0; b1; b2; b3].
Proof.
  rewrite !be_val_cons. change (be_val []) with 0.
  change (256 ^ zlen [b1; b2; b3]) with (2 ^ 24). change (256 ^ zlen [b2; b3]) with (2 ^ 16).
  change (256 ^ zlen [b3]) with 256. change (256 ^ zlen []) with 1. cbn [le_val].
  pose proof (bz_range b0). pose proof (bz_range b1). pose proof (bz_range b2). pose proof (bz_range b3).
  set (x0 := bz b0) in *. set (x1 := bz b1) in *. set (x2 := bz b2) in *. set (x3 := bz b3) in *.
  unfold CRYPTO_bswap4. set (v := x0 * _ + _).
  replace (Z.shiftr v 16) with (x0 * 256 + x1)
    by (unfold v; rewrite Z.shiftr_div_pow2 by lia; zdm).
  replace (u32 (Z.shiftl v 16)) with (Z.shiftl (x2 * 256 + x3) 16)
    by (unfold v, u32; rewrite !Z.shiftl_mul_pow2 by lia; zdm).
  rewrite (lor_low_shifted 16) by lia.
  assert (forall k, Z.land k 255 = k mod 256) as H255 by apply land_255.
  replace (x0 * 256 + x1 + (x2 * 256 + x3) * 2 ^ 16)
    with (x1 + (x0 + (x3 + x2 * 2 ^ 8) * 2 ^ 8) * 2 ^ 8) by lia.
  change 4278255360 with (0 + (255 + (0 + 255 * 2 ^ 8) * 2 ^ 8) * 2 ^ 8).
  change 16711935 with (255 + (0 + (255 + 0 * 2 ^ 8) * 2 ^ 8) * 2 ^ 8).
  rewrite !land_split by lia. rewrite !Z.land_0_r, !H255, !Z.mod_small by lia.
  rewrite Z.shiftr_div_pow2, Z.shiftl_mul_pow2 by lia. unfold u32.
  change (2 ^ 8) with 256. change (2 ^ 32) with 4294967296.
  replace ((0 + (x0 + (0 + x2 * 256) * 256) * 256) / 256) with (x0 + x2 * 65536) by zdm.
  replace (((x1 + (0 + (x3 + 0 * 256) * 256) * 256) * 256) mod 4294967296)
    with (x1 * 256 + x3 * 16777216) by zdm.
  replace (x0 + x2 * 65536) with (x0 + (0 + x2 * 2 ^ 8) * 2 ^ 8) by lia.
  replace (x1 * 256 + x3 * 16777216) with (0 + (x1 + (0 + x3 * 2 ^ 8) * 2 ^ 8) * 2 ^ 8) by lia.
  rewrite !lor_split by lia.
  replace x2 with (x2 + 0 * 2 ^ 8) at 1 by lia. rewrite (lor_split 8 x2 0 0 x3) by lia.
  rewrite !Z.lor_0_l, !Z.lor_0_r. lia.
Qed.

Lemma swap2 l : zlen l = 2 -> CRYPTO_bswap2 (be_val l) = le_val l.
Proof. destruct l as [|? [|? [|? ?]]]; try (intros; zl; fail). intros _. apply bswap2_spec. Qed.
Lemma swap4 l : zlen l = 4 -> CRYPTO_bswap4 (be_val l) = le_val l.
Proof. destruct l as [|? [|? [|? [|? [|? ?]]]]]; try (intros; zl; fail). intros _. apply bswap4_spec. Qed.

Lemma le_val_app l k : le_val (l ++ k) = le_val l + 256 ^ zlen l * le_val k.
Proof.
  induction l as [|b l IH]; cbn [app le_val]; [change (zlen []) with 0; lia|].
  rewrite IH, zlen_cons. rewrite Z.pow_add_r by (zl). lia.
Qed.

Lemma be_val_app l k : be_val (l ++ k) = be_val k + 256 ^ zlen k * be_val l.
Proof. unfold be_val. rewrite rev_app_distr, le_val_app. unfold zlen. by rewrite length_rev. Qed.

Lemma bswap8_spec l : zlen l = 8 -> CRYPTO_bswap8 (be_val l) = le_val l.
Proof.
  intros Hl. destruct l as [|b0 [|b1 [|b2 [|b3 [|b4 [|b5 [|b6 [|b7 [|]]]]]]]]]; try (revert Hl; zl; fail).
  change [b0; b1; b2; b3; b4; b5; b6; b7] with ([b0; b1; b2; b3] ++ [b4; b5; b6; b7]).
  rewrite be_val_app, le_val_app. change (zlen [b4; b5; b6; b7]) with 4. change (zlen [b0; b1; b2; b3]) with 4.
  change (256 ^ 4) with (2 ^ 32).
  pose proof (be_val_range [b0; b1; b2; b3]) as H1. pose proof (be_val_range [b4; b5; b6; b7]) as H2.
  pose proof (le_val_range [b0; b1; b2; b3]) as H3. pose proof (le_val_range [b4; b5; b6; b7]) as H4.
  change (256 ^ zlen _) with (2 ^ 32) in H1, H2, H3, H4.
  unfold CRYPTO_bswap8. rewrite Z.shiftr_div_pow2 by lia.
  rewrite Z.mul_comm, Z.div_add, Z.div_small, Z.add_0_l by lia. rewrite u32_small by lia.
  unfold u32 at 1. rewrite Z.mod_add, Z.mod_small by lia. rewrite !bswap4_spec.
  unfold u64. rewrite Z.mod_small by (rewrite Z.shiftl_mul_pow2 by lia; lia).
  rewrite lor_low_shifted by lia. lia.
Qed.
