(* ===== verification/CbsDer.v ===== *)
(** The DER parser against the DER encodings: which byte strings the readers of
    [Cbs.v] accept, as an encoding function and its domain, for elements,
    base-128 numbers, integers and booleans. *)
From S2P Require Import Prelude.
From S2P Require Import Cbs.
From S2P Require Import CbsProofs.

(** The bytes a [CBS] stands for. *)
Definition contents (s : CBS) : list byte := front (cbs_len s) s.

Lemma contents_length s : cbs_ok s -> zlen (contents s) = cbs_len s.
Proof. intros Hok. unfold contents, cbs_ok in *. apply front_length; [done|lia]. Qed.

Lemma contents_split n s : cbs_ok s -> 0 <= n <= cbs_len s ->
  contents s = front n s ++ contents (adv n s).
Proof.
  intros Hok Hn. unfold contents. cbn [adv cbs_len].
  rewrite <- front_app by (done || lia). f_equal. lia.
Qed.

(** A [CBS] whose contents start with [l]. *)
Lemma contents_cons l rest s : cbs_ok s -> contents s = l ++ rest ->
  exists more, s = mk_cbs (l ++ more) (cbs_len s) /\ zlen l <= cbs_len s /\ cbs_len s <= zlen (l ++ more).
Proof.
  intros Hok E. exists (rest ++ drop (Z.to_nat (cbs_len s)) (cbs_data s)).
  pose proof (contents_length s Hok) as Hl. rewrite E, zlen_app in Hl. pose proof (zlen_nonneg rest).
  assert (cbs_data s = l ++ rest ++ drop (Z.to_nat (cbs_len s)) (cbs_data s)) as Hd.
  { rewrite app_assoc, <- E. unfold contents, front. by rewrite take_drop. }
  rewrite <- Hd. split; [by destruct s|]. split; [lia|]. apply Hok.
Qed.

(** The operation [op] reads the encoding [enc a] of a valid [a], seen through
    [view], off the front of its input, and fails exactly when no encoding is
    there. *)
Definition reads_exactly {A B} (enc : A -> list byte) (valid : A -> Prop) (view : B -> A)
    (op : C B) : Prop :=
  forall s, good s ->
  match op s with
  | Done b t =>
      valid (view b) /\ t = adv (zlen (enc (view b))) s /\
      contents s = enc (view b) ++ contents t
  | Fail t => sub s t /\ forall a rest, valid a -> contents s <> enc a ++ rest
  | _ => False
  end.

Lemma reads_exactly_intro {A B} enc valid (view : B -> A) (op : C B) phi :
  reader phi op ->
  (forall s b t, good s -> op s = Done b t ->
     valid (view b) /\ exists n, t = adv n s /\ 0 <= n <= cbs_len s /\ front n s = enc (view b)) ->
  (forall a rest left, valid a -> zlen (enc a) <= left -> left <= zlen (enc a ++ rest) ->
     left < 2 ^ 63 -> exists b t, op (mk_cbs (enc a ++ rest) left) = Done b t) ->
  reads_exactly enc valid view op.
Proof.
  intros Hr Hinv Hfwd s Hs. specialize (Hr s Hs). specialize (Hinv s).
  destruct (op s) as [b t|t|u|] eqn:E; try done.
  - destruct (Hinv b t Hs eq_refl) as (Hv & n & -> & Hn & Hf).
    assert (zlen (enc (view b)) = n) as -> by (rewrite <- Hf; apply front_length; [apply Hs|done]).
    rewrite <- Hf. split; [done|split; [done|]]. apply contents_split; [apply Hs|done].
  - split; [done|]. intros a rest Ha Hc.
    destruct (contents_cons _ _ s (proj1 Hs) Hc) as (more & Hse & H1 & H2).
    destruct (Hfwd a more (cbs_len s) Ha H1 H2 (proj2 Hs)) as (b & u & Hd).
    rewrite <- Hse, E in Hd. done.
Qed.

(** ** Base-128 numbers and tags *)
Lemma base128_exact : reads_exactly b128 (fun v => 0 <= v < 2 ^ 64) id parse_base128_integer.
Proof.
  eapply (reads_exactly_intro _ _ _ _ any).
  - intros s [Hok Hl]. pose proof (parse_base128_inv s Hok) as H. unfold reads_enc in H.
    destruct (parse_base128_integer s); try done.
    + destruct H as (n & -> & Hn & _). split; [by apply sub_adv|done].
    + destruct H as (n & Hn & ->). by apply sub_adv.
  - intros s b t [Hok _] E. pose proof (parse_base128_inv s Hok) as H. rewrite E in H.
    destruct H as (n & H1 & H2 & H3 & H4). split; [done|]. by exists n.
  - intros v rest left Hv H1 H2 _. rewrite parse_base128_b128 by done. eauto.
Qed.

Lemma tag_exact : reads_exactly der_tag (fun tag => 0 <= tag < 2 ^ 32) id parse_asn1_tag.
Proof.
  eapply (reads_exactly_intro _ _ _ _ any).
  - apply reader_tag.
  - intros s b t [Hok _] E. pose proof (parse_tag_inv s Hok) as H. rewrite E in H.
    destruct H as (n & H1 & H2 & H3 & H4). split; [done|]. by exists n.
  - intros v rest left Hv H1 H2 _. rewrite parse_tag_der by done. eauto.
Qed.

(** ** Elements *)
Definition valid_element (e : Z * list byte) : Prop :=
  0 <= fst e < 2 ^ 32 /\ zlen (snd e) < 2 ^ 32.
Definition der_element (e : Z * list byte) : list byte := der (fst e) (snd e).
Definition view_element (r : CBS * Z) : Z * list byte := (snd r, contents (fst r)).

Lemma any_asn1_element tag body rest left :
  valid_element (tag, body) ->
  zlen (der tag body) <= left -> left <= zlen (der tag body ++ rest) -> left < 2 ^ 63 ->
  CBS_get_any_asn1 (mk_cbs (der tag body ++ rest) left)
  = Done (mk_cbs (body ++ rest) (zlen body), tag)
      (adv (zlen (der tag body)) (mk_cbs (der tag body ++ rest) left)).
Proof.
  intros [Ht Hb] H1 H2 H3. cbn [fst snd] in *. unfold der in *. rewrite <- app_assoc in *.
  rewrite !zlen_app in *. unfold CBS_get_any_asn1, get_any_asn1_to, bind.
  rewrite (element_der tag (zlen body) (body ++ rest) left); try (rewrite ?zlen_app; lia);
    [|split; [apply zlen_nonneg|done]].
  rewrite skip_header_spec.
  - unfold ret. f_equal. f_equal. unfold adv. cbn [cbs_data cbs_len]. f_equal; [|lia].
    unfold zlen. rewrite Nat2Z.id. apply drop_app_length.
  - unfold cbs_ok. cbn. rewrite !zlen_app. pose proof (zlen_nonneg body).
    pose proof (zlen_nonneg rest). pose proof (zlen_nonneg (der_header tag (zlen body))). lia.
  - cbn. pose proof (zlen_nonneg body). pose proof (zlen_nonneg (der_header tag (zlen body))). lia.
Qed.

Lemma front_mk n m data : front n (mk_cbs data m) = take (Z.to_nat n) data.
Proof. done. Qed.

Lemma any_asn1_inv s out tag t : good s -> CBS_get_any_asn1 s = Done (out, tag) t ->
  exists n, t = adv n s /\ 0 <= n <= cbs_len s /\ front n s = der tag (contents out) /\
    valid_element (tag, contents out) /\ sub s out.
Proof.
  intros [Hok Hl] E. pose proof (element_inv false s Hok Hl) as H.
  unfold CBS_get_any_asn1, get_any_asn1_to, CBS_get_any_asn1_element, bind in E.
  destruct (cbs_get_any_asn1_element false s) as [[[[o tg] hl] f] u|u|u|]; try done.
  destruct H as (n & -> & -> & Hhl & Hn & Hle & Htag & Hh). specialize (Hh eq_refl).
  cbn [ret] in E. unfold cbs_ok in Hok. rewrite skip_header_spec in E by (unfold cbs_ok; cbn; lia).
  unfold ret in E. injection E as <- <- <-.
  assert (sub s (adv hl (mk_cbs (cbs_data s) (hl + n)))) as Hsub.
  { apply (sub_trans s (mk_cbs (cbs_data s) (hl + n))); [apply sub_prefix; [done|lia]|].
    apply sub_adv; [unfold cbs_ok; cbn; lia|cbn; lia]. }
  assert (contents (adv hl (mk_cbs (cbs_data s) (hl + n))) = front n (adv hl s)) as Hc.
  { unfold contents, adv, front. cbn. do 2 f_equal. lia. }
  rewrite Hc. assert (zlen (front n (adv hl s)) = n) as Hzl.
  { apply front_length; [apply cbs_adv_ok; [done|lia]|cbn; lia]. }
  exists (hl + n). split; [done|]. split; [lia|]. split; [|split; [|done]].
  - unfold der. rewrite Hzl, <- Hh. apply front_app; [done|lia..].
  - split; cbn [fst snd]; [done|lia].
Qed.

Lemma element_exact : reads_exactly der_element valid_element view_element CBS_get_any_asn1.
Proof.
  eapply reads_exactly_intro; [apply reader_any_asn1|..].
  - intros s [out tag] t Hs E. destruct (any_asn1_inv s out tag t Hs E) as (n & H1 & H2 & H3 & H4 & _).
    split; [done|]. by exists n.
  - intros [tag body] rest left Hv H1 H2 H3. unfold der_element. cbn [fst snd].
    rewrite any_asn1_element by done. eauto.
Qed.

(** [CBS_get_asn1] for a fixed tag. *)
Lemma get_asn1_eq tag s : good s -> CBS_get_asn1 tag s =
  match CBS_get_any_asn1 s with
  | Done (out, t) u => if t =? tag then Done out u else Fail u
  | Fail u => Fail u
  | Undef u => Undef u
  | OutOfFuel => OutOfFuel
  end.
Proof.
  intros Hs. pose proof (reader_element s Hs) as Hr.
  unfold CBS_get_asn1, cbs_get_asn1, CBS_get_any_asn1, get_any_asn1_to, bind.
  destruct (CBS_get_any_asn1_element s) as [[[out t] hl] u|u|u|]; try done.
  destruct Hr as (_ & [Hok _] & Hhl). rewrite skip_header_spec by done. cbn [ret]. destruct (t =? tag); cbn [negb]; [by rewrite skip_header_spec|done].
Qed.

(** ** Typed values: an element with a given tag whose body is decoded *)
Definition decodes_body {A} (tag : Z) (decode : list byte -> option A) (op : C A) : Prop :=
  forall s, good s -> op s =
  match CBS_get_asn1 tag s with
  | Done c t => match decode (contents c) with Some a => Done a t | None => Fail t end
  | Fail t => Fail t
  | Undef u => Undef u
  | OutOfFuel => OutOfFuel
  end.

Lemma get_asn1_inv tag s c t : good s -> CBS_get_asn1 tag s = Done c t ->
  exists n, t = adv n s /\ 0 <= n <= cbs_len s /\ front n s = der tag (contents c) /\
    valid_element (tag, contents c) /\ sub s c.
Proof.
  intros Hs E. rewrite get_asn1_eq in E by done.
  destruct (CBS_get_any_asn1 s) as [[o tg] u|u|u|] eqn:E'; try done.
  destruct (Z.eqb_spec tg tag) as [->|]; [|done]. injection E as <- <-. by apply any_asn1_inv.
Qed.

(** The encoding of a value is read back as this value. *)
Lemma decodes_body_read {A} tag (enc : A -> list byte) valid decode (op : C A) a rest left :
  0 <= tag < 2 ^ 32 -> decodes_body tag decode op ->
  (forall l a, decode l = Some a <-> valid a /\ l = enc a) ->
  valid a -> zlen (enc a) < 2 ^ 32 ->
  zlen (der tag (enc a)) <= left -> left <= zlen (der tag (enc a) ++ rest) -> left < 2 ^ 63 ->
  op (mk_cbs (der tag (enc a) ++ rest) left)
  = Done a (adv (zlen (der tag (enc a))) (mk_cbs (der tag (enc a) ++ rest) left)).
Proof.
  intros Htag Hop Hdec Ha Henc H1 H2 H3.
  assert (good (mk_cbs (der tag (enc a) ++ rest) left)) as Hg.
  { split; [|done]. unfold cbs_ok. cbn. pose proof (zlen_nonneg (der tag (enc a))). lia. }
  rewrite Hop by done. rewrite get_asn1_eq, (any_asn1_element tag (enc a)) by done.
  rewrite Z.eqb_refl.
  replace (contents (mk_cbs (enc a ++ rest) (zlen (enc a)))) with (enc a).
  2:{ unfold contents, front, zlen. cbn. rewrite Nat2Z.id. symmetry. apply take_app_length. }
  by rewrite (proj2 (Hdec _ a)).
Qed.

Lemma decodes_body_exact {A} tag enc valid decode (op : C A) phi :
  reader phi op -> 0 <= tag < 2 ^ 32 -> decodes_body tag decode op ->
  (forall l a, decode l = Some a <-> valid a /\ l = enc a) ->
  (forall a, valid a -> zlen (enc a) < 2 ^ 32) ->
  reads_exactly (fun a => der tag (enc a)) valid id op.
Proof.
  intros Hr Htag Hop Hdec Henc. eapply reads_exactly_intro; [exact Hr|..].
  - intros s a t Hs E. rewrite Hop in E by done.
    destruct (CBS_get_asn1 tag s) as [c u|u|u|] eqn:E'; try done.
    destruct (get_asn1_inv tag s c u Hs E') as (n & H1 & H2 & H3 & _).
    destruct (decode (contents c)) eqn:Ed; [|done]. injection E as <- <-.
    apply Hdec in Ed as [Hv Hc]. split; [done|]. exists n. unfold id. by rewrite <- Hc.
  - intros a rest left Ha H1 H2 H3. exists a. eexists.
    apply (decodes_body_read tag enc valid decode); auto.
Qed.

(** ** Two's complement: the shortest big-endian form of an integer *)
Definition int_octets (v : Z) : nat :=
  S (Z.to_nat ((Z.log2 (if v <? 0 then - v - 1 else v) + 1) / 8)).
Definition int_bytes (v : Z) : list byte := be_bytes (int_octets v) v.

(** The range of a body of [k + 1] bytes. *)
Definition int_range (k : nat) (v : Z) : Prop :=
  - 2 ^ (8 * Z.of_nat k + 7) <= v < 2 ^ (8 * Z.of_nat k + 7).

Lemma int_range_abs k v :
  int_range k v <-> (if v <? 0 then - v - 1 else v) < 2 ^ (8 * Z.of_nat k + 7).
Proof. unfold int_range. destruct (Z.ltb_spec v 0); lia. Qed.

Lemma log2_range w n : 0 <= w -> 0 < n -> (w < 2 ^ n <-> Z.log2 w < n).
Proof.
  intros Hw Hn. destruct (Z.eq_dec w 0) as [->|].
  - change (Z.log2 0) with 0. pose proof (Z.pow_pos_nonneg 2 n ltac:(lia) ltac:(lia)). lia.
  - apply Z.log2_lt_pow2. lia.
Qed.

Lemma int_octets_range v : int_range (pred (int_octets v)) v.
Proof.
  apply int_range_abs. unfold int_octets. set (w := if v <? 0 then _ else _).
  assert (0 <= w) by (subst w; destruct (Z.ltb_spec v 0); lia).
  pose proof (Z.log2_nonneg w). cbn [pred].
  apply log2_range; [lia| |]; rewrite Z2Nat.id by (apply Z.div_pos; lia); zdm.
Qed.

Lemma int_octets_minimal k v : int_range k v -> (int_octets v <= S k)%nat.
Proof.
  rewrite int_range_abs. unfold int_octets. set (w := if v <? 0 then _ else _).
  assert (0 <= w) by (subst w; destruct (Z.ltb_spec v 0); lia).
  rewrite log2_range by lia. pose proof (Z.log2_nonneg w). intros Hl.
  apply le_n_S, Nat2Z.inj_le. rewrite Z2Nat.id by (apply Z.div_pos; lia). zdm.
Qed.

Lemma int_octets_unique k v :
  int_range k v -> (forall j, S j = k -> ~ int_range j v) -> int_octets v = S k.
Proof.
  intros H1 H2. pose proof (int_octets_minimal k v H1). pose proof (int_octets_range v) as H3.
  destruct (Nat.eq_dec (int_octets v) (S k)); [done|]. exfalso.
  destruct k as [|j]; [unfold int_octets in *; lia|]. apply (H2 j eq_refl).
  assert (pred (int_octets v) <= j)%nat by lia. unfold int_range in *.
  assert (2 ^ (8 * Z.of_nat (pred (int_octets v)) + 7) <= 2 ^ (8 * Z.of_nat j + 7)).
  { apply Z.pow_le_mono_r; lia. } lia.
Qed.

Lemma int_bytes_length v : zlen (int_bytes v) = Z.of_nat (int_octets v).
Proof. apply be_bytes_length. Qed.

Lemma int_bytes_max v : - 2 ^ 63 <= v < 2 ^ 64 -> zlen (int_bytes v) <= 9.
Proof.
  intros Hv. rewrite int_bytes_length. pose proof (int_octets_minimal 8 v) as Hm.
  unfold int_range in Hm. change (2 ^ (8 * Z.of_nat 8 + 7)) with (2 ^ 71) in Hm. lia.
Qed.

(** What [CBS_is_valid_asn1_integer] asks of a body, its sign and its value. *)
Definition negative (l : list byte) : bool :=
  match l with [] => false | b :: _ => 128 <=? bz b end.
Definition minimal (l : list byte) : bool :=
  match l with
  | [] => false
  | [_] => true
  | b0 :: b1 :: _ => negb ((bz b0 =? 0) && (bz b1 <? 128) || (bz b0 =? 255) && (128 <=? bz b1))
  end.
Definition int_value (l : list byte) : Z :=
  if negative l then be_val l - 256 ^ zlen l else be_val l.

Lemma pow_256_7 k : 2 ^ (8 * Z.of_nat k + 7) = 128 * 256 ^ Z.of_nat k.
Proof. rewrite Z.pow_add_r, Z.pow_mul_r by lia. change (2 ^ 8) with 256. change (2 ^ 7) with 128. lia. Qed.

Lemma pow_256_S k : 256 ^ Z.of_nat (S k) = 256 * 256 ^ Z.of_nat k.
Proof. rewrite Nat2Z.inj_succ, Z.pow_succ_r by lia. lia. Qed.

Lemma int_value_range b l : int_range (length l) (int_value (b :: l)).
Proof.
  unfold int_range, int_value. rewrite pow_256_7. cbn [negative].
  rewrite be_val_cons. change (zlen (b :: l)) with (Z.of_nat (S (length l))). rewrite pow_256_S.
  pose proof (be_val_range l). unfold zlen in *. pose proof (bz_range b).
  set (P := 256 ^ Z.of_nat (length l)) in *. destruct (Z.leb_spec 128 (bz b)); nia.
Qed.

Lemma be_val_inj l k : length l = length k -> be_val l = be_val k -> l = k.
Proof.
  intros Hl Hv. apply le_val_inj in Hv; [|by rewrite !length_rev].
  by rewrite <- (rev_involutive l), Hv, rev_involutive.
Qed.

Lemma int_value_mod l : int_value l mod 256 ^ zlen l = be_val l.
Proof.
  unfold int_value. pose proof (be_val_range l). destruct (negative l).
  - rewrite <- (Z.mod_add _ 1) by lia. rewrite Z.mod_small; lia.
  - apply Z.mod_small. lia.
Qed.

(** A minimal body does not fit in fewer bytes, and conversely. *)
Lemma minimal_range b0 b1 l :
  minimal (b0 :: b1 :: l) = true <-> ~ int_range (length l) (int_value (b0 :: b1 :: l)).
Proof.
  unfold int_range, int_value. rewrite pow_256_7. cbn [negative minimal].
  rewrite !be_val_cons. change (zlen (b0 :: b1 :: l)) with (Z.of_nat (S (S (length l)))).
  change (zlen (b1 :: l)) with (Z.of_nat (S (length l))). rewrite !pow_256_S.
  pose proof (be_val_range l). unfold zlen in *. pose proof (bz_range b0). pose proof (bz_range b1).
  set (P := 256 ^ Z.of_nat (length l)) in *.
  destruct (Z.eqb_spec (bz b0) 0) as [->|]; [|destruct (Z.eqb_spec (bz b0) 255) as [->|]].
  - destruct (Z.ltb_spec (bz b1) 128), (Z.leb_spec 128 (bz b1)); try lia; cbn; split; try done; nia.
  - destruct (Z.ltb_spec (bz b1) 128), (Z.leb_spec 128 (bz b1)); try lia; cbn; split; try done; nia.
  - cbn. split; [intros _|done]. destruct (Z.leb_spec 128 (bz b0)); nia.
Qed.

Lemma minimal_int_bytes l v :
  minimal l = true /\ int_value l = v <-> l = int_bytes v.
Proof.
  split.
  - intros [Hm <-]. destruct l as [|b l]; [done|].
    assert (int_octets (int_value (b :: l)) = S (length l)) as Ho.
    { apply int_octets_unique; [apply int_value_range|]. intros j Hj.
      destruct l as [|b1 l]; [done|]. injection Hj as ->. by apply minimal_range. }
    unfold int_bytes. rewrite Ho. change (S (length l)) with (length (b :: l)).
    apply be_val_inj.
    + pose proof (be_bytes_length (length (b :: l)) (int_value (b :: l))). unfold zlen in *. lia.
    + rewrite be_val_bytes. symmetry. apply int_value_mod.
  - intros ->. pose proof (int_octets_range v) as Hr.
    pose proof (fun k => int_octets_minimal k v) as Hmin.
    assert (int_value (int_bytes v) = v) as Hv.
    { pose proof (int_value_mod (int_bytes v)) as Hmod. rewrite int_bytes_length in Hmod.
      unfold int_bytes in Hmod at 2. rewrite be_val_bytes in Hmod.
      pose proof (int_bytes_length v) as Hl. destruct (int_bytes v) as [|b l]; [unfold int_octets in Hl; done|].
      pose proof (int_value_range b l) as Hr2.
      assert (length l = pred (int_octets v)) as Hll by (unfold zlen in Hl; cbn [length] in Hl; lia).
      rewrite Hll in Hr2. unfold int_range in *. rewrite pow_256_7 in *.
      replace (int_octets v) with (S (pred (int_octets v))) in Hmod by (unfold int_octets; lia).
      rewrite pow_256_S in Hmod. set (P := 256 ^ Z.of_nat (pred (int_octets v))) in *.
      assert (0 < 256 * P) as HP by (unfold P; lia).
      apply Z.cong_iff_0 in Hmod. apply Z.mod_divide in Hmod as [q Hq]; [|lia].
      assert (-1 < q < 1) by (split; apply (Z.mul_lt_mono_pos_r (256 * P)); lia). lia. }
    split; [|done]. pose proof (int_bytes_length v) as Hl.
    destruct (int_bytes v) as [|b0 [|b1 l]] eqn:E; [unfold int_octets in Hl; done|done|].
    apply minimal_range. rewrite Hv. intros Hbad. apply Hmin in Hbad.
    unfold zlen in Hl. cbn [length] in Hl. lia.
Qed.

Lemma top_bit b : negb (Z.land (bz b) 128 =? 0) = (128 <=? bz b).
Proof.
  rewrite land_128 by apply bz_range. symmetry. apply Z.leb_antisym.
Qed.

(** The first byte, or none. *)
Lemma contents_case s : cbs_ok s ->
  (contents s = [] /\ CBS_get_u8 s = Fail s) \/
  (exists b, contents s = b :: contents (adv 1 s) /\ CBS_get_u8 s = Done (bz b) (adv 1 s) /\
     1 <= cbs_len s).
Proof.
  intros Hok. destruct (Z.ltb_spec (cbs_len s) 1) as [Hlt|Hge].
  - left. unfold cbs_ok in Hok. rewrite get_u8_spec by done.
    rewrite (proj2 (Z.ltb_lt _ 1)) by done. split; [|done].
    apply nil_length_inv. pose proof (contents_length s Hok). unfold zlen in *. lia.
  - right. destruct (cbs_cons s Hok Hge) as (b & l & Hd). exists b.
    rewrite (contents_split 1) by (done || lia).
    destruct s as [d n]. cbn in Hd, Hge. subst d. cbn [cbs_len] in *.
    rewrite get_u8_cons by done. split; [done|]. split; [|done]. by unfold adv.
Qed.

Lemma valid_integer_spec s : good s ->
  CBS_is_valid_asn1_integer s =
  if minimal (contents s) then Done (negative (contents s)) s else Fail s.
Proof.
  intros [Hok _]. unfold CBS_is_valid_asn1_integer, bind, gets, id, on_cbs.
  destruct (contents_case s Hok) as [[-> ->]|(b0 & -> & -> & Hlen)]; [done|].
  destruct (contents_case (adv 1 s)) as [[-> ->]|(b1 & -> & -> & _)]; [by apply cbs_adv_ok; [|lia]|..].
  - cbn. by rewrite top_bit.
  - cbn [minimal negative]. rewrite !top_bit. unfold ret.
    replace (Z.land (bz b1) 128 =? 0) with (bz b1 <? 128)
      by (rewrite <- (negb_involutive (Z.land _ _ =? 0)), top_bit; lia).
    by destruct (_ || _).
Qed.

(** ** Values *)
Lemma check_cbs_eq {A} (op : C A) c s :
  check_cbs c op s = match op c with
                     | Done a _ => Done a s | Fail _ => Fail s
                     | Undef u => Undef u | OutOfFuel => OutOfFuel end.
Proof. unfold check_cbs, bind, on_cbs. by destruct (op c). Qed.

Lemma uint64_loop_spec n : forall pre l rest out s,
  length l = n -> out = be_val pre -> 0 <= out < 2 ^ 64 ->
  uint64_loop n (pre ++ l ++ rest) (zlen pre) out s =
  if be_val (pre ++ l) <? 2 ^ 64 then Done (be_val (pre ++ l)) s else Fail s.
Proof.
  induction n as [|n IH]; intros pre l rest out s Hl -> Hr.
  - destruct l; [|done]. rewrite app_nil_r. cbn [uint64_loop].
    by rewrite (proj2 (Z.ltb_lt _ _) (proj2 Hr)).
  - destruct l as [|b l]; [done|]. injection Hl as Hl. cbn [uint64_loop].
    replace (Z.shiftr (be_val pre) 56 =? 0) with (be_val pre <? 2 ^ 56)
      by (rewrite Z.shiftr_div_pow2 by lia; apply Bool.eq_iff_eq_true;
          rewrite Z.ltb_lt, Z.eqb_eq; split; [intros; apply Z.div_small; lia|zdm]).
    pose proof (bz_range b) as Hb.
    replace (pre ++ b :: l) with ((pre ++ [b]) ++ l) by by rewrite <- app_assoc.
    pose proof (be_val_app (pre ++ [b]) l) as Happ. pose proof (be_val_range l).
    pose proof (be_val_snoc pre b) as Hsn.
    destruct (Z.ltb_spec (be_val pre) (2 ^ 56)); cbn [negb].
    + assert ((pre ++ (b :: l) ++ rest) !! length pre = Some b) as Hlk.
      { rewrite lookup_app_r by lia. by rewrite Nat.sub_diag. }
      unfold bind. unfold zlen at 1. rewrite (data_at_eq _ _ b) by done.
      rewrite u64_small by (rewrite Z.shiftl_mul_pow2 by lia; lia).
      rewrite lor_shift8, <- Hsn by lia. replace (zlen pre + 1) with (zlen (pre ++ [b])) by zl.
      replace (pre ++ (b :: l) ++ rest) with ((pre ++ [b]) ++ l ++ rest) by by rewrite <- !app_assoc.
      apply IH; [done|done|lia].
    + rewrite (proj2 (Z.ltb_ge _ _)); [done|]. rewrite Happ, Hsn. nia.
Qed.

Definition dec_uint (l : list byte) : option Z :=
  if minimal l && negb (negative l) && (be_val l <? 2 ^ 64) then Some (be_val l) else None.

Definition dec_int (l : list byte) : option Z :=
  if minimal l && (zlen l <=? 8) then Some (int_value l) else None.

Lemma take_data c : cbs_ok c -> cbs_data c = contents c ++ drop (Z.to_nat (cbs_len c)) (cbs_data c).
Proof. intros _. unfold contents, front. by rewrite take_drop. Qed.

Lemma uint64_decodes : decodes_body 2 dec_uint CBS_get_asn1_uint64.
Proof.
  intros s Hs. unfold CBS_get_asn1_uint64, bind. change CBS_ASN1_INTEGER with 2.
  destruct (CBS_get_asn1 2 s) as [c t|t|u|] eqn:E; try done.
  destruct (get_asn1_inv 2 s c t Hs E) as (_ & _ & _ & _ & _ & Hsub).
  pose proof (sub_good s c Hs Hsub) as Hc. rewrite check_cbs_eq.
  unfold CBS_is_unsigned_asn1_integer, bind. rewrite valid_integer_spec by done.
  unfold dec_uint. destruct (minimal (contents c)); [|done].
  destruct (negative (contents c)); [done|]. cbn [andb negb ret].
  pose proof (contents_length c (proj1 Hc)) as Hl.
  pose proof (uint64_loop_spec (Z.to_nat (cbs_len c)) [] (contents c)
    (drop (Z.to_nat (cbs_len c)) (cbs_data c)) 0 t) as Hloop.
  cbn [app] in Hloop. rewrite <- take_data in Hloop by apply Hc. change (zlen []) with 0 in Hloop.
  rewrite Hloop; [by destruct (_ <? _)|unfold zlen in Hl; lia|done|done].
Qed.

Lemma dec_uint_iff l v : dec_uint l = Some v <-> 0 <= v < 2 ^ 64 /\ l = int_bytes v.
Proof.
  unfold dec_uint. rewrite <- minimal_int_bytes. unfold int_value. pose proof (be_val_range l).
  destruct (minimal l), (negative l); cbn [andb negb]; try intuition (congruence || lia).
  destruct (Z.ltb_spec (be_val l) (2 ^ 64)); intuition (congruence || lia).
Qed.

Lemma dec_int_iff l v : dec_int l = Some v <-> - 2 ^ 63 <= v < 2 ^ 63 /\ l = int_bytes v.
Proof.
  unfold dec_int. split.
  - destruct (minimal l) eqn:Hm; [|done]. cbn [andb].
    destruct (Z.leb_spec (zlen l) 8) as [Hl|]; [|done]. intros [= <-].
    split; [|by apply minimal_int_bytes]. destruct l as [|b l]; [done|].
    pose proof (int_value_range b l) as Hr. unfold int_range in Hr.
    assert (2 ^ (8 * Z.of_nat (length l) + 7) <= 2 ^ 63).
    { apply Z.pow_le_mono_r; [lia|]. unfold zlen in Hl. cbn [length] in Hl. lia. } lia.
  - intros [Hr ->]. destruct (proj2 (minimal_int_bytes _ v) eq_refl) as [-> ->]. cbn [andb].
    pose proof (int_octets_minimal 7 v Hr). rewrite int_bytes_length.
    by rewrite (proj2 (Z.leb_le _ _)) by lia.
Qed.

Lemma uint64_exact : reads_exactly (fun v => der 2 (int_bytes v)) (fun v => 0 <= v < 2 ^ 64) id CBS_get_asn1_uint64.
Proof.
  eapply decodes_body_exact; [apply reader_uint64|done|apply uint64_decodes|apply dec_uint_iff|].
  intros v Hv. rewrite int_bytes_length. pose proof (int_octets_minimal 8 v).
  unfold int_range in *. change (2 ^ (8 * Z.of_nat 8 + 7)) with (2 ^ 71) in *. lia.
Qed.

Lemma le_val_fill l n x :
  le_val (l ++ replicate n x) = le_val l + 256 ^ zlen l * le_val (replicate n x).
Proof. apply le_val_app. Qed.

Lemma le_val_replicate0 n : le_val (replicate n (zb 0)) = 0.
Proof. induction n as [|n IH]; [done|]. cbn [replicate le_val]. rewrite IH. done. Qed.

Lemma le_val_replicate255 n : le_val (replicate n (zb 255)) = 256 ^ Z.of_nat n - 1.
Proof.
  induction n as [|n IH]; [done|]. cbn [replicate le_val]. rewrite IH, pow_256_S.
  change (bz (zb 255)) with 255. lia.
Qed.

(** The sign extension of [CBS_get_asn1_int64]. *)
Lemma sign_extend l : minimal l = true -> zlen l <= 8 ->
  s64 (le_val (rev l ++ replicate (8 - length l) (zb (if negative l then 255 else 0))))
  = int_value l.
Proof.
  intros Hm Hl. rewrite le_val_fill. change (le_val (rev l)) with (be_val l).
  replace (zlen (rev l)) with (zlen l) by (unfold zlen; by rewrite length_rev).
  destruct l as [|b l]; [done|]. pose proof (int_value_range b l) as Hr. unfold int_range in Hr.
  assert (2 ^ (8 * Z.of_nat (length l) + 7) <= 2 ^ 63) as Hp.
  { apply Z.pow_le_mono_r; [lia|]. unfold zlen in Hl. cbn [length] in Hl. lia. }
  pose proof (be_val_range (b :: l)). unfold int_value in *. set (k := b :: l) in *.
  destruct (negative k).
  - rewrite le_val_replicate255, Z.mul_sub_distr_l, <- Z.pow_add_r by (unfold zlen; lia).
    replace (zlen k + Z.of_nat (8 - length k)) with 8 by (unfold zlen in *; lia).
    change (256 ^ 8) with (2 ^ 64). unfold s64. rewrite <- swrap_of_mod by lia.
    replace (be_val k + _) with (be_val k - 256 ^ zlen k + 1 * 2 ^ 64) by lia.
    rewrite Z.mod_add, swrap_of_mod by lia. apply swrap_small; lia.
  - rewrite le_val_replicate0, Z.mul_0_r, Z.add_0_r. apply swrap_small; lia.
Qed.

Lemma int64_decodes : decodes_body 2 dec_int CBS_get_asn1_int64.
Proof.
  intros s Hs. unfold CBS_get_asn1_int64, bind. change CBS_ASN1_INTEGER with 2.
  destruct (CBS_get_asn1 2 s) as [c t|t|u|] eqn:E; try done.
  destruct (get_asn1_inv 2 s c t Hs E) as (_ & _ & _ & _ & _ & Hsub).
  pose proof (sub_good s c Hs Hsub) as Hc. rewrite check_cbs_eq, valid_integer_spec by done.
  unfold dec_int. destruct (minimal (contents c)) eqn:Hm; [|done].
  rewrite <- (contents_length c), Z.ltb_antisym by apply Hc. cbn [andb].
  destruct (Z.leb_spec (zlen (contents c)) 8) as [Hl|]; [|done]. cbn [negb].
  rewrite (contents_length c) by apply Hc. rewrite bytes_at_ok by apply Hc.
  unfold ret. by rewrite sign_extend.
Qed.

Lemma int64_exact :
  reads_exactly (fun v => der 2 (int_bytes v)) (fun v => - 2 ^ 63 <= v < 2 ^ 63) id CBS_get_asn1_int64.
Proof.
  eapply decodes_body_exact; [apply reader_int64|done|apply int64_decodes|apply dec_int_iff|].
  intros v Hv. rewrite int_bytes_length. pose proof (int_octets_minimal 7 v Hv). lia.
Qed.

Definition bool_bytes (b : bool) : list byte := [zb (if b then 255 else 0)].
Definition dec_bool (l : list byte) : option bool :=
  match l with
  | [b] => if bz b =? 0 then Some false else if bz b =? 255 then Some true else None
  | _ => None
  end.

Lemma bool_decodes : decodes_body 1 dec_bool CBS_get_asn1_bool.
Proof.
  intros s Hs. unfold CBS_get_asn1_bool, bind. change CBS_ASN1_BOOLEAN with 1.
  destruct (CBS_get_asn1 1 s) as [c t|t|u|] eqn:E; try done.
  destruct (get_asn1_inv 1 s c t Hs E) as (_ & _ & _ & _ & _ & Hsub).
  pose proof (sub_good s c Hs Hsub) as Hc. pose proof (contents_length c (proj1 Hc)) as Hl.
  unfold zlen in Hl. unfold dec_bool.
  destruct (contents c) as [|b [|? ?]] eqn:Ec; cbn [length] in Hl; try (by destruct (Z.eqb_spec (cbs_len c) 1); [lia|]).
  rewrite <- Hl. change (Z.of_nat 1 =? 1) with true. cbn [negb].
  rewrite (take_data c) by apply Hc. rewrite Ec.
  rewrite (data_at_eq _ 0 b t) by done. destruct (bz b =? 0); cbn; [done|]. by destruct (bz b =? 255).
Qed.

Lemma dec_bool_iff l b : dec_bool l = Some b <-> True /\ l = bool_bytes b.
Proof.
  unfold dec_bool, bool_bytes. split.
  - destruct l as [|c [|? ?]]; try done. intros H. split; [done|]. f_equal. apply bz_inj.
    destruct (Z.eqb_spec (bz c) 0) as [E|]; [by injection H as <-|].
    destruct (Z.eqb_spec (bz c) 255); [by injection H as <-|done].
  - intros [_ ->]. by destruct b.
Qed.

Lemma bool_exact : reads_exactly (fun b => der 1 (bool_bytes b)) (fun _ => True) id CBS_get_asn1_bool.
Proof.
  eapply decodes_body_exact; [apply reader_bool|done|apply bool_decodes|apply dec_bool_iff|done].
Qed.

(** ** Optional elements *)
Definition starts_with_tag (tag : Z) (s : CBS) : Prop := exists rest, contents s = der_tag tag ++ rest.

Lemma peek_spec tag s : good s -> 0 <= tag < 2 ^ 32 ->
  exists b, CBS_peek_asn1_tag tag s = Done b s /\ (b = true <-> starts_with_tag tag s).
Proof.
  intros Hs Htag. unfold CBS_peek_asn1_tag, bind, gets, id, on_cbs, starts_with_tag.
  pose proof (contents_length s (proj1 Hs)) as Hl.
  destruct (Z.ltb_spec (cbs_len s) 1).
  - exists false. split; [done|]. split; [done|]. intros [rest E]. rewrite E, zlen_app in Hl.
    pose proof (der_tag_length tag Htag). pose proof (zlen_nonneg rest). lia.
  - pose proof (tag_exact s Hs) as H'. unfold id in H'.
    destruct (parse_asn1_tag s) as [v t|t|u|]; try done; [exists (tag =? v)|exists false];
      (split; [exact eq_refl|]).
    + destruct H' as (Hv & -> & Hc). destruct (Z.eqb_spec tag v) as [->|Hne]; [by split; [intros _; eauto|]|].
      split; [done|]. intros [rest E]. exfalso. apply Hne.
      destruct (contents_cons _ _ s (proj1 Hs) E) as (more & Hse & H1 & H2).
      destruct (contents_cons _ _ s (proj1 Hs) Hc) as (more' & Hse' & H1' & H2').
      pose proof (parse_tag_der tag more _ Htag H1) as P1.
      pose proof (parse_tag_der v more' _ Hv H1') as P2.
      rewrite <- Hse in P1. rewrite <- Hse' in P2. congruence.
    + split; [done|]. intros [rest E]. by destruct (proj2 H' tag rest Htag).
Qed.

Lemma optional_spec tag s : good s -> 0 <= tag < 2 ^ 32 ->
  (starts_with_tag tag s /\
   CBS_get_optional_asn1 tag s = (let* out := CBS_get_asn1 tag in ret (Some out)) s) \/
  (~ starts_with_tag tag s /\ CBS_get_optional_asn1 tag s = Done None s).
Proof.
  intros Hs Htag. destruct (peek_spec tag s Hs Htag) as (b & Hp & Hb).
  unfold CBS_get_optional_asn1. destruct b; [left|right].
  - split; [by apply Hb|]. unfold bind at 1. by rewrite Hp.
  - split; [intros H; by apply Hb in H|]. unfold bind at 1. by rewrite Hp.
Qed.

(** ** Comparison *)
Lemma memcmp_loop_zero a : forall b x, length a = length b -> 0 <= x ->
  memcmp_loop a b x = 0 <-> x = 0 /\ a = b.
Proof.
  induction a as [|i a IH]; intros [|j b] x Hl Hx; try done; cbn [memcmp_loop]; [by split; [|intros []]|].
  pose proof (bz_range i). pose proof (bz_range j).
  assert (0 <= Z.lxor (bz i) (bz j)) by (apply Z.lxor_nonneg; lia).
  rewrite IH; [|by injection Hl|apply Z.lor_nonneg; lia].
  rewrite Z.lor_eq_0_iff, Z.lxor_eq_0_iff. split.
  - intros [[-> Hij] ->]. apply bz_inj in Hij. by subst.
  - by intros [-> [= -> ->]].
Qed.

Lemma mem_equal_spec s data : cbs_ok s -> zlen data < 2 ^ 64 ->
  CBS_mem_equal s data (zlen data) = Done (bool_decide (contents s = data)) s.
Proof.
  intros Hok _. unfold CBS_mem_equal. pose proof (contents_length s Hok) as Hl.
  destruct (Z.eqb_spec (zlen data) (cbs_len s)) as [Heq|Hne]; cbn [negb].
  - unfold bind. rewrite Heq at 1. rewrite bytes_at_ok by done. unfold bytes_at.
    rewrite Z.ltb_irrefl. unfold ret. fold (contents s).
    replace (take (Z.to_nat (zlen data)) data) with data
      by (unfold zlen; by rewrite Nat2Z.id, firstn_all).
    f_equal. apply Bool.eq_iff_eq_true. rewrite Z.eqb_eq, bool_decide_eq_true.
    rewrite memcmp_loop_zero; [intuition congruence|unfold zlen in *; lia|done].
  - rewrite bool_decide_eq_false_2; [done|]. congruence.
Qed.

(** ** Bit strings *)
Definition bitstring_ok (l : list byte) : bool :=
  match l with
  | [] => false
  | unused :: bits =>
      (bz unused <=? 7) &&
      ((bz unused =? 0) ||
       match last bits with Some b => bz b mod 2 ^ bz unused =? 0 | None => false end)
  end.

(** Bit [i] of the string, the first one the top bit of the first byte. *)
Definition bitstring_bit (l : list byte) (i : Z) : bool :=
  match l !! Z.to_nat (i / 8 + 1) with
  | Some b => Z.testbit (bz b) (7 - i mod 8)
  | None => false
  end.

Lemma bit_test b k : 0 <= k -> negb (Z.land b (2 ^ k) =? 0) = Z.testbit b k.
Proof.
  intros Hk. assert (Z.land b (2 ^ k) = if Z.testbit b k then 2 ^ k else 0) as ->.
  { apply Z.bits_inj'. intros i Hi. rewrite Z.land_spec.
    destruct (Z.eq_dec i k) as [->|Hne].
    - rewrite Z.pow2_bits_true by lia. rewrite andb_true_r.
      destruct (Z.testbit b k) eqn:E; [by rewrite Z.pow2_bits_true by lia|by rewrite Z.bits_0].
    - rewrite Z.pow2_bits_false by lia. rewrite andb_false_r.
      destruct (Z.testbit b k); [by rewrite Z.pow2_bits_false by lia|by rewrite Z.bits_0]. }
  destruct (Z.testbit b k); [|done]. by destruct (Z.eqb_spec (2 ^ k) 0); [lia|].
Qed.

Lemma last_u8_spec s : cbs_ok s ->
  CBS_get_last_u8 s = match last (contents s) with
                      | Some b => Done (bz b) (mk_cbs (cbs_data s) (cbs_len s - 1))
                      | None => Fail s end.
Proof.
  intros Hok. unfold CBS_get_last_u8. pose proof (contents_length s Hok) as Hl.
  destruct (Z.eqb_spec (cbs_len s) 0) as [E|E].
  - destruct (contents s); [done|]. unfold zlen in Hl. cbn in Hl. lia.
  - unfold bind. rewrite last_lookup.
    assert (Init.Nat.pred (length (contents s)) = Z.to_nat (cbs_len s - 1)) as -> by (unfold zlen in Hl; lia).
    unfold contents, front. unfold cbs_ok in Hok. rewrite lookup_take_lt by lia.
    destruct (data_at_ok s (cbs_len s - 1) s Hok) as [b Hb]; [lia|]. unfold data_at in *.
    destruct (Z.ltb_spec (cbs_len s - 1) 0); [lia|].
    destruct (cbs_data s !! Z.to_nat (cbs_len s - 1)); [|done]. cbn in *. by injection Hb as ->.
Qed.

Lemma bitstring_spec s : good s ->
  CBS_is_valid_asn1_bitstring s = if bitstring_ok (contents s) then Done tt s else Fail s.
Proof.
  intros [Hok _]. unfold CBS_is_valid_asn1_bitstring, bind, gets, id, on_cbs.
  destruct (contents_case s Hok) as [[-> ->]|(b & -> & -> & Hlen)]; [done|]. cbn [bitstring_ok].
  rewrite (Z.ltb_antisym (bz b)). pose proof (bz_range b).
  destruct (Z.leb_spec (bz b) 7); [|done]. cbn [negb andb].
  destruct (Z.eqb_spec (bz b) 0); [done|]. cbn [orb].
  rewrite last_u8_spec by (apply cbs_adv_ok; [done|lia]).
  destruct (last (contents (adv 1 s))) as [c|]; [|done].
  rewrite Z.shiftl_mul_pow2, Z.mul_1_l, Z.sub_1_r, <- Z.ones_equiv, Z.land_ones by lia.
  by destruct (_ =? 0).
Qed.

Lemma has_bit_spec bit s : good s -> 0 <= bit < 2 ^ 32 ->
  CBS_asn1_bitstring_has_bit bit s =
  Done (bitstring_ok (contents s) && bitstring_bit (contents s) bit) s.
Proof.
  intros Hs Hbit. unfold CBS_asn1_bitstring_has_bit, bind, attempt. rewrite bitstring_spec by done.
  destruct (bitstring_ok _); [|done]. unfold gets, id. cbn [andb].
  rewrite Z.shiftr_div_pow2 by lia. change (2 ^ 3) with 8.
  rewrite u32_small by zdm. unfold bitstring_bit. pose proof (contents_length s (proj1 Hs)) as Hl.
  assert (0 <= bit / 8) by zdm.
  destruct (Z.ltb_spec (bit / 8 + 1) (cbs_len s)).
  - destruct (data_at_ok s (bit / 8 + 1) s (proj1 Hs)) as [b Hb]; [lia|]. rewrite Hb.
    unfold contents, front. rewrite lookup_take_lt by lia. unfold data_at in Hb.
    destruct (Z.ltb_spec (bit / 8 + 1) 0); [lia|].
    destruct (cbs_data s !! Z.to_nat (bit / 8 + 1)); [|done]. cbn in Hb. injection Hb as Hb. rewrite Hb.
    unfold ret. f_equal. change 7 with (Z.ones 3) at 2. rewrite Z.land_ones by lia. change (2 ^ 3) with 8.
    assert (0 <= 7 - bit mod 8) by zdm.
    rewrite Z.shiftl_mul_pow2, Z.mul_1_l by lia. apply bit_test. lia.
  - rewrite lookup_ge_None_2; [done|]. unfold zlen in Hl. lia.
Qed.
