(* ===== verification/CbsTheorems.v ===== *)
(** BoringSSL, [crypto/bytestring/cbs.c]: the properties of the reader and of
    the DER parser, with their witnesses. *)
From S2P Require Import Prelude.
From S2P Require Import Cbs.
From S2P Require Import CbsProofs.
From S2P Require Import CbsDer.

(** A [CBS] over the given byte values. *)
Definition cbs_of (l : list Z) : CBS := CBS_init (map zb l) (Z.of_nat (length l)).

Lemma cbs_of_good l : Z.of_nat (length l) < 2 ^ 63 -> good (cbs_of l).
Proof.
  intros Hl. split; [|done]. unfold cbs_ok. cbn. unfold zlen. rewrite length_map. lia.
Qed.

Definition bool_element : CBS := cbs_of [1; 1; 255; 7].

Lemma bool_element_good : good bool_element.
Proof. apply cbs_of_good. reflexivity. Qed.

(** ** DER elements and values *)

(** C4: [CBS_get_any_asn1] reads exactly the DER elements: it succeeds if and
    only if the input starts with the DER encoding (tag of 32 bits, minimal
    length, body of less than 2^32 bytes) of some tag and body, and it then
    gives this tag and a [CBS] on this body and advances past the element;
    it is total and makes no access out of bounds. *)
Theorem der_element_exact :
  reads_exactly der_element valid_element view_element CBS_get_any_asn1.
Proof. exact element_exact. Qed.

Lemma der_element_exact_witness :
  match CBS_get_any_asn1 bool_element with
  | Done r t => valid_element (view_element r) /\ contents t = [zb 7]
  | _ => False
  end.
Proof.
  pose proof (der_element_exact bool_element bool_element_good) as H.
  change (CBS_get_any_asn1 bool_element)
    with (Done (mk_cbs (map zb [255; 7]) 1, 1) (mk_cbs (map zb [7]) 1)) in *.
  split; [apply H|reflexivity].
Defined.

(** Without an [out], which [bytestring.h] allows, [CBS_get_any_asn1] reads the
    element and then skips its header through the null pointer. *)
Theorem any_asn1_without_out s r t :
  CBS_get_any_asn1_element s = Done r t -> get_any_asn1_to true s = Undef UbMem.
Proof. intros E. unfold get_any_asn1_to. rewrite (bind_done _ _ _ _ _ E). by destruct r as [[out tag] hl]. Qed.

Lemma any_asn1_without_out_witness : get_any_asn1_to true bool_element = Undef UbMem.
Proof. by eapply any_asn1_without_out. Defined.

(** the tags of DER (high tag numbers in base 128 included) and the base-128
    numbers of object identifiers are accepted in their one minimal encoding,
    up to 32 and 64 bits, and rejected otherwise. *)
Theorem der_tags_exact :
  reads_exactly der_tag (fun tag => 0 <= tag < 2 ^ 32) id parse_asn1_tag /\
  reads_exactly b128 (fun v => 0 <= v < 2 ^ 64) id parse_base128_integer.
Proof. split; [apply tag_exact|apply base128_exact]. Qed.

(** C34: [CBS_get_asn1_uint64], [CBS_get_asn1_int64] and [CBS_get_asn1_bool]
    accept exactly the DER encodings of the integers below 2^64, of the signed
    64-bit integers (shortest two's complement) and of the booleans. *)
Theorem der_values_exact :
  reads_exactly (fun v => der 2 (int_bytes v)) (fun v => 0 <= v < 2 ^ 64) id CBS_get_asn1_uint64 /\
  reads_exactly (fun v => der 2 (int_bytes v)) (fun v => - 2 ^ 63 <= v < 2 ^ 63) id
    CBS_get_asn1_int64 /\
  reads_exactly (fun b => der 1 (bool_bytes b)) (fun _ => True) id CBS_get_asn1_bool.
Proof. split; [apply uint64_exact|split; [apply int64_exact|apply bool_exact]]. Qed.

(** [CBS_get_optional_asn1] reads the element when the input starts with
    its tag, and otherwise reports its absence and leaves the input alone. *)
Theorem optional_element tag s :
  good s -> 0 <= tag < 2 ^ 32 ->
  (starts_with_tag tag s /\
   CBS_get_optional_asn1 tag s = (let* out := CBS_get_asn1 tag in ret (Some out)) s) \/
  (~ starts_with_tag tag s /\ CBS_get_optional_asn1 tag s = Done None s).
Proof. apply optional_spec. Qed.

Lemma optional_element_witness :
  ~ starts_with_tag 2 bool_element /\ CBS_get_optional_asn1 2 bool_element = Done None bool_element.
Proof.
  destruct (optional_element 2 bool_element bool_element_good) as [[_ H]|H].
  - split; [discriminate|reflexivity].
  - vm_compute in H. discriminate.
  - exact H.
Defined.

(** the checks on BIT STRING bodies: a valid one counts at most seven unused
    bits, which are zero, and [CBS_asn1_bitstring_has_bit] tells the bit of
    any index, false past the end or when the string is not valid. *)
Theorem bitstring_exact bit s :
  good s -> 0 <= bit < 2 ^ 32 ->
  CBS_is_valid_asn1_bitstring s = (if bitstring_ok (contents s) then Done tt s else Fail s) /\
  CBS_asn1_bitstring_has_bit bit s =
    Done (bitstring_ok (contents s) && bitstring_bit (contents s) bit) s.
Proof. split; [by apply bitstring_spec|by apply has_bit_spec]. Qed.

Lemma bitstring_exact_witness :
  CBS_asn1_bitstring_has_bit 3 (cbs_of [3; 1; 16; 8]) = Done false (cbs_of [3; 1; 16; 8]) /\
  CBS_asn1_bitstring_has_bit 11 (cbs_of [3; 1; 16; 8]) = Done true (cbs_of [3; 1; 16; 8]).
Proof.
  split; (etransitivity; [apply bitstring_exact; [apply cbs_of_good; reflexivity|split; reflexivity || discriminate]|]);
    reflexivity.
Defined.

(** ** Plain reads *)

(** A read of the integer of the next [n] bytes. *)
Definition reads_int (n : Z) (value : list byte -> Z) (op : C Z) : Prop :=
  forall s, cbs_ok s ->
  op s = if cbs_len s <? n then Fail s else Done (value (front n s)) (adv n s).

Lemma reads_be n w (op : C Z) : 0 <= n <= 8 -> 256 ^ n = 2 ^ w ->
  (forall s, op s = (let* v := cbs_get_u n in ret (v mod 2 ^ w)) s) -> reads_int n be_val op.
Proof.
  intros Hn Hw E s Hs. rewrite E. unfold bind. rewrite cbs_get_u_spec by done.
  destruct (Z.ltb_spec (cbs_len s) n); [done|]. unfold ret. f_equal.
  pose proof (be_val_range (front n s)) as Hr. rewrite front_length in Hr by (done || lia).
  apply Z.mod_small. lia.
Qed.

Lemma reads_le n (be le : C Z) swap : 0 <= n ->
  reads_int n be_val be -> (forall s, le s = (let* v := be in ret (swap v)) s) ->
  (forall l, zlen l = n -> swap (be_val l) = le_val l) -> reads_int n le_val le.
Proof.
  intros Hn Hbe E Hsw s Hs. rewrite E. unfold bind. rewrite Hbe by done.
  destruct (Z.ltb_spec (cbs_len s) n); [done|]. unfold ret. f_equal. apply Hsw.
  apply front_length; [done|lia].
Qed.

(** The fixed-size reads give the big-endian or little-endian value of the
    next bytes and advance past them, or fail and leave the input alone when
    it is too short. *)
Theorem fixed_reads_exact :
  reads_int 1 be_val CBS_get_u8 /\ reads_int 2 be_val CBS_get_u16 /\
  reads_int 3 be_val CBS_get_u24 /\ reads_int 4 be_val CBS_get_u32 /\
  reads_int 8 be_val CBS_get_u64 /\ reads_int 2 le_val CBS_get_u16le /\
  reads_int 4 le_val CBS_get_u32le /\ reads_int 8 le_val CBS_get_u64le.
Proof.
  assert (reads_int 2 be_val CBS_get_u16) as H2 by by apply (reads_be 2 16).
  assert (reads_int 4 be_val CBS_get_u32) as H4 by by apply (reads_be 4 32).
  assert (reads_int 8 be_val CBS_get_u64) as H8 by (intros s Hs; by apply cbs_get_u_spec).
  split; [intros s Hs; by apply get_u8_spec|]. split; [done|].
  split.
  { intros s Hs. unfold CBS_get_u24, bind. rewrite cbs_get_u_spec by (done || lia).
    destruct (Z.ltb_spec (cbs_len s) 3); [done|]. unfold ret. f_equal.
    pose proof (be_val_range (front 3 s)) as Hr. rewrite front_length in Hr by (done || lia).
    apply u32_small. lia. }
  split; [done|]. split; [done|].
  split; [by apply (reads_le 2 _ _ _ ltac:(lia) H2 (fun _ => eq_refl) swap2)|].
  split; [by apply (reads_le 4 _ _ _ ltac:(lia) H4 (fun _ => eq_refl) swap4)|].
  by apply (reads_le 8 _ _ _ ltac:(lia) H8 (fun _ => eq_refl) bswap8_spec).
Qed.

(** the length-prefixed reads split the input at the length its first bytes
    announce: the result is the body, the rest follows it, and a body that
    runs over the end is refused. *)
Theorem length_prefixed_exact n s :
  cbs_ok s -> 1 <= n <= 3 ->
  match cbs_get_length_prefixed n s with
  | Done c t => cbs_ok c /\ cbs_ok t /\
      contents s = be_bytes (Z.to_nat n) (cbs_len c) ++ contents c ++ contents t
  | Fail _ => forall body rest, zlen body < 256 ^ n ->
      contents s <> be_bytes (Z.to_nat n) (zlen body) ++ body ++ rest
  | _ => False
  end.
Proof.
  intros Hok Hn. rewrite length_prefixed_spec by done.
  pose proof (contents_length s Hok) as Hl.
  assert (forall body rest, zlen body < 256 ^ n ->
            contents s = be_bytes (Z.to_nat n) (zlen body) ++ body ++ rest ->
            n + zlen body <= cbs_len s /\ be_val (front n s) = zlen body) as Hback.
  { intros body rest Hb E. pose proof (zlen_nonneg body). pose proof (zlen_nonneg rest).
    pose proof (be_bytes_length (Z.to_nat n) (zlen body)) as Hbl. rewrite Z2Nat.id in Hbl by lia.
    rewrite E, !zlen_app in Hl. split; [lia|].
    rewrite (contents_split n) in E by (done || lia).
    apply app_inj_1 in E as [-> _]; [rewrite be_val_bytes, Z2Nat.id by lia; apply Z.mod_small; lia|].
    pose proof (front_length n s Hok ltac:(lia)) as Hf. unfold zlen in *. lia. }
  destruct (Z.ltb_spec (cbs_len s) n).
  { intros body rest Hb E. destruct (Hback body rest Hb E). pose proof (zlen_nonneg body). lia. }
  pose proof (front_length n s Hok ltac:(lia)) as Hf. pose proof (be_val_range (front n s)) as Hr.
  cbn zeta. set (l := be_val (front n s)) in *.
  destruct (Z.ltb_spec (cbs_len s) (n + l)) as [Hlt|Hge].
  { intros body rest Hb E. destruct (Hback body rest Hb E). lia. }
  pose proof (cbs_adv_ok n s Hok ltac:(lia)) as Ha. rewrite <- adv_adv by lia.
  split; [unfold cbs_ok in *; cbn in *; lia|split; [apply cbs_adv_ok; [done|cbn; lia]|]].
  rewrite (contents_split n), (contents_split l (adv n s)) by (done || cbn; lia). f_equal.
  cbn [cbs_len]. subst l. symmetry. rewrite <- (be_bytes_val (front n s)) at 2.
  f_equal. unfold zlen in Hf. lia.
Qed.

Lemma length_prefixed_exact_witness :
  contents (cbs_of [0; 2; 5; 6; 7]) = [zb 0; zb 2] ++ [zb 5; zb 6] ++ [zb 7].
Proof.
  assert (cbs_ok (cbs_of [0; 2; 5; 6; 7])) as Hok by (apply cbs_of_good; reflexivity).
  pose proof (length_prefixed_exact 2 _ Hok ltac:(lia)) as H.
  apply H.
Defined.

(** C39: on every input the readers return, make no access outside the input
    and leave the [CBS] inside it; the [CBS] they hand out are parts of the
    input too. *)
Theorem readers_in_bounds tag default bit b :
  0 <= bit < 2 ^ 32 ->
  reader (fun s r => inside s (fst r)) CBS_get_any_asn1 /\
  reader (fun s '(out, _, _, _) => inside s out) CBS_get_any_ber_asn1_element /\
  reader inside (CBS_get_asn1 tag) /\ reader inside (CBS_get_asn1_element tag) /\
  reader optional_inside (CBS_get_optional_asn1 tag) /\
  reader any (CBS_get_optional_asn1_octet_string tag) /\
  reader any (CBS_get_optional_asn1_uint64 tag default) /\
  reader any (CBS_get_optional_asn1_bool tag default) /\
  reader any CBS_get_asn1_uint64 /\ reader any CBS_get_asn1_int64 /\
  reader any CBS_get_asn1_bool /\ reader any CBS_is_unsigned_asn1_integer /\
  reader any CBS_get_last_u8 /\ reader inside (CBS_get_until_first b) /\
  reader any (CBS_asn1_bitstring_has_bit bit).
Proof.
  intros Hbit. repeat split;
    eauto using reader_any_asn1, reader_ber_element, reader_asn1, reader_optional,
      reader_optional_octet_string, reader_optional_uint64, reader_optional_bool, reader_uint64,
      reader_int64, reader_bool, reader_unsigned_integer, reader_last_u8, reader_until_first,
      reader_has_bit.
Qed.

Lemma readers_in_bounds_witness :
  match CBS_get_any_asn1 bool_element with
  | Done r t => sub bool_element t /\ sub bool_element (fst r)
  | _ => False
  end.
Proof.
  pose proof (proj1 (readers_in_bounds 0 0 0 0 ltac:(lia)) bool_element bool_element_good) as H.
  exact H.
Defined.

(** [CBS_mem_equal], with its constant-time comparison, is equality of the
    contents. *)
Theorem mem_equal_exact s data :
  cbs_ok s -> zlen data < 2 ^ 64 ->
  CBS_mem_equal s data (zlen data) = Done (bool_decide (contents s = data)) s.
Proof. apply mem_equal_spec. Qed.

Lemma mem_equal_exact_witness :
  CBS_mem_equal bool_element (map zb [1; 1; 255; 7]) (zlen (map zb [1; 1; 255; 7]))
  = Done true bool_element.
Proof.
  etransitivity; [apply mem_equal_exact; [apply bool_element_good|reflexivity]|reflexivity].
Defined.
