(* ===== verification/CbbProofs.v ===== *)
(** The byte string builder: its shared buffer as a list of bytes, its chain of
    open [CBB]s as a list of frames, and what each operation does to them. *)
From S2P Require Import Prelude.
From S2P Require Import Cbs.
From S2P Require Import Cbb.
From S2P Require Import CbsProofs.
From S2P Require Import CbsDer.

(** What [realloc] promises: the new size, and the old contents kept. *)
Class AllocatorLaws `{CbbAllocator} : Prop := {
  realloc_keeps l n l' : c_realloc l n = Some l' -> zlen l <= n ->
    exists more, l' = l ++ more /\ zlen l' = n;
  malloc_size n l : 0 <= n -> c_malloc n = Some l -> zlen l = n;
  new_base_fresh m b : c_new_base m = Some b -> b <> 0 /\ m !! b = None
}.

(** ** The buffer *)

(** The buffer [v] holds the bytes [l], the rest of it is spare room. *)
Record holds (v : cbb_buffer_st) (l : list byte) : Prop := {
  h_buf : exists spare, b_buf v = l ++ spare;
  h_len : b_len v = zlen l;
  h_cap : b_cap v = zlen (b_buf v);
  h_max : b_cap v < 2 ^ 64;
  h_error : b_error v = false
}.

Definition upd (b : Z) (v : cbb_buffer_st) (s : cstate) : cstate :=
  mk_cstate (cbbs s) (<[b := v]> (bases s)).

Lemma holds_bound v l : holds v l -> 0 <= zlen l <= b_cap v.
Proof.
  intros [[spare Hb] _ Hc _ _]. rewrite Hc, Hb, zlen_app. pose proof (zlen_nonneg spare).
  pose proof (zlen_nonneg l). lia.
Qed.

Lemma get_base_spec s b v : bases s !! b = Some v -> get_base b s = Done v s.
Proof. intros H. unfold get_base, bind, gets. by rewrite H. Qed.

Lemma put_base_spec s b v : put_base b v s = Done tt (upd b v s).
Proof. done. Qed.

Lemma upd_lookup s b v : bases (upd b v s) !! b = Some v.
Proof. apply lookup_insert_eq. Qed.

Lemma upd_upd s b v w : upd b w (upd b v s) = upd b w s.
Proof. unfold upd. cbn. by rewrite insert_insert_eq. Qed.

(** The sticky error flag is set. *)
Definition broken (b : Z) (s : cstate) : Prop :=
  exists v, bases s !! b = Some v /\ b_error v = true.

Section Buffer.
Context `{CbbAllocator}.

(** There is no room for [n] more bytes. *)
Definition blocked (v : cbb_buffer_st) (n : Z) : Prop :=
  2 ^ 64 <= b_len v + n \/
  (b_cap v < b_len v + n /\ (can_resize v = false \/ exists l k, c_realloc l k = None)).

(** [v'] is [v] after [n] more bytes. *)
Record grown (v v' : cbb_buffer_st) (n : Z) : Prop := {
  g_len : b_len v' = b_len v + n;
  g_cap : b_cap v <= b_cap v';
  g_resize : can_resize v' = can_resize v
}.

Lemma grown_blocked v v' n m : grown v v' n -> 0 <= m -> blocked v' m -> blocked v (n + m).
Proof. intros [H1 H2 H3] Hm [?|[? ?]]; [left; lia|right]. rewrite H3 in *. split; [lia|done]. Qed.

Lemma grown_trans v v' w n m : grown v v' n -> grown v' w m -> grown v w (n + m).
Proof. intros [] []. constructor; [lia|lia|congruence]. Qed.

Lemma blocked_le v n m : blocked v n -> n <= m -> blocked v m.
Proof. intros [?|[? ?]] Hm; [left; lia|right; split; [lia|done]]. Qed.

Lemma base_error_spec {A} s b v :
  bases s !! b = Some v -> exists t, @base_error A b s = Fail t /\ broken b t.
Proof.
  intros Hv. unfold base_error, bind. rewrite (get_base_spec _ _ _ Hv), put_base_spec.
  eexists. split; [done|]. eexists. split; [apply upd_lookup|done].
Qed.

Context `{!AllocatorLaws}.

Lemma buffer_reserve_spec s b v l n :
  b <> 0 -> bases s !! b = Some v -> holds v l -> 0 <= n < 2 ^ 64 ->
  match cbb_buffer_reserve b n s with
  | Done out t => out = zlen l /\ exists v', bases t = <[b := v']> (bases s) /\ cbbs t = cbbs s /\
      holds v' l /\ grown v v' 0 /\ zlen l + n <= b_cap v'
  | Fail t => blocked v n /\ broken b t
  | _ => False
  end.
Proof.
  intros Hb0 Hv Hh Hn. unfold cbb_buffer_reserve, bind.
  destruct (Z.eqb_spec b 0); [done|]. rewrite (get_base_spec _ _ _ Hv).
  pose proof (holds_bound v l Hh) as Hbound. pose proof Hh as [[spare Hbuf] Hl Hc Hm He].
  destruct (base_error_spec (A := Z) s b v Hv) as (terr & Herr & Hbr).
  destruct (Z.ltb_spec (u64 (b_len v + n)) (b_len v)) as [Hov|Hov].
  { rewrite Herr. split; [|done]. left. destruct (Z_lt_ge_dec (b_len v + n) (2 ^ 64)); [|lia].
    rewrite u64_small in Hov by lia. lia. }
  assert (b_len v + n < 2 ^ 64) as Hlt.
  { destruct (Z_lt_ge_dec (b_len v + n) (2 ^ 64)); [done|]. exfalso.
    assert (u64 (b_len v + n) = b_len v + n - 2 ^ 64) by (symmetry; apply (Z.mod_unique _ _ 1); lia).
    lia. }
  rewrite (u64_small (b_len v + n)) in * by lia.
  destruct (Z.ltb_spec (b_cap v) (b_len v + n)) as [Hgrow|Hfit].
  - destruct (can_resize v) eqn:Hr; cbn [negb]; [|rewrite Herr; split; [right; by auto|done]].
    set (newcap := if _ : bool then _ else _).
    assert (b_len v + n <= newcap < 2 ^ 64) as Hnc.
    { subst newcap. destruct (Z.ltb_spec (u64 (b_cap v * 2)) (b_cap v)); cbn [orb]; [lia|].
      destruct (Z.ltb_spec (u64 (b_cap v * 2)) (b_len v + n)); [lia|].
      pose proof (u64_range (b_cap v * 2)). lia. }
    destruct (c_realloc (b_buf v) newcap) as [nb|] eqn:Er.
    + destruct (realloc_keeps _ _ _ Er) as (more & -> & Hz); [lia|].
      rewrite put_base_spec. unfold ret. split; [done|]. eexists. split; [done|]. split; [done|].
      split; [|split; [constructor; cbn; by auto with lia|cbn; lia]].
      constructor; cbn; [|done|lia|lia|done]. exists (spare ++ more). by rewrite Hbuf, app_assoc.
    + rewrite Herr. split; [|done]. right. split; [done|right; eauto].
  - unfold ret. split; [done|]. exists v. rewrite insert_id by done.
    split; [done|]. split; [done|]. split; [done|]. split; [constructor; lia || done|lia].
Qed.

Lemma buffer_add_spec s b v l n :
  b <> 0 -> bases s !! b = Some v -> holds v l -> 0 <= n < 2 ^ 64 ->
  match cbb_buffer_add b n s with
  | Done out t => out = zlen l /\ exists v' x, t = upd b v' s /\ zlen x = n /\
      holds v' (l ++ x) /\ grown v v' n
  | Fail t => blocked v n /\ broken b t
  | _ => False
  end.
Proof.
  intros Hb0 Hv Hh Hn. unfold cbb_buffer_add, bind.
  pose proof (buffer_reserve_spec s b v l n Hb0 Hv Hh Hn) as Hr.
  destruct (cbb_buffer_reserve b n s) as [out t|t|u|]; try done.
  destruct Hr as (-> & v' & Hbt & Hct & Hh' & Hg & Hroom).
  rewrite (get_base_spec t b v') by (rewrite Hbt; apply lookup_insert_eq).
  rewrite put_base_spec. unfold ret. split; [done|].
  destruct Hh' as [[spare Hbuf] Hl Hc Hm He]. pose proof (zlen_nonneg l).
  rewrite Hl, u64_small by lia.
  exists (set_len (zlen l + n) v'), (take (Z.to_nat n) spare).
  split; [unfold upd; rewrite Hct, Hbt, insert_insert_eq; done|].
  rewrite Hc, Hbuf, zlen_app in Hroom.
  assert (zlen (take (Z.to_nat n) spare) = n) as Hx by (unfold zlen in *; rewrite length_take; lia).
  split; [done|]. split.
  - constructor; cbn; [|rewrite zlen_app; lia|done|done|done].
    exists (drop (Z.to_nat n) spare). by rewrite Hbuf, <- app_assoc, take_drop.
  - destruct Hg as [Hg1 Hg2 Hg3]. constructor; cbn; [lia|done|done].
Qed.

(** The buffer operations leave the [CBB]s alone. *)
Definition keeps_cbbs {A} (op : K A) : Prop := forall s a t, op s = Done a t -> cbbs t = cbbs s.

Lemma keeps_bind {A B} (op : K A) (k : A -> K B) :
  keeps_cbbs op -> (forall a, keeps_cbbs (k a)) -> keeps_cbbs (bind op k).
Proof.
  intros H1 H2 s b t. unfold bind. destruct (op s) as [a u|u|u|] eqn:E; try done.
  intros Hk. by rewrite (H2 a u b t Hk), (H1 s a u E).
Qed.
Lemma keeps_ret {A} (a : A) : keeps_cbbs (ret a).
Proof. by intros s b t [= _ <-]. Qed.
Lemma keeps_get_base b : keeps_cbbs (get_base b).
Proof. intros s v t. unfold get_base, bind, gets. destruct (bases s !! b); [|done]. by intros [= _ <-]. Qed.
Lemma keeps_put_base b v : keeps_cbbs (put_base b v).
Proof. by intros s u t [= _ <-]. Qed.
Lemma keeps_base_error {A} b : keeps_cbbs (@base_error A b).
Proof.
  apply keeps_bind; [apply keeps_get_base|intros v].
  apply keeps_bind; [apply keeps_put_base|by intros _ s u t].
Qed.

Lemma buffer_add_cbbs b n s out t : cbb_buffer_add b n s = Done out t -> cbbs t = cbbs s.
Proof.
  revert s out t. change (keeps_cbbs (cbb_buffer_add b n)).
  apply keeps_bind; [|intros out; apply keeps_bind; [apply keeps_get_base|intros v];
    apply keeps_bind; [apply keeps_put_base|intros _; apply keeps_ret]].
  unfold cbb_buffer_reserve. destruct (b =? 0); [by intros s u t|].
  apply keeps_bind; [apply keeps_get_base|intros v]. cbn zeta.
  destruct (_ <? b_len v); [apply keeps_base_error|]. destruct (b_cap v <? _); [|apply keeps_ret].
  destruct (negb _); [apply keeps_base_error|]. destruct (c_realloc _ _); [|apply keeps_base_error].
  apply keeps_bind; [apply keeps_put_base|intros _; apply keeps_ret].
Qed.

Lemma splice_app l1 x y l2 : zlen x = zlen y -> splice (zlen l1) y (l1 ++ x ++ l2) = l1 ++ y ++ l2.
Proof.
  intros Hxy. unfold splice, zlen in *. rewrite Nat2Z.id, take_app_length.
  replace (length l1 + length y)%nat with (length (l1 ++ x)) by (rewrite length_app; lia).
  by rewrite (app_assoc l1 x), drop_app_length.
Qed.

Lemma buf_store_spec s b v l1 x y l2 :
  bases s !! b = Some v -> holds v (l1 ++ x ++ l2) -> zlen x = zlen y ->
  exists v', buf_store b (zlen l1) y s = Done tt (upd b v' s) /\ holds v' (l1 ++ y ++ l2) /\
    grown v v' 0.
Proof.
  intros Hv [[spare Hbuf] Hl Hc Hm He] Hxy. unfold buf_store, bind.
  rewrite (get_base_spec _ _ _ Hv). rewrite Hbuf, !zlen_app.
  pose proof (zlen_nonneg l1). pose proof (zlen_nonneg l2). pose proof (zlen_nonneg spare).
  rewrite (proj2 (Z.leb_le 0 _)), (proj2 (Z.leb_le _ _)) by lia. cbn [andb].
  rewrite put_base_spec. eexists. split; [done|]. rewrite <- !app_assoc, splice_app by done.
  split; constructor; cbn.
  - exists spare. by rewrite <- !app_assoc.
  - rewrite Hl, !zlen_app. lia.
  - rewrite Hc, Hbuf, !zlen_app. lia.
  - done.
  - done.
  - lia.
  - lia.
  - done.
Qed.

Lemma buf_load_spec s b v l1 x l2 :
  bases s !! b = Some v -> holds v (l1 ++ x ++ l2) ->
  buf_load b (zlen l1) (zlen x) s = Done x s.
Proof.
  intros Hv [[spare Hbuf] Hl Hc Hm He]. unfold buf_load, bind.
  rewrite (get_base_spec _ _ _ Hv). rewrite Hbuf, !zlen_app.
  pose proof (zlen_nonneg l1). pose proof (zlen_nonneg l2). pose proof (zlen_nonneg spare).
  pose proof (zlen_nonneg x).
  rewrite !(proj2 (Z.leb_le _ _)) by lia. cbn [andb]. unfold ret. f_equal.
  rewrite <- !app_assoc. unfold zlen. rewrite !Nat2Z.id, drop_app_length, take_app_length. done.
Qed.

Lemma be_loop_spec n : forall v, be_loop n v = (be_bytes n v, v / 256 ^ Z.of_nat n).
Proof.
  induction n as [|n IH]; intros v; cbn [be_loop].
  - change (256 ^ Z.of_nat 0) with 1. by rewrite Z.div_1_r.
  - rewrite IH. unfold be_bytes. cbn [le_bytes rev]. rewrite Z.shiftr_div_pow2 by lia.
    change (2 ^ 8) with 256. rewrite pow_256_S, Z.div_div by lia. done.
Qed.
End Buffer.

(** ** Frames *)

(** An open [CBB]: its address, the bytes of its length prefix, and what was
    written to it so far. *)
Record frame : Type := mk_frame {
  f_addr : Z;
  f_n : Z;
  f_asn1 : bool;
  f_child : bool;
  f_body : list byte
}.

Definition add_body (l : list byte) (f : frame) : frame :=
  mk_frame (f_addr f) (f_n f) (f_asn1 f) (f_child f) (f_body f ++ l).

Definition f_text (f : frame) : list byte := replicate (Z.to_nat (f_n f)) (zb 0) ++ f_body f.
Definition text (fs : list frame) : list byte := concat (map f_text fs).

(** The length prefix of a body of [len] bytes. *)
Definition prefix_bytes (n : Z) (is_asn1 : bool) (len : Z) : option (list byte) :=
  if is_asn1 then if 4294967294 <? len then None else Some (der_len len)
  else if len <? 256 ^ n then Some (be_bytes (Z.to_nat n) len) else None.

(** What the frames become when they are closed, the innermost first. *)
Fixpoint closed (fs : list frame) : option (list byte) :=
  match fs with
  | [] => Some []
  | f :: fs =>
      match closed fs with
      | None => None
      | Some c =>
          let body := f_body f ++ c in
          match prefix_bytes (f_n f) (f_asn1 f) (zlen body) with
          | None => None
          | Some p => Some (p ++ body)
          end
      end
  end.

Definition head_addr (fs : list frame) (next : Z) : Z :=
  match fs with [] => next | f :: _ => f_addr f end.

(** The chain of [CBB]s from the offset [off] on, the last one pointing to
    [next]. *)
Fixpoint linked (m : gmap Z CBB) (b off next : Z) (fs : list frame) : Prop :=
  match fs with
  | [] => True
  | f :: fs =>
      m !! f_addr f = Some (mk_cbb b (head_addr fs next) off (f_n f) (f_asn1 f) (f_child f)) /\
      linked m b (off + zlen (f_text f)) next fs
  end.

Definition child_frame (f : frame) : Prop :=
  f_addr f <> 0 /\ 1 <= f_n f <= 8 /\ (f_asn1 f = true -> f_n f = 1).

(** The state [s] has the open frames [fs], outermost first, over the buffer at
    [b]. *)
Record repr (s : cstate) (b : Z) (v : cbb_buffer_st) (fs : list frame) : Prop := {
  r_null : b <> 0;
  r_base : bases s !! b = Some v;
  r_text : holds v (text fs);
  r_linked : linked (cbbs s) b 0 0 fs;
  r_nodup : NoDup (map f_addr fs);
  r_children : Forall child_frame (tail fs);
  r_root : match fs with f :: _ => 0 <= f_n f | [] => True end
}.

Lemma text_app fs gs : text (fs ++ gs) = text fs ++ text gs.
Proof. unfold text. by rewrite map_app, concat_app. Qed.

Lemma linked_app m b fs gs : forall off next,
  linked m b off next (fs ++ gs) <->
  linked m b off (head_addr gs next) fs /\ linked m b (off + zlen (text fs)) next gs.
Proof.
  induction fs as [|f fs IH]; intros off next; cbn [app linked].
  - change (zlen (text [])) with 0. rewrite Z.add_0_r. tauto.
  - rewrite IH. change (text (f :: fs)) with (f_text f ++ text fs). rewrite zlen_app, Z.add_assoc.
    assert (head_addr (fs ++ gs) next = head_addr fs (head_addr gs next)) as -> by by destruct fs.
    tauto.
Qed.

(** Only the frames' own entries matter. *)
Lemma linked_same m m' b next fs : forall off,
  (forall a, In a (map f_addr fs) -> m' !! a = m !! a) ->
  linked m b off next fs -> linked m' b off next fs.
Proof.
  induction fs as [|f fs IH]; intros off Hm; cbn [linked]; [done|].
  intros [H1 H2]. split; [rewrite Hm; [done|by left]|].
  apply IH; [|done]. intros a Ha. apply Hm. by right.
Qed.

Lemma add_body_addr l f : f_addr (add_body l f) = f_addr f.
Proof. done. Qed.

Lemma add_body_text l f : f_text (add_body l f) = f_text f ++ l.
Proof. unfold f_text. cbn. apply app_assoc. Qed.

Section Lengths.
Context `{AllocatorLaws}.

(** The form of an ASN.1 length is the DER one. *)
Lemma asn1_len_form_spec len :
  0 <= len ->
  match asn1_len_form len with
  | None => 4294967294 < len
  | Some (ll, b0, rest) =>
      len <= 4294967294 /\ 1 <= ll <= 5 /\ 0 <= rest < 256 ^ (ll - 1) /\ (ll = 1 \/ rest = len) /\
      der_len len = zb b0 :: be_bytes (Z.to_nat (ll - 1)) rest
  end.
Proof.
  intros Hl. unfold asn1_len_form, der_len, len_octets.
  destruct (Z.ltb_spec 4294967294 len); [done|].
  destruct (Z.ltb_spec 16777215 len); [|destruct (Z.ltb_spec 65535 len);
    [|destruct (Z.ltb_spec 255 len); [|destruct (Z.ltb_spec 127 len)]]];
    destruct (Z.ltb_spec len 128); try lia.
  - destruct (Z.ltb_spec len 256); [lia|]. destruct (Z.ltb_spec len (2 ^ 16)); [lia|].
    destruct (Z.ltb_spec len (2 ^ 24)); [lia|]. repeat split; lia || (by auto) || done.
  - destruct (Z.ltb_spec len 256); [lia|]. destruct (Z.ltb_spec len (2 ^ 16)); [lia|].
    destruct (Z.ltb_spec len (2 ^ 24)); [|lia]. repeat split; lia || (by auto) || done.
  - destruct (Z.ltb_spec len 256); [lia|]. destruct (Z.ltb_spec len (2 ^ 16)); [|lia].
    repeat split; lia || (by auto) || done.
  - destruct (Z.ltb_spec len 256); [|lia]. repeat split; lia || (by auto) || done.
  - repeat split; lia || (by auto) || done.
Qed.

Lemma grown_weaken v v' n : grown v v' n -> forall m, m = n -> grown v v' m.
Proof. by intros H' m ->. Qed.

(** The first [1 + extra] bytes before a body are made room for. *)
Lemma shift_body s b v P body extra :
  b <> 0 -> bases s !! b = Some v -> holds v (P ++ body) -> 0 <= extra < 2 ^ 64 ->
  match (cbb_buffer_add b extra;;;
         let* contents := buf_load b (zlen P) (zlen body) in
         buf_store b (zlen P + extra) contents) s with
  | Done _ t => exists v' x, t = upd b v' s /\ zlen x = extra /\
      holds v' (P ++ x ++ body) /\ grown v v' extra
  | Fail t => blocked v extra /\ broken b t
  | _ => False
  end.
Proof.
  intros Hb Hv Hh He. unfold bind at 1.
  pose proof (buffer_add_spec s b v _ extra Hb Hv Hh He) as Ha.
  destruct (cbb_buffer_add b extra s) as [out t|t|u|]; try done.
  destruct Ha as (_ & v1 & x & -> & Hx & Hh1 & Hg1). unfold bind.
  rewrite <- app_assoc in Hh1. rewrite (buf_load_spec _ b v1 P body x) by (done || apply upd_lookup).
  (* the bytes that are left before the moved body *)
  rewrite app_assoc in Hh1. pose proof (zlen_nonneg body).
  assert (exists y z, body ++ x = y ++ z /\ zlen y = extra /\ zlen z = zlen body) as (y & z & E & Hy & Hz).
  { exists (take (Z.to_nat extra) (body ++ x)), (drop (Z.to_nat extra) (body ++ x)).
    rewrite take_drop. split; [done|]. unfold zlen in *.
    rewrite length_take, length_drop, !length_app. lia. }
  rewrite <- app_assoc, E in Hh1. replace (zlen P + extra) with (zlen (P ++ y)) by (rewrite zlen_app; lia).
  destruct (buf_store_spec (upd b v1 s) b v1 (P ++ y) z body []) as (v2 & -> & Hh2 & Hg2);
    [apply upd_lookup|by rewrite <- app_assoc, app_nil_r|done|].
  exists v2, y. rewrite upd_upd. split; [done|]. split; [done|]. rewrite app_nil_r in Hh2.
  rewrite <- app_assoc in Hh2. split; [done|].
  apply (grown_weaken _ _ _ (grown_trans _ _ _ _ _ Hg1 Hg2)). lia.
Qed.

Lemma upd_id s b v : bases s !! b = Some v -> upd b v s = s.
Proof. intros Hv. unfold upd. rewrite insert_id by done. by destruct s. Qed.

Lemma make_room s b v P body ll rest :
  ll = 1 \/ rest = zlen body -> b <> 0 -> bases s !! b = Some v -> holds v (P ++ body) -> 1 <= ll <= 5 ->
  match (if negb (ll =? 1) then
           let extra_bytes := ll - 1 in
           cbb_buffer_add b extra_bytes;;;
           let* contents := buf_load b (zlen P) rest in
           buf_store b (zlen P + extra_bytes) contents
         else ret tt) s with
  | Done _ t => exists v' x, t = upd b v' s /\ zlen x = ll - 1 /\
      holds v' (P ++ x ++ body) /\ grown v v' (ll - 1)
  | Fail t => blocked v (ll - 1) /\ is_Some (bases t !! b)
  | _ => False
  end.
Proof.
  intros Hrest Hb Hv Hh Hll. destruct (Z.eqb_spec ll 1) as [->|]; cbn [negb].
  - exists v, []. rewrite upd_id by done. split; [done|]. split; [done|]. split; [done|].
    constructor; lia || done.
  - destruct Hrest as [ | -> ]; [done|]. cbn zeta. pose proof (shift_body s b v P body (ll - 1) Hb Hv Hh ltac:(lia)) as Hs.
    destruct (bind _ _ s) as [u t|t|u|]; try done. destruct Hs as [Hs (w & Hw & _)].
    split; [done|by eexists].
Qed.

(** The big-endian bytes of [write_length], over [n] bytes of room. *)
Lemma store_length {A} s b v P x rest n len (k : K A) (phi : outcome cstate A -> Prop) :
  bases s !! b = Some v -> holds v (P ++ x ++ rest) -> zlen x = n -> 0 <= n <= 8 ->
  (forall v', holds v' (P ++ be_bytes (Z.to_nat n) len ++ rest) -> grown v v' 0 ->
     phi ((if negb (len / 256 ^ n =? 0) then failed else k) (upd b v' s))) ->
  phi ((let (l, len) := be_loop (Z.to_nat n) len in
        (if n =? 0 then ret tt else buf_store b (zlen P) l);;;
        if negb (len =? 0) then failed else k) s).
Proof.
  intros Hv Hh Hx Hn Hphi. rewrite be_loop_spec, Z2Nat.id by lia. unfold bind.
  destruct (Z.eqb_spec n 0) as [E|E].
  - rewrite <- (upd_id s b v Hv) at 1. unfold ret. apply Hphi; [|constructor; lia || done].
    subst n. rewrite E in *. destruct x; [done|]. zl.
  - destruct (buf_store_spec s b v P x (be_bytes (Z.to_nat n) len) rest) as (v' & -> & Hh' & Hg);
      [done|done|rewrite be_bytes_length; lia|]. by apply Hphi.
Qed.

Lemma write_length_spec s b v P c body :
  b <> 0 -> bases s !! b = Some v -> offset c = zlen P ->
  holds v (P ++ replicate (Z.to_nat (pending_len_len c)) (zb 0) ++ body) ->
  1 <= pending_len_len c <= 8 -> (pending_is_asn1 c = true -> pending_len_len c = 1) ->
  match write_length b c (zlen P + pending_len_len c) (zlen body) s with
  | Done c' t => exists v' p,
      prefix_bytes (pending_len_len c) (pending_is_asn1 c) (zlen body) = Some p /\
      t = upd b v' s /\ holds v' (P ++ p ++ body) /\ grown v v' (zlen p - pending_len_len c)
  | Fail t => (forall p, prefix_bytes (pending_len_len c) (pending_is_asn1 c) (zlen body) = Some p ->
                 blocked v (zlen p - pending_len_len c)) /\ is_Some (bases t !! b)
  | _ => False
  end.
Proof.
  intros Hb Hv Hoff Hh Hn Hasn. unfold write_length. pose proof (zlen_nonneg body) as Hbody.
  destruct (pending_is_asn1 c).
  - rewrite (Hasn eq_refl) in *. rewrite bind_assoc, bind_assert by done. cbv beta. change (replicate (Z.to_nat 1) (zb 0)) with [zb 0] in Hh.
    pose proof (asn1_len_form_spec (zlen body) Hbody) as Hf. unfold prefix_bytes.
    destruct (asn1_len_form (zlen body)) as [[[ll b0] rest]|].
    2:{ rewrite (proj2 (Z.ltb_lt _ _)) by done. split; [done|by exists v]. }
    destruct Hf as (Hmax & Hll & Hrest & Hsame & Hder). rewrite (proj2 (Z.ltb_ge _ _)), Hder by done.
    rewrite app_assoc in Hh. replace (zlen P + 1) with (zlen (P ++ [zb 0])) by zl.
    pose proof (make_room s b v _ body ll rest Hsame Hb Hv Hh Hll) as Hroom. cbn zeta in *.
    match type of Hroom with context [match ?o with _ => _ end] => set (shift := o) in * end.
    unfold bind at 1 2. fold shift. destruct shift as [u t|t|u|]; try done.
    2:{ destruct Hroom as [Hbl ?]. split; [|done]. intros p [= <-].
        apply (blocked_le _ _ _ Hbl). rewrite zlen_cons, be_bytes_length. lia. }
    destruct Hroom as (v1 & x & -> & Hx & Hh1 & Hg1).
    unfold bind at 1. rewrite <- app_assoc in Hh1. rewrite Hoff.
    destruct (buf_store_spec (upd b v1 s) b v1 P [zb 0] [zb b0] (x ++ body)) as (v2 & -> & Hh2 & Hg2);
      [apply upd_lookup|done|done|].
    rewrite upd_upd. unfold ret at 1. cbn [set_pending pending_len_len offset].
    replace (zlen P + 1) with (zlen (P ++ [zb b0])) by zl. rewrite app_assoc in Hh2.
    eapply (store_length (upd b v2 s) b v2 (P ++ [zb b0]) x body (ll - 1) rest);
      [apply upd_lookup|done|done|lia|].
    intros v3 Hh3 Hg3. rewrite Z.div_small by lia. cbn. rewrite upd_upd.
    exists v3, (zb b0 :: be_bytes (Z.to_nat (ll - 1)) rest). split; [done|]. split; [done|].
    rewrite <- app_assoc in Hh3. split; [exact Hh3|].
    apply (grown_weaken _ _ _ (grown_trans _ _ _ _ _ Hg1 (grown_trans _ _ _ _ _ Hg2 Hg3))).
    rewrite zlen_cons, be_bytes_length. lia.
  - unfold bind at 1, ret at 1. rewrite Hoff.
    eapply (store_length s b v P (replicate (Z.to_nat (pending_len_len c)) (zb 0)) body);
      [done|done|unfold zlen; rewrite length_replicate; lia|lia|].
    intros v' Hh' Hg. unfold prefix_bytes.
    assert ((zlen body / 256 ^ pending_len_len c =? 0) = (zlen body <? 256 ^ pending_len_len c)) as ->.
    { apply Bool.eq_iff_eq_true. rewrite Z.eqb_eq, Z.ltb_lt.
      split; [|intros; apply Z.div_small; lia]. intros Hd. apply Z.div_small_iff in Hd; lia. }
    destruct (Z.ltb_spec (zlen body) (256 ^ pending_len_len c)); cbn [negb].
    + exists v', (be_bytes (Z.to_nat (pending_len_len c)) (zlen body)).
      split; [done|]. split; [done|]. split; [done|].
      apply (grown_weaken _ _ _ Hg). rewrite be_bytes_length. lia.
    + split; [done|]. exists v'. apply upd_lookup.
Qed.
End Lengths.

(** ** The chain *)
Lemma get_cbb_spec s a c : cbbs s !! a = Some c -> get_cbb a s = Done c s.
Proof. intros H. unfold get_cbb, bind, gets. by rewrite H. Qed.

Lemma repr_frame s b v outer f inner :
  repr s b v (outer ++ f :: inner) ->
  cbbs s !! f_addr f = Some (mk_cbb b (head_addr inner 0) (zlen (text outer)) (f_n f) (f_asn1 f) (f_child f)).
Proof. intros [_ _ _ Hl _ _ _]. apply linked_app in Hl as [_ [Hl _]]. exact Hl. Qed.

Lemma tail_app {A} (l : list A) x k : tail (l ++ x :: k) = match l with [] => k | _ :: l => l ++ x :: k end.
Proof. by destruct l. Qed.

Lemma repr_child s b v outer f inner :
  repr s b v (outer ++ f :: inner) -> outer <> [] -> child_frame f.
Proof.
  intros [_ _ _ _ _ Hc _] Hne. destruct outer; [done|]. cbn in Hc. apply Forall_app in Hc as [_ Hc].
  by inversion Hc.
Qed.

Lemma repr_inner s b v outer f inner :
  repr s b v (outer ++ f :: inner) -> Forall child_frame inner.
Proof.
  intros [_ _ _ _ _ Hc _]. rewrite tail_app in Hc. destruct outer; [done|].
  apply Forall_app in Hc as [_ Hc]. by inversion Hc.
Qed.

Lemma repr_n s b v outer f inner : repr s b v (outer ++ f :: inner) -> 0 <= f_n f.
Proof.
  intros Hr. destruct outer as [|o outer].
  - apply (r_root _ _ _ _ Hr).
  - pose proof (repr_child _ _ _ _ _ _ Hr ltac:(done)) as (_ & ? & _). lia.
Qed.

Lemma f_text_length f : 0 <= f_n f -> zlen (f_text f) = f_n f + zlen (f_body f).
Proof. intros Hn. unfold f_text. rewrite zlen_app. f_equal. unfold zlen. rewrite length_replicate. lia. Qed.

(** The last frame may be given more text, and its record is written again. *)
Lemma repr_update s t b v v' outer f inner extra :
  repr s b v (outer ++ f :: inner) ->
  bases t !! b = Some v' -> holds v' (text (outer ++ [add_body extra f])) ->
  cbbs t !! f_addr f = Some (mk_cbb b 0 (zlen (text outer)) (f_n f) (f_asn1 f) (f_child f)) ->
  (forall a, In a (map f_addr outer) -> cbbs t !! a = cbbs s !! a) ->
  repr t b v' (outer ++ [add_body extra f]).
Proof.
  intros Hr Hv Hh Hf Ho. pose proof Hr as [H1 _ _ H4 H5 H6 H7]. constructor; try done.
  - apply linked_app in H4 as [H4 _]. apply linked_app. split; [by apply (linked_same (cbbs s))|].
    cbn. by split.
  - rewrite map_app in *. cbn in *. apply NoDup_app in H5 as (N1 & N2 & N3).
    apply NoDup_app. split; [done|]. split; [|apply NoDup_singleton].
    intros a Ha Hin%list_elem_of_singleton. subst a. apply (N2 _ Ha). left.
  - rewrite tail_app in *. destruct outer; [by constructor|]. apply Forall_app in H6 as [H6 H8].
    apply Forall_app. split; [done|]. inversion H8. by constructor.
  - by destruct outer.
Qed.

Section Flush.
Context `{AllocatorLaws}.

(** Flushing the frame [f] closes the frames in it. *)
Definition flushed (o : outcome cstate unit) (b : Z) (v : cbb_buffer_st)
    (outer : list frame) (f : frame) (inner : list frame) : Prop :=
  match o with
  | Done _ t => exists c v', closed inner = Some c /\ repr t b v' (outer ++ [add_body c f]) /\
      grown v v' (zlen c - zlen (text inner))
  | Fail t => (forall c, closed inner = Some c -> blocked v (zlen c - zlen (text inner))) /\
      broken b t
  | _ => False
  end.

Lemma attempt_eq {A} (op : K A) s :
  attempt op s = match op s with
                 | Done a t => Done (Some a) t | Fail t => Done None t
                 | Undef u => Undef u | OutOfFuel => OutOfFuel end.
Proof. done. Qed.

Lemma nodup_two outer f g : NoDup (map f_addr (outer ++ [f; g])) ->
  f_addr f <> f_addr g /\ ~ In (f_addr f) (map f_addr outer) /\ ~ In (f_addr g) (map f_addr outer).
Proof.
  rewrite map_app. cbn. intros (N1 & N2 & N3)%NoDup_app. split; [|split].
  - apply NoDup_cons in N3 as [N3 _]. intros E. apply N3. rewrite E. left.
  - intros Hin%list_elem_of_In. apply (N2 _ Hin). left.
  - intros Hin%list_elem_of_In. apply (N2 _ Hin). right. left.
Qed.

Lemma prefix_length n a len p : prefix_bytes n a len = Some p -> 0 <= len -> 1 <= n <= 8 ->
  (a = true -> n = 1) -> n <= zlen p.
Proof.
  unfold prefix_bytes. intros Hp Hl Hn Ha. destruct a.
  - destruct (Z.ltb_spec 4294967294 len); [done|]. injection Hp as <-.
    pose proof (der_len_length len ltac:(lia)). rewrite Ha by done. lia.
  - destruct (_ <? _); [|done]. injection Hp as <-. rewrite be_bytes_length. lia.
Qed.

Lemma closed_cons c g inner : closed (g :: inner) = Some c ->
  exists c1 p, closed inner = Some c1 /\
    prefix_bytes (f_n g) (f_asn1 g) (zlen (f_body g ++ c1)) = Some p /\ c = p ++ f_body g ++ c1.
Proof.
  cbn [closed]. destruct (closed inner) as [c1|]; [|done]. cbn zeta.
  destruct (prefix_bytes _ _ _) as [p|] eqn:E; [|done]. intros [= <-]. eauto.
Qed.

Lemma closed_length inner : Forall child_frame inner -> forall c, closed inner = Some c ->
  zlen (text inner) <= zlen c.
Proof.
  induction 1 as [|g inner [Hg [Hn Ha]] _ IH]; intros c Hc; [by injection Hc as <-|].
  apply closed_cons in Hc as (c1 & p & Hc & Hp & ->). specialize (IH c1 Hc).
  pose proof (prefix_length _ _ _ _ Hp (zlen_nonneg _) Hn Ha).
  cbn [text map concat]. change (concat (map f_text inner)) with (text inner).
  rewrite !zlen_app, f_text_length by lia. lia.
Qed.

Lemma last_growth g c : 0 <= f_n g -> closed [g] = Some c ->
  exists p, prefix_bytes (f_n g) (f_asn1 g) (zlen (f_body g)) = Some p /\
    zlen c - zlen (text [g]) = zlen p - f_n g.
Proof.
  intros Hn Hc. apply closed_cons in Hc as (c1 & p & [= <-] & Hp & ->).
  rewrite app_nil_r in *. exists p. split; [done|]. cbn [text map concat].
  rewrite app_nil_r, zlen_app, f_text_length by done. lia.
Qed.

(** What the end of [CBB_flush] does once the innermost frame [g] is the
    last one. *)
Lemma close_last s b v outer f g :
  repr s b v (outer ++ [f; g]) ->
  flushed ((let* v := get_base b in
            if false || (zlen (text (outer ++ [f])) + f_n g <? zlen (text (outer ++ [f])))
               || (b_len v <? zlen (text (outer ++ [f])) + f_n g)
            then base_error b
            else
              let* ch := get_cbb (f_addr g) in
              let* r := attempt (write_length b ch (zlen (text (outer ++ [f])) + f_n g)
                           (b_len v - (zlen (text (outer ++ [f])) + f_n g))) in
              match r with
              | None => base_error b
              | Some ch =>
                  put_cbb (f_addr g) (set_cbb_base 0 ch);;;
                  let* c := get_cbb (f_addr f) in
                  put_cbb (f_addr f) (set_child 0 c)
              end) s) b v outer f [g].
Proof.
  intros Hr. pose proof (repr_frame _ _ _ _ _ _ Hr) as Hf.
  change (outer ++ [f; g]) with (outer ++ [f] ++ [g]) in Hr. rewrite app_assoc in Hr.
  pose proof (repr_frame _ _ _ _ _ _ Hr) as Hg. pose proof (repr_n _ _ _ _ _ _ Hr) as Hn0.
  destruct (repr_child _ _ _ _ _ _ Hr) as (Hg0 & Hn & Hasn); [by destruct outer|].
  pose proof Hr as [Hb Hv Hh _ Hnd _ _].
  rewrite text_app in Hh. cbn [text map concat] in Hh. rewrite app_nil_r in Hh.
  pose proof (h_len _ _ Hh) as Hlen. rewrite zlen_app, f_text_length in Hlen by done.
  pose proof (zlen_nonneg (f_body g)). set (P := text (outer ++ [f])) in *.
  unfold bind at 1. rewrite (get_base_spec _ _ _ Hv).
  rewrite !(proj2 (Z.ltb_ge _ _)) by lia. cbn [orb].
  unfold bind at 1. rewrite (get_cbb_spec _ _ _ Hg). cbn [head_addr].
  replace (b_len v - (zlen P + f_n g)) with (zlen (f_body g)) by lia.
  set (ch := mk_cbb b 0 (zlen P) (f_n g) (f_asn1 g) (f_child g)).
  pose proof (write_length_spec s b v P ch (f_body g) Hb Hv eq_refl Hh Hn Hasn) as Hw.
  unfold bind at 1. rewrite attempt_eq. cbn [pending_len_len pending_is_asn1 ch] in Hw.
  destruct (write_length b ch (zlen P + f_n g) (zlen (f_body g)) s) as [ch' t|t|u|]; try done.
  2:{ destruct Hw as [Hw [w Hw']]. destruct (base_error_spec (A := unit) t b w Hw') as (t' & -> & Hbr).
      cbn [flushed]. split; [|done]. intros c Hc. destruct (last_growth g c Hn0 Hc) as (p & Hp & ->). by apply Hw. }
  destruct Hw as (v' & p & Hp & -> & Hh' & Hgr).
  rewrite <- app_assoc in Hnd. cbn [app] in Hnd. destruct (nodup_two _ _ _ Hnd) as (Nfg & Nf & Ng).
  unfold bind at 1. cbn [put_cbb modify]. unfold bind at 1.
  rewrite (get_cbb_spec _ (f_addr f) (mk_cbb b (f_addr g) (zlen (text outer)) (f_n f) (f_asn1 f) (f_child f)))
    by (cbn; rewrite lookup_insert_ne by congruence; exact Hf).
  unfold put_cbb, modify, flushed. exists (p ++ f_body g), v'.
  split; [cbn [closed]; by rewrite app_nil_r, Hp|]. split.
  - rewrite <- app_assoc in Hr. apply (repr_update s _ b v v' outer f [g]); cbn; try done.
    + apply lookup_insert_eq.
    + rewrite text_app. cbn [text map concat]. rewrite add_body_text, app_nil_r.
      subst P. rewrite text_app in Hh'. cbn [text map concat] in Hh'. rewrite app_nil_r in Hh'.
      by rewrite <- app_assoc in Hh'.
    + apply lookup_insert_eq.
    + intros a Ha. rewrite !lookup_insert_ne; [done|..]; intros <-; [by apply Ng|by apply Nf].
  - apply (grown_weaken _ _ _ Hgr). cbn [text map concat]. rewrite app_nil_r, f_text_length by done. zl.
Qed.

Lemma closed_snoc_body c g inner :
  closed inner = Some c -> closed (g :: inner) = closed [add_body c g].
Proof. intros Hc. cbn [closed f_body add_body f_n f_asn1]. by rewrite Hc, !app_nil_r. Qed.

Lemma repr_bound s b v fs : repr s b v fs -> zlen (text fs) < 2 ^ 64.
Proof. intros [_ _ Hh _ _ _ _]. pose proof (holds_bound _ _ Hh). pose proof (h_max _ _ Hh). lia. Qed.

Lemma flush_spec fuel : forall inner outer f s b v,
  repr s b v (outer ++ f :: inner) -> (length inner < fuel)%nat ->
  flushed (CBB_flush fuel (f_addr f) s) b v outer f inner.
Proof.
  induction fuel as [|fuel IH]; intros inner outer f s b v Hr Hfuel; [lia|].
  cbn [CBB_flush]. pose proof (repr_frame _ _ _ _ _ _ Hr) as Hf.
  pose proof Hr as [Hb Hv Hh Hlink _ _ _].
  unfold bind at 1. rewrite (get_cbb_spec _ _ _ Hf). cbn [base].
  destruct (Z.eqb_spec b 0); [done|].
  unfold bind at 1. rewrite (get_base_spec _ _ _ Hv), (h_error _ _ Hh). cbn [child].
  destruct inner as [|g inner].
  - cbn. exists [], v. split; [done|]. split; [|constructor; lia || done].
    apply (repr_update s s b v v outer f [] []); try done.
    rewrite text_app in *. cbn [text map concat] in *. by rewrite add_body_text, app_nil_r.
  - cbn [head_addr].
    assert (repr s b v ((outer ++ [f]) ++ g :: inner)) as Hr' by by rewrite <- app_assoc.
    pose proof (repr_frame _ _ _ _ _ _ Hr') as Hg.
    destruct (repr_child _ _ _ _ _ _ Hr') as (Hg0 & Hn & Hasn); [by destruct outer|].
    destruct (Z.eqb_spec (f_addr g) 0); [done|].
    unfold bind at 1. rewrite (get_cbb_spec _ _ _ Hg). cbn [pending_len_len offset].
    destruct (Z.eqb_spec (f_n g) 0); [lia|]. cbn zeta.
    pose proof (repr_bound _ _ _ _ Hr') as Hbound. rewrite text_app, zlen_app in Hbound.
    cbn [text map concat] in Hbound. rewrite zlen_app, f_text_length in Hbound by lia.
    pose proof (zlen_nonneg (f_body g)). pose proof (zlen_nonneg (concat (map f_text inner))).
    pose proof (zlen_nonneg (text (outer ++ [f]))).
    rewrite (u64_small (_ + f_n g)) by lia.
    unfold bind at 1. rewrite attempt_eq.
    pose proof (IH inner (outer ++ [f]) g s b v Hr' ltac:(cbn in Hfuel; lia)) as Hin.
    unfold flushed at 1 in Hin. destruct (CBB_flush fuel (f_addr g) s) as [[] t|t|u|]; try done.
    + destruct Hin as (c & v' & Hc & Ht & Hgr).
      rewrite <- app_assoc in Ht. cbn [app] in Ht.
      pose proof (close_last t b v' outer f (add_body c g) Ht) as Hlast.
      assert (zlen (text [add_body c g]) = zlen (text (g :: inner)) + zlen c - zlen (text inner)) as Hlen.
      { change (text [add_body c g]) with (f_text (add_body c g) ++ []).
        change (text (g :: inner)) with (f_text g ++ text inner). rewrite add_body_text. zl. }
      unfold flushed in *. cbn [f_n f_addr add_body] in Hlast.
      destruct (bind _ _ t) as [[] t'|t'|u|] in Hlast |- *; try done.
      * destruct Hlast as (c' & v2 & Hc' & Ht' & Hgr'). exists c', v2.
        rewrite (closed_snoc_body c) by done. split; [done|]. split; [done|].
        apply (grown_weaken _ _ _ (grown_trans _ _ _ _ _ Hgr Hgr')). lia.
      * destruct Hlast as [Hlast Hbr]. split; [|done]. rewrite (closed_snoc_body c) by done.
        intros c' Hc'. apply (blocked_le v (zlen c - zlen (text inner) + (zlen c' - zlen (text [add_body c g]))));
          [|lia].
        apply (grown_blocked v v'); [done| |by apply Hlast].
        pose proof (closed_length [add_body c g] ltac:(by constructor) c' Hc'). lia.
    + destruct Hin as [Hin (w & Hw & _)]. unfold bind at 1. rewrite (get_base_spec _ _ _ Hw).
      cbn [orb]. destruct (base_error_spec (A := unit) t b w Hw) as (t' & -> & Hbr). cbn [flushed].
      split; [|done]. intros c Hc. apply closed_cons in Hc as (c1 & p & Hc1 & Hp & ->).
      apply (blocked_le _ _ _ (Hin c1 Hc1)).
      pose proof (prefix_length _ _ _ _ Hp (zlen_nonneg _) Hn Hasn).
      cbn [text map concat]. change (concat (map f_text inner)) with (text inner).
      rewrite !zlen_app, f_text_length by lia. lia.
Qed.
End Flush.

Lemma swap_be n swap v :
  (forall l, zlen l = Z.of_nat n -> swap (be_val l) = le_val l) -> 0 <= v < 256 ^ Z.of_nat n ->
  0 <= swap v < 256 ^ Z.of_nat n /\ be_bytes n (swap v) = le_bytes n v.
Proof.
  intros Hsw Hv. specialize (Hsw (be_bytes n v) (be_bytes_length n v)).
  rewrite be_val_bytes, Z.mod_small in Hsw by done. rewrite Hsw.
  assert (length (be_bytes n v) = n) as Hl by (pose proof (be_bytes_length n v); unfold zlen in *; lia).
  split; [pose proof (le_val_range (be_bytes n v)) as Hr; unfold zlen in Hr; by rewrite Hl in Hr|].
  unfold be_bytes at 1. rewrite <- Hl at 1. rewrite le_bytes_val. apply rev_involutive.
Qed.

(** ** Appending *)
Section Append.
Context `{AllocatorLaws} (fuel : nat).

(** [op], on the frame at [a], closes the frames in it and adds [l] to its
    body; it fails, and sets the error flag, only when a length does not fit
    in its prefix or when the buffer cannot grow. *)
Definition appended {A} (o : outcome cstate A) (l : list byte) (b : Z) (v : cbb_buffer_st)
    (outer : list frame) (f : frame) (inner : list frame) : Prop :=
  match o with
  | Done _ t => exists c v', closed inner = Some c /\
      repr t b v' (outer ++ [add_body (c ++ l) f]) /\
      grown v v' (zlen c - zlen (text inner) + zlen l)
  | Fail t => (forall c, closed inner = Some c ->
                 blocked v (zlen c - zlen (text inner) + zlen l)) /\ broken b t
  | _ => False
  end.

Definition appends {A} (a : Z) (l : list byte) (op : K A) : Prop :=
  forall outer f inner s b v,
  f_addr f = a -> (length inner < fuel)%nat -> repr s b v (outer ++ f :: inner) ->
  appended (op s) l b v outer f inner.

Lemma appends_flush a : appends a [] (flush fuel a).
Proof.
  intros outer f inner s b v <- Hl Hr. pose proof (flush_spec fuel inner outer f s b v Hr Hl) as Hf.
  unfold flushed, appended, flush in *. destruct (CBB_flush fuel (f_addr f) s) as [u t|t|u|]; try done.
  - destruct Hf as (c & v' & Hf). exists c, v'. rewrite app_nil_r. by rewrite zlen_nil, Z.add_0_r.
  - rewrite zlen_nil. split; [|apply Hf]. intros c Hc. rewrite Z.add_0_r. by apply Hf.
Qed.

Lemma add_body_app l k f : add_body k (add_body l f) = add_body (l ++ k) f.
Proof. unfold add_body. cbn. by rewrite app_assoc. Qed.

(** An operation that only sees the last frame. *)
Definition appends_last {A} (a : Z) (l : list byte) (op : K A) : Prop :=
  forall outer f s b v,
  f_addr f = a -> repr s b v (outer ++ [f]) -> appended (op s) l b v outer f [].

Lemma appends_bind {A B} a l k (op1 : K A) (op2 : A -> K B) :
  appends a l op1 -> (forall x, appends_last a k (op2 x)) -> appends a (l ++ k) (bind op1 op2).
Proof.
  intros H1 H2 outer f inner s b v Ha Hl Hr. specialize (H1 outer f inner s b v Ha Hl Hr).
  unfold bind, appended in *. destruct (op1 s) as [x t|t|u|]; try done.
  - destruct H1 as (c & v' & Hc & Ht & Hg).
    specialize (H2 x outer (add_body (c ++ l) f) t b v' Ha Ht). unfold appended in H2.
    destruct (op2 x t) as [y t'|t'|u|]; try done.
    + destruct H2 as (c' & v2 & Hc' & Ht' & Hg'). cbn in Hc'. injection Hc' as <-.
      exists c, v2. split; [done|]. rewrite add_body_app in Ht'.
      rewrite <- app_assoc in Ht'. split; [exact Ht'|].
      apply (grown_weaken _ _ _ (grown_trans _ _ _ _ _ Hg Hg')). change (text []) with (@nil byte). zl.
    + destruct H2 as [Hb Hbr]. split; [|done]. intros c2 Hc2. rewrite Hc in Hc2. injection Hc2 as <-.
      specialize (Hb [] eq_refl). change (text []) with (@nil byte) in Hb.
      apply (grown_blocked v v' _ _ Hg) in Hb; [|zl]. apply (blocked_le _ _ _ Hb). zl.
  - destruct H1 as [Hb Hbr]. split; [|done]. intros c Hc. apply (blocked_le _ _ _ (Hb c Hc)). zl.
Qed.

Lemma appends_then {A B} a l k (op1 : K A) (op2 : A -> K B) :
  (0 < fuel)%nat -> appends a l op1 -> (forall x, appends a k (op2 x)) ->
  appends a (l ++ k) (bind op1 op2).
Proof.
  intros Hf H1 H2. apply appends_bind; [done|]. intros x outer f s b v Ha Hr.
  by apply H2.
Qed.

Lemma appends_eq {A} a l k (op : K A) : appends a l op -> l = k -> appends a k op.
Proof. by intros Ha ->. Qed.

(** Room for [l], then [l] stored there. *)
Lemma append_store {A} (k : Z -> Z -> K A) a l :
  zlen l < 2 ^ 64 ->
  (forall b out, exists x, forall s, k b out s = (buf_store b out l;;; ret x) s) ->
  appends_last a l (let* c := get_cbb a in
                    let* out := cbb_buffer_add (base c) (zlen l) in k (base c) out).
Proof.
  intros Hl Hk outer f s b v Ha Hr. pose proof (repr_frame _ _ _ _ _ _ Hr) as Hf.
  pose proof Hr as [Hb Hv Hh _ _ _ _]. rewrite Ha in Hf.
  unfold bind at 1. rewrite (get_cbb_spec _ _ _ Hf). cbn [base].
  pose proof (buffer_add_spec s b v _ (zlen l) Hb Hv Hh ltac:(pose proof (zlen_nonneg l); lia)) as Hadd.
  unfold bind, appended. destruct (cbb_buffer_add b (zlen l) s) as [out t|t|u|]; try done.
  - destruct Hadd as (-> & v1 & x & -> & Hx & Hh1 & Hg1).
    destruct (Hk b (zlen (text (outer ++ [f])))) as [r ->]. unfold bind.
    destruct (buf_store_spec (upd b v1 s) b v1 (text (outer ++ [f])) x l []) as (v2 & -> & Hh2 & Hg2);
      [apply upd_lookup|by rewrite app_nil_r|done|].
    rewrite upd_upd. unfold ret. rewrite app_nil_r in Hh2. exists [], v2.
    split; [done|]. split.
    + cbn [app]. apply (repr_update s (upd b v2 s) b v v2 outer f []); try done.
      * apply upd_lookup.
      * rewrite !text_app in *. cbn [text map concat] in *.
        rewrite add_body_text, !app_nil_r in *. by rewrite <- app_assoc in Hh2.
      * by rewrite Ha.
    + apply (grown_weaken _ _ _ (grown_trans _ _ _ _ _ Hg1 Hg2)). change (text []) with (@nil byte). zl.
  - destruct Hadd as [Hbl Hbr]. split; [|done]. intros c [= <-]. apply (blocked_le _ _ _ Hbl).
    change (text []) with (@nil byte). zl.
Qed.

Lemma appends_then_last {A} a l (op : unit -> K A) :
  (forall x, appends_last a l (op x)) -> appends a l (bind (flush fuel a) op).
Proof. intros Hop. exact (appends_bind a [] l _ _ (appends_flush a) Hop). Qed.

Lemma appends_bytes a data :
  zlen data < 2 ^ 64 -> appends a data (CBB_add_bytes fuel a data (zlen data)).
Proof.
  intros Hl. apply appends_then_last. intros _.
  apply (append_store (fun b dest => if zlen data <? zlen data then undef UbRead
           else buf_store b dest (take (Z.to_nat (zlen data)) data))); [done|].
  intros b out. exists tt. intros s. rewrite Z.ltb_irrefl. unfold zlen at 1. rewrite Nat2Z.id, firstn_all.
  unfold bind. by destruct (buf_store b out data s) as [[]| | |].
Qed.

Lemma appends_u a value n :
  1 <= n <= 8 -> 0 <= value < 256 ^ n ->
  appends a (be_bytes (Z.to_nat n) value) (add_u fuel a value n).
Proof.
  intros Hn Hv. apply appends_then_last. intros _.
  pose proof (be_bytes_length (Z.to_nat n) value) as Hl. rewrite Z2Nat.id in Hl by lia.
  intros outer f s b v Ha Hr.
  pose proof (append_store (fun b out => buf_store b out (be_bytes (Z.to_nat n) value)) a
    (be_bytes (Z.to_nat n) value) ltac:(lia)) as Hst.
  specialize (Hst ltac:(intros; exists tt; intros; unfold bind; by destruct (buf_store _ _ _ _) as [[]| | |])).
  specialize (Hst outer f s b v Ha Hr). rewrite Hl in Hst.
  refine (eq_ind _ (fun o => appended o _ b v outer f []) Hst _ _).
  unfold bind at 1 3. destruct (get_cbb a s) as [c t|t|u|]; try done.
  unfold cbb_buffer_add_u. destruct (Z.eqb_spec n 0); [lia|].
  unfold bind. destruct (cbb_buffer_add (base c) n t) as [out u|u|u|]; try done.
  rewrite be_loop_spec, Z2Nat.id, Z.div_small by lia. unfold bind.
  by destruct (buf_store _ _ _ u) as [[]| | |].
Qed.

Lemma be_bytes_1 x : be_bytes 1 x = [zb x].
Proof. done. Qed.

Lemma appends_u8 a x : 0 <= x < 256 -> appends a [zb x] (CBB_add_u8 fuel a x).
Proof. intros Hx. rewrite <- be_bytes_1. apply (appends_u a x 1); lia. Qed.

Lemma base128_len_spec n : forall v, 0 <= v < 128 ^ Z.of_nat n ->
  if v =? 0 then base128_len n v = 0%nat else base128_len n v = b128_len v.
Proof.
  induction n as [|n IH]; intros v Hv; cbn [base128_len].
  - change (128 ^ Z.of_nat 0) with 1 in Hv. by replace v with 0 by lia.
  - destruct (Z.ltb_spec 0 v); destruct (Z.eqb_spec v 0); [lia| |done|lia].
    rewrite Z.shiftr_div_pow2 by lia. change (2 ^ 7) with 128.
    rewrite Nat2Z.inj_succ, Z.pow_succ_r in Hv by lia.
    assert (0 <= v / 128 < 128 ^ Z.of_nat n) as Hq.
    { split; [apply Z.div_pos; lia|apply Z.div_lt_upper_bound; lia]. }
    specialize (IH (v / 128) Hq). symmetry.
    destruct (Z.eqb_spec (v / 128) 0) as [E|E]; rewrite IH.
    + apply b128_len_spec; [|by left]. change (128 ^ Z.of_nat 1) with 128. zdm.
    + pose proof (b128_len_bounds (v / 128) (proj1 Hq)) as [Hlo Hhi].
      apply b128_len_spec.
      * rewrite Nat2Z.inj_succ, Z.pow_succ_r by lia. zdm.
      * right. unfold b128_len at 1. rewrite Nat2Z.inj_succ, Z.pow_succ_r by lia.
        destruct Hhi as [Hhi|Hhi].
        -- unfold b128_len in Hhi. injection Hhi as ->. change (128 ^ Z.of_nat 0) with 1. zdm.
        -- unfold b128_len in Hhi.
           replace (Z.of_nat (S (Z.to_nat (Z.log2 (v / 128) / 7))) - 1)
             with (Z.of_nat (Z.to_nat (Z.log2 (v / 128) / 7))) in Hhi by lia. zdm.
Qed.

Context (fuel_pos : (0 < fuel)%nat).

Lemma base128_byte v i : 0 <= v ->
  let byte := Z.land (u8 (Z.shiftr v (7 * Z.of_nat i))) 127 in
  (if (i =? 0)%nat then byte else Z.lor byte 128)
  = (v / 128 ^ Z.of_nat i) mod 128 + (if (i =? 0)%nat then 0 else 128).
Proof.
  intros Hv. cbn zeta. change 127 with (Z.ones 7). rewrite Z.land_ones by lia.
  rewrite Z.shiftr_div_pow2, Z.pow_mul_r by lia. change (2 ^ 7) with 128.
  set (x := v / 128 ^ Z.of_nat i).
  assert (u8 x mod 128 = x mod 128) as ->.
  { unfold u8. change (2 ^ 8) with (128 * 2). rewrite Z.rem_mul_r by lia.
    rewrite Z.mul_comm, Z.mod_add by lia. apply Z.mod_mod. lia. }
  destruct (i =? 0)%nat; [lia|]. apply lor_128. apply Z.mod_pos_bound. lia.
Qed.

Lemma appends_base128_digits a v n : 0 <= v ->
  appends a (b128_digits n v) (base128_digits fuel n a v) \/ n = 0%nat.
Proof.
  intros Hv. destruct n as [|n]; [by right|left].
  induction n as [|n IH].
  - cbn [base128_digits b128_digits]. rewrite base128_byte by done. cbn.
    intros outer f inner s b w Ha Hl Hr. unfold bind.
    assert (0 <= v / 128 ^ 0 mod 128 + 0 < 256) as Hd by zdm.
    pose proof (appends_u8 a _ Hd outer f inner s b w Ha Hl Hr) as Hu.
    change (Z.of_nat 0) with 0. destruct (CBB_add_u8 _ _ _ s) as [[] t|t|u|]; done.
  - remember (S n) as k eqn:Hk. cbn [base128_digits b128_digits]. rewrite base128_byte by done.
    change (zb ?x :: ?l) with ([zb x] ++ l).
    apply appends_then; [done|apply appends_u8|intros _; exact IH].
    pose proof (Z.mod_pos_bound (v / 128 ^ Z.of_nat k) 128 ltac:(lia)). destruct (k =? 0)%nat; lia.
Qed.

Lemma appends_base128 a v : 0 <= v < 2 ^ 64 -> appends a (b128 v) (add_base128_integer fuel a v).
Proof.
  intros Hv. unfold add_base128_integer, b128. pose proof (base128_len_spec 10 v) as Hl.
  change (128 ^ Z.of_nat 10) with (2 ^ 70) in Hl. specialize (Hl ltac:(lia)).
  destruct (Z.eqb_spec v 0) as [->|].
  - rewrite Hl. cbn [Nat.eqb]. change (b128_len 0) with 1%nat.
    by destruct (appends_base128_digits a 0 1 ltac:(lia)) as [Hd|]; [exact Hd|].
  - rewrite Hl. change (b128_len v =? 0)%nat with false. cbn match.
    by destruct (appends_base128_digits a v (b128_len v) (proj1 Hv)) as [Hd|]; [exact Hd|].
Qed.

(** The identifier octets written by [CBB_add_asn1]. *)
Lemma appends_tag a tag : 0 <= tag < 2 ^ 32 ->
  appends a (der_tag tag)
    (let tag_bits := Z.land (Z.shiftr tag CBS_ASN1_TAG_SHIFT) 224 in
     let tag_number := Z.land tag CBS_ASN1_TAG_NUMBER_MASK in
     if 31 <=? tag_number then
       CBB_add_u8 fuel a (Z.lor tag_bits 31);;; add_base128_integer fuel a tag_number
     else CBB_add_u8 fuel a (Z.lor tag_bits tag_number)).
Proof.
  intros Ht. cbn zeta. change CBS_ASN1_TAG_NUMBER_MASK with (Z.ones 29).
  rewrite Z.land_ones, Z.shiftr_div_pow2 by (vm_compute; discriminate). change (2 ^ CBS_ASN1_TAG_SHIFT) with (2 ^ 24).
  assert (0 <= tag / 2 ^ 24 < 256) as Hq by zdm.
  destruct (byte_masks _ Hq) as [-> _]. rewrite Z.div_div by lia. change (2 ^ 24 * 32) with (2 ^ 29).
  unfold der_tag. cbn zeta. rewrite Z.leb_antisym.
  assert (0 <= tag / 2 ^ 29 < 8) as Hh by zdm.
  assert (forall k, 0 <= k < 32 -> Z.lor (tag / 2 ^ 29 * 32) k = tag / 2 ^ 29 * 32 + k) as Hor.
  { intros k Hk. rewrite Z.lor_comm. change 32 with (2 ^ 5). rewrite <- Z.shiftl_mul_pow2 by lia.
    rewrite lor_low_shifted by lia. rewrite Z.shiftl_mul_pow2; lia. }
  assert (0 <= tag mod 2 ^ 29 < 2 ^ 29) as Hm by (apply Z.mod_pos_bound; lia).
  destruct (Z.ltb_spec (tag mod 2 ^ 29) 31); cbn [negb]; rewrite Hor by lia.
  - apply appends_u8. lia.
  - change (zb ?x :: ?l) with ([zb x] ++ l).
    apply appends_then; [done|apply appends_u8; lia|intros _; apply appends_base128; lia].
Qed.

(** [op] opens the frame [g] at the end of the chain, after [l]. *)
Definition opened {A} (o : outcome cstate A) (l : list byte) (g : frame) (b : Z)
    (v : cbb_buffer_st) (outer : list frame) (f : frame) (inner : list frame) : Prop :=
  match o with
  | Done _ t => exists c v', closed inner = Some c /\
      repr t b v' (outer ++ [add_body (c ++ l) f; g]) /\
      grown v v' (zlen c - zlen (text inner) + zlen l + f_n g)
  | Fail t => (forall c, closed inner = Some c ->
                 blocked v (zlen c - zlen (text inner) + zlen l + f_n g)) /\ broken b t
  | _ => False
  end.

Definition opens (a : Z) (l : list byte) (g : frame) (op : K unit) : Prop :=
  forall outer f inner s b v,
  f_addr f = a -> (length inner < fuel)%nat -> repr s b v (outer ++ f :: inner) ->
  f_addr g <> 0 -> ~ In (f_addr g) (map f_addr (outer ++ [f])) ->
  opened (op s) l g b v outer f inner.

Lemma new_child_spec s b v outer f out n is_asn1 :
  repr s b v (outer ++ [add_body (replicate (Z.to_nat n) (zb 0)) f]) ->
  out <> 0 -> ~ In out (map f_addr (outer ++ [f])) -> 1 <= n <= 8 -> (is_asn1 = true -> n = 1) ->
  exists t, new_child (f_addr f) out (zlen (text (outer ++ [f]))) n is_asn1 s = Done tt t /\
    repr t b v (outer ++ [f; mk_frame out n is_asn1 true []]).
Proof.
  intros Hr Ho Hin Hn Hasn. pose proof (repr_frame _ _ _ _ _ _ Hr) as Hf.
  pose proof Hr as [Hb Hv Hh Hl Hnd Hch Hroot]. cbn [f_addr f_n f_asn1 f_child add_body] in Hf.
  rewrite map_app in Hin. rewrite in_app_iff in Hin. cbn in Hin.
  assert (out <> f_addr f /\ ~ In out (map f_addr outer)) as [Ho1 Ho2].
  { split; [intros ->; apply Hin; right; by left|intros ?; apply Hin; by left]. }
  unfold new_child, bind. rewrite (get_cbb_spec _ _ _ Hf). cbn [put_cbb modify].
  rewrite (get_cbb_spec _ (f_addr f) (mk_cbb b 0 (zlen (text outer)) (f_n f) (f_asn1 f) (f_child f)))
    by (cbn; rewrite lookup_insert_ne by congruence; exact Hf).
  eexists. split; [done|]. constructor; try done.
  - rewrite text_app in *. cbn [text map concat] in *. rewrite add_body_text, app_nil_r in Hh.
    unfold f_text at 2. cbn [f_n f_body]. by rewrite !app_nil_r.
  - change [f; mk_frame out n is_asn1 true []] with ([f] ++ [mk_frame out n is_asn1 true []]).
    apply linked_app in Hl as [Hl _]. apply linked_app. split.
    + refine (linked_same (cbbs s) _ _ _ outer 0 _ Hl). intros a Ha. cbn.
      rewrite !lookup_insert_ne; [done|by intros <-|]. intros <-.
      rewrite map_app in Hnd. apply NoDup_app in Hnd as (_ & Hd & _).
      apply (Hd (f_addr f)); [by apply list_elem_of_In|left].
    + cbn [linked app head_addr f_addr f_n f_asn1 f_child cbbs set_child base offset pending_len_len
        pending_is_asn1 is_child]. split; [by rewrite lookup_insert_eq|]. split; [|done].
      rewrite lookup_insert_ne, lookup_insert_eq by congruence. do 2 f_equal.
      rewrite text_app, zlen_app. cbn [text map concat]. by rewrite app_nil_r.
  - change [f; mk_frame out n is_asn1 true []] with ([f] ++ [mk_frame out n is_asn1 true []]).
    rewrite app_assoc, map_app. apply NoDup_app. split; [by rewrite map_app in *|].
    split; [|apply NoDup_singleton]. cbn. intros a Ha Hx%list_elem_of_singleton. subst a.
    rewrite map_app in Ha. cbn in Ha. apply elem_of_app in Ha as [Ha|Ha%list_elem_of_singleton]; [|done].
    by apply Ho2, list_elem_of_In.
  - rewrite tail_app in *. assert (child_frame (mk_frame out n is_asn1 true [])) by done.
    destruct outer; [by constructor|]. apply Forall_app in Hch as [Hc1 Hc2]. apply Forall_app.
    split; [done|]. apply Forall_inv in Hc2. constructor; [exact Hc2|by constructor].
  - by destruct outer.
Qed.

Lemma opened_intro {A} (op1 : K A) (op2 : A -> K unit) a l g :
  appends a l op1 ->
  (forall x outer f s b v, f_addr f = a -> repr s b v (outer ++ [f]) ->
     f_addr g <> 0 -> ~ In (f_addr g) (map f_addr (outer ++ [f])) ->
     opened (op2 x s) [] g b v outer f []) ->
  0 <= f_n g -> opens a l g (bind op1 op2).
Proof.
  intros H1 H2 Hgn outer f inner s b v Ha Hl Hr Hg Hin. specialize (H1 outer f inner s b v Ha Hl Hr).
  unfold bind, opened, appended in *. destruct (op1 s) as [x t|t|u|]; try done.
  - destruct H1 as (c & v' & Hc & Ht & Hgr).
    assert (map f_addr (outer ++ [add_body (c ++ l) f]) = map f_addr (outer ++ [f])) as Hm
      by by rewrite !map_app.
    specialize (H2 x outer (add_body (c ++ l) f) t b v' Ha Ht Hg ltac:(by rewrite Hm)).
    destruct (op2 x t) as [y t'|t'|u|]; try done.
    + destruct H2 as (c' & v2 & Hc' & Ht' & Hg'). cbn in Hc'. injection Hc' as <-.
      exists c, v2. split; [done|]. rewrite add_body_app, app_nil_r in Ht'. split; [exact Ht'|].
      apply (grown_weaken _ _ _ (grown_trans _ _ _ _ _ Hgr Hg')). change (text []) with (@nil byte). zl.
    + destruct H2 as [Hb Hbr]. split; [|done]. intros c2 Hc2. rewrite Hc in Hc2. injection Hc2 as <-.
      specialize (Hb [] eq_refl). change (text []) with (@nil byte) in Hb.
      apply (grown_blocked v v' _ _ Hgr) in Hb; [|zl]. apply (blocked_le _ _ _ Hb). zl.
  - destruct H1 as [Hb Hbr]. split; [|done]. intros c Hc. apply (blocked_le _ _ _ (Hb c Hc)). lia.
Qed.

Lemma zlen_zeros n : 0 <= n -> zlen (replicate (Z.to_nat n) (zb 0)) = n.
Proof. intros Hn. unfold zlen. rewrite length_replicate. lia. Qed.

(** The placeholder of the prefix, then the new record. *)
Lemma open_prefix (op : K unit) outer f s b v out n is_asn1 :
  repr s b v (outer ++ [f]) -> out <> 0 -> ~ In out (map f_addr (outer ++ [f])) ->
  1 <= n <= 8 -> (is_asn1 = true -> n = 1) ->
  appended (op s) (replicate (Z.to_nat n) (zb 0)) b v outer f [] ->
  opened ((op;;; new_child (f_addr f) out (zlen (text (outer ++ [f]))) n is_asn1) s) []
    (mk_frame out n is_asn1 true []) b v outer f [].
Proof.
  intros Hr Ho Hin Hn Hasn Hop.
  unfold bind, opened, appended in *.
  assert (zlen (replicate (Z.to_nat n) (zb 0)) = n) as Hz by (unfold zlen; rewrite length_replicate; lia).
  destruct (op s) as [x t|t|u|]; try done.
  - destruct Hop as (c & v' & Hc & Ht & Hg). cbn in Hc. injection Hc as <-. cbn [app] in Ht.
    destruct (new_child_spec t b v' outer f out n is_asn1 Ht Ho Hin Hn Hasn) as (t' & -> & Ht').
    exists [], v'. split; [done|]. cbn [app f_n]. split.
    + cbn. unfold add_body at 1. rewrite app_nil_r. by destruct f.
    + rewrite Hz in Hg. apply (grown_weaken _ _ _ Hg). zl.
  - destruct Hop as [Hb Hbr]. split; [|done]. intros c Hc. apply (blocked_le _ _ _ (Hb c Hc)).
    cbn [f_n]. rewrite Hz. zl.
Qed.

Lemma opens_length_prefixed a out n : 1 <= n <= 8 ->
  opens a [] (mk_frame out n false true []) (cbb_add_length_prefixed fuel a out n).
Proof.
  intros Hn. apply opened_intro; [apply appends_flush| |cbn; lia].
  intros _ outer f s b v <- Hr Ho Hin. pose proof (repr_frame _ _ _ _ _ _ Hr) as Hf.
  pose proof Hr as [_ Hv Hh _ _ _ _].
  unfold bind at 1. rewrite (get_cbb_spec _ _ _ Hf). cbn [base].
  unfold bind at 1. rewrite (get_base_spec _ _ _ Hv), (h_len _ _ Hh). cbn [f_addr] in *.
  pose proof (append_store (fun b p => buf_store b p (replicate (Z.to_nat n) (zb 0)))
    (f_addr f) (replicate (Z.to_nat n) (zb 0))) as Hst.
  rewrite (zlen_zeros n) in Hst by lia. specialize (Hst ltac:(lia)).
  specialize (Hst ltac:(intros; exists tt; intros; unfold bind; by destruct (buf_store _ _ _ _) as [[]| | |])
    outer f s b v eq_refl Hr).
  unfold bind at 1 in Hst. rewrite (get_cbb_spec _ _ _ Hf) in Hst. cbn [base] in Hst.
  pose proof (open_prefix _ outer f s b v out n false Hr Ho Hin Hn ltac:(done) Hst) as Hop.
  by rewrite bind_assoc in Hop.
Qed.

(** [CBB_add_asn1]: the identifier octets, then a frame whose length takes
    one byte until it is closed. *)
Lemma opens_asn1 a out tag : 0 <= tag < 2 ^ 32 ->
  opens a (der_tag tag) (mk_frame out 1 true true []) (CBB_add_asn1 fuel a out tag).
Proof.
  intros Ht.
  assert (opens a (der_tag tag) (mk_frame out 1 true true [])
    ((flush fuel a;;;
      let tag_bits := Z.land (Z.shiftr tag CBS_ASN1_TAG_SHIFT) 224 in
      let tag_number := Z.land tag CBS_ASN1_TAG_NUMBER_MASK in
      if 31 <=? tag_number then
        CBB_add_u8 fuel a (Z.lor tag_bits 31);;; add_base128_integer fuel a tag_number
      else CBB_add_u8 fuel a (Z.lor tag_bits tag_number));;;
     let* c := get_cbb a in
     let* v := get_base (base c) in
     let off := b_len v in
     CBB_add_u8 fuel a 0;;; new_child a out off 1 true)) as Hop.
  { apply opened_intro; [|intros _ outer f s b v <- Hr Ho Hin|cbn; lia].
    - change (der_tag tag) with ([] ++ der_tag tag).
      apply appends_then; [done|apply appends_flush|intros _; by apply appends_tag].
    - pose proof (repr_frame _ _ _ _ _ _ Hr) as Hf. pose proof Hr as [_ Hv Hh _ _ _ _].
      unfold bind at 1. rewrite (get_cbb_spec _ _ _ Hf). cbn [base].
      unfold bind at 1. rewrite (get_base_spec _ _ _ Hv), (h_len _ _ Hh). cbn [f_addr] in *.
      apply open_prefix; try done.
      by apply (appends_u8 (f_addr f) 0 ltac:(lia) outer f [] s b v eq_refl ltac:(cbn; lia) Hr). }
  intros outer f inner s b v Ha Hl Hr Ho Hin. specialize (Hop outer f inner s b v Ha Hl Hr Ho Hin).
  by rewrite bind_assoc in Hop.
Qed.

Lemma appends_last_of {A} a l (op : K A) : appends a l op -> appends_last a l op.
Proof. intros Hop outer f s b v Ha Hr. by apply Hop. Qed.

Lemma add_body_nil f : add_body [] f = f.
Proof. unfold add_body. rewrite app_nil_r. by destruct f. Qed.

Lemma appends_last_ret {A} a (x : A) : appends_last a [] (ret x).
Proof.
  intros outer f s b v Ha Hr. exists [], v. split; [done|]. cbn [app]. rewrite add_body_nil.
  split; [done|]. change (text []) with (@nil byte). constructor; zl || done.
Qed.

(** Appending through a local [CBB] at [tmp], which is closed at the end. *)
Definition appends_via {A} (tmp a : Z) (l : list byte) (op : K A) : Prop :=
  forall outer f inner s b v,
  f_addr f = a -> (length inner < fuel)%nat -> repr s b v (outer ++ f :: inner) ->
  tmp <> 0 -> ~ In tmp (map f_addr (outer ++ [f])) ->
  appended (op s) l b v outer f inner.

Lemma map_addr_add_body outer l f :
  map f_addr (outer ++ [add_body l f]) = map f_addr (outer ++ [f]).
Proof. by rewrite !map_app. Qed.

(** An element: its tag, a body written to the child, and the flush. *)
Lemma appends_element {A} a tmp tag body (op : K A) :
  (1 < fuel)%nat -> 0 <= tag < 2 ^ 32 -> zlen body <= 4294967294 -> appends_last tmp body op ->
  appends_via tmp a (der tag body) (CBB_add_asn1 fuel a tmp tag;;; op;;; flush fuel a).
Proof.
  intros Hf2 Htag Hbody Hop outer f inner s b v Ha Hl Hr Htmp Hin.
  pose proof (opens_asn1 a tmp tag Htag outer f inner s b v Ha Hl Hr Htmp Hin) as H1.
  set (g := mk_frame tmp 1 true true []) in *. unfold bind at 1.
  assert (zlen (der tag body) = zlen (der_tag tag) + zlen (der_len (zlen body)) + zlen body) as Hder
    by (unfold der, der_header; zl).
  pose proof (zlen_nonneg body) as Hb0. pose proof (der_len_length (zlen body) ltac:(lia)) as Hdl.
  unfold opened in H1. destruct (CBB_add_asn1 fuel a tmp tag s) as [u t|t|u|]; try done.
  2:{ destruct H1 as [Hb Hbr]. split; [|done]. intros c Hc. apply (blocked_le _ _ _ (Hb c Hc)).
      unfold g. cbn [f_n]. lia. }
  destruct H1 as (c & v1 & Hc & Ht & Hg1). cbn [f_n g] in Hg1.
  change ([add_body (c ++ der_tag tag) f; g]) with ([add_body (c ++ der_tag tag) f] ++ [g]) in Ht.
  rewrite app_assoc in Ht. set (f1 := add_body (c ++ der_tag tag) f) in *.
  specialize (Hop (outer ++ [f1]) g t b v1 eq_refl Ht).
  unfold bind, appended in Hop |- *. change (text []) with (@nil byte) in Hop.
  destruct (op t) as [x t2|t2|u'|]; try done.
  2:{ destruct Hop as [Hb Hbr]. split; [|done]. intros c' Hc'. rewrite Hc in Hc'. injection Hc' as <-.
      specialize (Hb [] eq_refl). apply (grown_blocked v v1 _ _ Hg1) in Hb; [|zl].
      apply (blocked_le _ _ _ Hb). zl. }
  destruct Hop as (c' & v2 & [= <-] & Ht2 & Hg2). cbn [app] in Ht2.
  rewrite <- app_assoc in Ht2. cbn [app] in Ht2.
  pose proof (appends_flush a outer f1 [add_body body g] t2 b v2 Ha Hf2 Ht2) as H3.
  assert (closed [add_body body g] = Some (der_len (zlen body) ++ body)) as Hcl.
  { cbn [closed f_body f_n f_asn1 add_body g app]. rewrite app_nil_r. unfold prefix_bytes.
    by rewrite (proj2 (Z.ltb_ge _ _)) by lia. }
  assert (zlen (text [add_body body g]) = 1 + zlen body) as Htl.
  { change (text [add_body body g]) with ([zb 0] ++ body ++ []). zl. }
  pose proof (grown_trans _ _ _ _ _ Hg1 Hg2) as Hg12.
  unfold appended in H3. destruct (flush fuel a t2) as [y t3|t3|u'|]; try done.
  - destruct H3 as (c3 & v3 & Hc3 & Ht3 & Hg3). rewrite Hcl in Hc3. injection Hc3 as <-.
    exists c, v3. split; [done|]. split.
    + unfold f1 in Ht3. rewrite add_body_app, app_nil_r, <- app_assoc in Ht3.
      unfold der, der_header. by rewrite <- app_assoc.
    + apply (grown_weaken _ _ _ (grown_trans _ _ _ _ _ Hg12 Hg3)). rewrite Htl. zl.
  - destruct H3 as [Hb Hbr]. split; [|done]. intros c' Hc'. rewrite Hc in Hc'. injection Hc' as <-.
    specialize (Hb _ Hcl). apply (grown_blocked _ _ _ _ Hg12) in Hb; [|rewrite Htl; zl].
    apply (blocked_le _ _ _ Hb). rewrite Htl. zl.
Qed.

(** *** Integers *)
Lemma be_bytes_S n v : be_bytes (S n) v = zb (v / 256 ^ Z.of_nat n) :: be_bytes n v.
Proof.
  revert v. induction n as [|n IH]; intros v.
  - change (256 ^ Z.of_nat 0) with 1. by rewrite Z.div_1_r.
  - unfold be_bytes in *. cbn [le_bytes rev] in *. rewrite IH.
    rewrite Z.shiftr_div_pow2 by lia. change (2 ^ 8) with 256.
    rewrite Z.div_div by lia. rewrite <- pow_256_S. done.
Qed.

Lemma uint64_byte v i : 0 <= v ->
  Z.land (Z.shiftr v (8 * Z.of_nat i)) 255 = (v / 256 ^ Z.of_nat i) mod 256.
Proof.
  intros Hv. change 255 with (Z.ones 8). rewrite Z.land_ones, Z.shiftr_div_pow2, Z.pow_mul_r by lia.
  done.
Qed.

Lemma appends_ext {A} a l (op op' : K A) :
  (forall s, op s = op' s) -> appends_last a l op' -> appends_last a l op.
Proof. intros E Hop outer f s b v Ha Hr. rewrite E. by apply Hop. Qed.

Lemma appends_byte {B} a x l (k : K B) :
  appends_last a l k -> appends_last a (zb x :: l) (CBB_add_u8 fuel a (x mod 256);;; k).
Proof.
  intros Hk. change (zb x :: l) with ([zb x] ++ l). rewrite <- (zb_mod x).
  apply appends_last_of, appends_bind; [apply appends_u8; apply Z.mod_pos_bound; lia|by intros _].
Qed.

Lemma appends_uint64_started {B} a v l (k : bool -> K B) n : 0 <= v ->
  appends_last a l (k true) ->
  appends_last a (be_bytes n v ++ l) (let* r := asn1_uint64_loop fuel n a v true in k r).
Proof.
  intros Hv Hk. induction n as [|n IH]; [exact Hk|].
  rewrite be_bytes_S. eapply appends_ext; [|apply appends_byte; exact IH].
  intros s. cbn [asn1_uint64_loop]. rewrite uint64_byte by done. cbn [negb andb].
  rewrite bind_assoc. unfold bind at 1, ret at 1. by rewrite bind_assoc.
Qed.

Lemma int_octets_pos n v : 0 < v -> 256 ^ Z.of_nat n <= v < 256 * 256 ^ Z.of_nat n ->
  int_octets v = if 128 * 256 ^ Z.of_nat n <=? v then S (S n) else S n.
Proof.
  intros Hv Hr. pose proof (Z.pow_pos_nonneg 256 (Z.of_nat n) ltac:(lia) ltac:(lia)).
  destruct (Z.leb_spec (128 * 256 ^ Z.of_nat n) v); apply int_octets_unique; unfold int_range.
  - rewrite pow_256_7, pow_256_S. lia.
  - intros j [= ->]. rewrite pow_256_7. lia.
  - rewrite pow_256_7. lia.
  - intros j <-. rewrite pow_256_7. rewrite pow_256_S in *. lia.
Qed.

Lemma appends_uint64_loop {B} a v l (k : bool -> K B) n : 0 < v < 256 ^ Z.of_nat n ->
  appends_last a l (k true) ->
  appends_last a (int_bytes v ++ l) (let* r := asn1_uint64_loop fuel n a v false in k r).
Proof.
  intros Hv Hk. induction n as [|n IH]; [change (256 ^ Z.of_nat 0) with 1 in Hv; lia|].
  rewrite pow_256_S in Hv. cbn [asn1_uint64_loop]. rewrite uint64_byte by lia. cbn [negb andb].
  assert (0 <= v / 256 ^ Z.of_nat n < 256) as Hq.
  { split; [apply Z.div_pos; lia|apply Z.div_lt_upper_bound; lia]. }
  rewrite (Z.mod_small (v / 256 ^ Z.of_nat n)) at 1 by lia.
  destruct (Z.eqb_spec (v / 256 ^ Z.of_nat n) 0) as [E|E].
  { apply IH. split; [lia|]. apply Z.div_small_iff in E; lia. }
  assert (256 ^ Z.of_nat n <= v) as Hge.
  { destruct (Z_lt_ge_dec v (256 ^ Z.of_nat n)); [|lia]. by rewrite Z.div_small in E by lia. }
  rewrite land_128, <- Z.leb_antisym by (apply Z.mod_pos_bound; lia).
  rewrite (Z.mod_small (v / 256 ^ Z.of_nat n)) at 1 by lia.
  assert ((128 <=? v / 256 ^ Z.of_nat n) = (128 * 256 ^ Z.of_nat n <=? v)) as ->.
  { apply Bool.eq_iff_eq_true. rewrite !Z.leb_le. rewrite Z.mul_comm.
    split; [intros; apply Z.le_trans with (256 ^ Z.of_nat n * (v / 256 ^ Z.of_nat n));
              [nia|apply Z.mul_div_le; lia]|apply Z.div_le_lower_bound; lia]. }
  unfold int_bytes. rewrite (int_octets_pos n) by lia.
  destruct (_ <=? v); rewrite !be_bytes_S.
  - rewrite Z.div_small by (rewrite pow_256_S; lia).
    eapply appends_ext; [|apply appends_byte; cbn [app]; apply appends_byte;
      apply (appends_uint64_started a v l k n); [lia|exact Hk]].
    intros s. rewrite bind_assoc. apply bind_ext. intros [] t. by rewrite bind_assoc.
  - cbn [app]. eapply appends_ext; [|apply appends_byte;
      apply (appends_uint64_started a v l k n); [lia|exact Hk]].
    intros s. rewrite bind_assoc. unfold bind at 1, ret at 1. by rewrite bind_assoc.
Qed.

Lemma uint64_loop_zero n a s : asn1_uint64_loop fuel n a 0 false s = Done false s.
Proof.
  induction n as [|n IH]; [done|]. cbn [asn1_uint64_loop]. rewrite uint64_byte by lia.
  rewrite Z.div_0_l by lia. exact IH.
Qed.

Lemma appends_asn1_uint64 a tmp v : (1 < fuel)%nat -> 0 <= v < 2 ^ 64 ->
  appends_via tmp a (der 2 (int_bytes v)) (CBB_add_asn1_uint64 fuel a tmp v).
Proof.
  intros Hf2 Hv. pose proof (int_bytes_max v ltac:(lia)) as Hlen.
  assert (appends_last tmp (int_bytes v)
    (let* started := asn1_uint64_loop fuel 8 tmp v false in
     if negb started then CBB_add_u8 fuel tmp 0 else ret tt)) as Hop.
  { destruct (Z.eq_dec v 0) as [->|Hne].
    - apply (appends_ext _ _ _ (CBB_add_u8 fuel tmp 0)); [|by apply appends_last_of, (appends_u8 tmp 0)].
      intros s. unfold bind. by rewrite uint64_loop_zero.
    - rewrite <- (app_nil_r (int_bytes v)). apply appends_uint64_loop.
      + change (256 ^ Z.of_nat 8) with (2 ^ 64). lia.
      + apply appends_last_ret. }
  intros outer f inner s b w Ha Hl Hr Ht Hin.
  pose proof (appends_element a tmp 2 (int_bytes v) _ Hf2 ltac:(lia) ltac:(lia) Hop outer f inner s b w Ha Hl Hr Ht Hin) as H1.
  refine (eq_ind _ (fun o => appended o _ b w outer f inner) H1 _ _).
  unfold CBB_add_asn1_uint64. apply bind_ext. intros [] t. by rewrite bind_assoc.
Qed.

Lemma appends_each a l : appends_last a l (add_each fuel a l).
Proof.
  induction l as [|c l IH]; [apply appends_last_ret|]. cbn [add_each].
  replace c with (zb (bz c)) at 1 by apply zb_bz.
  replace (bz c) with (bz c mod 256) at 2 by (apply Z.mod_small, bz_range). by apply appends_byte.
Qed.

Lemma le_bytes_lookup n : forall v i, (i < n)%nat ->
  le_bytes n v !! i = Some (zb (v / 256 ^ Z.of_nat i)).
Proof.
  induction n as [|n IH]; intros v i Hi; [lia|]. destruct i as [|i].
  - change (256 ^ Z.of_nat 0) with 1. cbn. by rewrite Z.div_1_r.
  - cbn [le_bytes lookup list_lookup]. rewrite IH by lia. rewrite Z.shiftr_div_pow2 by lia.
    change (2 ^ 8) with 256. by rewrite Z.div_div, <- pow_256_S by lia.
Qed.

Lemma take_le_bytes n m v : (m <= n)%nat -> take m (le_bytes n v) = le_bytes m v.
Proof.
  revert n v. induction m as [|m IH]; intros n v Hm; [done|]. destruct n as [|n]; [lia|].
  cbn. by rewrite IH by lia.
Qed.

(** The leading bytes that are dropped are those that only repeat the sign. *)
Lemma int64_start_spec v p : (p < 8)%nat -> v < 0 -> int_range p v ->
  S (int64_start (le_bytes 8 v) p) = int_octets v.
Proof.
  intros Hp Hv Hr. induction p as [|p IH].
  - symmetry. by apply int_octets_unique.
  - cbn [int64_start]. rewrite !le_bytes_lookup by lia. rewrite !bz_zb.
    rewrite land_128, <- Z.leb_antisym by (apply Z.mod_pos_bound; lia).
    rewrite pow_256_S, (Z.mul_comm 256), <- Z.div_div by lia.
    unfold int_range in *. rewrite pow_256_7 in *. rewrite pow_256_S in Hr.
    set (P := 256 ^ Z.of_nat p) in *. assert (0 < P) as HP by (subst P; lia).
    assert (-32768 <= v / P <= -1) as Hq.
    { assert (v / P < 0) by (apply Z.div_lt_upper_bound; lia).
      split; [apply Z.div_le_lower_bound; lia|lia]. }
    assert (-128 <= v / P <-> - (128 * P) <= v) as Hiff.
    { split; [|intros; apply Z.div_le_lower_bound; lia].
      intros. pose proof (Z.mul_div_le v P HP). nia. }
    assert (((v / P / 256) mod 256 =? 255) && (128 <=? (v / P) mod 256) = (- (128 * P) <=? v)) as ->.
    { apply Bool.eq_iff_eq_true. rewrite andb_true_iff, Z.eqb_eq, !Z.leb_le, <- Hiff.
      clear - Hq. set (q := v / P) in *. clearbody q. zdm. }
    destruct (Z.leb_spec (- (128 * P)) v).
    + apply IH; [lia|]. lia.
    + symmetry. apply int_octets_unique; unfold int_range.
      * rewrite pow_256_7, pow_256_S. fold P. lia.
      * intros j [= ->]. rewrite pow_256_7. fold P. lia.
Qed.

Lemma appends_asn1_int64 a tmp v : (1 < fuel)%nat -> - 2 ^ 63 <= v < 2 ^ 63 ->
  appends_via tmp a (der 2 (int_bytes v)) (CBB_add_asn1_int64 fuel a tmp v).
Proof.
  intros Hf2 Hv. pose proof (int_bytes_max v ltac:(lia)) as Hlen. unfold CBB_add_asn1_int64.
  destruct (Z.leb_spec 0 v); [by apply appends_asn1_uint64; lia|]. cbn zeta.
  rewrite take_le_bytes.
  2:{ pose proof (int64_start_spec v 7 ltac:(lia) ltac:(lia)) as Hs.
      pose proof (int_octets_minimal 7 v). unfold int_range in *.
      change (2 ^ (8 * Z.of_nat 7 + 7)) with (2 ^ 63) in *. lia. }
  rewrite int64_start_spec by (lia || (unfold int_range; change (2 ^ (8 * Z.of_nat 7 + 7)) with (2 ^ 63); lia)).
  change (rev (le_bytes (int_octets v) v)) with (int_bytes v).
  apply appends_element; [done|done|lia|apply appends_each].
Qed.

(** *** Octet strings and booleans *)
Lemma appends_asn1_octet_string a tmp data : (1 < fuel)%nat -> zlen data <= 4294967294 ->
  appends_via tmp a (der 4 data) (CBB_add_asn1_octet_string fuel a tmp data (zlen data)).
Proof.
  intros Hf2 Hl. apply appends_element; [done|done|done|].
  apply appends_last_of, appends_bytes. lia.
Qed.

Lemma appends_asn1_bool a tmp value : (1 < fuel)%nat ->
  appends_via tmp a (der 1 (bool_bytes value)) (CBB_add_asn1_bool fuel a tmp value).
Proof.
  intros Hf2. apply appends_element; [done|done|done|].
  apply appends_last_of, appends_u8. by destruct value.
Qed.

(** *** The remaining appends *)
Lemma appends_zeros a n : 0 <= n < 2 ^ 64 ->
  appends a (replicate (Z.to_nat n) (zb 0)) (CBB_add_zeros fuel a n).
Proof.
  intros Hn.
  pose proof (append_store (fun b out => buf_store b out (replicate (Z.to_nat n) (zb 0))) a
    (replicate (Z.to_nat n) (zb 0))) as Hst.
  rewrite zlen_zeros in Hst by lia. specialize (Hst ltac:(lia)).
  specialize (Hst ltac:(intros; exists tt; intros; unfold bind; by destruct (buf_store _ _ _ _) as [[]| | |])).
  intros outer f inner s b v Ha Hl Hr.
  pose proof (appends_then_last a _ (fun _ => _) (fun _ => Hst) outer f inner s b v Ha Hl Hr) as H1.
  refine (eq_ind _ (fun o => appended o _ b v outer f inner) H1 _ _).
  unfold CBB_add_zeros, CBB_add_space. rewrite bind_assoc. apply bind_ext. intros [] t.
  rewrite bind_assoc. destruct (cbbs t !! a) as [c|] eqn:E.
  - rewrite !(bind_done (get_cbb a) _ t c t) by by apply get_cbb_spec.
    unfold bind at 1 2. destruct (cbb_buffer_add (base c) n t) as [out u|u|u|] eqn:Eb; try done.
    rewrite (bind_done (get_cbb a) _ u c u); [done|].
    apply get_cbb_spec. by rewrite (buffer_add_cbbs _ _ _ _ _ Eb).
  - assert (get_cbb a t = Undef UbMem) as Hu by (unfold get_cbb, bind, gets; by rewrite E).
    unfold bind. by rewrite Hu.
Qed.

(** A value that does not fit in its bytes is refused. *)
Lemma add_u_too_large a value n outer f s b v :
  1 <= n <= 8 -> 256 ^ n <= value -> f_addr f = a -> repr s b v (outer ++ [f]) ->
  match add_u fuel a value n s with Fail t => broken b t | _ => False end.
Proof.
  intros Hn Hval Ha Hr. unfold add_u.
  pose proof (appends_flush a outer f [] s b v Ha ltac:(cbn; lia) Hr) as Hf.
  unfold bind at 1. unfold appended in Hf.
  destruct (flush fuel a s) as [u t|t|u|]; try done; [|apply Hf].
  destruct Hf as (c & v' & [= <-] & Ht & _). cbn [app] in Ht. rewrite add_body_nil in Ht.
  pose proof (repr_frame _ _ _ _ _ _ Ht) as Hfr. rewrite Ha in Hfr.
  pose proof Ht as [Hb Hv Hh _ _ _ _]. unfold bind at 1. rewrite (get_cbb_spec _ _ _ Hfr). cbn [base].
  unfold cbb_buffer_add_u. destruct (Z.eqb_spec n 0); [lia|]. unfold bind at 1.
  pose proof (buffer_add_spec t b v' _ n Hb Hv Hh ltac:(lia)) as Hadd.
  destruct (cbb_buffer_add b n t) as [out w|w|w|]; try done; [|apply Hadd].
  destruct Hadd as (-> & v1 & x & -> & Hx & Hh1 & _). rewrite be_loop_spec, Z2Nat.id by lia.
  pose proof (be_bytes_length (Z.to_nat n) value) as Hbl. rewrite Z2Nat.id in Hbl by lia.
  destruct (buf_store_spec (upd b v1 t) b v1 (text (outer ++ [f])) x (be_bytes (Z.to_nat n) value) [])
    as (v2 & Hst & _); [apply upd_lookup|by rewrite app_nil_r|lia|].
  unfold bind. rewrite Hst, upd_upd. destruct (Z.eqb_spec (value / 256 ^ n) 0) as [E|E].
  - apply Z.div_small_iff in E; lia.
  - cbn [negb]. destruct (base_error_spec (A := unit) (upd b v2 t) b v2 (upd_lookup _ _ _)) as (t' & -> & ?).
    done.
Qed.
End Append.

(** ** The sticky error *)
Section Sticky.
Context `{CbbAllocator}.

Lemma flush_broken fuel a s c :
  cbbs s !! a = Some c -> base c <> 0 -> broken (base c) s -> CBB_flush (S fuel) a s = Fail s.
Proof.
  intros Hc Hb (v & Hv & He). cbn [CBB_flush]. unfold bind. rewrite (get_cbb_spec _ _ _ Hc).
  destruct (Z.eqb_spec (base c) 0); [done|]. by rewrite (get_base_spec _ _ _ Hv), He.
Qed.
End Sticky.
