(* ===== verification/CbbTheorems.v ===== *)
(** BoringSSL, [crypto/bytestring/cbb.c]: the properties of the builder, with
    their witnesses; [CBB_cleanup]. *)
From S2P Require Import Prelude.
From S2P Require Import Cbs Cbb CbsProofs CbsDer CbbProofs.

(** ** An allocator for the witnesses *)
Module Sample.
#[export] Instance allocator : CbbAllocator := {
  c_malloc n := Some (replicate (Z.to_nat n) (zb 0));
  c_realloc l n := Some (l ++ replicate (Z.to_nat (n - zlen l)) (zb 0));
  c_new_base m := match m !! 1 with None => Some 1 | Some _ => None end
}.

#[export] Instance laws : AllocatorLaws.
Proof.
  constructor.
  - intros l n l' [= <-] Hn. eexists. split; [done|]. rewrite zlen_app.
    unfold zlen in *. rewrite length_replicate. lia.
  - intros n l Hn [= <-]. unfold zlen. rewrite length_replicate. lia.
  - intros m b. cbn. destruct (m !! 1) eqn:E; [done|]. by intros [= <-].
Qed.

Definition nothing : cstate := mk_cstate ∅ ∅.
End Sample.

Definition root_frame (a : Z) (body : list byte) : frame := mk_frame a 0 false false body.

Section Whole.
Context `{AllocatorLaws}.

(** libc refuses some request. *)
Definition out_of_memory : Prop :=
  (exists n, c_malloc n = None) \/ (exists m, c_new_base m = None) \/
  (exists l n, c_realloc l n = None).

Lemma cbb_init_spec a buf cap c s :
  cbbs s !! a = Some c -> child c = 0 -> offset c = 0 -> pending_len_len c = 0 ->
  pending_is_asn1 c = false -> zlen buf = cap -> cap < 2 ^ 64 ->
  match cbb_init a buf cap s with
  | Done _ t => exists b, repr t b (mk_base buf 0 cap true false) [root_frame a []]
  | Fail _ => out_of_memory
  | _ => False
  end.
Proof.
  intros Hc H1 H2 H3 H4 Hcap Hmax. unfold cbb_init, bind, gets.
  destruct (c_new_base (bases s)) as [b|] eqn:E; [|right; left; eauto].
  destruct (new_base_fresh _ _ E) as [Hb _]. rewrite put_base_spec.
  rewrite (get_cbb_spec _ a c) by exact Hc. rewrite H1, H2, H3, H4.
  exists b. constructor; try done.
  - apply lookup_insert_eq.
  - by constructor; cbn; [exists buf|..].
  - cbn. split; [apply lookup_insert_eq|done].
  - apply NoDup_singleton.
Qed.

Lemma CBB_init_spec a cap s : 0 <= cap < 2 ^ 64 ->
  match CBB_init a cap s with
  | Done _ t => exists b v, repr t b v [root_frame a []] /\ can_resize v = true /\ b_len v = 0
  | Fail _ => out_of_memory
  | _ => False
  end.
Proof.
  intros Hcap. unfold CBB_init, CBB_zero, bind, put_cbb, modify.
  set (s1 := mk_cstate _ _).
  assert (cbbs s1 !! a = Some cbb_zero) as Hz by apply lookup_insert_eq.
  destruct (c_malloc cap) as [buf|] eqn:E.
  - pose proof (cbb_init_spec a buf cap cbb_zero s1 Hz eq_refl eq_refl eq_refl eq_refl
      (malloc_size _ _ (proj1 Hcap) E) (proj2 Hcap)) as Hi.
    destruct (cbb_init a buf cap s1); try done. destruct Hi as [b Hi]. eauto.
  - destruct (Z.ltb_spec 0 cap); [left; eauto|]. replace cap with 0 in * by lia.
    pose proof (cbb_init_spec a [] 0 cbb_zero s1 Hz eq_refl eq_refl eq_refl eq_refl eq_refl eq_refl) as Hi.
    destruct (cbb_init a [] 0 s1); try done. destruct Hi as [b Hi]. eauto.
Qed.

Lemma CBB_finish_spec fuel a body inner s b v :
  (length inner < fuel)%nat -> repr s b v (root_frame a body :: inner) ->
  match CBB_finish fuel a s with
  | Done (buf, len) _ => exists c, closed inner = Some c /\ len = zlen (body ++ c) /\
      take (Z.to_nat len) buf = body ++ c /\ zlen (body ++ c) <= zlen buf
  | Fail t => forall c, closed inner = Some c -> blocked v (zlen c - zlen (text inner))
  | _ => False
  end.
Proof.
  intros Hl Hr. unfold CBB_finish. pose proof (repr_frame s b v [] _ _ Hr) as Hf. cbn in Hf.
  unfold bind at 1. rewrite (get_cbb_spec _ _ _ Hf). cbn [is_child].
  pose proof (flush_spec fuel inner [] (root_frame a body) s b v Hr Hl) as Hfl.
  unfold flush. cbn [f_addr root_frame] in Hfl. unfold bind at 1.
  destruct (CBB_flush fuel a s) as [u t|t|u|]; try done; [|apply Hfl].
  destruct Hfl as (c & v' & Hc & Ht & _). cbn [base].
  pose proof (repr_frame t b v' [] _ _ Ht) as Hf'. cbn in Hf'. pose proof Ht as [Hb Hv Hh _ _ _ _].
  unfold bind at 1. rewrite (get_base_spec _ _ _ Hv).
  unfold bind at 1. rewrite put_base_spec. unfold CBB_cleanup. unfold bind at 1 2.
  rewrite (get_cbb_spec (upd b (set_buf [] v') t) a _ Hf'). rewrite bind_assert by done. cbn [is_child base]. destruct (Z.eqb_spec b 0); [done|]. cbn [negb].
  unfold bind at 1 2. rewrite (get_base_spec _ _ _ (upd_lookup _ _ _)). cbn.
  exists c. split; [done|]. destruct Hh as [[spare Hbuf] Hlen _ _ _].
  change (text ([] ++ [add_body c (root_frame a body)])) with ((body ++ c) ++ []) in *.
  rewrite app_nil_r in Hbuf, Hlen. split; [done|]. rewrite Hbuf, Hlen. split.
  - unfold zlen. rewrite Nat2Z.id. apply take_app_length.
  - zl.
Qed.
End Whole.

(** ** A builder with one root, for the witnesses *)
Definition sample_state : cstate :=
  match CBB_init (H := Sample.allocator) 5 4 Sample.nothing with Done _ t => t | _ => Sample.nothing end.

Lemma sample_repr : exists v, repr sample_state 1 v [root_frame 5 []] /\ can_resize v = true.
Proof.
  pose proof (CBB_init_spec (H0 := Sample.laws) 5 4 Sample.nothing ltac:(lia)) as H.
  change (CBB_init 5 4 Sample.nothing) with (Done tt sample_state) in H.
  destruct H as (b & v & Hr & Hc & _). exists v. split; [|done].
  pose proof (repr_frame _ _ _ [] _ _ Hr) as Hf. vm_compute in Hf. by injection Hf as <-.
Qed.

Section Properties.
Context `{AllocatorLaws}.

(** C3: the heap of [CBB]s refines a stack of open frames: [CBB_flush] on a
    frame closes the frames inside it, innermost first, each with its
    length prefix (the DER length for ASN.1), moving the contents when the
    prefix needs more room; it fails, with the error flag set, only if a
    length does not fit in its prefix or the buffer cannot grow enough. *)
Theorem flush_refines fuel inner outer f s b v :
  repr s b v (outer ++ f :: inner) -> (length inner < fuel)%nat ->
  flushed (CBB_flush fuel (f_addr f) s) b v outer f inner.
Proof. apply flush_spec. Qed.

(** each append closes the children of its [CBB] and adds exactly its
    bytes: byte strings, zeros, big-endian and little-endian integers and
    base-128 numbers. *)
Theorem appends_exact fuel a data value n :
  (0 < fuel)%nat -> zlen data < 2 ^ 64 -> 0 <= value < 2 ^ 64 -> 0 <= n < 2 ^ 64 ->
  appends fuel a data (CBB_add_bytes fuel a data (zlen data)) /\
  appends fuel a (replicate (Z.to_nat n) (zb 0)) (CBB_add_zeros fuel a n) /\
  appends fuel a (be_bytes 1 (u8 value)) (CBB_add_u8 fuel a (u8 value)) /\
  appends fuel a (be_bytes 2 (u16 value)) (CBB_add_u16 fuel a (u16 value)) /\
  appends fuel a (be_bytes 3 (value mod 2 ^ 24)) (CBB_add_u24 fuel a (value mod 2 ^ 24)) /\
  appends fuel a (be_bytes 4 (u32 value)) (CBB_add_u32 fuel a (u32 value)) /\
  appends fuel a (be_bytes 8 value) (CBB_add_u64 fuel a value) /\
  appends fuel a (le_bytes 2 (u16 value)) (CBB_add_u16le fuel a (u16 value)) /\
  appends fuel a (le_bytes 4 (u32 value)) (CBB_add_u32le fuel a (u32 value)) /\
  appends fuel a (le_bytes 8 value) (CBB_add_u64le fuel a value) /\
  appends fuel a (b128 value) (add_base128_integer fuel a value).
Proof.
  intros Hf Hd Hv Hn.
  assert (forall k, 0 < k -> 0 <= value mod k < k) as Hm by (intros; by apply Z.mod_pos_bound).
  split; [by apply appends_bytes|]. split; [by apply appends_zeros|].
  split; [by apply (appends_u fuel a _ 1); [|apply Hm]|].
  split; [by apply (appends_u fuel a _ 2); [|apply Hm]|].
  split; [by apply (appends_u fuel a _ 3); [|apply Hm]|].
  split; [by apply (appends_u fuel a _ 4); [|apply Hm]|].
  split; [by apply (appends_u fuel a _ 8)|].
  split. { destruct (swap_be 2 CRYPTO_bswap2 (u16 value) swap2 (Hm (2 ^ 16) ltac:(lia))) as [? <-].
           by apply (appends_u fuel a _ 2). }
  split. { destruct (swap_be 4 CRYPTO_bswap4 (u32 value) swap4 (Hm (2 ^ 32) ltac:(lia))) as [? <-].
           by apply (appends_u fuel a _ 4). }
  split. { destruct (swap_be 8 CRYPTO_bswap8 value bswap8_spec Hv) as [? <-].
           by apply (appends_u fuel a _ 8). }
  by apply appends_base128.
Qed.

(** [CBB_add_u24] and the other fixed-size appends refuse a value that
    does not fit in their bytes, and set the error flag. *)
Theorem add_u_refuses fuel a value n outer f s b v :
  (0 < fuel)%nat -> 1 <= n <= 8 -> 256 ^ n <= value -> f_addr f = a ->
  repr s b v (outer ++ [f]) ->
  match add_u fuel a value n s with Fail t => broken b t | _ => False end.
Proof. intros Hf. by apply add_u_too_large. Qed.

(** [CBB_add_asn1] and the length-prefixed openings write the DER
    identifier octets (nothing for the latter) to the parent and open a
    child at the end of the chain. *)
Theorem opens_exact fuel a out tag n :
  (0 < fuel)%nat -> 0 <= tag < 2 ^ 32 -> 1 <= n <= 3 ->
  opens fuel a (der_tag tag) (mk_frame out 1 true true []) (CBB_add_asn1 fuel a out tag) /\
  opens fuel a [] (mk_frame out n false true []) (cbb_add_length_prefixed fuel a out n).
Proof. intros Hf Ht Hn. split; [by apply opens_asn1|apply opens_length_prefixed; lia]. Qed.

(** the DER value writers append exactly the DER encoding of their
    value: the shortest INTEGER for unsigned and signed 64-bit integers,
    OCTET STRING and BOOLEAN. *)
Theorem der_values_written fuel a tmp u i data value :
  (1 < fuel)%nat -> 0 <= u < 2 ^ 64 -> - 2 ^ 63 <= i < 2 ^ 63 -> zlen data <= 4294967294 ->
  appends_via fuel tmp a (der 2 (int_bytes u)) (CBB_add_asn1_uint64 fuel a tmp u) /\
  appends_via fuel tmp a (der 2 (int_bytes i)) (CBB_add_asn1_int64 fuel a tmp i) /\
  appends_via fuel tmp a (der 4 data) (CBB_add_asn1_octet_string fuel a tmp data (zlen data)) /\
  appends_via fuel tmp a (der 1 (bool_bytes value)) (CBB_add_asn1_bool fuel a tmp value).
Proof.
  intros Hf Hu Hi Hd.
  split; [apply appends_asn1_uint64; lia|]. split; [apply appends_asn1_int64; lia|].
  split; [apply appends_asn1_octet_string; lia|apply appends_asn1_bool; lia].
Qed.

(** C38: the error flag is sticky: once it is set, [CBB_flush], [CBB_finish],
    [CBB_reserve] and every operation that appends to a [CBB] of the buffer or
    opens a child (bytes, zeros, room, integers of either byte order,
    length-prefixed and ASN.1 children, base-128 and DER values, object
    identifiers, the sorting of a SET OF) fails and changes nothing.
    [CBB_did_write] and [CBB_discard_child] do not look at the flag. *)
Theorem error_sticky fuel a s c out n value sign data tag tmp flag :
  cbbs s !! a = Some c -> base c <> 0 -> broken (base c) s ->
  CBB_flush (S fuel) a s = Fail s /\ CBB_finish (S fuel) a s = Fail s /\
  CBB_add_space (S fuel) a n s = Fail s /\ CBB_reserve (S fuel) a n s = Fail s /\
  Forall (fun op : K unit => op s = Fail s)
    [CBB_add_bytes (S fuel) a data n; CBB_add_zeros (S fuel) a n; add_u (S fuel) a value n;
     CBB_add_u16le (S fuel) a value; CBB_add_u32le (S fuel) a value; CBB_add_u64le (S fuel) a value;
     cbb_add_length_prefixed (S fuel) a out n; CBB_add_asn1 (S fuel) a out tag;
     add_base128_integer (S fuel) a value; CBB_add_asn1_uint64 (S fuel) a tmp value;
     CBB_add_asn1_int64 (S fuel) a tmp sign; CBB_add_asn1_octet_string (S fuel) a tmp data n;
     CBB_add_asn1_bool (S fuel) a tmp flag; CBB_add_asn1_oid_from_text (S fuel) a data n;
     CBB_flush_asn1_set_of (S fuel) a].
Proof.
  intros Hc Hb Hbr. pose proof (flush_broken fuel a s c Hc Hb Hbr) as Hf.
  assert (forall B (k : unit -> K B), bind (flush (S fuel) a) k s = Fail s) as Hfl by (intros B k; by apply bind_fail).
  assert (forall m, add_u (S fuel) a value m s = Fail s) as Hu by (intros m; apply Hfl).
  assert (forall t, CBB_add_asn1 (S fuel) a tmp t s = Fail s) as Ha by (intros t; apply Hfl).
  assert (CBB_add_asn1_uint64 (S fuel) a tmp sign s = Fail s) as Hd by (by apply bind_fail).
  split; [exact Hf|]. split; [|split; [apply Hfl|split; [apply Hfl|]]].
  - unfold CBB_finish. rewrite (bind_done _ _ _ _ _ (get_cbb_spec _ _ _ Hc)).
    destruct (is_child c); [done|]. apply Hfl.
  - repeat apply Forall_cons_2; try apply Forall_nil_2; try apply Hfl; try by apply bind_fail.
    + apply bind_fail, Hfl.
    + unfold add_base128_integer. destruct (base128_len 10 value); apply bind_fail, Hfl.
    + unfold CBB_add_asn1_int64. destruct (0 <=? sign); [done|]. by apply bind_fail.
Qed.

(** [CBB_did_write] succeeds on a broken buffer as on any other: the flag is
    not looked at. *)
Lemma did_write_ignores_error a n s c v :
  cbbs s !! a = Some c -> child c = 0 -> bases s !! base c = Some v ->
  0 <= b_len v -> 0 <= n -> b_len v + n <= b_cap v -> b_cap v < 2 ^ 64 ->
  CBB_did_write a n s = Done tt (upd (base c) (set_len (b_len v + n) v) s).
Proof.
  intros Hc Hch Hv Hl Hn Hle Hcap. unfold CBB_did_write.
  rewrite (bind_done _ _ _ _ _ (get_cbb_spec _ _ _ Hc)), (bind_done _ _ _ _ _ (get_base_spec _ _ _ Hv)), Hch.
  rewrite u64_small by lia. rewrite !(proj2 (Z.ltb_ge _ _)) by lia. apply put_base_spec.
Qed.

(** What [op] appends to a fresh builder is what [CBB_finish] gives. *)
Lemma built (op : K unit) fuel a tmp cap l s :
  (0 < fuel)%nat -> 0 <= cap < 2 ^ 64 -> tmp <> 0 -> tmp <> a -> zlen l < 2 ^ 64 ->
  appends_via fuel tmp a l op ->
  match (CBB_init a cap;;; op;;; CBB_finish fuel a) s with
  | Done (buf, len) _ => len = zlen l /\ exists spare, buf = l ++ spare
  | Fail _ => out_of_memory
  | _ => False
  end.
Proof.
  intros Hf Hcap Ht Hta Hl Hop. unfold bind at 1. pose proof (CBB_init_spec a cap s Hcap) as Hi.
  destruct (CBB_init a cap s) as [u s1|s1|u|]; try done. destruct Hi as (b & v & Hr & Hres & Hlen).
  assert (forall w, grown v w (zlen l) -> forall n, n = 0 -> blocked w n -> out_of_memory) as Hw.
  { intros w [g1 g2 g3] n -> [Hx|[_ [Hx|Hx]]]; [lia|congruence|by right; right]. }
  specialize (Hop [] (root_frame a []) [] s1 b v eq_refl ltac:(cbn; lia) Hr Ht
    ltac:(by intros [|[]])).
  unfold bind, appended in *. change (text []) with (@nil byte) in Hop.
  destruct (op s1) as [? s2|s2|?|]; try done.
  2:{ destruct Hop as [Hb _]. destruct (Hb [] eq_refl) as [Hx|[_ [Hx|Hx]]];
        [revert Hx; zl|congruence|by right; right]. }
  destruct Hop as (c & v' & [= <-] & Hr2 & Hg). cbn [app] in Hr2.
  pose proof (CBB_finish_spec fuel a l [] s2 b v' Hf Hr2) as Hfin.
  destruct (CBB_finish fuel a s2) as [[buf len] s3|s3|?|]; try done.
  - destruct Hfin as (c & [= <-] & -> & Htake & Hz). rewrite app_nil_r in *. split; [done|].
    exists (drop (length l) buf). unfold zlen in Htake. rewrite Nat2Z.id in Htake.
    rewrite <- Htake at 1. by rewrite take_drop.
  - specialize (Hfin [] eq_refl). change (text []) with (@nil byte) in Hfin.
    refine (Hw v' _ _ _ Hfin); [|zl]. apply (grown_weaken _ _ _ Hg). zl.
Qed.

(** The value that [op] builds is read back by [rd], and nothing is left. *)
Definition reads_back {A} (rd : C A) (x : A) (o : outcome cstate (list byte * Z)) : Prop :=
  match o with
  | Done (buf, len) _ =>
      match rd (CBS_init buf len) with
      | Done y t => y = x /\ cbs_len t = 0
      | _ => False
      end
  | Fail _ => out_of_memory
  | _ => False
  end.

Lemma built_reads_back {A} tag enc valid decode (rd : C A) (x : A) (op : K unit) fuel a tmp cap s :
  (0 < fuel)%nat -> 0 <= cap < 2 ^ 64 -> tmp <> 0 -> tmp <> a -> 0 <= tag < 2 ^ 32 ->
  zlen (enc x) < 2 ^ 32 -> valid x -> decodes_body tag decode rd ->
  (forall l a, decode l = Some a <-> valid a /\ l = enc a) ->
  appends_via fuel tmp a (der tag (enc x)) op ->
  reads_back rd x ((CBB_init a cap;;; op;;; CBB_finish fuel a) s).
Proof.
  intros Hf Hcap Ht Hta Htag Hx Hval Hrd Hdec Hop.
  assert (zlen (der tag (enc x)) < 2 ^ 32 + 11) as Hz.
  { unfold der, der_header. rewrite !zlen_app. pose proof (zlen_nonneg (enc x)).
    pose proof (der_tag_length tag Htag). pose proof (der_len_length (zlen (enc x)) ltac:(lia)). lia. }
  pose proof (built op fuel a tmp cap (der tag (enc x)) s Hf Hcap Ht Hta ltac:(lia) Hop) as Hb.
  destruct ((CBB_init a cap;;; op;;; CBB_finish fuel a) s) as [[buf len] t|t|u|]; try done.
  destruct Hb as (-> & spare & ->). unfold reads_back, CBS_init. pose proof (zlen_nonneg spare).
  rewrite (decodes_body_read tag enc valid decode) by (done || rewrite ?zlen_app; lia).
  split; [done|]. cbn. lia.
Qed.

(** C10: round trips between the builder and the reader: an INTEGER written by
    [CBB_add_asn1_uint64] or [CBB_add_asn1_int64] and a BOOLEAN written by
    [CBB_add_asn1_bool] into a fresh builder are read back unchanged from
    the finished buffer, with nothing left over; only libc's allocator can
    make the whole fail. *)
Theorem der_values_roundtrip fuel a tmp cap u i value s :
  (1 < fuel)%nat -> 0 <= cap < 2 ^ 64 -> tmp <> 0 -> tmp <> a ->
  0 <= u < 2 ^ 64 -> - 2 ^ 63 <= i < 2 ^ 63 ->
  reads_back CBS_get_asn1_uint64 u
    ((CBB_init a cap;;; CBB_add_asn1_uint64 fuel a tmp u;;; CBB_finish fuel a) s) /\
  reads_back CBS_get_asn1_int64 i
    ((CBB_init a cap;;; CBB_add_asn1_int64 fuel a tmp i;;; CBB_finish fuel a) s) /\
  reads_back CBS_get_asn1_bool value
    ((CBB_init a cap;;; CBB_add_asn1_bool fuel a tmp value;;; CBB_finish fuel a) s).
Proof.
  intros Hf Hcap Ht Hta Hu Hi. assert (0 < fuel)%nat as Hf0 by lia.
  split; [|split].
  - apply (built_reads_back 2 int_bytes (fun v => 0 <= v < 2 ^ 64) dec_uint CBS_get_asn1_uint64 _ _ fuel a tmp cap s); try done.
    + pose proof (int_bytes_max u ltac:(lia)). lia.
    + apply uint64_decodes.
    + apply dec_uint_iff.
    + by apply appends_asn1_uint64.
  - apply (built_reads_back 2 int_bytes (fun v => - 2 ^ 63 <= v < 2 ^ 63) dec_int CBS_get_asn1_int64 _ _ fuel a tmp cap s); try done.
    + pose proof (int_bytes_max i ltac:(lia)). lia.
    + apply int64_decodes.
    + apply dec_int_iff.
    + by apply appends_asn1_int64.
  - apply (built_reads_back 1 bool_bytes (fun _ => True) dec_bool CBS_get_asn1_bool _ _ fuel a tmp cap s); try done.
    + apply bool_decodes.
    + apply dec_bool_iff.
    + by apply appends_asn1_bool.
Qed.
End Properties.

(** ** Witnesses *)
Import Sample.

Definition run (op : K unit) (s : cstate) : cstate := match op s with Done _ t => t | _ => s end.

(** The sample with an open SEQUENCE at the address 6. *)
Definition open_state : cstate := run (CBB_add_asn1 4 5 6 536870928) sample_state.

Definition open_frames : list frame := [root_frame 5 [zb 48]; mk_frame 6 1 true true []].

Lemma open_repr : exists v, repr open_state 1 v open_frames /\ can_resize v = true.
Proof.
  destruct sample_repr as (v & Hr & Hc).
  pose proof (opens_asn1 4 ltac:(lia) 5 6 536870928 ltac:(lia) [] (root_frame 5 []) [] _ _ _ eq_refl
    ltac:(cbn; lia) Hr ltac:(done) ltac:(by intros [|[]])) as Ho.
  change (CBB_add_asn1 4 5 6 536870928 sample_state) with (Done tt open_state) in Ho.
  destruct Ho as (c & v' & [= <-] & Hr' & [_ _ Hres]). exists v'. split; [exact Hr'|congruence].
Qed.

Lemma flush_refines_witness : exists v,
  flushed (CBB_flush 4 5 open_state) 1 v []
    (root_frame 5 [zb 48]) [mk_frame 6 1 true true []].
Proof.
  destruct open_repr as (v & Hr & _). exists v.
  apply (flush_refines 4 [mk_frame 6 1 true true []] [] (root_frame 5 [zb 48])).
  - exact Hr.
  - cbn. lia.
Defined.

Lemma appends_exact_witness : exists v,
  appended (CBB_add_u32le 4 5 258 open_state) (map zb [2; 1; 0; 0]) 1 v []
    (root_frame 5 [zb 48]) [mk_frame 6 1 true true []].
Proof.
  destruct open_repr as (v & Hr & _). exists v.
  destruct (appends_exact 4 5 [] 258 0 ltac:(lia) ltac:(by vm_compute) ltac:(lia) ltac:(lia))
    as (_ & _ & _ & _ & _ & _ & _ & _ & Ha & _).
  apply (Ha [] (root_frame 5 [zb 48]) [mk_frame 6 1 true true []]); [done|cbn; lia|exact Hr].
Defined.

Lemma add_u_refuses_witness :
  match CBB_add_u24 4 6 16777216 open_state with Fail t => broken 1 t | _ => False end.
Proof.
  destruct open_repr as (v & Hr & _).
  apply (add_u_refuses 4 6 16777216 3 [root_frame 5 [zb 48]] (mk_frame 6 1 true true []) open_state 1 v);
    try lia; [reflexivity|exact Hr].
Defined.

Lemma opens_exact_witness : exists v,
  opened (CBB_add_asn1 4 6 7 8000 open_state) (der_tag 8000)
    (mk_frame 7 1 true true []) 1 v [root_frame 5 [zb 48]] (mk_frame 6 1 true true []) [].
Proof.
  destruct open_repr as (v & Hr & _). exists v.
  destruct (opens_exact 4 6 7 8000 2 ltac:(lia) ltac:(lia) ltac:(lia)) as [Ho _].
  apply Ho; [done|cbn; lia|exact Hr|done|]. cbn. intros [|[|[]]]; discriminate.
Defined.

Lemma der_values_written_witness : exists v,
  appended (CBB_add_asn1_int64 4 6 7 (-129) open_state)
    (map zb [2; 2; 255; 127]) 1 v [root_frame 5 [zb 48]] (mk_frame 6 1 true true []) [].
Proof.
  destruct open_repr as (v & Hr & _). exists v.
  destruct (der_values_written 4 6 7 0 (-129) [] true ltac:(lia) ltac:(lia) ltac:(lia)
    ltac:(by vm_compute)) as (_ & Hi & _).
  apply Hi; [done|cbn; lia|exact Hr|done|]. cbn. intros [|[|[]]]; discriminate.
Defined.

(** The sample after a value that did not fit. *)
Definition broken_state : cstate :=
  match CBB_add_u24 4 5 16777216 sample_state with Fail t => t | _ => sample_state end.

Lemma error_sticky_witness :
  CBB_finish 4 5 broken_state = Fail broken_state.
Proof.
  apply (error_sticky 3 5 broken_state (mk_cbb 1 0 0 0 false false) 6 0 0 0 [] 48 7 true);
    [reflexivity|done|]. eexists. split; reflexivity.
Defined.

(** The broken sample takes one byte more all the same. *)
Lemma did_write_after_error :
  CBB_flush 4 5 broken_state = Fail broken_state /\
  exists t, CBB_did_write 5 1 broken_state = Done tt t /\
    option_map b_len (bases t !! 1) = option_map (fun v => b_len v + 1) (bases broken_state !! 1).
Proof. split; [reflexivity|]. eexists. split; vm_compute; reflexivity. Qed.

Lemma der_values_roundtrip_witness :
  reads_back CBS_get_asn1_int64 (- 9223372036854775808)
    ((CBB_init 5 0;;;
      CBB_add_asn1_int64 4 5 6 (- 9223372036854775808);;;
      CBB_finish 4 5) Sample.nothing).
Proof.
  destruct (der_values_roundtrip 4 5 6 0 0 (- 9223372036854775808) true nothing
    ltac:(lia) ltac:(lia) ltac:(lia) ltac:(lia) ltac:(lia) ltac:(lia)) as (_ & H & _).
  exact H.
Defined.

(** * [CBB_cleanup] *)
(** ** Cleaning up after an error *)
Section Cleanup.
Context `{CbbAllocator}.

(** [CBB_cleanup] on [a] is defined. *)
Definition cleanable (a : Z) (s : cstate) : Prop :=
  match cbbs s !! a with
  | Some c => is_child c = false /\ (base c = 0 \/ is_Some (bases s !! base c))
  | None => False
  end.

Definition cleans {A} (a : Z) (op : K A) : Prop := forall s, cleanable a s ->
  match op s with Done _ t | Fail t => cleanable a t | _ => True end.

Lemma cleanup_spec a s : cleanable a s -> exists t, CBB_cleanup a s = Done tt t.
Proof.
  unfold cleanable, CBB_cleanup. destruct (cbbs s !! a) as [c|] eqn:E; [|done]. intros Hc.
  unfold bind at 1. rewrite (get_cbb_spec s a c E). destruct Hc as [Hch Hc]. rewrite bind_assert by (by rewrite Hch). rewrite Hch.
  destruct (Z.eqb_spec (base c) 0); cbn [negb]; [by eexists|]. destruct Hc as [?|[v Hv]]; [done|].
  unfold bind at 1 2. rewrite (get_base_spec _ _ _ Hv). by eexists.
Qed.

Lemma cleans_bind {A B} a (m : K A) (k : A -> K B) : cleans a m -> (forall x, cleans a (k x)) -> cleans a (bind m k).
Proof.
  intros Hm Hk s Hs. specialize (Hm s Hs). unfold bind. destruct (m s) as [x t|t|u|]; try done. by apply Hk.
Qed.

Lemma cleans_ret {A} a (x : A) : cleans a (ret x). Proof. by intros s. Qed.
Lemma cleans_failed {A} a : cleans a (failed : K A). Proof. by intros s. Qed.
Lemma cleans_undef {A} a u : cleans a (undef u : K A). Proof. by intros s. Qed.
Lemma cleans_run_cbs {A} a c (op : C A) : cleans a (run_cbs c op).
Proof. intros s Hs. unfold run_cbs. by destruct (op c). Qed.
Lemma cleans_get_cbb a x : cleans a (get_cbb x).
Proof. intros s Hs. unfold get_cbb, bind, gets. by destruct (cbbs s !! x). Qed.
Lemma cleans_get_base a b : cleans a (get_base b).
Proof. intros s Hs. unfold get_base, bind, gets. by destruct (bases s !! b). Qed.
Lemma cleans_put_base a b v : cleans a (put_base b v).
Proof.
  intros s Hs. unfold put_base, modify, cleanable in *. cbn. destruct (cbbs s !! a) as [c|]; [|done].
  destruct Hs as [? [?|?]]; (split; [done|]); [by left|right].
  destruct (decide (b = base c)) as [->|]; [rewrite lookup_insert_eq|rewrite lookup_insert_ne by done]; by eauto.
Qed.
Lemma cleans_attempt {A} a (op : K A) : cleans a op -> cleans a (attempt op).
Proof. intros Hop s Hs. specialize (Hop s Hs). unfold attempt. by destruct (op s). Qed.

(** What [CBB_flush] and [new_child] store keeps it. *)
Lemma cleans_put_cbb a x c : x <> a -> cleans a (put_cbb x c).
Proof. intros Hx s Hs. unfold put_cbb, modify, cleanable in *. cbn. by rewrite lookup_insert_ne. Qed.

Lemma cleans_assert a b : cleans a (assert b : K unit).
Proof. intros s Hs. by destruct b. Qed.

Lemma cleans_set_child a x y : cleans a (let* c := get_cbb x in put_cbb x (set_child y c)).
Proof.
  intros s Hs. unfold bind. destruct (cbbs s !! x) as [c|] eqn:E.
  2: { unfold get_cbb, bind, gets. by rewrite E. }
  rewrite (get_cbb_spec s x c E). unfold put_cbb, modify, cleanable in *. cbn. destruct (decide (x = a)) as [->|].
  - rewrite lookup_insert_eq. by rewrite E in Hs.
  - by rewrite lookup_insert_ne.
Qed.

(** [write_length] gives back the child, or not a child, that it was given. *)
Definition yields {A} (P : A -> Prop) (op : K A) : Prop := forall s, match op s with Done a _ => P a | _ => True end.

Lemma yields_bind {A B} (P : A -> Prop) (Q : B -> Prop) (m : K A) (k : A -> K B) :
  yields P m -> (forall x, P x -> yields Q (k x)) -> yields Q (bind m k).
Proof.
  intros Hm Hk s. specialize (Hm s). unfold bind. destruct (m s) as [x t|t|u|]; try done. by apply Hk.
Qed.
Lemma yields_any {A} (op : K A) : yields (fun _ => True) op.
Proof. intros s. by destruct (op s). Qed.

Lemma yields_write_length b c i n : yields (fun c' => is_child c' = is_child c) (write_length b c i n).
Proof.
  unfold write_length. apply (yields_bind (fun r => is_child (fst r) = is_child c)).
  - destruct (pending_is_asn1 c); [|by intros s]. eapply yields_bind; [apply yields_any|]. intros _ _.
    destruct (asn1_len_form n) as [[[ll ib] l]|]; [|by intros s].
    eapply yields_bind; [apply yields_any|]. intros _ _. eapply yields_bind; [apply yields_any|]. by intros _ _ s.
  - intros [c' l] Hc. destruct (be_loop _ l) as [bs l']. eapply yields_bind; [apply yields_any|]. intros _ _ s.
    by destruct (negb _).
Qed.
End Cleanup.

Create HintDb cleans.
#[export] Hint Resolve cleans_assert cleans_ret cleans_failed cleans_undef cleans_run_cbs cleans_get_cbb cleans_get_base cleans_put_base : cleans.
#[export] Hint Extern 1 (_ <> _) => congruence : cleans.
Ltac cleans_step :=
  lazymatch goal with
  | |- cleans _ (bind (get_cbb ?x) (fun c => put_cbb ?x (set_child _ c))) => apply cleans_set_child
  | |- cleans _ (bind _ _) => apply cleans_bind; [|intros ?]
  | |- cleans _ (attempt _) => apply cleans_attempt
  | |- cleans _ (put_cbb _ _) => apply cleans_put_cbb
  | |- cleans _ (match ?x with _ => _ end) => destruct x
  | |- cleans _ (let _ := _ in _) => cbv zeta
  end.
Ltac cleans := repeat (first [solve [eauto with cleans]|cleans_step]); eauto with cleans.

Section Keeps.
Context `{CbbAllocator}.
Variable flush_fuel : nat.
Variable a : Z.

Lemma cleans_error {A} b : cleans a (@base_error A b). Proof. unfold base_error. cleans. Qed.
Hint Resolve cleans_error : cleans.
Lemma cleans_reserve b n : cleans a (cbb_buffer_reserve b n). Proof. unfold cbb_buffer_reserve. cleans. Qed.
Hint Resolve cleans_reserve : cleans.
Lemma cleans_buffer_add b n : cleans a (cbb_buffer_add b n). Proof. unfold cbb_buffer_add. cleans. Qed.
Hint Resolve cleans_buffer_add : cleans.
Lemma cleans_store b i l : cleans a (buf_store b i l). Proof. unfold buf_store. cleans. Qed.
Hint Resolve cleans_store : cleans.
Lemma cleans_load b i n : cleans a (buf_load b i n). Proof. unfold buf_load. cleans. Qed.
Hint Resolve cleans_load : cleans.
Lemma cleans_write_length b c i n : cleans a (write_length b c i n). Proof. unfold write_length. cleans. Qed.
Hint Resolve cleans_write_length : cleans.
(** The end of [CBB_flush], which clears the base of the child. *)
Lemma cleans_written x b i n {A} (fail : K A) (k : K A) : cleans a fail -> cleans a k ->
  cleans a (let* ch := get_cbb x in
            let* r := attempt (write_length b ch i n) in
            match r with None => fail | Some ch => put_cbb x (set_cbb_base 0 ch);;; k end).
Proof.
  intros Hfail Hk s Hs. unfold bind at 1. pose proof (cleans_get_cbb a x s Hs) as Hg.
  destruct (get_cbb x s) as [ch t|t|u|] eqn:Eg; try done.
  assert (t = s /\ cbbs s !! x = Some ch) as [-> Ex].
  { revert Eg. unfold get_cbb, bind, gets, of_option. destruct (cbbs s !! x); [|done]. by intros [= -> ->]. }
  pose proof (cleans_write_length b ch i n s Hs) as Hw. pose proof (yields_write_length b ch i n s) as Hy.
  unfold bind at 1, attempt. destruct (write_length b ch i n s) as [ch' t|t|u|]; try done; [|by apply Hfail].
  unfold bind. assert (cleanable a (mk_cstate (<[x := set_cbb_base 0 ch']> (cbbs t)) (bases t))) as Hc; [|by apply Hk].
  unfold cleanable in *. cbn. destruct (decide (x = a)) as [->|]; [|by rewrite lookup_insert_ne].
  rewrite lookup_insert_eq. rewrite Ex in Hs. cbn. rewrite Hy. destruct Hs as [-> _]. split; [done|by left].
Qed.

Lemma cleans_flush n : forall x, cleans a (CBB_flush n x).
Proof.
  induction n as [|n IH]; intros x; cbn [CBB_flush]; [done|].
  repeat (first [solve [eauto with cleans]|apply cleans_written|cleans_step]).
Qed.
Hint Resolve cleans_flush : cleans.
Lemma cleans_add_u x v n : cleans a (add_u flush_fuel x v n).
Proof. unfold add_u, cbb_buffer_add_u, flush. cleans. Qed.
Hint Resolve cleans_add_u : cleans.
Lemma cleans_digits n : forall x v, cleans a (base128_digits flush_fuel n x v).
Proof. induction n as [|n IH]; intros x v; cbn [base128_digits]; unfold CBB_add_u8; cleans. Qed.
Hint Resolve cleans_digits : cleans.
Lemma cleans_asn1 x out tag : out <> a -> cleans a (CBB_add_asn1 flush_fuel x out tag).
Proof. intros Hout. unfold CBB_add_asn1, new_child, flush, add_base128_integer, CBB_add_u8. cleans. Qed.
Hint Resolve cleans_asn1 : cleans.
Lemma cleans_bytes x l n : cleans a (CBB_add_bytes flush_fuel x l n).
Proof. unfold CBB_add_bytes, CBB_add_space, flush. cleans. Qed.
Hint Resolve cleans_bytes : cleans.

End Keeps.

#[export] Hint Resolve cleans_error cleans_reserve cleans_buffer_add cleans_store cleans_load cleans_write_length
  cleans_flush cleans_add_u cleans_digits cleans_asn1 cleans_bytes : cleans.

Lemma repr_cleanable `{CbbAllocator} s b v a body : repr s b v [root_frame a body] -> cleanable a s.
Proof.
  intros Hr. pose proof (repr_frame s b v [] _ _ Hr) as Hf. cbn in Hf. destruct Hr as [_ Hv _ _ _ _ _].
  unfold cleanable. rewrite Hf. split; [done|]. right. by exists v.
Qed.

Section Init.
Context `{AllocatorLaws}.

Lemma init_cleanable a cap s : match CBB_init a cap s with Done _ t | Fail t => cleanable a t | _ => True end.
Proof.
  assert (forall buf t, cbbs t !! a = Some cbb_zero -> cleanable a t /\
    match cbb_init a buf cap t with Done _ t' | Fail t' => cleanable a t' | _ => True end) as Hi.
  { intros buf t Ht. assert (cleanable a t) as Hc by (unfold cleanable; rewrite Ht; split; [done|by left]). split; [done|].
    unfold cbb_init, bind, gets. destruct (c_new_base (bases t)) as [b|]; [|done].
    rewrite put_base_spec, (get_cbb_spec _ a cbb_zero) by exact Ht. unfold put_cbb, modify, cleanable. cbn.
    rewrite lookup_insert_eq. cbn. rewrite lookup_insert_eq. split; [done|]. right. by eexists. }
  unfold CBB_init, CBB_zero, put_cbb. rewrite bind_modify. set (s1 := mk_cstate _ _).
  assert (cbbs s1 !! a = Some cbb_zero) as Hz by apply lookup_insert_eq.
  destruct (c_malloc cap) as [buf|]; [by apply Hi|]. destruct (0 <? cap); [by apply (Hi [])|by apply Hi].
Qed.

Lemma finish_cleanable fuel a s : cleanable a s -> match CBB_finish fuel a s with Fail t => cleanable a t | _ => True end.
Proof.
  intros Hs. unfold CBB_finish, flush.
  enough (cleans a (let* c := get_cbb a in if is_child c then failed else CBB_flush fuel a)) as Hk.
  { specialize (Hk s Hs). unfold bind in *. destruct (get_cbb a s) as [c t|t|u|]; try done. destruct (is_child c); [done|].
    destruct (CBB_flush fuel a t) as [x t'|t'|u|]; try done. destruct (get_base (base c) t') as [v t2|t2|u|] eqn:E; try done.
    2: { revert E. unfold get_base, bind, gets. by destruct (bases t' !! base c). }
    rewrite put_base_spec. unfold CBB_cleanup, bind, get_cbb, gets, of_option. cbn.
    destruct (cbbs t2 !! a) as [c'|]; [|done]. cbn. destruct (is_child c'); [done|]. destruct (base c' =? 0); [done|]. cbn.
    unfold get_base, bind, gets, of_option. cbn. by destruct (_ !! _). }
  cleans.
Qed.
End Init.
