(* ===== verification/Unicode.v ===== *)
(** BoringSSL, [crypto/bytestring/unicode.c]: the readers of single code points
    in UTF-8, Latin-1, UCS-2 and UTF-32, on the model of [CBS], and the writers,
    on the model of [CBB]. *)
From S2P Require Import Prelude.
From S2P Require Import Cbs.
From S2P Require Import Cbb.

Definition is_valid_code_point (v : Z) : bool :=
  negb ((1114111 <? v) || (Z.land v 65534 =? 65534) || ((64976 <=? v) && (v <=? 65007))
        || ((55296 <=? v) && (v <=? 57343))).

Definition BOTTOM_BITS (n : Z) : Z := u8 (u32 (Z.shiftl 1 n) - 1).
Definition TOP_BITS (n : Z) : Z := u8 (Z.lnot (BOTTOM_BITS (8 - n))).

(** ** The readers *)
(** [for (size_t i = 0; i < len; i++)] *)
Fixpoint utf8_loop (len : nat) (v : Z) : C Z :=
  match len with
  | O => ret v
  | S len =>
      let* c := CBS_get_u8 in
      if negb (Z.land c (TOP_BITS 2) =? TOP_BITS 1) then failed
      else utf8_loop len (Z.lor (u32 (Z.shiftl v 6)) (Z.land c (BOTTOM_BITS 6)))
  end.

(** [v], [len] and [lower_bound], from the lead byte. *)
Definition utf8_lead (c : Z) : option (Z * nat * Z) :=
  if Z.land c (TOP_BITS 3) =? TOP_BITS 2 then Some (Z.land c (BOTTOM_BITS 5), 1%nat, 128)
  else if Z.land c (TOP_BITS 4) =? TOP_BITS 3 then Some (Z.land c (BOTTOM_BITS 4), 2%nat, 2048)
  else if Z.land c (TOP_BITS 5) =? TOP_BITS 4 then Some (Z.land c (BOTTOM_BITS 3), 3%nat, 65536)
  else None.

Definition cbs_get_utf8 : C Z :=
  let* c := CBS_get_u8 in
  if c <=? 127 then ret c
  else
    match utf8_lead c with
    | None => failed
    | Some (v, len, lower_bound) =>
        let* v := utf8_loop len v in
        if negb (is_valid_code_point v) || (v <? lower_bound) then failed else ret v
    end.

Definition cbs_get_latin1 : C Z := CBS_get_u8.

Definition cbs_get_ucs2_be : C Z :=
  let* c := CBS_get_u16 in
  if negb (is_valid_code_point c) then failed else ret c.

Definition cbs_get_utf32_be : C Z :=
  let* c := CBS_get_u32 in
  if is_valid_code_point c then ret c else failed.

(** ** The writers *)
Definition cbb_get_utf8_len (u : Z) : Z :=
  if u <=? 127 then 1 else if u <=? 2047 then 2 else if u <=? 65535 then 3 else 4.

Section Writers.
Context `{CbbAllocator} (fuel : nat).

(** [CBB_add_u8] of an expression of type [uint32_t]. *)
Definition add_byte (cbb v : Z) : K unit := CBB_add_u8 fuel cbb (u8 v).

Definition continuation_of (u sh : Z) : Z := Z.lor (TOP_BITS 1) (Z.land (Z.shiftr u sh) (BOTTOM_BITS 6)).

Definition cbb_add_utf8 (cbb u : Z) : K unit :=
  if negb (is_valid_code_point u) then failed
  else if u <=? 127 then add_byte cbb u
  else if u <=? 2047 then
    add_byte cbb (Z.lor (TOP_BITS 2) (Z.shiftr u 6));;;
    add_byte cbb (continuation_of u 0)
  else if u <=? 65535 then
    add_byte cbb (Z.lor (TOP_BITS 3) (Z.shiftr u 12));;;
    add_byte cbb (continuation_of u 6);;;
    add_byte cbb (continuation_of u 0)
  else if u <=? 1114111 then
    add_byte cbb (Z.lor (TOP_BITS 4) (Z.shiftr u 18));;;
    add_byte cbb (continuation_of u 12);;;
    add_byte cbb (continuation_of u 6);;;
    add_byte cbb (continuation_of u 0)
  else failed.

Definition cbb_add_latin1 (cbb u : Z) : K unit :=
  if u <=? 255 then add_byte cbb u else failed.

Definition cbb_add_ucs2_be (cbb u : Z) : K unit :=
  if (u <=? 65535) && is_valid_code_point u then CBB_add_u16 fuel cbb (u16 u) else failed.

Definition cbb_add_utf32_be (cbb u : Z) : K unit :=
  if is_valid_code_point u then CBB_add_u32 fuel cbb u else failed.
End Writers.
