(* ===== verification/UnicodeProofs.v ===== *)
(** BoringSSL, [crypto/bytestring/unicode.c]: the readers accept exactly the
    encodings of the code points that are valid, and the writers append them. *)
From S2P Require Import Prelude.
From S2P Require Import Utf8.
From S2P Require Import Cbs.
From S2P Require Import Cbb.
From S2P Require Import CbsProofs.
From S2P Require Import CbsDer.
From S2P Require Import CbbProofs.
From S2P Require Import Unicode.

#[local] Set Warnings "-clear-no-such-hyp".

(** ** Valid code points *)
(** A scalar value that is no noncharacter (Unicode 9.0, section 23.7). *)
Definition code_point (v : Z) : Prop :=
  scalar v /\ ~ 64976 <= v <= 65007 /\ v mod 65536 < 65534.

Lemma land_65534 v : Z.land v 65534 = 2 * ((v / 2) mod 32768).
Proof.
  change 32768 with (2 ^ 15). rewrite <- Z.land_ones by lia. apply Z.bits_inj'. intros n Hn.
  rewrite Z.land_spec. destruct (Z.eq_dec n 0) as [->|].
  - by rewrite Z.testbit_even_0, andb_false_r.
  - replace n with (Z.succ (n - 1)) by lia. rewrite Z.testbit_even_succ, Z.land_spec by lia.
    change 65534 with (2 * Z.ones 15). rewrite Z.testbit_even_succ by lia. f_equal.
    rewrite <- Z.div2_div, Z.div2_spec, Z.shiftr_spec by lia. f_equal.
Qed.

Lemma valid_spec v : 0 <= v -> is_valid_code_point v = true <-> code_point v.
Proof.
  intros Hv. unfold is_valid_code_point, code_point, scalar. rewrite land_65534.
  rewrite negb_true_iff, !orb_false_iff, !andb_false_iff, !Z.leb_gt, Z.ltb_ge, Z.eqb_neq.
  assert (2 * ((v / 2) mod 32768) <> 65534 <-> v mod 65536 < 65534) as -> by (split; zdm).
  lia.
Qed.

(** ** Bits of a byte *)
Lemma lead_bits c : 0 <= c < 256 ->
  utf8_lead c =
  if (192 <=? c) && (c <? 224) then Some (c - 192, 1%nat, 128)
  else if (224 <=? c) && (c <? 240) then Some (c - 224, 2%nat, 2048)
  else if (240 <=? c) && (c <? 248) then Some (c - 240, 3%nat, 65536)
  else None.
Proof.
  intros Hc. pose proof (forall_byte (fun c => bool_decide (utf8_lead c =
    if (192 <=? c) && (c <? 224) then Some (c - 192, 1%nat, 128)
    else if (224 <=? c) && (c <? 240) then Some (c - 224, 2%nat, 2048)
    else if (240 <=? c) && (c <? 248) then Some (c - 240, 3%nat, 65536)
    else None)) ltac:(by vm_compute) c Hc) as H. by apply bool_decide_eq_true in H.
Qed.

Lemma continuation_bits c : 0 <= c < 256 ->
  (Z.land c (TOP_BITS 2) =? TOP_BITS 1) = (128 <=? c) && (c <? 192) /\ Z.land c (BOTTOM_BITS 6) = c mod 64.
Proof.
  intros Hc. split.
  - pose proof (forall_byte (fun c => Bool.eqb (Z.land c (TOP_BITS 2) =? TOP_BITS 1) ((128 <=? c) && (c <? 192)))
      ltac:(by vm_compute) c Hc) as H. by apply eqb_prop in H.
  - pose proof (forall_byte (fun c => Z.land c (BOTTOM_BITS 6) =? c mod 64) ltac:(by vm_compute) c Hc) as H.
    by apply Z.eqb_eq in H.
Qed.

(** ** The continuation bytes *)
Definition cont (b : byte) : Prop := 128 <= bz b < 192.

Fixpoint conts_val (v : Z) (l : list byte) : Z :=
  match l with
  | [] => v
  | b :: l => conts_val (64 * v + bz b mod 64) l
  end.

Lemma cont_step v b : 0 <= v < 2 ^ 26 ->
  Z.lor (u32 (Z.shiftl v 6)) (Z.land (bz b) (BOTTOM_BITS 6)) = 64 * v + bz b mod 64.
Proof.
  intros Hv. destruct (continuation_bits (bz b) (bz_range b)) as [_ ->].
  rewrite u32_small by (rewrite Z.shiftl_mul_pow2 by lia; lia).
  pose proof (Z.mod_pos_bound (bz b) 64 ltac:(lia)).
  rewrite Z.lor_comm, lor_low_shifted by (change (2 ^ 6) with 64; lia). lia.
Qed.

Lemma cont_room v m (n : Z) : 0 <= v -> 0 <= m < 64 -> 0 <= n -> (v + 1) * 64 ^ (1 + n) <= 2 ^ 26 ->
  v < 2 ^ 26 /\ (64 * v + m + 1) * 64 ^ n <= 2 ^ 26.
Proof.
  intros Hv Hm Hn Hb. rewrite Z.pow_add_r in Hb by lia. change (64 ^ 1) with 64 in Hb.
  assert (0 < 64 ^ n) as Hp by (apply Z.pow_pos_nonneg; lia). split; nia.
Qed.

Lemma utf8_loop_fwd l v rest left :
  Forall cont l -> 0 <= v -> (v + 1) * 64 ^ zlen l <= 2 ^ 26 -> zlen l <= left ->
  utf8_loop (length l) v (mk_cbs (l ++ rest) left) = Done (conts_val v l) (mk_cbs rest (left - zlen l)).
Proof.
  revert v left. induction l as [|b l IH]; intros v left Hf Hv Hb Hl; cbn [length utf8_loop conts_val app].
  - change (zlen []) with 0. by rewrite Z.sub_0_r.
  - apply Forall_cons in Hf as [Hc Hf]. rewrite zlen_cons in *. pose proof (zlen_nonneg l) as Hl0.
    pose proof (Z.mod_pos_bound (bz b) 64 ltac:(lia)) as Hm.
    destruct (cont_room v (bz b mod 64) (zlen l) Hv Hm Hl0 Hb) as [Hv26 Hb'].
    rewrite (bind_done _ _ _ _ _ (get_u8_cons b (l ++ rest) left ltac:(lia))).
    destruct (continuation_bits (bz b) (bz_range b)) as [-> _]. unfold cont in Hc.
    rewrite (proj2 (Z.leb_le _ _)), (proj2 (Z.ltb_lt _ _)) by lia. cbn [andb negb].
    rewrite cont_step by lia. rewrite IH by (done || lia). f_equal. f_equal. lia.
Qed.

Lemma utf8_loop_inv n v s :
  cbs_ok s -> 0 <= v -> (v + 1) * 64 ^ Z.of_nat n <= 2 ^ 26 ->
  match utf8_loop n v s with
  | Done w t => exists l, length l = n /\ Forall cont l /\ Z.of_nat n <= cbs_len s /\ front (Z.of_nat n) s = l /\
      t = adv (Z.of_nat n) s /\ w = conts_val v l
  | Fail t => exists k, 0 <= k <= cbs_len s /\ t = adv k s
  | _ => False
  end.
Proof.
  revert v s. induction n as [|n IH]; intros v s Hok Hv Hb; cbn [utf8_loop].
  - exists []. unfold cbs_ok in Hok. split; [done|]. split; [constructor|]. split; [lia|]. split; [done|]. split; [|done].
    destruct s. unfold adv. cbn. by rewrite drop_0, Z.sub_0_r.
  - rewrite Nat2Z.inj_succ, <- Z.add_1_l in Hb. unfold bind. rewrite get_u8_spec by done.
    destruct (Z.ltb_spec (cbs_len s) 1) as [Hl|Hl].
    { exists 0. unfold cbs_ok in Hok. split; [lia|]. destruct s. unfold adv. cbn. by rewrite drop_0, Z.sub_0_r. }
    destruct (cbs_cons s Hok Hl) as (b & k & Ek).
    assert (front 1 s = [b]) as E1 by (unfold front; rewrite Ek; done). rewrite E1.
    assert (be_val [b] = bz b) as -> by (rewrite be_val_cons; change (256 ^ zlen []) with 1; change (be_val []) with 0; lia).
    pose proof (Z.mod_pos_bound (bz b) 64 ltac:(lia)) as Hm.
    destruct (cont_room v (bz b mod 64) (Z.of_nat n) Hv Hm ltac:(lia) Hb) as [Hv26 Hb'].
    destruct (continuation_bits (bz b) (bz_range b)) as [-> _].
    destruct ((128 <=? bz b) && (bz b <? 192)) eqn:Ec; cbn [negb]; [|exists 1; split; [lia|done]].
    rewrite cont_step by lia. pose proof (cbs_adv_ok 1 s Hok ltac:(lia)) as Hok1.
    specialize (IH (64 * v + bz b mod 64) (adv 1 s) Hok1 ltac:(lia) Hb').
    destruct (utf8_loop n _ (adv 1 s)) as [w t|t|u|]; try done.
    + destruct IH as (l & Hl1 & Hf & Hn & Hfr & -> & ->). cbn [cbs_len adv] in Hn. exists (b :: l). cbn [length].
      split; [lia|]. split; [constructor; [unfold cont; lia|done]|]. split; [lia|].
      rewrite Nat2Z.inj_succ, <- Z.add_1_l. split; [by rewrite (front_cons _ _ b k), Hfr by (done || lia)|].
      split; [by rewrite adv_adv by lia|done].
    + destruct IH as (k' & Hk & ->). cbn [cbs_len adv] in Hk. exists (1 + k'). split; [lia|]. by rewrite adv_adv by lia.
Qed.

(** ** UTF-8, byte by byte *)
Definition utf8_bytes (u : Z) : list byte := map zb (utf8 u).

Lemma zlen_utf8_bytes u : zlen (utf8_bytes u) = zlen (utf8 u).
Proof. unfold utf8_bytes, zlen. by rewrite length_map. Qed.

(** The lead byte [c] and the continuation bytes [l] are an encoding. *)
Definition lead_of (n : nat) : Z := match n with 1%nat => 192 | 2%nat => 224 | _ => 240 end.
Definition lower_of (n : nat) : Z := match n with 1%nat => 128 | 2%nat => 2048 | _ => 65536 end.

Lemma cont_split b : cont b -> exists m, 0 <= m < 64 /\ bz b mod 64 = m /\ bz b = 128 + m.
Proof. unfold cont. intros Hb. exists (bz b - 128). split; [lia|]. split; [zdm|lia]. Qed.

Lemma conts_bytes w l : length l = 1%nat \/ length l = 2%nat \/ length l = 3%nat -> Forall cont l ->
  let v := conts_val w l in
  0 <= w -> lower_of (length l) <= v <= 1114111 -> w < (if (length l =? 1)%nat then 32 else if (length l =? 2)%nat then 16 else 8) ->
  utf8 v = lead_of (length l) + w :: map bz l.
Proof.
  intros Hl Hf v Hw Hv Hlim. destruct l as [|b1 [|b2 [|b3 [|]]]]; cbn in Hl; try lia; subst v; cbn [length conts_val lower_of lead_of Nat.eqb] in *.
  all: repeat match goal with H : Forall cont (_ :: _) |- _ => apply Forall_cons in H as [?%cont_split H] end.
  all: repeat match goal with H : exists m, _ |- _ => let Em := fresh in let Eb := fresh in
    destruct H as (? & ? & Em & Eb); rewrite ?Em in *; cbn [map]; rewrite ?Eb; clear Em Eb end.
  all: unfold utf8; rewrite (proj2 (Z.ltb_ge _ 128)) by lia.
  - rewrite (proj2 (Z.ltb_lt _ 2048)) by lia. f_equal; [zdm|f_equal; zdm].
  - rewrite (proj2 (Z.ltb_ge _ 2048)), (proj2 (Z.ltb_lt _ 65536)) by lia. f_equal; [zdm|f_equal; [zdm|f_equal; zdm]].
  - rewrite (proj2 (Z.ltb_ge _ 2048)), (proj2 (Z.ltb_ge _ 65536)) by lia.
    f_equal; [zdm|f_equal; [zdm|f_equal; [zdm|f_equal; zdm]]].
Qed.

Definition limit_of (n : nat) : Z := if (n =? 1)%nat then 32 else if (n =? 2)%nat then 16 else 8.
Definition multi (n : nat) : Prop := n = 1%nat \/ n = 2%nat \/ n = 3%nat.

(** The lead byte of [n] continuation bytes. *)
Lemma lead_of_bits n w : multi n -> 0 <= w < limit_of n ->
  utf8_lead (lead_of n + w) = Some (w, n, lower_of n) /\ 127 < lead_of n + w < 256.
Proof.
  intros Hn Hw. assert (127 < lead_of n + w < 256) as Hr by (destruct Hn as [->|[->| ->]]; cbn in *; lia).
  split; [|done]. rewrite lead_bits by lia. destruct Hn as [->|[->| ->]]; cbn [lead_of lower_of] in *;
    change (limit_of 1) with 32 in *; change (limit_of 2) with 16 in *; change (limit_of 3) with 8 in *.
  - rewrite (proj2 (Z.leb_le 192 _)), (proj2 (Z.ltb_lt _ 224)) by lia. cbn [andb]. do 3 f_equal. lia.
  - rewrite (proj2 (Z.ltb_ge _ 224)), (proj2 (Z.leb_le 224 _)), (proj2 (Z.ltb_lt _ 240)), andb_false_r by lia.
    cbn [andb]. do 3 f_equal. lia.
  - rewrite (proj2 (Z.ltb_ge _ 224)), (proj2 (Z.ltb_ge _ 240)), (proj2 (Z.leb_le 240 _)), (proj2 (Z.ltb_lt _ 248)),
      !andb_false_r by lia. cbn [andb]. do 3 f_equal. lia.
Qed.

Lemma utf8_lead_inv c v n lower : 0 <= c < 256 -> utf8_lead c = Some (v, n, lower) ->
  multi n /\ 0 <= v < limit_of n /\ c = lead_of n + v /\ lower = lower_of n.
Proof.
  intros Hc. rewrite lead_bits by done. unfold multi.
  destruct ((192 <=? c) && (c <? 224)) eqn:E1; [|destruct ((224 <=? c) && (c <? 240)) eqn:E2;
    [|destruct ((240 <=? c) && (c <? 248)) eqn:E3; [|done]]]; intros [= <- <- <-]; cbn; repeat split; lia.
Qed.

Lemma limit_room n w : multi n -> 0 <= w < limit_of n -> (w + 1) * 64 ^ Z.of_nat n <= 2 ^ 26.
Proof.
  intros [->|[->| ->]]; cbn; change (2 ^ 26) with 67108864; change (64 ^ 1) with 64; change (64 ^ 2) with 4096;
    change (64 ^ 3) with 262144; lia.
Qed.

(** The encoding of a code point outside of ASCII. *)
Lemma utf8_split a : 128 <= a <= 1114111 ->
  exists w l, multi (length l) /\ Forall cont l /\ utf8_bytes a = zb (lead_of (length l) + w) :: l /\
  conts_val w l = a /\ 0 <= w < limit_of (length l) /\ lower_of (length l) <= a.
Proof.
  intros Ha. unfold utf8_bytes, utf8, multi. rewrite (proj2 (Z.ltb_ge a 128)) by lia.
  assert (forall m, 0 <= m < 64 -> bz (zb (128 + m)) = 128 + m /\ cont (zb (128 + m)) /\ bz (zb (128 + m)) mod 64 = m) as Hm.
  { intros m Hm. unfold cont. rewrite bz_zb_small by lia. split; [done|]. split; [lia|zdm]. }
  destruct (Z.ltb_spec a 2048); [|destruct (Z.ltb_spec a 65536)].
  - exists (a / 64), [zb (128 + a mod 64)]. destruct (Hm (a mod 64)) as (_ & ? & E); [zdm|].
    split; [by left|]. split; [by rewrite ?Forall_cons, Forall_nil|]. split; [done|]. cbn [conts_val length]. rewrite E.
    unfold limit_of. cbn. split; [zdm|]. split; [zdm|lia].
  - exists (a / 4096), [zb (128 + a / 64 mod 64); zb (128 + a mod 64)].
    destruct (Hm (a mod 64)) as (_ & ? & E); [zdm|]. destruct (Hm (a / 64 mod 64)) as (_ & ? & E2); [zdm|].
    split; [by right; left|]. split; [by rewrite ?Forall_cons, Forall_nil|]. split; [done|]. cbn [conts_val length]. rewrite E, E2.
    unfold limit_of. cbn. split; [zdm|]. split; [zdm|lia].
  - exists (a / 262144), [zb (128 + a / 4096 mod 64); zb (128 + a / 64 mod 64); zb (128 + a mod 64)].
    destruct (Hm (a mod 64)) as (_ & ? & E); [zdm|]. destruct (Hm (a / 64 mod 64)) as (_ & ? & E2); [zdm|].
    destruct (Hm (a / 4096 mod 64)) as (_ & ? & E3); [zdm|].
    split; [by right; right|]. split; [by rewrite ?Forall_cons, Forall_nil|]. split; [done|]. cbn [conts_val length]. rewrite E, E2, E3.
    unfold limit_of. cbn. split; [zdm|]. split; [zdm|lia].
Qed.

(** ** [cbs_get_utf8] *)
Lemma reader_utf8 : reader any cbs_get_utf8.
Proof.
  assert (forall n v, reader any (utf8_loop n v)) as Hl.
  { induction n as [|n IH]; intros v; cbn [utf8_loop]; [by apply reader_ret|].
    apply (reader_then any); [apply reader_u8|]. intros c. destruct (negb _); [apply reader_failed|apply IH]. }
  apply (reader_then any); [apply reader_u8|]. intros c. destruct (c <=? 127); [by apply reader_ret|].
  destruct (utf8_lead c) as [[[v n] lower]|]; [|apply reader_failed].
  apply (reader_then any); [apply Hl|]. intros w. destruct (_ || _); [apply reader_failed|by apply reader_ret].
Qed.

(** An encoding is read, whatever follows it. *)
Lemma utf8_read a rest left :
  code_point a -> zlen (utf8_bytes a) <= left ->
  cbs_get_utf8 (mk_cbs (utf8_bytes a ++ rest) left) = Done a (mk_cbs rest (left - zlen (utf8_bytes a))).
Proof.
  intros Ha H1. pose proof Ha as [[Hr _] _]. destruct (Z.ltb_spec a 128) as [H7|H7].
  - unfold utf8_bytes, utf8 in *. rewrite (proj2 (Z.ltb_lt _ _)) in * by done. cbn [map app] in *.
    change (zlen [zb a]) with 1 in *. unfold cbs_get_utf8.
    rewrite (bind_done _ _ _ _ _ (get_u8_cons (zb a) rest left H1)), bz_zb_small by lia.
    by rewrite (proj2 (Z.leb_le _ _)) by lia.
  - destruct (utf8_split a ltac:(lia)) as (w & l & Hn & Hf & E & Ev & Hw & Hlow). rewrite E in *. cbn [app] in *.
    rewrite zlen_cons in *. destruct (lead_of_bits (length l) w Hn Hw) as [El Hb]. pose proof (zlen_nonneg l).
    unfold cbs_get_utf8. rewrite (bind_done _ _ _ _ _ (get_u8_cons _ (l ++ rest) left ltac:(lia))), bz_zb_small by lia.
    rewrite (proj2 (Z.leb_gt _ _)) by lia. rewrite El.
    assert ((w + 1) * 64 ^ zlen l <= 2 ^ 26) as Hroom by (unfold zlen; by apply limit_room).
    rewrite (bind_done _ _ _ _ _ (utf8_loop_fwd l w rest (left - 1) Hf ltac:(lia) Hroom ltac:(lia))).
    rewrite Ev. apply valid_spec in Ha; [|lia]. rewrite Ha. cbn [negb orb].
    rewrite (proj2 (Z.ltb_ge _ _)) by done. unfold ret. do 2 f_equal. lia.
Qed.

Lemma utf8_exact : reads_exactly utf8_bytes code_point id cbs_get_utf8.
Proof.
  eapply (reads_exactly_intro _ _ _ _ any); [apply reader_utf8|..].
  - intros s v t [Hok _] E. unfold cbs_get_utf8, bind in E. rewrite get_u8_spec in E by done.
    destruct (Z.ltb_spec (cbs_len s) 1) as [|Hl]; [done|].
    destruct (cbs_cons s Hok Hl) as (b & k & Ek).
    assert (front 1 s = [b]) as E1 by (unfold front; rewrite Ek; done). rewrite E1 in E.
    assert (be_val [b] = bz b) as Eb by (rewrite be_val_cons; change (256 ^ zlen []) with 1; change (be_val []) with 0; lia).
    rewrite Eb in E. pose proof (bz_range b) as Hb. destruct (Z.leb_spec (bz b) 127) as [Hc|Hc].
    + injection E as <- <-. unfold id. split.
      * unfold code_point, scalar. rewrite Z.mod_small by lia. lia.
      * exists 1. split; [done|]. split; [lia|]. rewrite E1. unfold utf8_bytes, utf8.
        rewrite (proj2 (Z.ltb_lt _ _)) by lia. cbn. by rewrite zb_bz.
    + destruct (utf8_lead (bz b)) as [[[w n] lower]|] eqn:El; [|done].
      apply utf8_lead_inv in El as (Hn & Hw & Ec & ->); [|done].
      pose proof (utf8_loop_inv n w (adv 1 s) (cbs_adv_ok 1 s Hok ltac:(lia)) ltac:(lia) (limit_room n w Hn Hw)) as Hi.
      destruct (utf8_loop n w (adv 1 s)) as [u t1|t1|u|]; try done.
      destruct Hi as (l & Hln & Hf & Hle & Hfr & -> & Eu). cbn [adv cbs_len] in Hle.
      destruct (negb (is_valid_code_point u) || (u <? lower_of n)) eqn:Ev; [done|]. injection E as <- <-.
      apply orb_false_iff in Ev as [Ev Elow]. apply negb_false_iff in Ev. apply Z.ltb_ge in Elow. unfold id.
      assert (0 <= lower_of n) as Hlow by (unfold lower_of; destruct n as [|[|[|?]]]; lia).
      apply valid_spec in Ev as Hcp; [|lia]. split; [done|]. exists (1 + Z.of_nat n).
      split; [by rewrite adv_adv by lia|]. split; [lia|].
      rewrite (front_cons _ _ b k), Hfr by (done || lia).
      pose proof (conts_bytes w l) as Hcb. rewrite Hln in Hcb. rewrite <- Eu in Hcb. cbv zeta in Hcb.
      unfold utf8_bytes. rewrite Hcb; [|done|done|lia|split; [lia|apply Hcp]|apply Hw].
      cbn [map]. rewrite <- Ec, zb_bz, map_map. f_equal. rewrite <- (map_id l) at 1. apply map_ext. intros x. by rewrite zb_bz.
  - intros a rest left Ha H1 _ _. rewrite utf8_read by done. eauto.
Qed.

(** ** The other encodings *)
Lemma be_reader_exact n (P : Z -> Prop) (op : C Z) :
  0 <= n <= 8 ->
  (forall s, cbs_ok s ->
     match op s with
     | Done v t => n <= cbs_len s /\ v = be_val (front n s) /\ P v /\ t = adv n s
     | Fail t => (cbs_len s < n /\ t = s) \/ (n <= cbs_len s /\ ~ P (be_val (front n s)) /\ t = adv n s)
     | _ => False
     end) ->
  reads_exactly (be_bytes (Z.to_nat n)) (fun v => 0 <= v < 256 ^ n /\ P v) id op.
Proof.
  intros Hn Hop. eapply (reads_exactly_intro _ _ _ _ any).
  - intros s [Hok Hl]. specialize (Hop s Hok). destruct (op s) as [v t|t|u|]; try done.
    + destruct Hop as (H1 & _ & _ & ->). split; [apply sub_adv; [done|lia]|done].
    + destruct Hop as [[_ ->]|(H1 & _ & ->)]; [apply sub_refl; done|apply sub_adv; [done|lia]].
  - intros s v t [Hok Hl] E. specialize (Hop s Hok). rewrite E in Hop. destruct Hop as (H1 & -> & HP & ->).
    pose proof (front_length n s Hok ltac:(lia)) as Hf. pose proof (be_val_range (front n s)) as Hr. rewrite Hf in Hr.
    split; [done|]. exists n. split; [done|]. split; [lia|]. unfold id.
    rewrite <- (be_bytes_val (front n s)) at 1. f_equal. unfold zlen in Hf. lia.
  - intros a rest left [Ha HP] H1 H2 H3. rewrite be_bytes_length, Z2Nat.id in H1 by lia.
    set (s := mk_cbs (be_bytes (Z.to_nat n) a ++ rest) left).
    assert (cbs_ok s) as Hok by (unfold cbs_ok; cbn; lia). specialize (Hop s Hok).
    assert (be_val (front n s) = a) as Ea.
    { unfold front. cbn [cbs_data s]. rewrite take_app_length'.
      - rewrite be_val_bytes, Z2Nat.id by lia. by apply Z.mod_small.
      - pose proof (be_bytes_length (Z.to_nat n) a) as Hl. unfold zlen in Hl. lia. }
    rewrite Ea in Hop. destruct (op s) as [v t|t|u|]; try done; [eauto|]. cbn [cbs_len s] in Hop.
    destruct Hop as [[? _]|(_ & Hf & _)]; [lia|done].
Qed.

Lemma latin1_exact : reads_exactly (be_bytes 1) (fun v => 0 <= v < 256 /\ True) id cbs_get_latin1.
Proof.
  apply (be_reader_exact 1 (fun _ => True)); [lia|]. intros s Hok. unfold cbs_get_latin1. rewrite get_u8_spec by done.
  destruct (Z.ltb_spec (cbs_len s) 1); [by left|done].
Qed.

Lemma checked_read n w (op : C Z) s :
  cbs_ok s -> 0 <= n <= 8 -> 256 ^ n = 2 ^ w -> op = (let* v := cbs_get_u n in ret (v mod 2 ^ w)) ->
  match (let* c := op in if negb (is_valid_code_point c) then failed else ret c) s with
  | Done v t => n <= cbs_len s /\ v = be_val (front n s) /\ code_point v /\ t = adv n s
  | Fail t => (cbs_len s < n /\ t = s) \/ (n <= cbs_len s /\ ~ code_point (be_val (front n s)) /\ t = adv n s)
  | _ => False
  end.
Proof.
  intros Hok Hn Hw ->. rewrite bind_assoc. unfold bind. rewrite cbs_get_u_spec by done.
  destruct (Z.ltb_spec (cbs_len s) n) as [|Hl]; [by left|].
  pose proof (front_length n s Hok ltac:(lia)) as Hf. pose proof (be_val_range (front n s)) as Hr. rewrite Hf, Hw in Hr.
  unfold ret at 1. rewrite Z.mod_small by done. pose proof (valid_spec (be_val (front n s)) ltac:(lia)) as Hv.
  destruct (is_valid_code_point _); cbn [negb]; [by repeat split; try apply Hv|].
  right. split; [done|]. split; [|done]. rewrite <- Hv. done.
Qed.

Lemma ucs2_exact : reads_exactly (be_bytes 2) (fun v => 0 <= v < 2 ^ 16 /\ code_point v) id cbs_get_ucs2_be.
Proof.
  apply (be_reader_exact 2 code_point); [lia|]. intros s Hok. by apply (checked_read 2 16).
Qed.

Lemma utf32_exact : reads_exactly (be_bytes 4) (fun v => 0 <= v < 2 ^ 32 /\ code_point v) id cbs_get_utf32_be.
Proof.
  apply (be_reader_exact 4 code_point); [lia|]. intros s Hok. pose proof (checked_read 4 32 _ s Hok ltac:(lia) eq_refl eq_refl) as H.
  assert (cbs_get_utf32_be s = (let* c := CBS_get_u32 in if negb (is_valid_code_point c) then failed else ret c) s) as ->; [|done].
  unfold cbs_get_utf32_be, bind. destruct (CBS_get_u32 s) as [v t| | |]; try done. by destruct (is_valid_code_point v).
Qed.

Lemma unicode_readers :
  reads_exactly utf8_bytes code_point id cbs_get_utf8 /\
  reads_exactly (be_bytes 1) (fun v => 0 <= v < 256 /\ True) id cbs_get_latin1 /\
  reads_exactly (be_bytes 2) (fun v => 0 <= v < 2 ^ 16 /\ code_point v) id cbs_get_ucs2_be /\
  reads_exactly (be_bytes 4) (fun v => 0 <= v < 2 ^ 32 /\ code_point v) id cbs_get_utf32_be.
Proof. split; [apply utf8_exact|split; [apply latin1_exact|split; [apply ucs2_exact|apply utf32_exact]]]. Qed.

(** ** The writers *)
Lemma top_bits : TOP_BITS 1 = 128 /\ TOP_BITS 2 = 192 /\ TOP_BITS 3 = 224 /\ TOP_BITS 4 = 240 /\ BOTTOM_BITS 6 = 63.
Proof. repeat split; by vm_compute. Qed.

Lemma lor_lead n w : multi n -> 0 <= w < limit_of n -> Z.lor (lead_of n) w = lead_of n + w.
Proof.
  intros Hn Hw. assert (0 <= w < 256) as Hb by (destruct Hn as [->|[->| ->]]; cbn in Hw; lia).
  pose proof (forall_byte (fun w => forallb (fun n => negb (w <? limit_of n) || (Z.lor (lead_of n) w =? lead_of n + w)) [1%nat; 2%nat; 3%nat])
    ltac:(by vm_compute) w Hb) as H. cbn [forallb] in H. rewrite !andb_true_iff, !orb_true_iff, !negb_true_iff in H.
  destruct Hn as [->|[->| ->]]; destruct H as (H1 & H2 & H3 & _).
  - destruct H1 as [H1|H1]; [apply Z.ltb_ge in H1; lia|by apply Z.eqb_eq].
  - destruct H2 as [H2|H2]; [apply Z.ltb_ge in H2; lia|by apply Z.eqb_eq].
  - destruct H3 as [H3|H3]; [apply Z.ltb_ge in H3; lia|by apply Z.eqb_eq].
Qed.

Lemma continuation_of_spec u sh : 0 <= u -> 0 <= sh -> continuation_of u sh = 128 + u / 2 ^ sh mod 64.
Proof.
  intros Hu Hs. unfold continuation_of. destruct top_bits as (-> & _ & _ & _ & ->).
  rewrite Z.shiftr_div_pow2 by done. rewrite (land_ones_mod 6) by done. change (2 ^ 6) with 64.
  pose proof (Z.mod_pos_bound (u / 2 ^ sh) 64 ltac:(lia)) as Hm.
  pose proof (forall_below 64 (fun x => Z.lor 128 x =? 128 + x) (u / 2 ^ sh mod 64) eq_refl Hm) as H. by apply Z.eqb_eq.
Qed.

Section Writers.
Context `{AllocatorLaws} (fuel : nat).
Hypothesis Hfuel : (0 < fuel)%nat.

Lemma appends_byte_of a v : 0 <= v < 256 -> appends fuel a [zb v] (add_byte fuel a v).
Proof.
  intros Hv. unfold add_byte. replace (u8 v) with v by (symmetry; apply Z.mod_small; lia). by apply appends_u8.
Qed.

Lemma appends_utf8 a u : code_point u -> appends fuel a (utf8_bytes u) (cbb_add_utf8 fuel a u).
Proof.
  intros Hu. pose proof Hu as [[Hr _] _]. apply valid_spec in Hu as Hv; [|lia]. unfold cbb_add_utf8. rewrite Hv. cbn [negb].
  destruct top_bits as (_ & -> & -> & -> & _). unfold utf8_bytes, utf8.
  rewrite !continuation_of_spec by lia. rewrite !Z.shiftr_div_pow2 by lia.
  change (2 ^ 0) with 1. change (2 ^ 6) with 64. change (2 ^ 12) with 4096. change (2 ^ 18) with 262144. rewrite Z.div_1_r.
  pose proof (Z.mod_pos_bound u 64 ltac:(lia)). pose proof (Z.mod_pos_bound (u / 64) 64 ltac:(lia)).
  pose proof (Z.mod_pos_bound (u / 4096) 64 ltac:(lia)).
  destruct (Z.ltb_spec u 128), (Z.leb_spec u 127); try lia; [apply appends_byte_of; lia|].
  destruct (Z.ltb_spec u 2048), (Z.leb_spec u 2047); try lia; [|destruct (Z.ltb_spec u 65536), (Z.leb_spec u 65535); try lia].
  - change 192 with (lead_of 1). rewrite lor_lead by first [by left | change (limit_of 1) with 32; zdm].
    apply (appends_then fuel a [_]); [done|apply appends_byte_of; cbn; zdm|]. intros _. apply appends_byte_of. lia.
  - change 224 with (lead_of 2). rewrite lor_lead by first [by right; left | change (limit_of 2) with 16; zdm].
    apply (appends_then fuel a [_]); [done|apply appends_byte_of; cbn; zdm|]. intros _.
    apply (appends_then fuel a [_]); [done|apply appends_byte_of; lia|]. intros _. apply appends_byte_of. lia.
  - rewrite (proj2 (Z.leb_le u 1114111)) by lia.
    change 240 with (lead_of 3). rewrite lor_lead by first [by right; right | change (limit_of 3) with 8; zdm].
    apply (appends_then fuel a [_]); [done|apply appends_byte_of; cbn; zdm|]. intros _.
    apply (appends_then fuel a [_]); [done|apply appends_byte_of; lia|]. intros _.
    apply (appends_then fuel a [_]); [done|apply appends_byte_of; lia|]. intros _. apply appends_byte_of. lia.
Qed.
End Writers.
