(* ===== verification/UnicodeTheorems.v ===== *)
(** BoringSSL, [crypto/bytestring/unicode.c]: the properties of the readers and
    of the writers of code points, with their witnesses. *)
From S2P Require Import Prelude.
From S2P Require Import Utf8.
From S2P Require Import Cbs.
From S2P Require Import Cbb.
From S2P Require Import CbsProofs.
From S2P Require Import CbsDer.
From S2P Require Import CbsTheorems.
From S2P Require Import CbbProofs.
From S2P Require Import CbbTheorems.
From S2P Require Import Unicode.
From S2P Require Import UnicodeProofs.

(** C37: each reader accepts exactly the encodings of the code points it is for, in
    the front of its input, and refuses everything else: in UTF-8 no overlong form,
    no surrogate, no noncharacter, nothing over U+10FFFF, no sequence that is cut off
    or goes on wrongly; in Latin-1 any byte; in UCS-2 and UTF-32 the big-endian
    numbers that are valid code points.  No reader leaves its input. *)
Theorem unicode_readers_exact :
  reads_exactly utf8_bytes code_point id cbs_get_utf8 /\
  reads_exactly (be_bytes 1) (fun v => 0 <= v < 256 /\ True) id cbs_get_latin1 /\
  reads_exactly (be_bytes 2) (fun v => 0 <= v < 2 ^ 16 /\ code_point v) id cbs_get_ucs2_be /\
  reads_exactly (be_bytes 4) (fun v => 0 <= v < 2 ^ 32 /\ code_point v) id cbs_get_utf32_be.
Proof. exact unicode_readers. Qed.

(** U+20AC in a longer input. *)
Lemma unicode_readers_exact_witness :
  match cbs_get_utf8 (cbs_of [226; 130; 172; 7]) with
  | Done v t => code_point v /\ contents t = [zb 7]
  | _ => False
  end.
Proof.
  assert (good (cbs_of [226; 130; 172; 7])) as Hg by (apply cbs_of_good; reflexivity).
  pose proof (proj1 unicode_readers_exact (cbs_of [226; 130; 172; 7]) Hg) as H.
  assert (cbs_get_utf8 (cbs_of [226; 130; 172; 7]) = Done 8364 (mk_cbs (map zb [7]) 1)) as E by by vm_compute.
  rewrite E in *. split; [apply H|reflexivity].
Defined.

Section Trip.
Context `{AllocatorLaws}.

Lemma appends_any_tmp {A} fuel tmp a l (op : K A) : appends fuel a l op -> appends_via fuel tmp a l op.
Proof. intros Hop outer f inner s b v Ha Hl Hr _ _. by apply Hop. Qed.

(** What is appended is read back. *)
Lemma built_read (op : K unit) (rd : C Z) l x fuel a cap s :
  (0 < fuel)%nat -> 0 <= cap < 2 ^ 64 -> zlen l < 2 ^ 64 -> appends fuel a l op ->
  (forall rest, exists r, rd (mk_cbs (l ++ rest) (zlen l)) = Done x (mk_cbs r 0)) ->
  reads_back rd x ((CBB_init a cap;;; op;;; CBB_finish fuel a) s).
Proof.
  intros Hf Hcap Hl Hop Hrd. assert (exists tmp, tmp <> 0 /\ tmp <> a) as (tmp & Ht & Hta).
  { destruct (Z.eq_dec a 1); [exists 2|exists 1]; lia. }
  pose proof (built op fuel a tmp cap l s Hf Hcap Ht Hta Hl (appends_any_tmp fuel tmp a l op Hop)) as Hb.
  destruct ((CBB_init a cap;;; op;;; CBB_finish fuel a) s) as [[buf len] t|t|u|]; try done.
  destruct Hb as (-> & spare & ->). unfold reads_back, CBS_init. destruct (Hrd spare) as (r & ->). done.
Qed.

Lemma be_read n (P : Z -> Prop) op x rest :
  reads_exactly (be_bytes n) (fun v => 0 <= v < 256 ^ Z.of_nat n /\ P v) id op -> 0 <= x < 256 ^ Z.of_nat n -> P x ->
  Z.of_nat n < 2 ^ 63 ->
  exists r, op (mk_cbs (be_bytes n x ++ rest) (zlen (be_bytes n x))) = Done x (mk_cbs r 0).
Proof.
  intros Hop Hx HP Hn. set (s := mk_cbs _ _). pose proof (be_bytes_length n x) as Hz. pose proof (zlen_nonneg rest).
  assert (good s) as Hg by (unfold good, cbs_ok, s; cbn [cbs_len cbs_data]; rewrite zlen_app; lia).
  assert (contents s = be_bytes n x) as Hc.
  { unfold contents, front, s. cbn [cbs_len cbs_data]. rewrite zlen_to_nat. apply take_app_length. }
  specialize (Hop s Hg). destruct (op s) as [v t|t|u|]; try done.
  - destruct Hop as ([Hv _] & -> & E). unfold id in *. rewrite Hc in E.
    pose proof (be_bytes_length n v) as Hzv. rewrite <- (app_nil_r (be_bytes n x)) in E. apply app_inj_1 in E as [E _]; [|unfold zlen in *; lia].
    assert (v = x) as -> by (rewrite <- (Z.mod_small v (256 ^ Z.of_nat n)), <- (Z.mod_small x (256 ^ Z.of_nat n)) by done;
      by rewrite <- !be_val_bytes, E).
    eexists. unfold adv, s. cbn [cbs_len cbs_data]. by rewrite Z.sub_diag.
  - destruct Hop as [_ Hno]. destruct (Hno x [] (conj Hx HP)). by rewrite Hc, app_nil_r.
Qed.

(** a code point that is written into a fresh builder is read back unchanged from
    the finished buffer, with nothing left over, in UTF-8 (of the length that
    [cbb_get_utf8_len] gives), in UCS-2 when it has 16 bits, in UTF-32, and, when it
    is below 256, in Latin-1; only libc's allocator can make the whole fail. *)
Theorem unicode_round_trip fuel a cap u s :
  (0 < fuel)%nat -> 0 <= cap < 2 ^ 64 -> code_point u ->
  reads_back cbs_get_utf8 u ((CBB_init a cap;;; cbb_add_utf8 fuel a u;;; CBB_finish fuel a) s) /\
  reads_back cbs_get_utf32_be u ((CBB_init a cap;;; cbb_add_utf32_be fuel a u;;; CBB_finish fuel a) s) /\
  (u < 2 ^ 16 ->
   reads_back cbs_get_ucs2_be u ((CBB_init a cap;;; cbb_add_ucs2_be fuel a u;;; CBB_finish fuel a) s)) /\
  (u < 2 ^ 8 ->
   reads_back cbs_get_latin1 u ((CBB_init a cap;;; cbb_add_latin1 fuel a u;;; CBB_finish fuel a) s)) /\
  zlen (utf8_bytes u) = cbb_get_utf8_len u.
Proof.
  intros Hf Hcap Hu. pose proof Hu as [[Hr _] _]. apply valid_spec in Hu as Hv; [|lia].
  destruct unicode_readers as (_ & H1 & H2 & H4).
  split; [|split; [|split; [|split]]].
  - apply (built_read _ _ (utf8_bytes u)); [done|done| |by apply appends_utf8|].
    + rewrite zlen_utf8_bytes. pose proof (zlen_utf8 u). lia.
    + intros rest. exists rest. rewrite utf8_read by done. by rewrite Z.sub_diag.
  - apply (built_read _ _ (be_bytes 4 u)); [done|done|by rewrite be_bytes_length| |].
    + unfold cbb_add_utf32_be. rewrite Hv. apply (appends_u fuel a u 4); [lia|]. change (256 ^ 4) with 4294967296. lia.
    + intros rest. apply (be_read 4 code_point); [done| |done|done]. change (256 ^ Z.of_nat 4) with 4294967296. lia.
  - intros H16. apply (built_read _ _ (be_bytes 2 u)); [done|done|by rewrite be_bytes_length| |].
    + unfold cbb_add_ucs2_be. rewrite Hv, (proj2 (Z.leb_le _ _)) by lia. cbn [andb].
      replace (u16 u) with u by (symmetry; apply Z.mod_small; lia). apply (appends_u fuel a u 2); lia.
    + intros rest. apply (be_read 2 code_point); [done| |done|done]. change (256 ^ Z.of_nat 2) with (2 ^ 16). lia.
  - intros H8. apply (built_read _ _ (be_bytes 1 u)); [done|done|by rewrite be_bytes_length| |].
    + unfold cbb_add_latin1. rewrite (proj2 (Z.leb_le _ _)) by lia. apply appends_byte_of; lia.
    + intros rest. apply (be_read 1 (fun _ => True)); [done| |done|done]. change (256 ^ Z.of_nat 1) with (2 ^ 8). lia.
  - rewrite zlen_utf8_bytes. unfold utf8, cbb_get_utf8_len.
    destruct (Z.ltb_spec u 128), (Z.leb_spec u 127), (Z.ltb_spec u 2048), (Z.leb_spec u 2047), (Z.ltb_spec u 65536),
      (Z.leb_spec u 65535); try lia; done.
Qed.

(** What is no valid code point is refused, and nothing is written. *)
Lemma unicode_refused fuel a u s : 0 <= u -> ~ code_point u ->
  cbb_add_utf8 fuel a u s = Fail s /\ cbb_add_ucs2_be fuel a u s = Fail s /\ cbb_add_utf32_be fuel a u s = Fail s.
Proof.
  intros Hpos Hu. rewrite <- valid_spec in Hu by done. apply not_true_iff_false in Hu.
  unfold cbb_add_utf8, cbb_add_ucs2_be, cbb_add_utf32_be. rewrite Hu, andb_false_r. done.
Qed.
End Trip.

Import Sample.

Lemma unicode_round_trip_witness :
  reads_back cbs_get_utf8 8364
    ((CBB_init 5 0;;; cbb_add_utf8 4 5 8364;;; CBB_finish 4 5) Sample.nothing).
Proof.
  assert (code_point 8364) as Hu by (unfold code_point, scalar; rewrite Z.mod_small by lia; lia).
  exact (proj1 (unicode_round_trip 4 5 0 8364 Sample.nothing ltac:(lia) ltac:(lia) Hu)).
Defined.
