(* ===== verification/Ber.v ===== *)
(** BoringSSL, [crypto/bytestring/ber.c]: the conversion of BER to DER, and the
    strings that BER cuts into pieces, over the reader and the builder. *)
From S2P Require Import Prelude.
From S2P Require Import Cbs.
From S2P Require Import Cbb.

(** [kMaxDepth] *)
Definition kMaxDepth : Z := 2048.

Definition CBS_ASN1_UTF8STRING : Z := 12.
Definition CBS_ASN1_NUMERICSTRING : Z := 18.
Definition CBS_ASN1_PRINTABLESTRING : Z := 19.
Definition CBS_ASN1_T61STRING : Z := 20.
Definition CBS_ASN1_VIDEOTEXSTRING : Z := 21.
Definition CBS_ASN1_IA5STRING : Z := 22.
Definition CBS_ASN1_GRAPHICSTRING : Z := 25.
Definition CBS_ASN1_VISIBLESTRING : Z := 26.
Definition CBS_ASN1_GENERALSTRING : Z := 27.
Definition CBS_ASN1_UNIVERSALSTRING : Z := 28.
Definition CBS_ASN1_BMPSTRING : Z := 30.

(** [tag & ~CBS_ASN1_CONSTRUCTED], and [tag & CBS_ASN1_CONSTRUCTED] as a condition. *)
Definition primitive_tag (tag : Z) : Z := Z.land tag (Z.lnot CBS_ASN1_CONSTRUCTED).
Definition is_constructed (tag : Z) : bool := negb (Z.land tag CBS_ASN1_CONSTRUCTED =? 0).

Definition is_string_type (tag : Z) : bool :=
  existsb (Z.eqb (primitive_tag tag))
    [CBS_ASN1_OCTETSTRING; CBS_ASN1_UTF8STRING; CBS_ASN1_NUMERICSTRING; CBS_ASN1_PRINTABLESTRING;
     CBS_ASN1_T61STRING; CBS_ASN1_VIDEOTEXSTRING; CBS_ASN1_IA5STRING; CBS_ASN1_GRAPHICSTRING;
     CBS_ASN1_VISIBLESTRING; CBS_ASN1_GENERALSTRING; CBS_ASN1_UNIVERSALSTRING; CBS_ASN1_BMPSTRING].

(** The check at the entry of the two recursive functions. *)
Definition enter {S A} (depth : Z) (op : M S A) : M S A := if kMaxDepth <? depth then failed else op.

(** ** Looking for BER *)
(** The [while] loop of [cbs_find_ber] on its local [in]; [found] is
    [*ber_found]. *)
Fixpoint find_ber_loop (fuel : nat) (depth : Z) (found : bool) : C bool :=
  match fuel with
  | O => out_of_fuel
  | S fuel =>
      let* len := CBS_len in
      if len <=? 0 then ret found
      else
        let* (contents, tag, header_len, found) := CBS_get_any_ber_asn1_element in
        if found : bool then ret true
        else if is_constructed tag then
          if is_string_type tag then ret true
          else
            let* (r, contents) := on_cbs contents (CBS_skip header_len) in
            match r with
            | None => failed
            | Some _ =>
                let* (r, _) := on_cbs contents (enter (depth + 1) (find_ber_loop fuel (depth + 1) false)) in
                match r with None => failed | Some found => find_ber_loop fuel depth found end
            end
        else find_ber_loop fuel depth found
  end.

(** [*ber_found], on success. *)
Definition cbs_find_ber (fuel : nat) (orig_in : CBS) (depth : Z) : C bool :=
  let* (r, _) := on_cbs (CBS_init (cbs_data orig_in) (cbs_len orig_in)) (enter depth (find_ber_loop fuel depth false)) in
  match r with None => failed | Some found => ret found end.

(** ** Converting *)
Definition is_eoc (header_len : Z) (contents : CBS) : K bool :=
  if (header_len =? 2) && (cbs_len contents =? 2) then
    let* (r, _) := run_cbs contents (bytes_at (cbs_data contents) 2) in
    ret (match r with Some l => bool_decide (l = [zb 0; zb 0]) | None => false end)
  else ret false.

(** [CBS_len(&contents) == header_len && header_len > 0 &&
    CBS_data(&contents)[header_len - 1] == 0x80]. *)
Definition is_indefinite (header_len : Z) (contents : CBS) : K bool :=
  if (cbs_len contents =? header_len) && (0 <? header_len) then
    let* (r, _) := run_cbs contents (data_at (cbs_data contents) (header_len - 1)) in
    ret (match r with Some b => b =? 128 | None => false end)
  else ret false.

Section Convert.
Context `{CbbAllocator}.

(** The fuel of the builder; the addresses of the locals [out_contents_storage],
    one at each depth. *)
Variable flush_fuel : nat.
Variable storage : Z -> Z.

(** The [while] loop of [cbs_convert_ber]; its result is what is left of [in]. *)
Fixpoint convert_loop (fuel : nat) (in_ : CBS) (out string_tag : Z) (looking_for_eoc : bool) (depth : Z) : K CBS :=
  match fuel with
  | O => out_of_fuel
  | S fuel =>
      if cbs_len in_ <=? 0 then (if looking_for_eoc then failed else ret in_)
      else
        let* (r, in_) := run_cbs in_ CBS_get_any_ber_asn1_element in
        match r with
        | None => failed
        | Some (contents, tag, header_len, _) =>
            let* eoc := is_eoc header_len contents in
            if eoc : bool then (if looking_for_eoc then ret in_ else failed)
            else
              let* (out_contents, child_string_tag) :=
                (if negb (string_tag =? 0) then
                   if negb (primitive_tag tag =? string_tag) then failed else ret (out, string_tag)
                 else
                   let string := is_constructed tag && is_string_type tag in
                   let out_tag := if string then primitive_tag tag else tag in
                   let child_string_tag := if string then out_tag else string_tag in
                   CBB_add_asn1 flush_fuel out (storage depth) out_tag;;;
                   ret (storage depth, child_string_tag)) in
              let* indefinite := is_indefinite header_len contents in
              if indefinite : bool then
                let* in_ := enter (depth + 1) (convert_loop fuel in_ out_contents child_string_tag true (depth + 1)) in
                flush flush_fuel out;;;
                convert_loop fuel in_ out string_tag looking_for_eoc depth
              else
                let* (r, contents) := run_cbs contents (CBS_skip header_len) in
                match r with
                | None => failed
                | Some _ =>
                    (if is_constructed tag then
                       enter (depth + 1) (convert_loop fuel contents out_contents child_string_tag false (depth + 1));;;
                       ret tt
                     else CBB_add_bytes flush_fuel out_contents (cbs_data contents) (cbs_len contents));;;
                    flush flush_fuel out;;;
                    convert_loop fuel in_ out string_tag looking_for_eoc depth
                end
        end
  end.

Definition cbs_convert_ber (fuel : nat) (in_ : CBS) (out string_tag : Z) (looking_for_eoc : bool) (depth : Z) : K CBS :=
  if is_constructed string_tag then undef UbAssert
  else enter depth (convert_loop fuel in_ out string_tag looking_for_eoc depth).

(** [in] afterwards, [out] and [*out_storage]; [cbb] is the address of the
    local [CBB]. *)
Definition CBS_asn1_ber_to_der (fuel : nat) (cbb : Z) (in_ : CBS) : K (CBS * CBS * option (list byte)) :=
  let* (r, _) := run_cbs in_ (cbs_find_ber fuel in_ 0) in
  match r with
  | None => failed
  | Some false =>
      let* (r, in_) := run_cbs in_ CBS_get_any_asn1_element in
      match r with
      | None => failed
      | Some (out, _, _) => ret (in_, out, None)
      end
  | Some true =>
      let* r := attempt
        (CBB_init cbb (cbs_len in_);;;
         let* in_ := cbs_convert_ber fuel in_ cbb 0 false 0 in
         let* (buf, len) := CBB_finish flush_fuel cbb in
         ret (in_, buf, len)) in
      match r with
      | None => CBB_cleanup cbb;;; failed
      | Some (in_, buf, len) => ret (in_, CBS_init buf len, Some buf)
      end
  end.

(** ** Strings in pieces *)
(** [while (CBS_len(&child) > 0)] *)
Fixpoint chunk_loop (fuel : nat) (result : Z) (child : CBS) (inner_tag : Z) : K unit :=
  match fuel with
  | O => out_of_fuel
  | S fuel =>
      if cbs_len child <=? 0 then ret tt
      else
        let* (r, child) := run_cbs child (CBS_get_asn1 inner_tag) in
        match r with
        | None => failed
        | Some chunk =>
            CBB_add_bytes flush_fuel result (cbs_data chunk) (cbs_len chunk);;;
            chunk_loop fuel result child inner_tag
        end
  end.

Definition CBS_get_asn1_implicit_string (fuel : nat) (result : Z) (in_ : CBS) (outer_tag inner_tag : Z)
    : K (CBS * CBS * option (list byte)) :=
  if is_constructed outer_tag || is_constructed inner_tag || negb (is_string_type inner_tag) then undef UbAssert
  else
    let* (r, _) := run_cbs in_ (CBS_peek_asn1_tag outer_tag) in
    match r with
    | None => failed
    | Some true =>
        let* (r, in_) := run_cbs in_ (CBS_get_asn1 outer_tag) in
        match r with
        | None => failed
        | Some out => ret (in_, out, None)
        end
    | Some false =>
        let* r := attempt
          (CBB_init result (cbs_len in_);;;
           let* (r, in_) := run_cbs in_ (CBS_get_asn1 (Z.lor outer_tag CBS_ASN1_CONSTRUCTED)) in
           match r with
           | None => failed
           | Some child =>
               chunk_loop fuel result child inner_tag;;;
               let* (data, len) := CBB_finish flush_fuel result in
               ret (in_, data, len)
           end) in
        match r with
        | None => CBB_cleanup result;;; failed
        | Some (in_, data, len) => ret (in_, CBS_init data len, Some data)
        end
    end.
End Convert.
