(* ===== verification/BerProofs.v ===== *)
(** BoringSSL, BER to DER: the grammar of BER that the conversion reads, what it
    stands for in DER, the conversion without the builder, and that what it gives
    is DER of a bounded length. *)
From S2P Require Import Prelude.
From S2P Require Import Cbs Cbb CbsProofs CbsDer CbbProofs Ber.

(** ** The header of an element *)
(** What follows the tag: the length of the field, the length of the contents,
    and whether it is not DER. *)
Definition decode_len (tag : Z) (l : list byte) : option (Z * Z * bool) :=
  match l with
  | [] => None
  | b :: l =>
      if bz b <? 128 then Some (1, bz b, false)
      else
        let k := bz b mod 128 in
        if is_constructed tag && (k =? 0) then Some (1, 0, true)
        else if (k =? 0) || (4 <? k) then None
        else if zlen l <? k then None
        else
          let n := be_val (take (Z.to_nat k) l) in
          Some (1 + k, n, (n <? 128) || (n <? 256 ^ (k - 1)))
  end.

Lemma decode_len_range tag l ll n found :
  decode_len tag l = Some (ll, n, found) -> 1 <= ll <= 5 /\ 0 <= n < 2 ^ 32 /\ ll <= zlen l.
Proof.
  destruct l as [|b l]; [done|]. cbn. pose proof (bz_range b). rewrite zlen_cons. zlen_pos.
  destruct (Z.ltb_spec (bz b) 128); [intros [= <- <- _]; lia|].
  destruct (_ && _); [intros [= <- <- _]; lia|].
  destruct (Z.eqb_spec (bz b mod 128) 0); [done|]. cbn [orb].
  destruct (Z.ltb_spec 4 (bz b mod 128)); [done|]. destruct (Z.ltb_spec (zlen l) (bz b mod 128)); [done|].
  intros [= <- <- _]. pose proof (Z.mod_pos_bound (bz b) 128 ltac:(lia)).
  pose proof (be_val_range (take (Z.to_nat (bz b mod 128)) l)) as Hr. rewrite zlen_take in Hr by (unfold zlen in *; lia).
  assert (256 ^ Z.of_nat (Z.to_nat (bz b mod 128)) <= 256 ^ 4) by (apply Z.pow_le_mono_r; lia).
  change (2 ^ 32) with (256 ^ 4). lia.
Qed.

Lemma ber_element_eq s tag tl :
  cbs_ok s -> cbs_len s < 2 ^ 63 -> 0 <= tl <= cbs_len s -> parse_asn1_tag s = Done tag (adv tl s) ->
  CBS_get_any_ber_asn1_element s =
  match decode_len tag (contents (adv tl s)) with
  | None => Fail s
  | Some (ll, n, found) =>
      if cbs_len s <? tl + ll + n then Fail s
      else Done (mk_cbs (cbs_data s) (tl + ll + n), tag, tl + ll, found) (adv (tl + ll + n) s)
  end.
Proof.
  intros Hok Hsz Htl Htag. unfold CBS_get_any_ber_asn1_element, cbs_get_any_asn1_element, bind, on_cbs, gets, id.
  rewrite Htag. pose proof (cbs_adv_ok tl s Hok Htl) as Hok1. pose proof (contents_length _ Hok1) as Hcl.
  rewrite get_u8_spec by done. cbn [adv cbs_len] in *.
  destruct (Z.ltb_spec (cbs_len s - tl) 1) as [|Hl1].
  { assert (contents (adv tl s) = []) as ->; [|done]. destruct (contents (adv tl s)); [done|]. rewrite zlen_cons in Hcl. zlen_pos; lia. }
  change (mk_cbs (drop (Z.to_nat tl) (cbs_data s)) (cbs_len s - tl)) with (adv tl s) in *.
  destruct (cbs_cons (adv tl s) Hok1 Hl1) as (b & l & E).
  assert (front 1 (adv tl s) = [b]) as Hf1 by (unfold front; rewrite E; done).
  rewrite Hf1, be_val_cons. change (256 ^ zlen []) with 1. change (be_val []) with 0. rewrite Z.mul_1_r, Z.add_0_r.
  assert (contents (adv tl s) = b :: contents (adv (tl + 1) s)) as ->.
  { rewrite (contents_split 1), Hf1, adv_adv by (done || (cbn; lia)). done. }
  cbn [decode_len]. pose proof (bz_range b) as Hb.
  change (mk_cbs (drop (Z.to_nat 1) (cbs_data (adv tl s))) (cbs_len s - tl - 1)) with (adv 1 (adv tl s)).
  rewrite adv_adv by lia. change (cbs_len (adv (tl + 1) s)) with (cbs_len s - (tl + 1)).
  replace (cbs_len s - (cbs_len s - (tl + 1))) with (tl + 1) by lia.
  rewrite land_128, land_127 by lia.
  destruct (Z.ltb_spec (bz b) 128) as [Hshort|Hlong].
  { rewrite get_bytes_eq. rewrite (Z.add_comm (bz b)). by destruct (cbs_len s <? tl + 1 + bz b). }
  cbv zeta. set (k := bz b mod 128). assert (0 <= k < 128) as Hk by (unfold k; zdm).
  change (true && negb (Z.land tag CBS_ASN1_CONSTRUCTED =? 0)) with (is_constructed tag).
  destruct (is_constructed tag && (k =? 0)) eqn:Hind.
  { rewrite get_bytes_eq, Z.add_0_r. by destruct (cbs_len s <? tl + 1). }
  destruct ((k =? 0) || (4 <? k)) eqn:Hk4; [done|]. apply orb_false_iff in Hk4 as [Hk0 Hk4].
  assert (1 <= k <= 4) as Hk14 by lia.
  pose proof (cbs_adv_ok (tl + 1) s Hok ltac:(lia)) as Hok2.
  rewrite cbs_get_u_spec by (done || lia).
  rewrite contents_length by done. cbn [adv cbs_len].
  destruct (Z.ltb_spec (cbs_len s - (tl + 1)) k); [done|].
  change (mk_cbs (drop (Z.to_nat (tl + 1)) (cbs_data s)) (cbs_len s - (tl + 1))) with (adv (tl + 1) s).
  assert (take (Z.to_nat k) (contents (adv (tl + 1) s)) = front k (adv (tl + 1) s)) as ->.
  { unfold contents, front. rewrite take_take. f_equal. cbn. lia. }
  set (n := be_val (front k (adv (tl + 1) s))).
  pose proof (be_val_range (front k (adv (tl + 1) s))) as Hnr. fold n in Hnr.
  rewrite front_length in Hnr by (done || (cbn; lia)).
  assert (256 ^ k <= 2 ^ 32) as H32 by (change (2 ^ 32) with (256 ^ 4); apply Z.pow_le_mono_r; lia).
  rewrite !andb_false_r, shiftr_octets by lia. rewrite u64_small by lia.
  destruct (Z.ltb_spec (n + (tl + 1) + k) n); [lia|].
  rewrite get_bytes_eq. replace (n + (tl + 1) + k) with (tl + (1 + k) + n) by lia.
  replace (tl + 1 + k) with (tl + (1 + k)) by lia. by destruct (cbs_len s <? tl + (1 + k) + n).
Qed.

(** ** The grammar *)
(** A definite length, minimal or not. *)
Inductive ber_len : Z -> list byte -> Prop :=
| len_short n : 0 <= n < 128 -> ber_len n [zb n]
| len_long bs : 1 <= zlen bs <= 4 -> ber_len (be_val bs) (zb (128 + zlen bs) :: bs).

Lemma decode_definite tag n lb rest : ber_len n lb -> exists found, decode_len tag (lb ++ rest) = Some (zlen lb, n, found).
Proof.
  intros [n' Hn|bs Hbs]; cbn [app decode_len].
  - rewrite bz_zb_small by lia. destruct (Z.ltb_spec n' 128); [|lia]. rewrite zlen_cons, zlen_nil. eauto.
  - rewrite bz_zb_small by lia. destruct (Z.ltb_spec (128 + zlen bs) 128); [lia|].
    replace ((128 + zlen bs) mod 128) with (zlen bs) by zdm. cbv zeta.
    destruct (Z.eqb_spec (zlen bs) 0); [lia|]. rewrite andb_false_r. destruct (Z.ltb_spec 4 (zlen bs)); [lia|]. cbn [orb].
    rewrite zlen_app. pose proof (zlen_nonneg rest). destruct (Z.ltb_spec (zlen bs + zlen rest) (zlen bs)); [lia|].
    rewrite zlen_to_nat, take_app_length, zlen_cons. eauto.
Qed.

Lemma decode_len_inv tag l ll n found :
  decode_len tag l = Some (ll, n, found) ->
  ber_len n (take (Z.to_nat ll) l) \/
  (is_constructed tag = true /\ ll = 1 /\ n = 0 /\ found = true /\ take (Z.to_nat ll) l = [zb 128]).
Proof.
  destruct l as [|b l]; [done|]. cbn [decode_len]. pose proof (bz_range b).
  destruct (Z.ltb_spec (bz b) 128).
  { intros [= <- <- _]. left. cbn. rewrite <- (zb_bz b) at 2. constructor. lia. }
  cbv zeta. assert (bz b = 128 + bz b mod 128) as Hb by zdm.
  destruct (is_constructed tag && _) eqn:E.
  { apply andb_true_iff in E as [Ec Ek%Z.eqb_eq]. intros [= <- <- <-]. right. repeat split; try done.
    cbn. rewrite <- (zb_bz b), Hb, Ek. done. }
  destruct (Z.eqb_spec (bz b mod 128) 0); [done|]. cbn [orb].
  destruct (Z.ltb_spec 4 (bz b mod 128)); [done|]. destruct (Z.ltb_spec (zlen l) (bz b mod 128)) as [|Hl]; [done|].
  pose proof (Z.mod_pos_bound (bz b) 128 ltac:(lia)). intros [= <- <- _]. left.
  replace (Z.to_nat (1 + bz b mod 128)) with (S (Z.to_nat (bz b mod 128))) by lia. cbn [take].
  assert (zlen (take (Z.to_nat (bz b mod 128)) l) = bz b mod 128) as Hz by (rewrite zlen_take; unfold zlen in *; lia).
  rewrite <- (zb_bz b), Hb at 2. rewrite <- Hz at 2. constructor. lia.
Qed.

(** The form of an element at the front of the input. *)
Inductive heads (s : CBS) (tag hl n : Z) : Prop :=
| definite lb : ber_len n lb -> front hl s = der_tag tag ++ lb -> heads s tag hl n
| indefinite : is_constructed tag = true -> n = 0 -> front hl s = der_tag tag ++ [zb 128] -> heads s tag hl n.

Lemma ber_get_inv s : good s ->
  match CBS_get_any_ber_asn1_element s with
  | Done (out, tag, hl, _) t => exists n, out = mk_cbs (cbs_data s) (hl + n) /\ t = adv (hl + n) s /\
      2 <= hl /\ 0 <= n /\ hl + n <= cbs_len s /\ 0 <= tag < 2 ^ 32 /\ heads s tag hl n
  | Fail t => t = s
  | _ => False
  end.
Proof.
  intros [Hok Hsz]. pose proof (element_inv true s Hok Hsz) as Hi. unfold CBS_get_any_ber_asn1_element.
  destruct (cbs_get_any_asn1_element true s) as [[[[out tag] hl] found] t|t|u|] eqn:E; try done.
  destruct Hi as (n & -> & -> & Hhl & Hn & Hle & Htag & _). exists n.
  split; [done|]. split; [done|]. split; [done|]. split; [lia|]. split; [done|]. split; [done|].
  pose proof (parse_tag_inv s Hok) as Hp. destruct (parse_asn1_tag s) as [tag' t|t|u|] eqn:Et; try done.
  - destruct Hp as (tl & -> & Htl & Hfr & _). pose proof (ber_element_eq s tag' tl Hok Hsz Htl Et) as Eq.
    unfold CBS_get_any_ber_asn1_element in Eq. rewrite E in Eq.
    destruct (decode_len tag' (contents (adv tl s))) as [[[ll n'] f]|] eqn:Ed; [|done].
    destruct (decode_len_range _ _ _ _ _ Ed) as (Hll & Hn' & Hlz).
    rewrite contents_length in Hlz by (by apply cbs_adv_ok). cbn in Hlz.
    destruct (cbs_len s <? tl + ll + n'); [done|]. injection Eq as E1 -> -> -> _.
    assert (n = n') as -> by lia.
    assert (take (Z.to_nat ll) (contents (adv tl s)) = front ll (adv tl s)) as Hta.
    { unfold contents, front. rewrite take_take. f_equal. cbn. lia. }
    destruct (decode_len_inv _ _ _ _ _ Ed) as [Hb|(Hc & -> & -> & _ & Hb)]; rewrite Hta in Hb.
    + eapply definite; [exact Hb|]. rewrite front_app by (done || lia). by rewrite Hfr.
    + apply indefinite; [done..|]. rewrite front_app by (done || lia). by rewrite Hfr, Hb.
  - unfold cbs_get_any_asn1_element, bind, on_cbs, gets, id in E. by rewrite Et in E.
Qed.

(** The parser reads every element of the grammar. *)
Lemma ber_get_found s tag lb n rest found :
  good s -> 0 <= tag < 2 ^ 32 -> contents s = der_tag tag ++ lb ++ rest -> 0 <= n <= zlen rest ->
  decode_len tag (lb ++ rest) = Some (zlen lb, n, found) ->
  let hl := zlen (der_tag tag) + zlen lb in
  front hl s = der_tag tag ++ lb /\ contents (adv hl s) = rest /\ hl + n <= cbs_len s /\
  CBS_get_any_ber_asn1_element s = Done (mk_cbs (cbs_data s) (hl + n), tag, hl, found) (adv (hl + n) s).
Proof.
  intros [Hok Hsz] Ht Hc Hn Hd hl. pose proof (contents_length s Hok) as Hl. rewrite Hc, !zlen_app in Hl.
  assert (0 <= hl) by (unfold hl; zlen_pos; lia).
  pose proof (der_tag_length tag Ht) as Htl. zlen_pos.
  assert (front hl s = der_tag tag ++ lb /\ contents (adv hl s) = rest) as [Hf Ha].
  { rewrite (contents_split hl), (app_assoc (der_tag tag)) in Hc by (done || lia). apply app_inj_1 in Hc; [done|].
    pose proof (front_length hl s Hok ltac:(lia)) as Hfl. unfold hl, zlen in *. rewrite length_app. lia. }
  split; [done|]. split; [done|]. split; [unfold hl; lia|].
  assert (parse_asn1_tag s = Done tag (adv (zlen (der_tag tag)) s)) as Hp.
  { destruct (contents_cons _ _ s Hok Hc) as (more & -> & Hm1 & _). rewrite parse_tag_der by done.
    unfold adv. cbn. by rewrite zlen_to_nat, drop_app_length. }
  rewrite (ber_element_eq s tag (zlen (der_tag tag)) Hok Hsz ltac:(lia) Hp).
  assert (contents (adv (zlen (der_tag tag)) s) = lb ++ rest) as ->.
  { rewrite (contents_split (zlen (der_tag tag))) in Hc by (done || lia). apply app_inj_1 in Hc as [_ Hc]; [done|].
    pose proof (front_length (zlen (der_tag tag)) s Hok ltac:(lia)) as Hfl. unfold zlen in *. lia. }
  rewrite Hd. fold hl. destruct (Z.ltb_spec (cbs_len s) (hl + n)); [unfold hl in *; lia|done].
Qed.

Lemma ber_get s tag lb n rest :
  good s -> 0 <= tag < 2 ^ 32 -> contents s = der_tag tag ++ lb ++ rest -> 0 <= n <= zlen rest ->
  (exists found, decode_len tag (lb ++ rest) = Some (zlen lb, n, found)) ->
  let hl := zlen (der_tag tag) + zlen lb in
  front hl s = der_tag tag ++ lb /\ contents (adv hl s) = rest /\ hl + n <= cbs_len s /\
  exists found, CBS_get_any_ber_asn1_element s = Done (mk_cbs (cbs_data s) (hl + n), tag, hl, found) (adv (hl + n) s).
Proof.
  intros Hs Ht Hc Hn [found Hd] hl. destruct (ber_get_found s tag lb n rest found Hs Ht Hc Hn Hd) as (H1 & H2 & H3 & H4).
  by eauto.
Qed.

(** ** What BER stands for *)
Definition is_string (tag : Z) : bool := is_constructed tag && is_string_type tag.
Definition out_tag (tag : Z) : Z := if is_string tag then primitive_tag tag else tag.

(** Inside of a string of the tag [st] (none when it is zero): the elements that
    may be there, the string that an element starts, what it gives. *)
Definition allowed (st tag : Z) : Prop := st = 0 \/ primitive_tag tag = st.
Definition child_tag (st tag : Z) : Z := if st =? 0 then (if is_string tag then primitive_tag tag else 0) else st.
Definition emitted (st tag : Z) (body : list byte) : list byte := if st =? 0 then der (out_tag tag) body else body.

Definition eoc_bytes : list byte := [zb 0; zb 0].

(** [converts d st l o]: the elements [l], of a nesting of at most [d], are [o] in DER. *)
Inductive converts : nat -> Z -> list byte -> list byte -> Prop :=
| conv_nil d st : converts d st [] []
| conv_primitive d st tag lb body rest o :
    is_constructed tag = false -> 0 <= tag < 2 ^ 32 -> allowed st tag -> ber_len (zlen body) lb ->
    der_tag tag ++ lb <> eoc_bytes -> converts d st rest o ->
    converts d st (der_tag tag ++ lb ++ body ++ rest) (emitted st tag body ++ o)
| conv_definite d st tag lb kids body rest o :
    is_constructed tag = true -> 0 <= tag < 2 ^ 32 -> allowed st tag -> ber_len (zlen kids) lb ->
    converts d (child_tag st tag) kids body -> converts (S d) st rest o ->
    converts (S d) st (der_tag tag ++ lb ++ kids ++ rest) (emitted st tag body ++ o)
| conv_indefinite d st tag kids body rest o :
    is_constructed tag = true -> 0 <= tag < 2 ^ 32 -> allowed st tag ->
    converts d (child_tag st tag) kids body -> converts (S d) st rest o ->
    converts (S d) st (der_tag tag ++ [zb 128] ++ kids ++ eoc_bytes ++ rest) (emitted st tag body ++ o).

(** ** The conversion without the builder *)
Definition at_eoc (hl : Z) (contents : CBS) : bool :=
  (hl =? 2) && (cbs_len contents =? 2) && bool_decide (take 2 (cbs_data contents) = eoc_bytes).
Definition at_indefinite (hl : Z) (contents : CBS) : bool :=
  (cbs_len contents =? hl) && (0 <? hl) && bool_decide (cbs_data contents !! Z.to_nat (hl - 1) = Some (zb 128)).

Fixpoint conv_loop (fuel : nat) (st : Z) (eoc : bool) (depth : Z) : C (list byte) :=
  match fuel with
  | O => out_of_fuel
  | S fuel =>
      let* len := CBS_len in
      if len <=? 0 then (if eoc then failed else ret [])
      else
        let* (contents, tag, hl, _) := CBS_get_any_ber_asn1_element in
        if at_eoc hl contents then (if eoc then ret [] else failed)
        else if negb (st =? 0) && negb (primitive_tag tag =? st) then failed
        else
          let* body :=
            (if at_indefinite hl contents then enter (depth + 1) (conv_loop fuel (child_tag st tag) true (depth + 1))
             else if is_constructed tag then
               let* (r, _) := on_cbs (adv hl contents) (enter (depth + 1) (conv_loop fuel (child_tag st tag) false (depth + 1))) in
               match r with None => failed | Some body => ret body end
             else ret (front (cbs_len contents - hl) (adv hl contents))) in
          let* rest := conv_loop fuel st eoc depth in
          ret (emitted st tag body ++ rest)
  end.

Definition eoc_mark (eoc : bool) : list byte := if eoc then eoc_bytes else [].

(** ** The tests on a header *)
Lemma header_last_byte s hl pre b :
  cbs_ok s -> 0 <= hl <= cbs_len s -> front hl s = pre ++ [b] -> cbs_data s !! Z.to_nat (hl - 1) = Some b.
Proof.
  intros Hok Hhl Hf. pose proof (front_length hl s Hok Hhl) as Hl. rewrite Hf in Hl.
  rewrite zlen_app in Hl. change (zlen [b]) with 1 in Hl.
  rewrite <- (take_drop (Z.to_nat hl) (cbs_data s)). change (take (Z.to_nat hl) (cbs_data s)) with (front hl s).
  rewrite Hf, lookup_app_l by (rewrite length_app; unfold zlen in Hl; cbn; lia).
  apply list_lookup_middle. unfold zlen in Hl. lia.
Qed.

Lemma ber_len_zero lb : ber_len 0 lb -> exists pre b, lb = pre ++ [b] /\ bz b = 0.
Proof.
  intros Hb. remember 0 as z eqn:E1. destruct Hb as [n Hn|bs Hbs].
  - exists [], (zb n). by rewrite bz_zb_small by lia.
  - destruct bs as [|b bs _] using rev_ind; [rewrite zlen_nil in Hbs; lia|]. rewrite be_val_snoc in E1. exists (zb (128 + zlen (bs ++ [b])) :: bs), b.
    split; [done|]. rewrite be_val_snoc. pose proof (be_val_range bs). pose proof (bz_range b). lia.
Qed.

Lemma at_indefinite_spec s tag hl n :
  cbs_ok s -> 2 <= hl -> 0 <= n -> hl + n <= cbs_len s -> heads s tag hl n ->
  if at_indefinite hl (mk_cbs (cbs_data s) (hl + n))
  then is_constructed tag = true /\ n = 0 /\ front hl s = der_tag tag ++ [zb 128]
  else exists lb, ber_len n lb /\ front hl s = der_tag tag ++ lb.
Proof.
  intros Hok Hhl Hn Hle Hh. unfold at_indefinite. cbn [cbs_len cbs_data].
  destruct Hh as [lb Hb Hf|Hc -> Hf].
  - destruct (Z.eqb_spec (hl + n) hl); [|by exists lb]. assert (n = 0) as -> by lia.
    destruct (ber_len_zero lb Hb) as (pre & b & -> & Hz). rewrite app_assoc in Hf.
    rewrite (header_last_byte s hl _ _ Hok ltac:(lia) Hf). rewrite bool_decide_eq_false_2.
    + rewrite andb_false_r. exists (pre ++ [b]). by rewrite app_assoc.
    + intros [= ->]. by rewrite bz_zb_small in Hz.
  - rewrite (header_last_byte s hl _ _ Hok ltac:(lia) Hf), Z.add_0_r, Z.eqb_refl, bool_decide_eq_true_2 by done.
    destruct (Z.ltb_spec 0 hl); [done|lia].
Qed.

Lemma at_eoc_spec s hl n :
  2 <= hl -> 0 <= n -> at_eoc hl (mk_cbs (cbs_data s) (hl + n)) = true -> hl = 2 /\ n = 0 /\ front hl s = eoc_bytes.
Proof.
  intros Hhl Hn. unfold at_eoc. cbn [cbs_len cbs_data]. rewrite !andb_true_iff. intros [[H1%Z.eqb_eq H2%Z.eqb_eq] H3].
  apply bool_decide_eq_true in H3. subst hl. split; [done|]. split; [lia|]. exact H3.
Qed.

Lemma eoc_header tag n lb : ber_len n lb -> der_tag tag ++ lb = eoc_bytes -> n = 0.
Proof.
  intros Hb E. assert (lb = [zb 0]) as ->.
  { unfold der_tag in E. destruct (_ <? 31); cbn in E; [by injection E|]. unfold b128, b128_len in E. cbn [b128_digits] in E.
    destruct lb as [|x lb]; [inversion Hb|]. exfalso. apply (f_equal length) in E. cbn in E. rewrite length_app in E. cbn in E. lia. }
  inversion Hb as [n' Hn' E1 E2|bs Hbs E1 E2]; [|subst; by rewrite zlen_nil in Hbs].
  apply (f_equal bz) in E2. by rewrite !bz_zb_small in E2 by lia.
Qed.

(** The contents of an element, as an input. *)
Lemma kid_good s hl n : good s -> 0 <= hl -> 0 <= n -> hl + n <= cbs_len s ->
  let kid := adv hl (mk_cbs (cbs_data s) (hl + n)) in good kid /\ contents kid = front n (adv hl s) /\ cbs_len kid = n.
Proof.
  intros [Hok Hsz] Hhl Hn Hle kid. unfold kid.
  assert (cbs_ok (mk_cbs (cbs_data s) (hl + n))) as Hok' by (unfold cbs_ok in *; cbn; lia).
  split; [split; [apply cbs_adv_ok; [done|cbn; lia]|cbn; lia]|]. split; [|cbn; lia].
  unfold contents, front. cbn. do 2 f_equal. lia.
Qed.

(** [enter] stops at the depth that the grammar bounds. *)
Lemma enter_depth {S A} (op : M S A) d depth : Z.of_nat d = kMaxDepth - depth ->
  enter (depth + 1) op = match d with O => failed | Datatypes.S _ => op end.
Proof.
  intros Hd. unfold enter. destruct (Z.ltb_spec kMaxDepth (depth + 1)), d; done || lia.
Qed.

(** ** The conversion reads the grammar *)
Lemma conv_sound fuel : forall s st eoc depth d,
  good s -> Z.of_nat d = kMaxDepth - depth -> cbs_len s < Z.of_nat fuel ->
  match conv_loop fuel st eoc depth s with
  | Done o t => sub s t /\ (eoc = false -> cbs_len t = 0) /\
      exists l, contents s = l ++ eoc_mark eoc ++ contents t /\ converts d st l o
  | Fail _ => True
  | _ => False
  end.
Proof.
  induction fuel as [|fuel IH]; intros s st eoc depth d Hs Hd Hf; [destruct Hs as [Hok _]; unfold cbs_ok in Hok; lia|].
  pose proof Hs as [Hok Hsz]. cbn [conv_loop]. unfold bind at 1, CBS_len, gets.
  destruct (Z.leb_spec (cbs_len s) 0) as [Hz|Hz].
  { destruct eoc; [done|]. split; [by apply sub_refl|]. split; [unfold cbs_ok in Hok; intros; lia|].
    exists []. split; [done|constructor]. }
  unfold bind at 1. pose proof (ber_get_inv s Hs) as Hg.
  destruct (CBS_get_any_ber_asn1_element s) as [[[[out tag] hl] found] t|t|u|]; try done.
  destruct Hg as (n & -> & -> & Hhl & Hn & Hle & Htag & Hh).
  assert (sub s (adv (hl + n) s)) as Hsub by (by apply sub_adv; [|lia]).
  assert (good (adv (hl + n) s)) as Hgt by (by eapply sub_good).
  assert (contents s = front hl s ++ front n (adv hl s) ++ contents (adv (hl + n) s)) as Hcs.
  { rewrite (contents_split hl) by (done || lia). f_equal. assert (cbs_ok (adv hl s)) by (apply cbs_adv_ok; [done|lia]).
    rewrite (contents_split n (adv hl s)) by (done || (cbn; lia)). by rewrite adv_adv by lia. }
  destruct (at_eoc hl _) eqn:Eeoc.
  { destruct eoc; [|done]. apply at_eoc_spec in Eeoc as (-> & -> & Hfr); [|lia..].
    split; [done|]. split; [done|]. exists []. split; [|constructor]. rewrite Hcs, Hfr. done. }
  destruct (negb (st =? 0) && negb (primitive_tag tag =? st)) eqn:Eal; [done|].
  assert (allowed st tag) as Hal.
  { destruct (Z.eqb_spec st 0); [by left|right]. cbn in Eal. by apply negb_false_iff, Z.eqb_eq in Eal. }
  pose proof (at_indefinite_spec s tag hl n Hok Hhl Hn Hle Hh) as Hi.
  destruct (at_indefinite hl _).
  - destruct Hi as (Hcon & -> & Hfr). rewrite Z.add_0_r in *. rewrite (enter_depth _ d) by done.
    destruct d as [|d]; [done|]. unfold bind at 1.
    pose proof (IH (adv hl s) (child_tag st tag) true (depth + 1) d Hgt ltac:(lia) ltac:(cbn; lia)) as Hk.
    destruct (conv_loop fuel _ true (depth + 1) (adv hl s)) as [body t1|t1|u|]; try done.
    destruct Hk as (Hs1 & _ & kids & Ek & Hk). pose proof (sub_good _ _ Hgt Hs1) as Hg1.
    unfold bind. assert (cbs_len t1 <= cbs_len (adv hl s)) as Hl1 by (destruct Hs1 as [_ (j & ? & _ & ?)]; lia).
    pose proof (IH t1 st eoc depth (S d) Hg1 Hd ltac:(cbn in Hl1; lia)) as Hr.
    destruct (conv_loop fuel st eoc depth t1) as [o t2|t2|u|]; try done.
    destruct Hr as (Hs2 & He & l & El & Hl). split; [by eapply sub_trans; [|eapply sub_trans]|]. split; [done|].
    exists (der_tag tag ++ [zb 128] ++ kids ++ eoc_bytes ++ l). split; [|by apply conv_indefinite].
    rewrite (contents_split hl), Hfr, Ek, El by (done || lia). cbn [eoc_mark]. by rewrite <- !app_assoc.
  - destruct Hi as (lb & Hb & Hfr). destruct (kid_good s hl n Hs ltac:(lia) Hn Hle) as (Hkg & Hkc & Hkl).
    assert (zlen (front n (adv hl s)) = n) as Hzk by (rewrite <- Hkc, contents_length; [done|apply Hkg]).
    pose proof (IH (adv (hl + n) s) st eoc depth d Hgt Hd ltac:(cbn; lia)) as Hr.
    destruct (is_constructed tag) eqn:Hcon.
    + rewrite (enter_depth _ d) by done. destruct d as [|d]; [done|].
      pose proof (IH _ (child_tag st tag) false (depth + 1) d Hkg ltac:(lia) ltac:(lia)) as Hk.
      unfold bind, on_cbs. destruct (conv_loop fuel _ false (depth + 1) _) as [body t1|t1|u|]; try done.
      destruct Hk as (_ & Ht1 & kids & Ek & Hk). unfold ret at 1.
      assert (contents t1 = []) as Hnil by (unfold contents, front; by rewrite Ht1).
      rewrite Hnil in Ek. cbn in Ek. rewrite !app_nil_r in Ek. rewrite Hkc in Ek.
      destruct (conv_loop fuel st eoc depth _) as [o t2|t2|u|]; try done.
      destruct Hr as (Hs2 & He & l & El & Hl). split; [by eapply sub_trans|]. split; [done|].
      exists (der_tag tag ++ lb ++ kids ++ l). split.
      * rewrite Hcs, Hfr, El, Ek. by rewrite <- !app_assoc.
      * apply conv_definite; try done. by rewrite <- Ek, Hzk.
    + unfold bind. unfold ret at 1. destruct (conv_loop fuel st eoc depth _) as [o t2|t2|u|]; try done.
      destruct Hr as (Hs2 & He & l & El & Hl). split; [by eapply sub_trans|]. split; [done|].
      assert (front (cbs_len (mk_cbs (cbs_data s) (hl + n)) - hl) (adv hl (mk_cbs (cbs_data s) (hl + n))) = front n (adv hl s)) as ->.
      { unfold front. cbn. do 2 f_equal. lia. }
      exists (der_tag tag ++ lb ++ front n (adv hl s) ++ l). split.
      * rewrite Hcs, Hfr, El. by rewrite <- !app_assoc.
      * apply conv_primitive; try done; [by rewrite Hzk|]. intros Heoc.
        pose proof (eoc_header _ _ _ Hb Heoc) as ->.
        assert (hl = 2) as ->. { pose proof (front_length hl s Hok ltac:(lia)) as Hfl. by rewrite Hfr, Heoc in Hfl. }
        unfold at_eoc in Eeoc. cbn [cbs_len cbs_data] in Eeoc. rewrite bool_decide_eq_true_2 in Eeoc; [done|].
        unfold front in Hfr. change (Z.to_nat 2) with 2%nat in Hfr. by rewrite Hfr.
Qed.

Lemma not_len_128 n : ~ ber_len n [zb 128].
Proof.
  intros Hb. remember [zb 128] as l eqn:E. destruct Hb as [n Hn|bs Hbs].
  - injection E as E. apply (f_equal bz) in E. rewrite !bz_zb_small in E by lia. lia.
  - injection E as _ ->. rewrite zlen_nil in Hbs. lia.
Qed.

Lemma eoc_tag tag lb : 0 <= tag < 2 ^ 32 -> lb <> [] -> der_tag tag ++ lb = eoc_bytes -> is_constructed tag = false.
Proof.
  intros Ht Hlb E. unfold der_tag in E. destruct (Z.ltb_spec (tag mod 2 ^ 29) 31).
  - cbn in E. injection E as E _. apply (f_equal bz) in E. rewrite !bz_zb_small in E by zdm.
    assert (tag = 0) as -> by zdm. done.
  - exfalso. unfold b128, b128_len in E. cbn [b128_digits] in E. apply (f_equal length) in E. cbn in E.
    rewrite length_app in E. destruct lb; [done|]. cbn in E. lia.
Qed.

Lemma at_eoc_false s tag hl n lb :
  2 <= hl -> 0 <= n -> front hl s = der_tag tag ++ lb -> der_tag tag ++ lb <> eoc_bytes ->
  at_eoc hl (mk_cbs (cbs_data s) (hl + n)) = false.
Proof.
  intros Hhl Hn Hf Hne. destruct (at_eoc _ _) eqn:E; [|done]. apply at_eoc_spec in E as (-> & _ & E); [|done..]. congruence.
Qed.

Lemma allowed_test st tag : allowed st tag -> negb (st =? 0) && negb (primitive_tag tag =? st) = false.
Proof. intros [->|<-]; [done|]. by rewrite Z.eqb_refl, andb_false_r. Qed.

Lemma ber_len_nonempty n lb : ber_len n lb -> 0 <= n /\ 1 <= zlen lb /\ lb <> [].
Proof. intros [n' Hn|bs Hbs]; rewrite zlen_cons; [|pose proof (be_val_range bs)]; zlen_pos; (split; [lia|split; [lia|done]]). Qed.

Lemma at_eoc_true s : front 2 s = eoc_bytes -> at_eoc 2 (mk_cbs (cbs_data s) 2) = true.
Proof. intros Hf. unfold at_eoc. cbn [cbs_len cbs_data]. by rewrite bool_decide_eq_true_2. Qed.

(** What is in front of the rest. *)
Lemma take_body s hl body rest :
  cbs_ok s -> 0 <= hl -> hl + zlen body <= cbs_len s -> contents (adv hl s) = body ++ rest ->
  front (zlen body) (adv hl s) = body /\ contents (adv (hl + zlen body) s) = rest.
Proof.
  intros Hok Hhl Hle Ha. zlen_pos. assert (cbs_ok (adv hl s)) as Hok1 by (apply cbs_adv_ok; [done|lia]).
  rewrite (contents_split (zlen body)) in Ha by (done || (cbn; lia)). rewrite adv_adv in Ha by lia.
  apply app_inj_1 in Ha; [done|].
  pose proof (front_length (zlen body) (adv hl s) Hok1 ltac:(cbn; lia)) as Hfl. unfold zlen in *. lia.
Qed.

(** The loop on an input whose first element is known. *)
Lemma conv_step fuel s st eoc depth tag lb n rest :
  good s -> 0 <= tag < 2 ^ 32 -> contents s = der_tag tag ++ lb ++ rest -> 0 <= n <= zlen rest -> 1 <= zlen lb ->
  allowed st tag -> der_tag tag ++ lb <> eoc_bytes ->
  (exists found, decode_len tag (lb ++ rest) = Some (zlen lb, n, found)) ->
  let hl := zlen (der_tag tag) + zlen lb in
  2 <= hl /\ front hl s = der_tag tag ++ lb /\ contents (adv hl s) = rest /\ hl + n <= cbs_len s /\
  conv_loop (S fuel) st eoc depth s =
  (let* body :=
     (if at_indefinite hl (mk_cbs (cbs_data s) (hl + n)) then enter (depth + 1) (conv_loop fuel (child_tag st tag) true (depth + 1))
      else if is_constructed tag then
        let* (r, _) := on_cbs (adv hl (mk_cbs (cbs_data s) (hl + n))) (enter (depth + 1) (conv_loop fuel (child_tag st tag) false (depth + 1))) in
        match r with None => failed | Some body => ret body end
      else ret (front n (adv hl s))) in
   let* o := conv_loop fuel st eoc depth in ret (emitted st tag body ++ o)) (adv (hl + n) s).
Proof.
  intros Hs Ht Hc Hn Hlb Hal Hne Hd hl. pose proof (der_tag_length tag Ht) as Htl. assert (2 <= hl) as Hhl by (unfold hl; lia).
  destruct (ber_get s tag lb n rest Hs Ht Hc Hn Hd) as (Hf & Ha & Hle & found & E). fold hl in Hf, Ha, Hle, E.
  split; [done|]. split; [done|]. split; [done|]. split; [done|].
  cbn [conv_loop]. unfold bind at 1, CBS_len, gets. destruct (Z.leb_spec (cbs_len s) 0); [lia|].
  rewrite (bind_done _ _ _ _ _ E). rewrite (at_eoc_false s tag hl n lb), allowed_test by (done || lia).
  cbn [cbs_len]. assert (front (hl + n - hl) (adv hl (mk_cbs (cbs_data s) (hl + n))) = front n (adv hl s)) as ->; [|done].
  unfold front. cbn. do 2 f_equal. lia.
Qed.

Lemma conv_complete d st l o :
  converts d st l o -> forall s fuel depth eoc rest,
  good s -> contents s = l ++ eoc_mark eoc ++ rest -> (eoc = false -> rest = []) ->
  Z.of_nat d = kMaxDepth - depth -> cbs_len s < Z.of_nat fuel ->
  exists t, conv_loop fuel st eoc depth s = Done o t /\ contents t = rest /\ sub s t.
Proof.
  induction 1 as [d st|d st tag lb body l o Hcon Ht Hal Hb Hne _ IH|d st tag lb kids body l o Hcon Ht Hal Hb _ IHk _ IH
    |d st tag kids body l o Hcon Ht Hal _ IHk _ IH]; intros s [|fuel] depth eoc rest Hs Hc Hr Hd Hf;
    pose proof Hs as [Hok Hsz]; try (unfold cbs_ok in Hok; lia).
  - pose proof (contents_length s Hok) as Hl. destruct eoc.
    + destruct (ber_get s 0 [zb 0] 0 rest Hs ltac:(lia) Hc ltac:(pose proof (zlen_nonneg rest); lia)) as (Hfr & Ha & Hle & found & E).
      { apply decode_definite. by constructor. }
      change (zlen (der_tag 0) + zlen [zb 0]) with 2 in *. exists (adv 2 s). split; [|split; [done|apply sub_adv; [done|lia]]].
      cbn [conv_loop]. unfold bind at 1, CBS_len, gets. destruct (Z.leb_spec (cbs_len s) 0); [lia|].
      rewrite (bind_done _ _ _ _ _ E). by rewrite at_eoc_true.
    + rewrite (Hr eq_refl) in *. rewrite Hc in Hl. cbn in Hl. exists s. split; [|split; [done|by apply sub_refl]].
      cbn [conv_loop]. unfold bind at 1, CBS_len, gets. destruct (Z.leb_spec (cbs_len s) 0); [done|]. rewrite <- Hl in *. done.
  - destruct (ber_len_nonempty _ _ Hb) as (_ & Hlb & _). rewrite <- !app_assoc in Hc.
    destruct (conv_step fuel s st eoc depth tag lb (zlen body) _ Hs Ht Hc ltac:(zl) Hlb Hal Hne) as (Hhl & Hfr & Ha & Hle & ->);
      [by apply decode_definite|]. set (hl := zlen (der_tag tag) + zlen lb) in *.
    pose proof (at_indefinite_spec s tag hl (zlen body) Hok Hhl ltac:(zl) Hle (definite _ _ _ _ lb Hb Hfr)) as Hi.
    destruct (at_indefinite _ _); [destruct Hi as (? & _ & _); congruence|]. rewrite Hcon.
    pose proof (zlen_nonneg body). destruct (take_body s hl body _ Hok ltac:(lia) Hle Ha) as [Hbody Ha'].
    assert (sub s (adv (hl + zlen body) s)) as Hsub by (apply sub_adv; [done|lia]).
    destruct (IH (adv (hl + zlen body) s) fuel depth eoc rest) as (t & E & Hct & Hst);
      [by eapply sub_good|done..|cbn; lia|].
    exists t. split; [|split; [done|by eapply sub_trans]]. unfold bind. unfold ret at 1. by rewrite E, Hbody.
  - destruct (ber_len_nonempty _ _ Hb) as (_ & Hlb & Hnil). rewrite <- !app_assoc in Hc.
    assert (der_tag tag ++ lb <> eoc_bytes) as Hne by (intros Heoc; apply eoc_tag in Heoc; congruence).
    destruct (conv_step fuel s st eoc depth tag lb (zlen kids) _ Hs Ht Hc ltac:(zl) Hlb Hal Hne) as (Hhl & Hfr & Ha & Hle & ->);
      [by apply decode_definite|]. set (hl := zlen (der_tag tag) + zlen lb) in *.
    pose proof (at_indefinite_spec s tag hl (zlen kids) Hok Hhl ltac:(zl) Hle (definite _ _ _ _ lb Hb Hfr)) as Hi.
    destruct (at_indefinite _ _).
    { destruct Hi as (_ & Hn & Hfr'). rewrite Hfr' in Hfr. apply app_inv_head in Hfr as <-. by apply not_len_128 in Hb. }
    rewrite Hcon, (enter_depth _ (S d)) by done.
    pose proof (zlen_nonneg kids). destruct (take_body s hl kids _ Hok ltac:(lia) Hle Ha) as [Hbody Ha'].
    destruct (kid_good s hl (zlen kids) Hs ltac:(lia) ltac:(lia) Hle) as (Hkg & Hkc & Hkl).
    destruct (IHk _ fuel (depth + 1) false [] Hkg) as (t1 & E1 & _ & _); [by rewrite Hkc, Hbody, app_nil_r|done|lia|lia|].
    assert (sub s (adv (hl + zlen kids) s)) as Hsub by (apply sub_adv; [done|lia]).
    destruct (IH (adv (hl + zlen kids) s) fuel depth eoc rest) as (t & E & Hct & Hst);
      [exact (sub_good _ _ Hs Hsub)|done..|cbn; lia|].
    exists t. split; [|split; [done|by eapply sub_trans]]. unfold bind, on_cbs. rewrite E1. unfold ret at 1. by rewrite E.
  - rewrite <- !app_assoc in Hc.
    assert (der_tag tag ++ [zb 128] <> eoc_bytes) as Hne by (intros Heoc; apply eoc_tag in Heoc; congruence).
    destruct (conv_step fuel s st eoc depth tag [zb 128] 0 _ Hs Ht Hc ltac:(zl) ltac:(done) Hal Hne) as (Hhl & Hfr & Ha & Hle & ->).
    { cbn. rewrite Hcon. by eexists. }
    set (hl := zlen (der_tag tag) + zlen [zb 128]) in *.
    pose proof (at_indefinite_spec s tag hl 0 Hok Hhl ltac:(lia) Hle (indefinite _ _ _ _ Hcon eq_refl Hfr)) as Hi.
    destruct (at_indefinite _ _).
    2: { destruct Hi as (lb & Hb & Hfr'). rewrite Hfr in Hfr'. apply app_inv_head in Hfr' as <-. by apply not_len_128 in Hb. }
    rewrite (enter_depth _ (S d)), Z.add_0_r in * by done.
    assert (sub s (adv hl s)) as Hsub by (apply sub_adv; [done|lia]). pose proof (sub_good _ _ Hs Hsub) as Hg1.
    destruct (IHk (adv hl s) fuel (depth + 1) true (l ++ eoc_mark eoc ++ rest)) as (t1 & E1 & Hc1 & Hs1); [done..|lia|cbn; lia|].
    assert (cbs_len t1 <= cbs_len (adv hl s)) as Hl1 by (destruct Hs1 as [_ (j & ? & _ & ?)]; lia).
    destruct (IH t1 fuel depth eoc rest) as (t & E & Hct & Hst); [exact (sub_good _ _ Hg1 Hs1)|done..|cbn in Hl1; lia|].
    exists t. split; [|split; [done|eapply sub_trans; [|eapply sub_trans]; done]]. unfold bind. by rewrite E1, E.
Qed.

(** * The output is DER *)
(** ** DER *)
(** Elements with minimal lengths and no string in pieces, of a nesting of at
    most [d]. *)
Inductive is_der : nat -> list byte -> Prop :=
| der_nil d : is_der d []
| der_primitive d tag body rest :
    is_constructed tag = false -> 0 <= tag < 2 ^ 32 -> zlen body < 2 ^ 32 -> is_der d rest ->
    is_der d (der tag body ++ rest)
| der_constructed d tag body rest :
    is_constructed tag = true -> is_string_type tag = false -> 0 <= tag < 2 ^ 32 -> zlen body < 2 ^ 32 ->
    is_der d body -> is_der (S d) rest -> is_der (S d) (der tag body ++ rest).

Lemma primitive_tag_range tag : 0 <= tag < 2 ^ 32 -> 0 <= primitive_tag tag < 2 ^ 32.
Proof.
  intros Ht. unfold primitive_tag. rewrite <- (Z.mod_small tag (2 ^ 32)), <- Z.land_ones, <- Z.land_assoc by lia.
  apply (land_bound 32); [lia|done|]. vm_compute. discriminate.
Qed.

Lemma primitive_not_constructed tag : is_constructed (primitive_tag tag) = false.
Proof.
  unfold is_constructed, primitive_tag. apply negb_false_iff, Z.eqb_eq. rewrite <- Z.land_assoc, (Z.land_comm (Z.lnot _)).
  by rewrite Z.land_lnot_diag, Z.land_0_r.
Qed.

Lemma out_tag_range tag : 0 <= tag < 2 ^ 32 -> 0 <= out_tag tag < 2 ^ 32.
Proof. intros Ht. unfold out_tag. destruct (is_string tag); [by apply primitive_tag_range|done]. Qed.

Lemma der_length tag body : 0 <= tag < 2 ^ 32 -> zlen body < 2 ^ 32 -> zlen (der tag body) <= zlen (der_tag tag) + 5 + zlen body.
Proof.
  intros Ht Hb. unfold der, der_header. rewrite !zlen_app. pose proof (der_len_length (zlen body) ltac:(zlen_pos; lia)). lia.
Qed.

Lemma emitted_length st tag body :
  0 <= tag < 2 ^ 32 -> zlen body < 2 ^ 32 -> zlen body <= zlen (emitted st tag body) <= 11 + zlen body.
Proof.
  intros Ht Hb. unfold emitted. destruct (st =? 0); [|zl]. pose proof (out_tag_range tag Ht) as Ho.
  pose proof (der_length (out_tag tag) body Ho Hb). pose proof (der_tag_length _ Ho).
  split; [|lia]. unfold der. rewrite zlen_app. zlen_pos. lia.
Qed.

Lemma ber_header tag n lb : 0 <= tag < 2 ^ 32 -> ber_len n lb -> 2 <= zlen (der_tag tag) + zlen lb.
Proof. intros Ht Hb. pose proof (der_tag_length tag Ht). pose proof (ber_len_nonempty _ _ Hb). lia. Qed.

(** The output is not much longer than the input. *)
Lemma converts_length d st l o : converts d st l o -> zlen l < 2 ^ 28 -> zlen o <= 6 * zlen l.
Proof.
  induction 1 as [d st|d st tag lb body l o Hcon Ht Hal Hb Hne _ IH|d st tag lb kids body l o Hcon Ht Hal Hb _ IHk _ IH
    |d st tag kids body l o Hcon Ht Hal _ IHk _ IH]; intros Hl; rewrite ?zlen_app in *.
  - done.
  - pose proof (ber_header _ _ _ Ht Hb). zlen_pos. pose proof (emitted_length st tag body Ht ltac:(lia)). lia.
  - pose proof (ber_header _ _ _ Ht Hb). zlen_pos. specialize (IHk ltac:(lia)). specialize (IH ltac:(lia)).
    pose proof (emitted_length st tag body Ht ltac:(lia)). lia.
  - pose proof (der_tag_length tag Ht). change (zlen [zb 128]) with 1 in *. change (zlen eoc_bytes) with 2 in *.
    zlen_pos. specialize (IHk ltac:(lia)). specialize (IH ltac:(lia)).
    pose proof (emitted_length st tag body Ht ltac:(lia)). lia.
Qed.

Lemma der_of_element d tag body rest :
  0 <= tag < 2 ^ 32 -> zlen body < 2 ^ 32 -> is_constructed tag = true -> (is_string tag = false -> is_der d body) ->
  is_der (S d) rest -> is_der (S d) (der (out_tag tag) body ++ rest).
Proof.
  unfold out_tag, is_string. intros Ht Hb Hcon Hbody Hrest. rewrite Hcon in *. cbn [andb] in *.
  destruct (is_string_type tag) eqn:E.
  - apply der_primitive; [apply primitive_not_constructed|by apply primitive_tag_range|done|done].
  - apply der_constructed; auto.
Qed.

(** What the conversion gives is DER. *)
Lemma converts_der d st l o : converts d st l o -> st = 0 -> zlen l < 2 ^ 28 -> is_der d o.
Proof.
  assert (forall tag, is_string tag = false -> child_tag 0 tag = 0) as Hc by (intros tag E; unfold child_tag; by rewrite E).
  induction 1 as [d st|d st tag lb body l o Hcon Ht Hal Hb Hne _ IH|d st tag lb kids body l o Hcon Ht Hal Hb Hk IHk _ IH
    |d st tag kids body l o Hcon Ht Hal Hk IHk _ IH]; intros -> Hl; rewrite ?zlen_app in *.
  - constructor.
  - zlen_pos. change (emitted 0 tag body) with (der (out_tag tag) body). unfold out_tag, is_string. rewrite Hcon. cbn [andb].
    apply der_primitive; [done..|lia|]. apply IH; [done|lia].
  - zlen_pos. pose proof (converts_length _ _ _ _ Hk ltac:(lia)).
    apply der_of_element; [done|lia|done|intros E; apply IHk; [by apply Hc|lia]|apply IH; [done|lia]].
  - zlen_pos. pose proof (converts_length _ _ _ _ Hk ltac:(lia)).
    apply der_of_element; [done|lia|done|intros E; apply IHk; [by apply Hc|lia]|apply IH; [done|lia]].
Qed.

(** ** DER is not BER that needs a conversion *)
Lemma decode_der tag n rest : 0 <= n < 2 ^ 32 -> decode_len tag (der_len n ++ rest) = Some (zlen (der_len n), n, false).
Proof.
  intros Hn. unfold der_len. destruct (Z.ltb_spec n 128).
  - cbn [app decode_len]. rewrite bz_zb_small by lia. destruct (Z.ltb_spec n 128); [done|lia].
  - destruct (len_octets_spec n ltac:(lia)) as (Hk & Hhi & Hlo). cbn [app decode_len]. rewrite bz_zb_small by lia.
    set (k := Z.of_nat (len_octets n)) in *. destruct (Z.ltb_spec (128 + k) 128); [lia|].
    replace ((128 + k) mod 128) with k by zdm. cbv zeta. destruct (Z.eqb_spec k 0); [lia|]. rewrite andb_false_r.
    destruct (Z.ltb_spec 4 k); [lia|]. cbn [orb]. pose proof (be_bytes_length (len_octets n) n) as Hbl. fold k in Hbl.
    rewrite zlen_app, zlen_cons, Hbl. pose proof (zlen_nonneg rest). destruct (Z.ltb_spec (k + zlen rest) k); [lia|].
    replace (Z.to_nat k) with (length (be_bytes (len_octets n) n)) by (unfold zlen in Hbl; lia). rewrite take_app_length.
    rewrite be_val_bytes. fold k. rewrite Z.mod_small by lia. do 2 f_equal. destruct (Z.ltb_spec n 128); [lia|]. cbn [orb].
    apply Z.ltb_ge. destruct Hlo as [Hlo|Hlo]; [unfold k; rewrite Hlo; cbn; lia|done].
Qed.

Lemma ber_len_der n : 0 <= n < 2 ^ 32 -> ber_len n (der_len n).
Proof.
  intros Hn. unfold der_len. destruct (Z.ltb_spec n 128); [apply len_short; lia|].
  destruct (len_octets_spec n ltac:(lia)) as (Hk & Hhi & Hlo). pose proof (be_bytes_length (len_octets n) n) as Hbl.
  pose proof (len_long (be_bytes (len_octets n) n)) as Hb. rewrite be_val_bytes, Z.mod_small, Hbl in Hb by lia. apply Hb. lia.
Qed.

(** Reading an element of DER. *)
Lemma der_get s tag body rest :
  good s -> 0 <= tag < 2 ^ 32 -> zlen body < 2 ^ 32 -> contents s = der tag body ++ rest ->
  let hl := zlen (der_header tag (zlen body)) in
  2 <= hl /\ hl + zlen body <= cbs_len s /\ front (zlen body) (adv hl s) = body /\
  contents (adv (hl + zlen body) s) = rest /\
  CBS_get_any_ber_asn1_element s = Done (mk_cbs (cbs_data s) (hl + zlen body), tag, hl, false) (adv (hl + zlen body) s).
Proof.
  intros Hs Ht Hb Hc hl. unfold der, der_header in Hc. rewrite <- !app_assoc in Hc. zlen_pos.
  pose proof (ber_header tag _ _ Ht (ber_len_der (zlen body) ltac:(lia))) as Hh.
  destruct (ber_get s tag (der_len (zlen body)) (zlen body) (body ++ rest) Hs Ht Hc ltac:(zl)) as (Hf & Ha & Hle & found & E).
  { eexists. apply decode_der. lia. }
  assert (hl = zlen (der_tag tag) + zlen (der_len (zlen body))) as Ehl by (unfold hl, der_header; by rewrite zlen_app).
  rewrite <- Ehl in *. split; [done|]. split; [done|]. pose proof Hs as [Hok Hsz].
  destruct (take_body s hl body rest Hok ltac:(lia) Hle Ha) as [Hbody Hrest].
  split; [done|]. split; [done|]. rewrite E. do 2 f_equal.
  pose proof (decode_der tag (zlen body) (body ++ rest) ltac:(lia)) as Hd.
  assert (exists tl, 0 <= tl <= cbs_len s /\ parse_asn1_tag s = Done tag (adv tl s) /\ tl = zlen (der_tag tag)) as (tl & Htl & Hp & ->).
  { exists (zlen (der_tag tag)). pose proof (der_tag_length tag Ht). pose proof (zlen_nonneg (der_len (zlen body))). split; [lia|]. split; [|done].
    destruct (contents_cons _ _ s Hok Hc) as (more & -> & Hm & _). rewrite parse_tag_der by done.
    unfold adv. cbn. by rewrite zlen_to_nat, drop_app_length. }
  pose proof (ber_element_eq s tag _ Hok Hsz Htl Hp) as Eq.
  assert (contents (adv (zlen (der_tag tag)) s) = der_len (zlen body) ++ body ++ rest) as Hct.
  { rewrite (contents_split (zlen (der_tag tag))) in Hc by (done || lia). apply app_inj_1 in Hc as [_ Hc]; [done|].
    pose proof (front_length (zlen (der_tag tag)) s Hok ltac:(lia)) as Hfl. unfold zlen in *. lia. }
  rewrite Hct, Hd, E in Eq. destruct (_ <? _); [done|]. by injection Eq.
Qed.

Lemma find_der d l :
  is_der d l -> forall fuel s depth, good s -> contents s = l -> Z.of_nat d <= kMaxDepth - depth ->
  cbs_len s < Z.of_nat fuel -> exists t, find_ber_loop fuel depth false s = Done false t.
Proof.
  induction 1 as [d|d tag body rest Hcon Ht Hb _ IH|d tag body rest Hcon Hstr Ht Hb _ IHb _ IH]; intros [|fuel] s depth Hs Hc Hd Hf;
    pose proof Hs as [Hok Hsz]; try (unfold cbs_ok in Hok; lia); pose proof (contents_length s Hok) as Hl;
    cbn [find_ber_loop]; unfold bind at 1, CBS_len, gets.
  - rewrite Hc in Hl. cbn in Hl. rewrite <- Hl. exists s. done.
  - destruct (der_get s tag body rest Hs Ht Hb Hc) as (Hhl & Hle & _ & Hct & E). zlen_pos.
    destruct (Z.leb_spec (cbs_len s) 0); [lia|]. rewrite (bind_done _ _ _ _ _ E), Hcon.
    apply IH; [|done|done|cbn; lia]. eapply sub_good; [exact Hs|]. apply sub_adv; [done|lia].
  - destruct (der_get s tag body rest Hs Ht Hb Hc) as (Hhl & Hle & Hbody & Hct & E). zlen_pos.
    destruct (Z.leb_spec (cbs_len s) 0); [lia|]. rewrite (bind_done _ _ _ _ _ E), Hcon, Hstr.
    set (hl := zlen (der_header tag (zlen body))) in *.
    destruct (kid_good s hl (zlen body) Hs ltac:(lia) ltac:(lia) Hle) as (Hkg & Hkc & Hkl). cbv zeta in Hkg, Hkc, Hkl.
    unfold bind at 1, on_cbs at 1, CBS_skip, bind at 1. rewrite cbs_get_eq. cbn [cbs_len].
    destruct (Z.ltb_spec (hl + zlen body) hl); [lia|]. unfold ret at 1.
    destruct (IHb fuel _ (depth + 1) Hkg) as [t Et]; [by rewrite Hkc|lia|lia|].
    unfold bind, on_cbs, enter. destruct (Z.ltb_spec kMaxDepth (depth + 1)); [lia|]. rewrite Et.
    apply IH; [|done|done|cbn; lia]. eapply sub_good; [exact Hs|]. apply sub_adv; [done|lia].
Qed.
