(* ===== verification/BerConvert.v ===== *)
(** BoringSSL, BER to DER: the conversion through the builder, with its open
    elements in one buffer, gives what the conversion of [BerProofs] gives; the
    strings of [CBS_get_asn1_implicit_string]. *)
From S2P Require Import Prelude.
From S2P Require Import Cbs Cbb CbsProofs CbsDer CbbProofs CbbTheorems Ber BerProofs.

Definition fails {S A} (o : outcome S A) : Prop := match o with Fail _ => True | _ => False end.

Lemma bind_fails {S A B} (m : M S A) (k : A -> M S B) s : fails (m s) -> fails (bind m k s).
Proof. unfold bind. by destruct (m s). Qed.

Section Convert.
Context `{AllocatorLaws}.
Variable flush_fuel : nat.
Variable storage : Z -> Z.
Hypothesis flush_fuel_enough : (1 < flush_fuel)%nat.
Hypothesis storage_null : forall k, storage k <> 0.
Hypothesis storage_inj : forall i j, storage i = storage j -> i = j.

(** [op], on the last frame, adds [l] to it and returns [x]; without memory it
    fails. *)
Definition gives {A} (o : outcome cstate A) (x : A) (l : list byte) (b : Z) (v : cbb_buffer_st)
    (outer : list frame) (f : frame) : Prop :=
  match o with
  | Done y t => y = x /\ exists v', repr t b v' (outer ++ [add_body l f]) /\ grown v v' (zlen l)
  | Fail t => blocked v (zlen l) /\ broken b t
  | _ => False
  end.

Lemma gives_appended (o : outcome cstate unit) l b v outer f :
  appended o l b v outer f [] -> gives o tt l b v outer f.
Proof.
  unfold appended, gives. destruct o as [[] t|t|u|]; try done.
  - intros (c & v' & [= <-] & Hr & Hg). split; [done|]. exists v'. split; [exact Hr|].
    apply (grown_weaken _ _ _ Hg). change (text []) with (@nil byte). zl.
  - intros [Hb Hbr]. split; [|done]. specialize (Hb [] eq_refl). apply (blocked_le _ _ _ Hb).
    change (text []) with (@nil byte). zl.
Qed.

Lemma gives_then {A B} (op1 : K A) (op2 : A -> K B) s x y l k b v outer f :
  gives (op1 s) x l b v outer f ->
  (forall t v', repr t b v' (outer ++ [add_body l f]) -> gives (op2 x t) y k b v' outer (add_body l f)) ->
  gives (bind op1 op2 s) y (l ++ k) b v outer f.
Proof.
  unfold bind, gives. destruct (op1 s) as [z t|t|u|]; try done.
  - intros (-> & v' & Hr & Hg) H2. specialize (H2 t v' Hr). destruct (op2 x t) as [z t'|t'|u|]; try done.
    + destruct H2 as (-> & v2 & Hr2 & Hg2). split; [done|]. exists v2. rewrite add_body_app in Hr2. split; [done|].
      apply (grown_weaken _ _ _ (grown_trans _ _ _ _ _ Hg Hg2)). zl.
    + destruct H2 as [Hb Hbr]. split; [|done]. apply (grown_blocked _ _ _ _ Hg) in Hb; [|zl]. apply (blocked_le _ _ _ Hb). zl.
  - intros [Hb Hbr] _. split; [|done]. apply (blocked_le _ _ _ Hb). zl.
Qed.

Lemma gives_nothing {A} (x : A) s b v outer f : repr s b v (outer ++ [f]) -> gives (ret x s) x [] b v outer f.
Proof.
  intros Hr. split; [done|]. exists v. rewrite add_body_nil. split; [done|]. constructor; zl || done.
Qed.

(** The locals from [depth] on are not in use. *)
Definition unused (depth : Z) (fs : list frame) : Prop := forall k, depth <= k -> ~ In (storage k) (map f_addr fs).

Lemma unused_body depth outer l f : unused depth (outer ++ [f]) -> unused depth (outer ++ [add_body l f]).
Proof. unfold unused. by rewrite map_addr_add_body. Qed.

Lemma unused_child depth outer f f' : unused depth (outer ++ [f]) -> map f_addr (outer ++ [f']) = map f_addr (outer ++ [f]) ->
  unused (depth + 1) ((outer ++ [f']) ++ [mk_frame (storage depth) 1 true true []]).
Proof.
  intros Hu Hm k Hk. rewrite map_app, in_app_iff, Hm. intros [Hin|[E|[]]]; [apply (Hu k); [lia|done]|].
  cbn in E. apply storage_inj in E. lia.
Qed.

(** An element opened in [f], its body, and the flush that closes it. *)
Lemma gives_element {A} (op : K A) x tag body s b v outer f depth :
  0 <= tag < 2 ^ 32 -> zlen body <= 4294967294 -> repr s b v (outer ++ [f]) -> unused depth (outer ++ [f]) ->
  (forall t v' f', repr t b v' ((outer ++ [f']) ++ [mk_frame (storage depth) 1 true true []]) ->
     map f_addr (outer ++ [f']) = map f_addr (outer ++ [f]) ->
     gives (op t) x body b v' (outer ++ [f']) (mk_frame (storage depth) 1 true true [])) ->
  gives ((CBB_add_asn1 flush_fuel (f_addr f) (storage depth) tag;;;
          let* y := op in flush flush_fuel (f_addr f);;; ret y) s) x (der tag body) b v outer f.
Proof.
  intros Htag Hbody Hr Hu Hop. set (g := mk_frame (storage depth) 1 true true []) in *.
  pose proof (opens_asn1 flush_fuel ltac:(lia) (f_addr f) (storage depth) tag Htag outer f [] s b v eq_refl
    ltac:(cbn; lia) Hr (storage_null depth) (Hu depth ltac:(lia))) as H1.
  pose proof (zlen_nonneg body) as Hb0. pose proof (der_len_length (zlen body) ltac:(lia)) as Hdl.
  assert (zlen (der tag body) = zlen (der_tag tag) + zlen (der_len (zlen body)) + zlen body) as Hder
    by (unfold der, der_header; zl).
  unfold bind at 1. unfold opened in H1. change (text []) with (@nil byte) in H1.
  destruct (CBB_add_asn1 flush_fuel (f_addr f) (storage depth) tag s) as [u t|t|u|]; try done.
  2: { destruct H1 as [Hb Hbr]. split; [|done]. specialize (Hb [] eq_refl). apply (blocked_le _ _ _ Hb). cbn. zl. }
  destruct H1 as (c & v1 & [= <-] & Ht & Hg1). cbn [app f_n] in Ht, Hg1. change (zlen (@nil byte)) with 0 in Hg1.
  set (f1 := add_body (der_tag tag) f) in *.
  fold g in Ht. change (outer ++ [f1; g]) with (outer ++ [f1] ++ [g]) in Ht. rewrite app_assoc in Ht.
  specialize (Hop t v1 f1 Ht (map_addr_add_body _ _ _)). unfold bind at 1. unfold gives in *.
  destruct (op t) as [y t2|t2|u'|]; try done.
  2: { destruct Hop as [Hb Hbr]. split; [|done]. apply (grown_blocked v v1 _ _ Hg1) in Hb; [|zl]. apply (blocked_le _ _ _ Hb). zl. }
  destruct Hop as (-> & v2 & Ht2 & Hg2). rewrite <- app_assoc in Ht2. cbn [app] in Ht2.
  pose proof (appends_flush flush_fuel (f_addr f) outer f1 [add_body body g] t2 b v2 eq_refl flush_fuel_enough Ht2) as H3.
  assert (closed [add_body body g] = Some (der_len (zlen body) ++ body)) as Hcl.
  { cbn [closed f_body f_n f_asn1 add_body g app]. rewrite app_nil_r. unfold prefix_bytes.
    by rewrite (proj2 (Z.ltb_ge _ _)) by lia. }
  assert (zlen (text [add_body body g]) = 1 + zlen body) as Htl.
  { change (text [add_body body g]) with ([zb 0] ++ body ++ []). zl. }
  pose proof (grown_trans _ _ _ _ _ Hg1 Hg2) as Hg12.
  unfold bind, appended in *. destruct (flush flush_fuel (f_addr f) t2) as [z t3|t3|u'|]; try done.
  - destruct H3 as (c3 & v3 & Hc3 & Ht3 & Hg3). rewrite Hcl in Hc3. injection Hc3 as <-.
    unfold ret. split; [done|]. exists v3. split.
    + unfold f1 in Ht3. rewrite add_body_app, app_nil_r in Ht3. unfold der, der_header. by rewrite <- app_assoc.
    + apply (grown_weaken _ _ _ (grown_trans _ _ _ _ _ Hg12 Hg3)). rewrite Htl. zl.
  - destruct H3 as [Hb Hbr]. split; [|done]. specialize (Hb _ Hcl). apply (grown_blocked _ _ _ _ Hg12) in Hb; [|rewrite Htl; zl].
    apply (blocked_le _ _ _ Hb). rewrite Htl. zl.
Qed.

Lemma gives_fails {A B} (op1 : K A) (op2 : A -> K B) s x l b v outer f :
  gives (op1 s) x l b v outer f ->
  (forall t v', repr t b v' (outer ++ [add_body l f]) -> fails (op2 x t)) -> fails (bind op1 op2 s).
Proof.
  unfold bind, gives. destruct (op1 s) as [z t|t|u|]; try done. intros (-> & v' & Hr & _) H2. by apply (H2 t v').
Qed.

Lemma element_fails {A} (op : K A) (k : A -> K A) tag s b v outer f depth :
  0 <= tag < 2 ^ 32 -> repr s b v (outer ++ [f]) -> unused depth (outer ++ [f]) ->
  (forall t v' f', repr t b v' ((outer ++ [f']) ++ [mk_frame (storage depth) 1 true true []]) ->
     map f_addr (outer ++ [f']) = map f_addr (outer ++ [f]) -> fails (op t)) ->
  fails ((CBB_add_asn1 flush_fuel (f_addr f) (storage depth) tag;;; let* y := op in k y) s).
Proof.
  intros Htag Hr Hu Hop.
  pose proof (opens_asn1 flush_fuel ltac:(lia) (f_addr f) (storage depth) tag Htag outer f [] s b v eq_refl
    ltac:(cbn; lia) Hr (storage_null depth) (Hu depth ltac:(lia))) as H1. unfold bind at 1. unfold opened in H1.
  destruct (CBB_add_asn1 flush_fuel (f_addr f) (storage depth) tag s) as [u t|t|u|]; try done.
  destruct H1 as (c & v1 & _ & Ht & _). apply bind_fails.
  apply (Hop t v1 (add_body (c ++ der_tag tag) f)); [by rewrite <- app_assoc|apply map_addr_add_body].
Qed.

(** ** The turns of the two loops *)
Definition conv_body (fuel : nat) (st tag hl : Z) (contents : CBS) (depth : Z) : C (list byte) :=
  if at_indefinite hl contents then enter (depth + 1) (conv_loop fuel (child_tag st tag) true (depth + 1))
  else if is_constructed tag then
    let* (r, _) := on_cbs (adv hl contents) (enter (depth + 1) (conv_loop fuel (child_tag st tag) false (depth + 1))) in
    match r with None => failed | Some body => ret body end
  else ret (front (cbs_len contents - hl) (adv hl contents)).

Definition convert_body (fuel : nat) (in_ : CBS) (out_contents st tag hl : Z) (contents : CBS) (depth : Z) : K CBS :=
  if at_indefinite hl contents
  then enter (depth + 1) (convert_loop flush_fuel storage fuel in_ out_contents (child_tag st tag) true (depth + 1))
  else
    (if is_constructed tag then
       enter (depth + 1) (convert_loop flush_fuel storage fuel (adv hl contents) out_contents (child_tag st tag) false (depth + 1));;;
       ret tt
     else CBB_add_bytes flush_fuel out_contents (cbs_data (adv hl contents)) (cbs_len (adv hl contents)));;;
    ret in_.

Lemma is_eoc_run in_ hl n t :
  cbs_ok in_ -> 2 <= hl -> 0 <= n -> hl + n <= cbs_len in_ ->
  is_eoc hl (mk_cbs (cbs_data in_) (hl + n)) t = Done (at_eoc hl (mk_cbs (cbs_data in_) (hl + n))) t.
Proof.
  intros Hok Hhl Hn Hle. unfold is_eoc, at_eoc. cbn [cbs_len cbs_data].
  destruct (Z.eqb_spec hl 2) as [->|]; [|done]. destruct (Z.eqb_spec (2 + n) 2); [|done]. cbn [andb].
  unfold bind, run_cbs, bytes_at. unfold cbs_ok in Hok. destruct (Z.ltb_spec (zlen (cbs_data in_)) 2); [lia|done].
Qed.

Lemma is_indefinite_run in_ hl n t :
  cbs_ok in_ -> 2 <= hl -> 0 <= n -> hl + n <= cbs_len in_ ->
  is_indefinite hl (mk_cbs (cbs_data in_) (hl + n)) t = Done (at_indefinite hl (mk_cbs (cbs_data in_) (hl + n))) t.
Proof.
  intros Hok Hhl Hn Hle. unfold is_indefinite, at_indefinite. cbn [cbs_len cbs_data].
  destruct ((hl + n =? hl) && (0 <? hl)); [|done]. unfold bind, run_cbs, data_at.
  destruct (Z.ltb_spec (hl - 1) 0); [lia|]. unfold cbs_ok, zlen in Hok.
  destruct (lookup_lt_is_Some_2 (cbs_data in_) (Z.to_nat (hl - 1))) as [x E]; [lia|]. rewrite E. cbn [option_map of_option andb].
  unfold ret. f_equal. apply eq_bool_prop_intro. rewrite !Is_true_true, Z.eqb_eq, bool_decide_eq_true. split.
  - intros Hx. f_equal. apply bz_inj. by rewrite bz_zb_small.
  - intros [= ->]. by apply bz_zb_small.
Qed.

(** What a turn does with the element at the front. *)
Definition convert_turn (fuel : nat) (in1 : CBS) (out st tag hl : Z) (contents : CBS) (depth : Z) : K CBS :=
  if st =? 0 then
    CBB_add_asn1 flush_fuel out (storage depth) (out_tag tag);;;
    let* in2 := convert_body fuel in1 (storage depth) st tag hl contents depth in
    flush flush_fuel out;;; ret in2
  else
    let* in2 := convert_body fuel in1 out st tag hl contents depth in
    flush flush_fuel out;;; ret in2.

Lemma convert_turn_eq fuel in1 out st tag hl contents depth (k : CBS -> K CBS) s :
  2 <= hl -> hl <= cbs_len contents ->
  (let* (out_contents, child_string_tag) :=
     (if negb (st =? 0) then ret (out, st)
      else
        CBB_add_asn1 flush_fuel out (storage depth) (out_tag tag);;;
        ret (storage depth, child_tag st tag)) in
   if at_indefinite hl contents then
     let* in_ := enter (depth + 1) (convert_loop flush_fuel storage fuel in1 out_contents child_string_tag true (depth + 1)) in
     flush flush_fuel out;;; k in_
   else
     let* (r, contents) := run_cbs contents (CBS_skip hl) in
     match r with
     | None => failed
     | Some _ =>
         (if is_constructed tag then
            enter (depth + 1) (convert_loop flush_fuel storage fuel contents out_contents child_string_tag false (depth + 1));;;
            ret tt
          else CBB_add_bytes flush_fuel out_contents (cbs_data contents) (cbs_len contents));;;
         flush flush_fuel out;;; k in1
     end) s
  = bind (convert_turn fuel in1 out st tag hl contents depth) k s.
Proof.
  intros Hhl Hle. unfold convert_turn, convert_body.
  assert (forall t, run_cbs contents (CBS_skip hl) t = Done (Some tt, adv hl contents) t) as Hskip.
  { intros t. unfold run_cbs, CBS_skip, bind. rewrite cbs_get_eq. by destruct (Z.ltb_spec (cbs_len contents) hl); [lia|]. }
  assert (forall st', child_tag st' tag = if st' =? 0 then child_tag 0 tag else st') as Hct
    by (intros st'; unfold child_tag; by destruct (st' =? 0)).
  destruct (Z.eqb_spec st 0) as [->|Hst]; cbn [negb].
  - rewrite !bind_assoc. apply bind_ext. intros _ t. unfold bind at 1, ret at 1.
    destruct (at_indefinite hl contents).
    + rewrite !bind_assoc. apply bind_ext. intros in2 t2. by rewrite bind_assoc.
    + rewrite (bind_done _ _ _ _ _ (Hskip t)), !bind_assoc. apply bind_ext. intros _ t2.
      unfold bind at 2, ret at 1. by rewrite bind_assoc.
  - unfold bind at 1, ret at 1. rewrite Hct, (proj2 (Z.eqb_neq st 0) Hst). destruct (at_indefinite hl contents).
    + rewrite bind_assoc. apply bind_ext. intros in2 t2. by rewrite bind_assoc.
    + rewrite (bind_done _ _ _ _ _ (Hskip s)), !bind_assoc. apply bind_ext. intros _ t2.
      unfold bind at 2, ret at 1. by rewrite bind_assoc.
Qed.

Lemma convert_loop_eq fuel in_ out st eoc depth s :
  good in_ ->
  convert_loop flush_fuel storage (S fuel) in_ out st eoc depth s =
  if cbs_len in_ <=? 0 then (if eoc then Fail s else Done in_ s)
  else
    match CBS_get_any_ber_asn1_element in_ with
    | Done (contents, tag, hl, _) in1 =>
        if at_eoc hl contents then (if eoc then Done in1 s else Fail s)
        else if negb (st =? 0) && negb (primitive_tag tag =? st) then Fail s
        else bind (convert_turn fuel in1 out st tag hl contents depth)
          (fun in2 => convert_loop flush_fuel storage fuel in2 out st eoc depth) s
    | _ => Fail s
    end.
Proof.
  intros Hg. pose proof Hg as [Hok _]. cbn [convert_loop]. destruct (cbs_len in_ <=? 0); [by destruct eoc|].
  unfold bind at 1, run_cbs at 1. pose proof (ber_get_inv in_ Hg) as Hi.
  destruct (CBS_get_any_ber_asn1_element in_) as [[[[contents tag] hl] found] in1|t|u|]; try done.
  destruct Hi as (n & -> & _ & Hhl & Hn & Hle & _).
  rewrite (bind_done _ _ _ _ _ (is_eoc_run in_ hl n s Hok Hhl Hn Hle)). destruct (at_eoc _ _); [by destruct eoc|].
  rewrite <- convert_turn_eq by (cbn; lia).
  destruct (Z.eqb_spec st 0) as [->|Hst]; cbn [negb andb].
  - cbv zeta. rewrite !bind_assoc. unfold child_tag, out_tag. fold (is_string tag). change (0 =? 0) with true. cbv iota.
    destruct (is_string tag); apply bind_ext; intros _ t; unfold bind at 1, ret at 1; symmetry; unfold bind at 1, ret at 1;
      by rewrite (bind_done _ _ _ _ _ (is_indefinite_run in_ hl n t Hok Hhl Hn Hle)).
  - destruct (primitive_tag tag =? st); cbn [negb]; [|done]. unfold bind at 1, ret at 1. symmetry. unfold bind at 1, ret at 1.
    by rewrite (bind_done _ _ _ _ _ (is_indefinite_run in_ hl n s Hok Hhl Hn Hle)).
Qed.

Lemma conv_loop_eq fuel in_ st eoc depth :
  conv_loop (S fuel) st eoc depth in_ =
  if cbs_len in_ <=? 0 then (if eoc then Fail in_ else Done [] in_)
  else
    match CBS_get_any_ber_asn1_element in_ with
    | Done (contents, tag, hl, _) in1 =>
        if at_eoc hl contents then (if eoc then Done [] in1 else Fail in1)
        else if negb (st =? 0) && negb (primitive_tag tag =? st) then Fail in1
        else (let* body := conv_body fuel st tag hl contents depth in
              let* rest := conv_loop fuel st eoc depth in ret (emitted st tag body ++ rest)) in1
    | Fail t => Fail t
    | Undef u => Undef u
    | OutOfFuel => OutOfFuel
    end.
Proof.
  cbn [conv_loop]. unfold bind at 1, CBS_len, gets. destruct (cbs_len in_ <=? 0); [by destruct eoc|].
  unfold bind at 1. destruct (CBS_get_any_ber_asn1_element in_) as [[[[contents tag] hl] found] in1|t|u|]; try done.
  destruct (at_eoc _ _); [by destruct eoc|]. by destruct (_ && _).
Qed.

(** ** The builder follows the conversion *)
Definition follows (fuel : nat) : Prop := forall in_ st eoc depth d outer f s b v,
  good in_ -> cbs_len in_ < 2 ^ 28 -> Z.of_nat d = kMaxDepth - depth -> cbs_len in_ < Z.of_nat fuel ->
  repr s b v (outer ++ [f]) -> unused depth (outer ++ [f]) ->
  match conv_loop fuel st eoc depth in_ with
  | Done o t => gives (convert_loop flush_fuel storage fuel in_ (f_addr f) st eoc depth s) t o b v outer f
  | Fail _ => fails (convert_loop flush_fuel storage fuel in_ (f_addr f) st eoc depth s)
  | _ => True
  end.

(** The bytes of the primitive contents. *)
Lemma gives_bytes outer f s b v c : cbs_ok c -> cbs_len c < 2 ^ 28 -> repr s b v (outer ++ [f]) ->
  gives (CBB_add_bytes flush_fuel (f_addr f) (cbs_data c) (cbs_len c) s) tt (contents c) b v outer f.
Proof.
  intros Hok Hl Hr. pose proof (contents_length c Hok) as Hcl. apply gives_appended.
  assert (CBB_add_bytes flush_fuel (f_addr f) (cbs_data c) (cbs_len c) s
    = CBB_add_bytes flush_fuel (f_addr f) (contents c) (zlen (contents c)) s) as ->.
  { unfold CBB_add_bytes. apply bind_ext. intros _ t. rewrite Hcl. apply bind_ext. intros cb t'.
    apply bind_ext. intros dest t2. unfold cbs_ok in Hok. rewrite Z.ltb_irrefl.
    destruct (Z.ltb_spec (zlen (cbs_data c)) (cbs_len c)); [lia|]. unfold contents, front.
    by rewrite take_take, Nat.min_id. }
  apply appends_bytes; [lia|done|cbn; lia|done].
Qed.

(** What a turn of the conversion without the builder reads. *)
Lemma conv_body_bounds fuel st tag hl n depth d s :
  good s -> cbs_len s < 2 ^ 28 -> Z.of_nat d = kMaxDepth - depth -> cbs_len s < Z.of_nat (S fuel) ->
  2 <= hl -> 0 <= n -> hl + n <= cbs_len s ->
  match conv_body fuel st tag hl (mk_cbs (cbs_data s) (hl + n)) depth (adv (hl + n) s) with
  | Done body t => zlen body <= 4294967294 /\ good t /\ cbs_len t <= cbs_len s - 2
  | Fail _ => True
  | _ => False
  end.
Proof.
  intros Hs Hl Hd Hf Hhl Hn Hle. unfold conv_body. rewrite !(enter_depth _ d) by done.
  pose proof Hs as [Hok _]. assert (sub s (adv (hl + n) s)) as Hsub by (apply sub_adv; [done|lia]).
  pose proof (sub_good _ _ Hs Hsub) as Hg1. destruct (kid_good s hl n Hs ltac:(lia) Hn Hle) as (Hkg & Hkc & Hkl).
  assert (forall c st' eoc o t, good c -> cbs_len c <= cbs_len s - 2 -> conv_loop fuel st' eoc (depth + 1) c = Done o t ->
    forall d', d = S d' -> zlen o <= 4294967294 /\ good t /\ cbs_len t <= cbs_len s - 2) as Hk.
  { intros c st' eoc o t Hc Hcl E d' ->. pose proof (conv_sound fuel c st' eoc (depth + 1) d' Hc ltac:(lia) ltac:(lia)) as H1.
    rewrite E in H1. destruct H1 as (Hst & _ & l & Ec & Hcv). pose proof (contents_length c (proj1 Hc)) as Hz.
    rewrite Ec, !zlen_app in Hz. zlen_pos. pose proof (converts_length _ _ _ _ Hcv ltac:(lia)).
    split; [lia|]. split; [by eapply sub_good|]. destruct Hst as [_ (j & ? & _ & ?)]. lia. }
  assert (forall c st' eoc d', good c -> cbs_len c <= cbs_len s - 2 -> d = S d' ->
    match conv_loop fuel st' eoc (depth + 1) c with Done _ _ | Fail _ => True | _ => False end) as Htot.
  { intros c st' eoc d' Hc Hcl ->. pose proof (conv_sound fuel c st' eoc (depth + 1) d' Hc ltac:(lia) ltac:(lia)) as H1.
    by destruct (conv_loop fuel st' eoc (depth + 1) c). }
  destruct (at_indefinite _ _).
  - destruct d as [|d]; [done|]. specialize (Hk (adv (hl + n) s) (child_tag st tag) true).
    specialize (Htot (adv (hl + n) s) (child_tag st tag) true d Hg1 ltac:(cbn; lia) eq_refl).
    destruct (conv_loop fuel _ true _ _) as [o t|t|u|]; try done. by apply (Hk o t Hg1 ltac:(cbn; lia) eq_refl d).
  - destruct (is_constructed tag).
    + destruct d as [|d]; [done|]. specialize (Hk (adv hl (mk_cbs (cbs_data s) (hl + n))) (child_tag st tag) false).
      specialize (Htot (adv hl (mk_cbs (cbs_data s) (hl + n))) (child_tag st tag) false d Hkg ltac:(lia) eq_refl). unfold bind, on_cbs.
      destruct (conv_loop fuel _ false _ _) as [o t|t|u|] eqn:E; try done. unfold ret.
      destruct (Hk o t Hkg ltac:(lia) eq_refl d eq_refl) as (Ho & _ & _). split; [done|]. split; [done|]. cbn. lia.
    + unfold ret. split; [|split; [done|cbn; lia]]. cbn [cbs_len]. replace (hl + n - hl) with n by lia.
      unfold front. rewrite zlen_take; [lia|]. destruct Hkg as [Hko _]. unfold cbs_ok, zlen in Hko. lia.
Qed.

Lemma body_follows fuel st tag hl n depth d in_ outer g s b v :
  follows fuel -> good in_ -> cbs_len in_ < 2 ^ 28 -> Z.of_nat d = kMaxDepth - depth -> cbs_len in_ < Z.of_nat (S fuel) ->
  2 <= hl -> 0 <= n -> hl + n <= cbs_len in_ ->
  repr s b v (outer ++ [g]) -> unused (depth + 1) (outer ++ [g]) ->
  let contents := mk_cbs (cbs_data in_) (hl + n) in
  match conv_body fuel st tag hl contents depth (adv (hl + n) in_) with
  | Done body t => gives (convert_body fuel (adv (hl + n) in_) (f_addr g) st tag hl contents depth s) t body b v outer g
  | Fail _ => fails (convert_body fuel (adv (hl + n) in_) (f_addr g) st tag hl contents depth s)
  | _ => True
  end.
Proof.
  intros IH Hs Hl Hd Hf Hhl Hn Hle Hr Hu contents. unfold conv_body, convert_body. rewrite !(enter_depth _ d) by done.
  pose proof Hs as [Hok _]. assert (sub in_ (adv (hl + n) in_)) as Hsub by (apply sub_adv; [done|lia]).
  pose proof (sub_good _ _ Hs Hsub) as Hg1. destruct (kid_good in_ hl n Hs ltac:(lia) Hn Hle) as (Hkg & Hkc & Hkl).
  fold contents in Hkg, Hkc, Hkl. destruct (at_indefinite hl contents).
  - destruct d as [|d]; [done|].
    apply (IH (adv (hl + n) in_) (child_tag st tag) true (depth + 1) d outer g s b v); try done; cbn; lia.
  - destruct (is_constructed tag).
    + destruct d as [|d]; [done|].
      pose proof (IH (adv hl contents) (child_tag st tag) false (depth + 1) d outer g s b v Hkg ltac:(lia) ltac:(lia) ltac:(lia) Hr Hu) as Hk.
      unfold bind at 1, on_cbs. destruct (conv_loop fuel _ false _ _) as [body t|t|u|]; try done.
      * unfold ret at 1. rewrite <- (app_nil_r body). rewrite bind_assoc. eapply gives_then; [exact Hk|].
        intros t' v' Hr'. by apply gives_nothing.
      * by apply bind_fails, bind_fails.
    + unfold ret at 1. assert (front (cbs_len contents - hl) (adv hl contents) = CbsDer.contents (adv hl contents)) as -> by done.
      rewrite <- (app_nil_r (CbsDer.contents _)). eapply gives_then; [apply gives_bytes; [apply Hkg|lia|done]|].
      intros t' v' Hr'. by apply gives_nothing.
Qed.

(** A turn, with the element that it opens. *)
Lemma turn_follows fuel st tag hl n depth d in_ outer f s b v :
  follows fuel -> good in_ -> cbs_len in_ < 2 ^ 28 -> Z.of_nat d = kMaxDepth - depth -> cbs_len in_ < Z.of_nat (S fuel) ->
  2 <= hl -> 0 <= n -> hl + n <= cbs_len in_ -> 0 <= tag < 2 ^ 32 ->
  repr s b v (outer ++ [f]) -> unused depth (outer ++ [f]) ->
  let contents := mk_cbs (cbs_data in_) (hl + n) in
  match conv_body fuel st tag hl contents depth (adv (hl + n) in_) with
  | Done body t =>
      gives (convert_turn fuel (adv (hl + n) in_) (f_addr f) st tag hl contents depth s) t (emitted st tag body) b v outer f
  | Fail _ => fails (convert_turn fuel (adv (hl + n) in_) (f_addr f) st tag hl contents depth s)
  | _ => True
  end.
Proof.
  intros IH Hs Hl Hd Hf Hhl Hn Hle Htag Hr Hu contents. unfold convert_turn, emitted.
  pose proof (conv_body_bounds fuel st tag hl n depth d in_ Hs Hl Hd Hf Hhl Hn Hle) as Hbd. fold contents in Hbd.
  pose proof (fun outer g s v => body_follows fuel st tag hl n depth d in_ outer g s b v IH Hs Hl Hd Hf Hhl Hn Hle) as Hb.
  cbv zeta in Hb. fold contents in Hb. destruct (conv_body fuel st tag hl contents depth _) as [body t|t|u|]; try done.
  - destruct Hbd as (Hbl & _ & _). destruct (st =? 0).
    + apply gives_element; [by apply out_tag_range|done|done|done|]. intros t' v' f' Hr' Hm. 
      apply (Hb (outer ++ [f']) (mk_frame (storage depth) 1 true true []) t' v'); [done|exact (unused_child depth outer f f' Hu Hm)].
    + rewrite <- (app_nil_r body). eapply gives_then; [apply Hb; [done|]|].
      { intros k Hk. apply Hu. lia. }
      intros t' v' Hr'. rewrite <- (app_nil_r []). eapply gives_then.
      * apply gives_appended. by apply (appends_flush flush_fuel (f_addr f) outer (add_body body f) []); [|cbn; lia|].
      * intros t2 v2 Hr2. by apply gives_nothing.
  - destruct (st =? 0).
    + apply (element_fails _ _ _ _ b v outer f depth); [by apply out_tag_range|done|done|]. intros t' v' f' Hr' Hm.
      apply (Hb (outer ++ [f']) (mk_frame (storage depth) 1 true true []) t' v'); [done|exact (unused_child depth outer f f' Hu Hm)].
    + apply bind_fails. apply (Hb outer f s v); [done|]. intros k Hk. apply Hu. lia.
Qed.

Lemma convert_follows fuel : follows fuel.
Proof.
  induction fuel as [|fuel IH]; intros in_ st eoc depth d outer f s b v Hs Hl Hd Hf Hr Hu.
  { destruct Hs as [Hok _]. unfold cbs_ok in Hok. lia. }
  rewrite convert_loop_eq, conv_loop_eq by done. destruct (cbs_len in_ <=? 0).
  { destruct eoc; [done|]. by apply gives_nothing. }
  pose proof (ber_get_inv in_ Hs) as Hi.
  destruct (CBS_get_any_ber_asn1_element in_) as [[[[contents tag] hl] found] in1|t|u|]; try done.
  destruct Hi as (n & -> & -> & Hhl & Hn & Hle & Htag & _).
  destruct (at_eoc _ _). { destruct eoc; [by apply gives_nothing|done]. }
  destruct (_ && _); [done|].
  pose proof (turn_follows fuel st tag hl n depth d in_ outer f s b v IH Hs Hl Hd Hf Hhl Hn Hle Htag Hr Hu) as Ht. cbv zeta in Ht.
  pose proof (conv_body_bounds fuel st tag hl n depth d in_ Hs Hl Hd Hf Hhl Hn Hle) as Hbd.
  unfold bind at 1. destruct (conv_body fuel st tag hl _ depth _) as [body t|t|u|]; try done; [|by apply bind_fails].
  destruct Hbd as (_ & Hgt & Hlt).
  pose proof (fun s v f' => IH t st eoc depth d outer f' s b v Hgt ltac:(lia) Hd ltac:(lia)) as Hk.
  unfold bind at 1. destruct (conv_loop fuel st eoc depth t) as [o t'|t'|u|]; try done.
  - eapply gives_then; [exact Ht|]. intros s' v' Hr'. apply (Hk s' v' (add_body (emitted st tag body) f)); [done|].
    by apply unused_body.
  - eapply gives_fails; [exact Ht|]. intros s' v' Hr'. apply (Hk s' v' (add_body (emitted st tag body) f)); [done|].
    by apply unused_body.
Qed.
End Convert.

(** * The strings of [CBS_get_asn1_implicit_string] *)
(** ** Elements of one tag *)
Lemma get_asn1_exact tag : 0 <= tag < 2 ^ 32 ->
  reads_exactly (der tag) (fun body => zlen body < 2 ^ 32) contents (CBS_get_asn1 tag).
Proof.
  intros Ht. eapply reads_exactly_intro; [apply reader_asn1|..].
  - intros s c t Hs E. destruct (get_asn1_inv tag s c t Hs E) as (n & H1 & H2 & H3 & [_ H4] & _). split; [done|]. by exists n.
  - intros body rest left Hv H1 H2 H3. assert (good (mk_cbs (der tag body ++ rest) left)) as Hg.
    { split; [|done]. unfold cbs_ok. cbn. zlen_pos. lia. }
    rewrite get_asn1_eq, any_asn1_element by done. rewrite Z.eqb_refl. eauto.
Qed.

(** An element that is there is read. *)
Lemma get_asn1_of tag body rest s : good s -> 0 <= tag < 2 ^ 32 -> zlen body < 2 ^ 32 -> contents s = der tag body ++ rest ->
  exists c t, CBS_get_asn1 tag s = Done c t /\ contents c = body /\ contents t = rest.
Proof.
  intros Hs Ht Hb Hc. destruct (contents_cons _ _ s (proj1 Hs) Hc) as (more & Hse & H1 & H2).
  destruct (CBS_get_asn1 tag s) as [c t|t|u|] eqn:E.
  - exists c, t. split; [done|]. pose proof (get_asn1_exact tag Ht s Hs) as Hx. rewrite E in Hx. destruct Hx as (_ & Et & Hx).
    rewrite (get_asn1_eq _ _ Hs), Hse, any_asn1_element, Z.eqb_refl in E; [|done..|apply Hs]. injection E as <- _.
    assert (contents (mk_cbs (body ++ more) (zlen body)) = body) as Hcb.
    { unfold contents, front. cbn. by rewrite zlen_to_nat, take_app_length. }
    rewrite Hcb in *. split; [done|]. rewrite Hc in Hx. by apply app_inv_head in Hx.
  - rewrite (get_asn1_eq _ _ Hs), Hse, any_asn1_element, Z.eqb_refl in E; [done|done..|apply Hs].
  - rewrite (get_asn1_eq _ _ Hs), Hse, any_asn1_element, Z.eqb_refl in E; [done|done..|apply Hs].
  - rewrite (get_asn1_eq _ _ Hs), Hse, any_asn1_element, Z.eqb_refl in E; [done|done..|apply Hs].
Qed.

Lemma der_length_min tag body : 0 <= tag < 2 ^ 32 -> zlen body < 2 ^ 32 -> 2 + zlen body <= zlen (der tag body).
Proof.
  intros Ht Hb. unfold der, der_header. rewrite !zlen_app. pose proof (zlen_nonneg body).
  pose proof (ber_header tag _ _ Ht (ber_len_der (zlen body) ltac:(lia))). lia.
Qed.

(** Two tags at the front are one. *)
Lemma same_tag s tag tag' rest : good s -> 0 <= tag < 2 ^ 32 -> 0 <= tag' < 2 ^ 32 ->
  starts_with_tag tag s -> contents s = der_tag tag' ++ rest -> tag = tag'.
Proof.
  intros Hs Ht Ht' [r E] E'.
  destruct (contents_cons _ _ s (proj1 Hs) E) as (m & Hse & H1 & _).
  destruct (contents_cons _ _ s (proj1 Hs) E') as (m' & Hse' & H1' & _).
  pose proof (parse_tag_der tag m _ Ht H1) as P. pose proof (parse_tag_der tag' m' _ Ht' H1') as P'.
  rewrite <- Hse in P. rewrite <- Hse' in P'. congruence.
Qed.

(** The pieces, each in an element of the tag [inner]. *)
Definition in_pieces (inner : Z) (ps : list (list byte)) : list byte := concat (map (der inner) ps).
Definition pieces_ok (ps : list (list byte)) : Prop := Forall (fun p => zlen p < 2 ^ 32) ps.

Section Strings.
Context `{AllocatorLaws}.
Variable flush_fuel : nat.
Hypothesis flush_fuel_enough : (1 < flush_fuel)%nat.

Lemma chunks_follow inner : 0 <= inner < 2 ^ 32 -> forall fuel child f s b v,
  good child -> cbs_len child < 2 ^ 28 -> cbs_len child < Z.of_nat fuel -> repr s b v [f] ->
  match chunk_loop flush_fuel fuel (f_addr f) child inner s with
  | Done _ t => exists ps, pieces_ok ps /\ contents child = in_pieces inner ps /\ zlen (concat ps) <= cbs_len child /\
      exists v', repr t b v' [add_body (concat ps) f] /\ grown v v' (zlen (concat ps))
  | Fail _ => (forall ps, pieces_ok ps -> contents child <> in_pieces inner ps) \/ blocked v (cbs_len child)
  | _ => False
  end.
Proof.
  intros Ht. induction fuel as [|fuel IH]; intros child f s b v Hs Hl Hf Hr; pose proof Hs as [Hok Hsz];
    [unfold cbs_ok in Hok; lia|]. cbn [chunk_loop]. pose proof (contents_length child Hok) as Hcl.
  destruct (Z.leb_spec (cbs_len child) 0).
  - exists []. split; [constructor|]. assert (contents child = []) as -> by (apply length_zero_iff_nil; unfold zlen, cbs_ok in *; lia).
    split; [done|]. split; [cbn [concat]; rewrite zlen_nil; unfold cbs_ok in Hok; lia|]. exists v. rewrite add_body_nil. split; [done|]. constructor; zl || done.
  - unfold bind at 1, run_cbs. pose proof (get_asn1_exact inner Ht child Hs) as Hx. pose proof (reader_asn1 inner true child Hs) as Hrd.
    unfold CBS_get_asn1 in *. destruct (cbs_get_asn1 inner true child) as [c t|t|u|] eqn:E; try done.
    2: { left. intros [|p ps] Hps E'.
         - rewrite E' in Hcl. change (zlen (in_pieces inner [])) with 0 in Hcl. lia.
         - inversion Hps as [|? ? Hp _]; subst. by destruct Hx as [_ Hx]; apply (Hx p (in_pieces inner ps)). }
    destruct Hx as (Hp & Et & Hc). destruct Hrd as [Hst Hsc]. pose proof (sub_good _ _ Hs Hst) as Hgt.
    pose proof (sub_good _ _ Hs Hsc) as Hgc. pose proof (contents_length c (proj1 Hgc)) as Hlc.
    pose proof (der_length_min inner (contents c) Ht Hp) as Hm.
    assert (cbs_len t = cbs_len child - zlen (der inner (contents c))) as Htl by (by rewrite Et). pose proof (zlen_nonneg (contents c)).
    assert (0 <= cbs_len t) by (destruct Hgt; unfold cbs_ok in *; lia).
    pose proof (gives_bytes flush_fuel flush_fuel_enough [] f s b v c (proj1 Hgc) ltac:(lia) Hr) as Hg.
    unfold bind at 1. unfold gives in Hg.
    destruct (CBB_add_bytes flush_fuel (f_addr f) (cbs_data c) (cbs_len c) s) as [[] s1|s1|u|]; try done.
    2: { right. apply (blocked_le _ _ _ (proj1 Hg)). lia. }
    destruct Hg as (_ & v1 & Hr1 & Hg1). cbn [app] in Hr1.
    pose proof (IH t (add_body (contents c) f) s1 b v1 Hgt ltac:(lia) ltac:(lia) Hr1) as Hk. cbn [f_addr add_body] in Hk.
    destruct (chunk_loop flush_fuel fuel (f_addr f) t inner s1) as [[] s2|s2|u|]; try done.
    + destruct Hk as (ps & Hps & Ec & Hlp & v2 & Hr2 & Hg2). exists (contents c :: ps). split; [by constructor|].
      split; [by rewrite Hc, Ec|]. cbn [concat]. rewrite zlen_app. split; [lia|]. exists v2. rewrite <- add_body_app.
      split; [done|]. by apply (grown_trans _ _ _ _ _ Hg1).
    + destruct Hk as [Hk|Hk]; [left|right].
      * intros [|p ps] Hps E'; [rewrite E' in Hcl; change (zlen (in_pieces inner [])) with 0 in Hcl; lia|]. inversion Hps as [|? ? Hp' Hps']; subst.
        destruct (get_asn1_of inner p (in_pieces inner ps) child Hs Ht Hp' E') as (c' & t' & E2 & _ & Ht').
        unfold CBS_get_asn1 in E2. rewrite E in E2. injection E2 as <- <-. by apply (Hk ps).
      * apply (grown_blocked _ _ _ _ Hg1) in Hk; [|lia]. apply (blocked_le _ _ _ Hk). lia.
Qed.

Lemma cleans_chunks a result inner fuel : forall child, cleans a (chunk_loop flush_fuel fuel result child inner).
Proof. induction fuel as [|fuel IH]; intros child; cbn [chunk_loop]; [done|]. cleans. Qed.

(** The builder's part. *)
Lemma join_spec fuel result in_ tag inner s :
  good in_ -> cbs_len in_ < 2 ^ 28 -> cbs_len in_ < Z.of_nat fuel -> 0 <= tag < 2 ^ 32 -> 0 <= inner < 2 ^ 32 ->
  match (CBB_init result (cbs_len in_);;;
         let* (r, in_) := run_cbs in_ (CBS_get_asn1 tag) in
         match r with
         | None => failed
         | Some child =>
             chunk_loop flush_fuel fuel result child inner;;;
             let* (data, len) := CBB_finish flush_fuel result in ret (in_, data, len)
         end) s with
  | Done (t, buf, len) _ => exists ps, pieces_ok ps /\ contents in_ = der tag (in_pieces inner ps) ++ contents t /\
      len = zlen (concat ps) /\ take (Z.to_nat len) buf = concat ps /\ len <= zlen buf /\ len <= cbs_len in_
  | Fail t => cleanable result t /\
      ((forall ps rest, pieces_ok ps -> zlen (in_pieces inner ps) < 2 ^ 32 -> contents in_ <> der tag (in_pieces inner ps) ++ rest) \/
       out_of_memory)
  | _ => False
  end.
Proof.
  intros Hs Hl Hf Ht Hi. pose proof Hs as [Hok Hsz]. assert (0 <= cbs_len in_) as Hpos by (unfold cbs_ok in Hok; lia).
  pose proof (CBB_init_spec result (cbs_len in_) s ltac:(lia)) as Hin. pose proof (init_cleanable result (cbs_len in_) s) as Hci.
  unfold bind at 1. destruct (CBB_init result (cbs_len in_) s) as [u s1|s1|u|]; try done; [|by auto].
  destruct Hin as (b & v & Hr & Hres & Hlen). unfold bind at 1, run_cbs.
  pose proof (get_asn1_exact tag Ht in_ Hs) as Hx. pose proof (reader_asn1 tag true in_ Hs) as Hrd. unfold CBS_get_asn1 in Hx |- *.
  destruct (cbs_get_asn1 tag true in_) as [c t|t|u'|] eqn:E; try done.
  2: { split; [done|]. left. intros ps rest _ Hz. by apply Hx. }
  destruct Hx as (Hp & Et & Hc). destruct Hrd as [Hst Hsc]. pose proof (sub_good _ _ Hs Hsc) as Hgc.
  assert (cbs_len c <= cbs_len in_) as Hcl by (destruct Hsc as [_ (j & ? & _ & ?)]; lia).
  assert (forall w n, grown v w n -> forall m, n + m < 2 ^ 64 -> blocked w m -> out_of_memory) as Hw.
  { intros w n [g1 g2 g3] m Hm [Hx|[_ [Hx|Hx]]]; [lia|congruence|by right; right]. }
  pose proof (chunks_follow inner Hi fuel c (root_frame result []) s1 b v Hgc ltac:(lia) ltac:(lia) Hr) as Hk.
  pose proof (cleans_chunks result result inner fuel c s1 Hci) as Hcl1. cbn [f_addr root_frame] in Hk.
  unfold bind at 1. destruct (chunk_loop flush_fuel fuel result c inner s1) as [[] s2|s2|u'|]; try done.
  - destruct Hk as (ps & Hps & Ec & Hlp & v2 & Hr2 & Hg2).
    change (add_body (concat ps) (root_frame result [])) with (root_frame result (concat ps)) in Hr2.
    pose proof (CBB_finish_spec flush_fuel result (concat ps) [] s2 b v2 ltac:(cbn; lia) Hr2) as Hfin.
    pose proof (finish_cleanable flush_fuel result s2 Hcl1) as Hcf. unfold bind.
    destruct (CBB_finish flush_fuel result s2) as [[buf len] s3|s3|u'|]; try done.
    + destruct Hfin as (c' & [= <-] & -> & Htake & Hz). rewrite app_nil_r in *. unfold ret. exists ps. rewrite <- Ec. do 5 (split; [done|]). lia.
    + split; [done|]. right. specialize (Hfin [] eq_refl). change (text []) with (@nil byte) in Hfin.
      apply (Hw v2 _ Hg2 0); [lia|]. by replace 0 with (zlen (@nil byte) - zlen (@nil byte)) by done.
  - split; [done|]. destruct Hk as [Hk|Hk]; [left|right].
    + intros ps rest Hps Hz E'. destruct (get_asn1_of tag _ rest in_ Hs Ht Hz E') as (c' & t' & E2 & Hc' & _).
      unfold CBS_get_asn1 in E2. rewrite E in E2. injection E2 as <- <-. by apply (Hk ps).
    + apply (Hw v 0 ltac:(constructor; lia || done) (cbs_len c)); [lia|done].
Qed.

(** C7: [CBS_get_asn1_implicit_string] ends without undefined behaviour.  A
    string under the tag [outer_tag] is given in place; one whose pieces, under
    [inner_tag], are in a constructed element of that tag is given joined, in
    new storage; what follows stays in the input.  It fails only when neither
    form is at the front of the input, or when memory runs out. *)
Theorem implicit_string_joins fuel result in_ outer_tag inner_tag s :
  good in_ -> cbs_len in_ < 2 ^ 28 -> cbs_len in_ < Z.of_nat fuel ->
  0 <= outer_tag < 2 ^ 32 -> 0 <= inner_tag < 2 ^ 32 ->
  is_constructed outer_tag = false -> is_constructed inner_tag = false -> is_string_type inner_tag = true ->
  let joined ps := der (Z.lor outer_tag CBS_ASN1_CONSTRUCTED) (in_pieces inner_tag ps) in
  match CBS_get_asn1_implicit_string flush_fuel fuel result in_ outer_tag inner_tag s with
  | Done (t, out, None) s' => s' = s /\ contents in_ = der outer_tag (contents out) ++ contents t
  | Done (t, out, Some buf) _ => cbs_data out = buf /\ good out /\
      exists ps, contents in_ = joined ps ++ contents t /\ contents out = concat ps
  | Fail _ =>
      (forall body rest, zlen body < 2 ^ 32 -> contents in_ <> der outer_tag body ++ rest) /\
      ((forall ps rest, pieces_ok ps -> zlen (in_pieces inner_tag ps) < 2 ^ 32 -> contents in_ <> joined ps ++ rest) \/
       out_of_memory)
  | _ => False
  end.
Proof.
  intros Hs Hl Hf Ho Hi Hoc Hic Hst joined. pose proof Hs as [Hok Hsz].
  assert (0 <= Z.lor outer_tag CBS_ASN1_CONSTRUCTED < 2 ^ 32) as Hoc' by (apply lor_bound; [lia|done|by vm_compute]).
  assert (Z.lor outer_tag CBS_ASN1_CONSTRUCTED <> outer_tag) as Hne.
  { intros E. rewrite <- E in Hoc. unfold is_constructed in Hoc. apply negb_false_iff, Z.eqb_eq in Hoc.
    rewrite Z.land_lor_distr_l, Z.lor_eq_0_iff in Hoc. by destruct Hoc. }
  unfold CBS_get_asn1_implicit_string. rewrite Hoc, Hic, Hst. cbn [orb negb].
  destruct (peek_spec outer_tag in_ Hs Ho) as (p & Ep & Hp). unfold bind at 1, run_cbs at 1. rewrite Ep. destruct p.
  - unfold bind, run_cbs. pose proof (get_asn1_exact outer_tag Ho in_ Hs) as Hx.
    destruct (CBS_get_asn1 outer_tag in_) as [c t|t|u|]; try done; [by destruct Hx as (_ & _ & Hx)|].
    destruct Hx as [_ Hx]. unfold failed. split; [intros body rest Hb; by apply Hx|]. left. intros ps rest _ _ E.
    apply Hne. symmetry. unfold joined, der, der_header in E. rewrite <- !app_assoc in E.
    apply (same_tag in_ _ _ _ Hs Ho Hoc' (proj1 Hp eq_refl) E).
  - assert (forall body rest, contents in_ <> der outer_tag body ++ rest) as Hno.
    { intros body rest E. enough (false = true) by done. apply Hp. eexists. unfold der, der_header in E. rewrite <- !app_assoc in E. exact E. }
    pose proof (join_spec fuel result in_ _ inner_tag s Hs Hl Hf Hoc' Hi) as Hj. unfold bind at 1, attempt.
    destruct (bind (CBB_init result (cbs_len in_)) _ s) as [[[t buf] len] s'|s'|u|]; try done.
    + destruct Hj as (ps & Hps & Ec & -> & Htake & Hz & Hz'). unfold ret, CBS_init. split; [done|].
      assert (contents (mk_cbs buf (zlen (concat ps))) = concat ps) as -> by done.
      split; [split; [unfold cbs_ok; cbn; zlen_pos; lia|cbn; lia]|]. by exists ps.
    + destruct Hj as [Hc Hj]. destruct (cleanup_spec result s' Hc) as [s2 E2]. unfold bind. rewrite E2. unfold failed.
      split; [by auto|exact Hj].
Qed.
End Strings.

(** An IMPLICIT [0] OCTET STRING in pieces. *)
Lemma implicit_string_joins_witness : exists t out buf s',
  CBS_get_asn1_implicit_string (H := Sample.allocator) 3 100 5 (CBS_init (map zb [160; 7; 4; 1; 5; 4; 2; 6; 7; 9]) 10)
    2147483648 4 Sample.nothing = Done (t, out, Some buf) s' /\
  contents out = map zb [5; 6; 7] /\ contents t = [zb 9].
Proof.
  set (i := CBS_init (map zb [160; 7; 4; 1; 5; 4; 2; 6; 7; 9]) 10).
  pose proof (implicit_string_joins (H := Sample.allocator) (H0 := Sample.laws) 3 ltac:(lia) 100 5 i 2147483648 4 Sample.nothing
    ltac:(split; [unfold cbs_ok; by vm_compute|done]) ltac:(done) ltac:(done) ltac:(done) ltac:(done) eq_refl eq_refl eq_refl) as H.
  destruct (CBS_get_asn1_implicit_string _ _ _ _ _ _ _) as [[[t out] [buf|]] s'| | |] eqn:E; try (vm_compute in E; discriminate).
  exists t, out, buf, s'. split; [done|]. destruct H as (_ & _ & ps & _ & _). vm_compute in E. by injection E as <- <- <- <-.
Defined.
