(* ===== verification/BerTheorems.v ===== *)
(** BoringSSL, [crypto/bytestring/ber.c]: the properties of the conversion from
    BER to DER, with their witnesses. *)
From S2P Require Import Prelude.
From S2P Require Import Cbs Cbb CbsProofs CbsDer CbbProofs CbbTheorems Ber BerProofs BerConvert.

Lemma cleans_convert `{CbbAllocator} flush_fuel storage a fuel : forall in_ out st eoc depth,
  (forall k, storage k <> a) -> cleans a (convert_loop flush_fuel storage fuel in_ out st eoc depth).
Proof.
  intros in_ out st eoc depth Hst. revert in_ out st eoc depth.
  induction fuel as [|fuel IH]; intros in_ out st eoc depth; cbn [convert_loop]; [done|].
  unfold enter, is_eoc, is_indefinite, flush. cleans.
Qed.

(** ** The search for BER *)
(** An input that can be converted has no error that the search meets. *)
Lemma find_total d st l o : converts d st l o -> forall s fuel depth f, st = 0 ->
  good s -> contents s = l -> Z.of_nat d = kMaxDepth - depth -> cbs_len s < Z.of_nat fuel ->
  exists found t, find_ber_loop fuel depth f s = Done found t.
Proof.
  induction 1 as [d st|d st tag lb body l o Hcon Ht Hal Hb Hne _ IH|d st tag lb kids body l o Hcon Ht Hal Hb _ IHk _ IH
    |d st tag kids body l o Hcon Ht Hal _ IHk _ IH]; intros s [|fuel] depth f -> Hs Hc Hd Hf;
    pose proof Hs as [Hok Hsz]; try (unfold cbs_ok in Hok; lia); pose proof (contents_length s Hok) as Hl;
    cbn [find_ber_loop]; unfold bind at 1, CBS_len, gets.
  - rewrite Hc in Hl. cbn in Hl. rewrite <- Hl. by exists f, s.
  - destruct (ber_get s tag lb (zlen body) (body ++ l) Hs Ht Hc ltac:(zl)) as (Hfr & Ha & Hle & found & E); [by apply decode_definite|].
    pose proof (ber_header _ _ _ Ht Hb). set (hl := zlen (der_tag tag) + zlen lb) in *. zlen_pos. destruct (Z.leb_spec (cbs_len s) 0); [lia|].
    rewrite (bind_done _ _ _ _ _ E), Hcon. destruct found; [by eexists _, _|].
    assert (sub s (adv (hl + zlen body) s)) as Hsub by (apply sub_adv; [done|lia]).
    destruct (take_body s hl body l Hok ltac:(lia) Hle Ha) as [_ Hrest].
    apply IH; [done|exact (sub_good _ _ Hs Hsub)|done|done|cbn; lia].
  - destruct (ber_get s tag lb (zlen kids) (kids ++ l) Hs Ht Hc ltac:(zl)) as (Hfr & Ha & Hle & found & E); [by apply decode_definite|].
    pose proof (ber_header _ _ _ Ht Hb). set (hl := zlen (der_tag tag) + zlen lb) in *. zlen_pos. destruct (Z.leb_spec (cbs_len s) 0); [lia|].
    rewrite (bind_done _ _ _ _ _ E), Hcon. destruct found; [by eexists _, _|].
    destruct (is_string_type tag) eqn:Hstr; [by eexists _, _|].
    destruct (take_body s hl kids l Hok ltac:(lia) Hle Ha) as [Hbody Hrest].
    destruct (kid_good s hl (zlen kids) Hs ltac:(lia) ltac:(lia) Hle) as (Hkg & Hkc & Hkl). cbv zeta in Hkg, Hkc, Hkl.
    unfold bind at 1, on_cbs at 1, CBS_skip, bind at 1. rewrite cbs_get_eq. cbn [cbs_len].
    destruct (Z.ltb_spec (hl + zlen kids) hl); [lia|]. unfold ret at 1.
    assert (child_tag 0 tag = 0) as Hct by (unfold child_tag, is_string; by rewrite Hstr, andb_false_r).
    destruct (IHk _ fuel (depth + 1) false Hct Hkg) as (f' & t & Et); [by rewrite Hkc|lia|lia|].
    unfold bind, on_cbs, enter. destruct (Z.ltb_spec kMaxDepth (depth + 1)); [lia|].
    change (mk_cbs (drop (Z.to_nat hl) (cbs_data s)) (hl + zlen kids - hl)) with (adv hl (mk_cbs (cbs_data s) (hl + zlen kids))).
    cbn [cbs_data]. rewrite Et.
    assert (sub s (adv (hl + zlen kids) s)) as Hsub by (apply sub_adv; [done|lia]).
    apply IH; [done|exact (sub_good _ _ Hs Hsub)|done|done|cbn; lia].
  - destruct (ber_get_found s tag [zb 128] 0 (kids ++ eoc_bytes ++ l) true Hs Ht Hc ltac:(zl)) as (Hfr & Ha & Hle & E).
    { cbn. by rewrite Hcon. }
    pose proof (der_tag_length tag Ht). change (zlen [zb 128]) with 1 in *. destruct (Z.leb_spec (cbs_len s) 0); [lia|].
    rewrite (bind_done _ _ _ _ _ E). by eexists _, _.
Qed.

(** An element without BER in its header is read as DER. *)
Lemma der_of_ber s out tag hl t :
  CBS_get_any_ber_asn1_element s = Done (out, tag, hl, false) t -> CBS_get_any_asn1_element s = Done (out, tag, hl) t.
Proof.
  unfold CBS_get_any_asn1_element, CBS_get_any_ber_asn1_element, cbs_get_any_asn1_element, bind, on_cbs, gets, id.
  destruct (parse_asn1_tag s) as [tag' t1|t1|u|]; try done. destruct (CBS_get_u8 t1) as [b t2|t2|u|]; try done.
  destruct (Z.land b 128 =? 0).
  { destruct (CBS_get_bytes _ s) as [o t3|t3|u|]; try done. by intros [= <- <- <- <-]. }
  cbn [andb]. destruct (_ && (Z.land b 127 =? 0)); [by destruct (CBS_get_bytes _ s)|].
  destruct (_ || _); [done|]. destruct (cbs_get_u _ t2) as [n t3|t3|u|]; try done. rewrite !andb_false_r.
  destruct (_ <? n); [done|]. destruct (CBS_get_bytes _ s) as [o t4|t4|u|] eqn:Eb; try done.
  intros [= <- <- <- E <-]. apply orb_false_iff in E as [-> ->]. cbn [andb negb]. by rewrite Eb.
Qed.

(** The search ends. *)
Lemma find_ends fuel : forall s depth f, good s -> cbs_len s < Z.of_nat fuel ->
  match find_ber_loop fuel depth f s with Done _ _ | Fail _ => True | _ => False end.
Proof.
  induction fuel as [|fuel IH]; intros s depth f Hs Hf; pose proof Hs as [Hok Hsz]; [unfold cbs_ok in Hok; lia|].
  cbn [find_ber_loop]. unfold bind at 1, CBS_len, gets. destruct (Z.leb_spec (cbs_len s) 0); [done|]. unfold bind at 1.
  pose proof (ber_get_inv s Hs) as Hg. destruct (CBS_get_any_ber_asn1_element s) as [[[[out tag] hl] found] t|t|u|]; try done.
  destruct Hg as (n & -> & -> & Hhl & Hn & Hle & _). destruct found; [done|].
  assert (sub s (adv (hl + n) s)) as Hsub by (by apply sub_adv; [|lia]). pose proof (sub_good _ _ Hs Hsub) as Hg.
  destruct (is_constructed tag); [|apply IH; [done|cbn; lia]]. destruct (is_string_type tag); [done|].
  destruct (kid_good s hl n Hs ltac:(lia) ltac:(lia) Hle) as (Hkg & _ & Hkl). cbv zeta in Hkg, Hkl.
  unfold bind at 1, on_cbs at 1, CBS_skip, bind at 1. rewrite cbs_get_eq. cbn [cbs_len cbs_data].
  destruct (Z.ltb_spec (hl + n) hl); [lia|]. unfold ret at 1, bind, on_cbs, enter. destruct (kMaxDepth <? depth + 1); [done|].
  change (mk_cbs (drop (Z.to_nat hl) (cbs_data s)) (hl + n - hl)) with (adv hl (mk_cbs (cbs_data s) (hl + n))).
  pose proof (IH _ (depth + 1) false Hkg ltac:(lia)) as Hk.
  destruct (find_ber_loop fuel (depth + 1) false _) as [f' t|t|u|]; try done. apply IH; [done|cbn; lia].
Qed.

Lemma cbs_find_eq fuel in_ : cbs_find_ber fuel in_ 0 in_ =
  match find_ber_loop fuel 0 false in_ with
  | Done found _ => Done found in_
  | Fail _ => Fail in_
  | Undef u => Undef u
  | OutOfFuel => OutOfFuel
  end.
Proof.
  unfold cbs_find_ber, bind, on_cbs, enter, CBS_init. change (kMaxDepth <? 0) with false. cbv iota.
  destruct in_ as [d n]. cbn [cbs_data cbs_len]. by destruct (find_ber_loop fuel 0 false _).
Qed.

(** ** The conversion *)
Section Whole.
Context `{AllocatorLaws}.
Variable flush_fuel : nat.
Variable storage : Z -> Z.
Hypothesis flush_fuel_enough : (1 < flush_fuel)%nat.
Hypothesis storage_null : forall k, storage k <> 0.
Hypothesis storage_inj : forall i j, storage i = storage j -> i = j.

Lemma find_false_reads fuel s t : good s -> find_ber_loop (S fuel) 0 false s = Done false t ->
  contents s = [] \/ exists out tag hl u, CBS_get_any_asn1_element s = Done (out, tag, hl) u.
Proof.
  intros [Hok _]. cbn [find_ber_loop]. unfold bind at 1, CBS_len, gets. destruct (Z.leb_spec (cbs_len s) 0).
  { left. apply length_zero_iff_nil. pose proof (contents_length s Hok) as Hl. unfold zlen, cbs_ok in *. lia. }
  unfold bind at 1. destruct (CBS_get_any_ber_asn1_element s) as [[[[out tag] hl] [|]] u|u|u|] eqn:E; try done.
  intros _. right. exists out, tag, hl, u. by apply der_of_ber.
Qed.

(** The builder's part of the conversion. *)
Lemma build_spec fuel cbb in_ s :
  good in_ -> cbs_len in_ < 2 ^ 28 -> cbs_len in_ < Z.of_nat fuel -> (forall k, storage k <> cbb) ->
  match (CBB_init cbb (cbs_len in_);;;
         let* t := cbs_convert_ber flush_fuel storage fuel in_ cbb 0 false 0 in
         let* (buf, len) := CBB_finish flush_fuel cbb in ret (t, buf, len)) s with
  | Done (t, buf, len) _ => cbs_len t = 0 /\ exists o, converts (Z.to_nat kMaxDepth) 0 (contents in_) o /\
      len = zlen o /\ take (Z.to_nat len) buf = o /\ zlen o <= zlen buf
  | Fail t => cleanable cbb t /\
      ((forall o, ~ converts (Z.to_nat kMaxDepth) 0 (contents in_) o) \/ out_of_memory)
  | _ => False
  end.
Proof.
  intros Hs Hl Hf Hcbb. pose proof Hs as [Hok Hsz]. assert (0 <= cbs_len in_) as Hpos by (unfold cbs_ok in Hok; lia).
  pose proof (CBB_init_spec cbb (cbs_len in_) s ltac:(lia)) as Hi. pose proof (init_cleanable cbb (cbs_len in_) s) as Hci.
  unfold bind at 1. destruct (CBB_init cbb (cbs_len in_) s) as [u s1|s1|u|]; try done; [|by auto].
  destruct Hi as (b & v & Hr & Hres & Hlen).
  assert (forall w n, grown v w n -> forall m, n + m < 2 ^ 64 -> blocked w m -> out_of_memory) as Hw.
  { intros w n [g1 g2 g3] m Hm [Hx|[_ [Hx|Hx]]]; [lia|congruence|by right; right]. }
  pose proof (convert_follows flush_fuel storage flush_fuel_enough storage_null storage_inj fuel in_ 0 false 0 (Z.to_nat kMaxDepth)
    [] (root_frame cbb []) s1 b v Hs Hl eq_refl Hf Hr) as Hfo.
  pose proof (conv_sound fuel in_ 0 false 0 (Z.to_nat kMaxDepth) Hs eq_refl Hf) as Hso.
  assert (unused storage 0 [root_frame cbb []]) as Hu by (intros k _ [E|[]]; by apply (Hcbb k)).
  specialize (Hfo Hu). cbn [f_addr root_frame] in Hfo.
  pose proof (cleans_convert flush_fuel storage cbb fuel in_ cbb 0 false 0 Hcbb s1 Hci) as Hcl.
  unfold bind at 1, cbs_convert_ber, enter. change (is_constructed 0) with false. change (kMaxDepth <? 0) with false. cbv iota.
  destruct (conv_loop fuel 0 false 0 in_) as [o t|t|u'|] eqn:Eo; try done.
  - destruct Hso as (_ & Ht & l & El & Hcv). specialize (Ht eq_refl). cbn [eoc_mark app] in El.
    assert (contents t = []) as Hnil by (unfold contents, front; by rewrite Ht).
    rewrite Hnil, app_nil_r in El. subst l.
    pose proof (contents_length in_ Hok) as Hcn. pose proof (converts_length _ _ _ _ Hcv ltac:(lia)) as Hol.
    unfold gives in Hfo.
    destruct (convert_loop flush_fuel storage fuel in_ cbb 0 false 0 s1) as [t' s2|s2|u'|]; try done.
    2: { destruct Hfo as [Hb _]. split; [done|]. right. apply (Hw v 0 ltac:(constructor; lia || done) (zlen o)); [lia|done]. }
    destruct Hfo as (-> & v' & Hr2 & Hg). cbn [app] in Hr2. change (add_body o (root_frame cbb [])) with (root_frame cbb o) in Hr2.
    pose proof (CBB_finish_spec flush_fuel cbb o [] s2 b v' ltac:(cbn; lia) Hr2) as Hfin.
    pose proof (finish_cleanable flush_fuel cbb s2 Hcl) as Hcf. unfold bind.
    destruct (CBB_finish flush_fuel cbb s2) as [[buf len] s3|s3|u'|]; try done.
    + destruct Hfin as (c & [= <-] & -> & Htake & Hz). rewrite app_nil_r in *. unfold ret. by eauto 10.
    + split; [done|]. right. specialize (Hfin [] eq_refl). change (text []) with (@nil byte) in Hfin.
      apply (Hw v' _ Hg 0); [lia|]. by replace 0 with (zlen (@nil byte) - zlen (@nil byte)) by done.
  - destruct (convert_loop flush_fuel storage fuel in_ cbb 0 false 0 s1) as [t' s2|s2|u'|]; try done.
    split; [done|]. left. intros o Hcv.
    destruct (conv_complete _ _ _ _ Hcv in_ fuel 0 false [] Hs) as (t' & E & _); [by rewrite app_nil_r|done|done|done|congruence].
Qed.

(** C5: [CBS_asn1_ber_to_der] ends without undefined behaviour, and what it
    gives is right on each path.  With new storage, the whole input is consumed
    and the output is the DER that the input stands for by the grammar
    [converts] (elements of definite or indefinite length, their end markers,
    strings in pieces joined, minimal lengths, at most [kMaxDepth] levels): it
    is valid DER.  Without, it is the first element of the input, as the DER
    parser reads it.  It fails only on an empty input, on an input that the
    grammar does not have, or when memory runs out. *)
Theorem ber_to_der_converts fuel cbb in_ s :
  good in_ -> cbs_len in_ < 2 ^ 28 -> cbs_len in_ < Z.of_nat fuel -> (forall k, storage k <> cbb) ->
  match CBS_asn1_ber_to_der flush_fuel storage fuel cbb in_ s with
  | Done (t, out, None) s' => s' = s /\ exists tag hl, CBS_get_any_asn1_element in_ = Done (out, tag, hl) t
  | Done (t, out, Some buf) _ => cbs_len t = 0 /\ cbs_data out = buf /\ good out /\
      converts (Z.to_nat kMaxDepth) 0 (contents in_) (contents out) /\ is_der (Z.to_nat kMaxDepth) (contents out)
  | Fail _ => contents in_ = [] \/ (forall o, ~ converts (Z.to_nat kMaxDepth) 0 (contents in_) o) \/ out_of_memory
  | _ => False
  end.
Proof.
  intros Hs Hl Hf Hcbb. pose proof Hs as [Hok Hsz]. pose proof (find_ends fuel in_ 0 false Hs Hf) as He.
  pose proof (fun o Hcv => find_total (Z.to_nat kMaxDepth) 0 _ o Hcv in_ fuel 0 false eq_refl Hs eq_refl eq_refl Hf) as Ht.
  unfold CBS_asn1_ber_to_der. unfold bind at 1, run_cbs at 1. rewrite cbs_find_eq.
  destruct (find_ber_loop fuel 0 false in_) as [[|] u|u|u|] eqn:E; try done.
  - pose proof (build_spec fuel cbb in_ s Hs Hl Hf Hcbb) as Hb. unfold bind at 1, attempt.
    destruct (bind (CBB_init cbb (cbs_len in_)) _ s) as [[[t buf] len] s'|s'|u'|]; try done.
    + destruct Hb as (Htl & o & Hcv & -> & Htake & Hz). unfold ret, CBS_init.
      assert (contents (mk_cbs buf (zlen o)) = o) as -> by done.
      pose proof (contents_length in_ Hok) as Hcn. pose proof (converts_length _ _ _ _ Hcv ltac:(lia)) as Hol.
      assert (good (mk_cbs buf (zlen o))) by (split; [unfold cbs_ok; cbn; zlen_pos; lia|cbn; lia]).
      assert (is_der (Z.to_nat kMaxDepth) o) by (apply (converts_der _ _ _ _ Hcv); [done|lia]). by auto.
    + destruct Hb as [Hc Hb]. destruct (cleanup_spec cbb s' Hc) as [s2 E2]. unfold bind. rewrite E2. by right.
  - destruct fuel as [|fuel]; [done|]. unfold bind, run_cbs.
    destruct (find_false_reads fuel in_ u Hs E) as [Hnil|(out & tag & hl & t & Et)].
    + pose proof (reader_element in_ Hs) as Hre. destruct (CBS_get_any_asn1_element in_) as [[[out tag] hl] t|t|u'|]; try done.
      * unfold ret. by eauto.
      * unfold failed. by left.
    + rewrite Et. unfold ret. by eauto.
  - right. left. intros o Hcv. by destruct (Ht o Hcv) as (? & ? & ?).
Qed.
End Whole.

(** C6: DER comes back as it is: on an input whose elements are DER (minimal
    lengths, no string in pieces, at most [kMaxDepth] levels) the conversion
    gives the first of them, in place, leaves the rest in the input, and
    allocates nothing. *)
Theorem ber_to_der_keeps_der `{AllocatorLaws} flush_fuel storage fuel cbb in_ tag body rest s :
  good in_ -> cbs_len in_ < Z.of_nat fuel -> 0 <= tag < 2 ^ 32 -> zlen body < 2 ^ 32 ->
  contents in_ = der tag body ++ rest -> is_der (Z.to_nat kMaxDepth) (der tag body ++ rest) ->
  exists out t, CBS_asn1_ber_to_der flush_fuel storage fuel cbb in_ s = Done (t, out, None) s /\
    contents out = der tag body /\ contents t = rest /\ cbs_data out = cbs_data in_.
Proof.
  intros Hs Hf Ht Hb Hc Hd. pose proof Hs as [Hok Hsz].
  destruct (find_der _ _ Hd fuel in_ 0 Hs Hc ltac:(done) Hf) as [u Eu].
  destruct (der_get in_ tag body rest Hs Ht Hb Hc) as (Hhl & Hle & Hbody & Hct & E). set (n := zlen (der_header tag (zlen body))) in *.
  exists (mk_cbs (cbs_data in_) (n + zlen body)), (adv (n + zlen body) in_). split; [|split; [|done]].
  - unfold CBS_asn1_ber_to_der, bind, run_cbs. rewrite cbs_find_eq, Eu, (der_of_ber _ _ _ _ _ E). done.
  - assert (front (n + zlen body) in_ = der tag body) as <-; [|done]. zlen_pos.
    rewrite (contents_split (n + zlen body)), Hct in Hc by (done || lia). by apply app_inv_tail in Hc.
Qed.

(** ** Concrete inputs *)
Definition input (l : list Z) : CBS := CBS_init (map zb l) (zlen l).
Definition locals (depth : Z) : Z := 101 + 10 * depth.

Definition demo (l : list Z) : outcome cstate (CBS * CBS * option (list byte)) :=
  CBS_asn1_ber_to_der (H := Sample.allocator) 3 locals 100 5 (input l) Sample.nothing.

(** BER can be missed: here an element of indefinite length that a DER
    element follows, inside of a SEQUENCE, makes [cbs_find_ber] answer that
    nothing is to convert ([*ber_found] is overwritten by the element after
    it), so that [CBS_asn1_ber_to_der] gives the BER input as its output,
    although the conversion of this input exists and is another one. *)
Theorem nested_ber_missed :
  let l := [48; 9; 48; 4; 48; 128; 0; 0; 2; 1; 9] in
  (exists t out, demo l = Done (t, out, None) Sample.nothing /\ contents out = map zb l) /\
  converts (Z.to_nat kMaxDepth) 0 (map zb l) (map zb [48; 7; 48; 2; 48; 0; 2; 1; 9]).
Proof.
  intros l. split; [eexists _, _; by vm_compute|].
  assert (good (input l)) as Hg by (split; [unfold cbs_ok; by vm_compute|by vm_compute]).
  pose proof (conv_sound 100 (input l) 0 false 0 (Z.to_nat kMaxDepth) Hg eq_refl ltac:(by vm_compute)) as Hc.
  destruct (conv_loop 100 0 false 0 (input l)) as [o t|t|u|] eqn:E; vm_compute in E; try done. injection E as <- <-.
  destruct Hc as (_ & _ & l' & El & Hc). unfold contents in El. vm_compute (front _ _) in El.
  cbn [eoc_mark app front take] in El. rewrite app_nil_r in El. subst l'. exact Hc.
Qed.

(** An input of at most the sizes that the theorems ask for. *)
Lemma input_good l : zlen l < 2 ^ 28 -> good (input l).
Proof. intros Hl. split; unfold cbs_ok, input, CBS_init, zlen in *; cbn; rewrite ?length_map; lia. Qed.

(** [30 80 24 80 04 01 05 04 01 06 00 00 00 00], in DER [30 04 04 02 05 06]. *)
Definition pieces : list Z := [48; 128; 36; 128; 4; 1; 5; 4; 1; 6; 0; 0; 0; 0].

Lemma ber_to_der_converts_witness : exists t out buf s',
  demo pieces = Done (t, out, Some buf) s' /\ contents out = map zb [48; 4; 4; 2; 5; 6] /\
  converts (Z.to_nat kMaxDepth) 0 (map zb pieces) (contents out).
Proof.
  pose proof (ber_to_der_converts (H := Sample.allocator) (H0 := Sample.laws) 3 locals ltac:(lia)
    ltac:(unfold locals; lia) ltac:(unfold locals; lia) 100 5 (input pieces) Sample.nothing (input_good pieces ltac:(done))
    ltac:(done) ltac:(done) ltac:(unfold locals; lia)) as H.
  fold (demo pieces) in H. destruct (demo pieces) as [[[t out] [buf|]] s'| | |] eqn:E; try (vm_compute in E; discriminate).
  exists t, out, buf, s'. split; [done|]. split; [vm_compute in E; by injection E as <- <- <- <-|]. apply H.
Defined.

Lemma ber_to_der_keeps_der_witness : exists out t,
  demo [48; 3; 2; 1; 9; 5; 0] = Done (t, out, None) Sample.nothing /\
  contents out = map zb [48; 3; 2; 1; 9] /\ contents t = map zb [5; 0].
Proof.
  destruct (ber_to_der_keeps_der (H := Sample.allocator) (H0 := Sample.laws) 3 locals 100 5 (input [48; 3; 2; 1; 9; 5; 0])
    536870928 (map zb [2; 1; 9]) (map zb [5; 0]) Sample.nothing) as (out & t & E & H1 & H2 & _).
  - by apply input_good.
  - done.
  - done.
  - done.
  - by vm_compute.
  - apply (der_constructed _ 536870928 (map zb [2; 1; 9]) (map zb [5; 0])); try done.
    + apply (der_primitive _ 2 [zb 9] []); try done. constructor.
    + rewrite <- (app_nil_r (map zb [5; 0])). apply (der_primitive _ 5 [] []); try done. constructor.
  - by exists out, t.
Defined.
