(* ===== verification/Mem.v ===== *)
(** BoringSSL, [crypto/mem.c] and [crypto/buf/buf.c]: allocation with the size
    kept in front of the block, the string functions, and the growing buffer; the
    functions of [crypto/bytestring/cbs.c] that copy to new blocks. *)
From S2P Require Import Prelude.
From S2P Require Import Cbs.

(** ** Blocks *)
(** What [OPENSSL_malloc] returned: the size that is kept in front of the block,
    and its cells. *)
Record blk (T : Type) : Type := mk_blk { blk_size : Z; blk_cells : list T }.
Arguments mk_blk {T} _ _.
Arguments blk_size {T} _.
Arguments blk_cells {T} _.

Abbreviation heap T := (gmap Z (blk T)).

Definition OPENSSL_MALLOC_PREFIX : Z := 8.

(** libc's [malloc] for that many bytes: the address and the cells behind the
    prefix, which take [cell_width] bytes each; [None] for failure. *)
Class Libc (T : Type) : Type := {
  cell_width : Z;
  c_malloc : heap T -> Z -> option (Z * list T)
}.

Section Heap.
Context {T : Type} `{Libc T}.

Definition HeapM : Type -> Type := M (heap T).

Definition get_blk (p : Z) : HeapM (blk T) := fun s => of_option UbMem (s !! p) s.

(** [n] cells from the cell [i] on; stores from there on. *)
Definition load_n (p i n : Z) : HeapM (list T) :=
  let* b := get_blk p in
  if (0 <=? i) && (0 <=? n) && (i + n <=? zlen (blk_cells b))
  then ret (take (Z.to_nat n) (drop (Z.to_nat i) (blk_cells b))) else undef UbRead.
Definition store_n (p i : Z) (l : list T) : HeapM unit :=
  let* b := get_blk p in
  if (0 <=? i) && (i + zlen l <=? zlen (blk_cells b))
  then modify (<[p := mk_blk (blk_size b) (take (Z.to_nat i) (blk_cells b) ++ l ++ drop (Z.to_nat i + length l) (blk_cells b))]>)
  else undef UbWrite.

(** [memcpy] and [memmove] of [n] cells. *)
Definition move_n (dst i src j n : Z) : HeapM unit :=
  if n =? 0 then ret tt else let* l := load_n src j n in store_n dst i l.

Definition OPENSSL_malloc (size : Z) : HeapM Z :=
  if u64 (size + OPENSSL_MALLOC_PREFIX) <? size then ret 0
  else
    let* m := gets id in
    match c_malloc m (size + OPENSSL_MALLOC_PREFIX) with
    | None => ret 0
    | Some (ptr, l) =>
        modify (<[ptr + OPENSSL_MALLOC_PREFIX := mk_blk size l]>);;;
        ret (ptr + OPENSSL_MALLOC_PREFIX)
    end.

Definition OPENSSL_free (orig_ptr : Z) : HeapM unit :=
  if orig_ptr =? 0 then ret tt
  else
    let* m := gets id in
    match m !! orig_ptr with None => undef UbFree | Some _ => modify (delete orig_ptr) end.

Definition OPENSSL_clear_free (ptr unused : Z) : HeapM unit := OPENSSL_free ptr.

Definition OPENSSL_realloc (orig_ptr new_size : Z) : HeapM Z :=
  if orig_ptr =? 0 then OPENSSL_malloc new_size
  else
    let* b := get_blk orig_ptr in
    let old_size := blk_size b in
    let* r := OPENSSL_malloc new_size in
    if r =? 0 then ret 0
    else
      let to_copy := if old_size <? new_size then old_size else new_size in
      move_n r 0 orig_ptr 0 (to_copy / cell_width);;;
      OPENSSL_free orig_ptr;;;
      ret r.
(** The names with a file and a line. *)
Definition CRYPTO_malloc (size : Z) : HeapM Z := OPENSSL_malloc size.
Definition CRYPTO_realloc (ptr new_size : Z) : HeapM Z := OPENSSL_realloc ptr new_size.
Definition CRYPTO_free (ptr : Z) : HeapM unit := OPENSSL_free ptr.
End Heap.

(** ** Strings.  A [const char *] is the list of what can be read there. *)
Definition read_at (s : list byte) (i : Z) {St} : M St byte :=
  of_option UbRead (if i <? 0 then None else s !! Z.to_nat i).

(** The [char] is signed. *)
Definition char_at (s : list byte) (i : Z) {St} : M St Z := let* b := read_at s i in ret (s8 (bz b)).

(** libc's [strlen], from position [i] on: the string is a prefix of what can be
    read. *)
Fixpoint strlen_from (l : list byte) {St} : M St Z :=
  match l with
  | [] => undef UbRead
  | b :: l => if bz b =? 0 then ret 0 else let* n := strlen_from l in ret (n + 1)
  end.
Definition strlen (s : list byte) {St} : M St Z := strlen_from s.

Definition kPrime : Z := 16777619.
Definition kOffsetBasis : Z := 2166136261.

Fixpoint hash_loop (l : list byte) (h : Z) : Z :=
  match l with [] => h | b :: l => hash_loop l (u32 (Z.lxor h (bz b) * kPrime)) end.

Section Strings.
Context {St : Type}.

Definition OPENSSL_hash32 (ptr : list byte) (len : Z) : M St Z :=
  if zlen ptr <? len then undef UbRead else ret (hash_loop (take (Z.to_nat len) ptr) kOffsetBasis).

Definition OPENSSL_strhash (s : list byte) : M St Z := let* n := strlen s in OPENSSL_hash32 s n.

(** [n] turns are left. *)
Fixpoint strnlen_loop (n : nat) (s : list byte) (i : Z) : M St Z :=
  match n with
  | O => ret i
  | S n => let* c := char_at s i in if c =? 0 then ret i else strnlen_loop n s (i + 1)
  end.
Definition OPENSSL_strnlen (s : list byte) (len : Z) : M St Z := strnlen_loop (Z.to_nat len) s 0.

Definition OPENSSL_tolower (c : Z) : Z := if (65 <=? c) && (c <=? 90) then c + (97 - 65) else c.

(** A turn of the two comparisons: [None] when the loop goes on. *)
Definition casecmp_turn (a b : list byte) (i : Z) : M St (option Z) :=
  let* ca := char_at a i in
  let* cb := char_at b i in
  let aa := OPENSSL_tolower ca in
  let bb := OPENSSL_tolower cb in
  ret (if aa <? bb then Some (-1) else if bb <? aa then Some 1 else if aa =? 0 then Some 0 else None).

Fixpoint strcasecmp_loop (fuel : nat) (a b : list byte) (i : Z) : M St Z :=
  match fuel with
  | O => out_of_fuel
  | S fuel => let* r := casecmp_turn a b i in match r with Some r => ret r | None => strcasecmp_loop fuel a b (i + 1) end
  end.
Definition OPENSSL_strcasecmp (fuel : nat) (a b : list byte) : M St Z := strcasecmp_loop fuel a b 0.

Fixpoint strncasecmp_loop (n : nat) (a b : list byte) (i : Z) : M St Z :=
  match n with
  | O => ret 0
  | S n => let* r := casecmp_turn a b i in match r with Some r => ret r | None => strncasecmp_loop n a b (i + 1) end
  end.
Definition OPENSSL_strncasecmp (a b : list byte) (n : Z) : M St Z := strncasecmp_loop (Z.to_nat n) a b 0.
End Strings.

(** *** Copies into the array that is the state, from a position on. *)
Definition ArrayM : Type -> Type := M (list byte).
Definition write_at (i : Z) (b : byte) : ArrayM unit :=
  let* a := gets id in
  if (0 <=? i) && (i <? zlen a) then modify (<[Z.to_nat i := b]>) else undef UbWrite.
Definition dst_at (i : Z) : ArrayM byte := let* a := gets id in read_at a i.

(** [dst_size] is what is left; the result is [l], and what is left of the
    source and of the destination. *)
Fixpoint strlcpy_loop (src : list byte) (dst dst_size l : Z) : ArrayM (Z * list byte * Z * Z) :=
  if negb (1 <? dst_size) then ret (l, src, dst, dst_size)
  else
    match src with
    | [] => undef UbRead
    | b :: src' =>
        if bz b =? 0 then ret (l, src, dst, dst_size)
        else write_at dst b;;; strlcpy_loop src' (dst + 1) (dst_size - 1) (l + 1)
    end.

Definition OPENSSL_strlcpy (dst : Z) (src : list byte) (dst_size : Z) : ArrayM Z :=
  let* (l, src, dst, dst_size) := strlcpy_loop src dst dst_size 0 in
  (if negb (dst_size =? 0) then write_at dst (zb 0) else ret tt);;;
  let* n := strlen src in ret (u64 (l + n)).

Fixpoint strlcat_loop (n : nat) (dst l : Z) : ArrayM (Z * Z * Z) :=
  match n with
  | O => ret (l, dst, 0)
  | S k =>
      let* b := dst_at dst in
      if bz b =? 0 then ret (l, dst, Z.of_nat n) else strlcat_loop k (dst + 1) (l + 1)
  end.

Definition OPENSSL_strlcat (dst : Z) (src : list byte) (dst_size : Z) : ArrayM Z :=
  let* (l, dst, dst_size) := strlcat_loop (Z.to_nat dst_size) dst 0 in
  let* n := OPENSSL_strlcpy dst src dst_size in ret (u64 (l + n)).

(** *** Copies into new blocks *)
Section Duplicates.
Context `{Libc byte}.

(** Null is [None]. *)
Definition OPENSSL_strdup (s : option (list byte)) : HeapM (T := byte) Z :=
  match s with
  | None => ret 0
  | Some s =>
      let* n := strlen s in
      let len := u64 (n + 1) in
      let* r := OPENSSL_malloc len in
      if r =? 0 then ret 0 else store_n r 0 (take (Z.to_nat len) s);;; ret r
  end.

Definition OPENSSL_strndup (str : list byte) (size : Z) : HeapM (T := byte) Z :=
  let* size := OPENSSL_strnlen str size in
  let alloc_size := u64 (size + 1) in
  if alloc_size <? size then ret 0
  else
    let* r := OPENSSL_malloc alloc_size in
    if r =? 0 then ret 0
    else store_n r 0 (take (Z.to_nat size) str);;; store_n r size [zb 0];;; ret r.

Definition OPENSSL_memdup (data : list byte) (size : Z) : HeapM (T := byte) Z :=
  if size =? 0 then ret 0
  else
    let* r := OPENSSL_malloc size in
    if r =? 0 then ret 0
    else if zlen data <? size then undef UbRead
    else store_n r 0 (take (Z.to_nat size) data);;; ret r.
End Duplicates.

(** *** The contents of a [CBS].  [out_ptr] is what [*out_ptr] has before the call;
    the results are what is returned and stored. *)
Definition CBS_stow `{Libc byte} (cbs : CBS) (out_ptr : Z) : HeapM (T := byte) (bool * Z * Z) :=
  OPENSSL_free out_ptr;;;
  if cbs_len cbs =? 0 then ret (true, 0, 0)
  else
    let* out_ptr := OPENSSL_memdup (cbs_data cbs) (cbs_len cbs) in
    if out_ptr =? 0 then ret (false, 0, 0) else ret (true, out_ptr, cbs_len cbs).

Definition CBS_strdup `{Libc byte} (cbs : CBS) (out_ptr : Z) : HeapM (T := byte) (bool * Z) :=
  (if negb (out_ptr =? 0) then OPENSSL_free out_ptr else ret tt);;;
  let* out_ptr := OPENSSL_strndup (cbs_data cbs) (cbs_len cbs) in
  ret (negb (out_ptr =? 0), out_ptr).

(** *** The names of [crypto/buf/buf.c] for them *)
Definition BUF_strdup `{Libc byte} (str : option (list byte)) : HeapM (T := byte) Z := OPENSSL_strdup str.
Definition BUF_strnlen {St} (str : list byte) (max_len : Z) : M St Z := OPENSSL_strnlen str max_len.
Definition BUF_strndup `{Libc byte} (str : list byte) (size : Z) : HeapM (T := byte) Z := OPENSSL_strndup str size.
Definition BUF_strlcpy (dst : Z) (src : list byte) (dst_size : Z) : ArrayM Z := OPENSSL_strlcpy dst src dst_size.
Definition BUF_strlcat (dst : Z) (src : list byte) (dst_size : Z) : ArrayM Z := OPENSSL_strlcat dst src dst_size.
Definition BUF_memdup `{Libc byte} (data : list byte) (size : Z) : HeapM (T := byte) Z := OPENSSL_memdup data size.

(** ** The growing buffer *)
(** [struct buf_mem_st] *)
Record BUF_MEM : Type := mk_buf { buf_length : Z; buf_data : Z; buf_max : Z }.

(** The buffers, the blocks of their data, and the allocation of a buffer. *)
Record buf_state : Type := mk_buf_state { bufs : gmap Z BUF_MEM; buf_blocks : heap byte }.

Class BufMalloc : Type := { malloc_buf : gmap Z BUF_MEM -> option Z }.

Section Buffers.
Context `{Libc byte} `{BufMalloc}.

Definition BufM : Type -> Type := M buf_state.

Definition get_buf (p : Z) : BufM BUF_MEM := fun s => of_option UbMem (bufs s !! p) s.
Definition put_buf (p : Z) (b : BUF_MEM) : BufM unit := modify (fun s => mk_buf_state (<[p := b]> (bufs s)) (buf_blocks s)).

(** An operation on the blocks. *)
Definition on_blocks {X} (op : HeapM (T := byte) X) : BufM X := fun s =>
  match op (buf_blocks s) with
  | Done x m => Done x (mk_buf_state (bufs s) m)
  | Fail m => Fail (mk_buf_state (bufs s) m)
  | Undef u => Undef u
  | OutOfFuel => OutOfFuel
  end.

Definition BUF_MEM_new : BufM Z :=
  let* m := gets bufs in
  match malloc_buf m with None => ret 0 | Some p => put_buf p (mk_buf 0 0 0);;; ret p end.

Definition BUF_MEM_free (buf : Z) : BufM unit :=
  if buf =? 0 then ret tt
  else
    let* b := get_buf buf in
    on_blocks (OPENSSL_free (buf_data b));;;
    modify (fun s => mk_buf_state (delete buf (bufs s)) (buf_blocks s)).

Definition BUF_MEM_reserve (buf cap : Z) : BufM bool :=
  let* b := get_buf buf in
  if cap <=? buf_max b then ret true
  else
    let n := u64 (cap + 3) in
    if n <? cap then ret false
    else
      let n := n / 3 in
      let alloc_size := u64 (n * 4) in
      if negb (alloc_size / 4 =? n) then ret false
      else
        let* new_buf := on_blocks (OPENSSL_realloc (buf_data b) alloc_size) in
        if new_buf =? 0 then ret false
        else put_buf buf (mk_buf (buf_length b) new_buf alloc_size);;; ret true.

Definition BUF_MEM_grow (buf len : Z) : BufM Z :=
  let* r := BUF_MEM_reserve buf len in
  if negb r then ret 0
  else
    let* b := get_buf buf in
    (if buf_length b <? len
     then on_blocks (store_n (buf_data b) (buf_length b) (replicate (Z.to_nat (len - buf_length b)) (zb 0)))
     else ret tt);;;
    put_buf buf (mk_buf len (buf_data b) (buf_max b));;;
    ret len.

Definition BUF_MEM_grow_clean (buf len : Z) : BufM Z := BUF_MEM_grow buf len.

Definition BUF_MEM_append (buf : Z) (src : list byte) (len : Z) : BufM bool :=
  if len =? 0 then ret true
  else
    let* b := get_buf buf in
    let new_len := u64 (buf_length b + len) in
    if new_len <? len then ret false
    else
      let* r := BUF_MEM_reserve buf new_len in
      if negb r then ret false
      else
        let* b := get_buf buf in
        if zlen src <? len then undef UbRead
        else
          on_blocks (store_n (buf_data b) (buf_length b) (take (Z.to_nat len) src));;;
          put_buf buf (mk_buf new_len (buf_data b) (buf_max b));;;
          ret true.
End Buffers.
