(* ===== verification/MemTheorems.v ===== *)
(** BoringSSL, [crypto/mem.c] and [crypto/buf/buf.c]: what allocation,
    reallocation and the accesses do to the blocks, tables of objects that own a
    block each, the growing buffers as byte strings, and the string functions. *)
From S2P Require Import Prelude.
From S2P Require Import Cbs Mem.

(** What libc promises of [malloc]: a fresh address that is not null, and room
    for what was asked, behind the prefix. *)
Class LibcLaws (T : Type) `{Libc T} : Prop := {
  width_pos : 0 < cell_width (T := T);
  malloc_fresh (m : heap T) n p l : c_malloc m n = Some (p, l) ->
    0 < p /\ m !! (p + OPENSSL_MALLOC_PREFIX) = None /\ zlen l = (n - OPENSSL_MALLOC_PREFIX) / cell_width (T := T)
}.

Section Heap.
Context {T : Type} `{LibcLaws T}.
Implicit Types (m : heap T) (b : blk T).

Lemma get_blk_spec m p b : m !! p = Some b -> get_blk p m = Done b m.
Proof. intros E. unfold get_blk. by rewrite E. Qed.

Lemma load_spec m p b i n :
  m !! p = Some b -> 0 <= i -> 0 <= n -> i + n <= zlen (blk_cells b) ->
  load_n p i n m = Done (take (Z.to_nat n) (drop (Z.to_nat i) (blk_cells b))) m.
Proof.
  intros E Hi Hn Hle. unfold load_n. rewrite (bind_done _ _ _ _ _ (get_blk_spec m p b E)).
  rewrite !(proj2 (Z.leb_le _ _)) by lia. done.
Qed.

Lemma store_spec m p b i l :
  m !! p = Some b -> 0 <= i -> i + zlen l <= zlen (blk_cells b) ->
  store_n p i l m = Done tt (<[p := mk_blk (blk_size b)
    (take (Z.to_nat i) (blk_cells b) ++ l ++ drop (Z.to_nat i + length l) (blk_cells b))]> m).
Proof.
  intros E Hi Hle. unfold store_n. rewrite (bind_done _ _ _ _ _ (get_blk_spec m p b E)).
  rewrite !(proj2 (Z.leb_le _ _)) by lia. done.
Qed.

Lemma move_spec m d bd p bp i j n :
  m !! d = Some bd -> m !! p = Some bp -> 0 <= i -> 0 <= j -> 0 < n -> j + n <= zlen (blk_cells bp) -> i + n <= zlen (blk_cells bd) ->
  move_n d i p j n m = Done tt (<[d := mk_blk (blk_size bd)
    (take (Z.to_nat i) (blk_cells bd) ++ take (Z.to_nat n) (drop (Z.to_nat j) (blk_cells bp))
       ++ drop (Z.to_nat i + Z.to_nat n) (blk_cells bd))]> m).
Proof.
  intros Ed Ep Hi Hj Hn Hp Hd. unfold move_n. destruct (Z.eqb_spec n 0); [lia|].
  rewrite (bind_done _ _ _ _ _ (load_spec m p bp j n Ep Hj ltac:(lia) Hp)).
  assert (length (take (Z.to_nat n) (drop (Z.to_nat j) (blk_cells bp))) = Z.to_nat n) as Hl.
  { rewrite length_take, length_drop. unfold zlen in Hp. lia. }
  rewrite (store_spec m d bd) by (done || unfold zlen in *; lia). by rewrite Hl.
Qed.

Lemma malloc_spec size m : 0 <= size < 2 ^ 64 ->
  exists r t, OPENSSL_malloc size m = Done r t /\
  ((r = 0 /\ t = m) \/
   (0 < r /\ m !! r = None /\ exists l, zlen l = size / cell_width (T := T) /\ t = <[r := mk_blk size l]> m)).
Proof.
  intros Hs. unfold OPENSSL_malloc. destruct (Z.ltb_spec (u64 (size + OPENSSL_MALLOC_PREFIX)) size) as [|Hlt].
  { exists 0, m. by auto. }
  rewrite bind_gets. unfold id. destruct (c_malloc m (size + OPENSSL_MALLOC_PREFIX)) as [[p l]|] eqn:E; [|exists 0, m; by auto].
  destruct (malloc_fresh m _ p l E) as (Hp & Hf & Hl). rewrite bind_modify. eexists _, _. split; [done|]. right.
  unfold OPENSSL_MALLOC_PREFIX in *. split; [lia|]. split; [done|]. exists l. split; [|done]. rewrite Hl. f_equal. lia.
Qed.

Lemma free_spec p m : p = 0 \/ is_Some (m !! p) ->
  OPENSSL_free p m = Done tt (if p =? 0 then m else delete p m).
Proof.
  intros Hp. unfold OPENSSL_free. destruct (Z.eqb_spec p 0); [done|]. destruct Hp as [|[b E]]; [done|].
  rewrite bind_gets. unfold id. by rewrite E.
Qed.

(** The block grows: its cells are kept. *)
Lemma realloc_spec p b size m :
  p <> 0 -> m !! p = Some b -> 0 <= blk_size b <= size -> size < 2 ^ 64 -> zlen (blk_cells b) = blk_size b / cell_width (T := T) ->
  exists r t, OPENSSL_realloc p size m = Done r t /\
  ((r = 0 /\ t = m) \/
   (0 < r /\ m !! r = None /\ exists more, zlen (blk_cells b ++ more) = size / cell_width (T := T) /\
      t = <[r := mk_blk size (blk_cells b ++ more)]> (delete p m))).
Proof.
  intros Hp E Hsz Hs Hl. unfold OPENSSL_realloc. destruct (Z.eqb_spec p 0); [done|].
  rewrite (bind_done _ _ _ _ _ (get_blk_spec m p b E)).
  destruct (malloc_spec size m ltac:(lia)) as (r & t & Em & Hr). rewrite (bind_done _ _ _ _ _ Em).
  destruct Hr as [[-> ->]|(Hr & Hf & l & Hll & ->)]; [by exists 0, m; auto|]. destruct (Z.eqb_spec r 0); [lia|].
  exists r. eexists. pose proof width_pos as Hw. pose proof (zlen_nonneg (blk_cells b)) as Hz.
  assert (r <> p) as Hne by congruence.
  assert (forall x, (<[r := x]> m) !! p = Some b) as Hin by (intros x; by rewrite lookup_insert_ne).
  assert ((if blk_size b <? size then blk_size b else size) = blk_size b) as -> by (destruct (Z.ltb_spec (blk_size b) size); lia).
  rewrite <- Hl. assert (zlen (blk_cells b) <= zlen l) as Hcl by (rewrite Hl, Hll; apply Z.div_le_mono; lia).
  assert (move_n r 0 p 0 (zlen (blk_cells b)) (<[r := mk_blk size l]> m)
    = Done tt (<[r := mk_blk size (blk_cells b ++ drop (length (blk_cells b)) l)]> m)) as Hmove.
  { unfold move_n. destruct (Z.eqb_spec (zlen (blk_cells b)) 0) as [E0|].
    - unfold ret. destruct (blk_cells b); [done|unfold zlen in E0; cbn in E0; lia].
    - rewrite (bind_done _ _ _ _ _ (load_spec (<[r := mk_blk size l]> m) p b 0 (zlen (blk_cells b)) (Hin _) ltac:(lia) Hz ltac:(lia))).
      rewrite drop_0, take_ge by (unfold zlen; lia).
      rewrite (store_spec _ r (mk_blk size l)) by (rewrite ?lookup_insert_eq; cbn; done || lia).
      rewrite insert_insert_eq. done. }
  rewrite (bind_done _ _ _ _ _ Hmove), (bind_done _ _ _ _ _ (free_spec p (<[r := _]> m) (or_intror (ex_intro _ b (Hin _))))).
  split; [done|]. right. split; [done|]. split; [done|]. exists (drop (length (blk_cells b)) l). split.
  - rewrite zlen_app, <- Hll. unfold zlen in *. rewrite length_drop. lia.
  - destruct (Z.eqb_spec p 0); [done|]. by rewrite delete_insert_ne.
Qed.
End Heap.

(** ** Objects that own a block *)
(** Each object of a table has a pointer to a block of its own, or null; [ok] says
    how an object and its block represent a value. *)
Section Owners.
Context {T K X : Type}.
Variables (data : K -> Z) (ok : K -> option (blk T) -> X -> Prop).
Hypothesis ok_null : forall k ob a, ok k ob a -> ob = None -> data k = 0.
Implicit Types (objs : gmap Z K) (m : heap T) (A : gmap Z X).

(** The objects are those of [A], and there are no blocks but theirs. *)
Record owned objs m A : Prop := {
  w_obj p a : A !! p = Some a -> p <> 0 /\ exists k, objs !! p = Some k /\ ok k (m !! data k) a;
  w_none p : A !! p = None -> objs !! p = None;
  w_own p q k k' : objs !! p = Some k -> objs !! q = Some k' -> data k = data k' -> data k <> 0 -> p = q;
  w_used d b : m !! d = Some b -> d <> 0 /\ exists p k, objs !! p = Some k /\ data k = d
}.

Lemma owned_empty : owned ∅ ∅ ∅.
Proof. constructor; intros *; rewrite ?lookup_empty; done. Qed.

Lemma owned_known objs m A p k : owned objs m A -> objs !! p = Some k -> exists a, A !! p = Some a /\ ok k (m !! data k) a.
Proof.
  intros W E. destruct (A !! p) as [a|] eqn:Ea; [|apply (w_none _ _ _ W) in Ea; congruence].
  destruct (w_obj _ _ _ W p a Ea) as (_ & k0 & E0 & Hk). exists a. split; [done|]. congruence.
Qed.

Lemma owned_fresh objs m A p k d : owned objs m A -> m !! d = None -> objs !! p = Some k -> data k = d -> d = 0.
Proof. intros W Ed E Hd. rewrite <- Hd in *. destruct (owned_known _ _ _ _ _ W E) as (a & _ & Hk). by apply (ok_null k (m !! data k) a). Qed.

Lemma owned_null objs m A : owned objs m A -> m !! 0 = None.
Proof. intros W. destruct (m !! 0) as [b|] eqn:E; [|done]. by destruct (w_used _ _ _ W 0 b E). Qed.

(** The block of the object at [p], null when there is none. *)
Definition block_of objs p : Z := from_option data 0 (objs !! p).

Lemma block_of_other objs m A p q k : owned objs m A -> objs !! q = Some k -> q <> p -> data k <> 0 -> data k <> block_of objs p.
Proof.
  intros W E Hne Hd. unfold block_of. destruct (objs !! p) as [kp|] eqn:Ep; [|done]. cbn. intros Heq.
  by apply Hne, (w_own _ _ _ W q p k kp).
Qed.

(** The object at [p] takes the value [a'], by a block that is fresh, or by the one
    that it had, and has no other; a new object has had none. *)
Lemma owned_write objs m A p k' ob a' :
  owned objs m A -> p <> 0 -> ok k' ob a' -> data k' = block_of objs p \/ m !! data k' = None -> (data k' = 0 -> ob = None) ->
  owned (<[p := k']> objs) (partial_alter (fun _ => ob) (data k') (delete (block_of objs p) m)) (<[p := a']> A).
Proof.
  intros W Hp Hok Hfresh Hnull. set (d := block_of objs p) in *. set (m' := partial_alter _ _ _).
  assert (forall q k, objs !! q = Some k -> q <> p -> data k <> 0 -> data k <> d /\ data k <> data k') as Hother.
  { intros q k E Hne Hd. pose proof (block_of_other _ _ _ p q k W E Hne Hd) as Hx. split; [done|].
    destruct Hfresh as [->|Hf]; [done|]. intros Heq. rewrite <- Heq in Hf. apply Hd. by apply (owned_fresh _ _ _ q k _ W Hf E). }
  assert (forall x, x <> d -> x <> data k' -> m' !! x = m !! x) as Hsame.
  { intros x H1 H2. unfold m'. by rewrite lookup_partial_alter_ne, lookup_delete_ne. }
  constructor.
  - intros q x. destruct (decide (q = p)) as [->|Hne].
    + rewrite lookup_insert_eq. intros [= <-]. split; [done|]. exists k'. rewrite lookup_insert_eq. split; [done|].
      unfold m'. by rewrite lookup_partial_alter_eq.
    + rewrite !lookup_insert_ne by done. intros Eq. destruct (w_obj _ _ _ W q x Eq) as (Hq & k & E & Hk). split; [done|].
      exists k. split; [done|]. destruct (decide (data k = 0)) as [H0|Hd].
      * rewrite H0 in *. rewrite (owned_null _ _ _ W) in Hk. replace (m' !! 0) with (@None (blk T)); [done|]. unfold m'.
        destruct (decide (data k' = 0)) as [Ek|Ek]; [rewrite Ek, lookup_partial_alter_eq; symmetry; by apply Hnull|].
        rewrite lookup_partial_alter_ne by done. symmetry. apply lookup_delete_None. right. by apply (owned_null _ _ _ W).
      * destruct (Hother q k E Hne Hd). by rewrite Hsame.
  - intros q. destruct (decide (q = p)) as [->|Hne]; [by rewrite lookup_insert_eq|]. rewrite !lookup_insert_ne by done. apply W.
  - intros q1 q2 k1 k2. destruct (decide (q1 = p)) as [->|H1], (decide (q2 = p)) as [->|H2];
      rewrite ?lookup_insert_eq, ?lookup_insert_ne by done; [done|..].
    + intros [= <-] E2 E Hd. destruct (Hother q2 k2 E2 H2); congruence.
    + intros E1 [= <-] E Hd. destruct (Hother q1 k1 E1 H1); congruence.
    + apply W.
  - intros x b. unfold m'. destruct (decide (x = data k')) as [->|Hx].
    + rewrite lookup_partial_alter_eq. intros Eb. split; [intros H0; rewrite (Hnull H0) in Eb; done|].
      exists p, k'. by rewrite lookup_insert_eq.
    + rewrite lookup_partial_alter_ne by done. intros [Hd Eb]%lookup_delete_Some.
      destruct (w_used _ _ _ W x b Eb) as (H0 & q & k & E & Ek). split; [done|]. exists q, k. rewrite lookup_insert_ne; [done|].
      intros <-. unfold d, block_of in Hd. rewrite E in Hd. by destruct Hd.
Qed.

(** Its block changes in place, or only the object. *)
Lemma owned_change objs m A p k k' b a' :
  owned objs m A -> p <> 0 -> objs !! p = Some k -> data k' = data k -> ok k' (Some b) a' -> data k <> 0 ->
  owned (<[p := k']> objs) (<[data k := b]> m) (<[p := a']> A).
Proof.
  intros W Hp E Hd Hok H0. assert (block_of objs p = data k) as Hb by (unfold block_of; by rewrite E).
  pose proof (owned_write objs m A p k' (Some b) a' W Hp Hok (or_introl (eq_trans Hd (eq_sym Hb))) ltac:(congruence)) as Hw.
  rewrite Hb, Hd in Hw. by change (partial_alter _ _ _) with (<[data k := b]> (delete (data k) m)) in Hw; rewrite insert_delete_eq in Hw.
Qed.

Lemma owned_field objs m A p k k' a' :
  owned objs m A -> p <> 0 -> objs !! p = Some k -> data k' = data k -> ok k' (m !! data k) a' ->
  owned (<[p := k']> objs) m (<[p := a']> A).
Proof.
  intros W Hp E Hd Hok. assert (block_of objs p = data k) as Hb by (unfold block_of; by rewrite E).
  pose proof (owned_write objs m A p k' (m !! data k) a' W Hp Hok (or_introl (eq_trans Hd (eq_sym Hb)))) as Hw.
  rewrite Hb, Hd in Hw. replace (partial_alter _ _ _) with m in Hw.
  - apply Hw. intros H0. rewrite H0. by apply (owned_null _ _ _ W).
  - apply map_eq. intros x. destruct (decide (x = data k)) as [->|Hx]; [by rewrite lookup_partial_alter_eq|].
    by rewrite lookup_partial_alter_ne, lookup_delete_ne.
Qed.

(** A new object. *)
Lemma owned_add objs m A p k a :
  owned objs m A -> p <> 0 -> objs !! p = None -> data k = 0 -> ok k None a -> A !! p = None /\ owned (<[p := k]> objs) m (<[p := a]> A).
Proof.
  intros W Hp E Hd Hok. split.
  { destruct (A !! p) as [x|] eqn:Ea; [|done]. destruct (w_obj _ _ _ W p x Ea) as (_ & k0 & E0 & _). congruence. }
  assert (block_of objs p = 0) as Hb by (unfold block_of; by rewrite E).
  pose proof (owned_write objs m A p k None a W Hp Hok (or_introl (eq_trans Hd (eq_sym Hb))) ltac:(done)) as Hw.
  rewrite Hb, Hd in Hw. change (partial_alter _ _ _) with (delete 0 (delete 0 m)) in Hw.
  by rewrite !delete_id in Hw by (rewrite ?delete_id; apply (owned_null _ _ _ W)).
Qed.

(** An object and its block are freed. *)
Lemma owned_remove objs m A p k a :
  owned objs m A -> objs !! p = Some k -> A !! p = Some a -> owned (delete p objs) (delete (data k) m) (delete p A).
Proof.
  intros W Ek Ea. assert (forall q kq, objs !! q = Some kq -> q <> p -> data kq <> 0 -> data kq <> data k) as Hother.
  { intros q kq Eq Hne Hd. pose proof (block_of_other _ _ _ p q kq W Eq Hne Hd) as Hx. unfold block_of in Hx. by rewrite Ek in Hx. }
  constructor.
  - intros q x [Hne Eq]%lookup_delete_Some. destruct (w_obj _ _ _ W q x Eq) as (Hq & kq & E & Hk). split; [done|]. exists kq.
    rewrite lookup_delete_ne by done. split; [done|]. destruct (decide (data kq = 0)) as [H0|Hd].
    + rewrite H0 in *. rewrite (owned_null _ _ _ W) in Hk. replace (delete (data k) m !! 0) with (@None (blk T)); [done|].
      symmetry. apply lookup_delete_None. right. by apply (owned_null _ _ _ W).
    + rewrite lookup_delete_ne; [done|]. intros E1. by apply (Hother q kq E).
  - intros q Eq. apply lookup_delete_None in Eq as [->|Eq]; [by rewrite lookup_delete_eq|]. apply lookup_delete_None. right. by apply W.
  - intros q1 q2 k1 k2 [_ E1]%lookup_delete_Some [_ E2]%lookup_delete_Some. by apply W.
  - intros x b [Hd E]%lookup_delete_Some. destruct (w_used _ _ _ W x b E) as (H0 & q & kq & Eq & <-). split; [done|].
    exists q, kq. split; [|done]. apply lookup_delete_Some. split; [|done]. intros ->. congruence.
Qed.
End Owners.

(** ** A sample: 64 addresses, and cells of a width that is given *)
Definition first_free {X} (m : gmap Z X) : option Z :=
  List.find (fun p => bool_decide (m !! p = None)) (map (fun k => 16 * Z.of_nat k) (seq 1 64)).

Lemma first_free_fresh {X} (m : gmap Z X) p : first_free m = Some p -> 16 <= p /\ m !! p = None.
Proof.
  intros E. apply List.find_some in E as [Hin Hp]. split; [|by apply bool_decide_eq_true in Hp].
  apply in_map_iff in Hin as (k & <- & Hk%in_seq). lia.
Qed.

Definition sample_libc {T} (w : Z) (x : T) : Libc T := {|
  cell_width := w;
  c_malloc m n :=
    if n <? OPENSSL_MALLOC_PREFIX then None
    else p ← first_free m; Some (p - OPENSSL_MALLOC_PREFIX, replicate (Z.to_nat ((n - OPENSSL_MALLOC_PREFIX) / w)) x)
|}.

Lemma sample_libc_laws {T} w (x : T) : 0 < w -> @LibcLaws T (sample_libc w x).
Proof.
  intros Hw. constructor; [done|]. intros m n p l. cbn -[first_free]. destruct (Z.ltb_spec n OPENSSL_MALLOC_PREFIX) as [|Hn]; [done|].
  destruct (first_free m) as [q|] eqn:E; [|done]. cbn. intros [= <- <-]. destruct (first_free_fresh m q E).
  unfold OPENSSL_MALLOC_PREFIX in *. replace (q - 8 + 8) with q by lia. split; [lia|]. split; [done|].
  pose proof (Z.div_pos (n - 8) w ltac:(lia) Hw). unfold zlen. rewrite length_replicate. lia.
Qed.

(** * Buffers and strings *)
(** A fresh address for a [BUF_MEM]. *)
Class BufMallocLaws `{BufMalloc} : Prop := {
  malloc_buf_fresh m p : malloc_buf m = Some p -> p <> 0 /\ m !! p = None
}.

(** ** Buffers as byte strings *)
Record full_buf (k : BUF_MEM) (b : blk byte) (l : list byte) : Prop := {
  f_pos : 0 < buf_data k;
  f_length : buf_length k = zlen l;
  f_room : zlen l <= buf_max k < 2 ^ 64;
  f_size : blk_size b = buf_max k;
  f_cells : zlen (blk_cells b) = buf_max k;
  f_bytes : take (length l) (blk_cells b) = l
}.

(** An empty buffer may have no block yet. *)
Definition buf_ok (k : BUF_MEM) (ob : option (blk byte)) (l : list byte) : Prop :=
  match ob with
  | None => k = mk_buf 0 0 0 /\ l = []
  | Some b => full_buf k b l
  end.

Lemma buf_null k ob l : buf_ok k ob l -> ob = None -> buf_data k = 0.
Proof. by intros Hok ->; destruct Hok as [-> _]. Qed.

Definition bufs_rep (s : buf_state) (A : gmap Z (list byte)) : Prop := owned buf_data buf_ok (bufs s) (buf_blocks s) A.

(** ** The specification *)
Inductive buf_op : Set := BufNew | BufFree (p : Z) | Reserve (p cap : Z) | Grow (p len : Z) | Append (p : Z) (src : list byte) (len : Z).
Inductive buf_result : Set := Addr (p : Z) | Freed | Ok (b : bool) | Len (n : Z).

Inductive buf_step (A : gmap Z (list byte)) : buf_op -> buf_result -> gmap Z (list byte) -> Prop :=
| buf_new r : A !! r = None -> r <> 0 -> buf_step A BufNew (Addr r) (<[r := []]> A)
| buf_new_no_memory : buf_step A BufNew (Addr 0) A
| buf_free_null : buf_step A (BufFree 0) Freed A
| buf_free p : p <> 0 -> buf_step A (BufFree p) Freed (delete p A)
| buf_reserve p cap b : buf_step A (Reserve p cap) (Ok b) A
| buf_grow p len l : A !! p = Some l -> buf_step A (Grow p len) (Len len) (<[p := resize (Z.to_nat len) (zb 0) l]> A)
| buf_grow_no_memory p len : buf_step A (Grow p len) (Len 0) A
| buf_append p src len l : A !! p = Some l -> buf_step A (Append p src len) (Ok true) (<[p := l ++ take (Z.to_nat len) src]> A)
| buf_append_no_memory p src len : 0 < len -> buf_step A (Append p src len) (Ok false) A.

(** What a caller may call: buffers that it has, sizes that are [size_t]s, and as
    many bytes to append as it says. *)
Definition buf_callable (A : gmap Z (list byte)) (op : buf_op) : Prop :=
  match op with
  | BufNew => True
  | BufFree p => p = 0 \/ is_Some (A !! p)
  | Reserve p n | Grow p n => is_Some (A !! p) /\ 0 <= n < 2 ^ 64
  | Append p src n => is_Some (A !! p) /\ 0 <= n <= zlen src /\ n < 2 ^ 64
  end.

Section Buffers.
Context `{LibcLaws byte} `{BufMallocLaws}.
Hypothesis bytes : cell_width (T := byte) = 1.
Implicit Types (s : buf_state) (A : gmap Z (list byte)).

Definition run_buf_op (op : buf_op) : BufM buf_result :=
  match op with
  | BufNew => let* p := BUF_MEM_new in ret (Addr p)
  | BufFree p => BUF_MEM_free p;;; ret Freed
  | Reserve p cap => let* b := BUF_MEM_reserve p cap in ret (Ok b)
  | Grow p len => let* n := BUF_MEM_grow p len in ret (Len n)
  | Append p src len => let* b := BUF_MEM_append p src len in ret (Ok b)
  end.

Lemma get_buf_run s p k : bufs s !! p = Some k -> get_buf p s = Done k s.
Proof. intros E. unfold get_buf. by rewrite E. Qed.

Lemma on_blocks_run {X} (op : HeapM X) s x m : op (buf_blocks s) = Done x m -> on_blocks op s = Done x (mk_buf_state (bufs s) m).
Proof. intros E. unfold on_blocks. by rewrite E. Qed.

Lemma buf_known s A p l : bufs_rep s A -> A !! p = Some l -> p <> 0 /\ exists k, bufs s !! p = Some k /\ buf_ok k (buf_blocks s !! buf_data k) l.
Proof. intros R E. exact (w_obj _ _ _ _ _ R p l E). Qed.

Lemma cells_div n : n / cell_width (T := byte) = n.
Proof. rewrite bytes. apply Z.div_1_r. Qed.

(** The size that is asked for has room for [cap] and does not overflow. *)
Lemma alloc_size_room cap : 0 <= cap < 2 ^ 64 -> cap <= u64 (cap + 3) -> let n := u64 (cap + 3) / 3 in
  u64 (n * 4) / 4 = n -> cap < u64 (n * 4) < 2 ^ 64.
Proof.
  intros Hc Ho n Hn. pose proof (u64_range (n * 4)). split; [|lia].
  destruct (Z.ltb_spec (cap + 3) (2 ^ 64)) as [Hs|Hs].
  - pose proof (Z.div_mod (cap + 3) 3 ltac:(lia)). pose proof (Z.mod_pos_bound (cap + 3) 3 ltac:(lia)).
    pose proof (Z.mul_div_le (u64 (n * 4)) 4 ltac:(lia)) as Hle. rewrite Hn in Hle.
    assert (n = (cap + 3) / 3) as En by (unfold n; by rewrite u64_small by lia). rewrite (u64_small (n * 4)) by lia. lia.
  - assert (u64 (cap + 3) = cap + 3 - 2 ^ 64) by (unfold u64; symmetry; apply (Z.mod_unique _ _ 1); lia). lia.
Qed.

Lemma reserve_run s A p l cap : bufs_rep s A -> A !! p = Some l -> 0 <= cap < 2 ^ 64 ->
  exists b s', BUF_MEM_reserve p cap s = Done b s' /\ bufs_rep s' A /\
    (b = true -> exists k, bufs s' !! p = Some k /\ cap <= buf_max k).
Proof.
  intros R El Hc. destruct (buf_known s A p l R El) as (Hp & k & Ek & Hk). unfold BUF_MEM_reserve.
  rewrite (bind_done _ _ _ _ _ (get_buf_run s p k Ek)). destruct (Z.leb_spec cap (buf_max k)) as [|Hmax].
  { exists true, s. split; [done|]. split; [done|]. intros _. by exists k. }
  destruct (Z.ltb_spec (u64 (cap + 3)) cap) as [|Ho]; [by exists false, s|].
  destruct (Z.eqb_spec (u64 (u64 (cap + 3) / 3 * 4) / 4) (u64 (cap + 3) / 3)) as [Hn|]; cbn [negb]; [|by exists false, s].
  pose proof (alloc_size_room cap Hc Ho Hn) as Hroom. set (size := u64 (u64 (cap + 3) / 3 * 4)) in *.
  assert (exists r t, OPENSSL_realloc (buf_data k) size (buf_blocks s) = Done r t /\
    ((r = 0 /\ t = buf_blocks s) \/ exists b, 0 < r /\ buf_blocks s !! r = None /\
       t = <[r := b]> (delete (buf_data k) (buf_blocks s)) /\ full_buf (mk_buf (buf_length k) r size) b l)) as (r & t & E & Hr).
  { destruct (buf_blocks s !! buf_data k) as [b|] eqn:Eb.
    - destruct Hk. destruct (realloc_spec (buf_data k) b size (buf_blocks s)) as (r & t & E & Hr); try done; [lia|pose proof (zlen_nonneg l); lia|lia|rewrite cells_div; lia|].
      exists r, t. split; [done|]. destruct Hr as [|(Hr & Hf & more & Hl & ->)]; [by left|]. right. eexists. split; [done|].
      split; [done|]. split; [done|]. rewrite cells_div in Hl. constructor; cbn; try done; [lia|].
      rewrite take_app_le; [done|]. unfold zlen in *. lia.
    - destruct Hk as [-> ->]. destruct (malloc_spec size (buf_blocks s)) as (r & t & E & Hr); [cbn in Hmax; lia|].
      exists r, t. split; [done|]. destruct Hr as [|(Hr & Hf & cells & Hl & ->)]; [by left|]. right. eexists. split; [done|].
      split; [done|]. rewrite delete_id by done. split; [done|]. rewrite cells_div in Hl. constructor; cbn; try done. unfold zlen. cbn. lia. }
  rewrite (bind_done _ _ _ _ _ (on_blocks_run _ s _ _ E)).
  destruct Hr as [[-> ->]|(b & Hr & Hf & -> & Hb)]; [exists false, s; by destruct s|]. rewrite (proj2 (Z.eqb_neq r 0)) by lia.
  eexists true, _. split; [done|]. cbn [bufs buf_blocks]. split.
  - rewrite <- (insert_id A p l El).
    assert (block_of buf_data (bufs s) p = buf_data k) as Hd by (unfold block_of; by rewrite Ek). rewrite <- Hd.
    apply (owned_write buf_data buf_ok buf_null _ _ _ p (mk_buf (buf_length k) r size) (Some b) l R Hp Hb); cbn; [by right|lia].
  - intros _. exists (mk_buf (buf_length k) r size). rewrite lookup_insert_eq. split; [done|]. cbn. lia.
Qed.

Lemma buf_new_run s A : bufs_rep s A ->
  exists r s', BUF_MEM_new s = Done r s' /\ ((r = 0 /\ s' = s) \/ (A !! r = None /\ r <> 0 /\ bufs_rep s' (<[r := []]> A))).
Proof.
  intros R. unfold BUF_MEM_new. rewrite bind_gets. destruct (malloc_buf (bufs s)) as [p|] eqn:E; [|exists 0, s; by auto].
  destruct (malloc_buf_fresh _ p E) as [Hp Hf]. eexists p, _. split; [done|]. right.
  destruct (owned_add buf_data buf_ok buf_null _ _ _ p (mk_buf 0 0 0) [] R Hp Hf eq_refl (conj eq_refl eq_refl)) as [Hn Ha]. done.
Qed.

Lemma buf_free_run s A p l : bufs_rep s A -> A !! p = Some l ->
  exists s', BUF_MEM_free p s = Done tt s' /\ bufs_rep s' (delete p A).
Proof.
  intros R El. destruct (buf_known s A p l R El) as (Hp & k & Ek & Hk). unfold BUF_MEM_free.
  rewrite (proj2 (Z.eqb_neq p 0) Hp), (bind_done _ _ _ _ _ (get_buf_run s p k Ek)).
  assert (buf_data k = 0 \/ is_Some (buf_blocks s !! buf_data k)) as Hd.
  { destruct (buf_blocks s !! buf_data k) eqn:E; [by right|left]. by destruct Hk as [-> _]. }
  rewrite (bind_done _ _ _ _ _ (on_blocks_run _ s _ _ (free_spec (buf_data k) (buf_blocks s) Hd))).
  eexists. split; [done|]. cbn [bufs buf_blocks]. pose proof (owned_remove buf_data buf_ok _ _ _ p k l R Ek El) as Hr.
  destruct (Z.eqb_spec (buf_data k) 0) as [E|]; [|done]. rewrite E, (delete_id (buf_blocks s)) in Hr by (apply (owned_null _ _ _ _ _ R)). exact Hr.
Qed.

(** Bytes are stored at the end of what the buffer has. *)
Lemma extend_run s A p l k new : bufs_rep s A -> A !! p = Some l -> bufs s !! p = Some k -> 0 < zlen new -> zlen l + zlen new <= buf_max k ->
  exists s1 s', on_blocks (store_n (buf_data k) (buf_length k) new) s = Done tt s1 /\
    put_buf p (mk_buf (zlen l + zlen new) (buf_data k) (buf_max k)) s1 = Done tt s' /\ bufs_rep s' (<[p := l ++ new]> A).
Proof.
  intros R El Ek Hnew Hroom. destruct (buf_known s A p l R El) as (Hp & k0 & E & Hk). assert (k0 = k) as -> by congruence. pose proof (zlen_nonneg l).
  destruct (buf_blocks s !! buf_data k) as [b|] eqn:Eb; [|destruct Hk as [-> ->]; cbn in Hroom; unfold zlen in *; cbn in *; lia].
  destruct Hk. eexists _, _. split; [exact (on_blocks_run _ s _ _ (store_spec _ _ b (buf_length k) new Eb ltac:(lia) ltac:(lia)))|].
  split; [done|].
  cbn [bufs buf_blocks]. apply (owned_change buf_data buf_ok buf_null _ _ _ p k); try done; [|lia].
  assert (take (Z.to_nat (buf_length k)) (blk_cells b) = l) as Ht by (by rewrite f_length0, zlen_to_nat).
  constructor; cbn [buf_data buf_length buf_max blk_size blk_cells]; try done.
  - by rewrite zlen_app.
  - rewrite zlen_app. lia.
  - rewrite Ht, f_length0, zlen_to_nat. unfold zlen in *. rewrite !length_app, length_drop. lia.
  - rewrite Ht, app_assoc. by rewrite take_app_length' by done.
Qed.

Lemma buf_length_run s A p l k : bufs_rep s A -> A !! p = Some l -> bufs s !! p = Some k -> buf_length k = zlen l.
Proof.
  intros R El Ek. destruct (buf_known s A p l R El) as (_ & k0 & E & Hk). assert (k0 = k) as -> by congruence.
  destruct (buf_blocks s !! buf_data k); [by destruct Hk|by destruct Hk as [-> ->]].
Qed.

Lemma append_run s A p l src len : bufs_rep s A -> A !! p = Some l -> 0 <= len <= zlen src -> len < 2 ^ 64 ->
  exists b s', BUF_MEM_append p src len s = Done b s' /\ bufs_rep s' (if b : bool then <[p := l ++ take (Z.to_nat len) src]> A else A) /\
    (b = false -> 0 < len).
Proof.
  intros R El Hlen Hl. unfold BUF_MEM_append. destruct (Z.eqb_spec len 0) as [->|Hpos].
  { exists true, s. split; [done|]. split; [|done]. cbn. by rewrite app_nil_r, insert_id. }
  destruct (buf_known s A p l R El) as (Hp & k & Ek & Hk). rewrite (bind_done _ _ _ _ _ (get_buf_run s p k Ek)).
  rewrite (buf_length_run s A p l k R El Ek). pose proof (zlen_nonneg l).
  destruct (Z.ltb_spec (u64 (zlen l + len)) len) as [|Ho]; [exists false, s; split; [done|]; split; [done|intros _; lia]|].
  destruct (reserve_run s A p l (u64 (zlen l + len)) R El (u64_range _)) as (b & s1 & E1 & R1 & Hb). rewrite (bind_done _ _ _ _ _ E1).
  destruct b; cbn [negb]; [|exists false, s1; split; [done|]; split; [done|intros _; lia]]. destruct (Hb eq_refl) as (k1 & Ek1 & Hmax).
  rewrite (bind_done _ _ _ _ _ (get_buf_run s1 p k1 Ek1)), (proj2 (Z.ltb_ge _ _)) by lia.
  pose proof (buf_length_run s1 A p l k1 R1 El Ek1) as Hk1.
  assert (zlen (take (Z.to_nat len) src) = len) as Ht by (unfold zlen in *; rewrite length_take; lia).
  assert (zlen l < 2 ^ 64) as Hll.
  { destruct (buf_blocks s !! buf_data k); [by destruct Hk; lia|by destruct Hk as [_ ->]]. }
  assert (zlen l + len < 2 ^ 64) as Hsum.
  { destruct (Z.ltb_spec (zlen l + len) (2 ^ 64)) as [|Hge]; [done|].
    assert (u64 (zlen l + len) = zlen l + len - 2 ^ 64) by (unfold u64; symmetry; apply (Z.mod_unique _ _ 1); lia). lia. }
  rewrite u64_small in * by lia.
  destruct (extend_run s1 A p l k1 (take (Z.to_nat len) src) R1 El Ek1) as (s2 & s3 & E2 & E3 & R3); [lia..|].
  rewrite Ht in E3. rewrite (bind_done _ _ _ _ _ E2), (bind_done _ _ _ _ _ E3). by exists true, s3.
Qed.

Lemma grow_run s A p l len : bufs_rep s A -> A !! p = Some l -> 0 <= len < 2 ^ 64 ->
  exists n s', BUF_MEM_grow p len s = Done n s' /\
    ((n = 0 /\ bufs_rep s' A) \/ (n = len /\ bufs_rep s' (<[p := resize (Z.to_nat len) (zb 0) l]> A))).
Proof.
  intros R El Hlen. unfold BUF_MEM_grow.
  destruct (reserve_run s A p l len R El Hlen) as (b & s1 & E1 & R1 & Hb). rewrite (bind_done _ _ _ _ _ E1).
  destruct b; cbn [negb]; [|exists 0, s1; by auto]. destruct (Hb eq_refl) as (k & Ek & Hmax).
  rewrite (bind_done _ _ _ _ _ (get_buf_run s1 p k Ek)), (buf_length_run s1 A p l k R1 El Ek).
  destruct (Z.ltb_spec (zlen l) len) as [Hlt|Hge].
  - assert (zlen (replicate (Z.to_nat (len - zlen l)) (zb 0)) = len - zlen l) as Hz by (unfold zlen at 1; rewrite length_replicate; lia).
    destruct (extend_run s1 A p l k (replicate (Z.to_nat (len - zlen l)) (zb 0)) R1 El Ek) as (s2 & s3 & E2 & E3 & R3); [lia..|].
    rewrite (buf_length_run s1 A p l k R1 El Ek) in E2. rewrite Hz in E3. replace (zlen l + (len - zlen l)) with len in E3 by lia.
    rewrite (bind_done _ _ _ _ _ E2), (bind_done _ _ _ _ _ E3). exists len, s3. split; [done|]. right. split; [done|].
    rewrite resize_ge by (unfold zlen in *; lia). replace (Z.to_nat len - length l)%nat with (Z.to_nat (len - zlen l)) by (unfold zlen; lia). done.
  - eexists len, _. split; [done|]. right. split; [done|]. cbn [bufs buf_blocks]. rewrite resize_le by (unfold zlen in *; lia).
    destruct (buf_known s1 A p l R1 El) as (Hp & k0 & E & Hk). assert (k0 = k) as -> by congruence.
    apply (owned_field buf_data buf_ok buf_null _ _ _ p k); try done.
    cbn [buf_blocks]. destruct (buf_blocks s1 !! buf_data k) as [b|].
    + destruct Hk. assert (length (take (Z.to_nat len) l) = Z.to_nat len) as Ht by (rewrite length_take; unfold zlen in *; lia).
      constructor; cbn [buf_data buf_length buf_max]; try done; [unfold zlen in *; lia..|]. rewrite Ht, <- f_bytes0, take_take. f_equal. unfold zlen in *. lia.
    + destruct Hk as [-> ->]. rewrite take_nil. split; [|done]. cbn in *. unfold zlen in *. cbn in *. f_equal. lia.
Qed.

Lemma buf_op_goes op s A : bufs_rep s A -> buf_callable A op ->
  exists r s' A', run_buf_op op s = Done r s' /\ buf_step A op r A' /\ bufs_rep s' A'.
Proof.
  intros R Hc. destruct op as [|p|p cap|p len|p src len]; cbn [run_buf_op buf_callable] in *.
  - destruct (buf_new_run s A R) as (r & s' & E & [[-> ->]|(Hn & Hr & R')]); rewrite (bind_done _ _ _ _ _ E); eexists _, _, _;
      (split; [done|]); (split; [|done]); by constructor.
  - destruct (decide (p = 0)) as [->|Hp]; [exists Freed, s, A; split; [done|]; split; [constructor|done]|].
    destruct Hc as [|[l El]]; [done|]. destruct (buf_free_run s A p l R El) as (s' & E & R'). rewrite (bind_done _ _ _ _ _ E).
    eexists _, _, _. split; [done|]. split; [by constructor|done].
  - destruct Hc as [[l El] Hcap]. destruct (reserve_run s A p l cap R El Hcap) as (b & s' & E & R' & _). rewrite (bind_done _ _ _ _ _ E).
    eexists _, _, _. split; [done|]. split; [constructor|done].
  - destruct Hc as [[l El] Hlen]. destruct (grow_run s A p l len R El Hlen) as (n & s' & E & Hn). rewrite (bind_done _ _ _ _ _ E).
    destruct Hn as [[-> R']|[-> R']]; eexists _, _, _; (split; [done|]); (split; [|done]); by constructor.
  - destruct Hc as ([l El] & Hlen & Hl). destruct (append_run s A p l src len R El Hlen Hl) as (b & s' & E & R' & Hb).
    rewrite (bind_done _ _ _ _ _ E). destruct b; eexists _, _, _; (split; [done|]); (split; [|done]); constructor; auto.
Qed.

(** C20: buffers are byte strings.  A caller that uses buffers it has runs without
    undefined behaviour, whatever the allocator answers: [BUF_MEM_append] puts
    bytes at the end, [BUF_MEM_grow] cuts off or fills with zeros, a call that
    fails for lack of memory or because the size overflows changes nothing, other
    buffers keep their bytes, and the memory holds the blocks of the buffers that
    are left and nothing else. *)
Theorem buffer_callers_refine cl s A :
  bufs_rep s A -> careful buf_step buf_callable A cl ->
  exists rs s' A', run_caller run_buf_op cl s = Done rs s' /\ caller_steps buf_step A cl rs A' /\ bufs_rep s' A'.
Proof. apply caller_goes. intros op s0 A0. apply buf_op_goes. Qed.
End Buffers.

(** ** Strings *)
(** [s] has the string [cs] and its terminator first. *)
Definition c_string (cs s : list byte) : Prop := Forall (fun b => b <> zb 0) cs /\ exists rest, s = cs ++ zb 0 :: rest.

(** The bytes [l] stored from the position [i] on. *)
Definition put_bytes (a : list byte) (i : nat) (l : list byte) : list byte := take i a ++ l ++ drop (i + length l) a.

Lemma put_nil a i : put_bytes a i [] = a.
Proof. unfold put_bytes. cbn. by rewrite Nat.add_0_r, take_drop. Qed.

Lemma put_one a i b : (i < length a)%nat -> <[i := b]> a = put_bytes a i [b].
Proof. intros Hi. unfold put_bytes. rewrite insert_take_drop by done. cbn. by rewrite Nat.add_1_r. Qed.

Lemma put_bytes_length a i l : (i + length l <= length a)%nat -> length (put_bytes a i l) = length a.
Proof. intros Hi. unfold put_bytes. rewrite !length_app, length_take, length_drop. lia. Qed.

Lemma put_app a i l k : (i + length l + length k <= length a)%nat -> put_bytes (put_bytes a i l) (i + length l) k = put_bytes a i (l ++ k).
Proof.
  intros Hi. unfold put_bytes at 1.
  assert (put_bytes a i l = (take i a ++ l) ++ drop (i + length l) a) as E by (unfold put_bytes; by rewrite app_assoc).
  assert (length (take i a ++ l) = (i + length l)%nat) as Hl by (rewrite length_app, length_take; lia).
  rewrite E, take_app_length' by done. rewrite drop_app_ge by lia. rewrite Hl, drop_drop.
  unfold put_bytes. rewrite length_app, <- !app_assoc. do 4 f_equal. lia.
Qed.

Lemma bz_nonzero b : b <> zb 0 -> (bz b =? 0) = false.
Proof. intros Hb. apply Z.eqb_neq. intros E. apply Hb. rewrite <- (zb_bz b), E. done. Qed.

Lemma c_string_cons b cs s : c_string (b :: cs) s -> exists t, s = b :: t /\ b <> zb 0 /\ c_string cs t.
Proof. intros [[Hb Hcs]%Forall_cons [rest ->]]. exists (cs ++ zb 0 :: rest). split; [done|]. split; [done|]. split; [done|]. by exists rest. Qed.

Section Strings.
Context {St : Type}.
Implicit Types (t : St).

Lemma strlen_run cs : forall s t, c_string cs s -> strlen s t = Done (zlen cs) t.
Proof.
  unfold strlen. induction cs as [|b cs IH]; intros s t Hs; cbn [strlen_from].
  - by destruct Hs as [_ [rest ->]].
  - destruct (c_string_cons b cs s Hs) as (u & -> & Hb & Hu). cbn [strlen_from]. rewrite bz_nonzero by done.
    rewrite (bind_done _ _ _ _ _ (IH u t Hu)). by rewrite zlen_cons, Z.add_comm.
Qed.
End Strings.

Lemma write_run (a : list byte) i b : (i < length a)%nat -> write_at (Z.of_nat i) b a = Done tt (put_bytes a i [b]).
Proof.
  intros Hi. unfold write_at. rewrite bind_gets. unfold id. rewrite (proj2 (Z.leb_le _ _)), (proj2 (Z.ltb_lt _ _)) by (unfold zlen; lia).
  cbn [andb]. unfold modify. by rewrite Nat2Z.id, put_one.
Qed.

(** [n] bytes of the string are copied, the terminator of the rest is not. *)
Lemma strlcpy_loop_run cs : forall src dst size l a, c_string cs src -> (dst + size <= length a)%nat ->
  let n := Nat.min (length cs) (size - 1) in
  strlcpy_loop src (Z.of_nat dst) (Z.of_nat size) l a =
    Done (l + Z.of_nat n, drop n src, Z.of_nat (dst + n), Z.of_nat (size - n)) (put_bytes a dst (take n cs)).
Proof.
  induction cs as [|b cs IH]; intros src dst size l a Hs Ha; cbn zeta.
  - destruct Hs as [_ [rest ->]]. cbn. rewrite put_nil, Nat.add_0_r, Nat.sub_0_r, Z.add_0_r. by destruct (1 <? Z.of_nat size).
  - destruct (c_string_cons b cs src Hs) as (t & -> & Hb & Ht). cbn [strlcpy_loop]. destruct (Z.ltb_spec 1 (Z.of_nat size)) as [Hsz|Hsz]; cbn [negb].
    + rewrite bz_nonzero by done. rewrite (bind_done _ _ _ _ _ (write_run a dst b ltac:(lia))).
      replace (Z.of_nat dst + 1) with (Z.of_nat (S dst)) by lia. replace (Z.of_nat size - 1) with (Z.of_nat (size - 1)) by lia.
      rewrite (IH t (S dst) (size - 1)%nat (l + 1) (put_bytes a dst [b]) Ht) by (rewrite put_bytes_length; cbn; lia).
      assert (Nat.min (length (b :: cs)) (size - 1) = S (Nat.min (length cs) (size - 1 - 1))) as -> by (cbn [length]; lia). cbn [take drop].
      set (n := Nat.min (length cs) (size - 1 - 1)). f_equal; [f_equal; [f_equal; [f_equal|]|]; lia|].
      pose proof (put_app a dst [b] (take n cs)) as E. cbn [length app] in E. rewrite Nat.add_1_r in E. apply E. rewrite length_take. lia.
    + replace (size - 1)%nat with 0%nat by lia. rewrite Nat.min_0_r. cbn [take drop]. by rewrite put_nil, Nat.add_0_r, Nat.sub_0_r, Z.add_0_r.
Qed.

(** What [dst_size] bytes hold of the string and a terminator. *)
Definition truncated (size : nat) (cs : list byte) : list byte :=
  match size with O => [] | S n => take n cs ++ [zb 0] end.

Lemma c_string_drop cs s n : c_string cs s -> (n <= length cs)%nat -> c_string (drop n cs) (drop n s).
Proof. intros [Hcs [rest ->]] Hn. split; [by apply Forall_drop|]. exists rest. by rewrite drop_app_le. Qed.

Lemma strlcpy_run cs src dst size a : c_string cs src -> (dst + size <= length a)%nat -> zlen cs < 2 ^ 64 ->
  OPENSSL_strlcpy (Z.of_nat dst) src (Z.of_nat size) a = Done (zlen cs) (put_bytes a dst (truncated size cs)).
Proof.
  intros Hs Ha Hl. unfold OPENSSL_strlcpy. set (n := Nat.min (length cs) (size - 1)).
  rewrite (bind_done _ _ _ _ _ (strlcpy_loop_run cs src dst size 0 a Hs Ha)). fold n.
  assert (strlen (drop n src) (put_bytes a dst (truncated size cs)) = Done (zlen (drop n cs)) (put_bytes a dst (truncated size cs))) as E
    by (apply strlen_run, c_string_drop; [done|lia]).
  assert (u64 (0 + Z.of_nat n + zlen (drop n cs)) = zlen cs) as Hr.
  { assert (0 + Z.of_nat n + zlen (drop n cs) = zlen cs) as -> by (unfold zlen in *; rewrite length_drop; lia).
    apply u64_small. unfold zlen in *. lia. }
  assert (forall m : ArrayM unit, m (put_bytes a dst (take n cs)) = Done tt (put_bytes a dst (truncated size cs)) ->
    (m;;; let* k := strlen (drop n src) in ret (u64 (0 + Z.of_nat n + k))) (put_bytes a dst (take n cs))
    = Done (zlen cs) (put_bytes a dst (truncated size cs))) as Hfin.
  { intros m Em. rewrite (bind_done _ _ _ _ _ Em), (bind_done _ _ _ _ _ E). unfold ret. by rewrite Hr. }
  apply Hfin. destruct size as [|size]; [by replace n with 0%nat by (unfold n; lia)|]. destruct (Z.eqb_spec (Z.of_nat (S size - n)) 0) as [|_]; [unfold n in *; lia|]. cbn [negb].
  assert (length (take n cs) = n) as Hn by (rewrite length_take; lia).
  rewrite write_run by (rewrite put_bytes_length; rewrite ?Hn; lia). f_equal.
  pose proof (put_app a dst (take n cs) [zb 0]) as Hp. rewrite Hn in Hp. rewrite Hp by (cbn; lia). unfold truncated. do 2 f_equal.
  destruct (Nat.le_ge_cases (length cs) size); [rewrite !take_ge by lia; done|]. f_equal. lia.
Qed.

(** The bytes before the first NUL. *)
Fixpoint until_nul (l : list byte) : list byte :=
  match l with [] => [] | b :: l => if bz b =? 0 then [] else b :: until_nul l end.

Lemma strlcat_loop_run n : forall dst l a, (dst + n <= length a)%nat ->
  let k := length (until_nul (take n (drop dst a))) in
  strlcat_loop n (Z.of_nat dst) l a = Done (l + Z.of_nat k, Z.of_nat (dst + k), Z.of_nat (n - k)) a.
Proof.
  induction n as [|n IH]; intros dst l a Ha; cbn zeta; cbn [strlcat_loop].
  - cbn. by rewrite Z.add_0_r, Nat.add_0_r.
  - destruct (lookup_lt_is_Some_2 a dst) as [b Eb]; [lia|]. rewrite (drop_S a b) by done. cbn [take until_nul].
    assert (dst_at (Z.of_nat dst) a = Done b a) as Ed.
    { unfold dst_at, read_at. rewrite bind_gets. unfold id. rewrite (proj2 (Z.ltb_ge _ _)) by lia. by rewrite Nat2Z.id, Eb. }
    rewrite (bind_done _ _ _ _ _ Ed). destruct (bz b =? 0).
    + cbn [length]. rewrite Z.add_0_r, Nat.add_0_r. done.
    + replace (Z.of_nat dst + 1) with (Z.of_nat (S dst)) by lia. rewrite IH by lia. cbn [length].
      set (k := length _). repeat match goal with |- Done _ _ = Done _ _ => f_equal | |- (_, _) = (_, _) => f_equal end; lia.
Qed.

Lemma strlcat_run cs src dst size a : c_string cs src -> (dst + size <= length a)%nat -> zlen cs < 2 ^ 64 ->
  let k := length (until_nul (take size (drop dst a))) in
  OPENSSL_strlcat (Z.of_nat dst) src (Z.of_nat size) a =
    Done (u64 (Z.of_nat k + zlen cs)) (put_bytes a (dst + k) (truncated (size - k) cs)).
Proof.
  intros Hs Ha Hl k. unfold OPENSSL_strlcat. rewrite Nat2Z.id.
  rewrite (bind_done _ _ _ _ _ (strlcat_loop_run size dst 0 a Ha)). fold k.
  assert (k <= size)%nat as Hk.
  { unfold k. transitivity (length (take size (drop dst a))); [|rewrite length_take; lia].
    generalize (take size (drop dst a)). intros l. induction l as [|b l IH]; cbn; [lia|]. destruct (bz b =? 0); cbn; lia. }
  rewrite (bind_done _ _ _ _ _ (strlcpy_run cs src (dst + k) (size - k) a Hs ltac:(lia) Hl)). done.
Qed.

(** [OPENSSL_strlcpy] and [OPENSSL_strlcat] stay inside of the [dst_size]
    bytes of the destination: they store as much of the source as fits, after the
    string that is there, with a terminator, and change nothing else; the result
    is the length that the whole string has, so that a result of [dst_size] or
    more tells of a truncation; nothing is stored when there is no room for a
    terminator, that is with [dst_size] zero or without a terminator in it. *)
Theorem string_copies_bounded cs src dst size a :
  c_string cs src -> (dst + size <= length a)%nat -> zlen cs < 2 ^ 64 ->
  OPENSSL_strlcpy (Z.of_nat dst) src (Z.of_nat size) a = Done (zlen cs) (put_bytes a dst (truncated size cs)) /\
  (let k := length (until_nul (take size (drop dst a))) in
   OPENSSL_strlcat (Z.of_nat dst) src (Z.of_nat size) a =
     Done (u64 (Z.of_nat k + zlen cs)) (put_bytes a (dst + k) (truncated (size - k) cs))) /\
  (length (truncated size cs) <= size)%nat /\ (zlen cs < Z.of_nat size <-> truncated size cs = cs ++ [zb 0]).
Proof.
  intros Hs Ha Hl. split; [by apply strlcpy_run|]. split; [by apply strlcat_run|]. unfold truncated, zlen in *. destruct size as [|size].
  - split; [cbn; lia|]. split; [lia|]. by destruct cs.
  - rewrite length_app, length_take. split; [cbn; lia|]. split.
    + intros Hlt. by rewrite take_ge by lia.
    + intros E%(f_equal length). rewrite !length_app, length_take in E. lia.
Qed.

(** ** Comparison without case *)
Definition folded (b : byte) : Z := OPENSSL_tolower (s8 (bz b)).

(** The first difference of two strings with their terminators. *)
Fixpoint lex (x y : list Z) : Z :=
  match x, y with
  | a :: x, b :: y => if a <? b then -1 else if b <? a then 1 else lex x y
  | _, _ => 0
  end.
Definition case_key (cs : list byte) : list Z := map folded cs ++ [0].

Lemma folded_zero : folded (zb 0) = 0.
Proof. reflexivity. Qed.

Lemma folded_nonzero b : b <> zb 0 -> folded b <> 0.
Proof.
  intros Hb. unfold folded, OPENSSL_tolower. pose proof (bz_nonzero b Hb) as Hz%Z.eqb_neq. pose proof (bz_range b) as Hr.
  assert (s8 (bz b) <> 0) as Hs.
  { intros E. pose proof (swrap_mod 8 (bz b) ltac:(lia)) as Hm. change (swrap 8 (bz b)) with (s8 (bz b)) in Hm.
    rewrite E, (Z.mod_small (bz b)) in Hm by lia. done. }
  destruct (_ && _) eqn:E; lia.
Qed.

Section Compare.
Context {St : Type}.
Implicit Types (t : St).

Lemma char_run a i cs c t : c_string cs (drop i a) -> head (cs ++ [zb 0]) = Some c -> char_at a (Z.of_nat i) t = Done (s8 (bz c)) t.
Proof.
  intros [_ [rest E]] Hc. unfold char_at, read_at. rewrite (proj2 (Z.ltb_ge _ _)) by lia. rewrite Nat2Z.id.
  assert (a !! i = Some c) as ->; [|done]. rewrite <- (Nat.add_0_r i), <- lookup_drop, E. by destruct cs.
Qed.

Lemma c_string_next b cs a i : c_string (b :: cs) (drop i a) -> b <> zb 0 /\ c_string cs (drop (S i) a).
Proof.
  intros Hs. destruct (c_string_cons b cs _ Hs) as (u & E & Hb & Hu). split; [done|].
  replace (drop (S i) a) with u; [done|]. rewrite <- Nat.add_1_r, <- drop_drop, E. done.
Qed.

Lemma turn_run a b i x y cx cy t : c_string x (drop i a) -> c_string y (drop i b) -> head (x ++ [zb 0]) = Some cx -> head (y ++ [zb 0]) = Some cy ->
  casecmp_turn a b (Z.of_nat i) t =
    Done (if folded cx <? folded cy then Some (-1) else if folded cy <? folded cx then Some 1 else if folded cx =? 0 then Some 0 else None) t.
Proof.
  intros Hx Hy Ex Ey. unfold casecmp_turn.
  by rewrite (bind_done _ _ _ _ _ (char_run a i x cx t Hx Ex)), (bind_done _ _ _ _ _ (char_run b i y cy t Hy Ey)).
Qed.

(** One turn of both loops: the strings go on, or the first difference is here. *)
Lemma turn_cases a b i x y t : c_string x (drop i a) -> c_string y (drop i b) ->
  exists r, casecmp_turn a b (Z.of_nat i) t = Done r t /\
    match r with
    | Some z => forall n, lex (take (S n) (case_key x)) (take (S n) (case_key y)) = z
    | None => exists cx x' cy y', x = cx :: x' /\ y = cy :: y' /\ c_string x' (drop (S i) a) /\ c_string y' (drop (S i) b) /\
        forall n, lex (take (S n) (case_key x)) (take (S n) (case_key y)) = lex (take n (case_key x')) (take n (case_key y'))
    end.
Proof.
  intros Hx Hy. assert (forall z : list byte, exists c, head (z ++ [zb 0]) = Some c /\ exists k, case_key z = folded c :: k) as Hhd.
  { intros [|c z]; eexists; (split; [done|]); eexists; [|done]. by rewrite <- folded_zero. }
  destruct (Hhd x) as (cx & Ex & kx & Kx), (Hhd y) as (cy & Ey & ky & Ky).
  eexists. split; [exact (turn_run a b i x y cx cy t Hx Hy Ex Ey)|].
  destruct (Z.ltb_spec (folded cx) (folded cy)) as [Hlt|Hge].
  { intros n. rewrite Kx, Ky. cbn [take lex]. by rewrite (proj2 (Z.ltb_lt _ _)). }
  destruct (Z.ltb_spec (folded cy) (folded cx)) as [Hlt|Hge'].
  { intros n. rewrite Kx, Ky. cbn [take lex]. by rewrite (proj2 (Z.ltb_ge _ _)), (proj2 (Z.ltb_lt _ _)). }
  assert (folded cx = folded cy) as Heq by lia.
  assert (forall n, lex (take (S n) (case_key x)) (take (S n) (case_key y)) = lex (take n kx) (take n ky)) as Hlex.
  { intros n. rewrite Kx, Ky. cbn [take lex]. by rewrite Heq, Z.ltb_irrefl. }
  destruct x as [|c x], y as [|d y]; cbn in Ex, Ey; injection Ex as <-; injection Ey as <-.
  - cbn [folded]. rewrite folded_zero. cbn. intros n. injection Kx as <-. injection Ky as <-. by destruct n.
  - destruct (c_string_next d y b i Hy) as [Hd _]. by destruct (folded_nonzero d Hd).
  - destruct (c_string_next c x a i Hx) as [Hc _]. by destruct (folded_nonzero c Hc).
  - destruct (c_string_next c x a i Hx) as [Hc Hx'], (c_string_next d y b i Hy) as [Hd Hy'].
    rewrite (proj2 (Z.eqb_neq _ _) (folded_nonzero c Hc)). exists c, x, d, y. repeat (split; [done|]). intros n. rewrite Hlex.
    injection Kx as <-. injection Ky as <-. done.
Qed.

Lemma strcasecmp_run x y a b fuel t : c_string x a -> c_string y b -> (length x < fuel)%nat ->
  OPENSSL_strcasecmp fuel a b t = Done (lex (case_key x) (case_key y)) t.
Proof.
  intros Hx Hy Hf. unfold OPENSSL_strcasecmp. rewrite <- (drop_0 a) in Hx. rewrite <- (drop_0 b) in Hy.
  change 0 with (Z.of_nat 0). revert Hx Hy Hf. generalize 0%nat as i. revert x y.
  induction fuel as [|fuel IH]; intros x y i Hx Hy Hf; [lia|]. cbn [strcasecmp_loop].
  destruct (turn_cases a b i x y t Hx Hy) as (r & E & Hr). rewrite (bind_done _ _ _ _ _ E).
  assert (forall k, lex (take (length (case_key x) + length (case_key y)) (case_key x)) (take (length (case_key x) + length (case_key y)) (case_key y)) = k ->
    lex (case_key x) (case_key y) = k) as Hall by (intros k; by rewrite !take_ge by lia).
  assert (exists n, length (case_key x) + length (case_key y) = S n)%nat as [n Hn] by (exists (length x + length (case_key y))%nat; unfold case_key; rewrite !length_app, !length_map; cbn; lia).
  rewrite Hn in Hall. destruct r as [z|].
  - unfold ret. f_equal. symmetry. by apply Hall.
  - destruct Hr as (c & x' & d & y' & -> & -> & Hx' & Hy' & Hlex). replace (Z.of_nat i + 1) with (Z.of_nat (S i)) by lia.
    rewrite (IH x' y' (S i)) by (done || cbn in Hf; lia). f_equal. symmetry. apply Hall. rewrite Hlex.
    unfold case_key in *. rewrite !length_app, !length_map in Hn. cbn in Hn. rewrite !take_ge by (rewrite length_app, length_map; cbn; lia). done.
Qed.

Lemma strncasecmp_run x y a b n t : c_string x a -> c_string y b ->
  OPENSSL_strncasecmp a b (Z.of_nat n) t = Done (lex (take n (case_key x)) (take n (case_key y))) t.
Proof.
  intros Hx Hy. unfold OPENSSL_strncasecmp. rewrite Nat2Z.id. rewrite <- (drop_0 a) in Hx. rewrite <- (drop_0 b) in Hy.
  change 0 with (Z.of_nat 0). revert Hx Hy. generalize 0%nat as i. revert x y.
  induction n as [|n IH]; intros x y i Hx Hy; cbn [strncasecmp_loop]; [done|].
  destruct (turn_cases a b i x y t Hx Hy) as (r & E & Hr). rewrite (bind_done _ _ _ _ _ E). destruct r as [z|].
  - unfold ret. by rewrite Hr.
  - destruct Hr as (c & x' & d & y' & -> & -> & Hx' & Hy' & Hlex). replace (Z.of_nat i + 1) with (Z.of_nat (S i)) by lia.
    by rewrite (IH x' y' (S i)), Hlex.
Qed.

Lemma lex_zero x y : lex (case_key x) (case_key y) = 0 -> Forall (fun b => b <> zb 0) x -> Forall (fun b => b <> zb 0) y -> map folded x = map folded y.
Proof.
  unfold case_key. revert y. induction x as [|c x IH]; intros [|d y]; cbn [map app lex]; try done.
  - intros E _ [Hd _]%Forall_cons. apply folded_nonzero in Hd. destruct (Z.ltb_spec 0 (folded d)), (Z.ltb_spec (folded d) 0); lia.
  - intros E [Hc _]%Forall_cons _. apply folded_nonzero in Hc. destruct (Z.ltb_spec 0 (folded c)), (Z.ltb_spec (folded c) 0); lia.
  - intros E [_ Hx]%Forall_cons [_ Hy]%Forall_cons. destruct (Z.ltb_spec (folded c) (folded d)), (Z.ltb_spec (folded d) (folded c)); try lia.
    f_equal; [lia|by apply IH].
Qed.
End Compare.

(** [OPENSSL_strcasecmp] returns and compares two strings, terminators
    included, by the first [char] that is different up to the case of ASCII
    letters, and [OPENSSL_strncasecmp] does so for the first [n] of them, without
    a read behind a terminator; the result of [OPENSSL_strcasecmp] is 0 exactly
    for strings that are equal up to that case. *)
Theorem strcasecmp_orders {St} x y a b n fuel (t : St) :
  c_string x a -> c_string y b -> (length x < fuel)%nat ->
  OPENSSL_strcasecmp fuel a b t = Done (lex (case_key x) (case_key y)) t /\
  OPENSSL_strncasecmp a b (Z.of_nat n) t = Done (lex (take n (case_key x)) (take n (case_key y))) t /\
  (lex (case_key x) (case_key y) = 0 <-> map folded x = map folded y).
Proof.
  intros Hx Hy Hf. split; [by apply strcasecmp_run|]. split; [by apply strncasecmp_run|]. split.
  - intros E. apply lex_zero; [done|apply Hx|apply Hy].
  - unfold case_key. intros ->. induction (map folded y ++ [0]) as [|c l IH]; [done|]. cbn. by rewrite Z.ltb_irrefl.
Qed.

(** ** Lengths and hashes *)
Lemma until_nul_c_string cs s n : c_string cs s -> until_nul (take n s) = take n cs.
Proof.
  revert s n. induction cs as [|c cs IH]; intros s [|n] Hs; try done; cbn [take].
  - destruct Hs as [_ [rest ->]]. done.
  - destruct (c_string_cons c cs s Hs) as (t & -> & Hc & Ht). cbn [take until_nul]. by rewrite bz_nonzero, IH.
Qed.

(** There is no read behind [n] bytes, nor behind a NUL. *)
Lemma strnlen_run {St} s n (t : St) : (n <= length s)%nat \/ zb 0 ∈ s ->
  OPENSSL_strnlen s (Z.of_nat n) t = Done (zlen (until_nul (take n s))) t.
Proof.
  intros Hs. unfold OPENSSL_strnlen. rewrite Nat2Z.id. rewrite <- (drop_0 s) in Hs. rewrite <- (drop_0 s) at 2.
  assert (forall n i, (n <= length (drop i s))%nat \/ zb 0 ∈ drop i s ->
    strnlen_loop n s (Z.of_nat i) t = Done (Z.of_nat i + zlen (until_nul (take n (drop i s)))) t) as Hgo;
    [|by apply (Hgo n 0%nat)].
  clear. induction n as [|n IH]; intros i Hs; cbn [strnlen_loop]; [cbn; by rewrite Z.add_0_r|].
  destruct (drop i s) as [|b l] eqn:El; [destruct Hs as [Hs|Hs]; [cbn in Hs; lia|by apply not_elem_of_nil in Hs]|].
  assert (s !! i = Some b) as Eb by (rewrite <- (Nat.add_0_r i), <- lookup_drop, El; done).
  assert (l = drop (S i) s) as -> by (rewrite (drop_S s b i Eb) in El; congruence).
  assert (char_at s (Z.of_nat i) t = Done (s8 (bz b)) t) as Ec.
  { unfold char_at, read_at. rewrite (proj2 (Z.ltb_ge _ _)) by lia. by rewrite Nat2Z.id, Eb. }
  rewrite (bind_done _ _ _ _ _ Ec). cbn [take until_nul]. destruct (Z.eqb_spec (bz b) 0) as [Hz|Hz].
  - rewrite Hz. cbn. by rewrite Z.add_0_r.
  - assert (b <> zb 0) as Hb by (intros ->; done).
    assert (s8 (bz b) <> 0) as Hs8 by (intros E; apply (folded_nonzero b Hb); unfold folded; by rewrite E).
    rewrite (proj2 (Z.eqb_neq _ _) Hs8). replace (Z.of_nat i + 1) with (Z.of_nat (S i)) by lia. rewrite IH, zlen_cons; [f_equal; lia|].
    destruct Hs as [Hs|[Hs|Hs]%elem_of_cons]; [left; cbn in Hs; lia|congruence|by right].
Qed.

(** FNV-1a of the bytes before the terminator. *)
Lemma strhash_run {St} cs s (t : St) : c_string cs s -> OPENSSL_strhash s t = Done (hash_loop cs kOffsetBasis) t.
Proof.
  intros Hs. unfold OPENSSL_strhash. rewrite (bind_done _ _ _ _ _ (strlen_run cs s t Hs)). destruct Hs as [_ [rest ->]].
  unfold OPENSSL_hash32. rewrite (proj2 (Z.ltb_ge _ _)) by (rewrite zlen_app; pose proof (zlen_nonneg (zb 0 :: rest)); lia).
  by rewrite zlen_to_nat, take_app_length.
Qed.

(** ** Copies in new blocks *)
Section Duplicates.
Context `{LibcLaws byte}.
Hypothesis bytes : cell_width (T := byte) = 1.
Implicit Types (m : heap byte).

(** A block of exactly the bytes [l], or no memory. *)
Definition new_copy (l : list byte) (m : heap byte) (r : Z) (m' : heap byte) : Prop :=
  (r = 0 /\ m' = m) \/ (0 < r /\ m !! r = None /\ m' = <[r := mk_blk (zlen l) l]> m).

(** A new block of [n] bytes is filled by two stores, the second may be empty. *)
Lemma fill_run n m (l k : list byte) (fill : Z -> HeapM (T := byte) unit) :
  n = zlen l + zlen k -> n < 2 ^ 64 ->
  (forall r b, m !! r = None -> zlen (blk_cells b) = n -> blk_size b = n ->
     fill r (<[r := b]> m) = (store_n r 0 l;;; store_n r (zlen l) k) (<[r := b]> m)) ->
  exists r m', (let* r := OPENSSL_malloc n in if r =? 0 then ret 0 else fill r;;; ret r) m = Done r m' /\ new_copy (l ++ k) m r m'.
Proof.
  intros -> Hn Hfill. pose proof (zlen_nonneg l). pose proof (zlen_nonneg k).
  destruct (malloc_spec (zlen l + zlen k) m ltac:(lia)) as (r & m1 & E & Hr). exists r. rewrite (bind_done _ _ _ _ _ E).
  destruct Hr as [[-> ->]|(Hr & Hf & cells & Hc & ->)]; [exists m; split; [done|by left]|].
  rewrite (proj2 (Z.eqb_neq r 0)) by lia. rewrite bytes, Z.div_1_r in Hc. set (b := mk_blk (zlen l + zlen k) cells).
  set (b1 := mk_blk (zlen l + zlen k) (l ++ drop (length l) cells)).
  assert (store_n r 0 l (<[r := b]> m) = Done tt (<[r := b1]> m)) as E1.
  { rewrite (store_spec _ r b 0 l (lookup_insert_eq _ _ _) ltac:(lia) ltac:(cbn [blk_cells b]; lia)). by rewrite insert_insert_eq. }
  assert (store_n r (zlen l) k (<[r := b1]> m) = Done tt (<[r := mk_blk (zlen l + zlen k) (l ++ k)]> m)) as E2.
  { rewrite (store_spec _ r b1 (zlen l) k (lookup_insert_eq _ _ _) ltac:(lia)
      ltac:(cbn [blk_cells b1]; rewrite zlen_app; unfold zlen in *; rewrite length_drop; lia)).
    rewrite insert_insert_eq. cbn [blk_size blk_cells b1]. rewrite zlen_to_nat, take_app_length, drop_ge, app_nil_r; [done|].
    rewrite length_app, length_drop. unfold zlen in *. lia. }
  eexists. split.
  - rewrite (bind_done _ _ _ tt (<[r := mk_blk (zlen l + zlen k) (l ++ k)]> m)); [done|].
    rewrite Hfill by done. by rewrite (bind_done _ _ _ _ _ E1), E2.
  - right. by rewrite zlen_app.
Qed.

Lemma fill_one_run n m (l : list byte) : n = zlen l -> n < 2 ^ 64 ->
  exists r m', (let* r := OPENSSL_malloc n in if r =? 0 then ret 0 else store_n r 0 l;;; ret r) m = Done r m' /\ new_copy l m r m'.
Proof.
  intros -> Hn. destruct (fill_run (zlen l) m l [] (fun r => store_n r 0 l)) as (r & m' & E & Hr); [change (zlen []) with 0; lia|done|..].
  - intros r b Hf Hb Hs. pose proof (zlen_nonneg l).
    pose proof (store_spec _ r b 0 l (lookup_insert_eq m r b) ltac:(lia) ltac:(lia)) as E. rewrite (bind_done _ _ _ _ _ E), E.
    rewrite insert_insert_eq. set (b1 := mk_blk _ _).
    assert (zlen (blk_cells b1) = zlen l) as Hb1 by (unfold b1; cbn [blk_cells]; rewrite !zlen_app; unfold zlen in *; rewrite length_take, length_drop; lia).
    rewrite (store_spec _ r b1 (zlen l) [] (lookup_insert_eq _ _ _) ltac:(lia) ltac:(change (zlen []) with 0; lia)). rewrite insert_insert_eq.
    destruct b1 as [sz cells]. cbn [blk_size blk_cells app length]. by rewrite Nat.add_0_r, take_drop.
  - rewrite app_nil_r in Hr. by exists r, m'.
Qed.

Lemma strdup_run cs s m : c_string cs s -> zlen cs + 1 < 2 ^ 64 ->
  exists r m', OPENSSL_strdup (Some s) m = Done r m' /\ new_copy (cs ++ [zb 0]) m r m'.
Proof.
  intros Hs Hl. unfold OPENSSL_strdup. rewrite (bind_done _ _ _ _ _ (strlen_run cs s m Hs)). pose proof (zlen_nonneg cs).
  rewrite u64_small by lia. assert (take (Z.to_nat (zlen cs + 1)) s = cs ++ [zb 0]) as ->.
  { destruct Hs as [_ [rest ->]]. change (zb 0 :: rest) with ([zb 0] ++ rest). rewrite app_assoc. apply take_app_length'.
    rewrite length_app. unfold zlen. cbn [length]. lia. }
  apply fill_one_run; [rewrite zlen_app; done|lia].
Qed.

Lemma strndup_run s n m : (n <= length s)%nat \/ zb 0 ∈ s -> Z.of_nat n + 1 < 2 ^ 64 ->
  exists r m', OPENSSL_strndup s (Z.of_nat n) m = Done r m' /\ new_copy (until_nul (take n s) ++ [zb 0]) m r m'.
Proof.
  intros Hs Hl. unfold OPENSSL_strndup. rewrite (bind_done _ _ _ _ _ (strnlen_run s n m Hs)).
  set (l := until_nul (take n s)).
  assert (take (length l) s = l /\ (length l <= n)%nat) as [Ht Hle].
  { unfold l. clear. revert n. induction s as [|b s IH]; intros [|n]; cbn [take until_nul]; try (split; [done|cbn; lia]).
    destruct (bz b =? 0); [split; [done|cbn; lia]|]. cbn [length take]. destruct (IH n) as [E Hn]. rewrite E. split; [done|lia]. }
  pose proof (zlen_nonneg l). assert (zlen l <= Z.of_nat n) by (unfold zlen; lia).
  rewrite u64_small by lia. rewrite (proj2 (Z.ltb_ge _ _)) by lia. rewrite zlen_to_nat, Ht.
  destruct (fill_run (zlen l + 1) m l [zb 0] (fun r => store_n r 0 l;;; store_n r (zlen l) [zb 0])) as (r & m' & E & Hr); [done|lia|done|].
  exists r, m'. split; [|done]. rewrite <- E. apply bind_ext. intros x t. destruct (x =? 0); [done|]. symmetry. apply bind_assoc.
Qed.

Lemma memdup_run data n m : 0 < n <= zlen data -> n < 2 ^ 64 ->
  exists r m', OPENSSL_memdup data n m = Done r m' /\ new_copy (take (Z.to_nat n) data) m r m'.
Proof.
  intros Hn Hl. unfold OPENSSL_memdup. destruct (Z.eqb_spec n 0); [lia|]. rewrite (proj2 (Z.ltb_ge (zlen data) n)) by lia.
  apply fill_one_run; [unfold zlen in *; rewrite length_take; lia|done].
Qed.

(** The block at [p], when there is one, is given back. *)
Definition given_back (p : Z) (m : heap byte) : heap byte := if p =? 0 then m else delete p m.

(** [CBS_stow] and [CBS_strdup] give back what the pointer had, and store a copy of
    the contents, the latter up to the first NUL and with a terminator. *)
Lemma stow_run cbs p m : p = 0 \/ is_Some (m !! p) -> 0 <= cbs_len cbs <= zlen (cbs_data cbs) -> cbs_len cbs < 2 ^ 64 ->
  exists ok r n m', CBS_stow cbs p m = Done (ok, r, n) m' /\
    ((cbs_len cbs = 0 /\ ok = true /\ r = 0 /\ n = 0 /\ m' = given_back p m) \/
     (0 < cbs_len cbs /\ new_copy (take (Z.to_nat (cbs_len cbs)) (cbs_data cbs)) (given_back p m) r m' /\
      ok = negb (r =? 0) /\ n = if r =? 0 then 0 else cbs_len cbs)).
Proof.
  intros Hp Hl H64. unfold CBS_stow. rewrite (bind_done _ _ _ _ _ (free_spec p m Hp)). fold (given_back p m).
  destruct (Z.eqb_spec (cbs_len cbs) 0) as [E|E]; [exists true, 0, 0, (given_back p m); auto 10|].
  destruct (memdup_run (cbs_data cbs) (cbs_len cbs) (given_back p m) ltac:(lia) H64) as (r & m' & Ed & Hr).
  rewrite (bind_done _ _ _ _ _ Ed). exists (negb (r =? 0)), r, (if r =? 0 then 0 else cbs_len cbs), m'.
  split; [|right; split; [lia|done]]. destruct (Z.eqb_spec r 0) as [->|]; done.
Qed.

Lemma cbs_strdup_run cbs p m : p = 0 \/ is_Some (m !! p) -> 0 <= cbs_len cbs <= zlen (cbs_data cbs) -> cbs_len cbs + 1 < 2 ^ 64 ->
  exists r m', CBS_strdup cbs p m = Done (negb (r =? 0), r) m' /\
    new_copy (until_nul (take (Z.to_nat (cbs_len cbs)) (cbs_data cbs)) ++ [zb 0]) (given_back p m) r m'.
Proof.
  intros Hp Hl H64. unfold CBS_strdup.
  assert ((if negb (p =? 0) then OPENSSL_free p else ret tt) m = Done tt (given_back p m)) as Ef.
  { unfold given_back. destruct (p =? 0) eqn:E; cbn [negb]; [done|]. rewrite (free_spec p m Hp). by rewrite E. }
  rewrite (bind_done _ _ _ _ _ Ef).
  destruct (strndup_run (cbs_data cbs) (Z.to_nat (cbs_len cbs)) (given_back p m) ltac:(left; unfold zlen in *; lia) ltac:(lia)) as (r & m' & Ed & Hr).
  rewrite Z2Nat.id in Ed by lia. rewrite (bind_done _ _ _ _ _ Ed). by exists r, m'.
Qed.
End Duplicates.

(** ** A sample: 64 buffers and 64 blocks *)
#[export] Instance sample_bytes : Libc byte := sample_libc 1 (zb 0).
#[export] Instance sample_bytes_laws : LibcLaws byte := sample_libc_laws 1 (zb 0) ltac:(lia).
Lemma bytes_width : cell_width (T := byte) = 1.
Proof. reflexivity. Qed.
#[export] Instance sample_buf_malloc : BufMalloc := {| malloc_buf m := first_free m |}.
#[export] Instance sample_buf_malloc_laws : BufMallocLaws.
Proof. constructor. intros m p E. destruct (first_free_fresh m p E). split; [lia|done]. Qed.

(** Appends "abc" to a new buffer and makes it five bytes long. *)
Definition abc : list byte := map zb [97; 98; 99].
Definition buffer_caller : caller buf_op buf_result :=
  Calls BufNew (fun r =>
    match r with
    | Addr p => if p =? 0 then Stop else Calls (Append p abc 3) (fun _ => Calls (Grow p 5) (fun _ => Calls (BufFree 0) (fun _ => Stop)))
    | _ => Stop
    end).

Lemma buffer_careful : careful buf_step buf_callable ∅ buffer_caller.
Proof.
  split; [done|]. intros r A1 Hst. inversion Hst as [p _ Hp E1 E2| | | | | | | |]; subst; cbn; [|done].
  destruct (Z.eqb_spec p 0); [done|]. split.
  { split; [|vm_compute; repeat split; discriminate]. by rewrite lookup_insert_eq. }
  intros r2 A2 Hst2. assert (is_Some (A2 !! p)) as Hin.
  { inversion Hst2; subst; rewrite lookup_insert_eq; done. }
  split; [split; [done|lia]|]. intros r3 A3 _. split; [by left|done].
Qed.

Lemma bufs_empty : bufs_rep (mk_buf_state ∅ ∅) ∅.
Proof. apply owned_empty. Qed.

(** ** Witnesses *)
Lemma buffer_callers_refine_witness :
  (exists rs s' A', run_caller run_buf_op buffer_caller (mk_buf_state ∅ ∅) = Done rs s' /\ caller_steps buf_step ∅ buffer_caller rs A' /\ bufs_rep s' A') /\
  match run_caller run_buf_op buffer_caller (mk_buf_state ∅ ∅) with
  | Done rs s' => rs = [Addr 16; Ok true; Len 5; Freed] /\ bufs s' !! 16 = Some (mk_buf 5 16 8)
  | _ => False
  end.
Proof.
  split; [|vm_compute; split; reflexivity].
  exact (buffer_callers_refine bytes_width buffer_caller _ ∅ bufs_empty buffer_careful).
Defined.

Lemma abc_string rest : c_string abc (abc ++ zb 0 :: rest).
Proof. split; [by repeat constructor|by exists rest]. Qed.

Lemma string_copies_bounded_witness :
  OPENSSL_strlcpy 1 (abc ++ [zb 0]) 3 (replicate 6 (zb 120)) = Done 3 (map zb [120; 97; 98; 0; 120; 120]) /\
  OPENSSL_strlcat 1 (abc ++ [zb 0]) 5 (map zb [120; 100; 0; 120; 120; 120; 120]) = Done 4 (map zb [120; 100; 97; 98; 99; 0; 120]).
Proof.
  split.
  - exact (proj1 (string_copies_bounded abc (abc ++ [zb 0]) 1 3 (replicate 6 (zb 120)) (abc_string []) ltac:(cbn; lia) eq_refl)).
  - exact (proj1 (proj2 (string_copies_bounded abc (abc ++ [zb 0]) 1 5 (map zb [120; 100; 0; 120; 120; 120; 120]) (abc_string []) ltac:(cbn; lia) eq_refl))).
Defined.

(** "abc" and "ABC". *)
Lemma strcasecmp_orders_witness :
  OPENSSL_strcasecmp 10 (abc ++ [zb 0]) (map zb [65; 66; 67; 0]) tt = Done 0 tt /\
  OPENSSL_strncasecmp (abc ++ [zb 0]) (map zb [65; 66; 67; 0]) 2 tt = Done 0 tt.
Proof.
  destruct (strcasecmp_orders abc (map zb [65; 66; 67]) (abc ++ [zb 0]) (map zb [65; 66; 67; 0]) 2 10 tt (abc_string [])
    ltac:(split; [by repeat constructor|by exists []]) ltac:(cbn; lia)) as (E1 & E2 & _).
  split; [exact E1|exact E2].
Defined.

(** The [char]s are signed: "a" comes behind "a\x80". *)
Lemma high_bytes_before_end : OPENSSL_strcasecmp 10 (map zb [97; 0]) (map zb [97; 128; 0]) tt = Done 1 tt.
Proof. vm_compute. reflexivity. Qed.
