(* ===== verification/Stack.v ===== *)
(** BoringSSL, [crypto/stack/stack.c]: growing arrays of pointers, with an order
    by which they can be sorted and searched. *)
From S2P Require Import Prelude.
From S2P Require Import Mem.

(** [struct stack_st]; [comp] is a function pointer, the elements are opaque
    pointers. *)
Record stack : Type := mk_stack { num : Z; data : Z; sorted : bool; num_alloc : Z; comp : Z }.

Definition with_num (v : Z) (k : stack) : stack := mk_stack v (data k) (sorted k) (num_alloc k) (comp k).
Definition with_data (d n : Z) (k : stack) : stack := mk_stack (num k) d (sorted k) n (comp k).
Definition with_sorted (v : bool) (k : stack) : stack := mk_stack (num k) (data k) v (num_alloc k) (comp k).
Definition with_comp (v : Z) (k : stack) : stack := mk_stack (num k) (data k) (sorted k) (num_alloc k) v.

Record sk_state : Type := mk_sk_state { stacks : gmap Z stack; sk_blocks : heap Z }.

Definition kMinSize : Z := 4.
Definition sizeof_ptr : Z := 8.

(** The allocation of a [_STACK], and libc's [qsort] with a comparison. *)
Class StackMalloc : Type := { malloc_stack : gmap Z stack -> option Z }.
Class Qsort : Type := { qsort : (Z -> Z -> Z) -> list Z -> list Z }.

Definition SkM : Type -> Type := M sk_state.

Section Stack.
Context `{Libc Z} `{StackMalloc} `{Qsort}.

(** A call of the comparison function that is the first argument. *)
Variable call_cmp_func : Z -> Z -> Z -> Z.

Definition get_sk (p : Z) : SkM stack := fun s => of_option UbMem (stacks s !! p) s.
Definition put_sk (p : Z) (k : stack) : SkM unit := modify (fun s => mk_sk_state (<[p := k]> (stacks s)) (sk_blocks s)).
Definition free_sk (p : Z) : SkM unit := modify (fun s => mk_sk_state (delete p (stacks s)) (sk_blocks s)).

Definition on_heap {X} (op : HeapM (T := Z) X) : SkM X := fun s =>
  match op (sk_blocks s) with
  | Done x m => Done x (mk_sk_state (stacks s) m)
  | Fail m => Fail (mk_sk_state (stacks s) m)
  | Undef u => Undef u
  | OutOfFuel => OutOfFuel
  end.

(** [sk->data[i]] *)
Definition load (d i : Z) : SkM Z :=
  let* l := on_heap (load_n d i 1) in match l with [x] => ret x | _ => undef UbRead end.
Definition store (d i x : Z) : SkM unit := on_heap (store_n d i [x]).

(** ** The functions *)
Definition sk_new (comp : Z) : SkM Z :=
  let* m := gets stacks in
  match malloc_stack m with
  | None => ret 0
  | Some p =>
      put_sk p (mk_stack 0 0 false 0 0);;;
      let* d := on_heap (OPENSSL_malloc (sizeof_ptr * kMinSize)) in
      if d =? 0 then free_sk p;;; ret 0
      else
        on_heap (store_n d 0 (replicate (Z.to_nat kMinSize) 0));;;
        put_sk p (mk_stack 0 d false kMinSize comp);;;
        ret p
  end.

Definition sk_new_null : SkM Z := sk_new 0.

Definition sk_num (sk : Z) : SkM Z := if sk =? 0 then ret 0 else let* k := get_sk sk in ret (num k).

Definition sk_zero (sk : Z) : SkM unit :=
  if sk =? 0 then ret tt
  else
    let* k := get_sk sk in
    if num k =? 0 then ret tt
    else
      on_heap (store_n (data k) 0 (replicate (Z.to_nat (num k)) 0));;;
      put_sk sk (with_sorted false (with_num 0 k)).

Definition sk_value (sk i : Z) : SkM Z :=
  if sk =? 0 then ret 0 else let* k := get_sk sk in if num k <=? i then ret 0 else load (data k) i.

Definition sk_set (sk i value : Z) : SkM Z :=
  if sk =? 0 then ret 0
  else let* k := get_sk sk in if num k <=? i then ret 0 else store (data k) i value;;; ret value.

Definition sk_free (sk : Z) : SkM unit :=
  if sk =? 0 then ret tt
  else let* k := get_sk sk in on_heap (OPENSSL_free (data k));;; free_sk sk.

(** The size of the new array: the double, the increment if that overflows. *)
Definition new_size (n : Z) : option Z :=
  let fits m := negb (m <? n) && (u64 (m * sizeof_ptr) / sizeof_ptr =? m) in
  let double := u64 (Z.shiftl n 1) in
  if fits double then Some double
  else let next := u64 (n + 1) in if fits next then Some next else None.

Definition sk_insert (sk p where_ : Z) : SkM Z :=
  if sk =? 0 then ret 0
  else
    let* k := get_sk sk in
    let* room :=
      (if num_alloc k <=? u64 (num k + 1) then
         match new_size (num_alloc k) with
         | None => ret false
         | Some new_alloc =>
             let* data := on_heap (OPENSSL_realloc (data k) (u64 (new_alloc * sizeof_ptr))) in
             if data =? 0 then ret false else put_sk sk (with_data data new_alloc k);;; ret true
         end
       else ret true) in
    if negb room then ret 0
    else
      let* k := get_sk sk in
      (if num k <=? where_ then store (data k) (num k) p
       else
         on_heap (move_n (data k) (where_ + 1) (data k) where_ (num k - where_));;;
         store (data k) where_ p);;;
      put_sk sk (with_sorted false (with_num (u64 (num k + 1)) k));;;
      ret (u64 (num k + 1)).

Definition sk_delete (sk where_ : Z) : SkM Z :=
  if sk =? 0 then ret 0
  else
    let* k := get_sk sk in
    if num k <=? where_ then ret 0
    else
      let* r := load (data k) where_ in
      (if negb (where_ =? num k - 1)
       then on_heap (move_n (data k) where_ (data k) (where_ + 1) (num k - where_ - 1)) else ret tt);;;
      put_sk sk (with_num (num k - 1) k);;;
      ret r.

(** The linear searches, from [i] on with [n] turns left. *)
Fixpoint find_from (n : nat) (d i : Z) (eq : Z -> bool) : SkM (option Z) :=
  match n with
  | O => ret None
  | S n => let* x := load d i in if eq x then ret (Some i) else find_from n d (i + 1) eq
  end.

Definition sk_delete_ptr (sk p : Z) : SkM Z :=
  if sk =? 0 then ret 0
  else
    let* k := get_sk sk in
    let* i := find_from (Z.to_nat (num k)) (data k) 0 (Z.eqb p) in
    match i with Some i => sk_delete sk i | None => ret 0 end.

Definition sk_is_sorted (sk : Z) : SkM bool := if sk =? 0 then ret true else let* k := get_sk sk in ret (sorted k).

(** The binary search on [lo, hi). *)
Fixpoint bsearch_loop (fuel : nat) (d lo hi : Z) (cmp : Z -> Z) : SkM (option Z) :=
  match fuel with
  | O => out_of_fuel
  | S fuel =>
      if negb (lo <? hi) then (if lo =? hi then ret None else undef UbAssert)
      else
        let mid := lo + (hi - lo - 1) / 2 in
        if negb ((lo <=? mid) && (mid <? hi)) then undef UbAssert
        else
          let* elem := load d mid in
          let r := cmp elem in
          if 0 <? r then bsearch_loop fuel d (mid + 1) hi cmp
          else if r <? 0 then bsearch_loop fuel d lo mid cmp
          else if hi - lo =? 1 then ret (Some mid)
          else if negb (mid + 1 <? hi) then undef UbAssert
          else bsearch_loop fuel d lo (mid + 1) cmp
  end.

(** The index of the element, [None] when there is none. *)
Definition sk_find (fuel : nat) (sk p : Z) : SkM (option Z) :=
  if sk =? 0 then ret None
  else
    let* k := get_sk sk in
    if comp k =? 0 then find_from (Z.to_nat (num k)) (data k) 0 (Z.eqb p)
    else if p =? 0 then ret None
    else
      let* s := sk_is_sorted sk in
      if negb s then find_from (Z.to_nat (num k)) (data k) 0 (fun elem => call_cmp_func (comp k) p elem =? 0)
      else bsearch_loop fuel (data k) 0 (num k) (call_cmp_func (comp k) p).

Definition sk_shift (sk : Z) : SkM Z :=
  if sk =? 0 then ret 0 else let* k := get_sk sk in if num k =? 0 then ret 0 else sk_delete sk 0.

Definition sk_push (sk p : Z) : SkM Z := if sk =? 0 then undef UbMem else let* k := get_sk sk in sk_insert sk p (num k).

Definition sk_pop (sk : Z) : SkM Z :=
  if sk =? 0 then ret 0 else let* k := get_sk sk in if num k =? 0 then ret 0 else sk_delete sk (num k - 1).

Definition sk_dup (sk : Z) : SkM Z :=
  if sk =? 0 then ret 0
  else
    let* k := get_sk sk in
    let* m := gets stacks in
    match malloc_stack m with
    | None => ret 0
    | Some p =>
        put_sk p (mk_stack 0 0 false 0 0);;;
        let* d := on_heap (OPENSSL_malloc (u64 (sizeof_ptr * num_alloc k))) in
        if d =? 0 then sk_free p;;; ret 0
        else
          on_heap (move_n d 0 (data k) 0 (num k));;;
          put_sk p (mk_stack (num k) d (sorted k) (num_alloc k) (comp k));;;
          ret p
    end.

Definition sk_sort (sk : Z) : SkM unit :=
  if sk =? 0 then ret tt
  else
    let* k := get_sk sk in
    if (comp k =? 0) || sorted k then ret tt
    else
      (if 2 <=? num k then
         let* l := on_heap (load_n (data k) 0 (num k)) in
         on_heap (store_n (data k) 0 (qsort (call_cmp_func (comp k)) l))
       else ret tt);;;
      put_sk sk (with_sorted true k).

Definition sk_set_cmp_func (sk comp_ : Z) : SkM Z :=
  let* k := get_sk sk in
  put_sk sk (with_comp comp_ (if comp k =? comp_ then k else with_sorted false k));;;
  ret (comp k).

(** ** Functions that call back *)
Section Callbacks.
Context {App : Type}.

(** [call_free_func(free_func, _)] and [call_copy_func(copy_func, _)]. *)
Variable free_func : Z -> M (sk_state * App) unit.
Variable copy_func : Z -> M (sk_state * App) Z.

Definition in_stacks {X} (m : SkM X) : M (sk_state * App) X := fun s =>
  match m (fst s) with
  | Done a t => Done a (t, snd s)
  | Fail t => Fail (t, snd s)
  | Undef u => Undef u
  | OutOfFuel => OutOfFuel
  end.

Fixpoint pop_free_loop (fuel : nat) (sk i : Z) : M (sk_state * App) unit :=
  match fuel with
  | O => out_of_fuel
  | S fuel =>
      let* k := in_stacks (get_sk sk) in
      if i <? num k then
        let* x := in_stacks (load (data k) i) in
        (if negb (x =? 0) then free_func x else ret tt);;;
        pop_free_loop fuel sk (i + 1)
      else ret tt
  end.

Definition sk_pop_free_ex (fuel : nat) (sk : Z) : M (sk_state * App) unit :=
  if sk =? 0 then ret tt else pop_free_loop fuel sk 0;;; in_stacks (sk_free sk).

Definition sk_pop_free (fuel : nat) (sk : Z) : M (sk_state * App) unit := sk_pop_free_ex fuel sk.

(** The copies before [i], from [j] on with [n] turns left. *)
Fixpoint free_copies (n : nat) (r j : Z) : M (sk_state * App) unit :=
  match n with
  | O => ret tt
  | S n =>
      let* k := in_stacks (get_sk r) in
      let* x := in_stacks (load (data k) j) in
      (if negb (x =? 0) then free_func x else ret tt);;;
      free_copies n r (j + 1)
  end.

(** Whether all elements were copied. *)
Fixpoint copy_loop (fuel : nat) (r i : Z) : M (sk_state * App) bool :=
  match fuel with
  | O => out_of_fuel
  | S fuel =>
      let* k := in_stacks (get_sk r) in
      if i <? num k then
        let* x := in_stacks (load (data k) i) in
        if x =? 0 then copy_loop fuel r (i + 1)
        else
          let* y := copy_func x in
          let* k := in_stacks (get_sk r) in
          in_stacks (store (data k) i y);;;
          if y =? 0 then
            free_copies (Z.to_nat i) r 0;;;
            in_stacks (sk_free r);;;
            ret false
          else copy_loop fuel r (i + 1)
      else ret true
  end.

Definition sk_deep_copy (fuel : nat) (sk : Z) : M (sk_state * App) Z :=
  let* r := in_stacks (sk_dup sk) in
  if r =? 0 then ret 0
  else let* ok := copy_loop fuel r 0 in ret (if ok : bool then r else 0).
End Callbacks.
End Stack.
