(* ===== verification/StackProofs.v ===== *)
(** BoringSSL, the stacks: the memory represents a map from stacks to lists of
    elements, and each function of [crypto/stack/stack.c] acts on these lists. *)
From stdpp Require Import sorting.
From S2P Require Import Prelude.
From S2P Require Import Mem MemTheorems Stack.
#[local] Set Warnings "-clear-no-such-hyp".

(** A fresh address for a [_STACK]; [qsort] sorts by a comparison that is a
    total preorder. *)
Class StackMallocLaws `{StackMalloc} : Prop := {
  malloc_stack_fresh m p : malloc_stack m = Some p -> p <> 0 /\ m !! p = None
}.

Record preorder (cmp : Z -> Z -> Z) : Prop := {
  cmp_sym x y : Z.sgn (cmp y x) = - Z.sgn (cmp x y);
  cmp_trans x y z : cmp x y <= 0 -> cmp y z <= 0 -> cmp x z <= 0
}.

Definition in_order (cmp : Z -> Z -> Z) (l : list Z) : Prop := StronglySorted (fun x y => cmp x y <= 0) l.

Class QsortLaws `{Qsort} : Prop := {
  qsort_perm cmp l : preorder cmp -> Permutation (qsort cmp l) l;
  qsort_sorts cmp l : preorder cmp -> in_order cmp (qsort cmp l)
}.

(** ** Stacks as lists *)
Record astack : Type := mk_astack { elems : list Z; flag : bool; order : Z }.

Record stack_ok (k : stack) (b : blk Z) (a : astack) : Prop := {
  o_num : num k = zlen (elems a);
  o_sorted : sorted k = flag a;
  o_comp : comp k = order a;
  o_alloc : 4 <= num_alloc k;
  o_room : num k < num_alloc k;
  o_size : blk_size b = 8 * num_alloc k;
  o_max : 8 * num_alloc k < 2 ^ 64;
  o_cells : zlen (blk_cells b) = num_alloc k;
  o_elems : take (length (elems a)) (blk_cells b) = elems a
}.

(** The array of a stack is its block, which is never null. *)
Definition has_array (k : stack) (ob : option (blk Z)) (a : astack) : Prop := exists b, ob = Some b /\ 0 < data k /\ stack_ok k b a.

Lemma array_not_null k ob a : has_array k ob a -> ob = None -> data k = 0.
Proof. by intros (b & -> & _). Qed.

(** The stacks of the memory are those of [A], each with an array of its own, and
    there are no other arrays. *)
Definition rep (s : sk_state) (A : gmap Z astack) : Prop := owned data has_array (stacks s) (sk_blocks s) A.

Lemma rep_empty : rep (mk_sk_state ∅ ∅) ∅.
Proof. apply owned_empty. Qed.

Lemma r_stack s A p a : rep s A -> A !! p = Some a ->
  p <> 0 /\ exists k b, stacks s !! p = Some k /\ 0 < data k /\ sk_blocks s !! data k = Some b /\ stack_ok k b a.
Proof.
  intros R Ea. destruct (w_obj _ _ _ _ _ R p a Ea) as (Hp & k & E & b & Eb & Hd & Hok). split; [done|]. by exists k, b.
Qed.

(** A stack changes, in its array or in one that is fresh. *)
Lemma rep_update s A p k a k' b' a' :
  rep s A -> stacks s !! p = Some k -> A !! p = Some a -> 0 < data k' -> stack_ok k' b' a' ->
  data k' = data k \/ sk_blocks s !! data k' = None ->
  rep (mk_sk_state (<[p := k']> (stacks s)) (<[data k' := b']> (delete (data k) (sk_blocks s)))) (<[p := a']> A).
Proof.
  intros R Ek Ea Hd Hok Hfresh. destruct (r_stack s A p a R Ea) as [Hp _].
  assert (block_of data (stacks s) p = data k) as Hb by (unfold block_of; by rewrite Ek).
  rewrite <- Hb in *. apply (owned_write data has_array array_not_null _ _ _ p k' (Some b')); try done; [by exists b'|lia].
Qed.

(** The array of a stack, or only the stack, changes in place. *)
Lemma rep_change s A p k a b k' b' a' :
  rep s A -> stacks s !! p = Some k -> A !! p = Some a -> sk_blocks s !! data k = Some b -> stack_ok k' b' a' -> data k' = data k ->
  rep (mk_sk_state (<[p := k']> (stacks s)) (<[data k := b']> (sk_blocks s))) (<[p := a']> A).
Proof.
  intros R Ek Ea Eb Hok Hd. destruct (r_stack s A p a R Ea) as (Hp & k0 & b0 & E1 & Hpos & _). assert (k0 = k) as -> by congruence.
  apply (owned_change data has_array array_not_null); try done; [exists b'; rewrite Hd; by auto|lia].
Qed.

Lemma rep_field s A p k a b k' a' :
  rep s A -> stacks s !! p = Some k -> A !! p = Some a -> sk_blocks s !! data k = Some b -> stack_ok k' b a' -> data k' = data k ->
  rep (mk_sk_state (<[p := k']> (stacks s)) (sk_blocks s)) (<[p := a']> A).
Proof.
  intros R Ek Ea Eb Hok Hd. pose proof (rep_change s A p k a b k' b a' R Ek Ea Eb Hok Hd) as Hr.
  rewrite (insert_id (sk_blocks s)) in Hr by done. exact Hr.
Qed.

(** A new stack, with a new array. *)
Lemma rep_add s A p k b a :
  rep s A -> p <> 0 -> stacks s !! p = None -> 0 < data k -> sk_blocks s !! data k = None -> stack_ok k b a ->
  A !! p = None /\ rep (mk_sk_state (<[p := k]> (stacks s)) (<[data k := b]> (sk_blocks s))) (<[p := a]> A).
Proof.
  intros R Hp Ep Hd Ed Hok. split.
  { destruct (A !! p) as [x|] eqn:E; [|done]. destruct (r_stack _ _ p x R E) as (_ & k0 & _ & E1 & _). congruence. }
  assert (block_of data (stacks s) p = 0) as Hb by (unfold block_of; by rewrite Ep).
  pose proof (owned_write data has_array array_not_null _ _ _ p k (Some b) a R Hp ltac:(by exists b) (or_intror Ed) ltac:(lia)) as Hw.
  by rewrite Hb, delete_id in Hw by (apply (owned_null _ _ _ _ _ R)).
Qed.

Lemma rep_remove s A p k a :
  rep s A -> stacks s !! p = Some k -> A !! p = Some a ->
  rep (mk_sk_state (delete p (stacks s)) (delete (data k) (sk_blocks s))) (delete p A).
Proof. apply owned_remove. Qed.

(** ** Arrays with spare room *)
Lemma split_at {X} (l : list X) i : (i < length l)%nat -> exists l1 x l2, l = l1 ++ x :: l2 /\ length l1 = i.
Proof.
  intros Hi. destruct (lookup_lt_is_Some_2 l i Hi) as [x Ex]. exists (take i l), x, (drop (S i) l).
  split; [by rewrite take_drop_middle|]. rewrite length_take. lia.
Qed.

Definition insert_at {X} (i : nat) (x : X) (l : list X) : list X := take i l ++ x :: drop i l.

Lemma insert_at_app {X} (l1 l2 : list X) x : insert_at (length l1) x (l1 ++ l2) = l1 ++ x :: l2.
Proof. unfold insert_at. by rewrite take_app_length, drop_app_length. Qed.

Lemma insert_at_end {X} (l : list X) i x : (length l <= i)%nat -> insert_at i x l = l ++ [x].
Proof. intros Hi. unfold insert_at. by rewrite take_ge, drop_ge. Qed.

Lemma shift_right {X} (l1 : list X) z l2 y rest :
  let cells := (l1 ++ z :: l2) ++ y :: rest in
  take (length l1 + 1) cells ++ take (S (length l2)) (drop (length l1) cells)
    ++ drop (length l1 + 1 + S (length l2)) cells
  = l1 ++ z :: z :: l2 ++ rest.
Proof.
  cbv zeta. induction l1 as [|w l1 IH]; cbn [app length Nat.add take drop].
  - rewrite take_app_length, take_0. cbn [app]. do 3 f_equal.
    rewrite (cons_middle y l2 rest), app_assoc. apply drop_app_length'. rewrite length_app. cbn. lia.
  - by rewrite IH.
Qed.
Lemma shift_left {X} (l1 : list X) z l2 rest :
  let cells := (l1 ++ z :: l2) ++ rest in
  take (length l1) cells ++ take (length l2) (drop (length l1 + 1) cells) ++ drop (length l1 + length l2) cells
  = l1 ++ l2 ++ drop (length l2) (z :: l2 ++ rest).
Proof.
  cbv zeta. induction l1 as [|w l1 IH]; cbn [app length Nat.add take drop].
  - by rewrite drop_0, take_app_length.
  - by rewrite IH.
Qed.

Section Ops.
Context `{LibcLaws Z} `{StackMallocLaws} `{QsortLaws}.
Hypothesis pointers : cell_width (T := Z) = 8.
Variable call_cmp_func : Z -> Z -> Z -> Z.
Implicit Types (s : sk_state) (A : gmap Z astack) (a : astack).

(** ** Accesses *)
Lemma get_sk_spec s p k : stacks s !! p = Some k -> get_sk p s = Done k s.
Proof. intros E. unfold get_sk. by rewrite E. Qed.

Lemma on_heap_spec {X} (op : HeapM X) s x m : op (sk_blocks s) = Done x m -> on_heap op s = Done x (mk_sk_state (stacks s) m).
Proof. intros E. unfold on_heap. by rewrite E. Qed.

Lemma load_run s d b i x :
  sk_blocks s !! d = Some b -> 0 <= i -> blk_cells b !! Z.to_nat i = Some x -> load d i s = Done x s.
Proof.
  intros Ed Hi Ex. pose proof (lookup_lt_Some _ _ _ Ex) as Hlt. unfold load.
  rewrite (bind_done _ _ _ _ _ (on_heap_spec _ s _ _ (load_spec (sk_blocks s) d b i 1 Ed Hi ltac:(lia) ltac:(unfold zlen; lia)))).
  rewrite (drop_S _ x) by done. cbn. by destruct s.
Qed.

Lemma store_run s d b i x :
  sk_blocks s !! d = Some b -> 0 <= i < zlen (blk_cells b) ->
  store d i x s = Done tt (mk_sk_state (stacks s) (<[d := mk_blk (blk_size b) (<[Z.to_nat i := x]> (blk_cells b))]> (sk_blocks s))).
Proof.
  intros Ed Hi. unfold store. rewrite (on_heap_spec _ s _ _ (store_spec (sk_blocks s) d b i [x] Ed ltac:(lia) ltac:(change (zlen [x]) with 1; lia))).
  do 3 f_equal. rewrite insert_take_drop by (unfold zlen in Hi; lia). cbn [length app]. by rewrite Nat.add_1_r.
Qed.

(** What is known of a stack of [A]. *)
Record opened s p a k b : Prop := {
  p_not_null : p <> 0;
  p_stack : stacks s !! p = Some k;
  p_data : 0 < data k;
  p_block : sk_blocks s !! data k = Some b;
  p_ok : stack_ok k b a;
  p_len : (length (elems a) < length (blk_cells b))%nat
}.

Lemma open_stack s A p a : rep s A -> A !! p = Some a -> exists k b, opened s p a k b.
Proof.
  intros R Ea. destruct (r_stack _ _ p a R Ea) as (Hp & k & b & E1 & Hd & E2 & Hok). exists k, b. constructor; try done.
  pose proof (o_num _ _ _ Hok). pose proof (o_room _ _ _ Hok). pose proof (o_cells _ _ _ Hok). unfold zlen in *. lia.
Qed.

Lemma cell_at s p a k b i x : opened s p a k b -> elems a !! i = Some x -> blk_cells b !! i = Some x.
Proof.
  intros O Ex. rewrite <- (o_elems _ _ _ (p_ok _ _ _ _ _ O)) in Ex. by apply lookup_take_Some in Ex as [Ex _].
Qed.

Lemma load_elem s p a k b i x : opened s p a k b -> 0 <= i -> elems a !! Z.to_nat i = Some x -> load (data k) i s = Done x s.
Proof. intros O Hi Ex. apply (load_run s _ b); [apply O|done|by eapply cell_at]. Qed.

(** A stack with other elements in the same array. *)
Lemma ok_with k b a n l f c cells :
  stack_ok k b a -> zlen l = n -> n < num_alloc k -> zlen cells = num_alloc k -> take (length l) cells = l ->
  stack_ok (mk_stack n (data k) f (num_alloc k) c) (mk_blk (blk_size b) cells) (mk_astack l f c).
Proof. intros [] Hn Hr Hc Ht. constructor; cbn; try done. Qed.

(** ** The functions on one stack *)
Section One.
Variables (s : sk_state) (A : gmap Z astack) (p : Z) (a : astack).
Hypotheses (R : rep s A) (Ea : A !! p = Some a).

Ltac open_it k b Hs := destruct (open_stack s A p a R Ea) as (k & b & Hs);
  pose proof (p_ok _ _ _ _ _ Hs) as Hok; pose proof (p_len _ _ _ _ _ Hs) as Hlen; pose proof (o_num _ _ _ Hok) as Hnum;
  pose proof (o_cells _ _ _ Hok) as Hcells; pose proof (p_stack _ _ _ _ _ Hs) as Ek; pose proof (p_block _ _ _ _ _ Hs) as Eb.
Ltac enter f := unfold f; destruct (Z.eqb_spec p 0) as [->|_]; [by destruct (r_stack _ _ 0 a R Ea)|].
Ltac get := rewrite (bind_done _ _ _ _ _ (get_sk_spec s p _ (p_stack _ _ _ _ _ ltac:(eassumption)))).

Lemma num_run : sk_num p s = Done (zlen (elems a)) s.
Proof. open_it k b Hs. enter sk_num. get. unfold ret. by rewrite Hnum. Qed.

Lemma is_sorted_run : sk_is_sorted p s = Done (flag a) s.
Proof. open_it k b Hs. enter sk_is_sorted. get. unfold ret. by rewrite (o_sorted _ _ _ Hok). Qed.

Lemma value_run i : 0 <= i -> sk_value p i s = Done (default 0 (elems a !! Z.to_nat i)) s.
Proof.
  intros Hi. open_it k b Hs. enter sk_value. get. rewrite Hnum. destruct (Z.leb_spec (zlen (elems a)) i).
  - rewrite lookup_ge_None_2 by (unfold zlen in *; lia). done.
  - destruct (lookup_lt_is_Some_2 (elems a) (Z.to_nat i)) as [x Ex]; [unfold zlen in *; lia|]. rewrite Ex.
    by apply (load_elem s p a k b).
Qed.

Lemma set_run i x : 0 <= i ->
  exists r s' a', sk_set p i x s = Done r s' /\ rep s' (<[p := a']> A) /\
    (r, a') = if i <? zlen (elems a) then (x, mk_astack (<[Z.to_nat i := x]> (elems a)) (flag a) (order a)) else (0, a).
Proof.
  intros Hi. open_it k b Hs. enter sk_set. get. rewrite Hnum. destruct (Z.leb_spec (zlen (elems a)) i), (Z.ltb_spec i (zlen (elems a))); try lia.
  - exists 0, s, a. split; [done|]. by rewrite insert_id.
  - rewrite (bind_done _ _ _ _ _ (store_run s _ b i x Eb ltac:(unfold zlen in *; lia))). eexists x, _, _. split; [done|]. split; [|done].
    pose proof (rep_change s A p k a b k (mk_blk (blk_size b) (<[Z.to_nat i := x]> (blk_cells b)))
      (mk_astack (<[Z.to_nat i := x]> (elems a)) (flag a) (order a)) R Ek Ea Eb) as Hr.
    rewrite (insert_id (stacks s)) in Hr by done. apply Hr; [|done]. destruct Hok. constructor; cbn; try done.
    + by rewrite zlen_insert.
    + by rewrite zlen_insert.
    + rewrite length_insert, take_insert_lt by (unfold zlen in *; lia). by rewrite o_elems0.
Qed.

Lemma zero_run : exists s' a', sk_zero p s = Done tt s' /\ rep s' (<[p := a']> A) /\
  a' = if zlen (elems a) =? 0 then a else mk_astack [] false (order a).
Proof.
  open_it k b Hs. enter sk_zero. get. rewrite Hnum. destruct (Z.eqb_spec (zlen (elems a)) 0).
  { exists s, a. split; [done|]. by rewrite insert_id. }
  rewrite (bind_done _ _ _ _ _ (on_heap_spec _ s _ _ (store_spec (sk_blocks s) (data k) b 0 (replicate (Z.to_nat (zlen (elems a))) 0) Eb ltac:(lia)
    ltac:(unfold zlen in *; rewrite length_replicate; lia)))).
  eexists _, _. split; [done|]. split; [|done]. cbn [stacks sk_blocks].
  apply (rep_change s A p k a b); try done. unfold with_sorted, with_num. cbn. rewrite <- (o_comp _ _ _ Hok).
  apply (ok_with k b a 0 [] false (comp k)); try done; [pose proof (o_alloc _ _ _ Hok); lia|]. rewrite <- Hcells.
  unfold zlen in *. rewrite !length_app, length_replicate, length_drop, length_take. lia.
Qed.

Lemma sk_free_run : exists s', sk_free p s = Done tt s' /\ rep s' (delete p A).
Proof.
  open_it k b Hs. enter sk_free. get.
  rewrite (bind_done _ _ _ _ _ (on_heap_spec _ s _ _ (free_spec (data k) (sk_blocks s) ltac:(right; eauto)))).
  eexists. split; [done|]. cbn [stacks sk_blocks]. pose proof (p_data _ _ _ _ _ Hs).
  destruct (Z.eqb_spec (data k) 0); [lia|]. by apply (rep_remove s A p k a).
Qed.

(** *** Insertion *)
Lemma new_size_spec n : 4 <= n -> 8 * n < 2 ^ 64 -> match new_size n with Some m => n < m /\ 8 * m < 2 ^ 64 | None => True end.
Proof.
  intros Hn Hmax. unfold new_size. rewrite Z.shiftl_mul_pow2 by lia. change (2 ^ 1) with 2. change sizeof_ptr with 8.
  assert (forall m, 0 <= m -> negb (m <? n) && (u64 (m * 8) / 8 =? m) = true -> n <= m /\ 8 * m < 2 ^ 64) as Hf.
  { intros m Hm [Hm1 Hm2]%andb_true_iff. apply negb_true_iff, Z.ltb_ge in Hm1. apply Z.eqb_eq in Hm2.
    pose proof (u64_range (m * 8)). split; [done|]. assert (u64 (m * 8) / 8 < 2 ^ 61) by (apply Z.div_lt_upper_bound; lia). lia. }
  cbv zeta. rewrite (u64_small (n * 2)), (u64_small (n + 1)) by lia.
  destruct (_ && _) eqn:E; [apply Hf in E; lia|]. destruct (negb (n + 1 <? n) && (u64 ((n + 1) * 8) / 8 =? n + 1)) eqn:E2; [apply Hf in E2; lia|done].
Qed.

(** The first part of [sk_insert]. *)
Definition room (k : stack) : SkM bool :=
  if num_alloc k <=? u64 (num k + 1) then
    match new_size (num_alloc k) with
    | None => ret false
    | Some new_alloc =>
        let* data := on_heap (OPENSSL_realloc (data k) (u64 (new_alloc * sizeof_ptr))) in
        if data =? 0 then ret false else put_sk p (with_data data new_alloc k);;; ret true
    end
  else ret true.

Lemma room_run k b : opened s p a k b ->
  exists ok s1 k1 b1, room k s = Done ok s1 /\ rep s1 A /\ opened s1 p a k1 b1 /\ (ok = true -> num k1 + 1 < num_alloc k1).
Proof.
  intros Hs. pose proof (p_ok _ _ _ _ _ Hs) as Hok. pose proof Hok as []. unfold room.
  assert (forall ok : bool, (ok = true -> num k + 1 < num_alloc k) ->
    exists s1 k1 b1, ret ok s = Done ok s1 /\ rep s1 A /\ opened s1 p a k1 b1 /\ (ok = true -> num k1 + 1 < num_alloc k1)) as Hsame.
  { intros ok Hx. by exists s, k, b. }
  rewrite u64_small by (zlen_pos; lia). destruct (Z.leb_spec (num_alloc k) (num k + 1)) as [Hfull|]; [|exists true; by apply Hsame].
  pose proof (new_size_spec (num_alloc k) ltac:(done) ltac:(done)) as Hn.
  destruct (new_size (num_alloc k)) as [m|]; [|exists false; by apply Hsame]. destruct Hn as [Hm1 Hm2]. change sizeof_ptr with 8.
  rewrite u64_small by lia.
  destruct (realloc_spec (data k) b (m * 8) (sk_blocks s)) as (r & t & Er & Hr).
  - pose proof (p_data _ _ _ _ _ Hs). lia.
  - apply Hs.
  - lia.
  - lia.
  - rewrite pointers, o_size0, Z.mul_comm, Z.div_mul by lia. done.
  - rewrite (bind_done _ _ _ _ _ (on_heap_spec _ s _ _ Er)). destruct Hr as [[-> ->]|(Hpos & Hf & more & Hlm & ->)].
    { exists false. cbn [Z.eqb]. destruct (Hsame false) as (s1 & k1 & b1 & E & Hx); [done|]. exists s1, k1, b1.
      rewrite <- E. by destruct s. }
    destruct (Z.eqb_spec r 0); [lia|]. exists true. eexists _, (with_data r m k), (mk_blk (m * 8) (blk_cells b ++ more)). split; [done|]. cbn [stacks sk_blocks].
    assert (stack_ok (with_data r m k) (mk_blk (m * 8) (blk_cells b ++ more)) a) as Hok'.
    { rewrite pointers, Z.div_mul in Hlm by lia. constructor; cbn; try done; try lia.
      rewrite take_app_le; [done|]. pose proof (p_len _ _ _ _ _ Hs). lia. }
    split; [|split; [|cbn; lia]].
    + rewrite <- (insert_id A p a Ea). apply (rep_update s A p k a); try done; [apply Hs|by right].
    + constructor; cbn; try done; [apply Hs|by rewrite lookup_insert_eq..|]. rewrite length_app. pose proof (p_len _ _ _ _ _ Hs). lia.
Qed.
End One.

Section Insert.
Variables (A : gmap Z astack) (p : Z) (a : astack).
Hypothesis Ea : A !! p = Some a.

(** The second part, with room. *)
Lemma place_run s k b x i :
  rep s A -> opened s p a k b -> num k + 1 < num_alloc k -> 0 <= i ->
  exists s', ((if num k <=? i then store (data k) (num k) x
    else on_heap (move_n (data k) (i + 1) (data k) i (num k - i));;; store (data k) i x);;;
    put_sk p (with_sorted false (with_num (u64 (num k + 1)) k));;; ret (u64 (num k + 1))) s = Done (zlen (elems a) + 1) s' /\
    rep s' (<[p := mk_astack (insert_at (Z.to_nat i) x (elems a)) false (order a)]> A).
Proof.
  intros R Hs Hroom Hi. pose proof (p_ok _ _ _ _ _ Hs) as Hok. pose proof Hok as []. pose proof (p_stack _ _ _ _ _ Hs) as Ek.
  pose proof (p_block _ _ _ _ _ Hs) as Eb. rewrite u64_small by (zlen_pos; lia).
  set (l := elems a) in *. set (n := Z.to_nat i).
  assert (forall cells t, zlen cells = num_alloc k -> take (S (length l)) cells = insert_at n x l ->
    t = mk_sk_state (stacks s) (<[data k := mk_blk (blk_size b) cells]> (sk_blocks s)) ->
    exists s', (put_sk p (with_sorted false (with_num (num k + 1) k));;; ret (num k + 1)) t = Done (zlen l + 1) s' /\
      rep s' (<[p := mk_astack (insert_at n x l) false (order a)]> A)) as Hfin.
  { intros cells t Hc Hl ->. eexists. unfold put_sk. rewrite bind_modify. split; [unfold ret; by rewrite o_num0|]. cbn [stacks sk_blocks].
    assert (length (insert_at n x l) = S (length l)) as Hlen.
    { unfold insert_at. rewrite length_app. cbn. rewrite length_take, length_drop. lia. }
    apply (rep_change s A p k a b); try done. rewrite <- o_comp0. unfold with_sorted, with_num. cbn.
    apply (ok_with k b a); try done; [unfold zlen in *; lia|lia|by rewrite Hlen, Hl]. }
  destruct (split_at (blk_cells b) (length l)) as (l0 & y & rest & Ec & El0); [unfold zlen in *; lia|].
  assert (l0 = l) as -> by (rewrite <- o_elems0, Ec, <- El0; symmetry; apply take_app_length). clear El0.
  destruct (Z.leb_spec (num k) i) as [Hend|Hmid].
  - rewrite (bind_done _ _ _ _ _ (store_run s (data k) b (num k) x Eb ltac:(zlen_pos; lia))).
    eapply Hfin; [by rewrite zlen_insert| |done].
    rewrite o_num0, zlen_to_nat, Ec, insert_app_r_alt, Nat.sub_diag by lia. cbn.
    rewrite insert_at_end by (unfold zlen in *; lia). rewrite (cons_middle x l rest), app_assoc.
    apply take_app_length'. rewrite length_app. cbn. lia.
  - destruct (split_at l n) as (l1 & z & l2 & El & En); [unfold zlen in *; lia|].
    assert (i = zlen l1) as -> by (unfold zlen; lia). assert (num k - zlen l1 = zlen (z :: l2)) as Hn by (rewrite o_num0, El; zl).
    assert (blk_cells b = (l1 ++ z :: l2) ++ y :: rest) as Ec' by (by rewrite <- El).
    pose proof (move_spec (sk_blocks s) (data k) b (data k) b (zlen l1 + 1) (zlen l1) (num k - zlen l1) Eb Eb
      ltac:(zlen_pos; lia) ltac:(zlen_pos; lia) ltac:(lia) ltac:(lia) ltac:(lia)) as Hmove.
    rewrite Hn, Ec' in Hmove. replace (Z.to_nat (zlen l1)) with (length l1) in Hmove by (unfold zlen; lia).
    replace (Z.to_nat (zlen l1 + 1)) with (length l1 + 1)%nat in Hmove by (unfold zlen; lia).
    replace (Z.to_nat (zlen (z :: l2))) with (S (length l2)) in Hmove by (unfold zlen; cbn; lia).
    rewrite shift_right in Hmove. rewrite <- Hn in Hmove. unfold bind at 1 2. rewrite (on_heap_spec _ s _ _ Hmove).
    set (s1 := mk_sk_state _ _).
    set (b1 := mk_blk (blk_size b) (l1 ++ z :: z :: l2 ++ rest)) in *.
    assert (sk_blocks s1 !! data k = Some b1) as Eb1 by apply lookup_insert_eq.
    rewrite (store_run s1 (data k) b1 (zlen l1) x Eb1) by (unfold b1; cbn; zl).
    eapply Hfin; [| |unfold s1; cbn [stacks sk_blocks]; by rewrite insert_insert_eq].
    + rewrite zlen_insert. rewrite <- o_cells0, Ec'. cbn [b1 blk_cells]. rewrite ?zlen_app, ?zlen_cons, ?zlen_app, ?zlen_cons. lia.
    + rewrite zlen_to_nat. cbn [b1 blk_cells]. rewrite insert_app_r_alt, Nat.sub_diag by lia. cbn [insert list_insert].
      rewrite El, <- En, insert_at_app. rewrite (app_assoc l1 (x :: z :: l2) rest : l1 ++ x :: z :: l2 ++ rest = _).
      apply take_app_length'. rewrite !length_app. cbn. lia.
Qed.

(** *** [sk_insert] *)
Lemma insert_run s x i : rep s A -> 0 <= i ->
  exists r s' a', sk_insert p x i s = Done r s' /\ rep s' (<[p := a']> A) /\
    ((r = 0 /\ a' = a) \/
     (r = zlen (elems a) + 1 /\ a' = mk_astack (insert_at (Z.to_nat i) x (elems a)) false (order a))).
Proof.
  intros R Hi. destruct (open_stack s A p a R Ea) as (k & b & Hs).
  unfold sk_insert. destruct (Z.eqb_spec p 0) as [->|_]; [by destruct (p_not_null _ _ _ _ _ Hs)|].
  rewrite (bind_done _ _ _ _ _ (get_sk_spec s p k (p_stack _ _ _ _ _ Hs))). fold (room p k).
  destruct (room_run s A p a R Ea k b Hs) as ([|] & s1 & k1 & b1 & E & R1 & Hs1 & Hroom).
  - rewrite (bind_done _ _ _ _ _ E). cbn [negb].
    rewrite (bind_done _ _ _ _ _ (get_sk_spec s1 p k1 (p_stack _ _ _ _ _ Hs1))).
    destruct (place_run s1 k1 b1 x i R1 Hs1 (Hroom eq_refl) Hi) as (s' & E' & R').
    exists (zlen (elems a) + 1), s', (mk_astack (insert_at (Z.to_nat i) x (elems a)) false (order a)). auto.
  - rewrite (bind_done _ _ _ _ _ E). cbn [negb]. exists 0, s1, a. split; [done|]. rewrite insert_id by done. auto.
Qed.
End Insert.

(** *** Deletion *)
Section Delete.
Variables (s : sk_state) (A : gmap Z astack) (p : Z) (a : astack).
Hypotheses (R : rep s A) (Ea : A !! p = Some a).

Ltac open_it k b Hs := destruct (open_stack s A p a R Ea) as (k & b & Hs);
  pose proof (p_ok _ _ _ _ _ Hs) as Hok; pose proof (p_len _ _ _ _ _ Hs) as Hlen; pose proof (o_num _ _ _ Hok) as Hnum;
  pose proof (o_cells _ _ _ Hok) as Hcells; pose proof (p_stack _ _ _ _ _ Hs) as Ek; pose proof (p_block _ _ _ _ _ Hs) as Eb.
Ltac enter f := unfold f; destruct (Z.eqb_spec p 0) as [->|_]; [by destruct (r_stack _ _ 0 a R Ea)|].
Ltac get := rewrite (bind_done _ _ _ _ _ (get_sk_spec s p _ (p_stack _ _ _ _ _ ltac:(eassumption)))).

Lemma sk_delete_run i : 0 <= i ->
  exists s', sk_delete p i s = Done (default 0 (elems a !! Z.to_nat i)) s' /\
    rep s' (<[p := mk_astack (delete (Z.to_nat i) (elems a)) (flag a) (order a)]> A).
Proof.
  intros Hi. open_it k b Hs. enter sk_delete. get. rewrite Hnum. destruct (Z.leb_spec (zlen (elems a)) i) as [Hge|Hlt].
  { exists s. rewrite lookup_ge_None_2, delete_take_drop, take_ge, drop_ge, app_nil_r by (unfold zlen in *; lia). split; [done|].
    rewrite insert_id; [done|]. by destruct a. }
  destruct (split_at (elems a) (Z.to_nat i)) as (l1 & z & l2 & El & En); [unfold zlen in *; lia|].
  assert (i = zlen l1) as -> by (unfold zlen; lia).
  assert (elems a !! Z.to_nat (zlen l1) = Some z) as Ez by (rewrite El, <- En; by apply list_lookup_middle).
  rewrite (bind_done _ _ _ _ _ (load_elem s p a k b (zlen l1) z Hs ltac:(lia) Ez)), Ez. cbn [default].
  assert (delete (Z.to_nat (zlen l1)) (elems a) = l1 ++ l2) as -> by (rewrite El, <- En; by apply delete_middle).
  assert (zlen (elems a) = zlen l1 + 1 + zlen l2) as Hz by (rewrite El; zl). pose proof (zlen_nonneg l2).
  pose proof Hok as [].
  assert (exists rest, blk_cells b = (l1 ++ z :: l2) ++ rest) as [rest Er].
  { exists (drop (length (elems a)) (blk_cells b)). by rewrite <- El, <- o_elems0 at 1; rewrite take_drop. }
  assert (forall cells t, zlen cells = num_alloc k -> take (length (l1 ++ l2)) cells = l1 ++ l2 ->
    t = mk_sk_state (stacks s) (<[data k := mk_blk (blk_size b) cells]> (sk_blocks s)) ->
    exists s', (put_sk p (with_num (zlen (elems a) - 1) k);;; ret z) t = Done z s' /\
      rep s' (<[p := mk_astack (l1 ++ l2) (flag a) (order a)]> A)) as Hfin.
  { intros cells t Hc Hl ->. eexists. unfold put_sk. rewrite bind_modify. split; [done|]. cbn [stacks sk_blocks].
    apply (rep_change s A p k a b); try done. rewrite <- o_comp0, <- o_sorted0. unfold with_num.
    apply (ok_with k b a); try done; [zl|lia]. }
  destruct (Z.eqb_spec (zlen l1) (zlen (elems a) - 1)) as [Hlast|Hmid]; cbn [negb].
  - unfold bind at 1. unfold ret at 1. apply (Hfin (blk_cells b)); [done| |by rewrite insert_id by (by destruct b); destruct s].
    assert (l2 = []) as -> by (apply length_zero_iff_nil; unfold zlen in *; lia).
    rewrite Er, app_nil_r, <- !app_assoc. apply take_app_length.
  - pose proof (move_spec (sk_blocks s) (data k) b (data k) b (zlen l1) (zlen l1 + 1) (zlen (elems a) - zlen l1 - 1) Eb Eb
      ltac:(zlen_pos; lia) ltac:(zlen_pos; lia) ltac:(lia) ltac:(unfold zlen in *; lia) ltac:(unfold zlen in *; lia)) as Hmove.
    replace (zlen (elems a) - zlen l1 - 1) with (zlen l2) in * by lia. rewrite Er in Hmove.
    replace (Z.to_nat (zlen l1 + 1)) with (length l1 + 1)%nat in Hmove by (unfold zlen; lia). rewrite !zlen_to_nat in Hmove.
    rewrite shift_left in Hmove. unfold bind at 1. rewrite (on_heap_spec _ s _ _ Hmove). eapply Hfin; [| |done].
    + rewrite <- o_cells0, Er. unfold zlen. rewrite !length_app, length_drop. cbn. rewrite length_app. lia.
    + rewrite app_assoc. apply take_app_length.
Qed.

(** *** Searches *)
(** The position of the first element that [eq] accepts, counted from [i]. *)
Fixpoint find_index (eq : Z -> bool) (l : list Z) (i : Z) : option Z :=
  match l with
  | [] => None
  | x :: l => if eq x then Some i else find_index eq l (i + 1)
  end.

Lemma find_from_run k b eq : opened s p a k b -> forall n i, 0 <= i -> i + Z.of_nat n = zlen (elems a) ->
  find_from n (data k) i eq s = Done (find_index eq (drop (Z.to_nat i) (elems a)) i) s.
Proof.
  intros Hs. induction n as [|n IH]; intros i Hi Hn; cbn [find_from].
  - rewrite drop_ge by (unfold zlen in *; lia). done.
  - destruct (lookup_lt_is_Some_2 (elems a) (Z.to_nat i)) as [x Ex]; [unfold zlen in *; lia|].
    rewrite (bind_done _ _ _ _ _ (load_elem s p a k b i x Hs Hi Ex)), (drop_S _ x) by done. cbn [find_index].
    destruct (eq x); [done|]. rewrite IH by lia. by replace (Z.to_nat (i + 1)) with (S (Z.to_nat i)) by lia.
Qed.

Definition remove_first (x : Z) (l : list Z) : list Z :=
  match find_index (Z.eqb x) l 0 with Some i => delete (Z.to_nat i) l | None => l end.

Lemma find_index_some eq l : forall i j, find_index eq l i = Some j ->
  i <= j < i + zlen l /\ exists x, l !! Z.to_nat (j - i) = Some x /\ eq x = true.
Proof.
  induction l as [|y l IH]; intros i j; cbn [find_index]; [done|]. rewrite zlen_cons. zlen_pos. destruct (eq y) eqn:E.
  - intros [= <-]. split; [lia|]. exists y. by rewrite Z.sub_diag.
  - intros Hf. destruct (IH _ _ Hf) as (Hj & x & Ex & Hx). split; [lia|]. exists x. split; [|done].
    by replace (Z.to_nat (j - i)) with (S (Z.to_nat (j - (i + 1)))) by lia.
Qed.

Lemma delete_ptr_run x : exists r s', sk_delete_ptr p x s = Done r s' /\
  rep s' (<[p := mk_astack (remove_first x (elems a)) (flag a) (order a)]> A) /\
  r = match find_index (Z.eqb x) (elems a) 0 with Some _ => x | None => 0 end.
Proof.
  open_it k b Hs. enter sk_delete_ptr. get. rewrite Hnum, zlen_to_nat.
  rewrite (bind_done _ _ _ _ _ (find_from_run k b (Z.eqb x) Hs (length (elems a)) 0 ltac:(lia) ltac:(unfold zlen; lia))).
  change (drop (Z.to_nat 0) (elems a)) with (elems a). unfold remove_first.
  destruct (find_index (Z.eqb x) (elems a) 0) as [i|] eqn:Ef.
  - destruct (find_index_some _ _ _ _ Ef) as (Hi & y & Ey & Hy%Z.eqb_eq). subst y. rewrite Z.sub_0_r in Ey.
    destruct (sk_delete_run i ltac:(lia)) as (s' & E & R'). rewrite Ey in E. by exists x, s'.
  - exists 0, s. split; [done|]. rewrite insert_id; [done|]. by destruct a.
Qed.
End Delete.

(** *** The binary search *)
Section Search.
Variables (s : sk_state) (A : gmap Z astack) (p : Z) (a : astack).
Hypotheses (R : rep s A) (Ea : A !! p = Some a).
Abbreviation elem i := (default 0 (elems a !! Z.to_nat i)).

(** [r] is the first position in [lo, hi) where [f] is zero. *)
Definition first_zero (f : Z -> Z) (lo hi : Z) (r : option Z) : Prop :=
  match r with
  | Some j => lo <= j < hi /\ f j = 0 /\ forall i, lo <= i < j -> f i <> 0
  | None => forall i, lo <= i < hi -> f i <> 0
  end.

(** Along a sorted stack a comparison goes down. *)
Definition descends (f : Z -> Z) (n : Z) : Prop :=
  forall i j, 0 <= i < j -> j < n -> (f i < 0 -> f j < 0) /\ (0 < f j -> 0 < f i).

Lemma bsearch_run k b cmp : opened s p a k b -> forall fuel lo hi, 0 <= lo <= hi -> hi <= zlen (elems a) -> hi - lo < Z.of_nat fuel ->
  exists r, bsearch_loop fuel (data k) lo hi cmp s = Done r s /\
    (forall j, r = Some j -> lo <= j < hi /\ cmp (elem j) = 0) /\
    (descends (fun i => cmp (elem i)) (zlen (elems a)) -> first_zero (fun i => cmp (elem i)) lo hi r).
Proof.
  intros Hs. induction fuel as [|fuel IH]; intros lo hi Hlo Hhi Hf; [lia|]. cbn [bsearch_loop].
  destruct (Z.ltb_spec lo hi) as [Hlt|]; cbn [negb].
  2: { destruct (Z.eqb_spec lo hi); [|lia]. exists None. split; [done|]. split; [done|]. intros _ i Hi. lia. }
  set (mid := lo + (hi - lo - 1) / 2). assert (lo <= mid < hi) as Hmid by (unfold mid; zdm).
  assert (1 < hi - lo -> mid + 1 < hi) as Hmid2 by (unfold mid; zdm).
  rewrite (proj2 (Z.leb_le lo mid)), (proj2 (Z.ltb_lt mid hi)) by lia. cbn [andb negb].
  assert (elems a !! Z.to_nat mid = Some (elem mid)) as Em.
  { destruct (lookup_lt_is_Some_2 (elems a) (Z.to_nat mid)) as [x Ex]; [unfold zlen in *; lia|]. by rewrite Ex. }
  rewrite (bind_done _ _ _ _ _ (load_elem s p a k b mid (elem mid) Hs ltac:(lia) Em)).
  destruct (Z.ltb_spec 0 (cmp (elem mid))) as [Hpos|Hnp]; [|destruct (Z.ltb_spec (cmp (elem mid)) 0) as [Hneg|]].
  - destruct (IH (mid + 1) hi ltac:(lia) Hhi ltac:(lia)) as (r & E & Hr & Hz). exists r. split; [done|]. split.
    { intros j Ej. destruct (Hr j Ej). split; [lia|done]. }
    intros Hd. assert (forall i, lo <= i < mid + 1 -> cmp (elem i) <> 0) as Hb.
    { intros i Hi. destruct (decide (i = mid)) as [->|]; [lia|]. destruct (Hd i mid ltac:(lia) ltac:(lia)) as [_ Hx]. specialize (Hx Hpos). lia. }
    specialize (Hz Hd). destruct r as [j|]; cbn [first_zero] in *.
    + destruct Hz as (Hj & Ej & Hz). split; [lia|]. split; [done|]. intros i Hi. destruct (Z.lt_ge_cases i (mid + 1)); [apply Hb|apply Hz]; lia.
    + intros i Hi. destruct (Z.lt_ge_cases i (mid + 1)); [apply Hb|apply Hz]; lia.
  - destruct (IH lo mid ltac:(lia) ltac:(lia) ltac:(lia)) as (r & E & Hr & Hz). exists r. split; [done|]. split.
    { intros j Ej. destruct (Hr j Ej). split; [lia|done]. }
    intros Hd. specialize (Hz Hd). destruct r as [j|]; cbn [first_zero] in *; [destruct Hz as (Hj & Ej & Hz); split; [lia|done]|].
    intros i Hi. destruct (Z.lt_ge_cases i mid); [by apply Hz; lia|]. destruct (decide (i = mid)) as [->|]; [lia|].
    destruct (Hd mid i ltac:(lia) ltac:(lia)) as [Hx _]. specialize (Hx Hneg). lia.
  - assert (cmp (elem mid) = 0) as Hzero by lia. destruct (Z.eqb_spec (hi - lo) 1).
    + exists (Some mid). split; [done|]. split; [intros j [= <-]; split; [lia|done]|]. intros _. cbn. split; [lia|]. split; [done|]. lia.
    + rewrite (proj2 (Z.ltb_lt (mid + 1) hi)) by lia. cbn [negb].
      destruct (IH lo (mid + 1) ltac:(lia) ltac:(lia) ltac:(lia)) as (r & E & Hr & Hz). exists r. split; [done|]. split.
      { intros j Ej. destruct (Hr j Ej). split; [lia|done]. }
      intros Hd. specialize (Hz Hd). destruct r as [j|]; cbn [first_zero] in *; [destruct Hz as (Hj & Ej & Hz); split; [lia|done]|].
      destruct (Hz mid); [lia|done].
Qed.

Lemma first_zero_index (f g : Z -> Z) l : forall n r,
  (forall i x, l !! i = Some x -> f (n + Z.of_nat i) = g x) -> first_zero f n (n + zlen l) r ->
  find_index (fun x => g x =? 0) l n = r.
Proof.
  induction l as [|y l IH]; intros n r Hfg Hz; cbn [find_index].
  - change (zlen []) with 0 in Hz. destruct r as [j|]; [|done]. cbn in Hz. lia.
  - rewrite zlen_cons in Hz. zlen_pos. pose proof (Hfg 0%nat y eq_refl) as Hy. rewrite Z.add_0_r in Hy.
    destruct (Z.eqb_spec (g y) 0) as [E|E].
    + destruct r as [j|]; cbn [first_zero] in Hz.
      * destruct Hz as (Hj & _ & Hz). destruct (decide (j = n)) as [->|]; [done|]. destruct (Hz n); [lia|by rewrite Hy].
      * destruct (Hz n); [lia|by rewrite Hy].
    + apply IH.
      * intros i x Ex. rewrite <- (Hfg (S i) x Ex). f_equal. lia.
      * destruct r as [j|]; cbn [first_zero] in *.
        -- destruct Hz as (Hj & Ej & Hz). assert (j <> n) by congruence. split; [lia|]. split; [done|]. intros i Hi. apply Hz. lia.
        -- intros i Hi. apply Hz. lia.
Qed.

Lemma cmp_flip cmp x y : preorder cmp -> cmp y x <= 0 <-> 0 <= cmp x y.
Proof. intros Hp. pose proof (cmp_sym _ Hp x y). destruct (Z.sgn_spec (cmp x y)), (Z.sgn_spec (cmp y x)); lia. Qed.

Lemma in_order_lookup cmp l i j u v : in_order cmp l -> l !! i = Some u -> l !! j = Some v -> (i < j)%nat -> cmp u v <= 0.
Proof.
  intros Ho Eu Ev Hij. unfold in_order in Ho. rewrite <- (take_drop (S i) l) in Ho.
  apply (StronglySorted_app_1_elem_of _ _ _ u v) in Ho; [done|..]; apply list_elem_of_lookup.
  - exists i. rewrite lookup_take_lt by lia. done.
  - exists (j - S i)%nat. rewrite lookup_drop. by replace (S i + (j - S i))%nat with j by lia.
Qed.

Lemma in_order_descends cmp x l : preorder cmp -> in_order cmp l -> descends (fun i => cmp x (default 0 (l !! Z.to_nat i))) (zlen l).
Proof.
  intros Hp Ho i j Hi Hj. cbn beta.
  destruct (lookup_lt_is_Some_2 l (Z.to_nat i)) as [u Eu]; [unfold zlen in *; lia|].
  destruct (lookup_lt_is_Some_2 l (Z.to_nat j)) as [v Ev]; [unfold zlen in *; lia|]. rewrite Eu, Ev. cbn.
  assert (cmp u v <= 0) as Huv by (apply (in_order_lookup cmp l (Z.to_nat i) (Z.to_nat j)); [done..|lia]).
  split; intros Hlt.
  - destruct (Z.lt_ge_cases (cmp x v) 0) as [|Hge]; [done|].
    pose proof (cmp_trans _ Hp u v x Huv (proj2 (cmp_flip cmp x v Hp) Hge)) as Hux. apply (cmp_flip cmp x u Hp) in Hux. lia.
  - destruct (Z.lt_ge_cases 0 (cmp x u)) as [|Hle]; [done|]. pose proof (cmp_trans _ Hp x u v Hle Huv). lia.
Qed.

(** What [sk_find] may answer: the first match, unless the stack is flagged as
    sorted but is not. *)
Definition found a x (r : option Z) : Prop :=
  if order a =? 0 then r = find_index (Z.eqb x) (elems a) 0
  else if x =? 0 then r = None
  else
    (flag a = false \/ (preorder (call_cmp_func (order a)) /\ in_order (call_cmp_func (order a)) (elems a)) ->
     r = find_index (fun e => call_cmp_func (order a) x e =? 0) (elems a) 0) /\
    (forall j, r = Some j -> 0 <= j < zlen (elems a) /\ call_cmp_func (order a) x (default 0 (elems a !! Z.to_nat j)) = 0).

Lemma find_run fuel x : zlen (elems a) < Z.of_nat fuel -> exists r, sk_find call_cmp_func fuel p x s = Done r s /\ found a x r.
Proof.
  intros Hf. destruct (open_stack s A p a R Ea) as (k & b & Hs). pose proof (p_ok _ _ _ _ _ Hs) as Hok.
  unfold sk_find. destruct (Z.eqb_spec p 0) as [->|_]; [by destruct (r_stack _ _ 0 a R Ea)|].
  rewrite (bind_done _ _ _ _ _ (get_sk_spec s p k (p_stack _ _ _ _ _ Hs))), (o_comp _ _ _ Hok), (o_num _ _ _ Hok), zlen_to_nat.
  unfold found. pose proof (fun eq => find_from_run s p a k b eq Hs (length (elems a)) 0 ltac:(lia) ltac:(unfold zlen; lia)) as Hlin.
  change (drop (Z.to_nat 0) (elems a)) with (elems a) in Hlin.
  destruct (order a =? 0); [eauto|]. destruct (x =? 0); [by exists None|].
  rewrite (bind_done _ _ _ _ _ (is_sorted_run s A p a R Ea)). destruct (flag a); cbn [negb].
  - destruct (bsearch_run k b (call_cmp_func (order a) x) Hs fuel 0 (zlen (elems a)) ltac:(zlen_pos; lia) ltac:(lia) ltac:(lia)) as (r & E & Hr & Hz).
    exists r. split; [done|]. split; [|exact Hr]. intros [?|[Hp Ho]]; [done|]. symmetry.
    apply (first_zero_index (fun i => call_cmp_func (order a) x (elem i))).
    + intros i y Ey. rewrite Z.add_0_l, Nat2Z.id, Ey. done.
    + apply Hz, (in_order_descends _ x _ Hp Ho).
  - eexists. split; [apply Hlin|]. split; [done|]. intros j Ej.
    destruct (find_index_some _ _ _ _ Ej) as (Hj & y & Ey & Hy%Z.eqb_eq). rewrite Z.sub_0_r in Ey. rewrite Ey. split; [lia|done].
Qed.
End Search.

(** *** The other functions *)
Section Others.
Variables (s : sk_state) (A : gmap Z astack) (p : Z) (a : astack).
Hypotheses (R : rep s A) (Ea : A !! p = Some a).

Lemma opened_get {X} k b (f : stack -> SkM X) : opened s p a k b -> bind (get_sk p) f s = f k s.
Proof. intros Hs. apply bind_done, get_sk_spec, Hs. Qed.

Lemma sk_shift_run : exists s', sk_shift p s = Done (default 0 (head (elems a))) s' /\
  rep s' (<[p := mk_astack (tail (elems a)) (flag a) (order a)]> A).
Proof.
  destruct (open_stack s A p a R Ea) as (k & b & Hs). unfold sk_shift. rewrite (proj2 (Z.eqb_neq p 0) (p_not_null _ _ _ _ _ Hs)).
  rewrite (opened_get k b _ Hs), (o_num _ _ _ (p_ok _ _ _ _ _ Hs)). destruct (elems a) as [|x l] eqn:El.
  - change (zlen [] =? 0) with true. exists s. split; [done|]. rewrite insert_id; [done|]. rewrite Ea. f_equal. destruct a. by cbn in *; subst.
  - destruct (Z.eqb_spec (zlen (x :: l)) 0) as [E|_]; [rewrite zlen_cons in E; zlen_pos; lia|].
    destruct (sk_delete_run s A p a R Ea 0 ltac:(lia)) as (s' & E & R'). rewrite El in *. by exists s'.
Qed.

Lemma pop_run : exists s', sk_pop p s = Done (default 0 (last (elems a))) s' /\
  rep s' (<[p := mk_astack (take (length (elems a) - 1) (elems a)) (flag a) (order a)]> A).
Proof.
  destruct (open_stack s A p a R Ea) as (k & b & Hs). unfold sk_pop. rewrite (proj2 (Z.eqb_neq p 0) (p_not_null _ _ _ _ _ Hs)).
  rewrite (opened_get k b _ Hs), (o_num _ _ _ (p_ok _ _ _ _ _ Hs)). destruct (Z.eqb_spec (zlen (elems a)) 0) as [E|Hne].
  - assert (elems a = []) as El by (apply length_zero_iff_nil; unfold zlen in E; lia). rewrite El.
    exists s. split; [done|]. rewrite insert_id; [done|]. rewrite Ea. f_equal. destruct a. by cbn in *; subst.
  - zlen_pos. destruct (sk_delete_run s A p a R Ea (zlen (elems a) - 1) ltac:(lia)) as (s' & E & R'). exists s'.
    replace (Z.to_nat (zlen (elems a) - 1)) with (length (elems a) - 1)%nat in * by (unfold zlen; lia).
    rewrite E, last_lookup. replace (pred (length (elems a))) with (length (elems a) - 1)%nat by lia. split; [done|].
    rewrite delete_take_drop, (drop_ge (elems a) (S _)), app_nil_r in R' by (unfold zlen in Hne; lia). exact R'.
Qed.

Lemma push_run x : exists r s' a', sk_push p x s = Done r s' /\ rep s' (<[p := a']> A) /\
  ((r = 0 /\ a' = a) \/ (r = zlen (elems a) + 1 /\ a' = mk_astack (elems a ++ [x]) false (order a))).
Proof.
  destruct (open_stack s A p a R Ea) as (k & b & Hs). unfold sk_push. rewrite (proj2 (Z.eqb_neq p 0) (p_not_null _ _ _ _ _ Hs)).
  rewrite (opened_get k b _ Hs), (o_num _ _ _ (p_ok _ _ _ _ _ Hs)). zlen_pos.
  destruct (insert_run A p a Ea s x (zlen (elems a)) R ltac:(lia)) as (r & s' & a' & E & R' & Hr). exists r, s', a'.
  rewrite insert_at_end in Hr by (unfold zlen; lia). auto.
Qed.

Lemma set_cmp_run c : exists s', sk_set_cmp_func p c s = Done (order a) s' /\
  rep s' (<[p := mk_astack (elems a) (if order a =? c then flag a else false) c]> A).
Proof.
  destruct (open_stack s A p a R Ea) as (k & b & Hs). pose proof (p_ok _ _ _ _ _ Hs) as Hok. unfold sk_set_cmp_func.
  rewrite (opened_get k b _ Hs). unfold put_sk. rewrite bind_modify, (o_comp _ _ _ Hok). eexists. split; [done|].
  apply (rep_field s A p k a b); try apply Hs; try done.
  - pose proof Hok as []. destruct (order a =? c); constructor; done.
  - by destruct (order a =? c).
Qed.

Lemma sort_run : (order a <> 0 -> preorder (call_cmp_func (order a))) ->
  exists s' a', sk_sort call_cmp_func p s = Done tt s' /\ rep s' (<[p := a']> A) /\
  if (order a =? 0) || flag a then a' = a
  else flag a' = true /\ order a' = order a /\ Permutation (elems a') (elems a) /\ in_order (call_cmp_func (order a)) (elems a').
Proof.
  intros Hpre. destruct (open_stack s A p a R Ea) as (k & b & Hs). pose proof (p_ok _ _ _ _ _ Hs) as Hok. pose proof Hok as [].
  unfold sk_sort. rewrite (proj2 (Z.eqb_neq p 0) (p_not_null _ _ _ _ _ Hs)), (opened_get k b _ Hs), o_comp0, o_sorted0, o_num0.
  destruct ((order a =? 0) || flag a) eqn:Eskip.
  { exists s, a. split; [done|]. by rewrite insert_id. }
  apply orb_false_iff in Eskip as [Hc%Z.eqb_neq _]. specialize (Hpre Hc).
  pose proof (p_block _ _ _ _ _ Hs) as Eb. pose proof (p_stack _ _ _ _ _ Hs) as Ek. pose proof (p_len _ _ _ _ _ Hs) as Hlen.
  assert (forall t, stacks t = stacks s -> put_sk p (with_sorted true k) t = Done tt (mk_sk_state (<[p := with_sorted true k]> (stacks s)) (sk_blocks t))) as Hput.
  { intros t Et. unfold put_sk, modify. by rewrite Et. }
  destruct (Z.leb_spec 2 (zlen (elems a))) as [Htwo|Hone].
  - remember (call_cmp_func (order a)) as cmp eqn:Ecmp. pose proof (qsort_perm cmp (elems a) Hpre) as Hperm.
    assert (length (qsort cmp (elems a)) = length (elems a)) as Hql by (by rewrite Hperm).
    assert (0 + zlen (qsort cmp (elems a)) <= zlen (blk_cells b)) as Hroom by (unfold zlen; lia).
    assert (0 + zlen (elems a) <= zlen (blk_cells b)) as Hroom' by (unfold zlen; lia).
    rewrite bind_assoc. rewrite (bind_done _ _ _ _ _ (on_heap_spec _ s _ _ (load_spec (sk_blocks s) (data k) b 0 (zlen (elems a)) Eb
      ltac:(lia) ltac:(lia) Hroom'))).
    rewrite drop_0, zlen_to_nat, o_elems0.
    rewrite (bind_done _ _ _ _ _ (on_heap_spec _ (mk_sk_state (stacks s) (sk_blocks s)) _ _ (store_spec (sk_blocks s) (data k) b 0 (qsort cmp (elems a)) Eb
      ltac:(lia) Hroom))).
    rewrite Hput by done. cbn [sk_blocks Z.to_nat take app Nat.add]. eexists _, (mk_astack (qsort cmp (elems a)) true (order a)).
    split; [done|]. split; [|do 2 (split; [done|]); split; [exact Hperm|by apply qsort_sorts]].
    apply (rep_change s A p k a b); try done. rewrite <- o_comp0. unfold with_sorted.
    apply (ok_with k b a); try done; [unfold zlen in *; lia| |refine (take_app_length (qsort cmp (elems a)) _)].
    rewrite <- o_cells0. change (take (Z.to_nat 0) (blk_cells b)) with (@nil Z). unfold zlen. rewrite !length_app, length_drop. cbn. lia.
  - unfold bind, ret. rewrite Hput by done. exists (mk_sk_state (<[p := with_sorted true k]> (stacks s)) (sk_blocks s)), (mk_astack (elems a) true (order a)).
    split; [done|]. split.
    + apply (rep_field s A p k a b); try done.
    + split; [done|]. split; [done|]. split; [done|]. unfold in_order. cbn [elems].
      destruct (elems a) as [|x [|y l]]; [constructor|repeat constructor|]. rewrite !zlen_cons in Hone. zlen_pos. lia.
Qed.

(** A stack without an array is freed. *)
Lemma free_empty r : r <> 0 -> stacks s !! r = None ->
  sk_free r (mk_sk_state (<[r := mk_stack 0 0 false 0 0]> (stacks s)) (sk_blocks s)) = Done tt s.
Proof.
  intros Hr0 Hr. unfold sk_free. rewrite (proj2 (Z.eqb_neq r 0) Hr0). set (t := mk_sk_state _ _).
  rewrite (bind_done _ _ _ _ _ (get_sk_spec t r _ (lookup_insert_eq _ _ _))).
  rewrite (bind_done _ _ _ _ _ (on_heap_spec _ t _ _ (free_spec 0 (sk_blocks t) (or_introl eq_refl)))).
  unfold free_sk, modify, t. cbn. rewrite delete_insert_eq, delete_id by done. by destruct s.
Qed.

Lemma dup_run : exists r s', sk_dup p s = Done r s' /\
  ((r = 0 /\ rep s' A) \/ (A !! r = None /\ r <> 0 /\ rep s' (<[r := a]> A))).
Proof.
  destruct (open_stack s A p a R Ea) as (k & b & Hs). pose proof (p_ok _ _ _ _ _ Hs) as Hok. pose proof Hok as [].
  pose proof (p_block _ _ _ _ _ Hs) as Eb. pose proof (p_len _ _ _ _ _ Hs) as Hlen.
  unfold sk_dup. rewrite (proj2 (Z.eqb_neq p 0) (p_not_null _ _ _ _ _ Hs)), (opened_get k b _ Hs), bind_gets.
  destruct (malloc_stack (stacks s)) as [r|] eqn:Em; [|exists 0, s; auto]. destruct (malloc_stack_fresh _ _ Em) as [Hr0 Hr].
  unfold put_sk at 1. rewrite bind_modify. change sizeof_ptr with 8. rewrite u64_small by lia.
  destruct (malloc_spec (8 * num_alloc k) (sk_blocks s) ltac:(lia)) as (d & t & Ed & Hd).
  set (s1 := mk_sk_state (<[r := mk_stack 0 0 false 0 0]> (stacks s)) (sk_blocks s)).
  rewrite (bind_done _ _ _ _ _ (on_heap_spec _ s1 _ _ Ed)). cbn [stacks s1].
  destruct Hd as [[-> ->]|(Hpos & Hfr & l & Hl & ->)].
  - exists 0, s. split; [|by left]. cbn [Z.eqb]. by rewrite (bind_done _ _ _ _ _ (free_empty r Hr0 Hr)).
  - destruct (Z.eqb_spec d 0); [lia|]. rewrite pointers, Z.mul_comm, Z.div_mul in Hl by lia.
    assert (exists cells, zlen cells = num_alloc k /\ take (length (elems a)) cells = elems a /\
      move_n d 0 (data k) 0 (num k) (<[d := mk_blk (8 * num_alloc k) l]> (sk_blocks s))
      = Done tt (<[d := mk_blk (8 * num_alloc k) cells]> (sk_blocks s))) as (cells & Hc & Ht & Emv).
    { destruct (Z.eqb_spec (num k) 0) as [E0|Hne].
      - assert (elems a = []) as El by (apply length_zero_iff_nil; unfold zlen in *; lia). rewrite El.
        exists l. split; [done|]. split; [done|]. by rewrite E0.
      - exists (elems a ++ drop (length (elems a)) l). split; [|split; [by apply take_app_length|]].
        { rewrite <- Hl. unfold zlen in *. rewrite length_app, length_drop. lia. }
        assert (d <> data k) as Hdk by congruence.
        rewrite (move_spec _ d (mk_blk (8 * num_alloc k) l) (data k) b); rewrite ?lookup_insert_eq, ?lookup_insert_ne by done;
          cbn [blk_cells blk_size]; try done; try lia; [|zlen_pos; lia].
        rewrite insert_insert_eq, o_num0, zlen_to_nat. change (Z.to_nat 0) with 0%nat. by rewrite drop_0, o_elems0. }
    rewrite (bind_done _ _ _ _ _ (on_heap_spec _ (mk_sk_state (<[r := mk_stack 0 0 false 0 0]> (stacks s)) _) _ _ Emv)).
    cbn [stacks]. unfold put_sk. rewrite bind_modify. cbn [stacks sk_blocks]. rewrite insert_insert_eq. exists r. eexists. split; [done|]. right.
    destruct (rep_add s A r (mk_stack (num k) d (sorted k) (num_alloc k) (comp k)) (mk_blk (8 * num_alloc k) cells) a R Hr0 Hr Hpos Hfr) as [Hn Hrep];
      [by constructor|]. by auto.
Qed.
End Others.

Lemma new_run s A c : rep s A -> exists r s', sk_new c s = Done r s' /\
  ((r = 0 /\ rep s' A) \/ (A !! r = None /\ r <> 0 /\ rep s' (<[r := mk_astack [] false c]> A))).
Proof.
  intros R. unfold sk_new. rewrite bind_gets.
  destruct (malloc_stack (stacks s)) as [r|] eqn:Em; [|exists 0, s; auto]. destruct (malloc_stack_fresh _ _ Em) as [Hr0 Hr].
  unfold put_sk at 1. rewrite bind_modify.
  destruct (malloc_spec (sizeof_ptr * kMinSize) (sk_blocks s) ltac:(done)) as (d & t & Ed & Hd).
  rewrite (bind_done _ _ _ _ _ (on_heap_spec _ (mk_sk_state (<[r := mk_stack 0 0 false 0 0]> (stacks s)) (sk_blocks s)) _ _ Ed)). cbn [stacks].
  destruct Hd as [[-> ->]|(Hpos & Hfr & l & Hl & ->)].
  - cbn [Z.eqb]. unfold free_sk. rewrite bind_modify. exists 0. eexists. split; [done|]. left. split; [done|]. cbn.
    rewrite delete_insert_eq, delete_id by done. by destruct s.
  - destruct (Z.eqb_spec d 0); [lia|]. change (sizeof_ptr * kMinSize) with 32 in *. rewrite pointers in Hl. change (32 / 8) with 4 in Hl.
    assert (0 + zlen (replicate (Z.to_nat kMinSize) 0) <= zlen (blk_cells (mk_blk 32 l))) as Hst by (cbn [blk_cells]; rewrite Hl; done).
    rewrite (bind_done _ _ _ _ _ (on_heap_spec _ (mk_sk_state _ _) _ _ (store_spec _ d (mk_blk 32 l) 0 (replicate (Z.to_nat kMinSize) 0)
      (lookup_insert_eq _ _ _) ltac:(lia) Hst))).
    unfold put_sk. rewrite bind_modify. cbn [stacks sk_blocks]. rewrite !insert_insert_eq. exists r. eexists. split; [done|]. right.
    destruct (rep_add s A r (mk_stack 0 d false kMinSize c) (mk_blk 32 (replicate 4 0)) (mk_astack [] false c) R Hr0 Hr Hpos Hfr) as [Hn Hrep];
      [by constructor|]. split; [done|]. split; [done|]. cbn [sk_blocks stacks] in *.
    assert (drop 4 l = []) as Hdrop by (apply drop_ge; unfold zlen in Hl; lia).
    change (take (Z.to_nat 0) (blk_cells (mk_blk 32 l))) with (@nil Z).
    change (drop _ (blk_cells (mk_blk 32 l))) with (drop 4 l). rewrite Hdrop. exact Hrep.
Qed.
End Ops.
