(* ===== verification/StackTheorems.v ===== *)
(** BoringSSL, the stacks: what [crypto/stack/stack.c] promises, with witnesses. *)
From stdpp Require Import sorting.
From S2P Require Import Prelude.
From S2P Require Import Mem MemTheorems Stack StackProofs.
#[local] Set Warnings "-clear-no-such-hyp".

(** ** The specification: lists *)
Inductive stack_op : Set :=
| Num | Zero | Value (i : Z) | SetAt (i x : Z) | Free | InsertAt (x i : Z) | Delete (i : Z) | DeletePtr (x : Z)
| Find (x : Z) | Shift | Push (x : Z) | Pop | Dup | Sort | IsSorted | SetCmp (c : Z).
Inductive sk_op : Set := New (c : Z) | On (p : Z) (o : stack_op).
Inductive sk_result : Set := Val (z : Z) | Flag (b : bool) | Index (o : option Z) | Unit.

(** The answers for a null stack. *)
Definition null_result (o : stack_op) : sk_result :=
  match o with
  | Zero | Free | Sort => Unit
  | Find _ => Index None
  | IsSorted => Flag true
  | _ => Val 0
  end.

Section Spec.
Variable call_cmp_func : Z -> Z -> Z -> Z.

Inductive on_step (a : astack) : stack_op -> sk_result -> astack -> Prop :=
| step_num : on_step a Num (Val (zlen (elems a))) a
| step_zero : on_step a Zero Unit (if zlen (elems a) =? 0 then a else mk_astack [] false (order a))
| step_value i : on_step a (Value i) (Val (default 0 (elems a !! Z.to_nat i))) a
| step_set i x : i < zlen (elems a) -> on_step a (SetAt i x) (Val x) (mk_astack (<[Z.to_nat i := x]> (elems a)) (flag a) (order a))
| step_set_out i x : zlen (elems a) <= i -> on_step a (SetAt i x) (Val 0) a
| step_insert x i : on_step a (InsertAt x i) (Val (zlen (elems a) + 1)) (mk_astack (insert_at (Z.to_nat i) x (elems a)) false (order a))
| step_insert_no_memory x i : on_step a (InsertAt x i) (Val 0) a
| step_delete i : on_step a (Delete i) (Val (default 0 (elems a !! Z.to_nat i))) (mk_astack (delete (Z.to_nat i) (elems a)) (flag a) (order a))
| step_delete_ptr x : on_step a (DeletePtr x)
    (Val (match find_index (Z.eqb x) (elems a) 0 with Some _ => x | None => 0 end)) (mk_astack (remove_first x (elems a)) (flag a) (order a))
| step_find x r : found call_cmp_func a x r -> on_step a (Find x) (Index r) a
| step_shift : on_step a Shift (Val (default 0 (head (elems a)))) (mk_astack (tail (elems a)) (flag a) (order a))
| step_push x : on_step a (Push x) (Val (zlen (elems a) + 1)) (mk_astack (elems a ++ [x]) false (order a))
| step_push_no_memory x : on_step a (Push x) (Val 0) a
| step_pop : on_step a Pop (Val (default 0 (last (elems a)))) (mk_astack (take (length (elems a) - 1) (elems a)) (flag a) (order a))
| step_sorted_already : (order a =? 0) || flag a = true -> on_step a Sort Unit a
| step_sort l : (order a =? 0) || flag a = false -> Permutation l (elems a) -> in_order (call_cmp_func (order a)) l ->
    on_step a Sort Unit (mk_astack l true (order a))
| step_is_sorted : on_step a IsSorted (Flag (flag a)) a
| step_set_cmp c : on_step a (SetCmp c) (Val (order a)) (mk_astack (elems a) (if order a =? c then flag a else false) c).

Inductive sk_step (A : gmap Z astack) : sk_op -> sk_result -> gmap Z astack -> Prop :=
| step_new c r : A !! r = None -> r <> 0 -> sk_step A (New c) (Val r) (<[r := mk_astack [] false c]> A)
| step_new_no_memory c : sk_step A (New c) (Val 0) A
| step_null o : sk_step A (On 0 o) (null_result o) A
| step_on p a o r a' : A !! p = Some a -> on_step a o r a' -> sk_step A (On p o) r (<[p := a']> A)
| step_free p a : A !! p = Some a -> sk_step A (On p Free) Unit (delete p A)
| step_dup p a r : A !! p = Some a -> A !! r = None -> r <> 0 -> sk_step A (On p Dup) (Val r) (<[r := a]> A)
| step_dup_no_memory p a : A !! p = Some a -> sk_step A (On p Dup) (Val 0) A.

(** What a caller may call: stacks that it has, positions that are [size_t]s,
    [sk_push] and [sk_set_cmp_func] not on null; [fuel] is enough to search. *)
Definition index_ok (o : stack_op) : Prop :=
  match o with Value i | SetAt i _ | InsertAt _ i | Delete i => 0 <= i | _ => True end.
Definition null_ok (o : stack_op) : Prop := match o with Push _ | SetCmp _ => False | _ => True end.

Definition callable (fuel : nat) (A : gmap Z astack) (op : sk_op) : Prop :=
  match op with
  | New _ => True
  | On p o => index_ok o /\ ((p = 0 /\ null_ok o) \/ exists a, A !! p = Some a /\ zlen (elems a) < Z.of_nat fuel)
  end.

End Spec.

Section Theorems.
Context `{LibcLaws Z} `{StackMallocLaws} `{QsortLaws}.
Hypothesis pointers : cell_width (T := Z) = 8.
Variable call_cmp_func : Z -> Z -> Z -> Z.
(** The comparison functions order the elements. *)
Hypothesis comparisons : forall c, c <> 0 -> preorder (call_cmp_func c).
Implicit Types (s : sk_state) (A : gmap Z astack).

Definition val (m : SkM Z) : SkM sk_result := let* z := m in ret (Val z).
Definition unit_ (m : SkM unit) : SkM sk_result := m;;; ret Unit.

Definition run_op (fuel : nat) (op : sk_op) : SkM sk_result :=
  match op with
  | New c => val (sk_new c)
  | On p o =>
      match o with
      | Num => val (sk_num p)
      | Zero => unit_ (sk_zero p)
      | Value i => val (sk_value p i)
      | SetAt i x => val (sk_set p i x)
      | Free => unit_ (sk_free p)
      | InsertAt x i => val (sk_insert p x i)
      | Delete i => val (sk_delete p i)
      | DeletePtr x => val (sk_delete_ptr p x)
      | Find x => let* r := sk_find call_cmp_func fuel p x in ret (Index r)
      | Shift => val (sk_shift p)
      | Push x => val (sk_push p x)
      | Pop => val (sk_pop p)
      | Dup => val (sk_dup p)
      | Sort => unit_ (sk_sort call_cmp_func p)
      | IsSorted => let* b := sk_is_sorted p in ret (Flag b)
      | SetCmp c => val (sk_set_cmp_func p c)
      end
  end.

Lemma val_run (m : SkM Z) s z t : m s = Done z t -> val m s = Done (Val z) t.
Proof. intros E. unfold val. by rewrite (bind_done _ _ _ _ _ E). Qed.
Lemma unit_run (m : SkM unit) s t : m s = Done tt t -> unit_ m s = Done Unit t.
Proof. intros E. unfold unit_. by rewrite (bind_done _ _ _ _ _ E). Qed.

Lemma null_run fuel o s : null_ok o -> run_op fuel (On 0 o) s = Done (null_result o) s.
Proof. by destruct o. Qed.

Lemma on_run fuel p a o s A : rep s A -> A !! p = Some a -> index_ok o -> zlen (elems a) < Z.of_nat fuel ->
  exists r s' A', run_op fuel (On p o) s = Done r s' /\ sk_step call_cmp_func A (On p o) r A' /\ rep s' A'.
Proof.
  intros R Ea Hi Hf.
  assert (forall r s' a', run_op fuel (On p o) s = Done r s' -> rep s' (<[p := a']> A) -> on_step call_cmp_func a o r a' ->
    exists r s' A', run_op fuel (On p o) s = Done r s' /\ sk_step call_cmp_func A (On p o) r A' /\ rep s' A') as Hon.
  { intros r s' a' E R' Hst. exists r, s', (<[p := a']> A). split; [done|]. split; [|done]. by apply (step_on _ _ p a). }
  assert (forall r, run_op fuel (On p o) s = Done r s -> on_step call_cmp_func a o r a ->
    exists r s' A', run_op fuel (On p o) s = Done r s' /\ sk_step call_cmp_func A (On p o) r A' /\ rep s' A') as Hsame.
  { intros r E Hst. apply (Hon r s a E); [by rewrite insert_id|done]. }
  destruct o; cbn [index_ok] in Hi.
  - apply (Hsame _ (val_run _ _ _ _ (num_run s A p a R Ea))). constructor.
  - destruct (zero_run s A p a R Ea) as (s' & a' & E & R' & ->). apply (Hon _ _ _ (unit_run _ _ _ E) R'). constructor.
  - apply (Hsame _ (val_run _ _ _ _ (value_run s A p a R Ea i Hi))). constructor.
  - destruct (set_run s A p a R Ea i x Hi) as (r & s' & a' & E & R' & Hr). apply (Hon _ _ _ (val_run _ _ _ _ E) R').
    destruct (Z.ltb_spec i (zlen (elems a))); injection Hr as -> ->; by constructor.
  - destruct (sk_free_run s A p a R Ea) as (s' & E & R'). exists Unit, s', (delete p A). split; [exact (unit_run _ _ _ E)|].
    split; [by apply (step_free _ _ p a)|done].
  - destruct (insert_run pointers A p a Ea s x i R Hi) as (r & s' & a' & E & R' & Hr). apply (Hon _ _ _ (val_run _ _ _ _ E) R').
    destruct Hr as [[-> ->]|[-> ->]]; constructor.
  - destruct (sk_delete_run s A p a R Ea i Hi) as (s' & E & R'). apply (Hon _ _ _ (val_run _ _ _ _ E) R'). constructor.
  - destruct (delete_ptr_run s A p a R Ea x) as (r & s' & E & R' & ->). apply (Hon _ _ _ (val_run _ _ _ _ E) R'). constructor.
  - destruct (find_run call_cmp_func s A p a R Ea fuel x Hf) as (r & E & Hr). apply (Hsame (Index r)); [|by constructor].
    cbn [run_op]. by rewrite (bind_done _ _ _ _ _ E).
  - destruct (sk_shift_run s A p a R Ea) as (s' & E & R'). apply (Hon _ _ _ (val_run _ _ _ _ E) R'). constructor.
  - destruct (push_run pointers s A p a R Ea x) as (r & s' & a' & E & R' & Hr). apply (Hon _ _ _ (val_run _ _ _ _ E) R').
    destruct Hr as [[-> ->]|[-> ->]]; constructor.
  - destruct (pop_run s A p a R Ea) as (s' & E & R'). apply (Hon _ _ _ (val_run _ _ _ _ E) R'). constructor.
  - destruct (dup_run pointers s A p a R Ea) as (r & s' & E & [[-> R']|(Hn & Hr & R')]); eexists _, s', _; (split; [exact (val_run _ _ _ _ E)|]);
      (split; [|exact R']); [by apply (step_dup_no_memory _ _ p a)|by apply (step_dup _ _ p a)].
  - destruct (sort_run call_cmp_func s A p a R Ea (comparisons (order a))) as (s' & a' & E & R' & Ha).
    apply (Hon _ _ _ (unit_run _ _ _ E) R'). destruct ((order a =? 0) || flag a) eqn:Es.
    + subst a'. by constructor.
    + destruct a' as [l f c]. cbn in Ha. destruct Ha as (-> & -> & Hp & Ho). by constructor.
  - apply (Hsame (Flag (flag a))); [|constructor]. cbn [run_op]. by rewrite (bind_done _ _ _ _ _ (is_sorted_run s A p a R Ea)).
  - destruct (set_cmp_run s A p a R Ea c) as (s' & E & R'). apply (Hon _ _ _ (val_run _ _ _ _ E) R'). constructor.
Qed.

Lemma op_goes fuel op s A : rep s A -> callable fuel A op ->
  exists r s' A', run_op fuel op s = Done r s' /\ sk_step call_cmp_func A op r A' /\ rep s' A'.
Proof.
  intros R Hc. destruct op as [c|p o].
  - destruct (new_run pointers s A c R) as (r & s' & E & [[-> R']|(Hn & Hr & R')]); eexists _, s', _;
      (split; [exact (val_run _ _ _ _ E)|]); (split; [|exact R']); by constructor.
  - destruct Hc as [Hi [[-> Hn]|(a & Ea & Hf)]]; [|by apply (on_run fuel p a)].
    exists (null_result o), s, A. split; [by apply null_run|]. split; [constructor|done].
Qed.

(** C17: stacks are lists.  A caller that uses stacks it has runs without undefined
    behaviour, whatever the allocator answers; each result, and the contents of
    each stack after it, are those of the specification on lists [sk_step]: a
    call that runs out of memory changes nothing, other stacks keep their
    elements, and the memory holds the arrays of the stacks that are left and
    nothing else. *)
Theorem stack_callers_refine fuel cl s A :
  rep s A -> careful (sk_step call_cmp_func) (callable fuel) A cl ->
  exists rs s' A', run_caller (run_op fuel) cl s = Done rs s' /\ caller_steps (sk_step call_cmp_func) A cl rs A' /\ rep s' A'.
Proof. apply caller_goes. intros op s0 A0. apply op_goes. Qed.

(** ** Sorted stacks *)
(** The flag says the truth. *)
Definition truthful a : Prop := flag a = true -> in_order (call_cmp_func (order a)) (elems a).

(** The first element that the comparison makes equal; without a comparison, the
    same pointer. *)
Definition first_match a x : option Z :=
  if order a =? 0 then find_index (Z.eqb x) (elems a) 0
  else if x =? 0 then None else find_index (fun e => call_cmp_func (order a) x e =? 0) (elems a) 0.

Definition sets_sorted A (op : sk_op) : Prop :=
  match op with On p (SetAt _ _) => exists a, A !! p = Some a /\ flag a = true | _ => False end.

Lemma in_order_sublist cmp l k : sublist l k -> in_order cmp k -> in_order cmp l.
Proof.
  unfold in_order. induction 1 as [|x l k Hs IH|x l k Hs IH]; [done|..]; intros [Hx Hk]%StronglySorted_cons; [|by auto].
  apply StronglySorted_cons. split; [|by auto]. rewrite Forall_forall in *. intros y Hy. apply Hx. by eapply elem_of_sublist.
Qed.

Lemma on_step_truthful a o r a' : on_step call_cmp_func a o r a' -> (forall i x, o = SetAt i x -> flag a = false) ->
  truthful a -> truthful a'.
Proof.
  intros Hst Hset Ht. destruct Hst; try done; unfold truthful in *; cbn.
  - by destruct (zlen (elems a) =? 0).
  - by rewrite (Hset _ _ eq_refl).
  - intros Hf. apply (in_order_sublist _ _ (elems a)); [apply sublist_delete|by auto].
  - intros Hf. apply (in_order_sublist _ _ (elems a)); [|by auto]. unfold remove_first. destruct (find_index _ _ _); [apply sublist_delete|done].
  - intros Hf. apply (in_order_sublist _ _ (elems a)); [|by auto]. destruct (elems a); [done|by apply sublist_cons].
  - intros Hf. apply (in_order_sublist _ _ (elems a)); [apply sublist_take|by auto].
  - done.
  - match goal with |- context [order a =? ?y] => destruct (Z.eqb_spec (order a) y) as [<-|] end; done.
Qed.

Lemma sk_step_truthful A op r A' : sk_step call_cmp_func A op r A' -> ~ sets_sorted A op ->
  map_Forall (fun _ => truthful) A -> map_Forall (fun _ => truthful) A'.
Proof.
  intros Hst Hns Ht. destruct Hst as [c r Hn Hr|c|o|q b o r b' Eb Hst|q b Eb|q b r Eb Hn Hr|q b Eb]; try done.
  - by apply map_Forall_insert_2.
  - apply map_Forall_insert_2; [|done]. apply (on_step_truthful b o r b' Hst); [|by apply (Ht q)].
    intros i y ->. destruct (flag b) eqn:Efl; [|done]. destruct Hns. by exists b.
  - by apply map_Forall_delete.
  - apply map_Forall_insert_2; [by apply (Ht q)|done].
Qed.

(** C18: the binary search is the linear one.  While the flag [sorted] of a stack
    says the truth, [sk_find] gives the first element that matches, by binary
    search in a stack that is flagged as sorted and by a linear search in others,
    and the least position among equal elements; and every call, [sk_sort] and
    the insertions included, but an [sk_set] on a stack that is flagged as
    sorted, returns and leaves stacks whose flags all say the truth. *)
Theorem sk_find_gives_first fuel s A :
  rep s A -> map_Forall (fun _ => truthful) A ->
  (forall p a x, A !! p = Some a -> zlen (elems a) < Z.of_nat fuel ->
     sk_find call_cmp_func fuel p x s = Done (first_match a x) s) /\
  (forall op, callable fuel A op -> ~ sets_sorted A op ->
     exists r s' A', run_op fuel op s = Done r s' /\ rep s' A' /\ map_Forall (fun _ => truthful) A').
Proof.
  intros R Ht. split.
  - intros p a x Ea Hf.
    destruct (find_run call_cmp_func s A p a R Ea fuel x Hf) as (r & E & Hr). rewrite E. f_equal. unfold found in Hr. unfold first_match.
    destruct (Z.eqb_spec (order a) 0) as [|Hc]; [done|]. destruct (x =? 0); [done|]. destruct Hr as [Hr _]. apply Hr.
    destruct (flag a) eqn:Efl; [right|by left]. split; [by apply comparisons|]. by apply (Ht p a Ea).
  - intros op Hc Hns. destruct (op_goes fuel op s A R Hc) as (r & s' & A' & E & Hst & R').
    exists r, s', A'. split; [done|]. split; [done|]. by apply (sk_step_truthful A op r A').
Qed.

(** ** Callbacks that leave the stacks alone *)
Section Quiet.
Context {App : Type}.
Variables (frees : Z -> App -> App) (copies : Z -> App -> Z * App).
Variables (free_func : Z -> M (sk_state * App) unit) (copy_func : Z -> M (sk_state * App) Z).
Hypothesis free_quiet : forall x s w, free_func x (s, w) = Done tt (s, frees x w).
Hypothesis copy_quiet : forall x s w, copy_func x (s, w) = Done (fst (copies x w)) (s, snd (copies x w)).

Lemma in_stacks_run {X} (m : SkM X) s x t (w : App) : m s = Done x t -> in_stacks m (s, w) = Done x (t, w).
Proof. intros E. unfold in_stacks. cbn. by rewrite E. Qed.

Definition free_one (w : App) (x : Z) : App := if x =? 0 then w else frees x w.

(** The elements are freed in their order. *)
Definition free_list (l : list Z) (w : App) : App := foldl free_one w l.

Lemma free_func_run x s w : (if negb (x =? 0) then free_func x else ret tt) (s, w) = Done tt (s, free_one w x).
Proof. unfold free_one. destruct (x =? 0); cbn [negb]; [done|apply free_quiet]. Qed.

Lemma pop_free_run s p a k b : opened s p a k b -> forall fuel i w, 0 <= i <= zlen (elems a) -> zlen (elems a) - i < Z.of_nat fuel ->
  pop_free_loop free_func fuel p i (s, w) = Done tt (s, free_list (drop (Z.to_nat i) (elems a)) w).
Proof.
  intros Hs. induction fuel as [|fuel IH]; intros i w Hi Hf; cbn [pop_free_loop]; [lia|].
  rewrite (bind_done _ _ _ _ _ (in_stacks_run _ s _ _ w (get_sk_spec s p k (p_stack _ _ _ _ _ Hs)))), (o_num _ _ _ (p_ok _ _ _ _ _ Hs)).
  destruct (Z.ltb_spec i (zlen (elems a))) as [Hlt|].
  - destruct (lookup_lt_is_Some_2 (elems a) (Z.to_nat i)) as [x Ex]; [unfold zlen in *; lia|].
    rewrite (bind_done _ _ _ _ _ (in_stacks_run _ s _ _ w (load_elem s p a k b i x Hs ltac:(lia) Ex))).
    rewrite (bind_done _ _ _ _ _ (free_func_run x s w)), IH by lia.
    by rewrite (drop_S (elems a) x (Z.to_nat i) Ex), Z.add_1_r, Z2Nat.inj_succ by lia.
  - by rewrite drop_ge by (unfold zlen in *; lia).
Qed.

(** The copies of [l], after those of [pre]; a copy that fails frees the copies
    before it. *)
Fixpoint copy_list (pre l : list Z) (w : App) : option (list Z) * App :=
  match l with
  | [] => (Some pre, w)
  | x :: l =>
      if x =? 0 then copy_list (pre ++ [0]) l w
      else
        let (y, w) := copies x w in
        if y =? 0 then (None, free_list pre w) else copy_list (pre ++ [y]) l w
  end.

Lemma free_copies_run s r a k b : opened s r a k b -> forall n j w, 0 <= j -> j + Z.of_nat n <= zlen (elems a) ->
  free_copies free_func n r j (s, w) = Done tt (s, free_list (take n (drop (Z.to_nat j) (elems a))) w).
Proof.
  intros Hs. induction n as [|n IH]; intros j w Hj Hn; cbn [free_copies]; [done|].
  rewrite (bind_done _ _ _ _ _ (in_stacks_run _ s _ _ w (get_sk_spec s r k (p_stack _ _ _ _ _ Hs)))).
  destruct (lookup_lt_is_Some_2 (elems a) (Z.to_nat j)) as [x Ex]; [unfold zlen in *; lia|].
  rewrite (bind_done _ _ _ _ _ (in_stacks_run _ s _ _ w (load_elem s r a k b j x Hs Hj Ex))).
  rewrite (bind_done _ _ _ _ _ (free_func_run x s w)), IH by lia.
  by rewrite (drop_S (elems a) x (Z.to_nat j) Ex), Z.add_1_r, Z2Nat.inj_succ by lia.
Qed.

(** A store into the array is an [sk_set]. *)
Lemma store_elem s A r a i y : rep s A -> A !! r = Some a -> 0 <= i < zlen (elems a) ->
  exists k s', stacks s !! r = Some k /\ store (data k) i y s = Done tt s' /\
    rep s' (<[r := mk_astack (<[Z.to_nat i := y]> (elems a)) (flag a) (order a)]> A).
Proof.
  intros R Ea Hi. destruct (open_stack s A r a R Ea) as (k & b & Hs). pose proof (p_ok _ _ _ _ _ Hs) as Hok.
  pose proof (p_len _ _ _ _ _ Hs) as Hlen. exists k.
  destruct (set_run s A r a R Ea i y ltac:(lia)) as (x & s' & a' & E & R' & Hx). rewrite (proj2 (Z.ltb_lt _ _)) in Hx by lia.
  injection Hx as -> ->. exists s'. split; [apply Hs|]. split; [|done]. unfold sk_set in E.
  rewrite (proj2 (Z.eqb_neq r 0) (p_not_null _ _ _ _ _ Hs)), (bind_done _ _ _ _ _ (get_sk_spec s r k (p_stack _ _ _ _ _ Hs))) in E.
  rewrite (o_num _ _ _ Hok), (proj2 (Z.leb_gt _ _)) in E by lia.
  unfold bind, ret in E. destruct (store (data k) i y s) as [[] t| | |]; [by injection E as ->|done..].
Qed.

Lemma copy_run A r f c : A !! r = None -> forall l pre s w fuel,
  rep s (<[r := mk_astack (pre ++ l) f c]> A) -> zlen l < Z.of_nat fuel ->
  exists s', copy_loop free_func copy_func fuel r (zlen pre) (s, w) =
      Done (match fst (copy_list pre l w) with Some _ => true | None => false end) (s', snd (copy_list pre l w)) /\
    rep s' (match fst (copy_list pre l w) with Some k => <[r := mk_astack k f c]> A | None => A end).
Proof.
  intros Hr. induction l as [|x l IH]; intros pre s w fuel R Hf; (destruct fuel as [|fuel]; [zlen_pos; lia|]); cbn [copy_loop copy_list];
    destruct (open_stack s _ r _ R (lookup_insert_eq _ _ _)) as (k & b & Hs); set (a := mk_astack _ f c) in *;
    rewrite (bind_done _ _ _ _ _ (in_stacks_run _ s _ _ w (get_sk_spec s r k (p_stack _ _ _ _ _ Hs)))), (o_num _ _ _ (p_ok _ _ _ _ _ Hs)).
  - unfold a in *. cbn [elems]. rewrite app_nil_r, Z.ltb_irrefl in *. exists s. split; [done|]. cbn. exact R.
  - assert (zlen (elems a) = zlen pre + 1 + zlen l) as Hz by (unfold a; cbn [elems]; zl). zlen_pos.
    rewrite (proj2 (Z.ltb_lt (zlen pre) (zlen (elems a)))) by lia. rewrite zlen_cons in Hf.
    assert (elems a !! Z.to_nat (zlen pre) = Some x) as Ex by (rewrite zlen_to_nat; by apply list_lookup_middle).
    rewrite (bind_done _ _ _ _ _ (in_stacks_run _ s _ _ w (load_elem s r a k b (zlen pre) x Hs ltac:(lia) Ex))).
    assert (forall y, zlen (pre ++ [y]) = zlen pre + 1) as Hsnoc by (intros y; zl).
    destruct (Z.eqb_spec x 0) as [->|Hx].
    + rewrite <- (Hsnoc 0). apply IH; [|lia]. rewrite <- app_assoc. exact R.
    + rewrite (bind_done _ _ _ _ _ (copy_quiet x s w)).
      rewrite (bind_done _ _ _ _ _ (in_stacks_run _ s _ _ _ (get_sk_spec s r k (p_stack _ _ _ _ _ Hs)))).
      destruct (copies x w) as [y w1]. cbn [fst snd].
      destruct (store_elem s _ r a (zlen pre) y R (lookup_insert_eq _ _ _) ltac:(lia)) as (k' & s1 & Ek & E1 & R1).
      assert (k' = k) as -> by (pose proof (p_stack _ _ _ _ _ Hs); congruence).
      rewrite (bind_done _ _ _ _ _ (in_stacks_run _ s _ _ w1 E1)). rewrite insert_insert_eq, zlen_to_nat in R1.
      assert (<[length pre := y]> (elems a) = pre ++ y :: l) as El.
      { unfold a. cbn [elems]. rewrite insert_app_r_alt, Nat.sub_diag by lia. done. }
      rewrite El in R1. cbn [flag order a] in R1. destruct (Z.eqb_spec y 0) as [->|Hy].
      * destruct (open_stack s1 _ r _ R1 (lookup_insert_eq _ _ _)) as (k1 & b1 & Hs1).
        rewrite zlen_to_nat, (bind_done _ _ _ _ _ (free_copies_run s1 r _ k1 b1 Hs1 (length pre) 0 w1 ltac:(lia)
          ltac:(cbn [elems]; rewrite zlen_app; zlen_pos; unfold zlen in *; lia))).
        cbn [elems]. change (drop (Z.to_nat 0) (pre ++ 0 :: l)) with (pre ++ 0 :: l). rewrite take_app_length.
        destruct (sk_free_run s1 _ r _ R1 (lookup_insert_eq _ _ _)) as (s2 & E2 & R2).
        rewrite (bind_done _ _ _ _ _ (in_stacks_run _ s1 _ _ _ E2)). exists s2. split; [done|].
        rewrite delete_insert_eq, delete_id in R2 by done. exact R2.
      * rewrite <- (Hsnoc y). apply IH; [|lia]. rewrite <- app_assoc. exact R1.
Qed.

(** C19: [sk_pop_free_ex] frees each element that is not null once, in order, and
    then the stack; [sk_deep_copy] gives a new stack of the copies, with the same
    flag and order, and leaves the old one; when a copy fails it frees the copies
    made before it and nothing else, and the stacks are what they were. *)
Theorem elements_freed_and_copied fuel s A p a w :
  rep s A -> A !! p = Some a -> zlen (elems a) < Z.of_nat fuel ->
  (exists s', sk_pop_free_ex free_func fuel p (s, w) = Done tt (s', free_list (elems a) w) /\ rep s' (delete p A)) /\
  (exists r s' w', sk_deep_copy free_func copy_func fuel p (s, w) = Done r (s', w') /\
    ((r = 0 /\ rep s' A /\ (w' = w \/ copy_list [] (elems a) w = (None, w'))) \/
     (A !! r = None /\ exists l, copy_list [] (elems a) w = (Some l, w') /\ rep s' (<[r := mk_astack l (flag a) (order a)]> A)))).
Proof.
  intros R Ea Hf. zlen_pos. split.
  - destruct (open_stack s A p a R Ea) as (k & b & Hs). unfold sk_pop_free_ex. rewrite (proj2 (Z.eqb_neq p 0) (p_not_null _ _ _ _ _ Hs)).
    rewrite (bind_done _ _ _ _ _ (pop_free_run s p a k b Hs fuel 0 w ltac:(lia) ltac:(lia))).
    destruct (sk_free_run s A p a R Ea) as (s' & E & R'). exists s'. by rewrite (in_stacks_run _ s _ _ _ E).
  - unfold sk_deep_copy. destruct (dup_run pointers s A p a R Ea) as (r & s1 & E & Hr). rewrite (bind_done _ _ _ _ _ (in_stacks_run _ s _ _ w E)).
    destruct Hr as [[-> R1]|(Hn & Hr & R1)]; [exists 0, s1, w; split; [done|]; left; by auto|]. rewrite (proj2 (Z.eqb_neq r 0) Hr).
    assert (a = mk_astack ([] ++ elems a) (flag a) (order a)) as Ha by (by destruct a). rewrite Ha in R1.
    destruct (copy_run A r (flag a) (order a) Hn (elems a) [] s1 w fuel R1 Hf) as (s2 & E2 & R2).
    change (zlen []) with 0 in E2. rewrite (bind_done _ _ _ _ _ E2). destruct (copy_list [] (elems a) w) as [[l|] w'].
    + exists r, s2, w'. split; [done|]. right. split; [done|]. by exists l.
    + exists 0, s2, w'. split; [done|]. left. by auto.
Qed.
End Quiet.
End Theorems.

(** ** A sample: 64 stacks, elements that are compared as numbers *)
#[export] Instance sample_pointers : Libc Z := sample_libc 8 0.
#[export] Instance sample_pointers_laws : LibcLaws Z := sample_libc_laws 8 0 ltac:(lia).
Lemma sample_width : cell_width (T := Z) = 8.
Proof. reflexivity. Qed.
#[export] Instance sample_stack_malloc : StackMalloc := {| malloc_stack m := first_free m |}.
#[export] Instance sample_stack_malloc_laws : StackMallocLaws.
Proof. constructor. intros m p E. destruct (first_free_fresh m p E). split; [lia|done]. Qed.
Definition before (cmp : Z -> Z -> Z) (x y : Z) : Prop := cmp x y <= 0.
#[export] Instance before_dec cmp : RelDecision (before cmp).
Proof. intros x y. unfold before. apply _. Defined.
#[export] Instance sample_qsort : Qsort := {| qsort cmp := merge_sort (before cmp) |}.
#[export] Instance sample_qsort_laws : QsortLaws.
Proof.
  constructor; intros cmp l [Hsym Htrans]; unfold qsort, sample_qsort.
  - apply merge_sort_Permutation.
  - assert (Transitive (before cmp)) by (intros x y z; apply Htrans).
    assert (Total (before cmp)) by (intros x y; unfold before; pose proof (Hsym x y); lia).
    by apply (StronglySorted_merge_sort (before cmp)).
Qed.

Definition by_number (_ x y : Z) : Z := x - y.
Lemma numbers_preorder c : c <> 0 -> preorder (by_number c).
Proof. unfold by_number. constructor; lia. Qed.

Definition sample_sk : sk_state := mk_sk_state {[16 := mk_stack 3 16 true 4 1]} {[16 := mk_blk 32 [10; 20; 30; 0]]}.
Definition sample_lists : gmap Z astack := {[16 := mk_astack [10; 20; 30] true 1]}.
Lemma sample_rep : rep sample_sk sample_lists.
Proof.
  apply (rep_add (mk_sk_state ∅ ∅) ∅ 16 (mk_stack 3 16 true 4 1) (mk_blk 32 [10; 20; 30; 0])); [apply rep_empty|done..|].
  by constructor.
Qed.

(** Pushes two elements on a new stack and gets the first of them. *)
Definition sample_caller : caller sk_op sk_result :=
  Calls (New 1) (fun r =>
    match r with
    | Val p =>
        if p =? 0 then Stop
        else Calls (On p (Push 7)) (fun _ => Calls (On p (Push 5)) (fun _ => Calls (On p Sort) (fun _ => Calls (On p (Find 7)) (fun _ => Stop))))
    | _ => Stop
    end).

(** Frees are written down, a copy of [x] is [x + 1000], and [20] has none. *)
Definition log_free (x : Z) (w : list Z) : list Z := w ++ [x].
Definition log_copy (x : Z) (w : list Z) : Z * list Z := if x =? 20 then (0, w) else (x + 1000, w).
Definition call_log_free (x : Z) : M (sk_state * list Z) unit := fun t => Done tt (fst t, log_free x (snd t)).
Definition call_log_copy (x : Z) : M (sk_state * list Z) Z := fun t => Done (fst (log_copy x (snd t))) (fst t, snd (log_copy x (snd t))).

Lemma step_on_inv cmp A p o r A' : sk_step cmp A (On p o) r A' -> o <> Free -> o <> Dup -> p <> 0 ->
  exists a a', A !! p = Some a /\ on_step cmp a o r a' /\ A' = <[p := a']> A.
Proof. intros Hst H1 H2 H3. inversion Hst; subst; try done. by exists a, a'. Qed.

Lemma sample_careful : careful (sk_step by_number) (callable 10) ∅ sample_caller.
Proof.
  split; [done|]. intros r A1 Hst. inversion Hst as [c p _ Hp E1 E2 E3|c E1 E2 E3| | | | |]; subst; cbn; [|done].
  destruct (Z.eqb_spec p 0); [done|].
  assert (forall A n a, A !! p = Some a -> zlen (elems a) <= n -> n <= 3 -> forall o, index_ok o -> callable 10 A (On p o)) as Hok.
  { intros A m a Ea Hn Hm o Ho. split; [done|]. right. exists a. split; [done|]. lia. }
  pose proof (lookup_insert_eq (∅ : gmap Z astack) p (mk_astack [] false 1)) as E1.
  split; [by apply (Hok _ 0 _ E1)|]. intros r2 A2 (a1 & a2 & Ea & Hst2 & ->)%step_on_inv; [|done..].
  rewrite E1 in Ea. injection Ea as <-.
  assert (zlen (elems a2) <= 1) as H2 by (inversion Hst2; done).
  pose proof (lookup_insert_eq (<[p := mk_astack [] false 1]> (∅ : gmap Z astack)) p a2) as E2.
  split; [by apply (Hok _ 1 _ E2)|]. intros r3 A3 (b2 & a3 & Ea & Hst3 & ->)%step_on_inv; [|done..].
  rewrite E2 in Ea. injection Ea as <-.
  assert (zlen (elems a3) <= 2) as H3 by (inversion Hst3; subst; cbn; zl).
  match goal with |- context [<[p := a3]> ?m] => pose proof (lookup_insert_eq m p a3) as E3 end.
  split; [by apply (Hok _ 2 _ E3)|]. intros r4 A4 (b3 & a4 & Ea & Hst4 & ->)%step_on_inv; [|done..].
  rewrite E3 in Ea. injection Ea as <-.
  assert (zlen (elems a4) <= 2) as H4.
  { inversion Hst4 as [| | | | | | | | | | | | | |Hs|l Hs Hp4 Ho| |]; subst; [done|]. cbn. unfold zlen in *. by rewrite (Permutation_length Hp4). }
  match goal with |- context [<[p := a4]> ?m] => pose proof (lookup_insert_eq m p a4) as E4 end.
  split; [by apply (Hok _ 2 _ E4)|]. done.
Qed.

(** ** Witnesses *)
Lemma stack_callers_refine_witness :
  (exists rs s' A', run_caller (run_op by_number 10) sample_caller (mk_sk_state ∅ ∅) = Done rs s' /\ caller_steps (sk_step by_number) ∅ sample_caller rs A' /\ rep s' A') /\
  exists s', run_caller (run_op by_number 10) sample_caller (mk_sk_state ∅ ∅) = Done [Val 16; Val 1; Val 2; Unit; Index (Some 1)] s'.
Proof.
  split; [|eexists; vm_compute; reflexivity].
  exact (stack_callers_refine sample_width by_number numbers_preorder 10 sample_caller _ ∅ rep_empty sample_careful).
Defined.

Lemma sk_find_gives_first_witness :
  sk_find by_number 10 16 20 sample_sk = Done (Some 1) sample_sk /\
  exists r s' A', run_op by_number 10 (On 16 (Push 5)) sample_sk = Done r s' /\ rep s' A' /\
    map_Forall (fun _ => truthful by_number) A'.
Proof.
  destruct (sk_find_gives_first sample_width by_number numbers_preorder 10 sample_sk sample_lists sample_rep) as [Hfind Hop].
  { apply map_Forall_singleton. intros _. repeat constructor; done. }
  split; [by apply (Hfind 16 (mk_astack [10; 20; 30] true 1) 20)|].
  apply Hop; [|intros []]. split; [done|]. right. by exists (mk_astack [10; 20; 30] true 1).
Defined.

Lemma elements_freed_and_copied_witness :
  (exists s', sk_pop_free_ex call_log_free 10 16 (sample_sk, []) = Done tt (s', [10; 20; 30])) /\
  (exists s', sk_deep_copy call_log_free call_log_copy 10 16 (sample_sk, []) = Done 0 (s', [1010]) /\ rep s' sample_lists).
Proof.
  destruct (elements_freed_and_copied (App := list Z) sample_width log_free log_copy call_log_free call_log_copy ltac:(done) ltac:(done)
    10 sample_sk sample_lists 16 (mk_astack [10; 20; 30] true 1) [] sample_rep eq_refl eq_refl) as [(s1 & E1 & _) (r & s2 & w & E2 & Hr)].
  split; [by exists s1|]. 
  assert (r = 0 /\ w = [1010]) as [-> ->].
  { revert E2. vm_compute. by intros [= <- _ <-]. }
  exists s2. split; [exact E2|]. destruct Hr as [(_ & R & _)|(Hn & l & E & _)]; [exact R|]. vm_compute in E. discriminate E.
Defined.

(** An [sk_set] on a stack that is flagged as sorted leaves the flag, and the
    binary search then misses elements that are there. *)
Lemma set_hides_elements :
  match (sk_set 16 0 40;;; let* x := sk_value 16 1 in let* i := sk_find by_number 10 16 20 in let* j := sk_find by_number 10 16 40 in
         let* f := sk_is_sorted 16 in ret (x, i, j, f)) sample_sk with
  | Done r _ => r = (20, None, None, true)
  | _ => False
  end.
Proof. vm_compute. reflexivity. Qed.
