(* ===== verification/Lhash.v ===== *)
(** BoringSSL, the hash table of [crypto/lhash/lhash.c]: chains of items linked
    by pointers, an array of buckets that grows and shrinks, and the iteration
    during which it does neither. *)
From S2P Require Import Prelude.

(** ** Data *)
(** [LHASH_ITEM]; the elements are opaque pointers. *)
Record lhash_item : Type := mk_item { item_data : Z; item_next : Z; item_hash : Z }.

Definition set_data (v : Z) (it : lhash_item) : lhash_item := mk_item v (item_next it) (item_hash it).
Definition set_next (v : Z) (it : lhash_item) : lhash_item := mk_item (item_data it) v (item_hash it).

(** [struct lhash_st]; [comp] and [hash] are function pointers. *)
Record lhash : Type := mk_lhash {
  num_items : Z;
  buckets : list Z;
  num_buckets : Z;
  callback_depth : Z;
  comp : Z;
  hash : Z
}.

Definition with_num_items (v : Z) (lh : lhash) : lhash :=
  mk_lhash v (buckets lh) (num_buckets lh) (callback_depth lh) (comp lh) (hash lh).
Definition with_buckets (v : list Z) (n : Z) (lh : lhash) : lhash :=
  mk_lhash (num_items lh) v n (callback_depth lh) (comp lh) (hash lh).
Definition with_depth (v : Z) (lh : lhash) : lhash :=
  mk_lhash (num_items lh) (buckets lh) (num_buckets lh) v (comp lh) (hash lh).

Definition sizeof_LHASH : Z := 48.

(** A table that is not null, and the memory of its items. *)
Record lh_state : Type := mk_lh_state { lh : lhash; items : gmap Z lhash_item }.

Definition L : Type -> Type := M lh_state.

Definition get_lh {A} (f : lhash -> A) : L A := gets (fun s => f (lh s)).
Definition upd_lh (f : lhash -> lhash) : L unit := modify (fun s => mk_lh_state (f (lh s)) (items s)).

(** [*p], and assignments through it. *)
Definition get_item (p : Z) : L lhash_item := fun s => of_option UbMem (items s !! p) s.
Definition put_item (p : Z) (it : lhash_item) : L unit := modify (fun s => mk_lh_state (lh s) (<[p := it]> (items s))).
Definition upd_item (p : Z) (f : lhash_item -> lhash_item) : L unit := let* it := get_item p in put_item p (f it).

(** A [LHASH_ITEM **]: an element of [buckets], or the [next] of an item. *)
Inductive place : Set := bucket (i : Z) | next_of (p : Z).

Definition get_bucket (i : Z) : L Z := let* bs := get_lh buckets in of_option UbArray (if i <? 0 then None else bs !! Z.to_nat i).

Definition get_place (r : place) : L Z :=
  match r with bucket i => get_bucket i | next_of p => let* it := get_item p in ret (item_next it) end.

Definition put_place (r : place) (v : Z) : L unit :=
  match r with
  | bucket i => get_bucket i;;; upd_lh (fun l => with_buckets (<[Z.to_nat i := v]> (buckets l)) (num_buckets l) l)
  | next_of p => upd_item p (set_next v)
  end.

Definition kMinNumBuckets : Z := 16.
Definition kMaxAverageChainLength : Z := 2.
Definition kMinAverageChainLength : Z := 1.
Definition UINT_MAX : Z := 4294967295.

(** [OPENSSL_malloc]: of an item, with the address; of an array of that many
    bytes, whether there is memory. *)
Class Malloc : Type := {
  malloc_item : gmap Z lhash_item -> option Z;
  malloc_bytes : Z -> bool
}.

Section Table.
Context `{Malloc}.

(** The calls of the functions of a table through their helpers: the hash of an
    element; the comparison of two elements. *)
Variable call_hash_func : Z -> Z -> Z.
Variable call_cmp_func : Z -> Z -> Z -> Z.

(** ** The functions *)
Definition lh_new (hash comp : Z) : option lhash :=
  if malloc_bytes sizeof_LHASH && malloc_bytes (8 * kMinNumBuckets)
  then Some (mk_lhash 0 (replicate (Z.to_nat kMinNumBuckets) 0) kMinNumBuckets 0 comp hash) else None.

Definition lh_num_items : L Z := get_lh num_items.

(** The loop of [get_next_ptr_and_hash] and [get_next_ptr_by_key]; [eq] is the
    comparison with the key. *)
Fixpoint find_loop (fuel : nat) (eq : Z -> bool) (r : place) : L place :=
  match fuel with
  | O => out_of_fuel
  | S fuel =>
      let* cur := get_place r in
      if cur =? 0 then ret r
      else
        let* it := get_item cur in
        if eq (item_data it) then ret r else find_loop fuel eq (next_of cur)
  end.

(** [hash % lh->num_buckets] *)
Definition bucket_of (h : Z) : L place :=
  let* n := get_lh num_buckets in if n =? 0 then undef UbDiv else ret (bucket (h mod n)).

Definition get_next_ptr_and_hash (fuel : nat) (data : Z) : L (place * Z) :=
  let* f := get_lh hash in
  let h := u32 (call_hash_func f data) in
  let* c := get_lh comp in
  let* r := bucket_of h in
  let* r := find_loop fuel (fun d => call_cmp_func c d data =? 0) r in
  ret (r, h).

Definition get_next_ptr_by_key (fuel : nat) (cmp_key : Z -> Z) (key_hash : Z) : L place :=
  let* r := bucket_of key_hash in
  find_loop fuel (fun d => cmp_key d =? 0) r.

(** [*next_ptr == NULL ? NULL : ( *next_ptr)->data] *)
Definition data_at (r : place) : L Z :=
  let* p := get_place r in
  if p =? 0 then ret 0 else let* it := get_item p in ret (item_data it).

Definition lh_retrieve (fuel : nat) (data : Z) : L Z :=
  let* r := get_next_ptr_and_hash fuel data in data_at (fst r).

Definition lh_retrieve_key (fuel : nat) (cmp_key : Z -> Z) (key_hash : Z) : L Z :=
  let* r := get_next_ptr_by_key fuel cmp_key key_hash in data_at r.

(** *** Resizing *)
(** The inner loop of [lh_rebucket]: the items from [cur] on go to the front of
    their new chains. *)
Fixpoint move_chain (fuel : nat) (n cur : Z) (new : list Z) : L (list Z) :=
  match fuel with
  | O => out_of_fuel
  | S fuel =>
      if cur =? 0 then ret new
      else
        let* it := get_item cur in
        let i := item_hash it mod n in
        let* old := of_option UbArray (new !! Z.to_nat i) in
        put_item cur (set_next old it);;;
        move_chain fuel n (item_next it) (<[Z.to_nat i := cur]> new)
  end.

Fixpoint move_buckets (fuel : nat) (n : Z) (bs : list Z) (new : list Z) : L (list Z) :=
  match bs with
  | [] => ret new
  | b :: bs => let* new := move_chain fuel n b new in move_buckets fuel n bs new
  end.

Definition lh_rebucket (fuel : nat) (new_num_buckets : Z) : L unit :=
  let alloc_size := u64 (8 * new_num_buckets) in
  if negb (alloc_size / 8 =? new_num_buckets) then ret tt
  else if negb (malloc_bytes alloc_size) then ret tt
  else
    let* n := get_lh num_buckets in
    let* bs := get_lh buckets in
    let* new := move_buckets fuel new_num_buckets (take (Z.to_nat n) bs) (replicate (Z.to_nat new_num_buckets) 0) in
    upd_lh (with_buckets new new_num_buckets).

Definition lh_maybe_resize (fuel : nat) : L unit :=
  let* d := get_lh callback_depth in
  if 0 <? d then ret tt
  else
    let* n := get_lh num_buckets in
    let* k := get_lh num_items in
    if n <? kMinNumBuckets then undef UbAssert
    else
      let avg := k / n in
      if kMaxAverageChainLength <? avg then
        let new := u64 (n * 2) in
        if n <? new then lh_rebucket fuel new else ret tt
      else if (avg <? kMinAverageChainLength) && (kMinNumBuckets <? n) then
        let new := n / 2 in
        lh_rebucket fuel (if new <? kMinNumBuckets then kMinNumBuckets else new)
      else ret tt.

(** *** Insertion and deletion *)
(** The result, and [*old_data]. *)
Definition lh_insert (fuel : nat) (data : Z) : L (bool * Z) :=
  let* r := get_next_ptr_and_hash fuel data in
  let* p := get_place (fst r) in
  if negb (p =? 0) then
    let* it := get_item p in
    upd_item p (set_data data);;;
    ret (true, item_data it)
  else
    let* m := gets items in
    match malloc_item m with
    | None => ret (false, 0)
    | Some p =>
        put_item p (mk_item data 0 (snd r));;;
        put_place (fst r) p;;;
        upd_lh (fun l => with_num_items (u64 (num_items l + 1)) l);;;
        lh_maybe_resize fuel;;;
        ret (true, 0)
    end.

Definition lh_delete (fuel : nat) (data : Z) : L Z :=
  let* r := get_next_ptr_and_hash fuel data in
  let* p := get_place (fst r) in
  if p =? 0 then ret 0
  else
    let* it := get_item p in
    put_place (fst r) (item_next it);;;
    modify (fun s => mk_lh_state (lh s) (delete p (items s)));;;
    upd_lh (fun l => with_num_items (u64 (num_items l - 1)) l);;;
    lh_maybe_resize fuel;;;
    ret (item_data it).

(** *** Iteration *)
Definition in_table {App A} (m : L A) : M (lh_state * App) A := fun s =>
  match m (fst s) with
  | Done a t => Done a (t, snd s)
  | Fail t => Fail (t, snd s)
  | Undef u => Undef u
  | OutOfFuel => OutOfFuel
  end.

Section Doall.
Context {App : Type}.
Variable func : Z -> M (lh_state * App) unit.

Fixpoint doall_chain (fuel : nat) (cur : Z) : M (lh_state * App) unit :=
  match fuel with
  | O => out_of_fuel
  | S fuel =>
      if cur =? 0 then ret tt
      else
        let* it := in_table (get_item cur) in
        func (item_data it);;;
        doall_chain fuel (item_next it)
  end.

(** The buckets from [i] on; the array may change between them. *)
Fixpoint doall_buckets (turns fuel : nat) (i : Z) : M (lh_state * App) unit :=
  match turns with
  | O => out_of_fuel
  | S turns =>
      let* n := in_table (get_lh num_buckets) in
      if i <? n then
        let* cur := in_table (get_bucket i) in
        doall_chain fuel cur;;;
        doall_buckets turns fuel (i + 1)
      else ret tt
  end.

Definition lh_doall_arg (turns fuel : nat) : M (lh_state * App) unit :=
  in_table (upd_lh (fun l => if callback_depth l <? UINT_MAX then with_depth (callback_depth l + 1) l else l));;;
  doall_buckets turns fuel 0;;;
  in_table (upd_lh (fun l => if callback_depth l <? UINT_MAX then with_depth (callback_depth l - 1) l else l));;;
  in_table (lh_maybe_resize fuel).
End Doall.

(** *** The end of a table *)
(** The items are freed; the array and the table go after them. *)
Fixpoint free_chain (fuel : nat) (cur : Z) : L unit :=
  match fuel with
  | O => out_of_fuel
  | S fuel =>
      if cur =? 0 then ret tt
      else
        let* it := get_item cur in
        modify (fun s => mk_lh_state (lh s) (delete cur (items s)));;;
        free_chain fuel (item_next it)
  end.

Fixpoint free_buckets (fuel : nat) (bs : list Z) : L unit :=
  match bs with
  | [] => ret tt
  | b :: bs => free_chain fuel b;;; free_buckets fuel bs
  end.

Definition lh_free (fuel : nat) : L unit :=
  let* n := get_lh num_buckets in
  let* bs := get_lh buckets in
  free_buckets fuel (take (Z.to_nat n) bs).
End Table.
