(* ===== verification/LhashProofs.v ===== *)
(** BoringSSL, the hash table: the chains of the memory represent lists of
    elements, a search splits a chain at the element, an assignment through the
    place it returns splices the chain there, and a rebucketing deals the same
    items out again. *)
From S2P Require Import Prelude.
From S2P Require Import Lhash.
#[local] Set Warnings "-clear-no-such-hyp".

(** An item of a chain: its address, and its element. *)
Abbreviation entry := (Z * Z)%type.

Lemma bind_get_lh {A B} (f : lhash -> A) (k : A -> L B) s : bind (get_lh f) k s = k (f (lh s)) s.
Proof. done. Qed.

Lemma bind_upd_lh {B} f (k : unit -> L B) s : bind (upd_lh f) k s = k tt (mk_lh_state (f (lh s)) (items s)).
Proof. done. Qed.

(** ** Chains *)
Section Chain.
(** The hash of each element. *)
Variable hs : Z -> Z.
Implicit Types (m : gmap Z lhash_item) (es ns : list entry) (cs : list (list entry)).

(** From [p] on, the items are those of [es], with the hashes of their elements. *)
Fixpoint chain m (p : Z) es : Prop :=
  match es with
  | [] => p = 0
  | (q, d) :: es => p = q /\ q <> 0 /\ exists nx, m !! q = Some (mk_item d nx (hs d)) /\ chain m nx es
  end.

(** The address of the first item. *)
Definition head_of es : Z := match es with [] => 0 | (q, _) :: _ => q end.

(** The place that points behind the items of [es]. *)
Fixpoint end_of (r : place) es : place :=
  match es with [] => r | (q, _) :: es => end_of (next_of q) es end.

(** The items before the first that equals the key, and those from it on. *)
Fixpoint before (eq : Z -> bool) es : list entry :=
  match es with [] => [] | e :: es => if eq e.2 then [] else e :: before eq es end.
Fixpoint from (eq : Z -> bool) es : list entry :=
  match es with [] => [] | e :: k => if eq e.2 then es else from eq k end.

Lemma before_from eq es : before eq es ++ from eq es = es.
Proof. induction es as [|e es IH]; [done|]. cbn. destruct (eq e.2); cbn; [done|by rewrite IH]. Qed.

Lemma from_nil eq es : from eq es = [] <-> forall e, e ∈ es -> eq e.2 = false.
Proof.
  induction es as [|e es IH]; cbn; [set_solver|]. destruct (eq e.2) eqn:E.
  - split; [done|]. intros Hn. rewrite Hn in E by (by left). done.
  - rewrite IH. split; [|set_solver]. intros Hn e' [->|]%elem_of_cons; auto.
Qed.

Lemma from_cons eq es e k : from eq es = e :: k -> eq e.2 = true.
Proof.
  induction es as [|e' es IH]; cbn; [done|]. destruct (eq e'.2) eqn:E; [|auto]. by intros [= -> _].
Qed.

Lemma chain_head m p es : chain m p es -> p = head_of es.
Proof. destruct es as [|[q d] es]; cbn; tauto. Qed.

Lemma chain_ext m m' p es : (forall q, q ∈ es.*1 -> m' !! q = m !! q) -> chain m p es -> chain m' p es.
Proof.
  revert p. induction es as [|[q d] es IH]; [done|]. cbn. intros p E (-> & Hq & nx & Em & Hc).
  split; [done|]. split; [done|]. exists nx. split; [by rewrite E by (by left)|].
  apply IH; [|done]. intros q' Hq'. apply E. by right.
Qed.

Lemma chain_insert m p es q it : q ∉ es.*1 -> chain m p es -> chain (<[q := it]> m) p es.
Proof. intros Hq. apply chain_ext. intros q' Hq'. apply lookup_insert_ne. by intros ->. Qed.

Lemma chain_delete m p es q : q ∉ es.*1 -> chain m p es -> chain (delete q m) p es.
Proof. intros Hq. apply chain_ext. intros q' Hq'. apply lookup_delete_ne. by intros ->. Qed.

Lemma chains_ext m m' bs cs :
  (forall q, q ∈ (concat cs).*1 -> m' !! q = m !! q) -> Forall2 (chain m) bs cs -> Forall2 (chain m') bs cs.
Proof.
  intros E Hf. induction Hf as [|b c bs cs Hc Hf IH]; [constructor|].
  cbn in E. rewrite fmap_app in E. constructor.
  - eapply chain_ext; [|done]. intros q Hq. apply E. set_solver.
  - apply IH. intros q Hq. apply E. set_solver.
Qed.

Lemma chain_item m p es e : chain m p es -> e ∈ es -> e.1 <> 0 /\ exists nx, m !! e.1 = Some (mk_item e.2 nx (hs e.2)).
Proof.
  revert p. induction es as [|[q d] es IH]; [set_solver|]. cbn. intros p (-> & Hq & nx & E & Hc) [->|He]%elem_of_cons.
  - eauto.
  - eauto.
Qed.

Lemma chains_item m bs cs e :
  Forall2 (chain m) bs cs -> e ∈ concat cs -> e.1 <> 0 /\ exists nx, m !! e.1 = Some (mk_item e.2 nx (hs e.2)).
Proof.
  intros Hf. induction Hf as [|b c bs cs Hc Hf IH]; cbn; [set_solver|]. intros [He|He]%elem_of_app; [by eapply chain_item|auto].
Qed.

(** ** Reading *)
Lemma get_item_run p s it : items s !! p = Some it -> get_item p s = Done it s.
Proof. intros E. unfold get_item. by rewrite E. Qed.

Lemma put_item_run p it s : put_item p it s = Done tt (mk_lh_state (lh s) (<[p := it]> (items s))).
Proof. done. Qed.

Lemma upd_item_run p f s it :
  items s !! p = Some it -> upd_item p f s = Done tt (mk_lh_state (lh s) (<[p := f it]> (items s))).
Proof. intros E. unfold upd_item. by rewrite (bind_done _ _ _ _ _ (get_item_run _ _ _ E)). Qed.

(** The pointer that the place behind [bef] holds is that of the rest. *)
Lemma end_of_get r s bef es :
  (exists p, get_place r s = Done p s /\ chain (items s) p (bef ++ es)) ->
  get_place (end_of r bef) s = Done (head_of es) s.
Proof.
  revert r. induction bef as [|[q d] bef IH]; intros r (p & Hr & Hc).
  - cbn in *. by rewrite Hr, (chain_head _ _ _ Hc).
  - cbn in Hc. destruct Hc as (-> & Hq & nx & E & Hc). cbn. apply IH. exists nx. split; [|done].
    cbn. by rewrite (bind_done _ _ _ _ _ (get_item_run _ _ _ E)).
Qed.

Lemma find_loop_run fuel eq r s p es :
  get_place r s = Done p s -> chain (items s) p es -> (length es < fuel)%nat ->
  find_loop fuel eq r s = Done (end_of r (before eq es)) s.
Proof.
  revert r p fuel. induction es as [|[q d] es IH]; intros r p [|fuel] Hr Hc Hf; try (cbn in Hf; lia);
    cbn [find_loop]; rewrite (bind_done _ _ _ _ _ Hr).
  - cbn in Hc. by subst p.
  - cbn in Hc. destruct Hc as (-> & Hq & nx & E & Hc). rewrite (proj2 (Z.eqb_neq q 0) Hq).
    rewrite (bind_done _ _ _ _ _ (get_item_run _ _ _ E)). cbn [item_data before snd].
    destruct (eq d); [done|]. cbn [end_of]. apply (IH _ nx); [|done|cbn in Hf; lia].
    cbn. by rewrite (bind_done _ _ _ _ _ (get_item_run _ _ _ E)).
Qed.

(** ** Splicing *)
(** The element of an item is replaced by one of its hash. *)
Lemma chain_set_data m p bef q x k nx d :
  chain m p (bef ++ (q, x) :: k) -> NoDup (bef ++ (q, x) :: k).*1 -> m !! q = Some (mk_item x nx (hs x)) ->
  hs d = hs x -> chain (<[q := mk_item d nx (hs x)]> m) p (bef ++ (q, d) :: k).
Proof.
  revert p. induction bef as [|[q' d'] bef IH]; intros p Hc Hd Em Eh.
  - cbn in *. destruct Hc as (-> & Hq & nx' & E & Hc). apply NoDup_cons in Hd as [Hn _].
    split; [done|]. split; [done|]. exists nx. split; [by rewrite lookup_insert_eq, Eh|].
    apply chain_insert; [done|]. congruence.
  - cbn in Hc, Hd. destruct Hc as (-> & Hq' & nx' & E & Hc). apply NoDup_cons in Hd as [Hn Hd].
    cbn. split; [done|]. split; [done|]. exists nx'. split; [|by apply IH].
    rewrite lookup_insert_ne; [done|]. intros ->. apply Hn. rewrite fmap_app. set_solver.
Qed.

(** The last pointer of [bef] is written: the chain goes on with [es']. *)
Lemma splice_chain s p bef q d es v es' :
  chain (items s) p (bef ++ (q, d) :: es) -> NoDup (bef ++ [(q, d)]).*1 ->
  (forall x, x ∈ es'.*1 -> x ∉ (bef ++ [(q, d)]).*1) -> chain (items s) v es' ->
  exists it, items s !! q = Some it /\
    chain (<[q := set_next v it]> (items s)) p (bef ++ (q, d) :: es').
Proof.
  revert p. induction bef as [|[q' d'] bef IH]; intros p Hc Hd Hout Hv.
  - cbn in *. destruct Hc as (-> & Hq & nx & E & Hc). eexists. split; [done|]. split; [done|]. split; [done|].
    exists v. split; [by rewrite lookup_insert_eq|]. apply chain_insert; [|done]. intros Hin. apply (Hout q Hin). set_solver.
  - cbn in Hc, Hd. destruct Hc as (-> & Hq' & nx & E & Hc). apply NoDup_cons in Hd as [Hn Hd].
    destruct (IH nx Hc Hd) as (it & Eq & Hc'); [|done|].
    { intros x Hx Hx'. apply (Hout x Hx). cbn. by right. }
    exists it. split; [done|]. cbn. split; [done|]. split; [done|]. exists nx. split; [|done].
    rewrite lookup_insert_ne; [done|]. intros ->. apply Hn. rewrite fmap_app. set_solver.
Qed.
End Chain.

(** The table keeps its counts and functions, its items their addresses. *)
Record kept (s s' : lh_state) : Prop := {
  k_items : num_items (lh s') = num_items (lh s);
  k_num : num_buckets (lh s') = num_buckets (lh s);
  k_len : length (buckets (lh s')) = length (buckets (lh s));
  k_depth : callback_depth (lh s') = callback_depth (lh s);
  k_comp : comp (lh s') = comp (lh s);
  k_hash : hash (lh s') = hash (lh s);
  k_dom : dom (items s') = dom (items s)
}.

Lemma end_of_snoc r bef q d : end_of r (bef ++ [(q, d)]) = next_of q.
Proof. revert r. induction bef as [|[q' d'] bef IH]; intros r; [done|]. cbn. apply IH. Qed.

Lemma insert_middle {A} (l1 l2 : list A) x y : <[length l1 := y]> (l1 ++ x :: l2) = l1 ++ y :: l2.
Proof. induction l1 as [|z l1 IH]; [done|]. cbn. f_equal. apply IH. Qed.

Lemma concat_mid {A} (l1 l2 : list (list A)) x : concat (l1 ++ x :: l2) ≡ₚ x ++ concat (l1 ++ l2).
Proof.
  rewrite !concat_app. cbn. rewrite !(assoc_L (++)). f_equiv. apply Permutation_app_comm.
Qed.

Lemma get_bucket_run i s v : buckets (lh s) !! i = Some v -> get_bucket (Z.of_nat i) s = Done v s.
Proof.
  intros E. unfold get_bucket. rewrite bind_get_lh. cbv beta.
  destruct (Z.ltb_spec (Z.of_nat i) 0); [lia|]. by rewrite Nat2Z.id, E.
Qed.

Lemma app_middle {A} (l k r : list A) x : (l ++ x :: k) ++ r ≡ₚ x :: l ++ k ++ r.
Proof. by rewrite <- (assoc_L (++)), Permutation_middle. Qed.

Lemma mid_addr (l k : list entry) q x : q ∈ (l ++ (q, x) :: k).*1.
Proof. apply (list_elem_of_fmap_2 fst _ (q, x)). set_solver. Qed.

Lemma elem_concat {A} (cs : list (list A)) i c e : cs !! i = Some c -> e ∈ c -> e ∈ concat cs.
Proof. intros (l1 & l2 & -> & _)%list_elem_of_split_length He. rewrite concat_mid. set_solver. Qed.

Lemma concat_cons_at {A} (ns : list (list A)) i c e :
  ns !! i = Some c -> concat (<[i := e :: c]> ns) ≡ₚ e :: concat ns.
Proof.
  intros (l1 & l2 & -> & ->)%list_elem_of_split_length. by rewrite insert_middle, !concat_mid.
Qed.

Section Splice.
Variable hs : Z -> Z.

Lemma concat_insert {A} (cs : list (list A)) i c :
  cs !! i = Some c -> exists rest, concat cs ≡ₚ c ++ rest /\ forall c', concat (<[i := c']> cs) ≡ₚ c' ++ rest.
Proof.
  intros (l1 & l2 & -> & ->)%list_elem_of_split_length. exists (concat (l1 ++ l2)). split; [apply concat_mid|].
  intros c'. rewrite insert_middle. apply concat_mid.
Qed.

(** A change of the memory inside of one chain. *)
Lemma chains_update m m' bs cs i b es es' :
  Forall2 (chain hs m) bs cs -> NoDup (concat cs).*1 -> bs !! i = Some b -> cs !! i = Some es ->
  chain hs m' b es' -> (forall q, q ∉ es.*1 -> m' !! q = m !! q) ->
  Forall2 (chain hs m') bs (<[i := es']> cs).
Proof.
  intros Hf Hd Hb Hi Hc Hm. apply Forall2_same_length_lookup.
  rewrite length_insert. split; [by apply (Forall2_length _ _ _ Hf)|]. intros j b' es0 Ej E.
  destruct (decide (j = i)) as [->|Hne].
  - rewrite list_lookup_insert_eq in E by (by eapply lookup_lt_Some). congruence.
  - rewrite list_lookup_insert_ne in E by done. eapply chain_ext; [|by eapply (Forall2_lookup_lr _ _ _ _ _ _ Hf)].
    intros q Hq. apply Hm. intros Hqe. destruct (concat_insert cs i es Hi) as (rest & Hp & Hp').
    rewrite Hp, fmap_app in Hd. apply NoDup_app in Hd as (_ & Hx & _). apply (Hx q Hqe).
    assert (q ∈ (concat (<[i := []]> cs)).*1) as Hin; [|by rewrite Hp' in Hin].
    apply list_elem_of_fmap in Hq as (e & -> & He). apply list_elem_of_fmap_2.
    eapply elem_concat; [|exact He]. by rewrite list_lookup_insert_ne.
Qed.

(** An assignment through the place behind [bef], in the chain [i]: the chain
    goes on with [es'], the others are untouched. *)
Lemma put_place_run s cs i bef es v es' :
  Forall2 (chain hs (items s)) (buckets (lh s)) cs -> NoDup (concat cs).*1 ->
  cs !! i = Some (bef ++ es) -> chain hs (items s) v es' -> NoDup (concat (<[i := bef ++ es']> cs)).*1 ->
  exists s', put_place (end_of (bucket (Z.of_nat i)) bef) v s = Done tt s' /\
    Forall2 (chain hs (items s')) (buckets (lh s')) (<[i := bef ++ es']> cs) /\ kept s s'.
Proof.
  intros Hf Hd Hi Hv Hd'.
  destruct (list_elem_of_split_length _ _ _ Hi) as (cs1 & cs2 & -> & Hl). subst i. rewrite insert_middle in *.
  apply Forall2_app_inv_r in Hf as (bs1 & bs' & Hf1 & Hf' & Hbs).
  apply Forall2_cons_inv_r in Hf' as (b & bs2 & Hb & Hf2 & ->).
  assert (length bs1 = length cs1) as Hlen by (by apply Forall2_length in Hf1).
  assert (buckets (lh s) !! length cs1 = Some b) as Hget by (rewrite Hbs, <- Hlen; by apply list_lookup_middle).
  destruct bef as [|[q d] bef _] using rev_ind.
  - cbn [app end_of]. eexists. split; [|split].
    + cbn [put_place]. rewrite (bind_done _ _ _ _ _ (get_bucket_run _ _ _ Hget)). unfold upd_lh, modify. reflexivity.
    + cbn. rewrite Nat2Z.id, Hbs, <- Hlen, insert_middle. by apply Forall2_app; [|constructor].
    + constructor; cbn; try done. by rewrite length_insert.
  - rewrite end_of_snoc. rewrite <- (assoc_L (++)) in Hb, Hd, Hd'. cbn [app] in Hb, Hd, Hd'.
    rewrite concat_mid, fmap_app in Hd, Hd'. apply NoDup_app in Hd as (Hd1 & Hx & _).
    apply NoDup_app in Hd' as (Hd1' & _ & _). rewrite fmap_app in Hd1, Hd1'. cbn in Hd1, Hd1'.
    rewrite cons_middle, (assoc_L (++)) in Hd1, Hd1'.
    apply NoDup_app in Hd1 as (Hd1 & _ & _). apply NoDup_app in Hd1' as (_ & Hout & _).
    destruct (splice_chain hs s b bef q d es v es') as (it & E & Hc); [done| | |done|].
    + by rewrite fmap_app.
    + intros x Hx1 Hx2. rewrite fmap_app in Hx2. by apply (Hout x).
    + eexists. split; [|split].
      * cbn [put_place]. by apply upd_item_run.
      * cbn. rewrite Hbs, <- (assoc_L (++)). cbn [app].
        assert (forall q', q' ∈ (concat (cs1 ++ cs2)).*1 -> <[q:=set_next v it]> (items s) !! q' = items s !! q') as Hfr.
        { intros q' Hq'. apply lookup_insert_ne. intros <-. apply (Hx q); [|done]. set_solver. }
        rewrite concat_app, fmap_app in Hfr.
        apply Forall2_app; [|constructor; [done|]].
        -- eapply chains_ext; [|done]. intros q' Hq'. apply Hfr. set_solver.
        -- eapply chains_ext; [|done]. intros q' Hq'. apply Hfr. set_solver.
      * constructor; cbn; try done. rewrite dom_insert_L. apply elem_of_dom_2 in E. set_solver.
Qed.

(** ** Dealing the items out *)
(** Each element is in the chain of its hash. *)
Definition placed (n : Z) (cs : list (list entry)) : Prop :=
  forall i c e, cs !! i = Some c -> e ∈ c -> hs e.2 mod n = Z.of_nat i.

Lemma placed_insert n cs i es :
  placed n cs -> (forall e, e ∈ es -> hs e.2 mod n = Z.of_nat i) -> placed n (<[i := es]> cs).
Proof.
  intros Hp He j es' e Ej Hin. destruct (decide (j = i)) as [->|Hne].
  - destruct (decide (i < length cs)%nat); [|rewrite list_insert_ge in Ej by lia; by apply (Hp i es')].
    rewrite list_lookup_insert_eq in Ej by done. injection Ej as <-. auto.
  - rewrite list_lookup_insert_ne in Ej by done. by apply (Hp j es').
Qed.

Definition push (n : Z) (ns : list (list entry)) (e : entry) : list (list entry) :=
  let i := Z.to_nat (hs e.2 mod n) in <[i := e :: default [] (ns !! i)]> ns.

Definition deal (n : Z) (es : list entry) (ns : list (list entry)) : list (list entry) := foldl (push n) ns es.

Lemma push_at n ns e :
  zlen ns = n -> 0 < n -> exists c, ns !! Z.to_nat (hs e.2 mod n) = Some c /\
    push n ns e = <[Z.to_nat (hs e.2 mod n) := e :: c]> ns.
Proof.
  intros Hl Hn. pose proof (Z.mod_pos_bound (hs e.2) n Hn).
  destruct (lookup_lt_is_Some_2 ns (Z.to_nat (hs e.2 mod n))) as [c E]; [unfold zlen in Hl; lia|].
  exists c. split; [done|]. unfold push. by rewrite E.
Qed.

Lemma push_placed n ns e : zlen ns = n -> 0 < n -> placed n ns -> placed n (push n ns e).
Proof.
  intros Hl Hn Hp. destruct (push_at n ns e Hl Hn) as (c & E & ->). apply placed_insert; [done|].
  pose proof (Z.mod_pos_bound (hs e.2) n Hn). intros e' [->|He]%elem_of_cons; [lia|]. by apply (Hp _ c).
Qed.

Lemma push_length n ns e : zlen (push n ns e) = zlen ns.
Proof. apply zlen_insert. Qed.

Lemma deal_spec n es ns :
  zlen ns = n -> 0 < n -> placed n ns ->
  zlen (deal n es ns) = n /\ placed n (deal n es ns) /\ concat (deal n es ns) ≡ₚ es ++ concat ns.
Proof.
  revert ns. induction es as [|e es IH]; intros ns Hl Hn Hp; [done|]. cbn.
  destruct (IH (push n ns e)) as (H1 & H2 & H3);
    [by rewrite push_length|done|by apply push_placed|]. split; [done|]. split; [done|].
  etransitivity; [exact H3|]. destruct (push_at n ns e Hl Hn) as (c & E & ->).
  rewrite (concat_cons_at _ _ _ _ E). by rewrite <- Permutation_middle.
Qed.

(** What moving items may change: their links. *)
Definition relinked (ps : list Z) (s s' : lh_state) : Prop :=
  lh s' = lh s /\ dom (items s') = dom (items s) /\ forall q, q ∉ ps -> items s' !! q = items s !! q.

Lemma relinked_refl s : relinked [] s s.
Proof. done. Qed.

Lemma relinked_trans ps qs s1 s2 s3 : relinked ps s1 s2 -> relinked qs s2 s3 -> relinked (ps ++ qs) s1 s3.
Proof.
  intros (L1 & D1 & F1) (L2 & D2 & F2). split; [congruence|]. split; [congruence|].
  intros q [Hp Hq]%not_elem_of_app. by rewrite F2, F1.
Qed.

Lemma move_chain_run fuel n s cur new es ns :
  chain hs (items s) cur es -> Forall2 (chain hs (items s)) new ns -> NoDup (es ++ concat ns).*1 ->
  zlen ns = n -> 0 < n -> (length es < fuel)%nat ->
  exists s' new', move_chain fuel n cur new s = Done new' s' /\
    Forall2 (chain hs (items s')) new' (deal n es ns) /\ relinked es.*1 s s'.
Proof.
  revert s cur new ns fuel. induction es as [|[q d] es IH]; intros s cur new ns [|fuel] Hc Hf Hd Hl Hn Hfuel;
    try (cbn in Hfuel; lia); cbn [move_chain].
  { cbn in Hc. subst cur. by exists s, new. }
  cbn in Hc. destruct Hc as (-> & Hq & nx & E & Hc). rewrite (proj2 (Z.eqb_neq q 0) Hq).
  rewrite (bind_done _ _ _ _ _ (get_item_run _ _ _ E)). cbn [item_hash item_next set_next item_data].
  destruct (push_at n ns (q, d) Hl Hn) as (c & Ec & Hpush). cbn [snd] in Ec, Hpush.
  destruct (Forall2_lookup_r _ _ _ _ _ Hf Ec) as (old & Eo & Hold). rewrite Eo.
  cbn in Hd. apply NoDup_cons in Hd as [Hqn Hd]. rewrite fmap_app in Hqn. apply not_elem_of_app in Hqn as [Hqe Hqc].
  set (s1 := mk_lh_state (lh s) (<[q := mk_item d old (hs d)]> (items s))).
  assert (forall ps : list Z, q ∉ ps -> forall q', q' ∈ ps -> items s1 !! q' = items s !! q') as Hfr.
  { intros ps Hps q' Hq'. apply lookup_insert_ne. by intros <-. }
  destruct (IH s1 nx (<[Z.to_nat (hs d mod n) := q]> new) (push n ns (q, d)) fuel) as (s' & new' & E' & Hf' & Hl' & Hdom & Hfr');
    [|rewrite Hpush| |by rewrite push_length|done|cbn in Hfuel; lia|].
  - eapply chain_ext; [by apply Hfr|done].
  - apply Forall2_insert; [by eapply chains_ext; [apply Hfr|]|].
    cbn. split; [done|]. split; [done|]. exists old. split; [apply lookup_insert_eq|].
    eapply chain_ext; [|done]. apply Hfr. intros Hin. apply Hqc.
    apply list_elem_of_fmap in Hin as (e & -> & He). apply list_elem_of_fmap_2. by eapply elem_concat.
  - rewrite Hpush, (concat_cons_at _ _ _ _ Ec). rewrite <- Permutation_middle. cbn. apply NoDup_cons.
    by rewrite fmap_app, not_elem_of_app, <- fmap_app.
  - exists s', new'. split; [exact E'|]. split; [exact Hf'|]. split; [done|]. split.
    + rewrite Hdom. cbn. rewrite dom_insert_L. apply elem_of_dom_2 in E. set_solver.
    + intros q' Hq'. cbn in Hq'. apply not_elem_of_cons in Hq' as [Hne Hq']. rewrite Hfr' by done.
      by apply lookup_insert_ne.
Qed.

Lemma move_buckets_run fuel n s bs cs new ns :
  Forall2 (chain hs (items s)) bs cs -> Forall2 (chain hs (items s)) new ns -> NoDup (concat cs ++ concat ns).*1 ->
  zlen ns = n -> 0 < n -> placed n ns -> (length (concat cs) < fuel)%nat ->
  exists s' new', move_buckets fuel n bs new s = Done new' s' /\
    Forall2 (chain hs (items s')) new' (deal n (concat cs) ns) /\ relinked (concat cs).*1 s s'.
Proof.
  revert s bs new ns. induction cs as [|c cs IH]; intros s bs new ns Hf Hn Hd Hl Hpos Hp Hfuel.
  { apply Forall2_nil_inv_r in Hf as ->. by exists s, new. }
  apply Forall2_cons_inv_r in Hf as (b & bs' & Hb & Hf & ->). cbn in Hfuel, Hd. rewrite length_app in Hfuel.
  destruct (move_chain_run fuel n s b new c ns) as (s1 & new1 & E1 & Hn1 & R1); [done..| |done|done|lia|].
  { rewrite <- (assoc_L (++)), (Permutation_app_comm (concat cs)), (assoc_L (++)), fmap_app in Hd.
    by apply NoDup_app in Hd as (? & _ & _). }
  destruct (deal_spec n c ns Hl Hpos Hp) as (Hl1 & Hp1 & Hperm).
  cbn [move_buckets]. rewrite (bind_done _ _ _ _ _ E1).
  destruct (IH s1 bs' new1 (deal n c ns)) as (s2 & new2 & E2 & Hn2 & R2); [|done| |done..|lia|].
  - eapply chains_ext; [|done]. intros q Hq. apply R1. intros Hqc.
    rewrite <- (assoc_L (++)), !fmap_app in Hd. apply NoDup_app in Hd as (_ & Hx & _). apply (Hx q Hqc). set_solver.
  - rewrite Hperm, (assoc_L (++)), (Permutation_app_comm (concat cs) c). by rewrite <- (assoc_L (++)) in *.
  - exists s2, new2. split; [done|]. cbn [concat]. unfold deal. rewrite foldl_app. split; [done|].
    rewrite fmap_app. by eapply relinked_trans.
Qed.
End Splice.
