(* ===== verification/LhashTable.v ===== *)
(** BoringSSL, the hash table: its invariant, and the operations that keep it:
    a search finds the element if it is there, resizing keeps the elements, an
    insertion and a deletion change one of them; the specification of each. *)
From S2P Require Import Prelude.
From S2P Require Import Lhash LhashProofs.
#[local] Set Warnings "-clear-no-such-hyp".

(** ** What the table relies on *)
(** The elements by the functions of the table. *)
Definition elem_hash (call_hash_func : Z -> Z -> Z) (f d : Z) : Z := u32 (call_hash_func f d).
Definition elem_eq (call_cmp_func : Z -> Z -> Z -> Z) (c x y : Z) : bool := call_cmp_func c x y =? 0.

(** The comparison is an equivalence and the hash respects it ([lhash.h]); an
    item of [OPENSSL_malloc] is not null, aligned, and not in use. *)
Class LhashLaws `{Malloc} (call_hash_func : Z -> Z -> Z) (call_cmp_func : Z -> Z -> Z -> Z) (f c : Z) : Prop := {
  eqv_refl x : elem_eq call_cmp_func c x x = true;
  eqv_sym x y : elem_eq call_cmp_func c x y = true -> elem_eq call_cmp_func c y x = true;
  eqv_trans x y z : elem_eq call_cmp_func c x y = true -> elem_eq call_cmp_func c y z = true ->
    elem_eq call_cmp_func c x z = true;
  eqv_hash x y : elem_eq call_cmp_func c x y = true -> elem_hash call_hash_func f x = elem_hash call_hash_func f y;
  malloc_fresh m p : malloc_item m = Some p -> m !! p = None /\ exists k, p = 8 * k /\ 0 < k < 2 ^ 61
}.

(** There are fewer addresses than [2 ^ 61]. *)
Lemma aligned_bound (n : Z) (l : list Z) :
  0 < n -> NoDup l -> (forall p, p ∈ l -> exists k, p = 8 * k /\ 0 < k < n) -> zlen l < n.
Proof.
  intros Hn Hd Ha. assert (l ⊆+ (Z.mul 8) <$> seqZ 1 (n - 1)) as Hs.
  { apply NoDup_submseteq; [done|]. intros p (k & -> & Hk)%Ha. apply list_elem_of_fmap_2, elem_of_seqZ. lia. }
  apply submseteq_length in Hs. rewrite length_fmap, length_seqZ in Hs. unfold zlen. lia.
Qed.

Section Table.
Context `{Malloc}.
Variables (call_hash_func : Z -> Z -> Z) (call_cmp_func : Z -> Z -> Z -> Z) (f c : Z).
Context {Laws : LhashLaws call_hash_func call_cmp_func f c}.
Abbreviation hs := (elem_hash call_hash_func f).
Abbreviation eqv := (elem_eq call_cmp_func c).
Implicit Types (s : lh_state) (cs : list (list entry)) (d : Z).

(** ** Elements *)
(** No two elements are equal; none equals [d]. *)
Definition uniq (es : list entry) : Prop := forall e e', e ∈ es -> e' ∈ es -> eqv e.2 e'.2 = true -> e = e'.
Definition none_equal (es : list entry) d : Prop := forall e, e ∈ es -> eqv e.2 d = false.

Lemma uniq_perm es es' : es ≡ₚ es' -> uniq es' -> uniq es.
Proof. intros Hp U e e'. rewrite Hp. apply U. Qed.

Lemma none_perm es es' d : es ≡ₚ es' -> none_equal es' d -> none_equal es d.
Proof. intros Hp U e. rewrite Hp. apply U. Qed.

Lemma none_in es d q x : none_equal es d -> (q, x) ∈ es -> eqv x d = true -> False.
Proof. intros Hn Hin. pose proof (Hn _ Hin). cbn in *. congruence. Qed.

Lemma uniq_add q d es : uniq es -> none_equal es d -> uniq ((q, d) :: es).
Proof.
  intros U Hn e e' [->|He]%elem_of_cons [->|He']%elem_of_cons Hee; [done| | |by apply U].
  - apply eqv_sym in Hee. by rewrite Hn in Hee.
  - by rewrite Hn in Hee.
Qed.

(** An element of the list goes: nothing else equals it. *)
Lemma uniq_rest q x d es : uniq ((q, x) :: es) -> NoDup ((q, x) :: es).*1 -> eqv x d = true -> none_equal es d.
Proof.
  intros U Hd Hx e He. destruct (eqv e.2 d) eqn:E; [|done]. cbn in Hd. apply NoDup_cons in Hd as [Hd _].
  assert (e = (q, x)) as -> by (apply U; [by right|by left|]; eapply eqv_trans; [exact E|by apply eqv_sym]).
  destruct Hd. by apply (list_elem_of_fmap_2 fst _ (q, x)).
Qed.

Lemma uniq_replace q x d es :
  uniq ((q, x) :: es) -> NoDup ((q, x) :: es).*1 -> eqv x d = true -> uniq ((q, d) :: es).
Proof.
  intros U Hd Hx. apply uniq_add; [|by apply (uniq_rest q x)]. intros e e' He He'. apply U; by right.
Qed.

(** ** The invariant: the chains [cs] are those of the table, each item is in the
    chain of its hash, no two elements are equal, and no item is lost. *)
Record table s cs : Prop := {
  t_hash : hash (lh s) = f;
  t_comp : comp (lh s) = c;
  t_items : num_items (lh s) = zlen (concat cs);
  t_min : 16 <= num_buckets (lh s) < 2 ^ 61;
  t_len : zlen (buckets (lh s)) = num_buckets (lh s);
  t_chains : Forall2 (chain hs (items s)) (buckets (lh s)) cs;
  t_placed : placed hs (num_buckets (lh s)) cs;
  t_nodup : NoDup (concat cs).*1;
  t_addr : forall p, p ∈ (concat cs).*1 -> exists k, p = 8 * k /\ 0 < k < 2 ^ 61;
  t_dom : dom (items s) = list_to_set (concat cs).*1;
  t_uniq : uniq (concat cs)
}.

Lemma table_zlen s cs : table s cs -> zlen cs = num_buckets (lh s).
Proof. intros T. rewrite <- (t_len _ _ T). unfold zlen. by rewrite (Forall2_length _ _ _ (t_chains _ _ T)). Qed.

Lemma table_items s cs : table s cs -> num_items (lh s) < 2 ^ 61.
Proof.
  intros T. rewrite (t_items _ _ T). replace (zlen (concat cs)) with (zlen (concat cs).*1) by (unfold zlen; by rewrite length_fmap).
  by apply aligned_bound; [|apply T..].
Qed.

(** The same elements, dealt out anew. *)
Lemma table_dealt s s' cs cs' :
  table s cs -> hash (lh s') = f -> comp (lh s') = c -> num_items (lh s') = num_items (lh s) ->
  16 <= num_buckets (lh s') < 2 ^ 61 -> zlen cs' = num_buckets (lh s') ->
  Forall2 (chain hs (items s')) (buckets (lh s')) cs' -> placed hs (num_buckets (lh s')) cs' ->
  concat cs' ≡ₚ concat cs -> dom (items s') = dom (items s) -> table s' cs'.
Proof.
  intros T Ef Ec Ei En El Hf Hp Hperm Hd. constructor; try done.
  - rewrite Ei, (t_items _ _ T). unfold zlen. by rewrite Hperm.
  - rewrite <- El. unfold zlen. by rewrite (Forall2_length _ _ _ Hf).
  - rewrite Hperm. apply T.
  - intros p. rewrite Hperm. apply T.
  - rewrite Hd, (t_dom _ _ T). apply set_eq. intros q. by rewrite !elem_of_list_to_set, Hperm.
  - by apply (uniq_perm _ _ Hperm), T.
Qed.

(** ** Searching *)
Lemma elem_bucket s cs e :
  table s cs -> e ∈ concat cs -> exists es, cs !! Z.to_nat (hs e.2 mod num_buckets (lh s)) = Some es /\ e ∈ es.
Proof.
  intros T He. apply list_elem_of_In, in_concat in He as (es & Hes & He). apply list_elem_of_In in Hes, He.
  apply list_elem_of_lookup in Hes as [i Hi]. exists es. split; [|done].
  by rewrite (t_placed _ _ T i es e Hi He), Nat2Z.id.
Qed.

Lemma bucket_of_run s cs h :
  table s cs -> bucket_of h s = Done (bucket (h mod num_buckets (lh s))) s /\
  exists i es b, h mod num_buckets (lh s) = Z.of_nat i /\ cs !! i = Some es /\
    get_bucket (Z.of_nat i) s = Done b s /\ chain hs (items s) b es.
Proof.
  intros T. pose proof (t_min _ _ T) as Hn. pose proof (Z.mod_pos_bound h (num_buckets (lh s)) ltac:(lia)). split.
  - unfold bucket_of. rewrite bind_get_lh. cbv beta. destruct (Z.eqb_spec (num_buckets (lh s)) 0); [lia|done].
  - pose proof (table_zlen _ _ T) as Hl. unfold zlen in Hl.
    destruct (lookup_lt_is_Some_2 cs (Z.to_nat (h mod num_buckets (lh s)))) as [es E]; [lia|].
    destruct (Forall2_lookup_r _ _ _ _ _ (t_chains _ _ T) E) as (b & Eb & Hc).
    exists (Z.to_nat (h mod num_buckets (lh s))), es, b. split; [lia|]. split; [done|]. split; [|done].
    by apply get_bucket_run.
Qed.

Lemma length_chain_le cs i es : cs !! i = Some es -> (length es <= length (concat cs))%nat.
Proof. intros (l1 & l2 & -> & _)%list_elem_of_split_length. rewrite concat_mid, length_app. lia. Qed.

(** The place that a search for [d] returns: behind [before], in its chain; the
    first item from there on is the element that equals [d], if there is one. *)
Record found s cs d i es : Prop := {
  f_at : cs !! i = Some es;
  f_bucket : hs d mod num_buckets (lh s) = Z.of_nat i;
  f_get : get_place (end_of (bucket (Z.of_nat i)) (before (fun x => eqv x d) es)) s
          = Done (head_of (from (fun x => eqv x d) es)) s;
  f_none : from (fun x => eqv x d) es = [] -> none_equal (concat cs) d
}.

Lemma search_by fuel eq s cs d :
  table s cs -> (length (concat cs) < fuel)%nat -> (forall x, eq x = eqv x d) ->
  exists i es, found s cs d i es /\
    bind (bucket_of (hs d)) (find_loop fuel eq) s
    = Done (end_of (bucket (Z.of_nat i)) (before (fun x => eqv x d) es)) s.
Proof.
  intros T Hf Heq. destruct (bucket_of_run s cs (hs d) T) as (Hr & i & es & b & Ei & Ees & Eb & Hc).
  assert (before eq es = before (fun x => eqv x d) es) as Hb.
  { clear -Heq. induction es as [|e es IH]; [done|]. cbn. by rewrite Heq, IH. }
  exists i, es. split; [constructor; [done..| |]|].
  - apply (end_of_get hs). exists b. by rewrite before_from.
  - intros Hn e He. destruct (eqv e.2 d) eqn:E; [|done].
    destruct (elem_bucket _ _ _ T He) as (es' & Ees' & He'). rewrite (eqv_hash _ _ E), Ei, Nat2Z.id, Ees in Ees'.
    injection Ees' as <-. by rewrite (proj1 (from_nil _ _) Hn e He') in E.
  - rewrite (bind_done _ _ _ _ _ Hr), Ei, <- Hb. pose proof (length_chain_le _ _ _ Ees).
    by apply (find_loop_run hs _ _ _ _ b); [|done|lia].
Qed.

Lemma search_run fuel s cs d :
  table s cs -> (length (concat cs) < fuel)%nat ->
  exists i es, found s cs d i es /\
    get_next_ptr_and_hash call_hash_func call_cmp_func fuel d s
    = Done (end_of (bucket (Z.of_nat i)) (before (fun x => eqv x d) es), hs d) s.
Proof.
  intros T Hf. destruct (search_by fuel (fun x => eqv x d) s cs d T Hf) as (i & es & Hfo & E); [done|].
  exists i, es. split; [done|]. unfold get_next_ptr_and_hash. rewrite bind_get_lh. cbv beta zeta.
  rewrite bind_get_lh, (t_hash _ _ T), (t_comp _ _ T). cbv beta.
  change (u32 (call_hash_func f d)) with (hs d).
  destruct (bucket_of_run s cs (hs d) T) as (Hr & _). rewrite (bind_done _ _ _ _ _ Hr) in E.
  by rewrite (bind_done _ _ _ _ _ Hr), (bind_done _ _ _ _ _ E).
Qed.

(** The two ends of a search. *)
Lemma found_none s cs d i es : found s cs d i es -> from (fun x => eqv x d) es = [] -> before (fun x => eqv x d) es = es.
Proof. intros _ E. rewrite <- (before_from (fun x => eqv x d) es) at 2. by rewrite E, app_nil_r. Qed.

Lemma found_some s cs d i es q x k :
  table s cs -> found s cs d i es -> from (fun x => eqv x d) es = (q, x) :: k ->
  es = before (fun x => eqv x d) es ++ (q, x) :: k /\ eqv x d = true /\ (q, x) ∈ concat cs /\ q <> 0 /\
  exists nx, items s !! q = Some (mk_item x nx (hs x)) /\ chain hs (items s) nx k.
Proof.
  intros T Hfo E. assert (es = before (fun x => eqv x d) es ++ (q, x) :: k) as Hes.
  { rewrite <- (before_from (fun x => eqv x d) es) at 1. by rewrite E. }
  assert ((q, x) ∈ concat cs) as Hin by (eapply elem_concat; [apply Hfo|]; rewrite Hes; set_solver).
  split; [done|]. split; [by apply (from_cons _ _ _ _ E)|]. split; [done|].
  destruct (Forall2_lookup_r _ _ _ _ _ (t_chains _ _ T) (f_at _ _ _ _ _ Hfo)) as (b & _ & Hc).
  rewrite Hes in Hc. clear -Hc. revert b Hc. induction (before _ es) as [|[q' d'] bef IH]; intros b Hc.
  - cbn in Hc. destruct Hc as (_ & Hq & nx & E & Hc). eauto.
  - cbn in Hc. destruct Hc as (_ & _ & nx & _ & Hc). eauto.
Qed.
End Table.

Arguments t_hash {_ _ _ _ _ _} _.
Arguments t_comp {_ _ _ _ _ _} _.
Arguments t_items {_ _ _ _ _ _} _.
Arguments t_min {_ _ _ _ _ _} _.
Arguments t_len {_ _ _ _ _ _} _.
Arguments t_chains {_ _ _ _ _ _} _.
Arguments t_placed {_ _ _ _ _ _} _.
Arguments t_nodup {_ _ _ _ _ _} _.
Arguments t_addr {_ _ _ _ _ _} _.
Arguments t_dom {_ _ _ _ _ _} _.
Arguments t_uniq {_ _ _ _ _ _} _.
Arguments table_items {_ _ _ _ _ _} _.
Arguments table_zlen {_ _ _ _ _ _} _.
Arguments f_at {_ _ _ _ _ _ _ _ _} _.
Arguments f_bucket {_ _ _ _ _ _ _ _ _} _.
Arguments f_get {_ _ _ _ _ _ _ _ _} _.
Arguments f_none {_ _ _ _ _ _ _ _ _} _.

(** * Resizing, retrieval, insertion and deletion *)
#[local] Set Warnings "-clear-no-such-hyp".

(** The number of buckets that [lh_maybe_resize] wants for [k] items. *)
Definition resized (k n : Z) : Z :=
  if kMaxAverageChainLength <? k / n then n * 2
  else if (k / n <? kMinAverageChainLength) && (kMinNumBuckets <? n) then Z.max kMinNumBuckets (n / 2)
  else n.

(** From one operation to the next, the number of items per bucket stays between
    these bounds. *)
Definition balanced (l : lhash) : Prop :=
  (num_buckets l = kMinNumBuckets \/ num_buckets l <= num_items l) /\ num_items l < 3 * num_buckets l.

Lemma average_gt q k n : 0 < n -> q < k / n <-> (q + 1) * n <= k.
Proof.
  intros Hn. pose proof (Z.div_mod k n ltac:(lia)). pose proof (Z.mod_pos_bound k n Hn). split; nia.
Qed.

Lemma average_lt q k n : 0 < n -> k / n < q <-> k < q * n.
Proof.
  intros Hn. pose proof (Z.div_mod k n ltac:(lia)). pose proof (Z.mod_pos_bound k n Hn). split; nia.
Qed.

(** One more or one less item, and a resizing: the bounds hold again. *)
Lemma balanced_resized k k' n :
  16 <= n -> 0 <= k' -> k' <= k + 1 -> k <= k' + 1 -> (n = 16 \/ n <= k) -> k < 3 * n ->
  (resized k' n = 16 \/ resized k' n <= k') /\ k' < 3 * resized k' n.
Proof.
  intros Hn Hk' H1 H2 Hlo Hhi. unfold resized, kMaxAverageChainLength, kMinAverageChainLength, kMinNumBuckets.
  destruct (Z.ltb_spec 2 (k' / n)) as [Hq|Hq]; [apply average_gt in Hq; lia|].
  assert (~ 2 < k' / n) as Hq' by lia. rewrite average_gt in Hq' by lia.
  destruct (Z.ltb_spec (k' / n) 1) as [Hr|Hr]; cbn [andb].
  - apply average_lt in Hr; [|lia]. destruct (Z.ltb_spec 16 n); [|lia]. zdm.
  - assert (~ k' / n < 1) as Hr' by lia. rewrite average_lt in Hr' by lia. lia.
Qed.

Section Ops.
Context `{Malloc}.
Variables (call_hash_func : Z -> Z -> Z) (call_cmp_func : Z -> Z -> Z -> Z) (f c : Z).
Context {Laws : LhashLaws call_hash_func call_cmp_func f c}.
Abbreviation hs := (elem_hash call_hash_func f).
Abbreviation eqv := (elem_eq call_cmp_func c).
Abbreviation table := (table call_hash_func call_cmp_func f c).
Abbreviation uniq := (uniq call_cmp_func c).
Abbreviation none_equal := (none_equal call_cmp_func c).
Abbreviation found := (found call_hash_func call_cmp_func f c).
Implicit Types (s : lh_state) (cs : list (list entry)) (d : Z).

(** ** Resizing *)
Lemma rebucket_run fuel n s cs :
  table s cs -> (length (concat cs) < fuel)%nat -> 16 <= n < 2 ^ 61 ->
  exists s' cs', lh_rebucket fuel n s = Done tt s' /\ table s' cs' /\ concat cs' ≡ₚ concat cs /\
    callback_depth (lh s') = callback_depth (lh s) /\ num_items (lh s') = num_items (lh s) /\
    num_buckets (lh s') = if malloc_bytes (8 * n) then n else num_buckets (lh s).
Proof.
  intros T Hf Hn. unfold lh_rebucket. cbv zeta. rewrite u64_small by lia.
  replace (8 * n / 8) with n by (rewrite Z.mul_comm, Z.div_mul; lia). rewrite Z.eqb_refl. cbn [negb].
  destruct (malloc_bytes (8 * n)); cbn [negb]; [|by exists s, cs].
  repeat (rewrite bind_get_lh; cbv beta).
  assert (Z.to_nat (num_buckets (lh s)) = length (buckets (lh s))) as -> by (rewrite <- (t_len T); apply zlen_to_nat).
  rewrite firstn_all.
  assert (forall i (b : list entry), replicate (Z.to_nat n) [] !! i = Some b -> b = []) as Hrep
    by (by intros i b [? _]%lookup_replicate).
  assert (placed hs n (replicate (Z.to_nat n) [])) as Hp by (intros i b e ->%Hrep; set_solver).
  assert (concat (replicate (Z.to_nat n) ([] : list entry)) = []) as Hnil by (clear; by induction (Z.to_nat n)).
  assert (zlen (replicate (Z.to_nat n) ([] : list entry)) = n) as Hl by (unfold zlen; rewrite length_replicate; lia).
  destruct (move_buckets_run hs fuel n s (buckets (lh s)) cs (replicate (Z.to_nat n) 0) (replicate (Z.to_nat n) []))
    as (s' & new & E & Hc & El & Ed & _); [apply T| | |done|lia|done|done|].
  - apply Forall2_same_length_lookup. rewrite !length_replicate. split; [done|]. intros i x b.
    by intros [-> _]%lookup_replicate [-> _]%lookup_replicate.
  - rewrite Hnil, app_nil_r. apply T.
  - destruct (deal_spec hs n (concat cs) (replicate (Z.to_nat n) [])) as (Hl' & Hp' & Hperm); [done|lia|done|].
    rewrite Hnil, app_nil_r in Hperm.
    exists (mk_lh_state (with_buckets new n (lh s')) (items s')), (deal hs n (concat cs) (replicate (Z.to_nat n) [])).
    rewrite (bind_done _ _ _ _ _ E). split; [done|]. rewrite <- El.
    split; [|done]. eapply (table_dealt _ _ _ _ s _ cs); cbn; rewrite ?El; try done; apply T.
Qed.

Lemma lh_maybe_resize_run fuel s cs :
  table s cs -> (length (concat cs) < fuel)%nat ->
  exists s' cs', lh_maybe_resize fuel s = Done tt s' /\ table s' cs' /\ concat cs' ≡ₚ concat cs /\
    callback_depth (lh s') = callback_depth (lh s) /\ num_items (lh s') = num_items (lh s) /\
    (callback_depth (lh s) <= 0 -> (forall n, malloc_bytes n = true) ->
     num_buckets (lh s') = resized (num_items (lh s)) (num_buckets (lh s))).
Proof.
  intros T Hf. pose proof (t_min T) as Hn. pose proof (table_items T) as Hi.
  assert (0 <= num_items (lh s)) as Hi0 by (rewrite (t_items T); apply zlen_nonneg).
  unfold lh_maybe_resize, resized. rewrite bind_get_lh. destruct (Z.ltb_spec 0 (callback_depth (lh s))).
  { exists s, cs. repeat (split; [done|]). intros; lia. }
  repeat (rewrite bind_get_lh; cbv beta). cbv zeta.
  unfold kMaxAverageChainLength, kMinAverageChainLength, kMinNumBuckets.
  destruct (Z.ltb_spec (num_buckets (lh s)) 16); [lia|].
  destruct (Z.ltb_spec 2 (num_items (lh s) / num_buckets (lh s))) as [Hq|Hq].
  - apply average_gt in Hq; [|lia]. rewrite u64_small by lia.
    destruct (Z.ltb_spec (num_buckets (lh s)) (num_buckets (lh s) * 2)); [|lia].
    destruct (rebucket_run fuel (num_buckets (lh s) * 2) s cs) as (s' & cs' & E & T' & Hp & Ed & Ei & En); [done..|lia|].
    exists s', cs'. repeat (split; [done|]). intros _ Hm. by rewrite En, Hm.
  - destruct (Z.ltb_spec (num_items (lh s) / num_buckets (lh s)) 1), (Z.ltb_spec 16 (num_buckets (lh s)));
      cbn [andb]; try by exists s, cs.
    assert (num_buckets (lh s) / 2 <= num_buckets (lh s)) by zdm.
    replace (if num_buckets (lh s) / 2 <? 16 then 16 else num_buckets (lh s) / 2) with (Z.max 16 (num_buckets (lh s) / 2))
      by (destruct (Z.ltb_spec (num_buckets (lh s) / 2) 16); lia).
    destruct (rebucket_run fuel (Z.max 16 (num_buckets (lh s) / 2)) s cs) as (s' & cs' & E & T' & Hp & Ed & Ei & En); [done..|lia|].
    exists s', cs'. repeat (split; [done|]). intros _ Hm. by rewrite En, Hm.
Qed.

(** ** Retrieval *)
Lemma retrieve_run fuel s cs d :
  table s cs -> (length (concat cs) < fuel)%nat ->
  exists p, lh_retrieve call_hash_func call_cmp_func fuel d s = Done p s /\
    ((exists q, (q, p) ∈ concat cs /\ eqv p d = true) \/ p = 0 /\ none_equal (concat cs) d).
Proof.
  intros T Hf. destruct (search_run _ _ _ _ fuel s cs d T Hf) as (i & es & Hfo & E).
  unfold lh_retrieve. rewrite (bind_done _ _ _ _ _ E). cbn [fst]. unfold data_at.
  rewrite (bind_done _ _ _ _ _ (f_get Hfo)).
  destruct (from (fun x => eqv x d) es) as [|[q x] k] eqn:Efr; cbn [head_of].
  - exists 0. split; [done|]. right. split; [done|]. exact (f_none Hfo Efr).
  - destruct (found_some _ _ _ _ _ _ _ _ _ _ _ _ T Hfo Efr) as (_ & Hx & Hin & Hq & nx & Em & _).
    rewrite (proj2 (Z.eqb_neq q 0) Hq), (bind_done _ _ _ _ _ (get_item_run _ _ _ Em)). exists x. split; [done|]. left. by exists q.
Qed.

(** ** Insertion *)
Lemma insert_old_run fuel s cs d q x :
  table s cs -> (length (concat cs) < fuel)%nat -> (q, x) ∈ concat cs -> eqv x d = true ->
  exists s' cs' rest, lh_insert call_hash_func call_cmp_func fuel d s = Done (true, x) s' /\ table s' cs' /\
    lh s' = lh s /\ concat cs ≡ₚ (q, x) :: rest /\ concat cs' ≡ₚ (q, d) :: rest.
Proof.
  intros T Hf Hqx Hx. destruct (search_run _ _ _ _ fuel s cs d T Hf) as (i & es & Hfo & E).
  unfold lh_insert. rewrite (bind_done _ _ _ _ _ E). cbn [fst].
  rewrite (bind_done _ _ _ _ _ (f_get Hfo)).
  destruct (from (fun x => eqv x d) es) as [|[q' x'] k] eqn:Efr; cbn [head_of].
  { by destruct (none_in _ _ _ _ _ _ (f_none Hfo Efr) Hqx). }
  destruct (found_some _ _ _ _ _ _ _ _ _ _ _ _ T Hfo Efr) as (Hes & Hx' & Hin & Hq & nx & Em & Hk).
  assert ((q', x') = (q, x)) as [= -> ->].
  { apply (t_uniq T); [done..|]. cbn. eapply eqv_trans; [exact Hx'|]. by apply eqv_sym. }
  rewrite (proj2 (Z.eqb_neq q 0) Hq). cbn [negb]. rewrite (bind_done _ _ _ _ _ (get_item_run _ _ _ Em)).
  rewrite (bind_done _ _ _ _ _ (upd_item_run _ _ _ _ Em)). unfold set_data. cbn [item_next item_hash item_data].
  set (bef := before (fun x => eqv x d) es) in *. pose proof (f_at Hfo) as Hi. rewrite Hes in Hi.
  destruct (concat_insert cs i _ Hi) as (rest & Hp & Hp').
  exists (mk_lh_state (lh s) (<[q := mk_item d nx (hs x)]> (items s))), (<[i := bef ++ (q, d) :: k]> cs), (bef ++ k ++ rest).
  specialize (Hp' (bef ++ (q, d) :: k)). rewrite app_middle in Hp, Hp'.
  split; [done|]. split; [|done].
  pose proof (t_nodup T) as Hd. assert (hs d = hs x) as Eh by (by apply eqv_hash, eqv_sym).
  constructor; cbn; try apply T.
  - rewrite (t_items T). unfold zlen. by rewrite Hp, Hp'.
  - destruct (Forall2_lookup_r _ _ _ _ _ (t_chains T) Hi) as (b & Eb & Hc).
    eapply chains_update; [apply T|done|exact Eb|exact Hi| |].
    + apply chain_set_data; [done| |done..]. destruct (concat_insert cs i _ Hi) as (r & Hr & _).
      rewrite Hr, fmap_app in Hd. by apply NoDup_app in Hd as (? & _ & _).
    + intros q' Hq'. apply lookup_insert_ne. intros ->. apply Hq', mid_addr.
  - apply placed_insert; [apply T|]. pose proof (fun e => t_placed T i _ e Hi) as Hpl.
    intros e [He|[->|He]%elem_of_cons]%elem_of_app; [|cbn; rewrite Eh; apply (Hpl (q, x))|]; try apply Hpl; set_solver.
  - rewrite Hp'. rewrite Hp in Hd. done.
  - intros p. rewrite Hp'. intros Hpn. apply (t_addr T). by rewrite Hp.
  - rewrite dom_insert_L, (t_dom T). apply set_eq. intros p. rewrite elem_of_union, !elem_of_list_to_set, Hp, Hp'.
    set_solver.
  - eapply uniq_perm; [exact Hp'|]. eapply (uniq_replace _ _ _ _ q x); [|by rewrite Hp in Hd|done]. eapply uniq_perm; [symmetry; exact Hp|apply T].
Qed.

(** What the table is after an element came or went: its entries are those of
    [es], its buckets as many as the resizing wants. *)
Record becomes s s' (es : list entry) cs' : Prop := {
  b_table : table s' cs';
  b_entries : concat cs' ≡ₚ es;
  b_depth : callback_depth (lh s') = callback_depth (lh s);
  b_num : callback_depth (lh s) <= 0 -> (forall n, malloc_bytes n = true) ->
    num_buckets (lh s') = resized (zlen es) (num_buckets (lh s))
}.

Lemma resize_becomes fuel s s1 cs es :
  table s1 cs -> concat cs ≡ₚ es -> callback_depth (lh s1) = callback_depth (lh s) ->
  num_buckets (lh s1) = num_buckets (lh s) -> (length es < fuel)%nat ->
  exists s' cs', lh_maybe_resize fuel s1 = Done tt s' /\ becomes s s' es cs'.
Proof.
  intros T Hp Ed En Hf. destruct (lh_maybe_resize_run fuel s1 cs T) as (s' & cs' & E & T' & Hp' & Ed' & _ & Hr); [by rewrite Hp|].
  exists s', cs'. split; [done|]. constructor; [done| |congruence|].
  - by rewrite Hp'.
  - rewrite <- Ed, <- En. intros Hd Hm. rewrite Hr, (t_items T) by done. unfold zlen. by rewrite Hp.
Qed.

(** The item of a new element is linked in at the end of its chain. *)
Lemma link_run s cs d i es p :
  table s cs -> found s cs d i es -> from (fun x => eqv x d) es = [] -> malloc_item (items s) = Some p ->
  exists s1, put_place (end_of (bucket (Z.of_nat i)) (before (fun x => eqv x d) es)) p
      (mk_lh_state (lh s) (<[p := mk_item d 0 (hs d)]> (items s))) = Done tt s1 /\
    let s2 := mk_lh_state (with_num_items (u64 (num_items (lh s1) + 1)) (lh s1)) (items s1) in
    table s2 (<[i := es ++ [(p, d)]]> cs) /\ kept (mk_lh_state (lh s) (<[p := mk_item d 0 (hs d)]> (items s))) s1.
Proof.
  intros T Hfo Efr Hm. rewrite (found_none _ _ _ _ _ _ _ _ _ Hfo Efr). set (s0 := mk_lh_state _ _).
  pose proof (f_at Hfo) as Hi. pose proof (f_none Hfo Efr) as Hno. pose proof (t_nodup T) as Hd.
  destruct (malloc_fresh _ _ Hm) as (Hfresh & k & Hk).
  assert (p ∉ (concat cs).*1) as Hout.
  { intros Hin. apply not_elem_of_dom in Hfresh. rewrite (t_dom T), elem_of_list_to_set in Hfresh. done. }
  destruct (concat_insert cs i _ Hi) as (rest & Hp & Hp'). specialize (Hp' (es ++ [(p, d)])).
  rewrite app_middle in Hp'. cbn [app] in Hp'. rewrite <- Hp in Hp'.
  assert (NoDup (concat (<[i := es ++ [(p, d)]]> cs)).*1) as Hd' by (rewrite Hp'; by apply NoDup_cons).
  destruct (put_place_run hs s0 cs i es [] p [(p, d)]) as (s1 & E & Hf & K).
  - eapply chains_ext; [|apply T]. intros q Hq. apply lookup_insert_ne. by intros ->.
  - done.
  - by rewrite app_nil_r.
  - cbn. split; [done|]. split; [lia|]. exists 0. split; [apply lookup_insert_eq|done].
  - done.
  - exists s1. split; [done|]. split; [|done]. destruct K as [Ki Kn Kl Kd Kc Kh Kdom].
    constructor; cbn; rewrite ?Ki, ?Kn, ?Kc, ?Kh; cbn; try apply T; try done.
    + rewrite (t_items T). pose proof (table_items T) as Hb. rewrite (t_items T) in Hb.
      rewrite u64_small by zl. unfold zlen. rewrite Hp'. cbn. lia.
    + rewrite <- (t_len T). unfold zlen. by rewrite Kl.
    + apply placed_insert; [apply T|]. intros e [He| ->%list_elem_of_singleton]%elem_of_app; [by apply (t_placed T i es)|apply Hfo].
    + intros q. rewrite Hp'. intros [->|Hq]%elem_of_cons; [by exists k|by apply T].
    + rewrite Kdom. cbn. rewrite dom_insert_L, (t_dom T). apply set_eq. intros q.
      rewrite elem_of_union, !elem_of_list_to_set, Hp'. set_solver.
    + eapply uniq_perm; [exact Hp'|]. eapply uniq_add; [done| |done]. apply T.
Qed.

Lemma insert_new_run fuel s cs d :
  table s cs -> (S (length (concat cs)) < fuel)%nat -> none_equal (concat cs) d ->
  match malloc_item (items s) with
  | None => lh_insert call_hash_func call_cmp_func fuel d s = Done (false, 0) s
  | Some p => exists s' cs', lh_insert call_hash_func call_cmp_func fuel d s = Done (true, 0) s' /\
      becomes s s' ((p, d) :: concat cs) cs'
  end.
Proof.
  intros T Hf Hno. destruct (search_run _ _ _ _ fuel s cs d T ltac:(lia)) as (i & es & Hfo & E).
  unfold lh_insert. rewrite (bind_done _ _ _ _ _ E). cbn [fst snd].
  rewrite (bind_done _ _ _ _ _ (f_get Hfo)).
  destruct (from (fun x => eqv x d) es) as [|[q x] k] eqn:Efr; cbn [head_of].
  2: { destruct (found_some _ _ _ _ _ _ _ _ _ _ _ _ T Hfo Efr) as (_ & Hx & Hin & _). by destruct (none_in _ _ _ _ _ _ Hno Hin). }
  cbn [Z.eqb negb]. rewrite bind_gets. cbv beta. destruct (malloc_item (items s)) as [p|] eqn:Em; [|done].
  destruct (link_run s cs d i es p T Hfo Efr Em) as (s1 & E1 & T2 & K).
  rewrite (bind_done _ _ _ _ _ (put_item_run _ _ _)), (bind_done _ _ _ _ _ E1), bind_upd_lh. cbv beta.
  assert (concat (<[i := es ++ [(p, d)]]> cs) ≡ₚ (p, d) :: concat cs) as Hp.
  { destruct (concat_insert cs i _ (f_at Hfo)) as (rest & Hp & ->). by rewrite app_middle, Hp. }
  destruct (resize_becomes fuel s _ _ _ T2 Hp) as (s' & cs' & E' & B); [cbn; apply K|cbn; apply K|cbn; lia|].
  exists s', cs'. by rewrite (bind_done _ _ _ _ _ E').
Qed.

(** ** Deletion *)
(** The item of the element is unlinked and freed. *)
Lemma unlink_run s cs d i es q x k nx :
  table s cs -> found s cs d i es -> from (fun x => eqv x d) es = (q, x) :: k ->
  chain hs (items s) nx k ->
  exists s1, put_place (end_of (bucket (Z.of_nat i)) (before (fun x => eqv x d) es)) nx s = Done tt s1 /\
    let s2 := mk_lh_state (with_num_items (u64 (num_items (lh s1) - 1)) (lh s1)) (delete q (items s1)) in
    table s2 (<[i := before (fun x => eqv x d) es ++ k]> cs) /\ kept s s1.
Proof.
  intros T Hfo Efr Hk. destruct (found_some _ _ _ _ _ _ _ _ _ _ _ _ T Hfo Efr) as (Hes & Hx & Hin & Hq & _).
  set (bef := before (fun x => eqv x d) es) in *. pose proof (f_at Hfo) as Hi. rewrite Hes in Hi.
  destruct (concat_insert cs i _ Hi) as (rest & Hp & Hp'). specialize (Hp' (bef ++ k)).
  rewrite app_middle in Hp. rewrite <- (assoc_L (++)) in Hp'. pose proof (t_nodup T) as Hd. rewrite Hp in Hd.
  cbn in Hd. apply NoDup_cons in Hd as [Hout Hd].
  destruct (put_place_run hs s cs i bef ((q, x) :: k) nx k) as (s1 & E & Hf & K); [apply T|apply T|done|done|by rewrite Hp'|].
  exists s1. split; [done|]. split; [|done]. destruct K as [Ki Kn Kl Kd Kc Kh Kdom].
  assert (zlen (concat cs) = 1 + zlen (bef ++ k ++ rest)) as Hlen by (unfold zlen; rewrite Hp; cbn; lia).
  constructor; cbn; rewrite ?Ki, ?Kn, ?Kc, ?Kh; cbn; try apply T; try by rewrite Hp'.
  - pose proof (table_items T) as Hb. rewrite (t_items T) in *. rewrite u64_small by zl.
    rewrite Hlen. unfold zlen. rewrite Hp'. lia.
  - rewrite <- (t_len T). unfold zlen. by rewrite Kl.
  - eapply chains_ext; [|exact Hf]. intros q'. rewrite Hp'. intros Hq'. apply lookup_delete_ne. by intros ->.
  - apply placed_insert; [apply T|]. pose proof (fun e => t_placed T i _ e Hi) as Hpl.
    intros e [He|He]%elem_of_app; apply Hpl; set_solver.
  - intros q'. rewrite Hp'. intros Hq'. apply (t_addr T). rewrite Hp. by right.
  - rewrite dom_delete_L, Kdom, (t_dom T). apply set_eq. intros q'.
    rewrite elem_of_difference, !elem_of_list_to_set, Hp, Hp', elem_of_singleton. cbn. rewrite elem_of_cons.
    split; [tauto|]. intros Hq'. split; [by right|]. by intros ->.
  - eapply uniq_perm; [exact Hp'|]. intros e e' He He'. apply (t_uniq T); rewrite Hp; by right.
Qed.

Lemma delete_run fuel s cs d q x :
  table s cs -> (length (concat cs) < fuel)%nat -> (q, x) ∈ concat cs -> eqv x d = true ->
  exists s' cs' rest, lh_delete call_hash_func call_cmp_func fuel d s = Done x s' /\
    concat cs ≡ₚ (q, x) :: rest /\ becomes s s' rest cs'.
Proof.
  intros T Hf Hqx Hx. destruct (search_run _ _ _ _ fuel s cs d T Hf) as (i & es & Hfo & E).
  unfold lh_delete. rewrite (bind_done _ _ _ _ _ E). cbn [fst].
  rewrite (bind_done _ _ _ _ _ (f_get Hfo)).
  destruct (from (fun x => eqv x d) es) as [|[q' x'] k] eqn:Efr; cbn [head_of].
  { by destruct (none_in _ _ _ _ _ _ (f_none Hfo Efr) Hqx). }
  destruct (found_some _ _ _ _ _ _ _ _ _ _ _ _ T Hfo Efr) as (Hes & Hx' & Hin & Hq & nx & Em & Hk).
  assert ((q', x') = (q, x)) as [= -> ->].
  { apply (t_uniq T); [done..|]. cbn. eapply eqv_trans; [exact Hx'|]. by apply eqv_sym. }
  rewrite (proj2 (Z.eqb_neq q 0) Hq), (bind_done _ _ _ _ _ (get_item_run _ _ _ Em)). cbn [item_next item_data].
  destruct (unlink_run s cs d i es q x k nx T Hfo Efr Hk) as (s1 & E1 & T2 & K).
  rewrite (bind_done _ _ _ _ _ E1), bind_modify, bind_upd_lh. cbv beta. cbn [lh items].
  set (bef := before (fun x => eqv x d) es) in *. pose proof (f_at Hfo) as Hi. rewrite Hes in Hi.
  destruct (concat_insert cs i _ Hi) as (rest & Hp & Hp'). rewrite app_middle in Hp.
  specialize (Hp' (bef ++ k)). rewrite <- (assoc_L (++)) in Hp'.
  assert (length (concat cs) = S (length (bef ++ k ++ rest))) as Hlen by (by rewrite Hp).
  destruct (resize_becomes fuel s _ _ _ T2 Hp') as (s' & cs' & E' & B); [apply K|apply K|lia|].
  exists s', cs', (bef ++ k ++ rest). by rewrite (bind_done _ _ _ _ _ E').
Qed.

Lemma delete_none_run fuel s cs d :
  table s cs -> (length (concat cs) < fuel)%nat -> none_equal (concat cs) d ->
  lh_delete call_hash_func call_cmp_func fuel d s = Done 0 s.
Proof.
  intros T Hf Hno. destruct (search_run _ _ _ _ fuel s cs d T Hf) as (i & es & Hfo & E).
  unfold lh_delete. rewrite (bind_done _ _ _ _ _ E). cbn [fst]. rewrite (bind_done _ _ _ _ _ (f_get Hfo)).
  destruct (from (fun x => eqv x d) es) as [|[q x] k] eqn:Efr; [done|].
  destruct (found_some _ _ _ _ _ _ _ _ _ _ _ _ T Hfo Efr) as (_ & Hx & Hin & _). by destruct (none_in _ _ _ _ _ _ Hno Hin).
Qed.

(** Each element is there or not. *)
Lemma equal_or_none es d : (exists q x, (q, x) ∈ es /\ eqv x d = true) \/ none_equal es d.
Proof.
  induction es as [|[q x] es [(q' & x' & Hin & Hx)|Hn]]; [right; set_solver|left; exists q', x'; set_solver|].
  destruct (eqv x d) eqn:E; [left; exists q, x; set_solver|right]. by intros e [->|He]%elem_of_cons; [|apply Hn].
Qed.
End Ops.
