(* ===== verification/LhashDoall.v ===== *)
(** BoringSSL, the hash table: [lh_doall_arg] with callbacks that may delete the
    element they are called with, and [lh_free]. *)
From S2P Require Import Prelude.
From S2P Require Import Lhash LhashProofs LhashTable.
#[local] Set Warnings "-clear-no-such-hyp".

Lemma in_table_run {App A} (m : L A) s (a : App) x s' :
  m s = Done x s' -> in_table m (s, a) = Done x (s', a).
Proof. unfold in_table. cbn. by intros ->. Qed.

Lemma chain_tail hs m p pre k : chain hs m p (pre ++ k) -> chain hs m (head_of k) k.
Proof.
  revert p. induction pre as [|[q d] pre IH]; intros p Hc.
  - cbn in Hc. by rewrite <- (chain_head _ _ _ _ Hc).
  - cbn in Hc. destruct Hc as (_ & _ & nx & _ & Hc). by apply (IH nx).
Qed.

Lemma split_unique {A} (l1 l2 k1 k2 : list A) x :
  l1 ++ x :: l2 = k1 ++ x :: k2 -> NoDup (l1 ++ x :: l2) -> l1 = k1 /\ l2 = k2.
Proof.
  revert k1. induction l1 as [|y l1 IH]; intros [|z k1] E Hd; cbn in *; apply NoDup_cons in Hd as [Hn Hd].
  - by injection E.
  - injection E as <- ->. set_solver.
  - injection E as -> <-. set_solver.
  - injection E as <- E. by destruct (IH _ E Hd) as [-> ->].
Qed.

(** ** What a sweep leaves: [act] says of each element whether it goes. *)
Section Swept.
Context {App : Type}.
Variable act : Z -> App -> bool * App.

Fixpoint swept (es : list entry) (a : App) : list entry * App :=
  match es with
  | [] => ([], a)
  | e :: es =>
      let r := act e.2 a in
      let k := swept es r.2 in
      (if r.1 then k.1 else e :: k.1, k.2)
  end.

Fixpoint swept_all (cs : list (list entry)) (a : App) : list (list entry) * App :=
  match cs with
  | [] => ([], a)
  | c :: cs => let r := swept c a in let k := swept_all cs r.2 in (r.1 :: k.1, k.2)
  end.

Lemma swept_app es es' a :
  swept (es ++ es') a = ((swept es a).1 ++ (swept es' (swept es a).2).1, (swept es' (swept es a).2).2).
Proof.
  revert a. induction es as [|e es IH]; intros a; cbn; [by destruct (swept es' a)|].
  rewrite IH. cbn. by destruct (act e.2 a).1.
Qed.

Lemma swept_all_concat cs a : swept (concat cs) a = (concat (swept_all cs a).1, (swept_all cs a).2).
Proof.
  revert a. induction cs as [|c cs IH]; intros a; cbn; [done|]. by rewrite swept_app, IH.
Qed.

Lemma swept_sublist es a : sublist (swept es a).1 es.
Proof.
  revert a. induction es as [|e es IH]; intros a; cbn; [constructor|]. destruct (act e.2 a).1; by constructor.
Qed.
End Swept.

Section Doall.
Context `{Malloc}.
Variables (call_hash_func : Z -> Z -> Z) (call_cmp_func : Z -> Z -> Z -> Z) (f c : Z).
Context {Laws : LhashLaws call_hash_func call_cmp_func f c}.
Abbreviation hs := (elem_hash call_hash_func f).
Abbreviation eqv := (elem_eq call_cmp_func c).
Abbreviation table := (table call_hash_func call_cmp_func f c).
Implicit Types (s : lh_state) (cs : list (list entry)) (d : Z).

Lemma table_depth s cs v : table s cs -> table (mk_lh_state (with_depth v (lh s)) (items s)) cs.
Proof. intros T. by constructor; apply T. Qed.

Lemma no_resize fuel s : 0 < callback_depth (lh s) -> lh_maybe_resize fuel s = Done tt s.
Proof.
  intros Hd. unfold lh_maybe_resize. rewrite bind_get_lh. destruct (Z.ltb_spec 0 (callback_depth (lh s))); [done|lia].
Qed.

(** The element that the iteration is at is deleted: the chain goes on as before. *)
Lemma delete_at fuel s cs i pre q x k :
  table s cs -> (length (concat cs) < fuel)%nat -> 0 < callback_depth (lh s) -> cs !! i = Some (pre ++ (q, x) :: k) ->
  exists s', lh_delete call_hash_func call_cmp_func fuel x s = Done x s' /\ table s' (<[i := pre ++ k]> cs) /\
    callback_depth (lh s') = callback_depth (lh s).
Proof.
  intros T Hf Hdep Hi. assert ((q, x) ∈ concat cs) as Hqx by (eapply elem_concat; [exact Hi|set_solver]).
  destruct (search_run _ _ _ _ fuel s cs x T Hf) as (j & es & Hfo & E).
  assert (j = i) as ->.
  { apply Nat2Z.inj. rewrite <- (f_bucket Hfo). apply (t_placed T i _ (q, x) Hi). set_solver. }
  assert (es = pre ++ (q, x) :: k) as Hes by (pose proof (f_at Hfo); congruence).
  destruct (from (fun y => eqv y x) es) as [|[q' x'] k'] eqn:Efr.
  { destruct (none_in _ _ _ _ _ _ (f_none Hfo Efr) Hqx). apply eqv_refl. }
  destruct (found_some _ _ _ _ _ _ _ _ _ _ _ _ T Hfo Efr) as (Hes' & Hx' & Hin & Hq & nx & Em & Hk).
  assert ((q', x') = (q, x)) as [= -> ->] by (by apply (t_uniq T)).
  assert (pre = before (fun y => eqv y x) es /\ k = k') as [Hpre ->].
  { apply (split_unique _ _ _ _ (q, x)); [congruence|]. rewrite <- Hes. pose proof (t_nodup T) as Hd.
    destruct (concat_insert cs i _ (f_at Hfo)) as (rest & Hp & _). rewrite Hp, fmap_app in Hd.
    apply NoDup_app in Hd as (Hd & _). by apply NoDup_fmap_1 in Hd. }
  destruct (unlink_run _ _ _ _ s cs x i es q x k' nx T Hfo Efr Hk) as (s1 & E1 & T2 & K).
  unfold lh_delete. rewrite (bind_done _ _ _ _ _ E). cbn [fst]. rewrite (bind_done _ _ _ _ _ (f_get Hfo)), Efr.
  cbn [head_of]. rewrite (proj2 (Z.eqb_neq q 0) Hq), (bind_done _ _ _ _ _ (get_item_run _ _ _ Em)). cbn [item_next item_data].
  rewrite (bind_done _ _ _ _ _ E1), bind_modify, bind_upd_lh. cbv beta. cbn [lh items]. rewrite <- Hpre in T2.
  eexists. split; [|split; [exact T2|apply K]].
  etransitivity; [apply bind_done, no_resize; cbn; by rewrite (k_depth _ _ K)|done].
Qed.

(** ** The iteration *)
Context {App : Type}.
Variable act : Z -> App -> bool * App.

(** The callback: it deletes the element when [act] says so. *)
Definition sweep (fuel : nat) (d : Z) : M (lh_state * App) unit :=
  let* r := gets (fun t => act d (snd t)) in
  modify (fun t => (fst t, r.2));;;
  if r.1 then in_table (lh_delete call_hash_func call_cmp_func fuel d);;; ret tt else ret tt.

Lemma sweep_deletes fuel d s a a' x s1 :
  act d a = (true, a') -> lh_delete call_hash_func call_cmp_func fuel d s = Done x s1 ->
  sweep fuel d (s, a) = Done tt (s1, a').
Proof.
  intros Ea E. unfold sweep. rewrite bind_gets. cbv beta. cbn [snd]. rewrite Ea, bind_modify. cbn [fst snd].
  by rewrite (bind_done _ _ _ _ _ (in_table_run _ _ _ _ _ E)).
Qed.

Lemma sweep_keeps fuel d s a a' : act d a = (false, a') -> sweep fuel d (s, a) = Done tt (s, a').
Proof. intros Ea. unfold sweep. rewrite bind_gets. cbv beta. cbn [snd]. by rewrite Ea. Qed.

Lemma doall_chain_run fuel fuel' i es s cs pre a cur :
  table s cs -> (length (concat cs) < fuel)%nat -> 0 < callback_depth (lh s) -> cs !! i = Some (pre ++ es) ->
  chain hs (items s) cur es -> (length es < fuel')%nat ->
  exists s', doall_chain (sweep fuel) fuel' cur (s, a) = Done tt (s', (swept act es a).2) /\
    table s' (<[i := pre ++ (swept act es a).1]> cs) /\ callback_depth (lh s') = callback_depth (lh s).
Proof.
  revert s cs pre a cur fuel'. induction es as [|[q d] es IH]; intros s cs pre a cur [|fuel'] T Hf Hdep Hi Hc Hf';
    try (cbn in Hf'; lia); cbn [doall_chain].
  - cbn in Hc. subst cur. exists s. cbn. by rewrite list_insert_id.
  - cbn in Hc. destruct Hc as (-> & Hq & nx & Em & Hc). rewrite (proj2 (Z.eqb_neq q 0) Hq).
    rewrite (bind_done _ _ _ _ _ (in_table_run _ _ _ _ _ (get_item_run _ _ _ Em))). cbn [item_data item_next].
    cbn [swept snd]. destruct (act d a) as [[] a'] eqn:Ea; cbn [fst snd].
    + destruct (delete_at fuel s cs i pre q d es T Hf Hdep Hi) as (s1 & E & T1 & Hd1).
      assert (chain hs (items s1) nx es) as Hc1.
      { rewrite (chain_head _ _ _ _ Hc). assert (i < length cs)%nat by (by eapply lookup_lt_Some).
        destruct (Forall2_lookup_r _ _ _ i (pre ++ es) (t_chains T1)) as (b & _ & Hb); [by apply list_lookup_insert_eq|].
        by eapply chain_tail. }
      destruct (IH s1 (<[i := pre ++ es]> cs) pre a' nx fuel') as (s' & E' & T' & Hd'); [done| |lia| |done|cbn in Hf'; lia|].
      * destruct (concat_insert cs i _ Hi) as (rest & Hp & ->). rewrite Hp in Hf. cbn in Hf. rewrite !length_app in *. cbn in Hf. lia.
      * apply list_lookup_insert_eq. by eapply lookup_lt_Some.
      * exists s'. rewrite list_insert_insert_eq in T'. split; [|split; [done|congruence]].
        by rewrite (bind_done _ _ _ _ _ (sweep_deletes _ _ _ _ _ _ _ Ea E)).
    + destruct (IH s cs (pre ++ [(q, d)]) a' nx fuel') as (s' & E' & T' & Hd'); [done..| |done|cbn in Hf'; lia|].
      * by rewrite <- (assoc_L (++)).
      * exists s'. rewrite <- (assoc_L (++)) in T'. split; [|done].
        by rewrite (bind_done _ _ _ _ _ (sweep_keeps _ _ _ _ _ Ea)).
Qed.

Lemma doall_buckets_run turns fuel fuel' s pre cs a :
  table s (pre ++ cs) -> (length (concat (pre ++ cs)) < fuel)%nat -> (length (concat cs) < fuel')%nat -> 0 < callback_depth (lh s) ->
  (length cs < turns)%nat ->
  exists s', doall_buckets (sweep fuel) turns fuel' (zlen pre) (s, a) = Done tt (s', (swept_all act cs a).2) /\
    table s' (pre ++ (swept_all act cs a).1) /\ callback_depth (lh s') = callback_depth (lh s).
Proof.
  revert s pre a turns. induction cs as [|c0 cs IH]; intros s pre a [|turns] T Hf Hf' Hdep Ht; try (cbn in Ht; lia);
    cbn [doall_buckets]; rewrite (bind_done _ _ _ (num_buckets (lh s)) (s, a)) by done; rewrite <- (table_zlen T), zlen_app.
  - rewrite zlen_nil, Z.add_0_r, Z.ltb_irrefl. by exists s.
  - rewrite zlen_cons. destruct (Z.ltb_spec (zlen pre) (zlen pre + (1 + zlen cs))); [|zl].
    assert ((pre ++ c0 :: cs) !! length pre = Some c0) as Hi by (by apply list_lookup_middle).
    destruct (Forall2_lookup_r _ _ _ _ _ (t_chains T) Hi) as (b & Eb & Hb).
    pose proof (get_bucket_run _ _ _ Eb) as Er. fold (zlen pre) in Er. rewrite (bind_done _ _ _ _ _ (in_table_run _ _ _ _ _ Er)).
    cbn [concat] in Hf'. rewrite length_app in Hf'.
    destruct (doall_chain_run fuel fuel' (length pre) c0 s _ [] a b T Hf Hdep Hi Hb) as (s1 & E1 & T1 & Hd1); [lia|].
    rewrite (bind_done _ _ _ _ _ E1). rewrite insert_middle in T1. cbn [app] in T1. rewrite cons_middle, (assoc_L (++)) in T1.
    destruct (IH s1 (pre ++ [(swept act c0 a).1]) (swept act c0 a).2 turns) as (s' & E' & T' & Hd'); [done| |lia|lia|cbn in Ht; lia|].
    + pose proof (sublist_length _ _ (swept_sublist act c0 a)) as Hle. rewrite !concat_app in *. cbn [concat] in *.
      rewrite !length_app in *. cbn. lia.
    + exists s'. rewrite zlen_app, zlen_cons, zlen_nil in E'. rewrite <- (assoc_L (++)) in T'.
      split; [exact E'|]. split; [exact T'|congruence].
Qed.

(** Every element is visited once, those that [act] chooses are deleted, and the
    resizing waits for the end. *)
Lemma doall_run turns fuel s cs a :
  table s cs -> (length (concat cs) < fuel)%nat -> 0 <= callback_depth (lh s) -> callback_depth (lh s) + 1 < UINT_MAX ->
  (length cs < turns)%nat ->
  exists s' cs', lh_doall_arg (sweep fuel) turns fuel (s, a) = Done tt (s', (swept act (concat cs) a).2) /\
    table s' cs' /\ concat cs' ≡ₚ (swept act (concat cs) a).1 /\ callback_depth (lh s') = callback_depth (lh s).
Proof.
  intros T Hf Hd0 Hd1 Ht. unfold lh_doall_arg.
  set (s0 := mk_lh_state (with_depth (callback_depth (lh s) + 1) (lh s)) (items s)).
  rewrite (bind_done _ _ _ tt (s0, a)).
  2: { apply in_table_run. unfold upd_lh, modify. destruct (Z.ltb_spec (callback_depth (lh s)) UINT_MAX); [done|lia]. }
  destruct (doall_buckets_run turns fuel fuel s0 [] cs a) as (s1 & E1 & T1 & D1);
    [by apply table_depth|done|done|cbn; lia|done|].
  rewrite (bind_done _ _ _ _ _ E1). cbn in D1. cbn [app] in T1.
  set (s2 := mk_lh_state (with_depth (callback_depth (lh s)) (lh s1)) (items s1)).
  rewrite (bind_done _ _ _ tt (s2, (swept_all act cs a).2)).
  2: { apply in_table_run. unfold upd_lh, modify, s2. rewrite D1.
       destruct (Z.ltb_spec (callback_depth (lh s) + 1) UINT_MAX); [|lia]. by rewrite Z.add_simpl_r. }
  rewrite swept_all_concat. cbn [fst snd].
  assert (table s2 (swept_all act cs a).1) as T2 by (by apply table_depth).
  destruct (lh_maybe_resize_run _ _ _ _ fuel s2 _ T2) as (s' & cs' & E' & T' & Hp & D' & _).
  - pose proof (sublist_length _ _ (swept_sublist act (concat cs) a)) as Hle. rewrite swept_all_concat in Hle. cbn in Hle. lia.
  - exists s', cs'. split; [by apply in_table_run|]. done.
Qed.
End Doall.

(** ** The end of a table *)
Section Free.
Variable hs : Z -> Z.

(** What freeing items changes. *)
Definition freed (ps : list Z) (s s' : lh_state) : Prop :=
  lh s' = lh s /\ forall q, items s' !! q = if decide (q ∈ ps) then None else items s !! q.

Lemma freed_app ps qs s1 s2 s3 : freed ps s1 s2 -> freed qs s2 s3 -> freed (ps ++ qs) s1 s3.
Proof.
  intros [L1 F1] [L2 F2]. split; [congruence|]. intros q. rewrite F2, F1.
  destruct (decide (q ∈ qs)), (decide (q ∈ ps)), (decide (q ∈ ps ++ qs)); set_solver.
Qed.

Lemma free_chain_run fuel s cur es :
  chain hs (items s) cur es -> NoDup es.*1 -> (length es < fuel)%nat ->
  exists s', free_chain fuel cur s = Done tt s' /\ freed es.*1 s s'.
Proof.
  revert s cur fuel. induction es as [|[q d] es IH]; intros s cur [|fuel] Hc Hd Hf; try (cbn in Hf; lia); cbn [free_chain].
  - cbn in Hc. subst cur. by exists s.
  - cbn in Hc, Hd. destruct Hc as (-> & Hq & nx & Em & Hc). apply NoDup_cons in Hd as [Hn Hd].
    rewrite (proj2 (Z.eqb_neq q 0) Hq), (bind_done _ _ _ _ _ (get_item_run _ _ _ Em)), bind_modify. cbv beta. cbn [item_next].
    destruct (IH (mk_lh_state (lh s) (delete q (items s))) nx fuel) as (s' & E & F); [by apply chain_delete|done|cbn in Hf; lia|].
    exists s'. split; [done|]. cbn. change (q :: es.*1) with ([q] ++ es.*1). eapply freed_app; [|exact F].
    split; [done|]. intros q'. cbn. destruct (decide (q' ∈ [q])) as [->%list_elem_of_singleton|Hne].
    + apply lookup_delete_eq.
    + apply lookup_delete_ne. intros ->. set_solver.
Qed.

Lemma free_buckets_run fuel s bs cs :
  Forall2 (chain hs (items s)) bs cs -> NoDup (concat cs).*1 -> (length (concat cs) < fuel)%nat ->
  exists s', free_buckets fuel bs s = Done tt s' /\ freed (concat cs).*1 s s'.
Proof.
  revert s bs. induction cs as [|es cs IH]; intros s bs Hf Hd Hl.
  { apply Forall2_nil_inv_r in Hf as ->. by exists s. }
  apply Forall2_cons_inv_r in Hf as (b & bs' & Hb & Hf & ->). cbn in Hd, Hl. rewrite fmap_app in Hd. rewrite length_app in Hl.
  apply NoDup_app in Hd as (Hd1 & Hx & Hd2).
  destruct (free_chain_run fuel s b es Hb Hd1) as (s1 & E1 & F1); [lia|].
  destruct (IH s1 bs') as (s' & E' & F'); [|done|lia|].
  - eapply chains_ext; [|exact Hf]. intros q Hq. rewrite (proj2 F1). destruct (decide (q ∈ es.*1)) as [Hin|]; [|done].
    by destruct (Hx q Hin).
  - exists s'. cbn [free_buckets concat]. rewrite (bind_done _ _ _ _ _ E1), fmap_app. split; [done|]. by eapply freed_app.
Qed.
End Free.

Lemma free_run chf ccf f c fuel s cs :
  table chf ccf f c s cs -> (length (concat cs) < fuel)%nat -> exists s', lh_free fuel s = Done tt s' /\ items s' = ∅.
Proof.
  intros T Hf. unfold lh_free. repeat (rewrite bind_get_lh; cbv beta).
  assert (Z.to_nat (num_buckets (lh s)) = length (buckets (lh s))) as -> by (rewrite <- (t_len T); apply zlen_to_nat).
  rewrite firstn_all. destruct (free_buckets_run _ fuel s _ _ (t_chains T) (t_nodup T) Hf) as (s' & E & F).
  exists s'. split; [done|]. apply map_empty. intros q. rewrite (proj2 F). destruct (decide (q ∈ (concat cs).*1)) as [|Hn]; [done|].
  apply not_elem_of_dom. by rewrite (t_dom T), elem_of_list_to_set.
Qed.
