(* ===== verification/LhashTheorems.v ===== *)
(** BoringSSL, the hash table: what [crypto/lhash/lhash.c] promises. *)
From S2P Require Import Prelude.
From S2P Require Import Lhash LhashProofs LhashTable LhashDoall.
#[local] Set Warnings "-clear-no-such-hyp".

(** ** The specification: a set of elements, no two of them equal *)
Inductive lh_op : Set := Retrieve (d : Z) | Insert (d : Z) | Delete (d : Z) | NumItems.
Inductive lh_result : Set := Pointer (p : Z) | Inserted (ok : bool) (old : Z) | Number (n : Z).

Section Spec.
Variable eqv : Z -> Z -> bool.
(** Whether the allocator has an item at the time of the call. *)
Variable memory : Prop.

Definition none_like (xs : list Z) (d : Z) : Prop := forall x, x ∈ xs -> eqv x d = false.

Inductive set_step (xs : list Z) : lh_op -> lh_result -> list Z -> Prop :=
| step_found d x : x ∈ xs -> eqv x d = true -> set_step xs (Retrieve d) (Pointer x) xs
| step_missing d : none_like xs d -> set_step xs (Retrieve d) (Pointer 0) xs
| step_replace d x ys : xs ≡ₚ x :: ys -> eqv x d = true -> set_step xs (Insert d) (Inserted true x) (d :: ys)
| step_add d : none_like xs d -> memory -> set_step xs (Insert d) (Inserted true 0) (d :: xs)
| step_no_memory d : none_like xs d -> ~ memory -> set_step xs (Insert d) (Inserted false 0) xs
| step_delete d x ys : xs ≡ₚ x :: ys -> eqv x d = true -> set_step xs (Delete d) (Pointer x) ys
| step_absent d : none_like xs d -> set_step xs (Delete d) (Pointer 0) xs
| step_number : set_step xs NumItems (Number (zlen xs)) xs.
End Spec.

Section Programs.
Context `{Malloc}.
Variables (call_hash_func : Z -> Z -> Z) (call_cmp_func : Z -> Z -> Z -> Z).

(** ** Programs of calls *)
Definition item_memory (s : lh_state) : Prop := is_Some (malloc_item (items s)).

Definition run_op (fuel : nat) (op : lh_op) : L lh_result :=
  match op with
  | Retrieve d => let* p := lh_retrieve call_hash_func call_cmp_func fuel d in ret (Pointer p)
  | Insert d => let* r := lh_insert call_hash_func call_cmp_func fuel d in ret (Inserted r.1 r.2)
  | Delete d => let* p := lh_delete call_hash_func call_cmp_func fuel d in ret (Pointer p)
  | NumItems => let* n := lh_num_items in ret (Number n)
  end.

Fixpoint run_ops (fuel : nat) (ops : list lh_op) : L (list lh_result) :=
  match ops with
  | [] => ret []
  | op :: ops => let* r := run_op fuel op in let* rs := run_ops fuel ops in ret (r :: rs)
  end.

Variables (f c : Z).
Context {Laws : LhashLaws call_hash_func call_cmp_func f c}.
Abbreviation eqv := (elem_eq call_cmp_func c).
Abbreviation table := (table call_hash_func call_cmp_func f c).
Implicit Types (s : lh_state) (cs : list (list entry)) (xs : list Z).

(** The table holds the elements [xs]. *)
Definition holds s xs : Prop := exists cs, table s cs /\ (concat cs).*2 ≡ₚ xs.

(** The calls one after the other, each a step of the specification from the
    set that the table holds to the set that it holds afterwards. *)
Inductive set_steps (fuel : nat) : lh_state -> list Z -> list lh_op -> list lh_result -> lh_state -> list Z -> Prop :=
| steps_nil s xs : set_steps fuel s xs [] [] s xs
| steps_cons s xs op r t ys ops rs u zs :
    run_op fuel op s = Done r t -> set_step eqv (item_memory s) xs op r ys -> holds t ys ->
    set_steps fuel t ys ops rs u zs -> set_steps fuel s xs (op :: ops) (r :: rs) u zs.

Lemma none_like_of es xs d : es.*2 ≡ₚ xs -> none_equal call_cmp_func c es d -> none_like eqv xs d.
Proof. intros Hp Hn x. rewrite <- Hp. intros (e & -> & He)%list_elem_of_fmap. by apply Hn. Qed.

Lemma table_new l :
  lh_new f c = Some l -> table (mk_lh_state l ∅) (replicate 16 []) /\ callback_depth l = 0 /\ balanced l.
Proof.
  unfold lh_new. destruct (_ && _); [|done]. intros [= <-]. split; [|split; [done|split; [by left|done]]]. constructor; try done.
  - cbn. by repeat constructor.
  - intros i b e [-> _]%lookup_replicate. set_solver.
  - constructor.
  - set_solver.
  - intros e e'. set_solver.
Qed.

(** One call: its step of the specification, and the bounds on the buckets. *)
Record goes s s' cs' xs xs' : Prop := {
  g_table : table s' cs';
  g_elements : (concat cs').*2 ≡ₚ xs';
  g_length : (length xs' <= S (length xs))%nat;
  g_depth : callback_depth (lh s') = callback_depth (lh s);
  g_balanced : callback_depth (lh s) <= 0 -> (forall n, malloc_bytes n = true) -> balanced (lh s) -> balanced (lh s')
}.

Lemma goes_refl s cs xs : table s cs -> (concat cs).*2 ≡ₚ xs -> goes s s cs xs xs.
Proof. intros T Hp. constructor; try done. lia. Qed.

Lemma becomes_goes s s' cs cs' es xs xs' :
  table s cs -> (concat cs).*2 ≡ₚ xs -> becomes call_hash_func call_cmp_func f c s s' es cs' -> es.*2 ≡ₚ xs' ->
  (length xs' <= S (length xs))%nat -> (length xs <= S (length xs'))%nat -> goes s s' cs' xs xs'.
Proof.
  intros T Hxs [T' Hp Hd Hn] Hes H1 H2. constructor; [done|by rewrite Hp|done|done|].
  intros Hd0 Hm [Hlo Hhi]. specialize (Hn Hd0 Hm). pose proof (t_min T) as Hmin.
  assert (num_items (lh s') = zlen es) as Ei by (rewrite (t_items T'); unfold zlen; by rewrite Hp).
  assert (length es = length xs') as El by (by rewrite <- Hes, length_fmap).
  assert (length (concat cs) = length xs) as El' by (by rewrite <- Hxs, length_fmap).
  rewrite (t_items T) in Hlo, Hhi. unfold balanced. rewrite Ei, Hn.
  apply (balanced_resized (zlen (concat cs))); [lia|apply zlen_nonneg|unfold zlen in *; lia..|exact Hlo|exact Hhi].
Qed.

Lemma op_run fuel op s cs xs :
  table s cs -> (concat cs).*2 ≡ₚ xs -> (S (length xs) < fuel)%nat ->
  exists r s' cs' xs', run_op fuel op s = Done r s' /\ set_step eqv (item_memory s) xs op r xs' /\ goes s s' cs' xs xs'.
Proof.
  intros T Hxs Hf. assert (length (concat cs) = length xs) as El by (by rewrite <- Hxs, length_fmap).
  assert (forall q x, (q, x) ∈ concat cs -> x ∈ xs) as Hin by (intros q x; rewrite <- Hxs; apply (list_elem_of_fmap_2 snd _ (q, x))).
  pose proof (goes_refl s cs xs T Hxs) as Hrefl. destruct op as [d|d|d|]; cbn [run_op].
  - destruct (retrieve_run _ _ _ _ fuel s cs d T) as (p & E & [(q & Hq & Hd)|[-> Hn]]); [lia|..];
      eexists _, s, cs, xs; rewrite (bind_done _ _ _ _ _ E); (split; [done|]); (split; [|done]).
    + eapply step_found; [by eapply Hin|done].
    + eapply step_missing, none_like_of; done.
  - destruct (equal_or_none call_hash_func call_cmp_func f c (concat cs) d) as [(q & x & Hq & Hd)|Hn].
    + destruct (insert_old_run _ _ _ _ fuel s cs d q x T) as (s' & cs' & rest & E & T' & El' & Hp & Hp'); [lia|done..|].
      rewrite Hp in Hxs. cbn in Hxs.
      exists (Inserted true x), s', cs', (d :: rest.*2). rewrite (bind_done _ _ _ _ _ E). split; [done|].
      split; [by apply (step_replace _ _ _ _ x)|]. constructor; rewrite ?El'; try done.
      * by rewrite Hp'.
      * rewrite <- Hxs. cbn. lia.
    + pose proof (insert_new_run _ _ _ _ fuel s cs d T ltac:(lia) Hn) as E.
      pose proof (none_like_of _ _ _ Hxs Hn) as Hn'.
      destruct (malloc_item (items s)) as [p|] eqn:Em.
      * destruct E as (s' & cs' & E & B). exists (Inserted true 0), s', cs', (d :: xs).
        rewrite (bind_done _ _ _ _ _ E). split; [done|]. split; [apply step_add; [done|by exists p]|].
        eapply becomes_goes; [done..| | |]; cbn; [by rewrite Hxs|lia..].
      * exists (Inserted false 0), s, cs, xs. rewrite (bind_done _ _ _ _ _ E). split; [done|]. split; [|done]. apply step_no_memory; [done|]. intros [p Ep]. congruence.
  - destruct (equal_or_none call_hash_func call_cmp_func f c (concat cs) d) as [(q & x & Hq & Hd)|Hn].
    + destruct (delete_run _ _ _ _ fuel s cs d q x T) as (s' & cs' & rest & E & Hp & B); [lia|done..|].
      rewrite Hp in Hxs. cbn in Hxs. exists (Pointer x), s', cs', (rest.*2). rewrite (bind_done _ _ _ _ _ E). split; [done|].
      split; [by apply (step_delete _ _ _ _ x)|]. eapply becomes_goes; [done| |done..| |]; [by rewrite Hp|rewrite <- Hxs; cbn; lia..].
    + pose proof (delete_none_run _ _ _ _ fuel s cs d T ltac:(lia) Hn) as E.
      exists (Pointer 0), s, cs, xs. rewrite (bind_done _ _ _ _ _ E). split; [done|]. split; [|done].
      by eapply step_absent, none_like_of.
  - exists (Number (zlen xs)), s, cs, xs. split; [|by split; [constructor|]].
    unfold lh_num_items. rewrite bind_get_lh, (t_items T). unfold zlen. by rewrite El.
Qed.

Lemma ops_run fuel ops s cs xs :
  table s cs -> (concat cs).*2 ≡ₚ xs -> (length xs + length ops < fuel)%nat ->
  exists rs s' cs' xs', run_ops fuel ops s = Done rs s' /\ set_steps fuel s xs ops rs s' xs' /\
    table s' cs' /\ (concat cs').*2 ≡ₚ xs' /\
    (callback_depth (lh s) <= 0 -> (forall n, malloc_bytes n = true) -> balanced (lh s) -> balanced (lh s')).
Proof.
  revert s cs xs. induction ops as [|op ops IH]; intros s cs xs T Hxs Hf; cbn [run_ops length] in *.
  - exists [], s, cs, xs. split; [done|]. split; [constructor|done].
  - destruct (op_run fuel op s cs xs T Hxs) as (r & s1 & cs1 & xs1 & E1 & S1 & G); [lia|].
    pose proof (g_length _ _ _ _ _ G) as Hl.
    destruct (IH s1 cs1 xs1) as (rs & s' & cs' & xs' & E' & S' & T' & Hxs' & B'); [apply G|apply G|lia|].
    exists (r :: rs), s', cs', xs'. rewrite (bind_done _ _ _ _ _ E1), (bind_done _ _ _ _ _ E'). split; [done|].
    split; [econstructor; [exact E1|done|exists cs1; split; apply G|done]|]. split; [done|]. split; [done|]. intros Hd Hm Hb. apply B'; [|done|].
    + by rewrite (g_depth _ _ _ _ _ G).
    + by apply (g_balanced _ _ _ _ _ G).
Qed.
End Programs.

(** ** A sample: elements with the key [d / 10], and a memory of 64 items *)
#[export] Instance sample_malloc : Malloc := {|
  malloc_item m := List.find (fun p => bool_decide (m !! p = None)) (map (fun k => 8 * Z.of_nat k) (seq 1 64));
  malloc_bytes _ := true
|}.

Definition sample_hash (_ d : Z) : Z := d / 10.
Definition sample_cmp (_ x y : Z) : Z := x / 10 - y / 10.

#[export] Instance sample_laws : LhashLaws sample_hash sample_cmp 1 2.
Proof.
  constructor; unfold elem_eq, elem_hash, sample_hash, sample_cmp.
  - intros x. apply Z.eqb_eq. lia.
  - intros x y ?%Z.eqb_eq. apply Z.eqb_eq. lia.
  - intros x y z ?%Z.eqb_eq ?%Z.eqb_eq. apply Z.eqb_eq. lia.
  - intros x y ?%Z.eqb_eq. f_equal. lia.
  - intros m p E. apply List.find_some in E as [Hin Hp]. split; [by apply bool_decide_eq_true in Hp|].
    apply in_map_iff in Hin as (k & <- & Hk%in_seq). exists (Z.of_nat k). lia.
Qed.

Definition sample_lhash : lhash := mk_lhash 0 (replicate 16 0) 16 0 2 1.

Lemma sample_new : lh_new 1 2 = Some sample_lhash.
Proof. reflexivity. Qed.

Definition sample_table (ops : list lh_op) : lh_state :=
  match run_ops sample_hash sample_cmp 100 ops (mk_lh_state sample_lhash ∅) with
  | Done _ s => s
  | _ => mk_lh_state sample_lhash ∅
  end.

(** The elements 10 and 170 share the bucket 1. *)
Definition two_in_a_chain : list lh_op := [Insert 10; Insert 170; Insert 31].

(** ** The theorems *)
Section Theorems.
Context `{Malloc}.
Variables (call_hash_func : Z -> Z -> Z) (call_cmp_func : Z -> Z -> Z -> Z) (f c : Z).
Context {Laws : LhashLaws call_hash_func call_cmp_func f c}.
Abbreviation eqv := (elem_eq call_cmp_func c).
Abbreviation holds := (holds call_hash_func call_cmp_func f c).

(** C21: A new hash table behaves as a set of elements, no two equal under the
    comparison: any sequence of retrievals, insertions, deletions and counts
    returns what the set would, whatever the resizing does, and leaves a table
    that holds the set; an insertion fails exactly when its element is new and
    the allocator has no memory for the item, and it changes nothing then. *)
Theorem lhash_refines_set l ops fuel :
  lh_new f c = Some l -> (length ops < fuel)%nat ->
  exists rs s xs, run_ops call_hash_func call_cmp_func fuel ops (mk_lh_state l ∅) = Done rs s /\
    set_steps call_hash_func call_cmp_func f c fuel (mk_lh_state l ∅) [] ops rs s xs /\ holds s xs.
Proof.
  intros (T & _)%(table_new call_hash_func call_cmp_func f c) Hf.
  destruct (ops_run _ _ _ _ fuel ops _ _ [] T) as (rs & s & cs & xs & E & S & T' & Hxs & _); [done|done|].
  exists rs, s, xs. split; [done|]. split; [done|]. by exists cs.
Qed.

(** C22: When there is memory for the arrays, the average chain never exceeds
    [kMaxAverageChainLength] after a call, and the array shrinks back: it has
    [kMinNumBuckets] buckets, or no more than one bucket for each item. *)
Theorem lhash_stays_balanced l ops fuel rs s :
  (forall n, malloc_bytes n = true) -> lh_new f c = Some l -> (length ops < fuel)%nat ->
  run_ops call_hash_func call_cmp_func fuel ops (mk_lh_state l ∅) = Done rs s ->
  num_items (lh s) / num_buckets (lh s) <= kMaxAverageChainLength /\
  (num_buckets (lh s) = kMinNumBuckets \/ num_buckets (lh s) <= num_items (lh s)).
Proof.
  intros Hm (T & Hd & Hb)%(table_new call_hash_func call_cmp_func f c) Hf E.
  destruct (ops_run _ _ _ _ fuel ops _ _ [] T) as (rs' & s' & cs & xs & E' & _ & T' & _ & B); [done|done|].
  rewrite E in E'. injection E' as <- <-. destruct B as [Hlo Hhi]; [cbn; lia|done..|]. split; [|done].
  pose proof (t_min T'). apply Z.lt_succ_r, average_lt; unfold kMaxAverageChainLength; lia.
Qed.

(** C23: [lh_doall_arg] calls its function once for each element of the table;
    the calls may delete the element they are given; the elements that stay are
    the others, and the resizing that was held back keeps them. *)
Theorem doall_visits_each_once {App} (act : Z -> App -> bool * App) fuel turns s xs a :
  holds s xs -> (length xs < fuel)%nat -> num_buckets (lh s) < Z.of_nat turns ->
  0 <= callback_depth (lh s) -> callback_depth (lh s) + 1 < UINT_MAX ->
  exists es s', es.*2 ≡ₚ xs /\
    lh_doall_arg (sweep call_hash_func call_cmp_func act fuel) turns fuel (s, a) = Done tt (s', (swept act es a).2) /\
    holds s' (swept act es a).1.*2 /\ callback_depth (lh s') = callback_depth (lh s).
Proof.
  intros (cs & T & Hxs) Hf Ht Hd0 Hd1. pose proof (table_zlen T) as Hz. unfold zlen in Hz.
  destruct (doall_run _ _ _ _ act turns fuel s cs a T) as (s' & cs' & E & T' & Hp & D); [|done|done|lia|].
  { by rewrite <- (length_fmap snd), Hxs. }
  exists (concat cs), s'. split; [done|]. split; [done|]. split; [|done]. exists cs'. by rewrite Hp.
Qed.

(** [lh_free] frees every item of the table, each once. *)
Theorem lh_free_frees_all fuel s xs :
  holds s xs -> (length xs < fuel)%nat -> exists s', lh_free fuel s = Done tt s' /\ items s' = ∅.
Proof.
  intros (cs & T & Hxs) Hf. eapply free_run; [exact T|]. by rewrite <- (length_fmap snd), Hxs.
Qed.

(** [lh_retrieve_key] finds what [lh_retrieve] would find with an element of
    that key. *)
Theorem retrieve_key_agrees fuel s xs cmp_key d :
  holds s xs -> (length xs < fuel)%nat -> (forall x, cmp_key x = 0 <-> call_cmp_func c x d = 0) ->
  lh_retrieve_key fuel cmp_key (u32 (call_hash_func f d)) s = lh_retrieve call_hash_func call_cmp_func fuel d s.
Proof.
  intros (cs & T & Hxs) Hf Hk. assert (length (concat cs) < fuel)%nat as Hf' by (by rewrite <- (length_fmap snd), Hxs).
  assert (forall eq, (forall x, eq x = eqv x d) -> exists r, bind (bucket_of (u32 (call_hash_func f d))) (find_loop fuel eq) s = Done r s /\
    get_next_ptr_and_hash call_hash_func call_cmp_func fuel d s = Done (r, u32 (call_hash_func f d)) s) as Hs.
  { intros eq Heq. destruct (search_by _ _ _ _ fuel eq s cs d T Hf' Heq) as (i & es & Hfo & E).
    destruct (search_run _ _ _ _ fuel s cs d T Hf') as (i' & es' & Hfo' & E').
    pose proof (f_bucket Hfo) as Hb. rewrite (f_bucket Hfo') in Hb. apply Nat2Z.inj in Hb as ->.
    pose proof (f_at Hfo) as Ha. rewrite (f_at Hfo') in Ha. injection Ha as ->. eauto. }
  destruct (Hs (fun x => cmp_key x =? 0)) as (r & E & E').
  { intros x. unfold elem_eq. apply eq_bool_prop_intro. rewrite !Is_true_true, !Z.eqb_eq. apply Hk. }
  unfold lh_retrieve_key, lh_retrieve, get_next_ptr_by_key. by rewrite (bind_done _ _ _ _ _ E), (bind_done _ _ _ _ _ E').
Qed.
End Theorems.

(** A callback of [lh_doall_arg] that deletes the next element of the chain
    makes the iteration read the freed item, whose pointer it holds. *)
Theorem doall_deleting_next_undefined :
  lh_doall_arg (App := unit) (fun d => if d =? 10 then in_table (lh_delete sample_hash sample_cmp 100 170);;; ret tt else ret tt)
    100 100 (sample_table two_in_a_chain, tt) = Undef UbMem.
Proof. by vm_compute. Qed.

(** ** The theorems at the sample *)
Definition sample_results (ops : list lh_op) : list lh_result :=
  match run_ops sample_hash sample_cmp 100 ops (mk_lh_state sample_lhash ∅) with Done rs _ => rs | _ => [] end.

Definition sample_ops : list lh_op :=
  two_in_a_chain ++ [Insert 175; Retrieve 12; Retrieve 44; Delete 19; Delete 10; NumItems].

(** Fifty insertions, and forty deletions. *)
Definition many_ops : list lh_op :=
  map (fun k => Insert (10 * Z.of_nat k)) (seq 1 50) ++ map (fun k => Delete (10 * Z.of_nat k)) (seq 1 40).

Example sample_values :
  sample_results sample_ops
  = [Inserted true 0; Inserted true 0; Inserted true 0; Inserted true 170; Pointer 10; Pointer 0; Pointer 10; Pointer 0; Number 2].
Proof. by vm_compute. Qed.

Example many_buckets :
  num_buckets (lh (sample_table (take 50 many_ops))) = 32 /\ num_buckets (lh (sample_table many_ops)) = 16.
Proof. by vm_compute. Qed.

Lemma sample_holds ops :
  (length ops < 100)%nat ->
  exists xs, holds sample_hash sample_cmp 1 2 (sample_table ops) xs /\ zlen xs = num_items (lh (sample_table ops)).
Proof.
  intros Hl. destruct (table_new sample_hash sample_cmp 1 2 sample_lhash sample_new) as (T & _).
  destruct (ops_run sample_hash sample_cmp 1 2 100 ops _ _ [] T) as (rs & s & cs & xs & E & _ & T' & Hxs & _); [done|done|].
  exists xs. unfold sample_table. rewrite E. split; [by exists cs|]. rewrite (t_items T'). unfold zlen.
  by rewrite <- Hxs, length_fmap.
Qed.

Lemma lhash_refines_set_witness :
  exists rs s xs, run_ops sample_hash sample_cmp 100 sample_ops (mk_lh_state sample_lhash ∅) = Done rs s /\
    set_steps sample_hash sample_cmp 1 2 100 (mk_lh_state sample_lhash ∅) [] sample_ops rs s xs /\ holds sample_hash sample_cmp 1 2 s xs.
Proof. apply (lhash_refines_set sample_hash sample_cmp 1 2 sample_lhash); [exact sample_new|cbn; lia]. Defined.

Lemma lhash_stays_balanced_witness :
  num_items (lh (sample_table many_ops)) / num_buckets (lh (sample_table many_ops)) <= kMaxAverageChainLength /\
  (num_buckets (lh (sample_table many_ops)) = kMinNumBuckets \/
   num_buckets (lh (sample_table many_ops)) <= num_items (lh (sample_table many_ops))).
Proof.
  apply (lhash_stays_balanced sample_hash sample_cmp 1 2 sample_lhash many_ops 100 (sample_results many_ops));
    [reflexivity|exact sample_new|vm_compute; lia|vm_compute; reflexivity].
Defined.

(** The callback deletes the elements above 100, and counts. *)
Lemma doall_visits_each_once_witness :
  exists xs es s', zlen xs = 3 /\ es.*2 ≡ₚ xs /\
    lh_doall_arg (sweep sample_hash sample_cmp (fun d n => (100 <? d, n + 1)) 100) 100 100 (sample_table two_in_a_chain, 0)
    = Done tt (s', (swept (fun d n => (100 <? d, n + 1)) es 0).2) /\
    holds sample_hash sample_cmp 1 2 s' (swept (fun d n => (100 <? d, n + 1)) es 0).1.*2 /\
    callback_depth (lh s') = 0.
Proof.
  destruct (sample_holds two_in_a_chain) as (xs & Hh & Hl); [cbn; lia|].
  change (num_items (lh (sample_table two_in_a_chain))) with 3 in Hl.
  destruct (doall_visits_each_once sample_hash sample_cmp 1 2 (fun d n => (100 <? d, n + 1)) 100 100
    (sample_table two_in_a_chain) xs 0 Hh) as (es & s' & H1 & H2 & H3 & H4);
    [unfold zlen in Hl; lia|vm_compute; reflexivity|vm_compute; discriminate|vm_compute; reflexivity|].
  exists xs, es, s'. by repeat split.
Defined.

Lemma lh_free_frees_all_witness :
  exists s', lh_free 100 (sample_table sample_ops) = Done tt s' /\ items s' = ∅.
Proof.
  destruct (sample_holds sample_ops) as (xs & Hh & Hl); [cbn; lia|].
  change (num_items (lh (sample_table sample_ops))) with 2 in Hl.
  apply (lh_free_frees_all sample_hash sample_cmp 1 2 100 (sample_table sample_ops) xs Hh). unfold zlen in Hl. lia.
Defined.

(** The key 17 is that of 170 and of 175. *)
Lemma retrieve_key_agrees_witness :
  lh_retrieve_key 100 (fun x => x / 10 - 17) 17 (sample_table sample_ops)
  = lh_retrieve sample_hash sample_cmp 100 170 (sample_table sample_ops).
Proof.
  destruct (sample_holds sample_ops) as (xs & Hh & Hl); [cbn; lia|].
  change (num_items (lh (sample_table sample_ops))) with 2 in Hl.
  apply (retrieve_key_agrees sample_hash sample_cmp 1 2 100 (sample_table sample_ops) xs _ 170 Hh);
    [unfold zlen in Hl; lia|done].
Defined.
