(* ===== verification/UvHeap.v ===== *)
(** libuv, [heap-inl.h]: the binary min heap of the timers, nodes linked by
    pointers.  The state of the monad is the heap with the memory of the nodes;
    an address that holds no node is [UbMem], the null pointer is 0. *)
From S2P Require Import Prelude.

Record heap_node : Type := mk_node { left : Z; right : Z; parent : Z }.

Record heap : Type := mk_heap { nodes : gmap Z heap_node; min : Z; nelts : Z }.

Definition Hp : Type -> Type := M heap.

Definition set_left (v : Z) (n : heap_node) : heap_node := mk_node v (right n) (parent n).
Definition set_right (v : Z) (n : heap_node) : heap_node := mk_node (left n) v (parent n).
Definition set_parent (v : Z) (n : heap_node) : heap_node := mk_node (left n) (right n) v.

(** [*p], and assignments through [p]. *)
Definition get_node (p : Z) : Hp heap_node := fun h => of_option UbMem (nodes h !! p) h.
Definition upd_node (p : Z) (f : heap_node -> heap_node) : Hp unit :=
  let* _ := get_node p in
  modify (fun h => mk_heap (alter f p (nodes h)) (min h) (nelts h)).
Definition put_min (p : Z) : Hp unit := modify (fun h => mk_heap (nodes h) p (nelts h)).
Definition put_nelts (n : Z) : Hp unit := modify (fun h => mk_heap (nodes h) (min h) n).

(** A [struct heap_node**] into the heap. *)
Inductive slot : Type :=
| SMin
| SLeft (p : Z)
| SRight (p : Z).

Definition load_slot (s : slot) : Hp Z :=
  match s with
  | SMin => gets min
  | SLeft p => let* n := get_node p in ret (left n)
  | SRight p => let* n := get_node p in ret (right n)
  end.

Definition store_slot (s : slot) (v : Z) : Hp unit :=
  match s with
  | SMin => put_min v
  | SLeft p => upd_node p (set_left v)
  | SRight p => upd_node p (set_right v)
  end.

(** [if (p != NULL) p->parent = v]. *)
Definition relink (p v : Z) : Hp unit :=
  if p =? 0 then ret tt else upd_node p (set_parent v).

(** The link to [old] from its parent [q], or from the root, made to [new]. *)
Definition replace_link (q old new : Z) : Hp unit :=
  if q =? 0 then put_min new
  else
    let* g := get_node q in
    if left g =? old then upd_node q (set_left new) else upd_node q (set_right new).

Definition heap_init (h : heap) : heap := mk_heap (nodes h) 0 0.

Definition heap_min : Hp Z := gets min.

Definition heap_node_swap (parent_ child : Z) : Hp unit :=
  let* t := get_node parent_ in
  let* c := get_node child in
  upd_node parent_ (fun _ => c);;;
  upd_node child (fun _ => t);;;
  upd_node parent_ (set_parent child);;;
  let* c := get_node child in
  let* sibling :=
    (if left c =? child then upd_node child (set_left parent_);;; ret (right c)
     else upd_node child (set_right parent_);;; ret (left c)) in
  relink sibling child;;;
  let* p := get_node parent_ in
  relink (left p) parent_;;;
  let* p := get_node parent_ in
  relink (right p) parent_;;;
  let* c := get_node child in
  replace_link (parent c) parent_ child.

(** [for (k = 0; n >= 2; k += 1, n /= 2) path = (path << 1) | (n & 1)]: the
    path and its length. *)
Fixpoint path_loop (fuel : nat) (n k path : Z) : Hp (Z * Z) :=
  match fuel with
  | O => out_of_fuel
  | S fuel =>
      if 2 <=? n
      then path_loop fuel (n / 2) (u32 (k + 1)) (Z.lor (u32 (Z.shiftl path 1)) (Z.land n 1))
      else ret (path, k)
  end.

(** The turns of [path_loop] on an [unsigned int]. *)
Definition path_fuel : nat := 33.

(** [while (k > 0)]: the slots [parent] and [child] of the insertion; the
    removal looks at the latter only, its [max]. *)
Fixpoint descend (k : nat) (path : Z) (parent_ child : slot) : Hp (slot * slot) :=
  match k with
  | O => ret (parent_, child)
  | S k =>
      let* c := load_slot child in
      descend k (Z.shiftr path 1) child (if Z.land path 1 =? 0 then SLeft c else SRight c)
  end.

Section Operations.
Variable less_than : Z -> Z -> bool.

(** [while (node->parent != NULL && less_than(node, node->parent)) swap]. *)
Fixpoint walk_up (fuel : nat) (node : Z) : Hp unit :=
  match fuel with
  | O => out_of_fuel
  | S fuel =>
      let* n := get_node node in
      if negb (parent n =? 0) && less_than node (parent n)
      then heap_node_swap (parent n) node;;; walk_up fuel node
      else ret tt
  end.

(** The [for (;;)] of the removal. *)
Fixpoint walk_down (fuel : nat) (child : Z) : Hp unit :=
  match fuel with
  | O => out_of_fuel
  | S fuel =>
      let* n := get_node child in
      let smallest := child in
      let smallest := if negb (left n =? 0) && less_than (left n) smallest
                      then left n else smallest in
      let smallest := if negb (right n =? 0) && less_than (right n) smallest
                      then right n else smallest in
      if smallest =? child then ret tt
      else heap_node_swap child smallest;;; walk_down fuel child
  end.

(** A node climbs or sinks by a level at every turn. *)
Definition walk_fuel : Hp nat := let* n := gets nelts in ret (S (Z.to_nat n)).

Definition heap_insert (newnode : Z) : Hp unit :=
  upd_node newnode (fun _ => mk_node 0 0 0);;;
  let* n := gets nelts in
  let* (path, k) := path_loop path_fuel (u32 (1 + n)) 0 0 in
  let* (parent_, child) := descend (Z.to_nat k) path SMin SMin in
  let* p := load_slot parent_ in
  upd_node newnode (set_parent p);;;
  store_slot child newnode;;;
  put_nelts (u32 (n + 1));;;
  let* fuel := walk_fuel in
  walk_up fuel newnode.

Definition heap_remove (node : Z) : Hp unit :=
  let* n := gets nelts in
  if n =? 0 then ret tt
  else
    let* (path, k) := path_loop path_fuel n 0 0 in
    let* (_, max) := descend (Z.to_nat k) path SMin SMin in
    put_nelts (u32 (n - 1));;;
    let* child := load_slot max in
    store_slot max 0;;;
    if child =? node then
      (* the max or the last node in the tree *)
      let* m := heap_min in
      if child =? m then put_min 0 else ret tt
    else
      let* d := get_node node in
      upd_node child (set_left (left d));;;
      upd_node child (set_right (right d));;;
      upd_node child (set_parent (parent d));;;
      let* c := get_node child in
      relink (left c) child;;;
      let* c := get_node child in
      relink (right c) child;;;
      let* d := get_node node in
      replace_link (parent d) node child;;;
      let* fuel := walk_fuel in
      walk_down fuel child;;;
      walk_up fuel child.

Definition heap_dequeue : Hp unit :=
  let* m := heap_min in heap_remove m.
End Operations.
