(* ===== verification/UvHeapOrder.v ===== *)
(** The heap order on the list of the nodes in breadth-first positions, and the
    steps of the walks up and down on it: the specification that the pointers
    of [heap-inl.h] are proved against. *)
From S2P Require Import Prelude.
From S2P Require Import UvHeap.

(** ** Positions: the root is 1, the children of [i] are [2 * i] and
    [2 * i + 1]; the null pointer stands at the other ones. *)
Definition pos (l : list Z) (i : nat) : Z :=
  match i with O => 0 | S j => nth j l 0 end.

Definition put_pos (l : list Z) (i : nat) (x : Z) : list Z := <[Nat.pred i := x]> l.

(** Exchange of two positions. *)
Definition swap (l : list Z) (i j : nat) : list Z := put_pos (put_pos l i (pos l j)) j (pos l i).

Definition valid (l : list Z) (i : nat) : Prop := (1 <= i <= length l)%nat.

Lemma pos_lookup l i x : l !! i = Some x -> pos l (S i) = x.
Proof. intros E. cbn. by apply nth_lookup_Some. Qed.

Lemma lookup_pos l i : valid l i -> l !! Nat.pred i = Some (pos l i).
Proof.
  intros [H1 H2]. destruct i as [|i]; [lia|]. cbn.
  destruct (lookup_lt_is_Some_2 l i ltac:(lia)) as [x Hx]. rewrite Hx. f_equal. symmetry.
  by apply nth_lookup_Some.
Qed.

Lemma pos_out l i : ~ valid l i -> pos l i = 0.
Proof. intros H. destruct i as [|i]; [done|]. cbn. apply nth_overflow. unfold valid in H. lia. Qed.

Lemma pos_elem l i : valid l i -> pos l i ∈ l.
Proof. intros H. apply list_elem_of_lookup. eexists. by apply lookup_pos. Qed.

Lemma elem_pos l x : x ∈ l -> exists i, valid l i /\ pos l i = x.
Proof.
  intros [i Hi]%list_elem_of_lookup. exists (S i). split; [|by apply pos_lookup].
  apply lookup_lt_Some in Hi. unfold valid. lia.
Qed.

Lemma pos_inj l i j : NoDup l -> valid l i -> valid l j -> pos l i = pos l j -> i = j.
Proof.
  intros Hd Hi Hj E. pose proof (lookup_pos l i Hi) as Ei. pose proof (lookup_pos l j Hj) as Ej.
  rewrite E in Ei. pose proof (NoDup_lookup l _ _ _ Hd Ei Ej). unfold valid in *. lia.
Qed.

Lemma length_put l i x : length (put_pos l i x) = length l.
Proof. apply length_insert. Qed.

Lemma pos_put l i j x : valid l i -> pos (put_pos l i x) j = if Nat.eqb j i then x else pos l j.
Proof.
  intros [H1 H2]. unfold put_pos. destruct i as [|i]; [lia|]. cbn [Nat.pred].
  destruct j as [|j]; [done|]. cbn [pos Nat.eqb].
  rewrite !(nth_lookup _ j). destruct (Nat.eqb_spec j i) as [->|Hne].
  - by rewrite list_lookup_insert_eq by lia.
  - by rewrite list_lookup_insert_ne.
Qed.

Lemma length_swap l i j : length (swap l i j) = length l.
Proof. unfold swap. by rewrite !length_put. Qed.

Lemma valid_swap l i j k : valid (swap l i j) k <-> valid l k.
Proof. unfold valid. by rewrite length_swap. Qed.

Lemma pos_swap l i j k :
  valid l i -> valid l j ->
  pos (swap l i j) k = if Nat.eqb k j then pos l i else if Nat.eqb k i then pos l j else pos l k.
Proof.
  intros Hi Hj. unfold swap. rewrite pos_put by (unfold valid in *; by rewrite length_put).
  by rewrite pos_put.
Qed.

Lemma swap_perm l i j : valid l i -> valid l j -> swap l i j ≡ₚ l.
Proof.
  intros Hi Hj. apply Permutation_insert_swap; by apply lookup_pos.
Qed.

Lemma half_lt i : (2 <= i)%nat -> (1 <= i / 2 < i)%nat.
Proof. intros. pose proof (Nat.div_mod_eq i 2). pose proof (Nat.mod_upper_bound i 2). lia. Qed.

Lemma half_child i k : (i / 2 = k <-> i = 2 * k \/ i = 2 * k + 1)%nat.
Proof. pose proof (Nat.div_mod_eq i 2). pose proof (Nat.mod_upper_bound i 2). lia. Qed.

(** ** What [less_than] must be: a strict weak order. *)
Class HeapOrder (less : Z -> Z -> bool) : Prop := {
  less_irrefl a : less a a = false;
  less_trans a b c : less a b = true -> less b c = true -> less a c = true;
  less_weak a b c : less a b = false -> less b c = false -> less a c = false
}.

Section Order.
Context (less : Z -> Z -> bool) `{!HeapOrder less}.

Lemma less_asym a b : less a b = true -> less b a = false.
Proof.
  intros Hab. destruct (less b a) eqn:Hba; [|done].
  pose proof (less_trans a b a Hab Hba). rewrite less_irrefl in *. congruence.
Qed.

(** [a < b] and not [c < b]: not [c < a]. *)
Lemma less_not_below a b c : less a b = true -> less c b = false -> less c a = false.
Proof.
  intros Hab Hcb. destruct (less c a) eqn:E; [|done].
  rewrite (less_trans _ _ _ E Hab) in Hcb. done.
Qed.

Definition ordered_at (l : list Z) (i : nat) : Prop := less (pos l i) (pos l (i / 2)) = false.

Definition ordered (l : list Z) : Prop := forall i, (2 <= i <= length l)%nat -> ordered_at l i.

(** The children of [k] are not below the parent of [k]. *)
Definition grands_ok (l : list Z) (k : nat) : Prop :=
  forall i, (2 <= i <= length l)%nat -> (i / 2 = k)%nat -> (2 <= k)%nat ->
  less (pos l i) (pos l (k / 2)) = false.

(** The order but between [k] and its parent; but between [k] and its parent
    and children. *)
Definition up_ok (l : list Z) (k : nat) : Prop :=
  (forall i, (2 <= i <= length l)%nat -> i <> k -> ordered_at l i) /\ grands_ok l k.
Definition down_ok (l : list Z) (k : nat) : Prop :=
  (forall i, (2 <= i <= length l)%nat -> i <> k -> (i / 2 <> k)%nat -> ordered_at l i) /\
  grands_ok l k.

Lemma up_done l k : up_ok l k -> (k < 2)%nat \/ ordered_at l k -> ordered l.
Proof. intros [H _] Hk i Hi. destruct (Nat.eq_dec i k) as [->|]; [destruct Hk; [lia|done]|auto]. Qed.

Lemma down_done l k :
  down_ok l k -> (forall i, (2 <= i <= length l)%nat -> (i / 2 = k)%nat -> ordered_at l i) -> up_ok l k.
Proof. intros [H Hg] Hk. split; [|done]. intros i Hi Hne. destruct (Nat.eq_dec (i / 2)%nat k); auto. Qed.

(** Case analysis on the positions of a swapped list. *)
Ltac at_pos :=
  unfold ordered_at; rewrite ?pos_swap by (unfold valid in *; lia);
  repeat match goal with
  | |- context [Nat.eqb ?a ?b] => destruct (Nat.eqb_spec a b) as [?E|?E]; try (exfalso; subst; lia)
  end.

Lemma up_step l k :
  up_ok l k -> (2 <= k <= length l)%nat -> less (pos l k) (pos l (k / 2)) = true ->
  up_ok (swap l (k / 2) k) (k / 2).
Proof.
  intros [Ho Hg] Hk Hless. pose proof (half_lt k ltac:(lia)) as Hp. split.
  - intros i. rewrite length_swap. intros Hi Hne. pose proof (half_lt i ltac:(lia)) as Hh. at_pos.
    + by apply less_asym.
    + apply Hg; lia.
    + apply (less_not_below _ (pos l (k / 2))); [done|].
      replace (k / 2)%nat with (i / 2)%nat by lia. by apply Ho.
    + by apply Ho.
  - intros i. rewrite length_swap. intros Hi Hik Hk2. pose proof (half_lt (k / 2) ltac:(lia)) as Hpp.
    pose proof (Ho (k / 2)%nat ltac:(lia) ltac:(lia)) as Hop. at_pos; [done|].
    apply (less_weak _ (pos l (k / 2))); [|done]. rewrite <- Hik. by apply Ho.
Qed.

(** [s] is the smallest child of [k]. *)
Lemma down_step l k s :
  down_ok l k -> valid l k -> valid l s -> (s / 2 = k)%nat -> less (pos l s) (pos l k) = true ->
  (forall i, valid l i -> (i / 2 = k)%nat -> less (pos l i) (pos l s) = false) ->
  down_ok (swap l k s) s.
Proof.
  intros [Ho Hg] Hk Hs Hsk Hless Hmin. pose proof (half_child s k) as Hc. unfold valid in *. split.
  - intros i. rewrite length_swap. intros Hi Hne Hnk. pose proof (half_lt i ltac:(lia)) as Hh. at_pos.
    + replace (i / 2)%nat with (k / 2)%nat by (subst; done). apply Hg; lia.
    + apply Hmin; lia.
    + apply Ho; lia.
  - intros i. rewrite length_swap. intros Hi Hik Hs2. rewrite Hsk.
    pose proof (half_lt i ltac:(lia)). at_pos. rewrite <- Hik. apply Ho; lia.
Qed.

Lemma insert_ok l x : ordered l -> up_ok (l ++ [x]) (S (length l)).
Proof.
  assert (forall i, (i <= length l)%nat -> pos (l ++ [x]) i = pos l i) as Hpos.
  { intros [|i] Hi; [done|]. cbn. by apply app_nth1. }
  intros Ho. split; intros i; rewrite length_app; cbn [length]; intros Hi.
  - intros Hne. pose proof (half_lt i ltac:(lia)). unfold ordered_at. rewrite !Hpos by lia.
    apply Ho. lia.
  - intros Hh. pose proof (half_lt i ltac:(lia)). lia.
Qed.

(** The last node put in the place of [k]. *)
Lemma replace_ok l x k : ordered (l ++ [x]) -> valid l k -> down_ok (put_pos l k x) k.
Proof.
  assert (forall i, (i <= length l)%nat -> pos (l ++ [x]) i = pos l i) as Hpos.
  { intros [|i] Hi; [done|]. cbn. by apply app_nth1. }
  intros Ho Hk. assert (ordered l) as Hl.
  { intros i Hi. specialize (Ho i). rewrite length_app in Ho. cbn [length] in Ho.
    specialize (Ho ltac:(lia)). pose proof (half_lt i ltac:(lia)).
    unfold ordered_at in *. rewrite !Hpos in Ho by lia. done. }
  split; intros i; rewrite length_put; intros Hi.
  - intros Hne Hnk. unfold ordered_at. rewrite !pos_put by done.
    destruct (Nat.eqb_spec i k), (Nat.eqb_spec (i / 2)%nat k); try lia. by apply Hl.
  - intros Hik Hk2. pose proof (half_lt i ltac:(lia)). pose proof (half_lt k ltac:(lia)).
    rewrite !pos_put by done.
    destruct (Nat.eqb_spec i k), (Nat.eqb_spec (k / 2)%nat k); try lia.
    apply (less_weak _ (pos l k)); [|apply Hl; unfold valid in Hk; lia].
    rewrite <- Hik. by apply Hl.
Qed.

(** A prefix of an ordered list is ordered. *)
Lemma ordered_init l x : ordered (l ++ [x]) -> ordered l.
Proof.
  intros Ho i Hi. specialize (Ho i). rewrite length_app in Ho. cbn [length] in Ho.
  specialize (Ho ltac:(lia)). pose proof (half_lt i ltac:(lia)). unfold ordered_at in *.
  destruct i as [|i]; [lia|]. destruct (S i / 2)%nat as [|j] eqn:Ej; [lia|].
  cbn [pos] in *. rewrite !app_nth1 in Ho by lia. done.
Qed.

(** The root is below nothing. *)
Lemma ordered_min l i : ordered l -> valid l i -> less (pos l i) (pos l 1) = false.
Proof.
  intros Ho. induction (lt_wf i) as [i _ IH]. intros [H1 H2].
  destruct (decide (i = 1%nat)) as [->|Hne]; [apply less_irrefl|].
  pose proof (half_lt i ltac:(lia)). apply (less_weak _ (pos l (i / 2))); [by apply Ho; lia|].
  apply IH; unfold valid; lia.
Qed.
End Order.
