(* ===== verification/UvHeapProofs.v ===== *)
(** libuv, the binary heap: the pointers represent the list of the nodes in
    breadth-first positions; the insertion and the removal are the walks of
    [UvHeapOrder.v] on this list. *)
From S2P Require Import Prelude.
From S2P Require Import UvHeap.
From S2P Require Import UvHeapOrder.

Definition node_at (l : list Z) (i : nat) : heap_node :=
  mk_node (pos l (2 * i)) (pos l (2 * i + 1)) (pos l (i / 2)).

(** The linked nodes alone. *)
Record links (l : list Z) (h : heap) : Prop := {
  ln_min : min h = pos l 1;
  ln_nodup : NoDup l;
  ln_null : 0 ∉ l;
  ln_nodes : forall i, valid l i -> nodes h !! pos l i = Some (node_at l i)
}.

(** The nodes out of [l] are left alone. *)
Definition frame (l : list Z) (h h' : heap) : Prop :=
  forall x, x ∉ l -> nodes h' !! x = nodes h !! x.

(** ** Addresses and positions *)
Section Positions.
Context (l : list Z) (Hd : NoDup l) (Hz : 0 ∉ l).

Lemma pos_nonzero i : valid l i -> pos l i <> 0.
Proof. intros Hv E. apply Hz. rewrite <- E. by apply pos_elem. Qed.

Lemma pos_zero i : (pos l i =? 0) = negb (bool_decide (valid l i)).
Proof.
  case_bool_decide as Hv; cbn.
  - apply Z.eqb_neq. by apply pos_nonzero.
  - by rewrite pos_out.
Qed.

Lemma pos_eqb i j : valid l j -> (pos l i =? pos l j) = Nat.eqb i j.
Proof.
  intros Hj. destruct (decide (valid l i)) as [Hi|Hi].
  - destruct (Nat.eqb_spec i j) as [->|Hne]; [apply Z.eqb_refl|].
    apply Z.eqb_neq. intros E. by apply (pos_inj l i j) in E.
  - rewrite (pos_out l i Hi). destruct (Nat.eqb_spec i j) as [->|_]; [done|].
    apply Z.eqb_neq. intros E. by apply (pos_nonzero j).
Qed.

Lemma lookup_alter_pos f i j (m : gmap Z heap_node) :
  valid l i -> valid l j ->
  alter f (pos l i) m !! pos l j = if Nat.eqb i j then f <$> m !! pos l j else m !! pos l j.
Proof.
  intros Hi Hj. destruct (Nat.eqb_spec i j) as [->|Hne]; [apply lookup_alter_eq|].
  apply lookup_alter_ne. intros E. by apply (pos_inj l i j) in E.
Qed.
End Positions.

(** ** The primitives *)
Definition relinked (p v : Z) (m : gmap Z heap_node) : gmap Z heap_node :=
  if p =? 0 then m else alter (set_parent v) p m.

Lemma lookup_relinked_pos l i j v m :
  NoDup l -> 0 ∉ l -> valid l j ->
  relinked (pos l i) v m !! pos l j
  = if Nat.eqb i j then set_parent v <$> m !! pos l j else m !! pos l j.
Proof.
  intros Hd Hz Hj. unfold relinked. rewrite pos_zero by done. case_bool_decide as Hi; cbn [negb].
  - by apply lookup_alter_pos.
  - destruct (Nat.eqb_spec i j) as [->|]; done.
Qed.

Lemma get_node_spec p n h : nodes h !! p = Some n -> get_node p h = Done n h.
Proof. intros E. unfold get_node. by rewrite E. Qed.

Lemma upd_node_spec p f h :
  is_Some (nodes h !! p) ->
  upd_node p f h = Done tt (mk_heap (alter f p (nodes h)) (min h) (nelts h)).
Proof. intros [n E]. unfold upd_node, bind. by rewrite (get_node_spec p n h E). Qed.

Lemma relink_spec p v h :
  p = 0 \/ is_Some (nodes h !! p) ->
  relink p v h = Done tt (mk_heap (relinked p v (nodes h)) (min h) (nelts h)).
Proof.
  intros Hp. unfold relink, relinked. destruct (Z.eqb_spec p 0) as [|Hne]; [by destruct h|].
  destruct Hp as [|Hp]; [done|]. by apply upd_node_spec.
Qed.

(** The same before a continuation. *)
Lemma bind_get {A} p n (k : heap_node -> Hp A) h :
  nodes h !! p = Some n -> bind (get_node p) k h = k n h.
Proof. intros E. apply bind_done. by apply get_node_spec. Qed.

Lemma bind_upd {A} p f (k : unit -> Hp A) h :
  is_Some (nodes h !! p) ->
  bind (upd_node p f) k h = k tt (mk_heap (alter f p (nodes h)) (min h) (nelts h)).
Proof. intros E. apply bind_done. by apply upd_node_spec. Qed.

Lemma bind_relink {A} p v (k : unit -> Hp A) h :
  p = 0 \/ is_Some (nodes h !! p) ->
  bind (relink p v) k h = k tt (mk_heap (relinked p v (nodes h)) (min h) (nelts h)).
Proof. intros E. apply bind_done. by apply relink_spec. Qed.

(** All positions of [l] hold a node. *)
Definition mapped (l : list Z) (m : gmap Z heap_node) : Prop :=
  forall j, valid l j -> is_Some (m !! pos l j).

Lemma is_Some_alter f p q (m : gmap Z heap_node) : is_Some (m !! q) -> is_Some (alter f p m !! q).
Proof. intros Hm. by apply lookup_alter_is_Some. Qed.

Lemma mapped_alter l f p m : mapped l m -> mapped l (alter f p m).
Proof. intros Hm j Hj. by apply is_Some_alter, Hm. Qed.

Lemma mapped_relinked l p v m : mapped l m -> mapped l (relinked p v m).
Proof. intros Hm. unfold relinked. destruct (p =? 0); [done|by apply mapped_alter]. Qed.

Lemma links_mapped l h : links l h -> mapped l (nodes h).
Proof. intros [_ _ _ Hn] j Hj. rewrite Hn by done. by eexists. Qed.

Lemma mapped_pos l m j : mapped l m -> pos l j = 0 \/ is_Some (m !! pos l j).
Proof.
  intros Hm. destruct (decide (valid l j)); [right; auto|left; by apply pos_out].
Qed.

Create HintDb mapped.
#[export] Hint Resolve mapped_alter mapped_relinked links_mapped mapped_pos : mapped.

(** The heap that [replace_link] leaves, at the position [i]. *)
Definition link_replaced (l : list Z) (i : nat) (new : Z) (h : heap) : heap :=
  if Nat.eqb i 1 then mk_heap (nodes h) new (nelts h)
  else mk_heap (alter (if Nat.even i then set_left new else set_right new) (pos l (i / 2)) (nodes h))
               (min h) (nelts h).

Lemma half_even i : i = (2 * (i / 2) + if Nat.even i then 0 else 1)%nat.
Proof.
  pose proof (Nat.div_mod_eq i 2). destruct (Nat.even i) eqn:E.
  - apply Nat.even_spec in E as [k ->]. rewrite Nat.mul_comm, Nat.div_mul; lia.
  - pose proof (Nat.negb_even i) as Ho. rewrite E in Ho. symmetry in Ho.
    apply Nat.odd_spec in Ho as [k ->]. replace (2 * k + 1)%nat with (1 + k * 2)%nat by lia.
    rewrite Nat.div_add by lia. cbn. lia.
Qed.

Lemma half_bounds i : (2 * (i / 2) <= i <= 2 * (i / 2) + 1)%nat.
Proof. pose proof (half_even i). destruct (Nat.even i); lia. Qed.

Lemma replace_link_spec l i new h :
  NoDup l -> 0 ∉ l -> valid l i ->
  ((2 <= i)%nat -> exists n, nodes h !! pos l (i / 2) = Some n /\ left n = pos l (2 * (i / 2))) ->
  replace_link (pos l (i / 2)) (pos l i) new h = Done tt (link_replaced l i new h).
Proof.
  intros Hd Hz Hi Hg. unfold replace_link, link_replaced. rewrite pos_zero by done.
  destruct (Nat.eqb_spec i 1) as [->|Hne]; [done|].
  pose proof (half_lt i ltac:(unfold valid in Hi; lia)) as Hh. pose proof (half_even i) as He.
  assert (valid l (i / 2)) as Hv by (unfold valid in *; lia).
  rewrite bool_decide_eq_true_2 by done. cbn [negb].
  destruct (Hg ltac:(unfold valid in Hi; lia)) as (n & En & El).
  rewrite (bind_done _ _ _ _ _ (get_node_spec _ _ _ En)), El, pos_eqb by done.
  destruct (Nat.even i).
  - rewrite Nat.add_0_r in He. rewrite <- He, Nat.eqb_refl. rewrite upd_node_spec; [done|by eexists].
  - destruct (Nat.eqb_spec (2 * (i / 2))%nat i); [lia|]. rewrite upd_node_spec; [done|by eexists].
Qed.

Lemma lookup_replaced_at l i new h j :
  NoDup l -> 0 ∉ l -> valid l j -> ((2 <= i)%nat -> valid l (i / 2)) -> (1 <= i)%nat ->
  nodes (link_replaced l i new h) !! pos l j
  = (if Nat.eqb (i / 2) j && negb (Nat.eqb i 1)
     then fmap (if Nat.even i then set_left new else set_right new) else id) (nodes h !! pos l j).
Proof.
  intros Hd Hz Hj Hv Hi. unfold link_replaced. destruct (Nat.eqb_spec i 1) as [|Hn1]; cbn [nodes negb].
  { by rewrite andb_false_r. }
  rewrite andb_true_r, lookup_alter_pos by (done || (apply Hv; lia)).
  by destruct (Nat.eqb (i / 2) j).
Qed.

(** Decide the tests on positions that linear arithmetic decides. *)
Ltac eqb_lia :=
  repeat match goal with
  | |- context [Nat.eqb ?a ?b] =>
      first [ replace (Nat.eqb a b) with true by (symmetry; apply Nat.eqb_eq; lia)
            | replace (Nat.eqb a b) with false by (symmetry; apply Nat.eqb_neq; lia) ]
  end; cbv beta iota.

(** ** Exchange of a node and its parent *)
Section Swap.
Context (l : list Z) (i c : nat).
Context (Hd : NoDup l) (Hz : 0 ∉ l) (Hi : valid l i) (Hc : valid l c) (Hci : (c / 2 = i)%nat).

Definition sibling_pos : nat := if Nat.even c then S c else Nat.pred c.

(** The memory after [heap_node_swap], but for the link from above. *)
Definition swapped (m : gmap Z heap_node) : gmap Z heap_node :=
  let P := pos l i in
  let C := pos l c in
  relinked (pos l (2 * c + 1)) P (relinked (pos l (2 * c)) P (relinked (pos l sibling_pos) C
    (alter (if Nat.even c then set_left P else set_right P) C
       (alter (set_parent C) P
          (alter (fun _ => node_at l i) C (alter (fun _ => node_at l c) P m)))))).

Lemma lookup_swapped m j :
  valid l j ->
  swapped m !! pos l j =
    (if Nat.eqb (2 * c + 1) j then fmap (set_parent (pos l i)) else id)
    ((if Nat.eqb (2 * c) j then fmap (set_parent (pos l i)) else id)
    ((if Nat.eqb sibling_pos j then fmap (set_parent (pos l c)) else id)
    ((if Nat.eqb c j then fmap (if Nat.even c then set_left (pos l i) else set_right (pos l i)) else id)
    ((if Nat.eqb i j then fmap (set_parent (pos l c)) else id)
    ((if Nat.eqb c j then fmap (fun _ => node_at l i) else id)
    ((if Nat.eqb i j then fmap (fun _ => node_at l c) else id) (m !! pos l j))))))).
Proof.
  intros Hj. unfold swapped. rewrite !lookup_relinked_pos, !lookup_alter_pos by done.
  by repeat match goal with |- context [Nat.eqb ?a ?b] => destruct (Nat.eqb a b) end.
Qed.

Lemma child_even : c = (2 * i + if Nat.even c then 0 else 1)%nat.
Proof. rewrite <- Hci. apply half_even. Qed.

(** The child's link to its new child; the sibling. *)
Lemma bind_sibling {A} (k : Z -> Hp A) h :
  is_Some (nodes h !! pos l c) ->
  bind (if pos l (2 * i) =? pos l c
        then bind (upd_node (pos l c) (set_left (pos l i))) (fun _ => ret (pos l (2 * i + 1)))
        else bind (upd_node (pos l c) (set_right (pos l i))) (fun _ => ret (pos l (2 * i)))) k h
  = k (pos l sibling_pos)
      (mk_heap (alter (if Nat.even c then set_left (pos l i) else set_right (pos l i)) (pos l c)
                  (nodes h)) (min h) (nelts h)).
Proof.
  intros Hs. pose proof child_even as Hce. rewrite pos_eqb by done. unfold sibling_pos.
  destruct (Nat.even c); eqb_lia; rewrite bind_assoc, bind_upd by done.
  - by replace (S c) with (2 * i + 1)%nat by lia.
  - by replace (Nat.pred c) with (2 * i)%nat by lia.
Qed.

Lemma swap_run h :
  links l h ->
  heap_node_swap (pos l i) (pos l c) h
  = Done tt (link_replaced l i (pos l c) (mk_heap (swapped (nodes h)) (min h) (nelts h))).
Proof.
  intros Hl. pose proof (ln_nodes _ _ Hl i Hi) as Ei. pose proof (ln_nodes _ _ Hl c Hc) as Ec.
  pose proof child_even as Hce. unfold valid in Hi, Hc.
  assert (i <> c) as Hne by (destruct (Nat.even c); lia).
  unfold heap_node_swap.
  rewrite (bind_get _ _ _ _ Ei), (bind_get _ _ _ _ Ec).
  rewrite !bind_upd by (cbn [nodes]; repeat apply is_Some_alter; eauto).
  cbn [nodes min nelts].
  erewrite bind_get by (cbn [nodes]; rewrite !lookup_alter_pos by done; eqb_lia; rewrite Ec; reflexivity).
  cbn [left right node_at fmap option_fmap option_map].
  rewrite bind_sibling by (cbn [nodes]; repeat apply is_Some_alter; eauto).
  set (m3 := alter (set_parent (pos l c)) _ _). cbn [nodes min nelts].
  assert (mapped l m3) as Hm3 by (unfold m3; eauto 7 with mapped).
  rewrite bind_relink by (cbn [nodes]; eauto with mapped). cbn [nodes min nelts].
  erewrite bind_get.
  2:{ cbn [nodes]. rewrite lookup_relinked_pos, lookup_alter_pos by done. unfold m3.
      rewrite !lookup_alter_pos by done. rewrite Ei. unfold sibling_pos.
      destruct (Nat.even c); eqb_lia; reflexivity. }
  cbn [left right node_at fmap option_fmap option_map set_parent].
  rewrite bind_relink by (cbn [nodes]; eauto 6 with mapped). cbn [nodes min nelts].
  erewrite bind_get.
  2:{ cbn [nodes]. rewrite !lookup_relinked_pos, lookup_alter_pos by done. unfold m3.
      rewrite !lookup_alter_pos by done. rewrite Ei. unfold sibling_pos.
      destruct (Nat.even c); eqb_lia; reflexivity. }
  cbn [left right node_at fmap option_fmap option_map set_parent].
  rewrite bind_relink by (cbn [nodes]; eauto 8 with mapped). cbn [nodes min nelts].
  rewrite (bind_get _ ((if Nat.even c then set_left (pos l i) else set_right (pos l i)) (node_at l i))).
  2:{ cbn [nodes]. rewrite !lookup_relinked_pos, lookup_alter_pos by done. unfold m3.
      rewrite !lookup_alter_pos by done. rewrite Ec. unfold sibling_pos.
      destruct (Nat.even c); eqb_lia; reflexivity. }
  replace (parent _) with (pos l (i / 2)) by (by destruct (Nat.even c)).
  apply replace_link_spec; [done..|]. intros H2. pose proof (half_lt i H2). cbn [nodes].
  exists (node_at l (i / 2)). split; [|done].
  assert (valid l (i / 2)) by (unfold valid; lia).
  rewrite lookup_swapped, (ln_nodes _ _ Hl) by done. unfold sibling_pos.
  destruct (Nat.even c); eqb_lia; reflexivity.
Qed.

Lemma lookup_link_replaced new h j :
  valid l j ->
  nodes (link_replaced l i new h) !! pos l j
  = (if Nat.eqb (i / 2) j && negb (Nat.eqb i 1)
     then fmap (if Nat.even i then set_left new else set_right new) else id) (nodes h !! pos l j).
Proof.
  intros Hj. apply lookup_replaced_at; [done..| |unfold valid in Hi; lia].
  intros H2. pose proof (half_lt i H2). unfold valid in *. lia.
Qed.

Lemma swap_links h :
  links l h ->
  links (swap l i c) (link_replaced l i (pos l c) (mk_heap (swapped (nodes h)) (min h) (nelts h))).
Proof.
  intros Hl. pose proof child_even as Hce. pose proof (half_even i) as Hie.
  pose proof (swap_perm l i c Hi Hc) as Hperm. unfold valid in Hi, Hc.
  assert (i <> c) as Hne by (destruct (Nat.even c); lia). constructor.
  - rewrite pos_swap by done. unfold link_replaced. destruct (Nat.eqb_spec i 1); cbn [min]; eqb_lia.
    + done.
    + by rewrite (ln_min _ _ Hl).
  - by rewrite Hperm.
  - by rewrite Hperm.
  - intros j Hj. apply (valid_swap l i c j) in Hj. pose proof (half_bounds j) as Hje. unfold node_at.
    assert (forall k, pos (swap l i c) k =
      if Nat.eqb k c then pos l i else if Nat.eqb k i then pos l c else pos l k) as Hps
      by (intros; by apply pos_swap).
    rewrite !Hps. unfold valid in Hj.
    destruct (Nat.eqb_spec j c) as [Ejc|]; [|destruct (Nat.eqb_spec j i) as [Eji|]];
      rewrite lookup_link_replaced by done; cbn [nodes];
      rewrite lookup_swapped, (ln_nodes _ _ Hl) by done; unfold sibling_pos.
    all: clear Hps Hperm.
    + destruct (Nat.even c); eqb_lia; cbn [fmap option_fmap option_map negb andb]; rewrite Ejc; done.
    + destruct (Nat.even c); eqb_lia; cbn [fmap option_fmap option_map negb andb]; rewrite Eji; done.
    + pose proof (half_bounds i). destruct (decide (i / 2 = j)%nat) as [Ei2|].
      { destruct (Nat.even i), (Nat.even c); eqb_lia; cbn [fmap option_fmap option_map negb andb];
          unfold node_at, set_left, set_right; cbn [left right parent]; done. }
      replace (Nat.eqb (i / 2) j) with false by (symmetry; by apply Nat.eqb_neq). cbn [andb].
      replace (Nat.eqb (2 * j) i) with false by (symmetry; apply Nat.eqb_neq; destruct (Nat.even i); lia).
      replace (Nat.eqb (2 * j + 1) i) with false
        by (symmetry; apply Nat.eqb_neq; destruct (Nat.even i); lia).
      clear Hie. destruct (decide (j = 2 * c)%nat); [|destruct (decide (j = 2 * c + 1)%nat);
        [|destruct (decide (j / 2 = i)%nat) as [Ej2|]]];
      destruct (Nat.even c); eqb_lia; cbn [fmap option_fmap option_map negb andb];
          unfold node_at, set_parent; cbn [left right parent]; done.
Qed.
End Swap.

(** ** Frames *)
Lemma lookup_alter_out l f i x (m : gmap Z heap_node) :
  x ∉ l -> valid l i -> alter f (pos l i) m !! x = m !! x.
Proof. intros Hx Hi. apply lookup_alter_ne. intros <-. by apply Hx, pos_elem. Qed.

Lemma lookup_relinked_out l v i x m : x ∉ l -> relinked (pos l i) v m !! x = m !! x.
Proof.
  intros Hx. unfold relinked. destruct (Z.eqb_spec (pos l i) 0) as [|Hne]; [done|].
  apply lookup_alter_out; [done|]. destruct (decide (valid l i)); [done|].
  by rewrite pos_out in Hne.
Qed.

Lemma valid_half l i : valid l i -> i = 1%nat \/ (2 <= i)%nat /\ valid l (i / 2).
Proof. intros Hi. pose proof (half_bounds i). unfold valid in *. lia. Qed.

Lemma lookup_replaced_out l i new h x :
  x ∉ l -> i = 1%nat \/ (2 <= i)%nat /\ valid l (i / 2) ->
  nodes (link_replaced l i new h) !! x = nodes h !! x.
Proof.
  intros Hx Hi. unfold link_replaced. destruct (Nat.eqb_spec i 1); [done|].
  apply lookup_alter_out; [done|]. tauto.
Qed.

Lemma replaced_nelts l i new h : nelts (link_replaced l i new h) = nelts h.
Proof. unfold link_replaced. by destruct (Nat.eqb i 1). Qed.

Lemma frame_trans l l' h h' h'' : l ≡ₚ l' -> frame l h h' -> frame l' h' h'' -> frame l h h''.
Proof. intros E H1 H2 x Hx. rewrite H2 by (by rewrite <- E). by apply H1. Qed.

(** One exchange. *)
Lemma swap_spec l i c h :
  links l h -> valid l i -> valid l c -> (c / 2 = i)%nat ->
  exists h', heap_node_swap (pos l i) (pos l c) h = Done tt h' /\
    links (swap l i c) h' /\ frame l h h' /\ nelts h' = nelts h.
Proof.
  intros Hl Hi Hc Hci. pose proof (ln_nodup _ _ Hl) as Hd. pose proof (ln_null _ _ Hl) as Hz.
  eexists. split; [by apply swap_run|]. split; [by apply (swap_links l i c Hd Hz Hi Hc Hci h)|]. split.
  - intros x Hx. rewrite lookup_replaced_out by (done || by apply valid_half). cbn [nodes]. unfold swapped.
    by rewrite !lookup_relinked_out, !lookup_alter_out.
  - by rewrite replaced_nelts.
Qed.

(** ** The walks *)
Section Walks.
Context (less : Z -> Z -> bool) `{!HeapOrder less}.

Lemma parent_pos l i : pos l (i / 2) <> 0 -> valid l i -> (2 <= i)%nat.
Proof. intros Hp [H1 _]. destruct (decide (i = 1%nat)) as [->|]; [done|lia]. Qed.

Lemma walk_up_spec fuel l k h :
  links l h -> valid l k -> up_ok less l k -> (k <= fuel)%nat ->
  exists l' h', walk_up less fuel (pos l k) h = Done tt h' /\
    links l' h' /\ ordered less l' /\ l' ≡ₚ l /\ frame l h h' /\ nelts h' = nelts h.
Proof.
  revert l k h. induction fuel as [|fuel IH]; intros l k h Hl Hk Hup Hfu.
  { unfold valid in Hk. lia. }
  pose proof (ln_nodup _ _ Hl) as Hd. pose proof (ln_null _ _ Hl) as Hz.
  cbn [walk_up]. rewrite (bind_get _ _ _ _ (ln_nodes _ _ Hl k Hk)). cbn [parent node_at].
  rewrite pos_zero by done. rewrite negb_involutive.
  destruct (bool_decide (valid l (k / 2)) && less (pos l k) (pos l (k / 2))) eqn:E.
  - apply andb_true_iff in E as [Hv%bool_decide_eq_true Hless].
    assert (2 <= k)%nat as Hk2 by (apply (parent_pos l k); [by apply pos_nonzero|done]).
    pose proof (half_lt k Hk2).
    destruct (swap_spec l (k / 2) k h Hl Hv Hk eq_refl) as (h1 & Hs & Hl1 & Hf1 & Hn1).
    rewrite (bind_done _ _ _ _ _ Hs).
    assert (pos l k = pos (swap l (k / 2) k) (k / 2)) as ->.
    { rewrite pos_swap by done. by eqb_lia. }
    destruct (IH (swap l (k / 2) k) (k / 2)%nat h1) as (l' & h' & Hr & Hl' & Ho & Hp & Hf & Hn);
      [done|by apply valid_swap|apply up_step; unfold valid in Hk; done || lia|lia|].
    exists l', h'. split; [done|]. split; [done|]. split; [done|].
    rewrite Hp, swap_perm by done. split; [done|]. split; [|congruence].
    eapply frame_trans; [symmetry; by apply (swap_perm l (k / 2) k)|done|done].
  - exists l, h. split; [done|]. split; [done|]. split; [|done].
    apply (up_done less l k); [done|]. destruct (decide (k < 2)%nat); [by left|right].
    pose proof (half_lt k ltac:(lia)).
    rewrite bool_decide_eq_true_2 in E by (unfold valid in *; lia). done.
Qed.

(** The child that [walk_down] picks. *)
Definition smallest_child (l : list Z) (k : nat) : nat :=
  let s := if bool_decide (valid l (2 * k)) && less (pos l (2 * k)) (pos l k)
           then (2 * k)%nat else k in
  if bool_decide (valid l (2 * k + 1)) && less (pos l (2 * k + 1)) (pos l s)
  then (2 * k + 1)%nat else s.

Lemma smallest_spec l k :
  valid l k ->
  (smallest_child l k = k /\
   forall i, valid l i -> (i / 2 = k)%nat -> less (pos l i) (pos l k) = false) \/
  (valid l (smallest_child l k) /\ (smallest_child l k / 2 = k)%nat /\
   less (pos l (smallest_child l k)) (pos l k) = true /\
   forall i, valid l i -> (i / 2 = k)%nat -> less (pos l i) (pos l (smallest_child l k)) = false).
Proof.
  intros Hk. unfold smallest_child.
  assert (forall i, (i / 2 = k <-> i = 2 * k \/ i = 2 * k + 1)%nat) as Hc by (intros; apply half_child).
  destruct (bool_decide (valid l (2 * k)) && less (pos l (2 * k)) (pos l k)) eqn:E1;
  destruct (bool_decide (valid l (2 * k + 1)) && less (pos l (2 * k + 1)) _) eqn:E2;
    repeat match goal with
    | H : _ && _ = true |- _ => apply andb_true_iff in H as [?%bool_decide_eq_true ?]
    end.
  - right. split; [done|]. split; [by apply Hc; right|]. split; [by eapply less_trans|].
    intros i Hi [->| ->]%Hc; [by apply less_asym|apply less_irrefl].
  - right. split; [done|]. split; [by apply Hc; left|]. split; [done|].
    intros i Hi [->| ->]%Hc; [apply less_irrefl|]. by rewrite bool_decide_eq_true_2 in E2.
  - right. split; [done|]. split; [by apply Hc; right|]. split; [done|].
    intros i Hi [->| ->]%Hc; [|apply less_irrefl].
    rewrite bool_decide_eq_true_2 in E1 by done. by eapply less_not_below.
  - left. split; [done|]. intros i Hi [->| ->]%Hc.
    + by rewrite bool_decide_eq_true_2 in E1.
    + by rewrite bool_decide_eq_true_2 in E2.
Qed.
Lemma smallest_pos l k :
  NoDup l -> 0 ∉ l ->
  (let s := if negb (pos l (2 * k) =? 0) && less (pos l (2 * k)) (pos l k)
            then pos l (2 * k) else pos l k in
   if negb (pos l (2 * k + 1) =? 0) && less (pos l (2 * k + 1)) s
   then pos l (2 * k + 1) else s) = pos l (smallest_child l k).
Proof.
  intros Hd Hz. unfold smallest_child. rewrite !pos_zero, !negb_involutive by done. cbv zeta.
  by destruct (bool_decide (valid l (2 * k)) && _); destruct (bool_decide (valid l (2 * k + 1)) && _).
Qed.

Lemma walk_down_spec fuel l k h :
  links l h -> valid l k -> down_ok less l k -> (length l - k < fuel)%nat ->
  exists l' k' h', walk_down less fuel (pos l k) h = Done tt h' /\
    links l' h' /\ valid l' k' /\ pos l' k' = pos l k /\ up_ok less l' k' /\
    l' ≡ₚ l /\ frame l h h' /\ nelts h' = nelts h.
Proof.
  revert l k h. induction fuel as [|fuel IH]; intros l k h Hl Hk Hdown Hfu; [lia|].
  pose proof (ln_nodup _ _ Hl) as Hd. pose proof (ln_null _ _ Hl) as Hz.
  cbn [walk_down]. rewrite (bind_get _ _ _ _ (ln_nodes _ _ Hl k Hk)). cbn [left right node_at].
  rewrite smallest_pos, pos_eqb by done.
  destruct (smallest_spec l k Hk) as [[-> Hmin]|(Hv & Hh & Hless & Hmin)].
  - rewrite Nat.eqb_refl. exists l, k, h. do 4 (split; [done|]). split; [|done].
    apply (down_done less l k Hdown). intros i Hi Hik. unfold ordered_at. rewrite Hik.
    apply Hmin; [unfold valid; lia|done].
  - pose proof (half_lt (smallest_child l k)) as Hlt. set (s := smallest_child l k) in *.
    assert (k < s)%nat as Hks.
    { destruct (decide (s < 2)%nat) as [Hs|]; [|lia]. unfold valid in *.
      assert (s = 1%nat) as Es by lia. rewrite Es in Hh. cbn in Hh. lia. }
    replace (Nat.eqb s k) with false by (symmetry; apply Nat.eqb_neq; lia).
    destruct (swap_spec l k s h Hl Hk Hv Hh) as (h1 & Hs & Hl1 & Hf1 & Hn1).
    rewrite (bind_done _ _ _ _ _ Hs).
    assert (pos l k = pos (swap l k s) s) as Epos.
    { rewrite pos_swap by done. by rewrite Nat.eqb_refl. }
    rewrite Epos.
    destruct (IH (swap l k s) s h1) as (l' & k' & h' & Hr & Hl' & Hk' & Hp' & Hup & Hp & Hf & Hn);
      [done|by apply valid_swap|by apply down_step|rewrite length_swap; unfold valid in *; lia|].
    exists l', k', h'. do 5 (split; [done|]).
    rewrite Hp, swap_perm by done. split; [done|]. split; [|congruence].
    eapply frame_trans; [symmetry; by apply (swap_perm l k s)|done|done].
Qed.
End Walks.

(** ** The path from the root *)

(** The position that the [k] low bits of [path] lead to from [a]. *)
Fixpoint follow (k : nat) (path : Z) (a : nat) : nat :=
  match k with
  | O => a
  | S k => follow k (Z.shiftr path 1) (2 * a + Z.to_nat (Z.land path 1))
  end.

Lemma land_1 n : Z.land n 1 = n mod 2.
Proof. exact (Z.land_ones n 1 ltac:(lia)). Qed.

Lemma push_bit path n : 0 <= n -> Z.lor (Z.shiftl path 1) (Z.land n 1) = path * 2 + n mod 2.
Proof.
  intros Hn. rewrite land_1, Z.lor_comm, lor_low_shifted; [lia..|].
  pose proof (Z.mod_pos_bound n 2). lia.
Qed.

Lemma pop_bit path n : 0 <= n ->
  Z.land (path * 2 + n mod 2) 1 = n mod 2 /\ Z.shiftr (path * 2 + n mod 2) 1 = path.
Proof.
  intros Hn. pose proof (Z.mod_pos_bound n 2 ltac:(lia)). rewrite land_1, Z.shiftr_div_pow2 by lia.
  change (2 ^ 1) with 2. split; zdm.
Qed.

Lemma path_loop_spec fuel n k path h :
  1 <= n < 2 ^ Z.of_nat fuel -> 0 <= k -> 0 <= path < 2 ^ k -> n * 2 ^ k < 2 ^ 32 ->
  exists k' path', path_loop fuel n k path h = Done (path', k') h /\ 0 <= k' /\
    follow (Z.to_nat k') path' 1 = follow (Z.to_nat k) path (Z.to_nat n).
Proof.
  revert n k path. induction fuel as [|fuel IH]; intros n k path Hn Hk Hp Hb.
  { change (2 ^ Z.of_nat 0) with 1 in Hn. lia. }
  cbn [path_loop]. destruct (Z.leb_spec 2 n) as [H2|H2].
  - assert (2 ^ (k + 1) = 2 * 2 ^ k) as Ek by (rewrite Z.pow_add_r by lia; lia).
    assert (2 ^ Z.of_nat (S fuel) = 2 * 2 ^ Z.of_nat fuel) as Ef
      by (rewrite Nat2Z.inj_succ, Z.pow_succ_r; lia).
    assert (k < 32) as Hk32.
    { destruct (Z_lt_ge_dec k 32); [done|]. pose proof (Z.pow_le_mono_r 2 32 k). nia. }
    pose proof (Z.mod_pos_bound n 2 ltac:(lia)) as Hm. pose proof (Z.div_mod n 2 ltac:(lia)) as Hdm.
    rewrite (u32_small (k + 1)) by lia.
    rewrite (u32_small (Z.shiftl path 1)) by (rewrite Z.shiftl_mul_pow2 by lia; change (2 ^ 1) with 2; nia).
    rewrite push_bit by lia.
    destruct (IH (n / 2) (k + 1) (path * 2 + n mod 2)) as (k' & path' & E & Hk' & Hf); [nia..|].
    exists k', path'. split; [done|]. split; [done|]. rewrite Hf.
    destruct (pop_bit path n ltac:(lia)) as [E1 E2].
    replace (Z.to_nat (k + 1)) with (S (Z.to_nat k)) by lia. cbn [follow]. rewrite E1, E2.
    f_equal. lia.
  - exists k, path. split; [done|]. split; [done|]. by replace n with 1 by lia.
Qed.

(** The pointer to the position [a]. *)
Definition slot_at (l : list Z) (a : nat) : slot :=
  if Nat.eqb a 1 then SMin
  else if Nat.even a then SLeft (pos l (a / 2)) else SRight (pos l (a / 2)).

Lemma load_slot_spec l a h :
  links l h -> (a = 1%nat \/ (2 <= a)%nat /\ valid l (a / 2)) -> load_slot (slot_at l a) h = Done (pos l a) h.
Proof.
  intros Hl Ha. unfold slot_at. destruct (Nat.eqb_spec a 1) as [->|Hne].
  { cbn [load_slot]. unfold gets. by rewrite (ln_min _ _ Hl). }
  destruct Ha as [|[H2 Hv]]; [done|]. pose proof (half_even a) as He.
  pose proof (ln_nodes _ _ Hl _ Hv) as En.
  destruct (Nat.even a); cbn [load_slot]; rewrite (bind_get _ _ _ _ En); unfold ret, node_at;
    cbn [left right]; do 2 f_equal; lia.
Qed.

Lemma follow_le k path a : (a <= follow k path a)%nat.
Proof.
  revert path a. induction k as [|k IH]; intros path a; cbn [follow]; [done|].
  etransitivity; [|apply IH]. lia.
Qed.

Lemma slot_child l a path :
  (1 <= a)%nat ->
  (if Z.land path 1 =? 0 then SLeft (pos l a) else SRight (pos l a))
  = slot_at l (2 * a + Z.to_nat (Z.land path 1)).
Proof.
  intros Ha. rewrite land_1. pose proof (Z.mod_pos_bound path 2 ltac:(lia)) as Hm. unfold slot_at.
  assert (path mod 2 = 0 \/ path mod 2 = 1) as [-> | ->] by lia; cbn [Z.eqb].
  - eqb_lia. replace (Nat.even _) with true; [|symmetry; apply Nat.even_spec; exists a; lia].
    by replace ((2 * a + Z.to_nat 0) / 2)%nat with a by (symmetry; apply half_child; lia).
  - eqb_lia. replace (Nat.even _) with false.
    2:{ symmetry. apply negb_true_iff. rewrite Nat.negb_even. apply Nat.odd_spec. exists a. lia. }
    by replace ((2 * a + Z.to_nat 1) / 2)%nat with a by (symmetry; apply half_child; lia).
Qed.

Lemma descend_spec k path a parent_ l h :
  links l h -> (a = 1%nat \/ (2 <= a)%nat /\ valid l (a / 2)) ->
  (k <> 0%nat -> valid l (follow k path a / 2)) ->
  descend k path parent_ (slot_at l a) h
  = Done (if Nat.eqb k 0 then parent_ else slot_at l (follow k path a / 2),
          slot_at l (follow k path a)) h.
Proof.
  revert path a parent_. induction k as [|k IH]; intros path a parent_ Hl Ha Hv; [done|].
  cbn [descend follow Nat.eqb]. set (b := (2 * a + Z.to_nat (Z.land path 1))%nat) in *.
  cbn [follow] in Hv. fold b in Hv. specialize (Hv ltac:(done)).
  assert (1 <= a)%nat as Ha1 by lia.
  assert (b / 2 = a)%nat as Hb.
  { apply half_child. unfold b. rewrite land_1. pose proof (Z.mod_pos_bound path 2). lia. }
  pose proof (follow_le k (Z.shiftr path 1) b) as Hle.
  assert (a <= follow k (Z.shiftr path 1) b / 2)%nat as Hle2
    by (rewrite <- Hb; by apply Nat.Div0.div_le_mono).
  assert (valid l a) as Hva by (unfold valid in *; lia).
  rewrite (bind_done _ _ _ _ _ (load_slot_spec l a h Hl Ha)), slot_child by done. fold b.
  rewrite IH; [|done|right; rewrite Hb; split; [unfold b; lia|done]|done].
  destruct k as [|k]; cbn [Nat.eqb follow]; [|done]. by rewrite Hb.
Qed.

(** ** Changes at the two ends of the list *)
Lemma pos_app l x j : pos (l ++ [x]) j = if Nat.eqb j (S (length l)) then x else pos l j.
Proof.
  destruct j as [|j]; [done|]. cbn [pos Nat.eqb]. destruct (Nat.eqb_spec j (length l)) as [->|Hne].
  - rewrite app_nth2, Nat.sub_diag by lia. done.
  - destruct (decide (j < length l)%nat); [by apply app_nth1|].
    rewrite !nth_overflow; [done|lia|rewrite length_app; cbn; lia].
Qed.

Lemma valid_app l x j : valid (l ++ [x]) j <-> valid l j \/ j = S (length l).
Proof. unfold valid. rewrite length_app. cbn. lia. Qed.

Lemma store_slot_spec l a v h :
  links l h -> (a = 1%nat \/ (2 <= a)%nat /\ valid l (a / 2)) ->
  store_slot (slot_at l a) v h = Done tt (link_replaced l a v h).
Proof.
  intros Hl Ha. unfold slot_at, link_replaced. destruct (Nat.eqb_spec a 1) as [->|Hne]; [done|].
  destruct Ha as [|[H2 Hv]]; [done|]. pose proof (ln_nodes _ _ Hl _ Hv) as En.
  destruct (Nat.even a); cbn [store_slot]; apply upd_node_spec; eauto.
Qed.

Lemma links_nelts l h n : links l h -> links l (mk_heap (nodes h) (min h) n).
Proof. by intros []. Qed.

Lemma links_out l h f x : links l h -> x ∉ l -> links l (mk_heap (alter f x (nodes h)) (min h) (nelts h)).
Proof.
  intros [Hm Hd Hz Hn] Hx. constructor; [done..|]. intros j Hj. cbn [nodes].
  rewrite lookup_alter_ne; [auto|]. intros ->. by apply Hx, pos_elem.
Qed.

(** A new last node, linked both ways. *)
Lemma links_snoc l x h :
  links l h -> x ∉ l -> x <> 0 ->
  nodes h !! x = Some (mk_node 0 0 (pos l (S (length l) / 2))) ->
  links (l ++ [x]) (link_replaced l (S (length l)) x h).
Proof.
  intros [Hm Hd Hz Hn] Hx Hx0 Ex. set (N := S (length l)).
  pose proof (half_bounds N) as HN. pose proof (half_even N) as HNe.
  constructor.
  - unfold link_replaced. rewrite pos_app. fold N. unfold N.
    destruct (Nat.eqb_spec (S (length l)) 1); cbn [min]; eqb_lia; done.
  - apply NoDup_app. repeat split; [done| |apply NoDup_singleton].
    intros y Hy ->%list_elem_of_singleton. done.
  - rewrite elem_of_app, list_elem_of_singleton. intros [|]; [done|congruence].
  - assert ((2 <= N)%nat -> valid l (N / 2)) as Hv by (unfold valid; lia).
    intros j [Hj| ->]%valid_app; unfold node_at; rewrite !pos_app; fold N.
    + pose proof (half_bounds j) as Hjb. unfold valid in Hj. eqb_lia.
      rewrite lookup_replaced_at, Hn by (done || lia). unfold node_at.
      replace (Nat.eqb N 1) with false by (symmetry; apply Nat.eqb_neq; lia). rewrite andb_true_r.
      destruct (Nat.eqb_spec (N / 2) j) as [<-|Hne]; destruct (Nat.even N); eqb_lia; done.
    + rewrite Nat.eqb_refl. pose proof (half_bounds N). eqb_lia.
      rewrite !(pos_out l (2 * N)), !(pos_out l (2 * N + 1)) by (unfold valid; lia).
      unfold link_replaced. destruct (Nat.eqb_spec N 1); [done|]. cbn [nodes].
      rewrite lookup_alter_out; [done|done|]. apply Hv. lia.
Qed.

(** The last node unlinked from its parent. *)
Lemma links_init l x h :
  links (l ++ [x]) h -> links l (link_replaced (l ++ [x]) (S (length l)) 0 h).
Proof.
  set (N := S (length l)). intros [Hm Hd Hz Hn].
  pose proof (half_bounds N) as HN. pose proof (half_even N) as HNe.
  assert (forall i, valid l i -> pos (l ++ [x]) i = pos l i) as Hpos.
  { intros i Hi. rewrite pos_app. unfold valid in Hi. by eqb_lia. }
  pose proof Hd as [Hdl _]%NoDup_app.
  assert (0 ∉ l) as Hzl by (intros Hin; apply Hz, elem_of_app; by left).
  constructor; [|done|done|].
  - unfold link_replaced. destruct (Nat.eqb_spec N 1) as [E|E]; cbn [min].
    + rewrite pos_out; [done|]. unfold valid. lia.
    + rewrite Hm. apply Hpos. unfold valid. lia.
  - intros j Hj. pose proof (half_bounds j) as Hjb. rewrite <- Hpos at 1 by done.
    assert (valid (l ++ [x]) j) as Hj' by (apply valid_app; by left).
    assert ((2 <= N)%nat -> valid (l ++ [x]) (N / 2)) as Hv
      by (intros; apply valid_app; left; unfold valid; lia).
    rewrite lookup_replaced_at, Hn by (done || lia). unfold node_at, valid in *. rewrite !pos_app. fold N.
    replace (Nat.eqb N 1) with false by (symmetry; apply Nat.eqb_neq; lia). rewrite andb_true_r.
    assert (pos l N = 0) as EN by (apply pos_out; unfold valid; lia).
    destruct (Nat.eqb_spec (N / 2) j) as [<-|Hne]; destruct (Nat.even N); eqb_lia; try done;
      cbn [fmap option_fmap option_map]; unfold set_left, set_right; cbn [left right parent];
      do 2 f_equal; rewrite <- EN; f_equal; lia.
Qed.

Lemma put_perm l k x : valid l k -> put_pos l k x ++ [pos l k] ≡ₚ l ++ [x].
Proof.
  intros Hk. pose proof (lookup_pos l k Hk) as E. unfold valid in Hk. unfold put_pos.
  rewrite <- (take_drop_middle l (Nat.pred k) (pos l k)) at 1 3 by done.
  rewrite insert_app_r_alt by (rewrite length_take; lia).
  rewrite length_take, Nat.min_l, Nat.sub_diag by lia. cbn.
  rewrite <- !app_assoc. cbn. solve_Permutation.
Qed.

(** The node [y], with the links of the position [k], takes its place. *)
Definition put_links (l : list Z) (k : nat) (y : Z) (h : heap) : heap :=
  link_replaced l k y
    (mk_heap (relinked (pos l (2 * k + 1)) y (relinked (pos l (2 * k)) y (nodes h))) (min h) (nelts h)).

Lemma links_put l k y h :
  links l h -> valid l k -> y ∉ l -> y <> 0 -> nodes h !! y = Some (node_at l k) ->
  links (put_pos l k y) (put_links l k y h).
Proof.
  intros [Hm Hd Hz Hn] Hk Hy Hy0 Ey. pose proof (half_even k) as Hke.
  pose proof (put_perm l k y Hk) as Hp.
  assert (NoDup (put_pos l k y ++ [pos l k])) as [Hdp _]%NoDup_app.
  { rewrite Hp. apply NoDup_app. repeat split; [done| |apply NoDup_singleton].
    intros z Hin ->%list_elem_of_singleton. done. }
  assert (0 ∉ put_pos l k y) as Hzp.
  { intros Hin. assert (0 ∈ l ++ [y]) as [|E%list_elem_of_singleton]%elem_of_app; [|done|congruence].
    rewrite <- Hp. apply elem_of_app. by left. }
  constructor; [|done|done|].
  - unfold put_links, link_replaced. rewrite pos_put by done.
    destruct (Nat.eqb_spec k 1) as [->|]; cbn [min]; eqb_lia; done.
  - intros j Hj. assert (valid l j) as Hj' by (unfold valid in *; by rewrite length_put in Hj).
    pose proof (half_bounds j) as Hjb. unfold node_at. rewrite !pos_put by done. unfold put_links.
    unfold valid in Hk, Hj'. destruct (Nat.eqb_spec j k) as [->|Hne].
    + rewrite lookup_replaced_out by (done || by apply valid_half). cbn [nodes].
      rewrite !lookup_relinked_out, Ey by done.
      eqb_lia. done.
    + pose proof (half_bounds k). assert ((2 <= k)%nat -> valid l (k / 2)) by (unfold valid; lia).
      rewrite lookup_replaced_at by (done || lia). cbn [nodes].
      rewrite !lookup_relinked_pos, Hn by done. unfold node_at.
      destruct (Nat.eqb_spec (2 * k + 1) j); [|destruct (Nat.eqb_spec (2 * k) j);
        [|destruct (Nat.eqb_spec (k / 2) j)]]; destruct (Nat.even k); eqb_lia; done.
Qed.

(** ** The operations *)
Section Operations.
Context (less : Z -> Z -> bool) `{!HeapOrder less}.

Record heap_ok (l : list Z) (h : heap) : Prop := {
  ho_links : links l h;
  ho_nelts : nelts h = zlen l;
  ho_ordered : ordered less l
}.

(** The path of [path_loop] and [descend] goes to the position [n]. *)
Lemma path_to l h n {A} (k : slot * slot -> Hp A) :
  links l h -> (1 <= n)%nat -> Z.of_nat n < 2 ^ 32 -> ((2 <= n)%nat -> valid l (n / 2)) ->
  (let* (path, d) := path_loop path_fuel (Z.of_nat n) 0 0 in
   let* s := descend (Z.to_nat d) path SMin SMin in k s) h
  = k (slot_at l (if Nat.eqb n 1 then 1 else n / 2), slot_at l n)%nat h.
Proof.
  intros Hl Hn Hb Hv.
  destruct (path_loop_spec path_fuel (Z.of_nat n) 0 0 h) as (d & path & E & Hd & Hf);
    [change (Z.of_nat path_fuel) with 33; lia|lia|change (2 ^ 0) with 1; lia|
     change (2 ^ 0) with 1; lia|].
  rewrite (bind_done _ _ _ _ _ E). change (Z.to_nat 0) with 0%nat in Hf.
  cbn [follow] in Hf. rewrite Nat2Z.id in Hf.
  change SMin with (slot_at l 1) at 2.
  assert (Z.to_nat d <> 0%nat -> (2 <= n)%nat) as Hd2.
  { intros Hd0. rewrite <- Hf. destruct (Z.to_nat d) as [|d']; [done|]. cbn [follow].
    etransitivity; [|apply follow_le]. lia. }
  rewrite (bind_done _ _ _ _ _ (descend_spec _ _ 1 _ l h Hl (or_introl eq_refl)
    (fun H => eq_ind_r (fun m => valid l (m / 2)) (Hv (Hd2 H)) Hf))).
  rewrite Hf. f_equal. f_equal. destruct (Z.to_nat d) as [|d'] eqn:Ed; cbn [Nat.eqb].
  - cbn [follow] in Hf. by rewrite <- Hf.
  - specialize (Hd2 ltac:(lia)). by eqb_lia.
Qed.

Lemma heap_insert_spec l h x :
  heap_ok l h -> x ∉ l -> x <> 0 -> is_Some (nodes h !! x) -> zlen l + 1 < 2 ^ 32 ->
  exists l' h', heap_insert less x h = Done tt h' /\ heap_ok l' h' /\ l' ≡ₚ x :: l /\
    frame (x :: l) h h'.
Proof.
  intros [Hl Hne Ho] Hx Hx0 Hmap Hb. unfold heap_insert. rewrite bind_upd by done.
  unfold gets, bind at 1. cbn [nelts]. set (h1 := mk_heap _ _ _).
  assert (links l h1) as Hl1 by (by apply links_out).
  set (N := S (length l)). pose proof (half_bounds N) as HN.
  replace (u32 (1 + nelts h)) with (Z.of_nat N)
    by (rewrite Hne, u32_small; unfold zlen, N in *; lia).
  assert ((2 <= N)%nat -> valid l (N / 2)) as Hv by (unfold valid; lia).
  assert (N = 1 \/ 2 <= N /\ valid l (N / 2))%nat as Hslot by (unfold N, valid in *; lia).
  rewrite (path_to l h1 N) by (done || unfold zlen, N in *; lia).
  rewrite (bind_done _ _ h1 (pos l (N / 2)) h1).
  2:{ destruct (Nat.eqb_spec N 1) as [EN|HN1].
      - rewrite (load_slot_spec l 1) by auto. f_equal. rewrite EN.
        replace l with (@nil Z); [done|]. symmetry. apply nil_length_inv. unfold N in EN. lia.
      - rewrite (load_slot_spec l (N / 2)); [done|done|].
        destruct (decide (N / 2 = 1)%nat); [by left|right].
        pose proof (half_lt (N / 2) ltac:(lia)). specialize (Hv ltac:(lia)). unfold valid in *. lia. }
  rewrite bind_upd by (unfold h1; cbn [nodes]; by apply is_Some_alter).
  set (h2 := mk_heap _ _ _).
  assert (links l h2) as Hl2 by (by apply (links_out l h1)).
  rewrite (bind_done _ _ h2 tt _ (store_slot_spec l N x h2 Hl2 Hslot)).
  unfold put_nelts, modify, walk_fuel, gets, ret. unfold bind. cbn [nelts].
  set (h3 := mk_heap _ _ _).
  assert (links (l ++ [x]) h3) as Hl3.
  { apply links_nelts, links_snoc; [done..|]. unfold h2, h1. cbn [nodes].
    rewrite !lookup_alter_eq. destruct Hmap as [n ->]. done. }
  assert (pos (l ++ [x]) N = x) as EN by (rewrite pos_app; unfold N; by rewrite Nat.eqb_refl).
  assert (forall f, walk_up less f x h3 = walk_up less f (pos (l ++ [x]) N) h3) as Ew by (by rewrite EN).
  rewrite Ew.
  destruct (walk_up_spec less (S (Z.to_nat (u32 (nelts h + 1)))) (l ++ [x]) N h3)
    as (l' & h' & Hr & Hl' & Ho' & Hp & Hf & Hn); [done| | | |].
  - apply valid_app. by right.
  - by apply insert_ok.
  - rewrite Hne, u32_small; unfold zlen, N in *; lia.
  - exists l', h'. split; [done|]. split; [constructor; [done| |done]|].
    + rewrite Hn. cbn [nelts h3]. rewrite Hne, u32_small by (unfold zlen in *; lia).
      unfold zlen. rewrite Hp, length_app. cbn. lia.
    + split; [rewrite Hp; solve_Permutation|].
      intros z Hz. rewrite not_elem_of_cons in Hz. destruct Hz as [Hzx Hzl].
      rewrite Hf by (rewrite elem_of_app, list_elem_of_singleton; tauto).
      unfold h3. cbn [nodes]. rewrite lookup_replaced_out by done. unfold h2, h1. cbn [nodes].
      by rewrite !lookup_alter_ne by done.
Qed.

(** The node [pos l k] gives its place to [y], that is linked nowhere. *)
Lemma take_place l k y h (K : Hp unit) :
  links l h -> valid l k -> y ∉ l -> y <> 0 -> is_Some (nodes h !! y) ->
  (let* d := get_node (pos l k) in
   upd_node y (set_left (left d));;;
   upd_node y (set_right (right d));;;
   upd_node y (set_parent (parent d));;;
   let* c := get_node y in
   relink (left c) y;;;
   let* c := get_node y in
   relink (right c) y;;;
   let* d := get_node (pos l k) in
   replace_link (parent d) (pos l k) y;;; K) h
  = K (put_links l k y (mk_heap (alter (fun _ => node_at l k) y (nodes h)) (min h) (nelts h))).
Proof.
  intros Hl Hk Hy Hy0 Hmap. pose proof (ln_nodup _ _ Hl) as Hd. pose proof (ln_null _ _ Hl) as Hz.
  rewrite (bind_get _ _ _ _ (ln_nodes _ _ Hl k Hk)). cbn [left right parent node_at].
  rewrite !bind_upd by (cbn [nodes]; repeat apply is_Some_alter; done). cbn [nodes min nelts].
  set (m := alter (fun _ => node_at l k) y (nodes h)).
  rewrite !alter_alter_eq. change (alter _ y (nodes h)) with m.
  set (h1 := mk_heap m (min h) (nelts h)).
  assert (links l h1) as Hl1 by (by apply links_out).
  assert (nodes h1 !! y = Some (node_at l k)) as Ey.
  { unfold h1, m. cbn [nodes]. rewrite lookup_alter_eq. by destruct Hmap as [n ->]. }
  rewrite (bind_get _ _ _ _ Ey). cbn [left node_at].
  rewrite bind_relink by (apply mapped_pos; by apply links_mapped).
  erewrite bind_get by (cbn [nodes]; rewrite lookup_relinked_out; done). cbn [right node_at].
  rewrite bind_relink by (cbn [nodes]; eauto with mapped). cbn [nodes min nelts].
  assert (1 <= k)%nat as Hk1 by (unfold valid in Hk; lia).
  rewrite (bind_get _ (node_at l k))
    by (cbn [nodes]; rewrite !lookup_relinked_pos, (ln_nodes _ _ Hl1) by done; by eqb_lia).
  cbn [parent node_at]. apply (bind_done _ (fun _ => K) _ tt). apply replace_link_spec; [done..|].
  intros Hk2. pose proof (half_bounds k).
  assert (valid l (k / 2)) as Hv by (unfold valid in *; lia).
  cbn [nodes]. rewrite !lookup_relinked_pos, (ln_nodes _ _ Hl1 _ Hv) by done.
  eexists. split; [by eqb_lia|done].
Qed.

Lemma sift_spec l k h :
  links l h -> nelts h = zlen l -> valid l k -> down_ok less l k ->
  exists l' h',
    (let* fuel := walk_fuel in walk_down less fuel (pos l k);;; walk_up less fuel (pos l k)) h
      = Done tt h' /\ heap_ok l' h' /\ l' ≡ₚ l /\ frame l h h'.
Proof.
  intros Hl Hn Hk Hdown. unfold walk_fuel, gets, ret. unfold bind at 1 2. rewrite Hn.
  assert (Z.to_nat (zlen l) = length l) as -> by (unfold zlen; lia).
  destruct (walk_down_spec less (S (length l)) l k h Hl Hk Hdown)
    as (l1 & k1 & h1 & E1 & Hl1 & Hk1 & Hp1 & Hup & Hperm1 & Hf1 & Hn1); [lia|].
  assert (length l1 = length l) as Hlen by (by rewrite Hperm1).
  rewrite (bind_done _ _ _ _ _ E1), <- Hp1.
  destruct (walk_up_spec less (S (length l)) l1 k1 h1 Hl1 Hk1 Hup)
    as (l' & h' & E2 & Hl' & Ho & Hperm & Hf & Hn'); [unfold valid in Hk1; lia|].
  exists l', h'. split; [done|]. assert (l' ≡ₚ l) as Hp by (by rewrite Hperm).
  split; [constructor; [done| |done]|split; [done|]].
  - rewrite Hn', Hn1, Hn. unfold zlen. by rewrite Hp.
  - by eapply frame_trans; [symmetry; apply Hperm1| |].
Qed.

Lemma heap_remove_spec l h x :
  heap_ok l h -> x ∈ l -> zlen l < 2 ^ 32 ->
  exists l' h', heap_remove less x h = Done tt h' /\ heap_ok l' h' /\ l ≡ₚ x :: l' /\ frame l h h'.
Proof.
  intros [Hl Hne Ho] Hx Hb. unfold heap_remove, gets. unfold bind at 1.
  destruct (exists_last (l := l)) as (l0 & y & ->); [by intros ->; apply elem_of_nil in Hx|].
  set (N := S (length l0)). pose proof (half_bounds N) as HN.
  assert (zlen (l0 ++ [y]) = Z.of_nat N) as EN by (unfold zlen, N; rewrite length_app; cbn; lia).
  rewrite EN in Hne. rewrite Hne. replace (Z.of_nat N =? 0) with false by (symmetry; apply Z.eqb_neq; unfold N; lia).
  assert ((2 <= N)%nat -> valid (l0 ++ [y]) (N / 2)) as Hv.
  { intros. apply valid_app. left. unfold valid. lia. }
  rewrite (path_to (l0 ++ [y]) h N) by (done || unfold N in *; lia).
  cbn beta iota. unfold put_nelts, modify. unfold bind at 1.
  rewrite u32_small by (unfold N in *; lia).
  set (h1 := mk_heap _ _ _).
  assert (links (l0 ++ [y]) h1) as Hl1 by (by apply links_nelts).
  assert (N = 1 \/ 2 <= N /\ valid (l0 ++ [y]) (N / 2))%nat as Hslot.
  { destruct (decide (N = 1%nat)); [by left|right]. split; [|apply Hv]; unfold N in *; lia. }
  rewrite (bind_done _ _ _ _ _ (load_slot_spec _ _ _ Hl1 Hslot)).
  rewrite (bind_done _ _ _ _ _ (store_slot_spec _ _ 0 _ Hl1 Hslot)).
  set (h2 := link_replaced (l0 ++ [y]) N 0 h1).
  assert (pos (l0 ++ [y]) N = y) as EyN by (rewrite pos_app; by eqb_lia). rewrite !EyN.
  assert (is_Some (nodes h2 !! y)) as Hmy.
  { assert (is_Some (nodes h1 !! y)) as Hy1.
    { rewrite <- EyN. apply (links_mapped _ _ Hl1), valid_app. by right. }
    unfold h2, link_replaced. destruct (Nat.eqb N 1); [done|]. by apply is_Some_alter. }
  assert (links l0 h2) as Hl2 by (by apply links_init).
  pose proof (ln_nodup _ _ Hl) as (_ & Hyl & _)%NoDup_app.
  specialize (fun Hin => Hyl y Hin (proj2 (list_elem_of_singleton y y) eq_refl)) as Hy.
  assert (y <> 0) as Hy0.
  { intros ->. apply (ln_null _ _ Hl). apply elem_of_app. right. by apply list_elem_of_singleton. }
  assert (nelts h2 = zlen l0) as Hn2.
  { unfold h2. rewrite replaced_nelts. cbn [nelts h1]. unfold zlen, N. lia. }
  assert (frame (l0 ++ [y]) h h2) as Hf2.
  { intros z Hz. unfold h2. by rewrite lookup_replaced_out. }
  destruct (Z.eqb_spec y x) as [->|Hyx].
  - exists l0, h2. split; [|split; [|split; [solve_Permutation|done]]].
    + unfold heap_min, gets. unfold bind. rewrite (ln_min _ _ Hl2).
      destruct (Z.eqb_spec x (pos l0 1)) as [E|]; [|done]. exfalso.
      destruct (decide (valid l0 1)); [|by rewrite pos_out in E].
      apply Hy. rewrite E. by apply pos_elem.
    + constructor; [done|done|by eapply ordered_init].
  - assert (x ∈ l0) as (k & Hk & <-)%elem_pos.
    { apply elem_of_app in Hx as [|E%list_elem_of_singleton]; [done|congruence]. }
    rewrite take_place by done. set (h3 := put_links _ _ _ _).
    assert (links (put_pos l0 k y) h3) as Hl3.
    { apply links_put; [by apply links_out|done|done|done|]. cbn [nodes]. rewrite lookup_alter_eq.
      by destruct Hmy as [n ->]. }
    assert (nelts h3 = zlen (put_pos l0 k y)) as Hn3.
    { unfold h3, put_links, zlen. by rewrite replaced_nelts, length_put. }
    assert (valid (put_pos l0 k y) k) as Hk' by (unfold valid in *; by rewrite length_put).
    destruct (sift_spec _ k h3 Hl3 Hn3 Hk' (replace_ok less l0 y k Ho Hk))
      as (l' & h' & E & Hok & Hp & Hf).
    assert (pos (put_pos l0 k y) k = y) as Eyk by (rewrite pos_put by done; by rewrite Nat.eqb_refl).
    rewrite Eyk in E. exists l', h'. split; [done|]. split; [done|].
    pose proof (put_perm l0 k y Hk) as Hpp. split; [rewrite Hp, <- Hpp; solve_Permutation|].
    intros z Hz. rewrite Hf.
    + unfold h3, put_links. apply not_elem_of_app in Hz as Hz'. destruct Hz' as [Hz1 Hz2].
      rewrite list_elem_of_singleton in Hz2.
      rewrite lookup_replaced_out by (done || by apply valid_half). cbn [nodes].
      rewrite !lookup_relinked_out, lookup_alter_ne by congruence. by apply Hf2.
    + intros Hin. apply Hz. rewrite <- Hpp. apply elem_of_app. by left.
Qed.

(** The minimum. *)
Lemma heap_min_spec l h :
  heap_ok l h ->
  heap_min h = Done (pos l 1) h /\ (l = [] <-> pos l 1 = 0) /\
  (l <> [] -> pos l 1 ∈ l /\ forall x, x ∈ l -> less x (pos l 1) = false).
Proof.
  intros [Hl Hn Ho]. split; [unfold heap_min, gets; by rewrite (ln_min _ _ Hl)|].
  assert (l <> [] -> valid l 1) as Hv by (destruct l; [done|unfold valid; cbn; lia]).
  split; [split; [by intros ->|]|].
  - intros E. destruct (decide (l = [])); [done|]. exfalso.
    by apply (pos_nonzero l (ln_null _ _ Hl) 1 (Hv n)).
  - intros Hne. split; [by apply pos_elem, Hv|].
    intros x (i & Hi & <-)%elem_pos. by apply ordered_min.
Qed.
End Operations.

(** ** The operations keep the nodes mapped *)
Definition keeps {A} (m : Hp A) : Prop := forall h a h' x,
  m h = Done a h' -> is_Some (nodes h !! x) -> is_Some (nodes h' !! x).

Lemma keeps_size_ret {A} (a : A) : keeps (ret a).
Proof. by intros h a' h' x [= _ <-]. Qed.
Lemma keeps_gets {A} (f : heap -> A) : keeps (gets f).
Proof. by intros h a' h' x [= _ <-]. Qed.
Lemma keeps_fuel {A} : keeps (out_of_fuel : Hp A).
Proof. by intros h a h' x. Qed.
Lemma keeps_size_bind {A B} (m : Hp A) (k : A -> Hp B) : keeps m -> (forall a, keeps (k a)) -> keeps (bind m k).
Proof.
  intros Hm Hk h b h' x. unfold bind. destruct (m h) as [a t| | |] eqn:E; try done.
  intros E' Hx. eapply Hk; [done|]. by eapply Hm.
Qed.
Lemma keeps_get p : keeps (get_node p).
Proof. intros h a h' x. unfold get_node. destruct (nodes h !! p); [by intros [= _ <-]|done]. Qed.
Lemma keeps_upd p f : keeps (upd_node p f).
Proof.
  apply keeps_size_bind; [apply keeps_get|]. intros _ h a h' x [= _ <-] Hx. cbn. by apply is_Some_alter.
Qed.
Lemma keeps_put_min p : keeps (put_min p).
Proof. by intros h a h' x [= _ <-]. Qed.
Lemma keeps_put_nelts n : keeps (put_nelts n).
Proof. by intros h a h' x [= _ <-]. Qed.

Create HintDb keeps.
#[export] Hint Resolve keeps_size_ret keeps_gets keeps_fuel keeps_get keeps_upd keeps_put_min keeps_put_nelts : keeps.

Ltac keeps :=
  repeat match goal with
  | |- keeps (bind _ _) => apply keeps_size_bind; [|intros]
  | |- keeps (match ?x with _ => _ end) => destruct x
  end; auto with keeps.

Lemma keeps_load s : keeps (load_slot s).
Proof. unfold load_slot. keeps. Qed.
Lemma keeps_store s v : keeps (store_slot s v).
Proof. unfold store_slot. keeps. Qed.
Lemma keeps_relink p v : keeps (relink p v).
Proof. unfold relink. keeps. Qed.
Lemma keeps_replace q a b : keeps (replace_link q a b).
Proof. unfold replace_link. keeps. Qed.
#[export] Hint Resolve keeps_load keeps_store keeps_relink keeps_replace : keeps.

Lemma keeps_swap p c : keeps (heap_node_swap p c).
Proof. unfold heap_node_swap. keeps. Qed.
Lemma keeps_path fuel n k p : keeps (path_loop fuel n k p).
Proof. revert n k p. induction fuel; intros; cbn [path_loop]; keeps. Qed.
Lemma keeps_descend k p a b : keeps (descend k p a b).
Proof. revert p a b. induction k; intros; cbn [descend]; keeps. Qed.
#[export] Hint Resolve keeps_swap keeps_path keeps_descend : keeps.
Lemma keeps_up less fuel p : keeps (walk_up less fuel p).
Proof. revert p. induction fuel; intros; cbn [walk_up]; keeps. Qed.
Lemma keeps_down less fuel p : keeps (walk_down less fuel p).
Proof. revert p. induction fuel; intros; cbn [walk_down]; keeps. Qed.
#[export] Hint Resolve keeps_up keeps_down : keeps.
Lemma keeps_insert less p : keeps (heap_insert less p).
Proof. unfold heap_insert, walk_fuel. keeps. Qed.
Lemma keeps_remove less p : keeps (heap_remove less p).
Proof. unfold heap_remove, walk_fuel, heap_min. keeps. Qed.
