(* ===== verification/UvQueue.v ===== *)
(** libuv, [queue.h]: the intrusive circular doubly linked lists of the loop and
    of the thread pool.  A [QUEUE] is two pointers, next and previous; the
    memory maps the address of a node, of any type [K], to them.  An address
    that holds no node is [UbMem]. *)
From S2P Require Import Prelude.

Section Queue.
Context {K : Type} `{Countable K}.

Record qnode : Type := mk_qnode { q_next : K; q_prev : K }.

Definition Qm : Type -> Type := M (gmap K qnode).

(** [QUEUE_NEXT(q)] and [QUEUE_PREV(q)], read and assigned. *)
Definition QUEUE_NEXT (q : K) : Qm K := fun m => of_option UbMem (q_next <$> m !! q) m.
Definition QUEUE_PREV (q : K) : Qm K := fun m => of_option UbMem (q_prev <$> m !! q) m.
Definition put_next (q v : K) : Qm unit :=
  let* _ := QUEUE_NEXT q in modify (alter (fun n => mk_qnode v (q_prev n)) q).
Definition put_prev (q v : K) : Qm unit :=
  let* _ := QUEUE_NEXT q in modify (alter (fun n => mk_qnode (q_next n) v) q).

(** [QUEUE_PREV_NEXT(q) = v] and [QUEUE_NEXT_PREV(q) = v]. *)
Definition put_prev_next (q v : K) : Qm unit := let* p := QUEUE_PREV q in put_next p v.
Definition put_next_prev (q v : K) : Qm unit := let* n := QUEUE_NEXT q in put_prev n v.

Definition QUEUE_EMPTY (q : K) : Qm bool := let* n := QUEUE_NEXT q in ret (bool_decide (q = n)).

Definition QUEUE_HEAD (q : K) : Qm K := QUEUE_NEXT q.

Definition QUEUE_INIT (q : K) : Qm unit := put_next q q;;; put_prev q q.

Definition QUEUE_ADD (h n : K) : Qm unit :=
  let* x := QUEUE_NEXT n in put_prev_next h x;;;
  let* x := QUEUE_PREV h in put_next_prev n x;;;
  let* x := QUEUE_PREV n in put_prev h x;;;
  put_prev_next h h.

Definition QUEUE_SPLIT (h q n : K) : Qm unit :=
  let* x := QUEUE_PREV h in put_prev n x;;;
  put_prev_next n n;;;
  put_next n q;;;
  let* x := QUEUE_PREV q in put_prev h x;;;
  put_prev_next h h;;;
  put_prev q n.

Definition QUEUE_MOVE (h n : K) : Qm unit :=
  let* e := QUEUE_EMPTY h in
  if e : bool then QUEUE_INIT n else let* q := QUEUE_HEAD h in QUEUE_SPLIT h q n.

Definition QUEUE_INSERT_HEAD (h q : K) : Qm unit :=
  let* x := QUEUE_NEXT h in put_next q x;;;
  put_prev q h;;;
  put_next_prev q q;;;
  put_next h q.

Definition QUEUE_INSERT_TAIL (h q : K) : Qm unit :=
  put_next q h;;;
  let* x := QUEUE_PREV h in put_prev q x;;;
  put_prev_next q q;;;
  put_prev h q.

Definition QUEUE_REMOVE (q : K) : Qm unit :=
  let* n := QUEUE_NEXT q in put_prev_next q n;;;
  let* p := QUEUE_PREV q in put_next_prev q p.
End Queue.
Arguments qnode K : clear implicits.
