(* ===== verification/UvQueueProofs.v ===== *)
(** libuv, [queue.h]: a head and its memory represent the list of the linked
    nodes, and the operations of the macros are those of lists on it. *)
From S2P Require Import Prelude.
From S2P Require Import UvQueue.
#[local] Set Warnings "-clear-no-such-hyp".

Section Queue.
Context {K : Type} `{Countable K}.
Implicit Types (m : gmap K (qnode K)) (h q x y : K) (l : list K).

Definition nxt m x : option K := q_next <$> m !! x.
Definition prv m x : option K := q_prev <$> m !! x.

(** The memory after an assignment. *)
Definition wn x v m : gmap K (qnode K) := alter (fun n => mk_qnode v (q_prev n)) x m.
Definition wp x v m : gmap K (qnode K) := alter (fun n => mk_qnode (q_next n) v) x m.

Lemma nxt_wn x v m y :
  is_Some (nxt m x) -> nxt (wn x v m) y = if decide (y = x) then Some v else nxt m y.
Proof.
  unfold nxt, wn. intros Hx%fmap_is_Some. destruct (decide (y = x)) as [->|].
  - rewrite lookup_alter_eq. by destruct Hx as [n ->].
  - by rewrite lookup_alter_ne.
Qed.

Lemma prv_wp x v m y :
  is_Some (nxt m x) -> prv (wp x v m) y = if decide (y = x) then Some v else prv m y.
Proof.
  unfold nxt, prv, wp. intros Hx%fmap_is_Some. destruct (decide (y = x)) as [->|].
  - rewrite lookup_alter_eq. by destruct Hx as [n ->].
  - by rewrite lookup_alter_ne.
Qed.

Lemma prv_wn x v m y : prv (wn x v m) y = prv m y.
Proof.
  unfold prv, wn. destruct (decide (y = x)) as [->|]; [|by rewrite lookup_alter_ne].
  rewrite lookup_alter_eq. by destruct (m !! x).
Qed.

Lemma nxt_wp x v m y : nxt (wp x v m) y = nxt m y.
Proof.
  unfold nxt, wp. destruct (decide (y = x)) as [->|]; [|by rewrite lookup_alter_ne].
  rewrite lookup_alter_eq. by destruct (m !! x).
Qed.

Lemma nxt_prv m x : is_Some (nxt m x) <-> is_Some (prv m x).
Proof. unfold nxt, prv. by rewrite !fmap_is_Some. Qed.

Lemma nxt_wn_some x v m y : is_Some (nxt m y) -> is_Some (nxt (wn x v m) y).
Proof. rewrite !nxt_prv, prv_wn. done. Qed.

Lemma nxt_wp_some x v m y : is_Some (nxt m y) -> is_Some (nxt (wp x v m) y).
Proof. by rewrite nxt_wp. Qed.

(** ** Running the macros *)
Lemma bind_next {B} q v m (k : K -> Qm B) :
  nxt m q = Some v -> bind (QUEUE_NEXT q) k m = k v m.
Proof. unfold nxt, QUEUE_NEXT, bind. by intros ->. Qed.

Lemma bind_prev {B} q v m (k : K -> Qm B) :
  prv m q = Some v -> bind (QUEUE_PREV q) k m = k v m.
Proof. unfold prv, QUEUE_PREV, bind. by intros ->. Qed.

Lemma put_next_run q v m : is_Some (nxt m q) -> put_next q v m = Done tt (wn q v m).
Proof. intros [w E]. unfold put_next. by rewrite (bind_next _ _ _ _ E). Qed.

Lemma put_prev_run q v m : is_Some (nxt m q) -> put_prev q v m = Done tt (wp q v m).
Proof. intros [w E]. unfold put_prev. by rewrite (bind_next _ _ _ _ E). Qed.

Lemma put_prev_next_run q p v m :
  prv m q = Some p -> is_Some (nxt m p) -> put_prev_next q v m = Done tt (wn p v m).
Proof. intros E Hp. unfold put_prev_next. rewrite (bind_prev _ _ _ _ E). by apply put_next_run. Qed.

Lemma put_next_prev_run q n v m :
  nxt m q = Some n -> is_Some (nxt m n) -> put_next_prev q v m = Done tt (wp n v m).
Proof. intros E Hn. unfold put_next_prev. rewrite (bind_next _ _ _ _ E). by apply put_prev_run. Qed.

Lemma bind_put_next {B} q v m (k : unit -> Qm B) :
  is_Some (nxt m q) -> bind (put_next q v) k m = k tt (wn q v m).
Proof. intros Hq. unfold bind. by rewrite put_next_run. Qed.

Lemma bind_put_prev {B} q v m (k : unit -> Qm B) :
  is_Some (nxt m q) -> bind (put_prev q v) k m = k tt (wp q v m).
Proof. intros Hq. unfold bind. by rewrite put_prev_run. Qed.

Lemma bind_put_prev_next {B} p q v m (k : unit -> Qm B) :
  prv m q = Some p -> is_Some (nxt m p) -> bind (put_prev_next q v) k m = k tt (wn p v m).
Proof. intros E Hp. unfold bind. by rewrite (put_prev_next_run _ _ _ _ E). Qed.

Lemma bind_put_next_prev {B} n q v m (k : unit -> Qm B) :
  nxt m q = Some n -> is_Some (nxt m n) -> bind (put_next_prev q v) k m = k tt (wp n v m).
Proof. intros E Hn. unfold bind. by rewrite (put_next_prev_run _ _ _ _ E). Qed.

(** ** Linked nodes *)
Definition link m x y : Prop := nxt m x = Some y /\ prv m y = Some x.

Fixpoint chain m l : Prop :=
  match l with
  | x :: ((y :: _) as k) => link m x y /\ chain m k
  | _ => True
  end.

(** The queue [h] holds [l]. *)
Definition queue m h l : Prop := NoDup (h :: l) /\ chain m (h :: l ++ [h]).

(** Nothing but the nodes of [l] has changed, and no node is lost. *)
Record changes l m m' : Prop := {
  ch_out : forall x, x ∉ l -> m' !! x = m !! x;
  ch_mapped : forall x, is_Some (nxt m x) -> is_Some (nxt m' x)
}.

Lemma changes_refl l m : changes l m m.
Proof. by constructor. Qed.

Lemma changes_wn l m m' x v : changes l m m' -> x ∈ l -> changes l m (wn x v m').
Proof.
  intros [Ho Hm] Hx. constructor; [|intros; by apply nxt_wn_some, Hm].
  intros y Hy. unfold wn. rewrite lookup_alter_ne by (by intros ->). by apply Ho.
Qed.

Lemma changes_wp l m m' x v : changes l m m' -> x ∈ l -> changes l m (wp x v m').
Proof.
  intros [Ho Hm] Hx. constructor; [|intros; by apply nxt_wp_some, Hm].
  intros y Hy. unfold wp. rewrite lookup_alter_ne by (by intros ->). by apply Ho.
Qed.

Lemma chain_app m l x k : chain m (l ++ x :: k) <-> chain m (l ++ [x]) /\ chain m (x :: k).
Proof.
  induction l as [|y [|z l] IH]; [by simpl; destruct k; tauto| |].
  - cbn [app chain]. tauto.
  - cbn [app chain] in *. tauto.
Qed.

Lemma chain_snoc m l x y : chain m (l ++ [x]) -> link m x y -> chain m (l ++ [x; y]).
Proof. intros Hl Hxy. apply chain_app. split; [done|]. by split. Qed.

(** A chain sees the next pointers of all nodes but the last, and the previous
    ones of all nodes but the first. *)
Lemma chain_frame m m' x k l y :
  x :: k = l ++ [y] -> chain m (x :: k) ->
  (forall z, z ∈ l -> nxt m' z = nxt m z) -> (forall z, z ∈ k -> prv m' z = prv m z) ->
  chain m' (x :: k).
Proof.
  revert x l. induction k as [|z k IH]; intros x l E Hc Hn Hp; [done|].
  destruct l as [|x' l]; [by destruct k|]. injection E as <- E.
  destruct Hc as [[Hx Hz] Hc]. split.
  - split; [rewrite Hn by set_solver; done|rewrite Hp by set_solver; done].
  - apply (IH _ l); [done|done| |]; intros w Hw; [apply Hn|apply Hp]; set_solver.
Qed.

Lemma chain_mapped m x l y z : chain m (x :: l ++ [y]) -> z ∈ x :: l -> is_Some (nxt m z).
Proof.
  revert x. induction l as [|w l IH]; intros x Hc Hz.
  - apply list_elem_of_singleton in Hz as ->. destruct Hc as [[-> _] _]. done.
  - destruct Hc as [[Hx _] Hc]. apply elem_of_cons in Hz as [->|Hz]; [by rewrite Hx|].
    by apply (IH w).
Qed.

Lemma queue_mapped m h l x : queue m h l -> x ∈ h :: l -> is_Some (nxt m x).
Proof. intros [_ Hc]. by apply chain_mapped with (y := h). Qed.

Lemma queue_nodup m h l : queue m h l -> NoDup (h :: l).
Proof. by intros []. Qed.

Lemma queue_frame m m' h l :
  queue m h l -> (forall x, x ∈ h :: l -> m' !! x = m !! x) -> queue m' h l.
Proof.
  intros [Hd Hc] E. split; [done|]. apply (chain_frame m m' h (l ++ [h]) (h :: l) h); [done|done| |].
  - intros z Hz. unfold nxt. by rewrite E.
  - intros z Hz. unfold prv. rewrite E; [done|].
    rewrite elem_of_app, list_elem_of_singleton in Hz. rewrite elem_of_cons. tauto.
Qed.

(** Both sides of the place between [l1] and [l2]. *)
Lemma queue_split m h l1 q l2 :
  queue m h (l1 ++ q :: l2) -> exists A a b B,
  h :: l1 = A ++ [a] /\ l2 ++ [h] = b :: B /\ chain m (A ++ [a]) /\ chain m (b :: B) /\
  link m a q /\ link m q b.
Proof.
  intros [_ Hc]. destruct (exists_last (l := h :: l1)) as (A & a & EA); [done|].
  destruct (l2 ++ [h]) as [|b B] eqn:EB; [by destruct l2|].
  exists A, a, b, B. rewrite <- app_assoc in Hc. cbn [app] in Hc. rewrite EB in Hc.
  rewrite app_comm_cons, EA, <- app_assoc in Hc.
  apply chain_app in Hc as [HA [Haq [Hqb HB]]]. done.
Qed.

Lemma queue_gap m h l1 l2 :
  queue m h (l1 ++ l2) -> exists A a b B,
  h :: l1 = A ++ [a] /\ l2 ++ [h] = b :: B /\ chain m (A ++ [a]) /\ chain m (b :: B) /\ link m a b.
Proof.
  intros [_ Hc]. destruct (exists_last (l := h :: l1)) as (A & a & EA); [done|].
  destruct (l2 ++ [h]) as [|b B] eqn:EB; [by destruct l2|].
  exists A, a, b, B. rewrite <- app_assoc, EB, app_comm_cons, EA, <- app_assoc in Hc.
  apply chain_app in Hc as [HA [Hab HB]]. done.
Qed.

(** A chain after a change at the place between its two parts: next pointers
    after the first part, previous ones before the second. *)
Lemma queue_join m m' h l1 mid l2 A a b B :
  h :: l1 = A ++ [a] -> l2 ++ [h] = b :: B -> chain m (A ++ [a]) -> chain m (b :: B) ->
  NoDup (h :: l1 ++ mid ++ l2) ->
  (forall z, z ∈ A ++ l2 -> nxt m' z = nxt m z) ->
  (forall z, z ∈ l1 ++ B -> prv m' z = prv m z) ->
  chain m' (a :: mid ++ [b]) -> queue m' h (l1 ++ mid ++ l2).
Proof.
  intros EA EB HA HB Hd Hn Hp Hm. split; [done|].
  assert (chain m' (A ++ [a])) as HA'.
  { rewrite <- EA. apply (chain_frame m m' h l1 A a); [done|by rewrite EA| |]; intros z Hz.
    - apply Hn. set_solver.
    - apply Hp. set_solver. }
  assert (chain m' (b :: B)) as HB'.
  { apply (chain_frame m m' b B l2 h); [done|done| |]; intros z Hz.
    - apply Hn. set_solver.
    - apply Hp. set_solver. }
  assert (h :: (l1 ++ mid ++ l2) ++ [h] = A ++ a :: mid ++ b :: B) as ->.
  { rewrite <- !app_assoc, EB, app_comm_cons, EA, <- app_assoc. done. }
  apply chain_app. split; [done|]. rewrite app_comm_cons. apply chain_app. done.
Qed.

(** ** The operations *)
(** Pointers of the memory after assignments; a run of assignments. *)
Ltac mapped := repeat first [apply nxt_wn_some | apply nxt_wp_some]; eauto.
Ltac ptrs :=
  repeat first [rewrite nxt_wn by mapped | rewrite prv_wn | rewrite nxt_wp | rewrite prv_wp by mapped];
  repeat (case_decide; try (exfalso; subst; tauto || congruence)); try done.
Ltac changed := repeat first [apply changes_wn | apply changes_wp]; [apply changes_refl|..]; set_solver.

Lemma QUEUE_INIT_spec q m :
  is_Some (nxt m q) -> exists m', QUEUE_INIT q m = Done tt m' /\ queue m' q [] /\ changes [q] m m'.
Proof.
  intros Hq. unfold QUEUE_INIT. rewrite bind_put_next by done.
  rewrite put_prev_run by mapped. eexists. split; [done|]. split; [|changed].
  split; [apply NoDup_singleton|]. cbn. repeat split; ptrs.
Qed.

Lemma queue_head_link m h l :
  queue m h l -> nxt m h = Some (default h (head l)) /\ prv m h = Some (List.last l h).
Proof.
  intros Hq. split.
  - destruct Hq as [_ Hc]. by destruct l; destruct Hc as [[-> _] _].
  - destruct (exists_last (l := h :: l)) as (A & a & EA); [done|].
    destruct Hq as [_ Hc]. rewrite app_comm_cons, EA, <- app_assoc in Hc.
    apply chain_app in Hc as [_ [[_ ->] _]]. f_equal.
    rewrite <- (last_last A a h), <- EA. by destruct l.
Qed.

Lemma QUEUE_EMPTY_spec h l m : queue m h l -> QUEUE_EMPTY h m = Done (bool_decide (l = [])) m.
Proof.
  intros Hq. pose proof (queue_nodup _ _ _ Hq) as Hd. destruct (queue_head_link _ _ _ Hq) as [E _].
  unfold QUEUE_EMPTY. rewrite (bind_next _ _ _ _ E). unfold ret. f_equal.
  apply bool_decide_ext. destruct l as [|x l]; [done|]. cbn. split; [|done].
  intros <-. by apply NoDup_cons in Hd as [Hd _]; set_solver.
Qed.

Lemma QUEUE_HEAD_spec h x l m : queue m h (x :: l) -> QUEUE_HEAD h m = Done x m.
Proof.
  intros Hq. destruct (queue_head_link _ _ _ Hq) as [E _]. unfold QUEUE_HEAD, QUEUE_NEXT, nxt in *.
  by rewrite E.
Qed.

Lemma gap_fresh h l1 l2 A a b B :
  NoDup (h :: l1 ++ l2) -> h :: l1 = A ++ [a] -> l2 ++ [h] = b :: B ->
  (forall z, z ∈ A ++ l2 -> z <> a) /\ (forall z, z ∈ l1 ++ B -> z <> b).
Proof.
  intros Hd EA EB. split.
  - rewrite app_comm_cons, EA, <- app_assoc in Hd. apply NoDup_app in Hd as (_ & Ha & Hd).
    apply NoDup_cons in Hd as [Hd _]. intros z [Hz|Hz]%elem_of_app ->; [|done].
    apply (Ha a Hz). by left.
  - assert (NoDup (l1 ++ b :: B)) as Hd'.
    { rewrite <- EB, app_assoc. by rewrite <- Permutation_cons_append. }
    apply NoDup_app in Hd' as (_ & Hb & Hd'). apply NoDup_cons in Hd' as [Hd' _].
    intros z [Hz|Hz]%elem_of_app ->; [|done]. apply (Hb b Hz). by left.
Qed.

Lemma QUEUE_REMOVE_spec h l1 q l2 m :
  queue m h (l1 ++ q :: l2) ->
  exists m', QUEUE_REMOVE q m = Done tt m' /\ queue m' h (l1 ++ l2) /\ changes (h :: l1 ++ l2) m m'.
Proof.
  intros Hq. destruct (queue_split _ _ _ _ _ Hq)
    as (A & a & b & B & EA & EB & HA & HB & [Ha1 Ha2] & [Hb1 Hb2]).
  pose proof (queue_nodup _ _ _ Hq) as Hd.
  rewrite <- Permutation_middle, Permutation_swap in Hd. apply NoDup_cons in Hd as [Hqn Hd].
  destruct (gap_fresh _ _ _ _ _ _ _ Hd EA EB) as [Fa Fb].
  assert (a ∈ h :: l1) as Hai by (rewrite EA; set_solver).
  assert (b ∈ l2 ++ [h]) as Hbi by (rewrite EB; set_solver).
  assert (q <> a) as Hqa by set_solver.
  assert (is_Some (nxt m b)) as Hbm by (apply (queue_mapped _ _ _ b Hq); set_solver).
  unfold QUEUE_REMOVE. rewrite (bind_next _ _ _ _ Hb1).
  rewrite (bind_put_prev_next a) by mapped.
  rewrite (bind_prev _ a) by ptrs. rewrite (put_next_prev_run _ b) by (mapped || ptrs).
  eexists. split; [done|]. split; [|changed].
  apply (queue_join m _ h l1 [] l2 A a b B); [done..| | |].
  - intros z Hz%Fa. ptrs.
  - intros z Hz%Fb. ptrs.
  - split; [|done]. split; ptrs.
Qed.

(** [q] linked at the place between [l1] and [l2]. *)
Lemma queue_insert m m' h l1 q l2 A a b B :
  queue m h (l1 ++ l2) -> q ∉ h :: l1 ++ l2 ->
  h :: l1 = A ++ [a] -> l2 ++ [h] = b :: B -> chain m (A ++ [a]) -> chain m (b :: B) ->
  (forall z, nxt m' z = if decide (z = a) then Some q else if decide (z = q) then Some b else nxt m z) ->
  (forall z, prv m' z = if decide (z = b) then Some q else if decide (z = q) then Some a else prv m z) ->
  queue m' h (l1 ++ q :: l2).
Proof.
  intros Hq Hn EA EB HA HB En Ep. pose proof (queue_nodup _ _ _ Hq) as Hd.
  destruct (gap_fresh _ _ _ _ _ _ _ Hd EA EB) as [Fa Fb].
  assert (forall z, z ∈ A ++ l2 -> z ∈ h :: l1 ++ l2) as Ia.
  { intros z. rewrite app_comm_cons, EA. set_solver. }
  assert (forall z, z ∈ l1 ++ B -> z ∈ h :: l1 ++ l2) as Ib.
  { intros z Hz. assert (z ∈ l1 ++ l2 ++ [h]) by (rewrite EB; set_solver). set_solver. }
  assert (q <> a /\ q <> b) as [Hqa Hqb].
  { assert (a ∈ h :: l1) by (rewrite EA; set_solver). assert (b ∈ l2 ++ [h]) by (rewrite EB; set_solver).
    set_solver. }
  apply (queue_join m m' h l1 [q] l2 A a b B); [done..| | | |].
  - cbn [app]. rewrite <- Permutation_middle, Permutation_swap. by apply NoDup_cons.
  - intros z Hz. rewrite En. pose proof (Fa z Hz). specialize (Ia z Hz). by repeat case_decide; subst.
  - intros z Hz. rewrite Ep. pose proof (Fb z Hz). specialize (Ib z Hz). by repeat case_decide; subst.
  - cbn. unfold link. rewrite !En, !Ep. by repeat case_decide; subst.
Qed.

Lemma QUEUE_INSERT_TAIL_spec h l q m :
  queue m h l -> q ∉ h :: l -> is_Some (nxt m q) ->
  exists m', QUEUE_INSERT_TAIL h q m = Done tt m' /\ queue m' h (l ++ [q]) /\ changes (q :: h :: l) m m'.
Proof.
  intros Hq Hn Hm. rewrite <- (app_nil_r l) in Hq.
  destruct (queue_gap _ _ _ _ Hq) as (A & a & b & B & EA & EB & HA & HB & [Hab1 Hab2]).
  assert (b = h) as -> by (by injection EB).
  assert (a ∈ h :: l) as Ha by (rewrite EA; set_solver).
  assert (is_Some (nxt m h) /\ is_Some (nxt m a)) as [Hhm Ham].
  { split; apply (queue_mapped _ _ _ _ Hq); rewrite app_nil_r; set_solver. }
  assert (q <> h /\ q <> a) as [Hqh Hqa] by set_solver.
  unfold QUEUE_INSERT_TAIL. rewrite bind_put_next by done.
  rewrite (bind_prev _ a) by ptrs.
  rewrite bind_put_prev by mapped.
  rewrite (bind_put_prev_next a) by (mapped || ptrs).
  rewrite put_prev_run by mapped. eexists. split; [done|]. split; [|changed].
  eapply (queue_insert m _ h l q []); [done|by rewrite app_nil_r|done..| |]; intros z; ptrs.
Qed.

Lemma QUEUE_INSERT_HEAD_spec h l q m :
  queue m h l -> q ∉ h :: l -> is_Some (nxt m q) ->
  exists m', QUEUE_INSERT_HEAD h q m = Done tt m' /\ queue m' h (q :: l) /\ changes (q :: h :: l) m m'.
Proof.
  intros Hq Hn Hm.
  destruct (queue_gap m h [] l Hq) as (A & a & b & B & EA & EB & HA & HB & [Hab1 Hab2]).
  assert (A = [] /\ a = h) as [-> ->].
  { destruct A as [|x [|y A]]; [by injection EA|..]; discriminate. }
  assert (b ∈ l ++ [h]) as Hb by (rewrite EB; set_solver).
  assert (is_Some (nxt m h) /\ is_Some (nxt m b)) as [Hhm Hbm].
  { split; apply (queue_mapped _ _ _ _ Hq); set_solver. }
  assert (q <> h /\ q <> b) as [Hqh Hqa] by set_solver.
  unfold QUEUE_INSERT_HEAD. rewrite (bind_next _ _ _ _ Hab1).
  rewrite bind_put_next by done.
  rewrite bind_put_prev by mapped.
  rewrite (bind_put_next_prev b) by (mapped || ptrs).
  rewrite put_next_run by mapped. eexists. split; [done|]. split; [|changed].
  eapply (queue_insert m _ h [] q l []); [done|done|done..| |]; intros z; ptrs.
Qed.

Lemma queue_nil m h : nxt m h = Some h -> prv m h = Some h -> queue m h [].
Proof. intros E1 E2. split; [apply NoDup_singleton|]. by split. Qed.

(** The chain inside a queue that is not empty, between its first and last
    nodes. *)
Lemma queue_inner m h x l :
  queue m h (x :: l) -> exists L a,
  x :: l = L ++ [a] /\ chain m (x :: l) /\ NoDup (x :: l) /\ (a ∉ L) /\ (x ∉ l) /\ a ∈ x :: l /\
  nxt m h = Some x /\ prv m x = Some h /\ nxt m a = Some h /\ prv m h = Some a.
Proof.
  intros [Hd [[Hnh Hpx] Hc]]. apply NoDup_cons in Hd as [_ Hd].
  destruct (exists_last (l := x :: l)) as (L & a & EL); [done|]. exists L, a.
  change (chain m ((x :: l) ++ [h])) in Hc. rewrite EL, <- app_assoc in Hc.
  apply chain_app in Hc as [Hc [[Hn1 Hp1] _]]. rewrite <- EL in Hc.
  assert (a ∉ L) as HaL.
  { rewrite EL in Hd. apply NoDup_app in Hd as (_ & Hd & _). intros Ha. apply (Hd a Ha). by left. }
  assert (a ∈ x :: l) by (rewrite EL; set_solver).
  apply NoDup_cons in Hd as Hd'. destruct Hd' as [Hxl _]. by repeat split.
Qed.

(** The nodes of [h] pass to [n]: the split at the first node. *)
Lemma QUEUE_SPLIT_spec h x l n m :
  queue m h (x :: l) -> n ∉ h :: x :: l -> is_Some (nxt m n) ->
  exists m', QUEUE_SPLIT h x n m = Done tt m' /\ queue m' h [] /\ queue m' n (x :: l) /\
  changes (n :: h :: x :: l) m m'.
Proof.
  intros Hq Hn Hm. pose proof (queue_nodup _ _ _ Hq) as Hd.
  destruct (queue_inner _ _ _ _ Hq) as (L & a & EL & Hc & Hdk & HaL & Hxl & Ha & _ & Hpx & Hna & Hph).
  assert (is_Some (nxt m h) /\ is_Some (nxt m a) /\ is_Some (nxt m x)) as (Hhm & Ham & Hxm).
  { split; [|split]; apply (queue_mapped _ _ _ _ Hq); set_solver. }
  assert (h ∉ x :: l) as Hhl by (by apply NoDup_cons in Hd as [Hd _]).
  assert (n <> h /\ n <> a /\ n <> x /\ h <> a /\ h <> x) as (N1 & N2 & N3 & N4 & N5) by set_solver.
  unfold QUEUE_SPLIT. rewrite (bind_prev _ a) by done. rewrite bind_put_prev by mapped.
  rewrite (bind_put_prev_next a) by (mapped || ptrs). rewrite bind_put_next by mapped.
  rewrite (bind_prev _ h) by ptrs. rewrite bind_put_prev by mapped.
  rewrite (bind_put_prev_next h) by (mapped || ptrs). rewrite put_prev_run by mapped.
  eexists. split; [done|]. split; [apply queue_nil; ptrs|]. split; [|changed].
  split. { apply NoDup_cons. split; [set_solver|]. by apply NoDup_cons in Hd as [_ Hd]. }
  rewrite app_comm_cons. change (chain ?m' ((n :: x :: l) ++ [n])) with (link m' n x /\ chain m' ((x :: l) ++ [n])).
  split; [split; ptrs|]. rewrite EL, <- app_assoc. apply chain_snoc; [|split; ptrs].
  assert (forall z, z ∈ L -> z ∈ x :: l) as HL by (rewrite EL; set_solver).
  rewrite <- EL. eapply chain_frame; [done|done| |].
  - intros z Hz. specialize (HL z Hz).
    assert (z <> h /\ z <> n /\ z <> a) as (? & ? & ?) by set_solver. ptrs.
  - intros z Hz. assert (z <> h /\ z <> n /\ z <> x) as (? & ? & ?) by set_solver. ptrs.
Qed.

Lemma QUEUE_MOVE_spec h l n m :
  queue m h l -> n ∉ h :: l -> is_Some (nxt m n) ->
  exists m', QUEUE_MOVE h n m = Done tt m' /\ queue m' h [] /\ queue m' n l /\ changes (n :: h :: l) m m'.
Proof.
  intros Hq Hn Hm. unfold QUEUE_MOVE. rewrite (bind_done _ _ _ _ _ (QUEUE_EMPTY_spec _ _ _ Hq)).
  destruct l as [|x l]; cbn [bool_decide].
  - destruct (QUEUE_INIT_spec n m Hm) as (m' & E & Hq' & Hc). exists m'. rewrite bool_decide_true by done.
    split; [done|]. split; [|split; [done|]].
    + apply (queue_frame m); [done|]. intros z Hz. apply (ch_out _ _ _ Hc). set_solver.
    + destruct Hc as [Ho Hmp]. constructor; [|done]. intros z Hz. apply Ho. set_solver.
  - rewrite bool_decide_false by done. rewrite (bind_done _ _ _ _ _ (QUEUE_HEAD_spec _ _ _ _ Hq)).
    by apply QUEUE_SPLIT_spec.
Qed.

(** The nodes of [n] are appended to those of [h]; the head [n] is left with
    stale pointers. *)
Lemma QUEUE_ADD_spec h l n k m :
  queue m h l -> queue m n k -> (forall x, x ∈ h :: l -> x ∉ n :: k) ->
  exists m', QUEUE_ADD h n m = Done tt m' /\ queue m' h (l ++ k) /\ changes (n :: k ++ h :: l) m m'.
Proof.
  intros Hq Hqn Hdis. rewrite <- (app_nil_r l) in Hq.
  destruct (queue_gap _ _ _ _ Hq) as (A & a & b & B & EA & EB & HA & HB & [Hab1 Hab2]).
  rewrite app_nil_r in Hq. assert (b = h /\ B = []) as [-> ->] by (by injection EB).
  assert (a ∈ h :: l) as Ha by (rewrite EA; set_solver).
  pose proof (queue_nodup _ _ _ Hq) as Hd.
  assert (NoDup (h :: l ++ [])) as Hd0 by (by rewrite app_nil_r).
  destruct (gap_fresh _ _ _ _ _ _ _ Hd0 EA EB) as [Fa Fb].
  assert (forall z, z ∈ A -> z ∈ h :: l) as HAl by (rewrite EA; set_solver).
  assert (is_Some (nxt m h) /\ is_Some (nxt m a) /\ is_Some (nxt m n)) as (Hhm & Ham & Hnm).
  { split; [|split]; [apply (queue_mapped _ _ _ _ Hq); set_solver..|].
    apply (queue_mapped _ _ _ _ Hqn). set_solver. }
  assert (n <> h /\ n <> a) as [N1 N2] by set_solver. unfold QUEUE_ADD.
  destruct k as [|x k].
  - destruct (queue_head_link _ _ _ Hqn) as [Enn Epn]. cbn in Enn, Epn.
    rewrite (bind_next _ n), (bind_put_prev_next a), (bind_prev _ a), (bind_put_next_prev n),
      (bind_prev _ a), bind_put_prev, (put_prev_next_run _ a) by (mapped || ptrs).
    eexists. split; [done|]. split; [|changed].
    apply (queue_join m _ h l [] [] A a h []); [done..| | |].
    + intros z Hz. pose proof (Fa z Hz). rewrite app_nil_r in Hz. specialize (HAl z Hz). ptrs.
    + intros z Hz. pose proof (Fb z Hz). assert (z <> n) by set_solver. ptrs.
    + split; [|done]. split; ptrs.
  - destruct (queue_inner _ _ _ _ Hqn) as (L & a' & EL & Hc & Hdk & HaL & Hxl & Ha' & E1 & E2 & E3 & E4).
    assert (is_Some (nxt m x) /\ is_Some (nxt m a')) as (Hxm & Ham').
    { split; apply (queue_mapped _ _ _ _ Hqn); set_solver. }
    assert (h <> x /\ h <> a' /\ a <> x /\ a <> a') as (N3 & N4 & N5 & N6) by set_solver.
    assert (n <> x /\ n <> a') as (N7 & N8).
    { pose proof (queue_nodup _ _ _ Hqn) as [Hn _]%NoDup_cons. set_solver. }
    assert (forall z, z ∈ L -> z ∈ x :: k) as HLk by (rewrite EL; set_solver).
    rewrite (bind_next _ x), (bind_put_prev_next a), (bind_prev _ a), (bind_put_next_prev x),
      (bind_prev _ a'), bind_put_prev, (put_prev_next_run _ a') by (mapped || ptrs).
    eexists. split; [done|]. split; [|changed].
    rewrite <- (app_nil_r (x :: k)). apply (queue_join m _ h l (x :: k) [] A a h []); [done..| | | |].
    + rewrite app_nil_r, app_comm_cons. apply NoDup_app. split; [done|]. split; [set_solver|done].
    + intros z Hz. pose proof (Fa z Hz). rewrite app_nil_r in Hz. specialize (HAl z Hz).
      assert (z <> a') by set_solver. ptrs.
    + intros z Hz. pose proof (Fb z Hz). assert (z <> x) by set_solver. ptrs.
    + change (chain ?m' (a :: (x :: k) ++ [h])) with (link m' a x /\ chain m' ((x :: k) ++ [h])).
      split; [split; ptrs|]. rewrite EL, <- app_assoc. apply chain_snoc; [|split; ptrs].
      rewrite <- EL. eapply chain_frame; [done|done| |].
      * intros z Hz. specialize (HLk z Hz). assert (z <> a /\ z <> a') as [? ?] by set_solver. ptrs.
      * intros z Hz. assert (z <> h /\ z <> x) as [? ?] by set_solver. ptrs.
Qed.


(** ** A family of disjoint queues *)
Implicit Types Q : gmap K (list K).

Record queues_wf Q m : Prop := {
  qs_queue : forall h l, Q !! h = Some l -> queue m h l;
  qs_disjoint : forall h l h' l' x,
    Q !! h = Some l -> Q !! h' = Some l' -> x ∈ h :: l -> x ∈ h' :: l' -> h = h'
}.

Definition unowned Q x : Prop := forall h l, Q !! h = Some l -> x ∉ h :: l.

Lemma queue_next_first m h x l : queue m h (x :: l) -> nxt m x = Some (default h (head l)).
Proof. intros [_ [_ Hc]]. by destruct l; destruct Hc as [[-> _] _]. Qed.

Lemma qs_empty Q m h l :
  queues_wf Q m -> Q !! h = Some l -> QUEUE_EMPTY h m = Done (bool_decide (l = [])) m.
Proof. intros Hw E. by apply QUEUE_EMPTY_spec, (qs_queue _ _ Hw). Qed.

Lemma qs_head Q m h x l : queues_wf Q m -> Q !! h = Some (x :: l) -> QUEUE_HEAD h m = Done x m.
Proof. intros Hw E. by eapply QUEUE_HEAD_spec, (qs_queue _ _ Hw). Qed.

Lemma qs_next Q m h x l :
  queues_wf Q m -> Q !! h = Some (x :: l) -> QUEUE_NEXT x m = Done (default h (head l)) m.
Proof.
  intros Hw E. pose proof (queue_next_first _ _ _ _ (qs_queue _ _ Hw _ _ E)) as En.
  unfold QUEUE_NEXT, nxt in *. by rewrite En.
Qed.

(** A queue [h] that is new or changed to [l], by writes that the other queues
    do not see. *)
Lemma queues_wf_insert Q m m' h l ch :
  queues_wf Q m -> queue m' h l -> changes ch m m' ->
  (forall h' l' x, h' <> h -> Q !! h' = Some l' -> x ∈ h' :: l' -> (x ∉ ch) /\ x ∉ h :: l) ->
  queues_wf (<[h := l]> Q) m'.
Proof.
  intros Hw Hq Hch Hdis. constructor.
  - intros h' l'. destruct (decide (h' = h)) as [->|Hne].
    + rewrite lookup_insert_eq. by intros [= <-].
    + rewrite lookup_insert_ne by done. intros E. apply (queue_frame m); [by apply (qs_queue _ _ Hw)|].
      intros x Hx. apply (ch_out _ _ _ Hch). by apply (Hdis h' l').
  - intros h1 l1 h2 l2 x. destruct (decide (h1 = h)) as [->|H1], (decide (h2 = h)) as [->|H2]; [done| | |].
    + rewrite lookup_insert_eq, lookup_insert_ne by done. intros [= <-] E2 Hx1 Hx2.
      by destruct (Hdis h2 l2 x H2 E2 Hx2).
    + rewrite lookup_insert_eq, lookup_insert_ne by done. intros E1 [= <-] Hx1 Hx2.
      by destruct (Hdis h1 l1 x H1 E1 Hx1).
    + rewrite !lookup_insert_ne by done. apply (qs_disjoint _ _ Hw).
Qed.

Lemma queues_wf_delete Q m h : queues_wf Q m -> queues_wf (delete h Q) m.
Proof.
  intros [Hq Hd]. constructor.
  - intros h' l' [_ E]%lookup_delete_Some. by apply Hq.
  - intros h1 l1 h2 l2 x [_ E1]%lookup_delete_Some [_ E2]%lookup_delete_Some. by apply (Hd _ _ _ _ x E1 E2).
Qed.

Lemma unowned_delete Q m h : queues_wf Q m -> Q !! h = Some [] -> unowned (delete h Q) h.
Proof.
  intros Hw E h' l' [Hne E']%lookup_delete_Some Hin.
  apply Hne. apply (qs_disjoint _ _ Hw h [] h' l' h E E'); [by left|done].
Qed.

Lemma qs_init Q m q :
  queues_wf Q m -> unowned Q q -> is_Some (nxt m q) ->
  exists m', QUEUE_INIT q m = Done tt m' /\ queues_wf (<[q := []]> Q) m' /\
  forall x, is_Some (nxt m x) -> is_Some (nxt m' x).
Proof.
  intros Hw Hu Hm. destruct (QUEUE_INIT_spec q m Hm) as (m' & E & Hq & Hch). exists m'.
  split; [done|]. split; [|apply (ch_mapped _ _ _ Hch)]. apply (queues_wf_insert Q m m' q [] [q]); [done..|].
  intros h' l' x Hne E' Hx. assert (x <> q) by (intros ->; by apply (Hu h' l')). set_solver.
Qed.

Lemma qs_remove Q m h l1 x l2 :
  queues_wf Q m -> Q !! h = Some (l1 ++ x :: l2) ->
  exists m', QUEUE_REMOVE x m = Done tt m' /\ queues_wf (<[h := l1 ++ l2]> Q) m' /\
  unowned (<[h := l1 ++ l2]> Q) x /\ forall y, is_Some (nxt m y) -> is_Some (nxt m' y).
Proof.
  intros Hw E. pose proof (qs_queue _ _ Hw _ _ E) as Hq.
  destruct (QUEUE_REMOVE_spec _ _ _ _ _ Hq) as (m' & Er & Hq' & Hch). exists m'. split; [done|].
  assert (forall h' l' y, h' <> h -> Q !! h' = Some l' -> y ∈ h' :: l' -> y ∉ h :: l1 ++ x :: l2) as Hdis.
  { intros h' l' y Hne E' Hy Hy'. apply Hne. by apply (qs_disjoint _ _ Hw h' l' h (l1 ++ x :: l2) y). }
  split; [|split; [|apply (ch_mapped _ _ _ Hch)]].
  - apply (queues_wf_insert Q m m' h (l1 ++ l2) (h :: l1 ++ l2)); [done..|].
    intros h' l' y Hne E' Hy. specialize (Hdis h' l' y Hne E' Hy). set_solver.
  - intros h' l'. destruct (decide (h' = h)) as [->|Hne].
    + rewrite lookup_insert_eq. intros [= <-]. pose proof (queue_nodup _ _ _ Hq) as Hd.
      rewrite <- Permutation_middle, Permutation_swap in Hd. by apply NoDup_cons in Hd as [Hd _].
    + rewrite lookup_insert_ne by done. intros E' Hx. apply (Hdis h' l' x Hne E' Hx). set_solver.
Qed.

Lemma qs_insert_tail Q m h l x :
  queues_wf Q m -> Q !! h = Some l -> unowned Q x -> is_Some (nxt m x) ->
  exists m', QUEUE_INSERT_TAIL h x m = Done tt m' /\ queues_wf (<[h := l ++ [x]]> Q) m' /\
  forall y, is_Some (nxt m y) -> is_Some (nxt m' y).
Proof.
  intros Hw E Hu Hm. pose proof (qs_queue _ _ Hw _ _ E) as Hq.
  destruct (QUEUE_INSERT_TAIL_spec h l x m Hq (Hu h l E) Hm) as (m' & Er & Hq' & Hch). exists m'.
  split; [done|]. split; [|apply (ch_mapped _ _ _ Hch)].
  apply (queues_wf_insert Q m m' h (l ++ [x]) (x :: h :: l)); [done..|].
  intros h' l' y Hne E' Hy. assert (y ∉ h :: l) as Hyl.
  { intros Hy'. apply Hne. by apply (qs_disjoint _ _ Hw h' l' h l y). }
  assert (y <> x) by (intros ->; by apply (Hu h' l')).
  rewrite !elem_of_cons, elem_of_app, list_elem_of_singleton. rewrite elem_of_cons in Hyl. tauto.
Qed.

Lemma qs_move Q m h l n :
  queues_wf Q m -> Q !! h = Some l -> Q !! n = Some [] -> n <> h ->
  exists m', QUEUE_MOVE h n m = Done tt m' /\ queues_wf (<[n := l]> (<[h := []]> Q)) m' /\
  forall y, is_Some (nxt m y) -> is_Some (nxt m' y).
Proof.
  intros Hw E En Hne. pose proof (qs_queue _ _ Hw _ _ E) as Hq. pose proof (qs_queue _ _ Hw _ _ En) as Hqn.
  assert (n ∉ h :: l) as Hn.
  { intros Hin. apply Hne. apply (qs_disjoint _ _ Hw n [] h l n); [done|done|by left|done]. }
  destruct (QUEUE_MOVE_spec h l n m Hq Hn) as (m' & Er & Hq1 & Hq2 & Hch).
  { apply (queue_mapped _ _ _ _ Hqn). by left. }
  exists m'. split; [done|]. split; [|apply (ch_mapped _ _ _ Hch)].
  assert (forall h' l' y, h' <> h -> h' <> n -> Q !! h' = Some l' -> y ∈ h' :: l' -> y ∉ n :: h :: l) as Hdis.
  { intros h' l' y H1 H2 E' Hy [->|Hy']%elem_of_cons.
    - apply H2. apply (qs_disjoint _ _ Hw h' l' n [] n); [done..|by left].
    - apply H1. by apply (qs_disjoint _ _ Hw h' l' h l y). }
  replace (<[n := l]> (<[h := []]> Q)) with (<[n := l]> (<[h := []]> (delete n (delete h Q)))).
  2:{ apply map_eq. intros y. destruct (decide (y = n)) as [->|?]; [by rewrite !lookup_insert_eq|].
      rewrite !(lookup_insert_ne _ n) by done.
      destruct (decide (y = h)) as [->|?]; [by rewrite !lookup_insert_eq|].
      by rewrite !lookup_insert_ne, !lookup_delete_ne by done. }
  apply (queues_wf_insert _ m' m' n l []); [|done|apply changes_refl|].
  - apply (queues_wf_insert _ m m' h [] (n :: h :: l)); [by do 2 apply queues_wf_delete|done|done|].
    intros h' l' y H1 [H2 [_ E']%lookup_delete_Some]%lookup_delete_Some Hy.
    assert (y ∉ n :: h :: l) as Hy' by (apply (Hdis h' l'); done). set_solver.
  - intros h' l' y H1 E' Hy. split; [set_solver|]. intros Hy'. apply lookup_insert_Some in E' as [[<- <-]|[H2 E']].
    + apply list_elem_of_singleton in Hy. subst y. apply elem_of_cons in Hy' as [|Hy']; [done|].
      pose proof (queue_nodup _ _ _ Hq) as [? _]%NoDup_cons. done.
    + apply lookup_delete_Some in E' as [_ [_ E']%lookup_delete_Some].
      apply (Hdis h' l' y); [done..|]. set_solver.
Qed.
End Queue.
