(* ===== verification/UvLoop.v ===== *)
(** libuv, the event loop: the loop and its handles, the macros of
    [uv-common.h], the closing of handles and the turns of the loop of
    [unix/core.c].  Handles are named by their address; the address of a handle
    and those of the nodes embedded in it stand for each other
    ([container_of], [QUEUE_DATA]). *)
From S2P Require Import Prelude.
From S2P Require Import UvHeap.
From S2P Require Import UvQueue.

(** The three kinds of watchers that [UV_LOOP_WATCHER_DEFINE] makes. *)
Inductive watcher : Set := prepare | check | idle.

#[export] Instance watcher_eq_dec : EqDecision watcher.
Proof. solve_decision. Defined.

#[export] Instance watcher_countable : Countable watcher.
Proof.
  refine (inj_countable'
    (fun w => match w with prepare => 0 | check => 1 | idle => 2 end)
    (fun n => match n with 0 => prepare | 1 => check | _ => idle end) _).
  by intros [].
Defined.

(** The addresses of the [QUEUE] nodes: the heads in the loop and on the stack
    ([QUEUE queue]), and the nodes in the handles. *)
Inductive qptr : Set :=
| handle_queue                     (* loop->handle_queue *)
| walk_queue                       (* the local of uv_walk *)
| watcher_handles (w : watcher)    (* loop->prepare_handles, ... *)
| run_queue (w : watcher)          (* the local of uv__run_prepare, ... *)
| handle_node (p : Z)              (* handle->handle_queue *)
| watcher_node (p : Z).            (* handle->queue *)

#[export] Instance qptr_eq_dec : EqDecision qptr.
Proof. solve_decision. Defined.

#[export] Instance qptr_countable : Countable qptr.
Proof.
  refine (inj_countable'
    (fun q => match q with
      | handle_queue => inl (inl ()) | walk_queue => inl (inr ())
      | watcher_handles w => inr (inl (inl w)) | run_queue w => inr (inl (inr w))
      | handle_node p => inr (inr (inl p)) | watcher_node p => inr (inr (inr p))
      end)
    (fun s => match s with
      | inl (inl _) => handle_queue | inl (inr _) => walk_queue
      | inr (inl (inl w)) => watcher_handles w | inr (inl (inr w)) => run_queue w
      | inr (inr (inl p)) => handle_node p | inr (inr (inr p)) => watcher_node p
      end) _).
  by intros [].
Defined.

(** [uv_handle_type], the types of the handles modelled. *)
Inductive uv_handle_type : Set :=
| UV_TIMER
| UV_WATCHER (w : watcher).   (* UV_PREPARE, UV_CHECK, UV_IDLE *)

#[export] Instance uv_handle_type_eq_dec : EqDecision uv_handle_type.
Proof. solve_decision. Defined.

(** [uv_handle_t] with the fields of [uv_timer_t] ([timer_cb], [timeout],
    [repeat], [start_id]) and of the watchers ([prepare_cb], ...: [cb]).  A
    function pointer is a [Z], [NULL] is 0. *)
Record uv_handle : Type := mk_handle {
  type : uv_handle_type;
  flags : Z;
  next_closing : Z;
  close_cb : Z;
  cb : Z;
  timeout : Z;
  repeat : Z;
  start_id : Z
}.

Record uv_loop : Type := mk_loop {
  time : Z;
  timer_counter : Z;
  active_handles : Z;
  active_reqs : Z;
  stop_flag : Z;
  closing_handles : Z;
  timer_heap : heap;
  queues : gmap qptr (qnode qptr);
  handles : gmap Z uv_handle
}.

Definition L : Type -> Type := M uv_loop.

Definition set_flags (v : Z) (h : uv_handle) : uv_handle :=
  mk_handle (type h) v (next_closing h) (close_cb h) (cb h) (timeout h) (repeat h) (start_id h).
Definition set_next_closing (v : Z) (h : uv_handle) : uv_handle :=
  mk_handle (type h) (flags h) v (close_cb h) (cb h) (timeout h) (repeat h) (start_id h).
Definition set_close_cb (v : Z) (h : uv_handle) : uv_handle :=
  mk_handle (type h) (flags h) (next_closing h) v (cb h) (timeout h) (repeat h) (start_id h).
Definition set_cb (v : Z) (h : uv_handle) : uv_handle :=
  mk_handle (type h) (flags h) (next_closing h) (close_cb h) v (timeout h) (repeat h) (start_id h).
Definition set_timeout (v : Z) (h : uv_handle) : uv_handle :=
  mk_handle (type h) (flags h) (next_closing h) (close_cb h) (cb h) v (repeat h) (start_id h).
Definition set_repeat (v : Z) (h : uv_handle) : uv_handle :=
  mk_handle (type h) (flags h) (next_closing h) (close_cb h) (cb h) (timeout h) v (start_id h).
Definition set_start_id (v : Z) (h : uv_handle) : uv_handle :=
  mk_handle (type h) (flags h) (next_closing h) (close_cb h) (cb h) (timeout h) (repeat h) v.
Definition set_type (v : uv_handle_type) (h : uv_handle) : uv_handle :=
  mk_handle v (flags h) (next_closing h) (close_cb h) (cb h) (timeout h) (repeat h) (start_id h).

Definition with_time (v : Z) (l : uv_loop) : uv_loop :=
  mk_loop v (timer_counter l) (active_handles l) (active_reqs l) (stop_flag l) (closing_handles l)
    (timer_heap l) (queues l) (handles l).
Definition with_counter (v : Z) (l : uv_loop) : uv_loop :=
  mk_loop (time l) v (active_handles l) (active_reqs l) (stop_flag l) (closing_handles l)
    (timer_heap l) (queues l) (handles l).
Definition with_active (v : Z) (l : uv_loop) : uv_loop :=
  mk_loop (time l) (timer_counter l) v (active_reqs l) (stop_flag l) (closing_handles l)
    (timer_heap l) (queues l) (handles l).
Definition with_stop (v : Z) (l : uv_loop) : uv_loop :=
  mk_loop (time l) (timer_counter l) (active_handles l) (active_reqs l) v (closing_handles l)
    (timer_heap l) (queues l) (handles l).
Definition with_closing (v : Z) (l : uv_loop) : uv_loop :=
  mk_loop (time l) (timer_counter l) (active_handles l) (active_reqs l) (stop_flag l) v
    (timer_heap l) (queues l) (handles l).
Definition with_heap (v : heap) (l : uv_loop) : uv_loop :=
  mk_loop (time l) (timer_counter l) (active_handles l) (active_reqs l) (stop_flag l)
    (closing_handles l) v (queues l) (handles l).
Definition with_queues (v : gmap qptr (qnode qptr)) (l : uv_loop) : uv_loop :=
  mk_loop (time l) (timer_counter l) (active_handles l) (active_reqs l) (stop_flag l)
    (closing_handles l) (timer_heap l) v (handles l).
Definition with_handles (v : gmap Z uv_handle) (l : uv_loop) : uv_loop :=
  mk_loop (time l) (timer_counter l) (active_handles l) (active_reqs l) (stop_flag l)
    (closing_handles l) (timer_heap l) (queues l) v.

(** [*handle], and assignments through it. *)
Definition get_handle (p : Z) : L uv_handle := fun l => of_option UbMem (handles l !! p) l.
Definition upd_handle (p : Z) (f : uv_handle -> uv_handle) : L unit :=
  let* _ := get_handle p in modify (fun l => with_handles (alter f p (handles l)) l).

(** A call of [heap-inl.h] on [loop->timer_heap]; a macro of [queue.h]. *)
Definition in_part {S T A} (get : S -> T) (put : T -> S -> S) (m : M T A) : M S A := fun s =>
  match m (get s) with
  | Done a t => Done a (put t s)
  | Fail t => Fail (put t s)
  | Undef u => Undef u
  | OutOfFuel => OutOfFuel
  end.
Definition on_heap {A} (m : Hp A) : L A := in_part timer_heap with_heap m.
Definition on_queues {A} (m : Qm A) : L A := in_part queues with_queues m.

(** [abort()]: the program ends, in the state that [Fail] keeps. *)
Definition aborted {S A} : M S A := failed.

(** ** The macros of [uv-common.h] *)
Definition UV_HANDLE_CLOSING : Z := 0x1.
Definition UV_HANDLE_CLOSED : Z := 0x2.
Definition UV_HANDLE_ACTIVE : Z := 0x4.
Definition UV_HANDLE_REF : Z := 0x8.
Definition UV_HANDLE_INTERNAL : Z := 0x10.

Definition UV_EINVAL : Z := -22.
Definition UV_EBUSY : Z := -16.

Definition has_flag (h : uv_handle) (f : Z) : bool := negb (Z.land (flags h) f =? 0).

Definition uv__is_active (h : uv_handle) : bool := has_flag h UV_HANDLE_ACTIVE.
Definition uv__is_closing (h : uv_handle) : bool :=
  has_flag h (Z.lor UV_HANDLE_CLOSING UV_HANDLE_CLOSED).
Definition uv__has_ref (h : uv_handle) : bool := has_flag h UV_HANDLE_REF.

Definition uv__has_active_handles (l : uv_loop) : bool := 0 <? active_handles l.
Definition uv__has_active_reqs (l : uv_loop) : bool := 0 <? active_reqs l.

Definition uv__active_handle_add : L unit :=
  modify (fun l => with_active (u32 (active_handles l + 1)) l).
Definition uv__active_handle_rm : L unit :=
  modify (fun l => with_active (u32 (active_handles l - 1)) l).

(** [flags |= f] and [flags &= ~f] on an [unsigned int]. *)
Definition or_flag (f : Z) (h : uv_handle) : uv_handle := set_flags (Z.lor (flags h) f) h.
Definition clear_flag (f : Z) (h : uv_handle) : uv_handle :=
  set_flags (Z.land (flags h) (u32 (Z.lnot f))) h.

Definition uv__handle_start (p : Z) : L unit :=
  let* h := get_handle p in
  if has_flag h UV_HANDLE_ACTIVE then ret tt
  else
    upd_handle p (or_flag UV_HANDLE_ACTIVE);;;
    if has_flag h UV_HANDLE_REF then uv__active_handle_add else ret tt.

Definition uv__handle_stop (p : Z) : L unit :=
  let* h := get_handle p in
  if negb (has_flag h UV_HANDLE_ACTIVE) then ret tt
  else
    upd_handle p (clear_flag UV_HANDLE_ACTIVE);;;
    if has_flag h UV_HANDLE_REF then uv__active_handle_rm else ret tt.

Definition uv__handle_ref (p : Z) : L unit :=
  let* h := get_handle p in
  if has_flag h UV_HANDLE_REF then ret tt
  else
    upd_handle p (or_flag UV_HANDLE_REF);;;
    if has_flag h UV_HANDLE_CLOSING then ret tt
    else if has_flag h UV_HANDLE_ACTIVE then uv__active_handle_add else ret tt.

Definition uv__handle_unref (p : Z) : L unit :=
  let* h := get_handle p in
  if negb (has_flag h UV_HANDLE_REF) then ret tt
  else
    upd_handle p (clear_flag UV_HANDLE_REF);;;
    if has_flag h UV_HANDLE_CLOSING then ret tt
    else if has_flag h UV_HANDLE_ACTIVE then uv__active_handle_rm else ret tt.

Definition uv__handle_init (p : Z) (ty : uv_handle_type) : L unit :=
  upd_handle p (set_type ty);;;
  upd_handle p (set_flags UV_HANDLE_REF);;;
  on_queues (QUEUE_INSERT_TAIL handle_queue (handle_node p));;;
  upd_handle p (set_next_closing 0).
