(* ===== verification/UvTimer.v ===== *)
(** libuv, [timer.c]: the timers of the loop, on the heap of [UvHeap.v].  The
    heap nodes of the timers are named by the timers ([container_of]). *)
From S2P Require Import Prelude.
From S2P Require Import UvHeap.
From S2P Require Import UvLoop.

Definition INT_MAX : Z := 2147483647.

(** [timer_less_than], in the memory [hs]; the nodes of the heap are timers. *)
Definition timeout_of (hs : gmap Z uv_handle) (p : Z) : Z :=
  match hs !! p with Some h => timeout h | None => 0 end.
Definition start_id_of (hs : gmap Z uv_handle) (p : Z) : Z :=
  match hs !! p with Some h => start_id h | None => 0 end.

Definition timer_less_than (hs : gmap Z uv_handle) (a b : Z) : bool :=
  if timeout_of hs a <? timeout_of hs b then true
  else if timeout_of hs b <? timeout_of hs a then false
  else start_id_of hs a <? start_id_of hs b.

Definition uv_timer_init (handle : Z) : L Z :=
  uv__handle_init handle UV_TIMER;;;
  upd_handle handle (set_cb 0);;;
  upd_handle handle (set_repeat 0);;;
  ret 0.

Definition uv_timer_stop (handle : Z) : L Z :=
  let* h := get_handle handle in
  if negb (uv__is_active h) then ret 0
  else
    let* hs := gets handles in
    on_heap (heap_remove (timer_less_than hs) handle);;;
    uv__handle_stop handle;;;
    ret 0.

Definition uv_timer_start (handle cb_ timeout_ repeat_ : Z) : L Z :=
  let* h := get_handle handle in
  if uv__is_closing h || (cb_ =? 0) then ret UV_EINVAL
  else
    (if uv__is_active h then uv_timer_stop handle;;; ret tt else ret tt);;;
    let* now := gets time in
    let clamped_timeout := u64 (now + timeout_) in
    let clamped_timeout := if clamped_timeout <? timeout_ then u64 (-1) else clamped_timeout in
    upd_handle handle (set_cb cb_);;;
    upd_handle handle (set_timeout clamped_timeout);;;
    upd_handle handle (set_repeat repeat_);;;
    let* id := gets timer_counter in
    modify (with_counter (u64 (id + 1)));;;
    upd_handle handle (set_start_id id);;;
    let* hs := gets handles in
    on_heap (heap_insert (timer_less_than hs) handle);;;
    uv__handle_start handle;;;
    ret 0.

Definition uv_timer_again (handle : Z) : L Z :=
  let* h := get_handle handle in
  if cb h =? 0 then ret UV_EINVAL
  else
    (if negb (repeat h =? 0)
     then
       uv_timer_stop handle;;;
       let* h := get_handle handle in
       uv_timer_start handle (cb h) (repeat h) (repeat h);;;
       ret tt
     else ret tt);;;
    ret 0.

Definition uv_timer_set_repeat (handle repeat_ : Z) : L unit := upd_handle handle (set_repeat repeat_).

Definition uv_timer_get_repeat (handle : Z) : L Z :=
  let* h := get_handle handle in ret (repeat h).

Definition uv__timer_close (handle : Z) : L unit := uv_timer_stop handle;;; ret tt.

(** The milliseconds that the poll may block, [-1] for no bound. *)
Definition uv__next_timeout : L Z :=
  let* heap_node := on_heap heap_min in
  if heap_node =? 0 then ret (-1)
  else
    let* handle := get_handle heap_node in
    let* now := gets time in
    if timeout handle <=? now then ret 0
    else
      let diff := u64 (timeout handle - now) in
      let diff := if INT_MAX <? diff then INT_MAX else diff in
      ret (s32 diff).

(** ** The callbacks.  They run on the loop and on the state of the application;
    [call f p] is the call of the function at address [f] on the handle [p]. *)
Section Callbacks.
Context {App : Type}.

Definition R : Type -> Type := M (uv_loop * App).

Definition on_loop {A} (m : L A) : R A := in_part fst (fun l s => (l, snd s)) m.

Variable call : Z -> Z -> R unit.

(** A call through a function pointer. *)
Definition call_ptr (f p : Z) : R unit := if f =? 0 then undef UbCall else call f p.

(** [for (;;)]: fuel for each turn, that fires one timer. *)
Fixpoint run_timers_loop (fuel : nat) : R unit :=
  match fuel with
  | O => out_of_fuel
  | S fuel =>
      let* heap_node := on_loop (on_heap heap_min) in
      if heap_node =? 0 then ret tt
      else
        let* handle := on_loop (get_handle heap_node) in
        let* now := on_loop (gets time) in
        if now <? timeout handle then ret tt
        else
          on_loop (uv_timer_stop heap_node);;;
          on_loop (uv_timer_again heap_node);;;
          let* handle := on_loop (get_handle heap_node) in
          call_ptr (cb handle) heap_node;;;
          run_timers_loop fuel
  end.

Definition uv__run_timers (fuel : nat) : R unit := run_timers_loop fuel.
End Callbacks.
