(* ===== verification/UvRun.v ===== *)
(** libuv, the rest of the loop: the watchers of [unix/loop-watcher.c], the
    closing of handles and the turns of [uv_run] of [unix/core.c], and the
    walks over the handles of [uv-common.c]. *)
From S2P Require Import Prelude.
From S2P Require Import UvHeap.
From S2P Require Import UvQueue.
From S2P Require Import UvLoop.
From S2P Require Import UvTimer.

(** ** [UV_LOOP_WATCHER_DEFINE(name, type)], for each of the three names *)
Definition uv_watcher_init (w : watcher) (handle : Z) : L Z :=
  uv__handle_init handle (UV_WATCHER w);;;
  upd_handle handle (set_cb 0);;;
  ret 0.

Definition uv_watcher_start (w : watcher) (handle cb_ : Z) : L Z :=
  let* h := get_handle handle in
  if uv__is_active h then ret 0
  else if cb_ =? 0 then ret UV_EINVAL
  else
    on_queues (QUEUE_INSERT_HEAD (watcher_handles w) (watcher_node handle));;;
    upd_handle handle (set_cb cb_);;;
    uv__handle_start handle;;;
    ret 0.

Definition uv_watcher_stop (w : watcher) (handle : Z) : L Z :=
  let* h := get_handle handle in
  if negb (uv__is_active h) then ret 0
  else
    on_queues (QUEUE_REMOVE (watcher_node handle));;;
    uv__handle_stop handle;;;
    ret 0.

Definition uv__watcher_close (w : watcher) (handle : Z) : L unit := uv_watcher_stop w handle;;; ret tt.

(** ** [uv_close] and what a turn of the loop does of it *)
Definition uv__make_close_pending (handle : Z) : L unit :=
  let* h := get_handle handle in
  assert (has_flag h UV_HANDLE_CLOSING);;;
  assert (negb (has_flag h UV_HANDLE_CLOSED));;;
  let* c := gets closing_handles in
  upd_handle handle (set_next_closing c);;;
  modify (with_closing handle).

Definition uv_close (handle close_cb_ : Z) : L unit :=
  let* h := get_handle handle in
  assert (negb (uv__is_closing h));;;
  upd_handle handle (or_flag UV_HANDLE_CLOSING);;;
  upd_handle handle (set_close_cb close_cb_);;;
  let* h := get_handle handle in
  (match type h with
   | UV_TIMER => uv__timer_close handle
   | UV_WATCHER w => uv__watcher_close w handle
   end);;;
  uv__make_close_pending handle.

(** [uv_ref], [uv_unref], [uv_has_ref], [uv_is_active], [uv_is_closing],
    [uv_stop], [uv_loop_alive]. *)
Definition uv_ref (handle : Z) : L unit := uv__handle_ref handle.
Definition uv_unref (handle : Z) : L unit := uv__handle_unref handle.
Definition uv_has_ref (handle : Z) : L bool := let* h := get_handle handle in ret (uv__has_ref h).
Definition uv_is_active (handle : Z) : L bool := let* h := get_handle handle in ret (uv__is_active h).
Definition uv_is_closing (handle : Z) : L bool := let* h := get_handle handle in ret (uv__is_closing h).
Definition uv_stop : L unit := modify (with_stop 1).

(** [uv__update_time]: [hrtime] is what [uv__hrtime(UV_CLOCK_FAST)] reads, the
    clock of the system in nanoseconds. *)
Definition uv__update_time (hrtime : Z) : L unit := modify (with_time (hrtime / 1000000)).

Definition uv__loop_alive : L bool :=
  gets (fun l => uv__has_active_handles l || uv__has_active_reqs l || negb (closing_handles l =? 0)).

(** [QUEUE_DATA]: the handle of a node. *)
Definition watcher_of (q : qptr) : L Z :=
  match q with watcher_node p => ret p | _ => undef UbMem end.
Definition handle_of (q : qptr) : L Z :=
  match q with handle_node p => ret p | _ => undef UbMem end.

(** The local [QUEUE queue] of a function; its contents are written before they
    are read. *)
Definition local_queue (q : qptr) : L unit :=
  modify (fun l => with_queues (<[q := mk_qnode q q]> (queues l)) l).

(** ** The functions that call back *)
Section Callbacks.
Context {App : Type}.
Variable call : Z -> Z -> @R App unit.

(** The [while] of [uv__run_prepare], [uv__run_check] and [uv__run_idle]. *)
Fixpoint run_watchers_loop (w : watcher) (fuel : nat) : @R App unit :=
  match fuel with
  | O => out_of_fuel
  | S fuel =>
      let* e := on_loop (on_queues (QUEUE_EMPTY (run_queue w))) in
      if e : bool then ret tt
      else
        let* q := on_loop (on_queues (QUEUE_HEAD (run_queue w))) in
        let* h := on_loop (watcher_of q) in
        on_loop (on_queues (QUEUE_REMOVE q));;;
        on_loop (on_queues (QUEUE_INSERT_TAIL (watcher_handles w) q));;;
        let* x := on_loop (get_handle h) in
        call_ptr call (cb x) h;;;
        run_watchers_loop w fuel
  end.

Definition uv__run_watchers (w : watcher) (fuel : nat) : @R App unit :=
  on_loop (local_queue (run_queue w));;;
  on_loop (on_queues (QUEUE_MOVE (watcher_handles w) (run_queue w)));;;
  run_watchers_loop w fuel.

Definition uv__finish_close (handle : Z) : @R App unit :=
  let* h := on_loop (get_handle handle) in
  on_loop (assert (has_flag h UV_HANDLE_CLOSING));;;
  on_loop (assert (negb (has_flag h UV_HANDLE_CLOSED)));;;
  on_loop (upd_handle handle (or_flag UV_HANDLE_CLOSED));;;
  on_loop (uv__handle_unref handle);;;
  on_loop (on_queues (QUEUE_REMOVE (handle_node handle)));;;
  let* h := on_loop (get_handle handle) in
  if close_cb h =? 0 then ret tt else call (close_cb h) handle.

(** [while (p)] of [uv__run_closing_handles]. *)
Fixpoint run_closing_loop (fuel : nat) (p : Z) : @R App unit :=
  match fuel with
  | O => out_of_fuel
  | S fuel =>
      if p =? 0 then ret tt
      else
        let* h := on_loop (get_handle p) in
        let q := next_closing h in
        uv__finish_close p;;;
        run_closing_loop fuel q
  end.

Definition uv__run_closing_handles (fuel : nat) : @R App unit :=
  let* p := on_loop (gets closing_handles) in
  on_loop (modify (with_closing 0));;;
  run_closing_loop fuel p.

(** The [while] of [uv_walk]; [walk_cb] is called with the argument inside. *)
Fixpoint walk_loop (walk_cb : Z -> @R App unit) (fuel : nat) : @R App unit :=
  match fuel with
  | O => out_of_fuel
  | S fuel =>
      let* e := on_loop (on_queues (QUEUE_EMPTY walk_queue)) in
      if e : bool then ret tt
      else
        let* q := on_loop (on_queues (QUEUE_HEAD walk_queue)) in
        let* h := on_loop (handle_of q) in
        on_loop (on_queues (QUEUE_REMOVE q));;;
        on_loop (on_queues (QUEUE_INSERT_TAIL handle_queue q));;;
        let* x := on_loop (get_handle h) in
        (if has_flag x UV_HANDLE_INTERNAL then ret tt else walk_cb h);;;
        walk_loop walk_cb fuel
  end.

Definition uv_walk (walk_cb : Z -> @R App unit) (fuel : nat) : @R App unit :=
  on_loop (local_queue walk_queue);;;
  on_loop (on_queues (QUEUE_MOVE handle_queue walk_queue));;;
  walk_loop walk_cb fuel.
End Callbacks.
