(* ===== verification/UvLoopInv.v ===== *)
(** libuv, the invariant of the event loop: the lists that the heap, the queues
    and the closing chain hold, and what the flags of the handles say of them. *)
From S2P Require Import Prelude.
From S2P Require Import UvHeap.
From S2P Require Import UvHeapOrder.
From S2P Require Import UvHeapProofs.
From S2P Require Import UvQueue.
From S2P Require Import UvQueueProofs.
From S2P Require Import UvLoop.
From S2P Require Import UvTimer.
From S2P Require Import UvRun.
#[local] Set Warnings "-clear-no-such-hyp".

(** ** Flags *)
Definition active (h : uv_handle) : bool := Z.testbit (flags h) 2.
Definition refd (h : uv_handle) : bool := Z.testbit (flags h) 3.
Definition closing (h : uv_handle) : bool := Z.testbit (flags h) 0.
Definition closed (h : uv_handle) : bool := Z.testbit (flags h) 1.

Lemma has_flag_bit h f k : 0 <= k -> f = 2 ^ k -> has_flag h f = Z.testbit (flags h) k.
Proof.
  intros Hk ->. unfold has_flag. destruct (Z.testbit (flags h) k) eqn:E.
  - apply negb_true_iff, Z.eqb_neq. intros H. apply (f_equal (fun z => Z.testbit z k)) in H.
    rewrite Z.land_spec, Z.pow2_bits_true, E, Z.bits_0 in H by lia. done.
  - apply negb_false_iff, Z.eqb_eq. apply Z.bits_inj'. intros i Hi.
    rewrite Z.land_spec, Z.pow2_bits_eqb, Z.bits_0 by lia.
    destruct (Z.eqb_spec k i) as [->|]; [by rewrite E|apply andb_false_r].
Qed.

Lemma flag_active h : has_flag h UV_HANDLE_ACTIVE = active h.
Proof. by apply has_flag_bit. Qed.
Lemma flag_ref h : has_flag h UV_HANDLE_REF = refd h.
Proof. by apply has_flag_bit. Qed.
Lemma flag_closing h : has_flag h UV_HANDLE_CLOSING = closing h.
Proof. by apply has_flag_bit. Qed.
Lemma flag_closed h : has_flag h UV_HANDLE_CLOSED = closed h.
Proof. by apply has_flag_bit. Qed.

Lemma is_closing_bits h : uv__is_closing h = closing h || closed h.
Proof.
  unfold uv__is_closing. rewrite <- flag_closing, <- flag_closed. unfold has_flag.
  rewrite Z.land_lor_distr_r. destruct (Z.eqb_spec (Z.land (flags h) UV_HANDLE_CLOSING) 0) as [->|Hn];
    [by rewrite Z.lor_0_l|].
  apply negb_true_iff, Z.eqb_neq. by intros [? _]%Z.lor_eq_0_iff.
Qed.

Lemma bit_or f k h i :
  0 <= k -> f = 2 ^ k -> Z.testbit (flags (or_flag f h)) i = Z.testbit (flags h) i || (i =? k).
Proof. intros ? ->. cbn. by rewrite Z.lor_spec, Z.pow2_bits_eqb, (Z.eqb_sym k). Qed.

Lemma bit_clear f k h i :
  0 <= k -> f = 2 ^ k -> i < 32 ->
  Z.testbit (flags (clear_flag f h)) i = Z.testbit (flags h) i && negb (i =? k).
Proof.
  intros ? -> Hi. cbn. rewrite Z.land_spec. destruct (Z.ltb_spec i 0); [by rewrite !Z.testbit_neg_r|].
  unfold u32. rewrite Z.mod_pow2_bits_low, Z.lnot_spec, Z.pow2_bits_eqb by lia. by rewrite (Z.eqb_sym k).
Qed.

(** ** The lists *)
Record shape : Type := mk_shape {
  g_mem : list Z;                   (* the memory that may hold handles *)
  g_timers : list Z;                (* the heap, in breadth-first positions *)
  g_main : list Z;                  (* loop->handle_queue *)
  g_walk : list Z;                  (* the queue of a walk *)
  g_watch : watcher -> list Z;      (* loop->prepare_handles, ... *)
  g_run : watcher -> list Z;        (* the queue of uv__run_prepare, ... *)
  g_new : list Z;                   (* marked by uv_close, not linked yet *)
  g_closing : list Z;               (* loop->closing_handles *)
  g_finishing : list Z              (* the rest of uv__run_closing_handles *)
}.

Definition all_handles (g : shape) : list Z := g_main g ++ g_walk g.
Definition linked_closing (g : shape) : list Z := g_closing g ++ g_finishing g.
Definition all_closing (g : shape) : list Z := g_new g ++ linked_closing g.

(** Where the active handles of a type are. *)
Definition members (g : shape) (ty : uv_handle_type) : list Z :=
  match ty with UV_TIMER => g_timers g | UV_WATCHER w => g_watch g w ++ g_run g w end.

(** The chain of the [next_closing] from [p]. *)
Fixpoint closing_chain (hs : gmap Z uv_handle) (p : Z) (l : list Z) : Prop :=
  match l with
  | [] => p = 0
  | q :: l => p = q /\ exists h, hs !! q = Some h /\ closing_chain hs (next_closing h) l
  end.

(** What the flags of the handle [p] say. *)
Record handle_ok (g : shape) (p : Z) (h : uv_handle) : Prop := {
  h_nonzero : p <> 0;
  h_members : forall ty, p ∈ members g ty <-> type h = ty /\ active h = true;
  h_active : active h = true -> cb h <> 0 /\ p ∉ linked_closing g;
  h_closed : closed h = false;
  h_closing : closing h = true <-> p ∈ all_closing g
}.

(** The heads of the queues and what they hold. *)
Definition is_head (q : qptr) : bool :=
  match q with handle_node _ | watcher_node _ => false | _ => true end.

Definition qlist (g : shape) (q : qptr) : list qptr :=
  match q with
  | handle_queue => handle_node <$> g_main g
  | walk_queue => handle_node <$> g_walk g
  | watcher_handles w => watcher_node <$> g_watch g w
  | run_queue w => watcher_node <$> g_run g w
  | _ => []
  end.

Definition queues_ok (g : shape) (m : gmap qptr (qnode qptr)) : Prop :=
  forall q, is_head q = true -> queue m q (qlist g q).

(** The structures represent the lists. *)
Record parts_ok (g : shape) (l : uv_loop) : Prop := {
  p_heap : heap_ok (timer_less_than (handles l)) (g_timers g) (timer_heap l);
  p_queues : queues_ok g (queues l);
  p_closing : closing_chain (handles l) (closing_handles l) (g_closing g);
  p_finishing : closing_chain (handles l) (hd 0 (g_finishing g)) (g_finishing g)
}.

(** The memory of a handle: the nodes embedded in it. *)
Definition node_mapped (l : uv_loop) (p : Z) : Prop :=
  is_Some (nodes (timer_heap l) !! p) /\ is_Some (queues l !! watcher_node p) /\
  is_Some (queues l !! handle_node p).

(** The handles that keep the loop alive. *)
Definition counted (hs : gmap Z uv_handle) (p : Z) : bool :=
  match hs !! p with Some h => active h && refd h | None => false end.

Record loop_ok (g : shape) (l : uv_loop) : Prop := {
  lo_parts : parts_ok g l;
  lo_nodup : NoDup (all_handles g);
  lo_members : forall ty, NoDup (members g ty) /\ forall p, p ∈ members g ty -> p ∈ all_handles g;
  lo_closing : NoDup (all_closing g) /\ forall p, p ∈ all_closing g -> p ∈ all_handles g;
  lo_handles : forall p, p ∈ all_handles g -> exists h, handles l !! p = Some h /\ handle_ok g p h;
  lo_mem : forall p, p ∈ all_handles g -> p ∈ g_mem g;
  lo_mapped : forall p, p ∈ g_mem g -> p <> 0 /\ node_mapped l p /\ is_Some (handles l !! p);
  lo_active : active_handles l = count (counted (handles l)) (all_handles g);
  lo_size : zlen (all_handles g) < 2 ^ 32
}.

(** ** Timers are ordered by timeout, then by start *)
#[export] Instance timer_order hs : HeapOrder (timer_less_than hs).
Proof.
  split; unfold timer_less_than; intros *;
    repeat match goal with |- context [?x <? ?y] => destruct (Z.ltb_spec x y) end; lia || done.
Qed.

Lemma timer_less_ext hs hs' a b :
  timeout_of hs' a = timeout_of hs a -> start_id_of hs' a = start_id_of hs a ->
  timeout_of hs' b = timeout_of hs b -> start_id_of hs' b = start_id_of hs b ->
  timer_less_than hs' a b = timer_less_than hs a b.
Proof. unfold timer_less_than. by intros -> -> -> ->. Qed.

Lemma heap_ok_ext less less' l h :
  (forall x y, x ∈ l -> y ∈ l -> less' x y = less x y) -> heap_ok less l h -> heap_ok less' l h.
Proof.
  intros E [Hl Hn Ho]. constructor; [done..|]. intros i Hi. pose proof (half_lt i ltac:(lia)).
  unfold ordered_at. rewrite E; [by apply Ho|apply pos_elem; unfold valid; lia..].
Qed.

(** A handle out of the heap, or with the same key, may change. *)
Lemma timers_insert hs p h h' tl hp :
  hs !! p = Some h -> p ∉ tl \/ (timeout h' = timeout h /\ start_id h' = start_id h) ->
  heap_ok (timer_less_than hs) tl hp -> heap_ok (timer_less_than (<[p := h']> hs)) tl hp.
Proof.
  intros Hp Hc. apply heap_ok_ext.
  assert (forall x, x ∈ tl -> timeout_of (<[p := h']> hs) x = timeout_of hs x /\
                              start_id_of (<[p := h']> hs) x = start_id_of hs x) as E.
  { intros x Hx. unfold timeout_of, start_id_of. destruct (decide (x = p)) as [->|].
    - rewrite lookup_insert_eq, Hp. by destruct Hc.
    - by rewrite lookup_insert_ne. }
  intros x y [? ?]%E [? ?]%E. by apply timer_less_ext.
Qed.

Lemma closing_insert hs p h h' q l :
  hs !! p = Some h -> p ∉ l \/ next_closing h' = next_closing h ->
  closing_chain hs q l -> closing_chain (<[p := h']> hs) q l.
Proof.
  intros Hp. revert q. induction l as [|x l IH]; intros q Hc; [done|].
  intros [-> (hx & Hx & Hl)]. split; [done|]. destruct (decide (x = p)) as [->|].
  - exists h'. rewrite lookup_insert_eq. split; [done|].
    destruct Hc as [Hc|Hc]; [by rewrite elem_of_cons in Hc; tauto|].
    rewrite Hp in Hx. injection Hx as <-. rewrite Hc. apply IH; [by right|done].
  - exists hx. rewrite lookup_insert_ne by done. split; [done|]. apply IH; [|done].
    rewrite elem_of_cons in Hc. tauto.
Qed.

(** ** Steps that change one handle *)
Lemma loop_ok_update g g' l l' p h h' :
  loop_ok g l -> p ∈ all_handles g -> handles l !! p = Some h ->
  handles l' = <[p := h']> (handles l) -> all_handles g' = all_handles g -> g_mem g' = g_mem g ->
  parts_ok g' l' -> (forall q, node_mapped l q -> node_mapped l' q) ->
  (forall ty, NoDup (members g' ty)) -> NoDup (all_closing g') ->
  (forall ty q, q <> p -> q ∈ members g' ty <-> q ∈ members g ty) ->
  (forall q, q <> p -> q ∈ all_closing g' <-> q ∈ all_closing g) ->
  (forall q, q <> p -> q ∈ linked_closing g' -> q ∈ linked_closing g) ->
  handle_ok g' p h' ->
  active_handles l' = active_handles l + Z.b2z (active h' && refd h') - Z.b2z (active h && refd h) ->
  loop_ok g' l'.
Proof.
  intros [Hpa Hnd Hme Hcl Hha Hmm Hma Hac Hsz] Hp Eh Eh' Eall Emem Hparts Hmap Hmd Hcd Hm Hc Hcl' Hok Ea.
  constructor; rewrite ?Eall, ?Emem; [done|done| | | |done| | |done].
  - intros ty. split; [done|]. intros q Hq. destruct (decide (q = p)) as [->|]; [done|].
    apply (Hme ty). by apply Hm.
  - split; [done|]. intros q Hq. destruct (decide (q = p)) as [->|]; [done|].
    apply Hcl. by apply Hc.
  - intros q Hq. rewrite Eh'. destruct (decide (q = p)) as [->|Hne].
    { exists h'. by rewrite lookup_insert_eq. }
    destruct (Hha q Hq) as (hq & Ehq & [H1 H2 H3 H4 H5]). exists hq.
    rewrite lookup_insert_ne by done. split; [done|]. constructor; [done| | |done|].
    + intros ty. rewrite Hm by done. apply H2.
    + intros Ha. destruct (H3 Ha) as [? H6]. split; [done|]. intros Hin. by apply H6, Hcl'.
    + rewrite Hc by done. apply H5.
  - intros q Hq. destruct (Hma q Hq) as (H1 & H2 & H3). split; [done|]. split; [by apply Hmap|].
    rewrite Eh'. apply lookup_insert_is_Some'. by right.
  - rewrite (count_change _ (counted (handles l)) p); [|done|done|].
    + unfold counted at 2 3. rewrite Eh', lookup_insert_eq, Eh. lia.
    + intros q Hq. unfold counted. by rewrite Eh', lookup_insert_ne.
Qed.

(** ** The queues are disjoint *)
Lemma queues_disjoint g l q q' x :
  loop_ok g l -> is_head q = true -> is_head q' = true -> q <> q' ->
  x ∈ q :: qlist g q -> x ∉ q' :: qlist g q'.
Proof.
  intros Hok Hq Hq' Hne Hx. rewrite elem_of_cons. intros Hx'.
  assert (forall q y, y ∈ qlist g q -> is_head y = false) as Hnode.
  { intros [] y; cbn; try (intros (p & -> & _)%list_elem_of_fmap; done); by intros ?%elem_of_nil. }
  apply elem_of_cons in Hx as [->|Hx].
  { destruct Hx' as [|Hx']; [done|]. by rewrite (Hnode _ _ Hx') in Hq. }
  destruct Hx' as [->|Hx']; [by rewrite (Hnode _ _ Hx) in Hq'|].
  assert (forall w w' p, p ∈ members g (UV_WATCHER w) -> p ∈ members g (UV_WATCHER w') -> w = w') as Hw.
  { intros w w' p Hp Hp'. destruct (lo_members _ _ Hok (UV_WATCHER w)) as [_ Hs].
    destruct (lo_handles _ _ Hok p (Hs p Hp)) as (h & _ & [_ K _ _ _]).
    apply K in Hp as [E _]. apply K in Hp' as [E' _]. congruence. }
  pose proof (lo_nodup _ _ Hok) as (_ & Hall & _)%NoDup_app.
  assert (forall w p, p ∈ g_watch g w -> p ∈ g_run g w -> False) as Hwr.
  { intros w p Hp Hp'. pose proof (proj1 (lo_members _ _ Hok (UV_WATCHER w))) as (_ & Hd & _)%NoDup_app.
    by apply (Hd p). }
  destruct q, q'; cbn in *; try done;
    apply list_elem_of_fmap in Hx as (p & -> & Hx); apply list_elem_of_fmap in Hx' as (p' & Ep & Hx');
    try discriminate; injection Ep as <-; try (by apply (Hall p));
    match goal with
    | _ : p ∈ _ ?w, _ : p ∈ _ ?w' |- _ =>
        assert (w = w') as <-
          by (apply (Hw _ _ p); cbn; rewrite elem_of_app; first [by left|by right]);
        try congruence; by eapply Hwr
    end.
Qed.

(** A change of one queue. *)
Lemma queues_change g g' m m' q ch :
  queues_ok g m -> queue m' q (qlist g' q) -> changes ch m m' ->
  (forall q', is_head q' = true -> q' <> q -> qlist g' q' = qlist g q') ->
  (forall q' x, is_head q' = true -> q' <> q -> x ∈ ch -> x ∉ q' :: qlist g q') ->
  queues_ok g' m'.
Proof.
  intros Hok Hnew Hch Heq Hdis q' Hq'. destruct (decide (q' = q)) as [->|Hne]; [done|].
  rewrite Heq by done. apply (queue_frame m); [by apply Hok|].
  intros x Hx. apply (ch_out _ _ _ Hch). intros Hc. by apply (Hdis q' x Hq' Hne Hc).
Qed.

Lemma queues_update g g' l m' q ch :
  loop_ok g l -> is_head q = true -> queue m' q (qlist g' q) -> changes ch (queues l) m' ->
  (forall q', is_head q' = true -> q' <> q -> qlist g' q' = qlist g q') ->
  (forall q' x, is_head q' = true -> q' <> q -> x ∈ ch -> x ∉ q' :: qlist g q') ->
  queues_ok g' m'.
Proof. intros Hok Hq. apply queues_change, (lo_parts _ _ Hok). Qed.
