(* ===== verification/UvLoopOps.v ===== *)
(** libuv, the operations on one handle keep the invariant of the loop. *)
From S2P Require Import Prelude.
From S2P Require Import UvHeap.
From S2P Require Import UvHeapOrder.
From S2P Require Import UvHeapProofs.
From S2P Require Import UvQueue.
From S2P Require Import UvQueueProofs.
From S2P Require Import UvLoop.
From S2P Require Import UvTimer.
From S2P Require Import UvRun.
From S2P Require Import UvLoopInv.
#[local] Set Warnings "-clear-no-such-hyp".

(** ** Running the monad *)
Definition put_handle (p : Z) (h : uv_handle) (l : uv_loop) : uv_loop :=
  with_handles (<[p := h]> (handles l)) l.

Lemma get_handle_run p h l : handles l !! p = Some h -> get_handle p l = Done h l.
Proof. unfold get_handle. by intros ->. Qed.

Lemma alter_insert_eq f p (h : uv_handle) (hs : gmap Z uv_handle) : hs !! p = Some h -> alter f p hs = <[p := f h]> hs.
Proof.
  intros E. apply map_eq. intros q. destruct (decide (q = p)) as [->|].
  - by rewrite lookup_alter_eq, lookup_insert_eq, E.
  - by rewrite lookup_alter_ne, lookup_insert_ne.
Qed.

Lemma upd_handle_run p f h l :
  handles l !! p = Some h -> upd_handle p f l = Done tt (put_handle p (f h) l).
Proof.
  intros E. unfold upd_handle. rewrite (bind_done _ _ _ _ _ (get_handle_run _ _ _ E)).
  unfold modify, put_handle. by rewrite (alter_insert_eq f p h).
Qed.

Lemma bind_get_handle {B} p h l (k : uv_handle -> L B) :
  handles l !! p = Some h -> bind (get_handle p) k l = k h l.
Proof. intros E. by rewrite (bind_done _ _ _ _ _ (get_handle_run _ _ _ E)). Qed.

Lemma bind_upd_handle {B} p f h l (k : unit -> L B) :
  handles l !! p = Some h -> bind (upd_handle p f) k l = k tt (put_handle p (f h) l).
Proof. intros E. by rewrite (bind_done _ _ _ _ _ (upd_handle_run _ f _ _ E)). Qed.

Lemma bind_on_heap {A B} (m : Hp A) a t l (k : A -> L B) :
  m (timer_heap l) = Done a t -> bind (on_heap m) k l = k a (with_heap t l).
Proof. intros E. unfold bind, on_heap, in_part. by rewrite E. Qed.

Lemma bind_on_queues {A B} (m : Qm A) a t l (k : A -> L B) :
  m (queues l) = Done a t -> bind (on_queues m) k l = k a (with_queues t l).
Proof. intros E. unfold bind, on_queues, in_part. by rewrite E. Qed.

Lemma put_handle_same p h l : handles (put_handle p h l) !! p = Some h.
Proof. apply lookup_insert_eq. Qed.

Lemma put_put_handle p h h' l : put_handle p h' (put_handle p h l) = put_handle p h' l.
Proof. unfold put_handle. cbn. by rewrite insert_insert_eq. Qed.

Lemma with_active_id l : with_active (active_handles l) l = l.
Proof. by destruct l. Qed.
Lemma with_handles_id l : with_handles (handles l) l = l.
Proof. by destruct l. Qed.
Lemma with_heap_id l : with_heap (timer_heap l) l = l.
Proof. by destruct l. Qed.
Lemma with_queues_id l : with_queues (queues l) l = l.
Proof. by destruct l. Qed.

(** ** The count of the active handles *)
Lemma active_bounds g l p h :
  loop_ok g l -> p ∈ all_handles g -> handles l !! p = Some h ->
  Z.b2z (active h && refd h) <= active_handles l /\
  active_handles l + Z.b2z (negb (active h && refd h)) < 2 ^ 32.
Proof.
  intros Hok (l1 & l2 & E)%list_elem_of_split Eh. pose proof (lo_active _ _ Hok) as Ea.
  pose proof (lo_size _ _ Hok) as Hs. rewrite E in *. rewrite Ea, count_app, count_cons.
  unfold counted at 2 5. rewrite Eh. rewrite zlen_app, zlen_cons in Hs.
  pose proof (count_bounds (counted (handles l)) l1). pose proof (count_bounds (counted (handles l)) l2).
  destruct (active h && refd h); cbn; lia.
Qed.

(** [uv__handle_start] and [uv__handle_stop]. *)
Lemma handle_start_run p h l :
  handles l !! p = Some h -> active h = false -> 0 <= active_handles l ->
  active_handles l + 1 < 2 ^ 32 \/ refd h = false ->
  uv__handle_start p l =
  Done tt (with_active (active_handles l + Z.b2z (refd h)) (put_handle p (or_flag UV_HANDLE_ACTIVE h) l)).
Proof.
  intros Eh Ha H0 Hb. unfold uv__handle_start. rewrite (bind_get_handle _ _ _ _ Eh), flag_active, Ha.
  rewrite (bind_upd_handle _ _ _ _ _ Eh), flag_ref. destruct (refd h); cbn [Z.b2z].
  - unfold uv__active_handle_add, modify. destruct Hb as [Hb|Hb]; [|done].
    cbn [active_handles put_handle with_handles]. by rewrite u32_small by lia.
  - by rewrite Z.add_0_r.
Qed.

Lemma handle_stop_run p h l :
  handles l !! p = Some h -> active h = true -> active_handles l < 2 ^ 32 ->
  Z.b2z (refd h) <= active_handles l ->
  uv__handle_stop p l =
  Done tt (with_active (active_handles l - Z.b2z (refd h)) (put_handle p (clear_flag UV_HANDLE_ACTIVE h) l)).
Proof.
  intros Eh Ha H0 Hb. unfold uv__handle_stop. rewrite (bind_get_handle _ _ _ _ Eh), flag_active, Ha.
  cbn [negb]. rewrite (bind_upd_handle _ _ _ _ _ Eh), flag_ref. destruct (refd h); cbn [Z.b2z] in *.
  - unfold uv__active_handle_rm, modify.
    cbn [active_handles put_handle with_handles]. by rewrite u32_small by lia.
  - by rewrite Z.sub_0_r.
Qed.

(** The fields that a start sets. *)
Definition armed (c t r id : Z) (h : uv_handle) : uv_handle :=
  set_start_id id (set_repeat r (set_timeout t (set_cb c h))).

(** ** The flags after an assignment *)
Ltac bits :=
  unfold active, refd, closing, closed;
  repeat first
    [ progress cbn [flags armed set_start_id set_repeat set_timeout set_cb set_close_cb set_next_closing]
    | rewrite (bit_or UV_HANDLE_ACTIVE 2) by (reflexivity || lia)
    | rewrite (bit_or UV_HANDLE_REF 3) by (reflexivity || lia)
    | rewrite (bit_or UV_HANDLE_CLOSING 0) by (reflexivity || lia)
    | rewrite (bit_or UV_HANDLE_CLOSED 1) by (reflexivity || lia)
    | rewrite (bit_clear UV_HANDLE_ACTIVE 2) by (reflexivity || lia)
    | rewrite (bit_clear UV_HANDLE_REF 3) by (reflexivity || lia) ];
  rewrite ?andb_true_r, ?orb_false_r, ?andb_false_r, ?orb_true_r.

Lemma timers_size g l : loop_ok g l -> zlen (g_timers g) <= zlen (all_handles g).
Proof.
  intros Hok. destruct (lo_members _ _ Hok UV_TIMER) as [Hd Hs]. unfold zlen.
  apply Nat2Z.inj_le, submseteq_length. by apply NoDup_submseteq.
Qed.

(** ** Timers *)
Definition with_timers (tl : list Z) (g : shape) : shape :=
  mk_shape (g_mem g) tl (g_main g) (g_walk g) (g_watch g) (g_run g) (g_new g) (g_closing g) (g_finishing g).

(** The heap replaced, and one timer. *)
Lemma timers_update g l p h h' tl hp n :
  loop_ok g l -> p ∈ all_handles g -> handles l !! p = Some h -> type h = UV_TIMER ->
  type h' = UV_TIMER -> next_closing h' = next_closing h -> closing h' = closing h ->
  closed h' = closed h -> (active h' = true -> cb h' <> 0 /\ (active h = true \/ closing h = false)) ->
  heap_ok (timer_less_than (<[p := h']> (handles l))) tl hp ->
  (forall q, is_Some (nodes (timer_heap l) !! q) -> is_Some (nodes hp !! q)) ->
  NoDup tl -> (forall q, q <> p -> q ∈ tl <-> q ∈ g_timers g) -> (p ∈ tl <-> active h' = true) ->
  n = active_handles l + Z.b2z (active h' && refd h') - Z.b2z (active h && refd h) ->
  loop_ok (with_timers tl g) (with_active n (put_handle p h' (with_heap hp l))).
Proof.
  intros Hok Hp Eh Ht Ht' Hnc Hcl Hcd Hact Hheap Hnodes Hnd Htl Hptl En.
  destruct (lo_handles _ _ Hok p Hp) as (h0 & Eh0 & [K1 K2 K3 K4 K5]). rewrite Eh in Eh0. injection Eh0 as <-.
  apply (loop_ok_update g _ l _ p h h'); [done..| | | | | | | | |done].
  - destruct (lo_parts _ _ Hok) as [P1 P2 P3 P4]. constructor; [done..| |].
    + apply (closing_insert _ _ h); [done|by right|done].
    + apply (closing_insert _ _ h); [done|by right|done].
  - intros q (? & ? & ?). split; [by apply Hnodes|done].
  - intros [|w]; [done|]. apply (lo_members _ _ Hok (UV_WATCHER w)).
  - apply (lo_closing _ _ Hok).
  - intros [|w] q Hq; [by apply Htl|done].
  - done.
  - done.
  - constructor; [done| | |congruence|].
    + intros [|w].
      * cbn. rewrite Hptl, Ht'. tauto.
      * change (p ∈ members g (UV_WATCHER w) <-> type h' = UV_WATCHER w /\ active h' = true).
        rewrite K2, Ht, Ht'. split; intros [? _]; discriminate.
    + intros Ha'. destruct (Hact Ha') as [? [Ha|Hc]]; (split; [done|]); [by apply K3|].
      intros Hin. assert (p ∈ all_closing g) as Hin' by (by apply elem_of_app; right).
      apply K5 in Hin'. congruence.
    + rewrite Hcl. apply K5.
Qed.

Lemma timer_stop_spec g l p h :
  loop_ok g l -> p ∈ all_handles g -> handles l !! p = Some h -> type h = UV_TIMER ->
  active h = true ->
  exists tl hp,
    let l' := with_active (active_handles l - Z.b2z (refd h))
                (put_handle p (clear_flag UV_HANDLE_ACTIVE h) (with_heap hp l)) in
    uv_timer_stop p l = Done 0 l' /\ g_timers g ≡ₚ p :: tl /\ loop_ok (with_timers tl g) l'.
Proof.
  intros Hok Hp Eh Ht Ha. destruct (active_bounds _ _ _ _ Hok Hp Eh) as [B1 B2]. rewrite Ha in B1, B2.
  destruct (lo_handles _ _ Hok p Hp) as (h0 & Eh0 & K). rewrite Eh in Eh0. injection Eh0 as <-.
  assert (p ∈ g_timers g) as Hin by (by apply (h_members _ _ _ K UV_TIMER)).
  pose proof (timers_size _ _ Hok) as Hs. pose proof (lo_size _ _ Hok) as Hs'.
  destruct (heap_remove_spec _ _ _ p (p_heap _ _ (lo_parts _ _ Hok)) Hin ltac:(lia))
    as (tl & hp & Er & Hheap & Hperm & _).
  destruct (lo_members _ _ Hok UV_TIMER) as [Hnd _]. cbn in Hnd. rewrite Hperm in Hnd.
  apply NoDup_cons in Hnd as [Hptl Hnd].
  exists tl, hp. split; [|split; [done|]].
  - unfold uv_timer_stop. rewrite (bind_get_handle _ _ _ _ Eh). unfold uv__is_active.
    rewrite flag_active, Ha. cbn [negb]. rewrite bind_gets, (bind_on_heap _ _ _ _ _ Er).
    erewrite bind_done; [done|]. apply (handle_stop_run p h (with_heap hp l)); [done..| |]; cbn [active_handles with_heap]; destruct (refd h); cbn [andb negb Z.b2z] in *; lia.
  - cbv zeta. apply (timers_update g l p h (clear_flag UV_HANDLE_ACTIVE h) tl hp); try done; bits; try done.
    + apply (timers_insert _ _ h); [done|by left|done].
    + intros q. by eapply keeps_remove.
    + intros q Hq. rewrite Hperm, elem_of_cons. tauto.
    + unfold active in Ha. rewrite Ha. cbn. lia.
Qed.

Lemma timer_stop_idle p l h :
  handles l !! p = Some h -> active h = false -> uv_timer_stop p l = Done 0 l.
Proof.
  intros Eh Ha. unfold uv_timer_stop. rewrite (bind_get_handle _ _ _ _ Eh). unfold uv__is_active.
  by rewrite flag_active, Ha.
Qed.

(** The time of a timer: it saturates. *)
Definition deadline (now t : Z) : Z := if u64 (now + t) <? t then u64 (-1) else u64 (now + t).

Lemma deadline_min now t :
  0 <= now < 2 ^ 64 -> 0 <= t < 2 ^ 64 -> deadline now t = Z.min (now + t) (2 ^ 64 - 1).
Proof.
  intros Hn Ht. unfold deadline. assert (u64 (-1) = 2 ^ 64 - 1) as -> by reflexivity.
  destruct (Z.ltb_spec (now + t) (2 ^ 64)).
  - rewrite u64_small by lia. destruct (Z.ltb_spec (now + t) t); lia.
  - assert (u64 (now + t) = now + t - 2 ^ 64) as ->.
    { unfold u64. symmetry. apply (Z.mod_unique_pos _ _ 1); lia. }
    destruct (Z.ltb_spec (now + t - 2 ^ 64) t); lia.
Qed.

Lemma loop_ok_counter g l n : loop_ok g l -> loop_ok g (with_counter n l).
Proof. by intros [[] ? ? ? ? ? ? ? ?]. Qed.

Lemma timer_start_idle g l p h c t r :
  loop_ok g l -> p ∈ all_handles g -> handles l !! p = Some h -> type h = UV_TIMER ->
  active h = false -> closing h = false -> c <> 0 ->
  exists tl hp,
    let l' := with_active (active_handles l + Z.b2z (refd h))
      (put_handle p (or_flag UV_HANDLE_ACTIVE (armed c (deadline (time l) t) r (timer_counter l) h))
        (with_heap hp (with_counter (u64 (timer_counter l + 1)) l))) in
    uv_timer_start p c t r l = Done 0 l' /\ tl ≡ₚ p :: g_timers g /\ loop_ok (with_timers tl g) l'.
Proof.
  intros Hok Hp Eh Ht Ha Hc Hcb. destruct (active_bounds _ _ _ _ Hok Hp Eh) as [B1 B2]. rewrite Ha in B1, B2.
  destruct (lo_handles _ _ Hok p Hp) as (h0 & Eh0 & K). rewrite Eh in Eh0. injection Eh0 as <-.
  destruct (lo_members _ _ Hok UV_TIMER) as [Hnd Hsub]. cbn in Hnd, Hsub.
  assert (p ∉ g_timers g) as Hin.
  { intros Hin. apply (h_members _ _ _ K UV_TIMER) in Hin. destruct Hin; congruence. }
  assert (zlen (g_timers g) + 1 < 2 ^ 32) as Hs.
  { pose proof (lo_size _ _ Hok) as Hs. assert (zlen (p :: g_timers g) <= zlen (all_handles g)).
    { unfold zlen. apply Nat2Z.inj_le, submseteq_length. apply NoDup_submseteq; [by apply NoDup_cons|].
      intros q [->|Hq]%elem_of_cons; auto. }
    rewrite zlen_cons in *. lia. }
  set (h1 := armed c (deadline (time l) t) r (timer_counter l) h).
  assert (heap_ok (timer_less_than (<[p := h1]> (handles l))) (g_timers g) (timer_heap l)) as Hheap.
  { apply (timers_insert _ _ h); [done|by left|apply (lo_parts _ _ Hok)]. }
  destruct (heap_insert_spec _ _ _ p Hheap Hin (h_nonzero _ _ _ K) (proj1 (proj1 (proj2 (lo_mapped _ _ Hok p (lo_mem _ _ Hok p Hp))))) Hs)
    as (tl & hp & Er & Hheap' & Hperm & _).
  exists tl, hp. cbv zeta. split; [|split; [done|]].
  - unfold uv_timer_start. rewrite (bind_get_handle _ _ _ _ Eh).
    rewrite is_closing_bits, Hc, (h_closed _ _ _ K). rewrite (proj2 (Z.eqb_neq c 0) Hcb). cbn [orb].
    unfold uv__is_active. rewrite flag_active, Ha. rewrite (bind_done (ret tt) _ _ _ _ eq_refl), bind_gets.
    rewrite (bind_upd_handle _ _ _ _ _ Eh).
    do 2 rewrite (bind_upd_handle _ _ _ _ _ (put_handle_same _ _ _)). rewrite !put_put_handle.
    rewrite bind_gets, bind_modify.
    rewrite (bind_upd_handle _ _ (set_repeat r (set_timeout (deadline (time l) t) (set_cb c h))))
      by apply put_handle_same.
    rewrite bind_gets. cbn [handles put_handle with_counter with_handles]. rewrite insert_insert_eq.
    rewrite (bind_on_heap _ tt hp) by exact Er.
    erewrite bind_done; [done|]. rewrite (handle_start_run p h1); [|apply lookup_insert_eq|done| |].
    + unfold put_handle. cbn. by rewrite !insert_insert_eq.
    + cbn in *. lia.
    + left. cbn in *. lia.
  - apply (timers_update g _ p h _ tl hp); try done; bits; try done.
    + by apply loop_ok_counter.
    + intros _. split; [done|by right].
    + cbn. assert (<[p:=or_flag UV_HANDLE_ACTIVE h1]> (handles l) =
        <[p:=or_flag UV_HANDLE_ACTIVE h1]> (<[p := h1]> (handles l))) as ->
        by (by rewrite insert_insert_eq).
      eapply timers_insert; [apply lookup_insert_eq|by right|done].
    + intros q. by eapply keeps_insert.
    + rewrite Hperm. by apply NoDup_cons.
    + intros q Hq. rewrite Hperm, elem_of_cons. tauto.
    + rewrite Hperm, elem_of_cons. tauto.
    + change (flags h1) with (flags h). unfold active in Ha. rewrite Ha. cbn. lia.
Qed.

(** An active timer is stopped first. *)
Lemma timer_start_active g l p h c t r :
  loop_ok g l -> p ∈ all_handles g -> handles l !! p = Some h -> type h = UV_TIMER ->
  active h = true -> closing h = false -> c <> 0 ->
  exists l1, uv_timer_stop p l = Done 0 l1 /\ uv_timer_start p c t r l = uv_timer_start p c t r l1.
Proof.
  intros Hok Hp Eh Ht Ha Hcl Hcb. destruct (timer_stop_spec _ _ _ _ Hok Hp Eh Ht Ha) as (tl & hp & E & _ & Hok').
  eexists. split; [exact E|].
  destruct (lo_handles _ _ Hok p Hp) as (h0 & Eh0 & K). rewrite Eh in Eh0. injection Eh0 as <-.
  set (l1 := with_active _ _) in *.
  assert (handles l1 !! p = Some (clear_flag UV_HANDLE_ACTIVE h)) as E1 by apply lookup_insert_eq.
  unfold uv_timer_start. rewrite (bind_get_handle _ _ _ _ Eh), (bind_get_handle _ _ _ _ E1).
  rewrite !is_closing_bits. unfold uv__is_active. rewrite !flag_active, Ha.
  assert (closing (clear_flag UV_HANDLE_ACTIVE h) = closing h /\
          closed (clear_flag UV_HANDLE_ACTIVE h) = closed h /\
          active (clear_flag UV_HANDLE_ACTIVE h) = false) as (-> & -> & ->) by (bits; done).
  rewrite Hcl, (h_closed _ _ _ K). rewrite (proj2 (Z.eqb_neq c 0) Hcb).
  cbn [orb]. rewrite bind_assoc, (bind_done _ _ _ _ _ E). done.
Qed.

(** ** Watchers *)
Definition upd_watcher (f : watcher -> list Z) (w : watcher) (k : list Z) : watcher -> list Z :=
  fun w' => if decide (w' = w) then k else f w'.

Lemma upd_watcher_same f w k : upd_watcher f w k w = k.
Proof. unfold upd_watcher. by rewrite decide_True. Qed.
Lemma upd_watcher_other f w k w' : w' <> w -> upd_watcher f w k w' = f w'.
Proof. intros. unfold upd_watcher. by rewrite decide_False. Qed.

Definition with_watch (w : watcher) (wl rl : list Z) (g : shape) : shape :=
  mk_shape (g_mem g) (g_timers g) (g_main g) (g_walk g) (upd_watcher (g_watch g) w wl)
    (upd_watcher (g_run g) w rl) (g_new g) (g_closing g) (g_finishing g).

Lemma members_with_watch w wl rl g ty :
  members (with_watch w wl rl g) ty = if decide (ty = UV_WATCHER w) then wl ++ rl else members g ty.
Proof.
  destruct ty as [|w']; [done|]. cbn. unfold upd_watcher.
  destruct (decide (w' = w)) as [->|Hne]; [by rewrite decide_True|]. rewrite decide_False; [done|congruence].
Qed.

Lemma qlist_with_watch w wl rl g q :
  q <> watcher_handles w -> q <> run_queue w -> qlist (with_watch w wl rl g) q = qlist g q.
Proof. destruct q; cbn; try done; intros; rewrite upd_watcher_other; congruence. Qed.

Lemma qlist_run_same w wl rl g q :
  q <> watcher_handles w -> qlist (with_watch w wl rl g) (run_queue w) = qlist g (run_queue w) ->
  qlist (with_watch w wl rl g) q = qlist g q.
Proof. intros Hne E. destruct (decide (q = run_queue w)) as [->|]; [done|by apply qlist_with_watch]. Qed.

Lemma qlist_watch_same w wl rl g q :
  q <> run_queue w -> qlist (with_watch w wl rl g) (watcher_handles w) = qlist g (watcher_handles w) ->
  qlist (with_watch w wl rl g) q = qlist g q.
Proof. intros Hne E. destruct (decide (q = watcher_handles w)) as [->|]; [done|by apply qlist_with_watch]. Qed.

Lemma watchers_update g l p h h' w wl rl m n :
  loop_ok g l -> p ∈ all_handles g -> handles l !! p = Some h -> type h = UV_WATCHER w ->
  type h' = UV_WATCHER w -> next_closing h' = next_closing h -> closing h' = closing h ->
  closed h' = closed h -> (active h' = true -> cb h' <> 0 /\ (active h = true \/ closing h = false)) ->
  queues_ok (with_watch w wl rl g) m ->
  (forall q, is_Some (queues l !! q) -> is_Some (m !! q)) ->
  NoDup (wl ++ rl) -> (forall q, q <> p -> q ∈ wl ++ rl <-> q ∈ members g (UV_WATCHER w)) ->
  (p ∈ wl ++ rl <-> active h' = true) ->
  n = active_handles l + Z.b2z (active h' && refd h') - Z.b2z (active h && refd h) ->
  loop_ok (with_watch w wl rl g) (with_active n (put_handle p h' (with_queues m l))).
Proof.
  intros Hok Hp Eh Ht Ht' Hnc Hcl Hcd Hact Hq Hnodes Hnd Hwl Hpwl En.
  destruct (lo_handles _ _ Hok p Hp) as (h0 & Eh0 & [K1 K2 K3 K4 K5]). rewrite Eh in Eh0. injection Eh0 as <-.
  apply (loop_ok_update g _ l _ p h h'); [done..| | | | | | | | |done].
  - destruct (lo_parts _ _ Hok) as [P1 P2 P3 P4]. constructor; [|done| |].
    + apply (timers_insert _ _ h); [done| |done]. left. intros Hin. apply (K2 UV_TIMER) in Hin.
      destruct Hin; congruence.
    + apply (closing_insert _ _ h); [done|by right|done].
    + apply (closing_insert _ _ h); [done|by right|done].
  - intros q (? & ? & ?). split; [done|]. split; by apply Hnodes.
  - intros ty. rewrite members_with_watch. case_decide; [done|]. apply (lo_members _ _ Hok ty).
  - apply (lo_closing _ _ Hok).
  - intros ty q Hne. rewrite members_with_watch. case_decide as E; [rewrite E; by apply Hwl|done].
  - done.
  - done.
  - constructor; [done| | |congruence|].
    + intros ty. rewrite members_with_watch, Ht'. case_decide as E; [rewrite E; tauto|].
      rewrite K2, Ht. split; intros [? _]; congruence.
    + intros Ha'. destruct (Hact Ha') as [? [Ha|Hc]]; (split; [done|]); [by apply K3|].
      intros Hin. assert (p ∈ all_closing g) as Hin' by (by apply elem_of_app; right).
      apply K5 in Hin'. congruence.
    + rewrite Hcl. apply K5.
Qed.

Lemma changes_mapped ch m m' : changes ch m m' -> forall q : qptr, is_Some (m !! q) -> is_Some (m' !! q).
Proof. intros Hch q. pose proof (ch_mapped _ _ _ Hch q) as Hm. unfold nxt in Hm. rewrite !fmap_is_Some in Hm. auto. Qed.

Lemma watcher_start_spec g l p h w c :
  loop_ok g l -> p ∈ all_handles g -> handles l !! p = Some h -> type h = UV_WATCHER w ->
  active h = false -> closing h = false -> c <> 0 ->
  exists m,
    let l' := with_active (active_handles l + Z.b2z (refd h))
                (put_handle p (or_flag UV_HANDLE_ACTIVE (set_cb c h)) (with_queues m l)) in
    uv_watcher_start w p c l = Done 0 l' /\
    loop_ok (with_watch w (p :: g_watch g w) (g_run g w) g) l'.
Proof.
  intros Hok Hp Eh Ht Ha Hc Hcb. destruct (active_bounds _ _ _ _ Hok Hp Eh) as [B1 B2]. rewrite Ha in B1, B2.
  destruct (lo_handles _ _ Hok p Hp) as (h0 & Eh0 & K). rewrite Eh in Eh0. injection Eh0 as <-.
  assert (p ∉ g_watch g w ++ g_run g w) as Hin.
  { intros Hin. apply (h_members _ _ _ K (UV_WATCHER w)) in Hin. destruct Hin; congruence. }
  assert (forall q, is_head q = true -> watcher_node p ∉ q :: qlist g q) as Hfresh.
  { intros q Hq. rewrite elem_of_cons. intros [<-|Hx]; [done|]. destruct q; try done; cbn in Hx;
      apply list_elem_of_fmap in Hx as (p' & Ep & Hx); try discriminate; injection Ep as <-;
      pose proof (proj2 (lo_members _ _ Hok (UV_WATCHER w0)) p) as Hs; cbn in Hs;
      (assert (p ∈ members g (UV_WATCHER w0)) as Hm by (cbn; rewrite elem_of_app; tauto));
      apply (h_members _ _ _ K) in Hm as [E _]; apply Hin; rewrite Ht in E; injection E as <-;
      rewrite elem_of_app; tauto. }
  assert (is_Some (nxt (queues l) (watcher_node p))) as Hm.
  { apply fmap_is_Some. apply (lo_mapped _ _ Hok p (lo_mem _ _ Hok p Hp)). }
  destruct (QUEUE_INSERT_HEAD_spec _ _ (watcher_node p) _ (p_queues _ _ (lo_parts _ _ Hok) (watcher_handles w) eq_refl)
    (Hfresh (watcher_handles w) eq_refl) Hm) as (m & Er & Hq & Hch).
  exists m. cbv zeta. split.
  - unfold uv_watcher_start. rewrite (bind_get_handle _ _ _ _ Eh). unfold uv__is_active.
    rewrite flag_active, Ha, (proj2 (Z.eqb_neq c 0) Hcb), (bind_on_queues _ _ _ _ _ Er).
    rewrite (bind_upd_handle _ _ h) by done. erewrite bind_done; [done|].
    rewrite (handle_start_run p (set_cb c h)); [|apply lookup_insert_eq|done| |].
    + unfold put_handle. cbn. by rewrite !insert_insert_eq.
    + cbn in *. lia.
    + left. cbn in *. lia.
  - apply (watchers_update g l p h _ w); try done; bits; try done.
    + intros _. split; [done|by right].
    + apply (queues_update g _ l _ (watcher_handles w) (watcher_node p :: watcher_handles w :: qlist g (watcher_handles w)));
        [done|done| |done| |].
      * cbn. by rewrite upd_watcher_same.
      * intros q' Hq' Hne. apply qlist_run_same; [done|]. cbn. by rewrite upd_watcher_same.
      * intros q' x Hq' Hne [->|Hx]%elem_of_cons; [by apply Hfresh|].
        by apply (queues_disjoint _ _ (watcher_handles w) q' x Hok).
    + by eapply changes_mapped.
    + cbn. apply NoDup_cons. split; [done|]. apply (lo_members _ _ Hok (UV_WATCHER w)).
    + intros q Hne. cbn. rewrite elem_of_cons. tauto.
    + cbn. rewrite elem_of_cons. tauto.
    + change (flags (set_cb c h)) with (flags h). unfold active in Ha. rewrite Ha. cbn. lia.
Qed.

(** A node taken out of one of the queues, the others are left alone. *)
Lemma node_remove g g' l q x k1 k2 :
  loop_ok g l -> is_head q = true -> qlist g q = k1 ++ x :: k2 -> qlist g' q = k1 ++ k2 ->
  (forall q', is_head q' = true -> q' <> q -> qlist g' q' = qlist g q') ->
  exists m, QUEUE_REMOVE x (queues l) = Done tt m /\ queues_ok g' m /\
            forall y, is_Some (queues l !! y) -> is_Some (m !! y).
Proof.
  intros Hok Hq E E' Heq. pose proof (p_queues _ _ (lo_parts _ _ Hok) q Hq) as Hqw. rewrite E in Hqw.
  destruct (QUEUE_REMOVE_spec _ _ _ _ _ Hqw) as (m & Er & Hq' & Hch). exists m. split; [done|].
  split; [|by eapply changes_mapped]. rewrite <- E' in Hq'.
  apply (queues_update g g' l m q _ Hok Hq Hq' Hch Heq). intros q' y Hh Hne Hy.
  apply (queues_disjoint _ _ q q' y Hok); [done..|]. rewrite E. set_solver.
Qed.

(** The queue that holds the watcher [p]. *)
Lemma watcher_stop_spec g l p h w :
  loop_ok g l -> p ∈ all_handles g -> handles l !! p = Some h -> type h = UV_WATCHER w ->
  active h = true ->
  exists m wl rl,
    let l' := with_active (active_handles l - Z.b2z (refd h))
                (put_handle p (clear_flag UV_HANDLE_ACTIVE h) (with_queues m l)) in
    uv_watcher_stop w p l = Done 0 l' /\ sublist wl (g_watch g w) /\ sublist rl (g_run g w) /\
    g_watch g w ++ g_run g w ≡ₚ p :: wl ++ rl /\ loop_ok (with_watch w wl rl g) l'.
Proof.
  intros Hok Hp Eh Ht Ha. destruct (active_bounds _ _ _ _ Hok Hp Eh) as [B1 B2]. rewrite Ha in B1, B2.
  destruct (lo_handles _ _ Hok p Hp) as (h0 & Eh0 & K). rewrite Eh in Eh0. injection Eh0 as <-.
  assert (p ∈ g_watch g w ++ g_run g w) as Hin by (by apply (h_members _ _ _ K (UV_WATCHER w))).
  pose proof (proj1 (lo_members _ _ Hok (UV_WATCHER w))) as Hnd. cbn in Hnd.
  assert (exists wl rl m, sublist wl (g_watch g w) /\ sublist rl (g_run g w) /\
    g_watch g w ++ g_run g w ≡ₚ p :: wl ++ rl /\ QUEUE_REMOVE (watcher_node p) (queues l) = Done tt m /\
    queues_ok (with_watch w wl rl g) m /\ forall y, is_Some (queues l !! y) -> is_Some (m !! y))
    as (wl & rl & m & Hs1 & Hs2 & Hperm & Er & Hqs & Hmp).
  { apply elem_of_app in Hin as [(k1 & k2 & E)%list_elem_of_split|(k1 & k2 & E)%list_elem_of_split].
    - exists (k1 ++ k2), (g_run g w).
      destruct (node_remove g (with_watch w (k1 ++ k2) (g_run g w) g) l (watcher_handles w) (watcher_node p)
        (watcher_node <$> k1) (watcher_node <$> k2)) as (m & ? & ? & ?); [done|done| | | |].
      + cbn. by rewrite E, fmap_app, fmap_cons.
      + cbn. by rewrite upd_watcher_same, fmap_app.
      + intros q _ Hne. apply qlist_run_same; [done|]. cbn. by rewrite upd_watcher_same.
      + exists m. rewrite E. split; [apply sublist_app; [done|by apply sublist_cons]|].
        split; [done|]. split; [by rewrite <- Permutation_middle|done].
    - exists (g_watch g w), (k1 ++ k2).
      destruct (node_remove g (with_watch w (g_watch g w) (k1 ++ k2) g) l (run_queue w) (watcher_node p)
        (watcher_node <$> k1) (watcher_node <$> k2)) as (m & ? & ? & ?); [done|done| | | |].
      + cbn. by rewrite E, fmap_app, fmap_cons.
      + cbn. by rewrite upd_watcher_same, fmap_app.
      + intros q _ Hne. apply qlist_watch_same; [done|]. cbn. by rewrite upd_watcher_same.
      + exists m. rewrite E. split; [done|]. split; [apply sublist_app; [done|by apply sublist_cons]|].
        split; [by rewrite <- !Permutation_middle|done]. }
  exists m, wl, rl. cbv zeta. split; [|split; [done|split; [done|split; [done|]]]].
  - unfold uv_watcher_stop. rewrite (bind_get_handle _ _ _ _ Eh). unfold uv__is_active.
    rewrite flag_active, Ha. cbn [negb]. rewrite (bind_on_queues _ _ _ _ _ Er).
    erewrite bind_done; [done|]. apply (handle_stop_run p h (with_queues m l)); [done..| |];
      cbn [active_handles with_queues]; destruct (refd h); cbn [andb negb Z.b2z] in *; lia.
  - rewrite Hperm in Hnd. apply NoDup_cons in Hnd as [Hpn Hnd].
    apply (watchers_update g l p h _ w); try done; bits; try done.
    + intros x Hne. change (members g (UV_WATCHER w)) with (g_watch g w ++ g_run g w).
      rewrite Hperm, elem_of_cons. tauto.
    + unfold active in Ha. rewrite Ha. cbn. lia.
Qed.

Lemma watcher_stop_idle w p l h :
  handles l !! p = Some h -> active h = false -> uv_watcher_stop w p l = Done 0 l.
Proof.
  intros Eh Ha. unfold uv_watcher_stop. rewrite (bind_get_handle _ _ _ _ Eh). unfold uv__is_active.
  by rewrite flag_active, Ha.
Qed.

(** ** Steps that leave the lists alone *)
Lemma handle_update g l p h h' n :
  loop_ok g l -> p ∈ all_handles g -> handles l !! p = Some h ->
  type h' = type h -> active h' = active h -> closing h' = closing h -> closed h' = closed h ->
  next_closing h' = next_closing h -> timeout h' = timeout h -> start_id h' = start_id h ->
  cb h' = cb h ->
  n = active_handles l + Z.b2z (active h' && refd h') - Z.b2z (active h && refd h) ->
  loop_ok g (with_active n (put_handle p h' l)).
Proof.
  intros Hok Hp Eh E1 E2 E3 E4 E5 E6 E7 E8 En.
  destruct (lo_handles _ _ Hok p Hp) as (h0 & Eh0 & [K1 K2 K3 K4 K5]). rewrite Eh in Eh0. injection Eh0 as <-.
  apply (loop_ok_update g g l _ p h h'); try done.
  - destruct (lo_parts _ _ Hok) as [P1 P2 P3 P4]. constructor; [|done| |].
    + apply (timers_insert _ _ h); [done|by right|done].
    + apply (closing_insert _ _ h); [done|by right|done].
    + apply (closing_insert _ _ h); [done|by right|done].
  - intros ty. apply (lo_members _ _ Hok ty).
  - apply (lo_closing _ _ Hok).
  - constructor; rewrite ?E1, ?E2, ?E3, ?E4, ?E8; done.
Qed.

Lemma set_repeat_spec g l p h r :
  loop_ok g l -> p ∈ all_handles g -> handles l !! p = Some h ->
  uv_timer_set_repeat p r l = Done tt (put_handle p (set_repeat r h) l) /\
  loop_ok g (put_handle p (set_repeat r h) l).
Proof.
  intros Hok Hp Eh. split; [by apply upd_handle_run|].
  apply (handle_update g l p h (set_repeat r h) (active_handles l)); try done. cbn. lia.
Qed.

Lemma handle_ref_spec g l p h :
  loop_ok g l -> p ∈ all_handles g -> handles l !! p = Some h -> active h && closing h = false ->
  exists l' h', uv_ref p l = Done tt l' /\ loop_ok g l' /\ handles l' = <[p := h']> (handles l) /\
  type h' = type h /\ closing h' = closing h.
Proof.
  intros Hok Hp Eh Hac. destruct (active_bounds _ _ _ _ Hok Hp Eh) as [B1 B2].
  unfold uv_ref, uv__handle_ref. rewrite (bind_get_handle _ _ _ _ Eh), flag_ref.
  destruct (refd h) eqn:Er; [exists l, h; by rewrite insert_id|]. rewrite (bind_upd_handle _ _ _ _ _ Eh), flag_closing, flag_active.
  exists (with_active (active_handles l + Z.b2z (active h)) (put_handle p (or_flag UV_HANDLE_REF h) l)).
  exists (or_flag UV_HANDLE_REF h). split; [|split; [|split; [done|split; [done|by bits]]]].
  - destruct (active h); cbn [andb] in Hac; rewrite ?Hac; [|by rewrite Z.add_0_r; destruct (closing h)].
    unfold uv__active_handle_add, modify. cbn [active_handles put_handle with_handles].
    rewrite u32_small; [done|]. cbn in B1, B2. lia.
  - apply (handle_update g l p h); try done; bits; try done.
    unfold refd in Er. rewrite Er. unfold active. destruct (Z.testbit (flags h) 2); cbn; lia.
Qed.

Lemma handle_unref_spec g l p h :
  loop_ok g l -> p ∈ all_handles g -> handles l !! p = Some h -> active h && closing h = false ->
  exists l' h', uv_unref p l = Done tt l' /\ loop_ok g l' /\ handles l' = <[p := h']> (handles l) /\
  type h' = type h /\ closing h' = closing h.
Proof.
  intros Hok Hp Eh Hac. destruct (active_bounds _ _ _ _ Hok Hp Eh) as [B1 B2].
  unfold uv_unref, uv__handle_unref. rewrite (bind_get_handle _ _ _ _ Eh), flag_ref.
  destruct (refd h) eqn:Er; [|exists l, h; by rewrite insert_id]. cbn [negb].
  rewrite (bind_upd_handle _ _ _ _ _ Eh), flag_closing, flag_active.
  exists (with_active (active_handles l - Z.b2z (active h)) (put_handle p (clear_flag UV_HANDLE_REF h) l)).
  exists (clear_flag UV_HANDLE_REF h). split; [|split; [|split; [done|split; [done|by bits]]]].
  - destruct (active h); cbn [andb] in Hac; rewrite ?Hac; [|by rewrite Z.sub_0_r; destruct (closing h)].
    unfold uv__active_handle_rm, modify. cbn [active_handles put_handle with_handles].
    rewrite u32_small; [done|]. cbn in B1, B2. lia.
  - apply (handle_update g l p h); try done; bits; try done.
    unfold refd in Er. rewrite Er. unfold active. destruct (Z.testbit (flags h) 2); cbn; lia.
Qed.

(** ** Closing *)
Definition with_closing_lists (nl cl : list Z) (g : shape) : shape :=
  mk_shape (g_mem g) (g_timers g) (g_main g) (g_walk g) (g_watch g) (g_run g) nl cl (g_finishing g).

(** [uv_close] has marked the handle. *)
Lemma mark_closing_ok g l p h c :
  loop_ok g l -> p ∈ all_handles g -> handles l !! p = Some h -> closing h = false ->
  loop_ok (with_closing_lists (p :: g_new g) (g_closing g) g)
    (put_handle p (set_close_cb c (or_flag UV_HANDLE_CLOSING h)) l).
Proof.
  intros Hok Hp Eh Hc.
  destruct (lo_handles _ _ Hok p Hp) as (h0 & Eh0 & [K1 K2 K3 K4 K5]). rewrite Eh in Eh0. injection Eh0 as <-.
  assert (p ∉ all_closing g) as Hn by (intros Hin%K5; congruence).
  apply (loop_ok_update g _ l _ p h (set_close_cb c (or_flag UV_HANDLE_CLOSING h))); try done.
  - destruct (lo_parts _ _ Hok) as [P1 P2 P3 P4]. constructor; [| |apply (closing_insert _ _ h)..]; try done.
    + apply (timers_insert _ _ h); [done|by right|done].
    + by right.
    + by right.
  - intros ty. apply (lo_members _ _ Hok ty).
  - change (NoDup (p :: all_closing g)). apply NoDup_cons. split; [done|]. apply (lo_closing _ _ Hok).
  - intros q Hq. change (q ∈ p :: all_closing g <-> q ∈ all_closing g). rewrite elem_of_cons. tauto.
  - constructor; [done| | | |].
    + intros ty. rewrite (K2 ty). unfold active. change (flags (set_close_cb ?a ?b)) with (flags b).
      by rewrite (bit_or UV_HANDLE_CLOSING 0) by (reflexivity || lia); rewrite orb_false_r.
    + intros Ha. apply K3. revert Ha. unfold active. change (flags (set_close_cb ?a ?b)) with (flags b).
      by rewrite (bit_or UV_HANDLE_CLOSING 0) by (reflexivity || lia); rewrite orb_false_r.
    + revert K4. unfold closed. change (flags (set_close_cb ?a ?b)) with (flags b).
      by rewrite (bit_or UV_HANDLE_CLOSING 0) by (reflexivity || lia); rewrite orb_false_r.
    + change (p ∈ all_closing (with_closing_lists (p :: g_new g) (g_closing g) g)) with (p ∈ p :: all_closing g).
      split; [by left|]. intros _. unfold closing. change (flags (set_close_cb ?a ?b)) with (flags b).
      by rewrite (bit_or UV_HANDLE_CLOSING 0) by (reflexivity || lia); rewrite orb_true_r.
  - unfold active, refd. change (flags (set_close_cb ?a ?b)) with (flags b).
    rewrite !(bit_or UV_HANDLE_CLOSING 0), !orb_false_r by (reflexivity || lia). cbn. lia.
Qed.

Lemma make_close_pending_spec g l p h nl :
  loop_ok g l -> p ∈ all_handles g -> handles l !! p = Some h -> g_new g = p :: nl -> active h = false ->
  let l' := with_closing p (put_handle p (set_next_closing (closing_handles l) h) l) in
  uv__make_close_pending p l = Done tt l' /\ loop_ok (with_closing_lists nl (p :: g_closing g) g) l'.
Proof.
  intros Hok Hp Eh En Ha.
  destruct (lo_handles _ _ Hok p Hp) as (h0 & Eh0 & [K1 K2 K3 K4 K5]). rewrite Eh in Eh0. injection Eh0 as <-.
  destruct (lo_closing _ _ Hok) as [Hnd Hsub]. unfold all_closing in Hnd, K5. rewrite En in Hnd, K5. cbn [app] in Hnd, K5.
  apply NoDup_cons in Hnd as [Hpn Hnd]. pose proof Hpn as [Hpnl Hplk]%not_elem_of_app.
  pose proof Hplk as [Hpc Hpf]%not_elem_of_app.
  assert (closing h = true) as Hc by (apply K5; by left). cbv zeta. split.
  - unfold uv__make_close_pending. rewrite (bind_get_handle _ _ _ _ Eh), flag_closing, flag_closed.
    rewrite !bind_assert by (by rewrite ?K4). rewrite bind_gets, (bind_upd_handle _ _ _ _ _ Eh). done.
  - assert (all_closing (with_closing_lists nl (p :: g_closing g) g) ≡ₚ all_closing g) as Hperm.
    { unfold all_closing, linked_closing. cbn. rewrite En. cbn. by rewrite <- Permutation_middle. }
    apply (loop_ok_update g _ l _ p h (set_next_closing (closing_handles l) h)); try done.
    + destruct (lo_parts _ _ Hok) as [P1 P2 P3 P4]. constructor; [|done| |].
      * apply (timers_insert _ _ h); [done|by right|done].
      * split; [done|]. eexists. split; [apply lookup_insert_eq|]. cbn.
        apply (closing_insert _ _ h); [done|by left|done].
      * cbn. apply (closing_insert _ _ h); [done|by left|done].
    + intros ty. apply (lo_members _ _ Hok ty).
    + rewrite Hperm. apply (lo_closing _ _ Hok).
    + intros q _. by rewrite Hperm.
    + intros q Hq. unfold linked_closing. cbn. rewrite !elem_of_cons. tauto.
    + constructor; [done|done| |done|].
      * change (active (set_next_closing ?n h)) with (active h). congruence.
      * rewrite Hperm. change (closing (set_next_closing ?n h)) with (closing h).
        unfold all_closing. rewrite En. apply K5.
    + change (active (set_next_closing ?n h)) with (active h). rewrite Ha. cbn. lia.
Qed.

(** How the lists of the running loops may change below a callback. *)
Record evolves (g g' : shape) : Prop := {
  ev_mem : g_mem g' = g_mem g;
  ev_run : forall w, sublist (g_run g' w) (g_run g w);
  ev_walk : g_walk g' = g_walk g;
  ev_new : g_new g' = g_new g;
  ev_finishing : g_finishing g' = g_finishing g
}.

#[export] Instance evolves_preorder : PreOrder evolves.
Proof.
  split; [by constructor|]. intros g1 g2 g3 [A0 A1 A2 A3 A4] [B0 B1 B2 B3 B4].
  constructor; [congruence| |congruence..]. intros w. by transitivity (g_run g2 w).
Qed.

Lemma evolves_timers tl g : evolves g (with_timers tl g).
Proof. by constructor. Qed.

(** A change of the timers only. *)
Record retimed (g g' : shape) : Prop := {
  rt_evolves : evolves g g';
  rt_watch : g_watch g' = g_watch g;
  rt_closing : g_closing g' = g_closing g
}.

Lemma retimed_timers tl g : retimed g (with_timers tl g).
Proof. constructor; [apply evolves_timers|done|done]. Qed.

#[export] Instance retimed_preorder : PreOrder retimed.
Proof.
  split; [by intros g; constructor|]. intros g1 g2 g3 [A1 A2 A3] [B1 B2 B3].
  constructor; [by transitivity g2|congruence|congruence].
Qed.

Lemma evolves_watch w wl rl g : sublist rl (g_run g w) -> evolves g (with_watch w wl rl g).
Proof.
  intros Hs. constructor; [done| |done..]. intros w'. cbn. unfold upd_watcher. by case_decide; subst.
Qed.

(** The stop of any handle: it ends inactive, with its other flags. *)
Definition stop_of (ty : uv_handle_type) (p : Z) : L Z :=
  match ty with UV_TIMER => uv_timer_stop p | UV_WATCHER w => uv_watcher_stop w p end.

Lemma stop_spec g l p h :
  loop_ok g l -> p ∈ all_handles g -> handles l !! p = Some h ->
  exists g' l' h', stop_of (type h) p l = Done 0 l' /\ loop_ok g' l' /\ evolves g g' /\
  handles l' = <[p := h']> (handles l) /\ h' = (if active h then clear_flag UV_HANDLE_ACTIVE h else h) /\
  all_handles g' = all_handles g /\ g_closing g' = g_closing g /\ time l' = time l /\
  closing_handles l' = closing_handles l /\ timer_counter l' = timer_counter l /\
  (type h = UV_TIMER -> g_watch g' = g_watch g) /\
  forall ty q, q <> p -> q ∈ members g' ty <-> q ∈ members g ty.
Proof.
  intros Hok Hp Eh. destruct (active h) eqn:Ha.
  - destruct (type h) as [|w] eqn:Ht.
    + destruct (timer_stop_spec g l p h) as (tl & hp & E & Hperm & Hok'); [done..|].
      eexists (with_timers tl g), _, _. split; [exact E|]. split; [exact Hok'|].
      split; [apply evolves_timers|]. do 8 (split; [done|]). intros [|w] q Hq; [|done].
      change (q ∈ tl <-> q ∈ g_timers g). rewrite Hperm, elem_of_cons. tauto.
    + destruct (watcher_stop_spec g l p h w) as (m & wl & rl & E & _ & Hs & Hperm & Hok'); [done..|].
      eexists (with_watch w wl rl g), _, _. split; [exact E|]. split; [exact Hok'|].
      split; [by apply evolves_watch|]. do 8 (split; [done|]). intros ty q Hq.
      rewrite members_with_watch. case_decide as Ety; [|done].
      rewrite Ety. change (q ∈ wl ++ rl <-> q ∈ g_watch g w ++ g_run g w). rewrite Hperm, elem_of_cons. tauto.
  - exists g, l, h. split.
    + destruct (type h) as [|w]; [by apply (timer_stop_idle p l h)|by apply (watcher_stop_idle w p l h)].
    + split; [done|]. split; [done|]. by rewrite insert_id.
Qed.

Lemma close_spec g l p h c :
  loop_ok g l -> p ∈ all_handles g -> handles l !! p = Some h -> closing h = false ->
  exists g' l', uv_close p c l = Done tt l' /\ loop_ok g' l' /\ evolves g g' /\
  g_closing g' = p :: g_closing g /\ all_handles g' = all_handles g /\
  exists h', handles l' = <[p := h']> (handles l) /\ close_cb h' = c /\ type h' = type h /\ closing h' = true.
Proof.
  intros Hok Hp Eh Hc.
  destruct (lo_handles _ _ Hok p Hp) as (h0 & Eh0 & K). rewrite Eh in Eh0. injection Eh0 as <-.
  pose proof (mark_closing_ok g l p h c Hok Hp Eh Hc) as Hok1.
  set (h1 := set_close_cb c (or_flag UV_HANDLE_CLOSING h)) in *. set (g1 := with_closing_lists _ _ g) in *.
  destruct (stop_spec g1 (put_handle p h1 l) p h1 Hok1 Hp (put_handle_same _ _ _))
    as (g2 & l2 & h2 & E2 & Hok2 & Hev & Eh2 & Eh2' & Eall & Ecl & Et & Ech & _).
  cbn [handles put_handle with_handles] in Eh2. rewrite insert_insert_eq in Eh2.
  assert (active h2 = false) as Ha2.
  { rewrite Eh2'. destruct (active h1) eqn:Ha; [by bits|done]. }
  destruct (make_close_pending_spec g2 l2 p h2 (g_new g)) as [E3 Hok3]; [done| | | |done|].
  { rewrite Eall. exact Hp. }
  { rewrite Eh2. apply lookup_insert_eq. }
  { by rewrite (ev_new _ _ Hev). }
  eexists _, _. split; [|split; [exact Hok3|]].
  - unfold uv_close. rewrite (bind_get_handle _ _ _ _ Eh).
    rewrite bind_assert by (by rewrite is_closing_bits, Hc, (h_closed _ _ _ K)).
    rewrite (bind_upd_handle _ _ _ _ _ Eh), (bind_upd_handle _ _ _ _ _ (put_handle_same _ _ _)).
    rewrite put_put_handle, (bind_get_handle _ _ _ _ (put_handle_same _ _ _)). fold h1.
    rewrite <- E3. apply (bind_done _ (fun _ => uv__make_close_pending p) _ tt l2).
    unfold stop_of in E2. destruct (type h1); unfold uv__timer_close, uv__watcher_close;
      by rewrite (bind_done _ _ _ _ _ E2).
  - split.
    { destruct Hev as [V0 V1 V2 V3 V4]. constructor; [exact V0|exact V1|exact V2|done|exact V4]. }
    split; [by cbn; rewrite Ecl|]. split; [done|]. eexists. split.
    + cbn [handles with_closing put_handle with_handles]. by rewrite Eh2, insert_insert_eq.
    + assert (closing h1 = true) as Hc1 by (unfold h1; bits; reflexivity).
      rewrite Eh2'. split; [by destruct (active h1)|]. split; [by destruct (active h1)|].
      change (closing (set_next_closing ?n ?x)) with (closing x).
      destruct (active h1); [bits|]; exact Hc1.
Qed.

(** ** The start of a timer, active or not *)
Lemma timer_start_spec g l p h c t r :
  loop_ok g l -> p ∈ all_handles g -> handles l !! p = Some h -> type h = UV_TIMER ->
  closing h = false -> c <> 0 ->
  exists g' l' h', uv_timer_start p c t r l = Done 0 l' /\ loop_ok g' l' /\ retimed g g' /\
  handles l' = <[p := h']> (handles l) /\
  type h' = UV_TIMER /\ active h' = true /\ refd h' = refd h /\ closing h' = false /\
  cb h' = c /\ timeout h' = deadline (time l) t /\ repeat h' = r /\ start_id h' = timer_counter l /\
  timer_counter l' = u64 (timer_counter l + 1) /\ time l' = time l /\
  all_handles g' = all_handles g /\ forall q, q ∈ g_timers g' <-> q = p \/ q ∈ g_timers g.
Proof.
  intros Hok Hp Eh Ht Hc Hcb. destruct (active h) eqn:Ha.
  - destruct (timer_stop_spec g l p h Hok Hp Eh Ht Ha) as (tl & hp & E1 & Hperm1 & Hok1).
    destruct (timer_start_active g l p h c t r Hok Hp Eh Ht Ha Hc Hcb) as (l1 & E1' & ->).
    cbv zeta in E1, Hok1. rewrite E1 in E1'. injection E1' as <-. set (l1 := with_active _ _) in *.
    assert (handles l1 !! p = Some (clear_flag UV_HANDLE_ACTIVE h)) as Eh1 by apply lookup_insert_eq.
    destruct (timer_start_idle (with_timers tl g) l1 p _ c t r Hok1 Hp Eh1) as (tl' & hp' & E & Hperm & Hok');
      [done|by bits|bits; exact Hc|done|].
    eexists (with_timers tl' g), _, _. split; [exact E|]. split; [exact Hok'|].
    split; [apply retimed_timers|]. split; [apply insert_insert_eq|].
    split; [done|]. split; [by bits|]. split; [by bits|]. split; [bits; exact Hc|].
    do 7 (split; [done|]). intros q. change (g_timers (with_timers tl' g)) with tl'.
    rewrite Hperm. change (g_timers (with_timers tl g)) with tl. rewrite Hperm1, !elem_of_cons. tauto.
  - destruct (timer_start_idle g l p h c t r) as (tl & hp & E & Hperm & Hok'); [done..|].
    eexists (with_timers tl g), _, _. split; [exact E|]. split; [exact Hok'|].
    split; [apply retimed_timers|]. split; [done|].
    split; [done|]. split; [by bits|]. split; [by bits|]. split; [bits; exact Hc|].
    do 7 (split; [done|]). intros q. change (g_timers (with_timers tl g)) with tl.
    by rewrite Hperm, elem_of_cons.
Qed.

Lemma timer_start_einval p h c t r l :
  handles l !! p = Some h -> closing h || closed h = true \/ c = 0 ->
  uv_timer_start p c t r l = Done UV_EINVAL l.
Proof.
  intros Eh Hor. unfold uv_timer_start. rewrite (bind_get_handle _ _ _ _ Eh), is_closing_bits.
  destruct Hor as [->| ->]; [done|]. by rewrite orb_true_r.
Qed.

(** [uv_timer_again]: an error without a callback; a stop when the timer does
    not repeat is not done; else the timer runs again after its repeat. *)
Lemma timer_again_spec g l p h :
  loop_ok g l -> g_new g = [] -> p ∈ all_handles g -> handles l !! p = Some h -> type h = UV_TIMER ->
  exists g' l', uv_timer_again p l = Done (if cb h =? 0 then UV_EINVAL else 0) l' /\ loop_ok g' l' /\
  retimed g g' /\ all_handles g' = all_handles g /\ time l' = time l /\
  if (cb h =? 0) || (repeat h =? 0) || closing h then l' = l /\ g' = g
  else exists h', handles l' = <[p := h']> (handles l) /\ active h' = true /\ type h' = UV_TIMER /\
    closing h' = false /\
    cb h' = cb h /\ timeout h' = deadline (time l) (repeat h) /\ repeat h' = repeat h /\
    start_id h' = timer_counter l /\ timer_counter l' = u64 (timer_counter l + 1) /\
    forall q, q ∈ g_timers g' <-> q = p \/ q ∈ g_timers g.
Proof.
  intros Hok Hnew Hp Eh Ht. unfold uv_timer_again. rewrite (bind_get_handle _ _ _ _ Eh).
  destruct (Z.eqb_spec (cb h) 0) as [|Hcb]; [by exists g, l|].
  destruct (Z.eqb_spec (repeat h) 0) as [|Hr]; [by exists g, l|]. cbn [negb orb].
  destruct (lo_handles _ _ Hok p Hp) as (h0 & Eh0 & K). rewrite Eh in Eh0. injection Eh0 as <-.
  destruct (stop_spec g l p h Hok Hp Eh)
    as (g1 & l1 & h1 & E1 & Hok1 & Hev1 & Eh1 & Eh1' & Eall & Ecl & Et & _ & Ec & Hwt & Hmem).
  rewrite Ht in E1. cbn [stop_of] in E1.
  assert (handles l1 !! p = Some h1) as El1 by (rewrite Eh1; apply lookup_insert_eq).
  rewrite bind_assoc, (bind_done _ _ _ _ _ E1), bind_assoc, (bind_get_handle _ _ _ _ El1).
  assert (cb h1 = cb h /\ repeat h1 = repeat h /\ type h1 = type h /\ closing h1 = closing h)
    as (-> & -> & Ht1 & Hc1).
  { rewrite Eh1'. destruct (active h); [|done]. repeat split. by bits. }
  destruct (closing h) eqn:Hc.
  - assert (active h = false) as Ha.
    { destruct (active h) eqn:Ha; [|done]. exfalso. apply (h_active _ _ _ K Ha).
      pose proof (proj1 (h_closing _ _ _ K) Hc) as Hin. unfold all_closing in Hin. by rewrite Hnew in Hin. }
    rewrite Ha in Eh1'. subst h1. rewrite (timer_stop_idle p l h Eh Ha) in E1. injection E1 as <-.
    assert (closing h || closed h = true) as Hcc by (by rewrite Hc).
    rewrite bind_assoc, (bind_done _ _ _ _ _ (timer_start_einval _ _ _ _ _ _ Eh (or_introl Hcc))).
    by exists g, l.
  - destruct (timer_start_spec g1 l1 p h1 (cb h) (repeat h) (repeat h))
      as (g' & l' & h' & E & Hok' & Hev & Eh' & V1 & V2 & V3 & V4 & V5 & V6 & V7 & V8 & V9 & V10 & V11 & V12);
      [done|by rewrite Eall|done|congruence|congruence|done|].
    rewrite bind_assoc, (bind_done _ _ _ _ _ E). exists g', l'. split; [done|]. split; [done|].
    split; [transitivity g1; [by constructor; [|apply Hwt|]|done]|]. split; [congruence|]. split; [congruence|].
    exists h'. rewrite Eh', Eh1, insert_insert_eq. rewrite Et in V6. rewrite Ec in V8, V9.
    do 9 (split; [done|]). intros q. rewrite V12.
    destruct (decide (q = p)) as [->|Hne]; [tauto|]. by rewrite (Hmem UV_TIMER q Hne).
Qed.

(** ** The init of a handle, in memory that is no handle of the loop *)
Definition with_main (ml : list Z) (g : shape) : shape :=
  mk_shape (g_mem g) (g_timers g) ml (g_walk g) (g_watch g) (g_run g) (g_new g) (g_closing g) (g_finishing g).

Lemma new_handle_ok g l p h h' m :
  loop_ok g l -> p ∉ all_handles g -> p ∈ g_mem g -> zlen (all_handles g) + 1 < 2 ^ 32 ->
  handles l !! p = Some h -> active h' = false -> closing h' = false -> closed h' = false ->
  QUEUE_INSERT_TAIL handle_queue (handle_node p) (queues l) = Done tt m ->
  loop_ok (with_main (g_main g ++ [p]) g) (put_handle p h' (with_queues m l)).
Proof.
  intros Hok Hn Hmem Hsz Eh Ha Hc Hcd Er. destruct (lo_mapped _ _ Hok p Hmem) as (Hp0 & Hmap & _).
  pose proof (lo_nodup _ _ Hok) as Hnd.
  assert (all_handles (with_main (g_main g ++ [p]) g) ≡ₚ p :: all_handles g) as Hperm.
  { unfold all_handles. cbn. rewrite <- app_assoc. cbn. by rewrite <- Permutation_middle. }
  assert (forall ty, p ∉ members g ty) as Hnm by (by intros ty ?%(lo_members _ _ Hok ty)).
  assert (p ∉ all_closing g) as Hnc by (by intros ?%(lo_closing _ _ Hok)).
  assert (forall q, is_head q = true -> handle_node p ∉ q :: qlist g q) as Hfresh.
  { intros q Hq. rewrite elem_of_cons. intros [<-|Hx]; [done|].
    destruct q; try done; cbn in Hx; apply list_elem_of_fmap in Hx as (p' & Ep & Hx); try discriminate;
      injection Ep as <-; apply Hn; unfold all_handles; rewrite elem_of_app; tauto. }
  destruct (QUEUE_INSERT_TAIL_spec _ _ (handle_node p) _ (p_queues _ _ (lo_parts _ _ Hok) handle_queue eq_refl)
    (Hfresh handle_queue eq_refl)) as (m0 & Er0 & Hq & Hch).
  { apply fmap_is_Some, Hmap. }
  rewrite Er in Er0. injection Er0 as <-.
  constructor.
  - destruct (lo_parts _ _ Hok) as [P1 P2 P3 P4]. constructor.
    + apply (timers_insert _ _ h); [done| |done]. left. apply (Hnm UV_TIMER).
    + eapply (queues_update g _ l _ handle_queue); [done|done| |exact Hch| |].
      * cbn. by rewrite fmap_app.
      * by intros [] ? ?.
      * intros q' x Hq' Hne [->|Hx]%elem_of_cons; [by apply Hfresh|].
        by apply (queues_disjoint _ _ handle_queue q' x Hok).
    + apply (closing_insert _ _ h); [done| |done]. left. intros Hin. apply Hnc.
      unfold all_closing, linked_closing. rewrite !elem_of_app. tauto.
    + apply (closing_insert _ _ h); [done| |done]. left. intros Hin. apply Hnc.
      unfold all_closing, linked_closing. rewrite !elem_of_app. tauto.
  - rewrite Hperm. by apply NoDup_cons.
  - intros ty. destruct (lo_members _ _ Hok ty) as [H1 H2].
    split; [exact H1|]. intros q Hq'. rewrite Hperm. right. by apply H2.
  - destruct (lo_closing _ _ Hok) as [H1 H2]. split; [exact H1|]. intros q Hq'. rewrite Hperm. right. by apply H2.
  - intros q. rewrite Hperm. intros [->|Hq']%elem_of_cons.
    + exists h'. split; [apply lookup_insert_eq|]. constructor; [done| |congruence|done|].
      * intros ty. rewrite Ha. split; [by intros ?%Hnm|by intros [_ ?]].
      * rewrite Hc. split; [done|]. by intros ?%Hnc.
    + destruct (lo_handles _ _ Hok q Hq') as (hq & Ehq & K). exists hq. split; [|by destruct K].
      cbn. rewrite lookup_insert_ne; [done|]. by intros ->.
  - intros q. rewrite Hperm. intros [->|Hq']%elem_of_cons; [done|]. by apply (lo_mem _ _ Hok).
  - intros q Hq'. destruct (lo_mapped _ _ Hok q Hq') as (H0 & (H1 & H2 & H3) & H4). split; [done|].
    split; [split; [done|]; split; by apply (changes_mapped _ _ _ Hch)|].
    apply lookup_insert_is_Some'. by right.
  - rewrite Hperm, count_cons. unfold counted at 1. cbn [handles put_handle with_handles with_queues].
    rewrite lookup_insert_eq, Ha. cbn [andb Z.b2z]. rewrite Z.add_0_l.
    transitivity (active_handles l); [done|]. rewrite (lo_active _ _ Hok). apply count_ext. intros q Hq'.
    unfold counted. rewrite lookup_insert_ne; [done|]. by intros ->.
  - unfold zlen. rewrite Hperm. cbn [length]. unfold zlen in Hsz. lia.
Qed.

Lemma handle_init_run g l p h ty :
  loop_ok g l -> p ∉ all_handles g -> node_mapped l p -> handles l !! p = Some h ->
  exists m, QUEUE_INSERT_TAIL handle_queue (handle_node p) (queues l) = Done tt m /\
  uv__handle_init p ty l =
  Done tt (put_handle p (set_next_closing 0 (set_flags UV_HANDLE_REF (set_type ty h))) (with_queues m l)).
Proof.
  intros Hok Hn Hmap Eh.
  destruct (QUEUE_INSERT_TAIL_spec _ _ (handle_node p) _ (p_queues _ _ (lo_parts _ _ Hok) handle_queue eq_refl))
    as (m & Er & _ & _).
  { rewrite elem_of_cons. intros [|Hx]; [done|]. cbn in Hx. apply list_elem_of_fmap in Hx as (p' & Ep & Hx).
    injection Ep as <-. apply Hn. apply elem_of_app. by left. }
  { apply fmap_is_Some, Hmap. }
  exists m. split; [done|]. unfold uv__handle_init.
  rewrite (bind_upd_handle _ _ _ _ _ Eh), (bind_upd_handle _ _ _ _ _ (put_handle_same _ _ _)), put_put_handle.
  rewrite (bind_on_queues _ tt m) by exact Er.
  rewrite (upd_handle_run _ _ (set_flags UV_HANDLE_REF (set_type ty h))) by apply lookup_insert_eq.
  unfold put_handle. cbn. by rewrite insert_insert_eq.
Qed.

(** [uv_timer_init], [uv_prepare_init], ... *)
Definition init_of (ty : uv_handle_type) (p : Z) : L Z :=
  match ty with UV_TIMER => uv_timer_init p | UV_WATCHER w => uv_watcher_init w p end.

Lemma init_spec g l p h ty :
  loop_ok g l -> p ∉ all_handles g -> p ∈ g_mem g -> zlen (all_handles g) + 1 < 2 ^ 32 ->
  handles l !! p = Some h ->
  exists l' h', init_of ty p l = Done 0 l' /\ loop_ok (with_main (g_main g ++ [p]) g) l' /\
  handles l' = <[p := h']> (handles l) /\ type h' = ty /\ flags h' = UV_HANDLE_REF /\ cb h' = 0 /\
  active_handles l' = active_handles l.
Proof.
  intros Hok Hn Hmem Hsz Eh.
  destruct (handle_init_run g l p h ty Hok Hn (proj1 (proj2 (lo_mapped _ _ Hok p Hmem))) Eh) as (m & Er & E).
  set (h1 := set_next_closing 0 _) in E.
  set (h' := match ty with UV_TIMER => set_repeat 0 (set_cb 0 h1) | UV_WATCHER _ => set_cb 0 h1 end).
  exists (put_handle p h' (with_queues m l)), h'. split.
  - destruct ty; cbn [init_of]; unfold uv_timer_init, uv_watcher_init; rewrite (bind_done _ _ _ _ _ E).
    + rewrite !(bind_upd_handle _ _ _ _ _ (put_handle_same _ _ _)). by rewrite !put_put_handle.
    + rewrite !(bind_upd_handle _ _ _ _ _ (put_handle_same _ _ _)). by rewrite !put_put_handle.
  - split; [|by destruct ty].
    apply (new_handle_ok g l p h h' m); try done; unfold h'; by destruct ty.
Qed.
