(* ===== verification/UvLogic.v ===== *)
(** A unary program logic for the outcome monad: [gives F m s Q] says that [m] from
    [s] returns with [Q], or runs out of fuel where [F] allows it, or aborts in a
    state in which the program may; it is never undefined, which a failed assert
    is.  [gives False] is total correctness up to [abort()], [gives True] safety. *)
From S2P Require Import Prelude.
From S2P Require Import UvLoop.

(** The states that a call of [abort()] may leave. *)
Class Abort (S : Type) : Type := may_abort : S -> Prop.

(** Programs that do not call it. *)
Definition no_abort {S} : Abort S := fun _ => False.

Definition gives {S A} {Ab : Abort S} (F : Prop) (m : M S A) (s : S) (Q : A -> S -> Prop) : Prop :=
  match m s with
  | Done a t => Q a t
  | OutOfFuel => F
  | Fail t => may_abort t
  | Undef _ => False
  end.

Section Rules.
Context {S : Type} {Ab : Abort S}.
Implicit Types (F : Prop) (s : S).

Lemma gives_mono {A} F (m : M S A) s (Q R : A -> S -> Prop) :
  gives F m s Q -> (forall a t, Q a t -> R a t) -> gives F m s R.
Proof. unfold gives. destruct (m s); auto. Qed.

(** Another program that ends in the same way. *)
Lemma gives_eq {A} F (m : M S A) s m' s' (Q : A -> S -> Prop) : m s = m' s' -> gives F m' s' Q -> gives F m s Q.
Proof. unfold gives. by intros ->. Qed.

Lemma gives_aborted {A} F s (Q : A -> S -> Prop) : may_abort s -> gives F aborted s Q.
Proof. done. Qed.

Lemma gives_bind {A B} F (m : M S A) (k : A -> M S B) s Q :
  gives F m s (fun a t => gives F (k a) t Q) -> gives F (bind m k) s Q.
Proof. unfold gives, bind. by destruct (m s). Qed.

(** The rule of composition: the result of [m] by its own theorem. *)
Lemma gives_seq {A B} F (m : M S A) (k : A -> M S B) s R Q :
  gives F m s R -> (forall a t, R a t -> gives F (k a) t Q) -> gives F (bind m k) s Q.
Proof. intros Hm Hk. apply gives_bind. by eapply gives_mono. Qed.

Lemma gives_ret {A} F (a : A) s (Q : A -> S -> Prop) : Q a s -> gives F (ret a) s Q.
Proof. done. Qed.

Lemma gives_done {A} F (m : M S A) s a t (Q : A -> S -> Prop) : m s = Done a t -> Q a t -> gives F m s Q.
Proof. unfold gives. by intros ->. Qed.

Lemma gives_step {A B} F (m : M S A) (k : A -> M S B) s a t Q :
  m s = Done a t -> gives F (k a) t Q -> gives F (bind m k) s Q.
Proof. intros E H. apply gives_bind. by apply (gives_done _ _ _ _ _ _ E). Qed.

(** One result, where the program does not abort. *)
Definition ends {A} (a : A) s : A -> S -> Prop := fun b t => b = a /\ t = s.

Lemma gives_ends {A B} F (m : M S A) (k : A -> M S B) s a t Q :
  gives F m s (ends a t) -> gives F (k a) t Q -> gives F (bind m k) s Q.
Proof. intros Hm Hk. eapply gives_seq; [exact Hm|]. by intros ? ? [-> ->]. Qed.

Lemma gives_fuel {A} F (m : M S A) s (Q : A -> S -> Prop) : gives False m s Q -> gives F m s Q.
Proof. unfold gives. by destruct (m s). Qed.

Lemma gives_assert {B} F b (k : unit -> M S B) s Q : b = true -> gives F (k tt) s Q -> gives F (bind (assert b) k) s Q.
Proof. by intros ->. Qed.

(** Total correctness gives the run. *)
Lemma gives_run {A} (m : M S A) s (Q : A -> S -> Prop) :
  gives False m s Q -> (exists a t, m s = Done a t /\ Q a t) \/ exists t, m s = Fail t /\ may_abort t.
Proof. unfold gives. destruct (m s) as [a t|t|u|]; try done; [left|right]; eauto. Qed.
End Rules.

Lemma gives_if {S A} {Ab : Abort S} F (b : bool) (m n : M S A) s Q :
  (b = true -> gives F m s Q) -> (b = false -> gives F n s Q) -> gives F (if b then m else n) s Q.
Proof. destruct b; auto. Qed.

Lemma gives_no_abort {S A} (m : M S A) s (Q : A -> S -> Prop) :
  gives (Ab := no_abort) False m s Q -> exists a t, m s = Done a t /\ Q a t.
Proof. intros [Hd|(t & _ & [])]%gives_run. exact Hd. Qed.
