(* ===== verification/UvRunProofs.v ===== *)
(** libuv, the loops that call back: the timers that fire, the watchers that
    run, the handles whose close completes. *)
From S2P Require Import Prelude.
From S2P Require Import UvHeap.
From S2P Require Import UvHeapOrder.
From S2P Require Import UvHeapProofs.
From S2P Require Import UvQueue.
From S2P Require Import UvQueueProofs.
From S2P Require Import UvLoop.
From S2P Require Import UvTimer.
From S2P Require Import UvRun.
From S2P Require Import UvLoopInv.
From S2P Require Import UvLoopOps.
From S2P Require Import UvLogic.
From Stdlib Require Import Sorting.Sorted.
#[local] Set Warnings "-clear-no-such-hyp".

Lemma bind_on_loop {App A B} (m : L A) a l l' (s : App) (k : A -> R B) :
  m l = Done a l' -> bind (on_loop m) k (l, s) = k a (l', s).
Proof. intros E. unfold bind, on_loop, in_part. cbn [fst snd]. by rewrite E. Qed.

Lemma on_loop_run {App A} (m : L A) a l l' (s : App) : m l = Done a l' -> on_loop m (l, s) = Done a (l', s).
Proof. intros E. unfold on_loop, in_part. cbn [fst snd]. by rewrite E. Qed.

(** Callbacks that leave the loop alone: what they do to the application. *)
Definition quiet {App} (call : Z -> Z -> @R App unit) (note : Z -> Z -> App -> App) : Prop :=
  forall f p l a, call f p (l, a) = Done tt (l, note f p a).

(** ** The minimum of the timers *)
Lemma heap_min_run g l :
  loop_ok g l -> on_heap heap_min l = Done (pos (g_timers g) 1) l /\
  (g_timers g = [] <-> pos (g_timers g) 1 = 0) /\
  (g_timers g <> [] -> pos (g_timers g) 1 ∈ g_timers g /\
   forall q, q ∈ g_timers g -> timer_less_than (handles l) q (pos (g_timers g) 1) = false).
Proof.
  intros Hok. destruct (heap_min_spec _ _ _ (p_heap _ _ (lo_parts _ _ Hok))) as (E & E0 & Em).
  split; [|done]. unfold on_heap, in_part. rewrite E. by rewrite with_heap_id.
Qed.

Lemma timer_handle g l p :
  loop_ok g l -> p ∈ g_timers g ->
  p ∈ all_handles g /\ exists h, handles l !! p = Some h /\ type h = UV_TIMER /\ active h = true /\
  cb h <> 0 /\ handle_ok g p h.
Proof.
  intros Hok Hp. destruct (lo_members _ _ Hok UV_TIMER) as [_ Hs]. split; [by apply Hs|].
  destruct (lo_handles _ _ Hok p (Hs p Hp)) as (h & Eh & K). exists h. split; [done|].
  destruct (proj1 (h_members _ _ _ K UV_TIMER) Hp) as [Ht Ha]. split; [done|]. split; [done|].
  split; [|done]. by apply (h_active _ _ _ K).
Qed.

(** Without a [uv_close] in progress, the active handles are not closing. *)
Lemma active_not_closing g p h :
  g_new g = [] -> handle_ok g p h -> active h = true -> closing h = false.
Proof.
  intros Hn K Ha. destruct (closing h) eqn:Hc; [|done]. exfalso.
  pose proof (proj1 (h_closing _ _ _ K) Hc) as Hin. unfold all_closing in Hin. rewrite Hn in Hin.
  by apply (h_active _ _ _ K Ha).
Qed.

(** ** One timer fires: [uv_timer_stop] and [uv_timer_again] *)
Definition rearmed (now : Z) (h h' : uv_handle) : Prop :=
  if repeat h =? 0 then active h' = false
  else active h' = true /\ timeout h' = deadline now (repeat h).

Lemma fire_step g l p h :
  loop_ok g l -> g_new g = [] -> p ∈ g_timers g -> handles l !! p = Some h ->
  exists l0 g' l' h', uv_timer_stop p l = Done 0 l0 /\ uv_timer_again p l0 = Done 0 l' /\
  loop_ok g' l' /\ retimed g g' /\ all_handles g' = all_handles g /\ time l' = time l /\
  handles l' = <[p := h']> (handles l) /\ type h' = UV_TIMER /\ cb h' = cb h /\
  repeat h' = repeat h /\ rearmed (time l) h h' /\
  forall q, q <> p -> q ∈ g_timers g' <-> q ∈ g_timers g.
Proof.
  intros Hok Hn Hp Eh. destruct (timer_handle _ _ _ Hok Hp) as (Hall & h0 & Eh0 & Ht & Ha & Hcb & K).
  rewrite Eh in Eh0. injection Eh0 as <-. pose proof (active_not_closing _ _ _ Hn K Ha) as Hc.
  destruct (timer_stop_spec _ _ _ _ Hok Hall Eh Ht Ha) as (tl & hp & E0 & Hperm & Hok0). cbv zeta in *.
  set (l0 := with_active _ _) in *. set (h1 := clear_flag UV_HANDLE_ACTIVE h) in *.
  assert (handles l0 = <[p := h1]> (handles l)) as El0 by done.
  assert (handles l0 !! p = Some h1) as Eh1 by (rewrite El0; apply lookup_insert_eq).
  destruct (timer_again_spec (with_timers tl g) l0 p h1 Hok0 Hn Hall Eh1 Ht)
    as (g' & l' & E & Hok' & Hev & Eall & Et & Hcase).
  assert (forall q, q <> p -> q ∈ tl <-> q ∈ g_timers g) as Htl.
  { intros q Hq. rewrite Hperm, elem_of_cons. tauto. }
  change (cb h1) with (cb h) in *. change (repeat h1) with (repeat h) in *.
  rewrite (proj2 (Z.eqb_neq (cb h) 0) Hcb) in E, Hcase.
  assert (closing h1 = false) as Hc1 by (unfold h1; by bits). rewrite Hc1 in Hcase. cbn [orb] in Hcase.
  rewrite orb_false_r in Hcase. unfold rearmed.
  destruct (Z.eqb_spec (repeat h) 0) as [Hr|Hr].
  - destruct Hcase as [-> ->]. exists l0, (with_timers tl g), l0, h1. split; [done|]. split; [done|].
    split; [done|]. split; [apply retimed_timers|]. do 6 (split; [done|]).
    split; [unfold h1; by bits|done].
  - destruct Hcase as (h' & Eh' & V1 & V2 & _ & V3 & V4 & V5 & _ & _ & V8).
    exists l0, g', l', h'. split; [done|]. split; [done|]. split; [done|].
    split; [transitivity (with_timers tl g); [apply retimed_timers|done]|]. split; [done|]. split; [done|].
    split; [by rewrite Eh', El0, insert_insert_eq|]. split; [done|]. split; [done|]. split; [done|].
    split; [done|]. intros q Hq. rewrite V8. cbn. rewrite Htl by done. tauto.
Qed.

(** ** The timers that are due *)
Definition due (l : uv_loop) (p : Z) : bool := timeout_of (handles l) p <=? time l.

Definition no_later (hs : gmap Z uv_handle) (p q : Z) : Prop := timer_less_than hs q p = false.

Lemma sorted_ext {A} (P Q : A -> A -> Prop) ds :
  (forall x y, x ∈ ds -> y ∈ ds -> P x y -> Q x y) -> StronglySorted P ds -> StronglySorted Q ds.
Proof.
  induction ds as [|x ds IH]; intros HPQ Hs; [constructor|]. apply StronglySorted_inv in Hs as [Hs Hx].
  constructor.
  - apply IH; [|done]. intros y z Hy Hz. apply HPQ; by right.
  - rewrite !Forall_forall in *. intros y Hy. apply HPQ; [by left|by right|by apply Hx].
Qed.

Lemma timeout_of_insert hs p h q :
  timeout_of (<[p := h]> hs) q = if decide (q = p) then timeout h else timeout_of hs q.
Proof.
  unfold timeout_of. case_decide as E; [subst; by rewrite lookup_insert_eq|by rewrite lookup_insert_ne].
Qed.

Lemma less_insert hs p h a b :
  a <> p -> b <> p -> timer_less_than (<[p := h]> hs) a b = timer_less_than hs a b.
Proof.
  intros Ha Hb. apply timer_less_ext; unfold timeout_of, start_id_of; by rewrite lookup_insert_ne.
Qed.

Lemma less_timeout hs a b : timer_less_than hs a b = false -> timeout_of hs b <= timeout_of hs a.
Proof.
  unfold timer_less_than. destruct (Z.ltb_spec (timeout_of hs a) (timeout_of hs b)); [done|lia].
Qed.

(** The repeats are of [uint64_t]. *)
Definition repeats_ok (l : uv_loop) : Prop :=
  forall p h, handles l !! p = Some h -> 0 <= repeat h < 2 ^ 64.

Section Quiet.
Context {App : Type} (call : Z -> Z -> @R App unit) (note : Z -> Z -> App -> App).
Hypothesis Hquiet : quiet call note.

Definition fire (hs : gmap Z uv_handle) (p : Z) (a : App) : App :=
  match hs !! p with Some h => note (cb h) p a | None => a end.

Lemma fire_ext hs hs' ds a :
  (forall p, p ∈ ds -> cb <$> hs' !! p = cb <$> hs !! p) ->
  foldl (fun a p => fire hs' p a) a ds = foldl (fun a p => fire hs p a) a ds.
Proof.
  revert a. induction ds as [|p ds IH]; intros a E; [done|]. cbn. rewrite IH by (intros; apply E; by right).
  f_equal. unfold fire. specialize (E p ltac:(by left)). destruct (hs' !! p), (hs !! p); try done.
  cbn in E. congruence.
Qed.

Lemma run_timers_spec fuel g l a :
  loop_ok g l -> g_new g = [] -> 0 <= time l < 2 ^ 64 - 1 -> repeats_ok l ->
  count (due l) (g_timers g) < Z.of_nat fuel ->
  exists g' l' ds,
    uv__run_timers call fuel (l, a) = Done tt (l', foldl (fun a p => fire (handles l) p a) a ds) /\
    loop_ok g' l' /\ retimed g g' /\ time l' = time l /\
    NoDup ds /\ (forall p, p ∈ ds <-> p ∈ g_timers g /\ due l p = true) /\
    StronglySorted (no_later (handles l)) ds /\
    (forall p, p ∈ g_timers g' -> due l' p = false) /\
    (forall p, p ∉ ds -> handles l' !! p = handles l !! p) /\
    (forall p h, p ∈ ds -> handles l !! p = Some h ->
       exists h', handles l' !! p = Some h' /\ rearmed (time l) h h').
Proof.
  unfold uv__run_timers. revert g l a. induction fuel as [|fuel IH]; intros g l a Hok Hn Ht Hrep Hfuel.
  { pose proof (count_bounds (due l) (g_timers g)). lia. }
  cbn [run_timers_loop]. destruct (heap_min_run _ _ Hok) as (Emin & Enil & Hmin).
  rewrite (bind_on_loop _ _ _ _ _ _ Emin). set (p := pos (g_timers g) 1) in *.
  assert ((forall q, q ∈ g_timers g -> due l q = false) ->
    exists g' l' ds, Done tt (l, a) = Done tt (l', foldl (fun a p => fire (handles l) p a) a ds) /\
    loop_ok g' l' /\ retimed g g' /\ time l' = time l /\
    NoDup ds /\ (forall p, p ∈ ds <-> p ∈ g_timers g /\ due l p = true) /\
    StronglySorted (no_later (handles l)) ds /\
    (forall p, p ∈ g_timers g' -> due l' p = false) /\
    (forall p, p ∉ ds -> handles l' !! p = handles l !! p) /\
    (forall p h, p ∈ ds -> handles l !! p = Some h ->
       exists h', handles l' !! p = Some h' /\ rearmed (time l) h h')) as Stop.
  { intros Hnd. exists g, l, []. split; [done|]. split; [done|]. split; [done|]. split; [done|].
    split; [constructor|]. split; [|split; [constructor|split; [done|split; [done|]]]].
    - intros q. split; [by intros ?%elem_of_nil|]. intros [Hq Hd]. by rewrite Hnd in Hd.
    - by intros ? ? ?%elem_of_nil. }
  destruct (Z.eqb_spec p 0) as [E0|E0].
  { apply Stop. intros q Hq. apply Enil in E0. rewrite E0 in Hq. by apply elem_of_nil in Hq. }
  assert (g_timers g <> []) as Hne by (intros E; by apply Enil in E).
  destruct (Hmin Hne) as [Hp Hleast].
  destruct (timer_handle _ _ _ Hok Hp) as (Hall & h & Eh & _ & _ & Hcb & _).
  rewrite (bind_on_loop _ _ _ _ _ _ (get_handle_run _ _ _ Eh)).
  rewrite (bind_on_loop (gets time) (time l) l l) by done.
  destruct (Z.ltb_spec (time l) (timeout h)) as [Hlate|Hdue].
  { apply Stop. intros q Hq. apply Z.leb_gt. specialize (Hleast q Hq). apply less_timeout in Hleast.
    unfold timeout_of at 1 in Hleast. rewrite Eh in Hleast. lia. }
  destruct (fire_step g l p h Hok Hn Hp Eh)
    as (l0 & g1 & l1 & h1 & E1 & E2 & Hok1 & Hev1 & Eall & Et & Eh1 & Hty & Ecb & Erep & Hre & Hmem).
  rewrite (bind_on_loop _ _ _ _ _ _ E1), (bind_on_loop _ _ _ _ _ _ E2).
  assert (handles l1 !! p = Some h1) as Ehp by (rewrite Eh1; apply lookup_insert_eq).
  rewrite (bind_on_loop _ _ _ _ _ _ (get_handle_run _ _ _ Ehp)).
  unfold call_ptr. rewrite Ecb, (proj2 (Z.eqb_neq (cb h) 0) Hcb).
  rewrite (bind_done _ _ _ _ _ (Hquiet _ _ _ _)).
  pose proof (Hrep p h Eh) as Hrp.
  assert (forall q, due l1 q = due l q \/ q = p) as Hdue1.
  { intros q. destruct (decide (q = p)) as [->|Hq]; [by right|left]. unfold due.
    by rewrite Et, Eh1, timeout_of_insert, decide_False. }
  assert (p ∈ g_timers g1 -> due l1 p = false) as Hpd.
  { intros Hin. destruct (timer_handle _ _ _ Hok1 Hin) as (_ & h2 & Eh2 & _ & Ha & _).
    rewrite Ehp in Eh2. injection Eh2 as <-. unfold rearmed in Hre.
    destruct (Z.eqb_spec (repeat h) 0); [congruence|]. destruct Hre as [_ Eto].
    unfold due. rewrite Eh1, timeout_of_insert, decide_True, Et, Eto, deadline_min by lia.
    apply Z.leb_gt. lia. }
  assert (due l p = true) as Hdp.
  { unfold due, timeout_of. rewrite Eh. by apply Z.leb_le. }
  assert (count (due l1) (g_timers g1) + 1 = count (due l) (g_timers g)) as Hcount.
  { apply (count_less _ _ p); [apply (lo_members _ _ Hok UV_TIMER)|apply (lo_members _ _ Hok1 UV_TIMER)|done|done|done| |done].
    intros q Hq. by destruct (Hdue1 q). }
  destruct (IH g1 l1 (note (cb h) p a) Hok1) as (g' & l' & ds & E & Hok' & Hev' & Et' & Hnds & Hds & Hsort & Hnone & Hout & Hin).
  { by rewrite (ev_new _ _ (rt_evolves _ _ Hev1)). }
  { by rewrite Et. }
  { intros q hq. rewrite Eh1. destruct (decide (q = p)) as [->|Hq].
    - rewrite lookup_insert_eq. intros [= <-]. by rewrite Erep.
    - rewrite lookup_insert_ne by done. apply Hrep. }
  { lia. }
  assert (p ∉ ds) as Hpds.
  { intros [Hp1 Hp2]%Hds. rewrite (Hpd Hp1) in Hp2. done. }
  exists g', l', (p :: ds). split; [|split; [done|split; [by transitivity g1|]]].
  { rewrite E. cbn [foldl]. f_equal. f_equal. rewrite (fire_ext (handles l) (handles l1)).
    - f_equal. unfold fire. by rewrite Eh.
    - intros q Hq. rewrite Eh1, lookup_insert_ne; [done|]. by intros ->. }
  split; [congruence|]. split; [by apply NoDup_cons|].
  assert (forall q, q ∈ ds -> q <> p /\ q ∈ g_timers g /\ due l q = true) as Hds'.
  { intros q Hq. assert (q <> p) as Hqp by (by intros ->). apply Hds in Hq as [Hq1 Hq2].
    split; [done|]. split; [by apply Hmem|]. by destruct (Hdue1 q) as [<-|]. }
  split.
  { intros q. rewrite elem_of_cons. split.
    - intros [->|Hq]; [done|]. by apply Hds'.
    - intros [Hq1 Hq2]. destruct (decide (q = p)) as [->|Hqp]; [by left|right].
      apply Hds. split; [by apply Hmem|]. by destruct (Hdue1 q) as [->|]. }
  split.
  { constructor.
    - apply (sorted_ext (no_later (handles l1))); [|done]. intros x y Hx Hy. unfold no_later.
      rewrite Eh1, less_insert; [done|apply Hds'..]; done.
    - apply Forall_forall. intros q Hq. apply Hleast. by apply Hds'. }
  split; [done|]. split.
  { intros q. rewrite not_elem_of_cons. intros [Hq1 Hq2]. rewrite Hout by done.
    by rewrite Eh1, lookup_insert_ne. }
  intros q hq [->|Hq]%elem_of_cons Ehq.
  - rewrite Eh in Ehq. injection Ehq as <-. exists h1. by rewrite Hout.
  - destruct (Hds' q Hq) as [Hqp _]. rewrite <- Et. apply Hin; [done|].
    by rewrite Eh1, lookup_insert_ne.
Qed.
End Quiet.

(** ** A node that goes from one queue to another one *)
Lemma queue_not_empty (q x : qptr) k m :
  queue m q (x :: k) -> QUEUE_EMPTY q m = Done false m /\ QUEUE_HEAD q m = Done x m.
Proof.
  intros Hq. split; [|by eapply QUEUE_HEAD_spec]. rewrite (QUEUE_EMPTY_spec _ _ _ Hq).
  by rewrite bool_decide_false.
Qed.

Lemma node_move g g' g'' l q q' x k k' :
  loop_ok g l -> is_head q = true -> is_head q' = true -> q <> q' ->
  qlist g q = x :: k -> qlist g' q = k -> qlist g q' = k' -> qlist g'' q' = k' ++ [x] ->
  (forall r, is_head r = true -> r <> q -> qlist g' r = qlist g r) ->
  (forall r, is_head r = true -> r <> q' -> qlist g'' r = qlist g' r) ->
  exists m m', QUEUE_REMOVE x (queues l) = Done tt m /\ QUEUE_INSERT_TAIL q' x m = Done tt m' /\
  queues_ok g'' m' /\ forall y, is_Some (queues l !! y) -> is_Some (m' !! y).
Proof.
  intros Hok Hq Hq' Hne E E1 E2 E3 Hs1 Hs2.
  destruct (node_remove g g' l q x [] k Hok Hq E E1 Hs1) as (m & Er & Hqs & Hmap).
  assert (is_head x = false) as Hx.
  { assert (x ∈ qlist g q) as Hin by (rewrite E; by left).
    destruct q; try done; cbn in Hin; by apply list_elem_of_fmap in Hin as (? & -> & _). }
  assert (forall r, is_head r = true -> x ∉ r :: qlist g' r) as Hfresh.
  { intros r Hr. destruct (decide (r = q)) as [->|Hrq].
    - rewrite E1. pose proof (queue_nodup _ _ _ (p_queues _ _ (lo_parts _ _ Hok) q Hq)) as Hd.
      rewrite E in Hd. rewrite elem_of_cons. intros [->|Hin]; [congruence|].
      apply NoDup_cons in Hd as [_ Hd]. by apply NoDup_cons in Hd as [Hd _].
    - rewrite Hs1 by done. apply (queues_disjoint _ _ q r x Hok); [done..|by intros ->|].
      rewrite E. set_solver. }
  pose proof (Hqs q' Hq') as Hqq. assert (is_Some (nxt m x)) as Hmx.
  { apply fmap_is_Some, Hmap. pose proof (p_queues _ _ (lo_parts _ _ Hok) q Hq) as Hqx. rewrite E in Hqx.
    eapply fmap_is_Some, (queue_mapped _ _ _ x Hqx). set_solver. }
  destruct (QUEUE_INSERT_TAIL_spec _ _ x _ Hqq (Hfresh q' Hq') Hmx) as (m' & Ei & Hqi & Hch).
  exists m, m'. split; [done|]. split; [done|]. split.
  - apply (queues_change g' g'' m m' q' (x :: q' :: qlist g' q')); [done| |done|done|].
    + rewrite E3. rewrite Hs1, E2 in Hqi by congruence. done.
    + intros r y Hr Hrq [->|Hy]%elem_of_cons; [by apply Hfresh|]. intros Hy'.
      destruct (decide (r = q)) as [->|Hrq'].
      * rewrite E1 in Hy'. rewrite Hs1 in Hy by congruence.
        apply (queues_disjoint _ _ q' q y Hok); [done..|by intros ->|done|]. rewrite E. set_solver.
      * rewrite Hs1 in Hy' by done. rewrite Hs1 in Hy by congruence.
        by apply (queues_disjoint _ _ q' r y Hok); [done..|by intros ->|done|].
  - intros y Hy. apply (changes_mapped _ _ _ Hch). by apply Hmap.
Qed.

(** ** The queues alone change *)
Lemma loop_ok_queues g g' l m :
  loop_ok g l -> queues_ok g' m -> (forall y, is_Some (queues l !! y) -> is_Some (m !! y)) ->
  g_mem g' = g_mem g -> g_timers g' = g_timers g -> all_handles g' ≡ₚ all_handles g ->
  (forall ty, members g' ty ≡ₚ members g ty) ->
  g_new g' = g_new g -> g_closing g' = g_closing g -> g_finishing g' = g_finishing g ->
  loop_ok g' (with_queues m l).
Proof.
  intros [Hpa Hnd Hme Hcl Hha Hmm Hma Hac Hsz] Hq Hmap Emem Et Eall Em En Ec Ef.
  assert (all_closing g' = all_closing g /\ linked_closing g' = linked_closing g) as [Eac Elc].
  { unfold all_closing, linked_closing. by rewrite En, Ec, Ef. }
  constructor.
  - destruct Hpa. constructor; cbn; rewrite ?Et, ?Ec, ?Ef; done.
  - by rewrite Eall.
  - intros ty. rewrite Em. destruct (Hme ty) as [H1 H2]. split; [done|]. intros p. rewrite Em, Eall. apply H2.
  - rewrite Eac. split; [apply Hcl|]. intros p. rewrite Eall. apply Hcl.
  - intros p. rewrite Eall. intros Hp. destruct (Hha p Hp) as (h & Eh & [K1 K2 K3 K4 K5]). exists h.
    split; [done|]. constructor; [done| |by rewrite Elc|done|by rewrite Eac]. intros ty. rewrite Em. apply K2.
  - intros p. rewrite Eall, Emem. apply Hmm.
  - intros p. rewrite Emem. intros Hp. destruct (Hma p Hp) as (H0 & (H1 & H2 & H3) & H4). split; [done|].
    split; [|done]. split; [done|]. split; by apply Hmap.
  - rewrite Eall. apply Hac.
  - unfold zlen. rewrite Eall. apply Hsz.
Qed.

(** ** The watchers *)
Lemma members_watch_perm w wl rl g ty :
  wl ++ rl ≡ₚ g_watch g w ++ g_run g w -> members (with_watch w wl rl g) ty ≡ₚ members g ty.
Proof. intros Hp. rewrite members_with_watch. by case_decide as E; [rewrite E|]. Qed.

(** The local queue of a function that is not running is empty. *)
Lemma local_queue_run g l q :
  loop_ok g l -> is_head q = true -> qlist g q = [] -> local_queue q l = Done tt l.
Proof.
  intros Hok Hq E. pose proof (p_queues _ _ (lo_parts _ _ Hok) q Hq) as Hqq. rewrite E in Hqq.
  destruct (queue_head_link _ _ _ Hqq) as [En Ep]. unfold nxt, prv in En, Ep. cbn in En, Ep.
  unfold local_queue, modify. rewrite insert_id; [by rewrite with_queues_id|].
  destruct (queues l !! q) as [[n p]|]; [|done]. cbn in En, Ep. congruence.
Qed.

(** The watchers pass to the local queue. *)
Lemma watchers_move g l w :
  loop_ok g l -> g_run g w = [] ->
  exists m, QUEUE_MOVE (watcher_handles w) (run_queue w) (queues l) = Done tt m /\
  loop_ok (with_watch w [] (g_watch g w) g) (with_queues m l).
Proof.
  intros Hok Hr.
  pose proof (p_queues _ _ (lo_parts _ _ Hok) (watcher_handles w) eq_refl) as Hq.
  pose proof (p_queues _ _ (lo_parts _ _ Hok) (run_queue w) eq_refl) as Hqr.
  destruct (QUEUE_MOVE_spec _ _ (run_queue w) _ Hq) as (m & Er & Hq1 & Hq2 & Hch).
  { apply (queues_disjoint _ _ (run_queue w) (watcher_handles w) _ Hok); [done..|by left]. }
  { apply (queue_mapped _ _ _ _ Hqr). by left. }
  exists m. split; [done|]. apply (loop_ok_queues g); try done.
  - intros q Hh. destruct (decide (q = watcher_handles w)) as [->|H1]; [|destruct (decide (q = run_queue w)) as [->|H2]].
    + cbn. by rewrite upd_watcher_same.
    + cbn. by rewrite upd_watcher_same.
    + rewrite qlist_with_watch by done. apply (queue_frame (queues l)); [by apply (p_queues _ _ (lo_parts _ _ Hok))|].
      intros x Hx. apply (ch_out _ _ _ Hch). intros [->|Hin]%elem_of_cons.
      * by apply (queues_disjoint _ _ q (run_queue w) _ Hok Hh eq_refl H2 Hx); left.
      * by apply (queues_disjoint _ _ q (watcher_handles w) _ Hok Hh eq_refl H1 Hx).
  - intros y. by apply (changes_mapped _ _ _ Hch).
  - intros ty. apply members_watch_perm. by rewrite Hr, app_nil_r.
Qed.

(** One turn: the watcher [p] goes back to the loop, its callback is called. *)
Lemma watchers_turn {App} (call : Z -> Z -> @R App unit) g l w p rest fuel a :
  loop_ok g l -> g_run g w = p :: rest ->
  exists m h,
    run_watchers_loop call w (S fuel) (l, a) =
      (call (cb h) p;;; run_watchers_loop call w fuel) (with_queues m l, a) /\
    loop_ok (with_watch w (g_watch g w ++ [p]) rest g) (with_queues m l) /\
    handles l !! p = Some h /\ p ∈ all_handles g /\ cb h <> 0.
Proof.
  intros Hok Hr.
  assert (qlist g (run_queue w) = watcher_node p :: (watcher_node <$> rest)) as Eq by (cbn; by rewrite Hr).
  assert (p ∈ members g (UV_WATCHER w)) as Hpm.
  { cbn. rewrite Hr, elem_of_app. right. by left. }
  pose proof (proj2 (lo_members _ _ Hok (UV_WATCHER w)) p Hpm) as Hp.
  destruct (lo_handles _ _ Hok p Hp) as (h & Eh & K).
  destruct (proj1 (h_members _ _ _ K (UV_WATCHER w)) Hpm) as [_ Ha].
  pose proof (proj1 (h_active _ _ _ K Ha)) as Hcb.
  pose proof (p_queues _ _ (lo_parts _ _ Hok) (run_queue w) eq_refl) as Hq. rewrite Eq in Hq.
  destruct (queue_not_empty _ _ _ _ Hq) as [Ee Ehd].
  destruct (node_move g (with_watch w (g_watch g w) rest g) (with_watch w (g_watch g w ++ [p]) rest g) l
    (run_queue w) (watcher_handles w) (watcher_node p) (watcher_node <$> rest) (watcher_node <$> g_watch g w) Hok)
    as (m & m' & Er & Ei & Hqs & Hmap); try done.
  { cbn. by rewrite upd_watcher_same. }
  { cbn. by rewrite upd_watcher_same, fmap_app. }
  { intros r _ Hne. apply qlist_watch_same; [done|]. cbn. by rewrite upd_watcher_same. }
  { intros [] _ Hne; try done. cbn. by rewrite !upd_watcher_other by congruence. }
  exists m', h. split; [|split; [|done]].
  - cbn [run_watchers_loop].
    assert (on_queues (QUEUE_EMPTY (run_queue w)) l = Done false l) as E1.
    { unfold on_queues, in_part. by rewrite Ee, with_queues_id. }
    assert (on_queues (QUEUE_HEAD (run_queue w)) l = Done (watcher_node p) l) as E2.
    { unfold on_queues, in_part. by rewrite Ehd, with_queues_id. }
    rewrite (bind_on_loop _ _ _ _ _ _ E1), (bind_on_loop _ _ _ _ _ _ E2).
    rewrite (bind_on_loop _ p l l) by done.
    rewrite (bind_on_loop _ tt l (with_queues m l)) by (unfold on_queues, in_part; by rewrite Er).
    rewrite (bind_on_loop _ tt (with_queues m l) (with_queues m' l))
      by (unfold on_queues, in_part; cbn [queues with_queues]; by rewrite Ei).
    rewrite (bind_on_loop _ h (with_queues m' l) (with_queues m' l)) by (by apply get_handle_run).
    unfold call_ptr. by rewrite (proj2 (Z.eqb_neq (cb h) 0) Hcb).
  - apply (loop_ok_queues g); try done. intros ty. apply members_watch_perm.
    by rewrite Hr, <- app_assoc.
Qed.

(** The handle of a callback: one of the loop, or one that has just been closed. *)
Definition callee (g : shape) (l : uv_loop) (p : Z) : Prop :=
  p ∈ all_handles g \/ exists h, handles l !! p = Some h /\ closed h = true.

(** The callbacks may call the loop back; they keep its invariant, and a property
    of the application, or abort where they may. *)
Definition stable_with {App} {Ab : Abort (uv_loop * App)} (P : App -> Prop) (call : Z -> Z -> @R App unit) : Prop :=
  forall g l a f p, loop_ok g l -> g_new g = [] -> f <> 0 -> callee g l p -> P a ->
  gives False (call f p) (l, a) (fun _ σ => exists g', loop_ok g' (fst σ) /\ evolves g g' /\ P (snd σ)).

Lemma run_watchers_loop_stable {App} {Ab : Abort (uv_loop * App)} P (call : Z -> Z -> @R App unit) w fuel g l a :
  stable_with P call -> loop_ok g l -> g_new g = [] -> (length (g_run g w) < fuel)%nat -> P a ->
  gives False (run_watchers_loop call w fuel) (l, a)
    (fun _ σ => exists g', loop_ok g' (fst σ) /\ evolves g g' /\ P (snd σ) /\ g_run g' w = []).
Proof.
  intros Hst. revert g l a. induction fuel as [|fuel IH]; intros g l a Hok Hn Hf HP; [lia|].
  destruct (g_run g w) as [|p rest] eqn:Er.
  - apply (gives_done _ _ _ tt (l, a)); [|by exists g]. cbn [run_watchers_loop].
    pose proof (p_queues _ _ (lo_parts _ _ Hok) (run_queue w) eq_refl) as Hq. cbn in Hq. rewrite Er in Hq.
    rewrite (bind_on_loop _ true l l); [done|]. unfold on_queues, in_part.
    rewrite (QUEUE_EMPTY_spec _ _ _ Hq), with_queues_id. by rewrite bool_decide_true.
  - destruct (watchers_turn call g l w p rest fuel a Hok Er) as (m & h & E & Hok1 & Eh & Hp & Hcb).
    eapply gives_eq; [exact E|]. eapply gives_seq; [exact (Hst _ _ a (cb h) p Hok1 Hn Hcb (or_introl Hp) HP)|].
    intros _ (l2 & a2) (g2 & Hok2 & Hev2 & HP2). cbn [fst snd] in *.
    pose proof (ev_run _ _ Hev2 w) as Hs. cbn in Hs. rewrite upd_watcher_same in Hs.
    eapply gives_mono; [apply (IH g2 l2 a2 Hok2)|].
    { by rewrite (ev_new _ _ Hev2). }
    { apply sublist_length in Hs. cbn in Hf. lia. }
    { done. }
    intros _ σ (g' & Hok' & Hev' & Hr'). exists g'. split; [done|]. split; [|done].
    transitivity g2; [|done]. etransitivity; [|done]. apply evolves_watch. rewrite Er. by apply sublist_cons.
Qed.

Lemma run_watchers_stable {App} {Ab : Abort (uv_loop * App)} P (call : Z -> Z -> @R App unit) w fuel g l a :
  stable_with P call -> loop_ok g l -> g_new g = [] -> g_run g w = [] -> (length (g_watch g w) < fuel)%nat -> P a ->
  gives False (uv__run_watchers call w fuel) (l, a)
    (fun _ σ => exists g', loop_ok g' (fst σ) /\ evolves g g' /\ P (snd σ)).
Proof.
  intros Hst Hok Hn Hr Hf HP. destruct (watchers_move g l w Hok Hr) as (m & Em & Hok1).
  assert (local_queue (run_queue w) l = Done tt l) as El.
  { apply (local_queue_run g); [done..|]. cbn. by rewrite Hr. }
  eapply (gives_eq _ _ _ (run_watchers_loop call w fuel) (with_queues m l, a)).
  { unfold uv__run_watchers. rewrite (bind_on_loop _ _ _ _ _ _ El).
    by rewrite (bind_on_loop _ tt l (with_queues m l)) by (unfold on_queues, in_part; by rewrite Em). }
  eapply gives_mono; [apply (run_watchers_loop_stable P call w fuel _ _ a Hst Hok1 Hn)|].
  { cbn. by rewrite upd_watcher_same. }
  { done. }
  intros _ σ (g' & Hok' & [V0 V1 V2 V3 V4] & HP' & Er). exists g'. split; [done|]. split; [|done].
  constructor; [done| |done..]. intros w'. destruct (decide (w' = w)) as [->|Hne].
  - rewrite Er. apply sublist_nil_l.
  - specialize (V1 w'). cbn in V1. by rewrite upd_watcher_other in V1.
Qed.

(** Quiet callbacks: all of the watchers, in the order of the queue. *)
(** What a run over the queue of [w] does not change. *)
Record aside (w : watcher) (g g' : shape) : Prop := {
  as_mem : g_mem g' = g_mem g;
  as_new : g_new g' = g_new g;
  as_closing : g_closing g' = g_closing g;
  as_finishing : g_finishing g' = g_finishing g;
  as_watch : forall v, v <> w -> g_watch g' v = g_watch g v;
  as_run : forall v, v <> w -> g_run g' v = g_run g v
}.

Lemma aside_refl w g : aside w g g.
Proof. by constructor. Qed.

Lemma aside_watch w wl rl g g' : aside w (with_watch w wl rl g) g' -> aside w g g'.
Proof.
  intros [A1 A2 A3 A4 A5 A6]. constructor; try done; intros v Hv.
  - rewrite A5 by done. cbn. by rewrite upd_watcher_other.
  - rewrite A6 by done. cbn. by rewrite upd_watcher_other.
Qed.

Lemma run_watchers_loop_quiet {App} (call : Z -> Z -> @R App unit) note w fuel g l a :
  quiet call note -> loop_ok g l -> (length (g_run g w) < fuel)%nat ->
  exists m g', run_watchers_loop call w fuel (l, a)
    = Done tt (with_queues m l, foldl (fun a p => fire note (handles l) p a) a (g_run g w)) /\
  loop_ok g' (with_queues m l) /\ g_watch g' w = g_watch g w ++ g_run g w /\ g_run g' w = [] /\ aside w g g'.
Proof.
  intros Hq. revert g l a. induction fuel as [|fuel IH]; intros g l a Hok Hf; [lia|].
  destruct (g_run g w) as [|p rest] eqn:Er.
  - exists (queues l), g. rewrite with_queues_id. split; [|rewrite app_nil_r; split; [done|]; split; [done|]; split; [done|apply aside_refl]].
    cbn [run_watchers_loop]. pose proof (p_queues _ _ (lo_parts _ _ Hok) (run_queue w) eq_refl) as Hqr.
    cbn in Hqr. rewrite Er in Hqr. rewrite (bind_on_loop _ true l l); [done|].
    unfold on_queues, in_part. by rewrite (QUEUE_EMPTY_spec _ _ _ Hqr), with_queues_id, bool_decide_true.
  - destruct (watchers_turn call g l w p rest fuel a Hok Er) as (m & h & E & Hok1 & Eh & Hp & Hcb).
    destruct (IH _ _ (note (cb h) p a) Hok1) as (m' & g' & E' & Hok' & Ew & Er' & Has);
      [cbn; rewrite upd_watcher_same; cbn in Hf; lia|].
    exists m', g'. rewrite E, (bind_done _ _ _ _ _ (Hq _ _ _ _)), E'. cbn [g_run g_watch with_watch] in *.
    rewrite upd_watcher_same in *. split; [cbn; do 2 f_equal; unfold fire; by rewrite Eh|].
    split; [done|]. rewrite Ew, upd_watcher_same, <- app_assoc. split; [done|]. split; [done|]. by eapply aside_watch.
Qed.

Lemma run_watchers_quiet {App} (call : Z -> Z -> @R App unit) note w fuel g l a :
  quiet call note -> loop_ok g l -> g_run g w = [] -> (length (g_watch g w) < fuel)%nat ->
  exists m g', uv__run_watchers call w fuel (l, a)
    = Done tt (with_queues m l, foldl (fun a p => fire note (handles l) p a) a (g_watch g w)) /\
  loop_ok g' (with_queues m l) /\ g_watch g' w = g_watch g w /\ g_run g' w = [] /\ aside w g g'.
Proof.
  intros Hq Hok Hr Hf. destruct (watchers_move g l w Hok Hr) as (m & Em & Hok1).
  destruct (run_watchers_loop_quiet call note w fuel _ _ a Hq Hok1) as (m' & g' & E & Hok' & Ew & Er & Has).
  { cbn. by rewrite upd_watcher_same. }
  cbn [g_run g_watch with_watch] in *. rewrite !upd_watcher_same in *.
  exists m', g'. split; [|do 3 (split; [done|]); by eapply aside_watch]. unfold uv__run_watchers.
  assert (local_queue (run_queue w) l = Done tt l) as El.
  { apply (local_queue_run g); [done..|]. cbn. by rewrite Hr. }
  rewrite (bind_on_loop _ _ _ _ _ _ El).
  rewrite (bind_on_loop _ tt l (with_queues m l)) by (unfold on_queues, in_part; by rewrite Em). done.
Qed.

(** ** The end of a close *)
Definition shape_without (p : Z) (rest : list Z) (g : shape) : shape :=
  mk_shape (g_mem g) (g_timers g) (filter (fun q => q <> p) (g_main g)) (filter (fun q => q <> p) (g_walk g))
    (g_watch g) (g_run g) (g_new g) (g_closing g) rest.

(** The handle leaves the queue of the handles. *)
Lemma handle_unlink g l p rest :
  loop_ok g l -> p ∈ all_handles g ->
  exists m, QUEUE_REMOVE (handle_node p) (queues l) = Done tt m /\
  queues_ok (shape_without p rest g) m /\ forall y, is_Some (queues l !! y) -> is_Some (m !! y).
Proof.
  intros Hok Hp. pose proof (lo_nodup _ _ Hok) as (Hd1 & Hdis & Hd2)%NoDup_app.
  apply elem_of_app in Hp as [Hp|Hp].
  - assert (p ∉ g_walk g) as Hpw by (by apply Hdis).
    apply list_elem_of_split in Hp as (k1 & k2 & E). rewrite E in Hd1.
    apply (node_remove g (shape_without p rest g) l handle_queue (handle_node p)
      (handle_node <$> k1) (handle_node <$> k2)); [done|done| | |].
    + cbn. by rewrite E, fmap_app, fmap_cons.
    + cbn. by rewrite E, filter_at, fmap_app.
    + intros [] _ Hne; try done. cbn. by rewrite filter_none.
  - assert (p ∉ g_main g) as Hpw by (by intros ?; apply (Hdis p)).
    apply list_elem_of_split in Hp as (k1 & k2 & E). rewrite E in Hd2.
    apply (node_remove g (shape_without p rest g) l walk_queue (handle_node p)
      (handle_node <$> k1) (handle_node <$> k2)); [done|done| | |].
    + cbn. by rewrite E, fmap_app, fmap_cons.
    + cbn. by rewrite E, filter_at, fmap_app.
    + intros [] _ Hne; try done. cbn. by rewrite filter_none.
Qed.

Lemma all_without p rest g :
  NoDup (all_handles g) -> p ∈ all_handles g -> all_handles g ≡ₚ p :: all_handles (shape_without p rest g).
Proof.
  intros Hd Hp. unfold all_handles at 2. cbn. rewrite <- filter_app.
  apply list_elem_of_split in Hp as (k1 & k2 & E). unfold all_handles in *. rewrite E in *.
  rewrite filter_at by done. by rewrite Permutation_middle.
Qed.

Lemma closing_hd hs q k : closing_chain hs q k -> q = hd 0 k.
Proof. by destruct k; [|intros [-> _]]. Qed.

Lemma finish_close_spec {App} (call : Z -> Z -> @R App unit) g l p h rest a :
  loop_ok g l -> g_finishing g = p :: rest -> handles l !! p = Some h ->
  exists l',
    uv__finish_close call p (l, a) =
      (if close_cb h =? 0 then ret tt else call (close_cb h) p) (l', a) /\
    loop_ok (shape_without p rest g) l' /\ p ∈ all_handles g /\
    (exists h', handles l' = <[p := h']> (handles l) /\ closed h' = true) /\ time l' = time l.
Proof.
  intros Hok Ef Eh.
  assert (p ∈ linked_closing g) as Hpl.
  { unfold linked_closing. rewrite Ef, elem_of_app. right. by left. }
  assert (p ∈ all_closing g) as Hpc by (unfold all_closing; rewrite elem_of_app; by right).
  destruct (lo_closing _ _ Hok) as [Hcd Hcs]. pose proof (Hcs p Hpc) as Hp.
  destruct (lo_handles _ _ Hok p Hp) as (h0 & Eh0 & K). rewrite Eh in Eh0. injection Eh0 as <-.
  pose proof (proj2 (h_closing _ _ _ K) Hpc) as Hc. pose proof (h_closed _ _ _ K) as Hcd'.
  assert (active h = false) as Ha.
  { destruct (active h) eqn:Ha; [|done]. by destruct (h_active _ _ _ K Ha). }
  set (h1 := or_flag UV_HANDLE_CLOSED h).
  set (h2 := if refd h then clear_flag UV_HANDLE_REF h1 else h1).
  destruct (handle_unlink g l p rest Hok Hp) as (m & Er & Hqs & Hmap).
  exists (put_handle p h2 (with_queues m l)). split; [|split; [|split; [done|split; [|done]]]].
  - unfold uv__finish_close. rewrite (bind_on_loop _ _ _ _ _ _ (get_handle_run _ _ _ Eh)).
    rewrite flag_closing, flag_closed, Hc, Hcd'. cbn [negb assert].
    rewrite !(bind_on_loop (ret tt) tt l l) by done.
    rewrite (bind_on_loop _ _ _ _ _ _ (upd_handle_run _ _ _ _ Eh)). fold h1.
    rewrite (bind_on_loop (uv__handle_unref p) tt _ (put_handle p h2 l)).
    2: { unfold uv__handle_unref. rewrite (bind_get_handle _ _ _ _ (put_handle_same _ _ _)), flag_ref.
      assert (refd h1 = refd h) as -> by (unfold h1; by bits). unfold h2.
      destruct (refd h); [|done]. cbn [negb].
      rewrite (bind_upd_handle _ _ _ _ _ (put_handle_same _ _ _)), put_put_handle, flag_closing.
      assert (closing h1 = true) as -> by (unfold h1; bits; exact Hc). done. }
    rewrite (bind_on_loop _ tt _ (put_handle p h2 (with_queues m l)))
      by (unfold on_queues, in_part; cbn [queues put_handle with_handles]; by rewrite Er).
    rewrite (bind_on_loop _ h2 _ (put_handle p h2 (with_queues m l)))
      by (apply get_handle_run, lookup_insert_eq).
    assert (close_cb h2 = close_cb h) as -> by (unfold h2; by destruct (refd h)). done.
  - pose proof (all_without p rest g (lo_nodup _ _ Hok) Hp) as Hperm.
    pose proof (lo_nodup _ _ Hok) as Hnd. rewrite Hperm in Hnd. apply NoDup_cons in Hnd as [Hpn Hnd].
    assert (forall ty, p ∉ members g ty) as Hpm.
    { intros ty Hin. apply (h_members _ _ _ K) in Hin as [_ Hin]. congruence. }
    assert (all_closing g ≡ₚ p :: all_closing (shape_without p rest g)) as Hcp.
    { unfold all_closing, linked_closing. cbn. rewrite Ef. by rewrite <- !Permutation_middle. }
    rewrite Hcp in Hcd. apply NoDup_cons in Hcd as [Hpcn Hcd].
    assert (forall q, q <> p -> q ∈ all_handles (shape_without p rest g) <-> q ∈ all_handles g) as Hq.
    { intros q Hne. rewrite Hperm, elem_of_cons. tauto. }
    constructor.
    + destruct (lo_parts _ _ Hok) as [P1 P2 P3 P4]. constructor.
      * apply (timers_insert _ _ h); [done| |done]. left. apply (Hpm UV_TIMER).
      * done.
      * apply (closing_insert _ _ h); [done| |done]. left. intros Hin. apply Hpcn.
        unfold all_closing, linked_closing. cbn. rewrite !elem_of_app. tauto.
      * cbn. rewrite Ef in P4. destruct P4 as (_ & hx & Ehx & P4). rewrite Eh in Ehx. injection Ehx as <-.
        rewrite (closing_hd _ _ _ P4) in P4. apply (closing_insert _ _ h); [done| |done]. left.
        intros Hin. apply Hpcn. unfold all_closing, linked_closing. cbn. rewrite !elem_of_app. tauto.
    + done.
    + intros ty. destruct (lo_members _ _ Hok ty) as [H1 H2]. split; [exact H1|].
      intros q Hin. apply Hq; [by intros ->; apply (Hpm ty)|by apply H2].
    + split; [done|]. intros q Hin. apply Hq; [by intros ->|]. apply Hcs. rewrite Hcp. by right.
    + intros q Hin. assert (q <> p) as Hne by (by intros ->).
      destruct (lo_handles _ _ Hok q (proj1 (Hq q Hne) Hin)) as (hq & Ehq & [K1 K2 K3 K4 K5]).
      exists hq. split; [cbn; by rewrite lookup_insert_ne|]. constructor; [done|exact K2| |done|].
      * intros Haq. split; [by apply K3|]. intros Hin'. apply (K3 Haq). revert Hin'.
        unfold linked_closing. cbn. rewrite Ef, !elem_of_app, elem_of_cons. tauto.
      * rewrite K5, Hcp, elem_of_cons. tauto.
    + intros q Hin. assert (q <> p) as Hne by (by intros ->). by apply (lo_mem _ _ Hok), Hq.
    + intros q Hin. destruct (lo_mapped _ _ Hok q Hin) as (H0 & (H1 & H2 & H3) & H4). split; [done|].
      split; [split; [done|]; split; by apply Hmap|]. apply lookup_insert_is_Some'. by right.
    + transitivity (active_handles l); [done|]. rewrite (lo_active _ _ Hok), Hperm, count_cons.
      unfold counted at 1. rewrite Eh, Ha. cbn [andb Z.b2z]. rewrite Z.add_0_l. apply count_ext.
      intros q Hin. unfold counted. cbn [handles put_handle with_handles with_queues].
      rewrite lookup_insert_ne; [done|]. by intros ->.
    + pose proof (lo_size _ _ Hok) as Hs. unfold zlen in *. rewrite Hperm in Hs. cbn [length] in Hs. lia.
  - exists h2. split; [done|]. unfold h2, h1. by destruct (refd h); bits.
Qed.

(** [uv__run_closing_handles]: the pending handles are all closed, last first. *)
Lemma start_closing g l :
  loop_ok g l -> g_finishing g = [] ->
  closing_handles l = hd 0 (g_closing g) /\
  loop_ok (mk_shape (g_mem g) (g_timers g) (g_main g) (g_walk g) (g_watch g) (g_run g) (g_new g) [] (g_closing g))
    (with_closing 0 l).
Proof.
  intros Hok Ef. pose proof (p_closing _ _ (lo_parts _ _ Hok)) as Hc.
  split; [by eapply closing_hd|]. destruct Hok as [Hpa Hnd Hme Hcl Hha Hmm Hma Hac Hsz].
  assert (linked_closing g = g_closing g) as El by (unfold linked_closing; by rewrite Ef, app_nil_r).
  unfold all_closing in Hcl. rewrite El in Hcl.
  constructor; try done.
  - destruct Hpa as [P1 P2 P3 P4]. constructor; try done. cbn. by rewrite <- (closing_hd _ _ _ Hc).
  - intros p Hp. destruct (Hha p Hp) as (h & Eh & [K1 K2 K3 K4 K5]). exists h. split; [done|].
    unfold all_closing in K5. rewrite El in K3, K5. by constructor.
Qed.

Lemma run_closing_stable {App} {Ab : Abort (uv_loop * App)} P (call : Z -> Z -> @R App unit) fuel g l a :
  stable_with P call -> loop_ok g l -> g_new g = [] -> (length (g_finishing g) < fuel)%nat -> P a ->
  gives False (run_closing_loop call fuel (hd 0 (g_finishing g))) (l, a)
    (fun _ σ => exists g', loop_ok g' (fst σ) /\ g_finishing g' = [] /\ g_new g' = [] /\ P (snd σ) /\
       g_mem g' = g_mem g /\ forall w, sublist (g_run g' w) (g_run g w)).
Proof.
  intros Hst. revert g l a. induction fuel as [|fuel IH]; intros g l a Hok Hn Hf HP; [lia|].
  pose proof (p_finishing _ _ (lo_parts _ _ Hok)) as Hch.
  destruct (g_finishing g) as [|p rest] eqn:Ef; [by apply (gives_done _ _ _ tt (l, a)); [|exists g]|].
  destruct Hch as (_ & h & Eh & Hch). cbn [hd].
  destruct (finish_close_spec call g l p h rest a Hok Ef Eh) as (l1 & E & Hok1 & Hp & (h1 & Eh1 & Hcl1) & _).
  destruct (lo_handles _ _ Hok p Hp) as (h0 & Eh0 & K).
  cbn [run_closing_loop]. rewrite (proj2 (Z.eqb_neq p 0) (h_nonzero _ _ _ K)).
  eapply gives_step; [apply on_loop_run, (get_handle_run _ _ _ Eh)|]. rewrite (closing_hd _ _ _ Hch).
  eapply gives_seq with (R := fun _ σ => exists g2, loop_ok g2 (fst σ) /\ g_new g2 = [] /\ g_finishing g2 = rest /\
    P (snd σ) /\ g_mem g2 = g_mem g /\ (forall w, sublist (g_run g2 w) (g_run g w))).
  { eapply gives_eq; [exact E|]. destruct (Z.eqb_spec (close_cb h) 0) as [|Hcb].
    { apply gives_ret. by exists (shape_without p rest g). }
    assert (callee (shape_without p rest g) l1 p) as Hce.
    { right. exists h1. by rewrite Eh1, lookup_insert_eq. }
    eapply gives_mono; [exact (Hst _ _ a (close_cb h) p Hok1 Hn Hcb Hce HP)|].
    intros _ σ (g2 & Hok2 & [V0 V1 _ V3 V4] & HP2).
    exists g2. split; [done|]. split; [by rewrite V3|]. split; [by rewrite V4|done]. }
  intros _ (l2 & a2) (g2 & Hok2 & Hn2 & Ef2 & HP2 & Em2 & Hr2). cbn [fst snd] in *. rewrite <- Ef2.
  eapply gives_mono; [apply (IH g2 l2 a2 Hok2 Hn2); [rewrite Ef2; cbn in Hf; lia|done]|].
  intros _ σ (g' & Hok' & F1 & F2 & F3 & F4 & F5).
  exists g'. do 4 (split; [done|]). split; [congruence|]. intros w. etrans; [apply F5|apply Hr2].
Qed.

Lemma foldl_ext_in {A B} (f g : A -> B -> A) k a :
  (forall b x, x ∈ k -> f b x = g b x) -> foldl f a k = foldl g a k.
Proof.
  revert a. induction k as [|x k IH]; intros a E; [done|]. cbn. rewrite E by (by left).
  apply IH. intros b y Hy. apply E. by right.
Qed.

(** Quiet callbacks: each pending handle is closed and its callback called once. *)
Definition note_close {App} (note : Z -> Z -> App -> App) (hs : gmap Z uv_handle) (a : App) (p : Z) : App :=
  match hs !! p with Some h => if close_cb h =? 0 then a else note (close_cb h) p a | None => a end.

Lemma run_closing_quiet {App} (call : Z -> Z -> @R App unit) note fuel g l a :
  quiet call note -> loop_ok g l -> (length (g_finishing g) < fuel)%nat ->
  exists g' l', run_closing_loop call fuel (hd 0 (g_finishing g)) (l, a)
    = Done tt (l', foldl (note_close note (handles l)) a (g_finishing g)) /\
  loop_ok g' l' /\ g_finishing g' = [] /\ g_closing g' = g_closing g /\
  all_handles g ≡ₚ g_finishing g ++ all_handles g' /\
  (forall q, q ∉ g_finishing g -> handles l' !! q = handles l !! q) /\
  (forall q, q ∈ g_finishing g -> exists h', handles l' !! q = Some h' /\ closed h' = true).
Proof.
  intros Hq. revert g l a. induction fuel as [|fuel IH]; intros g l a Hok Hf; [lia|].
  pose proof (p_finishing _ _ (lo_parts _ _ Hok)) as Hch.
  destruct (g_finishing g) as [|p rest] eqn:Ef.
  { exists g, l. do 4 (split; [done|]). split; [done|]. split; [done|]. by intros q ?%elem_of_nil. }
  destruct Hch as (_ & h & Eh & Hch). cbn [hd].
  destruct (finish_close_spec call g l p h rest a Hok Ef Eh) as (l1 & E & Hok1 & Hp & (h1 & Eh1 & Hcl1) & _).
  destruct (lo_handles _ _ Hok p Hp) as (h0 & Eh0 & K).
  pose proof (proj1 (lo_closing _ _ Hok)) as Hcd. unfold all_closing, linked_closing in Hcd.
  rewrite Ef in Hcd. apply NoDup_app in Hcd as (_ & _ & Hcd). apply NoDup_app in Hcd as (_ & _ & Hcd).
  apply NoDup_cons in Hcd as [Hpr _].
  destruct (IH (shape_without p rest g) l1 (note_close note (handles l) a p) Hok1)
    as (g' & l' & E' & Hok' & F1 & F2 & F3 & F4 & F5); [cbn in *; lia|].
  exists g', l'. cbn [g_finishing shape_without] in *. split; [|split; [done|split; [done|split; [done|]]]].
  - cbn [run_closing_loop]. rewrite (proj2 (Z.eqb_neq p 0) (h_nonzero _ _ _ K)).
    rewrite (bind_on_loop _ _ _ _ _ _ (get_handle_run _ _ _ Eh)). rewrite (closing_hd _ _ _ Hch).
    assert (uv__finish_close call p (l, a) = Done tt (l1, note_close note (handles l) a p)) as E2.
    { rewrite E. unfold note_close. rewrite Eh. by destruct (close_cb h =? 0). }
    rewrite (bind_done _ _ _ _ _ E2), E'. cbn [foldl]. f_equal. f_equal. apply foldl_ext_in.
    intros b q Hq'. unfold note_close. rewrite Eh1, lookup_insert_ne; [done|]. by intros ->.
  - split; [|split].
    + rewrite (all_without p rest g (lo_nodup _ _ Hok) Hp), F3. done.
    + intros q. rewrite not_elem_of_cons. intros [Hqp Hqr]. rewrite F4 by done. by rewrite Eh1, lookup_insert_ne.
    + intros q [->|Hin]%elem_of_cons; [|by apply F5]. exists h1. by rewrite F4, Eh1, lookup_insert_eq.
Qed.
