(* ===== verification/UvApi.v ===== *)
(** libuv, programs of calls on the handles of a loop: the life cycle of a handle
    as an automaton, and the invariant of the loop over any program that follows
    it.  A sample loop. *)
From S2P Require Import Prelude.
From S2P Require Import UvHeap.
From S2P Require Import UvHeapOrder.
From S2P Require Import UvHeapProofs.
From S2P Require Import UvQueue.
From S2P Require Import UvQueueProofs.
From S2P Require Import UvLoop.
From S2P Require Import UvTimer.
From S2P Require Import UvRun.
From S2P Require Import UvLoopInv.
From S2P Require Import UvLoopOps.
From S2P Require Import UvRunProofs.
#[local] Set Warnings "-clear-no-such-hyp".

(** ** The calls *)
Inductive uv_op : Type :=
| OpInit (ty : uv_handle_type) (p : Z)
| OpTimerStart (p c t r : Z)
| OpTimerStop (p : Z)
| OpTimerAgain (p : Z)
| OpSetRepeat (p r : Z)
| OpWatcherStart (w : watcher) (p c : Z)
| OpWatcherStop (w : watcher) (p : Z)
| OpClose (p c : Z)
| OpRef (p : Z)
| OpUnref (p : Z).

Definition run_op (op : uv_op) : L Z :=
  match op with
  | OpInit ty p => init_of ty p
  | OpTimerStart p c t r => uv_timer_start p c t r
  | OpTimerStop p => uv_timer_stop p
  | OpTimerAgain p => uv_timer_again p
  | OpSetRepeat p r => uv_timer_set_repeat p r;;; ret 0
  | OpWatcherStart w p c => uv_watcher_start w p c
  | OpWatcherStop w p => uv_watcher_stop w p
  | OpClose p c => uv_close p c;;; ret 0
  | OpRef p => uv_ref p;;; ret 0
  | OpUnref p => uv_unref p;;; ret 0
  end.

Fixpoint run_ops (ops : list uv_op) : L unit :=
  match ops with
  | [] => ret tt
  | op :: ops => run_op op;;; run_ops ops
  end.

(** ** The life cycle: the type of each handle, and whether it is closing *)
Abbreviation status := (uv_handle_type * bool)%type.

Definition is_type (s : option status) (ty : uv_handle_type) : bool :=
  match s with Some (ty', _) => bool_decide (ty' = ty) | None => false end.

(** The next status of the handles; [None] for a call that the documentation
    forbids: a handle of an other type or that was not initialised, a second
    close, a start of a watcher that is closing. *)
Definition life (mem : list Z) (st : gmap Z status) (op : uv_op) : option (gmap Z status) :=
  match op with
  | OpInit ty p =>
      match st !! p with
      | None => if bool_decide (p ∈ mem) then Some (<[p := (ty, false)]> st) else None
      | Some _ => None
      end
  | OpTimerStart p _ _ _ | OpTimerStop p | OpTimerAgain p | OpSetRepeat p _ =>
      if is_type (st !! p) UV_TIMER then Some st else None
  | OpWatcherStart w p _ =>
      match st !! p with
      | Some (ty, false) => if bool_decide (ty = UV_WATCHER w) then Some st else None
      | _ => None
      end
  | OpWatcherStop w p => if is_type (st !! p) (UV_WATCHER w) then Some st else None
  | OpClose p _ =>
      match st !! p with Some (ty, false) => Some (<[p := (ty, true)]> st) | _ => None end
  | OpRef p | OpUnref p => match st !! p with Some _ => Some st | None => None end
  end.

Fixpoint lives (mem : list Z) (st : gmap Z status) (ops : list uv_op) : option (gmap Z status) :=
  match ops with
  | [] => Some st
  | op :: ops => match life mem st op with Some st' => lives mem st' ops | None => None end
  end.

(** The status of the handles of the loop. *)
Definition tracks (g : shape) (l : uv_loop) (st : gmap Z status) : Prop :=
  forall p, match st !! p with
  | Some (ty, c) => p ∈ all_handles g /\ exists h, handles l !! p = Some h /\ type h = ty /\ closing h = c
  | None => p ∉ all_handles g
  end.

Lemma tracks_some g l st p ty c :
  tracks g l st -> st !! p = Some (ty, c) ->
  p ∈ all_handles g /\ exists h, handles l !! p = Some h /\ type h = ty /\ closing h = c.
Proof. intros H E. specialize (H p). by rewrite E in H. Qed.

Lemma tracks_update g g' l l' st p h' :
  tracks g l st -> p ∈ all_handles g' -> handles l' = <[p := h']> (handles l) ->
  (forall q, q <> p -> q ∈ all_handles g' <-> q ∈ all_handles g) ->
  tracks g' l' (<[p := (type h', closing h')]> st).
Proof.
  intros Ht Hp Eh Hall q. destruct (decide (q = p)) as [->|Hne].
  - rewrite lookup_insert_eq. split; [done|]. exists h'. by rewrite Eh, lookup_insert_eq.
  - rewrite lookup_insert_ne by done. specialize (Ht q). destruct (st !! q) as [[ty c]|].
    + destruct Ht as [H1 H2]. split; [by apply Hall|]. by rewrite Eh, lookup_insert_ne.
    + intros Hin. by apply Ht, Hall.
Qed.

(** A step that changes neither type nor closing. *)
Lemma tracks_same g g' l l' st p h h' :
  tracks g l st -> p ∈ all_handles g -> handles l !! p = Some h ->
  handles l' = <[p := h']> (handles l) ->
  all_handles g' = all_handles g -> type h' = type h -> closing h' = closing h -> tracks g' l' st.
Proof.
  intros Ht Hp Eh Eh' Eall E1 E2. assert (st = <[p := (type h', closing h')]> st) as ->.
  { symmetry. apply insert_id. specialize (Ht p). destruct (st !! p) as [[ty c]|]; [|done].
    destruct Ht as (_ & h0 & Eh0 & <- & <-). rewrite Eh in Eh0. injection Eh0 as <-. by rewrite E1, E2. }
  apply (tracks_update g g' l l' st p h'); [done|by rewrite Eall|done|]. intros q _. by rewrite Eall.
Qed.

Lemma tracks_id g g' l st : tracks g l st -> all_handles g' = all_handles g -> tracks g' l st.
Proof. intros Ht E p. specialize (Ht p). by rewrite E. Qed.

(** ** A call keeps the invariant *)
Definition op_keeps (g : shape) (l : uv_loop) (st' : gmap Z status) (op : uv_op) : Prop :=
  exists r g' l', run_op op l = Done r l' /\ loop_ok g' l' /\ evolves g g' /\ tracks g' l' st'.

Lemma is_type_true s ty : is_type s ty = true -> exists c, s = Some (ty, c).
Proof. destruct s as [[ty' c]|]; [|done]. cbn. intros ->%bool_decide_eq_true. by exists c. Qed.

Lemma idle_of_new g p h : g_new g = [] -> handle_ok g p h -> active h && closing h = false.
Proof.
  intros Hn K. destruct (active h) eqn:Ha; [|done]. cbn. by apply (active_not_closing g p).
Qed.

Lemma stop_keeps g l st p ty c :
  loop_ok g l -> tracks g l st -> st !! p = Some (ty, c) ->
  exists g' l', stop_of ty p l = Done 0 l' /\ loop_ok g' l' /\ evolves g g' /\ tracks g' l' st.
Proof.
  intros Hok Ht E. destruct (tracks_some _ _ _ _ _ _ Ht E) as (Hp & h & Eh & <- & _).
  destruct (stop_spec g l p h Hok Hp Eh) as (g' & l' & h' & Er & Hok' & Hev & Eh' & Ehh & Eall & _).
  exists g', l'. split; [done|]. split; [done|]. split; [done|].
  apply (tracks_same g g' l l' st p h h'); try done; rewrite Ehh; destruct (active h); by bits.
Qed.

Lemma timer_op_keeps g l st st' op :
  loop_ok g l -> g_new g = [] -> tracks g l st -> life (g_mem g) st op = Some st' ->
  match op with
  | OpTimerStart _ _ _ _ | OpTimerStop _ | OpTimerAgain _ | OpSetRepeat _ _ => op_keeps g l st' op
  | _ => True
  end.
Proof.
  intros Hok Hn Ht El. unfold op_keeps. destruct op as [|p c t r|p|p|p r| | | | |]; try done; cbn [life run_op] in *;
    destruct (is_type (st !! p) UV_TIMER) eqn:Ety; try done; injection El as <-;
    apply is_type_true in Ety as [cl E];
    destruct (tracks_some _ _ _ _ _ _ Ht E) as (Hp & h & Eh & Hty & Hcl).
  - destruct (decide (c = 0)) as [->|Hc]; [|destruct (closing h) eqn:Hch].
    + exists UV_EINVAL, g, l. split; [apply (timer_start_einval _ h); by auto|done].
    + exists UV_EINVAL, g, l. split; [apply (timer_start_einval _ h); [done|]|done]. left. by rewrite Hch.
    + destruct (timer_start_spec g l p h c t r Hok Hp Eh Hty Hch Hc)
        as (g' & l' & h' & Er & Hok' & Hev & Eh' & V1 & _ & _ & V4 & _ & _ & _ & _ & _ & _ & V11 & _).
      exists 0, g', l'. split; [done|]. split; [done|]. split; [apply Hev|].
      apply (tracks_same g g' l l' st p h h'); try done; congruence.
  - destruct (stop_keeps g l st p UV_TIMER cl Hok Ht E) as (g' & l' & Er & ?). by exists 0, g', l'.
  - destruct (timer_again_spec g l p h Hok Hn Hp Eh Hty) as (g' & l' & Er & Hok' & Hev & Eall & _ & Hcase).
    eexists _, g', l'. split; [exact Er|]. split; [done|]. split; [apply Hev|].
    destruct ((cb h =? 0) || (repeat h =? 0) || closing h) eqn:Eo; [by destruct Hcase as [-> ->]|].
    apply orb_false_iff in Eo as [_ Hch]. destruct Hcase as (h' & Eh' & _ & V2 & V3 & _).
    apply (tracks_same g g' l l' st p h h'); try done; congruence.
  - destruct (set_repeat_spec g l p h r Hok Hp Eh) as [Er Hok'].
    exists 0, g. eexists. split; [by rewrite (bind_done _ _ _ _ _ Er)|]. split; [done|]. split; [done|].
    by apply (tracks_same g g l _ st p h (set_repeat r h)).
Qed.

Lemma handle_op_keeps g l st st' op :
  loop_ok g l -> g_new g = [] -> tracks g l st -> life (g_mem g) st op = Some st' ->
  match op with
  | OpClose _ _ | OpRef _ | OpUnref _ => op_keeps g l st' op
  | _ => True
  end.
Proof.
  intros Hok Hn Ht El. unfold op_keeps. destruct op as [| | | | | | |p c|p|p]; try done; cbn [life run_op] in *;
    destruct (st !! p) as [[ty cl]|] eqn:E; try done;
    destruct (tracks_some _ _ _ _ _ _ Ht E) as (Hp & h & Eh & Hty & Hcl).
  - destruct cl; [done|]. injection El as <-.
    destruct (close_spec g l p h c Hok Hp Eh Hcl) as (g' & l' & Er & Hok' & Hev & _ & Eall & h' & Eh' & _ & V1 & V2).
    exists 0, g', l'. split; [by rewrite (bind_done _ _ _ _ _ Er)|]. split; [done|]. split; [done|].
    rewrite <- Hty, <- V1, <- V2. apply (tracks_update g g' l l' st p h'); [done|by rewrite Eall|done|].
    intros q _. by rewrite Eall.
  - injection El as <-. destruct (lo_handles _ _ Hok p Hp) as (h0 & Eh0 & K). rewrite Eh in Eh0. injection Eh0 as <-.
    destruct (handle_ref_spec g l p h Hok Hp Eh (idle_of_new _ _ _ Hn K)) as (l' & h' & Er & Hok' & Eh' & V1 & V2).
    exists 0, g, l'. split; [by rewrite (bind_done _ _ _ _ _ Er)|]. split; [done|]. split; [done|].
    by apply (tracks_same g g l l' st p h h').
  - injection El as <-. destruct (lo_handles _ _ Hok p Hp) as (h0 & Eh0 & K). rewrite Eh in Eh0. injection Eh0 as <-.
    destruct (handle_unref_spec g l p h Hok Hp Eh (idle_of_new _ _ _ Hn K)) as (l' & h' & Er & Hok' & Eh' & V1 & V2).
    exists 0, g, l'. split; [by rewrite (bind_done _ _ _ _ _ Er)|]. split; [done|]. split; [done|].
    by apply (tracks_same g g l l' st p h h').
Qed.

Lemma evolves_main ml g : evolves g (with_main ml g).
Proof. by constructor. Qed.

Lemma watcher_op_keeps g l st st' op :
  loop_ok g l -> g_new g = [] -> tracks g l st -> zlen (g_mem g) < 2 ^ 32 ->
  life (g_mem g) st op = Some st' ->
  match op with
  | OpInit _ _ | OpWatcherStart _ _ _ | OpWatcherStop _ _ => op_keeps g l st' op
  | _ => True
  end.
Proof.
  intros Hok Hn Ht Hsz El. unfold op_keeps. destruct op as [ty p| | | | |w p c|w p| | |]; try done; cbn [life run_op] in *.
  - pose proof (Ht p) as Hp. destruct (st !! p) as [|] eqn:E; [done|]. case_bool_decide as Hm; [|done].
    injection El as <-. destruct (lo_mapped _ _ Hok p Hm) as (_ & _ & [h Eh]).
    destruct (init_spec g l p h ty Hok Hp Hm) as (l' & h' & Er & Hok' & Eh' & V1 & V2 & _); [|done|].
    { assert (zlen (p :: all_handles g) <= zlen (g_mem g)).
      { unfold zlen. apply Nat2Z.inj_le, submseteq_length, NoDup_submseteq.
        - apply NoDup_cons. split; [done|apply (lo_nodup _ _ Hok)].
        - intros q [->|Hq]%elem_of_cons; [done|by apply (lo_mem _ _ Hok)]. }
      rewrite zlen_cons in *. lia. }
    eexists 0, _, l'. split; [exact Er|]. split; [exact Hok'|]. split; [apply evolves_main|].
    assert (closing h' = false) as Hc by (unfold closing; by rewrite V2).
    rewrite <- V1, <- Hc. apply (tracks_update g _ l l' st p h'); [done| |done|].
    + unfold all_handles. cbn. rewrite !elem_of_app, list_elem_of_singleton. tauto.
    + intros q Hq. unfold all_handles. cbn. rewrite !elem_of_app, list_elem_of_singleton. tauto.
  - destruct (st !! p) as [[ty [|]]|] eqn:E; try done. case_bool_decide as Hty; [|done]. injection El as <-.
    destruct (tracks_some _ _ _ _ _ _ Ht E) as (Hp & h & Eh & Hth & Hcl). subst ty.
    destruct (active h) eqn:Ha; [|destruct (decide (c = 0)) as [->|Hc]].
    + exists 0, g, l. split; [|done]. unfold uv_watcher_start. rewrite (bind_get_handle _ _ _ _ Eh).
      unfold uv__is_active. by rewrite flag_active, Ha.
    + exists UV_EINVAL, g, l. split; [|done]. unfold uv_watcher_start. rewrite (bind_get_handle _ _ _ _ Eh).
      unfold uv__is_active. by rewrite flag_active, Ha.
    + destruct (watcher_start_spec g l p h w c) as (m & Er & Hok'); [done..|].
      eexists 0, _, _. split; [exact Er|]. split; [exact Hok'|]. split; [by apply evolves_watch|].
      eapply (tracks_same g _ l _ st p h); [done..| |]; [done|]. unfold closing in *. by bits.
  - destruct (is_type (st !! p) (UV_WATCHER w)) eqn:Ety; [|done]. injection El as <-.
    apply is_type_true in Ety as [cl E].
    destruct (stop_keeps g l st p (UV_WATCHER w) cl Hok Ht E) as (g' & l' & Er & ?). by exists 0, g', l'.
Qed.

Lemma run_op_keeps g l st st' op :
  loop_ok g l -> g_new g = [] -> tracks g l st -> zlen (g_mem g) < 2 ^ 32 ->
  life (g_mem g) st op = Some st' -> op_keeps g l st' op.
Proof.
  intros Hok Hn Ht Hsz El. pose proof (timer_op_keeps _ _ _ _ _ Hok Hn Ht El).
  pose proof (handle_op_keeps _ _ _ _ _ Hok Hn Ht El). pose proof (watcher_op_keeps _ _ _ _ _ Hok Hn Ht Hsz El).
  by destruct op.
Qed.

Lemma run_ops_keeps g l st st' ops :
  loop_ok g l -> g_new g = [] -> tracks g l st -> zlen (g_mem g) < 2 ^ 32 ->
  lives (g_mem g) st ops = Some st' ->
  exists g' l', run_ops ops l = Done tt l' /\ loop_ok g' l' /\ evolves g g' /\ tracks g' l' st'.
Proof.
  intros Hok Hn Ht Hsz. revert g l st Hok Hn Ht Hsz. induction ops as [|op ops IH]; intros g l st Hok Hn Ht Hsz El.
  { injection El as <-. by exists g, l. }
  cbn [lives] in El. destruct (life (g_mem g) st op) as [st1|] eqn:E1; [|done].
  destruct (run_op_keeps _ _ _ _ _ Hok Hn Ht Hsz E1) as (r & g1 & l1 & Er & Hok1 & Hev & Ht1).
  rewrite <- (ev_mem _ _ Hev) in El.
  destruct (IH g1 l1 st1) as (g' & l' & Er' & Hok' & Hev' & Ht'); [done| |done| |done|].
  { by rewrite (ev_new _ _ Hev). }
  { by rewrite (ev_mem _ _ Hev). }
  exists g', l'. cbn [run_ops]. rewrite (bind_done _ _ _ _ _ Er). split; [done|]. split; [done|].
  split; [by transitivity g1|done].
Qed.

(** ** A loop as [uv_loop_init] leaves the fields of the model, and memory at
    [ps] for the handles *)
Definition loop_heads : list qptr :=
  handle_queue :: walk_queue :: flat_map (fun w => [watcher_handles w; run_queue w]) [prepare; check; idle].

Definition self_linked (qs : list qptr) : gmap qptr (qnode qptr) :=
  foldr (fun q m => <[q := mk_qnode q q]> m) ∅ qs.

Definition zero_handle : uv_handle := mk_handle UV_TIMER 0 0 0 0 0 0 0.

Definition fresh_loop (ps : list Z) : uv_loop :=
  mk_loop 0 0 0 0 0 0
    (mk_heap (foldr (fun p m => <[p := mk_node 0 0 0]> m) ∅ ps) 0 0)
    (self_linked (loop_heads ++ map handle_node ps ++ map watcher_node ps))
    (foldr (fun p m => <[p := zero_handle]> m) ∅ ps).

Definition fresh_shape (ps : list Z) : shape :=
  mk_shape ps [] [] [] (fun _ => []) (fun _ => []) [] [] [].

Lemma foldr_insert_lookup `{Countable K} {A} (f : K -> A) (ks : list K) k :
  k ∈ ks -> foldr (fun q m => <[q := f q]> m) (∅ : gmap K A) ks !! k = Some (f k).
Proof.
  induction ks as [|q ks IH]; [by intros ?%elem_of_nil|]. intros Hk. cbn.
  destruct (decide (k = q)) as [->|Hne]; [apply lookup_insert_eq|].
  rewrite lookup_insert_ne by done. apply IH. by apply elem_of_cons in Hk as [|].
Qed.

Lemma self_linked_lookup qs q : q ∈ qs -> self_linked qs !! q = Some (mk_qnode q q).
Proof. apply (foldr_insert_lookup (fun q => mk_qnode q q)). Qed.

Lemma head_in q : is_head q = true -> q ∈ loop_heads.
Proof. intros Hq. unfold loop_heads. destruct q as [| |[]|[]| |]; try done; set_solver. Qed.

Lemma fresh_ok ps : 0 ∉ ps -> loop_ok (fresh_shape ps) (fresh_loop ps).
Proof.
  intros H0. constructor.
  - constructor; try done.
    + constructor; [constructor| |]; try done; [constructor|by intros ?%elem_of_nil|..].
      * intros i [? ?]. cbn in *. lia.
      * intros i Hi. cbn in Hi. lia.
    + intros q Hq. replace (qlist (fresh_shape ps) q) with (@nil qptr) by (by destruct q).
      assert (queues (fresh_loop ps) !! q = Some (mk_qnode q q)) as E.
      { apply self_linked_lookup, elem_of_app. left. by apply head_in. }
      apply queue_nil; unfold nxt, prv; by rewrite E.
  - constructor.
  - intros [|w]; (split; [constructor|]); by intros p ?%elem_of_nil.
  - split; [constructor|]. by intros p ?%elem_of_nil.
  - by intros p ?%elem_of_nil.
  - by intros p ?%elem_of_nil.
  - intros p Hp. split; [by intros ->|]. split; [split; [|split]|]; eexists.
    + by apply (foldr_insert_lookup (fun _ => mk_node 0 0 0)).
    + apply self_linked_lookup. rewrite !elem_of_app. right. right. apply list_elem_of_fmap. by exists p.
    + apply self_linked_lookup. rewrite !elem_of_app. right. left. apply list_elem_of_fmap. by exists p.
    + by apply (foldr_insert_lookup (fun _ => zero_handle)).
  - done.
  - done.
Qed.

Lemma fresh_tracks ps : tracks (fresh_shape ps) (fresh_loop ps) ∅.
Proof. intros p. rewrite lookup_empty. by intros ?%elem_of_nil. Qed.

(** The time is out of the invariant. *)
Lemma loop_ok_time g l n : loop_ok g l -> loop_ok g (with_time n l).
Proof. by intros [[] ? ? ? ? ? ? ? ?]. Qed.

Lemma tracks_time g l st n : tracks g l st -> tracks g (with_time n l) st.
Proof. done. Qed.
