(* ===== verification/UvTheorems.v ===== *)
(** libuv, the properties of the timer heap, of the queues and of the event
    loop, each with a witness on a concrete loop. *)
From S2P Require Import Prelude.
From S2P Require Import UvHeap.
From S2P Require Import UvHeapOrder.
From S2P Require Import UvHeapProofs.
From S2P Require Import UvQueue.
From S2P Require Import UvQueueProofs.
From S2P Require Import UvLoop.
From S2P Require Import UvTimer.
From S2P Require Import UvRun.
From S2P Require Import UvLoopInv.
From S2P Require Import UvLoopOps.
From S2P Require Import UvLogic.
From S2P Require Import UvRunProofs.
From S2P Require Import UvApi.
From Stdlib Require Import Sorting.Sorted.
#[local] Set Warnings "-clear-no-such-hyp".

(** ** The sample: two timers and a watcher *)
Definition sample_mem : list Z := [10; 20; 30; 40].

Definition sample_ops : list uv_op :=
  [OpInit UV_TIMER 10; OpInit UV_TIMER 20; OpInit (UV_WATCHER prepare) 30;
   OpTimerStart 10 7 5 0; OpTimerStart 20 8 3 4; OpWatcherStart prepare 30 9].

Definition sample : uv_loop :=
  match run_ops sample_ops (fresh_loop sample_mem) with Done _ l => l | _ => fresh_loop sample_mem end.

Definition sample_status : gmap Z status :=
  {[10 := (UV_TIMER, false); 20 := (UV_TIMER, false); 30 := (UV_WATCHER prepare, false)]}.

Lemma sample_ok :
  exists g, loop_ok g sample /\ g_new g = [] /\ g_walk g = [] /\ g_finishing g = [] /\
  (forall w, g_run g w = []) /\ g_mem g = sample_mem /\ tracks g sample sample_status.
Proof.
  destruct (run_ops_keeps (fresh_shape sample_mem) (fresh_loop sample_mem) ∅ sample_status sample_ops)
    as (g & l & E & Hok & [V0 V1 V2 V3 V4] & Ht); [|done|apply fresh_tracks|done|by vm_compute|].
  { by apply fresh_ok, (bool_decide_eq_true_1 _). }
  assert (sample = l) as -> by (unfold sample; by rewrite E).
  exists g. split; [exact Hok|]. split; [exact V3|]. split; [exact V2|]. split; [exact V4|].
  split; [|split; [exact V0|exact Ht]]. intros w. apply sublist_nil_r, V1.
Qed.

Lemma sample_size g : loop_ok g sample -> g_mem g = sample_mem -> (length (all_handles g) <= 4)%nat.
Proof.
  intros Hok Em. change 4%nat with (length sample_mem). rewrite <- Em.
  apply submseteq_length, NoDup_submseteq; [apply (lo_nodup _ _ Hok)|apply (lo_mem _ _ Hok)].
Qed.

(** Calls that are noted down. *)
Definition note_call (f p : Z) (log : list (Z * Z)) : list (Z * Z) := log ++ [(f, p)].
Definition quiet_call (f p : Z) : @R (list (Z * Z)) unit :=
  fun s => Done tt (fst s, note_call f p (snd s)).

Lemma quiet_call_quiet : quiet quiet_call note_call.
Proof. done. Qed.

(** Callbacks that keep the loop's invariant, and do not call [abort()]. *)
Definition stable {App} (call : Z -> Z -> @R App unit) : Prop := stable_with (Ab := no_abort) (fun _ => True) call.

Lemma quiet_stable {App} (call : Z -> Z -> @R App unit) note : quiet call note -> stable call.
Proof. intros Hq g l a f p Hok Hn Hf _ _. eapply gives_done; [apply Hq|by exists g]. Qed.

(** ** The heap *)
(** C33: the heap of [heap-inl.h], for any strict weak order, is a priority
    queue: the pointers represent a list in breadth-first order; [heap_insert]
    adds the new node to it, [heap_remove] takes any linked node out,
    [heap_min] and [heap_dequeue] read and take out a node below which there is
    none; no other node of the memory changes. *)
Theorem heap_is_priority_queue less `{!HeapOrder less} l h :
  heap_ok less l h ->
  (forall x, x ∉ l -> x <> 0 -> is_Some (nodes h !! x) -> zlen l + 1 < 2 ^ 32 ->
     exists l' h', heap_insert less x h = Done tt h' /\ heap_ok less l' h' /\ l' ≡ₚ x :: l /\
     frame (x :: l) h h') /\
  (forall x, x ∈ l -> zlen l < 2 ^ 32 ->
     exists l' h', heap_remove less x h = Done tt h' /\ heap_ok less l' h' /\ l ≡ₚ x :: l' /\
     frame l h h') /\
  (exists m, heap_min h = Done m h /\ (l = [] <-> m = 0) /\
     (l <> [] -> m ∈ l /\ forall x, x ∈ l -> less x m = false)) /\
  (l <> [] -> zlen l < 2 ^ 32 ->
     exists m l' h', heap_dequeue less h = Done tt h' /\ heap_ok less l' h' /\ l ≡ₚ m :: l' /\
     forall x, x ∈ l -> less x m = false).
Proof.
  intros Hok. destruct (heap_min_spec less l h Hok) as (Em & Enil & Hm).
  split; [|split; [|split]].
  - intros x H1 H2 H3 H4. by apply heap_insert_spec.
  - intros x H1 H2. by apply heap_remove_spec.
  - by exists (pos l 1).
  - intros Hne Hs. destruct (Hm Hne) as [Hin Hle].
    destruct (heap_remove_spec less l h (pos l 1) Hok Hin Hs) as (l' & h' & E & Hok' & Hp & _).
    exists (pos l 1), l', h'. split; [|done]. unfold heap_dequeue. by rewrite (bind_done _ _ _ _ _ Em).
Qed.

#[local] Instance ltb_order : HeapOrder Z.ltb.
Proof.
  split; intros; repeat match goal with
  | H : context [?x <? ?y] |- _ => destruct (Z.ltb_spec x y)
  | |- context [?x <? ?y] => destruct (Z.ltb_spec x y)
  end; done || lia.
Qed.

Definition two_nodes : heap := mk_heap {[1 := mk_node 0 0 0; 2 := mk_node 0 0 0]} 0 0.

Lemma heap_is_priority_queue_witness :
  exists l h h', heap_insert Z.ltb 2 two_nodes = Done tt h /\ heap_insert Z.ltb 1 h = Done tt h' /\
  min h' = 1 /\ heap_ok Z.ltb l h' /\ l ≡ₚ [1; 2].
Proof.
  assert (heap_ok Z.ltb [] two_nodes) as H0.
  { constructor; [constructor| |]; try done; [constructor|by intros ?%elem_of_nil|..];
      intros i Hi; unfold valid in Hi; cbn in Hi; lia. }
  destruct (heap_is_priority_queue Z.ltb [] two_nodes H0) as [Hi _].
  destruct (Hi 2) as (l1 & h1 & E1 & Hok1 & Hp1 & _); [by intros ?%elem_of_nil|done|by eexists|done|].
  assert (h1 = match heap_insert Z.ltb 2 two_nodes with Done _ h => h | _ => two_nodes end) as Eh
    by (by rewrite E1).
  destruct (heap_is_priority_queue Z.ltb l1 h1 Hok1) as [Hi1 _].
  destruct (Hi1 1) as (l2 & h2 & E2 & Hok2 & Hp2 & _).
  { rewrite Hp1. by apply (bool_decide_eq_true_1 _). }
  { done. }
  { rewrite Eh. vm_compute. by eexists. }
  { unfold zlen. by rewrite Hp1. }
  exists l2, h1, h2. split; [done|]. split; [done|].
  split; [|split; [done|by rewrite Hp2, Hp1]].
  assert (h2 = match heap_insert Z.ltb 1 h1 with Done _ h => h | _ => two_nodes end) as Eh2 by (by rewrite E2).
  rewrite Eh2, Eh. by vm_compute.
Defined.

(** ** The queues *)
(** the macros of [queue.h] on the circular doubly linked nodes are the
    operations of lists: test for empty, first node, insertion at both ends,
    removal of any node, all of the nodes moved to an other head, the nodes of
    a queue appended to an other one; they write to no node out of the queues
    and to none that is not mapped. *)
Theorem queue_ops_are_list_ops `{Countable K} h l (m : gmap K (qnode K)) :
  queue m h l ->
  QUEUE_EMPTY h m = Done (bool_decide (l = [])) m /\
  (forall x k, l = x :: k -> QUEUE_HEAD h m = Done x m) /\
  (forall q, q ∉ h :: l -> is_Some (nxt m q) ->
     (exists m', QUEUE_INSERT_TAIL h q m = Done tt m' /\ queue m' h (l ++ [q]) /\
        changes (q :: h :: l) m m') /\
     (exists m', QUEUE_INSERT_HEAD h q m = Done tt m' /\ queue m' h (q :: l) /\
        changes (q :: h :: l) m m')) /\
  (forall l1 q l2, l = l1 ++ q :: l2 ->
     exists m', QUEUE_REMOVE q m = Done tt m' /\ queue m' h (l1 ++ l2) /\ changes (h :: l1 ++ l2) m m') /\
  (forall n, n ∉ h :: l -> is_Some (nxt m n) ->
     exists m', QUEUE_MOVE h n m = Done tt m' /\ queue m' h [] /\ queue m' n l /\
       changes (n :: h :: l) m m') /\
  (forall n k, queue m n k -> (forall x, x ∈ h :: l -> x ∉ n :: k) ->
     exists m', QUEUE_ADD h n m = Done tt m' /\ queue m' h (l ++ k) /\ changes (n :: k ++ h :: l) m m').
Proof.
  intros Hq. split; [by apply QUEUE_EMPTY_spec|]. split; [intros x k ->; by eapply QUEUE_HEAD_spec|].
  split; [intros q Hn Hm; split; [by apply QUEUE_INSERT_TAIL_spec|by apply QUEUE_INSERT_HEAD_spec]|].
  split; [intros l1 q l2 ->; by apply QUEUE_REMOVE_spec|].
  split; [intros; by apply QUEUE_MOVE_spec|intros; by apply QUEUE_ADD_spec].
Qed.

Lemma queue_ops_are_list_ops_witness :
  let m := {[0 := mk_qnode 0 0; 1 := mk_qnode 1 1]} : gmap Z (qnode Z) in
  QUEUE_EMPTY 0 m = Done true m /\
  exists m', QUEUE_INSERT_TAIL 0 1 m = Done tt m' /\ queue m' 0 [1].
Proof.
  intros m. assert (queue m 0 []) as Hq by (by apply queue_nil; vm_compute).
  destruct (queue_ops_are_list_ops 0 [] m Hq) as (E & _ & Hins & _). split; [exact E|].
  destruct (Hins 1) as [(m' & Ei & Hq' & _) _]; [by apply (bool_decide_eq_true_1 _)|vm_compute; by eexists|].
  exists m'. split; [exact Ei|exact Hq'].
Defined.

(** ** Programs of calls *)
(** C29: any program of calls on timers, prepare, check and idle handles that
    follows their life cycle (init before use, a call for the type of the
    handle, one close), from a fresh loop: no call has undefined behaviour or
    a failed assert, and the loop ends in its invariant: heap, queues and
    closing chain hold the handles that the flags say, the active handles are
    counted, and each handle has the type and the state of the life cycle. *)
Theorem programs_keep_loop_invariant ps ops st :
  0 ∉ ps -> zlen ps < 2 ^ 32 -> lives ps ∅ ops = Some st ->
  exists g l, run_ops ops (fresh_loop ps) = Done tt l /\ loop_ok g l /\ tracks g l st /\
  active_handles l = count (counted (handles l)) (all_handles g).
Proof.
  intros H0 Hs El.
  destruct (run_ops_keeps (fresh_shape ps) (fresh_loop ps) ∅ st ops) as (g & l & E & Hok & _ & Ht);
    [by apply fresh_ok|done|apply fresh_tracks|done|done|].
  exists g, l. split; [done|]. split; [done|]. split; [done|]. apply (lo_active _ _ Hok).
Qed.

Lemma programs_keep_loop_invariant_witness :
  exists g l, run_ops (sample_ops ++ [OpUnref 10; OpClose 20 5]) (fresh_loop sample_mem) = Done tt l /\
  loop_ok g l /\ active_handles l = 1.
Proof.
  destruct (programs_keep_loop_invariant sample_mem (sample_ops ++ [OpUnref 10; OpClose 20 5])
    (<[20 := (UV_TIMER, true)]> sample_status)) as (g & l & E & Hok & _ & _);
    [by apply (bool_decide_eq_true_1 _)|done|by vm_compute|].
  exists g, l. split; [exact E|]. split; [exact Hok|].
  assert (Some (active_handles l) = match run_ops (sample_ops ++ [OpUnref 10; OpClose 20 5])
    (fresh_loop sample_mem) with Done _ l => Some (active_handles l) | _ => None end) as E' by (by rewrite E).
  vm_compute in E'. by injection E'.
Defined.

(** ** Timers *)
(** [uv_timer_start]: [UV_EINVAL] without a change for a closing handle or
    no callback; else the timer, active or not, ends active with the callback,
    the repeat, the next start id and the timeout from now that saturates at
    the end of [uint64_t]; the other timers stay in the heap. *)
Theorem timer_start_schedules g l p h c t r :
  loop_ok g l -> p ∈ all_handles g -> handles l !! p = Some h -> type h = UV_TIMER ->
  0 <= time l < 2 ^ 64 -> 0 <= t < 2 ^ 64 ->
  if uv__is_closing h || (c =? 0) then uv_timer_start p c t r l = Done UV_EINVAL l
  else exists g' l' h', uv_timer_start p c t r l = Done 0 l' /\ loop_ok g' l' /\
    handles l' = <[p := h']> (handles l) /\ uv__is_active h' = true /\ cb h' = c /\ repeat h' = r /\
    timeout h' = Z.min (time l + t) (2 ^ 64 - 1) /\ start_id h' = timer_counter l /\
    timer_counter l' = u64 (timer_counter l + 1) /\
    forall q, q ∈ g_timers g' <-> q = p \/ q ∈ g_timers g.
Proof.
  intros Hok Hp Eh Hty Ht Ht'. rewrite is_closing_bits.
  destruct (closing h || closed h) eqn:Ec; [|destruct (Z.eqb_spec c 0) as [->|Hc]]; cbn [orb].
  - apply (timer_start_einval p h); auto.
  - apply (timer_start_einval p h); auto.
  - apply orb_false_iff in Ec as [Ec _].
    destruct (timer_start_spec g l p h c t r Hok Hp Eh Hty Ec Hc)
      as (g' & l' & h' & E & Hok' & _ & Eh' & _ & V2 & _ & _ & V5 & V6 & V7 & V8 & V9 & _ & _ & V12).
    exists g', l', h'. unfold uv__is_active. rewrite flag_active, <- deadline_min by done. done.
Qed.

Lemma sample_timer :
  exists g h, loop_ok g sample /\ 10 ∈ all_handles g /\ handles sample !! 10 = Some h /\ type h = UV_TIMER /\
  uv__is_closing h = false /\ g_finishing g = [] /\ (S (length (g_closing g)) < 6)%nat.
Proof.
  destruct sample_ok as (g & Hok & _ & _ & Hf & _ & Em & Ht).
  assert (sample_status !! 10 = Some (UV_TIMER, false)) as Es by (by vm_compute).
  destruct (tracks_some _ _ _ 10 _ _ Ht Es) as (Hp & h & Eh & Hty & Hc).
  exists g, h. split; [exact Hok|]. split; [exact Hp|]. split; [exact Eh|]. split; [exact Hty|].
  destruct (lo_handles _ _ Hok 10 Hp) as (h0 & Eh0 & K). rewrite Eh in Eh0. injection Eh0 as <-.
  split; [by rewrite is_closing_bits, Hc, (h_closed _ _ _ K)|]. split; [exact Hf|].
  destruct (lo_closing _ _ Hok) as [Hcd Hcs]. pose proof (sample_size _ Hok Em).
  assert (length (all_closing g) <= length (all_handles g))%nat.
  { apply submseteq_length. by apply NoDup_submseteq. }
  unfold all_closing, linked_closing in *. rewrite !length_app in *. lia.
Qed.

Lemma timer_start_schedules_witness :
  exists l', uv_timer_start 10 9 (2 ^ 64 - 1) 0 (with_time 6 sample) = Done 0 l' /\
  (timeout <$> handles l' !! 10) = Some (2 ^ 64 - 1).
Proof.
  destruct sample_timer as (g & h & Hok & Hp & Eh & Hty & Ec & _). revert Hok Eh. generalize sample as l.
  intros l Hok Eh.
  pose proof (timer_start_schedules g (with_time 6 l) 10 h 9 (2 ^ 64 - 1) 0 (loop_ok_time g l 6 Hok)
    Hp Eh Hty ltac:(cbn; lia) ltac:(lia)) as Hth. rewrite Ec in Hth.
  destruct Hth as (g' & l' & h' & Er & _ & Eh' & _ & _ & _ & Et & _).
  exists l'. split; [exact Er|]. rewrite Eh', lookup_insert_eq. cbn [fmap option_fmap option_map].
  rewrite Et. reflexivity.
Defined.

(** The timers are due at the time of the loop, in [uint64_t]. *)
Definition timeouts_ok (l : uv_loop) : Prop :=
  forall p h, handles l !! p = Some h -> 0 <= timeout h < 2 ^ 64.

(** [uv__next_timeout] is -1 without active timers, else the milliseconds up
    to the earliest timeout: 0 when it has passed, at most [INT_MAX]. *)
Theorem next_timeout_exact g l :
  loop_ok g l -> 0 <= time l < 2 ^ 64 -> timeouts_ok l ->
  exists r, uv__next_timeout l = Done r l /\ (g_timers g = [] -> r = -1) /\
  (g_timers g <> [] -> exists p, p ∈ g_timers g /\
     (forall q, q ∈ g_timers g -> timeout_of (handles l) p <= timeout_of (handles l) q) /\
     r = Z.min INT_MAX (Z.max 0 (timeout_of (handles l) p - time l))).
Proof.
  intros Hok Ht Hto. destruct (heap_min_run _ _ Hok) as (E & Enil & Hmin). unfold uv__next_timeout.
  rewrite (bind_done _ _ _ _ _ E). destruct (Z.eqb_spec (pos (g_timers g) 1) 0) as [E0|E0].
  { exists (-1). split; [done|]. split; [done|]. intros Hne. by apply Enil in E0. }
  assert (g_timers g <> []) as Hne by (intros E1; by apply Enil in E1).
  destruct (Hmin Hne) as [Hp Hle]. destruct (timer_handle _ _ _ Hok Hp) as (_ & h & Eh & _).
  rewrite (bind_get_handle _ _ _ _ Eh), bind_gets.
  assert (timeout_of (handles l) (pos (g_timers g) 1) = timeout h) as Eto by (unfold timeout_of; by rewrite Eh).
  pose proof (Hto _ _ Eh) as Hr.
  exists (Z.min INT_MAX (Z.max 0 (timeout_of (handles l) (pos (g_timers g) 1) - time l))).
  split; [|split; [done|]].
  2: { intros _. exists (pos (g_timers g) 1). split; [done|].
       split; [intros q Hq; by apply less_timeout, Hle|reflexivity]. }
  rewrite Eto. destruct (Z.leb_spec (timeout h) (time l)).
  - replace (Z.min INT_MAX (Z.max 0 (timeout h - time l))) with 0 by (unfold INT_MAX; lia). done.
  - rewrite u64_small by lia. unfold ret. f_equal. unfold s32. rewrite swrap_small; [|lia|].
    + destruct (Z.ltb_spec INT_MAX (timeout h - time l)); unfold INT_MAX in *; lia.
    + unfold INT_MAX in *. destruct (Z.ltb_spec 2147483647 (timeout h - time l)); lia.
Qed.

Lemma sample_ranges :
  (forall p h, handles sample !! p = Some h -> 0 <= timeout h < 2 ^ 64) /\
  (forall p h, handles sample !! p = Some h -> 0 <= repeat h < 2 ^ 64).
Proof.
  assert (map_Forall (fun _ h => 0 <= timeout h < 2 ^ 64 /\ 0 <= repeat h < 2 ^ 64) (handles sample)) as H.
  { apply (bool_decide_eq_true_1 _). by vm_compute. }
  split; intros p h E; by apply (H p h E).
Qed.

Lemma sample_shape :
  exists g, loop_ok g sample /\ g_new g = [] /\ g_finishing g = [] /\ (forall w, g_run g w = []) /\
  (length (all_handles g) <= 4)%nat.
Proof.
  destruct sample_ok as (g & Hok & H1 & H2 & H3 & H4 & H5 & _). exists g. split; [exact Hok|].
  split; [exact H1|]. split; [exact H3|]. split; [exact H4|]. by apply sample_size.
Qed.

Lemma next_timeout_exact_witness :
  exists r, uv__next_timeout sample = Done r sample /\ r = 3.
Proof.
  assert (match uv__next_timeout sample with Done r _ => Some r | _ => None end = Some 3) as E3 by (by vm_compute).
  assert (time sample = 0) as E0 by (by vm_compute).
  destruct sample_shape as (g & Hok & _). destruct sample_ranges as [Hto _].
  revert E3 E0 Hok Hto. generalize sample as l. intros l E3 E0 Hok Hto.
  destruct (next_timeout_exact g l Hok ltac:(rewrite E0; lia) Hto) as (r & E & _).
  exists r. split; [exact E|]. rewrite E in E3. by injection E3.
Defined.

(** C24: with callbacks that leave the loop alone, [uv__run_timers] calls the
    callbacks of exactly the timers that are due, once each, by timeout and
    then by start; it returns, since a timer that repeats starts again after
    the time of the loop; at the end no timer is due, a timer that does not
    repeat has stopped and the handles that were not due are as before. *)
Theorem run_timers_fires_due {App} (call : Z -> Z -> @R App unit) note fuel g l a :
  quiet call note -> loop_ok g l -> g_new g = [] -> 0 <= time l < 2 ^ 64 - 1 -> repeats_ok l ->
  count (due l) (g_timers g) < Z.of_nat fuel ->
  exists g' l' ds,
    uv__run_timers call fuel (l, a) = Done tt (l', foldl (fun a p => fire note (handles l) p a) a ds) /\
    loop_ok g' l' /\ NoDup ds /\ (forall p, p ∈ ds <-> p ∈ g_timers g /\ due l p = true) /\
    StronglySorted (no_later (handles l)) ds /\
    (forall p, p ∈ g_timers g' -> due l' p = false) /\
    (forall p, p ∉ ds -> handles l' !! p = handles l !! p) /\
    (forall p h, p ∈ ds -> handles l !! p = Some h ->
       exists h', handles l' !! p = Some h' /\ rearmed (time l) h h').
Proof.
  intros Hq Hok Hn Ht Hr Hf.
  destruct (run_timers_spec call note Hq fuel g l a Hok Hn Ht Hr Hf)
    as (g' & l' & ds & E & Hok' & _ & _ & Hnd & Hds & Hs & Hnone & Hout & Hin).
  by exists g', l', ds.
Qed.

Lemma timers_few g l : loop_ok g l -> (length (all_handles g) <= 4)%nat ->
  count (due l) (g_timers g) < Z.of_nat 5.
Proof.
  intros Hok Hs. pose proof (count_bounds (due l) (g_timers g)). pose proof (timers_size _ _ Hok).
  unfold zlen in *. lia.
Qed.

Lemma run_timers_fires_due_witness :
  exists l' log, uv__run_timers quiet_call 5 (with_time 6 sample, []) = Done tt (l', log) /\
  log = [(8, 20); (7, 10)].
Proof.
  assert (match uv__run_timers quiet_call 5 (with_time 6 sample, []) with
          | Done _ (_, log) => Some log | _ => None end = Some [(8, 20); (7, 10)]) as El by (by vm_compute).
  destruct sample_shape as (g & Hok & Hn & _ & _ & Hs). destruct sample_ranges as [_ Hr].
  revert El Hok Hr. generalize sample as l. intros l El Hok Hr.
  destruct (run_timers_fires_due quiet_call note_call 5 g (with_time 6 l) [] quiet_call_quiet
    (loop_ok_time _ _ _ Hok) Hn ltac:(cbn; lia) Hr (timers_few _ _ (loop_ok_time _ _ _ Hok) Hs))
    as (g' & l' & ds & E & _).
  eexists l', _. split; [exact E|]. rewrite E in El. by injection El.
Defined.

(** ** Watchers *)
(** with callbacks that leave the loop alone, [uv__run_prepare],
    [uv__run_check] and [uv__run_idle] call the callback of each of their
    active handles once, in the order of the queue, which ends as it was; the
    handles do not change. *)
Theorem watchers_run_once_in_order {App} (call : Z -> Z -> @R App unit) note w fuel g l a :
  quiet call note -> loop_ok g l -> g_run g w = [] -> (length (g_watch g w) < fuel)%nat ->
  exists g' l', uv__run_watchers call w fuel (l, a)
    = Done tt (l', foldl (fun a p => fire note (handles l) p a) a (g_watch g w)) /\
  loop_ok g' l' /\ g_watch g' w = g_watch g w /\ g_run g' w = [] /\ handles l' = handles l.
Proof.
  intros Hq Hok Hr Hf.
  destruct (run_watchers_quiet call note w fuel g l a Hq Hok Hr Hf) as (m & g' & E & Hok' & Ew & Er & _).
  exists g', (with_queues m l). do 4 (split; [done|]). done.
Qed.

Lemma watchers_few g l w : loop_ok g l -> (length (all_handles g) <= 4)%nat -> (length (g_watch g w) < 5)%nat.
Proof.
  intros Hok Hs. destruct (lo_members _ _ Hok (UV_WATCHER w)) as [Hd Hsub].
  assert (length (members g (UV_WATCHER w)) <= length (all_handles g))%nat.
  { apply submseteq_length. by apply NoDup_submseteq. }
  cbn in *. rewrite length_app in *. lia.
Qed.

Lemma watchers_run_once_in_order_witness :
  exists l' log, uv__run_watchers quiet_call prepare 5 (sample, []) = Done tt (l', log) /\ log = [(9, 30)].
Proof.
  assert (match uv__run_watchers quiet_call prepare 5 (sample, []) with
          | Done _ (_, log) => Some log | _ => None end = Some [(9, 30)]) as El by (by vm_compute).
  destruct sample_shape as (g & Hok & Hn & _ & Hr & Hs).
  revert El Hok. generalize sample as l. intros l El Hok.
  destruct (watchers_run_once_in_order quiet_call note_call prepare 5 g l [] quiet_call_quiet Hok (Hr prepare)
    (watchers_few _ _ _ Hok Hs)) as (g' & l' & E & _).
  eexists l', _. split; [exact E|]. rewrite E in El. by injection El.
Defined.

(** whatever the callbacks do to the loop by calls that keep its invariant
    (starts, stops, closes, inits), the runs of the watchers and of the pending
    closes end: a turn takes one handle of a queue that no call adds to, or of
    the chain of the closes taken before; the fuel is their length. *)
Theorem callbacks_may_call_back {App} (call : Z -> Z -> @R App unit) w fuel g l a :
  stable call -> loop_ok g l -> g_new g = [] ->
  (g_run g w = [] -> (length (g_watch g w) < fuel)%nat ->
   exists g' l' a', uv__run_watchers call w fuel (l, a) = Done tt (l', a') /\ loop_ok g' l' /\
     evolves g g') /\
  (g_finishing g = [] -> (length (g_closing g) < fuel)%nat ->
   exists g' l' a', uv__run_closing_handles call fuel (l, a) = Done tt (l', a') /\ loop_ok g' l' /\
     g_finishing g' = []).
Proof.
  intros Hst Hok Hn. split.
  { intros Hr Hf. destruct (gives_no_abort _ _ _ (run_watchers_stable _ call w fuel g l a Hst Hok Hn Hr Hf I))
      as ([] & (l' & a') & ? & g' & ? & ? & _). by exists g', l', a'. }
  intros Ef Hf. destruct (start_closing g l Hok Ef) as [E0 Hok1].
  destruct (gives_no_abort _ _ _ (run_closing_stable _ call fuel _ (with_closing 0 l) a Hst Hok1 Hn Hf I))
    as ([] & (l' & a') & E & g' & Hok' & Ef' & _).
  exists g', l', a'. split; [|done]. unfold uv__run_closing_handles.
  rewrite (bind_on_loop (gets closing_handles) (hd 0 (g_closing g)) l l) by (unfold gets; by rewrite E0).
  by rewrite (bind_on_loop (modify (with_closing 0)) tt l (with_closing 0 l)).
Qed.

(** A callback that stops its own handle. *)
Definition stop_itself (f p : Z) : @R unit unit :=
  let* h := on_loop (get_handle p) in
  if closed h then ret tt else on_loop (stop_of (type h) p);;; ret tt.

Lemma stop_itself_stable : stable stop_itself.
Proof.
  intros g l a f p Hok Hn Hf Hp _. unfold stop_itself. destruct Hp as [Hp|(h & Eh & Hc)].
  - destruct (lo_handles _ _ Hok p Hp) as (h & Eh & K).
    destruct (stop_spec g l p h Hok Hp Eh) as (g' & l' & h' & Er & Hok' & Hev & _).
    eapply gives_done with (t := (l', a)); [|by exists g'].
    by rewrite (bind_on_loop _ _ _ _ _ _ (get_handle_run _ _ _ Eh)), (h_closed _ _ _ K), (bind_on_loop _ _ _ _ _ _ Er).
  - eapply gives_done with (t := (l, a)); [|by exists g].
    by rewrite (bind_on_loop _ _ _ _ _ _ (get_handle_run _ _ _ Eh)), Hc.
Qed.

Lemma callbacks_may_call_back_witness :
  exists l' a', uv__run_watchers stop_itself prepare 5 (sample, ()) = Done tt (l', a') /\
  active_handles l' = 2.
Proof.
  assert (match uv__run_watchers stop_itself prepare 5 (sample, ()) with
          | Done _ (l, _) => Some (active_handles l) | _ => None end = Some 2) as El by (by vm_compute).
  destruct sample_shape as (g & Hok & Hn & _ & Hr & Hs).
  revert El Hok. generalize sample as l. intros l El Hok.
  destruct (callbacks_may_call_back stop_itself prepare 5 g l () stop_itself_stable Hok Hn) as [Hw _].
  destruct (Hw (Hr prepare) (watchers_few _ _ _ Hok Hs)) as (g' & l' & a' & E & _).
  exists l', a'. split; [exact E|]. rewrite E in El. by injection El.
Defined.

(** ** Closing *)
(** a close ends with one call of its callback: after [uv_close], which
    asserts nothing on a handle that is not closing, the handle is stopped and
    pending; [uv__run_closing_handles] marks all of the pending handles closed,
    takes them out of the handles of the loop and calls the callback of each
    once, the last closed first. *)
Theorem close_calls_back_once {App} (call : Z -> Z -> @R App unit) note fuel g l p h c a :
  quiet call note -> loop_ok g l -> g_finishing g = [] -> p ∈ all_handles g ->
  handles l !! p = Some h -> uv__is_closing h = false -> (S (length (g_closing g)) < fuel)%nat ->
  exists l1, uv_close p c l = Done tt l1 /\
  exists g' l', uv__run_closing_handles call fuel (l1, a)
    = Done tt (l', foldl (note_close note (handles l1)) a (p :: g_closing g)) /\
  (exists h1, handles l1 !! p = Some h1 /\ close_cb h1 = c) /\
  loop_ok g' l' /\ all_handles g ≡ₚ (p :: g_closing g) ++ all_handles g' /\
  (forall q, q ∈ p :: g_closing g -> exists h', handles l' !! q = Some h' /\ closed h' = true).
Proof.
  intros Hq Hok Ef Hp Eh Hc Hf. rewrite is_closing_bits in Hc. apply orb_false_iff in Hc as [Hc _].
  destruct (close_spec g l p h c Hok Hp Eh Hc)
    as (g1 & l1 & E1 & Hok1 & Hev & Ecl & Eall & h1 & Eh1 & Ecb & _).
  exists l1. split; [done|].
  assert (g_finishing g1 = []) as Ef1 by (by rewrite (ev_finishing _ _ Hev)).
  destruct (start_closing g1 l1 Hok1 Ef1) as [E0 Hok2].
  destruct (run_closing_quiet call note fuel _ (with_closing 0 l1) a Hq Hok2)
    as (g' & l' & E & Hok' & _ & _ & Eall' & _ & Hcl); [cbn; rewrite Ecl; cbn; lia|].
  cbn [g_finishing] in E, Eall', Hcl. rewrite Ecl in E, Eall', Hcl.
  exists g', l'. split; [|split; [|split; [done|split; [|done]]]].
  - unfold uv__run_closing_handles. rewrite Ecl in E0.
    rewrite (bind_on_loop (gets closing_handles) p l1 l1) by (unfold gets; by rewrite E0).
    by rewrite (bind_on_loop (modify (with_closing 0)) tt l1 (with_closing 0 l1)).
  - exists h1. by rewrite Eh1, lookup_insert_eq.
  - rewrite <- Eall', <- Eall. done.
Qed.

Lemma close_calls_back_once_witness :
  exists l1 l' log, uv_close 10 77 sample = Done tt l1 /\
  uv__run_closing_handles quiet_call 6 (l1, []) = Done tt (l', log) /\ log = [(77, 10)].
Proof.
  assert (match uv_close 10 77 sample with Done _ l1 =>
      match uv__run_closing_handles quiet_call 6 (l1, []) with Done _ (_, log) => Some log | _ => None end
    | _ => None end = Some [(77, 10)]) as El by (by vm_compute).
  destruct sample_timer as (g & h & Hok & Hp & Eh & _ & Hc & Ef & Hs).
  revert El Hok Eh. generalize sample as l. intros l El Hok Eh.
  destruct (close_calls_back_once quiet_call note_call 6 g l 10 h 77 [] quiet_call_quiet Hok Ef Hp Eh Hc Hs)
    as (l1 & E1 & g' & l' & E & _).
  eexists l1, l', _. split; [exact E1|]. split; [exact E|]. rewrite E1, E in El. by injection El.
Defined.
