(* ===== verification/UvIo.v ===== *)
(** libuv, the I/O watchers of [unix/core.c]: the table of the loop from file
    descriptors to watchers, the queue of the watchers to register and the queue of
    the pending ones; [uv__platform_invalidate_fd] of [unix/kqueue.c]. *)
From S2P Require Import Prelude.
From S2P Require Import UvQueue.
From S2P Require Import UvLoop.

(** ** Data *)
(** The addresses of the [QUEUE] nodes: the heads, and the nodes in a watcher. *)
Inductive ioptr : Set :=
| watcher_queue                    (* loop->watcher_queue *)
| pending_queue                    (* loop->pending_queue *)
| local_pq                         (* the local of uv__run_pending *)
| w_node (w : Z)                   (* w->watcher_queue *)
| p_node (w : Z).                  (* w->pending_queue *)

#[export] Instance ioptr_eq_dec : EqDecision ioptr.
Proof. solve_decision. Defined.

#[export] Instance ioptr_countable : Countable ioptr.
Proof.
  refine (inj_countable'
    (fun q => match q with
      | watcher_queue => inl (inl ()) | pending_queue => inl (inr true) | local_pq => inl (inr false)
      | w_node w => inr (inl w) | p_node w => inr (inr w)
      end)
    (fun s => match s with
      | inl (inl _) => watcher_queue | inl (inr true) => pending_queue | inl (inr false) => local_pq
      | inr (inl w) => w_node w | inr (inr w) => p_node w
      end) _).
  by intros [].
Defined.

(** [uv__io_t], with the fields of the platform; a function pointer is a [Z]. *)
Record uv__io : Type := mk_io {
  io_cb : Z;
  fd : Z;
  pevents : Z;
  events : Z;
  rcount : Z;
  wcount : Z
}.

Definition set_pevents (v : Z) (w : uv__io) : uv__io :=
  mk_io (io_cb w) (fd w) v (events w) (rcount w) (wcount w).
Definition set_events (v : Z) (w : uv__io) : uv__io :=
  mk_io (io_cb w) (fd w) (pevents w) v (rcount w) (wcount w).
Definition set_rcount (v : Z) (w : uv__io) : uv__io :=
  mk_io (io_cb w) (fd w) (pevents w) (events w) v (wcount w).
Definition set_wcount (v : Z) (w : uv__io) : uv__io :=
  mk_io (io_cb w) (fd w) (pevents w) (events w) (rcount w) v.

(** [struct kevent]; [udata] is not used. *)
Record kev : Type := mk_kev { ident : Z; kfilter : Z; kflags : Z; fflags : Z; kdata : Z }.

(** The fields of [uv_loop_t] for I/O, and the memory of the watchers.
    [watchers] is [None] for [NULL]; [poll_array] is the local [events] of the
    running [uv__io_poll]; [loop_flags] is [flags] and [signal_io_watcher] the
    address of that watcher. *)
Record io_loop : Type := mk_io_loop {
  watchers : option (list Z);
  nwatchers : Z;
  nfds : Z;
  io_queues : gmap ioptr (qnode ioptr);
  ios : gmap Z uv__io;
  poll_array : list kev;
  signal_io_watcher : Z;
  loop_flags : Z
}.

Definition with_watchers (v : option (list Z)) (l : io_loop) : io_loop :=
  mk_io_loop v (nwatchers l) (nfds l) (io_queues l) (ios l) (poll_array l) (signal_io_watcher l) (loop_flags l).
Definition with_nwatchers (v : Z) (l : io_loop) : io_loop :=
  mk_io_loop (watchers l) v (nfds l) (io_queues l) (ios l) (poll_array l) (signal_io_watcher l) (loop_flags l).
Definition with_nfds (v : Z) (l : io_loop) : io_loop :=
  mk_io_loop (watchers l) (nwatchers l) v (io_queues l) (ios l) (poll_array l) (signal_io_watcher l) (loop_flags l).
Definition with_io_queues (v : gmap ioptr (qnode ioptr)) (l : io_loop) : io_loop :=
  mk_io_loop (watchers l) (nwatchers l) (nfds l) v (ios l) (poll_array l) (signal_io_watcher l) (loop_flags l).
Definition with_ios (v : gmap Z uv__io) (l : io_loop) : io_loop :=
  mk_io_loop (watchers l) (nwatchers l) (nfds l) (io_queues l) v (poll_array l) (signal_io_watcher l) (loop_flags l).
Definition with_poll_array (v : list kev) (l : io_loop) : io_loop :=
  mk_io_loop (watchers l) (nwatchers l) (nfds l) (io_queues l) (ios l) v (signal_io_watcher l) (loop_flags l).

Definition IO : Type -> Type := M io_loop.

Definition io_queue {A} (m : @Qm ioptr _ _ A) : IO A := in_part io_queues with_io_queues m.

(** [*w], and assignments through it. *)
Definition get_io (w : Z) : IO uv__io := fun l => of_option UbMem (ios l !! w) l.
Definition upd_io (w : Z) (f : uv__io -> uv__io) : IO unit :=
  let* _ := get_io w in modify (fun l => with_ios (alter f w (ios l)) l).

(** [a[i]] and [a[i] = v]. *)
Definition at_index {A} (a : list A) (i : Z) : option A := if i <? 0 then None else a !! Z.to_nat i.
Definition put_index {A} (a : list A) (i : Z) (v : A) : option (list A) :=
  match at_index a i with Some _ => Some (<[Z.to_nat i := v]> a) | None => None end.

(** [loop->watchers[i]]. *)
Definition get_watcher (i : Z) : IO Z :=
  let* ws := gets watchers in
  match ws with None => undef UbMem | Some ws => of_option UbArray (at_index ws i) end.
Definition put_watcher (i v : Z) : IO unit :=
  let* ws := gets watchers in
  match ws with
  | None => undef UbMem
  | Some ws => let* ws := of_option UbArray (put_index ws i v) in modify (with_watchers (Some ws))
  end.

(** ** Constants: [poll.h] of the platform, [unix/internal.h] *)
Definition POLLIN : Z := 0x1.
Definition POLLPRI : Z := 0x2.
Definition POLLOUT : Z := 0x4.
Definition POLLERR : Z := 0x8.
Definition UV__POLLRDHUP : Z := 0x2000.
Definition UV__POLLPRI : Z := POLLPRI.

(** [POLLIN | POLLOUT | UV__POLLRDHUP | UV__POLLPRI] *)
Definition poll_mask : Z := Z.lor (Z.lor (Z.lor POLLIN POLLOUT) UV__POLLRDHUP) UV__POLLPRI.

(** The two assertions on the events of [uv__io_start], [uv__io_stop] and
    [uv__io_active]. *)
Definition assert_events (evs : Z) : IO unit :=
  assert (Z.land evs (u32 (Z.lnot poll_mask)) =? 0);;;
  assert (negb (evs =? 0)).

(** ** The functions *)
Definition next_power_of_two (val : Z) : Z :=
  let val := u32 (val - 1) in
  let val := Z.lor val (Z.shiftr val 1) in
  let val := Z.lor val (Z.shiftr val 2) in
  let val := Z.lor val (Z.shiftr val 4) in
  let val := Z.lor val (Z.shiftr val 8) in
  let val := Z.lor val (Z.shiftr val 16) in
  u32 (val + 1).

(** [realloc] of the allocator, on an array of pointers: the array (empty for
    [NULL]) and the number of the elements of the new one. *)
Class Realloc : Type := realloc : list Z -> Z -> option (list Z).

Section Table.
Context `{Realloc}.

(** [uv__reallocf]; [n] elements of 8 bytes. *)
Definition uv__reallocf (ptr : list Z) (n : Z) : option (list Z) := if 0 <? n then realloc ptr n else None.

(** [for (i = loop->nwatchers; i < nwatchers; i++) watchers[i] = NULL] *)
Fixpoint clear_from (n : nat) (i : Z) (ws : list Z) : option (list Z) :=
  match n with
  | O => Some ws
  | S n => match put_index ws i 0 with Some ws => clear_from n (i + 1) ws | None => None end
  end.

Definition maybe_resize (len : Z) : IO unit :=
  let* nw := gets nwatchers in
  if len <=? nw then ret tt
  else
    let* old := gets watchers in
    let* fakes :=
      match old with
      | Some _ => let* fake_watcher_list := get_watcher nw in
                  let* fake_watcher_count := get_watcher (u32 (nw + 1)) in
                  ret (fake_watcher_list, fake_watcher_count)
      | None => ret (0, 0)
      end in
    let n := u32 (next_power_of_two (u32 (len + 2)) - 2) in
    match uv__reallocf (default [] old) (u32 (n + 2)) with
    | None => aborted
    | Some ws =>
        let* ws := of_option UbArray (clear_from (Z.to_nat (n - nw)) nw ws) in
        let* ws := of_option UbArray (put_index ws n (fst fakes)) in
        let* ws := of_option UbArray (put_index ws (u32 (n + 1)) (snd fakes)) in
        modify (with_watchers (Some ws));;;
        modify (with_nwatchers n)
    end.

Definition uv__io_init (w cb fd : Z) : IO unit :=
  assert (negb (cb =? 0));;;
  assert (-1 <=? fd);;;
  io_queue (QUEUE_INIT (p_node w));;;
  io_queue (QUEUE_INIT (w_node w));;;
  upd_io w (fun _ => mk_io cb fd 0 0 0 0).

Definition INT_MAX : Z := 2147483647.

Definition uv__io_start (w evs : Z) : IO unit :=
  assert_events evs;;;
  let* x := get_io w in
  assert (0 <=? fd x);;;
  assert (fd x <? INT_MAX);;;
  upd_io w (fun x => set_pevents (Z.lor (pevents x) evs) x);;;
  maybe_resize (fd x + 1);;;
  let* x := get_io w in
  if events x =? pevents x then ret tt
  else
    let* e := io_queue (QUEUE_EMPTY (w_node w)) in
    (if e : bool then io_queue (QUEUE_INSERT_TAIL watcher_queue (w_node w)) else ret tt);;;
    let* q := get_watcher (fd x) in
    if q =? 0 then
      put_watcher (fd x) w;;;
      modify (fun l => with_nfds (u32 (nfds l + 1)) l)
    else ret tt.

Definition uv__io_stop (w evs : Z) : IO unit :=
  assert_events evs;;;
  let* x := get_io w in
  if fd x =? -1 then ret tt
  else
    assert (0 <=? fd x);;;
    let* nw := gets nwatchers in
    if nw <=? u32 (fd x) then ret tt
    else
      upd_io w (fun x => set_pevents (Z.land (pevents x) (u32 (Z.lnot evs))) x);;;
      let* x := get_io w in
      if pevents x =? 0 then
        io_queue (QUEUE_REMOVE (w_node w));;;
        io_queue (QUEUE_INIT (w_node w));;;
        let* q := get_watcher (fd x) in
        if q =? 0 then ret tt
        else
          assert (q =? w);;;
          let* n := gets nfds in
          assert (0 <? n);;;
          put_watcher (fd x) 0;;;
          modify (fun l => with_nfds (u32 (nfds l - 1)) l);;;
          upd_io w (set_events 0)
      else
        let* e := io_queue (QUEUE_EMPTY (w_node w)) in
        if e : bool then io_queue (QUEUE_INSERT_TAIL watcher_queue (w_node w)) else ret tt.

(** The loop of [uv__platform_invalidate_fd], from the event [i]. *)
Fixpoint invalidate_loop (n : nat) (i fd : Z) (evs : list kev) : option (list kev) :=
  match n with
  | O => Some evs
  | S n =>
      match at_index evs i with
      | None => None
      | Some e =>
          let evs :=
            if s32 (ident e) =? fd
            then <[Z.to_nat i := mk_kev (u64 (-1)) (kfilter e) (kflags e) (fflags e) (kdata e)]> evs
            else evs in
          invalidate_loop n (i + 1) fd evs
      end
  end.

Definition uv__platform_invalidate_fd (fd : Z) : IO unit :=
  let* ws := gets watchers in
  assert (match ws with Some _ => true | None => false end);;;
  assert (0 <=? fd);;;
  let* nw := gets nwatchers in
  let* list := get_watcher nw in
  let* count := get_watcher (u32 (nw + 1)) in
  if list =? 0 then ret tt
  else
    let* evs := gets poll_array in
    let* evs := of_option UbArray (invalidate_loop (Z.to_nat count) 0 fd evs) in
    modify (with_poll_array evs).

Definition uv__io_close (w : Z) : IO unit :=
  uv__io_stop w poll_mask;;;
  io_queue (QUEUE_REMOVE (p_node w));;;
  let* x := get_io w in
  if fd x =? -1 then ret tt else uv__platform_invalidate_fd (fd x).

Definition uv__io_feed (w : Z) : IO unit :=
  let* e := io_queue (QUEUE_EMPTY (p_node w)) in
  if e : bool then io_queue (QUEUE_INSERT_TAIL pending_queue (p_node w)) else ret tt.

Definition uv__io_active (w evs : Z) : IO bool :=
  assert_events evs;;;
  let* x := get_io w in
  ret (negb (Z.land (pevents x) evs =? 0)).

Definition uv__fd_exists (fd : Z) : IO bool :=
  let* nw := gets nwatchers in
  if u32 fd <? nw then let* q := get_watcher fd in ret (negb (q =? 0)) else ret false.
End Table.
