(* ===== verification/UvPoll.v ===== *)
(** libuv, the poll phase and the turns of the loop: [uv__io_poll] of
    [unix/kqueue.c], [uv__run_pending], [uv_backend_timeout] and [uv_run] of
    [unix/core.c].  The state is the loop, its I/O part, and the world outside,
    on which the system calls act. *)
From S2P Require Import Prelude.
From S2P Require Import UvQueue.
From S2P Require Import UvLoop.
From S2P Require Import UvTimer.
From S2P Require Import UvRun.
From S2P Require Import UvIo.

(** ** The system *)
(** What [kevent] returns: the events that it stores, or -1 with [errno]. *)
Inductive kevent_result : Type :=
| KEvents (evs : list kev)
| KError (errno : Z).

(** The system calls: [kevent] with the changes, the room for events and the
    timeout in seconds and nanoseconds; the clock in nanoseconds; the blocking
    ([true]) and unblocking of [SIGPROF]. *)
Class System (W : Type) : Type := {
  sys_kevent : list kev -> Z -> option (Z * Z) -> W -> kevent_result * W;
  sys_hrtime : W -> Z * W;
  sys_sigmask : bool -> W -> W
}.

(** Constants of [sys/event.h] and [errno.h] of the platform. *)
Definition EVFILT_READ : Z := -1.
Definition EVFILT_WRITE : Z := -2.
Definition EVFILT_VNODE : Z := -4.
Definition EV_ADD : Z := 0x1.
Definition EV_DELETE : Z := 0x2.
Definition EV_ONESHOT : Z := 0x10.
Definition EV_OOBAND : Z := 0x2000.
Definition EV_ERROR : Z := 0x4000.
Definition EV_EOF : Z := 0x8000.
Definition NOTE_ATTRIB : Z := 0x8.
Definition NOTE_WRITE : Z := 0x2.
Definition NOTE_RENAME : Z := 0x20.
Definition NOTE_DELETE : Z := 0x1.
Definition NOTE_EXTEND : Z := 0x4.
Definition NOTE_REVOKE : Z := 0x40.
Definition ENOENT : Z := 2.
Definition EINTR : Z := 4.
Definition EBADF : Z := 9.

Definition UV_LOOP_BLOCK_SIGPROF : Z := 1.

(** [ARRAY_SIZE(events)], and the address of [events]. *)
Definition array_size : Z := 1024.
Definition poll_events : Z := -1.

Definition has_bit (v bit : Z) : bool := negb (Z.land v bit =? 0).

(** [EV_SET(&ev, fd, filter, flags, fflags, 0, 0)] *)
Definition EV_SET (fd filter flags fflags : Z) : kev := mk_kev (u64 fd) filter flags fflags 0.

Section Poll.
Context {W : Type} `{System W} `{Realloc}.

Definition P : Type -> Type := @R (io_loop * W).

Definition on_io {A} (m : IO A) : P A :=
  in_part (fun s => fst (snd s)) (fun io s => (fst s, (io, snd (snd s)))) m.
Definition on_world {A} (f : W -> A * W) : P A := fun s =>
  let (a, w) := f (snd (snd s)) in Done a (fst s, (fst (snd s), w)).

(** The calls of handles' and of watchers' callbacks; [uv__fs_event] is the
    address of that function of [unix/kqueue.c]. *)
Variable call : Z -> Z -> P unit.
Variable call_io : Z -> Z -> Z -> P unit.
Variable uv__fs_event : Z.

Definition call_io_ptr (f w revents : Z) : P unit := if f =? 0 then undef UbCall else call_io f w revents.

Definition update_time : P unit :=
  let* t := on_world sys_hrtime in on_loop (uv__update_time t).

(** ** [uv__run_pending] *)
(** [QUEUE_DATA]: the watcher of a node. *)
Definition io_of_pending (q : ioptr) : IO Z := match q with p_node w => ret w | _ => undef UbMem end.
Definition io_of_watcher (q : ioptr) : IO Z := match q with w_node w => ret w | _ => undef UbMem end.

Fixpoint run_pending_loop (fuel : nat) : P unit :=
  match fuel with
  | O => out_of_fuel
  | S fuel =>
      let* e := on_io (io_queue (QUEUE_EMPTY local_pq)) in
      if e : bool then ret tt
      else
        let* q := on_io (io_queue (QUEUE_HEAD local_pq)) in
        on_io (io_queue (QUEUE_REMOVE q));;;
        on_io (io_queue (QUEUE_INIT q));;;
        let* w := on_io (io_of_pending q) in
        let* x := on_io (get_io w) in
        call_io_ptr (io_cb x) w POLLOUT;;;
        run_pending_loop fuel
  end.

Definition uv__run_pending (fuel : nat) : P bool :=
  let* e := on_io (io_queue (QUEUE_EMPTY pending_queue)) in
  if e : bool then ret false
  else
    on_io (modify (fun l => with_io_queues (<[local_pq := mk_qnode local_pq local_pq]> (io_queues l)) l));;;
    on_io (io_queue (QUEUE_MOVE pending_queue local_pq));;;
    run_pending_loop fuel;;;
    ret true.

(** ** [uv__io_poll]: the changes to register *)
(** [kevent] with room for no event: 0, or a failure. *)
Definition kevent_changes (changes : list kev) : P (option Z) :=
  let* r := on_world (sys_kevent changes 0 None) in
  ret (match r with KEvents [] => None | KEvents _ => Some 0 | KError e => Some e end).

(** [events[nevents++] = ev], with the call when the array is full. *)
Definition add_change (changes : list kev) (ev : kev) : P (list kev) :=
  let changes := changes ++ [ev] in
  if zlen changes =? array_size then
    let* e := kevent_changes changes in
    match e with Some _ => aborted | None => ret [] end
  else ret changes.

Definition wants (w : uv__io) (bit : Z) : bool := negb (has_bit (events w) bit) && has_bit (pevents w) bit.

Definition read_change (w : uv__io) : kev :=
  if io_cb w =? uv__fs_event then
    EV_SET (fd w) EVFILT_VNODE (Z.lor EV_ADD EV_ONESHOT)
      (Z.lor (Z.lor (Z.lor (Z.lor (Z.lor NOTE_ATTRIB NOTE_WRITE) NOTE_RENAME) NOTE_DELETE) NOTE_EXTEND) NOTE_REVOKE)
  else EV_SET (fd w) EVFILT_READ EV_ADD 0.

Definition register (w : Z) (changes : list kev) : P (list kev) :=
  let* x := on_io (get_io w) in
  on_io (assert (negb (pevents x =? 0)));;;
  on_io (assert (0 <=? fd x));;;
  let* nw := on_io (gets nwatchers) in
  on_io (assert (fd x <? s32 nw));;;
  let* changes := if wants x POLLIN then add_change changes (read_change x) else ret changes in
  let* changes :=
    if wants x POLLOUT then add_change changes (EV_SET (fd x) EVFILT_WRITE EV_ADD 0) else ret changes in
  let* changes :=
    if wants x UV__POLLPRI then add_change changes (EV_SET (fd x) EV_OOBAND EV_ADD 0) else ret changes in
  on_io (upd_io w (fun x => set_events (pevents x) x));;;
  ret changes.

Fixpoint register_loop (fuel : nat) (changes : list kev) : P (list kev) :=
  match fuel with
  | O => out_of_fuel
  | S fuel =>
      let* e := on_io (io_queue (QUEUE_EMPTY watcher_queue)) in
      if e : bool then ret changes
      else
        let* q := on_io (io_queue (QUEUE_HEAD watcher_queue)) in
        on_io (io_queue (QUEUE_REMOVE q));;;
        on_io (io_queue (QUEUE_INIT q));;;
        let* w := on_io (io_of_watcher q) in
        let* changes := register w changes in
        register_loop fuel changes
  end.

(** ** [uv__io_poll]: the events *)
(** [EV_DELETE] of an event that nobody wants; [oks] are the errors that may
    happen. *)
Definition disarm (fd filter : Z) (oks : list Z) : P unit :=
  let* e := kevent_changes [EV_SET fd filter EV_DELETE 0] in
  match e with
  | None => ret tt
  | Some e => if existsb (Z.eqb e) oks then ret tt else aborted
  end.

(** One of the three filters: the event sets the bit, and the count that is at
    hand, or is disarmed. *)
Definition take_event (w fd : Z) (ev : kev) (filter bit : Z) (set : Z -> uv__io -> uv__io) (revents : Z) : P Z :=
  if kfilter ev =? filter then
    let* x := on_io (get_io w) in
    if has_bit (pevents x) bit then
      on_io (upd_io w (set (s32 (kdata ev))));;;
      ret (Z.lor revents bit)
    else disarm fd (kfilter ev) [ENOENT];;; ret revents
  else ret revents.

Definition revents_of (w fd : Z) (ev : kev) : P Z :=
  let* revents := take_event w fd ev EVFILT_READ POLLIN set_rcount 0 in
  let* revents := take_event w fd ev EV_OOBAND UV__POLLPRI set_rcount revents in
  let* revents := take_event w fd ev EVFILT_WRITE POLLOUT set_wcount revents in
  let revents := if has_bit (kflags ev) EV_ERROR then Z.lor revents POLLERR else revents in
  let* x := on_io (get_io w) in
  ret (if has_bit (kflags ev) EV_EOF && has_bit (pevents x) UV__POLLRDHUP
       then Z.lor revents UV__POLLRDHUP else revents).

(** The body of [for (i = 0; i < nfds; i++)]: [have_signals], and the events that
    were delivered. *)
Definition dispatch_one (i : Z) (st : bool * Z) : P (bool * Z) :=
  let (have_signals, nevents) := st in
  let* evs := on_io (gets poll_array) in
  let* ev := of_option UbArray (at_index evs i) in
  let fd := s32 (ident ev) in
  if fd =? -1 then ret st
  else
    let* w := on_io (get_watcher fd) in
    if w =? 0 then disarm fd (kfilter ev) [EBADF; ENOENT];;; ret st
    else if kfilter ev =? EVFILT_VNODE then
      let* x := on_io (get_io w) in
      on_io (assert (events x =? POLLIN));;;
      on_io (assert (pevents x =? POLLIN));;;
      call_io_ptr (io_cb x) w (fflags ev);;;
      ret (have_signals, u32 (nevents + 1))
    else
      let* revents := revents_of w fd ev in
      if revents =? 0 then ret st
      else
        let* sg := on_io (gets signal_io_watcher) in
        if w =? sg then ret (true, u32 (nevents + 1))
        else
          let* x := on_io (get_io w) in
          call_io_ptr (io_cb x) w revents;;;
          ret (have_signals, u32 (nevents + 1)).

Fixpoint dispatch_loop (n : nat) (i : Z) (st : bool * Z) : P (bool * Z) :=
  match n with
  | O => ret st
  | S n => let* st := dispatch_one i st in dispatch_loop n (i + 1) st
  end.

(** [loop->watchers[loop->nwatchers] = list], and the count after it. *)
Definition put_fakes (list count : Z) : IO unit :=
  let* nw := gets nwatchers in
  put_watcher nw list;;;
  let* nw := gets nwatchers in
  put_watcher (u32 (nw + 1)) count.

(** The events of one [kevent]: whether a signal watcher is among them, and how
    many were delivered. *)
Definition dispatch (evs : list kev) : P (bool * Z) :=
  on_io (modify (with_poll_array evs));;;
  let* ws := on_io (gets watchers) in
  on_io (assert (match ws with Some _ => true | None => false end));;;
  on_io (put_fakes poll_events (zlen evs));;;
  let* st := dispatch_loop (length evs) 0 (false, 0) in
  (if fst st : bool then
     let* sg := on_io (gets signal_io_watcher) in
     let* x := on_io (get_io sg) in
     call_io_ptr (io_cb x) sg POLLIN
   else ret tt);;;
  on_io (put_fakes 0 0);;;
  ret st.

(** ** [uv__io_poll]: the loop *)
Definition timespec_of (timeout : Z) : option (Z * Z) :=
  if timeout =? -1 then None
  else Some (Z.quot timeout 1000, Z.rem timeout 1000 * 1000000).

Definition sigmask (how : bool) : P unit :=
  let* fl := on_io (gets loop_flags) in
  if has_bit fl UV_LOOP_BLOCK_SIGPROF then on_world (fun w => (tt, sys_sigmask how w)) else ret tt.

(** How a turn of the loop ends. *)
Inductive poll_next : Type :=
| PReturn
| PAgain (timeout count : Z).

(** [update_timeout:] *)
Definition less_timeout_left (base timeout count : Z) : P poll_next :=
  on_loop (assert (0 <? timeout));;;
  let* now := on_loop (gets time) in
  let diff := u64 (now - base) in
  if timeout <=? diff then ret PReturn else ret (PAgain (s32 (timeout - diff)) count).

Definition poll_turn (base timeout count : Z) (changes : list kev) : P poll_next :=
  sigmask true;;;
  let* r := on_world (sys_kevent changes array_size (timespec_of timeout)) in
  sigmask false;;;
  update_time;;;
  match r with
  | KEvents [] => on_loop (assert (negb (timeout =? -1)));;; ret PReturn
  | KError e =>
      if negb (e =? EINTR) then aborted
      else if timeout =? 0 then ret PReturn
      else if timeout =? -1 then ret (PAgain timeout count)
      else less_timeout_left base timeout count
  | KEvents evs =>
      let* st := dispatch evs in
      if fst st : bool then ret PReturn
      else if negb (snd st =? 0) then
        if zlen evs =? array_size then
          if negb (count - 1 =? 0) then ret (PAgain 0 (count - 1)) else ret PReturn
        else ret PReturn
      else if timeout =? 0 then ret PReturn
      else if timeout =? -1 then ret (PAgain timeout count)
      else less_timeout_left base timeout count
  end.

Fixpoint poll_loop (fuel : nat) (base timeout count : Z) (changes : list kev) : P unit :=
  match fuel with
  | O => out_of_fuel
  | S fuel =>
      let* next := poll_turn base timeout count changes in
      match next with
      | PReturn => ret tt
      | PAgain timeout count => poll_loop fuel base timeout count []
      end
  end.

Definition uv__io_poll (fuel : nat) (timeout : Z) : P unit :=
  let* n := on_io (gets nfds) in
  if n =? 0 then
    let* e := on_io (io_queue (QUEUE_EMPTY watcher_queue)) in
    on_io (assert e)
  else
    let* changes := register_loop fuel [] in
    on_loop (assert (-1 <=? timeout));;;
    let* base := on_loop (gets time) in
    poll_loop fuel base timeout 48 changes.

(** ** [uv_run] *)
Inductive uv_run_mode : Set := UV_RUN_DEFAULT | UV_RUN_ONCE | UV_RUN_NOWAIT.

#[export] Instance uv_run_mode_eq_dec : EqDecision uv_run_mode.
Proof. solve_decision. Defined.

Definition uv_backend_timeout : P Z :=
  let* l := on_loop (gets id) in
  if negb (stop_flag l =? 0) then ret 0
  else if negb (uv__has_active_handles l) && negb (uv__has_active_reqs l) then ret 0
  else
    let* e := on_loop (on_queues (QUEUE_EMPTY (watcher_handles idle))) in
    if negb e then ret 0
    else
      let* e := on_io (io_queue (QUEUE_EMPTY pending_queue)) in
      if negb e then ret 0
      else if negb (closing_handles l =? 0) then ret 0
      else on_loop uv__next_timeout.

(** The body of the [while]; [fuel] bounds the loops inside. *)
Definition uv_run_turn (fuel : nat) (mode : uv_run_mode) : P unit :=
  update_time;;;
  uv__run_timers call fuel;;;
  let* ran_pending := uv__run_pending fuel in
  uv__run_watchers call idle fuel;;;
  uv__run_watchers call prepare fuel;;;
  let* timeout :=
    if (bool_decide (mode = UV_RUN_ONCE) && negb ran_pending) || bool_decide (mode = UV_RUN_DEFAULT)
    then uv_backend_timeout else ret 0 in
  uv__io_poll fuel timeout;;;
  uv__run_watchers call check fuel;;;
  uv__run_closing_handles call fuel;;;
  if bool_decide (mode = UV_RUN_ONCE) then update_time;;; uv__run_timers call fuel else ret tt.

(** [while (r != 0 && loop->stop_flag == 0)], at most [turns] times. *)
Fixpoint uv_run_loop (turns fuel : nat) (mode : uv_run_mode) (r : bool) : P bool :=
  match turns with
  | O => out_of_fuel
  | S turns =>
      let* stop := on_loop (gets stop_flag) in
      if r && (stop =? 0) then
        uv_run_turn fuel mode;;;
        let* r := on_loop uv__loop_alive in
        if bool_decide (mode = UV_RUN_DEFAULT) then uv_run_loop turns fuel mode r else ret r
      else ret r
  end.

Definition uv_run (turns fuel : nat) (mode : uv_run_mode) : P bool :=
  let* r := on_loop uv__loop_alive in
  (if negb r then update_time else ret tt);;;
  let* r := uv_run_loop turns fuel mode r in
  let* stop := on_loop (gets stop_flag) in
  (if negb (stop =? 0) then on_loop (modify (with_stop 0)) else ret tt);;;
  ret r.
End Poll.
