(* ===== verification/UvIoInv.v ===== *)
(** libuv, the invariant of the I/O watchers: the table from descriptors to
    watchers, the queues, the memory of the watchers, and the events of a poll in
    progress. *)
From S2P Require Import Prelude.
From S2P Require Import UvQueue.
From S2P Require Import UvQueueProofs.
From S2P Require Import UvLoop.
From S2P Require Import UvIo.
From S2P Require Import UvPoll.
From S2P Require Import UvLogic.
#[local] Set Warnings "-clear-no-such-hyp".

(** ** Arrays *)
Lemma at_index_nat {A} (a : list A) i : 0 <= i -> at_index a i = a !! Z.to_nat i.
Proof. intros Hi. unfold at_index. by rewrite (proj2 (Z.ltb_ge i 0)). Qed.

Lemma at_index_some {A} (a : list A) i : 0 <= i < zlen a <-> is_Some (at_index a i).
Proof.
  unfold at_index, zlen. destruct (Z.ltb_spec i 0).
  - split; [lia|]. by intros [? ?].
  - rewrite lookup_lt_is_Some. lia.
Qed.

Lemma put_index_some {A} (a : list A) i v : 0 <= i < zlen a -> put_index a i v = Some (<[Z.to_nat i := v]> a).
Proof. intros [x E]%at_index_some. unfold put_index. by rewrite E. Qed.

Lemma at_index_insert {A} (a : list A) i j v :
  0 <= i < zlen a -> at_index (<[Z.to_nat i := v]> a) j = if j =? i then Some v else at_index a j.
Proof.
  intros Hi. destruct (Z.eqb_spec j i) as [->|Hne].
  - rewrite at_index_nat, list_lookup_insert_eq by (unfold zlen in *; lia). done.
  - unfold at_index. destruct (Z.ltb_spec j 0); [done|]. by rewrite list_lookup_insert_ne by lia.
Qed.

(** ** The ghost state *)
Record io_shape : Type := mk_io_shape {
  s_mem : gset Z;          (* the memory that may hold watchers *)
  s_live : gset Z;         (* initialised and not closed *)
  s_wq : list Z;           (* loop->watcher_queue *)
  s_pend : list Z;         (* loop->pending_queue *)
  s_pq : list Z;           (* the queue of uv__run_pending *)
  s_poll : option Z        (* the number of the events of a poll in progress *)
}.

Definition with_live (v : gset Z) (s : io_shape) : io_shape :=
  mk_io_shape (s_mem s) v (s_wq s) (s_pend s) (s_pq s) (s_poll s).
Definition with_wq (v : list Z) (s : io_shape) : io_shape :=
  mk_io_shape (s_mem s) (s_live s) v (s_pend s) (s_pq s) (s_poll s).
Definition with_pend (v : list Z) (s : io_shape) : io_shape :=
  mk_io_shape (s_mem s) (s_live s) (s_wq s) v (s_pq s) (s_poll s).
Definition with_pq (v : list Z) (s : io_shape) : io_shape :=
  mk_io_shape (s_mem s) (s_live s) (s_wq s) (s_pend s) v (s_poll s).
Definition with_poll (v : option Z) (s : io_shape) : io_shape :=
  mk_io_shape (s_mem s) (s_live s) (s_wq s) (s_pend s) (s_pq s) v.

(** The queues: those of the heads, and a node that is in none of them links
    itself. *)
Definition qof (s : io_shape) (q : ioptr) : option (list ioptr) :=
  match q with
  | watcher_queue => Some (w_node <$> s_wq s)
  | pending_queue => Some (p_node <$> s_pend s)
  | local_pq => Some (p_node <$> s_pq s)
  | w_node w => if bool_decide (w ∈ s_live s /\ w ∉ s_wq s) then Some [] else None
  | p_node w => if bool_decide (w ∈ s_live s /\ w ∉ s_pend s ++ s_pq s) then Some [] else None
  end.

Definition queues_are (s : io_shape) (m : gmap ioptr (qnode ioptr)) : Prop :=
  exists Q, queues_wf Q m /\ forall h, Q !! h = qof s h.

(** [loop->watchers[i]], where there is one. *)
Definition tab (io : io_loop) (i : Z) : option Z :=
  match watchers io with Some ws => at_index ws i | None => None end.

(** A descriptor that an entry of the table may have; the descriptors end below
    the last two elements that the allocation of the table can have. *)
Definition max_watchers : Z := 2 ^ 31 - 2.

Section Invariant.
Variable uv__fs_event : Z.

Record watcher_ok (s : io_shape) (io : io_loop) (w : Z) (x : uv__io) : Prop := {
  w_cb : io_cb x <> 0 /\ io_cb x <> uv__fs_event;
  w_fd : -1 <= fd x < max_watchers;
  w_mask : 0 <= pevents x /\ Z.land (pevents x) (Z.lnot poll_mask) = 0;
  w_started : pevents x <> 0 -> 0 <= fd x < nwatchers io /\ tab io (fd x) = Some w;
  w_stopped : pevents x = 0 -> events x = 0 /\ w ∉ s_wq s;
  w_queued : events x <> pevents x -> w ∈ s_wq s
}.

(** The table: its entries, and its two last elements, for the events of a poll
    in progress. *)
Record table_ok (s : io_shape) (io : io_loop) : Prop := {
  t_bound : 0 <= nwatchers io <= max_watchers;
  t_size : match watchers io with
           | Some ws => zlen ws = nwatchers io + 2
           | None => nwatchers io = 0 /\ s_poll s = None
           end;
  t_fakes : is_Some (watchers io) ->
    tab io (nwatchers io) = Some (match s_poll s with Some _ => poll_events | None => 0 end) /\
    tab io (nwatchers io + 1) = Some (default 0 (s_poll s));
  t_entry : forall i w, 0 <= i < nwatchers io -> tab io i = Some w -> w <> 0 ->
    w ∈ s_live s /\ exists x, ios io !! w = Some x /\ fd x = i /\ pevents x <> 0;
  t_count : nfds io = count (fun w => negb (w =? 0)) (take (Z.to_nat (nwatchers io)) (default [] (watchers io)))
}.

(** The events of a poll in progress are for entries of the table, or void. *)
Definition event_ok (io : io_loop) (ev : kev) : Prop :=
  s32 (ident ev) = -1 \/ (0 <= s32 (ident ev) < nwatchers io /\ kfilter ev <> EVFILT_VNODE).

Record io_ok (s : io_shape) (io : io_loop) : Prop := {
  io_table : table_ok s io;
  io_live : forall w, w ∈ s_live s -> exists x, ios io !! w = Some x /\ watcher_ok s io w x;
  io_distinct : forall w w' x x', w ∈ s_live s -> w' ∈ s_live s ->
    ios io !! w = Some x -> ios io !! w' = Some x' -> fd x = fd x' -> 0 <= fd x -> w = w';
  io_links : queues_are s (io_queues io);
  io_queued : forall w, w ∈ s_wq s ++ s_pend s ++ s_pq s -> w ∈ s_live s;
  io_mem : forall w, w ∈ s_mem s -> w <> 0 /\ is_Some (ios io !! w) /\
    is_Some (nxt (io_queues io) (w_node w)) /\ is_Some (nxt (io_queues io) (p_node w));
  io_live_mem : forall w, w ∈ s_live s -> w ∈ s_mem s;
  io_poll : forall n, s_poll s = Some n -> zlen (poll_array io) = n /\ Forall (event_ok io) (poll_array io)
}.
End Invariant.

(** What a call may do to the I/O part: the rest of a run over the pending
    watchers only loses watchers, a poll in progress stays so, the table does not
    shrink, and the signal watcher stays. *)
Record io_evolves (s : io_shape) (io : io_loop) (s' : io_shape) (io' : io_loop) : Prop := {
  ie_mem : s_mem s' = s_mem s;
  ie_pq : sublist (s_pq s') (s_pq s);
  ie_poll : s_poll s' = s_poll s;
  ie_size : nwatchers io <= nwatchers io';
  ie_signal : signal_io_watcher io' = signal_io_watcher io;
  ie_signal_live : signal_io_watcher io ∈ s_live s -> signal_io_watcher io ∈ s_live s'
}.

Lemma io_evolves_refl s io : io_evolves s io s io.
Proof. by constructor. Qed.

Lemma io_evolves_trans s io s' io' s'' io'' :
  io_evolves s io s' io' -> io_evolves s' io' s'' io'' -> io_evolves s io s'' io''.
Proof.
  intros [A1 A2 A3 A4 A5 A6] [B1 B2 B3 B4 B5 B6]. constructor; [congruence|by etrans|congruence|lia|congruence|].
  intros Hs. rewrite A5 in B6. by apply B6, A6.
Qed.

(** ** The queues *)
Lemma qa_empty s m h l : queues_are s m -> qof s h = Some l -> QUEUE_EMPTY h m = Done (bool_decide (l = [])) m.
Proof. intros (Q & Hw & HQ) E. rewrite <- HQ in E. by eapply qs_empty. Qed.

Lemma qa_head s m h x l : queues_are s m -> qof s h = Some (x :: l) -> QUEUE_HEAD h m = Done x m.
Proof. intros (Q & Hw & HQ) E. rewrite <- HQ in E. by eapply qs_head. Qed.

Lemma qa_mapped s m h l x : queues_are s m -> qof s h = Some l -> x ∈ h :: l -> is_Some (nxt m x).
Proof. intros (Q & Hw & HQ) E. rewrite <- HQ in E. by eapply queue_mapped, qs_queue. Qed.

(** A node that links itself goes to the end of a queue. *)
Lemma qa_insert_tail s s' m h l x :
  queues_are s m -> qof s h = Some l -> qof s x = Some [] -> h <> x ->
  (forall q, qof s' q = if decide (q = h) then Some (l ++ [x]) else if decide (q = x) then None else qof s q) ->
  exists m', QUEUE_INSERT_TAIL h x m = Done tt m' /\ queues_are s' m' /\ forall y, is_Some (nxt m y) -> is_Some (nxt m' y).
Proof.
  intros (Q & Hw & HQ) E Ex Hne Hs'. rewrite <- HQ in E, Ex.
  destruct (qs_insert_tail (delete x Q) m h l x) as (m' & Er & Hw' & Hm).
  - by apply queues_wf_delete.
  - by rewrite lookup_delete_ne.
  - by apply (unowned_delete Q m).
  - apply (queue_mapped m x []); [by apply (qs_queue _ _ Hw)|by left].
  - exists m'. split; [done|]. split; [|done]. eexists. split; [done|]. intros q. rewrite Hs'.
    repeat case_decide; subst; [by rewrite lookup_insert_eq|by rewrite lookup_insert_ne, lookup_delete_eq|].
    rewrite lookup_insert_ne, lookup_delete_ne by done. apply HQ.
Qed.

(** A node leaves its queue. *)
Lemma qa_remove s s' m h l1 x l2 :
  queues_are s m -> qof s h = Some (l1 ++ x :: l2) ->
  (forall q, qof s' q = if decide (q = h) then Some (l1 ++ l2) else qof s q) ->
  exists m', QUEUE_REMOVE x m = Done tt m' /\ queues_are s' m' /\ forall y, is_Some (nxt m y) -> is_Some (nxt m' y).
Proof.
  intros (Q & Hw & HQ) E Hs'. rewrite <- HQ in E.
  destruct (qs_remove Q m h l1 x l2 Hw E) as (m' & Er & Hw' & _ & Hm). exists m'. split; [done|]. split; [|done].
  eexists. split; [done|]. intros q. rewrite Hs'.
  case_decide as Hq; [by rewrite Hq, lookup_insert_eq|by rewrite lookup_insert_ne].
Qed.

(** A node leaves its queue and links itself. *)
Lemma qa_remove_init s s' m h l1 x l2 :
  queues_are s m -> qof s h = Some (l1 ++ x :: l2) -> h <> x ->
  (forall q, qof s' q = if decide (q = h) then Some (l1 ++ l2) else if decide (q = x) then Some [] else qof s q) ->
  exists m1 m', QUEUE_REMOVE x m = Done tt m1 /\ QUEUE_INIT x m1 = Done tt m' /\ queues_are s' m' /\
  forall y, is_Some (nxt m y) -> is_Some (nxt m' y).
Proof.
  intros (Q & Hw & HQ) E Hne Hs'. rewrite <- HQ in E.
  destruct (qs_remove Q m h l1 x l2 Hw E) as (m1 & Er & Hw1 & Hu & Hm).
  destruct (qs_init (<[h := l1 ++ l2]> Q) m1 x Hw1 Hu) as (m' & Ei & Hw' & Hm').
  { apply Hm. apply (queue_mapped m h (l1 ++ x :: l2)); [by apply (qs_queue _ _ Hw)|]. set_solver. }
  exists m1, m'. split; [done|]. split; [done|]. split; [|by auto]. eexists. split; [done|].
  intros q. rewrite Hs'. destruct (decide (q = x)) as [->|Hq].
  - rewrite lookup_insert_eq. by case_decide.
  - rewrite lookup_insert_ne by done.
    case_decide as Hq'; [by rewrite Hq', lookup_insert_eq|by rewrite lookup_insert_ne].
Qed.

(** Removing or initialising a node that links itself changes nothing. *)
Lemma self_node s m x : queues_are s m -> qof s x = Some [] -> m !! x = Some (mk_qnode x x).
Proof.
  intros (Q & Hw & HQ) E. rewrite <- HQ in E.
  destruct (queue_head_link _ _ _ (qs_queue _ _ Hw _ _ E)) as [En Ep]. unfold nxt, prv in *. cbn in En, Ep.
  destruct (m !! x) as [[n p]|]; [|done]. cbn in En, Ep. congruence.
Qed.

Lemma qa_remove_self s m x : queues_are s m -> qof s x = Some [] -> QUEUE_REMOVE x m = Done tt m.
Proof.
  intros Hq E. pose proof (self_node _ _ _ Hq E) as En.
  assert (nxt m x = Some x) as Enx by (unfold nxt; by rewrite En).
  assert (prv m x = Some x) as Epx by (unfold prv; by rewrite En).
  assert (wn x x m = m) as Ew by (unfold wn; by apply alter_id; intros ? [= <-]%(eq_trans (eq_sym En))).
  assert (wp x x m = m) as Ewp by (unfold wp; by apply alter_id; intros ? [= <-]%(eq_trans (eq_sym En))).
  unfold QUEUE_REMOVE. rewrite (bind_next _ _ _ _ Enx), (bind_put_prev_next x), Ew by (rewrite ?Enx; done).
  rewrite (bind_prev _ _ _ _ Epx), (put_next_prev_run _ x) by (rewrite ?Enx; done). by rewrite Ewp.
Qed.

Lemma qa_init_self s m x : queues_are s m -> qof s x = Some [] -> QUEUE_INIT x m = Done tt m.
Proof.
  intros Hq E. pose proof (self_node _ _ _ Hq E) as En.
  assert (is_Some (nxt m x)) as Hx by (unfold nxt; by rewrite En).
  unfold QUEUE_INIT. rewrite bind_put_next by done.
  assert (wn x x m = m) as -> by (unfold wn; by apply alter_id; intros ? [= <-]%(eq_trans (eq_sym En))).
  rewrite put_prev_run by done. do 2 f_equal. unfold wp. by apply alter_id; intros ? [= <-]%(eq_trans (eq_sym En)).
Qed.
