(* ===== verification/UvIoProofs.v ===== *)
(** libuv, the I/O watchers: the growth of the table, and the steps of the
    operations: on the table, on the queues, on one watcher. *)
From S2P Require Import Prelude.
From S2P Require Import UvQueue.
From S2P Require Import UvQueueProofs.
From S2P Require Import UvLoop.
From S2P Require Import UvIo.
From S2P Require Import UvPoll.
From S2P Require Import UvLogic.
From S2P Require Import UvIoInv.
#[local] Set Warnings "-clear-no-such-hyp".

(** ** [next_power_of_two] *)
(** The bits of [u] from [i], [n] of them. *)
Definition near_bit (u i n : Z) : Prop := exists k, 0 <= k < n /\ Z.testbit u (i + k) = true.

Lemma smear_step u v m :
  0 < m -> (forall i, 0 <= i -> Z.testbit v i = true <-> near_bit u i m) ->
  forall i, 0 <= i -> Z.testbit (Z.lor v (Z.shiftr v m)) i = true <-> near_bit u i (2 * m).
Proof.
  intros Hm Hv i Hi. rewrite Z.lor_spec, orb_true_iff, Z.shiftr_spec by done. rewrite !Hv by lia. split.
  - intros [(k & Hk & E)|(k & Hk & E)]; [exists k|exists (m + k)]; (split; [lia|]); [done|by rewrite Z.add_assoc].
  - intros (k & Hk & E). destruct (Z.ltb_spec k m); [left; exists k|right; exists (k - m)]; (split; [lia|]);
      [done|by replace (i + m + (k - m)) with (i + k) by lia].
Qed.

Definition smear (v : Z) : Z :=
  let v := Z.lor v (Z.shiftr v 1) in
  let v := Z.lor v (Z.shiftr v 2) in
  let v := Z.lor v (Z.shiftr v 4) in
  let v := Z.lor v (Z.shiftr v 8) in
  Z.lor v (Z.shiftr v 16).

Lemma smear_bits u i : 0 <= i -> Z.testbit (smear u) i = true <-> near_bit u i 32.
Proof.
  revert i. unfold smear. cbv zeta.
  apply (smear_step u _ 16); [lia|]. apply (smear_step u _ 8); [lia|]. apply (smear_step u _ 4); [lia|].
  apply (smear_step u _ 2); [lia|]. apply (smear_step u _ 1); [lia|].
  intros i Hi. split.
  - intros E. exists 0. split; [lia|]. by rewrite Z.add_0_r.
  - intros (k & Hk & E). by replace (i + k) with i in E by lia.
Qed.

Lemma smear_ones u : 0 < u < 2 ^ 32 -> smear u = Z.ones (Z.log2 u + 1).
Proof.
  intros Hu. pose proof (Z.log2_nonneg u). assert (Z.log2 u < 32) by (apply Z.log2_lt_pow2; lia).
  apply Z.bits_inj'. intros i Hi. apply eq_bool_prop_intro. rewrite !Is_true_true, smear_bits, Z.testbit_ones_nonneg, Z.ltb_lt by lia.
  split.
  - intros (k & Hk & E). destruct (Z.le_gt_cases (i + k) (Z.log2 u)) as [|Hl]; [lia|].
    rewrite Z.bits_above_log2 in E by lia. done.
  - intros Hl. exists (Z.log2 u - i). split; [lia|]. replace (i + (Z.log2 u - i)) with (Z.log2 u) by lia.
    apply Z.bit_log2. lia.
Qed.

Lemma next_power_bound v : 1 < v <= 2 ^ 31 -> v <= next_power_of_two v <= 2 ^ 31.
Proof.
  intros Hv. unfold next_power_of_two. cbv zeta. fold (smear (u32 (v - 1))).
  replace (u32 (v - 1)) with (v - 1) by (symmetry; apply Z.mod_small; lia).
  rewrite smear_ones, Z.ones_equiv, Z.add_1_r by lia.
  destruct (Z.log2_spec (v - 1)) as [Hl Hu]; [lia|].
  assert (Z.log2 (v - 1) < 31) by (apply Z.log2_lt_pow2; lia).
  assert (2 ^ Z.succ (Z.log2 (v - 1)) <= 2 ^ 31) by (apply Z.pow_le_mono_r; lia).
  unfold u32. rewrite Z.add_1_r, Z.succ_pred, Z.mod_small by lia. lia.
Qed.

(** ** The table *)
(** What the documentation of [realloc] says of an array that it gives. *)
Class ReallocLaws `{Realloc} : Prop := {
  realloc_length : forall old n new, realloc old n = Some new -> zlen new = n;
  realloc_prefix : forall old n new i, realloc old n = Some new -> (i < length old)%nat -> Z.of_nat i < n ->
    new !! i = old !! i
}.

Lemma clear_from_run k i ws :
  (i + k <= length ws)%nat -> clear_from k (Z.of_nat i) ws = Some (take i ws ++ replicate k 0 ++ drop (i + k) ws).
Proof.
  revert i ws. induction k as [|k IH]; intros i ws Hl; cbn [clear_from].
  { cbn. rewrite Nat.add_0_r. by rewrite take_drop. }
  rewrite put_index_some by (unfold zlen; lia). rewrite Nat2Z.id.
  replace (Z.of_nat i + 1) with (Z.of_nat (S i)) by lia. rewrite IH by (rewrite length_insert; lia).
  f_equal. rewrite (take_S_r _ _ 0) by (rewrite list_lookup_insert_eq; [done|lia]).
  rewrite take_insert_ge by lia. rewrite <- app_assoc. cbn. do 3 f_equal. rewrite drop_insert_lt by lia.
  by rewrite Nat.add_succ_r.
Qed.

(** The I/O part with an other table. *)
Definition retable (ws : list Z) (n : Z) (io : io_loop) : io_loop :=
  with_nwatchers n (with_watchers (Some ws) io).

Lemma get_watcher_run io i w : tab io i = Some w -> get_watcher i io = Done w io.
Proof.
  unfold get_watcher, tab, bind, gets. destruct (watchers io) as [ws|]; [|done]. by intros ->.
Qed.

(** ** The [abort()] of [maybe_resize] *)
(** The number of elements that it asks for, for [len] descriptors. *)
Definition table_room (len : Z) : Z := u32 (u32 (next_power_of_two (u32 (len + 2)) - 2) + 2).

(** The table is too short, and [realloc] gives no longer one. *)
Definition out_of_room `{Realloc} (io : io_loop) (len : Z) : Prop :=
  nwatchers io < len /\ realloc (default [] (watchers io)) (table_room len) = None.

(** A started watcher has no room in the table. *)
Definition no_room `{Realloc} (io : io_loop) : Prop := exists w x,
  ios io !! w = Some x /\ pevents x <> 0 /\ 0 <= fd x < max_watchers /\ out_of_room io (fd x + 1).

(** With memory for any table there is room. *)
Lemma room_given `{Realloc} io : (forall old n, 0 < n <= 2 ^ 31 -> is_Some (realloc old n)) -> ~ no_room io.
Proof.
  intros Hsome (w & x & _ & _ & Hr & _ & Hno). unfold max_watchers in Hr.
  pose proof (next_power_bound (fd x + 1 + 2) ltac:(lia)) as Hn.
  assert (table_room (fd x + 1) = next_power_of_two (fd x + 1 + 2)) as E.
  { unfold table_room. rewrite (u32_small (fd x + 1 + 2)), (u32_small (_ - 2)), u32_small by lia. lia. }
  destruct (Hsome (default [] (watchers io)) (table_room (fd x + 1)) ltac:(rewrite E; lia)) as [new Enew]. congruence.
Qed.

(** The only [abort()] of the calls on watchers. *)
#[export] Instance io_abort `{Realloc} : Abort io_loop := no_room.

Section Resize.
Context `{ReallocLaws}.

Lemma grown_array nw n old ws (a b : Z) :
  0 <= nw < n -> (zlen old = nw + 2 \/ old = [] /\ nw = 0) -> zlen ws = n + 2 ->
  (forall i, (i < length old)%nat -> Z.of_nat i < n + 2 -> ws !! i = old !! i) ->
  exists ws1 ws2, clear_from (Z.to_nat (n - nw)) nw ws = Some ws1 /\ put_index ws1 n a = Some ws2 /\
  put_index ws2 (n + 1) b = Some (take (Z.to_nat nw) old ++ replicate (Z.to_nat (n - nw)) 0 ++ [a; b]).
Proof.
  intros Hn Ho Hw Hpre. set (k := Z.to_nat (n - nw)). set (j := Z.to_nat nw).
  assert (length ws = j + k + 2)%nat as Hl by (unfold zlen in *; lia).
  assert (exists x y, ws = take j old ++ take k (drop j ws) ++ [x; y]) as (x & y & Ews).
  { assert (take j ws = take j old) as Et.
    { apply list_eq. intros i. destruct (decide (i < j)%nat) as [Hij|Hij].
      - rewrite !lookup_take_lt by done. assert (length old = j + 2)%nat.
        { destruct Ho as [Ho|[-> ->]]; unfold zlen in *; lia. } apply Hpre; lia.
      - rewrite !lookup_take_ge by lia. done. }
    pose proof (length_drop ws (j + k)) as Hd. destruct (drop (j + k) ws) as [|x [|y [|? ?]]] eqn:Ed; cbn in Hd; try lia.
    exists x, y. rewrite <- Et, <- Ed, <- drop_drop, take_drop, take_drop. done. }
  replace nw with (Z.of_nat j) by lia. rewrite clear_from_run by lia.
  set (ws1 := take j ws ++ _). exists ws1.
  assert (ws1 = take j old ++ replicate k 0 ++ [x; y]) as E1.
  { unfold ws1. assert (length (take j old) = j) as Hj.
    { rewrite length_take. destruct Ho as [Ho|[-> ->]]; unfold zlen in *; cbn; lia. }
    rewrite Ews at 1 2. rewrite take_app_le, take_take, Nat.min_id by lia. f_equal. f_equal.
    rewrite app_assoc, drop_app_ge; rewrite length_app, Hj, length_take, length_drop; [|lia].
    by replace (j + k - (j + k `min` (length ws - j)))%nat with O by lia. }
  assert (length (take j old ++ replicate k 0) = Z.to_nat n) as Hpl.
  { rewrite length_app, length_replicate, length_take. destruct Ho as [Ho|[-> ->]]; unfold zlen in *; cbn; lia. }
  exists (take j old ++ replicate k 0 ++ [a; y]). split; [done|]. rewrite E1, !app_assoc.
  split; rewrite put_index_some by (unfold zlen; rewrite length_app, Hpl; cbn [length]; lia); f_equal.
  - rewrite insert_app_r_alt by lia. by rewrite Hpl, Nat.sub_diag.
  - rewrite insert_app_r_alt by lia. rewrite Hpl. by replace (Z.to_nat (n + 1) - Z.to_nat n)%nat with 1%nat by lia.
Qed.

(** [maybe_resize]: the new elements before the two last ones are empty. *)
Lemma maybe_resize_run s io len :
  table_ok s io -> 0 < len <= max_watchers ->
  maybe_resize len io = Fail io /\ out_of_room io len \/ exists io',
    maybe_resize len io = Done tt io' /\ len <= nwatchers io' <= max_watchers /\
    (io' = io \/ nwatchers io < nwatchers io' /\ exists a b, 
       (is_Some (watchers io) -> tab io (nwatchers io) = Some a /\ tab io (nwatchers io + 1) = Some b) /\
       (watchers io = None -> a = 0 /\ b = 0) /\
       io' = retable (take (Z.to_nat (nwatchers io)) (default [] (watchers io)) ++
                      replicate (Z.to_nat (nwatchers io' - nwatchers io)) 0 ++ [a; b]) (nwatchers io') io).
Proof.
  intros [Hb Hs Hf _ _] Hl. unfold maybe_resize. rewrite bind_gets. destruct (Z.leb_spec len (nwatchers io)) as [Hle|Hgt].
  { right. exists io. split; [done|]. split; [lia|by left]. }
  rewrite bind_gets. unfold max_watchers in *.
  set (n := next_power_of_two (len + 2) - 2).
  pose proof (next_power_bound (len + 2) ltac:(lia)) as Hn.
  assert (u32 (len + 2) = len + 2) as E1 by (apply Z.mod_small; lia).
  assert (u32 (next_power_of_two (u32 (len + 2)) - 2) = n) as E2 by (rewrite E1; apply Z.mod_small; lia).
  assert (u32 (n + 2) = n + 2) as E3 by (apply Z.mod_small; lia).
  assert (u32 (n + 1) = n + 1) as E4 by (apply Z.mod_small; lia).
  assert (u32 (nwatchers io + 1) = nwatchers io + 1) as E5 by (apply Z.mod_small; lia).
  assert (exists a b,
    (is_Some (watchers io) -> tab io (nwatchers io) = Some a /\ tab io (nwatchers io + 1) = Some b) /\
    (watchers io = None -> a = 0 /\ b = 0)) as (a & b & Hab & Hnab).
  { destruct (watchers io) as [ws|] eqn:Ew.
    - destruct (Hf ltac:(done)) as [F1 F2]. eexists _, _. split; [by intros _|done].
    - exists 0, 0. split; [by intros [? ?]|done]. }
  assert (forall B (k : Z * Z -> IO B),
    bind (match watchers io with
          | Some _ => let* f := get_watcher (nwatchers io) in let* c := get_watcher (u32 (nwatchers io + 1)) in ret (f, c)
          | None => ret (0, 0) end) k io = k (a, b) io) as Ef.
  { intros B k. destruct (watchers io) as [ws|] eqn:Ew.
    - destruct (Hab ltac:(done)) as [F1 F2]. rewrite bind_assoc, E5.
      rewrite (bind_done _ _ _ _ _ (get_watcher_run _ _ _ F1)).
      rewrite bind_assoc, (bind_done _ _ _ _ _ (get_watcher_run _ _ _ F2)). done.
    - by destruct (Hnab eq_refl) as [-> ->]. }
  rewrite Ef. cbn [fst snd]. rewrite E2, E3, E4. unfold uv__reallocf. rewrite (proj2 (Z.ltb_lt 0 (n + 2))) by lia.
  destruct (realloc (default [] (watchers io)) (n + 2)) as [ws|] eqn:Er.
  2: { left. split; [done|]. split; [done|]. unfold table_room. by rewrite E2, E3. }
  right.
  destruct (grown_array (nwatchers io) n (default [] (watchers io)) ws a b) as (ws1 & ws2 & C1 & C2 & C3).
  - lia.
  - destruct (watchers io); [by left|right]. cbn. tauto.
  - by apply (realloc_length _ _ _ Er).
  - intros i Hi Hin. by apply (realloc_prefix _ _ _ _ Er).
  - rewrite C1. cbn [of_option]. unfold bind at 1, ret. rewrite C2. cbn [of_option]. unfold bind at 1, ret.
    rewrite C3. cbn [of_option]. unfold bind at 1, ret. rewrite bind_modify.
    eexists. split; [reflexivity|]. cbn [nwatchers with_nwatchers]. split; [lia|]. right. split; [lia|].
    exists a, b. done.
Qed.

(** The table after [maybe_resize]. *)
Record grown (io io' : io_loop) : Prop := {
  gr_ios : ios io' = ios io;
  gr_queues : io_queues io' = io_queues io;
  gr_poll : poll_array io' = poll_array io;
  gr_signal : signal_io_watcher io' = signal_io_watcher io;
  gr_size : nwatchers io <= nwatchers io';
  gr_old : forall i, 0 <= i < nwatchers io -> tab io' i = tab io i;
  gr_new : forall i, nwatchers io <= i < nwatchers io' -> tab io' i = Some 0
}.

Lemma count_zeros k : count (fun w => negb (w =? 0)) (replicate k 0) = 0.
Proof. by induction k. Qed.

Lemma grown_table s io a b n :
  table_ok s io -> nwatchers io < n <= max_watchers ->
  (is_Some (watchers io) -> tab io (nwatchers io) = Some a /\ tab io (nwatchers io + 1) = Some b) ->
  (watchers io = None -> a = 0 /\ b = 0) ->
  let io' := retable (take (Z.to_nat (nwatchers io)) (default [] (watchers io)) ++
                      replicate (Z.to_nat (n - nwatchers io)) 0 ++ [a; b]) n io in
  table_ok s io' /\ grown io io'.
Proof.
  intros [Hb Hs Hf He Hc] Hn Hab Hnab io'. set (nw := nwatchers io) in *. set (old := default [] (watchers io)) in *.
  assert (length (take (Z.to_nat nw) old) = Z.to_nat nw) as Hl.
  { rewrite length_take. unfold old. destruct (watchers io); unfold zlen in *; cbn; lia. }
  assert (forall i, 0 <= i -> tab io' i = (take (Z.to_nat nw) old ++ replicate (Z.to_nat (n - nw)) 0 ++ [a; b]) !! Z.to_nat i) as Ht.
  { intros i Hi. unfold tab, io'. cbn. by apply at_index_nat. }
  assert (forall i, 0 <= i < nw -> tab io' i = tab io i) as Hold.
  { intros i Hi. rewrite Ht, lookup_app_l, lookup_take_lt by lia. unfold tab, old.
    destruct (watchers io); [cbn; by rewrite at_index_nat by lia|lia]. }
  assert (forall i, nw <= i < n -> tab io' i = Some 0) as Hnew.
  { intros i Hi. rewrite Ht, lookup_app_r, Hl, lookup_app_l by (rewrite ?length_replicate; lia).
    apply lookup_replicate_2. lia. }
  split; [constructor|constructor; try done; cbn; lia].
  - cbn. lia.
  - cbn. rewrite !zlen_app. unfold zlen. rewrite Hl, length_replicate. cbn. lia.
  - intros _. cbn [nwatchers io' retable with_nwatchers].
    rewrite !Ht, !(lookup_app_r (take _ _)), !Hl, !lookup_app_r by (rewrite ?length_replicate; lia). rewrite !length_replicate.
    replace (Z.to_nat n - Z.to_nat nw - Z.to_nat (n - nw))%nat with O by lia.
    replace (Z.to_nat (n + 1) - Z.to_nat nw - Z.to_nat (n - nw))%nat with 1%nat by lia. cbn.
    destruct (watchers io) as [ws|] eqn:Ew.
    + destruct (Hab ltac:(done)) as [A1 A2]. destruct (Hf ltac:(done)) as [F1 F2]. by rewrite <- F1, <- F2.
    + destruct (Hnab eq_refl) as [-> ->]. by destruct Hs as [_ ->].
  - intros i w Hi Hw Hne. cbn in Hi. destruct (Z.ltb_spec i nw).
    + apply He; [lia| |done]. by rewrite <- Hold by lia.
    + rewrite Hnew in Hw by lia. congruence.
  - change (nfds io' = ?x) with (nfds io = x). rewrite Hc. cbn.
    rewrite app_assoc, take_app_le, (take_ge (_ ++ _)) by (rewrite length_app, length_replicate; lia).
    by rewrite count_app, count_zeros, Z.add_0_r.
Qed.

Lemma resize_keeps s io len :
  table_ok s io -> 0 < len <= max_watchers ->
  maybe_resize len io = Fail io /\ out_of_room io len \/
  exists io', maybe_resize len io = Done tt io' /\ table_ok s io' /\ grown io io' /\ len <= nwatchers io'.
Proof.
  intros Ht Hl. destruct (maybe_resize_run s io len Ht Hl) as [|(io' & Er & Hb & [->|(Hlt & a & b & Hab & Hnab & E)])]; [by left|right..].
  - exists io. split; [done|]. split; [done|]. split; [|lia]. constructor; try done. lia.
  - exists io'. split; [done|]. destruct (grown_table s io a b (nwatchers io')) as [G1 G2]; [done|lia|done|done|].
    rewrite <- E in G1, G2. split; [done|]. split; [done|lia].
Qed.
End Resize.

(** ** Steps *)
Lemma get_io_run io w x : ios io !! w = Some x -> get_io w io = Done x io.
Proof. unfold get_io. by intros ->. Qed.

(** The watcher [w] is [x] now. *)
Definition put_io (w : Z) (x : uv__io) (io : io_loop) : io_loop := with_ios (<[w := x]> (ios io)) io.

Lemma upd_io_run io w x f : ios io !! w = Some x -> upd_io w f io = Done tt (put_io w (f x) io).
Proof.
  intros E. unfold upd_io. rewrite (bind_done _ _ _ _ _ (get_io_run _ _ _ E)). unfold modify, put_io.
  do 2 f_equal. apply map_eq. intros i. destruct (decide (i = w)) as [->|Hne].
  - by rewrite lookup_alter_eq, lookup_insert_eq, E.
  - by rewrite lookup_alter_ne, lookup_insert_ne.
Qed.

Lemma io_queue_run {A} (m : @Qm ioptr _ _ A) io a q :
  m (io_queues io) = Done a q -> io_queue m io = Done a (with_io_queues q io).
Proof. unfold io_queue, in_part. by intros ->. Qed.

Lemma with_io_queues_id io : with_io_queues (io_queues io) io = io.
Proof. by destruct io. Qed.

Lemma io_queue_read {A} (m : @Qm ioptr _ _ A) io a :
  m (io_queues io) = Done a (io_queues io) -> io_queue m io = Done a io.
Proof. intros E. by rewrite (io_queue_run _ _ _ _ E), with_io_queues_id. Qed.

(** [loop->watchers[i] = v]. *)
Definition put_tab (i v : Z) (io : io_loop) : io_loop :=
  with_watchers ((fun ws => <[Z.to_nat i := v]> ws) <$> watchers io) io.

Lemma put_watcher_run io i v : is_Some (tab io i) -> put_watcher i v io = Done tt (put_tab i v io).
Proof.
  unfold put_watcher, tab, put_tab. rewrite bind_gets. destruct (watchers io) as [ws|]; [|by intros [? ?]].
  intros Hi%at_index_some. rewrite put_index_some by done. done.
Qed.

Lemma tab_put io i v j : is_Some (tab io i) -> tab (put_tab i v io) j = if j =? i then Some v else tab io j.
Proof.
  unfold tab, put_tab. cbn. destruct (watchers io) as [ws|]; [|by intros [? ?]]. cbn.
  intros Hi%at_index_some. by apply at_index_insert.
Qed.

Lemma tab_range s io i : table_ok s io -> is_Some (watchers io) -> 0 <= i < nwatchers io + 2 -> is_Some (tab io i).
Proof.
  intros [Hb Hs _ _ _] [ws E]. unfold tab. rewrite E in *. rewrite <- Hs. apply at_index_some.
Qed.

(** ** The table under changes of a watcher, of an element, of the ghost state *)
Lemma table_ext s s' io io' :
  table_ok s io -> watchers io' = watchers io -> nwatchers io' = nwatchers io -> nfds io' = nfds io ->
  ios io' = ios io -> s_poll s' = s_poll s ->
  (forall i w, 0 <= i < nwatchers io -> tab io i = Some w -> w ∈ s_live s -> w ∈ s_live s') -> table_ok s' io'.
Proof.
  intros [Hb Hs Hf He Hc] E1 E2 E3 E4 E5 Hl. unfold tab in *.
  constructor; unfold tab; rewrite ?E1, ?E2, ?E3, ?E4, ?E5; try done.
  intros i w Hi Hw Hne. destruct (He i w Hi Hw Hne) as [Hw' Hx]. split; [by apply (Hl i)|done].
Qed.

Lemma table_io s io w x x' :
  table_ok s io -> ios io !! w = Some x ->
  (forall i, 0 <= i < nwatchers io -> tab io i = Some w -> w <> 0 -> fd x' = fd x /\ pevents x' <> 0) ->
  table_ok s (put_io w x' io).
Proof.
  intros [Hb Hs Hf He Hc] E Hx. constructor; try done. intros i v Hi Hv Hne.
  destruct (He i v Hi Hv Hne) as [Hl (y & Ey & Hfd & Hp)]. split; [done|]. cbn.
  destruct (decide (v = w)) as [->|Hvw].
  - exists x'. rewrite lookup_insert_eq. destruct (Hx i Hi Hv Hne) as [Hf' Hp']. rewrite E in Ey. injection Ey as <-.
    split; [done|]. by rewrite Hf'.
  - exists y. by rewrite lookup_insert_ne.
Qed.

Lemma table_put s io i v o n :
  table_ok s io -> 0 <= i < nwatchers io -> tab io i = Some o ->
  n = nfds io - Z.b2z (negb (o =? 0)) + Z.b2z (negb (v =? 0)) ->
  (v <> 0 -> v ∈ s_live s /\ exists x, ios io !! v = Some x /\ fd x = i /\ pevents x <> 0) ->
  table_ok s (with_nfds n (put_tab i v io)).
Proof.
  intros [Hb Hs Hf He Hc] Hi Ho Hn Hv.
  assert (forall j, tab (with_nfds n (put_tab i v io)) j = if j =? i then Some v else tab io j) as Ht
    by (intros j; by apply tab_put; rewrite Ho).
  constructor.
  - done.
  - cbn. destruct (watchers io); [cbn; by rewrite zlen_insert|]. done.
  - cbn [watchers with_nfds put_tab with_watchers nwatchers]. rewrite !Ht. intros Hw.
    rewrite !(proj2 (Z.eqb_neq _ i)) by lia. apply Hf. by destruct (watchers io); [|destruct Hw].
  - intros j w Hj. rewrite Ht. destruct (Z.eqb_spec j i) as [->|Hne]; [|by apply He].
    intros [= <-] Hw. by apply Hv.
  - cbn. unfold tab in Ho. destruct (watchers io) as [ws|]; [|done]. cbn in *. rewrite Hn, Hc.
    rewrite at_index_nat in Ho by lia. rewrite take_insert_lt by lia.
    rewrite (count_insert _ _ _ o); [done|]. rewrite lookup_take_lt; [done|lia].
Qed.

Lemma nfds_bound s io : table_ok s io -> 0 <= nfds io <= nwatchers io.
Proof.
  intros [Hb Hs _ _ Hc]. rewrite Hc. pose proof (count_bounds (fun w => negb (w =? 0)) (take (Z.to_nat (nwatchers io)) (default [] (watchers io)))) as Hn.
  unfold zlen in *. rewrite length_take in Hn. lia.
Qed.

(** An element that is taken is counted. *)
Lemma nfds_pos s io i w : table_ok s io -> 0 <= i < nwatchers io -> tab io i = Some w -> w <> 0 -> 0 < nfds io.
Proof.
  intros [Hb Hs _ _ Hc] Hi Hw Hne. rewrite Hc. apply count_pos. exists (Z.to_nat i), w. unfold tab in Hw.
  destruct (watchers io) as [ws|]; [|done]. cbn. rewrite at_index_nat in Hw by lia.
  split; [rewrite lookup_take_lt; [done|lia]|]. by apply negb_true_iff, Z.eqb_neq.
Qed.

(** ** The nodes of the watchers in the queues *)
Lemma qa_linked s m h l x : queues_are s m -> qof s h = Some l -> x ∈ l -> QUEUE_EMPTY x m = Done false m.
Proof.
  intros (Q & Hw & HQ) E (l1 & l2 & ->)%list_elem_of_split. rewrite <- HQ in E.
  pose proof (qs_queue _ _ Hw _ _ E) as Hq. destruct (queue_split _ _ _ _ _ Hq) as (A & a & b & B & _ & EB & _ & _ & _ & [Hb _]).
  unfold QUEUE_EMPTY. rewrite (bind_next _ _ _ _ Hb). unfold ret. f_equal. apply bool_decide_false. intros <-.
  pose proof (queue_nodup _ _ _ Hq) as Hd. rewrite <- Permutation_middle, Permutation_swap in Hd. apply NoDup_cons in Hd as [Hn _].
  apply Hn. assert (x ∈ l2 ++ [h]) as Hx by (rewrite EB; by left). set_solver.
Qed.

Lemma w_node_empty s io w :
  queues_are s (io_queues io) -> w ∈ s_live s ->
  io_queue (QUEUE_EMPTY (w_node w)) io = Done (bool_decide (w ∉ s_wq s)) io.
Proof.
  intros Hq Hw. apply io_queue_read. destruct (decide (w ∈ s_wq s)) as [Hin|Hin].
  - rewrite bool_decide_false by tauto. eapply (qa_linked s _ watcher_queue); [done|done|]. by apply list_elem_of_fmap_2.
  - rewrite bool_decide_true by done. rewrite (qa_empty s _ _ []); [done|done|]. cbn. by rewrite bool_decide_true.
Qed.

Lemma p_node_empty s io w :
  queues_are s (io_queues io) -> w ∈ s_live s ->
  io_queue (QUEUE_EMPTY (p_node w)) io = Done (bool_decide (w ∉ s_pend s ++ s_pq s)) io.
Proof.
  intros Hq Hw. apply io_queue_read. destruct (decide (w ∈ s_pend s ++ s_pq s)) as [Hin|Hin].
  - rewrite bool_decide_false by tauto. apply elem_of_app in Hin as [Hin|Hin];
      [eapply (qa_linked s _ pending_queue)|eapply (qa_linked s _ local_pq)]; try done; by apply list_elem_of_fmap_2.
  - rewrite bool_decide_true by done. rewrite (qa_empty s _ _ []); [done|done|]. cbn. by rewrite bool_decide_true.
Qed.

(** The queues of a ghost state against those of an other one, head by head. *)
Ltac qcases :=
  let q := fresh "q" in intros q; destruct q; cbn; repeat case_decide; try discriminate; try done;
  rewrite ?fmap_app; try done;
  repeat match goal with H : w_node _ = w_node _ |- _ => injection H as -> | H : p_node _ = p_node _ |- _ => injection H as -> end;
  repeat case_bool_decide; try done; exfalso; set_solver.

Lemma wq_insert s m w :
  queues_are s m -> w ∈ s_live s -> w ∉ s_wq s ->
  exists m', QUEUE_INSERT_TAIL watcher_queue (w_node w) m = Done tt m' /\
  queues_are (with_wq (s_wq s ++ [w]) s) m' /\ forall y, is_Some (nxt m y) -> is_Some (nxt m' y).
Proof.
  intros Hq Hw Hn. eapply (qa_insert_tail s); [done|done| |done|].
  - cbn. by rewrite bool_decide_true.
  - qcases.
Qed.

Lemma pend_insert s m w :
  queues_are s m -> w ∈ s_live s -> w ∉ s_pend s ++ s_pq s ->
  exists m', QUEUE_INSERT_TAIL pending_queue (p_node w) m = Done tt m' /\
  queues_are (with_pend (s_pend s ++ [w]) s) m' /\ forall y, is_Some (nxt m y) -> is_Some (nxt m' y).
Proof.
  intros Hq Hw Hn. eapply (qa_insert_tail s); [done|done| |done|].
  - cbn. by rewrite bool_decide_true.
  - qcases.
Qed.

Lemma wq_nodup s m : queues_are s m -> NoDup (s_wq s).
Proof.
  intros (Q & Hw & HQ). pose proof (HQ watcher_queue) as E. cbn in E.
  pose proof (queue_nodup _ _ _ (qs_queue _ _ Hw _ _ E)) as [_ Hd]%NoDup_cons. by apply NoDup_fmap_1 in Hd.
Qed.

(** ** Steps that change one watcher *)
Section Ops.
Variable uv__fs_event : Z.
Abbreviation io_ok := (io_ok uv__fs_event).
Abbreviation watcher_ok := (watcher_ok uv__fs_event).

Lemma io_ok_change s s' io io' w x x' :
  io_ok s io -> w ∈ s_live s -> ios io !! w = Some x -> ios io' = <[w := x']> (ios io) -> fd x' = fd x ->
  s_mem s' = s_mem s -> s_live s' = s_live s -> s_poll s' = s_poll s ->
  (forall v, v ∈ s_wq s' ++ s_pend s' ++ s_pq s' -> v ∈ s_live s) ->
  queues_are s' (io_queues io') -> (forall y, is_Some (nxt (io_queues io) y) -> is_Some (nxt (io_queues io') y)) ->
  table_ok s' io' -> poll_array io' = poll_array io -> nwatchers io <= nwatchers io' ->
  (forall v, v <> w -> v ∈ s_wq s' <-> v ∈ s_wq s) ->
  (forall i v, v <> w -> 0 <= i < nwatchers io -> v ∈ s_live s -> tab io i = Some v -> tab io' i = Some v) ->
  watcher_ok s' io' w x' -> io_ok s' io'.
Proof.
  intros [It Il Id Ik Iq Im Ilm Ip] Hw Ex Eios Efd Em El Ep Hq Hqs Hmap Ht Ea Hn Hwq Htab Hx.
  assert (forall v y, ios io' !! v = Some y -> exists y0, ios io !! v = Some y0 /\ fd y = fd y0) as Hfd.
  { intros v y. rewrite Eios. destruct (decide (v = w)) as [->|Hne].
    - rewrite lookup_insert_eq. intros [= <-]. by exists x.
    - rewrite lookup_insert_ne by done. intros E. by exists y. }
  constructor; rewrite ?Em, ?El, ?Ep, ?Ea; try done.
  - intros v Hv. rewrite Eios. destruct (decide (v = w)) as [->|Hne].
    + exists x'. by rewrite lookup_insert_eq.
    + rewrite lookup_insert_ne by done. destruct (Il v Hv) as (y & Ey & [W1 W2 W3 W4 W5 W6]). exists y.
      split; [done|]. constructor; [done..| | |].
      * intros Hp. destruct (W4 Hp) as [Hr Hv']. split; [lia|]. by apply Htab.
      * intros Hp. rewrite Hwq by done. by apply W5.
      * intros Hp. rewrite Hwq by done. by apply W6.
  - intros v v' y y' Hv Hv' Ey Ey' Hy Hy0. destruct (Hfd v y Ey) as (z & Ez & Ef). destruct (Hfd v' y' Ey') as (z' & Ez' & Ef').
    apply (Id v v' z z'); congruence || lia.
  - intros v Hv. destruct (Im v Hv) as (H0 & H1 & H2 & H3). split; [done|]. split; [|split; by apply Hmap].
    rewrite Eios. apply lookup_insert_is_Some'. by right.
  - intros n Hn'. destruct (Ip n Hn') as [Hl Hf]. split; [done|].
    eapply Forall_impl; [exact Hf|]. intros ev [?|[? ?]]; [by left|right]. split; [lia|done].
Qed.

(** The queues alone change. *)
Lemma io_ok_requeue s s' io m :
  io_ok s io -> s_mem s' = s_mem s -> s_live s' = s_live s -> s_poll s' = s_poll s -> s_wq s' = s_wq s ->
  (forall v, v ∈ s_pend s' ++ s_pq s' -> v ∈ s_pend s ++ s_pq s) ->
  queues_are s' m -> (forall y, is_Some (nxt (io_queues io) y) -> is_Some (nxt m y)) ->
  io_ok s' (with_io_queues m io).
Proof.
  intros [It Il Id Ik Iq Im Ilm Ip] Em El Ep Ew Hsub Hq Hmap. constructor; rewrite ?Em, ?El, ?Ep; try done.
  - apply (table_ext s _ io); try done. intros. by rewrite El.
  - intros v Hv. destruct (Il v Hv) as (x & Ex & []). exists x. split; [done|]. constructor; rewrite ?Ew; done.
  - intros v. rewrite Ew, elem_of_app. intros [Hv|Hv]; apply Iq; rewrite elem_of_app; [by left|right; by apply Hsub].
  - intros v Hv. destruct (Im v Hv) as (H0 & H1 & H2 & H3). cbn. auto.
Qed.

(** The first of the pending watchers is taken. *)
Lemma pq_pop s io w rest :
  io_ok s io -> s_pq s = w :: rest ->
  exists m1 m, QUEUE_HEAD local_pq (io_queues io) = Done (p_node w) (io_queues io) /\
  QUEUE_REMOVE (p_node w) (io_queues io) = Done tt m1 /\ QUEUE_INIT (p_node w) m1 = Done tt m /\
  io_ok (with_pq rest s) (with_io_queues m io).
Proof.
  intros Hok Epq. pose proof Hok as [It Il Id Ik Iq Im Ilm Ip].
  assert (qof s local_pq = Some (p_node w :: (p_node <$> rest))) as E by (cbn; by rewrite Epq).
  assert (w ∈ s_live s) as Hw by (apply Iq; rewrite Epq; set_solver).
  pose proof Ik as (Q & Hwf & HQ).
  assert (w ∉ s_pend s ++ rest) as Hn.
  { rewrite <- HQ in E. intros [Hv|Hv]%elem_of_app.
    - assert (pending_queue = local_pq) as Eq; [|done].
      apply (qs_disjoint _ _ Hwf _ _ _ _ (p_node w) (HQ pending_queue) E); [right; by apply list_elem_of_fmap_2|right; by left].
    - pose proof (queue_nodup _ _ _ (qs_queue _ _ Hwf _ _ E)) as [_ [Hd _]%NoDup_cons]%NoDup_cons.
      apply Hd. by apply list_elem_of_fmap_2. }
  destruct (qa_remove_init s (with_pq rest s) (io_queues io) local_pq [] (p_node w) (p_node <$> rest)) as (m1 & m & E1 & E2 & Hq & Hmap);
    [done|done|done| |].
  - assert (forall v, v ∈ s_pend s ++ s_pq s <-> v = w \/ v ∈ s_pend s ++ rest) as Hin by (intros v; rewrite Epq; set_solver).
    intros [| | |v|v]; repeat case_decide; try done; cbn.
    + assert (v = w) as -> by congruence. by rewrite bool_decide_true.
    + assert (v <> w) by congruence. repeat case_bool_decide; try done; exfalso; rewrite Hin in *; tauto.
  - exists m1, m. split; [by eapply qa_head|]. split; [done|]. split; [done|]. eapply io_ok_requeue; try done.
    cbn. intros v. rewrite Epq. set_solver.
Qed.

(** The pending watchers pass to the local queue. *)
Lemma pend_move s io :
  io_ok s io -> s_pq s = [] ->
  exists m, QUEUE_MOVE pending_queue local_pq (io_queues io) = Done tt m /\
  io_ok (with_pq (s_pend s) (with_pend [] s)) (with_io_queues m io).
Proof.
  intros Hok Epq. pose proof (io_links _ _ _ Hok) as (Q & Hwf & HQ).
  pose proof (HQ pending_queue) as E1. pose proof (HQ local_pq) as E2. cbn in E1, E2. rewrite Epq in E2.
  destruct (qs_move Q _ pending_queue _ local_pq Hwf E1 E2) as (m & Er & Hwf' & Hmap); [done|]. exists m. split; [done|].
  apply (io_ok_requeue s); try done.
  - cbn. by rewrite Epq, app_nil_r.
  - eexists. split; [exact Hwf'|]. intros [| | |v|v]; rewrite ?lookup_insert_eq; try done;
      try (rewrite lookup_insert_ne, lookup_insert_eq by done; done);
      rewrite !lookup_insert_ne by done; rewrite HQ; [done..|]. cbn. by rewrite Epq, app_nil_r.
Qed.

(** The first of the watchers to register is taken, and registered. *)
Lemma wq_pop s io w rest x :
  io_ok s io -> s_wq s = w :: rest -> ios io !! w = Some x ->
  exists m1 m, QUEUE_HEAD watcher_queue (io_queues io) = Done (w_node w) (io_queues io) /\
  QUEUE_REMOVE (w_node w) (io_queues io) = Done tt m1 /\ QUEUE_INIT (w_node w) m1 = Done tt m /\
  io_ok (with_wq rest s) (put_io w (set_events (pevents x) x) (with_io_queues m io)) /\
  w ∈ s_live s /\ pevents x <> 0 /\ 0 <= fd x < nwatchers io /\ io_cb x <> uv__fs_event.
Proof.
  intros Hok Ewq Ex. pose proof Hok as [It Il Id Ik Iq Im Ilm Ip].
  assert (qof s watcher_queue = Some (w_node w :: (w_node <$> rest))) as E by (cbn; by rewrite Ewq).
  assert (w ∈ s_live s) as Hw by (apply Iq; rewrite Ewq; set_solver).
  pose proof (wq_nodup _ _ Ik) as Hd. rewrite Ewq in Hd. apply NoDup_cons in Hd as [Hn Hd].
  destruct (Il w Hw) as (x0 & Ex0 & Wok). rewrite Ex in Ex0. injection Ex0 as <-. pose proof Wok as [[W1 W1'] W2 W3 W4 W5 W6].
  assert (pevents x <> 0) as Hp by (intros Hp; destruct (W5 Hp) as [_ Hq]; apply Hq; rewrite Ewq; by left).
  destruct (W4 Hp) as [Hr Ht].
  destruct (qa_remove_init s (with_wq rest s) (io_queues io) watcher_queue [] (w_node w) (w_node <$> rest)) as (m1 & m & E1 & E2 & Hq & Hmap);
    [done|done|done| |].
  - assert (forall v, v ∈ s_wq s <-> v = w \/ v ∈ rest) as Hin by (intros v; rewrite Ewq; set_solver).
    intros [| | |v|v]; repeat case_decide; try done; cbn.
    + assert (v = w) as -> by congruence. by rewrite bool_decide_true.
    + assert (v <> w) by congruence. repeat case_bool_decide; try done; exfalso; rewrite Hin in *; tauto.
  - exists m1, m. split; [by eapply qa_head|]. split; [done|]. split; [done|]. split; [|done].
    apply (io_ok_change s (with_wq rest s) io _ w x (set_events (pevents x) x)); try done.
    + cbn. intros v Hv. apply Iq. rewrite Ewq. set_solver.
    + apply (table_io _ _ w x); [|done|done]. by apply (table_ext s _ io).
    + cbn. intros v Hne. rewrite Ewq. set_solver.
Qed.
End Ops.
