(* ===== verification/UvIoOps.v ===== *)
(** libuv, the I/O watchers: each operation on a watcher keeps the invariant of
    [UvIoInv.v], with what it does to the watcher, the table and the queues. *)
From S2P Require Import Prelude.
From S2P Require Import UvQueue.
From S2P Require Import UvQueueProofs.
From S2P Require Import UvLoop.
From S2P Require Import UvIo.
From S2P Require Import UvPoll.
From S2P Require Import UvLogic.
From S2P Require Import UvIoInv.
From S2P Require Import UvIoProofs.
#[local] Set Warnings "-clear-no-such-hyp".

Section Ops.
Variable uv__fs_event : Z.
Abbreviation io_ok := (io_ok uv__fs_event).
Abbreviation watcher_ok := (watcher_ok uv__fs_event).

(** Whose the element of a watcher is. *)
Lemma tab_own s io w x :
  io_ok s io -> w ∈ s_live s -> ios io !! w = Some x -> 0 <= fd x < nwatchers io ->
  exists v, tab io (fd x) = Some v /\ (v = 0 \/ v = w) /\ (pevents x <> 0 -> v = w).
Proof.
  intros [It Il Id Ik Iq Im Ilm Ip] Hw Ex Hr.
  assert (is_Some (tab io (fd x))) as [v Hv].
  { apply (tab_range s); [done| |lia]. destruct (watchers io) eqn:Ew; [done|].
    pose proof (t_size _ _ It) as Hs. rewrite Ew in Hs. lia. }
  exists v. split; [done|]. destruct (Il w Hw) as (x0 & Ex0 & [W1 W2 W3 W4 W5 W6]). rewrite Ex in Ex0. injection Ex0 as <-.
  split; [|intros Hp; destruct (W4 Hp) as [_ Hv']; congruence].
  destruct (decide (v = 0)) as [->|Hne]; [by left|right].
  destruct (t_entry _ _ It _ _ Hr Hv Hne) as [Hvl (y & Ey & Ef & _)]. apply (Id v w y x); [done..|lia].
Qed.
(** ** [uv__io_start] *)
Definition enqueued (w : Z) (s : io_shape) : io_shape :=
  if bool_decide (w ∈ s_wq s) then s else with_wq (s_wq s ++ [w]) s.

Lemma enqueued_live w s : s_live (enqueued w s) = s_live s /\ s_mem (enqueued w s) = s_mem s /\
  s_poll (enqueued w s) = s_poll s /\ s_pend (enqueued w s) = s_pend s /\ s_pq (enqueued w s) = s_pq s.
Proof. unfold enqueued. by case_bool_decide. Qed.

Lemma enqueued_in w s v : v ∈ s_wq (enqueued w s) <-> v = w \/ v ∈ s_wq s.
Proof. unfold enqueued. case_bool_decide; cbn; set_solver. Qed.

Lemma enqueue_run io w s :
  queues_are s (io_queues io) -> w ∈ s_live s ->
  exists m, (let* e := io_queue (QUEUE_EMPTY (w_node w)) in
             if e : bool then io_queue (QUEUE_INSERT_TAIL watcher_queue (w_node w)) else ret tt) io
    = Done tt (with_io_queues m io) /\ queues_are (enqueued w s) m /\
  forall y, is_Some (nxt (io_queues io) y) -> is_Some (nxt m y).
Proof.
  intros Hq Hw. rewrite (bind_done _ _ _ _ _ (w_node_empty _ _ _ Hq Hw)). unfold enqueued.
  destruct (decide (w ∈ s_wq s)) as [Hin|Hin].
  - rewrite bool_decide_false, bool_decide_true by tauto. exists (io_queues io). by rewrite with_io_queues_id.
  - rewrite bool_decide_true, bool_decide_false by tauto.
    destruct (wq_insert s _ w Hq Hw Hin) as (m & Er & Hq' & Hm). exists m.
    by rewrite (io_queue_run _ _ _ _ Er).
Qed.

(** The events of a call. *)
Definition events_ok (evs : Z) : Prop := 0 < evs < 2 ^ 32 /\ Z.land evs (Z.lnot poll_mask) = 0.

Lemma mask_bits v : 0 <= v -> Z.land v (Z.lnot poll_mask) = 0 -> v < 2 ^ 32.
Proof.
  intros Hv Hm. assert (v = Z.land v poll_mask) as E.
  { rewrite <- (Z.lor_0_r (Z.land v poll_mask)), <- Hm, <- Z.land_lor_distr_r, Z.lor_lnot_diag. by rewrite Z.land_m1_r. }
  rewrite E. change poll_mask with 8199. pose proof (Z.land_ones v 14 ltac:(lia)) as Hl.
  assert (Z.land v 8199 = Z.land (Z.land v (Z.ones 14)) 8199) as -> by (rewrite <- Z.land_assoc; done).
  rewrite Hl. change 8199 with (Z.land 8199 (Z.ones 14)). rewrite Z.land_assoc, Z.land_ones by lia.
  pose proof (Z.mod_pos_bound (Z.land (v mod 2 ^ 14) 8199) (2 ^ 14) ltac:(lia)). lia.
Qed.

Lemma land_lnot_u32 v k : 0 <= v < 2 ^ 32 -> Z.land v (u32 (Z.lnot k)) = Z.land v (Z.lnot k).
Proof.
  intros Hv. unfold u32. rewrite <- (Z.land_ones (Z.lnot k)) by lia.
  rewrite (Z.land_comm (Z.lnot k)), Z.land_assoc, (Z.land_ones v), Z.mod_small by lia. done.
Qed.

Lemma events_asserted evs io : events_ok evs -> assert_events evs io = Done tt io.
Proof.
  intros [Hr Hm]. unfold assert_events. rewrite land_lnot_u32, Hm by lia.
  by rewrite (proj2 (Z.eqb_neq evs 0)) by lia.
Qed.

Section Start.
Context `{ReallocLaws}.

Lemma io_start_spec s io w x evs :
  io_ok s io -> w ∈ s_live s -> ios io !! w = Some x -> 0 <= fd x -> events_ok evs ->
  let x' := set_pevents (Z.lor (pevents x) evs) x in
  let s' := if events x =? pevents x' then s else enqueued w s in
  gives False (uv__io_start w evs) io (fun _ io' => io_ok s' io' /\
  nwatchers io <= nwatchers io' /\ signal_io_watcher io' = signal_io_watcher io /\
  ios io' = <[w := x']> (ios io) /\ poll_array io' = poll_array io /\ tab io' (fd x) = Some w /\
  (forall i, 0 <= i < nwatchers io -> i <> fd x -> tab io' i = tab io i)).
Proof.
  intros Hok Hw Ex Hfd [Hev Hmask] x' s'. pose proof Hok as [It Il Id Ik Iq Im Ilm Ip].
  destruct (Il w Hw) as (x0 & Ex0 & [W1 W2 W3 W4 W5 W6]). rewrite Ex in Ex0. injection Ex0 as <-.
  assert (0 < pevents x') as Hpos.
  { cbn. assert (0 <= Z.lor (pevents x) evs) by (apply Z.lor_nonneg; lia).
    assert (Z.lor (pevents x) evs <> 0) by (intros [_ ?]%Z.lor_eq_0_iff; lia). lia. }
  assert (0 <= pevents x' /\ Z.land (pevents x') (Z.lnot poll_mask) = 0) as Hx3.
  { split; [lia|]. cbn. rewrite Z.land_lor_distr_l. destruct W3 as [_ ->]. by rewrite Hmask. }
  set (io1 := put_io w x' io).
  assert (table_ok s io1) as Ht1.
  { apply (table_io s io w x); [done|done|]. intros i Hi Hi'. split; [done|lia]. }
  unfold max_watchers in *.
  unfold gives, uv__io_start. rewrite (bind_done _ _ _ _ _ (events_asserted evs io (conj Hev Hmask))).
  rewrite (bind_done _ _ _ _ _ (get_io_run _ _ _ Ex)), (proj2 (Z.leb_le 0 (fd x))) by lia. cbn [assert].
  rewrite (bind_done _ _ _ _ _ (eq_refl : ret tt io = Done tt io)).
  rewrite (proj2 (Z.ltb_lt (fd x) INT_MAX)) by (unfold INT_MAX; lia).
  rewrite (bind_done _ _ _ _ _ (eq_refl : ret tt io = Done tt io)).
  rewrite (bind_done _ _ _ _ _ (upd_io_run _ _ _ _ Ex)). fold x' io1.
  destruct (resize_keeps s io1 (fd x + 1) Ht1 ltac:(unfold max_watchers; lia)) 
    as [[Er Hno]|(io2 & Er & Ht2 & [G1 G2 G3 G4 G5 G6 G7] & Hlen)].
  { rewrite (bind_fail _ _ _ _ Er). exists w, x'. cbn. rewrite lookup_insert_eq. split; [done|]. split; [unfold x' in Hpos; cbn in Hpos; lia|].
    split; [unfold max_watchers; lia|exact Hno]. }
  assert (tab io2 (fd x) = Some 0 \/ tab io2 (fd x) = Some w) as Hown.
  { destruct (Z.ltb_spec (fd x) (nwatchers io)) as [Hlt|Hge].
    - assert (is_Some (tab io (fd x))) as [v Hv].
      { apply (tab_range s); [done| |lia]. destruct (watchers io) eqn:Ew; [done|].
        pose proof (t_size _ _ It) as Hs. rewrite Ew in Hs. lia. }
      rewrite (G6 (fd x)) by (cbn; lia). change (tab io1 (fd x)) with (tab io (fd x)). rewrite Hv.
      destruct (decide (v = 0)) as [->|Hne]; [by left|right].
      destruct (t_entry _ _ It _ _ (conj Hfd Hlt) Hv Hne) as [Hvl (y & Ey & Ef & _)].
      f_equal. apply (Id v w y x); [done..|lia].
    - left. apply G7. cbn. lia. }
  assert (ios io2 !! w = Some x') as Ex2 by (rewrite G1; apply lookup_insert_eq).
  assert (forall v, v <> w -> forall i, 0 <= i < nwatchers io -> tab io i = Some v -> tab io2 i = Some v) as Hkeep.
  { intros v _ i Hi Hv. rewrite G6 by (cbn; lia). done. }
  rewrite (bind_done _ _ _ _ _ Er), (bind_done _ _ _ _ _ (get_io_run _ _ _ Ex2)).
  change (events x') with (events x).
  destruct (Z.eqb_spec (events x) (pevents x')) as [Heq|Hneq].
  - (* the early return *)
    assert (pevents x <> 0) as Hp by (intros Hp; destruct (W5 Hp); lia).
    destruct (W4 Hp) as [Hr Htw].
    assert (tab io2 (fd x) = Some w) as Ht2w.
    { rewrite G6 by (cbn; lia). done. }
    assert (s' = s) as -> by done. split.
    + apply (io_ok_change uv__fs_event s s io io2 w x x'); try done.
      * rewrite G2. done.
      * intros y Hy. by rewrite G2.
      * intros i v Hne Hi _. by apply Hkeep.
      * constructor; try done; [|intros; lia]. intros _. change (fd x') with (fd x). split; [lia|done].
    + split; [done|]. split; [done|]. split; [done|]. split; [done|]. split; [done|].
      intros i Hi _. by apply G6.
  - destruct (enqueue_run io2 w s) as (m & Ei & Hqs & Hmap); [by rewrite G2|done|].
    rewrite <- bind_assoc, (bind_done _ _ _ _ _ Ei). set (io3 := with_io_queues m io2).
    destruct (enqueued_live w s) as (L1 & L2 & L3 & L4 & L5).
    assert (exists v, tab io3 (fd x) = Some v /\ (v = 0 \/ v = w)) as (v & Hv & Hvo) by (destruct Hown; eauto).
    change (fd x') with (fd x). rewrite (bind_done _ _ _ _ _ (get_watcher_run _ _ _ Hv)).
    assert (w <> 0) as Hw0 by (apply (Im w), Ilm, Hw).
    assert (exists io4, (if v =? 0 then put_watcher (fd x) w;;; modify (fun l => with_nfds (u32 (nfds l + 1)) l) else ret tt) io3
      = Done tt io4 /\ table_ok (enqueued w s) io4 /\ ios io4 = ios io2 /\ io_queues io4 = m /\ poll_array io4 = poll_array io /\
      nwatchers io4 = nwatchers io2 /\ signal_io_watcher io4 = signal_io_watcher io2 /\ 
      (forall i, tab io4 i = if i =? fd x then Some w else tab io2 i)) as (io4 & E4 & Ht4 & Q1 & Q2 & Q3 & Q4 & Q5 & Q6).
    { assert (table_ok (enqueued w s) io3) as Ht3 by (apply (table_ext s _ io2); try done; intros; by rewrite L1).
      destruct Hvo as [-> | ->].
      - cbn [Z.eqb]. rewrite (bind_done _ _ _ _ _ (put_watcher_run io3 (fd x) w ltac:(by rewrite Hv))).
        pose proof (nfds_bound _ _ Ht3) as Hnb. pose proof (t_bound _ _ Ht3) as Htb. unfold max_watchers in Htb.
        eexists. split; [reflexivity|]. split.
        + cbn [nfds put_tab with_watchers]. apply (table_put _ io3 _ _ 0); [done|split; [done|cbn; lia]|done| |].
          * unfold u32. rewrite Z.mod_small by lia. rewrite (proj2 (Z.eqb_neq w 0)) by done. cbn. lia.
          * intros _. split; [by rewrite L1|]. exists x'. split; [done|]. split; [done|lia].
        + do 5 (split; [done|]). intros i. exact (tab_put io3 (fd x) w i ltac:(by rewrite Hv)).
      - rewrite (proj2 (Z.eqb_neq w 0)) by done. exists io3. split; [done|]. split; [done|].
        do 5 (split; [done|]). intros i. destruct (Z.eqb_spec i (fd x)) as [->|]; [exact Hv|done]. }
    rewrite E4. assert (s' = enqueued w s) as -> by done. split.
    + apply (io_ok_change uv__fs_event s (enqueued w s) io io4 w x x'); try done.
      * rewrite Q1, G1. done.
      * intros u. rewrite L4, L5, elem_of_app, enqueued_in. intros [[->|Hu]|Hu]; [done|apply Iq; set_solver..].
      * by rewrite Q2.
      * rewrite Q2. intros y Hy. apply Hmap. rewrite G2. done.
      * rewrite Q4. done.
      * intros u Hne. rewrite enqueued_in. tauto.
      * intros i u Hne Hi Hul Hu. rewrite Q6. destruct (Z.eqb_spec i (fd x)) as [->|]; [|by apply (Hkeep u)].
        destruct (decide (u = 0)) as [->|Hu0]; [by destruct (Im 0); [by apply Ilm|]|].
        destruct (t_entry _ _ It _ _ Hi Hu Hu0) as [_ (y & Ey & Ef & _)].
        exfalso. apply Hne. apply (Id u w y x); [done..|lia].
      * constructor; try done.
        -- intros _. rewrite Q4, Q6. change (fd x') with (fd x). rewrite Z.eqb_refl. split; [lia|done].
        -- intros; lia.
        -- intros _. rewrite enqueued_in. by left.
    + rewrite Q4, Q5, Q1, G1, Q3, Q6, Z.eqb_refl. do 5 (split; [done|]). intros i Hi Hne. rewrite Q6.
      rewrite (proj2 (Z.eqb_neq i (fd x))) by done. by apply G6.
Qed.
End Start.

(** ** [uv__io_stop] *)
Definition dequeued (w : Z) (s : io_shape) : io_shape := with_wq (filter (fun v => v <> w) (s_wq s)) s.

Lemma dequeued_none w s : w ∉ s_wq s -> dequeued w s = s.
Proof. intros Hn. unfold dequeued. rewrite filter_none by done. by destruct s. Qed.

Lemma dequeued_in w s v : v ∈ s_wq (dequeued w s) <-> v <> w /\ v ∈ s_wq s.
Proof. cbn. by rewrite list_elem_of_filter. Qed.

Lemma dequeue_run m w s :
  queues_are s m -> w ∈ s_live s ->
  exists m1 m', QUEUE_REMOVE (w_node w) m = Done tt m1 /\ QUEUE_INIT (w_node w) m1 = Done tt m' /\
  queues_are (dequeued w s) m' /\ forall y, is_Some (nxt m y) -> is_Some (nxt m' y).
Proof.
  intros Hq Hw. destruct (decide (w ∈ s_wq s)) as [Hin|Hin].
  - pose proof (wq_nodup _ _ Hq) as Hd. apply list_elem_of_split in Hin as (l1 & l2 & E). rewrite E in Hd.
    destruct (qa_remove_init s (dequeued w s) m watcher_queue (w_node <$> l1) (w_node w) (w_node <$> l2))
      as (m1 & m' & E1 & E2 & Hq' & Hm); [done| |done| |by exists m1, m'].
    + cbn. by rewrite E, fmap_app, fmap_cons.
    + assert (s_wq (dequeued w s) = l1 ++ l2) as E' by (cbn; by rewrite E, filter_at).
      assert (forall v, v ∈ s_wq (dequeued w s) <-> v <> w /\ v ∈ s_wq s) as Hin by apply dequeued_in.
      intros [| | |v|v]; repeat case_decide; try done; cbn [qof]; [by rewrite E', fmap_app|..].
      * assert (v = w) as -> by congruence. rewrite bool_decide_true; [done|]. split; [done|]. rewrite Hin. tauto.
      * assert (v <> w) as Hne by congruence. f_equal. repeat case_bool_decide; try done; exfalso; rewrite Hin in *; tauto.
  - assert (qof s (w_node w) = Some []) as E by (cbn; by rewrite bool_decide_true).
    exists m, m. rewrite (qa_remove_self _ _ _ Hq E), (qa_init_self _ _ _ Hq E), dequeued_none by done. done.
Qed.

(** The watcher after a stop. *)
Definition stopped (evs : Z) (x : uv__io) : uv__io :=
  let p := Z.land (pevents x) (Z.lnot evs) in
  set_events (if p =? 0 then 0 else events x) (set_pevents p x).

Lemma stopped_nothing evs x : pevents x = 0 -> events x = 0 -> stopped evs x = x.
Proof. intros Hp He. unfold stopped. rewrite Hp, Z.land_0_l. cbn. rewrite <- He at 1. rewrite <- Hp. by destruct x. Qed.

Lemma put_io_id io w x : ios io !! w = Some x -> put_io w x io = io.
Proof. intros E. unfold put_io. rewrite insert_id by done. by destruct io. Qed.

Lemma put_io_twice io w x y : put_io w y (put_io w x io) = put_io w y io.
Proof. unfold put_io, with_ios. cbn. by rewrite insert_insert_eq. Qed.


(** The element of a watcher is emptied. *)
Lemma table_release s s' io w x x' :
  table_ok s io -> ios io !! w = Some x -> 0 <= fd x < nwatchers io -> tab io (fd x) = Some w -> w <> 0 ->
  s_live s' = s_live s -> s_poll s' = s_poll s ->
  (forall i, 0 <= i < nwatchers io -> tab io i = Some w -> i = fd x) ->
  table_ok s' (put_io w x' (with_nfds (u32 (nfds io - 1)) (put_tab (fd x) 0 io))).
Proof.
  intros Ht Ex Hr Hv Hw0 El Ep Honly. pose proof (nfds_bound _ _ Ht) as Hnb. pose proof (nfds_pos _ _ _ _ Ht Hr Hv Hw0).
  pose proof (t_bound _ _ Ht) as Htb. unfold max_watchers in Htb.
  assert (u32 (nfds io - 1) = nfds io - 1) as -> by (apply Z.mod_small; lia).
  apply (table_io s' _ w x).
  - eapply (table_ext s _ (with_nfds (nfds io - 1) (put_tab (fd x) 0 io))); try done.
    + apply (table_put s io (fd x) 0 w); [done|done|done| |done]. rewrite (proj2 (Z.eqb_neq w 0)) by done. cbn. lia.
    + intros i v _ _. by rewrite El.
  - done.
  - intros i Hi Hi' _. exfalso. change (tab (put_tab (fd x) 0 io) i = Some w) in Hi'.
    rewrite tab_put in Hi' by (by rewrite Hv). destruct (Z.eqb_spec i (fd x)) as [->|Hne]; [congruence|].
    by apply Hne, Honly.
Qed.

Lemma lnot_events evs : events_ok evs -> 0 <= evs < 2 ^ 32.
Proof. intros [? _]. lia. Qed.

(** A watcher whose pending events are all stopped. *)
Lemma stopped_ok s s' io io' w x evs :
  watcher_ok s io w x -> s_live s' = s_live s -> nwatchers io' = nwatchers io ->
  let p := Z.land (pevents x) (Z.lnot evs) in
  (p = 0 -> w ∉ s_wq s') -> (p <> 0 -> w ∈ s_wq s' /\ tab io' (fd x) = tab io (fd x)) ->
  watcher_ok s' io' w (stopped evs x).
Proof.
  intros [W1 W2 [W3 W3'] W4 W5 W6] El En p Hp0 Hp1. unfold stopped. fold p.
  assert (pevents x = 0 -> p = 0) as Hxp by (intros E; unfold p; by rewrite E, Z.land_0_l).
  constructor; cbn; [done|done| | | |].
  - split; [apply Z.land_nonneg; by left|]. unfold p. by rewrite <- Z.land_assoc, (Z.land_comm (Z.lnot evs)), Z.land_assoc, W3'.
  - intros Hp. destruct (Hp1 Hp) as [_ ->]. rewrite En. apply W4. tauto.
  - intros Hp. rewrite Hp at 1. split; [done|by apply Hp0].
  - destruct (Z.eqb_spec p 0) as [->|Hp]; [done|]. intros _. by apply Hp1.
Qed.


Lemma io_stop_spec s io w x evs :
  io_ok s io -> w ∈ s_live s -> ios io !! w = Some x -> events_ok evs ->
  let p := Z.land (pevents x) (Z.lnot evs) in
  let s' := if p =? 0 then dequeued w s else enqueued w s in
  exists io', uv__io_stop w evs io = Done tt io' /\ io_ok s' io' /\
  nwatchers io' = nwatchers io /\ signal_io_watcher io' = signal_io_watcher io /\
  (watchers io' = None <-> watchers io = None) /\
  ios io' = <[w := stopped evs x]> (ios io) /\ poll_array io' = poll_array io /\
  (forall i, i <> fd x -> tab io' i = tab io i) /\
  (0 <= fd x < nwatchers io -> tab io' (fd x) = Some (if p =? 0 then 0 else w)).
Proof.
  intros Hok Hw Ex Hev p s'. pose proof Hok as [It Il Id Ik Iq Im Ilm Ip].
  destruct (Il w Hw) as (x0 & Ex0 & Wok). rewrite Ex in Ex0. injection Ex0 as <-. pose proof Wok as [W1 W2 W3 W4 W5 W6].
  assert (w <> 0) as Hw0 by (apply (Im w), Ilm, Hw).
  assert (forall i, 0 <= i < nwatchers io -> tab io i = Some w -> i = fd x) as Honly.
  { intros i Hi Ht. destruct (t_entry _ _ It i w Hi Ht Hw0) as [_ (y & Ey & <- & _)]. congruence. }
  pose proof (t_bound _ _ It) as Htb. unfold max_watchers in Htb.
  unfold uv__io_stop. rewrite (bind_done _ _ _ _ _ (events_asserted evs io Hev)), (bind_done _ _ _ _ _ (get_io_run _ _ _ Ex)).
  destruct (decide (0 <= fd x < nwatchers io)) as [Hr|Hr].
  2: { (* never started *)
    assert (pevents x = 0) as Hp by (destruct (Z.eq_dec (pevents x) 0) as [|Hp]; [done|destruct (W4 Hp); lia]).
    destruct (W5 Hp) as [He Hnq]. assert (p = 0) as Ep by (unfold p; by rewrite Hp, Z.land_0_l).
    assert (s' = s) as -> by (unfold s'; rewrite Ep; by apply dequeued_none).
    exists io. split.
    - destruct (Z.eqb_spec (fd x) (-1)) as [|Hf]; [done|]. rewrite (proj2 (Z.leb_le 0 (fd x))) by lia. cbn [assert].
      rewrite (bind_done _ _ _ _ _ (eq_refl : ret tt io = Done tt io)), bind_gets.
      unfold u32. rewrite Z.mod_small, (proj2 (Z.leb_le (nwatchers io) (fd x))) by (unfold max_watchers in *; lia). done.
    - split; [done|]. split; [done|]. split; [done|]. split; [done|]. rewrite stopped_nothing, insert_id by done.
      do 3 (split; [done|]). intros; lia. }
  rewrite (proj2 (Z.eqb_neq (fd x) (-1))), (proj2 (Z.leb_le 0 (fd x))) by lia. cbn [assert].
  rewrite (bind_done _ _ _ _ _ (eq_refl : ret tt io = Done tt io)), bind_gets.
  assert (u32 (fd x) = fd x) as -> by (apply Z.mod_small; lia).
  rewrite (proj2 (Z.leb_gt (nwatchers io) (fd x))) by lia.
  rewrite (bind_done _ _ _ _ _ (upd_io_run _ _ _ _ Ex)).
  rewrite (land_lnot_u32 (pevents x)) by (split; [apply W3|by apply mask_bits; apply W3]). fold p.
  set (x1 := set_pevents p x). set (io1 := put_io w x1 io).
  assert (ios io1 !! w = Some x1) as Ex1 by apply lookup_insert_eq.
  rewrite (bind_done _ _ _ _ _ (get_io_run _ _ _ Ex1)). change (pevents x1) with p. change (fd x1) with (fd x).
  destruct (tab_own _ _ _ _ Hok Hw Ex Hr) as (v & Hv & Hvo & Hvp).
  unfold s'. destruct (Z.eqb_spec p 0) as [Ep|Ep].
  - (* nothing is left *)
    destruct (dequeue_run (io_queues io1) w s Ik Hw) as (m1 & m & Er & Ei & Hqs & Hmap).
    rewrite (bind_done _ _ _ _ _ (io_queue_run _ _ _ _ Er)).
    rewrite (bind_done _ _ _ _ _ (io_queue_run _ (with_io_queues m1 io1) _ _ Ei)).
    set (io3 := with_io_queues m _). assert (tab io3 (fd x) = Some v) as Hv3 by exact Hv.
    rewrite (bind_done _ _ _ _ _ (get_watcher_run _ _ _ Hv3)).
    assert (exists io', (if v =? 0 then ret tt else
        assert (v =? w);;; let* n := gets nfds in assert (0 <? n);;;
        put_watcher (fd x) 0;;; modify (fun l => with_nfds (u32 (nfds l - 1)) l);;; upd_io w (set_events 0)) io3 = Done tt io' /\
      table_ok (dequeued w s) io' /\ ios io' = <[w := stopped evs x]> (ios io) /\ io_queues io' = m /\
      nwatchers io' = nwatchers io /\ signal_io_watcher io' = signal_io_watcher io /\ poll_array io' = poll_array io /\
      (watchers io' = None <-> watchers io = None) /\
      forall i, tab io' i = if i =? fd x then Some 0 else tab io i)
      as (io' & E' & Ht' & Q1 & Q2 & Q3 & Q4 & Q5 & Q6 & Q7).
    { destruct Hvo as [-> | ->].
      - assert (pevents x = 0) as Hp by (destruct (Z.eq_dec (pevents x) 0) as [|Hp]; [done|apply Hvp in Hp; congruence]).
        destruct (W5 Hp) as [He _]. exists io3. split; [done|]. 
        assert (x1 = stopped evs x) as Ex1' by (unfold stopped, x1, set_events, set_pevents; fold p; rewrite Ep, Z.eqb_refl; cbn; by rewrite He).
        split; [|rewrite <- Ex1'; do 6 (split; [done|]); intros i; by destruct (Z.eqb_spec i (fd x)) as [->|]].
        apply (table_ext s _ io1); try done. apply (table_io s io w x); [done|done|].
        intros i Hi Hi' _. pose proof (Honly i Hi Hi') as ->. rewrite Hv in Hi'. congruence.
      - rewrite (proj2 (Z.eqb_neq w 0)), Z.eqb_refl by done. cbn [assert].
        rewrite (bind_done _ _ _ _ _ (eq_refl : ret tt io3 = Done tt io3)), bind_gets.
        change (nfds io3) with (nfds io). rewrite (proj2 (Z.ltb_lt 0 (nfds io))) by (by apply (nfds_pos s io (fd x) w)).
        cbn [assert]. rewrite (bind_done _ _ _ _ _ (eq_refl : ret tt io3 = Done tt io3)).
        rewrite (bind_done _ _ _ _ _ (put_watcher_run io3 (fd x) 0 ltac:(by rewrite Hv3))), bind_modify.
        rewrite (upd_io_run _ w x1) by exact Ex1. eexists. split; [reflexivity|].
        assert (set_events 0 x1 = stopped evs x) as -> by (unfold stopped, x1, set_events, set_pevents; fold p; by rewrite Ep).
        split; [|split; [by unfold put_io; cbn; rewrite insert_insert_eq|]].
        + pose proof (table_release s (dequeued w s) io w x (stopped evs x) It Ex Hr Hv Hw0 eq_refl eq_refl Honly) as Ht.
          eapply (table_ext _ _ _ _ Ht); try done. by unfold put_io; cbn; rewrite insert_insert_eq.
        + do 4 (split; [done|]). split.
          * cbn. by destruct (watchers io).
          * intros i. exact (tab_put io3 (fd x) 0 i ltac:(by rewrite Hv3)). }
    exists io'. split; [done|]. split; [|split; [done|split; [done|split; [done|split; [done|split; [done|split]]]]]].
    + apply (io_ok_change uv__fs_event s (dequeued w s) io io' w x (stopped evs x)); try done.
      * intros u. rewrite !elem_of_app, dequeued_in. intros Hu. apply Iq. rewrite !elem_of_app. cbn in Hu. tauto.
      * by rewrite Q2.
      * rewrite Q2. exact Hmap.
      * by rewrite Q3.
      * intros u Hne. rewrite dequeued_in. tauto.
      * intros i u Hne Hi Hu Hiu. rewrite Q7. destruct (Z.eqb_spec i (fd x)) as [->|]; [|done].
        destruct Hvo as [-> | ->]; congruence.
      * apply (stopped_ok s _ io); [done|done|done| |done]. intros _. rewrite dequeued_in. tauto.
    + intros i Hne. rewrite Q7. by rewrite (proj2 (Z.eqb_neq i (fd x))).
    + intros _. by rewrite Q7, Z.eqb_refl.
  - (* some events are left *)
    assert (pevents x <> 0) as Hp by (intros Hp; apply Ep; unfold p; by rewrite Hp, Z.land_0_l).
    pose proof (Hvp Hp) as ->.
    destruct (enqueue_run io1 w s Ik Hw) as (m & Ei & Hqs & Hmap). rewrite Ei.
    assert (x1 = stopped evs x) as Ex1'.
    { unfold stopped. fold p. rewrite (proj2 (Z.eqb_neq p 0)) by done. by unfold x1; destruct x. }
    destruct (enqueued_live w s) as (L1 & L2 & L3 & L4 & L5).
    eexists. split; [reflexivity|]. rewrite <- Ex1'. split; [|do 6 (split; [done|]); intros _; exact Hv].
    apply (io_ok_change uv__fs_event s (enqueued w s) io _ w x x1); try done.
    + intros u. rewrite L4, L5, elem_of_app, enqueued_in. intros [[->|Hu]|Hu]; [done|apply Iq; set_solver..].
    + eapply (table_ext s _ io1); try done; [|intros i u _ _; by rewrite L1].
      apply (table_io s io w x); [done|done|]. intros i Hi Hi' _. split; [done|exact Ep].
    + intros u Hne. rewrite enqueued_in. tauto.
    + rewrite Ex1'. apply (stopped_ok s _ io); [done|done|done|done|]. intros _. split; [|done]. rewrite enqueued_in. by left.
Qed.
End Ops.
