(* ===== verification/UvIoLife.v ===== *)
(** libuv, the I/O watchers: the beginning and the end of the life of a watcher,
    [uv__io_init] and [uv__io_close], and [uv__io_feed]. *)
From S2P Require Import Prelude.
From S2P Require Import UvQueue.
From S2P Require Import UvQueueProofs.
From S2P Require Import UvLoop.
From S2P Require Import UvIo.
From S2P Require Import UvPoll.
From S2P Require Import UvLogic.
From S2P Require Import UvIoInv.
From S2P Require Import UvIoProofs.
From S2P Require Import UvIoOps.
#[local] Set Warnings "-clear-no-such-hyp".

(** ** [uv__platform_invalidate_fd] *)
Definition void_event (fd : Z) (e : kev) : kev :=
  if s32 (ident e) =? fd then mk_kev (u64 (-1)) (kfilter e) (kflags e) (fflags e) (kdata e) else e.

Lemma invalidate_run fd evs k :
  invalidate_loop (length k) (zlen evs) fd (evs ++ k) = Some (evs ++ map (void_event fd) k).
Proof.
  revert evs. induction k as [|e k IH]; intros evs; [done|]. cbn [length invalidate_loop map].
  pose proof (zlen_nonneg evs). rewrite at_index_nat, zlen_to_nat, list_lookup_middle by done.
  assert ((if s32 (ident e) =? fd
           then <[length evs := mk_kev (u64 (-1)) (kfilter e) (kflags e) (fflags e) (kdata e)]> (evs ++ e :: k)
           else evs ++ e :: k) = (evs ++ [void_event fd e]) ++ k) as ->.
  { unfold void_event. rewrite <- app_assoc. destruct (s32 (ident e) =? fd); [|done].
    by rewrite insert_app_r_alt, Nat.sub_diag by lia. }
  replace (zlen evs + 1) with (zlen (evs ++ [void_event fd e])) by (rewrite zlen_app; done).
  by rewrite IH, <- app_assoc.
Qed.

(** The part of the loop after a descriptor is gone. *)
Definition voided (s : io_shape) (fd : Z) (io : io_loop) : io_loop :=
  match s_poll s with Some _ => with_poll_array (map (void_event fd) (poll_array io)) io | None => io end.

Lemma platform_invalidate_run s io fd :
  table_ok s io -> (forall n, s_poll s = Some n -> zlen (poll_array io) = n) -> 0 <= fd -> is_Some (watchers io) ->
  uv__platform_invalidate_fd fd io = Done tt (voided s fd io).
Proof.
  intros Ht Hp Hfd Hw. unfold uv__platform_invalidate_fd. rewrite bind_gets.
  assert (match watchers io with Some _ => true | None => false end = true) as -> by (by destruct Hw as [? ->]).
  rewrite (proj2 (Z.leb_le 0 fd)) by done. cbn [assert].
  rewrite !(bind_done _ _ _ _ _ (eq_refl : ret tt io = Done tt io)), bind_gets.
  pose proof (t_bound _ _ Ht) as Hb. unfold max_watchers in Hb. destruct (t_fakes _ _ Ht Hw) as [F1 F2].
  assert (u32 (nwatchers io + 1) = nwatchers io + 1) as -> by (apply Z.mod_small; lia).
  rewrite (bind_done _ _ _ _ _ (get_watcher_run _ _ _ F1)), (bind_done _ _ _ _ _ (get_watcher_run _ _ _ F2)).
  unfold voided. destruct (s_poll s) as [n|] eqn:En; [|done].
  change (default 0 (Some n)) with n. change (poll_events =? 0) with false. cbn iota.
  rewrite bind_gets, <- (Hp n eq_refl), zlen_to_nat.
  pose proof (invalidate_run fd [] (poll_array io)) as Hi. cbn [app] in Hi. change (zlen []) with 0 in Hi.
  by rewrite Hi.
Qed.

Lemma voided_event io fd ev : event_ok io ev -> event_ok io (void_event fd ev).
Proof. intros He. unfold void_event. destruct (s32 (ident ev) =? fd); [by left|done]. Qed.

(** ** A watcher leaves the queues *)
Definition closed_shape (w : Z) (s : io_shape) : io_shape :=
  mk_io_shape (s_mem s) (s_live s ∖ {[w]}) (filter (fun v => v <> w) (s_wq s))
    (filter (fun v => v <> w) (s_pend s)) (filter (fun v => v <> w) (s_pq s)) (s_poll s).

Lemma filter_split (w : Z) (l : list Z) :
  NoDup l -> w ∈ l -> exists l1 l2, l = l1 ++ w :: l2 /\ filter (fun v => v <> w) l = l1 ++ l2.
Proof. intros Hd (l1 & l2 & ->)%list_elem_of_split. exists l1, l2. split; [done|]. by apply filter_at. Qed.

Lemma qof_closed w s q :
  w ∉ s_wq s -> qof (closed_shape w s) q =
  match q with
  | watcher_queue => qof s q
  | pending_queue => Some (p_node <$> filter (fun v => v <> w) (s_pend s))
  | local_pq => Some (p_node <$> filter (fun v => v <> w) (s_pq s))
  | w_node v | p_node v => if decide (v = w) then None else qof s q
  end.
Proof.
  intros Hn. destruct q as [| | |v|v]; cbn; try done; [by rewrite filter_none|..]; rewrite ?filter_none by done;
    (destruct (decide (v = w)) as [->|Hne]; [rewrite bool_decide_false; [done|set_solver]|]);
    repeat case_bool_decide; try done; exfalso;
    rewrite ?elem_of_app, ?list_elem_of_filter, ?elem_of_difference, ?elem_of_singleton in *; tauto.
Qed.

(** Cases of [qof_closed] that exclude each other. *)
#[local] Ltac clash :=
  match goal with
  | H : _ \/ _ |- _ => destruct H; congruence
  | H : ~ (_ \/ _), E : _ = _ |- _ => apply H; rewrite E; tauto
  end.

(** The queues after the node of a watcher that is not in the watcher queue is
    taken out of the pending ones; the node is in no queue any more. *)
Lemma p_node_remove s m w :
  queues_are s m -> w ∈ s_live s -> w ∉ s_wq s ->
  exists m', QUEUE_REMOVE (p_node w) m = Done tt m' /\ queues_are (closed_shape w s) m' /\
  forall y, is_Some (nxt m y) -> is_Some (nxt m' y).
Proof.
  intros Hqa Hw Hn. pose proof Hqa as (Q & Hwf & HQ).
  assert (forall v, v ∈ s_pend s -> v ∈ s_pq s -> False) as Hdis.
  { intros v H1 H2. assert (pending_queue = local_pq) as E; [|done].
    apply (qs_disjoint _ _ Hwf _ _ _ _ (p_node v) (HQ pending_queue) (HQ local_pq)); right; by apply list_elem_of_fmap_2. }
  assert (forall h l, Q !! h = Some (p_node <$> l) -> w ∈ l -> h <> w_node w -> w ∈ s_pend s ++ s_pq s ->
    (forall q, qof (closed_shape w s) q =
      if decide (q = h) then Some (p_node <$> filter (fun v => v <> w) l)
      else if decide (q = w_node w \/ q = p_node w) then None else qof s q) ->
    exists m', QUEUE_REMOVE (p_node w) m = Done tt m' /\ queues_are (closed_shape w s) m' /\
    forall y, is_Some (nxt m y) -> is_Some (nxt m' y)) as Hin.
  { intros h l E Hl Hne Hpq Hs. assert (NoDup l) as Hd.
    { pose proof (queue_nodup _ _ _ (qs_queue _ _ Hwf _ _ E)) as [_ Hd]%NoDup_cons. by apply NoDup_fmap_1 in Hd. }
    destruct (filter_split w l Hd Hl) as (l1 & l2 & -> & Ef). rewrite Ef, fmap_app in Hs. rewrite fmap_app, fmap_cons in E.
    destruct (qs_remove (delete (w_node w) Q) m h (p_node <$> l1) (p_node w) (p_node <$> l2)) as (m' & Er & Hwf' & _ & Hm).
    { by apply queues_wf_delete. } { by rewrite lookup_delete_ne. }
    exists m'. split; [done|]. split; [|done]. eexists. split; [exact Hwf'|]. intros q. rewrite Hs.
    destruct (decide (q = h)) as [->|Hq]; [by rewrite lookup_insert_eq|]. rewrite lookup_insert_ne by done.
    destruct (decide (q = w_node w)) as [->|Hq']; [by rewrite lookup_delete_eq, decide_True by tauto|].
    rewrite lookup_delete_ne by done. case_decide as Hp; [destruct Hp as [Hp|Hp]; [done|subst q]|apply HQ].
    rewrite HQ. cbn. rewrite bool_decide_false; [done|tauto]. }
  pose proof (fun q => qof_closed w s q Hn) as Hcl.
  destruct (decide (w ∈ s_pend s)) as [Hp|Hp]; [|destruct (decide (w ∈ s_pq s)) as [Hp'|Hp']].
  - apply (Hin pending_queue (s_pend s)); [apply HQ|done|done|rewrite elem_of_app; tauto|].
    intros q. rewrite Hcl. destruct q; repeat case_decide; try done; try (exfalso; clash).
    rewrite filter_none by (intros ?; by apply (Hdis w)). done.
  - apply (Hin local_pq (s_pq s)); [apply HQ|done|done|rewrite elem_of_app; tauto|].
    intros q. rewrite Hcl. destruct q; repeat case_decide; try done; try (exfalso; clash).
    by rewrite filter_none.
  - exists m. split; [|split; [|done]].
    + apply (qa_remove_self s); [done|]. cbn. rewrite bool_decide_true; [done|]. rewrite elem_of_app. tauto.
    + exists (delete (w_node w) (delete (p_node w) Q)). split; [by do 2 apply queues_wf_delete|].
      intros q. rewrite Hcl. destruct (decide (q = w_node w)) as [->|H1]; [by rewrite lookup_delete_eq, decide_True|].
      rewrite lookup_delete_ne by done. destruct (decide (q = p_node w)) as [->|H2]; [by rewrite lookup_delete_eq, decide_True|].
      rewrite lookup_delete_ne by done. rewrite HQ. destruct q; try done; rewrite ?filter_none by done; try done;
        (case_decide; [congruence|done]).
Qed.

Section Life.
Variable uv__fs_event : Z.
Abbreviation io_ok := (io_ok uv__fs_event).

Lemma io_feed_spec s io w :
  io_ok s io -> w ∈ s_live s ->
  exists m, uv__io_feed w io = Done tt (with_io_queues m io) /\
  io_ok (if bool_decide (w ∈ s_pend s ++ s_pq s) then s else with_pend (s_pend s ++ [w]) s) (with_io_queues m io).
Proof.
  intros Hok Hw. pose proof Hok as [It Il Id Ik Iq Im Ilm Ip].
  unfold uv__io_feed. rewrite (bind_done _ _ _ _ _ (p_node_empty _ _ _ Ik Hw)).
  destruct (decide (w ∈ s_pend s ++ s_pq s)) as [Hin|Hin].
  - rewrite bool_decide_false, bool_decide_true by tauto. exists (io_queues io). by rewrite with_io_queues_id.
  - rewrite bool_decide_true, bool_decide_false by tauto.
    destruct (pend_insert s _ w Ik Hw Hin) as (m & Er & Hq & Hmap). exists m. rewrite (io_queue_run _ _ _ _ Er).
    split; [done|]. destruct (Il w Hw) as (x & Ex & Hx).
    apply (io_ok_change uv__fs_event s _ io _ w x x); try done.
    + cbn. by rewrite insert_id.
    + cbn. intros v. rewrite !elem_of_app, list_elem_of_singleton. intros [Hv|[[Hv| ->]|Hv]]; [..|done|];
        apply Iq; rewrite !elem_of_app; tauto.
    + by apply (table_ext s _ io).
    + by destruct Hx.
Qed.

(** ** [uv__io_close] *)
Lemma io_ok_voided s io x : io_ok s io -> io_ok s (voided s x io).
Proof.
  intros [It Il Id Ik Iq Im Ilm Ip]. unfold voided. destruct (s_poll s) as [n|] eqn:En; [|by constructor; rewrite ?En].
  destruct (Ip n eq_refl) as [Hz Hf]. constructor; try done.
  - by apply (table_ext s s io).
  - intros w Hw. destruct (Il w Hw) as (y & Ey & []). exists y. split; [done|by constructor].
  - intros n' Hn'. rewrite En in Hn'. injection Hn' as <-. cbn. split; [unfold zlen in *; by rewrite length_map|].
    apply Forall_forall. intros ev (ev0 & -> & Hin)%list_elem_of_fmap. rewrite Forall_forall in Hf.
    by apply voided_event, Hf.
Qed.

Lemma io_ok_drop s io w m :
  io_ok s io -> w ∈ s_live s -> w ∉ s_wq s -> (forall i, 0 <= i < nwatchers io -> tab io i <> Some w) ->
  queues_are (closed_shape w s) m -> (forall y, is_Some (nxt (io_queues io) y) -> is_Some (nxt m y)) ->
  io_ok (closed_shape w s) (with_io_queues m io).
Proof.
  intros [It Il Id Ik Iq Im Ilm Ip] Hw Hn Ht Hq Hmap.
  assert (forall v, v ∈ s_live (closed_shape w s) <-> v ∈ s_live s /\ v <> w) as Hl by (intros v; cbn; set_solver).
  constructor; try done.
  - apply (table_ext s _ io); try done. intros i v Hi Hv Hvl. rewrite Hl. split; [done|]. intros ->. by apply (Ht i).
  - intros v [Hv Hne]%Hl. destruct (Il v Hv) as (y & Ey & [W1 W2 W3 W4 W5 W6]). exists y. split; [done|].
    constructor; [done..| |]; intros Hp; cbn; rewrite list_elem_of_filter.
    + destruct (W5 Hp). tauto.
    + split; [done|]. by apply W6.
  - intros v v' y y' [Hv _]%Hl [Hv' _]%Hl. by apply Id.
  - intros v Hv. rewrite Hl. cbn in Hv. rewrite !elem_of_app, !list_elem_of_filter in Hv. split; [apply Iq|]; rewrite ?elem_of_app; tauto.
  - intros v Hv. destruct (Im v Hv) as (H0 & H1 & H2 & H3). cbn. auto.
  - intros v [Hv _]%Hl. by apply Ilm.
Qed.

Lemma closed_dequeued w s : closed_shape w (dequeued w s) = closed_shape w s.
Proof.
  unfold closed_shape, dequeued. cbn. rewrite (filter_none w (filter _ (s_wq s))); [done|].
  rewrite list_elem_of_filter. tauto.
Qed.

Lemma mask_events : events_ok poll_mask.
Proof. split; [done|reflexivity]. Qed.

Lemma io_close_spec s io w x :
  io_ok s io -> w ∈ s_live s -> ios io !! w = Some x -> (fd x = -1 \/ is_Some (watchers io)) ->
  exists io', uv__io_close w io = Done tt io' /\ io_ok (closed_shape w s) io' /\
  nwatchers io' = nwatchers io /\ signal_io_watcher io' = signal_io_watcher io /\
  (watchers io' = None <-> watchers io = None) /\ ios io' = <[w := stopped poll_mask x]> (ios io) /\
  (s_poll s <> None -> poll_array io' = if fd x =? -1 then poll_array io else map (void_event (fd x)) (poll_array io)) /\
  (0 <= fd x < nwatchers io -> tab io' (fd x) = Some 0).
Proof.
  intros Hok Hw Ex Hfd. destruct (io_live _ _ _ Hok w Hw) as (x0 & Ex0 & Wok). rewrite Ex in Ex0. injection Ex0 as <-.
  destruct (io_stop_spec uv__fs_event s io w x poll_mask Hok Hw Ex mask_events) as (io1 & Er & Hok1 & Q1 & Q2 & Q3 & Q4 & Q5 & Q6 & Q7).
  destruct Wok as [W1 W2 [W3 W3'] W4 W5 W6]. rewrite W3' in *. cbn [Z.eqb] in *.
  assert (stopped poll_mask x = mk_io (io_cb x) (fd x) 0 0 (rcount x) (wcount x)) as Est.
  { unfold stopped, set_events, set_pevents. by rewrite W3'. }
  assert (w ∉ s_wq (dequeued w s)) as Hn by (rewrite dequeued_in; tauto).
  destruct (p_node_remove _ _ w (io_links _ _ _ Hok1) Hw Hn) as (m & Ep & Hq & Hmap).
  assert (ios io1 !! w = Some (stopped poll_mask x)) as Ex1 by (rewrite Q4; apply lookup_insert_eq).
  assert (w <> 0) as Hw0 by (apply (io_mem _ _ _ Hok w), (io_live_mem _ _ _ Hok), Hw).
  set (io2 := with_io_queues m io1).
  assert (io_ok (closed_shape w s) io2) as Hok2.
  { rewrite <- closed_dequeued. apply io_ok_drop; try done. intros i Hi Ht.
    destruct (t_entry _ _ (io_table _ _ _ Hok1) i w Hi Ht Hw0) as [_ (y & Ey & _ & Hp)].
    rewrite Ex1 in Ey. injection Ey as <-. by rewrite Est in Hp. }
  unfold uv__io_close. rewrite (bind_done _ _ _ _ _ Er), (bind_done _ _ _ _ _ (io_queue_run _ _ _ _ Ep)).
  rewrite (bind_done _ _ _ _ _ (get_io_run io2 _ _ Ex1)).
  assert (fd (stopped poll_mask x) = fd x) as -> by done.
  destruct (Z.eqb_spec (fd x) (-1)) as [Hm|Hm].
  - exists io2. split; [done|]. split; [done|]. do 4 (split; [done|]). split; [intros _; exact Q5|lia].
  - exists (voided (closed_shape w s) (fd x) io2). split; [|split; [by apply io_ok_voided|]].
    + apply platform_invalidate_run; [apply (io_table _ _ _ Hok2)|intros n Hp; by apply (io_poll _ _ _ Hok2)|lia|].
      destruct Hfd as [|[ws E]]; [done|]. change (watchers io2) with (watchers io1).
      destruct (watchers io1) eqn:E1; [done|]. pose proof (proj1 Q3 eq_refl). congruence.
    + unfold voided. cbn [s_poll closed_shape]. destruct (s_poll s); (do 4 (split; [done|])); (split; [|exact Q7]).
      * intros _. cbn. by rewrite Q5.
      * done.
Qed.

(** ** [uv__io_init] *)
Definition opened_shape (w : Z) (s : io_shape) : io_shape := with_live ({[w]} ∪ s_live s) s.

Lemma init_queues s m w :
  queues_are s m -> w ∉ s_live s -> (forall v, v ∈ s_wq s ++ s_pend s ++ s_pq s -> v ∈ s_live s) ->
  is_Some (nxt m (w_node w)) -> is_Some (nxt m (p_node w)) ->
  exists m1 m', QUEUE_INIT (p_node w) m = Done tt m1 /\ QUEUE_INIT (w_node w) m1 = Done tt m' /\
  queues_are (opened_shape w s) m' /\ forall y, is_Some (nxt m y) -> is_Some (nxt m' y).
Proof.
  intros (Q & Hwf & HQ) Hn Hl Hmw Hmp.
  assert (forall v, v ∈ s_wq s \/ v ∈ s_pend s \/ v ∈ s_pq s -> v <> w) as Hne.
  { intros v Hv ->. apply Hn, Hl. rewrite !elem_of_app. tauto. }
  assert (forall q l, Q !! q = Some l -> (p_node w ∉ q :: l) /\ w_node w ∉ q :: l) as Hfree.
  { intros q l. rewrite HQ. destruct q as [| | |v|v]; cbn.
    1-3: intros [= <-]; rewrite !elem_of_cons, !list_elem_of_fmap; split; (intros [?|(v & ? & Hv)]; [done|]);
      try done; assert (v = w) as -> by congruence; apply (Hne w); tauto.
    all: case_bool_decide as Hv; [|done]; intros [= <-]; rewrite !list_elem_of_singleton; destruct Hv as [Hv _]; split; congruence. }
  destruct (qs_init Q m (p_node w) Hwf) as (m1 & E1 & Hw1 & Hm1); [by intros h l E; apply (Hfree h l)|done|].
  destruct (qs_init _ m1 (w_node w) Hw1) as (m' & E2 & Hw2 & Hm2); [|by apply Hm1|].
  { intros h l [[<- <-]|[_ E]]%lookup_insert_Some; [by rewrite list_elem_of_singleton|by apply (Hfree h l)]. }
  exists m1, m'. split; [done|]. split; [done|]. split; [|by auto]. eexists. split; [exact Hw2|]. intros q.
  assert ((w ∉ s_wq s) /\ (w ∉ s_pend s ++ s_pq s)) as [N1 N2].
  { split; intros Hv; apply Hn, Hl; set_solver. }
  destruct q as [| | |v|v]; [by rewrite !lookup_insert_ne, HQ by done..| |];
    (destruct (decide (v = w)) as [->|Hv];
      [|rewrite !lookup_insert_ne, HQ by congruence; cbn; repeat case_bool_decide; try done; exfalso; set_solver]).
  - rewrite lookup_insert_eq. cbn. rewrite bool_decide_true; [done|set_solver].
  - rewrite lookup_insert_ne, lookup_insert_eq by done. cbn. rewrite bool_decide_true; [done|set_solver].
Qed.

Lemma io_init_spec s io w cb fd' :
  io_ok s io -> w ∈ s_mem s -> w ∉ s_live s -> cb <> 0 -> cb <> uv__fs_event -> -1 <= fd' < max_watchers ->
  (forall v y, v ∈ s_live s -> ios io !! v = Some y -> fd y = fd' -> fd' = -1) ->
  exists m, uv__io_init w cb fd' io = Done tt (put_io w (mk_io cb fd' 0 0 0 0) (with_io_queues m io)) /\
  io_ok (opened_shape w s) (put_io w (mk_io cb fd' 0 0 0 0) (with_io_queues m io)).
Proof.
  intros [It Il Id Ik Iq Im Ilm Ip] Hw Hn Hcb Hfs Hfd Hfree.
  destruct (Im w Hw) as (Hw0 & [x Ex] & Hmw & Hmp).
  destruct (init_queues s _ w Ik Hn Iq Hmw Hmp) as (m1 & m & E1 & E2 & Hq & Hmap). exists m. split.
  - unfold uv__io_init. rewrite (proj2 (Z.eqb_neq cb 0)) by done. cbn [negb assert].
    rewrite (bind_done _ _ _ _ _ (eq_refl : ret tt io = Done tt io)), (proj2 (Z.leb_le (-1) fd')) by lia. cbn [assert].
    rewrite (bind_done _ _ _ _ _ (eq_refl : ret tt io = Done tt io)).
    rewrite (bind_done _ _ _ _ _ (io_queue_run _ _ _ _ E1)).
    rewrite (bind_done _ _ _ _ _ (io_queue_run _ (with_io_queues m1 io) _ _ E2)).
    by rewrite (upd_io_run (with_io_queues m (with_io_queues m1 io)) w x) by done.
  - set (x' := mk_io cb fd' 0 0 0 0). assert (forall v, v ∈ s_live s -> v <> w) as Hne by (by intros v Hv ->).
    constructor; try done.
    + apply (table_io _ _ w x); [|done|].
      * apply (table_ext s _ io); try done. cbn. intros. set_solver.
      * intros i Hi Hi' _. exfalso. apply Hn. by apply (t_entry _ _ It i w Hi Hi' Hw0).
    + cbn. intros v [->%elem_of_singleton|Hv]%elem_of_union.
      * exists x'. rewrite lookup_insert_eq. split; [done|]. constructor; cbn; try done.
        intros _. split; [done|]. intros Hv. apply Hn, Iq. rewrite elem_of_app. by left.
      * rewrite lookup_insert_ne by (intros <-; by apply Hn). destruct (Il v Hv) as (y & Ey & []). exists y. split; [done|by constructor].
    + cbn. assert (forall v y, v ∈ {[w]} ∪ s_live s -> <[w:=x']> (ios io) !! v = Some y ->
        v = w /\ y = x' \/ v ∈ s_live s /\ ios io !! v = Some y) as Hcase.
      { intros v y. rewrite elem_of_union, elem_of_singleton. destruct (decide (v = w)) as [->|Hv].
        - rewrite lookup_insert_eq. intros _ [= <-]. by left.
        - rewrite lookup_insert_ne by done. intros [|]; [done|by right]. }
      intros v v' y y' Hv Hv' Ey Ey' Hyy Hy. destruct (Hcase v y Hv Ey) as [[-> ->]|[Hvl Eyl]],
        (Hcase v' y' Hv' Ey') as [[-> ->]|[Hvl' Eyl']]; [done| | |by apply (Id v v' y y')]; exfalso.
      * cbn in *. specialize (Hfree v' y' Hvl' Eyl'). lia.
      * cbn in *. specialize (Hfree v y Hvl Eyl). lia.
    + cbn. intros v Hv. rewrite elem_of_union. right. by apply Iq.
    + cbn. intros v Hv. destruct (Im v Hv) as (H0 & H1 & H2 & H3). split; [done|]. split; [|by auto].
      apply lookup_insert_is_Some'. by right.
    + cbn. intros v [->%elem_of_singleton|Hv]%elem_of_union; [done|by apply Ilm].
Qed.
End Life.
