(* ===== verification/UvPollProofs.v ===== *)
(** libuv, the poll phase: what the system calls promise, what the callbacks may
    do, and that [uv__run_pending] and [uv__io_poll] keep the invariants of the
    loop and of its I/O part; the changes that are registered with the kernel. *)
From S2P Require Import Prelude.
From S2P Require Import UvQueue UvQueueProofs UvLoop UvTimer UvRun UvLoopInv UvLoopOps UvRunProofs UvIo UvPoll UvLogic UvIoInv UvIoProofs.
#[local] Set Warnings "-clear-no-such-hyp".

(** ** The system calls *)
(** What the documentation of [kevent] says of a queue of which [interest w]
    holds the identifiers and filters: only an [EV_ADD] adds to it; at most as
    many events are stored as there is room for, and none only after a timeout;
    they are events of what is in the queue, or of a change of this call, which
    may have failed ([EV_ERROR]).  Any call may fail, with any error.  The clock
    is of 64 bits. *)
Class KernelLaws {W} `{System W} (interest : W -> Z -> Z -> Prop) : Prop := {
  k_interest : forall chs room t w f k, interest (snd (sys_kevent chs room t w)) f k ->
    interest w f k \/ exists c, c ∈ chs /\ has_bit (kflags c) EV_ADD = true /\ ident c = f /\ kfilter c = k;
  k_events : forall chs room t w evs, fst (sys_kevent chs room t w) = KEvents evs ->
    zlen evs <= room /\ (0 < room -> evs = [] -> t <> None) /\
    forall ev, ev ∈ evs -> interest w (ident ev) (kfilter ev) \/
      exists c, c ∈ chs /\ ident c = ident ev /\ kfilter c = kfilter ev;
  k_clock : forall w, 0 <= fst (sys_hrtime w) < 2 ^ 64 /\ interest (snd (sys_hrtime w)) = interest w;
  k_mask : forall how w, interest (sys_sigmask how w) = interest w
}.

(** ** The [abort()] of [uv__io_poll] *)
(** The world after a [kevent] that failed as [uv__io_poll] does not expect: with
    changes only, and not because there was nothing to delete; or a wait that no
    signal ended, after which the mask and the clock are read. *)
Definition refused {W} `{System W} (w' : W) : Prop :=
  (exists chs w e, sys_kevent chs 0 None w = (KError e, w') /\
     (e = ENOENT -> forall fd filter, chs <> [EV_SET fd filter EV_DELETE 0])) \/
  (exists chs t w w1 e, sys_kevent chs array_size t w = (KError e, w1) /\ e <> EINTR /\
     (w' = snd (sys_hrtime w1) \/ w' = snd (sys_hrtime (sys_sigmask false w1)))).

(** The programs that may abort when the kernel refuses; those that may also abort
    for want of room in the table. *)
Class RefusalAborts {W} `{System W} (Ab : Abort (uv_loop * (io_loop * W))) : Prop :=
  refusal_aborts : forall σ, refused (snd (snd σ)) -> may_abort σ.

Definition refusal_abort {W} `{System W} : Abort (uv_loop * (io_loop * W)) := fun σ => refused (snd (snd σ)).

Definition loop_abort {W} `{System W} `{Realloc} : Abort (uv_loop * (io_loop * W)) := fun σ =>
  no_room (fst (snd σ)) \/ refused (snd (snd σ)).

#[export] Instance refusal_abort_refusal {W} `{System W} : RefusalAborts (W := W) refusal_abort.
Proof. by intros σ. Qed.

#[export] Instance loop_abort_refusal {W} `{System W} `{Realloc} : RefusalAborts (W := W) loop_abort.
Proof. intros σ. by right. Qed.

Section Poll.
Context {W : Type} `{System W} `{Realloc} {Ab : Abort (uv_loop * (io_loop * W))} `{!RefusalAborts Ab}.
Context (interest : W -> Z -> Z -> Prop) `{!KernelLaws interest}.
Variables (call_io : Z -> Z -> Z -> @P W unit) (uv__fs_event : Z).
Abbreviation io_ok := (io_ok uv__fs_event).
Abbreviation state := (uv_loop * (io_loop * W))%type.
Implicit Types (σ : state) (g : shape) (s : io_shape) (w : W).

(** What the kernel watches is in the table, and is no file system event. *)
Definition world_ok (n : Z) (w : W) : Prop := forall f k, interest w f k -> 0 <= f < n /\ k <> EVFILT_VNODE.

Record inv (g : shape) (s : io_shape) σ : Prop := {
  i_loop : loop_ok g (fst σ);
  i_new : g_new g = [];
  i_io : io_ok s (fst (snd σ));
  i_world : world_ok (nwatchers (fst (snd σ))) (snd (snd σ))
}.

(** The state that a call may leave. *)
Definition later (g : shape) (s : io_shape) σ σ' : Prop := exists g' s',
  inv g' s' σ' /\ evolves g g' /\ io_evolves s (fst (snd σ)) s' (fst (snd σ')).

Lemma later_refl g s σ : inv g s σ -> later g s σ σ.
Proof. intros Hi. exists g, s. split; [done|]. split; [done|apply io_evolves_refl]. Qed.

(** The callbacks: of the handles, of the watchers. *)
Definition calls_stable (call : Z -> Z -> @P W unit) : Prop := forall g s σ f p,
  inv g s σ -> f <> 0 -> callee g (fst σ) p -> gives False (call f p) σ (fun _ σ' => later g s σ σ').

Definition io_calls_stable : Prop := forall g s σ f v revents,
  inv g s σ -> f <> 0 -> v ∈ s_live s -> gives False (call_io f v revents) σ (fun _ σ' => later g s σ σ').

(** ** Steps *)
Lemma bind_on_io {A B} (m : IO A) a l io io' w (k : A -> @P W B) :
  m io = Done a io' -> bind (on_io m) k (l, (io, w)) = k a (l, (io', w)).
Proof. intros E. unfold bind, on_io, in_part. cbn [fst snd]. by rewrite E. Qed.

Lemma bind_on_world {A B} (f : W -> A * W) a l io w w' (k : A -> @P W B) :
  f w = (a, w') -> bind (on_world f) k (l, (io, w)) = k a (l, (io, w')).
Proof. intros E. unfold bind, on_world. cbn [fst snd]. by rewrite E. Qed.

Lemma on_io_run {A} (m : IO A) a l io io' w :
  m io = Done a io' -> on_io m (l, (io, w)) = Done a (l, (io', w)).
Proof. intros E. unfold on_io, in_part. cbn [fst snd]. by rewrite E. Qed.

Lemma gives_io {A B} F (m : IO A) a l io io' w (k : A -> @P W B) Q :
  m io = Done a io' -> gives F (k a) (l, (io', w)) Q -> gives F (bind (on_io m) k) (l, (io, w)) Q.
Proof. intros E. unfold gives. by rewrite (bind_on_io _ _ _ _ _ _ _ E). Qed.

Lemma gives_loop {A B} F (m : L A) a l l' io w (k : A -> @P W B) Q :
  m l = Done a l' -> gives F (k a) (l', (io, w)) Q -> gives F (bind (on_loop m) k) (l, (io, w)) Q.
Proof. intros E. unfold gives. by rewrite (bind_on_loop _ _ _ _ _ _ E). Qed.

Lemma gives_world {A B} F (f : W -> A * W) a l io w w' (k : A -> @P W B) Q :
  f w = (a, w') -> gives F (k a) (l, (io, w')) Q -> gives F (bind (on_world f) k) (l, (io, w)) Q.
Proof. intros E. unfold gives. by rewrite (bind_on_world _ _ _ _ _ _ _ E). Qed.

Lemma world_grows n n' w : n <= n' -> world_ok n w -> world_ok n' w.
Proof. intros Hn Hw f k Hi. destruct (Hw f k Hi). split; [lia|done]. Qed.

(** A sequence of calls. *)
Lemma later_trans g s σ σ' (Q : state -> Prop) :
  later g s σ σ' -> (forall g' s', inv g' s' σ' -> evolves g g' -> io_evolves s (fst (snd σ)) s' (fst (snd σ')) -> Q σ') -> Q σ'.
Proof. intros (g' & s' & Hi & Hg & Hs) HQ. by apply (HQ g' s'). Qed.

Lemma later_from g s g' s' σ σ' σ'' :
  evolves g g' -> io_evolves s (fst (snd σ)) s' (fst (snd σ')) -> later g' s' σ' σ'' -> later g s σ σ''.
Proof.
  intros Hg Hs (g2 & s2 & Hi & Hg2 & Hs2). exists g2, s2. split; [done|]. split; [by etrans|].
  by apply (io_evolves_trans _ _ s' (fst (snd σ'))).
Qed.

(** ** Changes to the kernel's queue *)
(** A change that registers an entry of the table. *)
Definition change_ok (n : Z) (c : kev) : Prop := 0 <= ident c < n /\ kfilter c <> EVFILT_VNODE.

Lemma kevent_world n chs room t w :
  world_ok n w -> (forall c, c ∈ chs -> has_bit (kflags c) EV_ADD = true -> change_ok n c) ->
  world_ok n (snd (sys_kevent chs room t w)).
Proof. intros Hw Hc f k [Hi|(c & Hin & Ha & <- & <-)]%k_interest; [by apply Hw|by apply Hc]. Qed.

Lemma changes_world n chs room t w :
  world_ok n w -> Forall (change_ok n) chs -> world_ok n (snd (sys_kevent chs room t w)).
Proof. intros Hw Hc. apply kevent_world; [done|]. intros c Hin _. rewrite Forall_forall in Hc. by apply Hc. Qed.

(** Without room for events there is a failure or nothing. *)
Lemma kevent_changes_run chs l io w :
  kevent_changes chs (l, (io, w)) =
  Done (match fst (sys_kevent chs 0 None w) with KEvents _ => None | KError e => Some e end)
    (l, (io, snd (sys_kevent chs 0 None w))).
Proof.
  unfold kevent_changes. rewrite (bind_on_world _ (fst (sys_kevent chs 0 None w)) _ _ _ (snd (sys_kevent chs 0 None w)));
    [|by destruct (sys_kevent chs 0 None w)].
  destruct (fst (sys_kevent chs 0 None w)) as [[|ev evs]|e] eqn:E; [done| |done]. exfalso.
  destruct (k_events _ _ _ _ _ E) as [Hz _]. pose proof (zlen_nonneg evs). rewrite zlen_cons in Hz. lia.
Qed.

Lemma refused_changes chs l io w e :
  fst (sys_kevent chs 0 None w) = KError e -> (e = ENOENT -> forall fd filter, chs <> [EV_SET fd filter EV_DELETE 0]) ->
  may_abort (l, (io, snd (sys_kevent chs 0 None w))).
Proof.
  intros E He. apply refusal_aborts. left. exists chs, w, e. split; [|done].
  rewrite (surjective_pairing (sys_kevent chs 0 None w)). by rewrite E.
Qed.

Lemma disarm_run fd filter oks l io w :
  ENOENT ∈ oks ->
  gives False (disarm fd filter oks) (l, (io, w)) (ends tt (l, (io, snd (sys_kevent [EV_SET fd filter EV_DELETE 0] 0 None w)))).
Proof.
  intros Hin. unfold disarm. eapply gives_step; [apply kevent_changes_run|].
  destruct (fst (sys_kevent _ 0 None w)) as [|e] eqn:E; [by apply gives_ret|].
  destruct (existsb (Z.eqb e) oks) eqn:Ee; [by apply gives_ret|]. apply gives_aborted, (refused_changes _ _ _ _ e E). intros ->.
  assert (existsb (Z.eqb ENOENT) oks = true); [|congruence].
  apply existsb_exists. exists ENOENT. by rewrite <- list_elem_of_In.
Qed.

Lemma delete_world n fd filter w :
  world_ok n w -> world_ok n (snd (sys_kevent [EV_SET fd filter EV_DELETE 0] 0 None w)).
Proof. intros Hw. apply kevent_world; [done|]. by intros c ->%list_elem_of_singleton. Qed.

(** ** [uv__run_pending] *)
Lemma pq_empty g s σ : inv g s σ ->
  on_io (io_queue (QUEUE_EMPTY local_pq)) σ = Done (bool_decide (s_pq s = [])) σ.
Proof.
  intros [_ _ Hio _]. destruct σ as (l & io & w). cbn in Hio. apply on_io_run.
  apply io_queue_read. rewrite (qa_empty s _ local_pq (p_node <$> s_pq s)); [|apply (io_links _ _ _ Hio)|done]. f_equal. apply bool_decide_ext.
  destruct (s_pq s); naive_solver.
Qed.

Lemma run_pending_loop_safe fuel g s σ :
  io_calls_stable -> inv g s σ -> (length (s_pq s) < fuel)%nat ->
  gives False (run_pending_loop call_io fuel) σ (fun _ σ' => exists g' s', inv g' s' σ' /\ evolves g g' /\
    io_evolves s (fst (snd σ)) s' (fst (snd σ')) /\ s_pq s' = []).
Proof.
  intros Hst. revert g s σ. induction fuel as [|fuel IH]; intros g s σ Hi Hf; [lia|]. cbn [run_pending_loop].
  apply (gives_step _ _ _ _ _ _ _ (pq_empty _ _ _ Hi)). destruct (s_pq s) as [|v rest] eqn:Epq.
  { rewrite bool_decide_true by done. apply gives_ret. exists g, s. split; [done|]. split; [done|]. split; [apply io_evolves_refl|done]. }
  rewrite bool_decide_false by done. destruct Hi as [Hl Hn Hio Hw]. destruct σ as (l & io & w). cbn [fst snd] in *.
  destruct (pq_pop _ _ _ _ _ Hio Epq) as (m1 & m & E0 & E1 & E2 & Hio').
  eapply gives_io; [by apply io_queue_read|]. eapply gives_io; [by apply io_queue_run|].
  eapply gives_io; [by apply (io_queue_run _ (with_io_queues m1 io))|]. eapply gives_io; [reflexivity|].
  assert (v ∈ s_live s) as Hv by (apply (io_queued _ _ _ Hio); rewrite Epq; set_solver).
  destruct (io_live _ _ _ Hio v Hv) as (x & Ex & [[Hcb _] _ _ _ _ _]).
  eapply gives_io; [by apply get_io_run|]. unfold call_io_ptr. rewrite (proj2 (Z.eqb_neq (io_cb x) 0) Hcb).
  eapply gives_seq.
  - apply (Hst g (with_pq rest s)); [by constructor|done|done].
  - intros _ σ2 (g2 & s2 & Hi2 & Hg2 & Hs2). cbn [fst snd] in Hs2.
    pose proof (sublist_length _ _ (ie_pq _ _ _ _ Hs2)) as Hle. cbn in Hle, Hf.
    eapply gives_mono; [apply (IH g2 s2 σ2 Hi2); lia|]. intros _ σ3 (g3 & s3 & Hi3 & Hg3 & Hs3 & Hp3).
    exists g3, s3. split; [done|]. split; [by etrans|]. split; [|done].
    eapply io_evolves_trans; [|exact Hs3]. destruct Hs2 as [A1 A2 A3 A4 A5 A6]. constructor; try done.
    cbn in A2. rewrite Epq. by apply sublist_cons.
Qed.

Lemma run_pending_safe fuel g s σ :
  io_calls_stable -> inv g s σ -> s_pq s = [] -> (length (s_pend s) < fuel)%nat ->
  gives False (uv__run_pending call_io fuel) σ (fun _ σ' => later g s σ σ').
Proof.
  intros Hst Hi Epq Hf. destruct σ as (l & io & w). pose proof Hi as [Hl Hn Hio Hw]. cbn [fst snd] in *.
  unfold uv__run_pending. eapply gives_io.
  { apply io_queue_read. by apply (qa_empty s _ pending_queue (p_node <$> s_pend s) (io_links _ _ _ Hio)). }
  case_bool_decide; [apply gives_ret; by apply later_refl|].
  assert (with_io_queues (<[local_pq := mk_qnode local_pq local_pq]> (io_queues io)) io = io) as El.
  { rewrite insert_id; [apply with_io_queues_id|]. apply (self_node s); [apply (io_links _ _ _ Hio)|]. cbn. by rewrite Epq. }
  eapply gives_io; [unfold modify; by rewrite El|].
  destruct (pend_move _ _ _ Hio Epq) as (m & Em & Hio'). eapply gives_io; [by apply io_queue_run|].
  eapply gives_seq.
  - apply (run_pending_loop_safe fuel g (with_pq (s_pend s) (with_pend [] s))); [done|by constructor|done].
  - intros _ σ' (g' & s' & Hi' & Hg' & [A1 A2 A3 A4 A5 A6] & Ep'). apply gives_ret. exists g', s'. split; [done|]. split; [done|].
    constructor; try done. rewrite Ep', Epq. done.
Qed.
End Poll.

(** * The changes for the kernel and the events of the kernel *)
#[local] Set Warnings "-clear-no-such-hyp".

Section Poll.
Context {W : Type} `{System W} `{Realloc} {Ab : Abort (uv_loop * (io_loop * W))} `{!RefusalAborts Ab}.
Context (interest : W -> Z -> Z -> Prop) `{!KernelLaws interest}.
Variable uv__fs_event : Z.
Abbreviation io_ok := (io_ok uv__fs_event).
Abbreviation state := (uv_loop * (io_loop * W))%type.
Abbreviation inv := (inv interest uv__fs_event).
Abbreviation later := (later interest uv__fs_event).
Abbreviation world_ok := (world_ok interest).
Implicit Types (σ : state) (g : shape) (s : io_shape) (w : W).

(** ** Registration *)
(** A change goes to the buffer, which goes to the kernel when it is full. *)
Definition buffered (st : list kev * W) (ev : kev) : list kev * W :=
  let changes := fst st ++ [ev] in
  if zlen changes =? array_size then ([], snd (sys_kevent changes 0 None (snd st))) else (changes, snd st).

(** The bits that a watcher wants and did not have. *)
Definition fresh_bits (x : uv__io) : Z := Z.ldiff (pevents x) (events x).

Lemma fresh_wants x k : 0 <= k -> wants x (2 ^ k) = Z.testbit (fresh_bits x) k.
Proof.
  intros Hk. assert (forall v, has_bit v (2 ^ k) = Z.testbit v k) as Hb.
  { intros v. unfold has_bit. destruct (Z.eqb_spec (Z.land v (2 ^ k)) 0) as [E|E]; cbn; symmetry.
    - pose proof (f_equal (fun z => Z.testbit z k) E) as Ek. cbn in Ek.
      by rewrite Z.land_spec, Z.pow2_bits_true, andb_true_r, Z.bits_0 in Ek.
    - destruct (Z.testbit v k) eqn:Ev; [done|]. exfalso. apply E, Z.bits_inj'. intros i Hi.
      rewrite Z.land_spec, Z.pow2_bits_eqb, Z.bits_0 by done. destruct (Z.eqb_spec k i) as [<-|]; [by rewrite Ev|apply andb_false_r]. }
  unfold wants, fresh_bits. by rewrite !Hb, Z.ldiff_spec, andb_comm.
Qed.

(** The changes that a watcher asks for: a read, a write and an out of band
    filter, for the bits 0, 2 and 1. *)
Definition wanted (x : uv__io) : list kev :=
  (if Z.testbit (fresh_bits x) 0 then [read_change uv__fs_event x] else []) ++
  (if Z.testbit (fresh_bits x) 2 then [EV_SET (fd x) EVFILT_WRITE EV_ADD 0] else []) ++
  (if Z.testbit (fresh_bits x) 1 then [EV_SET (fd x) EV_OOBAND EV_ADD 0] else []).

Lemma add_change_run changes ev l io w :
  gives False (add_change changes ev) (l, (io, w))
    (ends (fst (buffered (changes, w) ev)) (l, (io, snd (buffered (changes, w) ev)))).
Proof.
  unfold add_change, buffered. cbn [fst snd].
  destruct (Z.eqb_spec (zlen (changes ++ [ev])) array_size) as [E|]; [|by apply gives_ret].
  eapply gives_step; [by apply (kevent_changes_run interest)|]. cbn [fst snd].
  destruct (fst (sys_kevent _ 0 None w)) as [|e] eqn:Ek; [by apply gives_ret|].
  apply gives_aborted, (refused_changes _ _ _ _ e Ek). intros _ f k Ec. by rewrite Ec in E.
Qed.

Lemma add_changes_if (b : bool) changes ev l io w :
  let st := foldl buffered (changes, w) (if b then [ev] else []) in
  gives False (if b then add_change changes ev else ret changes) (l, (io, w)) (ends (fst st) (l, (io, snd st))).
Proof. destruct b; [apply add_change_run|by apply gives_ret]. Qed.

Lemma register_run v x changes l io w :
  ios io !! v = Some x -> pevents x <> 0 -> 0 <= fd x < nwatchers io -> nwatchers io <= max_watchers ->
  let st := foldl buffered (changes, w) (wanted x) in
  gives False (register uv__fs_event v changes) (l, (io, w))
    (ends (fst st) (l, (put_io v (set_events (pevents x) x) io, snd st))).
Proof.
  intros Ex Hp Hr Hn st. unfold max_watchers in Hn. unfold register.
  eapply gives_io; [by apply get_io_run|]. rewrite (proj2 (Z.eqb_neq _ 0) Hp), (proj2 (Z.leb_le 0 (fd x))) by lia.
  do 3 (eapply gives_io; [reflexivity|]).
  assert (s32 (nwatchers io) = nwatchers io) as ->.
  { unfold s32, swrap. change (2 ^ (32 - 1)) with (2 ^ 31). rewrite Z.mod_small by lia. lia. }
  rewrite (proj2 (Z.ltb_lt (fd x) _)) by lia. eapply gives_io; [reflexivity|].
  change POLLIN with (2 ^ 0). change POLLOUT with (2 ^ 2). change UV__POLLPRI with (2 ^ 1). rewrite !fresh_wants by lia.
  do 3 (eapply gives_ends; [by apply add_changes_if|]).
  eapply gives_io; [by apply upd_io_run|]. apply gives_ret. unfold st, wanted. rewrite !foldl_app.
  by rewrite <- !surjective_pairing.
Qed.

(** The changes of the watchers of the queue, in its order. *)
Definition wanted_all (io : io_loop) (vs : list Z) : list kev :=
  flat_map (fun v => match ios io !! v with Some x => wanted x | None => [] end) vs.

Lemma wanted_all_ext io io' vs :
  (forall v, v ∈ vs -> ios io' !! v = ios io !! v) -> wanted_all io' vs = wanted_all io vs.
Proof.
  intros E. unfold wanted_all. induction vs as [|v vs IH]; [done|]. cbn. rewrite E by (by left).
  f_equal. apply IH. intros u Hu. apply E. by right.
Qed.

Record registered (vs : list Z) (io io' : io_loop) : Prop := {
  rg_watchers : watchers io' = watchers io;
  rg_nwatchers : nwatchers io' = nwatchers io;
  rg_signal : signal_io_watcher io' = signal_io_watcher io;
  rg_array : poll_array io' = poll_array io;
  rg_flags : loop_flags io' = loop_flags io;
  rg_ios : forall v, ios io' !! v =
    if bool_decide (v ∈ vs) then (fun x => set_events (pevents x) x) <$> ios io !! v else ios io !! v
}.

Lemma register_loop_run fuel g s changes l io w :
  inv g s (l, (io, w)) -> (length (s_wq s) < fuel)%nat ->
  let st := foldl buffered (changes, w) (wanted_all io (s_wq s)) in
  gives False (register_loop uv__fs_event fuel changes) (l, (io, w)) (fun chs σ' => exists io',
    ends (fst st) (l, (io', snd st)) chs σ' /\ io_ok (with_wq [] s) io' /\ registered (s_wq s) io io').
Proof.
  intros [_ _ Hio _]. cbn [fst snd] in Hio. revert s changes io w Hio.
  induction fuel as [|fuel IH]; intros s changes io w Hio Hf; [lia|]. cbn [register_loop].
  pose proof (qa_empty s _ watcher_queue (w_node <$> s_wq s) (io_links _ _ _ Hio) eq_refl) as Ee.
  eapply gives_io; [by apply io_queue_read|]. destruct (s_wq s) as [|v rest] eqn:Ewq.
  { apply gives_ret. exists io. split; [done|].
    split; [|constructor; try done; intros v; by rewrite bool_decide_false by apply not_elem_of_nil].
    assert (with_wq [] s = s) as -> by (destruct s; cbn in *; by rewrite Ewq). done. }
  rewrite bool_decide_false by done. cbn [fmap list_fmap].
  assert (v ∈ s_live s) as Hv by (apply (io_queued _ _ _ Hio); rewrite Ewq; set_solver).
  destruct (io_live _ _ _ Hio v Hv) as (x & Ex & Hx).
  destruct (wq_pop _ _ _ _ _ _ Hio Ewq Ex) as (m1 & m & E0 & E1 & E2 & Hio' & _ & Hp & Hr & _).
  eapply gives_io; [by apply io_queue_read|]. eapply gives_io; [by apply io_queue_run|].
  eapply gives_io; [by apply (io_queue_run _ (with_io_queues m1 io))|].
  change (with_io_queues m (with_io_queues m1 io)) with (with_io_queues m io). eapply gives_io; [reflexivity|].
  pose proof (t_bound _ _ (io_table _ _ _ Hio)) as [_ Hb].
  eapply gives_ends; [by apply (register_run v x changes l (with_io_queues m io) w Ex Hp Hr Hb)|].
  set (io1 := put_io v _ _) in *. set (st1 := foldl buffered (changes, w) (wanted x)).
  pose proof (wq_nodup _ _ (io_links _ _ _ Hio)) as Hd. rewrite Ewq in Hd. apply NoDup_cons in Hd as [Hnv _].
  eapply gives_mono; [apply (IH (with_wq rest s) (fst st1) io1 (snd st1) Hio'); cbn in *; lia|].
  intros chs σ' (io' & [-> ->] & Hok' & [R1 R2 R3 R4 R6 R5]).
  exists io'. split; [|split; [done|]].
  - rewrite <- surjective_pairing. cbn [s_wq with_wq].
    assert (wanted_all io (v :: rest) = wanted x ++ wanted_all io1 rest) as ->.
    { rewrite (wanted_all_ext io io1).
      - unfold wanted_all. cbn. by rewrite Ex.
      - intros u Hu. unfold io1. cbn. rewrite lookup_insert_ne; [done|]. by intros <-. }
    by rewrite foldl_app.
  - constructor; try done. intros u. rewrite R5. cbn [s_wq with_wq]. unfold io1. cbn.
    destruct (decide (u = v)) as [->|Hne].
    + rewrite (bool_decide_false (v ∈ rest)), bool_decide_true, lookup_insert_eq, Ex by (done || by left). done.
    + rewrite lookup_insert_ne by done. apply not_eq_sym in Hne.
      destruct (decide (u ∈ rest)); [rewrite !bool_decide_true by (done || by right)|rewrite !bool_decide_false by set_solver]; done.
Qed.

(** The kernel watches entries of the table only. *)
Lemma buffered_world n st ev :
  world_ok n (snd st) -> Forall (change_ok n) (fst st) -> change_ok n ev ->
  world_ok n (snd (buffered st ev)) /\ Forall (change_ok n) (fst (buffered st ev)).
Proof.
  intros Hw Hf He. assert (Forall (change_ok n) (fst st ++ [ev])) as Hf' by (apply Forall_app; split; [done|by apply Forall_singleton]).
  unfold buffered. destruct (zlen (fst st ++ [ev]) =? array_size); cbn; [|done].
  split; [by apply changes_world|by apply Forall_nil].
Qed.

Lemma wanted_ok n x :
  io_cb x <> uv__fs_event -> 0 <= fd x < n -> n <= max_watchers -> Forall (change_ok n) (wanted x).
Proof.
  intros Hcb Hr Hn. unfold max_watchers in Hn. unfold wanted, read_change.
  rewrite (proj2 (Z.eqb_neq _ _) Hcb). assert (u64 (fd x) = fd x) as E by (apply u64_small; lia).
  rewrite !Forall_app. split; [|split]; (destruct (Z.testbit _ _); [|by apply Forall_nil]); apply Forall_singleton;
    unfold change_ok, EV_SET; cbn; rewrite E; (split; [lia|done]).
Qed.

Lemma buffered_all_world n st evs :
  world_ok n (snd st) -> Forall (change_ok n) (fst st) -> Forall (change_ok n) evs ->
  world_ok n (snd (foldl buffered st evs)) /\ Forall (change_ok n) (fst (foldl buffered st evs)).
Proof.
  revert st. induction evs as [|ev evs IH]; intros st Hw Hf He; [done|]. apply Forall_cons in He as [He Hes]. cbn.
  destruct (buffered_world n st ev Hw Hf He). by apply IH.
Qed.

Lemma wanted_all_ok s io :
  io_ok s io -> Forall (change_ok (nwatchers io)) (wanted_all io (s_wq s)).
Proof.
  intros Hio. apply Forall_forall. intros ev (v & Hv & Hev)%list_elem_of_In%in_flat_map.
  assert (v ∈ s_live s) as Hvl by (apply (io_queued _ _ _ Hio), elem_of_app; left; by apply list_elem_of_In).
  destruct (io_live _ _ _ Hio v Hvl) as (x & Ex & [[_ Hcb] _ _ W4 W5 _]). rewrite Ex in Hev.
  assert (pevents x <> 0) as Hp by (intros Hp; destruct (W5 Hp) as [_ Hn]; apply Hn; by apply list_elem_of_In).
  pose proof (wanted_ok (nwatchers io) x Hcb (proj1 (W4 Hp)) (proj2 (t_bound _ _ (io_table _ _ _ Hio)))) as Hf.
  rewrite Forall_forall in Hf. by apply Hf, list_elem_of_In.
Qed.
End Poll.
