(* ===== verification/UvPollDispatch.v ===== *)
(** libuv, the poll phase: each event is delivered to the watcher of its entry, and
    [uv__io_poll] keeps the invariants whatever events the kernel gives, or calls
    [abort()] when the kernel refuses. *)
From S2P Require Import Prelude.
From S2P Require Import UvQueue.
From S2P Require Import UvQueueProofs.
From S2P Require Import UvLoop.
From S2P Require Import UvTimer.
From S2P Require Import UvRun.
From S2P Require Import UvLoopInv.
From S2P Require Import UvLoopOps.
From S2P Require Import UvRunProofs.
From S2P Require Import UvApi.
From S2P Require Import UvIo.
From S2P Require Import UvPoll.
From S2P Require Import UvLogic.
From S2P Require Import UvIoInv.
From S2P Require Import UvIoProofs.
From S2P Require Import UvPollProofs.
#[local] Set Warnings "-clear-no-such-hyp".

Section Poll.
Context {W : Type} `{System W} `{Realloc} {Ab : Abort (uv_loop * (io_loop * W))} `{!RefusalAborts Ab}.
Context (interest : W -> Z -> Z -> Prop) `{!KernelLaws interest}.
Variables (call_io : Z -> Z -> Z -> @P W unit) (uv__fs_event : Z).
Abbreviation io_ok := (io_ok uv__fs_event).
Abbreviation state := (uv_loop * (io_loop * W))%type.
Abbreviation inv := (inv interest uv__fs_event).
Abbreviation later := (later interest uv__fs_event).
Abbreviation world_ok := (world_ok interest).
Implicit Types (σ : state) (g : shape) (s : io_shape) (w : W).

(** ** Counts *)
(** A watcher whose counts have changed. *)
Lemma io_ok_counts s io v x x' :
  io_ok s io -> v ∈ s_live s -> ios io !! v = Some x ->
  io_cb x' = io_cb x -> fd x' = fd x -> pevents x' = pevents x -> events x' = events x ->
  io_ok s (put_io v x' io).
Proof.
  intros Hok Hv Ex E1 E2 E3 E4. pose proof Hok as [It Il Id Ik Iq Im Ilm Ip].
  destruct (Il v Hv) as (x0 & Ex0 & [W1 W2 W3 W4 W5 W6]). rewrite Ex in Ex0. injection Ex0 as <-.
  apply (io_ok_change uv__fs_event s s io _ v x x'); try done.
  - apply (table_io _ _ v x); [done|done|]. intros i Hi Hi' Hv0. split; [done|]. rewrite E3.
    destruct (t_entry _ _ It i v Hi Hi' Hv0) as [_ (y & Ey & _ & Hp)]. congruence.
  - constructor; rewrite ?E1, ?E2, ?E3, ?E4; done.
Qed.

(** One of the filters: the state changes in counts and in the world only. *)
Definition counts_later (g : shape) (s : io_shape) σ σ' : Prop :=
  inv g s σ' /\ fst σ' = fst σ /\ io_evolves s (fst (snd σ)) s (fst (snd σ')) /\
  watchers (fst (snd σ')) = watchers (fst (snd σ)).

Lemma take_event_safe g s σ v fd' ev filter bit set revents :
  inv g s σ -> v ∈ s_live s -> set = set_rcount \/ set = set_wcount ->
  gives False (take_event v fd' ev filter bit set revents) σ (fun _ σ' => counts_later g s σ σ').
Proof.
  intros Hi Hv Hset. pose proof Hi as [Hl Hn Hio Hw]. destruct σ as (l & io & w). cbn [fst snd] in *.
  assert (counts_later g s (l, (io, w)) (l, (io, w))) as Hsame by (split; [done|]; split; [done|]; split; [apply io_evolves_refl|done]).
  unfold take_event. apply gives_if; intros _; [|by apply gives_ret].
  destruct (io_live _ _ _ Hio v Hv) as (x & Ex & Hx). eapply gives_io; [by apply get_io_run|]. apply gives_if; intros _.
  - eapply gives_io; [by apply upd_io_run|]. apply gives_ret. split; [|split; [done|split; [by constructor|done]]].
    constructor; cbn; try done. apply (io_ok_counts s io v x); try done; by destruct Hset as [-> | ->].
  - eapply gives_ends; [apply (disarm_run interest); by left|]. apply gives_ret.
    split; [|split; [done|split; [apply io_evolves_refl|done]]]. constructor; try done. by apply delete_world.
Qed.

Lemma counts_trans g s σ σ' σ'' : counts_later g s σ σ' -> counts_later g s σ' σ'' -> counts_later g s σ σ''.
Proof.
  intros (H1 & H2 & H3 & H4) (K1 & K2 & K3 & K4). split; [done|]. split; [congruence|]. split; [by eapply io_evolves_trans|congruence].
Qed.

Lemma revents_safe g s σ v fd' ev :
  inv g s σ -> v ∈ s_live s -> gives False (revents_of v fd' ev) σ (fun _ σ' => counts_later g s σ σ').
Proof.
  intros Hi Hv. unfold revents_of.
  eapply gives_seq; [apply take_event_safe; [exact Hi|done|by left]|]. intros r1 σ1 C1.
  eapply gives_seq; [apply take_event_safe; [apply C1|done|by left]|]. intros r2 σ2 C2.
  eapply gives_seq; [apply take_event_safe; [apply C2|done|by right]|]. intros r3 σ3 C3.
  pose proof (counts_trans _ _ _ _ _ (counts_trans _ _ _ _ _ C1 C2) C3) as C. destruct σ3 as (l & io & w).
  destruct (io_live _ _ _ (i_io _ _ _ _ _ (proj1 C)) v Hv) as (x & Ex & _).
  eapply gives_io; [by apply get_io_run|]. by apply gives_ret.
Qed.

(** ** One event *)
(** The signal watcher is there when it is noted. *)
Definition signal_ok (st : bool * Z) s σ : Prop :=
  fst st = true -> signal_io_watcher (fst (snd σ)) ∈ s_live s.

Definition event_later (g : shape) (s : io_shape) σ (st : bool * Z) σ' : Prop := exists g' s',
  inv g' s' σ' /\ evolves g g' /\ io_evolves s (fst (snd σ)) s' (fst (snd σ')) /\ signal_ok st s' σ'.

Lemma entry_live g s l io w i v :
  inv g s (l, (io, w)) -> 0 <= i < nwatchers io -> tab io i = Some v -> v <> 0 ->
  v ∈ s_live s /\ exists x, ios io !! v = Some x /\ io_cb x <> 0.
Proof.
  intros [_ _ Hio _] Hi Hv Hne. destruct (t_entry _ _ (io_table _ _ _ Hio) i v Hi Hv Hne) as [Hl (x & Ex & _)].
  split; [done|]. exists x. split; [done|]. destruct (io_live _ _ _ Hio v Hl) as (y & Ey & [[? _] _ _ _ _ _]). cbn in *. congruence.
Qed.

Lemma signal_evolves st s s' σ σ' :
  signal_ok st s σ -> io_evolves s (fst (snd σ)) s' (fst (snd σ')) -> signal_ok st s' σ'.
Proof. intros Hs [A1 A2 A3 A4 A5 A6] Hst. rewrite A5. by apply A6, Hs. Qed.

Lemma dispatch_one_safe g s σ n i st :
  io_calls_stable interest call_io uv__fs_event -> inv g s σ -> s_poll s = Some n -> 0 <= i < n -> signal_ok st s σ ->
  gives False (dispatch_one call_io i st) σ (fun st' σ' => event_later g s σ st' σ').
Proof.
  intros Hst Hi Hp Hr Hsg. pose proof Hi as [Hl Hn Hio Hw]. destruct σ as (l & io & w). cbn [fst snd] in *.
  assert (event_later g s (l, (io, w)) st (l, (io, w))) as Hsame.
  { exists g, s. split; [done|]. split; [done|]. split; [apply io_evolves_refl|done]. }
  destruct (io_poll _ _ _ Hio n Hp) as [Hz Hf]. destruct st as [have_signals nevents]. unfold dispatch_one.
  eapply gives_io; [reflexivity|].
  destruct (proj1 (at_index_some (poll_array io) i) ltac:(lia)) as [ev Hev]. rewrite Hev. cbn [of_option].
  eapply gives_step; [reflexivity|]. cbv beta.
  assert (event_ok io ev) as He.
  { rewrite Forall_forall in Hf. apply Hf. rewrite at_index_nat in Hev by lia. by eapply list_elem_of_lookup_2. }
  destruct He as [-> | [Hfd Hvn]]; [by apply gives_ret|]. rewrite (proj2 (Z.eqb_neq (s32 (ident ev)) (-1))) by lia.
  set (f := s32 (ident ev)) in *.
  assert (is_Some (tab io f)) as [v Hv].
  { apply (tab_range s); [apply (io_table _ _ _ Hio)| |lia]. pose proof (t_size _ _ (io_table _ _ _ Hio)) as Hs.
    destruct (watchers io); [done|lia]. }
  eapply gives_io; [by apply get_watcher_run|]. destruct (Z.eqb_spec v 0) as [->|Hv0].
  { eapply gives_ends; [apply (disarm_run interest); by (right; left)|]. apply gives_ret. exists g, s.
    split; [|split; [done|split; [apply io_evolves_refl|done]]]. constructor; try done. by apply delete_world. }
  rewrite (proj2 (Z.eqb_neq _ _) Hvn).
  destruct (entry_live _ _ _ _ _ _ _ Hi Hfd Hv Hv0) as [Hvl _].
  eapply gives_seq; [by apply revents_safe|]. intros revents σ1 (Hi1 & _ & Hev1 & _).
  assert (event_later g s (l, (io, w)) (have_signals, nevents) σ1) as Hsame1.
  { exists g, s. split; [done|]. split; [done|]. split; [done|]. by eapply signal_evolves. }
  apply gives_if; intros _; [by apply gives_ret|]. destruct σ1 as (l1 & io1 & w1).
  eapply gives_io; [reflexivity|]. destruct (Z.eqb_spec v (signal_io_watcher io1)) as [->|Hns].
  { apply gives_ret. exists g, s. split; [done|]. split; [done|]. split; [done|]. by intros _. }
  destruct (io_live _ _ _ (i_io _ _ _ _ _ Hi1) v Hvl) as (x & Ex & [[Hcb _] _ _ _ _ _]). cbn [fst snd] in *.
  eapply gives_io; [by apply get_io_run|]. unfold call_io_ptr. rewrite (proj2 (Z.eqb_neq (io_cb x) 0) Hcb).
  eapply gives_seq; [by apply (Hst g s)|]. intros _ σ2 (g2 & s2 & Hi2 & Hg2 & Hs2). apply gives_ret.
  exists g2, s2. split; [done|]. split; [done|]. cbn [fst snd] in *.
  pose proof (io_evolves_trans _ _ _ _ _ _ Hev1 Hs2) as Hs3. split; [done|]. by eapply signal_evolves.
Qed.

Lemma dispatch_loop_safe k g s σ n i st :
  io_calls_stable interest call_io uv__fs_event -> inv g s σ -> s_poll s = Some n -> 0 <= i -> i + Z.of_nat k = n ->
  signal_ok st s σ -> gives False (dispatch_loop call_io k i st) σ (fun st' σ' => event_later g s σ st' σ').
Proof.
  intros Hst. revert g s σ i st. induction k as [|k IH]; intros g s σ i st Hi Hp Hr Hk Hsg; cbn [dispatch_loop].
  - apply gives_ret. exists g, s. split; [done|]. split; [done|]. split; [apply io_evolves_refl|done].
  - eapply gives_seq; [apply (dispatch_one_safe g s σ n); (done || lia)|].
    intros st1 σ1 (g1 & s1 & Hi1 & Hg1 & Hs1 & Hsg1).
    eapply gives_mono; [apply (IH g1 s1 σ1 (i + 1) st1); [done|by rewrite (ie_poll _ _ _ _ Hs1)|lia..|done]|].
    intros st2 σ2 (g2 & s2 & Hi2 & Hg2 & Hs2 & Hsg2). exists g2, s2. split; [done|]. split; [by etrans|].
    split; [by eapply io_evolves_trans|done].
Qed.

(** ** The events of one call of [kevent] *)
Definition fakes_of (p : option Z) (io : io_loop) : io_loop :=
  put_tab (nwatchers io + 1) (default 0 p) (put_tab (nwatchers io) (match p with Some _ => poll_events | None => 0 end) io).

Lemma put_fakes_at io p :
  0 <= nwatchers io <= max_watchers -> is_Some (tab io (nwatchers io)) -> is_Some (tab io (nwatchers io + 1)) ->
  put_fakes (match p with Some _ => poll_events | None => 0 end) (default 0 p) io = Done tt (fakes_of p io) /\
  forall i, 0 <= i < nwatchers io -> tab (fakes_of p io) i = tab io i.
Proof.
  intros Hb T0 T1. unfold max_watchers in Hb.
  set (io1 := put_tab (nwatchers io) (match p with Some _ => poll_events | None => 0 end) io).
  assert (is_Some (tab io1 (nwatchers io + 1))) as T2.
  { unfold io1. rewrite tab_put by done. by rewrite (proj2 (Z.eqb_neq _ _)) by lia. }
  split.
  - unfold put_fakes. rewrite bind_gets, (bind_done _ _ _ _ _ (put_watcher_run _ _ _ T0)). fold io1. rewrite bind_gets.
    change (nwatchers io1) with (nwatchers io). assert (u32 (nwatchers io + 1) = nwatchers io + 1) as -> by (apply Z.mod_small; lia).
    by rewrite put_watcher_run.
  - intros i Hi. unfold fakes_of. fold io1. rewrite tab_put by done. unfold io1. rewrite tab_put by done.
    by rewrite !(proj2 (Z.eqb_neq i _)) by lia.
Qed.

Lemma put_fakes_run s io p :
  io_ok s io -> is_Some (watchers io) ->
  put_fakes (match p with Some _ => poll_events | None => 0 end) (default 0 p) io = Done tt (fakes_of p io) /\
  forall i, 0 <= i < nwatchers io -> tab (fakes_of p io) i = tab io i.
Proof.
  intros Hio Hw. pose proof (io_table _ _ _ Hio) as It. pose proof (t_bound _ _ It) as Hb.
  apply put_fakes_at; [done|apply (tab_range s); (done || lia)..].
Qed.

Lemma fakes_ok s io p :
  io_ok s io -> is_Some (watchers io) ->
  (forall n, p = Some n -> zlen (poll_array io) = n /\ Forall (event_ok io) (poll_array io)) ->
  io_ok (with_poll p s) (fakes_of p io).
Proof.
  intros Hio Hw Hp. destruct (put_fakes_run s io p Hio Hw) as [_ Htab].
  pose proof Hio as [[Tb Ts Tf Te Tc] Il Id Ik Iq Im Ilm Ip]. destruct Hw as [ws Ews]. rewrite Ews in Ts.
  unfold max_watchers in Tb.
  assert (watchers (fakes_of p io) = Some (<[Z.to_nat (nwatchers io + 1) := default 0 p]>
    (<[Z.to_nat (nwatchers io) := match p with Some _ => poll_events | None => 0 end]> ws))) as Ew.
  { unfold fakes_of, put_tab. cbn. by rewrite Ews. }
  constructor; try done.
  - constructor; [done| | | |].
    + rewrite Ew. by rewrite !zlen_insert.
    + intros _. unfold tab. rewrite Ew. change (nwatchers (fakes_of p io)) with (nwatchers io).
      rewrite !at_index_insert by (rewrite ?zlen_insert; lia). rewrite !Z.eqb_refl.
      by rewrite (proj2 (Z.eqb_neq (nwatchers io) (nwatchers io + 1))) by lia.
    + intros i v Hi. change (nwatchers (fakes_of p io)) with (nwatchers io) in Hi. rewrite Htab by done. by apply Te.
    + rewrite Ew. change (nfds (fakes_of p io)) with (nfds io). change (nwatchers (fakes_of p io)) with (nwatchers io).
      rewrite Tc, Ews. cbn [default from_option id]. rewrite !take_insert_ge by lia. done.
  - intros v Hv. destruct (Il v Hv) as (x & Ex & [W1 W2 W3 W4 W5 W6]). exists x. split; [done|]. constructor; try done.
    intros Hpe. destruct (W4 Hpe) as [Hr Ht]. split; [done|]. by rewrite Htab.
Qed.

Lemma watchers_there s io : io_ok s io -> 0 < nwatchers io \/ s_poll s <> None -> is_Some (watchers io).
Proof.
  intros Hio Hn. pose proof (t_size _ _ (io_table _ _ _ Hio)) as Hs. destruct (watchers io); [done|].
  destruct Hs, Hn; [lia|done].
Qed.

Lemma io_ok_array s io evs : io_ok s io -> s_poll s = None -> io_ok s (with_poll_array evs io).
Proof.
  intros [It Il Id Ik Iq Im Ilm Ip] Hp. constructor; try done.
  - by apply (table_ext s s io).
  - intros v Hv. destruct (Il v Hv) as (x & Ex & []). exists x. split; [done|by constructor].
  - intros n. by rewrite Hp.
Qed.

Lemma dispatch_safe g s l io w evs :
  io_calls_stable interest call_io uv__fs_event -> inv g s (l, (io, w)) -> s_poll s = None -> 0 < nwatchers io ->
  Forall (event_ok io) evs ->
  gives False (dispatch call_io evs) (l, (io, w)) (fun _ σ' => later g s (l, (io, w)) σ').
Proof.
  intros Hst Hi Hp Hnw Hev. pose proof Hi as [Hl Hn Hio Hw]. cbn [fst snd] in *. unfold dispatch.
  eapply gives_io; [reflexivity|]. set (io1 := with_poll_array evs io).
  pose proof (io_ok_array s io evs Hio Hp) as Hio1. fold io1 in Hio1.
  assert (is_Some (watchers io1)) as Hws by (apply (watchers_there s); [done|by left]).
  eapply gives_io; [reflexivity|]. eapply gives_io; [by destruct Hws as [? ->]|].
  set (s2 := with_poll (Some (zlen evs)) s). set (io2 := fakes_of (Some (zlen evs)) io1).
  destruct (put_fakes_run s io1 (Some (zlen evs)) Hio1 Hws) as [E2 _].
  eapply gives_io; [exact E2|]. fold io2.
  assert (io_ok s2 io2) as Hio2 by (apply fakes_ok; [done|done|by intros n [= <-]]).
  eapply gives_seq.
  { apply (dispatch_loop_safe (length evs) g s2 _ (zlen evs)); [done|by constructor|done|lia|unfold zlen; lia|done]. }
  intros st σ3 (g3 & s3 & Hi3 & Hg3 & Hs3 & Hsg).
  assert (gives False (if fst st : bool then let* sg := on_io (gets signal_io_watcher) in let* x := on_io (get_io sg) in
      call_io_ptr call_io (io_cb x) sg POLLIN else ret tt) σ3 (fun _ σ4 => later g3 s3 σ3 σ4)) as Hsig.
  { apply gives_if; intros Hb; [|apply gives_ret; by apply later_refl]. destruct σ3 as (l3 & io3 & w3).
    specialize (Hsg Hb). cbn [fst snd] in Hsg.
    destruct (io_live _ _ _ (i_io _ _ _ _ _ Hi3) _ Hsg) as (x & Ex & [[Hcb _] _ _ _ _ _]). cbn [fst snd] in *.
    eapply gives_io; [reflexivity|]. eapply gives_io; [by apply get_io_run|]. unfold call_io_ptr.
    rewrite (proj2 (Z.eqb_neq (io_cb x) 0) Hcb). by apply Hst. }
  eapply gives_seq; [exact Hsig|]. intros _ σ4 (g4 & s4 & Hi4 & Hg4 & Hs4). destruct σ4 as (l4 & io4 & w4).
  pose proof (io_evolves_trans _ _ _ _ _ _ Hs3 Hs4) as Hs. cbn [fst snd] in Hs.
  pose proof Hi4 as [Hl4 Hn4 Hio4 Hw4]. cbn [fst snd] in *.
  assert (is_Some (watchers io4)) as Hws4 by (apply (watchers_there s4); [done|right; by rewrite (ie_poll _ _ _ _ Hs)]).
  destruct (put_fakes_run s4 io4 None Hio4 Hws4) as [E4 _]. eapply gives_io; [exact E4|]. apply gives_ret.
  exists g4, (with_poll None s4). split; [|split; [by etrans|]].
  - constructor; try done. apply fakes_ok; [done|done|done].
  - destruct Hs as [A1 A2 A3 A4 A5 A6]. by constructor.
Qed.

(** ** [uv__io_poll] *)
Lemma kernel_events_ok io chs room t w evs :
  world_ok (nwatchers io) w -> Forall (change_ok (nwatchers io)) chs -> nwatchers io <= max_watchers ->
  fst (sys_kevent chs room t w) = KEvents evs -> Forall (event_ok io) evs.
Proof.
  intros Hw Hc Hn E. destruct (k_events _ _ _ _ _ E) as (_ & _ & Hev). apply Forall_forall. intros ev Hin. right.
  assert (0 <= ident ev < nwatchers io /\ kfilter ev <> EVFILT_VNODE) as [Hr Hk].
  { destruct (Hev ev Hin) as [Hi|(c & Hc' & <- & <-)]; [by apply Hw|]. rewrite Forall_forall in Hc. by apply (Hc c). }
  split; [|done]. unfold max_watchers in Hn. unfold s32, swrap. change (2 ^ (32 - 1)) with (2 ^ 31).
  rewrite Z.mod_small by lia. lia.
Qed.

Lemma update_time_run l io w :
  update_time (l, (io, w)) =
  Done tt (with_time (fst (sys_hrtime w) / 1000000) l, (io, snd (sys_hrtime w))).
Proof. unfold update_time, bind, on_world. cbn [fst snd]. by destruct (sys_hrtime w). Qed.

Lemma time_inv g s l io w t : inv g s (l, (io, w)) -> inv g s (with_time t l, (io, snd (sys_hrtime w))).
Proof.
  intros [Hl Hn Hio Hw]. constructor; cbn in *; try done; [by apply loop_ok_time|].
  intros f k. destruct (k_clock w) as [_ ->]. by apply Hw.
Qed.

Lemma sigmask_safe how g s σ :
  inv g s σ -> gives False (sigmask how) σ (fun _ σ' => inv g s σ' /\ fst σ' = fst σ /\ fst (snd σ') = fst (snd σ) /\
    (snd (snd σ') = snd (snd σ) \/ snd (snd σ') = sys_sigmask how (snd (snd σ)))).
Proof.
  intros Hi. destruct σ as (l & io & w). unfold sigmask. eapply gives_io; [reflexivity|].
  apply gives_if; intros _; [|apply gives_ret; by auto]. unfold gives, on_world. cbn. split; [|by auto].
  destruct Hi as [Hl Hn Hio Hw]. constructor; try done. cbn. intros f k. rewrite k_mask. by apply Hw.
Qed.

(** A turn of the poll ends, or goes on with a timeout that is not longer; a poll
    that does not block goes on at most [count - 1] times. *)
Definition next_ok (timeout count : Z) (next : poll_next) : Prop :=
  match next with
  | PReturn => True
  | PAgain timeout' count' => -1 <= timeout' < 2 ^ 31 /\ (timeout = 0 -> timeout' = 0 /\ count' = count - 1 /\ count' <> 0)
  end.

Lemma less_timeout_safe base timeout count σ :
  0 < timeout < 2 ^ 31 ->
  gives False (less_timeout_left (W := W) base timeout count) σ (fun next σ' => σ' = σ /\ next_ok timeout count next).
Proof.
  intros Ht. destruct σ as (l & io & w). unfold less_timeout_left. rewrite (proj2 (Z.ltb_lt 0 timeout)) by lia.
  eapply gives_loop; [reflexivity|]. eapply gives_loop; [reflexivity|]. cbv zeta.
  pose proof (Z.mod_pos_bound (time l - base) (2 ^ 64) ltac:(lia)) as Hd. fold (u64 (time l - base)) in Hd.
  apply gives_if; intros Hc; apply gives_ret; (split; [done|]); [done|]. apply Z.leb_gt in Hc. cbn.
  unfold s32, swrap. change (2 ^ (32 - 1)) with (2 ^ 31). rewrite Z.mod_small by lia. lia.
Qed.

Lemma poll_turn_safe g s l io w base timeout count changes :
  io_calls_stable interest call_io uv__fs_event -> inv g s (l, (io, w)) -> s_poll s = None -> 0 < nwatchers io ->
  Forall (change_ok (nwatchers io)) changes -> -1 <= timeout < 2 ^ 31 ->
  gives False (poll_turn call_io base timeout count changes) (l, (io, w))
    (fun next σ' => later g s (l, (io, w)) σ' /\ next_ok timeout count next).
Proof.
  intros Hst Hi Hp Hnw Hch Ht. unfold poll_turn.
  eapply gives_seq; [by apply sigmask_safe|]. intros _ (l1 & io1 & w1) (Hi1 & El & Eio & _). cbn [fst snd] in El, Eio. subst io1 l1.
  destruct (sys_kevent changes array_size (timespec_of timeout) w1) as [r w2] eqn:Ek.
  eapply gives_world; [exact Ek|]. assert (fst (sys_kevent changes array_size (timespec_of timeout) w1) = r) as Er by by rewrite Ek.
  assert (inv g s (l, (io, w2))) as Hi2.
  { destruct Hi1 as [Hl1 Hn1 Hio1 Hw1]. constructor; try done. cbn in *. replace w2 with (snd (sys_kevent changes array_size (timespec_of timeout) w1)) by by rewrite Ek.
    by apply changes_world. }
  eapply gives_seq; [by apply sigmask_safe|]. intros _ (l3 & io3 & w3) (Hi3 & E3 & Eio3 & Hmask). cbn [fst snd] in *. subst l3 io3.
  eapply gives_step; [apply update_time_run|]. pose proof (time_inv _ _ _ _ _ (fst (sys_hrtime w3) / 1000000) Hi3) as Hi4.
  set (σ4 := (_, (io, snd (sys_hrtime w3)))) in *.
  assert (forall σ', later g s σ4 σ' -> later g s (l, (io, w)) σ') as Hlater by done.
  pose proof (later_refl _ _ _ _ _ Hi4) as Hhere.
  assert (forall σ, later g s σ4 σ -> timeout <> 0 -> timeout <> -1 -> gives False (less_timeout_left base timeout count) σ
    (fun next σ' => later g s (l, (io, w)) σ' /\ next_ok timeout count next)) as Hless.
  { intros σ Hσ H0' Hm. eapply gives_mono; [apply less_timeout_safe; lia|]. intros next σ' [-> Hnext]. split; [by apply Hlater|done]. }
  destruct r as [[|ev evs]|e].
  - destruct (k_events _ _ _ _ _ Er) as (_ & Hno & _). specialize (Hno ltac:(done) eq_refl).
    assert (negb (timeout =? -1) = true) as ->.
    { unfold timespec_of in Hno. by destruct (timeout =? -1). }
    eapply gives_loop; [reflexivity|]. apply gives_ret. split; [by apply Hlater|done].
  - eapply gives_seq.
    + apply (dispatch_safe g s); [done|done|done|done|]. apply (kernel_events_ok _ changes array_size (timespec_of timeout) w1); [|done| |done].
      * destruct Hi1 as [_ _ _ Hw1]. done.
      * apply (t_bound _ _ (io_table _ _ _ (i_io _ _ _ _ _ Hi))).
    + intros st σ' Hσ'. apply Hlater in Hσ' as Hσ. apply gives_if; intros _; [by apply gives_ret|].
      apply gives_if; intros _.
      * apply gives_if; intros _; [|by apply gives_ret]. apply gives_if; intros Hc; [|by apply gives_ret].
        apply gives_ret. split; [done|]. apply negb_true_iff, Z.eqb_neq in Hc. cbn. split; [lia|done].
      * destruct (Z.eqb_spec timeout 0) as [|H0']; [by apply gives_ret|].
        destruct (Z.eqb_spec timeout (-1)) as [|Hm]; [apply gives_ret; split; [done|]; cbn; lia|]. by apply Hless.
  - destruct (Z.eqb_spec e EINTR) as [->|He]; cbn [negb].
    2: { apply gives_aborted, refusal_aborts. right. exists changes, (timespec_of timeout), w1, w2, e.
      split; [done|]. split; [done|]. by destruct Hmask as [-> | ->]; [left|right]. }
    destruct (Z.eqb_spec timeout 0) as [|H0']; [by apply gives_ret|].
    destruct (Z.eqb_spec timeout (-1)) as [|Hm]; [apply gives_ret; split; [by apply Hlater|]; cbn; lia|]. by apply Hless.
Qed.

(** With enough fuel for [count] turns when the poll does not block. *)
Lemma poll_loop_safe F fuel g s σ base timeout count changes :
  io_calls_stable interest call_io uv__fs_event -> inv g s σ -> s_poll s = None -> 0 < nwatchers (fst (snd σ)) ->
  Forall (change_ok (nwatchers (fst (snd σ)))) changes -> -1 <= timeout < 2 ^ 31 ->
  F \/ timeout = 0 /\ 0 < count <= Z.of_nat fuel ->
  gives F (poll_loop call_io fuel base timeout count changes) σ (fun _ σ' => later g s σ σ').
Proof.
  intros Hst. revert g s σ timeout count changes.
  induction fuel as [|fuel IH]; intros g s σ timeout count changes Hi Hp Hnw Hch Ht Hf; cbn [poll_loop].
  { destruct Hf as [Hf|]; [exact Hf|lia]. }
  destruct σ as (l & io & w). cbn [fst snd] in *.
  eapply gives_seq; [apply gives_fuel; by apply (poll_turn_safe g s)|].
  intros next σ' [(g' & s' & Hi' & Hg' & Hs') Hnext]. destruct next as [|timeout' count'].
  { apply gives_ret. by exists g', s'. }
  cbn [fst snd] in Hs'. pose proof (ie_size _ _ _ _ Hs') as Hsz. destruct Hnext as [Ht' H0'].
  eapply gives_mono.
  - apply (IH g' s'); [done|by rewrite (ie_poll _ _ _ _ Hs')|lia|by apply Forall_nil|done|].
    destruct Hf as [Hf|[-> Hc]]; [by left|right]. destruct (H0' eq_refl) as (-> & -> & Hne). lia.
  - intros ? σ2 Hσ2. eapply later_from; [exact Hg'|exact Hs'|exact Hσ2].
Qed.

Lemma change_ok_grows n n' c : n <= n' -> change_ok n c -> change_ok n' c.
Proof. intros Hn [Hr Hk]. split; [lia|done]. Qed.

Theorem io_poll_safe F fuel g s σ timeout :
  io_calls_stable interest call_io uv__fs_event -> inv g s σ -> s_poll s = None -> (length (s_wq s) < fuel)%nat ->
  -1 <= timeout < 2 ^ 31 -> F \/ timeout = 0 /\ (48 <= fuel)%nat ->
  gives F (uv__io_poll call_io uv__fs_event fuel timeout) σ (fun _ σ' => later g s σ σ').
Proof.
  intros Hst Hi Hp Hf Ht HF. destruct σ as (l & io & w). pose proof Hi as [Hl Hn Hio Hw]. cbn [fst snd] in *.
  unfold uv__io_poll. eapply gives_io; [reflexivity|]. pose proof (io_table _ _ _ Hio) as Htab.
  destruct (Z.eqb_spec (nfds io) 0) as [Hz|Hz].
  - eapply gives_io.
    { apply io_queue_read. apply (qa_empty s _ watcher_queue (w_node <$> s_wq s)); [apply (io_links _ _ _ Hio)|done]. }
    assert (s_wq s = []) as ->.
    { destruct (s_wq s) as [|v rest] eqn:Ewq; [done|]. exfalso.
      assert (v ∈ s_live s) as Hv by (apply (io_queued _ _ _ Hio); rewrite Ewq; set_solver).
      destruct (io_live _ _ _ Hio v Hv) as (x & Ex & [_ _ _ W4 W5 _]).
      assert (pevents x <> 0) as Hpe by (intros Hpe; destruct (W5 Hpe) as [_ Hq]; apply Hq; rewrite Ewq; by left).
      destruct (W4 Hpe) as [Hr Htw]. pose proof (nfds_pos s io (fd x) v Htab Hr Htw).
      assert (v <> 0) by (apply (io_mem _ _ _ Hio), (io_live_mem _ _ _ Hio), Hv). lia. }
    apply (gives_done _ _ _ tt (l, (io, w))); [by apply on_io_run|by apply later_refl].
  - eapply gives_seq; [apply gives_fuel, (register_loop_run interest uv__fs_event fuel g s [] l io w Hi Hf)|].
    intros chs σ' (io' & [-> ->] & Hio' & [R1 R2 R3 R4 R6 R5]). rewrite (proj2 (Z.leb_le (-1) timeout)) by lia.
    eapply gives_loop; [reflexivity|]. eapply gives_loop; [reflexivity|].
    destruct (buffered_all_world interest (nwatchers io) ([], w) (wanted_all uv__fs_event io (s_wq s))) as [B1 B2];
      [done|by apply Forall_nil|by apply wanted_all_ok|].
    pose proof (nfds_bound _ _ Htab). eapply gives_mono.
    + apply (poll_loop_safe F fuel g (with_wq [] s)); [done|constructor; cbn; try done; by rewrite R2|done|cbn; lia|cbn; by rewrite R2|done|].
      destruct HF as [HF|[-> Hf48]]; [by left|right; lia].
    + intros ? σ' Hσ'. eapply later_from; [reflexivity| |exact Hσ']. constructor; try done. cbn. lia.
Qed.
End Poll.
