(* ===== verification/UvPollQuiet.v ===== *)
(** libuv, the poll phase: what is delivered.  With callbacks that leave the loop
    alone, the events of one [kevent] make exactly the calls that a pure function
    of the table and of the watchers gives, in their order, the signal watcher
    last; and a poll is the registration of the watchers, one wait and this delivery. *)
From S2P Require Import Prelude.
From S2P Require Import UvQueue.
From S2P Require Import UvQueueProofs.
From S2P Require Import UvLoop.
From S2P Require Import UvTimer.
From S2P Require Import UvRun.
From S2P Require Import UvLoopInv.
From S2P Require Import UvLoopOps.
From S2P Require Import UvRunProofs.
From S2P Require Import UvIo.
From S2P Require Import UvPoll.
From S2P Require Import UvLogic.
From S2P Require Import UvIoInv.
From S2P Require Import UvIoProofs.
From S2P Require Import UvPollProofs.
From S2P Require Import UvPollDispatch.
#[local] Set Warnings "-clear-no-such-hyp".

(** ** The specification *)
(** The bits that an event sets for a watcher. *)
Definition filter_bit (filter : Z) : Z :=
  if filter =? EVFILT_READ then POLLIN
  else if filter =? EV_OOBAND then UV__POLLPRI
  else if filter =? EVFILT_WRITE then POLLOUT
  else 0.

Definition revents_spec (x : uv__io) (ev : kev) : Z :=
  Z.lor (Z.lor (Z.land (pevents x) (filter_bit (kfilter ev)))
               (if has_bit (kflags ev) EV_ERROR then POLLERR else 0))
        (if has_bit (kflags ev) EV_EOF && has_bit (pevents x) UV__POLLRDHUP then UV__POLLRDHUP else 0).

(** An event of one of the filters whose bit the watcher does not want any more. *)
Definition unwanted (x : uv__io) (ev : kev) : bool :=
  negb (filter_bit (kfilter ev) =? 0) && negb (has_bit (pevents x) (filter_bit (kfilter ev))).

Section Quiet.
Context {W : Type} `{System W} `{Realloc} {Ab : Abort (uv_loop * (io_loop * W))} `{!RefusalAborts Ab}.
Context (interest : W -> Z -> Z -> Prop) `{!KernelLaws interest}.
Variables (call_io : Z -> Z -> Z -> @P W unit) (uv__fs_event : Z) (note_io : Z -> Z -> Z -> W -> W).
Abbreviation io_ok := (io_ok uv__fs_event).

(** Callbacks of watchers that leave the loop alone. *)
Definition quiet_io : Prop := forall f v r l io w, call_io f v r (l, (io, w)) = Done tt (l, (io, note_io f v r w)).

(** The kernel after an event has been disarmed. *)
Definition deleted (ev : kev) (w : W) : W :=
  snd (sys_kevent [EV_SET (s32 (ident ev)) (kfilter ev) EV_DELETE 0] 0 None w).

(** What the event [ev] does to the world, to [have_signals] and to the number of
    events delivered. *)
Definition deliver (io : io_loop) (a : W * (bool * Z)) (ev : kev) : W * (bool * Z) :=
  let (w, st) := a in
  if s32 (ident ev) =? -1 then a
  else
    match tab io (s32 (ident ev)) with
    | None => a
    | Some v =>
        if v =? 0 then (deleted ev w, st)
        else
          match ios io !! v with
          | None => a
          | Some x =>
              let w := if unwanted x ev then deleted ev w else w in
              let revents := revents_spec x ev in
              if revents =? 0 then (w, st)
              else if v =? signal_io_watcher io then (w, (true, u32 (snd st + 1)))
              else (note_io (io_cb x) v revents w, (fst st, u32 (snd st + 1)))
          end
    end.

(** ** One event *)
(** Loops that differ in the counts of their watchers. *)
Definition essence (x : uv__io) : Z * Z * Z := (io_cb x, fd x, pevents x).

Record same_but_counts (io io' : io_loop) : Prop := {
  sc_watchers : watchers io' = watchers io;
  sc_nwatchers : nwatchers io' = nwatchers io;
  sc_array : poll_array io' = poll_array io;
  sc_signal : signal_io_watcher io' = signal_io_watcher io;
  sc_ios : forall v, essence <$> ios io' !! v = essence <$> ios io !! v;
  sc_events : forall v, events <$> ios io' !! v = events <$> ios io !! v
}.

Lemma same_refl io : same_but_counts io io.
Proof. by constructor. Qed.

Lemma same_trans io io' io'' : same_but_counts io io' -> same_but_counts io' io'' -> same_but_counts io io''.
Proof. intros [A1 A2 A3 A4 A5 A6] [B1 B2 B3 B4 B5 B6]. constructor; try congruence. Qed.

Lemma essence_spec x x' ev : essence x' = essence x -> revents_spec x' ev = revents_spec x ev /\ unwanted x' ev = unwanted x ev /\
  io_cb x' = io_cb x /\ pevents x' = pevents x.
Proof. unfold essence, revents_spec, unwanted. by intros [= -> _ ->]. Qed.

Lemma deliver_same io io' a ev : same_but_counts io io' -> deliver io' a ev = deliver io a ev.
Proof.
  intros [A1 A2 A3 A4 A5 _]. unfold deliver, tab. destruct a as [w st]. rewrite A1, A4.
  destruct (watchers io) as [ws|]; [|done]. destruct (at_index ws _) as [v|]; [|done].
  destruct (s32 (ident ev) =? -1); [done|]. destruct (v =? 0); [done|]. specialize (A5 v).
  destruct (ios io' !! v) as [x'|], (ios io !! v) as [x|]; try done. cbn in A5.
  assert (essence x' = essence x) as E by congruence.
  by destruct (essence_spec x x' ev E) as (-> & -> & -> & _).
Qed.

Lemma same_counts io v x x' :
  ios io !! v = Some x -> essence x' = essence x -> events x' = events x -> same_but_counts io (put_io v x' io).
Proof.
  intros Ex E Ev. constructor; try done; intros u; cbn; (destruct (decide (u = v)) as [->|Hne];
    [rewrite lookup_insert_eq, Ex; cbn; by rewrite ?E, ?Ev|by rewrite lookup_insert_ne]).
Qed.

(** A bit that is wanted. *)
Lemma land_bit v bit k : 0 <= k -> bit = 2 ^ k -> Z.land v bit = if has_bit v bit then bit else 0.
Proof.
  intros Hk ->. unfold has_bit. destruct (Z.eqb_spec (Z.land v (2 ^ k)) 0) as [->|Hn]; [done|]. cbn.
  assert (Z.testbit v k = true) as Hb.
  { destruct (Z.testbit v k) eqn:E; [done|]. exfalso. apply Hn, Z.bits_inj'. intros i Hi.
    rewrite Z.land_spec, Z.pow2_bits_eqb, Z.bits_0 by lia. destruct (Z.eqb_spec k i) as [<-|]; [by rewrite E|apply andb_false_r]. }
  apply Z.bits_inj'. intros i Hi. rewrite Z.land_spec, Z.pow2_bits_eqb by lia.
  destruct (Z.eqb_spec k i) as [<-|]; [by rewrite Hb|apply andb_false_r].
Qed.

Lemma take_event_skip l io w v f ev filter bit set revents :
  kfilter ev <> filter -> take_event v f ev filter bit set revents (l, (io, w)) = Done revents (l, (io, w)).
Proof. intros Hne. unfold take_event. by rewrite (proj2 (Z.eqb_neq _ _) Hne). Qed.

(** One result, with counts that may have changed. *)
Definition counted {A} (a : A) l io w : A -> uv_loop * (io_loop * W) -> Prop :=
  fun b σ => exists io', ends a (l, (io', w)) b σ /\ same_but_counts io io'.

Lemma counted_same {A} (a : A) l io w : counted a l io w a (l, (io, w)).
Proof. exists io. split; [done|apply same_refl]. Qed.

Lemma take_event_hit l io w v x ev filter bit k set revents :
  ios io !! v = Some x -> (forall n y, essence (set n y) = essence y /\ events (set n y) = events y) -> kfilter ev = filter -> 0 <= k -> bit = 2 ^ k ->
  gives False (take_event v (s32 (ident ev)) ev filter bit set revents) (l, (io, w))
    (counted (Z.lor revents (Z.land (pevents x) bit)) l io (if has_bit (pevents x) bit then w else deleted ev w)).
Proof.
  intros Ex Hset Ef Hk Eb. unfold take_event. rewrite Ef, Z.eqb_refl.
  eapply gives_io; [by apply get_io_run|]. rewrite (land_bit _ _ k) by done. destruct (has_bit (pevents x) bit).
  - eapply gives_io; [by apply upd_io_run|]. apply gives_ret. eexists. split; [done|].
    destruct (Hset (s32 (kdata ev)) x). by apply (same_counts io v x).
  - rewrite Z.lor_0_r, <- Ef. eapply gives_ends; [apply (disarm_run interest); by left|].
    apply gives_ret. apply counted_same.
Qed.

Lemma same_ios io io' v x :
  same_but_counts io io' -> ios io !! v = Some x -> exists x', ios io' !! v = Some x' /\ essence x' = essence x.
Proof.
  intros Hs Ex. pose proof (sc_ios _ _ Hs v) as E. rewrite Ex in E. destruct (ios io' !! v) as [x'|]; [|done].
  exists x'. split; [done|]. cbn in E. congruence.
Qed.

(** The flags of the event, after the filters. *)
Lemma flags_run l io io1 w v x ev revents :
  ios io !! v = Some x -> same_but_counts io io1 ->
  gives False (let revents := if has_bit (kflags ev) EV_ERROR then Z.lor revents POLLERR else revents in
   let* x := on_io (get_io v) in
   ret (if has_bit (kflags ev) EV_EOF && has_bit (pevents x) UV__POLLRDHUP
        then Z.lor revents UV__POLLRDHUP else revents) : @P W Z) (l, (io1, w))
  (counted (Z.lor (Z.lor revents (if has_bit (kflags ev) EV_ERROR then POLLERR else 0))
         (if has_bit (kflags ev) EV_EOF && has_bit (pevents x) UV__POLLRDHUP then UV__POLLRDHUP else 0)) l io w).
Proof.
  intros Ex Hs. destruct (same_ios _ _ _ _ Hs Ex) as (x1 & Ex1 & Q1).
  destruct (essence_spec x x1 ev Q1) as (_ & _ & _ & <-). eapply gives_io; [by apply get_io_run|].
  apply gives_ret. exists io1. split; [|done]. split; [|done].
  destruct (has_bit (kflags ev) EV_ERROR), (has_bit (kflags ev) EV_EOF && has_bit (pevents x1) UV__POLLRDHUP); by rewrite ?Z.lor_0_r.
Qed.

Lemma revents_run l io w v x ev :
  ios io !! v = Some x ->
  gives False (revents_of v (s32 (ident ev)) ev) (l, (io, w))
    (counted (revents_spec x ev) l io (if unwanted x ev then deleted ev w else w)).
Proof.
  intros Ex. unfold revents_of, revents_spec, unwanted, filter_bit.
  destruct (Z.eqb_spec (kfilter ev) EVFILT_READ) as [E1|E1]; [|destruct (Z.eqb_spec (kfilter ev) EV_OOBAND) as [E2|E2];
    [|destruct (Z.eqb_spec (kfilter ev) EVFILT_WRITE) as [E3|E3]]].
  - eapply gives_seq; [by apply (take_event_hit _ _ _ _ x _ _ _ 0)|]. intros r σ (io1 & [-> ->] & S1).
    do 2 (eapply gives_step; [apply take_event_skip; by rewrite E1|]). destruct (has_bit (pevents x) POLLIN); by apply flags_run.
  - eapply gives_step; [by apply take_event_skip|].
    eapply gives_seq; [by apply (take_event_hit _ _ _ _ x _ _ _ 1)|]. intros r σ (io1 & [-> ->] & S1).
    eapply gives_step; [apply take_event_skip; by rewrite E2|]. destruct (has_bit (pevents x) UV__POLLPRI); by apply flags_run.
  - do 2 (eapply gives_step; [by apply take_event_skip|]).
    eapply gives_seq; [by apply (take_event_hit _ _ _ _ x _ _ _ 2)|]. intros r σ (io1 & [-> ->] & S1).
    destruct (has_bit (pevents x) POLLOUT); by apply flags_run.
  - do 3 (eapply gives_step; [by apply take_event_skip|]). rewrite Z.land_0_r. apply flags_run; [done|apply same_refl].
Qed.

(** ** The events *)
Hypothesis Hquiet : quiet_io.

Lemma same_tab io io' i : same_but_counts io io' -> tab io' i = tab io i.
Proof. intros Hs. unfold tab. by rewrite (sc_watchers _ _ Hs). Qed.

(** The entries of the table are there, and lead to watchers with a callback. *)
Definition deliverable (io : io_loop) : Prop := forall i, 0 <= i < nwatchers io ->
  exists v, tab io i = Some v /\ (v <> 0 -> exists x, ios io !! v = Some x /\ io_cb x <> 0).

Lemma io_deliverable s io : io_ok s io -> deliverable io.
Proof.
  intros Hio i Hi. destruct (tab_range s io i (io_table _ _ _ Hio)) as [v Hv]; [|lia|].
  { apply (watchers_there uv__fs_event s); [done|lia]. }
  exists v. split; [done|]. intros Hne. destruct (t_entry _ _ (io_table _ _ _ Hio) i v Hi Hv Hne) as [Hl (x & Ex & _)].
  exists x. split; [done|]. destruct (io_live _ _ _ Hio v Hl) as (y & Ey & [[? _] _ _ _ _ _]). congruence.
Qed.

Lemma same_deliverable io io' : same_but_counts io io' -> deliverable io -> deliverable io'.
Proof.
  intros Hs Hd i Hi. rewrite (sc_nwatchers _ _ Hs) in Hi. destruct (Hd i Hi) as (v & Hv & Hx).
  exists v. rewrite (same_tab _ _ _ Hs). split; [done|]. intros Hne. destruct (Hx Hne) as (x & Ex & Hcb).
  destruct (same_ios _ _ _ _ Hs Ex) as (x' & Ex' & Q). exists x'. split; [done|].
  by destruct (essence_spec x x' (mk_kev 0 0 0 0 0) Q) as (_ & _ & -> & _).
Qed.

Lemma dispatch_one_quiet l io w i ev st :
  deliverable io -> at_index (poll_array io) i = Some ev -> event_ok io ev ->
  gives False (dispatch_one call_io i st) (l, (io, w))
    (counted (snd (deliver io (w, st) ev)) l io (fst (deliver io (w, st) ev))).
Proof.
  intros Hent Ei Hev. unfold dispatch_one. destruct st as [have_signals nevents].
  eapply gives_io; [reflexivity|]. rewrite Ei. cbn [of_option]. eapply gives_step; [reflexivity|]. unfold deliver.
  destruct Hev as [-> | [Hr Hvn]]; [apply gives_ret, counted_same|].
  rewrite (proj2 (Z.eqb_neq (s32 (ident ev)) (-1))) by lia.
  destruct (Hent _ Hr) as (v & Hv & Hx). eapply gives_io; [by apply get_watcher_run|]. rewrite Hv.
  destruct (Z.eqb_spec v 0) as [->|Hv0].
  { eapply gives_ends; [apply (disarm_run interest); by (right; left)|]. apply gives_ret, counted_same. }
  rewrite (proj2 (Z.eqb_neq _ _) Hvn). destruct (Hx Hv0) as (x & Ex & Hcb). rewrite Ex.
  eapply gives_seq; [by apply revents_run|]. intros r σ (io1 & [-> ->] & S1).
  destruct (revents_spec x ev =? 0); [apply gives_ret; by exists io1|].
  eapply gives_io; [reflexivity|]. rewrite (sc_signal _ _ S1).
  destruct (v =? signal_io_watcher io); [apply gives_ret; by exists io1|].
  destruct (same_ios _ _ _ _ S1 Ex) as (x1 & Ex1 & Q1). destruct (essence_spec x x1 ev Q1) as (_ & _ & Qc & _).
  eapply gives_io; [by apply get_io_run|]. unfold call_io_ptr.
  rewrite Qc, (proj2 (Z.eqb_neq (io_cb x) 0) Hcb). eapply gives_step; [apply Hquiet|]. apply gives_ret. by exists io1.
Qed.

Lemma same_event io io' ev : same_but_counts io io' -> event_ok io ev -> event_ok io' ev.
Proof. intros Hs [He|[Hr Hn]]; [by left|right]. by rewrite (sc_nwatchers _ _ Hs). Qed.

(** The events from the index [i] on. *)
Lemma dispatch_loop_quiet todo evs l io w st :
  deliverable io -> poll_array io = evs ++ todo -> Forall (event_ok io) todo ->
  gives False (dispatch_loop call_io (length todo) (zlen evs) st) (l, (io, w))
    (counted (snd (foldl (deliver io) (w, st) todo)) l io (fst (foldl (deliver io) (w, st) todo))).
Proof.
  revert evs io w st. induction todo as [|ev todo IH]; intros evs io w st Hd Ea Hf; [apply gives_ret, counted_same|].
  apply Forall_cons in Hf as [He Hf]. cbn [length dispatch_loop foldl].
  eapply gives_seq; [apply (dispatch_one_quiet l io w (zlen evs) ev st Hd); [|done]|].
  { rewrite Ea, at_index_nat, zlen_to_nat by apply zlen_nonneg. by apply list_lookup_middle. }
  intros st1 σ (io1 & [-> ->] & S1).
  pose proof (IH (evs ++ [ev]) io1 (fst (deliver io (w, st) ev)) (snd (deliver io (w, st) ev))) as R2.
  rewrite zlen_app, <- surjective_pairing in R2. change (zlen [ev]) with 1 in R2.
  assert (forall a, foldl (deliver io1) a todo = foldl (deliver io) a todo) as Ef.
  { clear -S1. induction todo as [|e todo IH]; intros a; [done|]. cbn. by rewrite (deliver_same _ _ _ _ S1), IH. }
  rewrite Ef in R2. eapply gives_mono; [apply R2|].
  - by apply (same_deliverable io).
  - by rewrite (sc_array _ _ S1), Ea, <- app_assoc.
  - eapply Forall_impl; [exact Hf|]. intros e. by apply same_event.
  - intros b σ' (io2 & E2 & S2). exists io2. split; [done|by eapply same_trans].
Qed.

(** ** The events of one call of [kevent] *)
(** The world after the events [evs], and after the call of the signal watcher. *)
Definition delivered (io : io_loop) (evs : list kev) (w : W) : W * (bool * Z) :=
  let (w, st) := foldl (deliver io) (w, (false, 0)) evs in
  let sg := signal_io_watcher io in
  (match ios io !! sg with
   | Some x => if fst st : bool then note_io (io_cb x) sg POLLIN w else w
   | None => w
   end, st).

(** A signal was seen only by its watcher. *)
Lemma deliver_signal io a ev :
  (fst (snd a) = true -> exists i, 0 <= i < nwatchers io /\ tab io i = Some (signal_io_watcher io) /\ signal_io_watcher io <> 0) ->
  event_ok io ev ->
  fst (snd (deliver io a ev)) = true -> exists i, 0 <= i < nwatchers io /\ tab io i = Some (signal_io_watcher io) /\ signal_io_watcher io <> 0.
Proof.
  destruct a as [w st]. intros Ha He. unfold deliver. destruct He as [-> | [Hr _]]; [exact Ha|].
  destruct (s32 (ident ev) =? -1); [exact Ha|]. destruct (tab io (s32 (ident ev))) as [v|] eqn:Ev; [|exact Ha].
  destruct (Z.eqb_spec v 0); [exact Ha|]. destruct (ios io !! v) as [x|]; [|exact Ha]. cbv zeta.
  destruct (revents_spec x ev =? 0); [exact Ha|].
  destruct (Z.eqb_spec v (signal_io_watcher io)) as [->|]; [|exact Ha]. intros _. by exists (s32 (ident ev)).
Qed.

Lemma delivered_signal io evs a :
  Forall (event_ok io) evs ->
  (fst (snd a) = true -> exists i, 0 <= i < nwatchers io /\ tab io i = Some (signal_io_watcher io) /\ signal_io_watcher io <> 0) ->
  fst (snd (foldl (deliver io) a evs)) = true ->
  exists i, 0 <= i < nwatchers io /\ tab io i = Some (signal_io_watcher io) /\ signal_io_watcher io <> 0.
Proof.
  intros Hf. revert a. induction Hf as [|ev evs He _ IH]; intros a Ha; [exact Ha|]. cbn. apply IH. intros Hd. by eapply deliver_signal.
Qed.

(** The parts that a delivery depends on, and those that it does not change. *)
Record alike (io io' : io_loop) : Prop := {
  al_nwatchers : nwatchers io' = nwatchers io;
  al_tab : forall i, 0 <= i < nwatchers io -> tab io' i = tab io i;
  al_signal : signal_io_watcher io' = signal_io_watcher io;
  al_ios : forall v, essence <$> ios io' !! v = essence <$> ios io !! v
}.

Record undisturbed (io io' : io_loop) : Prop := {
  un_alike : alike io io';
  un_events : forall v, events <$> ios io' !! v = events <$> ios io !! v
}.

Lemma alike_deliver io io' a evs :
  alike io io' -> Forall (event_ok io) evs -> foldl (deliver io') a evs = foldl (deliver io) a evs.
Proof.
  intros [U1 U2 U3 U4] Hf. revert a. induction Hf as [|ev evs He _ IH]; intros a; [done|]. cbn. rewrite IH. f_equal.
  unfold deliver. destruct a as [w st]. rewrite U3. destruct He as [-> | [Hr _]]; [done|]. rewrite U2 by done.
  destruct (tab io (s32 (ident ev))) as [v|]; [|done]. destruct (s32 (ident ev) =? -1), (v =? 0); try done.
  specialize (U4 v). destruct (ios io' !! v) as [x'|], (ios io !! v) as [x|]; try done. cbn in U4.
  assert (essence x' = essence x) as E by congruence. by destruct (essence_spec x x' ev E) as (-> & -> & -> & _).
Qed.

Lemma alike_delivered io io' evs w :
  alike io io' -> Forall (event_ok io) evs -> delivered io' evs w = delivered io evs w.
Proof.
  intros Ha Hf. unfold delivered. rewrite (alike_deliver io io') by done. destruct Ha as [_ _ -> U4].
  destruct (foldl _ _ _) as [w3 st]. specialize (U4 (signal_io_watcher io)).
  destruct (ios io' !! _) as [x'|], (ios io !! _) as [x|]; try done. cbn in U4.
  assert (essence x' = essence x) as E by congruence. by destruct (essence_spec x x' (mk_kev 0 0 0 0 0) E) as (_ & _ & -> & _).
Qed.

Lemma registered_alike vs io io' : registered vs io io' -> alike io io'.
Proof.
  intros [R1 R2 R3 R4 R5 R6]. constructor; try done.
  - intros i _. unfold tab. by rewrite R1.
  - intros v. rewrite R6. case_bool_decide; [|done]. by destruct (ios io !! v).
Qed.

Lemma dispatch_quiet s l io w evs :
  io_ok s io -> s_poll s = None -> 0 < nwatchers io -> Forall (event_ok io) evs ->
  gives False (dispatch call_io evs) (l, (io, w)) (fun r σ => exists io',
    ends (snd (delivered io evs w)) (l, (io', fst (delivered io evs w))) r σ /\ undisturbed io io').
Proof.
  intros Hio Hp Hnw Hev. unfold dispatch. eapply gives_io; [reflexivity|].
  set (io1 := with_poll_array evs io). pose proof (io_ok_array _ s io evs Hio Hp) as Hio1. fold io1 in Hio1.
  assert (is_Some (watchers io1)) as Hws by (apply (watchers_there uv__fs_event s); [done|by left]).
  eapply gives_io; [reflexivity|]. eapply gives_io; [by destruct Hws as [? ->]|].
  destruct (put_fakes_run uv__fs_event s io1 (Some (zlen evs)) Hio1 Hws) as [E2 T2].
  eapply gives_io; [exact E2|]. set (io2 := fakes_of _ io1) in *. set (s2 := with_poll (Some (zlen evs)) s).
  assert (io_ok s2 io2) as Hio2 by (apply fakes_ok; [done|done|by intros n [= <-]]).
  assert (undisturbed io io2) as U2 by (by constructor; [constructor|]).
  eapply gives_seq; [apply (dispatch_loop_quiet evs [] l io2 w (false, 0)); [by apply (io_deliverable s2)|done..]|].
  intros st' σ' (io3 & [-> ->] & S3).
  rewrite !(alike_deliver io io2) by (done || apply U2). unfold delivered.
  destruct (foldl (deliver io) (w, (false, 0)) evs) as [w3 st] eqn:Ef. cbn [fst snd].
  destruct (put_fakes_at io3 None) as [E4 T4].
  { rewrite (sc_nwatchers _ _ S3). apply (t_bound _ _ (io_table _ _ _ Hio)). }
  1,2: rewrite (same_tab _ _ _ S3), (sc_nwatchers _ _ S3); apply (tab_range s2); [apply (io_table _ _ _ Hio2)| |cbn; lia];
    apply (watchers_there uv__fs_event s2); [done|by left].
  assert (undisturbed io (fakes_of None io3)) as U4.
  { constructor; [constructor|apply (sc_events _ _ S3)].
    - apply (sc_nwatchers _ _ S3).
    - intros i Hi. rewrite T4 by by rewrite (sc_nwatchers _ _ S3). rewrite (same_tab _ _ _ S3). by apply T2.
    - apply (sc_signal _ _ S3).
    - apply (sc_ios _ _ S3). }
  assert ((if fst st : bool then let* sg := on_io (gets signal_io_watcher) in let* x := on_io (get_io sg) in
      call_io_ptr call_io (io_cb x) sg POLLIN else ret tt) (l, (io3, w3)) =
      Done tt (l, (io3, match ios io !! signal_io_watcher io with
        | Some x => if fst st : bool then note_io (io_cb x) (signal_io_watcher io) POLLIN w3 else w3 | None => w3 end))) as Es.
  { destruct (fst st) eqn:Est; [|by destruct (ios io !! _)].
    destruct (delivered_signal io evs (w, (false, 0)) Hev) as (i & Hi & Ti & Hne); [done|by rewrite Ef|].
    destruct (io_deliverable s io Hio i Hi) as (v & Tv & Hx). assert (v = signal_io_watcher io) as -> by congruence.
    destruct (Hx Hne) as (x & Ex & Hcb). rewrite Ex.
    rewrite (bind_on_io _ (signal_io_watcher io) l io3 io3) by (unfold gets; by rewrite (sc_signal _ _ S3)).
    destruct (same_ios _ _ _ _ S3 (Ex : ios io2 !! _ = _)) as (x3 & Ex3 & Q3).
    rewrite (bind_on_io _ _ _ _ _ _ _ (get_io_run _ _ _ Ex3)). unfold call_io_ptr.
    destruct (essence_spec x x3 (mk_kev 0 0 0 0 0) Q3) as (_ & _ & -> & _).
    by rewrite (proj2 (Z.eqb_neq (io_cb x) 0) Hcb), Hquiet. }
  eapply gives_step; [exact Es|]. eapply gives_io; [exact E4|]. apply gives_ret. by exists (fakes_of None io3).
Qed.

(** ** A poll of one wait *)
Definition masked (io : io_loop) (how : bool) (w : W) : W :=
  if has_bit (loop_flags io) UV_LOOP_BLOCK_SIGPROF then sys_sigmask how w else w.

Lemma sigmask_run how l io w : sigmask how (l, (io, w)) = Done tt (l, (io, masked io how w)).
Proof.
  unfold sigmask, masked. rewrite (bind_on_io _ (loop_flags io) l io io) by done.
  by destruct (has_bit (loop_flags io) UV_LOOP_BLOCK_SIGPROF).
Qed.

(** The wait, with the buffer of changes and the world after the registration:
    the answer of the kernel, and the world after the mask and the clock. *)
Definition waited (io : io_loop) (timeout : Z) (reg : list kev * W) : kevent_result * W :=
  let (r, w) := sys_kevent (fst reg) array_size (timespec_of timeout) (masked io true (snd reg)) in
  (r, masked io false w).

(** The answer ends the poll: no event is left in the kernel for want of room, and
    an event was delivered, or the time is up. *)
Definition one_wait (io : io_loop) (timeout : Z) (r : kevent_result) (w : W) : Prop :=
  match r with
  | KEvents [] => True
  | KEvents evs => zlen evs < array_size /\ (timeout = 0 \/ snd (delivered io evs w) <> (false, 0))
  | KError e => e = EINTR -> timeout = 0
  end.

(** The world after the answer. *)
Definition answered (io : io_loop) (r : kevent_result) (w : W) : W :=
  match r with KEvents evs => fst (delivered io evs w) | KError _ => w end.

(** An answer on which the poll does not abort. *)
Definition expected (r : kevent_result) : Prop := forall e, r = KError e -> e = EINTR.

Lemma poll_turn_quiet s l io w base timeout count changes r w' :
  io_ok s io -> s_poll s = None -> 0 < nwatchers io ->
  waited io timeout (changes, w) = (r, w') ->
  (forall evs, r = KEvents evs -> Forall (event_ok io) evs) ->
  one_wait io timeout r (snd (sys_hrtime w')) ->
  gives False (poll_turn call_io base timeout count changes) (l, (io, w)) (fun next σ => exists io',
    ends PReturn (with_time (fst (sys_hrtime w') / 1000000) l, (io', answered io r (snd (sys_hrtime w')))) next σ /\
    undisturbed io io' /\ expected r).
Proof.
  intros Hio Hp Hnw Hk Hev H1. unfold poll_turn. eapply gives_step; [apply sigmask_run|].
  unfold waited in Hk. cbn [fst snd] in Hk.
  destruct (sys_kevent changes array_size (timespec_of timeout) (masked io true w)) as [r0 w0] eqn:Ek.
  injection Hk as -> Ew. eapply gives_world; [exact Ek|]. eapply gives_step; [apply sigmask_run|].
  eapply gives_step; [apply update_time_run|].
  rewrite Ew. set (l' := with_time _ l). set (w5 := snd (sys_hrtime w')) in *.
  destruct r as [[|ev evs]|e].
  - destruct (k_events changes array_size (timespec_of timeout) (masked io true w) []) as (_ & Hno & _); [by rewrite Ek|].
    specialize (Hno ltac:(done) eq_refl). unfold timespec_of in Hno. destruct (timeout =? -1); [done|].
    eapply gives_loop; [reflexivity|]. apply gives_ret. exists io. split; [|by split; [constructor; [constructor|]|]].
    split; [done|]. unfold answered, delivered. cbn. by destruct (ios io !! _).
  - eapply gives_seq; [apply (dispatch_quiet s l' io w5 (ev :: evs) Hio Hp Hnw); by apply Hev|].
    intros st σ (io' & [-> ->] & U). destruct H1 as [Hz Ht].
    assert (gives False (ret PReturn : @P W poll_next) (l', (io', fst (delivered io (ev :: evs) w5))) (fun next σ => exists io',
      ends PReturn (l', (io', answered io (KEvents (ev :: evs)) w5)) next σ /\ undisturbed io io' /\ expected (KEvents (ev :: evs)))) as Hret
      by (apply gives_ret; by exists io').
    destruct (snd (delivered io (ev :: evs) w5)) as [sig n] eqn:Est. cbn [fst snd] in *.
    destruct sig; [exact Hret|]. rewrite (proj2 (Z.eqb_neq (zlen (ev :: evs)) array_size)) by lia.
    destruct (Z.eqb_spec n 0) as [->|]; [|exact Hret]. cbn [negb]. by destruct Ht as [-> |].
  - destruct (Z.eqb_spec e EINTR) as [->|He]; cbn [negb].
    + rewrite (H1 eq_refl). apply gives_ret. exists io. split; [done|]. split; [by constructor; [constructor|]|]. by intros e [= <-].
    + apply gives_aborted, refusal_aborts. right. exists changes, (timespec_of timeout), (masked io true w), w0, e.
      split; [done|]. split; [done|]. cbn. unfold w5. rewrite <- Ew. unfold masked. destruct (has_bit _ _); [by right|by left].
Qed.

Lemma io_poll_quiet fuel g s l io w timeout r w' :
  inv interest uv__fs_event g s (l, (io, w)) -> s_poll s = None -> (length (s_wq s) < fuel)%nat -> -1 <= timeout -> nfds io <> 0 ->
  let reg := foldl buffered ([], w) (wanted_all uv__fs_event io (s_wq s)) in
  waited io timeout reg = (r, w') -> one_wait io timeout r (snd (sys_hrtime w')) ->
  gives False (uv__io_poll call_io uv__fs_event fuel timeout) (l, (io, w)) (fun u σ => exists io1 io',
    ends tt (with_time (fst (sys_hrtime w') / 1000000) l, (io', answered io r (snd (sys_hrtime w')))) u σ /\
    registered (s_wq s) io io1 /\ undisturbed io1 io' /\ expected r).
Proof.
  intros Hi Hp Hf Ht Hn reg Hk H1. pose proof Hi as [Hl Hg Hio Hw]. cbn [fst snd] in *.
  unfold uv__io_poll. eapply gives_io; [reflexivity|]. rewrite (proj2 (Z.eqb_neq (nfds io) 0) Hn).
  eapply gives_seq; [apply (register_loop_run interest uv__fs_event fuel g s [] l io w Hi Hf)|].
  intros chs σ1 (io1 & [-> ->] & Hio1 & R). fold reg. rewrite (proj2 (Z.leb_le (-1) timeout)) by lia.
  do 2 (eapply gives_loop; [reflexivity|]).
  pose proof (io_table _ _ _ Hio) as It. pose proof (nfds_bound _ _ It).
  destruct (buffered_all_world interest (nwatchers io) ([], w) (wanted_all uv__fs_event io (s_wq s))) as [B1 B2];
    [done|by apply Forall_nil|by apply wanted_all_ok|]. fold reg in B1, B2.
  pose proof (registered_alike _ _ _ R) as Ha.
  assert (forall evs, r = KEvents evs -> Forall (event_ok io) evs) as Hev.
  { intros evs ->. unfold waited in Hk. destruct (sys_kevent (fst reg) _ _ _) as [r0 w0] eqn:Ek. injection Hk as -> _.
    eapply (kernel_events_ok interest io (fst reg)); [|done|apply (t_bound _ _ It)|by rewrite Ek].
    unfold masked. destruct (has_bit _ _); [|done]. intros f k. rewrite k_mask. by apply B1. }
  assert (waited io1 timeout (fst reg, snd reg) = (r, w')) as Hk1.
  { unfold waited, masked in *. cbn [fst snd]. by rewrite (rg_flags _ _ _ R). }
  assert (forall evs w, r = KEvents evs -> delivered io1 evs w = delivered io evs w) as Hd.
  { intros evs w0 Er. apply alike_delivered; [done|by apply Hev]. }
  assert (answered io1 r (snd (sys_hrtime w')) = answered io r (snd (sys_hrtime w'))) as Ea.
  { destruct r as [evs|e]; [|done]. cbn [answered]. by rewrite Hd. }
  destruct fuel as [|fuel]; [lia|]. cbn [poll_loop]. rewrite <- Ea.
  eapply gives_seq; [apply (poll_turn_quiet (with_wq [] s) l io1 (snd reg) (time l) timeout 48 (fst reg) r w'); try done|].
  - rewrite (rg_nwatchers _ _ _ R). lia.
  - intros evs Er. specialize (Hev evs Er). eapply Forall_impl; [exact Hev|]. intros ev [He|[Hr Hv]]; [by left|right].
    by rewrite (rg_nwatchers _ _ _ R).
  - destruct r as [[|ev evs]|e]; [done| |done]. cbn [one_wait] in *. by rewrite Hd.
  - intros next σ2 (io' & [-> ->] & U' & He). apply gives_ret. by exists io1, io'.
Qed.
End Quiet.
