(* ===== verification/UvMainProofs.v ===== *)
(** libuv, [uv_run]: each phase of a turn keeps the invariants, whatever the
    callbacks do to the loop by calls that keep them, and the order of a turn. *)
From Stdlib Require Import Sorting.Sorted.
From S2P Require Import Prelude.
From S2P Require Import UvHeap UvHeapOrder UvHeapProofs UvQueue UvQueueProofs UvLoop UvTimer UvRun UvLoopInv UvLoopOps UvRunProofs UvApi UvIo UvPoll UvLogic UvIoInv UvIoProofs UvPollProofs UvPollDispatch UvPollQuiet.
#[local] Set Warnings "-clear-no-such-hyp".

(** The lists of a loop are no longer than its memory. *)
Lemma members_bound g l ty : loop_ok g l -> (length (members g ty) <= length (g_mem g))%nat.
Proof.
  intros Hok. destruct (lo_members _ _ Hok ty) as [Hd Hs]. apply submseteq_length, NoDup_submseteq; [done|].
  intros p Hp. by apply (lo_mem _ _ Hok), Hs.
Qed.

Lemma closing_bound g l : loop_ok g l -> (length (g_closing g) <= length (g_mem g))%nat.
Proof.
  intros Hok. destruct (lo_closing _ _ Hok) as [Hd Hs]. unfold all_closing, linked_closing in *.
  apply NoDup_app in Hd as (_ & _ & Hd). apply NoDup_app in Hd as (Hd & _ & _).
  apply submseteq_length, NoDup_submseteq; [done|]. intros p Hp. apply (lo_mem _ _ Hok), Hs. set_solver.
Qed.

Lemma queue_bound fs s io : io_ok fs s io -> NoDup (s_wq s) /\ NoDup (s_pend s).
Proof.
  intros Hio. split; [by apply (wq_nodup s (io_queues io)), (io_links _ _ _ Hio)|].
  destruct (io_links _ _ _ Hio) as (Q & Hwf & HQ). pose proof (HQ pending_queue) as E. cbn in E.
  pose proof (queue_nodup _ _ _ (qs_queue _ _ Hwf _ _ E)) as [_ Hd]%NoDup_cons. by apply NoDup_fmap_1 in Hd.
Qed.

Lemma set_list_bound (l : list Z) (X : gset Z) : NoDup l -> (forall v, v ∈ l -> v ∈ X) -> (length l <= size X)%nat.
Proof.
  intros Hd Hs. rewrite <- (size_list_to_set (C := gset Z) l Hd). apply subseteq_size. intros v Hv%elem_of_list_to_set. by apply Hs.
Qed.

Lemma io_bounds fs s io fuel : io_ok fs s io -> (size (s_mem s) < fuel)%nat -> (length (s_wq s) < fuel)%nat /\ (length (s_pend s) < fuel)%nat.
Proof.
  intros Hio Hf. destruct (queue_bound _ _ _ Hio) as [H1 H2].
  split; (eapply Nat.le_lt_trans; [apply (set_list_bound _ (s_mem s)); [done|]|done]); intros v Hv;
    apply (io_live_mem _ _ _ Hio), (io_queued _ _ _ Hio); set_solver.
Qed.

Section Main.
Context {W : Type} `{System W} `{Realloc} {Ab : Abort (uv_loop * (io_loop * W))} `{!RefusalAborts Ab}.
Context (interest : W -> Z -> Z -> Prop) `{!KernelLaws interest}.
Variables (call : Z -> Z -> @P W unit) (call_io : Z -> Z -> Z -> @P W unit) (uv__fs_event : Z).
Abbreviation io_ok := (io_ok uv__fs_event).
Abbreviation state := (uv_loop * (io_loop * W))%type.
Abbreviation inv := (inv interest uv__fs_event).
Abbreviation later := (later interest uv__fs_event).
Abbreviation world_ok := (world_ok interest).
Implicit Types (σ : state) (g : shape) (s : io_shape) (w : W).

(** Between two phases: no run over a queue, no poll, no close is going on. *)
Definition resting (mem : list Z) (io_mem : gset Z) σ : Prop := exists g s,
  inv g s σ /\ s_poll s = None /\ s_pq s = [] /\ s_mem s = io_mem /\ g_mem g = mem /\
  (forall v, g_run g v = []) /\ g_finishing g = [].

Lemma later_rests mem iom g s σ σ' :
  s_poll s = None -> s_pq s = [] -> s_mem s = iom -> g_mem g = mem -> (forall v, g_run g v = []) -> g_finishing g = [] ->
  later g s σ σ' -> resting mem iom σ'.
Proof.
  intros Hp Hq Hm Hg Hr Hf (g' & s' & Hi & [V0 V1 V2 V3 V4] & [A1 A2 A3 A4 A5 A6]). exists g', s'.
  split; [done|]. split; [congruence|]. split; [apply sublist_nil_r; by rewrite <- Hq|]. split; [congruence|]. split; [congruence|].
  split; [|congruence]. intros v. apply sublist_nil_r. by rewrite <- (Hr v).
Qed.

(** ** The timers *)
Lemma run_timers_safe fuel g s σ :
  calls_stable interest uv__fs_event call -> inv g s σ ->
  gives True (uv__run_timers call fuel) σ (fun _ σ' => later g s σ σ').
Proof.
  intros Hst. unfold uv__run_timers. revert g s σ. induction fuel as [|fuel IH]; intros g s σ Hi; [done|].
  cbn [run_timers_loop]. destruct σ as (l & io & w). pose proof Hi as [Hl Hn Hio Hw]. cbn [fst snd] in *.
  destruct (heap_min_run _ _ Hl) as (Emin & Enil & Hmin). eapply gives_loop; [exact Emin|].
  destruct (Z.eqb_spec (pos (g_timers g) 1) 0) as [E0|E0]; [apply gives_ret; by apply later_refl|].
  assert (g_timers g <> []) as Hne by (intros E; by apply Enil in E). destruct (Hmin Hne) as [Hp _].
  set (p := pos (g_timers g) 1) in *. destruct (timer_handle _ _ _ Hl Hp) as (Hall & h & Eh & _ & _ & Hcb & _).
  eapply gives_loop; [by apply get_handle_run|]. eapply gives_loop; [reflexivity|].
  apply gives_if; intros _; [apply gives_ret; by apply later_refl|].
  destruct (fire_step g l p h Hl Hn Hp Eh) as (l0 & g1 & l1 & h1 & E1 & E2 & Hok1 & Hev1 & Eall & _ & Eh1 & _ & Ecb & _).
  eapply gives_loop; [exact E1|]. eapply gives_loop; [exact E2|].
  eapply gives_loop; [apply get_handle_run; rewrite Eh1; apply lookup_insert_eq|].
  unfold call_ptr. rewrite Ecb, (proj2 (Z.eqb_neq (cb h) 0) Hcb).
  assert (inv g1 s (l1, (io, w))) as Hi1 by (constructor; try done; by rewrite (ev_new _ _ (rt_evolves _ _ Hev1))).
  eapply gives_seq; [apply gives_fuel, (Hst g1 s); [done|done|left; by rewrite Eall]|].
  intros _ σ2 (g2 & s2 & Hi2 & Hg2 & Hs2). eapply gives_mono; [by apply (IH g2 s2)|].
  intros ? σ3 Hσ3. eapply later_from; [|exact Hs2|exact Hσ3]. etrans; [apply Hev1|done].
Qed.

(** ** The watchers and the closes, as callbacks on the I/O part and the world *)
Definition rest_io (iom : gset Z) (a : io_loop * W) : Prop := exists s,
  io_ok s (fst a) /\ world_ok (nwatchers (fst a)) (snd a) /\ s_poll s = None /\ s_pq s = [] /\ s_mem s = iom.

Lemma calls_stable_with iom : calls_stable interest uv__fs_event call -> stable_with (rest_io iom) call.
Proof.
  intros Hst g l a f p Hl Hn Hf Hc (s & Hio & Hw & H1 & H2 & H3).
  assert (inv g s (l, a)) as Hi by by constructor.
  eapply gives_mono; [exact (Hst g s (l, a) f p Hi Hf Hc)|].
  intros [] (l' & a') (g' & s' & [Hl' Hn' Hio' Hw'] & Hg & [A1 A2 A3 A4 A5 A6]).
  exists g'. split; [done|]. split; [done|]. exists s'. split; [done|]. split; [done|].
  split; [congruence|]. split; [|congruence]. apply sublist_nil_r. by rewrite <- H2.
Qed.

Lemma run_watchers_safe mem iom v fuel σ :
  calls_stable interest uv__fs_event call -> resting mem iom σ -> (length mem < fuel)%nat ->
  gives False (uv__run_watchers call v fuel) σ (fun _ σ' => resting mem iom σ').
Proof.
  intros Hst (g & s & [Hl Hn Hio Hw] & H1 & H2 & H3 & H4 & H5 & H6) Hf. destruct σ as (l & a). cbn [fst snd] in *.
  assert (length (g_watch g v) < fuel)%nat as Hlen.
  { pose proof (members_bound g l (UV_WATCHER v) Hl) as Hb. cbn in Hb. rewrite length_app in Hb. rewrite H4 in Hb. lia. }
  assert (rest_io iom a) as HP by (by exists s).
  eapply gives_mono; [exact (run_watchers_stable _ call v fuel g l a (calls_stable_with iom Hst) Hl Hn (H5 v) Hlen HP)|].
  intros _ (l' & a') (g' & Hl' & [V0 V1 V2 V3 V4] & s' & Hio' & Hw' & P1 & P2 & P3). exists g', s'. split; [constructor; try done; cbn; congruence|].
  do 3 (split; [done|]). split; [congruence|]. split; [|congruence]. intros u. apply sublist_nil_r. by rewrite <- (H5 u).
Qed.

Lemma run_closing_safe mem iom fuel σ :
  calls_stable interest uv__fs_event call -> resting mem iom σ -> (length mem < fuel)%nat ->
  gives False (uv__run_closing_handles call fuel) σ (fun _ σ' => resting mem iom σ').
Proof.
  intros Hst (g & s & [Hl Hn Hio Hw] & H1 & H2 & H3 & H4 & H5 & H6) Hf. destruct σ as (l & a). cbn [fst snd] in *.
  destruct (start_closing g l Hl H6) as [E0 Hok1]. set (g1 := mk_shape _ _ _ _ _ _ _ _ _) in Hok1.
  pose proof (closing_bound _ _ Hl) as Hb. rewrite H4 in Hb.
  assert (rest_io iom a) as HP by (by exists s).
  unfold uv__run_closing_handles. destruct a as (io & w). eapply gives_loop; [unfold gets; by rewrite E0|].
  eapply gives_loop; [reflexivity|].
  eapply gives_mono; [apply (run_closing_stable _ call fuel g1 _ (io, w) (calls_stable_with iom Hst) Hok1 Hn ltac:(cbn; lia) HP)|].
  intros _ (l' & a') (g' & Hl' & F1 & F2 & (s' & Hio' & Hw' & P1 & P2 & P3) & F3 & F4). exists g', s'. split; [by constructor|].
  do 3 (split; [done|]). split; [by rewrite F3|]. split; [|done]. intros u. apply sublist_nil_r. by rewrite <- (H5 u).
Qed.

(** ** The timeout *)
Lemma next_timeout_range g l : loop_ok g l -> exists r, uv__next_timeout l = Done r l /\ -1 <= r < 2 ^ 31.
Proof.
  intros Hok. destruct (heap_min_run _ _ Hok) as (E & Enil & Hmin). unfold uv__next_timeout.
  rewrite (bind_done _ _ _ _ _ E). destruct (Z.eqb_spec (pos (g_timers g) 1) 0) as [E0|E0]; [by exists (-1)|].
  assert (g_timers g <> []) as Hne by (intros E1; by apply Enil in E1).
  destruct (Hmin Hne) as [Hp _]. destruct (timer_handle _ _ _ Hok Hp) as (_ & h & Eh & _).
  rewrite (bind_get_handle _ _ _ _ Eh), bind_gets. destruct (timeout h <=? time l); [by exists 0|].
  eexists. split; [reflexivity|]. pose proof (Z.mod_pos_bound (timeout h - time l) (2 ^ 64) ltac:(lia)) as Hd.
  fold (u64 (timeout h - time l)) in Hd. unfold s32, UvTimer.INT_MAX. rewrite swrap_small; [|lia|];
    destruct (Z.ltb_spec 2147483647 (u64 (timeout h - time l))); lia.
Qed.

Lemma backend_timeout_safe g s σ :
  inv g s σ -> gives False uv_backend_timeout σ (fun r σ' => σ' = σ /\ -1 <= r < 2 ^ 31).
Proof.
  intros [Hl Hn Hio Hw]. destruct σ as (l & io & w). cbn [fst snd] in *. unfold uv_backend_timeout.
  assert (forall r : Z, -1 <= r < 2 ^ 31 -> gives False (ret r) (l, (io, w)) (fun r σ' => σ' = (l, (io, w)) /\ -1 <= r < 2 ^ 31)) as Hret
    by (by intros r Hr; apply gives_ret).
  eapply gives_loop; [reflexivity|]. apply gives_if; intros _; [by apply Hret|]. apply gives_if; intros _; [by apply Hret|].
  pose proof (p_queues _ _ (lo_parts _ _ Hl) (watcher_handles idle) eq_refl) as Hq.
  eapply gives_loop.
  { unfold on_queues, in_part. rewrite (QUEUE_EMPTY_spec _ _ _ Hq). by rewrite with_queues_id. }
  apply gives_if; intros _; [by apply Hret|]. eapply gives_io.
  { apply io_queue_read. by apply (qa_empty s _ pending_queue (p_node <$> s_pend s) (io_links _ _ _ Hio)). }
  apply gives_if; intros _; [by apply Hret|]. apply gives_if; intros _; [by apply Hret|].
  destruct (next_timeout_range _ _ Hl) as (r & E & Hr). apply (gives_done _ _ _ r (l, (io, w))); [|done].
  unfold on_loop, in_part. cbn [fst snd]. by rewrite E.
Qed.

(** ** A turn *)
(** The fuel of the phases that end by themselves. *)
Definition enough (mem : list Z) (iom : gset Z) (fuel : nat) : Prop := (length mem < fuel)%nat /\ (size iom < fuel)%nat.

Lemma update_time_safe mem iom σ :
  resting mem iom σ -> gives False update_time σ (fun _ σ' => resting mem iom σ').
Proof.
  intros (g & s & Hi & Hr). destruct σ as (l & io & w). eapply gives_done; [apply update_time_run|].
  exists g, s. split; [by apply time_inv|done].
Qed.

Lemma timers_rest mem iom fuel σ :
  calls_stable interest uv__fs_event call -> resting mem iom σ ->
  gives True (uv__run_timers call fuel) σ (fun _ σ' => resting mem iom σ').
Proof.
  intros Hst (g & s & Hi & H1 & H2 & H3 & H4 & H5 & H6). eapply gives_mono; [by apply (run_timers_safe fuel g s)|].
  intros ? σ'. by apply later_rests.
Qed.

Lemma uv_run_turn_safe mem iom fuel mode σ :
  calls_stable interest uv__fs_event call -> io_calls_stable interest call_io uv__fs_event ->
  resting mem iom σ -> enough mem iom fuel ->
  gives True (uv_run_turn call call_io uv__fs_event fuel mode) σ (fun _ σ' => resting mem iom σ').
Proof.
  intros Hst Hsio Hr [Hf Hf']. unfold uv_run_turn.
  eapply gives_seq; [by apply gives_fuel, update_time_safe|]. intros ? σ1 R1; cbv beta in R1.
  eapply gives_seq; [by apply timers_rest|]. intros _ σ2 (g2 & s2 & Hi2 & A1 & A2 & A3 & A4 & A5 & A6).
  eapply gives_seq.
  { apply gives_fuel, (run_pending_safe interest call_io uv__fs_event fuel g2 s2); [done|done|done|].
    eapply io_bounds; [apply Hi2|by rewrite A3]. }
  intros ran_pending σ3 L3. pose proof (later_rests mem iom _ _ _ _ A1 A2 A3 A4 A5 A6 L3) as R3.
  eapply gives_seq; [by apply gives_fuel, (run_watchers_safe mem iom)|]. intros ? σ4 R4; cbv beta in R4.
  eapply gives_seq; [by apply gives_fuel, (run_watchers_safe mem iom)|]. intros ? σ5 R5; cbv beta in R5.
  pose proof R5 as (g5 & s5 & Hi5 & B1 & B2 & B3 & B4 & B5 & B6).
  eapply gives_seq with (R := fun r σ' => σ' = σ5 /\ -1 <= r < 2 ^ 31).
  { apply gives_if; intros _; [by apply gives_fuel, (backend_timeout_safe g5 s5)|]. by apply gives_ret. }
  intros timeout σ6 [-> Ht].
  eapply gives_seq.
  { apply (io_poll_safe interest call_io uv__fs_event True fuel g5 s5); try done; [|by left].
    eapply io_bounds; [apply Hi5|by rewrite B3]. }
  intros ? σ7 L7; cbv beta in L7. pose proof (later_rests mem iom _ _ _ _ B1 B2 B3 B4 B5 B6 L7) as R7.
  eapply gives_seq; [by apply gives_fuel, (run_watchers_safe mem iom)|]. intros ? σ8 R8; cbv beta in R8.
  eapply gives_seq; [by apply gives_fuel, (run_closing_safe mem iom)|]. intros ? σ9 R9; cbv beta in R9.
  apply gives_if; intros _; [|by apply gives_ret].
  eapply gives_seq; [by apply gives_fuel, update_time_safe|]. intros ? σ10 R10; cbv beta in R10. by apply timers_rest.
Qed.

(** ** [uv_run] *)
Definition alive (l : uv_loop) : bool :=
  uv__has_active_handles l || uv__has_active_reqs l || negb (closing_handles l =? 0).

Lemma stop_inv g s l a v : inv g s (l, a) -> inv g s (with_stop v l, a).
Proof. intros [[[] ? ? ? ? ? ? ? ?] ? ? ?]. by constructor. Qed.

Lemma uv_run_loop_safe mem iom turns fuel mode r σ :
  calls_stable interest uv__fs_event call -> io_calls_stable interest call_io uv__fs_event ->
  resting mem iom σ -> enough mem iom fuel -> r = alive (fst σ) ->
  gives True (uv_run_loop call call_io uv__fs_event turns fuel mode r) σ
    (fun r σ' => resting mem iom σ' /\ r = alive (fst σ')).
Proof.
  intros Hst Hsio Hr Hf. revert σ r Hr. induction turns as [|turns IH]; intros σ r Hr Ea; [done|]. cbn [uv_run_loop].
  destruct σ as (l & io & w). eapply gives_loop; [reflexivity|]. apply gives_if; intros _; [|by apply gives_ret].
  eapply gives_seq; [by apply (uv_run_turn_safe mem iom)|]. intros ? (l1 & io1 & w1) R1; cbv beta in R1.
  eapply gives_loop; [reflexivity|]. apply gives_if; intros _; [by apply IH|by apply gives_ret].
Qed.

Lemma uv_run_safe mem iom turns fuel mode σ :
  calls_stable interest uv__fs_event call -> io_calls_stable interest call_io uv__fs_event ->
  resting mem iom σ -> enough mem iom fuel ->
  gives True (uv_run call call_io uv__fs_event turns fuel mode) σ
    (fun r σ' => resting mem iom σ' /\ r = alive (fst σ') /\ stop_flag (fst σ') = 0).
Proof.
  intros Hst Hsio Hr Hf. unfold uv_run. destruct σ as (l & io & w).
  eapply gives_loop; [reflexivity|]. fold (alive l).
  eapply gives_seq with (R := fun _ σ' => resting mem iom σ' /\ alive (fst σ') = alive l).
  { apply gives_if; intros _; [|by apply gives_ret]. 
    destruct Hr as (g & s & Hi & Hr). eapply gives_done; [apply update_time_run|]. split; [|done].
    exists g, s. split; [by apply time_inv|done]. }
  intros _ σ1 [R1 E1]. eapply gives_seq; [by apply (uv_run_loop_safe mem iom)|].
  intros r (l2 & io2 & w2) [R2 E2]. eapply gives_loop; [reflexivity|].
  destruct (Z.eqb_spec (stop_flag l2) 0) as [Es|Es]; cbn [negb].
  - eapply gives_step; [reflexivity|]. by apply gives_ret.
  - eapply gives_loop; [reflexivity|]. apply gives_ret. split; [|done].
    destruct R2 as (g & s & Hi & Hr2). exists g, s. split; [by apply stop_inv|done].
Qed.
End Main.

(** * The order of a turn *)
#[local] Set Warnings "-clear-no-such-hyp".

Section Turn.
Context {W : Type} `{System W} `{Realloc} {Ab : Abort (uv_loop * (io_loop * W))} `{!RefusalAborts Ab}.
Context (interest : W -> Z -> Z -> Prop) `{!KernelLaws interest}.
Variables (call : Z -> Z -> @P W unit) (call_io : Z -> Z -> Z -> @P W unit) (uv__fs_event : Z).
Variables (note : Z -> Z -> W -> W) (note_io : Z -> Z -> Z -> W -> W).
Abbreviation io_ok := (io_ok uv__fs_event).
Abbreviation inv := (inv interest uv__fs_event).

(** Callbacks of handles change the world only. *)
Definition world_note (f p : Z) (a : io_loop * W) : io_loop * W := (fst a, note f p (snd a)).

(** ** The specification of a turn *)
(** The callbacks of the handles [ps], in their order. *)
Definition calls (hs : gmap Z uv_handle) (ps : list Z) (w : W) : W := foldl (fun w p => fire note hs p w) w ps.

(** The callbacks of the pending watchers. *)
Definition pending_calls (io : io_loop) (vs : list Z) (w : W) : W :=
  foldl (fun w v => match ios io !! v with Some x => note_io (io_cb x) v POLLOUT w | None => w end) w vs.

(** The phases up to the poll: the clock, the timers [ds], the pending watchers,
    the idle and the prepare handles; and those from the answer of the kernel on:
    the events, the check handles, the closes. *)
Definition before_poll (l : uv_loop) (g : shape) (s : io_shape) (io : io_loop) (ds : list Z) (w : W) : W :=
  calls (handles l) (g_watch g prepare)
    (calls (handles l) (g_watch g idle)
      (pending_calls io (s_pend s)
        (calls (handles l) ds (snd (sys_hrtime w))))).

Definition after_poll (l : uv_loop) (g : shape) (io : io_loop) (r : kevent_result) (w : W) : W :=
  foldl (note_close note (handles l))
    (calls (handles l) (g_watch g check) (answered note_io io r (snd (sys_hrtime w))))
    (g_closing g).

(** ** The parts *)
Lemma fold_world hs ps io w :
  foldl (fun a p => fire world_note hs p a) (io, w) ps = (io, calls hs ps w).
Proof.
  unfold calls. revert w. induction ps as [|p ps IH]; intros w; [done|]. cbn. rewrite <- IH. f_equal.
  unfold fire, world_note. by destruct (hs !! p).
Qed.

Lemma fold_close hs ps io w :
  foldl (note_close world_note hs) (io, w) ps = (io, foldl (note_close note hs) w ps).
Proof.
  revert w. induction ps as [|p ps IH]; intros w; [done|]. cbn. rewrite <- IH. f_equal.
  unfold note_close, world_note. destruct (hs !! p) as [h|]; [|done]. by destruct (close_cb h =? 0).
Qed.

Lemma calls_ext hs hs' ps w :
  (forall p, p ∈ ps -> hs' !! p = hs !! p) -> calls hs' ps w = calls hs ps w.
Proof. intros E. unfold calls. apply fire_ext. intros p Hp. by rewrite E. Qed.

Lemma close_ext hs hs' ps (w : W) :
  (forall p, p ∈ ps -> hs' !! p = hs !! p) -> foldl (note_close note hs') w ps = foldl (note_close note hs) w ps.
Proof.
  revert w. induction ps as [|p ps IH]; intros w E; [done|]. cbn. rewrite IH by (intros; apply E; by right).
  f_equal. unfold note_close. by rewrite E by by left.
Qed.

Hypothesis Hq : quiet call world_note.
Hypothesis Hqio : quiet_io call_io note_io.

Lemma run_pending_loop_quiet fuel s l io w :
  io_ok s io -> (length (s_pq s) < fuel)%nat ->
  exists m, run_pending_loop call_io fuel (l, (io, w)) =
    Done tt (l, (with_io_queues m io, pending_calls io (s_pq s) w)) /\ io_ok (with_pq [] s) (with_io_queues m io).
Proof.
  revert s io w. induction fuel as [|fuel IH]; intros s io w Hio Hf; [lia|]. cbn [run_pending_loop].
  pose proof (qa_empty s _ local_pq (p_node <$> s_pq s) (io_links _ _ _ Hio) eq_refl) as Ee.
  rewrite (bind_on_io _ _ _ _ _ _ _ (io_queue_read _ _ _ Ee)). destruct (s_pq s) as [|v rest] eqn:Epq.
  { exists (io_queues io). rewrite with_io_queues_id. split; [done|]. by replace (with_pq [] s) with s by (destruct s; cbn in *; by rewrite Epq). }
  rewrite bool_decide_false by done. destruct (pq_pop _ _ _ _ _ Hio Epq) as (m1 & m & E0 & E1 & E2 & Hio').
  rewrite (bind_on_io _ _ _ _ _ _ _ (io_queue_read _ _ _ E0)), (bind_on_io _ _ _ _ _ _ _ (io_queue_run _ _ _ _ E1)).
  rewrite (bind_on_io _ _ _ _ _ _ _ (io_queue_run _ (with_io_queues m1 io) _ _ E2)).
  change (with_io_queues m (with_io_queues m1 io)) with (with_io_queues m io).
  rewrite (bind_on_io _ v _ (with_io_queues m io) (with_io_queues m io)) by done.
  assert (v ∈ s_live s) as Hv by (apply (io_queued _ _ _ Hio); rewrite Epq; set_solver).
  destruct (io_live _ _ _ Hio v Hv) as (x & Ex & [[Hcb _] _ _ _ _ _]).
  rewrite (bind_on_io _ _ _ _ _ _ _ (get_io_run (with_io_queues m io) _ _ Ex)). unfold call_io_ptr.
  rewrite (proj2 (Z.eqb_neq (io_cb x) 0) Hcb), (bind_done _ _ _ _ _ (Hqio _ _ _ _ _ _)).
  destruct (IH (with_pq rest s) _ (note_io (io_cb x) v POLLOUT w) Hio') as (m' & E & Hok'); [cbn in *; lia|].
  exists m'. rewrite E. split; [|done]. unfold pending_calls. cbn. by rewrite Ex.
Qed.

Lemma run_pending_quiet fuel s l io w :
  io_ok s io -> s_pq s = [] -> (length (s_pend s) < fuel)%nat ->
  exists b m, uv__run_pending call_io fuel (l, (io, w)) =
    Done b (l, (with_io_queues m io, pending_calls io (s_pend s) w)) /\ io_ok (with_pend [] s) (with_io_queues m io).
Proof.
  intros Hio Epq Hf. unfold uv__run_pending.
  pose proof (qa_empty s _ pending_queue (p_node <$> s_pend s) (io_links _ _ _ Hio) eq_refl) as Ee.
  rewrite (bind_on_io _ _ _ _ _ _ _ (io_queue_read _ _ _ Ee)). destruct (s_pend s) as [|v rest] eqn:Ep.
  { exists false, (io_queues io). rewrite with_io_queues_id. split; [done|]. by replace (with_pend [] s) with s by (destruct s; cbn in *; by rewrite Ep). }
  rewrite bool_decide_false by done. rewrite <- Ep in *.
  assert (with_io_queues (<[local_pq := mk_qnode local_pq local_pq]> (io_queues io)) io = io) as El.
  { rewrite insert_id; [apply with_io_queues_id|]. apply (self_node s); [apply (io_links _ _ _ Hio)|]. cbn. by rewrite Epq. }
  rewrite (bind_on_io _ tt _ io io) by (unfold modify; by rewrite El).
  destruct (pend_move _ _ _ Hio Epq) as (m & Em & Hio'). rewrite (bind_on_io _ _ _ _ _ _ _ (io_queue_run _ _ _ _ Em)).
  destruct (run_pending_loop_quiet fuel _ l _ w Hio' Hf) as (m' & E & Hok'). exists true, m'.
  rewrite (bind_done _ _ _ _ _ E). split; [done|]. by replace (with_pend [] s) with (with_pq [] (with_pq (s_pend s) (with_pend [] s))) by by destruct s; cbn in *; subst.
Qed.

(** A phase over handles leaves the lists as they are. *)
Record settled (g g' : shape) : Prop := {
  st_mem : g_mem g' = g_mem g;
  st_new : g_new g' = g_new g;
  st_closing : g_closing g' = g_closing g;
  st_finishing : g_finishing g' = g_finishing g;
  st_watch : forall v, g_watch g' v = g_watch g v;
  st_run : forall v, g_run g' v = g_run g v
}.

Lemma settled_trans g g' g'' : settled g g' -> settled g' g'' -> settled g g''.
Proof.
  intros [A1 A2 A3 A4 A5 A6] [B1 B2 B3 B4 B5 B6]. constructor; try congruence; intros v; by rewrite ?B5, ?B6.
Qed.

Lemma retimed_settled g g' : retimed g g' -> (forall v, g_run g v = []) -> settled g g'.
Proof.
  intros [[V0 V1 V2 V3 V4] Hw Hc] Hr. constructor; try done; intros v; [by rewrite Hw|].
  rewrite Hr. apply sublist_nil_r. by rewrite <- (Hr v).
Qed.

Lemma watchers_fit g l v fuel : loop_ok g l -> (length (g_mem g) < fuel)%nat -> (length (g_watch g v) < fuel)%nat.
Proof. intros Hok Hf. pose proof (members_bound g l (UV_WATCHER v) Hok) as Hb. cbn in Hb. rewrite length_app in Hb. lia. Qed.

Lemma watchers_phase v fuel g l io w :
  loop_ok g l -> (forall u, g_run g u = []) -> (length (g_mem g) < fuel)%nat ->
  exists m g', uv__run_watchers call v fuel (l, (io, w)) =
    Done tt (with_queues m l, (io, calls (handles l) (g_watch g v) w)) /\
  loop_ok g' (with_queues m l) /\ settled g g'.
Proof.
  intros Hok Hr Hf. destruct (run_watchers_quiet call world_note v fuel g l (io, w) Hq Hok (Hr v)) as (m & g' & E & Hok' & Ew & Er & [A1 A2 A3 A4 A5 A6]).
  { by eapply watchers_fit. }
  exists m, g'. rewrite fold_world in E. split; [done|]. split; [done|]. constructor; try done.
  - intros u. destruct (decide (u = v)) as [->|]; [done|by apply A5].
  - intros u. destruct (decide (u = v)) as [->|]; [by rewrite Er, Hr|by apply A6].
Qed.

(** The timers that fire are no watchers, and are not closing. *)
Lemma fired_others g l (ds : list Z) :
  loop_ok g l -> g_new g = [] -> (forall p, p ∈ ds -> p ∈ g_timers g) ->
  (forall v p, p ∈ g_watch g v -> p ∉ ds) /\ (forall p, p ∈ g_closing g -> p ∉ ds).
Proof.
  intros Hok Hn Hds. split.
  - intros v p Hp Hin%Hds. destruct (timer_handle _ _ _ Hok Hin) as (_ & h & Eh & Hty & _ & _ & K).
    assert (p ∈ members g (UV_WATCHER v)) as Hm by (apply elem_of_app; by left).
    apply (h_members _ _ _ K) in Hm as [Hm _]. congruence.
  - intros p Hp Hin%Hds. destruct (timer_handle _ _ _ Hok Hin) as (_ & h & _ & _ & Ha & _ & K).
    destruct (h_active _ _ _ K Ha) as [_ Hl]. apply Hl. apply elem_of_app. by left.
Qed.

Lemma timers_fit g l fuel : loop_ok g l -> (length (g_mem g) < fuel)%nat -> count (due l) (g_timers g) < Z.of_nat fuel.
Proof.
  intros Hok Hf. pose proof (members_bound g l UV_TIMER Hok) as Hb. cbn in Hb.
  pose proof (count_bounds (due l) (g_timers g)). unfold zlen in *. lia.
Qed.

(** The closes that were pending. *)
Lemma closing_phase fuel g l io w :
  loop_ok g l -> g_finishing g = [] -> (length (g_mem g) < fuel)%nat ->
  exists l', uv__run_closing_handles call fuel (l, (io, w)) =
    Done tt (l', (io, foldl (note_close note (handles l)) w (g_closing g))).
Proof.
  intros Hok Hfin Hf. destruct (start_closing g l Hok Hfin) as [E0 Hok1].
  pose proof (closing_bound _ _ Hok) as Hb.
  match type of Hok1 with loop_ok ?x _ => set (g1 := x) in Hok1 end.
  destruct (run_closing_quiet call world_note fuel g1 (with_closing 0 l) (io, w) Hq Hok1) as (g' & l' & E & _); [cbn; lia|].
  exists l'. unfold uv__run_closing_handles.
  rewrite (bind_on_loop (gets closing_handles) (hd 0 (g_closing g)) l l) by (unfold gets; by rewrite E0).
  rewrite (bind_on_loop (modify (with_closing 0)) tt l (with_closing 0 l)) by done.
  change (g_closing g) with (g_finishing g1). rewrite E. by rewrite fold_close.
Qed.

(** The kernel's set is out of the reach of the callbacks. *)
Hypothesis Hworld : forall f p w fd filter, interest (note f p w) fd filter -> interest w fd filter.
Hypothesis Hworld_io : forall f v r w fd filter, interest (note_io f v r w) fd filter -> interest w fd filter.

Lemma calls_world n hs ps w : world_ok interest n w -> world_ok interest n (calls hs ps w).
Proof.
  unfold calls. revert w. induction ps as [|p ps IH]; intros w Hw; [done|]. cbn. apply IH.
  unfold fire. destruct (hs !! p); [|done]. intros f k Hi. by apply Hw, (Hworld _ _ _ _ _ Hi).
Qed.

Lemma pending_world n io vs w : world_ok interest n w -> world_ok interest n (pending_calls io vs w).
Proof.
  unfold pending_calls. revert w. induction vs as [|v vs IH]; intros w Hw; [done|]. cbn. apply IH.
  destruct (ios io !! v); [|done]. intros f k Hi. by apply Hw, (Hworld_io _ _ _ _ _ _ Hi).
Qed.

(** ** A turn without waiting *)
Lemma turn_nowait fuel g s l io w :
  inv g s (l, (io, w)) -> s_poll s = None -> s_pq s = [] -> (forall v, g_run g v = []) -> g_finishing g = [] ->
  repeats_ok l -> nfds io <> 0 -> enough (g_mem g) (s_mem s) fuel ->
  exists ds, NoDup ds /\ (forall p, p ∈ ds <-> p ∈ g_timers g /\ timeout_of (handles l) p <= fst (sys_hrtime w) / 1000000) /\
  StronglySorted (no_later (handles l)) ds /\
  forall r w1,
    waited io 0 (foldl buffered ([], before_poll l g s io ds w) (wanted_all uv__fs_event io (s_wq s))) = (r, w1) ->
    (forall evs, r = KEvents evs -> zlen evs < array_size) ->
    gives False (uv_run_turn call call_io uv__fs_event fuel UV_RUN_NOWAIT) (l, (io, w))
      (fun _ σ' => snd (snd σ') = after_poll l g io r w1 /\ expected r).
Proof.
  intros [Hl Hn Hio Hw] Hp Hpq Hr Hfin Hrep Hnf [Hf Hf']. cbn [fst snd] in *.
  destruct (k_clock w) as [Hclk Hcw]. set (l0 := with_time (fst (sys_hrtime w) / 1000000) l).
  assert (loop_ok g l0) as Hl0 by by apply loop_ok_time.
  destruct (run_timers_spec call world_note Hq fuel g l0 (io, snd (sys_hrtime w)) Hl0 Hn) as
    (g1 & l1 & ds & E1 & Hok1 & Hrt & Et1 & Hnd & Hds & Hs & _ & Hout & _); [|done|by apply timers_fit|].
  { cbn. pose proof (Z.div_le_upper_bound (fst (sys_hrtime w)) 1000000 (2 ^ 63)). pose proof (Z.div_pos (fst (sys_hrtime w)) 1000000). lia. }
  exists ds. split; [done|]. split.
  { intros p. rewrite Hds. unfold due. cbn. by rewrite Z.leb_le. }
  split; [done|]. intros r w1 Hk Hsm.
  assert (forall p, p ∈ ds -> p ∈ g_timers g) as Hdt by (intros p Hd; by apply Hds).
  destruct (fired_others g l0 ds Hl0 Hn Hdt) as [Hfw Hfc].
  pose proof (retimed_settled _ _ Hrt Hr) as S1. destruct S1 as [M1 N1 C1 F1 W1 R1].
  rewrite fold_world in E1. set (wt := calls _ ds _) in E1.
  unfold uv_run_turn. eapply gives_step; [apply update_time_run|]. fold l0. eapply gives_step; [exact E1|].
  assert (length (s_pend s) < fuel)%nat as Hpf by by apply (io_bounds uv__fs_event s io).
  destruct (run_pending_quiet fuel s l1 io wt Hio Hpq Hpf) as (b & m & Ep & Hio2). eapply gives_step; [exact Ep|].
  set (wp := pending_calls _ _ _) in *. set (io2 := with_io_queues m io) in *.
  assert (forall u, g_run g1 u = []) as Hr1 by (intros u; by rewrite R1).
  destruct (watchers_phase idle fuel g1 l1 io2 wp Hok1 Hr1) as (m3 & g3 & E3 & Hok3 & S3); [by rewrite M1|].
  eapply gives_step; [exact E3|].
  destruct (watchers_phase prepare fuel g3 _ io2 (calls (handles l1) (g_watch g1 idle) wp) Hok3) as (m4 & g4 & E4 & Hok4 & S4).
  { intros u. by rewrite (st_run _ _ S3). } { by rewrite (st_mem _ _ S3), M1. }
  eapply gives_step; [exact E4|]. clear E1 Ep E3 E4.
  pose proof (settled_trans _ _ _ S3 S4) as S34. set (l4 := with_queues m4 _) in *.
  assert (forall ps w0, (forall p, p ∈ ps -> p ∉ ds) -> calls (handles l1) ps w0 = calls (handles l) ps w0) as Hcx.
  { intros ps w0 Hps. apply calls_ext. intros p Hp'. by apply Hout, Hps. }
  set (w5 := calls (handles (with_queues m3 l1)) _ _).
  assert (w5 = before_poll l g s io ds w) as Ew5.
  { unfold w5, before_poll. change (handles (with_queues m3 l1)) with (handles l1).
    rewrite (st_watch _ _ S3), !W1, !Hcx by apply Hfw. done. }
  assert (inv g4 (with_pend [] s) (l4, (io2, w5))) as Hi4.
  { constructor; cbn; try done; [by rewrite (st_new _ _ S34), N1|].
    rewrite Ew5. unfold before_poll. do 2 apply calls_world. apply pending_world, calls_world.
    intros f k. rewrite Hcw. by apply Hw. }
  assert (length (s_wq s) < fuel)%nat as Hwf by by apply (io_bounds uv__fs_event s io).
  assert (one_wait note_io io2 0 r (snd (sys_hrtime w1))) as H1.
  { destruct r as [[|ev evs]|e]; try done. split; [by apply Hsm|by left]. }
  rewrite <- Ew5 in Hk.
  change (bool_decide (UV_RUN_NOWAIT = UV_RUN_ONCE)) with false.
  change (bool_decide (UV_RUN_NOWAIT = UV_RUN_DEFAULT)) with false. cbn [andb orb].
  eapply (gives_step _ (ret 0)); [reflexivity|].
  eapply gives_seq; [apply (io_poll_quiet interest call_io uv__fs_event note_io Hqio fuel g4 (with_pend [] s) l4 io2 w5 0 r w1 Hi4 Hp Hwf
    ltac:(lia) Hnf Hk H1)|].
  intros u σ6 (io6 & io7 & [-> ->] & _ & _ & He).
  set (w7 := answered note_io io2 r _). set (l7 := with_time _ l4).
  assert (loop_ok g4 l7) as Hok7 by by apply loop_ok_time.
  destruct (watchers_phase check fuel g4 l7 io7 w7 Hok7) as (m8 & g8 & E8 & Hok8 & S8).
  { intros u. by rewrite (st_run _ _ S34). } { by rewrite (st_mem _ _ S34), M1. }
  eapply gives_step; [exact E8|]. pose proof (settled_trans _ _ _ S34 S8) as S38.
  destruct (closing_phase fuel g8 _ io7 (calls (handles l7) (g_watch g4 check) w7) Hok8) as (l9 & E9).
  { by rewrite (st_finishing _ _ S38), F1. } { by rewrite (st_mem _ _ S38), M1. }
  eapply gives_step; [exact E9|]. apply gives_ret. split; [|done]. cbn [fst snd]. unfold after_poll.
  change (handles l7) with (handles l1). change (handles (with_queues m8 l7)) with (handles l1).
  rewrite (st_closing _ _ S38), C1, (st_watch _ _ S34), W1, Hcx by apply Hfw.
  apply close_ext. intros p Hpc. by apply Hout, Hfc.
Qed.

Lemma uv_run_nowait_quiet turns fuel g s l io w :
  inv g s (l, (io, w)) -> s_poll s = None -> s_pq s = [] -> (forall v, g_run g v = []) -> g_finishing g = [] ->
  repeats_ok l -> nfds io <> 0 -> enough (g_mem g) (s_mem s) fuel -> alive l = true -> stop_flag l = 0 ->
  exists ds, NoDup ds /\ (forall p, p ∈ ds <-> p ∈ g_timers g /\ timeout_of (handles l) p <= fst (sys_hrtime w) / 1000000) /\
  StronglySorted (no_later (handles l)) ds /\
  forall r w1,
    waited io 0 (foldl buffered ([], before_poll l g s io ds w) (wanted_all uv__fs_event io (s_wq s))) = (r, w1) ->
    (forall evs, r = KEvents evs -> zlen evs < array_size) ->
    gives False (uv_run call call_io uv__fs_event (S turns) fuel UV_RUN_NOWAIT) (l, (io, w))
      (fun b σ' => b = alive (fst σ') /\ snd (snd σ') = after_poll l g io r w1 /\ expected r).
Proof.
  intros Hi Hp Hpq Hr Hfin Hrep Hnf Hen Ha Hst.
  destruct (turn_nowait fuel g s l io w Hi Hp Hpq Hr Hfin Hrep Hnf Hen) as (ds & H1 & H2 & H3 & Hrun).
  exists ds. do 3 (split; [done|]). intros r w1 Hk Hsm. unfold uv_run.
  eapply (gives_loop _ _ (alive l)); [reflexivity|]. rewrite Ha. cbn [negb]. eapply (gives_step _ (ret tt)); [reflexivity|].
  eapply gives_seq with (R := fun b σ' => b = alive (fst σ') /\ snd (snd σ') = after_poll l g io r w1 /\ expected r).
  - cbn [uv_run_loop]. eapply gives_loop; [reflexivity|]. rewrite Hst. cbn [Z.eqb andb].
    eapply gives_seq; [exact (Hrun r w1 Hk Hsm)|]. intros _ (l' & io' & w') [Ew He].
    eapply (gives_loop _ _ (alive l')); [reflexivity|]. by apply gives_ret.
  - intros b (l' & io' & w') (-> & Ew & He). cbn [fst snd] in *. eapply gives_loop; [reflexivity|].
    destruct (stop_flag l' =? 0); cbn [negb].
    + eapply (gives_step _ (ret tt)); [reflexivity|]. by apply gives_ret.
    + eapply (gives_loop _ _ tt l' (with_stop 0 l')); [reflexivity|]. by apply gives_ret.
Qed.
End Turn.
