(* ===== verification/UvIoApi.v ===== *)
(** libuv, programs of calls on I/O watchers: the life cycle of a watcher as an
    automaton, the invariant over any program that follows it, and what such a
    program does to the events of a poll in progress.  A fresh loop, a sample
    allocator and a sample kernel. *)
From S2P Require Import Prelude.
From S2P Require Import UvQueue UvQueueProofs UvLoop UvLoopInv UvApi UvIo UvPoll UvLogic UvIoInv UvIoProofs UvIoOps UvIoLife UvPollProofs.
#[local] Set Warnings "-clear-no-such-hyp".

(** ** The calls *)
Inductive io_op : Set :=
| IoInit (w cb fd : Z)
| IoStart (w evs : Z)
| IoStop (w evs : Z)
| IoClose (w : Z)
| IoFeed (w : Z).

Definition run_io_op `{Realloc} (op : io_op) : IO unit :=
  match op with
  | IoInit w cb fd => uv__io_init w cb fd
  | IoStart w evs => uv__io_start w evs
  | IoStop w evs => uv__io_stop w evs
  | IoClose w => uv__io_close w
  | IoFeed w => uv__io_feed w
  end.

Fixpoint run_io_ops `{Realloc} (ops : list io_op) : IO unit :=
  match ops with
  | [] => ret tt
  | op :: ops => run_io_op op;;; run_io_ops ops
  end.

(** ** The life cycle *)
(** The descriptors of the watchers that are initialised and not closed, and
    whether the loop has had a start, which allocates its table. *)
Record io_status : Type := mk_io_status { st_fds : gmap Z Z; st_table : bool }.

#[export] Instance events_ok_dec evs : Decision (events_ok evs).
Proof. unfold events_ok. apply _. Defined.

Section Life.
Variables (mem : gset Z) (uv__fs_event : Z).

(** The next status; [None] for a call that the functions forbid: a watcher that
    was not initialised or was closed, a second watcher for a descriptor, events
    out of the mask, a start without a descriptor, a close in a loop without a
    table. *)
Definition io_life (st : io_status) (op : io_op) : option io_status :=
  match op with
  | IoInit w cb fd =>
      if bool_decide (w ∈ mem) && bool_decide (st_fds st !! w = None) &&
         bool_decide (cb <> 0 /\ cb <> uv__fs_event) && bool_decide (-1 <= fd < max_watchers) &&
         (bool_decide (fd = -1) || bool_decide (map_Forall (fun _ f => f <> fd) (st_fds st)))
      then Some (mk_io_status (<[w := fd]> (st_fds st)) (st_table st)) else None
  | IoStart w evs =>
      match st_fds st !! w with
      | Some fd => if bool_decide (0 <= fd) && bool_decide (events_ok evs)
                   then Some (mk_io_status (st_fds st) true) else None
      | None => None
      end
  | IoStop w evs =>
      match st_fds st !! w with
      | Some _ => if bool_decide (events_ok evs) then Some st else None
      | None => None
      end
  | IoClose w =>
      match st_fds st !! w with
      | Some fd => if bool_decide (fd = -1) || st_table st
                   then Some (mk_io_status (delete w (st_fds st)) (st_table st)) else None
      | None => None
      end
  | IoFeed w => match st_fds st !! w with Some _ => Some st | None => None end
  end.

Fixpoint io_lives (st : io_status) (ops : list io_op) : option io_status :=
  match ops with
  | [] => Some st
  | op :: ops => match io_life st op with Some st' => io_lives st' ops | None => None end
  end.

(** The status of the watchers of the loop. *)
Record io_tracks (s : io_shape) (io : io_loop) (st : io_status) : Prop := {
  tr_live : forall w, w ∈ s_live s <-> is_Some (st_fds st !! w);
  tr_fd : forall w f, st_fds st !! w = Some f -> fd <$> ios io !! w = Some f;
  tr_table : st_table st = true -> is_Some (watchers io);
  tr_mem : s_mem s = mem
}.

Lemma tracked s io st w f :
  io_tracks s io st -> st_fds st !! w = Some f -> w ∈ s_live s /\ exists x, ios io !! w = Some x /\ fd x = f.
Proof.
  intros Ht E. split; [apply (tr_live _ _ _ Ht); by exists f|]. pose proof (tr_fd _ _ _ Ht w f E) as Ef.
  destruct (ios io !! w) as [x|]; [|done]. exists x. split; [done|]. by injection Ef.
Qed.

(** A call that gives [v] the data [x'] with the same descriptor. *)
Lemma tracks_data s s' io io' st v x x' b :
  io_tracks s io st -> ios io !! v = Some x -> ios io' = <[v := x']> (ios io) -> fd x' = fd x ->
  s_live s' = s_live s -> s_mem s' = s_mem s -> (b = true -> is_Some (watchers io')) ->
  io_tracks s' io' (mk_io_status (st_fds st) b).
Proof.
  intros [T1 T2 T3 T4] Ex Eio Efd El Em Hb. constructor; cbn; try done; [by rewrite El| |congruence].
  intros w f Ew. specialize (T2 w f Ew). rewrite Eio. destruct (decide (w = v)) as [->|Hne].
  - rewrite lookup_insert_eq. rewrite Ex in T2. cbn in *. congruence.
  - by rewrite lookup_insert_ne.
Qed.

(** ** A call keeps the invariant *)
(** The events of a poll in progress after a call, or more: each is as before or
    void, void where the descriptor was closed. *)
Definition events_after (closed : Z -> Prop) (io io' : io_loop) : Prop :=
  forall i ev, at_index (poll_array io) i = Some ev -> exists ev', at_index (poll_array io') i = Some ev' /\
  (s32 (ident ev') = -1 \/ ev' = ev /\ ~ closed (s32 (ident ev))).

(** The descriptor that a call closes. *)
Definition closes (st : io_status) (op : io_op) (d : Z) : Prop :=
  match op with IoClose w => st_fds st !! w = Some d | _ => False end.

Definition io_op_keeps `{Realloc} (s : io_shape) (io : io_loop) (st st' : io_status) (op : io_op) : Prop :=
  gives False (run_io_op op) io (fun _ io' => exists s', io_ok uv__fs_event s' io' /\ io_tracks s' io' st' /\
    s_poll s' = s_poll s /\ (s_poll s <> None -> events_after (closes st op) io io')).

Lemma events_same (closed : Z -> Prop) io io' :
  (forall d, closed d -> d = -1) -> poll_array io' = poll_array io -> events_after closed io io'.
Proof.
  intros Hn E i ev Hev. exists ev. rewrite E. split; [done|]. destruct (decide (s32 (ident ev) = -1)) as [|Hne]; [by left|].
  right. split; [done|]. intros Hc. by apply Hne, Hn.
Qed.

Lemma at_index_map {A} (f : A -> A) l i x : at_index l i = Some x -> at_index (map f l) i = Some (f x).
Proof. unfold at_index. destruct (i <? 0); [done|]. intros E. by rewrite list_lookup_fmap, E. Qed.

Lemma events_voided f io io' :
  poll_array io' = map (void_event f) (poll_array io) -> events_after (fun d => d = f) io io'.
Proof.
  intros E i ev Hev. exists (void_event f ev). rewrite E. split; [by apply at_index_map|].
  unfold void_event. destruct (Z.eqb_spec (s32 (ident ev)) f) as [|Hne]; [by left|by right].
Qed.

Lemma if_true {A} (b : bool) (x y : A) : (if b then Some x else None) = Some y -> b = true /\ x = y.
Proof. destruct b; [by intros [= ->]|done]. Qed.

Lemma io_init_keeps `{Realloc} s io st st' w cb fd' :
  io_ok uv__fs_event s io -> io_tracks s io st -> io_life st (IoInit w cb fd') = Some st' ->
  io_op_keeps s io st st' (IoInit w cb fd').
Proof.
  intros Hok Ht El. cbn in El. apply if_true in El as [Hb <-]. rewrite !andb_true_iff, orb_true_iff, !bool_decide_eq_true in Hb.
  destruct Hb as [[[[Hm Hn] [Hcb Hfs]] Hfd] Hfree].
  assert (w ∉ s_live s) as Hl by (rewrite (tr_live _ _ _ Ht), Hn; by intros []).
  destruct (io_init_spec uv__fs_event s io w cb fd') as (m & E & Hok'); try done.
  { by rewrite (tr_mem _ _ _ Ht). }
  { intros v y Hv Ey Ef. destruct Hfree as [|Hf]; [done|]. exfalso. apply (tr_live _ _ _ Ht) in Hv as [f Hv].
    apply (Hf v f Hv). pose proof (tr_fd _ _ _ Ht v f Hv) as Eq. rewrite Ey in Eq. cbn in Eq. congruence. }
  eapply gives_done; [exact E|]. exists (opened_shape w s). split; [exact Hok'|]. split; [|split; [done|by intros _; apply events_same]].
  destruct Ht as [T1 T2 T3 T4]. constructor; cbn; try done.
  - intros v. rewrite elem_of_union, elem_of_singleton, T1, lookup_insert_is_Some'. naive_solver.
  - intros v f. destruct (decide (v = w)) as [->|Hne]; [rewrite !lookup_insert_eq; by intros [= <-]|].
    rewrite !lookup_insert_ne by done. apply T2.
Qed.

Lemma io_start_keeps `{ReallocLaws} s io st st' w evs :
  io_ok uv__fs_event s io -> io_tracks s io st -> io_life st (IoStart w evs) = Some st' ->
  io_op_keeps s io st st' (IoStart w evs).
Proof.
  intros Hok Ht El. cbn in El. destruct (st_fds st !! w) as [f|] eqn:Ef; [|done].
  apply if_true in El as [[Hf Hev]%andb_true_iff <-]. apply bool_decide_eq_true in Hf, Hev.
  destruct (tracked _ _ _ _ _ Ht Ef) as (Hl & x & Ex & <-).
  eapply gives_mono; [exact (io_start_spec uv__fs_event s io w x evs Hok Hl Ex Hf Hev)|].
  intros _ io' (Hok' & _ & _ & Eio & Ea & Tw & _).
  match type of Hok' with UvIoInv.io_ok _ ?t _ => set (s' := t) in * end.
  assert (s_live s' = s_live s /\ s_mem s' = s_mem s /\ s_poll s' = s_poll s) as (E1 & E2 & E3).
  { unfold s'. destruct (events x =? _); [done|]. by destruct (enqueued_live w s) as (? & ? & ? & ? & ?). }
  exists s'. split; [done|]. split; [|split; [done|by intros _; apply events_same]].
  eapply tracks_data; try done. intros _. unfold tab in Tw. by destruct (watchers io').
Qed.

Lemma io_stop_keeps `{Realloc} s io st st' w evs :
  io_ok uv__fs_event s io -> io_tracks s io st -> io_life st (IoStop w evs) = Some st' ->
  io_op_keeps s io st st' (IoStop w evs).
Proof.
  intros Hok Ht El. cbn in El. destruct (st_fds st !! w) as [f|] eqn:Ef; [|done].
  apply if_true in El as [Hev%bool_decide_eq_true <-].
  destruct (tracked _ _ _ _ _ Ht Ef) as (Hl & x & Ex & _).
  destruct (io_stop_spec uv__fs_event s io w x evs Hok Hl Ex Hev) as (io' & E & Hok' & _ & _ & Ew & Eio & Ea & _).
  match type of Hok' with UvIoInv.io_ok _ ?t _ => set (s' := t) in Hok' end.
  assert (s_live s' = s_live s /\ s_mem s' = s_mem s /\ s_poll s' = s_poll s) as (E1 & E2 & E3).
  { unfold s'. destruct (_ =? 0); [done|]. by destruct (enqueued_live w s) as (? & ? & ? & ? & ?). }
  eapply gives_done; [exact E|]. exists s'. split; [done|]. split; [|split; [done|by intros _; apply events_same]].
  assert (io_tracks s' io' (mk_io_status (st_fds st) (st_table st))) as Ht'; [|by destruct st].
  apply (tracks_data s s' io io' st w x (stopped evs x)); try done. intros Hb. pose proof (tr_table _ _ _ Ht Hb) as Hw.
  destruct (watchers io'); [done|]. rewrite (proj1 Ew eq_refl) in Hw. by destruct Hw.
Qed.

Lemma io_close_keeps `{Realloc} s io st st' w :
  io_ok uv__fs_event s io -> io_tracks s io st -> io_life st (IoClose w) = Some st' ->
  io_op_keeps s io st st' (IoClose w).
Proof.
  intros Hok Ht El. cbn in El. destruct (st_fds st !! w) as [f|] eqn:Ef; [|done].
  apply if_true in El as [Hb <-]. rewrite orb_true_iff, bool_decide_eq_true in Hb.
  destruct (tracked _ _ _ _ _ Ht Ef) as (Hl & x & Ex & <-).
  assert (fd x = -1 \/ is_Some (watchers io)) as Hfd by (destruct Hb; [by left|right; by apply (tr_table _ _ _ Ht)]).
  destruct (io_close_spec uv__fs_event s io w x Hok Hl Ex Hfd) as (io' & E & Hok' & En & _ & Ew & Eio & Ea & _).
  eapply gives_done; [exact E|]. exists (closed_shape w s). split; [done|]. split; [|split; [done|]].
  - destruct Ht as [T1 T2 T3 T4]. constructor; cbn; try done.
    + intros v. rewrite elem_of_difference, elem_of_singleton, T1, lookup_delete_is_Some. naive_solver.
    + intros v f [Hne Ev]%lookup_delete_Some. by rewrite Eio, lookup_insert_ne, (T2 v f).
    + intros Hs%T3. destruct (watchers io'); [done|]. rewrite (proj1 Ew eq_refl) in Hs. by destruct Hs.
  - intros Hp. specialize (Ea Hp). destruct (Z.eqb_spec (fd x) (-1)) as [Hm|Hm].
    + apply events_same; [|done]. cbn. rewrite Ef. intros d [= <-]. done.
    + pose proof (events_voided _ _ _ Ea) as Hv. intros i ev Hev. destruct (Hv i ev Hev) as (ev' & Ev' & [Hvoid|[-> Hd]]);
      [by exists ev'; split; [|left]|]. exists ev. split; [done|]. right. split; [done|]. cbn. rewrite Ef. intros [= Hd']. by apply Hd.
Qed.

Lemma io_feed_keeps `{Realloc} s io st st' w :
  io_ok uv__fs_event s io -> io_tracks s io st -> io_life st (IoFeed w) = Some st' ->
  io_op_keeps s io st st' (IoFeed w).
Proof.
  intros Hok Ht El. cbn in El. destruct (st_fds st !! w) as [f|] eqn:Ef; [|done]. injection El as <-.
  destruct (tracked _ _ _ _ _ Ht Ef) as (Hl & _). destruct (io_feed_spec uv__fs_event s io w Hok Hl) as (m & E & Hok').
  eapply gives_done; [exact E|]. eexists. split; [exact Hok'|].
  match type of Hok' with UvIoInv.io_ok _ ?t _ => set (s' := t) end. assert (s_live s' = s_live s /\ s_mem s' = s_mem s /\ s_poll s' = s_poll s) as (E1 & E2 & E3)
    by (unfold s'; by case_bool_decide).
  split; [|split; [done|by intros _; apply events_same]]. destruct Ht as [T1 T2 T3 T4]. constructor; try done; [by rewrite E1|congruence].
Qed.

Lemma run_io_op_keeps `{ReallocLaws} s io st st' op :
  io_ok uv__fs_event s io -> io_tracks s io st -> io_life st op = Some st' -> io_op_keeps s io st st' op.
Proof.
  intros Hok Ht El. destruct op; [by apply io_init_keeps|by apply io_start_keeps|by apply io_stop_keeps|by apply io_close_keeps|by apply io_feed_keeps].
Qed.

(** The descriptors that a program closes. *)
Fixpoint closes_all (st : io_status) (ops : list io_op) (d : Z) : Prop :=
  match ops with
  | [] => False
  | op :: ops => closes st op d \/ match io_life st op with Some st' => closes_all st' ops d | None => False end
  end.

Lemma run_io_ops_keeps `{ReallocLaws} ops s io st st' :
  io_ok uv__fs_event s io -> io_tracks s io st -> io_lives st ops = Some st' ->
  gives False (run_io_ops ops) io (fun _ io' => exists s', io_ok uv__fs_event s' io' /\ io_tracks s' io' st' /\
    s_poll s' = s_poll s /\ (s_poll s <> None -> events_after (closes_all st ops) io io')).
Proof.
  revert s io st. induction ops as [|op ops IH]; intros s io st Hok Ht El.
  { injection El as <-. apply gives_ret. exists s. do 3 (split; [done|]). intros _. by apply events_same. }
  cbn in El. destruct (io_life st op) as [st1|] eqn:E1; [|done]. cbn [run_io_ops].
  eapply gives_seq; [exact (run_io_op_keeps s io st st1 op Hok Ht E1)|]. intros _ io1 (s1 & Hok1 & Ht1 & Ep1 & Ev1).
  eapply gives_mono; [exact (IH s1 io1 st1 Hok1 Ht1 El)|]. intros _ io2 (s2 & Hok2 & Ht2 & Ep2 & Ev2).
  exists s2. split; [done|]. split; [done|].
  split; [congruence|]. intros Hp i ev Hev. destruct (Ev1 Hp i ev Hev) as (ev1 & E1' & H1).
  destruct (Ev2 ltac:(congruence) i ev1 E1') as (ev2 & E2' & H2). exists ev2. split; [done|]. cbn. rewrite E1.
  destruct H1 as [Hv|[-> Hc1]], H2 as [Hv2|[-> Hc2]]; [by left..|by left|right]. split; [done|]. tauto.
Qed.
End Life.

(** * A fresh loop, a sample allocator and a sample kernel *)
#[local] Set Warnings "-clear-no-such-hyp".

(** ** A fresh loop, with memory at [ws] for the watchers *)
Definition io_nodes (ws : list Z) : list ioptr :=
  [watcher_queue; pending_queue; local_pq] ++ map w_node ws ++ map p_node ws.

Definition fresh_io (signal_watcher : Z) (ws : list Z) : io_loop :=
  mk_io_loop None 0 0 (foldr (fun q m => <[q := mk_qnode q q]> m) ∅ (io_nodes ws))
    (foldr (fun w m => <[w := mk_io 0 0 0 0 0 0]> m) ∅ ws) [] signal_watcher 0.

Definition fresh_io_shape (ws : list Z) : io_shape := mk_io_shape (list_to_set ws) ∅ [] [] [] None.
Definition fresh_io_status : io_status := mk_io_status ∅ false.

Lemma fresh_links sg ws q : q ∈ io_nodes ws -> io_queues (fresh_io sg ws) !! q = Some (mk_qnode q q).
Proof. apply (foldr_insert_lookup (fun q => mk_qnode q q)). Qed.

Lemma fresh_io_ok fs sg ws : 0 ∉ ws -> io_ok fs (fresh_io_shape ws) (fresh_io sg ws).
Proof.
  intros H0. constructor; try done.
  - constructor; try done; cbn. by intros [].
  - exists {[watcher_queue := []; pending_queue := []; local_pq := []]}. split.
    + assert (forall h l, ({[watcher_queue := []; pending_queue := []; local_pq := []]} : gmap ioptr (list ioptr)) !! h = Some l ->
        l = [] /\ h ∈ io_nodes ws) as Hn.
      { unfold io_nodes. intros [] l Hl; simplify_map_eq; (split; [done|]); set_solver. }
      constructor.
      * intros h l [-> Hh]%Hn. pose proof (fresh_links sg ws h Hh) as E. apply queue_nil; unfold nxt, prv; by rewrite E.
      * intros h l h' l' x [-> _]%Hn [-> _]%Hn. rewrite !list_elem_of_singleton. congruence.
    + intros []; try done; cbn; rewrite bool_decide_false by set_solver; done.
  - cbn. by intros w ?%elem_of_nil.
  - cbn. intros w Hw%elem_of_list_to_set. split; [by intros ->|]. split; [|split].
    + eexists. by apply (foldr_insert_lookup (fun _ => mk_io 0 0 0 0 0 0)).
    + unfold nxt. rewrite (fresh_links sg ws); [done|]. unfold io_nodes. rewrite !elem_of_app. right. left. by apply list_elem_of_fmap_2.
    + unfold nxt. rewrite (fresh_links sg ws); [done|]. unfold io_nodes. rewrite !elem_of_app. right. right. by apply list_elem_of_fmap_2.
Qed.

Lemma fresh_io_tracks sg ws : io_tracks (list_to_set ws) (fresh_io_shape ws) (fresh_io sg ws) fresh_io_status.
Proof. constructor; try done. intros w. cbn. rewrite lookup_empty. split; [set_solver|by intros []]. Qed.

(** ** Reading a queue *)
(** The first nodes of a queue, by its links. *)
Fixpoint follow `{Countable K} (n : nat) (m : gmap K (qnode K)) (h x : K) : list K :=
  match n with
  | O => []
  | S n => match nxt m x with Some y => if decide (y = h) then [] else y :: follow n m h y | None => [] end
  end.

Lemma follow_chain `{Countable K} n (m : gmap K (qnode K)) h x l :
  chain m (x :: l ++ [h]) -> h ∉ l -> follow n m h x = take n l.
Proof.
  revert x l. induction n as [|n IH]; intros x l Hc Hn; [done|]. cbn [follow]. destruct l as [|y l].
  - destruct Hc as [[-> _] _]. by rewrite decide_True.
  - destruct Hc as [[-> _] Hc]. apply not_elem_of_cons in Hn as [Hy Hn]. rewrite decide_False by done. cbn. by rewrite (IH y l).
Qed.

Lemma follow_queue `{Countable K} n (m : gmap K (qnode K)) h l k :
  queue m h l -> follow n m h h = k -> (length k < n)%nat -> l = k.
Proof.
  intros [Hd Hc] Ef Hk. apply NoDup_cons in Hd as [Hn _]. rewrite (follow_chain n m h h l Hc Hn) in Ef. subst k.
  rewrite length_take in Hk. rewrite take_ge; [done|lia].
Qed.

#[export] Instance w_node_inj : Inj (=) (=) w_node.
Proof. by intros ?? [=]. Qed.
#[export] Instance p_node_inj : Inj (=) (=) p_node.
Proof. by intros ?? [=]. Qed.

(** The list of a queue of the loop, by the links. *)
Lemma queue_read fs s io h (f : Z -> ioptr) `{!Inj (=) (=) f} l vs :
  io_ok fs s io -> qof s h = Some (f <$> l) -> follow (S (length vs)) (io_queues io) h h = map f vs -> l = vs.
Proof.
  intros Hok Hh Ef. destruct (io_links _ _ _ Hok) as (Q & Hw & HQ). rewrite <- HQ in Hh.
  pose proof (follow_queue _ _ _ _ _ (qs_queue _ _ Hw _ _ Hh) Ef ltac:(rewrite length_map; lia)) as E.
  exact (inj (fmap f) _ _ E).
Qed.

(** ** The allocator *)
(** An array of the size asked for, the old elements first. *)
#[export] Instance sample_realloc : Realloc := fun old n =>
  if 0 <? n then Some (take (Z.to_nat n) old ++ replicate (Z.to_nat n - length old) 0) else None.

#[export] Instance sample_realloc_laws : ReallocLaws.
Proof.
  constructor; unfold realloc, sample_realloc.
  - intros old n new. destruct (Z.ltb_spec 0 n); [|done]. intros [= <-].
    unfold zlen. rewrite length_app, length_take, length_replicate. lia.
  - intros old n new i. destruct (Z.ltb_spec 0 n); [|done]. intros [= <-] Hi Hin.
    rewrite lookup_app_l by (rewrite length_take; lia). by rewrite lookup_take_lt by lia.
Qed.

(** ** The kernel *)
(** What happened: the changes of a [kevent], and the calls of callbacks. *)
Inductive note : Type :=
| NKevent (chs : list kev)
| NCall (f v revents : Z).

Record kernel : Type := mk_kernel {
  k_reg : list (Z * Z);             (* identifiers and filters *)
  k_script : list kevent_result;    (* the answers to come *)
  k_times : list Z;                 (* the times to come *)
  k_log : list note
}.

Definition knote (ev : kev) : Z * Z := (ident ev, kfilter ev).

Definition apply_change (reg : list (Z * Z)) (c : kev) : list (Z * Z) :=
  if has_bit (kflags c) EV_ADD then knote c :: reg
  else filter (fun k => k <> knote c) reg.

Definition logged (n : note) (k : kernel) : kernel :=
  mk_kernel (k_reg k) (k_script k) (k_times k) (k_log k ++ [n]).

Definition EINVAL : Z := 22.

(** The answer to a wait: a time out, or a signal when there is no timeout. *)
Definition nothing (t : option (Z * Z)) : kevent_result := match t with Some _ => KEvents [] | None => KError EINTR end.

Definition kernel_kevent (chs : list kev) (room : Z) (t : option (Z * Z)) (k : kernel) : kevent_result * kernel :=
  let reg := foldl apply_change (k_reg k) chs in
  if room <? 0 then (KError EINVAL, k)
  else if room =? 0 then (KEvents [], mk_kernel reg (k_script k) (k_times k) (k_log k ++ [NKevent chs]))
  else
    (match k_script k with
     | KEvents evs :: _ =>
         match take (Z.to_nat room) (filter (fun ev => knote ev ∈ reg) evs) with
         | [] => nothing t
         | evs => KEvents evs
         end
     | KError e :: _ => KError e
     | [] => nothing t
     end, mk_kernel reg (tail (k_script k)) (k_times k) (k_log k ++ [NKevent chs])).

#[export] Instance kernel_system : System kernel := {|
  sys_kevent := kernel_kevent;
  sys_hrtime k := (u64 (hd 0 (k_times k)), mk_kernel (k_reg k) (k_script k) (tail (k_times k)) (k_log k));
  sys_sigmask _ k := k
|}.

Definition kernel_interest (k : kernel) (f filter : Z) : Prop := (f, filter) ∈ k_reg k.

Lemma apply_changes_in chs reg n :
  n ∈ foldl apply_change reg chs -> n ∈ reg \/ exists c, c ∈ chs /\ has_bit (kflags c) EV_ADD = true /\ knote c = n.
Proof.
  revert reg. induction chs as [|c chs IH]; intros reg Hn; [by left|]. cbn in Hn.
  destruct (IH _ Hn) as [Hin|(c' & Hc' & ?)]; [|right; exists c'; split; [by right|done]].
  unfold apply_change in Hin. destruct (has_bit (kflags c) EV_ADD) eqn:Ha.
  - apply elem_of_cons in Hin as [->|Hin]; [|by left]. right. exists c. split; [by left|done].
  - apply list_elem_of_filter in Hin as [_ Hin]. by left.
Qed.

#[export] Instance kernel_laws : KernelLaws kernel_interest.
Proof.
  constructor.
  - intros chs room t w f k. cbn. unfold kernel_kevent, kernel_interest. intros Hi.
    destruct (room <? 0); [by left|].
    assert ((f, k) ∈ foldl apply_change (k_reg w) chs) as Hin by by destruct (room =? 0).
    destruct (apply_changes_in _ _ _ Hin) as [|(c & Hc & Ha & [= <- <-])]; [by left|right; by exists c].
  - intros chs room t w evs. cbn. unfold kernel_kevent. destruct (Z.ltb_spec room 0) as [Hr|Hr]; [done|].
    destruct (Z.eqb_spec room 0) as [->|Hne]; cbn.
    { intros [= <-]. split; [done|]. split; [done|]. by intros ev ?%elem_of_nil. }
    assert (nothing t = KEvents evs -> zlen evs <= room /\ (0 < room -> evs = [] -> t <> None) /\ forall ev, ev ∈ evs ->
      kernel_interest w (ident ev) (kfilter ev) \/ exists c, c ∈ chs /\ ident c = ident ev /\ kfilter c = kfilter ev) as Hno.
    { unfold nothing. destruct t; [|done]. intros [= <-]. split; [by cbn|]. split; [done|]. by intros ev ?%elem_of_nil. }
    destruct (k_script w) as [|[evs0|e] sc]; [exact Hno| |done].
    destruct (take _ _) as [|ev0 rest] eqn:Et; [exact Hno|]. intros [= <-]. split; [|split; [done|]].
    + rewrite <- Et. unfold zlen. rewrite length_take. lia.
    + intros ev Hev. rewrite <- Et in Hev. apply elem_of_take in Hev as (i & Hev & _). apply list_elem_of_lookup_2, list_elem_of_filter in Hev as [Hin _].
      destruct (apply_changes_in _ _ _ Hin) as [|(c & Hc & Ha & [= ? ?])]; [by left|right; by exists c].
  - intros w. split; [apply Z.mod_pos_bound; lia|done].
  - done.
Qed.
