(* ===== verification/UvMainTheorems.v ===== *)
(** libuv, the properties of the I/O watchers, of the poll phase and of [uv_run],
    each with a witness on a concrete loop and a concrete kernel. *)
From S2P Require Import Prelude.
From S2P Require Import UvQueue.
From S2P Require Import UvQueueProofs.
From S2P Require Import UvLoop.
From S2P Require Import UvTimer.
From S2P Require Import UvRun.
From S2P Require Import UvLoopInv.
From S2P Require Import UvLoopOps.
From S2P Require Import UvRunProofs.
From S2P Require Import UvApi.
From S2P Require Import UvTheorems.
From S2P Require Import UvIo.
From S2P Require Import UvPoll.
From S2P Require Import UvLogic.
From S2P Require Import UvIoInv.
From S2P Require Import UvIoProofs.
From S2P Require Import UvIoOps.
From S2P Require Import UvIoLife.
From S2P Require Import UvPollProofs.
From S2P Require Import UvPollDispatch.
From S2P Require Import UvPollQuiet.
From S2P Require Import UvMainProofs.
From S2P Require Import UvIoApi.
From Stdlib Require Import Sorting.Sorted.
#[local] Set Warnings "-clear-no-such-hyp".

(** ** The sample: three watchers, one of them the signal watcher *)
Definition io_mem_sample : list Z := [100; 200; 300].

Lemma io_mem_sample_nonzero : 0 ∉ io_mem_sample.
Proof. by apply (bool_decide_eq_true_1 _). Qed.

Definition io_ops_sample : list io_op :=
  [IoInit 100 51 5; IoInit 200 52 6; IoInit 300 53 3;
   IoStart 100 POLLIN; IoStart 200 (Z.lor POLLIN POLLOUT); IoStart 300 POLLIN].

Definition io_sample : io_loop :=
  match run_io_ops io_ops_sample (fresh_io 300 io_mem_sample) with Done _ io => io | _ => fresh_io 300 io_mem_sample end.

Definition io_status_sample : io_status := mk_io_status {[100 := 5; 200 := 6; 300 := 3]} true.

Definition fs_sample : Z := 99.

Lemma io_sample_ok : exists s, io_ok fs_sample s io_sample /\ io_tracks (list_to_set io_mem_sample) s io_sample io_status_sample /\
  s_poll s = None.
Proof.
  assert (match run_io_ops io_ops_sample (fresh_io 300 io_mem_sample) with Done _ _ => true | _ => false end = true) as Ed by (by vm_compute).
  pose proof (run_io_ops_keeps (list_to_set io_mem_sample) fs_sample io_ops_sample (fresh_io_shape io_mem_sample)
    (fresh_io 300 io_mem_sample) fresh_io_status io_status_sample
    (fresh_io_ok _ _ _ io_mem_sample_nonzero) (fresh_io_tracks _ _) ltac:(by vm_compute)) as Hk.
  unfold gives in Hk. unfold io_sample. destruct (run_io_ops _ _) as [[] io| | |]; [|discriminate Ed..].
  destruct Hk as (s & Hok & Ht & Hp & _). exists s. split; [exact Hok|]. split; [exact Ht|exact Hp].
Qed.

(** ** Programs *)
(** C16: any program of calls of [uv__io_init], [uv__io_start], [uv__io_stop],
    [uv__io_close] and [uv__io_feed] that follows the life cycle of the watchers,
    from a fresh loop, has no undefined behaviour and no failed assert; it calls
    [abort()] only when a started watcher has no room in the table and [realloc]
    gives no longer one.  Else the loop ends in its invariant, in which
    [watchers[fd]] is the watcher with that descriptor that wants events, [nfds]
    counts them, and a watcher that wants what the kernel does not know is queued
    for registration. *)
Theorem io_programs_keep_invariant `{ReallocLaws} fs sg ws ops st :
  0 ∉ ws -> io_lives (list_to_set ws) fs fresh_io_status ops = Some st ->
  match run_io_ops ops (fresh_io sg ws) with
  | Done _ io => exists s, io_ok fs s io /\ io_tracks (list_to_set ws) s io st /\
      (forall w f, st_fds st !! w = Some f -> exists x, ios io !! w = Some x /\ fd x = f /\
         (pevents x <> 0 -> tab io f = Some w) /\ (events x <> pevents x -> w ∈ s_wq s)) /\
      (forall i w, 0 <= i < nwatchers io -> tab io i = Some w -> w <> 0 -> st_fds st !! w = Some i)
  | Fail io => no_room io
  | _ => False
  end.
Proof.
  intros Hz El. pose proof (run_io_ops_keeps (list_to_set ws) fs ops (fresh_io_shape ws) (fresh_io sg ws) fresh_io_status st
    (fresh_io_ok _ _ _ Hz) (fresh_io_tracks _ _) El) as Hk.
  unfold gives in Hk. destruct (run_io_ops _ _) as [[] io| | |]; try done. destruct Hk as (s & Hok & Ht & _).
  exists s. split; [done|]. split; [done|]. split.
  - intros w f Ef. destruct (tracked _ _ _ _ _ _ Ht Ef) as (Hl & x & Ex & <-). exists x. split; [done|]. split; [done|].
    destruct (io_live _ _ _ Hok w Hl) as (y & Ey & [_ _ _ W4 _ W6]). assert (y = x) as -> by congruence.
    split; [|done]. intros Hp. by apply W4.
  - intros i w Hi Hw Hne. destruct (t_entry _ _ (io_table _ _ _ Hok) i w Hi Hw Hne) as [Hl (x & Ex & <- & _)].
    apply (tr_live _ _ _ _ Ht) in Hl as [f Ef]. destruct (tracked _ _ _ _ _ _ Ht Ef) as (_ & y & Ey & <-). congruence.
Qed.

Lemma io_programs_keep_invariant_witness :
  exists io, run_io_ops (io_ops_sample ++ [IoStop 200 POLLIN; IoFeed 200; IoClose 100; IoInit 100 54 5; IoStart 100 POLLOUT])
    (fresh_io 300 io_mem_sample) = Done tt io /\ tab io 5 = Some 100 /\ nfds io = 3.
Proof.
  set (ops := io_ops_sample ++ _).
  assert (match run_io_ops ops (fresh_io 300 io_mem_sample) with Done _ io => (tab io 5, nfds io) | _ => (None, 0) end =
    (Some 100, 3)) as Ev by (by vm_compute).
  pose proof (io_programs_keep_invariant fs_sample 300 io_mem_sample ops io_status_sample
    io_mem_sample_nonzero ltac:(by vm_compute)) as Hth.
  destruct (run_io_ops ops _) as [[] io| | |]; [|discriminate Ev..]. destruct Hth as (s & _).
  exists io. split; [reflexivity|]. injection Ev as E1 E2. split; [exact E1|exact E2].
Defined.

(** ** Events of closed descriptors *)
(** C15: when a watcher is closed while the events of a poll are being delivered,
    the events of its descriptor that are still to come are dropped: whatever
    calls follow, a new watcher for the same descriptor included, the loop over
    the events passes over them without a call and without a change.  (The calls
    abort only when the table has no room and [realloc] gives no longer one.) *)
Theorem closed_descriptor_unheard {W} `{System W} `{ReallocLaws} fs mem s io st st' v ops (call_io : Z -> Z -> Z -> @P W unit) f i ev :
  io_ok fs s io -> io_tracks mem s io st -> s_poll s <> None ->
  io_lives mem fs st (IoClose v :: ops) = Some st' -> st_fds st !! v = Some f ->
  at_index (poll_array io) i = Some ev -> s32 (ident ev) = f ->
  match run_io_ops (IoClose v :: ops) io with
  | Done _ io' => forall l w n, dispatch_one call_io i n (l, (io', w)) = Done n (l, (io', w))
  | Fail io' => no_room io'
  | _ => False
  end.
Proof.
  intros Hok Ht Hp El Ef Hev Hi.
  pose proof (run_io_ops_keeps mem fs (IoClose v :: ops) s io st st' Hok Ht El) as Hk.
  unfold gives in Hk. destruct (run_io_ops _ _) as [[] io'| | |]; try done. destruct Hk as (s' & _ & _ & _ & Ha).
  intros l w n. destruct (Ha Hp i ev Hev) as (ev' & Ev' & [Hv|[-> Hn]]).
  - unfold dispatch_one. destruct n as [hs ne]. rewrite (bind_on_io _ (poll_array io') l io' io') by done.
    rewrite Ev'. cbn [of_option]. rewrite (bind_done (ret ev') _ _ ev' (l, (io', w))) by done. by rewrite Hv.
  - exfalso. apply Hn. left. cbn. by rewrite Ef, Hi.
Qed.

(** The events of a poll in progress, the second for the descriptor 5. *)
Definition event_of (fd filter : Z) : kev := mk_kev fd filter 0 0 1.

Definition polling_sample : io_loop :=
  fakes_of (Some 2) (with_poll_array [event_of 6 EVFILT_READ; event_of 5 EVFILT_READ] io_sample).

Lemma events_sample_ok io : nwatchers io = 14 -> Forall (event_ok io) [event_of 6 EVFILT_READ; event_of 5 EVFILT_READ].
Proof. intros E. repeat (apply Forall_cons; split; [right; by rewrite E|]). by apply Forall_nil. Qed.

Lemma polling_sample_ok : exists s, io_ok fs_sample s polling_sample /\
  io_tracks (list_to_set io_mem_sample) s polling_sample io_status_sample /\ s_poll s = Some 2.
Proof.
  destruct io_sample_ok as (s & Hok & [T1 T2 T3 T4] & Hp). assert (nwatchers io_sample = 14) as En by (by vm_compute).
  assert (is_Some (watchers io_sample)) as Hw by (vm_compute; by eexists).
  exists (with_poll (Some 2) s). unfold polling_sample. revert Hok T2 En Hw. generalize io_sample. intros io Hok T2 En Hw. split; [|split; [|done]].
  - apply fakes_ok; [by apply io_ok_array|done|]. intros n [= <-]. split; [done|]. by apply events_sample_ok.
  - constructor; [exact T1|exact T2| |exact T4]. intros _. unfold fakes_of, put_tab. cbn. destruct Hw as [ws ->]. by eexists.
Qed.

(** A callback that only notes its call. *)
Definition note_io (f v revents : Z) (k : kernel) : kernel := logged (NCall f v revents) k.
Definition quiet_io_call (f v revents : Z) : @P kernel unit := on_world (fun k => (tt, note_io f v revents k)).

Lemma closed_descriptor_unheard_witness :
  exists io', run_io_ops [IoClose 100; IoClose 200; IoInit 200 55 5; IoStart 200 POLLIN] polling_sample = Done tt io' /\
  tab io' 5 = Some 200 /\
  dispatch_one quiet_io_call 1 (false, 0) (sample, (io', mk_kernel [] [] [] [])) =
    Done (false, 0) (sample, (io', mk_kernel [] [] [] [])).
Proof.
  set (ops := [IoClose 200; IoInit 200 55 5; IoStart 200 POLLIN]).
  assert (match run_io_ops (IoClose 100 :: ops) polling_sample with Done _ io => tab io 5 | _ => None end = Some 200) as Et
    by (by vm_compute).
  assert (io_lives (list_to_set io_mem_sample) fs_sample io_status_sample (IoClose 100 :: ops) =
    Some (mk_io_status {[200 := 5; 300 := 3]} true)) as El by (by vm_compute).
  assert (at_index (poll_array polling_sample) 1 = Some (event_of 5 EVFILT_READ)) as Ea by (by vm_compute).
  assert (st_fds io_status_sample !! 100 = Some 5) as Ef by (by vm_compute).
  destruct polling_sample_ok as (s & Hok & Ht & Hp).
  revert Et Ea Hok Ht. generalize polling_sample as io. generalize sample as l. clearbody ops. intros l io Et Ea Hok Ht.
  pose proof (closed_descriptor_unheard fs_sample (list_to_set io_mem_sample) s io io_status_sample _ 100 ops quiet_io_call 5 1
    (event_of 5 EVFILT_READ) Hok Ht ltac:(by rewrite Hp) El Ef Ea eq_refl) as Hd.
  destruct (run_io_ops _ io) as [[] io'| | |]; [|discriminate Et..].
  exists io'. split; [reflexivity|]. split; [exact Et|]. apply Hd.
Defined.

(** ** Polls *)
Definition kernel_sample (script : list kevent_result) (times : list Z) : kernel := mk_kernel [] script times [].

(** Timers, handles and watchers, at rest. *)
Lemma state_sample_ok k : k_reg k = [] -> exists g s, inv kernel_interest fs_sample g s (sample, (io_sample, k)) /\
  s_poll s = None /\ s_pq s = [] /\ s_mem s = list_to_set io_mem_sample /\ g_mem g = sample_mem /\
  (forall w, g_run g w = []) /\ g_finishing g = [] /\ s_wq s = [100; 200; 300] /\ s_pend s = [].
Proof.
  intros Hk. destruct sample_ok as (g & Hok & Hn & _ & Hf & Hr & Em & _). destruct io_sample_ok as (s & Hio & Ht & Hp).
  assert (follow 4 (io_queues io_sample) watcher_queue watcher_queue = map w_node [100; 200; 300]) as E1 by (by vm_compute).
  assert (follow 1 (io_queues io_sample) pending_queue pending_queue = map p_node []) as E2 by (by vm_compute).
  assert (follow 1 (io_queues io_sample) local_pq local_pq = map p_node []) as E3 by (by vm_compute).
  assert (forall f filter, kernel_interest k f filter -> False) as Hno.
  { intros f filter. unfold kernel_interest. rewrite Hk. by intros ?%elem_of_nil. }
  revert Hok Hio Ht E1 E2 E3. generalize sample as l. generalize io_sample as io. intros io l Hok Hio Ht E1 E2 E3.
  exists g, s. split; [constructor; try done; by intros f filter ?%Hno|]. split; [done|].
  split; [exact (queue_read _ _ _ local_pq p_node _ [] Hio eq_refl E3)|]. split; [apply Ht|]. split; [done|]. split; [done|]. split; [done|].
  split; [exact (queue_read _ _ _ watcher_queue w_node _ [100; 200; 300] Hio eq_refl E1)|exact (queue_read _ _ _ pending_queue p_node _ [] Hio eq_refl E2)].
Qed.

(** C13: with callbacks that leave the loop alone, and without watchers of file
    system events, a poll that the first answer of the kernel ends ([one_wait]: a
    time out, events that do not fill the array and of which one is delivered or
    with no timeout, a signal with no timeout, or a refusal) makes exactly these
    steps: the watchers of the queue are registered, in its order, with the
    filters that they want and did not have; one wait with these changes and the
    timeout; the clock is read; then each event is delivered to the watcher of
    its descriptor, with the bits that the watcher wants, in the order of the
    kernel, the signal watcher last, and an event that no watcher wants is
    deleted from the kernel.  Or it calls [abort()], which it does only when the
    kernel refused a change or the wait with an error that the code does not
    expect; it does so whenever the wait fails but for a signal. *)
Theorem poll_exact {W} `{System W} `{Realloc} interest `{!KernelLaws interest} call_io note fs fuel g s l io w timeout r w' :
  quiet_io call_io note -> inv interest fs g s (l, (io, w)) -> s_poll s = None -> (length (s_wq s) < fuel)%nat ->
  -1 <= timeout -> nfds io <> 0 ->
  waited io timeout (foldl buffered ([], w) (wanted_all fs io (s_wq s))) = (r, w') ->
  one_wait note io timeout r (snd (sys_hrtime w')) ->
  match uv__io_poll call_io fs fuel timeout (l, (io, w)) with
  | Done _ σ => exists io1 io',
      σ = (with_time (fst (sys_hrtime w') / 1000000) l, (io', answered note io r (snd (sys_hrtime w')))) /\
      registered (s_wq s) io io1 /\ undisturbed io1 io' /\ expected r
  | Fail σ => refused (snd (snd σ))
  | _ => False
  end.
Proof.
  intros Hq Hi Hp Hf Ht Hn Hk H1.
  pose proof (io_poll_quiet (Ab := refusal_abort) interest call_io fs note Hq fuel g s l io w timeout r w' Hi Hp Hf Ht Hn Hk H1) as Hg.
  unfold gives in Hg. destruct (uv__io_poll _ _ _ _ _); try done. destruct Hg as (io1 & io' & [_ ->] & Hg). by exists io1, io'.
Qed.

(** Data for the descriptor 5, a signal, and room to write on 6. *)
Definition answer_sample : kevent_result :=
  KEvents [event_of 3 EVFILT_READ; event_of 5 EVFILT_READ; event_of 6 EVFILT_WRITE].

Lemma quiet_io_call_quiet : quiet_io quiet_io_call note_io.
Proof. done. Qed.

Definition kernel_at_poll : kernel := kernel_sample [answer_sample] [].

Lemma poll_exact_witness :
  exists l io k, uv__io_poll quiet_io_call fs_sample 4 0 (sample, (io_sample, kernel_at_poll)) = Done tt (l, (io, k)) /\
  k_log k = [NKevent [EV_SET 5 EVFILT_READ EV_ADD 0; EV_SET 6 EVFILT_READ EV_ADD 0; EV_SET 6 EVFILT_WRITE EV_ADD 0; EV_SET 3 EVFILT_READ EV_ADD 0];
             NCall 51 100 POLLIN; NCall 52 200 POLLOUT; NCall 53 300 POLLIN].
Proof.
  set (log := [NKevent _; _; _; _]). set (reg := foldl buffered ([], kernel_at_poll) (wanted_all fs_sample io_sample [100; 200; 300])).
  assert (match uv__io_poll quiet_io_call fs_sample 4 0 (sample, (io_sample, kernel_at_poll)) with Done _ _ => true | _ => false end = true)
    as Ed by (by vm_compute).
  assert (one_wait note_io io_sample 0 (fst (waited io_sample 0 reg)) (snd (sys_hrtime (snd (waited io_sample 0 reg))))) as H1
    by (vm_compute; by split; [|left]).
  assert (k_log (answered note_io io_sample (fst (waited io_sample 0 reg)) (snd (sys_hrtime (snd (waited io_sample 0 reg))))) = log) as El
    by (by vm_compute).
  assert (nfds io_sample = 3) as Hn by (by vm_compute).
  destruct (state_sample_ok kernel_at_poll eq_refl) as (g & s & Hi & Hp & _ & _ & _ & _ & _ & Ewq & _).
  subst reg. rewrite <- Ewq in H1, El. revert Hi Hn H1 El Ed. generalize sample as l. generalize io_sample as io.
  generalize kernel_at_poll as k. clearbody log. intros k io l Hi Hn H1 El Ed.
  pose proof (poll_exact kernel_interest quiet_io_call note_io fs_sample 4 g s l io k 0 _ _ quiet_io_call_quiet Hi Hp
    ltac:(rewrite Ewq; cbn; lia) ltac:(lia) ltac:(lia) (surjective_pairing _) H1) as Hth.
  destruct (uv__io_poll _ _ _ _ _) as [[] σ| | |]; [|discriminate Ed..]. destruct Hth as (io1 & io' & -> & _).
  eexists _, io', _. split; [reflexivity|exact El].
Defined.

(** When the wait fails with [EBADF] the poll aborts. *)
Example refused_wait_aborts :
  exists l io k, uv__io_poll quiet_io_call fs_sample 4 0 (sample, (io_sample, kernel_sample [KError EBADF] [])) = Fail (l, (io, k)) /\
  existsb (fun n => match n with NCall _ _ _ => true | NKevent _ => false end) (k_log k) = false.
Proof.
  assert (match uv__io_poll quiet_io_call fs_sample 4 0 (sample, (io_sample, kernel_sample [KError EBADF] [])) with
    | Fail (_, (_, k)) => existsb (fun n => match n with NCall _ _ _ => true | NKevent _ => false end) (k_log k)
    | _ => true end = false) as E by (by vm_compute).
  destruct (uv__io_poll _ _ _ _ _) as [|(l & io & k)| |]; [discriminate E| |discriminate E..]. by exists l, io, k.
Qed.

(** A callback that stops its watcher, feeds it for the next turn, and notes. *)
Definition rearm (f v revents : Z) : @P kernel unit :=
  on_io (uv__io_stop v POLLIN);;; on_io (uv__io_feed v);;; on_world (fun k => (tt, note_io f v revents k)).

Lemma rearm_stable : io_calls_stable (Ab := loop_abort) kernel_interest rearm fs_sample.
Proof.
  intros g s (l & io & k) f v revents [Hl Hn Hio Hw] Hf Hv. cbn [fst snd] in *. unfold rearm.
  destruct (io_live _ _ _ Hio v Hv) as (x & Ex & _).
  destruct (io_stop_spec fs_sample s io v x POLLIN Hio Hv Ex) as (io1 & E1 & Hio1 & N1 & S1 & _); [split; done|].
  match type of Hio1 with UvIoInv.io_ok _ ?t _ => set (s1 := t) in Hio1 end.
  assert (s_live s1 = s_live s /\ s_mem s1 = s_mem s /\ s_poll s1 = s_poll s /\ s_pq s1 = s_pq s) as (A1 & A2 & A3 & A4).
  { unfold s1. destruct (_ =? 0); [done|]. by destruct (enqueued_live v s) as (? & ? & ? & ? & ?). }
  destruct (io_feed_spec fs_sample s1 io1 v Hio1) as (m & E2 & Hio2); [by rewrite A1|].
  match type of Hio2 with UvIoInv.io_ok _ ?t _ => set (s2 := t) in Hio2 end.
  assert (s_live s2 = s_live s1 /\ s_mem s2 = s_mem s1 /\ s_poll s2 = s_poll s1 /\ s_pq s2 = s_pq s1) as (B1 & B2 & B3 & B4)
    by (unfold s2; by case_bool_decide).
  eapply gives_io; [exact E1|]. eapply gives_io; [exact E2|]. exists g, s2. split; [|split; [done|]].
  - constructor; try done. cbn. by rewrite N1.
  - constructor; cbn; rewrite ?N1; try congruence; [by rewrite B4, A4|lia].
Qed.

(** C14: a poll that does not wait ends, whatever events the kernel gives and
    whatever the callbacks do to the loop by calls that keep its invariants: the
    loop over full batches of events ends after 48 of them; the fuel is 48 turns
    and the watchers to register.  It returns, and the invariants hold and no poll
    is in progress; or it calls [abort()], which it does only when the kernel
    refused a change or a wait with an error that the code does not expect, or
    when a callback started a watcher for which the table has no room and
    [realloc] gives no longer one. *)
Theorem poll_without_waiting_returns {W} `{System W} `{Realloc} interest `{!KernelLaws interest} call_io fs fuel g s (σ : uv_loop * (io_loop * W)) :
  io_calls_stable (Ab := loop_abort) interest call_io fs -> inv interest fs g s σ -> s_poll s = None ->
  (length (s_wq s) < fuel)%nat -> (48 <= fuel)%nat ->
  match uv__io_poll call_io fs fuel 0 σ with
  | Done _ σ' => exists g' s', inv interest fs g' s' σ' /\ s_poll s' = None /\ s_mem s' = s_mem s /\ evolves g g'
  | Fail σ' => no_room (fst (snd σ')) \/ refused (snd (snd σ'))
  | _ => False
  end.
Proof.
  intros Hst Hi Hp Hf H48. pose proof (io_poll_safe (Ab := loop_abort) interest call_io fs False fuel g s σ 0 Hst Hi Hp Hf ltac:(lia)
    (or_intror (conj eq_refl H48))) as Hg.
  unfold gives in Hg. destruct (uv__io_poll _ _ _ _ _); try done. destruct Hg as (g' & s' & Hi' & Hg' & Hs').
  exists g', s'. split; [done|]. split; [by rewrite (ie_poll _ _ _ _ Hs')|]. split; [apply Hs'|done].
Qed.

Lemma poll_without_waiting_returns_witness :
  exists l io k, uv__io_poll rearm fs_sample 48 0 (sample, (io_sample, kernel_at_poll)) = Done tt (l, (io, k)) /\
  follow 5 (io_queues io) pending_queue pending_queue = map p_node [100; 200; 300].
Proof.
  assert (match uv__io_poll rearm fs_sample 48 0 (sample, (io_sample, kernel_at_poll)) with
    | Done _ (_, (io, _)) => follow 5 (io_queues io) pending_queue pending_queue | _ => [] end = map p_node [100; 200; 300]) as Ev
    by (by vm_compute).
  destruct (state_sample_ok kernel_at_poll eq_refl) as (g & s & Hi & Hp & _ & _ & _ & _ & _ & Ewq & _).
  revert Hi Ev. generalize sample as l. generalize io_sample as io. generalize kernel_at_poll as k. intros k io l Hi Ev.
  pose proof (poll_without_waiting_returns kernel_interest rearm fs_sample 48 g s (l, (io, k)) rearm_stable Hi Hp
    ltac:(rewrite Ewq; cbn; lia) ltac:(lia)) as Hth.
  destruct (uv__io_poll _ _ _ _ _) as [[] (l' & io' & k')| | |]; [|discriminate Ev..]. destruct Hth as (g' & s' & _).
  exists l', io', k'. split; [reflexivity|exact Ev].
Defined.

(** ** Runs *)
(** A callback of a handle that only notes its call. *)
Definition note_handle (f p : Z) (k : kernel) : kernel := logged (NCall f p 0) k.
Definition quiet_handle_call (f p : Z) : @P kernel unit := on_world (fun k => (tt, note_handle f p k)).

Lemma quiet_handle_stable : calls_stable (Ab := loop_abort) kernel_interest fs_sample quiet_handle_call.
Proof. intros g s (l & io & k) f p [Hl Hn Hio Hw] _ _. exists g, s. split; [by constructor|]. split; [done|apply io_evolves_refl]. Qed.

(** C12: [uv_run] in each of its modes, with callbacks of handles and of watchers
    that may call back, close, start and stop, and without watchers of file system
    events: no phase of a turn has undefined behaviour or a failed assert.  When it
    returns, the invariants of the loop and of its table of watchers hold, all that
    the kernel watches lies in the range of the table, nothing is left half done
    (no run over a queue, no poll, no close), the stop flag is cleared, and the
    result says whether an active and referenced handle, a request or a close is
    left.  It calls [abort()] only when the kernel refused a change or a wait with
    an error that the code does not expect, or when a callback started a watcher
    for which the table has no room and [realloc] gives no longer one.  A run may
    wait for ever, so it is only shown not to go wrong. *)
Theorem uv_run_keeps_invariants {W} `{System W} `{Realloc} interest `{!KernelLaws interest} call call_io fs mem iom turns fuel mode
    (σ : uv_loop * (io_loop * W)) :
  calls_stable (Ab := loop_abort) interest fs call -> io_calls_stable (Ab := loop_abort) interest call_io fs ->
  resting interest fs mem iom σ -> enough mem iom fuel ->
  match uv_run call call_io fs turns fuel mode σ with
  | Done r σ' => resting interest fs mem iom σ' /\ r = alive (fst σ') /\ stop_flag (fst σ') = 0
  | OutOfFuel => True
  | Fail σ' => no_room (fst (snd σ')) \/ refused (snd (snd σ'))
  | Undef _ => False
  end.
Proof. intros Hst Hsio Hr Hf. exact (uv_run_safe (Ab := loop_abort) interest call call_io fs mem iom turns fuel mode σ Hst Hsio Hr Hf). Qed.

(** The clock reads 0 ms before the timers and 6 ms after the poll. *)
Definition kernel_at_run : kernel := kernel_sample [answer_sample; answer_sample] [6000000; 7000000].

Lemma uv_run_keeps_invariants_witness :
  exists r σ', uv_run quiet_handle_call rearm fs_sample 2 8 UV_RUN_NOWAIT (sample, (io_sample, kernel_at_run)) = Done r σ' /\
  r = true /\
  k_log (snd (snd σ')) =
    [NCall 8 20 0; NCall 7 10 0; NCall 9 30 0;
     NKevent [EV_SET 5 EVFILT_READ EV_ADD 0; EV_SET 6 EVFILT_READ EV_ADD 0; EV_SET 6 EVFILT_WRITE EV_ADD 0; EV_SET 3 EVFILT_READ EV_ADD 0];
     NCall 51 100 POLLIN; NCall 52 200 POLLOUT; NCall 53 300 POLLIN] /\
  resting kernel_interest fs_sample sample_mem (list_to_set io_mem_sample) σ'.
Proof.
  set (log := [NCall 8 20 0; _; _; _; _; _; _]).
  assert (match uv_run quiet_handle_call rearm fs_sample 2 8 UV_RUN_NOWAIT (sample, (io_sample, kernel_at_run)) with
    | Done r σ => Some (r, k_log (snd (snd σ))) | _ => None end = Some (true, log)) as Ev by (by vm_compute).
  assert (enough sample_mem (list_to_set io_mem_sample) 8) as Hen by (vm_compute; lia).
  destruct (state_sample_ok kernel_at_run eq_refl) as (g & s & Hi & H1 & H2 & H3 & H4 & H5 & H6 & _).
  assert (resting kernel_interest fs_sample sample_mem (list_to_set io_mem_sample) (sample, (io_sample, kernel_at_run))) as Hr
    by (exists g, s; exact (conj Hi (conj H1 (conj H2 (conj H3 (conj H4 (conj H5 H6))))))).
  clear Hi. revert Hr Ev. generalize sample as l. generalize io_sample as io. generalize kernel_at_run as k. clearbody log. intros k io l Hr Ev.
  pose proof (uv_run_keeps_invariants kernel_interest quiet_handle_call rearm fs_sample sample_mem (list_to_set io_mem_sample) 2 8
    UV_RUN_NOWAIT (l, (io, k)) quiet_handle_stable rearm_stable Hr Hen) as Hs.
  destruct (uv_run quiet_handle_call rearm fs_sample 2 8 UV_RUN_NOWAIT (l, (io, k))) as [r σ'| | |]; [|discriminate Ev..].
  destruct Hs as [Hs _]. exists r, σ'. split; [reflexivity|]. injection Ev as E1 E2. split; [exact E1|]. split; [exact E2|exact Hs].
Defined.

(** C11: with callbacks that leave the loop alone, [uv_run] with [UV_RUN_NOWAIT] on
    a loop that is alive, is not to stop and has a started watcher ([nfds] is not
    0) calls, in this order: the timers that are due at the time read first, each
    once, by timeout and then by start; the pending watchers; the idle and the
    prepare handles; then it registers the watchers that changed, waits with no
    timeout, and calls the watchers of the events, the signal watcher last; the
    check handles; the closes that were pending, of which each gets its callback;
    and it returns whether the loop is alive.  The kernel's answer is any that does
    not fill the array of 1024 events.  Or it calls [abort()], which it does only
    when the kernel refused a change or the wait with an error that the code does
    not expect; it does so whenever the wait fails but for a signal. *)
Theorem uv_run_turn_in_order {W} `{System W} `{Realloc} interest `{!KernelLaws interest} call call_io fs note note_io turns fuel g s l io w :
  quiet call (world_note note) -> quiet_io call_io note_io ->
  (forall f p w fd filter, interest (note f p w) fd filter -> interest w fd filter) ->
  (forall f v r w fd filter, interest (note_io f v r w) fd filter -> interest w fd filter) ->
  inv interest fs g s (l, (io, w)) -> s_poll s = None -> s_pq s = [] -> (forall v, g_run g v = []) -> g_finishing g = [] ->
  repeats_ok l -> nfds io <> 0 -> enough (g_mem g) (s_mem s) fuel -> alive l = true -> stop_flag l = 0 ->
  exists ds, NoDup ds /\ (forall p, p ∈ ds <-> p ∈ g_timers g /\ timeout_of (handles l) p <= fst (sys_hrtime w) / 1000000) /\
  StronglySorted (no_later (handles l)) ds /\
  forall r w1,
    waited io 0 (foldl buffered ([], before_poll note note_io l g s io ds w) (wanted_all fs io (s_wq s))) = (r, w1) ->
    (forall evs, r = KEvents evs -> zlen evs < array_size) ->
    match uv_run call call_io fs (S turns) fuel UV_RUN_NOWAIT (l, (io, w)) with
    | Done b (l', (_, w')) => b = alive l' /\ w' = after_poll note note_io l g io r w1 /\ expected r
    | Fail σ' => refused (snd (snd σ'))
    | _ => False
    end.
Proof.
  intros Hq Hqio Hw Hwio Hi Hp Hpq Hr Hfin Hrep Hnf Hen Ha Hst.
  destruct (uv_run_nowait_quiet (Ab := refusal_abort) interest call call_io fs note note_io Hq Hqio Hw Hwio turns fuel g s l io w
    Hi Hp Hpq Hr Hfin Hrep Hnf Hen Ha Hst) as (ds & H1 & H2 & H3 & Hrun).
  exists ds. do 3 (split; [done|]). intros r w1 Hk Hsm. specialize (Hrun r w1 Hk Hsm). unfold gives in Hrun.
  by destruct (uv_run _ _ _ _ _ _ _) as [b (l' & io' & w')| | |].
Qed.

(** The script of the sample kernel is out of the reach of the callbacks and of
    the changes. *)
Lemma calls_script hs ps k : k_script (calls note_handle hs ps k) = k_script k.
Proof.
  unfold calls. revert k. induction ps as [|p ps IH]; intros k; [done|]. cbn. rewrite IH. unfold fire. by destruct (hs !! p).
Qed.

Lemma pending_script io vs k : k_script (pending_calls note_io io vs k) = k_script k.
Proof.
  unfold pending_calls. revert k. induction vs as [|v vs IH]; intros k; [done|]. cbn. rewrite IH. by destruct (ios io !! v).
Qed.

Lemma buffered_script evs (st : list kev * kernel) : k_script (snd (foldl buffered st evs)) = k_script (snd st).
Proof.
  revert st. induction evs as [|ev evs IH]; intros st; [done|]. cbn. rewrite IH. unfold buffered. by destruct (_ =? array_size).
Qed.

Lemma kernel_answer chs room t k evs :
  fst (kernel_kevent chs room t k) = KEvents evs ->
  zlen evs <= match k_script k with KEvents e :: _ => zlen e | _ => 0 end.
Proof.
  unfold kernel_kevent. pose proof (fun e : list kev => zlen_nonneg e) as Hz.
  assert (0 <= match k_script k with KEvents e :: _ => zlen e | _ => 0 end) as H0.
  { destruct (k_script k) as [|[e|] sc]; [done|apply Hz|done]. }
  assert (nothing t = KEvents evs -> evs = []) as Hno by (destruct t; [by intros [= <-]|done]).
  destruct (room <? 0); [done|]. destruct (room =? 0); cbn; [by intros [= <-]|].
  destruct (k_script k) as [|[e|] sc]; [by intros ->%Hno| |done].
  destruct (take _ _) as [|ev rest] eqn:Et; [by intros ->%Hno|]. intros [= <-].
  assert (length (ev :: rest) <= length e)%nat as Hle; [|unfold zlen; lia].
  rewrite <- Et, length_take. etrans; [apply Nat.le_min_r|apply length_filter].
Qed.

Lemma uv_run_turn_in_order_witness :
  exists l' io' k, uv_run quiet_handle_call quiet_io_call fs_sample 1 8 UV_RUN_NOWAIT (sample, (io_sample, kernel_at_run)) =
    Done true (l', (io', k)) /\
  k_log k =
    [NCall 8 20 0; NCall 7 10 0; NCall 9 30 0;
     NKevent [EV_SET 5 EVFILT_READ EV_ADD 0; EV_SET 6 EVFILT_READ EV_ADD 0; EV_SET 6 EVFILT_WRITE EV_ADD 0; EV_SET 3 EVFILT_READ EV_ADD 0];
     NCall 51 100 POLLIN; NCall 52 200 POLLOUT; NCall 53 300 POLLIN].
Proof.
  set (log := [NCall 8 20 0; _; _; _; _; _; _]).
  assert (match uv_run quiet_handle_call quiet_io_call fs_sample 1 8 UV_RUN_NOWAIT (sample, (io_sample, kernel_at_run)) with
    | Done r σ => Some (r, k_log (snd (snd σ))) | _ => None end = Some (true, log)) as Ev by (by vm_compute).
  assert (k_script kernel_at_run = [answer_sample; answer_sample]) as Ek by done.
  assert (alive sample = true) as Ha by (by vm_compute). assert (stop_flag sample = 0) as Hs by (by vm_compute).
  assert (nfds io_sample = 3) as Hn by (by vm_compute).
  assert (enough sample_mem (list_to_set io_mem_sample) 8) as Hen by (vm_compute; lia).
  destruct (state_sample_ok kernel_at_run eq_refl) as (g & s & Hi & H1 & H2 & H3 & H4 & H5 & H6 & _). destruct sample_ranges as [_ Hrep].
  revert Hi Ev Ha Hs Hn Hrep Ek. generalize sample as l. generalize io_sample as io. generalize kernel_at_run as k. clearbody log.
  intros k io l Hi Ev Ha Hs Hn Hrep Ek. rewrite <- H3, <- H4 in Hen.
  destruct (uv_run_turn_in_order kernel_interest quiet_handle_call quiet_io_call fs_sample note_handle note_io 0 8 g s l io k
    (fun _ _ _ _ => eq_refl) quiet_io_call_quiet (fun _ _ _ _ _ H => H) (fun _ _ _ _ _ _ H => H) Hi H1 H2 H5 H6 Hrep
    ltac:(lia) Hen Ha Hs) as (ds & _ & _ & _ & Hrun).
  destruct (waited io 0 (foldl buffered ([], before_poll note_handle note_io l g s io ds k) (wanted_all fs_sample io (s_wq s)))) as [r k1] eqn:Ew.
  assert (forall evs, r = KEvents evs -> zlen evs < array_size) as Hsm.
  { intros evs ->. unfold waited, masked in Ew. assert (forall b (x : kernel), (if b : bool then x else x) = x) as Eb by by intros [].
    cbn [sys_sigmask kernel_system] in Ew. rewrite !Eb in Ew.
    destruct (sys_kevent _ _ _ _) as [r0 k0] eqn:Eq. injection Ew as -> _.
    pose proof (f_equal fst Eq) as Ef. cbn [fst] in Ef. apply kernel_answer in Ef. rewrite buffered_script in Ef. cbn [snd] in Ef.
    unfold before_poll in Ef. rewrite !calls_script, pending_script, calls_script in Ef. cbn in Ef. rewrite Ek in Ef. cbn in Ef. eapply Z.le_lt_trans; [exact Ef|reflexivity]. }
  specialize (Hrun r k1 eq_refl Hsm). destruct (uv_run _ _ _ _ _ _ _) as [b (l' & io' & k')| | |]; [|discriminate Ev..].
  injection Ev as -> E2. exists l', io', k'. split; [reflexivity|exact E2].
Defined.

(** ** What the code does not do *)
(** The watcher 100 stops the interest of 200 in writing; 200, when it can read,
    asks for it again. *)
Definition stop_and_start (f v revents : Z) : @P kernel unit :=
  if f =? 51 then on_io (uv__io_stop 200 POLLOUT)
  else if f =? 52 then on_io (uv__io_start 200 POLLOUT)
  else ret tt.

(** One batch: 100 can read; 200 can write, and read. *)
Definition one_batch : kevent_result :=
  KEvents [event_of 5 EVFILT_READ; event_of 6 EVFILT_WRITE; event_of 6 EVFILT_READ].

(** the interest of a watcher in writing is lost when it is stopped and started
    again while a batch is being delivered that has its event in between: the
    event is deleted from the kernel, while [events], and so [uv__io_start] and
    the registration, take it to be there.  After an other poll the watcher
    wants to write, it is not queued, and the kernel does not watch it. *)
Theorem write_interest_lost :
  exists l io k, (uv__io_poll stop_and_start fs_sample 4 0;;; uv__io_poll stop_and_start fs_sample 4 0)
    (sample, (io_sample, kernel_sample [one_batch] [])) = Done tt (l, (io, k)) /\
  (pevents <$> ios io !! 200) = Some (Z.lor POLLIN POLLOUT) /\ (events <$> ios io !! 200) = Some (Z.lor POLLIN POLLOUT) /\
  follow 1 (io_queues io) watcher_queue watcher_queue = [] /\ bool_decide ((6, EVFILT_WRITE) ∈ k_reg k) = false.
Proof.
  set (run := (_ ;;; _) : @P kernel unit).
  assert (match run (sample, (io_sample, kernel_sample [one_batch] [])) with
    | Done _ (_, (io, k)) => Some (pevents <$> ios io !! 200, events <$> ios io !! 200,
        follow 1 (io_queues io) watcher_queue watcher_queue, bool_decide ((6, EVFILT_WRITE) ∈ k_reg k))
    | _ => None end = Some (Some (Z.lor POLLIN POLLOUT), Some (Z.lor POLLIN POLLOUT), [], false)) as E by (by vm_compute).
  destruct (run _) as [[] (l & io & k)| | |]; [|discriminate E..]. exists l, io, k. split; [reflexivity|].
  injection E as E1 E2 E3 E4. split; [exact E1|]. split; [exact E2|]. split; [exact E3|exact E4].
Qed.

(** A loop with one timer, due after 100 ms. *)
Definition timer_loop : uv_loop :=
  match run_ops [OpInit UV_TIMER 10; OpTimerStart 10 7 100 0] (fresh_loop sample_mem) with
  | Done _ l => l | _ => fresh_loop sample_mem end.

(** Signals at 30, 50 and 60 ms. *)
Definition kernel_interrupted : kernel :=
  kernel_sample [KError EINTR; KError EINTR; KError EINTR] [0; 30000000; 50000000; 60000000; 60000000].

(** the time since the start of the poll is taken from a timeout that was already
    shortened: with three signals a poll of 100 ms returns after 60, and
    [uv_run] with [UV_RUN_ONCE] returns without any callback. *)
Theorem interrupted_poll_ends_early :
  exists l io k, uv_run quiet_handle_call quiet_io_call fs_sample 2 8 UV_RUN_ONCE (timer_loop, (io_sample, kernel_interrupted)) =
    Done true (l, (io, k)) /\ time l = 60 /\ (timeout <$> handles l !! 10) = Some 100 /\
  existsb (fun n => match n with NCall _ _ _ => true | NKevent _ => false end) (k_log k) = false.
Proof.
  assert (match uv_run quiet_handle_call quiet_io_call fs_sample 2 8 UV_RUN_ONCE (timer_loop, (io_sample, kernel_interrupted)) with
    | Done r (l, (io, k)) => Some (r, time l, timeout <$> handles l !! 10,
        existsb (fun n => match n with NCall _ _ _ => true | NKevent _ => false end) (k_log k))
    | _ => None end = Some (true, 60, Some 100, false)) as E by (by vm_compute).
  destruct (uv_run _ _ _ _ _ _ _) as [r (l & io & k)| | |]; [|discriminate E..]. exists l, io, k.
  injection E as -> E2 E3 E4. split; [reflexivity|]. split; [exact E2|]. split; [exact E3|exact E4].
Qed.
