(* ===== verification/UvPool.v ===== *)
(** libuv, [threadpool.c]: the worker threads, the queue of the works and the
    completions on the loop.  The code that runs between the lock and the unlock
    of the mutex is one function of the state; the threads and the thread of the
    loop interleave these functions in a step relation. *)
From S2P Require Import Prelude.
From S2P Require Import UvQueue.

Abbreviation tid := nat.

Definition MAX_THREADPOOL_SIZE : Z := 1024.

(** The addresses of the [QUEUE] nodes. *)
Inductive tptr : Set :=
| wq                       (* the queue of the workers *)
| slow_io_pending_wq
| run_slow_work_message
| exit_message
| loop_wq                  (* loop->wq *)
| done_wq                  (* the local of uv__work_done *)
| work_wq (w : Z).         (* w->wq *)

#[export] Instance tptr_eq_dec : EqDecision tptr.
Proof. solve_decision. Defined.

#[export] Instance tptr_countable : Countable tptr.
Proof.
  refine (inj_countable'
    (fun q => match q with
      | wq => inl 0 | slow_io_pending_wq => inl 1 | run_slow_work_message => inl 2
      | exit_message => inl 3 | loop_wq => inl 4 | done_wq => inl 5 | work_wq w => inr w
      end)
    (fun s => match s with
      | inl 0 => wq | inl 1 => slow_io_pending_wq | inl 2 => run_slow_work_message
      | inl 3 => exit_message | inl 4 => loop_wq | inl _ => done_wq | inr w => work_wq w
      end) _).
  by intros [].
Defined.

(** [w->work]: null, [uv__cancelled] or a function of the caller. *)
Inductive work_fn : Set :=
| WNull
| uv__cancelled
| WFun (f : Z).

#[export] Instance work_fn_eq_dec : EqDecision work_fn.
Proof. solve_decision. Defined.

(** [struct uv__work]. *)
Record uv__work : Type := mk_work { work : work_fn; done : Z }.

Inductive uv__work_kind : Set := UV__WORK_CPU | UV__WORK_FAST_IO | UV__WORK_SLOW_IO.

#[export] Instance uv__work_kind_eq_dec : EqDecision uv__work_kind.
Proof. solve_decision. Defined.

(** The globals of the file, and what it uses of the loop.  [signalled] counts
    the waiting threads that a [uv_cond_signal] has released, the other waiting
    threads are blocked in [uv_cond_wait]; [async_sent] is that
    [uv_async_send(&loop->wq_async)] was called since the last [uv__work_done]. *)
Record pool : Type := mk_pool {
  idle_threads : Z;
  slow_io_work_running : Z;
  nthreads : Z;
  nodes : gmap tptr (qnode tptr);
  works : gmap Z uv__work;
  signalled : Z;
  async_sent : bool
}.

Definition P : Type -> Type := M pool.

Definition with_idle (v : Z) (s : pool) : pool :=
  mk_pool v (slow_io_work_running s) (nthreads s) (nodes s) (works s) (signalled s) (async_sent s).
Definition with_slow (v : Z) (s : pool) : pool :=
  mk_pool (idle_threads s) v (nthreads s) (nodes s) (works s) (signalled s) (async_sent s).
Definition with_nodes (v : gmap tptr (qnode tptr)) (s : pool) : pool :=
  mk_pool (idle_threads s) (slow_io_work_running s) (nthreads s) v (works s) (signalled s) (async_sent s).
Definition with_works (v : gmap Z uv__work) (s : pool) : pool :=
  mk_pool (idle_threads s) (slow_io_work_running s) (nthreads s) (nodes s) v (signalled s) (async_sent s).
Definition with_signalled (v : Z) (s : pool) : pool :=
  mk_pool (idle_threads s) (slow_io_work_running s) (nthreads s) (nodes s) (works s) v (async_sent s).
Definition with_async (v : bool) (s : pool) : pool :=
  mk_pool (idle_threads s) (slow_io_work_running s) (nthreads s) (nodes s) (works s) (signalled s) v.

Definition on_nodes {A} (m : Qm A) : P A := fun s =>
  match m (nodes s) with
  | Done a t => Done a (with_nodes t s)
  | Fail t => Fail (with_nodes t s)
  | Undef u => Undef u
  | OutOfFuel => OutOfFuel
  end.

Definition get_work (w : Z) : P uv__work := fun s => of_option UbMem (works s !! w) s.
Definition put_work (w : Z) (f : work_fn) : P unit :=
  let* _ := get_work w in
  modify (fun s => with_works (alter (fun x => mk_work f (done x)) w (works s)) s).

(** [uv_cond_signal]: one of the blocked threads is released, if there is one. *)
Definition uv_cond_signal : P unit :=
  modify (fun s => if signalled s <? idle_threads s then with_signalled (signalled s + 1) s else s).

Definition uv_async_send : P unit := modify (with_async true).

Definition slow_work_thread_threshold : P Z := gets (fun s => u32 (nthreads s + 1) / 2).

(** [QUEUE_DATA(q, struct uv__work, wq)]. *)
Definition work_of (q : tptr) : P Z :=
  match q with work_wq w => ret w | _ => undef UbMem end.

(** What a worker does next; [slow] is its [is_slow_work]. *)
Inductive wstate : Set :=
| Ready (slow : bool)              (* before the lock of the mutex *)
| Waiting                          (* in uv_cond_wait *)
| Running (w : Z) (slow : bool)    (* about to call w->work(w), without the mutex *)
| Ran (w : Z) (slow : bool)        (* after the call, before the lock of wq_mutex *)
| Exited.

#[export] Instance wstate_eq_dec : EqDecision wstate.
Proof. solve_decision. Defined.

(** The condition of the [while] around [uv_cond_wait]. *)
Definition must_wait : P bool :=
  let* e := on_nodes (QUEUE_EMPTY wq) in
  if e : bool then ret true
  else
    let* h := on_nodes (QUEUE_HEAD wq) in
    if bool_decide (h = run_slow_work_message) then
      let* n := on_nodes (QUEUE_NEXT run_slow_work_message) in
      if bool_decide (n = wq) then
        let* r := gets slow_io_work_running in
        let* t := slow_work_thread_threshold in
        ret (t <=? r)
      else ret false
    else ret false.

(** [for (;;)], up to the call of the work or to the wait.  A [continue] takes
    the message out of the queue or puts it behind a work: fuel 3 is enough. *)
Fixpoint worker_loop (fuel : nat) : P wstate :=
  match fuel with
  | O => out_of_fuel
  | S fuel =>
      let* b := must_wait in
      if b : bool then
        modify (fun s => with_idle (u32 (idle_threads s + 1)) s);;;
        ret Waiting
      else
        let* q := on_nodes (QUEUE_HEAD wq) in
        if bool_decide (q = exit_message) then
          uv_cond_signal;;;
          ret Exited
        else
          on_nodes (QUEUE_REMOVE q);;;
          on_nodes (QUEUE_INIT q);;;
          if bool_decide (q = run_slow_work_message) then
            let* r := gets slow_io_work_running in
            let* t := slow_work_thread_threshold in
            if t <=? r then
              on_nodes (QUEUE_INSERT_TAIL wq q);;;
              worker_loop fuel
            else
              let* e := on_nodes (QUEUE_EMPTY slow_io_pending_wq) in
              if e : bool then worker_loop fuel
              else
                modify (fun s => with_slow (u32 (slow_io_work_running s + 1)) s);;;
                let* q := on_nodes (QUEUE_HEAD slow_io_pending_wq) in
                on_nodes (QUEUE_REMOVE q);;;
                on_nodes (QUEUE_INIT q);;;
                let* e := on_nodes (QUEUE_EMPTY slow_io_pending_wq) in
                (if e : bool then ret tt
                 else
                   on_nodes (QUEUE_INSERT_TAIL wq run_slow_work_message);;;
                   let* i := gets idle_threads in
                   if 0 <? i then uv_cond_signal else ret tt);;;
                let* w := work_of q in
                ret (Running w true)
          else
            let* w := work_of q in
            ret (Running w false)
  end.

Definition loop_fuel : nat := 3.

(** From the lock of the mutex: at the start ([slow] is then false) and after a
    work. *)
Definition worker_enter (slow : bool) : P wstate :=
  (if slow then modify (fun s => with_slow (u32 (slow_io_work_running s - 1)) s) else ret tt);;;
  worker_loop loop_fuel.

(** The return of [uv_cond_wait], with the mutex. *)
Definition worker_wake (spurious : bool) : P wstate :=
  (if spurious then ret tt else modify (fun s => with_signalled (signalled s - 1) s));;;
  modify (fun s => with_idle (u32 (idle_threads s - 1)) s);;;
  worker_loop loop_fuel.

(** Under [wq_mutex], after the call of the work. *)
Definition worker_finish (w : Z) : P unit :=
  put_work w WNull;;;
  on_nodes (QUEUE_INSERT_TAIL loop_wq (work_wq w));;;
  uv_async_send.

Definition post (q : tptr) (kind : uv__work_kind) : P unit :=
  if bool_decide (kind = UV__WORK_SLOW_IO) then
    on_nodes (QUEUE_INSERT_TAIL slow_io_pending_wq q);;;
    let* e := on_nodes (QUEUE_EMPTY run_slow_work_message) in
    if negb e then ret tt   (* running slow I/O tasks is already scheduled *)
    else
      on_nodes (QUEUE_INSERT_TAIL wq run_slow_work_message);;;
      let* i := gets idle_threads in
      if 0 <? i then uv_cond_signal else ret tt
  else
    on_nodes (QUEUE_INSERT_TAIL wq q);;;
    let* i := gets idle_threads in
    if 0 <? i then uv_cond_signal else ret tt.

Definition uv__work_submit (w : Z) (kind : uv__work_kind) (work_ : Z) (done_ : Z) : P unit :=
  modify (fun s => with_works (<[w := mk_work (WFun work_) done_]> (works s)) s);;;
  post (work_wq w) kind.

(** [-ECANCELED] of Darwin. *)
Definition UV_ECANCELED : Z := -89.

(** [uv__work_cancel] up to the unlock of the two mutexes: whether the work was
    taken out of its queue; if not, [UV_EBUSY] is returned. *)
Definition work_cancel_locked (w : Z) : P bool :=
  let* e := on_nodes (QUEUE_EMPTY (work_wq w)) in
  let* x := get_work w in
  let cancelled := negb e && negb (bool_decide (work x = WNull)) in
  if cancelled then on_nodes (QUEUE_REMOVE (work_wq w));;; ret true else ret false.

(** The rest of it, for a work that was taken out: [w->work] is set before the
    lock of [wq_mutex], no other thread can find the work then. *)
Definition work_cancel_rest (w : Z) : P unit :=
  put_work w uv__cancelled;;;
  on_nodes (QUEUE_INSERT_TAIL loop_wq (work_wq w));;;
  uv_async_send.

(** [uv__work_done] up to the unlock; the local queue is declared. *)
Definition work_done_take : P unit :=
  modify (fun s => with_async false (with_nodes (<[done_wq := mk_qnode done_wq done_wq]> (nodes s)) s));;;
  on_nodes (QUEUE_MOVE loop_wq done_wq).

(** One turn of its [while]: the completed work with its status, [None] at the
    end. *)
Definition work_done_next : P (option (Z * Z)) :=
  let* e := on_nodes (QUEUE_EMPTY done_wq) in
  if e : bool then ret None
  else
    let* q := on_nodes (QUEUE_HEAD done_wq) in
    on_nodes (QUEUE_REMOVE q);;;
    let* w := work_of q in
    let* x := get_work w in
    ret (Some (w, if bool_decide (work x = uv__cancelled) then UV_ECANCELED else 0)).

(** ** The interleaving of the threads *)
(** What can be seen from outside: a submission, the call of a work and of its
    completion with a status. *)
Inductive event : Type :=
| EvSubmit (w : Z)
| EvRun (w : Z) (f : Z)
| EvDone (w : Z) (status : Z).

(** The workers, and the thread of the loop: it may be between the two parts of
    a [uv__work_cancel], in the [while] of [uv__work_done], and it has posted
    the exit message or not. *)
Record cfg : Type := mk_cfg {
  shared : pool;
  threads : list wstate;
  cancelling : option Z;
  draining : bool;
  exiting : bool;
  trace : list event
}.

Inductive action : Type :=
| ASubmit (w : Z) (kind : uv__work_kind) (work_ done_ : Z)
| ACancel (w : Z)
| ACancelRest
| ADoneTake
| ADoneNext
| AExit
| AEnter (t : tid)
| AWake (t : tid) (spurious : bool)
| ARun (t : tid)
| AFinish (t : tid).

(** Where the uses of a work are: free, submitted, executed. *)
Inductive phase : Set := Free | Submitted | Executed.

#[export] Instance phase_eq_dec : EqDecision phase.
Proof. solve_decision. Defined.

(** The next phase of [w]; [None] for an event that must not happen. *)
Definition next_phase (w : Z) (p : option phase) (e : event) : option phase :=
  match e with
  | EvSubmit w' =>
      if w' =? w then match p with Some Free => Some Submitted | _ => None end else p
  | EvRun w' _ =>
      if w' =? w then match p with Some Submitted => Some Executed | _ => None end else p
  | EvDone w' status =>
      if w' =? w then
        match p with
        | Some Executed => if status =? 0 then Some Free else None
        | Some Submitted => if status =? UV_ECANCELED then Some Free else None
        | _ => None
        end
      else p
  end.

Definition phase_of (w : Z) (t : list event) : option phase := foldl (next_phase w) (Some Free) t.

Definition on_shared {A} (m : P A) : M cfg A := fun c =>
  match m (shared c) with
  | Done a s => Done a (mk_cfg s (threads c) (cancelling c) (draining c) (exiting c) (trace c))
  | Fail s => Fail (mk_cfg s (threads c) (cancelling c) (draining c) (exiting c) (trace c))
  | Undef u => Undef u
  | OutOfFuel => OutOfFuel
  end.

(** An action that is not enabled fails. *)
Definition guard (b : bool) : M cfg unit := if b then ret tt else failed.
Definition get_thread (t : tid) : M cfg wstate := fun c =>
  match threads c !! t with Some x => Done x c | None => Fail c end.
Definition set_thread (t : tid) (x : wstate) : M cfg unit :=
  modify (fun c => mk_cfg (shared c) (<[t := x]> (threads c)) (cancelling c) (draining c) (exiting c) (trace c)).
Definition set_cancelling (x : option Z) : M cfg unit :=
  modify (fun c => mk_cfg (shared c) (threads c) x (draining c) (exiting c) (trace c)).
Definition set_draining (x : bool) : M cfg unit :=
  modify (fun c => mk_cfg (shared c) (threads c) (cancelling c) x (exiting c) (trace c)).
Definition set_exiting : M cfg unit :=
  modify (fun c => mk_cfg (shared c) (threads c) (cancelling c) (draining c) true (trace c)).
Definition emit (e : event) : M cfg unit :=
  modify (fun c => mk_cfg (shared c) (threads c) (cancelling c) (draining c) (exiting c) (trace c ++ [e])).

(** The thread of the loop is free to call. *)
Definition calls : M cfg unit :=
  let* x := gets cancelling in guard (bool_decide (x = None)).

Definition act (a : action) : M cfg unit :=
  match a with
  | ASubmit w kind work_ done_ =>
      (* the caller submits a work that is not in use *)
      calls;;;
      let* t := gets trace in
      guard (bool_decide (phase_of w t = Some Free));;;
      let* m := gets (fun c => nodes (shared c)) in
      guard (bool_decide (is_Some (m !! work_wq w)));;;
      on_shared (uv__work_submit w kind work_ done_);;;
      emit (EvSubmit w)
  | ACancel w =>
      calls;;;
      let* t := gets trace in
      guard (negb (bool_decide (phase_of w t = Some Free)));;;
      let* b := on_shared (work_cancel_locked w) in
      if b : bool then set_cancelling (Some w) else ret tt
  | ACancelRest =>
      let* x := gets cancelling in
      match x with
      | Some w => on_shared (work_cancel_rest w);;; set_cancelling None
      | None => failed
      end
  | ADoneTake =>
      calls;;;
      (* the callback of loop->wq_async *)
      let* d := gets draining in
      guard (negb d);;;
      let* sent := gets (fun c => async_sent (shared c)) in
      guard sent;;;
      on_shared work_done_take;;;
      set_draining true
  | ADoneNext =>
      calls;;;
      let* d := gets draining in
      guard d;;;
      let* r := on_shared work_done_next in
      match r with
      | Some (w, status) => emit (EvDone w status)
      | None => set_draining false
      end
  | AExit =>
      calls;;;
      let* e := gets exiting in
      guard (negb e);;;
      on_shared (post exit_message UV__WORK_CPU);;;
      set_exiting
  | AEnter t =>
      let* x := get_thread t in
      match x with
      | Ready slow => let* y := on_shared (worker_enter slow) in set_thread t y
      | _ => failed
      end
  | AWake t spurious =>
      let* x := get_thread t in
      guard (bool_decide (x = Waiting));;;
      let* n := gets (fun c => signalled (shared c)) in
      let* i := gets (fun c => idle_threads (shared c)) in
      guard (if spurious then n <? i else 0 <? n);;;
      let* y := on_shared (worker_wake spurious) in set_thread t y
  | ARun t =>
      let* x := get_thread t in
      match x with
      | Running w slow =>
          let* k := on_shared (get_work w) in
          match work k with
          | WFun f => emit (EvRun w f);;; set_thread t (Ran w slow)
          | uv__cancelled => undef UbAssert      (* its body is abort() *)
          | WNull => undef UbCall
          end
      | _ => failed
      end
  | AFinish t =>
      let* x := get_thread t in
      match x with
      | Ran w slow => on_shared (worker_finish w);;; set_thread t (Ready slow)
      | _ => failed
      end
  end.

Definition step (c c' : cfg) : Prop := exists a, act a c = Done tt c'.

(** The number of threads of [init_threads]: [val] is the [atoi] of
    [UV_THREADPOOL_SIZE] if it is set, [malloc_ok] that [uv__malloc] did not
    fail. *)
Definition init_nthreads (val : option Z) (malloc_ok : bool) : Z :=
  let n := match val with Some v => u32 v | None => 4 end in
  let n := if n =? 0 then 1 else n in
  let n := if MAX_THREADPOOL_SIZE <? n then MAX_THREADPOOL_SIZE else n in
  if (4 <? n) && negb malloc_ok then 4 else n.

(** After [init_once]: the workers are about to lock the mutex, no work is
    submitted.  [ws] are the addresses of the works that the caller will use. *)
Definition pool_init (val : option Z) (malloc_ok : bool) (ws : list Z) : cfg :=
  let n := init_nthreads val malloc_ok in
  mk_cfg
    (mk_pool 0 0 n
       (foldr (fun q m => <[q := mk_qnode q q]> m) ∅
          ([wq; slow_io_pending_wq; run_slow_work_message; exit_message; loop_wq; done_wq] ++ map work_wq ws))
       ∅ 0 false)
    (replicate (Z.to_nat n) (Ready false)) None false false [].
