(* ===== verification/UvPoolInv.v ===== *)
(** libuv, [threadpool.c]: who owns each queue node, where each work is, and the
    invariant of the pool with its threads. *)
From stdpp Require Import functions.
From S2P Require Import Prelude.
From S2P Require Import UvQueue.
From S2P Require Import UvQueueProofs.
From S2P Require Import UvPool.

#[local] Set Warnings "-clear-no-such-hyp".

(** ** Queues with the owner of each node *)
Section Family.
Context {K : Type} `{Countable K}.
Implicit Types (m : gmap K (qnode K)) (Q : gmap K (list K)) (ow : K -> option K) (h n q x : K).

Definition owns Q ow : Prop := forall x h, ow x = Some h <-> exists l, Q !! h = Some l /\ x ∈ h :: l.

Definition nodes_kept m m' : Prop := forall x, is_Some (nxt m x) -> is_Some (nxt m' x).

Record fam Q ow m : Prop := {
  fam_wf : queues_wf Q m;
  fam_owns : owns Q ow
}.

Lemma fam_unowned Q ow m x : fam Q ow m -> ow x = None -> unowned Q x.
Proof.
  intros [_ Ho] E h l EQ Hx. assert (ow x = Some h) as E' by (apply Ho; eauto). by rewrite E in E'.
Qed.

Lemma fam_key Q ow m h l : fam Q ow m -> Q !! h = Some l -> ow h = Some h.
Proof. intros [_ Ho] E. apply Ho. exists l. split; [done|by left]. Qed.

Lemma fam_in Q ow m h l x : fam Q ow m -> Q !! h = Some l -> x ∈ l -> ow x = Some h.
Proof. intros [_ Ho] E Hx. apply Ho. exists l. split; [done|by right]. Qed.

Lemma fam_queue Q ow m x h : fam Q ow m -> ow x = Some h -> exists l, Q !! h = Some l /\ x ∈ h :: l.
Proof. intros [_ Ho]. apply Ho. Qed.

Lemma fam_nodup Q ow m h l : fam Q ow m -> Q !! h = Some l -> NoDup (h :: l).
Proof. intros [Hw _] E. by eapply queue_nodup, (qs_queue _ _ Hw). Qed.

Lemma fam_mapped Q ow m x h : fam Q ow m -> ow x = Some h -> is_Some (nxt m x).
Proof.
  intros Hf E. destruct (fam_queue _ _ _ _ _ Hf E) as (l & EQ & Hx).
  apply (queue_mapped m h l); [|done]. apply (qs_queue _ _ (fam_wf _ _ _ Hf) _ _ EQ).
Qed.

Lemma fam_init Q ow m q :
  fam Q ow m -> ow q = None -> is_Some (nxt m q) ->
  exists m', QUEUE_INIT q m = Done tt m' /\ fam (<[q := []]> Q) (<[q := Some q]> ow) m' /\ nodes_kept m m'.
Proof.
  intros Hf Hu Hm. pose proof (fam_unowned _ _ _ _ Hf Hu) as Hu'. destruct Hf as [Hw Ho]. unfold owns in Ho.
  destruct (qs_init Q m q Hw Hu' Hm) as (m' & E & Hw' & Hk). exists m'. split; [done|]. split; [|done].
  split; [done|]. intros x h. destruct (decide (x = q)) as [->|Hx].
  - rewrite fn_lookup_insert. split.
    + intros [= <-]. exists []. rewrite lookup_insert_eq. split; [done|by left].
    + intros (l & [[-> <-]|[Hne E']]%lookup_insert_Some & Hin); [done|]. by destruct (Hu' h l).
  - rewrite fn_lookup_insert_ne, Ho by done. split; intros (l & E' & Hin); exists l.
    + rewrite lookup_insert_ne; [done|]. intros ->. by apply (Hu' h l E'); left.
    + apply lookup_insert_Some in E' as [[<- <-]|[Hne E']]; [|done].
      by apply list_elem_of_singleton in Hin.
Qed.

Lemma fam_remove Q ow m h l1 x l2 :
  fam Q ow m -> Q !! h = Some (l1 ++ x :: l2) ->
  exists m', QUEUE_REMOVE x m = Done tt m' /\ fam (<[h := l1 ++ l2]> Q) (<[x := None]> ow) m' /\ nodes_kept m m'.
Proof.
  intros [Hw Ho] E. unfold owns in Ho. destruct (qs_remove Q m h l1 x l2 Hw E) as (m' & Er & Hw' & Hu & Hk). exists m'.
  split; [done|]. split; [|done]. split; [done|]. intros y h'. destruct (decide (y = x)) as [->|Hy].
  - rewrite fn_lookup_insert. split; [done|]. intros (l & E' & Hin). by destruct (Hu h' l).
  - rewrite fn_lookup_insert_ne, Ho by done. destruct (decide (h' = h)) as [->|Hne].
    + rewrite lookup_insert_eq, E. split; intros (l & [= <-] & Hin); eexists; (split; [done|]); set_solver.
    + by rewrite lookup_insert_ne by done.
Qed.

Lemma fam_insert_tail Q ow m h l x :
  fam Q ow m -> Q !! h = Some l -> ow x = None -> is_Some (nxt m x) ->
  exists m', QUEUE_INSERT_TAIL h x m = Done tt m' /\ fam (<[h := l ++ [x]]> Q) (<[x := Some h]> ow) m' /\
  nodes_kept m m'.
Proof.
  intros Hf E Eo Hm. pose proof (fam_unowned _ _ _ _ Hf Eo) as Hu. destruct Hf as [Hw Ho]. unfold owns in Ho.
  destruct (qs_insert_tail Q m h l x Hw E Hu Hm) as (m' & Er & Hw' & Hk).
  exists m'. split; [done|]. split; [|done]. split; [done|]. intros y h'. destruct (decide (y = x)) as [->|Hy].
  - rewrite fn_lookup_insert. split.
    + intros [= <-]. eexists. rewrite lookup_insert_eq. split; [done|]. set_solver.
    + intros (k & [[-> <-]|[Hne E']]%lookup_insert_Some & Hin); [done|]. by destruct (Hu h' k).
  - rewrite fn_lookup_insert_ne, Ho by done. destruct (decide (h' = h)) as [->|Hne].
    + rewrite lookup_insert_eq, E. split; intros (k & [= <-] & Hin); eexists; (split; [done|]); set_solver.
    + by rewrite lookup_insert_ne by done.
Qed.

Lemma fam_delete Q ow m h :
  fam Q ow m -> Q !! h = Some [] -> fam (delete h Q) (<[h := None]> ow) m.
Proof.
  intros [Hw Ho] E. unfold owns in Ho. split; [by apply queues_wf_delete|]. intros y h'. destruct (decide (y = h)) as [->|Hy].
  - rewrite fn_lookup_insert. split; [done|]. intros (l & E' & Hin).
    by destruct (unowned_delete _ _ _ Hw E h' l).
  - rewrite fn_lookup_insert_ne, Ho by done. split; intros (l & E' & Hin); exists l; (split; [|done]).
    + rewrite lookup_delete_ne; [done|]. intros <-. rewrite E in E'. injection E' as <-.
      by apply list_elem_of_singleton in Hin.
    + by apply lookup_delete_Some in E' as [_ E'].
Qed.

Lemma fam_move Q ow m h l n :
  fam Q ow m -> Q !! h = Some l -> Q !! n = Some [] -> n <> h ->
  exists m', QUEUE_MOVE h n m = Done tt m' /\
  fam (<[n := l]> (<[h := []]> Q)) (fun x => if decide (x ∈ l) then Some n else ow x) m' /\ nodes_kept m m'.
Proof.
  intros Hf E En Hne. pose proof (fam_nodup _ _ _ _ _ Hf E) as [Hh _]%NoDup_cons.
  pose proof Hf as [Hw Ho]. unfold owns in Ho. destruct (qs_move Q m h l n Hw E En Hne) as (m' & Er & Hw' & Hk).
  exists m'. split; [done|]. split; [|done]. split; [done|]. intros y h'. destruct (decide (y ∈ l)) as [Hy|Hy].
  - assert (ow y = Some h) as Ey by by eapply fam_in. split.
    + intros [= <-]. exists l. rewrite lookup_insert_eq. split; [done|by right].
    + intros (k & [[-> <-]|[H1 [[<- <-]|[H2 E']]%lookup_insert_Some]]%lookup_insert_Some & Hin); [done| |].
      * by apply list_elem_of_singleton in Hin as ->.
      * assert (ow y = Some h') as E'' by (apply Ho; eauto). congruence.
  - rewrite Ho. split; intros (k & E' & Hin).
    + destruct (decide (h' = n)) as [->|H1]; [|destruct (decide (h' = h)) as [->|H2]].
      * exists l. rewrite lookup_insert_eq. split; [done|]. rewrite En in E'. injection E' as <-. set_solver.
      * exists []. rewrite lookup_insert_ne, lookup_insert_eq by done. split; [done|].
        rewrite E in E'. injection E' as <-. set_solver.
      * exists k. by rewrite !lookup_insert_ne by done.
    + apply lookup_insert_Some in E' as [[<- <-]|[H1 [[<- <-]|[H2 E']]%lookup_insert_Some]].
      * exists []. split; [done|]. set_solver.
      * exists l. split; [done|]. set_solver.
      * by exists k.
Qed.
(** A node in the list of a queue does not look empty. *)
Lemma empty_member m h l1 x l2 : queue m h (l1 ++ x :: l2) -> QUEUE_EMPTY x m = Done false m.
Proof.
  intros Hq. destruct (queue_split _ _ _ _ _ Hq) as (A & a & b & B & _ & EB & _ & _ & _ & [Hn _]).
  unfold QUEUE_EMPTY. rewrite (bind_next _ _ _ _ Hn). unfold ret. f_equal. apply bool_decide_eq_false_2.
  intros <-. pose proof (queue_nodup _ _ _ Hq) as Hd. rewrite Permutation_app_comm in Hd.
  apply NoDup_cons in Hd as [_ Hd].
  destruct l2 as [|y l2]; injection EB as E1 _; subst; pose proof (queue_nodup _ _ _ Hq) as Hd'.
  - apply NoDup_cons in Hd' as [Hd' _]. set_solver.
  - cbn in Hd. apply NoDup_cons in Hd as [Hd _]. set_solver.
Qed.

End Family.

(** ** Where a work is *)
Inductive place : Set :=
| Nowhere
| AtWq
| AtSlow
| AtRun (t : tid)      (* taken by the thread [t], not called yet *)
| AtRan (t : tid)      (* called *)
| AtLoop (cancelled : bool)
| AtDone (cancelled : bool)
| AtCancel.            (* taken out of its queue by uv__work_cancel *)

#[export] Instance place_eq_dec : EqDecision place.
Proof. solve_decision. Defined.

Definition place_owner (w : Z) (p : place) : option tptr :=
  match p with
  | Nowhere | AtCancel => None
  | AtWq => Some wq
  | AtSlow => Some slow_io_pending_wq
  | AtRun _ | AtRan _ => Some (work_wq w)
  | AtLoop _ => Some loop_wq
  | AtDone _ => Some done_wq
  end.

(** The four lists of works. *)
Record lists : Type := mk_lists {
  l_wq : list tptr;
  l_slow : list tptr;
  l_loop : list tptr;
  l_done : list tptr
}.

(** The queues of the pool: [scheduled] is that [run_slow_work_message] is in
    [wq], [exiting] that [exit_message] is. *)
Record pqueues (pl : Z -> place) (ex sched : bool) (ls : lists)
    (Q : gmap tptr (list tptr)) (ow : tptr -> option tptr) (m : gmap tptr (qnode tptr)) : Prop := {
  pq_fam : fam Q ow m;
  pq_wq : Q !! wq = Some (l_wq ls);
  pq_slow : Q !! slow_io_pending_wq = Some (l_slow ls);
  pq_loop : Q !! loop_wq = Some (l_loop ls);
  pq_done : Q !! done_wq = Some (l_done ls);
  pq_msg : ow run_slow_work_message = Some (if sched then wq else run_slow_work_message);
  pq_msg_nil : sched = false -> Q !! run_slow_work_message = Some [];
  pq_exit : ow exit_message = if ex then Some wq else None;
  pq_exit_mapped : is_Some (nxt m exit_message);
  pq_place : forall w, ow (work_wq w) = place_owner w (pl w);
  pq_own_nil : forall w l, Q !! work_wq w = Some l -> l = [];
  pq_mapped : forall w, pl w <> Nowhere -> is_Some (nxt m (work_wq w))
}.

Arguments pq_fam {pl ex sched ls Q ow m}.
Arguments pq_wq {pl ex sched ls Q ow m}.
Arguments pq_slow {pl ex sched ls Q ow m}.
Arguments pq_loop {pl ex sched ls Q ow m}.
Arguments pq_done {pl ex sched ls Q ow m}.
Arguments pq_msg {pl ex sched ls Q ow m}.
Arguments pq_msg_nil {pl ex sched ls Q ow m}.
Arguments pq_exit {pl ex sched ls Q ow m}.
Arguments pq_exit_mapped {pl ex sched ls Q ow m}.
Arguments pq_place {pl ex sched ls Q ow m}.
Arguments pq_own_nil {pl ex sched ls Q ow m}.
Arguments pq_mapped {pl ex sched ls Q ow m}.

Definition pq pl ex sched ls m : Prop := exists Q ow, pqueues pl ex sched ls Q ow m.

Section Owner.
Context {pl : Z -> place} {ex sched : bool} {ls : lists} {Q : gmap tptr (list tptr)}
  {ow : tptr -> option tptr} {m : gmap tptr (qnode tptr)}.
Hypothesis H : pqueues pl ex sched ls Q ow m.

Lemma owner_cases x h :
  ow x = Some h ->
  match x with
  | run_slow_work_message => h = if sched then wq else run_slow_work_message
  | exit_message => h = wq /\ ex = true
  | work_wq w => place_owner w (pl w) = Some h
  | _ => h = x
  end.
Proof.
  intros E. destruct x as [| | | | | |w].
  - rewrite (fam_key _ _ _ _ _ (pq_fam H) (pq_wq H)) in E. congruence.
  - rewrite (fam_key _ _ _ _ _ (pq_fam H) (pq_slow H)) in E. congruence.
  - rewrite (pq_msg H) in E. congruence.
  - rewrite (pq_exit H) in E. destruct ex; [|done]. by injection E as <-.
  - rewrite (fam_key _ _ _ _ _ (pq_fam H) (pq_loop H)) in E. congruence.
  - rewrite (fam_key _ _ _ _ _ (pq_fam H) (pq_done H)) in E. congruence.
  - by rewrite <- (pq_place H).
Qed.

(** What is in the list of a queue. *)
Lemma elem_cases h l x :
  Q !! h = Some l -> x ∈ l ->
  match x with
  | run_slow_work_message => h = wq /\ sched = true
  | exit_message => h = wq /\ ex = true
  | work_wq w => place_owner w (pl w) = Some h
  | _ => False
  end.
Proof.
  intros E Hx. pose proof (fam_in _ _ _ _ _ _ (pq_fam H) E Hx) as Eo.
  pose proof (fam_nodup _ _ _ _ _ (pq_fam H) E) as [Hh _]%NoDup_cons.
  pose proof (owner_cases _ _ Eo) as C. destruct x; try (subst h; done); [|done..].
  destruct sched; [done|]. by subst h.
Qed.

Lemma in_queue w h l :
  place_owner w (pl w) = Some h -> Q !! h = Some l -> h <> work_wq w -> work_wq w ∈ l.
Proof.
  intros Ep E Hne. rewrite <- (pq_place H) in Ep.
  destruct (fam_queue _ _ _ _ _ (pq_fam H) Ep) as (l' & E' & Hin).
  rewrite E in E'. injection E' as <-. by apply elem_of_cons in Hin as [Hin|]; [subst h|].
Qed.

(** A work [w] moves to the place [p]. *)
Lemma pq_move_work w p ls' Q' ow' m' :
  fam Q' ow' m' -> nodes_kept m m' -> is_Some (nxt m (work_wq w)) ->
  (forall x, x <> work_wq w -> ow' x = ow x) -> ow' (work_wq w) = place_owner w p ->
  Q' !! wq = Some (l_wq ls') -> Q' !! slow_io_pending_wq = Some (l_slow ls') ->
  Q' !! loop_wq = Some (l_loop ls') -> Q' !! done_wq = Some (l_done ls') ->
  Q' !! run_slow_work_message = Q !! run_slow_work_message ->
  (forall w' l, Q' !! work_wq w' = Some l -> Q !! work_wq w' = Some l \/ l = []) ->
  pq (<[w := p]> pl) ex sched ls' m'.
Proof.
  intros Hf Hk Hm Ho Hp E1 E2 E3 E4 E5 E6. exists Q', ow'. split; try done.
  - rewrite Ho by done. apply (pq_msg H).
  - rewrite E5. apply (pq_msg_nil H).
  - rewrite Ho by done. apply (pq_exit H).
  - apply Hk, (pq_exit_mapped H).
  - intros w'. destruct (decide (w' = w)) as [->|]; [by rewrite fn_lookup_insert|].
    rewrite fn_lookup_insert_ne, Ho by congruence. apply (pq_place H).
  - intros w' l E. destruct (E6 w' l E) as [E'|]; [|done]. by apply (pq_own_nil H) in E'.
  - intros w' Hw'. apply Hk. destruct (decide (w' = w)) as [->|Hne]; [done|].
    rewrite fn_lookup_insert_ne in Hw' by done. by apply (pq_mapped H).
Qed.
End Owner.

Ltac qlook :=
  repeat first [rewrite lookup_insert_eq | rewrite lookup_insert_ne by done | rewrite lookup_delete_ne by done]; eauto.
(** The last premise of [pq_move_work]. *)
Ltac own_nil :=
  let w' := fresh "w'" in let l' := fresh "l'" in let E' := fresh "E'" in
  intros w' l' E';
  repeat match type of E' with
  | <[_ := _]> _ !! _ = _ => apply lookup_insert_Some in E' as [[? E']|[? E']]
  | delete _ _ !! _ = _ => apply lookup_delete_Some in E' as [? E']
  end; auto; try done.

(** ** The operations of the pool on the queues *)
Section Steps.
Context {pl : Z -> place} {ex sched : bool} {m : gmap tptr (qnode tptr)}.

Lemma take_work w lw lsl ll ld t :
  pq pl ex sched (mk_lists (work_wq w :: lw) lsl ll ld) m ->
  pl w = AtWq /\
  exists m1 m2, QUEUE_REMOVE (work_wq w) m = Done tt m1 /\ QUEUE_INIT (work_wq w) m1 = Done tt m2 /\
  pq (<[w := AtRun t]> pl) ex sched (mk_lists lw lsl ll ld) m2.
Proof.
  intros (Q & ow & H). pose proof (elem_cases H _ _ _ (pq_wq H) ltac:(by left)) as Hp. cbn in Hp.
  split; [by destruct (pl w)|].
  destruct (fam_remove Q ow m wq [] (work_wq w) lw (pq_fam H) (pq_wq H)) as (m1 & E1 & F1 & K1).
  assert (is_Some (nxt m (work_wq w))) as Hm by (apply (pq_mapped H); by destruct (pl w)).
  destruct (fam_init _ _ m1 (work_wq w) F1) as (m2 & E2 & F2 & K2); [by rewrite fn_lookup_insert|auto|].
  exists m1, m2. split; [done|]. split; [done|].
  apply (pq_move_work H w (AtRun t) _ _ _ _ F2); try solve [qlook; apply H]; [by intros x Hx; auto| | |].
  - intros x Hx. by rewrite !fn_lookup_insert_ne by done.
  - by rewrite fn_lookup_insert.
  - own_nil.
Qed.

Lemma take_slow_work x lw lsl ll ld t :
  pq pl ex sched (mk_lists lw (x :: lsl) ll ld) m ->
  exists w m1 m2, x = work_wq w /\ pl w = AtSlow /\
  QUEUE_REMOVE x m = Done tt m1 /\ QUEUE_INIT x m1 = Done tt m2 /\
  pq (<[w := AtRun t]> pl) ex sched (mk_lists lw lsl ll ld) m2.
Proof.
  intros (Q & ow & H). pose proof (elem_cases H _ _ _ (pq_slow H) ltac:(by left)) as Hp.
  destruct x as [| | | | | |w]; try done; [by destruct Hp as [? _]..|].
  exists w.
  destruct (fam_remove Q ow m slow_io_pending_wq [] (work_wq w) lsl (pq_fam H) (pq_slow H)) as (m1 & E1 & F1 & K1).
  assert (is_Some (nxt m (work_wq w))) as Hm by (apply (pq_mapped H); by destruct (pl w)).
  destruct (fam_init _ _ m1 (work_wq w) F1) as (m2 & E2 & F2 & K2); [by rewrite fn_lookup_insert|auto|].
  exists m1, m2. split; [done|]. split; [by destruct (pl w)|]. split; [done|]. split; [done|].
  apply (pq_move_work H w (AtRun t) _ _ _ _ F2); try solve [qlook; apply H]; [by intros y Hy; auto| | |].
  - intros y Hy. by rewrite !fn_lookup_insert_ne by done.
  - by rewrite fn_lookup_insert.
  - own_nil.
Qed.

(** The work [w] is put at the end of the queue [h]. *)
Lemma put_work_tail h w p ls ls' l Q ow :
  pqueues pl ex sched ls Q ow m -> ow (work_wq w) = None -> is_Some (nxt m (work_wq w)) ->
  place_owner w p = Some h -> h <> work_wq w -> h <> run_slow_work_message -> Q !! h = Some l ->
  (<[h := l ++ [work_wq w]]> Q) !! wq = Some (l_wq ls') ->
  (<[h := l ++ [work_wq w]]> Q) !! slow_io_pending_wq = Some (l_slow ls') ->
  (<[h := l ++ [work_wq w]]> Q) !! loop_wq = Some (l_loop ls') ->
  (<[h := l ++ [work_wq w]]> Q) !! done_wq = Some (l_done ls') ->
  exists m', QUEUE_INSERT_TAIL h (work_wq w) m = Done tt m' /\ pq (<[w := p]> pl) ex sched ls' m'.
Proof.
  intros H Eo Hm Ep Hh Hmsg E E1 E2 E3 E4.
  destruct (fam_insert_tail Q ow m h l (work_wq w) (pq_fam H) E Eo Hm) as (m' & Er & F & K).
  exists m'. split; [done|]. apply (pq_move_work H w p _ _ _ _ F K Hm); try done.
  - intros x Hx. by rewrite fn_lookup_insert_ne by done.
  - by rewrite fn_lookup_insert.
  - by rewrite lookup_insert_ne by done.
  - own_nil. exfalso. destruct p; cbn in Ep; congruence.
Qed.

Lemma put_wq w lw lsl ll ld :
  pq pl ex sched (mk_lists lw lsl ll ld) m -> pl w = Nowhere -> is_Some (nxt m (work_wq w)) ->
  exists m', QUEUE_INSERT_TAIL wq (work_wq w) m = Done tt m' /\
  pq (<[w := AtWq]> pl) ex sched (mk_lists (lw ++ [work_wq w]) lsl ll ld) m'.
Proof.
  intros (Q & ow & H) Ep Hm. eapply (put_work_tail wq w AtWq _ _ _ Q ow H); try done; try solve [qlook; apply H].
  by rewrite (pq_place H), Ep.
Qed.

Lemma put_slow w lw lsl ll ld :
  pq pl ex sched (mk_lists lw lsl ll ld) m -> pl w = Nowhere -> is_Some (nxt m (work_wq w)) ->
  exists m', QUEUE_INSERT_TAIL slow_io_pending_wq (work_wq w) m = Done tt m' /\
  pq (<[w := AtSlow]> pl) ex sched (mk_lists lw (lsl ++ [work_wq w]) ll ld) m'.
Proof.
  intros (Q & ow & H) Ep Hm.
  eapply (put_work_tail slow_io_pending_wq w AtSlow _ _ _ Q ow H); try done; try solve [qlook; apply H].
  by rewrite (pq_place H), Ep.
Qed.

Lemma put_cancelled w lw lsl ll ld :
  pq pl ex sched (mk_lists lw lsl ll ld) m -> pl w = AtCancel ->
  exists m', QUEUE_INSERT_TAIL loop_wq (work_wq w) m = Done tt m' /\
  pq (<[w := AtLoop true]> pl) ex sched (mk_lists lw lsl (ll ++ [work_wq w]) ld) m'.
Proof.
  intros (Q & ow & H) Ep. eapply (put_work_tail loop_wq w (AtLoop true) _ _ _ Q ow H); try done; try solve [qlook; apply H].
  - by rewrite (pq_place H), Ep.
  - apply (pq_mapped H). by rewrite Ep.
Qed.

Lemma put_ran w t lw lsl ll ld :
  pq pl ex sched (mk_lists lw lsl ll ld) m -> pl w = AtRan t ->
  exists m', QUEUE_INSERT_TAIL loop_wq (work_wq w) m = Done tt m' /\
  pq (<[w := AtLoop false]> pl) ex sched (mk_lists lw lsl (ll ++ [work_wq w]) ld) m'.
Proof.
  intros (Q & ow & H) Ep. assert (ow (work_wq w) = Some (work_wq w)) as Eo by by rewrite (pq_place H), Ep.
  destruct (fam_queue _ _ _ _ _ (pq_fam H) Eo) as (l & El & _). pose proof (pq_own_nil H _ _ El) as ->.
  pose proof (fam_delete _ _ _ _ (pq_fam H) El) as F.
  assert (is_Some (nxt m (work_wq w))) as Hm by (apply (pq_mapped H); by rewrite Ep).
  destruct (fam_insert_tail _ _ m loop_wq ll (work_wq w) F) as (m' & Er & F' & K);
    [qlook; apply H|by rewrite fn_lookup_insert|done|].
  exists m'. split; [done|]. apply (pq_move_work H w _ _ _ _ _ F' K Hm); try solve [qlook; apply H].
  - intros x Hx. by rewrite !fn_lookup_insert_ne by done.
  - by rewrite fn_lookup_insert.
  - own_nil.
Qed.

(** Only the owner of [run_slow_work_message] changes. *)
Lemma pq_move_msg (sched' : bool) ls ls' Q ow Q' (ow' : tptr -> option tptr) m' :
  pqueues pl ex sched ls Q ow m -> fam Q' ow' m' -> nodes_kept m m' ->
  (forall x, x <> run_slow_work_message -> ow' x = ow x) ->
  ow' run_slow_work_message = Some (if sched' then wq else run_slow_work_message) ->
  (sched' = false -> Q' !! run_slow_work_message = Some []) ->
  Q' !! wq = Some (l_wq ls') -> Q' !! slow_io_pending_wq = Some (l_slow ls') ->
  Q' !! loop_wq = Some (l_loop ls') -> Q' !! done_wq = Some (l_done ls') ->
  (forall w, Q' !! work_wq w = Q !! work_wq w) ->
  pq pl ex sched' ls' m'.
Proof.
  intros H Hf Hk Ho Em En E1 E2 E3 E4 E5. exists Q', ow'. split; try done.
  - rewrite Ho by done. apply (pq_exit H).
  - apply Hk, (pq_exit_mapped H).
  - intros w. rewrite Ho by done. apply (pq_place H).
  - intros w l. rewrite E5. apply (pq_own_nil H).
  - intros w Hw. by apply Hk, (pq_mapped H).
Qed.

Lemma take_msg lw lsl ll ld :
  pq pl ex sched (mk_lists (run_slow_work_message :: lw) lsl ll ld) m ->
  sched = true /\
  exists m1 m2, QUEUE_REMOVE run_slow_work_message m = Done tt m1 /\
  QUEUE_INIT run_slow_work_message m1 = Done tt m2 /\ pq pl ex false (mk_lists lw lsl ll ld) m2.
Proof.
  intros (Q & ow & H). pose proof (elem_cases H _ _ _ (pq_wq H) ltac:(by left)) as [_ Hs]. split; [done|].
  destruct (fam_remove Q ow m wq [] run_slow_work_message lw (pq_fam H) (pq_wq H)) as (m1 & E1 & F1 & K1).
  assert (is_Some (nxt m run_slow_work_message)) as Hm by (exact (fam_mapped _ _ _ _ _ (pq_fam H) (pq_msg H))).
  destruct (fam_init _ _ m1 run_slow_work_message F1) as (m2 & E2 & F2 & K2);
    [by rewrite fn_lookup_insert|auto|].
  exists m1, m2. split; [done|]. split; [done|].
  apply (pq_move_msg false _ _ Q ow _ _ m2 H F2); try solve [qlook; apply H].
  - intros x Hx. auto.
  - intros x Hx. by rewrite !fn_lookup_insert_ne by done.
  - intros w. qlook.
Qed.
End Steps.

Lemma put_msg pl ex lw lsl ll ld m :
  pq pl ex false (mk_lists lw lsl ll ld) m ->
  exists m', QUEUE_INSERT_TAIL wq run_slow_work_message m = Done tt m' /\
  pq pl ex true (mk_lists (lw ++ [run_slow_work_message]) lsl ll ld) m'.
Proof.
  intros (Q & ow & H). pose proof (fam_delete _ _ _ _ (pq_fam H) (pq_msg_nil H eq_refl)) as F.
  destruct (fam_insert_tail _ _ m wq lw run_slow_work_message F) as (m' & Er & F' & K).
  { qlook; apply H. } { by rewrite fn_lookup_insert. } { exact (fam_mapped _ _ _ _ _ (pq_fam H) (pq_msg H)). }
  exists m'. split; [done|]. apply (pq_move_msg true _ _ Q ow _ _ m' H F' K); try solve [qlook; apply H].
  - intros x Hx. by rewrite !fn_lookup_insert_ne by done.
  - done.
  - intros w. qlook.
Qed.

Lemma put_exit pl sched lw lsl ll ld m :
  pq pl false sched (mk_lists lw lsl ll ld) m ->
  exists m', QUEUE_INSERT_TAIL wq exit_message m = Done tt m' /\
  pq pl true sched (mk_lists (lw ++ [exit_message]) lsl ll ld) m'.
Proof.
  intros (Q & ow & H).
  destruct (fam_insert_tail _ _ m wq lw exit_message (pq_fam H)) as (m' & Er & F' & K).
  { apply H. } { apply H. } { apply H. }
  exists m'. split; [done|]. exists (<[wq := lw ++ [exit_message]]> Q), (<[exit_message := Some wq]> ow).
  split; try solve [qlook; apply H]; try done.
  - rewrite fn_lookup_insert_ne by done. apply (pq_msg H).
  - apply K, (pq_exit_mapped H).
  - intros w l. rewrite lookup_insert_ne by done. apply (pq_own_nil H).
  - intros w Hw. by apply K, (pq_mapped H).
Qed.

(** The queue [loop_wq] is moved to [done_wq]. *)
Definition moved (pl : Z -> place) (w : Z) : place :=
  match pl w with AtLoop c => AtDone c | p => p end.

Lemma move_done pl ex sched lw lsl ll m :
  pq pl ex sched (mk_lists lw lsl ll []) m ->
  exists m', QUEUE_MOVE loop_wq done_wq m = Done tt m' /\ pq (moved pl) ex sched (mk_lists lw lsl [] ll) m'.
Proof.
  intros (Q & ow & H).
  destruct (fam_move Q ow m loop_wq ll done_wq (pq_fam H) (pq_loop H) (pq_done H)) as (m' & Er & F & K); [done|].
  exists m'. split; [done|]. eexists _, _. split; [exact F|..]; try solve [qlook; apply H]; cbv beta.
  - case_decide as Hin; [|apply (pq_msg H)]. by destruct (elem_cases H _ _ _ (pq_loop H) Hin).
  - case_decide as Hin; [|apply (pq_exit H)]. by destruct (elem_cases H _ _ _ (pq_loop H) Hin).
  - apply K, (pq_exit_mapped H).
  - intros w. unfold moved. case_decide as Hin.
    + pose proof (elem_cases H _ _ _ (pq_loop H) Hin) as E. cbn in E. by destruct (pl w).
    + rewrite (pq_place H). destruct (pl w) eqn:E; try done. exfalso. apply Hin.
      apply (in_queue H w loop_wq); [by rewrite E|apply H|done].
  - intros w l. rewrite !lookup_insert_ne by done. apply (pq_own_nil H).
  - intros w Hw. apply K, (pq_mapped H). unfold moved in Hw. by destruct (pl w).
Qed.

Lemma take_done pl ex sched lw lsl ll x ld m :
  pq pl ex sched (mk_lists lw lsl ll (x :: ld)) m ->
  exists w c m', x = work_wq w /\ pl w = AtDone c /\ QUEUE_REMOVE x m = Done tt m' /\
  is_Some (nxt m' (work_wq w)) /\
  pq (<[w := Nowhere]> pl) ex sched (mk_lists lw lsl ll ld) m'.
Proof.
  intros (Q & ow & H). pose proof (elem_cases H _ _ _ (pq_done H) ltac:(by left)) as Hp.
  destruct x as [| | | | | |w]; try done; [by destruct Hp..|]. cbn in Hp.
  destruct (pl w) as [| | | | | |c|] eqn:Ep; try done. exists w, c.
  destruct (fam_remove Q ow m done_wq [] (work_wq w) ld (pq_fam H) (pq_done H)) as (m' & E & F & K).
  assert (is_Some (nxt m (work_wq w))) as Hm by (apply (pq_mapped H); by rewrite Ep).
  exists m'. split; [done|]. split; [done|]. split; [done|]. split; [by apply K|].
  apply (pq_move_work H w Nowhere _ _ _ _ F K Hm); try solve [qlook; apply H].
  - intros y Hy. by rewrite fn_lookup_insert_ne by done.
  - by rewrite fn_lookup_insert.
  - own_nil.
Qed.

(** ** Reading the queues *)
Section Read.
Context {pl : Z -> place} {ex sched : bool} {ls : lists} {m : gmap tptr (qnode tptr)}.
Hypothesis Hpq : pq pl ex sched ls m.

Lemma empty_wq : QUEUE_EMPTY wq m = Done (bool_decide (l_wq ls = [])) m.
Proof. destruct Hpq as (Q & ow & H). apply (qs_empty Q); apply H. Qed.
Lemma empty_slow : QUEUE_EMPTY slow_io_pending_wq m = Done (bool_decide (l_slow ls = [])) m.
Proof. destruct Hpq as (Q & ow & H). apply (qs_empty Q); apply H. Qed.
Lemma empty_done : QUEUE_EMPTY done_wq m = Done (bool_decide (l_done ls = [])) m.
Proof. destruct Hpq as (Q & ow & H). apply (qs_empty Q); apply H. Qed.
Lemma head_wq x l : l_wq ls = x :: l -> QUEUE_HEAD wq m = Done x m.
Proof. destruct Hpq as (Q & ow & H). intros E. eapply (qs_head Q); [apply H|]. rewrite <- E. apply H. Qed.
Lemma head_slow x l : l_slow ls = x :: l -> QUEUE_HEAD slow_io_pending_wq m = Done x m.
Proof. destruct Hpq as (Q & ow & H). intros E. eapply (qs_head Q); [apply H|]. rewrite <- E. apply H. Qed.
Lemma head_done x l : l_done ls = x :: l -> QUEUE_HEAD done_wq m = Done x m.
Proof. destruct Hpq as (Q & ow & H). intros E. eapply (qs_head Q); [apply H|]. rewrite <- E. apply H. Qed.

Lemma next_msg x l : l_wq ls = x :: l -> QUEUE_NEXT x m = Done (default wq (head l)) m.
Proof. destruct Hpq as (Q & ow & H). intros E. eapply (qs_next Q); [apply H|]. rewrite <- E. apply H. Qed.

Lemma empty_msg : QUEUE_EMPTY run_slow_work_message m = Done (negb sched) m.
Proof.
  destruct Hpq as (Q & ow & H). destruct sched eqn:Es.
  - destruct (fam_queue _ _ _ _ _ (pq_fam H) (pq_msg H)) as (l & E & Hin).
    apply elem_of_cons in Hin as [|Hin]; [done|]. apply list_elem_of_split in Hin as (l1 & l2 & ->).
    apply (empty_member m wq l1 _ l2). by apply (qs_queue _ _ (fam_wf _ _ _ (pq_fam H))).
  - by rewrite (qs_empty Q m _ [] (fam_wf _ _ _ (pq_fam H)) (pq_msg_nil H eq_refl)).
Qed.

Lemma empty_work w : pl w <> Nowhere -> pl w <> AtCancel ->
  QUEUE_EMPTY (work_wq w) m = Done (bool_decide (place_owner w (pl w) = Some (work_wq w))) m.
Proof.
  destruct Hpq as (Q & ow & H). intros H1 H2.
  destruct (place_owner w (pl w)) as [h|] eqn:Ep; [|destruct (pl w); cbn in Ep; congruence].
  destruct (fam_queue Q ow m (work_wq w) h (pq_fam H)) as (l & E & Hin); [by rewrite (pq_place H)|].
  apply elem_of_cons in Hin as [<-|Hin].
  - pose proof (pq_own_nil H _ _ E) as ->. rewrite (qs_empty Q m _ [] (fam_wf _ _ _ (pq_fam H)) E).
    by rewrite !bool_decide_eq_true_2.
  - rewrite bool_decide_eq_false_2.
    + apply list_elem_of_split in Hin as (l1 & l2 & ->).
      apply (empty_member m h l1 _ l2). by apply (qs_queue _ _ (fam_wf _ _ _ (pq_fam H))).
    + intros [= ->]. rewrite (pq_own_nil H _ _ E) in Hin. by apply elem_of_nil in Hin.
Qed.
End Read.

(** ** The removal of a work from the queue it is in *)
Definition without (x : tptr) (l : list tptr) : list tptr := filter (fun y => y <> x) l.

Definition lists_without (x : tptr) (ls : lists) : lists :=
  mk_lists (without x (l_wq ls)) (without x (l_slow ls)) (without x (l_loop ls)) (without x (l_done ls)).

Lemma without_id x l : x ∉ l -> without x l = l.
Proof.
  unfold without. induction l as [|y l IH]; [done|]. rewrite not_elem_of_cons. intros [Hne Hx].
  rewrite filter_cons_True by congruence. by rewrite IH.
Qed.

Lemma without_mid x l1 l2 : NoDup (l1 ++ x :: l2) -> without x (l1 ++ x :: l2) = l1 ++ l2.
Proof.
  intros Hd. rewrite <- Permutation_middle in Hd. apply NoDup_cons in Hd as [Hx _].
  apply not_elem_of_app in Hx as [H1 H2]. unfold without. rewrite filter_app, filter_cons_False by congruence.
  fold (without x l1) (without x l2). by rewrite !without_id.
Qed.

Lemma elem_of_without x y l : y ∈ without x l <-> y <> x /\ y ∈ l.
Proof. unfold without. by rewrite list_elem_of_filter. Qed.

Lemma zlen_without x l : zlen (without x l) <= zlen l.
Proof. unfold without, zlen. pose proof (length_filter (fun y => y <> x) l). lia. Qed.

Lemma take_cancel pl ex sched ls m w h :
  pq pl ex sched ls m -> place_owner w (pl w) = Some h -> h <> work_wq w ->
  exists m', QUEUE_REMOVE (work_wq w) m = Done tt m' /\
  pq (<[w := AtCancel]> pl) ex sched (lists_without (work_wq w) ls) m'.
Proof.
  intros (Q & ow & H) Ep Hne.
  destruct (fam_queue Q ow m (work_wq w) h (pq_fam H)) as (l & E & Hin); [by rewrite (pq_place H)|].
  apply elem_of_cons in Hin as [|Hin]; [done|].
  pose proof (fam_nodup _ _ _ _ _ (pq_fam H) E) as [_ Hd]%NoDup_cons.
  apply list_elem_of_split in Hin as (l1 & l2 & ->).
  destruct (fam_remove Q ow m h l1 (work_wq w) l2 (pq_fam H) E) as (m' & Er & F & K).
  exists m'. split; [done|].
  assert (forall h' l', Q !! h' = Some l' -> (<[h := l1 ++ l2]> Q) !! h' = Some (without (work_wq w) l')) as Hl.
  { intros h' l' E'. destruct (decide (h' = h)) as [->|Hh].
    - rewrite lookup_insert_eq. rewrite E in E'. injection E' as <-. by rewrite without_mid.
    - rewrite lookup_insert_ne, without_id; [done| |done]. intros Hin.
      pose proof (elem_cases H _ _ _ E' Hin) as Ep'. cbn in Ep'. congruence. }
  assert (is_Some (nxt m (work_wq w))) as Hm by (apply (pq_mapped H); by destruct (pl w)).
  assert (h <> run_slow_work_message) as Hmsg by (intros ->; by destruct (pl w)).
  apply (pq_move_work H w AtCancel _ _ _ _ F K Hm); try (apply Hl; apply H).
  - intros x Hx. by rewrite fn_lookup_insert_ne by done.
  - by rewrite fn_lookup_insert.
  - by rewrite lookup_insert_ne by done.
  - own_nil. subst h. exfalso. destruct (pl w); cbn in Ep; congruence.
Qed.
