(* ===== verification/UvPoolProofs.v ===== *)
(** libuv, [threadpool.c]: the effect of each critical section on the queues,
    the places of the works and the counters. *)
From stdpp Require Import functions.
From S2P Require Import Prelude.
From S2P Require Import UvQueue.
From S2P Require Import UvQueueProofs.
From S2P Require Import UvPool.
From S2P Require Import UvPoolInv.

#[local] Set Warnings "-clear-no-such-hyp".

(** ** Running the monad *)
Lemma with_nodes_id s : with_nodes (nodes s) s = s.
Proof. by destruct s. Qed.

Lemma bind_on_nodes {A B} (op : Qm A) a t s (k : A -> P B) :
  op (nodes s) = Done a t -> bind (on_nodes op) k s = k a (with_nodes t s).
Proof. intros E. unfold bind, on_nodes. by rewrite E. Qed.

Lemma bind_read_nodes {A B} (op : Qm A) a s (k : A -> P B) :
  op (nodes s) = Done a (nodes s) -> bind (on_nodes op) k s = k a s.
Proof. intros E. by rewrite (bind_on_nodes _ _ _ _ _ E), with_nodes_id. Qed.

Lemma on_nodes_run {A} (op : Qm A) a t s : op (nodes s) = Done a t -> on_nodes op s = Done a (with_nodes t s).
Proof. intros E. unfold on_nodes. by rewrite E. Qed.

(** ** When a worker waits *)
Definition threshold (n : Z) : Z := u32 (n + 1) / 2.

Definition blocked (n r : Z) (lw : list tptr) : bool :=
  match lw with
  | [] => true
  | x :: l => bool_decide (x = run_slow_work_message) && bool_decide (l = []) && (threshold n <=? r)
  end.

Definition is_blocked (s : pool) (lw : list tptr) : bool := blocked (nthreads s) (slow_io_work_running s) lw.

Lemma pq_wq_elem pl ex sched ls m x :
  pq pl ex sched ls m -> x ∈ l_wq ls ->
  match x with
  | run_slow_work_message => sched = true
  | exit_message => ex = true
  | work_wq w => pl w = AtWq
  | _ => False
  end.
Proof.
  intros (Q & ow & H) Hx. pose proof (elem_cases H _ _ _ (pq_wq H) Hx) as E.
  destruct x as [| | | | | |w]; try done; [by destruct E..|]. cbn in E. by destruct (pl w).
Qed.

Lemma pq_wq_nodup pl ex sched ls m : pq pl ex sched ls m -> NoDup (l_wq ls).
Proof. intros (Q & ow & H). by pose proof (fam_nodup _ _ _ _ _ (pq_fam H) (pq_wq H)) as [_ ?]%NoDup_cons. Qed.

Lemma must_wait_spec pl ex sched ls s :
  pq pl ex sched ls (nodes s) -> must_wait s = Done (is_blocked s (l_wq ls)) s.
Proof.
  intros H. unfold must_wait. rewrite (bind_read_nodes _ _ _ _ (empty_wq H)).
  unfold is_blocked, blocked. destruct (l_wq ls) as [|x l] eqn:El; [done|].
  rewrite bool_decide_eq_false_2 by done. rewrite (bind_read_nodes _ _ _ _ (head_wq H _ _ El)).
  case_bool_decide as Hx; [|done]. subst x. rewrite (bind_read_nodes _ _ _ _ (next_msg H _ _ El)).
  destruct l as [|y l]; cbn [default head].
  - rewrite bool_decide_eq_true_2 by done. unfold bind, gets. done.
  - rewrite bool_decide_eq_false_2; [done|]. cbn. intros ->.
    apply (pq_wq_elem _ _ _ _ _ wq H). rewrite El. set_solver.
Qed.

(** ** The loop of a worker *)
Definition qlen (ls : lists) : Z := zlen (l_wq ls) + zlen (l_slow ls).

(** A [uv_cond_signal] that may have been called. *)
Definition signal_from (s s' : pool) : Prop :=
  signalled s' = signalled s \/ (signalled s' = signalled s + 1 /\ signalled s < idle_threads s).

Definition turn_result (pl : Z -> place) (ex : bool) (ls : lists) (t : tid) (s : pool) (y : wstate) (s' : pool) : Prop :=
  exists pl' sched' ls',
  pq pl' ex sched' ls' (nodes s') /\ (l_slow ls' = [] \/ sched' = true) /\
  l_loop ls' = l_loop ls /\ l_done ls' = l_done ls /\
  nthreads s' = nthreads s /\ works s' = works s /\ async_sent s' = async_sent s /\
  match y with
  | Waiting =>
      pl' = pl /\ is_blocked s' (l_wq ls') = true /\ idle_threads s' = idle_threads s + 1 /\
      signalled s' = signalled s /\ slow_io_work_running s' = slow_io_work_running s /\ qlen ls' <= qlen ls
  | Exited =>
      pl' = pl /\ ex = true /\ idle_threads s' = idle_threads s /\
      signal_from s s' /\ (0 < idle_threads s -> 0 < signalled s') /\
      slow_io_work_running s' = slow_io_work_running s /\ qlen ls' <= qlen ls
  | Running w slow =>
      (pl w = AtWq \/ pl w = AtSlow) /\ pl' = <[w := AtRun t]> pl /\ idle_threads s' = idle_threads s /\
      signal_from s s' /\ slow_io_work_running s' = slow_io_work_running s + Z.b2z slow /\
      (slow = true -> slow_io_work_running s < threshold (nthreads s)) /\ qlen ls' < qlen ls
  | _ => False
  end.

Lemma cond_signal_spec s :
  0 <= signalled s <= idle_threads s ->
  exists s', uv_cond_signal s = Done tt s' /\ nodes s' = nodes s /\ nthreads s' = nthreads s /\
  works s' = works s /\ async_sent s' = async_sent s /\ idle_threads s' = idle_threads s /\
  slow_io_work_running s' = slow_io_work_running s /\ signal_from s s' /\
  0 <= signalled s' <= idle_threads s /\ (0 < idle_threads s -> 0 < signalled s').
Proof.
  intros Hs. unfold uv_cond_signal, modify, signal_from. destruct (Z.ltb_spec (signalled s) (idle_threads s)).
  - eexists. split; [done|]. cbn. repeat split; auto; lia.
  - exists s. repeat split; auto; lia.
Qed.

(** [if (idle_threads > 0) uv_cond_signal(&cond);] *)
Lemma signal_idle_spec s :
  0 <= signalled s <= idle_threads s ->
  exists s', (let* i := gets idle_threads in if 0 <? i then uv_cond_signal else ret tt) s = Done tt s' /\
  nodes s' = nodes s /\ nthreads s' = nthreads s /\ works s' = works s /\ async_sent s' = async_sent s /\
  idle_threads s' = idle_threads s /\ slow_io_work_running s' = slow_io_work_running s /\ signal_from s s' /\
  0 <= signalled s' <= idle_threads s /\ (0 < idle_threads s -> 0 < signalled s').
Proof.
  intros Hs. rewrite bind_gets. destruct (Z.ltb_spec 0 (idle_threads s)).
  - by apply cond_signal_spec.
  - exists s. repeat (split; [done|]). split; [by left|]. lia.
Qed.

Section Turn.
Context (pl : Z -> place) (ex : bool) (t : tid).
Implicit Types (s : pool) (ls : lists).

Definition counters s : Prop :=
  0 <= signalled s <= idle_threads s /\ idle_threads s < 2 ^ 31 /\ 0 <= slow_io_work_running s < 2 ^ 31.

Lemma turn_blocked fuel sched ls s :
  pq pl ex sched ls (nodes s) -> l_slow ls = [] \/ sched = true -> counters s ->
  is_blocked s (l_wq ls) = true ->
  exists s', worker_loop (S fuel) s = Done Waiting s' /\ turn_result pl ex ls t s Waiting s'.
Proof.
  intros H Hsl (Hs & Hi & Hr) Hb. cbn [worker_loop].
  rewrite (bind_done _ _ _ _ _ (must_wait_spec _ _ _ _ _ H)), Hb. eexists. split; [done|].
  assert (u32 (idle_threads s + 1) = idle_threads s + 1) as E by (apply Z.mod_small; lia).
  exists pl, sched, ls. cbn. rewrite E. split; [done|]. split; [done|]. repeat (split; [done|]). done.
Qed.

Lemma turn_front fuel sched ls s x lw :
  pq pl ex sched ls (nodes s) -> l_slow ls = [] \/ sched = true -> counters s ->
  l_wq ls = x :: lw -> x <> run_slow_work_message ->
  exists y s', worker_loop (S fuel) s = Done y s' /\ turn_result pl ex ls t s y s'.
Proof.
  intros H Hsl (Hs & Hi & Hr) El Hx. cbn [worker_loop].
  rewrite (bind_done _ _ _ _ _ (must_wait_spec _ _ _ _ _ H)). unfold is_blocked, blocked.
  rewrite El, bool_decide_eq_false_2 by done. cbn [andb].
  rewrite (bind_read_nodes _ _ _ _ (head_wq H _ _ El)).
  pose proof (pq_wq_elem _ _ _ _ _ x H) as Hel. rewrite El in Hel. specialize (Hel ltac:(by left)).
  case_bool_decide as Hex.
  - subst x. destruct (cond_signal_spec s Hs) as (s' & E & En & E1 & E2 & E3 & E4 & E5 & E6 & E7 & E8).
    rewrite (bind_done _ _ _ _ _ E). exists Exited, s'. split; [done|].
    exists pl, sched, ls. rewrite En. repeat (split; [done|]). done.
  - destruct x as [| | | | | |w]; try done. destruct ls as [lw0 lsl ll ld]. cbn [l_wq l_slow l_loop l_done] in *. subst lw0.
    destruct (take_work w lw lsl ll ld t H) as (Ep & m1 & m2 & E1 & E2 & H2).
    rewrite (bind_on_nodes _ _ _ _ _ E1), (bind_on_nodes (QUEUE_INIT (work_wq w)) tt m2) by done.
    rewrite bool_decide_eq_false_2 by done.
    eexists (Running w false), _. split; [done|]. exists (<[w := AtRun t]> pl), sched, (mk_lists lw lsl ll ld).
    cbn. split; [done|]. repeat (split; [done|]). split; [by left|]. split; [done|]. split; [done|].
    split; [by left|]. split; [lia|]. split; [done|]. unfold qlen; cbn. rewrite zlen_cons. lia.
Qed.

(** A turn after a [continue]. *)
Lemma turn_again ls ls1 s m y s' :
  turn_result pl ex ls1 t (with_nodes m s) y s' -> qlen ls1 <= qlen ls ->
  l_loop ls1 = l_loop ls -> l_done ls1 = l_done ls -> turn_result pl ex ls t s y s'.
Proof.
  intros (pl' & sched' & ls' & H & Hsl & El & Ed & E1 & E2 & E3 & Hy) Hq El' Ed'. exists pl', sched', ls'.
  rewrite El, Ed. repeat (split; [done|]). destruct y; try done.
  - destruct Hy as (? & ? & ? & ? & ? & ?). repeat (split; [done|]). lia.
  - destruct Hy as (? & ? & ? & ? & ? & ? & ?). repeat (split; [done|]). lia.
  - destruct Hy as (? & ? & ? & ? & ? & ? & ?). repeat (split; [done|]). lia.
Qed.

(** One turn on the message when slow work may start. *)
Lemma turn_slow fuel lw x lsl ll ld s :
  pq pl ex true (mk_lists (run_slow_work_message :: lw) (x :: lsl) ll ld) (nodes s) -> counters s ->
  slow_io_work_running s < threshold (nthreads s) ->
  exists y s', worker_loop (S fuel) s = Done y s' /\
  turn_result pl ex (mk_lists (run_slow_work_message :: lw) (x :: lsl) ll ld) t s y s'.
Proof.
  intros H (Hs & Hi & Hr) Hlt. destruct (take_msg _ _ _ _ H) as (_ & m1 & m2 & E1 & E2 & H2).
  destruct (take_slow_work x lw lsl ll ld t H2) as (w & m3 & m4 & -> & Ep & E3 & E4 & H4).
  cbn [worker_loop]. rewrite (bind_done _ _ _ _ _ (must_wait_spec _ _ _ _ _ H)). unfold is_blocked, blocked.
  cbn [l_wq]. replace (threshold (nthreads s) <=? slow_io_work_running s) with false by lia.
  rewrite andb_false_r, (bind_read_nodes _ _ _ _ (head_wq H _ _ eq_refl)), bool_decide_eq_false_2 by done.
  rewrite (bind_on_nodes _ _ _ _ _ E1), (bind_on_nodes (QUEUE_INIT run_slow_work_message) tt m2) by done.
  rewrite bool_decide_eq_true_2 by done. cbn [with_nodes]. unfold slow_work_thread_threshold. rewrite !bind_gets. cbn.
  fold (threshold (nthreads s)). replace (threshold (nthreads s) <=? slow_io_work_running s) with false by lia.
  rewrite (bind_read_nodes (QUEUE_EMPTY slow_io_pending_wq) false) by exact (empty_slow H2).
  rewrite bind_modify, (bind_read_nodes (QUEUE_HEAD slow_io_pending_wq) (work_wq w)) by exact (head_slow H2 _ _ eq_refl).
  cbn. rewrite (bind_on_nodes _ tt m3) by done. cbn. rewrite (bind_on_nodes (QUEUE_INIT (work_wq w)) tt m4) by done.
  cbn. rewrite (bind_read_nodes (QUEUE_EMPTY slow_io_pending_wq) (bool_decide (lsl = []))) by exact (empty_slow H4).
  assert (u32 (slow_io_work_running s + 1) = slow_io_work_running s + 1) as Eu by (apply Z.mod_small; lia).
  rewrite Eu. destruct lsl as [|x' lsl].
  - rewrite bool_decide_eq_true_2 by done. eexists (Running w true), _. split; [done|].
    exists (<[w := AtRun t]> pl), false, (mk_lists lw [] ll ld). cbn. split; [done|]. split; [by left|].
    repeat (split; [done|]). split; [by right|]. split; [done|]. split; [done|]. split; [by left|].
    repeat (split; [done|]). unfold qlen; cbn. rewrite !zlen_cons, zlen_nil. lia.
  - rewrite bool_decide_eq_false_2 by done. destruct (put_msg _ _ _ _ _ _ _ H4) as (m5 & E5 & H5).
    rewrite bind_assoc, (bind_on_nodes _ tt m5) by done.
    match goal with |- context [bind (bind (gets idle_threads) _) _ ?st] =>
      destruct (signal_idle_spec st Hs) as (s' & Es & En & F1 & F2 & F3 & F4 & F5 & F6 & _) end.
    rewrite (bind_done _ _ _ _ _ Es). eexists (Running w true), _. split; [done|].
    exists (<[w := AtRun t]> pl), true, (mk_lists (lw ++ [run_slow_work_message]) (x' :: lsl) ll ld).
    rewrite En. cbn. split; [done|]. split; [by right|]. repeat (split; [done|]). split; [by right|].
    split; [done|]. split; [done|]. split; [done|]. split; [done|]. split; [done|].
    unfold qlen; cbn. rewrite zlen_app, !zlen_cons, zlen_nil. lia.
Qed.

(** One turn on the message that goes on with the next one. *)
Lemma turn_msg fuel lw lsl ll ld s :
  pq pl ex true (mk_lists (run_slow_work_message :: lw) lsl ll ld) (nodes s) -> counters s ->
  is_blocked s (run_slow_work_message :: lw) = false ->
  lsl = [] \/ threshold (nthreads s) <= slow_io_work_running s ->
  exists m sched' ls1, worker_loop (S fuel) s = worker_loop fuel (with_nodes m s) /\
  pq pl ex sched' ls1 m /\ (l_slow ls1 = [] \/ sched' = true) /\ qlen ls1 <= qlen (mk_lists (run_slow_work_message :: lw) lsl ll ld) /\
  l_loop ls1 = ll /\ l_done ls1 = ld /\
  (l_wq ls1 = [] \/ exists x l, l_wq ls1 = x :: l /\ x <> run_slow_work_message).
Proof.
  intros H Hc Hb Hor. destruct (take_msg _ _ _ _ H) as (_ & m1 & m2 & E1 & E2 & H2).
  assert (lw = [] \/ exists x l, lw = x :: l /\ x <> run_slow_work_message) as Hlw.
  { destruct lw as [|x l]; [by left|]. right. exists x, l. split; [done|].
    pose proof (pq_wq_nodup _ _ _ _ _ H) as Hd. apply NoDup_cons in Hd as [Hd _]. cbn in Hd. set_solver. }
  cbn [worker_loop]. rewrite (bind_done _ _ _ _ _ (must_wait_spec _ _ _ _ _ H)). cbn [l_wq]. rewrite Hb.
  rewrite (bind_read_nodes _ _ _ _ (head_wq H _ _ eq_refl)), bool_decide_eq_false_2 by done.
  rewrite (bind_on_nodes _ _ _ _ _ E1), (bind_on_nodes (QUEUE_INIT run_slow_work_message) tt m2) by done.
  rewrite bool_decide_eq_true_2 by done. unfold slow_work_thread_threshold. rewrite !bind_gets. cbn.
  fold (threshold (nthreads s)). destruct (Z.leb_spec (threshold (nthreads s)) (slow_io_work_running s)) as [Hle|Hlt].
  - destruct (put_msg _ _ _ _ _ _ _ H2) as (m3 & E3 & H3). rewrite (bind_on_nodes _ tt m3) by done.
    eexists m3, true, _. split; [done|]. split; [exact H3|]. split; [by right|].
    split; [unfold qlen; cbn; rewrite zlen_app, !zlen_cons, zlen_nil; lia|]. repeat (split; [done|]).
    right. destruct Hlw as [->|(x & l & -> & Hx)]; [|exists x, (l ++ [run_slow_work_message]); done].
    unfold is_blocked, blocked in Hb. rewrite !bool_decide_eq_true_2 in Hb by done. cbn in Hb. lia.
  - destruct Hor as [->|]; [|lia].
    rewrite (bind_read_nodes (QUEUE_EMPTY slow_io_pending_wq) true) by exact (empty_slow H2).
    eexists m2, false, _. split; [done|]. split; [exact H2|]. split; [by left|].
    split; [unfold qlen; cbn; rewrite zlen_cons; lia|]. done.
Qed.

Lemma worker_loop_spec sched ls s :
  pq pl ex sched ls (nodes s) -> l_slow ls = [] \/ sched = true -> counters s ->
  exists y s', worker_loop loop_fuel s = Done y s' /\ turn_result pl ex ls t s y s'.
Proof.
  intros H Hsl Hc. unfold loop_fuel. destruct (is_blocked s (l_wq ls)) eqn:Hb.
  { destruct (turn_blocked 2 _ _ _ H Hsl Hc Hb) as (s' & E & Hr). by exists Waiting, s'. }
  destruct ls as [[|x lw] lsl ll ld]; [done|]. cbn [l_wq] in Hb.
  destruct (decide (x = run_slow_work_message)) as [->|Hx];
    [|apply (turn_front 2 _ _ _ x lw H); done].
  assert (sched = true) as -> by (apply (pq_wq_elem _ _ _ _ _ run_slow_work_message H); by left).
  assert ((exists x lsl', lsl = x :: lsl' /\ slow_io_work_running s < threshold (nthreads s)) \/
    (lsl = [] \/ threshold (nthreads s) <= slow_io_work_running s)) as [(x & lsl' & -> & Hlt)|Hor].
  { destruct lsl as [|x lsl]; [by right; left|].
    destruct (Z.lt_ge_cases (slow_io_work_running s) (threshold (nthreads s))); [left; eauto|right; right; lia]. }
  { by apply turn_slow. }
  destruct (turn_msg 2 _ _ _ _ _ H Hc Hb Hor) as (m & sched' & ls1 & -> & H1 & Hsl1 & Hq & El & Ed & Hw).
  assert (exists y s', worker_loop 2 (with_nodes m s) = Done y s' /\ turn_result pl ex ls1 t (with_nodes m s) y s')
    as (y & s' & E & Hr); [|exists y, s'; split; [done|]; by eapply turn_again].
  destruct Hw as [Ew|(x & l & Ew & Hx)].
  - destruct (turn_blocked 1 sched' ls1 (with_nodes m s) H1 Hsl1 Hc) as (s' & E & Hr); [|by exists Waiting, s'].
    by rewrite Ew.
  - by apply (turn_front 1 sched' ls1 (with_nodes m s) x l).
Qed.
End Turn.

(** ** The other critical sections *)
Definition post_result (pl' : Z -> place) (ex' : bool) (ls : lists) (s s' : pool) : Prop :=
  exists sched' ls',
  pq pl' ex' sched' ls' (nodes s') /\ (l_slow ls' = [] \/ sched' = true) /\
  l_loop ls' = l_loop ls /\ l_done ls' = l_done ls /\
  nthreads s' = nthreads s /\ works s' = works s /\ async_sent s' = async_sent s /\
  idle_threads s' = idle_threads s /\ slow_io_work_running s' = slow_io_work_running s /\
  signalled s <= signalled s' <= idle_threads s /\
  (is_blocked s' (l_wq ls') = false -> 0 < idle_threads s -> 0 < signalled s' \/ is_blocked s (l_wq ls) = false).

Lemma post_signal pl' ex' sched' ls ls' s m :
  pq pl' ex' sched' ls' m -> l_slow ls' = [] \/ sched' = true ->
  l_loop ls' = l_loop ls -> l_done ls' = l_done ls -> 0 <= signalled s <= idle_threads s ->
  exists s', (let* i := gets idle_threads in if 0 <? i then uv_cond_signal else ret tt) (with_nodes m s) = Done tt s' /\
  post_result pl' ex' ls s s'.
Proof.
  intros H Hsl El Ed Hs.
  destruct (signal_idle_spec (with_nodes m s) Hs) as (s' & E & En & E1 & E2 & E3 & E4 & E5 & E6 & E7 & E8).
  exists s'. split; [done|]. exists sched', ls'. rewrite En. repeat (split; [done|]).
  split; [destruct E6 as [E6|[E6 _]]; cbn in *; lia|auto].
Qed.

Section Post.
Context {pl : Z -> place} {ex sched : bool} {ls : lists} {s : pool}.
Hypothesis H : pq pl ex sched ls (nodes s).
Hypothesis Hsl : l_slow ls = [] \/ sched = true.
Hypothesis Hs : 0 <= signalled s <= idle_threads s.

Lemma post_work_spec w kind :
  pl w = Nowhere -> is_Some (nxt (nodes s) (work_wq w)) ->
  exists s', post (work_wq w) kind s = Done tt s' /\
  post_result (<[w := if bool_decide (kind = UV__WORK_SLOW_IO) then AtSlow else AtWq]> pl) ex ls s s'.
Proof.
  intros Ep Hm. destruct ls as [lw lsl ll ld]. unfold post. case_bool_decide as Hk.
  - destruct (put_slow w lw lsl ll ld H Ep Hm) as (m1 & E1 & H1).
    rewrite (bind_on_nodes _ _ _ _ _ E1), (bind_read_nodes (QUEUE_EMPTY run_slow_work_message) (negb sched))
      by exact (empty_msg H1). rewrite negb_involutive. destruct sched.
    + eexists. split; [done|]. eexists true, _. split; [exact H1|]. split; [by right|].
      cbn. repeat (split; [done|]). split; [lia|auto].
    + destruct (put_msg _ _ _ _ _ _ _ H1) as (m2 & E2 & H2). rewrite (bind_on_nodes _ tt m2) by done.
      by apply (post_signal _ _ true _ _ s m2 H2); [right|..].
  - destruct (put_wq w lw lsl ll ld H Ep Hm) as (m1 & E1 & H1). rewrite (bind_on_nodes _ _ _ _ _ E1).
    by apply (post_signal _ _ sched _ _ s m1 H1).
Qed.

Lemma post_exit_spec :
  ex = false -> exists s', post exit_message UV__WORK_CPU s = Done tt s' /\ post_result pl true ls s s'.
Proof.
  intros Ex. destruct ls as [lw lsl ll ld]. rewrite Ex in H. unfold post. rewrite bool_decide_eq_false_2 by done.
  destruct (put_exit _ _ _ _ _ _ _ H) as (m1 & E1 & H1). rewrite (bind_on_nodes _ _ _ _ _ E1).
  by apply (post_signal _ _ sched _ _ s m1 H1).
Qed.
End Post.

(** [w->work] at each place. *)
Definition place_work (p : place) (o : option uv__work) : Prop :=
  match p with
  | Nowhere => True
  | AtWq | AtSlow | AtRun _ | AtRan _ => exists f d, o = Some (mk_work (WFun f) d)
  | AtLoop c | AtDone c => exists d, o = Some (mk_work (if c then uv__cancelled else WNull) d)
  | AtCancel => exists k d, o = Some (mk_work k d) /\ k <> WNull
  end.

Lemma bind_get_work {B} w x s (k : uv__work -> P B) : works s !! w = Some x -> bind (get_work w) k s = k x s.
Proof. intros E. unfold bind, get_work. by rewrite E. Qed.

Lemma put_work_run w f x s :
  works s !! w = Some x -> put_work w f s = Done tt (with_works (<[w := mk_work f (done x)]> (works s)) s).
Proof.
  intros E. unfold put_work, bind, get_work, of_option, modify. rewrite E. unfold ret.
  f_equal. f_equal. apply map_eq. intros i. destruct (decide (i = w)) as [->|].
  - by rewrite lookup_alter_eq, lookup_insert_eq, E.
  - by rewrite lookup_alter_ne, lookup_insert_ne.
Qed.

(** A work is put on the queue of the loop with [w->work] set to [f]. *)
Definition completed (w : Z) (f : work_fn) (x : uv__work) (m : gmap tptr (qnode tptr)) (s : pool) : pool :=
  with_async true (with_nodes m (with_works (<[w := mk_work f (done x)]> (works s)) s)).

Lemma worker_finish_spec pl ex sched lw lsl ll ld s w t x :
  pq pl ex sched (mk_lists lw lsl ll ld) (nodes s) -> pl w = AtRan t -> works s !! w = Some x ->
  exists m, worker_finish w s = Done tt (completed w WNull x m s) /\
  pq (<[w := AtLoop false]> pl) ex sched (mk_lists lw lsl (ll ++ [work_wq w]) ld) m.
Proof.
  intros H Ep Ex. destruct (put_ran w t lw lsl ll ld H Ep) as (m & E & H'). exists m. split; [|done].
  unfold worker_finish. rewrite (bind_done _ _ _ _ _ (put_work_run w WNull x s Ex)).
  by rewrite (bind_on_nodes _ tt m).
Qed.

Lemma work_cancel_rest_spec pl ex sched lw lsl ll ld s w x :
  pq pl ex sched (mk_lists lw lsl ll ld) (nodes s) -> pl w = AtCancel -> works s !! w = Some x ->
  exists m, work_cancel_rest w s = Done tt (completed w uv__cancelled x m s) /\
  pq (<[w := AtLoop true]> pl) ex sched (mk_lists lw lsl (ll ++ [work_wq w]) ld) m.
Proof.
  intros H Ep Ex. destruct (put_cancelled w lw lsl ll ld H Ep) as (m & E & H'). exists m. split; [|done].
  unfold work_cancel_rest. rewrite (bind_done _ _ _ _ _ (put_work_run w uv__cancelled x s Ex)).
  by rewrite (bind_on_nodes _ tt m).
Qed.

(** The works that [uv__work_cancel] can take. *)
Definition cancellable (p : place) : bool :=
  match p with AtWq | AtSlow | AtLoop true | AtDone true => true | _ => false end.

Lemma work_cancel_locked_spec pl ex sched ls s w :
  pq pl ex sched ls (nodes s) -> pl w <> Nowhere -> pl w <> AtCancel -> place_work (pl w) (works s !! w) ->
  if cancellable (pl w) then
    exists m, work_cancel_locked w s = Done true (with_nodes m s) /\
    pq (<[w := AtCancel]> pl) ex sched (lists_without (work_wq w) ls) m
  else work_cancel_locked w s = Done false s.
Proof.
  intros H H1 H2 Hw. unfold work_cancel_locked. rewrite (bind_read_nodes _ _ _ _ (empty_work H w H1 H2)).
  assert (exists k d, works s !! w = Some (mk_work k d) /\
    cancellable (pl w) = negb (bool_decide (place_owner w (pl w) = Some (work_wq w))) && negb (bool_decide (k = WNull)))
    as (k & d & Ek & ->).
  { destruct (pl w) as [| | |t|t|c|c|]; try done; try (destruct Hw as (f & d & ->); exists (WFun f), d);
      try (destruct Hw as [d ->]; exists (if c then uv__cancelled else WNull), d; by destruct c); split; try done; cbn;
      by rewrite bool_decide_eq_true_2. }
  rewrite !(bind_get_work _ _ _ _ Ek). cbn [work].
  destruct (_ && _) eqn:Eb; [|done]. apply andb_true_iff in Eb as [Eo%negb_true_iff%bool_decide_eq_false _].
  destruct (place_owner w (pl w)) as [h|] eqn:Ep; [|by destruct (pl w)].
  destruct (take_cancel pl ex sched ls (nodes s) w h H Ep) as (m & Er & Hm); [congruence|].
  exists m. split; [|done]. by rewrite (bind_on_nodes _ _ _ _ _ Er).
Qed.

Lemma work_done_take_spec pl ex sched lw lsl ll s :
  pq pl ex sched (mk_lists lw lsl ll []) (nodes s) ->
  exists m, work_done_take s = Done tt (with_async false (with_nodes m s)) /\
  pq (moved pl) ex sched (mk_lists lw lsl [] ll) m.
Proof.
  intros H. destruct (move_done _ _ _ _ _ _ _ H) as (m & E & H'). exists m. split; [|done].
  unfold work_done_take. rewrite bind_modify.
  assert (<[done_wq := mk_qnode done_wq done_wq]> (nodes s) = nodes s) as En.
  { apply insert_id. destruct H as (Q & ow & H).
    destruct (queue_head_link _ _ _ (qs_queue _ _ (fam_wf _ _ _ (pq_fam H)) _ _ (pq_done H))) as [E1 E2].
    unfold nxt, prv in *. cbn in *. destruct (nodes s !! done_wq) as [[a b]|]; [|done]. cbn in *. congruence. }
  rewrite En. by rewrite (on_nodes_run _ tt m).
Qed.

Lemma work_done_next_spec pl ex sched lw lsl ll ld s :
  pq pl ex sched (mk_lists lw lsl ll ld) (nodes s) -> (forall w, place_work (pl w) (works s !! w)) ->
  match ld with
  | [] => work_done_next s = Done None s
  | _ :: ld' =>
      exists w c m, pl w = AtDone c /\
      work_done_next s = Done (Some (w, if c then UV_ECANCELED else 0)) (with_nodes m s) /\
      pq (<[w := Nowhere]> pl) ex sched (mk_lists lw lsl ll ld') m
  end.
Proof.
  intros H Hw. unfold work_done_next. rewrite (bind_read_nodes _ _ _ _ (empty_done H)). destruct ld as [|x ld]; [done|].
  rewrite bool_decide_eq_false_2 by done. rewrite (bind_read_nodes _ _ _ _ (head_done H _ _ eq_refl)).
  destruct (take_done _ _ _ _ _ _ _ _ _ H) as (w & c & m & -> & Ep & E & _ & H'). exists w, c, m. split; [done|].
  split; [|done]. rewrite (bind_on_nodes _ _ _ _ _ E). specialize (Hw w). rewrite Ep in Hw. destruct Hw as [d Ed].
  cbn. rewrite (bind_get_work _ (mk_work (if c then uv__cancelled else WNull) d)) by done. by destruct c.
Qed.
