(* ===== verification/UvPoolSteps.v ===== *)
(** libuv, [threadpool.c]: every action of a thread keeps the invariant of the
    pool. *)
From stdpp Require Import functions.
From S2P Require Import Prelude.
From S2P Require Import UvQueue.
From S2P Require Import UvQueueProofs.
From S2P Require Import UvPool.
From S2P Require Import UvPoolInv.
From S2P Require Import UvPoolProofs.

#[local] Set Warnings "-clear-no-such-hyp".
#[local] Arguments phase_of : simpl never.
#[local] Arguments place_work : simpl never.

(** ** The threads *)
Definition is_waiting (x : wstate) : bool := match x with Waiting => true | _ => false end.
Definition is_slow (x : wstate) : bool := match x with Ready b | Running _ b | Ran _ b => b | _ => false end.
Definition is_busy (x : wstate) : bool := match x with Ready _ | Running _ _ | Ran _ _ => true | _ => false end.
Definition is_exited (x : wstate) : bool := match x with Exited => true | _ => false end.

(** What is left for a thread to do, for the termination of the workers. *)
Definition weight (x : wstate) : Z :=
  match x with Ready _ => 3 | Waiting => 1 | Running _ _ => 5 | Ran _ _ => 4 | Exited => 0 end.
Definition weights (l : list wstate) : Z := foldr (fun x n => weight x + n) 0 l.

Lemma weights_app l k : weights (l ++ k) = weights l + weights k.
Proof. unfold weights. induction l as [|x l IH]; [done|]. cbn. rewrite IH. lia. Qed.

Lemma weights_insert l i x y : l !! i = Some x -> weights (<[i := y]> l) = weights l - weight x + weight y.
Proof.
  intros E. rewrite <- (take_drop_middle l i x E) at 2. pose proof (lookup_lt_Some _ _ _ E).
  rewrite insert_take_drop, !weights_app by done. cbn. unfold weights. lia.
Qed.

Lemma weights_nonneg l : 0 <= weights l.
Proof. induction l as [|x l IH]; [done|]. cbn. unfold weights in IH. destruct x; cbn; lia. Qed.

#[local] Arguments weights : simpl never.

Definition place_phase (p : place) : phase :=
  match p with
  | Nowhere => Free
  | AtWq | AtSlow | AtRun _ | AtCancel => Submitted
  | AtRan _ => Executed
  | AtLoop c | AtDone c => if c : bool then Submitted else Executed
  end.

(** ** The invariant *)
Record pool_ok (pl : Z -> place) (sched : bool) (ls : lists) (c : cfg) : Prop := {
  ok_pq : pq pl (exiting c) sched ls (nodes (shared c));
  ok_slow : l_slow ls = [] \/ sched = true;
  ok_work : forall w, place_work (pl w) (works (shared c) !! w);
  ok_phase : forall w, phase_of w (trace c) = Some (place_phase (pl w));
  ok_run : forall t w, pl w = AtRun t <-> exists b, threads c !! t = Some (Running w b);
  ok_ran : forall t w, pl w = AtRan t <-> exists b, threads c !! t = Some (Ran w b);
  ok_cancel : forall w, cancelling c = Some w <-> pl w = AtCancel;
  ok_drain : draining c = false -> l_done ls = [];
  ok_len : nthreads (shared c) = zlen (threads c);
  ok_size : 1 <= nthreads (shared c) <= MAX_THREADPOOL_SIZE;
  ok_idle : idle_threads (shared c) = count is_waiting (threads c);
  ok_running : slow_io_work_running (shared c) = count is_slow (threads c);
  ok_thr : slow_io_work_running (shared c) <= threshold (nthreads (shared c));
  ok_sig : 0 <= signalled (shared c) <= idle_threads (shared c);
  ok_wake : is_blocked (shared c) (l_wq ls) = false -> 0 < idle_threads (shared c) ->
    0 < signalled (shared c) \/ 0 < count is_busy (threads c);
  ok_exited : exiting c = false -> count is_exited (threads c) = 0;
  ok_async : l_loop ls <> [] -> async_sent (shared c) = true
}.

Arguments ok_pq {pl sched ls c}.
Arguments ok_slow {pl sched ls c}.
Arguments ok_work {pl sched ls c}.
Arguments ok_phase {pl sched ls c}.
Arguments ok_run {pl sched ls c}.
Arguments ok_ran {pl sched ls c}.
Arguments ok_cancel {pl sched ls c}.
Arguments ok_drain {pl sched ls c}.
Arguments ok_len {pl sched ls c}.
Arguments ok_size {pl sched ls c}.
Arguments ok_idle {pl sched ls c}.
Arguments ok_running {pl sched ls c}.
Arguments ok_thr {pl sched ls c}.
Arguments ok_sig {pl sched ls c}.
Arguments ok_wake {pl sched ls c}.
Arguments ok_exited {pl sched ls c}.
Arguments ok_async {pl sched ls c}.

Definition measure (ls : lists) (c : cfg) : Z :=
  8 * qlen ls + weights (threads c) + signalled (shared c).

Definition set_shared (s : pool) (c : cfg) : cfg :=
  mk_cfg s (threads c) (cancelling c) (draining c) (exiting c) (trace c).
Definition put_thread (t : tid) (x : wstate) (c : cfg) : cfg :=
  mk_cfg (shared c) (<[t := x]> (threads c)) (cancelling c) (draining c) (exiting c) (trace c).

Lemma bind_on_shared {A B} (op : P A) a s c (k : A -> M cfg B) :
  op (shared c) = Done a s -> bind (on_shared op) k c = k a (set_shared s c).
Proof. intros E. unfold bind, on_shared. by rewrite E. Qed.

Lemma bind_get_thread {B} t x c (k : wstate -> M cfg B) : threads c !! t = Some x -> bind (get_thread t) k c = k x c.
Proof. intros E. unfold bind, get_thread. by rewrite E. Qed.

Lemma bind_guard {B} b c (k : unit -> M cfg B) : b = true -> bind (guard b) k c = k tt c.
Proof. by intros ->. Qed.

(** The places [A t] are those of the works [w] of the threads in the state [C w b];
    the thread [t] changes to [y]. *)
Lemma at_thread_insert (A : tid -> place) (C : Z -> bool -> wstate) (pl pl' : Z -> place) (l : list wstate) t x y :
  l !! t = Some x ->
  (forall t' w, pl w = A t' <-> exists b, l !! t' = Some (C w b)) ->
  (forall w, pl' w = A t <-> exists b, y = C w b) ->
  (forall t' w, t' <> t -> pl' w = A t' <-> pl w = A t') ->
  forall t' w, pl' w = A t' <-> exists b, <[t := y]> l !! t' = Some (C w b).
Proof.
  intros Et H H1 H2 t' w. destruct (decide (t' = t)) as [->|Hne].
  - rewrite list_lookup_insert_eq by (by eapply lookup_lt_Some). rewrite H1.
    split; intros [b E]; exists b; congruence.
  - rewrite list_lookup_insert_ne by done. by rewrite H2, H.
Qed.

Lemma not_at pl sched ls c t x w :
  pool_ok pl sched ls c -> threads c !! t = Some x -> x = Waiting \/ (exists b, x = Ready b) ->
  pl w <> AtRun t /\ pl w <> AtRan t.
Proof.
  intros H Et Hx. split.
  - intros [b E]%(ok_run H). destruct Hx as [->|[? ->]]; congruence.
  - intros [b E]%(ok_ran H). destruct Hx as [->|[? ->]]; congruence.
Qed.

Lemma counters_ok pl sched ls c : pool_ok pl sched ls c -> counters (shared c).
Proof.
  intros H. pose proof (ok_sig H). pose proof (ok_size H). unfold MAX_THREADPOOL_SIZE in *.
  pose proof (count_bounds is_waiting (threads c)). pose proof (count_bounds is_slow (threads c)).
  rewrite <- (ok_idle H), <- (ok_len H) in *. rewrite <- (ok_running H) in *. split; lia.
Qed.

Lemma threshold_range n : 1 <= n <= MAX_THREADPOOL_SIZE -> 1 <= threshold n <= n.
Proof.
  intros Hn. unfold threshold, u32, MAX_THREADPOOL_SIZE in *. rewrite Z.mod_small by lia. zdm.
Qed.

(** A work that has been taken is at [t]. *)
Lemma place_taken pl w t w' :
  (pl w = AtWq \/ pl w = AtSlow) ->
  let pl' := <[w := AtRun t]> pl : Z -> place in
  place_phase (pl' w') = place_phase (pl w') /\ (pl' w' = AtCancel <-> pl w' = AtCancel) /\
  forall o, place_work (pl w') o -> place_work (pl' w') o.
Proof.
  intros Hp. cbn. destruct (decide (w' = w)) as [->|Hne].
  - rewrite fn_lookup_insert. by destruct Hp as [-> | ->].
  - by rewrite fn_lookup_insert_ne.
Qed.

(** What a turn keeps of the invariant, for each result. *)
Section Turn.
Context {pl : Z -> place} {sched : bool} {ls : lists} {c : cfg} {t : tid} {x : wstate} {s1 : pool}.
Hypothesis H : pool_ok pl sched ls c.
Hypothesis Ht : threads c !! t = Some x.
Hypothesis Hx : x = Waiting \/ exists b, x = Ready b.
Hypothesis Hn : nodes s1 = nodes (shared c).
Hypothesis Hnt : nthreads s1 = nthreads (shared c).
Hypothesis Hw : works s1 = works (shared c).
Hypothesis Ha : async_sent s1 = async_sent (shared c).
Hypothesis Hi : idle_threads s1 = idle_threads (shared c) - Z.b2z (is_waiting x).
Hypothesis Hr : slow_io_work_running s1 = slow_io_work_running (shared c) - Z.b2z (is_slow x).
Hypothesis Hs : 0 <= signalled s1 <= idle_threads s1.

Lemma turn_counters : counters s1.
Proof.
  destruct (counters_ok _ _ _ _ H) as (? & ? & ?). pose proof (ok_idle H). pose proof (ok_running H).
  assert (0 <= slow_io_work_running s1).
  { rewrite Hr, (ok_running H). pose proof (count_insert is_slow _ _ _ Exited Ht) as E.
    change (Z.b2z (is_slow Exited)) with 0 in E.
    pose proof (count_bounds is_slow (<[t := Exited]> (threads c))). lia. }
  split; [done|]. split; [destruct (is_waiting x)|destruct (is_slow x)]; cbn in *; lia.
Qed.

(** The invariant after the turn, from what the result [y] says. *)
Lemma turned_ok pl' sched' ls' y s' :
  pq pl' (exiting c) sched' ls' (nodes s') -> l_slow ls' = [] \/ sched' = true -> l_loop ls' = l_loop ls -> l_done ls' = l_done ls ->
  nthreads s' = nthreads s1 -> works s' = works s1 -> async_sent s' = async_sent s1 ->
  (forall w, place_phase (pl' w) = place_phase (pl w) /\ (pl' w = AtCancel <-> pl w = AtCancel) /\
    forall o, place_work (pl w) o -> place_work (pl' w) o) ->
  (forall w, pl' w = AtRun t <-> exists b, y = Running w b) ->
  (forall t' w, t' <> t -> pl' w = AtRun t' <-> pl w = AtRun t') ->
  (forall t' w, pl' w = AtRan t' <-> pl w = AtRan t') -> (forall w b, y <> Ran w b) ->
  idle_threads s' = idle_threads s1 + Z.b2z (is_waiting y) ->
  slow_io_work_running s' = slow_io_work_running s1 + Z.b2z (is_slow y) ->
  slow_io_work_running s' <= threshold (nthreads s1) -> 0 <= signalled s' <= idle_threads s' ->
  (is_blocked s' (l_wq ls') = false -> 0 < idle_threads s' -> 0 < signalled s' \/ is_busy y = true) ->
  (is_exited y = true -> exiting c = true) ->
  pool_ok pl' sched' ls' (put_thread t y (set_shared s' c)).
Proof.
  intros Hq Hsl El Ed E1 E2 E3 Hp Hrun Hrun' Hran Hny Ei Er Hthr Hsig Hwake Hex.
  pose proof (fun w => not_at _ _ _ _ _ _ w H Ht Hx) as Hna.
  pose proof (fun y f => count_insert f _ _ _ y Ht) as C.
  split; cbn; try done.
  - intros w. rewrite E2, Hw. apply Hp, H.
  - intros w. rewrite (proj1 (Hp w)). apply H.
  - by apply (at_thread_insert AtRun Running pl pl' _ t x); [|apply H|..].
  - apply (at_thread_insert AtRan Ran pl pl' _ t x); [done|apply H| |done].
    intros w. rewrite Hran. split; [by intros ?%Hna|]. intros [b ->]. by destruct (Hny w b).
  - intros w. rewrite (proj1 (proj2 (Hp w))). apply H.
  - rewrite Ed. apply H.
  - rewrite zlen_insert, E1, Hnt. apply H.
  - rewrite E1, Hnt. apply H.
  - rewrite C, <- (ok_idle H). lia.
  - rewrite C, <- (ok_running H). lia.
  - by rewrite E1.
  - intros Hb Hi'. destruct (Hwake Hb Hi') as [|Hy]; [by left|]. right. apply count_pos. exists t, y.
    rewrite list_lookup_insert_eq; [done|]. by eapply lookup_lt_Some.
  - intros Ee. rewrite C, (ok_exited H Ee). destruct (is_exited y); [by rewrite Hex in Ee|].
    by destruct Hx as [-> |[b ->]].
  - rewrite El, E3, Ha. apply H.
Qed.

Lemma turn_ok :
  exists y s' pl' sched' ls', worker_loop loop_fuel s1 = Done y s' /\
  pool_ok pl' sched' ls' (put_thread t y (set_shared s' c)) /\
  8 * qlen ls' + weight y + signalled s' <= 8 * qlen ls + signalled s1 + 1.
Proof.
  pose proof turn_counters as Hc. pose proof (ok_pq H) as Hq. rewrite <- Hn in Hq.
  destruct (worker_loop_spec pl (exiting c) t sched ls s1 Hq (ok_slow H) Hc)
    as (y & s' & E & pl' & sched' & ls' & Hq' & Hsl & El & Ed & E1 & E2 & E3 & Hy).
  exists y, s', pl', sched', ls'. split; [done|].
  pose proof (fun w => not_at _ _ _ _ _ _ w H Ht Hx) as Hna.
  assert (slow_io_work_running s1 <= threshold (nthreads s1)) as Hthr.
  { pose proof (ok_thr H) as Hthr. rewrite Hnt, Hr. destruct (is_slow x); cbn; lia. }
  destruct y as [| |w slow| |]; try done.
  - destruct Hy as (-> & Hb & Ei & Es & Er & Hql). split; [|cbn; lia].
    apply turned_ok; try done; cbn; try lia; [|by rewrite Hb].
    intros w. split; [by intros ?%Hna|by intros [b ?]].
  - destruct Hy as (Hp & -> & Ei & Es & Er & Hlt & Hql). split; [|destruct Es; cbn; lia].
    apply turned_ok; try done; cbn; try lia.
    + intros w'. by apply place_taken.
    + intros w'. destruct (decide (w' = w)) as [->|Hne].
      * rewrite fn_lookup_insert. split; [eauto|done].
      * rewrite fn_lookup_insert_ne by done. split; [by intros ?%Hna|]. intros [b E']. congruence.
    + intros t' w' Hne. destruct (decide (w' = w)) as [->|]; [|by rewrite fn_lookup_insert_ne].
      rewrite fn_lookup_insert. split; [congruence|]. destruct Hp as [-> | ->]; done.
    + intros t' w'. destruct (decide (w' = w)) as [->|]; [|by rewrite fn_lookup_insert_ne].
      rewrite fn_lookup_insert. split; [done|]. destruct Hp as [-> | ->]; done.
    + destruct slow; cbn in *; lia.
    + destruct Es as [Es|Es]; lia.
  - destruct Hy as (-> & Hex & Ei & Es & Hsg & Er & Hql). split; [|destruct Es; cbn; lia].
    apply turned_ok; try done; cbn; try lia.
    + intros w. split; [by intros ?%Hna|by intros [b ?]].
    + destruct Es as [Es|Es]; lia.
Qed.
End Turn.

(** ** Actions that leave the threads alone *)
Lemma phase_of_snoc w l e : phase_of w (l ++ [e]) = next_phase w (phase_of w l) e.
Proof. unfold phase_of. by rewrite foldl_app. Qed.

Definition event_work (e : event) : Z := match e with EvSubmit w | EvRun w _ | EvDone w _ => w end.

Lemma next_phase_other w p e : event_work e <> w -> next_phase w p e = p.
Proof. intros Hne. destruct e; cbn in *; by destruct (Z.eqb_spec w0 w). Qed.

Lemma phase_snoc pl w p l e :
  (forall w', phase_of w' l = Some (place_phase (pl w'))) -> event_work e = w ->
  next_phase w (Some (place_phase (pl w))) e = Some (place_phase p) ->
  forall w', phase_of w' (l ++ [e]) = Some (place_phase ((<[w := p]> pl : Z -> place) w')).
Proof.
  intros H Ee En w'. rewrite phase_of_snoc, H. destruct (decide (w' = w)) as [->|Hne].
  - by rewrite fn_lookup_insert.
  - rewrite fn_lookup_insert_ne by done. by rewrite next_phase_other by congruence.
Qed.

(** The place of a work as it is seen in an invariant of all works. *)
Lemma place_forall (R : Z -> place -> Prop) (pl : Z -> place) w p :
  (forall w', w' <> w -> R w' (pl w')) -> R w p -> forall w', R w' ((<[w := p]> pl : Z -> place) w').
Proof.
  intros H Hp w'. destruct (decide (w' = w)) as [->|Hne]; [by rewrite fn_lookup_insert|].
  rewrite fn_lookup_insert_ne by done. auto.
Qed.

Lemma place_iff (pl : Z -> place) w p q w' :
  pl w <> q -> p <> q -> (<[w := p]> pl : Z -> place) w' = q <-> pl w' = q.
Proof.
  intros H1 H2. destruct (decide (w' = w)) as [->|Hne]; [by rewrite fn_lookup_insert|].
  by rewrite fn_lookup_insert_ne.
Qed.

Lemma pq_same_owner pl pl' ex sched ls m :
  pq pl ex sched ls m -> (forall w, place_owner w (pl' w) = place_owner w (pl w)) ->
  (forall w, pl' w <> Nowhere -> pl w <> Nowhere) -> pq pl' ex sched ls m.
Proof.
  intros (Q & ow & H) Ho Hn. exists Q, ow. destruct H. split; try done.
  - intros w. by rewrite Ho.
  - auto.
Qed.

Section Loop.
Context {pl : Z -> place} {sched : bool} {ls : lists} {c : cfg}.
Hypothesis H : pool_ok pl sched ls c.

Lemma loop_ok pl' sched' ls' c' :
  threads c' = threads c -> pq pl' (exiting c') sched' ls' (nodes (shared c')) ->
  l_slow ls' = [] \/ sched' = true ->
  (forall w, place_work (pl' w) (works (shared c') !! w)) ->
  (forall w, phase_of w (trace c') = Some (place_phase (pl' w))) ->
  (forall t w, pl' w = AtRun t <-> pl w = AtRun t) -> (forall t w, pl' w = AtRan t <-> pl w = AtRan t) ->
  (forall w, cancelling c' = Some w <-> pl' w = AtCancel) -> (draining c' = false -> l_done ls' = []) ->
  nthreads (shared c') = nthreads (shared c) -> idle_threads (shared c') = idle_threads (shared c) ->
  slow_io_work_running (shared c') = slow_io_work_running (shared c) ->
  signalled (shared c) <= signalled (shared c') <= idle_threads (shared c) ->
  (is_blocked (shared c') (l_wq ls') = false -> 0 < idle_threads (shared c) ->
    0 < signalled (shared c') \/ is_blocked (shared c) (l_wq ls) = false) ->
  (exiting c' = false -> exiting c = false) ->
  (l_loop ls' <> [] -> async_sent (shared c') = true) ->
  pool_ok pl' sched' ls' c'.
Proof.
  intros Et Hq Hsl Hw Hp Hrun Hran Hc Hd En Ei Er Hs Hb He Ha.
  split; rewrite ?Et, ?En, ?Ei, ?Er; try done; try apply H.
  - intros t w. rewrite Hrun. apply H.
  - intros t w. rewrite Hran. apply H.
  - pose proof (ok_sig H). lia.
  - intros Hb' Hi. destruct (Hb Hb' Hi) as [|Hb'']; [by left|].
    destruct (ok_wake H Hb'' Hi); [left; lia|by right].
  - intros E'. by apply (ok_exited H), He.
Qed.
End Loop.

(** ** The actions *)
Definition keeps_pool (a : action) (c : cfg) : Prop :=
  (exists c', act a c = Fail c') \/
  (exists c' pl' sched' ls', act a c = Done tt c' /\ pool_ok pl' sched' ls' c').

(** A worker does something, and there is less to do then. *)
Definition works_off (ls : lists) (a : action) (c : cfg) : Prop :=
  exists c' pl' sched' ls', act a c = Done tt c' /\ pool_ok pl' sched' ls' c' /\
  exiting c' = exiting c /\ measure ls' c' < measure ls c.

Lemma bind_calls {B} c (k : unit -> M cfg B) : cancelling c = None -> bind calls k c = k tt c.
Proof. intros E. unfold calls. by rewrite bind_assoc, bind_gets, (bind_guard _ _ _ (bool_decide_eq_true_2 _ E)). Qed.

Lemma calls_fail {B} c (k : unit -> M cfg B) w : cancelling c = Some w -> bind calls k c = Fail c.
Proof. intros E. unfold calls, bind, gets, guard. by rewrite E. Qed.

Section Actions.
Context {pl : Z -> place} {sched : bool} {ls : lists} {c : cfg}.
Hypothesis H : pool_ok pl sched ls c.

Lemma phase_free w : phase_of w (trace c) = Some Free <-> pl w = Nowhere.
Proof.
  rewrite (ok_phase H). split; [|by intros ->].
  destruct (pl w) as [| | |t|t|b|b|]; try done; by destruct b.
Qed.

Lemma no_cancel w : cancelling c = None -> pl w <> AtCancel.
Proof. intros E Ep. apply (ok_cancel H) in Ep. congruence. Qed.

Lemma act_submit w kind work_ done_ : keeps_pool (ASubmit w kind work_ done_) c.
Proof.
  unfold keeps_pool, act. destruct (cancelling c) as [w0|] eqn:Ec.
  { left. exists c. by apply (calls_fail c _ w0). }
  rewrite (bind_calls c _ Ec), bind_gets.
  destruct (decide (phase_of w (trace c) = Some Free)) as [Ep|Ep];
    [rewrite bind_guard by (by apply bool_decide_eq_true_2)|left; exists c; unfold guard; by rewrite bool_decide_eq_false_2].
  rewrite bind_gets. destruct (decide (is_Some (nodes (shared c) !! work_wq w))) as [Em|Em];
    [rewrite bind_guard by (by apply bool_decide_eq_true_2)|left; exists c; unfold guard; by rewrite bool_decide_eq_false_2].
  apply phase_free in Ep. right.
  set (s1 := with_works (<[w := mk_work (WFun work_) done_]> (works (shared c))) (shared c)).
  assert (is_Some (nxt (nodes s1) (work_wq w))) as Hm by (destruct Em as [n Em]; unfold nxt; cbn; rewrite Em; by eexists).
  destruct (post_work_spec (s := s1) (ok_pq H) (ok_slow H) (ok_sig H) w kind Ep Hm)
    as (s' & E & sched' & ls' & Hq & Hsl & El & Ed & E1 & E2 & E3 & E4 & E5 & E6 & E7).
  rewrite (bind_on_shared (uv__work_submit w kind work_ done_) tt s') by exact E.
  assert (exists p, (if bool_decide (kind = UV__WORK_SLOW_IO) then AtSlow else AtWq) = p /\ (p = AtSlow \/ p = AtWq))
    as (p & Ek & Hp) by (case_bool_decide; eauto).
  rewrite Ek in Hq. eexists _, (<[w := p]> pl), sched', ls'. split; [done|].
  apply (loop_ok H); cbn; try done.
  - intros w'. rewrite E2. destruct (decide (w' = w)) as [->|Hne].
    + rewrite fn_lookup_insert. cbn. rewrite lookup_insert_eq. by destruct Hp as [-> | ->]; eexists _, _.
    + rewrite fn_lookup_insert_ne by done. cbn. rewrite lookup_insert_ne by done. apply H.
  - apply phase_snoc; [apply H|done|]. cbn. rewrite Z.eqb_refl, Ep. by destruct Hp as [-> | ->].
  - intros t w'. apply place_iff; destruct Hp; congruence.
  - intros t w'. apply place_iff; destruct Hp; congruence.
  - intros w'. rewrite place_iff; [apply H|destruct Hp; congruence..].
  - rewrite Ed. apply H.
  - rewrite El, E3. apply H.
Qed.

Lemma act_exit : keeps_pool AExit c.
Proof.
  unfold keeps_pool, act. destruct (cancelling c) as [w0|] eqn:Ec.
  { left. exists c. by apply (calls_fail c _ w0). }
  rewrite (bind_calls c _ Ec), bind_gets. destruct (exiting c) eqn:Ee; [left; by exists c|]. right.
  pose proof (ok_pq H) as Hq. rewrite bind_guard by done. rewrite Ee in Hq.
  destruct (post_exit_spec Hq (ok_slow H) (ok_sig H) eq_refl)
    as (s' & E & sched' & ls' & Hq' & Hsl & El & Ed & E1 & E2 & E3 & E4 & E5 & E6 & E7).
  rewrite (bind_on_shared _ tt s') by exact E. eexists _, pl, sched', ls'. split; [done|].
  apply (loop_ok H); cbn; try done; try apply H.
  - intros w. rewrite E2. apply H.
  - rewrite Ed. apply H.
  - rewrite El, E3. apply H.
Qed.

Lemma blocked_without n r x lw :
  x <> run_slow_work_message -> blocked n r (without x lw) = false -> blocked n r lw = false.
Proof.
  intros Hx Hb. destruct (blocked n r lw) eqn:E; [|done]. exfalso. destruct lw as [|y l]; [done|]. cbn in E.
  apply andb_true_iff in E as [[Ey%bool_decide_eq_true El%bool_decide_eq_true]%andb_true_iff Er]. subst y l.
  unfold without in Hb. rewrite filter_cons_True in Hb by congruence. cbn in Hb. by rewrite Er in Hb.
Qed.

Lemma act_cancel w : keeps_pool (ACancel w) c.
Proof.
  unfold keeps_pool, act. destruct (cancelling c) as [w0|] eqn:Ec.
  { left. exists c. by apply (calls_fail c _ w0). }
  rewrite (bind_calls c _ Ec), bind_gets.
  destruct (decide (phase_of w (trace c) = Some Free)) as [Ep|Ep];
    [left; exists c; unfold guard; by rewrite bool_decide_eq_true_2|].
  rewrite bind_guard by (by rewrite bool_decide_eq_false_2). rewrite phase_free in Ep. right.
  pose proof (work_cancel_locked_spec _ _ _ _ _ w (ok_pq H) Ep (no_cancel w Ec) (ok_work H w)) as Hc.
  destruct (cancellable (pl w)) eqn:Ew.
  - destruct Hc as (m & E & Hq). rewrite (bind_on_shared _ _ _ c _ E).
    eexists _, (<[w := AtCancel]> pl), sched, (lists_without (work_wq w) ls). split; [done|].
    apply (loop_ok H); cbn; try done.
    + destruct (ok_slow H) as [-> |]; [by left|by right].
    + apply (place_forall (fun w' p => place_work p (works (shared c) !! w'))); [intros w' _; apply H|]. pose proof (ok_work H w) as Hw.
      destruct (pl w) as [| | |t|t|[]|[]|]; try done; unfold place_work in *; naive_solver.
    + intros w'. rewrite (ok_phase H). destruct (decide (w' = w)) as [->|Hne]; [|by rewrite fn_lookup_insert_ne].
      rewrite fn_lookup_insert. by destruct (pl w) as [| | |t|t|[]|[]|].
    + intros t w'. apply place_iff; [intros E'; by rewrite E' in Ew|done].
    + intros t w'. apply place_iff; [intros E'; by rewrite E' in Ew|done].
    + intros w'. destruct (decide (w' = w)) as [->|Hne]; [by rewrite fn_lookup_insert|].
      rewrite fn_lookup_insert_ne by done. split; [congruence|]. by intros ?%(no_cancel w' Ec).
    + intros Hd. by rewrite (ok_drain H Hd).
    + pose proof (ok_sig H). lia.
    + intros Hb _. right. by apply (blocked_without _ _ (work_wq w)).
    + intros Hl. apply (ok_async H). intros E'. by rewrite E' in Hl.
  - rewrite (bind_on_shared _ _ _ c _ Hc). exists c, pl, sched, ls. split; [by destruct c|done].
Qed.

Lemma act_cancel_rest : keeps_pool ACancelRest c.
Proof.
  unfold keeps_pool, act. rewrite bind_gets. destruct (cancelling c) as [w|] eqn:Ec; [|left; by exists c]. right.
  pose proof (proj1 (ok_cancel H w) Ec) as Ep. pose proof (ok_work H w) as Hw. rewrite Ep in Hw.
  destruct Hw as (k & d & Ew & Hk). pose proof (ok_pq H) as Hq. pose proof (ok_slow H) as Hsl.
  pose proof (ok_drain H) as Hd. pose proof (fun Hb => ok_wake H Hb) as Hb. destruct ls as [lw lsl ll ld].
  destruct (work_cancel_rest_spec _ _ _ _ _ _ _ _ w _ Hq Ep Ew) as (m & E & Hq').
  rewrite (bind_on_shared _ _ _ c _ E).
  eexists _, (<[w := AtLoop true]> pl), sched, (mk_lists lw lsl (ll ++ [work_wq w]) ld). split; [done|].
  apply (loop_ok H); cbn; try done.
  - apply (place_forall (fun w' p => place_work p (<[w := mk_work uv__cancelled d]> (works (shared c)) !! w'))).
    + intros w' Hne. rewrite lookup_insert_ne by done. apply H.
    + rewrite lookup_insert_eq. by exists d.
  - intros w'. rewrite (ok_phase H). destruct (decide (w' = w)) as [->|Hne]; [|by rewrite fn_lookup_insert_ne].
    by rewrite fn_lookup_insert, Ep.
  - intros t w'. apply place_iff; congruence.
  - intros t w'. apply place_iff; congruence.
  - intros w'. split; [done|]. destruct (decide (w' = w)) as [->|Hne]; [by rewrite fn_lookup_insert|].
    rewrite fn_lookup_insert_ne by done. intros Ep'. apply (ok_cancel H) in Ep'. congruence.
  - pose proof (ok_sig H). lia.
  - by right.
Qed.

Lemma moved_iff q w : (forall b, q <> AtLoop b) -> (forall b, q <> AtDone b) -> moved pl w = q <-> pl w = q.
Proof. intros H1 H2. unfold moved. destruct (pl w) eqn:E; try done. split; intros <-; [by destruct (H2 cancelled)|by destruct (H1 cancelled)]. Qed.

(** The queue of the completed works is taken. *)
Lemma done_take_ok :
  cancelling c = None -> draining c = false -> async_sent (shared c) = true ->
  exists c', act ADoneTake c = Done tt c' /\
  pool_ok (moved pl) sched (mk_lists (l_wq ls) (l_slow ls) [] (l_loop ls)) c' /\
  cancelling c' = None /\ draining c' = true /\ threads c' = threads c.
Proof.
  intros Ec Ed Ea. unfold act. rewrite (bind_calls c _ Ec), bind_gets, Ed, bind_guard, bind_gets, Ea, bind_guard by done.
  pose proof (ok_drain H Ed) as Hd. pose proof (ok_pq H) as Hq.
  assert (ls = mk_lists (l_wq ls) (l_slow ls) (l_loop ls) []) as El by (destruct ls; cbn in Hd; by subst).
  rewrite El in Hq. destruct (work_done_take_spec _ _ _ _ _ _ _ Hq) as (m & E & Hq').
  rewrite (bind_on_shared _ _ _ c _ E). eexists. split; [done|]. split; [|done].
  apply (loop_ok H); cbn; try done.
  - apply H.
  - intros w. pose proof (ok_work H w) as Hw. unfold moved. by destruct (pl w).
  - intros w. rewrite (ok_phase H). unfold moved. by destruct (pl w).
  - intros t w. by apply moved_iff.
  - intros t w. by apply moved_iff.
  - intros w. rewrite moved_iff by done. apply H.
  - pose proof (ok_sig H). lia.
  - by right.
Qed.

(** One completion. *)
Lemma done_next_ok x ld :
  cancelling c = None -> draining c = true -> l_done ls = x :: ld ->
  exists c' w, act ADoneNext c = Done tt c' /\
  pool_ok (<[w := Nowhere]> pl) sched (mk_lists (l_wq ls) (l_slow ls) (l_loop ls) ld) c' /\
  cancelling c' = None /\ draining c' = true /\ threads c' = threads c.
Proof.
  intros Ec Ed El. unfold act. rewrite (bind_calls c _ Ec), bind_gets, Ed, bind_guard by done.
  pose proof (ok_pq H) as Hq.
  assert (ls = mk_lists (l_wq ls) (l_slow ls) (l_loop ls) (x :: ld)) as Els by (rewrite <- El; by destruct ls).
  rewrite Els in Hq. pose proof (work_done_next_spec _ _ _ _ _ _ _ _ Hq (ok_work H)) as (w & b & m & Ep & E & Hq').
  rewrite (bind_on_shared _ _ _ c _ E). eexists _, w. split; [done|]. split; [|done].
  apply (loop_ok H); cbn; try done.
  - apply H.
  - apply (place_forall (fun w' p => place_work p (works (shared c) !! w'))); [intros w' _; apply H|done].
  - apply phase_snoc; [apply H|done|]. cbn. rewrite Z.eqb_refl, Ep. by destruct b.
  - intros t w'. apply place_iff; congruence.
  - intros t w'. apply place_iff; congruence.
  - intros w'. rewrite place_iff by congruence. apply H.
  - congruence.
  - pose proof (ok_sig H). lia.
  - by right.
  - apply H.
Qed.

Lemma act_done_take : keeps_pool ADoneTake c.
Proof.
  unfold keeps_pool. destruct (cancelling c) as [w0|] eqn:Ec.
  { left. exists c. by apply (calls_fail c _ w0). }
  destruct (draining c) eqn:Ed.
  - left. exists c. unfold act. by rewrite (bind_calls c _ Ec), bind_gets, Ed.
  - destruct (async_sent (shared c)) eqn:Ea.
    2:{ left. exists c. unfold act. by rewrite (bind_calls c _ Ec), bind_gets, Ed, bind_guard, bind_gets, Ea. }
    right. destruct (done_take_ok Ec Ed Ea) as (c' & E & H' & _). eauto 10.
Qed.

Lemma act_done_next : keeps_pool ADoneNext c.
Proof.
  unfold keeps_pool. destruct (cancelling c) as [w0|] eqn:Ec.
  { left. exists c. by apply (calls_fail c _ w0). }
  destruct (draining c) eqn:Ed.
  2:{ left. exists c. unfold act. by rewrite (bind_calls c _ Ec), bind_gets, Ed. }
  right. destruct (l_done ls) as [|x ld] eqn:El.
  - pose proof (ok_pq H) as Hq. pose proof (ok_slow H) as Hsl. destruct ls as [lw lsl ll ld]. cbn in El. subst ld.
    pose proof (work_done_next_spec _ _ _ _ _ _ _ _ Hq (ok_work H)) as Hn. unfold act.
    rewrite (bind_calls c _ Ec), bind_gets, Ed, bind_guard, (bind_on_shared _ _ _ c _ Hn) by done.
    eexists _, pl, sched, (mk_lists lw lsl ll []). split; [done|].
    apply (loop_ok H); cbn; try done; try apply H.
    + pose proof (ok_sig H). lia.
    + by right.
  - destruct (done_next_ok x ld Ec Ed El) as (c' & w & E & H' & _). eauto 10.
Qed.
End Actions.

(** ** The actions of the workers *)
Section Workers.
Context {pl : Z -> place} {sched : bool} {ls : lists} {c : cfg} {t : tid}.
Hypothesis H : pool_ok pl sched ls c.

Lemma enter_ok slow : threads c !! t = Some (Ready slow) -> works_off ls (AEnter t) c.
Proof.
  intros Et. unfold works_off, act. rewrite (bind_get_thread _ _ c _ Et).
  set (s1 := if slow then with_slow (slow_io_work_running (shared c) - 1) (shared c) else shared c).
  assert (worker_enter slow (shared c) = worker_loop loop_fuel s1) as Ee.
  { unfold worker_enter, s1. destruct slow; [|done]. rewrite bind_modify. f_equal. f_equal.
    apply Z.mod_small. destruct (counters_ok _ _ _ _ H) as (_ & _ & ?).
    assert (0 < slow_io_work_running (shared c)); [|lia].
    rewrite (ok_running H). apply count_pos. eauto. }
  destruct (turn_ok (s1 := s1) H Et) as (y & s' & pl' & sched' & ls' & E & H' & Hm);
    try (unfold s1; by destruct slow); try (unfold s1; destruct slow; cbn; lia); [by eauto|..].
  { unfold s1. pose proof (ok_sig H). destruct slow; cbn; lia. }
  rewrite <- Ee in E. rewrite (bind_on_shared _ _ _ c _ E). eexists _, pl', sched', ls'. split; [done|].
  split; [done|]. split; [done|]. unfold measure. cbn. rewrite (weights_insert _ _ _ y Et). cbn.
  replace (signalled s1) with (signalled (shared c)) in Hm by (unfold s1; by destruct slow). lia.
Qed.

Lemma wake_ok spurious :
  threads c !! t = Some Waiting ->
  (if spurious : bool then signalled (shared c) < idle_threads (shared c) else 0 < signalled (shared c)) ->
  exists c' pl' sched' ls', act (AWake t spurious) c = Done tt c' /\ pool_ok pl' sched' ls' c' /\
  exiting c' = exiting c /\ (spurious = false -> measure ls' c' < measure ls c).
Proof.
  intros Et Hg. unfold act. rewrite (bind_get_thread _ _ c _ Et), bind_guard, !bind_gets, bind_guard
    by (try (destruct spurious; lia); by apply bool_decide_eq_true_2).
  set (s0 := if spurious then shared c else with_signalled (signalled (shared c) - 1) (shared c)).
  set (s1 := with_idle (idle_threads (shared c) - 1) s0).
  pose proof (ok_sig H) as Hs. destruct (counters_ok _ _ _ _ H) as (_ & Hi & _).
  assert (0 < idle_threads (shared c)) as Hpos by (destruct spurious; lia).
  assert (worker_wake spurious (shared c) = worker_loop loop_fuel s1) as Ee.
  { assert (u32 (idle_threads (shared c) - 1) = idle_threads (shared c) - 1) as Eu by (apply Z.mod_small; lia).
    unfold worker_wake, s1, s0. destruct spurious; cbn; unfold bind, modify, ret; cbn; by rewrite Eu. }
  destruct (turn_ok (s1 := s1) H Et) as (y & s' & pl' & sched' & ls' & E & H' & Hm);
    try (unfold s1, s0; by destruct spurious); try (unfold s1, s0; destruct spurious; cbn; lia); [by left|].
  rewrite <- Ee in E. rewrite (bind_on_shared _ _ _ c _ E). eexists _, pl', sched', ls'. split; [done|].
  split; [done|]. split; [done|]. intros ->. unfold measure. cbn. rewrite (weights_insert _ _ _ y Et). cbn in *. lia.
Qed.

(** The thread [t] goes from [x] to [y] and is busy in both. *)
Lemma busy_ok pl' ls' c' x y :
  threads c !! t = Some x -> threads c' = <[t := y]> (threads c) ->
  is_busy x = true -> is_busy y = true -> is_slow x = is_slow y ->
  pq pl' (exiting c') sched ls' (nodes (shared c')) ->
  l_slow ls' = l_slow ls -> l_done ls' = l_done ls -> l_wq ls' = l_wq ls ->
  (l_loop ls' <> [] -> async_sent (shared c') = true) ->
  (forall w, place_work (pl' w) (works (shared c') !! w)) ->
  (forall w, phase_of w (trace c') = Some (place_phase (pl' w))) ->
  (forall w, pl' w = AtRun t <-> exists b, y = Running w b) ->
  (forall w, pl' w = AtRan t <-> exists b, y = Ran w b) ->
  (forall t' w, t' <> t -> pl' w = AtRun t' <-> pl w = AtRun t') ->
  (forall t' w, t' <> t -> pl' w = AtRan t' <-> pl w = AtRan t') ->
  (forall w, pl' w = AtCancel <-> pl w = AtCancel) ->
  cancelling c' = cancelling c -> draining c' = draining c -> exiting c' = exiting c ->
  nthreads (shared c') = nthreads (shared c) -> idle_threads (shared c') = idle_threads (shared c) ->
  slow_io_work_running (shared c') = slow_io_work_running (shared c) ->
  signalled (shared c') = signalled (shared c) ->
  pool_ok pl' sched ls' c'.
Proof.
  intros Et Et' Hbx Hby Hxy Hq El Ed Ew Ha Hw Hp H1 H2 H3 H4 H5 Ec Edr Eex En Ei Er Es.
  pose proof (fun f => count_insert f _ _ _ y Et) as C. rewrite Eex in Hq.
  assert (is_waiting x = is_waiting y /\ is_exited x = is_exited y) as [Cw Ce] by (by destruct x, y).
  split; rewrite ?Et', ?El, ?Ed, ?Ew, ?Ec, ?Edr, ?Eex, ?En, ?Ei, ?Er, ?Es, ?zlen_insert; try done; try apply H.
  - by apply (at_thread_insert AtRun Running pl pl' _ t x); [|apply H|..].
  - by apply (at_thread_insert AtRan Ran pl pl' _ t x); [|apply H|..].
  - intros w. rewrite H5. apply H.
  - rewrite C, (ok_idle H), Cw. lia.
  - rewrite C, (ok_running H), Hxy. lia.
  - intros _ _. right. apply count_pos. exists t, y. rewrite list_lookup_insert_eq; [done|].
    by eapply lookup_lt_Some.
  - intros Ee. rewrite C, (ok_exited H Ee), Ce. lia.
Qed.

Lemma run_ok w slow : threads c !! t = Some (Running w slow) -> works_off ls (ARun t) c.
Proof.
  intros Et. unfold works_off, act. rewrite (bind_get_thread _ _ c _ Et).
  assert (pl w = AtRun t) as Ep by (apply (ok_run H); eauto).
  pose proof (ok_work H w) as Hw. rewrite Ep in Hw. destruct Hw as (f & d & Ew).
  rewrite (bind_on_shared (get_work w) (mk_work (WFun f) d) (shared c) c) by (unfold get_work; by rewrite Ew).
  eexists _, (<[w := AtRan t]> pl), sched, ls. split; [done|].
  split; [|split; [done|]; unfold measure; cbn; rewrite (weights_insert _ _ _ (Ran w slow) Et); cbn; lia].
  apply (busy_ok _ _ _ (Running w slow) (Ran w slow)); cbn; try done.
  - apply (pq_same_owner pl); [apply H|..]; intros w'; (destruct (decide (w' = w)) as [->|Hne];
      [rewrite fn_lookup_insert|by rewrite fn_lookup_insert_ne]); by rewrite Ep.
  - apply H.
  - apply (place_forall (fun w' p => place_work p (works (shared c) !! w'))); [intros w' _; apply H|].
    by exists f, d.
  - apply phase_snoc; [apply H|done|]. cbn. by rewrite Z.eqb_refl, Ep.
  - intros w'. split; [|by intros [b ?]]. destruct (decide (w' = w)) as [->|Hne]; [by rewrite fn_lookup_insert|].
    rewrite fn_lookup_insert_ne by done. intros [b E]%(ok_run H). congruence.
  - intros w'. destruct (decide (w' = w)) as [->|Hne]; [rewrite fn_lookup_insert; split; eauto|].
    rewrite fn_lookup_insert_ne by done. split; [|intros [b E]; congruence]. intros [b E]%(ok_ran H). congruence.
  - intros t' w' Hne. apply place_iff; congruence.
  - intros t' w' Hne. apply place_iff; congruence.
  - intros w'. apply place_iff; congruence.
Qed.

Lemma finish_ok w slow : threads c !! t = Some (Ran w slow) -> works_off ls (AFinish t) c.
Proof.
  intros Et. unfold works_off, act. rewrite (bind_get_thread _ _ c _ Et).
  assert (pl w = AtRan t) as Ep by (apply (ok_ran H); eauto).
  pose proof (ok_work H w) as Hw. rewrite Ep in Hw. destruct Hw as (f & d & Ew).
  assert (ls = mk_lists (l_wq ls) (l_slow ls) (l_loop ls) (l_done ls)) as El by (by destruct ls).
  pose proof (ok_pq H) as Hq. rewrite El in Hq.
  destruct (worker_finish_spec _ _ _ _ _ _ _ _ w t _ Hq Ep Ew) as (m & E & Hq').
  rewrite (bind_on_shared _ _ _ c _ E).
  eexists _, (<[w := AtLoop false]> pl), sched, (mk_lists (l_wq ls) (l_slow ls) (l_loop ls ++ [work_wq w]) (l_done ls)).
  split; [done|]. split; [|split; [done|]; unfold measure; cbn; rewrite (weights_insert _ _ _ (Ready slow) Et); unfold qlen; cbn; lia].
  apply (busy_ok _ _ _ (Ran w slow) (Ready slow)); cbn; try done.
  - apply (place_forall (fun w' p => place_work p (<[w := mk_work WNull d]> (works (shared c)) !! w'))).
    + intros w' Hne. rewrite lookup_insert_ne by done. apply H.
    + rewrite lookup_insert_eq. by exists d.
  - intros w'. rewrite (ok_phase H). destruct (decide (w' = w)) as [->|Hne]; [|by rewrite fn_lookup_insert_ne].
    by rewrite fn_lookup_insert, Ep.
  - intros w'. split; [|by intros [b ?]]. destruct (decide (w' = w)) as [->|Hne]; [by rewrite fn_lookup_insert|].
    rewrite fn_lookup_insert_ne by done. intros [b E']%(ok_run H). congruence.
  - intros w'. split; [|by intros [b ?]]. destruct (decide (w' = w)) as [->|Hne]; [by rewrite fn_lookup_insert|].
    rewrite fn_lookup_insert_ne by done. intros [b E']%(ok_ran H). congruence.
  - intros t' w' Hne. apply place_iff; congruence.
  - intros t' w' Hne. apply place_iff; congruence.
  - intros w'. apply place_iff; congruence.
Qed.
End Workers.

(** ** All the actions *)
Lemma works_off_keeps ls a c : works_off ls a c -> keeps_pool a c.
Proof. intros (c' & pl' & sched' & ls' & E & H & _). right. by exists c', pl', sched', ls'. Qed.

Lemma act_keeps pl sched ls c a : pool_ok pl sched ls c -> keeps_pool a c.
Proof.
  intros H. destruct a as [w kind f d|w| | | | |t|t spurious|t|t].
  - by eapply act_submit.
  - by eapply act_cancel.
  - by eapply act_cancel_rest.
  - by eapply act_done_take.
  - by eapply act_done_next.
  - by eapply act_exit.
  - destruct (threads c !! t) as [x|] eqn:Et; [|left; exists c; unfold act, bind, get_thread; by rewrite Et].
    destruct x as [b| | | |]; [by eapply works_off_keeps, enter_ok|..];
      left; exists c; unfold act; by rewrite (bind_get_thread _ _ c _ Et).
  - destruct (threads c !! t) as [x|] eqn:Et; [|left; exists c; unfold act, bind, get_thread; by rewrite Et].
    destruct (decide (x = Waiting)) as [->|Hx].
    2:{ left; exists c. unfold act. rewrite (bind_get_thread _ _ c _ Et). unfold bind, guard. by rewrite bool_decide_eq_false_2. }
    destruct (if spurious then signalled (shared c) <? idle_threads (shared c) else 0 <? signalled (shared c)) eqn:Eg.
    + destruct (wake_ok H spurious Et) as (c' & pl' & sched' & ls' & E & H' & _); [destruct spurious; lia|].
      right. by exists c', pl', sched', ls'.
    + left. exists c. unfold act. rewrite (bind_get_thread _ _ c _ Et), bind_guard, !bind_gets by done.
      unfold bind, guard. by rewrite Eg.
  - destruct (threads c !! t) as [x|] eqn:Et; [|left; exists c; unfold act, bind, get_thread; by rewrite Et].
    destruct x as [|  |w b| |]; [| |by eapply works_off_keeps, run_ok|..];
      left; exists c; unfold act; by rewrite (bind_get_thread _ _ c _ Et).
  - destruct (threads c !! t) as [x|] eqn:Et; [|left; exists c; unfold act, bind, get_thread; by rewrite Et].
    destruct x as [|  | |w b|]; [| | |by eapply works_off_keeps, finish_ok|];
      left; exists c; unfold act; by rewrite (bind_get_thread _ _ c _ Et).
Qed.

Lemma step_keeps pl sched ls c c' :
  pool_ok pl sched ls c -> step c c' -> exists pl' sched' ls', pool_ok pl' sched' ls' c'.
Proof.
  intros H [a E]. destruct (act_keeps _ _ _ _ a H) as [[c'' E']|(c'' & pl' & sched' & ls' & E' & H')];
    rewrite E in E'; [done|]. injection E' as ->. eauto.
Qed.

(** ** The pool at the start *)
Lemma init_nthreads_range val malloc_ok : 1 <= init_nthreads val malloc_ok <= MAX_THREADPOOL_SIZE.
Proof.
  unfold init_nthreads, MAX_THREADPOOL_SIZE.
  assert (forall v, 0 <= u32 v) by (intros v; apply Z.mod_pos_bound; lia).
  set (v := match val with Some v => u32 v | None => 4 end).
  assert (0 <= v) by (unfold v; destruct val; [auto|lia]). clearbody v.
  destruct (Z.eqb_spec v 0); destruct (Z.ltb_spec 1024 (if v =? 0 then 1 else v));
    repeat case_match; lia.
Qed.

Lemma self_nodes (l : list tptr) q :
  q ∈ l -> foldr (fun q (m : gmap tptr (qnode tptr)) => <[q := mk_qnode q q]> m) ∅ l !! q = Some (mk_qnode q q).
Proof.
  induction l as [|x l IH]; [by intros ?%elem_of_nil|]. cbn. destruct (decide (x = q)) as [->|Hne].
  - by rewrite lookup_insert_eq.
  - rewrite lookup_insert_ne by done. intros [->|Hin]%elem_of_cons; [done|auto].
Qed.

Lemma count_replicate {A} (f : A -> bool) n x : f x = false -> count f (replicate n x) = 0.
Proof. intros E. induction n as [|n IH]; [done|]. cbn [replicate]. rewrite count_cons, E, IH. done. Qed.

Definition init_queues : gmap tptr (list tptr) :=
  <[wq := []]> (<[slow_io_pending_wq := []]> (<[run_slow_work_message := []]> (<[loop_wq := []]> {[done_wq := []]}))).
Definition init_owner (x : tptr) : option tptr :=
  match x with exit_message | work_wq _ => None | _ => Some x end.

Lemma init_queues_some h l : init_queues !! h = Some l <-> l = [] /\ init_owner h = Some h.
Proof.
  unfold init_queues, init_owner. rewrite !lookup_insert_Some, lookup_singleton_Some. destruct h; naive_solver.
Qed.

Lemma init_pq m :
  (forall q, init_owner q = Some q -> m !! q = Some (mk_qnode q q)) -> is_Some (nxt m exit_message) ->
  pq (fun _ => Nowhere) false false (mk_lists [] [] [] []) m.
Proof.
  intros Hm He. exists init_queues, init_owner. split; try done.
  - split; [split|].
    + intros h l [-> Eh]%init_queues_some. apply queue_nil; unfold nxt, prv; by rewrite (Hm h Eh).
    + intros h1 l1 h2 l2 x [-> _]%init_queues_some [-> _]%init_queues_some.
      intros ->%list_elem_of_singleton ->%list_elem_of_singleton. done.
    + intros x h. split.
      * intros E. exists []. assert (x = h) as -> by (destruct x; cbn in E; congruence).
        split; [by apply init_queues_some|by left].
      * intros (l & [-> Eh]%init_queues_some & ->%list_elem_of_singleton). done.
Qed.

Lemma init_ok val malloc_ok ws :
  pool_ok (fun _ => Nowhere) false (mk_lists [] [] [] []) (pool_init val malloc_ok ws).
Proof.
  pose proof (init_nthreads_range val malloc_ok) as Hn. pose proof (threshold_range _ Hn).
  unfold pool_init. split; cbn [shared threads trace exiting cancelling draining nodes nthreads idle_threads signalled
    slow_io_work_running works]; try done; try (by left); try lia.
  - apply init_pq.
    + intros q Eq. apply self_nodes. destruct q; try done; set_solver.
    + unfold nxt. rewrite self_nodes by set_solver. by eexists.
  - intros t w. split; [done|]. intros [b [E _]%lookup_replicate_1]. done.
  - intros t w. split; [done|]. intros [b [E _]%lookup_replicate_1]. done.
  - unfold zlen. rewrite length_replicate. lia.
  - by rewrite count_replicate.
  - by rewrite count_replicate.
  - intros _. by rewrite count_replicate.
Qed.
