(* ===== verification/UvPoolTheorems.v ===== *)
(** libuv, [threadpool.c]: the correctness of the thread pool under every
    interleaving of its threads. *)
From stdpp Require Import functions relations.
From S2P Require Import Prelude.
From S2P Require Import UvQueue.
From S2P Require Import UvQueueProofs.
From S2P Require Import UvPool.
From S2P Require Import UvPoolInv.
From S2P Require Import UvPoolProofs.
From S2P Require Import UvPoolSteps.

#[local] Set Warnings "-clear-no-such-hyp".

(** ** Reachable configurations *)
Definition reachable (val : option Z) (malloc_ok : bool) (ws : list Z) (c : cfg) : Prop :=
  rtc step (pool_init val malloc_ok ws) c.

Lemma reachable_ok val malloc_ok ws c :
  reachable val malloc_ok ws c -> exists pl sched ls, pool_ok pl sched ls c.
Proof.
  unfold reachable. generalize (init_ok val malloc_ok ws).
  generalize (fun _ : Z => Nowhere), false, (mk_lists [] [] [] []). intros pl sched ls H Hr.
  revert pl sched ls H. induction Hr as [c|c1 c2 c3 Hs _ IH]; [eauto|].
  intros pl sched ls H. destruct (step_keeps _ _ _ _ _ H Hs) as (pl' & sched' & ls' & H'). eauto.
Qed.

(** A sequence of actions, for the concrete runs. *)
Fixpoint acts (l : list action) : M cfg unit :=
  match l with
  | [] => ret tt
  | a :: l => act a;;; acts l
  end.

Lemma acts_steps l c c' : acts l c = Done tt c' -> rtc step c c'.
Proof.
  revert c. induction l as [|a l IH]; intros c; cbn; [by intros [= ->]|].
  unfold bind. destruct (act a c) as [[] c1| | |] eqn:E; [|done..]. intros E'.
  eapply rtc_l; [by exists a|auto].
Qed.

(** ** The workers on their own *)
Definition is_worker (a : action) : bool :=
  match a with AEnter _ | AWake _ false | ARun _ | AFinish _ => true | _ => false end.

Definition worker_step (c c' : cfg) : Prop := exists a, is_worker a = true /\ act a c = Done tt c'.

Lemma worker_step_measure pl sched ls c c' :
  pool_ok pl sched ls c -> worker_step c c' ->
  exists pl' sched' ls', pool_ok pl' sched' ls' c' /\ exiting c' = exiting c /\ measure ls' c' < measure ls c.
Proof.
  intros H (a & Ha & E).
  assert (works_off ls a c -> exists pl' sched' ls', pool_ok pl' sched' ls' c' /\ exiting c' = exiting c /\
    measure ls' c' < measure ls c) as Hw.
  { intros (c'' & pl' & sched' & ls' & E' & H'). rewrite E in E'. injection E' as <-. eauto. }
  destruct a as [| | | | | |t|t spurious|t|t]; try done.
  - unfold act in E. destruct (threads c !! t) as [x|] eqn:Et; [|unfold bind, get_thread in E; by rewrite Et in E].
    rewrite (bind_get_thread _ _ c _ Et) in E. destruct x; [|done..]. by eapply Hw, enter_ok.
  - destruct spurious; [done|]. pose proof E as E0. unfold act in E.
    destruct (threads c !! t) as [x|] eqn:Et; [|unfold bind, get_thread in E; by rewrite Et in E].
    rewrite (bind_get_thread _ _ c _ Et) in E.
    destruct (decide (x = Waiting)) as [->|Hx]; [|unfold bind, guard in E; by rewrite bool_decide_eq_false_2 in E].
    rewrite bind_guard, !bind_gets in E by done.
    destruct (Z.ltb_spec 0 (signalled (shared c))) as [Hg|]; [|done].
    destruct (wake_ok H false Et Hg) as (c'' & pl' & sched' & ls' & E' & H' & Ex & Hm).
    rewrite E0 in E'. injection E' as <-. exists pl', sched', ls'. auto.
  - unfold act in E. destruct (threads c !! t) as [x|] eqn:Et; [|unfold bind, get_thread in E; by rewrite Et in E].
    rewrite (bind_get_thread _ _ c _ Et) in E. destruct x; try done. by eapply Hw, run_ok.
  - unfold act in E. destruct (threads c !! t) as [x|] eqn:Et; [|unfold bind, get_thread in E; by rewrite Et in E].
    rewrite (bind_get_thread _ _ c _ Et) in E. destruct x; try done. by eapply Hw, finish_ok.
Qed.

Lemma measure_nonneg pl sched ls c : pool_ok pl sched ls c -> 0 <= measure ls c.
Proof.
  intros H. unfold measure, qlen. pose proof (ok_sig H). pose proof (weights_nonneg (threads c)).
  pose proof (zlen_nonneg (l_wq ls)). pose proof (zlen_nonneg (l_slow ls)). lia.
Qed.

Lemma workers_sn pl sched ls c : pool_ok pl sched ls c -> sn worker_step c.
Proof.
  remember (Z.to_nat (measure ls c)) as n eqn:En. revert pl sched ls c En.
  induction (lt_wf n) as [n _ IH]. intros pl sched ls c -> H. constructor. intros c' Hs.
  destruct (worker_step_measure _ _ _ _ _ H Hs) as (pl' & sched' & ls' & H' & _ & Hm).
  eapply (IH (Z.to_nat (measure ls' c'))); [|done|done].
  pose proof (measure_nonneg _ _ _ _ H'). lia.
Qed.

Lemma workers_keep pl sched ls c c' :
  pool_ok pl sched ls c -> rtc worker_step c c' ->
  exists pl' sched' ls', pool_ok pl' sched' ls' c' /\ exiting c' = exiting c.
Proof.
  intros H Hr. revert pl sched ls H. induction Hr as [c|c1 c2 c3 Hs _ IH]; [eauto 10|].
  intros pl sched ls H. destruct (worker_step_measure _ _ _ _ _ H Hs) as (pl' & sched' & ls' & H' & Ex & _).
  destruct (IH _ _ _ H') as (pl2 & sched2 & ls2 & H2 & Ex2). exists pl2, sched2, ls2. split; [done|congruence].
Qed.

(** A busy thread can go on, and so can a thread with a signal. *)
Lemma busy_goes_on pl sched ls c : pool_ok pl sched ls c -> 0 < count is_busy (threads c) -> exists c', worker_step c c'.
Proof.
  intros H (t & x & Et & Hx)%count_pos. destruct x as [slow| |w slow|w slow|]; try done.
  - destruct (enter_ok H slow Et) as (c' & ? & ? & ? & E & _). by exists c', (AEnter t).
  - destruct (run_ok H w slow Et) as (c' & ? & ? & ? & E & _). by exists c', (ARun t).
  - destruct (finish_ok H w slow Et) as (c' & ? & ? & ? & E & _). by exists c', (AFinish t).
Qed.

Lemma signal_goes_on pl sched ls c : pool_ok pl sched ls c -> 0 < signalled (shared c) -> exists c', worker_step c c'.
Proof.
  intros H Hs. assert (0 < count is_waiting (threads c)) as Hi by (rewrite <- (ok_idle H); pose proof (ok_sig H); lia).
  apply count_pos in Hi as (t & x & Et & Hx). destruct x; try done.
  destruct (wake_ok H false Et Hs) as (c' & ? & ? & ? & E & _). by exists c', (AWake t false).
Qed.

Lemma count_states l :
  count is_busy l + count is_waiting l + count is_exited l = zlen l /\ count is_slow l <= count is_busy l.
Proof.
  induction l as [|x l [IH1 IH2]]; [done|]. rewrite !count_cons, zlen_cons. destruct x as [[]| |? []|? []|]; cbn; lia.
Qed.

Lemma in_wq pl ex sched ls m w : pq pl ex sched ls m -> pl w = AtWq -> l_wq ls <> [].
Proof.
  intros (Q & ow & H) Ep E. pose proof (in_queue H w wq (l_wq ls)) as Hin. rewrite Ep, E in Hin.
  apply (elem_of_nil (work_wq w)), Hin; [done| |done]. rewrite <- E. apply H.
Qed.

Lemma in_slow pl ex sched ls m w : pq pl ex sched ls m -> pl w = AtSlow -> l_slow ls <> [].
Proof.
  intros (Q & ow & H) Ep E. pose proof (in_queue H w slow_io_pending_wq (l_slow ls)) as Hin. rewrite Ep, E in Hin.
  apply (elem_of_nil (work_wq w)), Hin; [done| |done]. rewrite <- E. apply H.
Qed.

Lemma sched_in pl ex ls m : pq pl ex true ls m -> l_wq ls <> [].
Proof.
  intros (Q & ow & H) E. destruct (fam_queue _ _ _ _ _ (pq_fam H) (pq_msg H)) as (l & El & Hin).
  rewrite (pq_wq H), E in El. injection El as <-. by apply list_elem_of_singleton in Hin.
Qed.

(** When no worker can go on, nothing is queued and no work is in a thread. *)
Lemma workers_stuck pl sched ls c :
  pool_ok pl sched ls c -> exiting c = false -> ~ (exists c', worker_step c c') ->
  l_wq ls = [] /\ l_slow ls = [] /\ forall w, phase_of w (trace c) = Some Submitted ->
  cancelling c = Some w \/ exists d, works (shared c) !! w = Some (mk_work uv__cancelled d).
Proof.
  intros H Ee Hst. assert (count is_busy (threads c) = 0) as Hb.
  { pose proof (count_bounds is_busy (threads c)). destruct (Z.lt_ge_cases 0 (count is_busy (threads c))); [|lia].
    destruct Hst. by eapply busy_goes_on. }
  assert (signalled (shared c) = 0) as Hs.
  { pose proof (ok_sig H). destruct (Z.lt_ge_cases 0 (signalled (shared c))); [|lia].
    destruct Hst. by eapply signal_goes_on. }
  destruct (count_states (threads c)) as [Hc Hsl]. rewrite Hb, (ok_exited H Ee), <- (ok_idle H), <- (ok_len H) in Hc.
  rewrite <- (ok_running H) in Hsl. pose proof (ok_size H) as Hz. pose proof (threshold_range _ Hz) as Ht.
  assert (is_blocked (shared c) (l_wq ls) = true) as Hbl.
  { destruct (is_blocked (shared c) (l_wq ls)) eqn:E; [done|]. destruct (ok_wake H E); lia. }
  assert (l_wq ls = []) as Ew.
  { unfold is_blocked in Hbl. destruct (l_wq ls) as [|x l]; [done|]. cbn in Hbl.
    apply andb_true_iff in Hbl as [_ Hbl]. lia. }
  assert (l_slow ls = []) as El.
  { destruct (ok_slow H) as [|Hsc]; [done|]. pose proof (ok_pq H) as Hq. rewrite Hsc in Hq.
    by destruct (sched_in _ _ _ _ Hq). }
  split; [done|]. split; [done|]. intros w Hw. rewrite (ok_phase H) in Hw. pose proof (ok_work H w) as Hk.
  destruct (pl w) as [| | |t|t|[]|[]|] eqn:Ep; try done; try (by right).
  - by destruct (in_wq _ _ _ _ _ w (ok_pq H) Ep).
  - by destruct (in_slow _ _ _ _ _ w (ok_pq H) Ep).
  - apply (ok_run H) in Ep as [b Et].
    assert (0 < count is_busy (threads c)) by (apply count_pos; eauto). lia.
  - left. by apply (ok_cancel H).
Qed.

(** The completed works are called back one after the other. *)
Lemma drain_all pl sched ls c :
  pool_ok pl sched ls c -> cancelling c = None -> draining c = true ->
  exists c' pl', acts (replicate (length (l_done ls)) ADoneNext) c = Done tt c' /\
  pool_ok pl' sched (mk_lists (l_wq ls) (l_slow ls) (l_loop ls) []) c' /\ threads c' = threads c /\
  cancelling c' = None /\ forall w, pl' w = pl w \/ pl' w = Nowhere.
Proof.
  remember (l_done ls) as ld eqn:El. revert pl ls c El. induction ld as [|x ld IH]; intros pl ls c El H Ec Ed.
  - exists c, pl. split; [done|]. split; [|auto]. rewrite El. by destruct ls.
  - destruct (done_next_ok H x ld Ec Ed (eq_sym El)) as (c1 & w & E & H1 & Ec1 & Ed1 & Et1).
    destruct (IH _ (mk_lists (l_wq ls) (l_slow ls) (l_loop ls) ld) _ eq_refl H1 Ec1 Ed1) as (c2 & pl2 & E2 & H2 & Et2 & Ec2 & Hp).
    exists c2, pl2. cbn [length replicate acts]. rewrite (bind_done _ _ _ _ _ E). split; [done|]. split; [done|].
    split; [congruence|]. split; [done|]. intros w'. destruct (Hp w') as [->|]; [|by right].
    destruct (decide (w' = w)) as [->|]; [right; by rewrite fn_lookup_insert|left; by rewrite fn_lookup_insert_ne].
Qed.

Lemma in_list pl ex sched ls m w h l :
  pq pl ex sched ls m -> place_owner w (pl w) = Some h ->
  match h with wq => l = l_wq ls | slow_io_pending_wq => l = l_slow ls | loop_wq => l = l_loop ls
    | done_wq => l = l_done ls | _ => False end -> l <> [].
Proof.
  intros (Q & ow & H) Ep El E. subst l.
  assert (Q !! h = Some []) as EQ.
  { destruct h; try done; rewrite El; apply H. }
  apply (elem_of_nil (work_wq w)), (in_queue H w h [] Ep EQ). by destruct h.
Qed.

Lemma acts_worker_steps l c c' : forallb is_worker l = true -> acts l c = Done tt c' -> rtc worker_step c c'.
Proof.
  revert c. induction l as [|a l IH]; intros c; cbn; [by intros _ [= ->]|].
  intros [Ha Hl]%andb_true_iff. unfold bind. destruct (act a c) as [[] c1| | |] eqn:E; [|done..]. intros E'.
  eapply rtc_l; [by exists a|auto].
Qed.

(** The actions of [uv__work_done]. *)
Definition is_done (a : action) : bool := match a with ADoneTake | ADoneNext => true | _ => false end.

Lemma forallb_done n : forallb is_done (ADoneTake :: replicate n ADoneNext) = true.
Proof. cbn. by induction n. Qed.

(** With nothing queued or in a thread, no work is in use. *)
Lemma all_free pl sched ls c :
  pool_ok pl sched ls c -> l_wq ls = [] -> l_slow ls = [] -> l_loop ls = [] -> l_done ls = [] ->
  cancelling c = None -> count is_busy (threads c) = 0 -> forall w, phase_of w (trace c) = Some Free.
Proof.
  intros H Ew Es El Ed Ec Hb w. apply (phase_free H). pose proof (ok_pq H) as Hq.
  destruct (pl w) as [| | |t|t|b|b|] eqn:Ep; [done|..]; exfalso.
  - by apply (in_list _ _ _ _ _ w wq [] Hq); [rewrite Ep|..].
  - by apply (in_list _ _ _ _ _ w slow_io_pending_wq [] Hq); [rewrite Ep|..].
  - apply (ok_run H) in Ep as [b Et]. assert (0 < count is_busy (threads c)) by (apply count_pos; eauto). lia.
  - apply (ok_ran H) in Ep as [b Et]. assert (0 < count is_busy (threads c)) by (apply count_pos; eauto). lia.
  - by apply (in_list _ _ _ _ _ w loop_wq [] Hq); [rewrite Ep|..].
  - by apply (in_list _ _ _ _ _ w done_wq [] Hq); [rewrite Ep|..].
  - apply (ok_cancel H) in Ep. congruence.
Qed.

(** ** The sample: two workers; one work runs, one slow work runs, one slow work
    is cancelled *)
Definition sample_actions : list action :=
  [ASubmit 1 UV__WORK_CPU 11 21; ASubmit 2 UV__WORK_SLOW_IO 12 22; ASubmit 3 UV__WORK_SLOW_IO 13 23;
   AEnter 0; AEnter 1; ARun 0; ACancel 3; ACancelRest].
Definition sample_rest : list action := [AFinish 0; AEnter 0; ARun 1; AFinish 1; AEnter 1].

Definition sample_start : cfg := pool_init (Some 2) true [1; 2; 3; 4].
Definition sample : cfg := match acts sample_actions sample_start with Done _ c => c | _ => sample_start end.
Definition sample_end : cfg := match acts sample_rest sample with Done _ c => c | _ => sample end.

Lemma sample_reachable : reachable (Some 2) true [1; 2; 3; 4] sample.
Proof. apply (acts_steps sample_actions). by vm_compute. Qed.

Lemma sample_end_steps : rtc worker_step sample sample_end.
Proof. apply (acts_worker_steps sample_rest); [done|]. by vm_compute. Qed.

Lemma sample_end_stuck : ~ (exists c', worker_step sample_end c').
Proof.
  intros (c' & a & Ha & E). assert (threads sample_end = [Waiting; Waiting]) as Et by by vm_compute.
  assert (signalled (shared sample_end) = 0) as Es by by vm_compute. revert E Et Es. generalize sample_end.
  intros c E Et Es.
  assert (forall t x, threads c !! t = Some x -> x = Waiting) as Hw.
  { intros t x. rewrite Et. by destruct t as [|[|t]]; intros [= <-]. }
  destruct a as [| | | | | |t|t []|t|t]; try done; unfold act in E;
    (destruct (threads c !! t) as [x|] eqn:Ex; [|unfold bind, get_thread in E; by rewrite Ex in E]);
    rewrite (bind_get_thread _ _ c _ Ex) in E; pose proof (Hw t x Ex) as ->; try done.
  rewrite bind_guard, !bind_gets, Es in E by done. done.
Qed.

(** ** The properties *)
(** C27: Whatever the threads do, in any order, no action goes wrong (each one is
    done or is not enabled); the counters are those of the threads: as many idle
    threads as wait, no more signals than idle threads, and never more than half
    of the threads, rounded up, on slow work. *)
Theorem pool_counts_its_threads val malloc_ok ws c :
  reachable val malloc_ok ws c ->
  idle_threads (shared c) = count is_waiting (threads c) /\
  0 <= signalled (shared c) <= idle_threads (shared c) /\
  slow_io_work_running (shared c) = count is_slow (threads c) /\
  2 * count is_slow (threads c) <= zlen (threads c) + 1 /\
  1 <= zlen (threads c) <= 1024 /\
  forall a, (exists c', act a c = Done tt c') \/ (exists c', act a c = Fail c').
Proof.
  intros (pl & sched & ls & H)%reachable_ok. pose proof (ok_size H) as Hz. pose proof (ok_thr H) as Ht.
  rewrite (ok_len H) in *. rewrite (ok_running H) in Ht.
  assert (threshold (zlen (threads c)) * 2 <= zlen (threads c) + 1).
  { unfold threshold, u32, MAX_THREADPOOL_SIZE in *. rewrite Z.mod_small by lia. zdm. }
  split; [apply H|]. split; [apply H|]. split; [apply H|]. split; [lia|]. split; [done|]. intros a.
  destruct (act_keeps _ _ _ _ a H) as [?|(c' & _ & _ & _ & E & _)]; eauto.
Qed.

Lemma pool_counts_its_threads_witness :
  reachable (Some 2) true [1; 2; 3; 4] sample /\ count is_slow (threads sample) = 1 /\
  2 * count is_slow (threads sample) <= zlen (threads sample) + 1.
Proof.
  split; [exact sample_reachable|]. split; [by vm_compute|].
  pose proof (pool_counts_its_threads (Some 2) true [1; 2; 3; 4] sample sample_reachable) as (_ & _ & _ & E & _).
  exact E.
Defined.

(** C26: Each work goes through its life once per submission: it is called at most
    once, after it was submitted; its completion comes at most once, with status 0
    exactly when it was called and with [UV_ECANCELED] exactly when it was not. *)
Theorem works_run_and_complete_once val malloc_ok ws c w :
  reachable val malloc_ok ws c -> exists p, phase_of w (trace c) = Some p.
Proof. intros (pl & sched & ls & H)%reachable_ok. exists (place_phase (pl w)). apply (ok_phase H). Qed.

Lemma works_run_and_complete_once_witness :
  reachable (Some 2) true [1; 2; 3; 4] sample /\ exists p, phase_of 1 (trace sample) = Some p.
Proof.
  split; [exact sample_reachable|].
  exact (works_run_and_complete_once (Some 2) true [1; 2; 3; 4] sample 1 sample_reachable).
Defined.

(** C28: [uv__work_cancel] takes a work that is in use exactly when it is submitted,
    was not called, and no worker has taken it to call it; it never goes wrong. *)
Theorem cancel_takes_unstarted_works val malloc_ok ws c w :
  reachable val malloc_ok ws c -> cancelling c = None -> phase_of w (trace c) <> Some Free ->
  exists b s, work_cancel_locked w (shared c) = Done b s /\
  (b = true <-> phase_of w (trace c) = Some Submitted /\ forall t slow, threads c !! t <> Some (Running w slow)).
Proof.
  intros (pl & sched & ls & H)%reachable_ok Ec Ep. rewrite (phase_free H) in Ep.
  pose proof (work_cancel_locked_spec _ _ _ _ _ w (ok_pq H) Ep (no_cancel H w Ec) (ok_work H w)) as Hc.
  assert (cancellable (pl w) = true <->
    phase_of w (trace c) = Some Submitted /\ forall t slow, threads c !! t <> Some (Running w slow)) as Hb.
  { rewrite (ok_phase H). pose proof (no_cancel H w Ec). split.
    - intros Hb. split; [by destruct (pl w) as [| | |t|t|[]|[]|]|]. intros t slow Et.
      assert (pl w = AtRun t) as E by (apply (ok_run H); eauto). by rewrite E in Hb.
    - intros [Hp Ht]. destruct (pl w) as [| | |t|t|[]|[]|] eqn:Ew; try done.
      apply (ok_run H) in Ew as [b Et]. by destruct (Ht t b). }
  destruct (cancellable (pl w)); [destruct Hc as (m & E & _)|]; eauto.
Qed.

Lemma cancel_takes_unstarted_works_witness :
  reachable (Some 2) true [1; 2; 3; 4] sample /\ cancelling sample = None /\ phase_of 2 (trace sample) <> Some Free /\
  exists b s, work_cancel_locked 2 (shared sample) = Done b s /\
  (b = true <-> phase_of 2 (trace sample) = Some Submitted /\ forall t slow, threads sample !! t <> Some (Running 2 slow)).
Proof.
  assert (cancelling sample = None) as E1 by by vm_compute.
  assert (phase_of 2 (trace sample) <> Some Free) as E2 by by vm_compute.
  split; [exact sample_reachable|]. split; [exact E1|]. split; [exact E2|].
  exact (cancel_takes_unstarted_works (Some 2) true [1; 2; 3; 4] sample 2 sample_reachable E1 E2).
Defined.

(** C25: While the pool is not shut down no wakeup is lost and no work is
    forgotten: the workers on their own always come to rest, and then, with no
    cancellation in progress, one [uv__work_done] on the loop (if the async handle
    was signalled, and nothing is left to do otherwise) calls the completion of
    every work that was submitted. *)
Theorem submitted_works_complete val malloc_ok ws c :
  reachable val malloc_ok ws c -> exiting c = false ->
  sn worker_step c /\
  forall c1, rtc worker_step c c1 -> ~ (exists c', worker_step c1 c') ->
  cancelling c1 = None -> draining c1 = false ->
  exists l c2, forallb is_done l = true /\ acts l c1 = Done tt c2 /\
  forall w, phase_of w (trace c2) = Some Free.
Proof.
  intros (pl & sched & ls & H)%reachable_ok Ee. split; [by eapply workers_sn|]. intros c1 Hr Hst Ec Ed.
  destruct (workers_keep _ _ _ _ _ H Hr) as (pl1 & sched1 & ls1 & H1 & Ex). rewrite Ee in Ex.
  destruct (workers_stuck _ _ _ _ H1 Ex Hst) as (Ew & El & _).
  assert (count is_busy (threads c1) = 0) as Hb.
  { pose proof (count_bounds is_busy (threads c1)).
    destruct (Z.lt_ge_cases 0 (count is_busy (threads c1))); [|lia]. destruct Hst. by eapply busy_goes_on. }
  destruct (async_sent (shared c1)) eqn:Ea.
  - destruct (done_take_ok H1 Ec Ed Ea) as (c2 & E2 & H2 & Ec2 & Ed2 & Et2).
    destruct (drain_all _ _ _ _ H2 Ec2 Ed2) as (c3 & pl3 & E3 & H3 & Et3 & Ec3 & Hp).
    exists (ADoneTake :: replicate (length (l_loop ls1)) ADoneNext), c3. cbn [acts].
    rewrite (bind_done _ _ _ _ _ E2). split; [apply forallb_done|]. split; [done|].
    apply (all_free _ _ _ _ H3); [done..|congruence].
  - exists [], c1. split; [done|]. split; [done|].
    apply (all_free _ _ _ _ H1); [done|done| |by apply (ok_drain H1)|done|done].
    destruct (l_loop ls1) eqn:Ell; [done|]. rewrite (ok_async H1) in Ea; [done|by rewrite Ell].
Qed.

Lemma submitted_works_complete_witness :
  exiting sample = false /\ rtc worker_step sample sample_end /\
  exists l c2, forallb is_done l = true /\ acts l sample_end = Done tt c2 /\
  forall w, phase_of w (trace c2) = Some Free.
Proof.
  assert (exiting sample = false) as E1 by by vm_compute.
  assert (cancelling sample_end = None) as E2 by by vm_compute.
  assert (draining sample_end = false) as E3 by by vm_compute.
  split; [exact E1|]. split; [exact sample_end_steps|].
  destruct (submitted_works_complete (Some 2) true [1; 2; 3; 4] sample sample_reachable E1) as [_ Hs].
  exact (Hs sample_end sample_end_steps sample_end_stuck E2 E3).
Defined.
