(* ===== verification/UvInet.v ===== *)
(** libuv, [strscpy.c] and [inet.c]: bounded string copies, and the conversion of
    IPv4 and IPv6 addresses to and from text.  A [char] array is the list of its
    values as unsigned chars, and the state of the monad is the array that a
    function writes to; a pointer into it is a position.  A source pointer is the
    list of what can be read from there on: a read after its end is [UbRead]. *)
From S2P Require Import Prelude.

Definition T : Type -> Type := M (list Z).

Definition rd {S} (l : list Z) (i : Z) : M S Z :=
  if 0 <=? i then of_option UbRead (l !! Z.to_nat i) else undef UbRead.

Definition wr (i v : Z) : T unit := fun a =>
  if (0 <=? i) && (i <? zlen a) then Done tt (<[Z.to_nat i := v]> a) else Undef UbWrite.

(** [a[i]] of the array itself. *)
Definition rd_array (i : Z) : T Z := fun a => rd a i a.

(** A call on a local array with the contents [junk]. *)
Definition with_local {A} (junk : list Z) (m : T A) : T (A * list Z) := fun s =>
  match m junk with
  | Done a tmp => Done (a, tmp) s
  | Fail _ => Fail s
  | Undef u => Undef u
  | OutOfFuel => OutOfFuel
  end.

(** [memcpy] of the whole list. *)
Fixpoint memcpy_to (d : Z) (l : list Z) : T unit :=
  match l with
  | [] => ret tt
  | v :: l => wr d v;;; memcpy_to (d + 1) l
  end.

(** ** Errors, as negated errno values of Darwin *)
Definition UV_E2BIG : Z := -7.
Definition UV_EINVAL : Z := -22.
Definition UV_ENOSPC : Z := -28.
Definition UV_EAFNOSUPPORT : Z := -47.
Definition AF_INET : Z := 2.
Definition AF_INET6 : Z := 30.
Definition SSIZE_MAX : Z := 2 ^ 63 - 1.

(** ** [strscpy.c] *)
(** The [for], with [n - i] turns left: the index of the copied NUL. *)
Fixpoint strscpy_loop (turns : nat) (d : Z) (s : list Z) (i : Z) : T (option Z) :=
  match turns with
  | O => ret None
  | S turns =>
      let* c := rd s i in
      wr (d + i) c;;;
      if c =? 0 then ret (Some i) else strscpy_loop turns d s (i + 1)
  end.

Definition uv__strscpy (d : Z) (s : list Z) (n : Z) : T Z :=
  let* r := strscpy_loop (Z.to_nat n) d s 0 in
  match r with
  | Some i => ret (if SSIZE_MAX <? i then UV_E2BIG else i)
  | None => if n =? 0 then ret 0 else wr (d + (n - 1)) 0;;; ret UV_E2BIG
  end.

(** ** Numbers as text *)
Definition digit_char (v : Z) : Z := if v <? 10 then 48 + v else 87 + v.

(** The digits that the conversions of [printf] print. *)
Fixpoint digits_of (base : Z) (fuel : nat) (n : Z) : list Z :=
  match fuel with
  | O => []
  | S fuel => (if n <? base then [] else digits_of base fuel (n / base)) ++ [digit_char (n mod base)]
  end.

(** [%u] and [%x] of an [unsigned int]. *)
Definition fmt_u (n : Z) : list Z := digits_of 10 10 n.
Definition fmt_x (n : Z) : list Z := digits_of 16 8 n.

(** ** [inet_ntop4] *)
Definition UV__INET_ADDRSTRLEN : Z := 16.
Definition UV__INET6_ADDRSTRLEN : Z := 46.

Definition dot : Z := 46.
Definition colon : Z := 58.
Definition percent : Z := 37.

Definition ntop4_text (a b c d : Z) : list Z :=
  fmt_u a ++ dot :: fmt_u b ++ dot :: fmt_u c ++ dot :: fmt_u d.

(** [snprintf] gives the length of the whole text, and stores what fits in [tmp]
    with a NUL. *)
Definition inet_ntop4 (src : list Z) (dst size : Z) : T Z :=
  let* a := rd src 0 in
  let* b := rd src 1 in
  let* c := rd src 2 in
  let* d := rd src 3 in
  let text := ntop4_text a b c d in
  let l := zlen text in
  let tmp := take (Z.to_nat (UV__INET_ADDRSTRLEN - 1)) text ++ [0] in
  if (l <=? 0) || (size <=? l) then ret UV_ENOSPC
  else
    let* _ := uv__strscpy dst tmp size in
    ret 0.

(** ** [inet_ntop6] *)
Record run : Type := mk_run { base : Z; len : Z }.

(** [words[i / 2] |= src[i] << ((1 - (i % 2)) << 3)] *)
Fixpoint load_words {S} (turns : nat) (i : Z) (src words : list Z) : M S (list Z) :=
  match turns with
  | O => ret words
  | S turns =>
      let* c := rd src i in
      let* w := rd words (i / 2) in
      load_words turns (i + 1) src
        (<[Z.to_nat (i / 2) := Z.lor w (u32 (Z.shiftl c (Z.shiftl (1 - i mod 2) 3)))]> words)
  end.

(** The longest run of zero words. *)
Definition better (best cur : run) : run :=
  if (base best =? -1) || (len best <? len cur) then cur else best.

Fixpoint scan_words (words : list Z) (i : Z) (best cur : run) : run :=
  match words with
  | [] => if base cur =? -1 then best else better best cur
  | w :: words =>
      if w =? 0 then
        if base cur =? -1 then scan_words words (i + 1) best (mk_run i 1)
        else scan_words words (i + 1) best (mk_run (base cur) (len cur + 1))
      else if base cur =? -1 then scan_words words (i + 1) best cur
      else scan_words words (i + 1) (better best cur) (mk_run (-1) (len cur))
  end.

Definition best_run (words : list Z) : run :=
  let best := scan_words words 0 (mk_run (-1) 0) (mk_run (-1) 0) in
  if negb (base best =? -1) && (len best <? 2) then mk_run (-1) (len best) else best.

(** [strlen] of what the array holds from [i] on. *)
Fixpoint strlen (l : list Z) : option Z :=
  match l with
  | [] => None
  | c :: l => if c =? 0 then Some 0 else Z.succ <$> strlen l
  end.

Definition strlen_at (i : Z) : T Z := fun a => of_option UbRead (strlen (drop (Z.to_nat i) a)) a.

(** [sprintf] writes the text and a NUL. *)
Definition sprintf_at (tp : Z) (text : list Z) : T Z :=
  memcpy_to tp (text ++ [0]);;; ret (tp + zlen text).

(** [for (i = 0; ...)], with the local array as state: [tp] at the end, or the
    error of [inet_ntop4]. *)
Fixpoint format_words (turns : nat) (i tp : Z) (src words : list Z) (best : run) : T (Z + Z) :=
  match turns with
  | O => ret (inr tp)
  | S turns =>
      if negb (base best =? -1) && (base best <=? i) && (i <? base best + len best) then
        if i =? base best then
          wr tp colon;;;
          format_words turns (i + 1) (tp + 1) src words best
        else format_words turns (i + 1) tp src words best
      else
        let* tp := (if i =? 0 then ret tp else wr tp colon;;; ret (tp + 1)) in
        let* w7 := rd words 7 in
        let* w5 := rd words 5 in
        if (i =? 6) && (base best =? 0)
           && ((len best =? 6) || ((len best =? 7) && negb (w7 =? 1)) || ((len best =? 5) && (w5 =? 65535)))
        then
          let* err := inet_ntop4 (drop 12 src) tp (UV__INET6_ADDRSTRLEN - tp) in
          if err =? 0 then
            let* l := strlen_at tp in
            ret (inr (tp + l))
          else ret (inl err)
        else
          let* w := rd words i in
          let* tp := sprintf_at tp (fmt_x w) in
          format_words turns (i + 1) tp src words best
  end.

Definition format6 (src words : list Z) : T Z :=
  let best := best_run words in
  let* r := format_words 8 0 0 src words best in
  match r with
  | inl err => ret err
  | inr tp =>
      let* tp := (if negb (base best =? -1) && (base best + len best =? 8)
                  then wr tp colon;;; ret (tp + 1) else ret tp) in
      wr tp 0;;;
      ret 0
  end.

(** [junk] is what the stack holds in [tmp]. *)
Definition inet_ntop6 (junk src : list Z) (dst size : Z) : T Z :=
  let* words := load_words 16 0 src (replicate 8 0) in
  let* r := with_local junk (format6 src words) in
  let (err, tmp) := r : Z * list Z in
  if err =? 0 then
    let* n := uv__strscpy dst tmp size in
    ret (if n =? UV_E2BIG then UV_ENOSPC else 0)
  else ret err.

Definition uv_inet_ntop (junk : list Z) (af : Z) (src : list Z) (dst size : Z) : T Z :=
  if af =? AF_INET then inet_ntop4 src dst size
  else if af =? AF_INET6 then inet_ntop6 junk src dst size
  else ret UV_EAFNOSUPPORT.

(** ** [inet_pton4] *)
(** The index of [c], not NUL, in a string literal. *)
Fixpoint strchr (s : list Z) (c : Z) : option Z :=
  match s with
  | [] => None
  | x :: s => if x =? c then Some 0 else Z.succ <$> strchr s c
  end.

Definition digits : list Z := [48; 49; 50; 51; 52; 53; 54; 55; 56; 57].
Definition xdigits_l : list Z := digits ++ [97; 98; 99; 100; 101; 102].
Definition xdigits_u : list Z := digits ++ [65; 66; 67; 68; 69; 70].

(** The [while], with the array [tmp] as state: whether the text is an address. *)
Fixpoint pton4_loop (src : list Z) (tp octets : Z) (saw_digit : bool) : T bool :=
  match src with
  | [] => undef UbRead
  | ch :: src =>
      if ch =? 0 then ret (negb (octets <? 4))
      else
        match strchr digits ch with
        | Some v =>
            let* cur := rd_array tp in
            let nw := u32 (cur * 10 + v) in
            if saw_digit && (cur =? 0) then ret false
            else if 255 <? nw then ret false
            else
              wr tp (u8 nw);;;
              if saw_digit then pton4_loop src tp octets saw_digit
              else
                let octets := octets + 1 in
                if 4 <? octets then ret false else pton4_loop src tp octets true
        | None =>
            if (ch =? dot) && saw_digit then
              if octets =? 4 then ret false
              else
                wr (tp + 1) 0;;;
                pton4_loop src (tp + 1) octets false
            else ret false
        end
  end.

Definition inet_pton4 (junk src : list Z) (dst : Z) : T Z :=
  let* r := with_local (take 4 junk) (wr 0 0;;; pton4_loop src 0 0 false) in
  let (ok, tmp) := r : bool * list Z in
  if ok then memcpy_to dst tmp;;; ret 0 else ret UV_EINVAL.

(** ** [inet_pton6] *)
Definition put_word (tp val : Z) : T unit :=
  wr tp (Z.land (u8 (Z.shiftr val 8)) 255);;;
  wr (tp + 1) (Z.land (u8 val) 255).

Definition xdigit (ch : Z) : option Z :=
  match strchr xdigits_l ch with Some v => Some v | None => strchr xdigits_u ch end.

(** What the loop leaves: the position, the place of the [::], and the number
    that is still to be stored. *)
Record pton6_end : Type := mk_pton6_end {
  pe_tp : Z;
  pe_colonp : option Z;
  pe_seen : Z;
  pe_val : Z
}.

(** The [while], [None] for an error. *)
Fixpoint pton6_loop (junk src curtok : list Z) (tp : Z) (colonp : option Z) (seen val : Z) : T (option pton6_end) :=
  match src with
  | [] => undef UbRead
  | ch :: src =>
      if ch =? 0 then ret (Some (mk_pton6_end tp colonp seen val))
      else
        match xdigit ch with
        | Some v =>
            let val := Z.lor (u32 (Z.shiftl val 4)) v in
            let seen := seen + 1 in
            if 4 <? seen then ret None
            else pton6_loop junk src curtok tp colonp seen val
        | None =>
            if ch =? colon then
              let curtok := src in
              if seen =? 0 then
                match colonp with
                | Some _ => ret None
                | None => pton6_loop junk src curtok tp (Some tp) seen val
                end
              else
                let* next := rd src 0 in
                if next =? 0 then ret None
                else if 16 <? tp + 2 then ret None
                else
                  put_word tp val;;;
                  pton6_loop junk src curtok (tp + 2) colonp 0 0
            else if (ch =? dot) && (tp + 4 <=? 16) then
              let* err := inet_pton4 junk curtok tp in
              if err =? 0 then ret (Some (mk_pton6_end (tp + 4) colonp 0 val))
              else ret None
            else ret None
        end
  end.

(** The words after the [::] are shifted to the end. *)
Fixpoint shift_loop (turns : nat) (i n colonp : Z) : T unit :=
  match turns with
  | O => ret tt
  | S turns =>
      let* v := rd_array (colonp + (n - i)) in
      wr (16 - i) v;;;
      wr (colonp + (n - i)) 0;;;
      shift_loop turns (i + 1) n colonp
  end.

Definition pton6_finish (e : pton6_end) : T bool :=
  let* tp :=
    (if pe_seen e =? 0 then ret (Some (pe_tp e))
     else if 16 <? pe_tp e + 2 then ret None
     else put_word (pe_tp e) (pe_val e);;; ret (Some (pe_tp e + 2))) in
  match tp with
  | None => ret false
  | Some tp =>
      match pe_colonp e with
      | Some colonp =>
          let n := tp - colonp in
          if tp =? 16 then ret false
          else shift_loop (Z.to_nat n) 1 n colonp;;; ret true
      | None => ret (tp =? 16)
      end
  end.

Definition pton6_text (junk src : list Z) : T bool :=
  let* r := pton6_loop junk src src 0 None 0 0 in
  match r with Some e => pton6_finish e | None => ret false end.

Definition inet_pton6 (junk src : list Z) (dst : Z) : T Z :=
  let* c := rd src 0 in
  let* c1 := (if c =? colon then rd src 1 else ret colon) in
  if negb (c1 =? colon) then ret UV_EINVAL
  else
    let src := if c =? colon then drop 1 src else src in
    let* r := with_local (replicate 16 0) (pton6_text junk src) in
    let (ok, tmp) := r : bool * list Z in
    if ok then memcpy_to dst tmp;;; ret 0 else ret UV_EINVAL.

(** The position of the first [%] of a string. *)
Fixpoint find_percent (src : list Z) (i : Z) : T (option Z) :=
  match src with
  | [] => undef UbRead
  | c :: src => if c =? percent then ret (Some i) else if c =? 0 then ret None else find_percent src (i + 1)
  end.

(** Null pointers are [None]. *)
Definition uv_inet_pton (junk : list Z) (af : Z) (src : option (list Z)) (dst : option Z) : T Z :=
  match src, dst with
  | Some src, Some dst =>
      if af =? AF_INET then inet_pton4 junk src dst
      else if af =? AF_INET6 then
        let* p := find_percent src 0 in
        match p with
        | Some len =>
            if UV__INET6_ADDRSTRLEN - 1 <? len then ret UV_EINVAL
            else inet_pton6 junk (take (Z.to_nat len) src ++ [0]) dst
        | None => inet_pton6 junk src dst
        end
      else ret UV_EAFNOSUPPORT
  | _, _ => ret UV_EINVAL
  end.
