(* ===== verification/UvInetProofs.v ===== *)
(** libuv, the text of addresses: what the writes do to an array, the numbers as
    text, and the parsers on them. *)
From S2P Require Import Prelude.
From S2P Require Import UvInet.

#[local] Set Warnings "-clear-no-such-hyp".

(** ** Arrays *)
(** [a] with [l] written at the position [d]. *)
Definition over (d : Z) (l a : list Z) : list Z :=
  take (Z.to_nat d) a ++ l ++ drop (Z.to_nat d + length l) a.

Lemma zlen_over d l a : 0 <= d -> d + zlen l <= zlen a -> zlen (over d l a) = zlen a.
Proof. intros Hd Hl. unfold over, zlen in *. rewrite !length_app, length_take, length_drop. lia. Qed.

Lemma over_nil d a : over d [] a = a.
Proof. unfold over. cbn. by rewrite Nat.add_0_r, take_drop. Qed.

(** What is outside is not changed. *)
Lemma lookup_over d l a i :
  0 <= d -> d + zlen l <= zlen a -> 0 <= i < d \/ d + zlen l <= i -> over d l a !! Z.to_nat i = a !! Z.to_nat i.
Proof.
  intros Hd Hl Hi. unfold over, zlen in *. destruct Hi as [Hi|Hi].
  - rewrite lookup_app_l by (rewrite length_take; lia). apply lookup_take_lt. lia.
  - rewrite lookup_app_r, length_take by (rewrite length_take; lia). rewrite lookup_app_r by lia.
    rewrite lookup_drop. f_equal. lia.
Qed.

(** A write after a write that ends where it starts. *)
Lemma over_over d l k a : 0 <= d -> d + zlen l <= zlen a -> over (d + zlen l) k (over d l a) = over d (l ++ k) a.
Proof.
  intros Hd Hl. unfold over, zlen in *.
  replace (Z.to_nat (d + Z.of_nat (length l))) with (Z.to_nat d + length l)%nat by lia.
  rewrite (app_assoc (take _ a) l). set (p := take (Z.to_nat d) a ++ l).
  assert (length p = (Z.to_nat d + length l)%nat) as Hp by (unfold p; rewrite length_app, length_take; lia).
  rewrite take_app_length' by done. rewrite drop_app, drop_ge by lia. cbn. rewrite drop_drop, Hp, length_app.
  unfold p. rewrite <- !app_assoc. do 4 f_equal. lia.
Qed.

Lemma over_same d l k a :
  0 <= d -> length l = length k -> d + zlen k <= zlen a -> over d l (over d k a) = over d l a.
Proof.
  intros Hd El Hl. unfold over, zlen in *. rewrite El. f_equal; [|f_equal].
  - by rewrite take_app_length' by (rewrite length_take; lia).
  - rewrite app_assoc, drop_app_length' by (rewrite length_app, length_take; lia). done.
Qed.

Lemma rd_app {S} (l1 l2 : list Z) c i (s : S) : i = zlen l1 -> rd (l1 ++ c :: l2) i s = Done c s.
Proof.
  intros ->. unfold rd. pose proof (zlen_nonneg l1). rewrite (proj2 (Z.leb_le _ _)) by done.
  by rewrite zlen_to_nat, list_lookup_middle by done.
Qed.

Lemma rd_head {S} (l : list Z) c (s : S) : rd (c :: l) 0 s = Done c s.
Proof. by apply (rd_app []). Qed.

Lemma wr_run d v a : 0 <= d -> d + 1 <= zlen a -> wr d v a = Done tt (over d [v] a).
Proof.
  intros Hd Hl. unfold wr. rewrite (proj2 (Z.leb_le _ _)), (proj2 (Z.ltb_lt _ _)) by lia. cbn. f_equal.
  unfold over. cbn. rewrite insert_take_drop by (unfold zlen in Hl; lia). by rewrite Nat.add_1_r.
Qed.

Lemma bind_wr {B} d v a (k : unit -> T B) :
  0 <= d -> d + 1 <= zlen a -> bind (wr d v) k a = k tt (over d [v] a).
Proof. intros Hd Hl. apply bind_done. by apply wr_run. Qed.

Lemma bind_rd {S B} (l : list Z) i c (s : S) (k : Z -> M S B) :
  rd l i s = Done c s -> bind (rd l i) k s = k c s.
Proof. apply bind_done. Qed.

Lemma memcpy_run d l a : 0 <= d -> d + zlen l <= zlen a -> memcpy_to d l a = Done tt (over d l a).
Proof.
  revert d a. induction l as [|v l IH]; intros d a Hd Hl; cbn [memcpy_to]; [by rewrite over_nil|].
  pose proof (zlen_nonneg l). rewrite zlen_cons in Hl. rewrite bind_wr by lia.
  rewrite IH; [|lia|rewrite zlen_over by (try change (zlen [v]) with 1; lia); lia].
  change (d + 1) with (d + zlen [v]). rewrite over_over by (try change (zlen [v]) with 1; lia). done.
Qed.

(** ** [uv__strscpy] *)
Section Strscpy.
Variables (s cs rest : list Z).
Hypothesis Hs : s = cs ++ 0 :: rest.
Hypothesis Hcs : 0 ∉ cs.

(** The loop copies up to the NUL, or as many as there are turns. *)
Lemma strscpy_loop_spec turns d k1 k2 a :
  cs = k1 ++ k2 -> 0 <= d -> d + zlen k1 + Z.of_nat turns <= zlen a ->
  strscpy_loop turns d s (zlen k1) (over d k1 a) =
  if Z.of_nat turns <=? zlen k2 then Done None (over d (k1 ++ take turns k2) a)
  else Done (Some (zlen cs)) (over d (cs ++ [0]) a).
Proof.
  revert k1 k2. induction turns as [|turns IH]; intros k1 k2 Ek Hd Ha.
  - cbn [strscpy_loop]. pose proof (zlen_nonneg k2). rewrite (proj2 (Z.leb_le _ _)) by lia.
    by rewrite take_0, app_nil_r.
  - pose proof (zlen_nonneg k1) as H1. cbn [strscpy_loop]. destruct k2 as [|c k2].
    + rewrite app_nil_r in Ek. subst k1. rewrite (bind_rd _ _ 0) by (rewrite Hs; by apply rd_app).
      rewrite bind_wr by (try rewrite zlen_over; lia). rewrite over_over by lia.
      cbn [Z.eqb]. by rewrite (proj2 (Z.leb_gt _ _)) by (change (zlen []) with 0; lia).
    + rewrite (bind_rd _ _ c) by (rewrite Hs, Ek, <- app_assoc; by apply rd_app).
      rewrite bind_wr by (try rewrite zlen_over; lia). rewrite over_over by lia.
      assert (c <> 0) as Hc by (intros ->; apply Hcs; rewrite Ek; set_solver).
      rewrite (proj2 (Z.eqb_neq _ _)) by done.
      replace (zlen k1 + 1) with (zlen (k1 ++ [c])) by (rewrite zlen_app; done).
      rewrite (IH (k1 ++ [c]) k2); [|by rewrite <- app_assoc|done|rewrite zlen_app, zlen_cons, zlen_nil; lia].
      assert ((Z.of_nat (S turns) <=? zlen (c :: k2)) = (Z.of_nat turns <=? zlen k2)) as ->
        by (apply eq_true_iff_eq; rewrite !Z.leb_le, zlen_cons; lia).
      cbn [take]. by rewrite <- app_assoc.
Qed.

Lemma strscpy_run d n a :
  0 <= d -> 0 <= n -> d + n <= zlen a ->
  strscpy_loop (Z.to_nat n) d s 0 a =
  if n <=? zlen cs then Done None (over d (take (Z.to_nat n) cs) a) else Done (Some (zlen cs)) (over d (cs ++ [0]) a).
Proof.
  intros Hd Hn Ha. pose proof (strscpy_loop_spec (Z.to_nat n) d [] cs a eq_refl Hd) as E.
  rewrite over_nil, Z2Nat.id in E by done. apply E. change (zlen []) with 0. lia.
Qed.

Lemma strscpy_fits d n a :
  0 <= d -> zlen cs < n <= SSIZE_MAX -> d + n <= zlen a ->
  uv__strscpy d s n a = Done (zlen cs) (over d (cs ++ [0]) a).
Proof.
  intros Hd Hn Ha. pose proof (zlen_nonneg cs). pose proof (strscpy_run d n a Hd ltac:(lia) Ha) as E.
  rewrite (proj2 (Z.leb_gt _ _)) in E by lia. unfold uv__strscpy. rewrite (bind_done _ _ _ _ _ E).
  by rewrite (proj2 (Z.ltb_ge _ _)) by lia.
Qed.

Lemma strscpy_cut d n a :
  0 <= d -> 0 < n <= zlen cs -> d + n <= zlen a ->
  uv__strscpy d s n a = Done UV_E2BIG (over d (take (Z.to_nat (n - 1)) cs ++ [0]) a).
Proof.
  intros Hd Hn Ha. pose proof (strscpy_run d n a Hd ltac:(lia) Ha) as E.
  rewrite (proj2 (Z.leb_le _ _)) in E by lia. unfold uv__strscpy. rewrite (bind_done _ _ _ _ _ E).
  rewrite (proj2 (Z.eqb_neq _ _)) by lia.
  assert (zlen (take (Z.to_nat n) cs) = n) as Ht by (rewrite zlen_take by (unfold zlen in *; lia); lia).
  rewrite bind_wr by (try rewrite zlen_over; lia). f_equal.
  set (k := take (Z.to_nat (n - 1)) cs).
  assert (zlen k = n - 1) as Hk by (unfold k; rewrite zlen_take by (unfold zlen in *; lia); lia).
  assert (exists x, take (Z.to_nat n) cs = k ++ [x]) as [x ->].
  { replace (Z.to_nat n) with (S (Z.to_nat (n - 1))) by lia.
    destruct (lookup_lt_is_Some_2 cs (Z.to_nat (n - 1))) as [x Ex]; [unfold zlen in *; lia|].
    exists x. by apply take_S_r. }
  rewrite <- Hk, <- !over_over by lia. apply over_same; [lia|done|]. rewrite zlen_over by lia.
  change (zlen [x]) with 1. lia.
Qed.
End Strscpy.

(** Equal arrays have equal texts in them. *)
Lemma over_text_inj d l k a :
  0 ∉ l -> 0 ∉ k -> 0 <= d -> d + zlen l < zlen a -> d + zlen k < zlen a ->
  over d (l ++ [0]) a = over d (k ++ [0]) a -> l = k.
Proof.
  intros Hl Hk Hd Hzl Hzk E. unfold over in E. apply app_inv_head in E. revert k Hk Hzk E. clear Hzl Hd.
  generalize (Z.to_nat d). intros n. generalize (drop (n + length (l ++ [0])) a). intros r k Hk _.
  generalize (drop (n + length (k ++ [0])) a). intros r'. rewrite <- !app_assoc. cbn [app].
  revert k Hk. induction l as [|x l IH]; intros [|y k] Hk E; [done| | |]; injection E as Ex E.
  - subst. set_solver.
  - subst. set_solver.
  - subst y. f_equal. apply IH; [set_solver|set_solver|done].
Qed.

(** ** Numbers as text *)
Definition octet (v : Z) : Prop := 0 <= v < 256.

Lemma digits_snoc b f v d :
  0 < v -> 0 <= d < b -> digits_of b (S f) (b * v + d) = digits_of b f v ++ [digit_char d].
Proof.
  intros Hv Hd. cbn [digits_of]. rewrite (proj2 (Z.ltb_ge _ _)) by nia.
  replace ((b * v + d) / b) with v by (apply Z.div_unique with d; lia).
  by replace ((b * v + d) mod b) with d by (apply Z.mod_unique with v; lia).
Qed.

Lemma digits_one b f d : 0 <= d < b -> digits_of b (S f) d = [digit_char d].
Proof. intros Hd. cbn [digits_of]. rewrite (proj2 (Z.ltb_lt _ _)), Z.mod_small by lia. done. Qed.

(** More fuel than digits changes nothing. *)
Lemma digits_fuel b f n : 1 < b -> 0 <= n < b ^ Z.of_nat (S f) -> digits_of b (S (S f)) n = digits_of b (S f) n.
Proof.
  intros Hb. revert n. induction f as [|f IH]; intros n Hn.
  - change (Z.of_nat 1) with 1 in Hn. rewrite Z.pow_1_r in Hn. by rewrite !digits_one by lia.
  - destruct (Z.lt_ge_cases n b); [by rewrite !digits_one by lia|].
    pose proof (Z.div_mod n b ltac:(lia)) as En. pose proof (Z.mod_pos_bound n b ltac:(lia)) as Hm.
    assert (0 < n / b) as Hq by (apply Z.div_str_pos; lia). revert En Hm Hq.
    generalize (n / b) (n mod b). intros q r -> Hm Hq.
    rewrite !digits_snoc by done. rewrite IH; [done|]. split; [lia|].
    rewrite Nat2Z.inj_succ, Z.pow_succ_r in Hn by lia. nia.
Qed.

Lemma digits_cut b f n : 1 < b -> b <= n -> 0 <= n < b ^ Z.of_nat (S f) ->
  digits_of b (S f) n = digits_of b (S f) (n / b) ++ [digit_char (n mod b)].
Proof.
  intros Hb Hn Hf. pose proof (Z.div_mod n b ltac:(lia)) as En. pose proof (Z.mod_pos_bound n b ltac:(lia)) as Hm.
  assert (0 < n / b) as Hq by (apply Z.div_str_pos; lia).
  destruct f as [|f]; [change (Z.of_nat 1) with 1 in Hf; rewrite Z.pow_1_r in Hf; lia|].
  rewrite En at 1. rewrite digits_snoc by done. f_equal. symmetry. apply digits_fuel; [done|].
  split; [lia|]. apply Z.div_lt_upper_bound; [lia|]. rewrite <- Z.pow_succ_r, <- Nat2Z.inj_succ by lia. lia.
Qed.

Lemma fmt_u_snoc v d : 0 < v < 10 ^ 9 -> 0 <= d < 10 -> fmt_u (10 * v + d) = fmt_u v ++ [digit_char d].
Proof. intros Hv Hd. unfold fmt_u at 1. rewrite digits_snoc by lia. f_equal. symmetry. by apply digits_fuel; lia. Qed.

Lemma fmt_u_one d : 0 <= d < 10 -> fmt_u d = [digit_char d].
Proof. apply digits_one. Qed.

Lemma strchr_digits ch : strchr digits ch = if (48 <=? ch) && (ch <=? 57) then Some (ch - 48) else None.
Proof.
  cbn [strchr digits].
  repeat match goal with |- context [?a =? ch] =>
    destruct (Z.eqb_spec a ch) as [<-|]; [reflexivity|] end.
  destruct (Z.leb_spec 48 ch), (Z.leb_spec ch 57); cbn; (done || lia).
Qed.

Lemma strchr_digit d : 0 <= d < 10 -> strchr digits (digit_char d) = Some d.
Proof.
  intros Hd. unfold digit_char. rewrite (proj2 (Z.ltb_lt _ _)) by lia. rewrite strchr_digits.
  rewrite (proj2 (Z.leb_le _ _)), (proj2 (Z.leb_le _ _)) by lia. cbn. f_equal. lia.
Qed.

Lemma digit_char_pos d : 0 <= d -> digit_char d <> 0 /\ digit_char d <> dot /\ digit_char d <> colon /\ digit_char d <> percent.
Proof. intros Hd. unfold digit_char, dot, colon, percent. destruct (Z.ltb_spec d 10); lia. Qed.

(** ** The characters and the length of a number *)
Lemma digits_chars b f n x : 0 < b -> x ∈ digits_of b f n -> exists d, 0 <= d < b /\ x = digit_char d.
Proof.
  intros Hb. revert n. induction f as [|f IH]; intros n; cbn [digits_of]; [by intros ?%elem_of_nil|].
  rewrite elem_of_app, list_elem_of_singleton. intros [Hx| ->].
  - destruct (n <? b); [by apply elem_of_nil in Hx|by apply IH in Hx].
  - exists (n mod b). split; [apply Z.mod_pos_bound; lia|done].
Qed.

Lemma digits_length b f n k : 1 < b -> 0 <= n < b ^ Z.of_nat (S k) -> zlen (digits_of b f n) <= Z.of_nat (S k).
Proof.
  intros Hb. revert n k. induction f as [|f IH]; intros n k Hn; cbn [digits_of]; [by change (zlen []) with 0; lia|].
  destruct (Z.ltb_spec n b).
  - change (zlen ([] ++ [digit_char (n mod b)])) with 1. lia.
  - destruct k as [|k]; [change (Z.of_nat 1) with 1 in Hn; rewrite Z.pow_1_r in Hn; lia|].
    rewrite zlen_app. change (zlen [_]) with 1. specialize (IH (n / b) k).
    rewrite (Nat2Z.inj_succ (S k)), Z.pow_succ_r in Hn by lia.
    assert (0 <= n / b < b ^ Z.of_nat (S k)); [|lia].
    split; [apply Z.div_pos; lia|apply Z.div_lt_upper_bound; lia].
Qed.

Lemma digits_nonempty b f n : digits_of b (S f) n <> [].
Proof. cbn. intros [_ ?]%app_nil. done. Qed.

Lemma fmt_u_octet v : octet v -> 1 <= zlen (fmt_u v) <= 3.
Proof.
  unfold octet. intros Hv. split.
  - destruct (fmt_u v) eqn:E; [by apply (digits_nonempty 10 9) in E|]. rewrite zlen_cons. pose proof (zlen_nonneg l). lia.
  - apply (digits_length 10 10 v 2); [lia|]. cbn. lia.
Qed.

Lemma fmt_x_word w : 0 <= w < 65536 -> 1 <= zlen (fmt_x w) <= 4.
Proof.
  intros Hv. split.
  - destruct (fmt_x w) eqn:E; [by apply (digits_nonempty 16 7) in E|]. rewrite zlen_cons. pose proof (zlen_nonneg l). lia.
  - apply (digits_length 16 8 w 3); [lia|]. cbn. lia.
Qed.

Lemma digits_plain b f n : 0 < b -> (0 ∉ digits_of b f n) /\ (percent ∉ digits_of b f n).
Proof.
  intros Hb. split; intros (d & Hd & E)%digits_chars; try done;
    destruct (digit_char_pos d) as (H1 & _ & _ & H2); congruence || lia.
Qed.

(** A text with no end and no scope in it. *)
Definition plain (l : list Z) : Prop := (0 ∉ l) /\ (percent ∉ l).

Lemma plain_app l k : plain l -> plain k -> plain (l ++ k).
Proof. unfold plain. rewrite !elem_of_app. tauto. Qed.

Lemma plain_cons x l : x <> 0 -> x <> percent -> plain l -> plain (x :: l).
Proof. unfold plain. rewrite !elem_of_cons. intuition congruence. Qed.

Lemma plain_u v : plain (fmt_u v).
Proof. by apply digits_plain. Qed.
Lemma plain_x v : plain (fmt_x v).
Proof. by apply digits_plain. Qed.

(** No scope in a plain text. *)
Lemma find_percent_plain cs rest i s :
  0 ∉ cs -> percent ∉ cs -> find_percent (cs ++ 0 :: rest) i s = Done None s.
Proof.
  revert i. induction cs as [|c cs IH]; intros i; [done|]. rewrite !not_elem_of_cons. intros [H0 Hcs] [Hp Hps].
  cbn [app find_percent]. rewrite (proj2 (Z.eqb_neq c percent)), (proj2 (Z.eqb_neq c 0)) by congruence. by apply IH.
Qed.

#[local] Opaque fmt_u fmt_x.

(** ** [inet_pton4] *)
(** The array while the octets [os] are done and [cur] is read. *)
Definition octets_at (os : list Z) (cur : Z) (j : list Z) : list Z := over 0 (os ++ [cur]) j.

Section Pton4.
Variable j : list Z.
Hypothesis Hj : zlen j = 4.
Implicit Types (os src : list Z).

Lemma rd_octet os cur : zlen os < 4 -> rd_array (zlen os) (octets_at os cur j) = Done cur (octets_at os cur j).
Proof.
  intros Ho. unfold rd_array, octets_at, over. cbn. rewrite <- app_assoc. by apply rd_app.
Qed.

Lemma wr_octet os cur v : zlen os < 4 -> wr (zlen os) v (octets_at os cur j) = Done tt (octets_at os v j).
Proof.
  intros Ho. pose proof (zlen_nonneg os). unfold octets_at.
  rewrite wr_run by (try rewrite zlen_over; rewrite ?zlen_app; try change (zlen [cur]) with 1; lia).
  f_equal. rewrite <- !(over_over 0 os) by lia.
  apply over_same; [lia|done|]. rewrite zlen_over by lia. change (zlen [cur]) with 1. lia.
Qed.

Lemma wr_next os cur : zlen os < 3 -> wr (zlen os + 1) 0 (octets_at os cur j) = Done tt (octets_at (os ++ [cur]) 0 j).
Proof.
  intros Ho. pose proof (zlen_nonneg os). unfold octets_at.
  rewrite wr_run by (try rewrite zlen_over; rewrite ?zlen_app; try change (zlen [cur]) with 1; lia).
  f_equal. change 1 with (zlen [cur]). rewrite <- zlen_app, <- (Z.add_0_l (zlen _)).
  apply over_over; rewrite ?zlen_app; try change (zlen [cur]) with 1; lia.
Qed.

(** One character of the text. *)
Lemma pton4_first d src os octs :
  0 <= d < 10 -> zlen os < 4 -> octs < 4 ->
  pton4_loop (digit_char d :: src) (zlen os) octs false (octets_at os 0 j) =
  pton4_loop src (zlen os) (octs + 1) true (octets_at os d j).
Proof.
  intros Hd Ho Hc. cbn [pton4_loop]. rewrite (proj2 (Z.eqb_neq _ _)) by (apply digit_char_pos; lia).
  rewrite strchr_digit by done. rewrite (bind_done _ _ _ _ _ (rd_octet os 0 Ho)). cbn [andb].
  change (0 * 10 + d) with d. rewrite u32_small by lia. rewrite (proj2 (Z.ltb_ge _ _)) by lia.
  rewrite (bind_done _ _ _ _ _ (wr_octet os 0 (u8 d) Ho)).
  replace (u8 d) with d by (symmetry; apply Z.mod_small; lia). by rewrite (proj2 (Z.ltb_ge _ _)) by lia.
Qed.

Lemma pton4_more d src os cur octs :
  0 <= d < 10 -> zlen os < 4 -> 0 < cur -> 10 * cur + d < 256 ->
  pton4_loop (digit_char d :: src) (zlen os) octs true (octets_at os cur j) =
  pton4_loop src (zlen os) octs true (octets_at os (10 * cur + d) j).
Proof.
  intros Hd Ho Hc Hv. cbn [pton4_loop]. rewrite (proj2 (Z.eqb_neq _ _)) by (apply digit_char_pos; lia).
  rewrite strchr_digit by done. rewrite (bind_done _ _ _ _ _ (rd_octet os cur Ho)).
  rewrite (proj2 (Z.eqb_neq cur 0)) by lia. cbn [andb].
  rewrite (Z.mul_comm cur), u32_small by lia. rewrite (proj2 (Z.ltb_ge _ _)) by lia.
  rewrite (bind_done _ _ _ _ _ (wr_octet os cur _ Ho)).
  by replace (u8 (10 * cur + d)) with (10 * cur + d) by (symmetry; apply Z.mod_small; lia).
Qed.

Lemma pton4_dot src os cur octs :
  zlen os < 3 -> octs <> 4 ->
  pton4_loop (dot :: src) (zlen os) octs true (octets_at os cur j) =
  pton4_loop src (zlen (os ++ [cur])) octs false (octets_at (os ++ [cur]) 0 j).
Proof.
  intros Ho Hc. cbn [pton4_loop]. change (dot =? 0) with false. change (strchr digits dot) with (@None Z).
  change ((dot =? dot) && true) with true. cbv iota. rewrite (proj2 (Z.eqb_neq _ _)) by done.
  rewrite (bind_done _ _ _ _ _ (wr_next os cur Ho)). by rewrite zlen_app.
Qed.

(** The decimal number of an octet is read. *)
Lemma pton4_number v src os octs :
  octet v -> zlen os < 4 -> octs < 4 ->
  pton4_loop (fmt_u v ++ src) (zlen os) octs false (octets_at os 0 j) =
  pton4_loop src (zlen os) (octs + 1) true (octets_at os v j).
Proof.
  unfold octet. intros Hv Ho Hc.
  assert (forall n v src, 0 <= v < 10 ^ Z.of_nat (S n) -> v < 256 ->
    pton4_loop (fmt_u v ++ src) (zlen os) octs false (octets_at os 0 j) =
    pton4_loop src (zlen os) (octs + 1) true (octets_at os v j)) as Hn; [|apply (Hn 2%nat); cbn; lia].
  clear v src Hv. induction n as [|n IH]; intros v src Hv Hb.
  - change (10 ^ Z.of_nat 1) with 10 in Hv. rewrite fmt_u_one by done. by apply pton4_first.
  - destruct (Z.lt_ge_cases v 10); [rewrite fmt_u_one by lia; apply pton4_first; lia|].
    pose proof (Z.div_mod v 10 ltac:(lia)) as Ev. pose proof (Z.mod_pos_bound v 10 ltac:(lia)) as Hm.
    assert (0 < v / 10) as Hq by (apply Z.div_str_pos; lia). revert Ev Hm Hq.
    generalize (v / 10) (v mod 10). intros q d -> Hd Hq.
    rewrite Nat2Z.inj_succ, Z.pow_succ_r in Hv by lia.
    rewrite fmt_u_snoc, <- app_assoc by lia. cbn [app]. rewrite IH by lia. apply pton4_more; lia.
Qed.

(** The text of an address is read. *)
Lemma pton4_text a b c d rest :
  octet a -> octet b -> octet c -> octet d ->
  pton4_loop (ntop4_text a b c d ++ 0 :: rest) 0 0 false (octets_at [] 0 j) = Done true [a; b; c; d].
Proof.
  intros Ha Hb Hc Hd. unfold ntop4_text. rewrite <- !app_assoc. cbn [app]. rewrite <- !app_assoc. cbn [app].
  rewrite <- !app_assoc. cbn [app].
  match goal with |- pton4_loop ?s 0 0 false ?x = _ =>
    change (pton4_loop s (zlen (@nil Z)) 0 false x = Done true [a; b; c; d]) end.
  rewrite (pton4_number a _ [] 0) by done. rewrite pton4_dot by done.
  rewrite (pton4_number b _ ([] ++ [a])) by done. rewrite pton4_dot by done.
  rewrite (pton4_number c _ (([] ++ [a]) ++ [b])) by done. rewrite pton4_dot by done.
  rewrite (pton4_number d _ ((([] ++ [a]) ++ [b]) ++ [c])) by done. cbn.
  f_equal. unfold octets_at, over. cbn. rewrite drop_ge; [done|]. unfold zlen in Hj. lia.
Qed.

(** What is read so far, as text. *)
Definition octets_text os (cur : Z) (saw : bool) : list Z :=
  concat (map (fun o => fmt_u o ++ [dot]) os) ++ (if saw then fmt_u cur else []).

Lemma octets_text_four os cur :
  zlen os = 3 -> Forall octet os -> octet cur ->
  exists a b c d, octet a /\ octet b /\ octet c /\ octet d /\ octets_at os cur j = [a; b; c; d] /\
  octets_text os cur true = ntop4_text a b c d.
Proof.
  intros Ho Hf Hc. destruct os as [|a [|b [|c [|? ?]]]]; unfold zlen in Ho; cbn in Ho; try lia.
  apply Forall_cons in Hf as [Ha Hf]. apply Forall_cons in Hf as [Hb Hf]. apply Forall_cons in Hf as [Hd _].
  exists a, b, c, cur. repeat (split; [done|]). split.
  - unfold octets_at, over. cbn. rewrite drop_ge; [done|]. unfold zlen in Hj. lia.
  - unfold octets_text, ntop4_text. cbn. rewrite !app_nil_r, <- !app_assoc. done.
Qed.

(** The loop returns on every string, and what it accepts is the text of its
    result. *)
Lemma pton4_loop_exact cs rest os cur saw :
  0 ∉ cs -> zlen os < 4 -> Forall octet os -> octet cur -> (saw = false -> cur = 0) ->
  exists ok a', pton4_loop (cs ++ 0 :: rest) (zlen os) (zlen os + Z.b2z saw) saw (octets_at os cur j) = Done ok a' /\
  (ok = true -> exists a b c d, octet a /\ octet b /\ octet c /\ octet d /\ a' = [a; b; c; d] /\
    octets_text os cur saw ++ cs = ntop4_text a b c d).
Proof.
  revert os cur saw. induction cs as [|ch cs IH]; intros os cur saw Hcs Ho Hf Hc Hs.
  - eexists _, _. split; [done|]. rewrite negb_true_iff, Z.ltb_ge, app_nil_r. intros H.
    destruct saw; cbn in H; [|lia]. destruct (octets_text_four os cur) as (a & b & c & d & ?); [lia|done..|].
    by exists a, b, c, d.
  - apply not_elem_of_cons in Hcs as [Hch Hcs]. rewrite <- app_comm_cons.
    destruct (strchr digits ch) as [v|] eqn:Ed.
    + assert (0 <= v < 10 /\ ch = digit_char v) as [Hv ->].
      { rewrite strchr_digits in Ed. destruct (Z.leb_spec 48 ch), (Z.leb_spec ch 57); cbn in Ed; try done.
        injection Ed as <-. unfold digit_char. rewrite (proj2 (Z.ltb_lt _ _)) by lia. lia. }
      destruct saw.
      * destruct (Z.eq_dec cur 0) as [->|Hcur].
        { eexists false, _. split; [|done]. cbn [pton4_loop].
          rewrite (proj2 (Z.eqb_neq _ _)) by congruence. rewrite Ed.
          by rewrite (bind_done _ _ _ _ _ (rd_octet os 0 Ho)). }
        destruct (Z.lt_ge_cases (10 * cur + v) 256) as [Hb|Hb].
        -- unfold octet in Hc. rewrite pton4_more by lia.
           destruct (IH os (10 * cur + v) true) as (ok & a' & E & Hok); [done..|unfold octet; lia|done|].
           exists ok, a'. split; [done|]. intros Eok. destruct (Hok Eok) as (a & b & c & d & ? & ? & ? & ? & ? & Et).
           exists a, b, c, d. repeat (split; [done|]). rewrite <- Et. unfold octets_text.
           rewrite fmt_u_snoc by lia. by rewrite <- !app_assoc.
        -- eexists false, _. split; [|done]. cbn [pton4_loop].
           rewrite (proj2 (Z.eqb_neq _ _)) by congruence. rewrite Ed.
           rewrite (bind_done _ _ _ _ _ (rd_octet os cur Ho)). unfold octet in Hc.
           rewrite (proj2 (Z.eqb_neq cur 0)) by done. cbn [andb]. rewrite (Z.mul_comm cur), u32_small by lia.
           by rewrite (proj2 (Z.ltb_lt _ _)) by lia.
      * rewrite Hs by done. cbn [Z.b2z]. rewrite Z.add_0_r. rewrite pton4_first by lia.
        destruct (IH os v true) as (ok & a' & E & Hok); [done..|unfold octet; lia|done|].
        exists ok, a'. split; [done|]. intros Eok. destruct (Hok Eok) as (a & b & c & d & ? & ? & ? & ? & ? & Et).
        exists a, b, c, d. repeat (split; [done|]). rewrite <- Et. unfold octets_text.
        rewrite fmt_u_one by lia. by rewrite app_nil_r, <- app_assoc.
    + destruct (decide (ch = dot /\ saw = true)) as [[-> ->]|Hd].
      * destruct (Z.eq_dec (zlen os) 3) as [E3|E3].
        { eexists false, _. split; [|done]. cbn [pton4_loop]. rewrite E3. done. }
        rewrite pton4_dot by (cbn; lia). cbn [Z.b2z].
        destruct (IH (os ++ [cur]) 0 false) as (ok & a' & E & Hok); [done| | |done|done|].
        { rewrite zlen_app. change (zlen [cur]) with 1. lia. }
        { apply Forall_app. by split; [|apply Forall_singleton]. }
        exists ok, a'. rewrite zlen_app in *. cbn [Z.b2z] in E. rewrite Z.add_0_r in E. split; [done|].
        intros Eok. destruct (Hok Eok) as (a & b & c & d & ? & ? & ? & ? & ? & Et).
        exists a, b, c, d. repeat (split; [done|]). rewrite <- Et. unfold octets_text.
        rewrite map_app, concat_app. cbn. rewrite !app_nil_r, <- !app_assoc. done.
      * eexists false, _. split; [|done]. cbn [pton4_loop]. rewrite (proj2 (Z.eqb_neq ch 0)) by congruence. rewrite Ed.
        destruct (Z.eqb_spec ch dot) as [->|], saw; try done. by destruct Hd.
Qed.
End Pton4.

Lemma inet_pton4_text junk a b c d rest dst s :
  4 <= zlen junk -> octet a -> octet b -> octet c -> octet d -> 0 <= dst -> dst + 4 <= zlen s ->
  inet_pton4 junk (ntop4_text a b c d ++ 0 :: rest) dst s = Done 0 (over dst [a; b; c; d] s).
Proof.
  intros Hj Ha Hb Hc Hd Hdst Hs. unfold inet_pton4, with_local, bind at 1.
  assert (zlen (take 4 junk) = 4) as Hj' by (rewrite zlen_take; [done|unfold zlen in Hj; lia]).
  rewrite bind_wr by lia.
  change (over 0 [0] (take 4 junk)) with (octets_at [] 0 (take 4 junk)).
  rewrite (pton4_text (take 4 junk) Hj' a b c d rest) by done.
  by rewrite (bind_done _ _ _ _ _ (memcpy_run dst [a; b; c; d] s Hdst Hs)).
Qed.

(** [inet_pton4] takes exactly the texts of addresses, and leaves the destination
    alone for any other string. *)
Lemma inet_pton4_exact junk cs rest dst s :
  4 <= zlen junk -> 0 ∉ cs -> 0 <= dst -> dst + 4 <= zlen s ->
  (exists a b c d, octet a /\ octet b /\ octet c /\ octet d /\ cs = ntop4_text a b c d /\
    inet_pton4 junk (cs ++ 0 :: rest) dst s = Done 0 (over dst [a; b; c; d] s)) \/
  ((forall a b c d, octet a -> octet b -> octet c -> octet d -> cs <> ntop4_text a b c d) /\
    inet_pton4 junk (cs ++ 0 :: rest) dst s = Done UV_EINVAL s).
Proof.
  intros Hj Hcs Hdst Hs.
  assert (zlen (take 4 junk) = 4) as Hj' by (rewrite zlen_take; [done|unfold zlen in Hj; lia]).
  destruct (pton4_loop_exact (take 4 junk) Hj' cs rest [] 0 false) as (ok & a' & E & Hok); try done.
  destruct ok.
  - left. destruct (Hok eq_refl) as (a & b & c & d & Ha & Hb & Hc & Hd & -> & Et). exists a, b, c, d.
    repeat (split; [done|]). cbn [octets_text map concat app] in Et. subst cs.
    exact (inet_pton4_text junk a b c d rest dst s Hj Ha Hb Hc Hd Hdst Hs).
  - right. assert (inet_pton4 junk (cs ++ 0 :: rest) dst s = Done UV_EINVAL s) as Er.
    { unfold inet_pton4, with_local, bind at 1. rewrite bind_wr by lia.
      change (over 0 [0] (take 4 junk)) with (octets_at [] 0 (take 4 junk)).
      change (zlen (@nil Z) + Z.b2z false) with 0 in E. change (zlen (@nil Z)) with 0 in E. by rewrite E. }
    split; [|done]. intros a b c d Ha Hb Hc Hd ->.
    rewrite (inet_pton4_text junk a b c d rest dst s) in Er by done. done.
Qed.

(** ** [inet_ntop4] *)
Lemma ntop4_plain a b c d : plain (ntop4_text a b c d).
Proof.
  unfold ntop4_text. repeat first [apply plain_app | apply plain_cons | apply plain_u]; done.
Qed.

Lemma ntop4_length a b c d : octet a -> octet b -> octet c -> octet d -> 7 <= zlen (ntop4_text a b c d) <= 15.
Proof.
  intros ?%fmt_u_octet ?%fmt_u_octet ?%fmt_u_octet ?%fmt_u_octet. unfold ntop4_text.
  rewrite !zlen_app, !zlen_cons, !zlen_app, !zlen_cons, !zlen_app, !zlen_cons. lia.
Qed.

Lemma inet_ntop4_spec a b c d rest dst size s :
  octet a -> octet b -> octet c -> octet d -> 0 <= dst -> 0 <= size <= SSIZE_MAX -> dst + size <= zlen s ->
  inet_ntop4 (a :: b :: c :: d :: rest) dst size s =
  let text := ntop4_text a b c d in
  if size <=? zlen text then Done UV_ENOSPC s else Done 0 (over dst (text ++ [0]) s).
Proof.
  intros Ha Hb Hc Hd Hdst Hsz Hs. pose proof (ntop4_length a b c d Ha Hb Hc Hd) as Hl. unfold inet_ntop4.
  rewrite (bind_rd _ 0 a) by done. rewrite (bind_rd _ 1 b) by done. rewrite (bind_rd _ 2 c) by done.
  rewrite (bind_rd _ 3 d) by done. cbv zeta. rewrite (proj2 (Z.leb_gt _ 0)) by lia. cbn [orb].
  destruct (Z.leb_spec size (zlen (ntop4_text a b c d))); [done|].
  rewrite take_ge by (unfold UV__INET_ADDRSTRLEN; unfold zlen in Hl; lia).
  rewrite (bind_done _ _ _ _ _ (strscpy_fits _ (ntop4_text a b c d) [] eq_refl (proj1 (ntop4_plain _ _ _ _))
    dst size s Hdst ltac:(lia) Hs)). done.
Qed.
