(* ===== verification/UvInet6Proofs.v ===== *)
(** libuv, IPv6 addresses as text: the shape of what [inet_ntop6] prints, and
    that [inet_pton6] reads it back, for every address. *)
From S2P Require Import Prelude.
From S2P Require Import UvInet UvInetProofs.

#[local] Set Warnings "-clear-no-such-hyp".

(** ** Hexadecimal numbers *)
Lemma fmt_x_snoc v d : 0 < v < 4096 -> 0 <= d < 16 -> fmt_x (16 * v + d) = fmt_x v ++ [digit_char d].
Proof.
  intros Hv Hd. unfold fmt_x at 1. rewrite digits_snoc by lia. f_equal. symmetry. apply digits_fuel; [lia|].
  change (16 ^ Z.of_nat 7) with 268435456. lia.
Qed.

Lemma fmt_x_one d : 0 <= d < 16 -> fmt_x d = [digit_char d].
Proof. apply digits_one. Qed.

Lemma fmt_u_chars v : Forall (fun c => exists d, 0 <= d < 10 /\ c = digit_char d) (fmt_u v).
Proof. apply Forall_forall. intros x Hx. by apply (digits_chars 10 10 v). Qed.

#[local] Opaque fmt_u fmt_x.

(** ** The words of an address *)
Fixpoint words_of (l : list Z) : list Z :=
  match l with
  | h :: l :: r => 256 * h + l :: words_of r
  | _ => []
  end.

Definition bytes_of (ws : list Z) : list Z := concat (map (fun w => [w / 256; w mod 256]) ws).

Definition word (w : Z) : Prop := 0 <= w < 65536.

Lemma zlen_bytes_of ws : zlen (bytes_of ws) = 2 * zlen ws.
Proof.
  induction ws as [|w ws IH]; [done|]. unfold bytes_of in *. cbn [map concat].
  rewrite zlen_app, (zlen_cons w ws), IH. change (zlen [_; _]) with 2. lia.
Qed.

Lemma bytes_of_app ws vs : bytes_of (ws ++ vs) = bytes_of ws ++ bytes_of vs.
Proof. unfold bytes_of. by rewrite map_app, concat_app. Qed.

Lemma or_byte h l : octet h -> octet l ->
  Z.lor (Z.lor 0 (u32 (Z.shiftl h (Z.shiftl 1 3)))) (u32 (Z.shiftl l (Z.shiftl 0 3))) = 256 * h + l.
Proof.
  unfold octet. intros Hh Hl. change (Z.shiftl 1 3) with 8. change (Z.shiftl 0 3) with 0.
  rewrite Z.lor_0_l, Z.shiftl_0_r, (u32_small l) by lia.
  rewrite u32_small by (rewrite Z.shiftl_mul_pow2 by lia; change (2 ^ 8) with 256; lia).
  rewrite Z.lor_comm, lor_low_shifted by (change (2 ^ 8) with 256; lia). change (2 ^ 8) with 256. lia.
Qed.

Lemma load_words_run {S} src rest (s : S) :
  length src = 16%nat -> Forall octet src ->
  load_words 16 0 (src ++ rest) (replicate 8 0) s = Done (words_of src) s.
Proof.
  intros Hl Hf. do 17 (destruct src as [|? src]; try done). clear Hl.
  repeat match goal with H : Forall octet (_ :: _) |- _ => apply Forall_cons in H as [? H] end.
  cbn [words_of app]. rewrite <- !or_byte by done. reflexivity.
Qed.

Lemma words_of_range src : Forall octet src -> Forall word (words_of src).
Proof.
  assert (forall n src, (length src <= n)%nat -> Forall octet src -> Forall word (words_of src)) as H;
    [|by apply (H (length src))].
  clear src. induction n as [|n IH]; intros [|h [|l src]] Hn Hf; cbn in *; try done; try lia.
  apply Forall_cons in Hf as [Hh Hf]. apply Forall_cons in Hf as [Hl Hf]. unfold octet, word in *.
  apply Forall_cons. split; [lia|]. apply IH; [lia|done].
Qed.

Lemma bytes_words src : length src = 16%nat -> Forall octet src -> bytes_of (words_of src) = src.
Proof.
  intros Hl Hf. do 17 (destruct src as [|? src]; try done). clear Hl.
  repeat match goal with H : Forall octet (_ :: _) |- _ => apply Forall_cons in H as [? H] end.
  assert (forall h l, octet h -> octet l -> (256 * h + l) / 256 = h /\ (256 * h + l) mod 256 = l) as E.
  { unfold octet. intros h l Hh Hl. split; zdm. }
  unfold bytes_of. cbn [words_of map concat app].
  repeat match goal with |- context [(256 * ?h + ?l) / 256] =>
    destruct (E h l) as [-> ->]; [done..|] end. done.
Qed.

(** ** The run of zeros *)
Definition zero_run (ws : list Z) (r : run) : Prop :=
  base r = -1 \/
  (0 <= base r /\ 1 <= len r /\ base r + len r <= zlen ws /\
   forall k, base r <= k < base r + len r -> ws !! Z.to_nat k = Some 0).

Lemma zero_run_more ws r vs : zero_run ws r -> zero_run (ws ++ vs) r.
Proof.
  intros [|(H1 & H2 & H3 & H4)]; [by left|]. right. pose proof (zlen_nonneg vs). rewrite zlen_app.
  repeat (split; [lia|]). intros k Hk. by apply lookup_app_l_Some, H4.
Qed.

Lemma better_run ws best cur : zero_run ws best -> zero_run ws cur -> zero_run ws (better best cur).
Proof. unfold better. by destruct (_ || _). Qed.

Lemma scan_run rest ws best cur :
  zero_run ws best -> zero_run ws cur -> (base cur = -1 \/ base cur + len cur = zlen ws) ->
  zero_run (ws ++ rest) (scan_words rest (zlen ws) best cur).
Proof.
  revert ws best cur. induction rest as [|w rest IH]; intros ws best cur Hb Hc He; cbn [scan_words].
  - rewrite app_nil_r. destruct (_ =? -1); [done|by apply better_run].
  - assert (zlen ws + 1 = zlen (ws ++ [w])) as -> by (rewrite zlen_app; done).
    replace (ws ++ w :: rest) with ((ws ++ [w]) ++ rest) by (by rewrite <- app_assoc).
    pose proof (zlen_nonneg ws) as H0. assert (zlen (ws ++ [w]) = zlen ws + 1) as El by (rewrite zlen_app; done).
    destruct (Z.eqb_spec w 0) as [->|Hw], (Z.eqb_spec (base cur) (-1)) as [Ec|Ec].
    + apply IH; [by apply zero_run_more| |cbn; lia]. right. cbn. rewrite El. repeat (split; [lia|]).
      intros k Hk. assert (k = zlen ws) as -> by lia. rewrite zlen_to_nat. by apply list_lookup_middle.
    + apply IH; [by apply zero_run_more| |cbn; lia]. destruct Hc as [|(H1 & H2 & H3 & H4)]; [done|]. right. cbn.
      rewrite El. repeat (split; [lia|]). intros k Hk. destruct (Z.eq_dec k (zlen ws)) as [->|].
      * rewrite zlen_to_nat. by apply list_lookup_middle.
      * apply lookup_app_l_Some, H4. lia.
    + apply IH; [by apply zero_run_more|by apply zero_run_more|by left].
    + apply IH; [by apply zero_run_more, better_run|by left|by left].
Qed.

Lemma best_run_spec ws :
  let r := best_run ws in base r = -1 \/ (zero_run ws r /\ 0 <= base r /\ 2 <= len r /\ base r + len r <= zlen ws).
Proof.
  pose proof (scan_run ws [] (mk_run (-1) 0) (mk_run (-1) 0) ltac:(by left) ltac:(by left) ltac:(by left)) as H.
  cbn [app] in H. change (zlen []) with 0 in H. unfold best_run. revert H.
  generalize (scan_words ws 0 (mk_run (-1) 0) (mk_run (-1) 0)). intros r H. cbv zeta.
  destruct (Z.eqb_spec (base r) (-1)) as [|Hb]; cbn [negb andb]; [by left|].
  destruct (Z.ltb_spec (len r) 2); [by left|]. right. split; [done|]. by destruct H as [|(? & ? & ? & ?)].
Qed.

(** ** Writes at the end of a text *)
Lemma over_end txt l rest : over (zlen txt) l (txt ++ rest) = txt ++ l ++ drop (length l) rest.
Proof.
  unfold over. rewrite zlen_to_nat, take_app_length. f_equal. f_equal.
  rewrite drop_app, drop_ge by lia. cbn. f_equal. lia.
Qed.

Lemma wr_end txt v rest : 0 < zlen rest -> wr (zlen txt) v (txt ++ rest) = Done tt (txt ++ v :: drop 1 rest).
Proof.
  intros Hr. pose proof (zlen_nonneg txt). rewrite wr_run by (rewrite ?zlen_app; lia). f_equal.
  by rewrite over_end.
Qed.

Lemma push v txt rest :
  zlen (txt ++ rest) = 46 -> zlen txt < 46 ->
  wr (zlen txt) v (txt ++ rest) = Done tt ((txt ++ [v]) ++ drop 1 rest) /\ zlen ((txt ++ [v]) ++ drop 1 rest) = 46.
Proof.
  intros Hz Ht. rewrite zlen_app in Hz. rewrite wr_end by lia. split; [by rewrite <- app_assoc|].
  rewrite zlen_app, (zlen_app txt), (zlen_drop 1) by (unfold zlen in *; lia). change (zlen [v]) with 1. lia.
Qed.

Lemma memcpy_end txt l rest : zlen l <= zlen rest ->
  memcpy_to (zlen txt) l (txt ++ rest) = Done tt (txt ++ l ++ drop (length l) rest).
Proof.
  intros Hr. pose proof (zlen_nonneg txt). rewrite memcpy_run by (rewrite ?zlen_app; lia). f_equal.
  apply over_end.
Qed.

Lemma sprintf_end l txt rest :
  zlen (txt ++ rest) = 46 -> zlen txt + zlen l < 46 ->
  exists rest', sprintf_at (zlen txt) l (txt ++ rest) = Done (zlen (txt ++ l)) ((txt ++ l) ++ rest') /\
  zlen ((txt ++ l) ++ rest') = 46.
Proof.
  intros Hz Ht. rewrite zlen_app in Hz. unfold sprintf_at. assert (zlen (l ++ [0]) = zlen l + 1) as El by by rewrite zlen_app.
  rewrite (bind_done _ _ _ _ _ (memcpy_end txt (l ++ [0]) rest ltac:(lia))).
  exists (0 :: drop (length (l ++ [0])) rest). unfold ret. rewrite zlen_app, <- !app_assoc. split; [done|].
  rewrite !zlen_app, zlen_cons, zlen_drop by (rewrite length_app; unfold zlen in *; cbn; lia).
  unfold zlen in *. rewrite length_app in *. cbn in *. lia.
Qed.

Lemma strlen_plain cs rest : 0 ∉ cs -> strlen (cs ++ 0 :: rest) = Some (zlen cs).
Proof.
  induction cs as [|c cs IH]; [done|]. rewrite not_elem_of_cons. intros [Hc Hcs]. cbn.
  rewrite (proj2 (Z.eqb_neq _ _)) by congruence. rewrite (IH Hcs). cbn. f_equal. rewrite zlen_cons. lia.
Qed.

(** ** The loop of [inet_ntop6] *)
Section Format.
Variables (src ws : list Z) (r : run) (a b c d : Z) (tail : list Z).
Hypothesis Hsrc : drop 12 src = a :: b :: c :: d :: tail.
Hypothesis Ha : octet a.
Hypothesis Hb : octet b.
Hypothesis Hc : octet c.
Hypothesis Hd : octet d.
Hypothesis Hws : length ws = 8%nat.
Hypothesis Hwords : Forall word ws.

Definition word_at (i : Z) : Z := default 0 (ws !! Z.to_nat i).

Definition inside (i : Z) : bool := negb (base r =? -1) && (base r <=? i) && (i <? base r + len r).

(** An IPv4 address at the end. *)
Definition encapsulated : bool :=
  (base r =? 0) && ((len r =? 6) || ((len r =? 7) && negb (word_at 7 =? 1)) || ((len r =? 5) && (word_at 5 =? 65535))).

(** What the loop prints from the word [i] on. *)
Fixpoint loop_text (n : nat) (i : Z) : list Z :=
  match n with
  | O => []
  | S n =>
      if inside i then (if i =? base r then [colon] else []) ++ loop_text n (i + 1)
      else
        (if i =? 0 then [] else [colon]) ++
        (if (i =? 6) && encapsulated then ntop4_text a b c d else fmt_x (word_at i) ++ loop_text n (i + 1))
  end.

Lemma word_at_range i : word (word_at i).
Proof.
  unfold word_at. destruct (ws !! Z.to_nat i) as [w|] eqn:E; [|done].
  by apply (Forall_lookup_1 _ _ _ _ Hwords E).
Qed.

Lemma rd_word {S} i (s : S) : 0 <= i < 8 -> rd ws i s = Done (word_at i) s.
Proof.
  intros Hi. unfold rd, word_at. rewrite (proj2 (Z.leb_le _ _)) by lia.
  destruct (lookup_lt_is_Some_2 ws (Z.to_nat i)) as [w ->]; [lia|]. done.
Qed.

Lemma loop_text_bound n i :
  0 <= i -> i + Z.of_nat n = 8 ->
  zlen (loop_text n i) <= 5 * Z.of_nat n - Z.b2z (i =? 0) + 6 * Z.b2z encapsulated.
Proof.
  pose proof (ntop4_length a b c d Ha Hb Hc Hd) as H4.
  revert i. induction n as [|n IH]; intros i Hi Hn; cbn [loop_text].
  - change (zlen []) with 0. destruct encapsulated, (i =? 0) eqn:E; cbn; lia.
  - specialize (IH (i + 1) ltac:(lia) ltac:(lia)). rewrite (proj2 (Z.eqb_neq (i + 1) 0)) in IH by lia.
    change (Z.b2z false) with 0 in IH. destruct (inside i).
    + rewrite zlen_app. assert (zlen (if i =? base r then [colon] else []) <= 1) by (by destruct (i =? base r)).
      destruct (i =? 0); cbn [Z.b2z]; lia.
    + rewrite zlen_app. assert (zlen (if i =? 0 then [] else [colon]) = 1 - Z.b2z (i =? 0)) as -> by (by destruct (i =? 0)).
      destruct (Z.eqb_spec i 6), encapsulated; cbn [andb]; try (cbn [Z.b2z]; lia);
        pose proof (fmt_x_word _ (word_at_range i)); rewrite zlen_app; cbn [Z.b2z] in *; lia.
Qed.

Lemma plain_loop_text n i : plain (loop_text n i).
Proof.
  revert i. induction n as [|n IH]; intros i; cbn [loop_text]; [by split; apply not_elem_of_nil|].
  assert (forall t : bool, plain (if t then [colon] else []) /\ plain (if t then [] else [colon])) as Ht.
  { intros []; split; (by split; apply not_elem_of_nil) || (apply plain_cons; [done..|]; by split; apply not_elem_of_nil). }
  destruct (inside i); [apply plain_app; [apply Ht|done]|]. apply plain_app; [apply Ht|].
  destruct (_ && _); [apply ntop4_plain|apply plain_app; [apply plain_x|done]].
Qed.

Lemma format_words_run n i txt rest :
  0 <= i -> i + Z.of_nat n = 8 -> zlen (txt ++ rest) = 46 -> zlen txt + zlen (loop_text n i) <= 45 ->
  exists rest', format_words n i (zlen txt) src ws r (txt ++ rest) =
    Done (inr (zlen (txt ++ loop_text n i))) ((txt ++ loop_text n i) ++ rest') /\
  zlen ((txt ++ loop_text n i) ++ rest') = 46.
Proof.
  revert i txt rest. induction n as [|n IH]; intros i txt rest Hi Hn Hz Hl; cbn [format_words loop_text] in *.
  { exists rest. by rewrite app_nil_r. }
  destruct (inside i) eqn:Ein; unfold inside in Ein; rewrite Ein.
  - destruct (Z.eqb_spec i (base r)) as [Eb|Eb].
    + rewrite zlen_app in Hl. change (zlen [colon]) with 1 in Hl. pose proof (zlen_nonneg (loop_text n (i + 1))).
      destruct (push colon txt rest Hz ltac:(lia)) as [E Hz'].
      rewrite (bind_done _ _ _ _ _ E). change 1 with (zlen [colon]) at 2. rewrite <- zlen_app.
      destruct (IH (i + 1) (txt ++ [colon]) (drop 1 rest)) as (rest' & E' & Hz2); [lia|lia|done| |].
      { rewrite zlen_app. change (zlen [colon]) with 1. lia. }
      exists rest'. rewrite <- !(app_assoc txt) in *. by rewrite E'.
    + apply IH; [lia|lia|done|done].
  - assert (exists txt1 rest1, txt1 = txt ++ (if i =? 0 then [] else [colon]) /\ zlen (txt1 ++ rest1) = 46 /\
      forall (B : Type) (k : Z -> T B),
        bind (if i =? 0 then ret (zlen txt) else wr (zlen txt) colon;;; ret (zlen txt + 1)) k (txt ++ rest) =
        k (zlen txt1) (txt1 ++ rest1)) as (txt1 & rest1 & E1 & Hz1 & Hk).
    { destruct (i =? 0); [exists txt, rest; by rewrite app_nil_r|].
      pose proof (zlen_nonneg (if (i =? 6) && encapsulated then ntop4_text a b c d
        else fmt_x (word_at i) ++ loop_text n (i + 1))).
      rewrite zlen_app in Hl. change (zlen [colon]) with 1 in Hl.
      destruct (push colon txt rest Hz ltac:(lia)) as [E Hz']. exists (txt ++ [colon]), (drop 1 rest).
      split; [done|]. split; [done|]. intros B k. rewrite bind_assoc, (bind_done _ _ _ _ _ E).
      unfold bind, ret. by rewrite zlen_app. }
    rewrite Hk. rewrite (app_assoc txt), <- E1. rewrite zlen_app, Z.add_assoc, <- zlen_app, <- E1 in Hl.
    rewrite (bind_rd ws 7 (word_at 7)) by (apply rd_word; lia). rewrite (bind_rd ws 5 (word_at 5)) by (apply rd_word; lia).
    rewrite <- andb_assoc. fold encapsulated. destruct ((i =? 6) && encapsulated) eqn:Ee.
    + pose proof (ntop4_length a b c d Ha Hb Hc Hd) as H4. rewrite zlen_app in Hz1.
      pose proof (zlen_nonneg txt1).
      assert (zlen (ntop4_text a b c d) < UV__INET6_ADDRSTRLEN - zlen txt1) as Hr by (unfold UV__INET6_ADDRSTRLEN; lia).
      pose proof (inet_ntop4_spec a b c d tail (zlen txt1) (UV__INET6_ADDRSTRLEN - zlen txt1) (txt1 ++ rest1)
        Ha Hb Hc Hd (zlen_nonneg _) ltac:(unfold UV__INET6_ADDRSTRLEN, SSIZE_MAX in *; lia)
        ltac:(unfold UV__INET6_ADDRSTRLEN; rewrite zlen_app; lia)) as E.
      cbv zeta in E. rewrite (proj2 (Z.leb_gt _ _)), over_end, <- Hsrc in E by done.
      rewrite (bind_done _ _ _ _ _ E). change (0 =? 0) with true. cbv iota.
      set (rest2 := drop _ rest1). exists (0 :: rest2).
      assert (strlen_at (zlen txt1) (txt1 ++ (ntop4_text a b c d ++ [0]) ++ rest2) =
        Done (zlen (ntop4_text a b c d)) (txt1 ++ (ntop4_text a b c d ++ [0]) ++ rest2)) as El.
      { unfold strlen_at. rewrite zlen_to_nat, drop_app_length, <- app_assoc. cbn [app].
        by rewrite strlen_plain by apply ntop4_plain. }
      rewrite (bind_done _ _ _ _ _ El). unfold ret. rewrite <- !app_assoc. cbn [app]. rewrite zlen_app. split; [done|].
      unfold rest2. rewrite !zlen_app, zlen_cons, zlen_drop by (rewrite length_app; cbn; unfold zlen in *; lia).
      unfold zlen in *. rewrite length_app. cbn. lia.
    + rewrite (bind_rd ws i (word_at i)) by (apply rd_word; lia). rewrite zlen_app in Hl.
      pose proof (zlen_nonneg (loop_text n (i + 1))).
      destruct (sprintf_end (fmt_x (word_at i)) txt1 rest1 Hz1 ltac:(lia)) as (rest2 & E2 & Hz2).
      rewrite (bind_done _ _ _ _ _ E2). rewrite (app_assoc txt1).
      apply IH; [lia|lia|done|]. rewrite zlen_app. lia.
Qed.

(** The text that is printed. *)
Definition trailing : bool := negb (base r =? -1) && (base r + len r =? 8).
Definition text6 : list Z := loop_text 8 0 ++ (if trailing then [colon] else []).

Lemma text6_bound : zlen text6 <= 45.
Proof.
  pose proof (loop_text_bound 8 0 ltac:(lia) ltac:(lia)) as H. change (Z.b2z (0 =? 0)) with 1 in H. change (5 * Z.of_nat 8) with 40 in H.
  unfold text6. rewrite zlen_app. destruct trailing eqn:Et; [|change (zlen []) with 0; destruct encapsulated; cbn [Z.b2z] in H; lia].
  change (zlen [colon]) with 1. destruct encapsulated eqn:Ee; [exfalso|cbn [Z.b2z] in H; lia].
  unfold trailing, encapsulated in *. lia.
Qed.

Lemma text6_plain : plain text6.
Proof.
  unfold text6. apply plain_app; [apply plain_loop_text|]. destruct trailing; [apply plain_cons; [done..|]|];
    by split; apply not_elem_of_nil.
Qed.

Lemma format6_run junk :
  r = best_run ws -> zlen junk = 46 -> exists rest, format6 src ws junk = Done 0 (text6 ++ 0 :: rest).
Proof.
  intros Er Hj. pose proof text6_bound as Hb6. unfold format6. cbv zeta. rewrite <- Er.
  unfold text6 in *. rewrite zlen_app in Hb6.
  destruct (format_words_run 8 0 [] junk) as (rest & E & Hz); [lia|done|done| |].
  { change (zlen []) with 0. pose proof (zlen_nonneg (if trailing then [colon] else [])). lia. }
  cbn [app] in E, Hz. change (zlen []) with 0 in E. rewrite (bind_done _ _ _ _ _ E). fold trailing.
  destruct trailing.
  - change (zlen [colon]) with 1 in Hb6. rewrite bind_assoc.
    destruct (push colon (loop_text 8 0) rest Hz ltac:(lia)) as [E1 Hz1]. rewrite (bind_done _ _ _ _ _ E1).
    unfold bind at 1, ret at 1. change (zlen (loop_text 8 0) + 1) with (zlen (loop_text 8 0) + zlen [colon]).
    rewrite <- zlen_app.
    destruct (push 0 (loop_text 8 0 ++ [colon]) (drop 1 rest) Hz1) as [E2 _]; [rewrite zlen_app; change (zlen [colon]) with 1; lia|].
    rewrite (bind_done _ _ _ _ _ E2). eexists. unfold ret. by rewrite <- (app_assoc _ [0]).
  - unfold bind at 1, ret at 1. destruct (push 0 (loop_text 8 0) rest Hz) as [E2 _]; [change (zlen []) with 0 in Hb6; lia|].
    rewrite (bind_done _ _ _ _ _ E2). eexists. unfold ret. rewrite app_nil_r, <- app_assoc. done.
Qed.
End Format.

(** [inet_ntop6] prints the text: the whole of it, or what fits and [UV_ENOSPC];
    with no room at all it returns 0 and writes nothing. *)
Lemma inet_ntop6_run junk src rest dst size s :
  zlen junk = 46 -> length src = 16%nat -> Forall octet src -> 0 <= dst -> 0 <= size <= SSIZE_MAX -> dst + size <= zlen s ->
  exists a b c d, drop 12 src = [a; b; c; d] /\ octet a /\ octet b /\ octet c /\ octet d /\
  let text := text6 (words_of src) (best_run (words_of src)) a b c d in
  inet_ntop6 junk (src ++ rest) dst size s =
  if size =? 0 then Done 0 s
  else if size <=? zlen text then Done UV_ENOSPC (over dst (take (Z.to_nat (size - 1)) text ++ [0]) s)
  else Done 0 (over dst (text ++ [0]) s).
Proof.
  intros Hj Hl Hf Hd Hsz Hs.
  assert (exists a b c d, drop 12 src = [a; b; c; d] /\ octet a /\ octet b /\ octet c /\ octet d)
    as (a & b & c & d & Ed & Ha & Hb & Hc & Hd').
  { assert (Forall octet (drop 12 src)) as Hf' by (by apply Forall_drop).
    assert (length (drop 12 src) = 4%nat) as Hl' by (rewrite length_drop; lia).
    destruct (drop 12 src) as [|a [|b [|c [|d [|? ?]]]]]; try done. exists a, b, c, d.
    rewrite !Forall_cons in Hf'. tauto. }
  exists a, b, c, d. repeat (split; [done|]). cbv zeta.
  pose proof (load_words_run src rest s Hl Hf) as Ew. unfold inet_ntop6. rewrite (bind_done _ _ _ _ _ Ew).
  assert (drop 12 (src ++ rest) = a :: b :: c :: d :: rest) as Ed' by (rewrite drop_app_le, Ed by lia; done).
  assert (length (words_of src) = 8%nat) as Hlw by (do 17 (destruct src as [|? src]; try done)).
  set (text := text6 (words_of src) (best_run (words_of src)) a b c d).
  destruct (format6_run (src ++ rest) (words_of src) (best_run (words_of src)) a b c d rest Ed' Ha Hb Hc Hd'
    Hlw (words_of_range src Hf) junk eq_refl Hj) as (rest' & E). fold text in E.
  unfold with_local at 1, bind at 1. rewrite E. cbv iota beta. change (0 =? 0) with true. cbv iota.
  pose proof (proj1 (text6_plain (words_of src) (best_run (words_of src)) a b c d)) as Hp.
  destruct (Z.eqb_spec size 0) as [->|Hne]; [done|].
  destruct (Z.leb_spec size (zlen text)) as [Hle|Hlt].
  - by rewrite (bind_done _ _ _ _ _ (strscpy_cut _ text rest' eq_refl Hp dst size s Hd ltac:(lia) Hs)).
  - rewrite (bind_done _ _ _ _ _ (strscpy_fits _ text rest' eq_refl Hp dst size s Hd ltac:(lia) Hs)).
    pose proof (zlen_nonneg text). by rewrite (proj2 (Z.eqb_neq _ _)) by (unfold UV_E2BIG; lia).
Qed.

(** ** [inet_pton6]: hexadecimal digits *)
Lemma xdigit_char d : 0 <= d < 16 -> xdigit (digit_char d) = Some d.
Proof.
  intros Hd. assert (d ∈ seqZ 0 16) as Hin by (apply elem_of_seqZ; lia). revert d Hin Hd.
  assert (Forall (fun d => xdigit (digit_char d) = Some d) (seqZ 0 16)) as Hf by by repeat constructor.
  intros d Hin _. by apply (proj1 (Forall_forall _ _) Hf).
Qed.

(** The array when the bytes [bs] are stored. *)
Definition stored (bs : list Z) : list Z := bs ++ replicate (16 - length bs) 0.

Lemma zlen_stored bs : zlen bs <= 16 -> zlen (stored bs) = 16.
Proof. intros H. unfold stored, zlen in *. rewrite length_app, length_replicate. lia. Qed.

Lemma stored_write bs l : zlen bs + zlen l <= 16 ->
  memcpy_to (zlen bs) l (stored bs) = Done tt (stored (bs ++ l)).
Proof.
  intros H. unfold stored. rewrite memcpy_end by (unfold zlen in *; rewrite length_replicate; lia). f_equal.
  rewrite <- app_assoc, drop_replicate, length_app. do 3 f_equal. lia.
Qed.

Lemma put_word_run bs w : zlen bs + 2 <= 16 -> word w ->
  put_word (zlen bs) w (stored bs) = Done tt (stored (bs ++ bytes_of [w])).
Proof.
  unfold word. intros Hb Hw. assert (u8 (Z.shiftr w 8) = w / 256 /\ u8 w = w mod 256) as [E1 E2].
  { unfold u8. rewrite Z.shiftr_div_pow2 by lia. change (2 ^ 8) with 256. split; [|done]. zdm. }
  rewrite <- stored_write by (change (zlen (bytes_of [w])) with 2; lia). unfold put_word. cbn [bytes_of map concat app memcpy_to].
  rewrite E1, E2, !land_255, !Z.mod_mod by lia.
  assert (w / 256 mod 256 = w / 256) as -> by zdm. unfold bind. destruct (wr _ _ _) as [[] ?| | |]; try done.
  destruct (wr _ _ _) as [[] ?| | |]; done.
Qed.

Lemma exists_last' {A} (l : list A) : l = [] \/ exists k x, l = k ++ [x].
Proof. destruct l as [|y l] using rev_ind; [by left|]. right. by exists l, y. Qed.

Section Pton6.
Variable junk : list Z.
Hypothesis Hjunk : 4 <= zlen junk.

Lemma loop_digit d src cur tp cp seen val s :
  0 <= d < 16 -> 0 <= seen < 4 -> 0 <= val < 4096 ->
  pton6_loop junk (digit_char d :: src) cur tp cp seen val s =
  pton6_loop junk src cur tp cp (seen + 1) (16 * val + d) s.
Proof.
  intros Hd Hs Hv. cbn [pton6_loop]. rewrite (proj2 (Z.eqb_neq _ _)) by (apply digit_char_pos; lia).
  rewrite xdigit_char by done. rewrite (proj2 (Z.ltb_ge _ _)) by lia. f_equal.
  rewrite Z.shiftl_mul_pow2 by lia. change (2 ^ 4) with 16. rewrite u32_small by lia.
  rewrite Z.lor_comm. change 16 with (2 ^ 4) at 1. rewrite <- Z.shiftl_mul_pow2, lor_low_shifted by (change (2 ^ 4) with 16; lia).
  change (2 ^ 4) with 16. lia.
Qed.

(** A word in hexadecimal. *)
Lemma loop_word w src cur tp cp s :
  word w -> pton6_loop junk (fmt_x w ++ src) cur tp cp 0 0 s = pton6_loop junk src cur tp cp (zlen (fmt_x w)) w s.
Proof.
  assert (forall n w src, 0 <= w < 16 ^ Z.of_nat (S n) -> w < 65536 ->
    pton6_loop junk (fmt_x w ++ src) cur tp cp 0 0 s = pton6_loop junk src cur tp cp (zlen (fmt_x w)) w s) as H;
    [|intros Hw; apply (H 3%nat); unfold word in Hw; cbn; lia].
  clear w src. induction n as [|n IH]; intros w src Hw Hb.
  - change (16 ^ Z.of_nat 1) with 16 in Hw. rewrite fmt_x_one by done. by apply loop_digit.
  - destruct (Z.lt_ge_cases w 16); [rewrite fmt_x_one by lia; apply loop_digit; lia|].
    pose proof (Z.div_mod w 16 ltac:(lia)) as Ev. pose proof (Z.mod_pos_bound w 16 ltac:(lia)) as Hm.
    assert (0 < w / 16) as Hq by (apply Z.div_str_pos; lia). revert Ev Hm Hq.
    generalize (w / 16) (w mod 16). intros q d -> Hd Hq.
    rewrite Nat2Z.inj_succ, Z.pow_succ_r in Hw by lia.
    rewrite fmt_x_snoc, <- app_assoc by lia. cbn [app]. rewrite IH by lia.
    assert (zlen (fmt_x q) < 4) as Hl.
    { pose proof (fmt_x_word (16 * q + d) ltac:(lia)) as Hl. rewrite fmt_x_snoc, zlen_app in Hl by lia.
      change (zlen [_]) with 1 in Hl. lia. }
    rewrite loop_digit by (pose proof (zlen_nonneg (fmt_x q)); lia). f_equal. by rewrite zlen_app.
Qed.

Lemma loop_end rest cur tp cp seen val s :
  pton6_loop junk (0 :: rest) cur tp cp seen val s = Done (Some (mk_pton6_end tp cp seen val)) s.
Proof. done. Qed.

(** The colon after a word. *)
Lemma loop_colon c src cur bs cp seen w :
  0 < seen -> c <> 0 -> zlen bs + 2 <= 16 -> word w ->
  pton6_loop junk (colon :: c :: src) cur (zlen bs) cp seen w (stored bs) =
  pton6_loop junk (c :: src) (c :: src) (zlen (bs ++ bytes_of [w])) cp 0 0 (stored (bs ++ bytes_of [w])).
Proof.
  intros Hs Hc Hb Hw. cbn [pton6_loop]. change (colon =? 0) with false. change (xdigit colon) with (@None Z).
  change (colon =? colon) with true. cbv iota zeta. rewrite (proj2 (Z.eqb_neq seen 0)) by lia.
  rewrite (bind_rd _ 0 c) by apply rd_head. rewrite (proj2 (Z.eqb_neq c 0)) by done.
  rewrite (proj2 (Z.ltb_ge _ _)) by lia. rewrite (bind_done _ _ _ _ _ (put_word_run bs w Hb Hw)).
  by rewrite zlen_app.
Qed.

(** The second colon of [::]. *)
Lemma loop_double src cur tp s :
  pton6_loop junk (colon :: src) cur tp None 0 0 s = pton6_loop junk src src tp (Some tp) 0 0 s.
Proof. done. Qed.

(** Words with colons between them. *)
Fixpoint hexjoin (ws : list Z) : list Z :=
  match ws with
  | [] => []
  | [w] => fmt_x w
  | w :: ws => fmt_x w ++ colon :: hexjoin ws
  end.

Lemma hexjoin_cons v ws : ws <> [] -> hexjoin (v :: ws) = fmt_x v ++ colon :: hexjoin ws.
Proof. by destruct ws. Qed.

Lemma fmt_x_head w : word w -> exists d l, 0 <= d < 16 /\ fmt_x w = digit_char d :: l.
Proof.
  intros Hw. pose proof (fmt_x_word w Hw) as Hl. destruct (fmt_x w) as [|c l] eqn:E; [by change (zlen []) with 0 in Hl; lia|].
  destruct (digits_chars 16 8 w c) as (d & Hd & ->); [lia| |by exists d, l].
  change (c ∈ fmt_x w). rewrite E. by left.
Qed.

Lemma hexjoin_head ws : ws <> [] -> Forall word ws -> exists d l, 0 <= d < 16 /\ hexjoin ws = digit_char d :: l.
Proof.
  intros Hne Hf. destruct ws as [|w [|v ws]]; [done|..]; apply Forall_cons in Hf as [Hw _];
    destruct (fmt_x_head w Hw) as (d & l & Hd & E).
  - by exists d, l.
  - exists d. eexists. split; [done|]. rewrite hexjoin_cons, E by done. done.
Qed.

Lemma loop_groups ws w src cur bs cp :
  Forall word ws -> word w -> zlen bs + 2 * zlen ws <= 16 ->
  exists cur', pton6_loop junk (hexjoin (ws ++ [w]) ++ src) cur (zlen bs) cp 0 0 (stored bs) =
  pton6_loop junk src cur' (zlen (bs ++ bytes_of ws)) cp (zlen (fmt_x w)) w (stored (bs ++ bytes_of ws)).
Proof.
  intros Hf Hw. revert bs cur. induction ws as [|v ws IH]; intros bs cur Hb.
  - exists cur. cbn [app hexjoin]. rewrite loop_word by done. by rewrite app_nil_r.
  - apply Forall_cons in Hf as [Hv Hf]. rewrite zlen_cons in Hb. pose proof (zlen_nonneg ws).
    assert (ws ++ [w] <> []) as Hne by by destruct ws.
    assert (Forall word (ws ++ [w])) as Hf' by (apply Forall_app; by split; [|apply Forall_singleton]).
    destruct (hexjoin_head _ Hne Hf') as (d & l & Hd & El).
    rewrite <- app_comm_cons, hexjoin_cons, <- app_assoc by done. rewrite loop_word by done.
    rewrite El. cbn [app]. rewrite loop_colon; [|pose proof (fmt_x_word v Hv); lia|apply digit_char_pos; lia|lia|done].
    rewrite app_comm_cons, <- El.
    destruct (IH Hf (bs ++ bytes_of [v]) (hexjoin (ws ++ [w]) ++ src)) as (cur' & E).
    { rewrite zlen_app. change (zlen (bytes_of [v])) with 2. lia. }
    exists cur'. rewrite E. rewrite <- app_assoc, <- bytes_of_app. done.
Qed.

(** A text of eight words. *)
Lemma pton6_full ws rest :
  Forall word ws -> length ws = 8%nat -> pton6_text junk (hexjoin ws ++ 0 :: rest) (stored []) = Done true (bytes_of ws).
Proof.
  intros Hf Hl. destruct (exists_last (l := ws)) as (vs & w & ->); [by destruct ws|].
  apply Forall_app in Hf as [Hvs Hw]. apply Forall_cons in Hw as [Hw _]. rewrite length_app in Hl. cbn in Hl.
  assert (zlen vs = 7) as Hz by (unfold zlen; lia). unfold pton6_text.
  destruct (loop_groups vs w (0 :: rest) (hexjoin (vs ++ [w]) ++ 0 :: rest) [] None Hvs Hw) as (cur & E);
    [change (zlen []) with 0; lia|]. rewrite loop_end in E. cbn [app] in E. change (zlen []) with 0 in E.
  rewrite (bind_done _ _ _ _ _ E). unfold pton6_finish. cbn [pe_tp pe_colonp pe_seen pe_val].
  rewrite (proj2 (Z.eqb_neq _ 0)) by (pose proof (fmt_x_word w Hw); lia).
  assert (zlen (bytes_of vs) = 14) as Hb by (rewrite zlen_bytes_of; lia).
  rewrite Hb. change (16 <? 14 + 2) with false. cbv iota. rewrite <- Hb.
  rewrite bind_assoc, (bind_done _ _ _ _ _ (put_word_run (bytes_of vs) w ltac:(lia) Hw)). unfold bind, ret.
  rewrite Hb. change (14 + 2 =? 16) with true. f_equal. rewrite <- bytes_of_app. unfold stored.
  assert (length (bytes_of (vs ++ [w])) = 16%nat) as ->; [|by rewrite app_nil_r].
  pose proof (zlen_bytes_of (vs ++ [w])) as Hq. rewrite zlen_app, Hz in Hq. change (zlen [w]) with 1 in Hq.
  unfold zlen in Hq. lia.
Qed.

(** ** The shift of what follows the [::] *)
Lemma wr_mid l x v k i : i = zlen l -> wr i v (l ++ x :: k) = Done tt (l ++ v :: k).
Proof. intros ->. rewrite wr_end by (rewrite zlen_cons; pose proof (zlen_nonneg k); lia). done. Qed.

Lemma shift_run p q pre m :
  zlen (pre ++ p ++ replicate (S m) 0 ++ q) = 16 ->
  shift_loop (length p) (zlen q + 1) (zlen p + zlen q) (zlen pre) (pre ++ p ++ replicate (S m) 0 ++ q) =
  Done tt (pre ++ replicate (S m) 0 ++ p ++ q).
Proof.
  revert q. induction p as [|v p IH] using rev_ind; intros q Hz; [done|].
  rewrite length_app, Nat.add_comm. cbn [length Nat.add shift_loop].
  replace (zlen pre + (zlen (p ++ [v]) + zlen q - (zlen q + 1))) with (zlen (pre ++ p))
    by (rewrite !zlen_app; change (zlen [v]) with 1; lia).
  assert (pre ++ (p ++ [v]) ++ replicate (S m) 0 ++ q = (pre ++ p) ++ v :: (replicate m 0 ++ 0 :: q)) as E1.
  { rewrite (replicate_S_end m), <- !app_assoc. done. }
  rewrite E1 in *. unfold rd_array. unfold bind at 1. rewrite (rd_app _ _ v) by done.
  assert (wr (16 - (zlen q + 1)) v ((pre ++ p) ++ v :: (replicate m 0 ++ 0 :: q)) =
    Done tt ((pre ++ p) ++ v :: (replicate m 0 ++ v :: q))) as E2.
  { rewrite (app_comm_cons _ _ v), app_assoc. rewrite wr_mid; [by rewrite <- app_assoc|].
    rewrite !zlen_app, !zlen_cons, zlen_app, zlen_cons in *. lia. }
  rewrite (bind_done _ _ _ _ _ E2). rewrite (bind_done _ _ _ _ _ (wr_mid (pre ++ p) v 0 _ _ eq_refl)).
  specialize (IH (v :: q)). rewrite zlen_cons, (Z.add_comm 1) in IH. rewrite <- !app_assoc in *. cbn [app replicate] in *.
  replace (zlen (p ++ [v]) + zlen q) with (zlen p + (zlen q + 1)) by (rewrite zlen_app; change (zlen [v]) with 1; lia).
  rewrite IH; [done|]. rewrite <- Hz. rewrite !zlen_app, !zlen_cons, !zlen_app, !zlen_cons. lia.
Qed.

(** ** After the loop *)
Lemma finish_word bs cp seen w :
  0 < seen -> zlen bs + 2 <= 16 -> word w ->
  pton6_finish (mk_pton6_end (zlen bs) cp seen w) (stored bs) =
  pton6_finish (mk_pton6_end (zlen (bs ++ bytes_of [w])) cp 0 w) (stored (bs ++ bytes_of [w])).
Proof.
  intros Hs Hb Hw. unfold pton6_finish. cbn [pe_tp pe_colonp pe_seen pe_val].
  rewrite (proj2 (Z.eqb_neq seen 0)) by lia. rewrite (proj2 (Z.ltb_ge 16 _)) by lia.
  rewrite bind_assoc, (bind_done _ _ _ _ _ (put_word_run bs w Hb Hw)). change (0 =? 0) with true.
  unfold bind, ret. by rewrite zlen_app.
Qed.

Lemma finish_shift pre post w :
  zlen pre + zlen post < 16 ->
  pton6_finish (mk_pton6_end (zlen (pre ++ post)) (Some (zlen pre)) 0 w) (stored (pre ++ post)) =
  Done true (pre ++ replicate (16 - length (pre ++ post)) 0 ++ post).
Proof.
  intros Hz. unfold pton6_finish. cbn [pe_tp pe_colonp pe_seen pe_val]. change (0 =? 0) with true.
  unfold bind at 1, ret at 1. cbv zeta. rewrite (proj2 (Z.eqb_neq _ 16)) by (rewrite zlen_app; lia).
  destruct (16 - length (pre ++ post))%nat as [|m] eqn:Em;
    [unfold zlen in Hz; rewrite length_app in Em; lia|].
  pose proof (shift_run post [] pre m) as E. change (zlen (@nil Z)) with 0 in E. rewrite !app_nil_r, Z.add_0_r in E.
  replace (zlen (pre ++ post) - zlen pre) with (zlen post) by (rewrite zlen_app; lia). rewrite zlen_to_nat.
  unfold stored. rewrite Em, <- app_assoc. refine (bind_done _ _ _ _ _ (E _)).
  rewrite !zlen_app. unfold zlen in *. rewrite length_replicate, length_app in *. lia.
Qed.

(** ** Texts with a [::] *)
Lemma bytes_of_zeros n : bytes_of (replicate n 0) = replicate (2 * n) 0.
Proof.
  induction n as [|n IH]; [done|]. replace (2 * S n)%nat with (S (S (2 * n))) by lia. cbn [replicate].
  by rewrite <- IH.
Qed.

Lemma bytes_filled pre post n :
  (length pre + n + length post = 8)%nat ->
  bytes_of pre ++ replicate (16 - length (bytes_of pre ++ bytes_of post)) 0 ++ bytes_of post =
  bytes_of (pre ++ replicate n 0 ++ post).
Proof.
  intros Hn. rewrite !bytes_of_app, bytes_of_zeros. do 3 f_equal.
  pose proof (zlen_bytes_of pre). pose proof (zlen_bytes_of post). unfold zlen in *. rewrite length_app. lia.
Qed.

(** What is before the words after a [::], less the colon that [inet_pton6] skips. *)
Definition head6 (pre : list Z) : list Z :=
  match pre with [] => [colon] | _ => hexjoin pre ++ [colon; colon] end.

Lemma loop_head pre src cur :
  Forall word pre -> zlen pre <= 8 ->
  pton6_loop junk (head6 pre ++ src) cur 0 None 0 0 (stored []) =
  pton6_loop junk src src (zlen (bytes_of pre)) (Some (zlen (bytes_of pre))) 0 0 (stored (bytes_of pre)).
Proof.
  intros Hf Hz. destruct (exists_last' pre) as [->|(vs & w & ->)]; [apply loop_double|].
  apply Forall_app in Hf as [Hvs Hw]. apply Forall_cons in Hw as [Hw _].
  rewrite zlen_app in Hz. change (zlen [w]) with 1 in Hz.
  assert (head6 (vs ++ [w]) = hexjoin (vs ++ [w]) ++ [colon; colon]) as -> by by destruct vs.
  rewrite <- app_assoc. cbn [app]. pose proof (fmt_x_word w Hw) as Hl.
  destruct (loop_groups vs w (colon :: colon :: src) cur [] None Hvs Hw) as (cur' & E);
    [change (zlen []) with 0; lia|]. cbn [app] in E. change (zlen []) with 0 in E. rewrite E.
  rewrite loop_colon; [|lia|done|rewrite zlen_bytes_of; lia|done]. by rewrite loop_double, <- bytes_of_app.
Qed.

Lemma pton6_short pre post n rest :
  Forall word pre -> Forall word post -> (length pre + S n + length post = 8)%nat ->
  pton6_text junk (head6 pre ++ hexjoin post ++ 0 :: rest) (stored []) =
  Done true (bytes_of (pre ++ replicate (S n) 0 ++ post)).
Proof.
  intros Hpre Hpost Hn. unfold pton6_text. unfold bind at 1. rewrite loop_head by (done || unfold zlen; lia).
  rewrite <- (bytes_filled pre post) by lia.
  assert (zlen (bytes_of pre) + zlen (bytes_of post) < 16) as Hz by (rewrite !zlen_bytes_of; unfold zlen; lia).
  destruct (exists_last' post) as [->|(vs & w & ->)].
  - cbn [hexjoin app]. rewrite loop_end.
    pose proof (finish_shift (bytes_of pre) (bytes_of []) 0 Hz) as E. by rewrite app_nil_r in E at 1 2.
  - apply Forall_app in Hpost as [Hvs Hw]. apply Forall_cons in Hw as [Hw _].
    rewrite bytes_of_app, zlen_app in Hz. change (zlen (bytes_of [w])) with 2 in Hz.
    edestruct (loop_groups vs w (0 :: rest)) as (cur & ->); [done..| |].
    { rewrite zlen_bytes_of in *. rewrite zlen_bytes_of in Hz. lia. }
    rewrite loop_end. pose proof (fmt_x_word w Hw) as Hl. rewrite finish_word by (done || rewrite ?zlen_app; lia).
    rewrite <- app_assoc, <- bytes_of_app. apply finish_shift. rewrite bytes_of_app, zlen_app.
    change (zlen (bytes_of [w])) with 2. lia.
Qed.

(** ** Texts that end in an IPv4 address *)
Lemma loop_xdigits cs src cur tp cp seen val s :
  Forall (fun c => exists d, 0 <= d < 16 /\ c = digit_char d) cs -> 0 <= seen -> seen + zlen cs <= 4 ->
  exists val', pton6_loop junk (cs ++ src) cur tp cp seen val s = pton6_loop junk src cur tp cp (seen + zlen cs) val' s.
Proof.
  revert seen val. induction cs as [|c cs IH]; intros seen val Hf Hs Hz.
  - exists val. change (zlen []) with 0. by rewrite Z.add_0_r.
  - apply Forall_cons in Hf as [(d & Hd & ->) Hf]. rewrite zlen_cons in *. pose proof (zlen_nonneg cs).
    destruct (IH (seen + 1) (Z.lor (u32 (Z.shiftl val 4)) d) Hf ltac:(lia) ltac:(lia)) as (val' & E).
    exists val'. replace (seen + (1 + zlen cs)) with (seen + 1 + zlen cs) by lia. rewrite <- E. cbn [app pton6_loop].
    rewrite (proj2 (Z.eqb_neq _ _)) by (apply digit_char_pos; lia).
    rewrite xdigit_char by done. by rewrite (proj2 (Z.ltb_ge _ _)) by lia.
Qed.

Lemma loop_dotted a b c d rest bs cp :
  octet a -> octet b -> octet c -> octet d -> zlen bs + 4 <= 16 ->
  let src := ntop4_text a b c d ++ 0 :: rest in
  exists val, pton6_loop junk src src (zlen bs) cp 0 0 (stored bs) =
    Done (Some (mk_pton6_end (zlen bs + 4) cp 0 val)) (stored (bs ++ [a; b; c; d])).
Proof.
  intros Ha Hb Hc Hd Hz. cbv zeta. remember (ntop4_text a b c d ++ 0 :: rest) as src eqn:Hsrc. pose proof (zlen_nonneg bs).
  assert (exists src', src = fmt_u a ++ dot :: src') as [src' Es].
  { rewrite Hsrc. unfold ntop4_text. eexists. by rewrite <- !app_assoc. }
  pose proof (fmt_u_octet a Ha) as Hl.
  destruct (loop_xdigits (fmt_u a) (dot :: src') src (zlen bs) cp 0 0 (stored bs)) as (val & E0); [|lia|lia|].
  { eapply Forall_impl; [apply fmt_u_chars|]. intros x (e & He & ->). exists e. split; [lia|done]. }
  exists val. rewrite <- Es in E0. rewrite E0. cbn [pton6_loop]. change (dot =? 0) with false. change (xdigit dot) with (@None Z).
  change (dot =? colon) with false. change (dot =? dot) with true. cbv iota. rewrite (proj2 (Z.leb_le _ 16)) by lia.
  cbn [andb]. assert (inet_pton4 junk src (zlen bs) (stored bs) = Done 0 (stored (bs ++ [a; b; c; d]))) as E.
  { rewrite Hsrc. rewrite inet_pton4_text by (rewrite ?zlen_stored; (done || lia)). f_equal.
    pose proof (stored_write bs [a; b; c; d] Hz) as E. rewrite memcpy_run in E; [by injection E|lia|].
    rewrite zlen_stored by lia. done. }
  rewrite (bind_done _ _ _ _ _ E). done.
Qed.

Lemma pton6_dotted6 a b c d rest :
  octet a -> octet b -> octet c -> octet d ->
  pton6_text junk (colon :: ntop4_text a b c d ++ 0 :: rest) (stored []) = Done true (replicate 12 0 ++ [a; b; c; d]).
Proof.
  intros Ha Hb Hc Hd. unfold pton6_text, bind at 1. rewrite loop_double.
  destruct (loop_dotted a b c d rest [] (Some 0) Ha Hb Hc Hd) as (val & E); [done|].
  change (zlen []) with 0 in E. rewrite E. exact (finish_shift [] [a; b; c; d] val eq_refl).
Qed.

Lemma pton6_dotted5 a b c d rest :
  octet a -> octet b -> octet c -> octet d ->
  pton6_text junk (colon :: fmt_x 65535 ++ colon :: ntop4_text a b c d ++ 0 :: rest) (stored []) =
  Done true (replicate 10 0 ++ [255; 255; a; b; c; d]).
Proof.
  intros Ha Hb Hc Hd. unfold pton6_text, bind at 1. rewrite loop_double, loop_word by done.
  pose proof (fmt_x_word 65535) as Hl.
  assert (exists e l, 0 <= e < 10 /\ ntop4_text a b c d = digit_char e :: l) as (e & l & He & El).
  { pose proof (fmt_u_octet a Ha) as Hl4. unfold ntop4_text. destruct (fmt_u a) as [|x k] eqn:Ea; [by change (zlen []) with 0 in Hl4; lia|].
    pose proof (fmt_u_chars a) as Hf. rewrite Ea in Hf. apply Forall_cons in Hf as [(e & He & ->) _].
    exists e. eexists. by split. }
  destruct (loop_dotted a b c d rest (bytes_of [65535]) (Some 0) Ha Hb Hc Hd) as (val & E); [done|].
  rewrite El in *. cbn [app] in *. pose proof (loop_colon (digit_char e) (l ++ 0 :: rest)
    (fmt_x 65535 ++ colon :: digit_char e :: l ++ 0 :: rest) [] (Some 0) (zlen (fmt_x 65535)) 65535) as E2.
  change (zlen []) with 0 in E2. rewrite E2; [|lia|apply digit_char_pos; lia|done|done]. cbn [app].
  rewrite E. exact (finish_shift [] [255; 255; a; b; c; d] val eq_refl).
Qed.
End Pton6.

(** ** The shape of the text *)
Lemma text6_plain_words ws l a b c d :
  length ws = 8%nat -> text6 ws (mk_run (-1) l) a b c d = hexjoin ws.
Proof.
  intros Hl. do 9 (destruct ws as [|? ws]; try done). unfold text6. cbn. by rewrite !app_nil_r.
Qed.

(** A run that is not printed as an IPv4 address. *)
Lemma text6_shape ws b l a0 b0 c0 d0 :
  length ws = 8%nat -> 0 <= b -> 2 <= l -> b + l <= 8 ->
  ~ (b = 0 /\ (l = 6 \/ (l = 5 /\ word_at ws 5 = 65535))) ->
  text6 ws (mk_run b l) a0 b0 c0 d0 =
  (if b =? 0 then [colon] else []) ++ head6 (take (Z.to_nat b) ws) ++ hexjoin (drop (Z.to_nat (b + l)) ws).
Proof.
  intros Hlen H0 H1 H2 Hn. unfold text6. cbn [loop_text].
  destruct (encapsulated ws (mk_run b l)) eqn:Ee.
  - unfold encapsulated in Ee. cbn [base len] in Ee. assert (b = 0 /\ l = 7) as [-> ->] by lia. clear Ee Hn.
    do 9 (destruct ws as [|? ws]; try done). lazy -[fmt_x ntop4_text app]. by rewrite ?app_nil_r.
  - clear Hn Ee. do 9 (destruct ws as [|? ws]; try done). clear Hlen.
    assert (b = 0 \/ b = 1 \/ b = 2 \/ b = 3 \/ b = 4 \/ b = 5 \/ b = 6) as Hb by lia.
    assert (l = 2 \/ l = 3 \/ l = 4 \/ l = 5 \/ l = 6 \/ l = 7 \/ l = 8) as Hl by lia.
    destruct Hb as [->|[->|[->|[->|[->|[->| ->]]]]]], Hl as [->|[->|[->|[->|[->|[->| ->]]]]]]; try lia.
    all: lazy -[fmt_x ntop4_text app]; rewrite ?app_nil_r; repeat (progress (cbn [app]; rewrite <- ?app_assoc)); reflexivity.
Qed.

Lemma text6_v4 ws l a b c d :
  length ws = 8%nat -> l = 6 \/ (l = 5 /\ word_at ws 5 = 65535) ->
  text6 ws (mk_run 0 l) a b c d =
  colon :: colon :: (if l =? 5 then fmt_x 65535 ++ [colon] else []) ++ ntop4_text a b c d.
Proof.
  intros Hlen Hl. do 9 (destruct ws as [|? ws]; try done). destruct Hl as [->|[-> Hw]].
  - lazy -[fmt_x ntop4_text app]. by rewrite !app_nil_r.
  - vm_compute in Hw. subst. lazy -[fmt_x ntop4_text app]. by rewrite app_nil_r, <- app_assoc.
Qed.

(** What [inet_pton6] makes of a text. *)
Lemma inet_pton6_reads junk body bs dst s (skip : bool) rest :
  4 <= zlen junk -> pton6_text junk (body ++ 0 :: rest) (stored []) = Done true bs -> length bs = 16%nat ->
  (if skip then head body = Some colon else exists c, head body = Some c /\ c <> colon) ->
  0 <= dst -> dst + 16 <= zlen s ->
  inet_pton6 junk ((if skip then [colon] else []) ++ body ++ 0 :: rest) dst s = Done 0 (over dst bs s).
Proof.
  intros Hj E Hl Hh Hd Hs. unfold inet_pton6.
  assert (zlen bs = 16) as Hz by (unfold zlen; lia).
  assert (with_local (replicate 16 0) (pton6_text junk (body ++ 0 :: rest)) s = Done (true, bs) s) as Ew.
  { unfold with_local. change (replicate 16 0) with (stored []). by rewrite E. }
  pose proof (memcpy_run dst bs s Hd ltac:(lia)) as Em.
  destruct body as [|c body]; [destruct skip; [done|by destruct Hh as (? & ? & ?)]|]. destruct skip; cbn [app] in *.
  - injection Hh as ->. rewrite (bind_rd _ 0 colon) by apply rd_head. change (colon =? colon) with true. cbv iota.
    rewrite (bind_rd _ 1 colon) by (by apply (rd_app [colon])). change (colon =? colon) with true. cbn [negb drop].
    rewrite (bind_done _ _ _ _ _ Ew). by rewrite (bind_done _ _ _ _ _ Em).
  - destruct Hh as (? & [= <-] & Hc). rewrite (bind_rd _ 0 c) by apply rd_head.
    rewrite (proj2 (Z.eqb_neq _ _)) by done. unfold bind at 1, ret at 1. change (colon =? colon) with true. cbn [negb].
    rewrite (bind_done _ _ _ _ _ Ew). by rewrite (bind_done _ _ _ _ _ Em).
Qed.

(** * The round trip *)
#[local] Set Warnings "-clear-no-such-hyp".
#[local] Opaque fmt_u fmt_x.

(** A list of words with a run of zeros in it. *)
Lemma run_split ws b l :
  0 <= b -> 0 <= l -> b + l <= zlen ws -> (forall k, b <= k < b + l -> ws !! Z.to_nat k = Some 0) ->
  ws = take (Z.to_nat b) ws ++ replicate (Z.to_nat l) 0 ++ drop (Z.to_nat (b + l)) ws.
Proof.
  intros Hb Hl Hz Hk. unfold zlen in Hz. rewrite Z2Nat.inj_add by lia.
  rewrite <- (take_drop (Z.to_nat b) ws) at 1. f_equal. rewrite <- drop_drop.
  rewrite <- (take_drop (Z.to_nat l) (drop _ ws)) at 1. f_equal.
  apply list_eq. intros i. destruct (decide (i < Z.to_nat l)%nat) as [Hi|Hi].
  - rewrite lookup_take_lt, lookup_drop, lookup_replicate_2 by lia.
    rewrite <- (Hk (b + Z.of_nat i)) by lia. f_equal. lia.
  - rewrite !lookup_ge_None_2; [done|rewrite length_replicate; lia|rewrite length_take; lia].
Qed.

Lemma hexjoin_starts ws : ws <> [] -> Forall word ws -> exists c, head (hexjoin ws) = Some c /\ c <> colon.
Proof.
  intros Hne Hf. destruct (hexjoin_head ws Hne Hf) as (d & l & Hd & ->). exists (digit_char d).
  split; [done|]. apply digit_char_pos. lia.
Qed.

Lemma head6_starts ws k : Forall word ws ->
  (if bool_decide (ws = []) then head (head6 ws ++ k) = Some colon
   else exists c, head (head6 ws ++ k) = Some c /\ c <> colon).
Proof.
  intros Hf. case_bool_decide as E; [by subst|]. destruct (hexjoin_starts ws E Hf) as (c & Hc & Hn). exists c.
  split; [|done]. destruct ws as [|w ws]; [done|]. unfold head6. by destruct (hexjoin (w :: ws)).
Qed.

Lemma length_words src : length src = 16%nat -> length (words_of src) = 8%nat.
Proof. intros Hlen. do 17 (destruct src as [|? src]; try done). Qed.

Section Trip.
Variables (junk src : list Z).
Hypothesis Hjunk : 4 <= zlen junk.
Hypothesis Hlen : length src = 16%nat.
Hypothesis Hoct : Forall octet src.

(** The text is that of an IPv4 address with zeros before it. *)
Lemma v4_reads pre l a b c d rest dst s :
  words_of src = replicate (Z.to_nat l) 0 ++ pre -> drop 12 src = [a; b; c; d] ->
  l = 6 \/ (l = 5 /\ word_at (words_of src) 5 = 65535) -> 0 <= dst -> dst + 16 <= zlen s ->
  inet_pton6 junk (text6 (words_of src) (mk_run 0 l) a b c d ++ 0 :: rest) dst s = Done 0 (over dst src s).
Proof.
  intros Ew Ed Hl Hd Hs. rewrite text6_v4 by (done || by apply length_words).
  assert (Forall octet [a; b; c; d]) as Hf4 by (rewrite <- Ed; by apply Forall_drop).
  rewrite !Forall_cons in Hf4. destruct Hf4 as (Ha & Hb & Hc & Hd4 & _).
  pose proof (bytes_words src Hlen Hoct) as Eb. rewrite Ew, bytes_of_app, bytes_of_zeros in Eb.
  destruct Hl as [->|[-> H5]].
  - apply (inet_pton6_reads junk (colon :: ntop4_text a b c d) src dst s true rest); try done.
    rewrite <- app_comm_cons, pton6_dotted6 by done. rewrite <- Ed, <- Eb. done.
  - change (5 =? 5) with true. cbv iota. rewrite Ew in H5. destruct pre as [|p pre]; [by vm_compute in H5|].
    change (p = 65535) in H5. subst p.
    apply (inet_pton6_reads junk (colon :: (fmt_x 65535 ++ [colon]) ++ ntop4_text a b c d) src dst s true rest); try done.
    rewrite <- app_comm_cons, <- !app_assoc. cbn [app]. rewrite pton6_dotted5 by done.
    change (bytes_of (65535 :: pre)) with (255 :: 255 :: bytes_of pre) in Eb. rewrite <- Eb in Ed |- *.
    change (bytes_of pre = [a; b; c; d]) in Ed. by rewrite Ed.
Qed.

(** The text of an address, whatever follows it. *)
Lemma text6_reads a b c d rest dst s :
  drop 12 src = [a; b; c; d] -> 0 <= dst -> dst + 16 <= zlen s ->
  inet_pton6 junk (text6 (words_of src) (best_run (words_of src)) a b c d ++ 0 :: rest) dst s =
  Done 0 (over dst src s).
Proof.
  intros Ed Hd Hs. pose proof (length_words src Hlen) as H8. pose proof (words_of_range src Hoct) as Hw.
  pose proof (bytes_words src Hlen Hoct) as Eb. pose proof (best_run_spec (words_of src)) as Hr. cbv zeta in Hr.
  destruct (best_run (words_of src)) as [base len]. unfold zero_run in Hr. cbn [UvInet.base UvInet.len] in Hr.
  destruct Hr as [->|([|(_ & _ & _ & Hrun)] & H0 & H2 & Hz)]; [|lia|].
  - rewrite text6_plain_words by done. apply (inet_pton6_reads junk _ src dst s false); try done.
    + rewrite <- Eb at 2. by apply pton6_full.
    + apply hexjoin_starts; [|done]. by destruct (words_of src).
  - pose proof (run_split (words_of src) base len H0 ltac:(lia) Hz Hrun) as Es.
    destruct (decide (base = 0 /\ (len = 6 \/ (len = 5 /\ word_at (words_of src) 5 = 65535)))) as [[-> Hl]|Hn].
    { by apply (v4_reads (drop (Z.to_nat (0 + len)) (words_of src))). }
    unfold zlen in Hz. rewrite text6_shape by (done || lia).
    remember (take (Z.to_nat base) (words_of src)) as pre eqn:Epre.
    remember (drop (Z.to_nat (base + len)) (words_of src)) as post eqn:Epost.
    assert (Forall word pre /\ Forall word post) as [Hpre Hpost]
      by (subst; by split; [apply Forall_take|apply Forall_drop]).
    assert ((base =? 0) = bool_decide (pre = [])) as ->.
    { apply eq_true_iff_eq. rewrite Z.eqb_eq, bool_decide_eq_true, <- length_zero_iff_nil, Epre, length_take. lia. }
    rewrite <- app_assoc. apply (inet_pton6_reads junk (head6 pre ++ hexjoin post) src dst s); try done;
      [|by apply head6_starts].
    rewrite <- app_assoc, (pton6_short junk pre post (Z.to_nat len - 1)); [|done..|].
    + replace (S (Z.to_nat len - 1)) with (Z.to_nat len) by lia. by rewrite <- Es, Eb.
    + rewrite Epre, Epost, length_take, length_drop. lia.
Qed.
End Trip.
