(* ===== verification/UvIdna.v ===== *)
(** libuv, [idna.c]: UTF-8 decoding, and the conversion of a host name to its
    ASCII form.  A source is a list of bytes with positions in it; the state of
    the monad is the array that is written to, up to the position [de]. *)
From S2P Require Import Prelude.
From S2P Require Import UvInet.

Definition UINT_MAX : Z := 4294967295.

(** ** [uv__utf8_decode1] *)
Section Decode.
Context {S : Type}.
Variable mem : list Z.

(** What follows the [switch]. *)
Definition utf8_result (a b c d min p : Z) : M S (Z * Z) :=
  if negb (Z.land 192 (Z.lxor (Z.lxor b c) d) =? 128) then ret (UINT_MAX, p)
  else
    let b := Z.land b 63 in
    let c := Z.land c 63 in
    let d := Z.land d 63 in
    let a := Z.lor (Z.lor (Z.lor (u32 (Z.shiftl a 18)) (u32 (Z.shiftl b 12))) (u32 (Z.shiftl c 6))) d in
    if a <? min then ret (UINT_MAX, p)
    else if 1114111 <? a then ret (UINT_MAX, p)
    else if (55296 <=? a) && (a <=? 57343) then ret (UINT_MAX, p)
    else ret (a, p).

(** The cases of [switch ( *p - pe)] that are reached with the default label, 2
    and 1. *)
Definition uv__utf8_decode1_slow (p pe a : Z) : M S (Z * Z) :=
  if 247 <? a then ret (UINT_MAX, p)
  else
    let two := p - pe =? 2 in
    let one := p - pe =? 1 in
    let other := negb two && negb one in
    if other && (239 <? a) then
      let* b := rd mem p in
      let* c := rd mem (p + 1) in
      let* d := rd mem (p + 2) in
      utf8_result (Z.land a 7) b c d 65536 (p + 3)
    else if (other || two) && (223 <? a) then
      let* c := rd mem p in
      let* d := rd mem (p + 1) in
      utf8_result 0 (Z.lor 128 (Z.land a 15)) c d 2048 (p + 2)
    else if 191 <? a then
      let* d := rd mem p in
      utf8_result 0 128 (Z.lor 128 (Z.land a 31)) d 128 (p + 1)
    else ret (UINT_MAX, p).

Definition uv__utf8_decode1 (p pe : Z) : M S (Z * Z) :=
  let* a := rd mem p in
  if a <? 128 then ret (a, p + 1) else uv__utf8_decode1_slow (p + 1) pe a.

(** ** [foreach_codepoint] *)
(** What the body of the loop does next: go on, [break], or [return]. *)
Inductive step (A R : Type) : Type :=
| Next (a : A)
| Break (a : A)
| Return (r : R).
Arguments Next {A R} a.
Arguments Break {A R} a.
Arguments Return {A R} r.

Fixpoint foreach_codepoint {A R} (fuel : nat) (p pe : Z) (body : Z -> A -> M S (step A R)) (a : A) : M S (A + R) :=
  match fuel with
  | O => out_of_fuel
  | Datatypes.S fuel =>
      if p <=? pe then
        let* r := uv__utf8_decode1 p pe in
        let (c, p) := r : Z * Z in
        if p <=? pe then
          let* n := body c a in
          match n with
          | Next a => foreach_codepoint fuel p pe body a
          | Break a => ret (inl a)
          | Return r => ret (inr r)
          end
        else ret (inl a)
      else ret (inl a)
  end.

(** Every turn goes on by a byte at least. *)
Definition turns (p pe : Z) : nat := Z.to_nat (pe + 2 - p).
End Decode.
Arguments Next {A R} a.
Arguments Break {A R} a.
Arguments Return {A R} r.

(** ** Writes to the destination *)
(** [if ( *d < de) *( *d)++ = c] *)
Definition put (de c d : Z) : T Z :=
  if d <? de then wr d (u8 c);;; ret (d + 1) else ret d.

Fixpoint puts (de : Z) (l : list Z) (d : Z) : T Z :=
  match l with
  | [] => ret d
  | c :: l => let* d := put de c d in puts de l d
  end.

(** The string literal with its NUL. *)
Definition alphabet : list Z :=
  [97; 98; 99; 100; 101; 102; 103; 104; 105; 106; 107; 108; 109; 110; 111; 112; 113; 114; 115; 116; 117; 118;
   119; 120; 121; 122; 48; 49; 50; 51; 52; 53; 54; 55; 56; 57; 0].

Definition hyphen : Z := 45.

(** ** [uv__idna_toascii_label] *)
(** The variables of the second half. *)
Record puny : Type := mk_puny {
  pu_bias : Z;
  pu_delta : Z;
  pu_h : Z;
  pu_first : bool;
  pu_todo : Z;
  pu_d : Z
}.

(** [for (k = 36, q = delta; ...)], and the digit after it. *)
Definition threshold (k bias : Z) : Z :=
  let t := if bias <? k then u32 (k - bias) else 1 in
  if 26 <? t then 26 else t.

Fixpoint emit_digits (fuel : nat) (de bias k q d : Z) : T Z :=
  match fuel with
  | O => out_of_fuel
  | S fuel =>
      let t := threshold k bias in
      if q <? t then
        let* c := rd alphabet q in
        put de c d
      else
        let x := u32 (q - t) in
        let y := u32 (36 - t) in
        let q := x / y in
        let t := u32 (t + x mod y) in
        let* c := rd alphabet t in
        let* d := put de c d in
        emit_digits fuel de bias (u32 (k + 36)) q d
  end.

(** [for (bias = 0; delta > 35 * 26 / 2; bias += 36)] *)
Fixpoint shrink (fuel : nat) (bias delta : Z) : option (Z * Z) :=
  match fuel with
  | O => None
  | S fuel => if 35 * 26 / 2 <? delta then shrink fuel (u32 (bias + 36)) (delta / 35) else Some (bias, delta)
  end.

(** A 32-bit number has at most 11 digits, and is divided by 35 at most 7 times. *)
Definition digits_fuel : nat := 12.
Definition shrink_fuel : nat := 8.

(** The step after the digits of a number are written. *)
Definition adapt (s : puny) (d : Z) : M (list Z) puny :=
  let delta := pu_delta s / 2 in
  let delta := if pu_first s then delta / 350 else delta in
  let h := u32 (pu_h s + 1) in
  let delta := u32 (delta + delta / h) in
  match shrink shrink_fuel 0 delta with
  | None => out_of_fuel
  | Some (bias, delta) =>
      let bias := u32 (bias + u32 (36 * delta) / u32 (delta + 38)) in
      ret (mk_puny bias 0 h false (u32 (pu_todo s - 1)) d)
  end.

Definition with_delta (delta : Z) (s : puny) : puny :=
  mk_puny (pu_bias s) delta (pu_h s) (pu_first s) (pu_todo s) (pu_d s).

(** The body of the loop on the code points in the [while]. *)
Definition puny_body (de n c : Z) (s : puny) : T (step puny Z) :=
  let delta := if c <? n then u32 (pu_delta s + 1) else pu_delta s in
  if (c <? n) && (delta =? 0) then ret (Return UV_E2BIG)
  else
    let s := with_delta delta s in
    if negb (c =? n) then ret (Next s)
    else
      let* d := emit_digits digits_fuel de (pu_bias s) 36 delta (pu_d s) in
      let* s := adapt s d in
      ret (Next s).

(** The smallest code point from [n] on. *)
Definition least_body (n c m : Z) : T (step Z unit) :=
  ret (Next (if (n <=? c) && (c <? m) then c else m)).

(** [while (todo > 0)]: the position in the destination, or the error. *)
Fixpoint puny_loop (passes : nat) (mem : list Z) (ss se de n : Z) (s : puny) : T (Z + Z) :=
  if 0 <? pu_todo s then
    match passes with
    | O => out_of_fuel
    | S passes =>
        let* r := foreach_codepoint mem (turns ss se) ss se (least_body n) UINT_MAX in
        let m := match r with inl m => m | inr _ => 0 end in
        let x := u32 (m - n) in
        let y := u32 (pu_h s + 1) in
        if (UINT_MAX - pu_delta s) / y <? x then ret (inr UV_E2BIG)
        else
          let s := with_delta (u32 (pu_delta s + u32 (x * y))) s in
          let n := m in
          let* r := foreach_codepoint mem (turns ss se) ss se (puny_body de n) s in
          match r with
          | inr e => ret (inr e)
          | inl s => puny_loop passes mem ss se de (u32 (n + 1)) (with_delta (u32 (pu_delta s + 1)) s)
          end
    end
  else ret (inl (pu_d s)).

(** The first loop counts: the ASCII characters, and the others. *)
Definition count_body (c : Z) (a : Z * Z) : T (step (Z * Z) Z) :=
  let (h, todo) := a in
  if c <? 128 then ret (Next (u32 (h + 1), todo))
  else if c =? UINT_MAX then ret (Return UV_EINVAL)
  else ret (Next (h, u32 (todo + 1))).

(** The second loop writes the ASCII characters. *)
Definition ascii_body (de h c : Z) (a : Z * Z) : T (step (Z * Z) unit) :=
  let (x, d) := a in
  if 127 <? c then ret (Next a)
  else
    let* d := put de c d in
    let x := u32 (x + 1) in
    if x =? h then ret (Break (x, d)) else ret (Next (x, d)).

(** The result, and the position in the destination. *)
Definition uv__idna_toascii_label (mem : list Z) (s se d de : Z) : T (Z * Z) :=
  let ss := s in
  let* r := foreach_codepoint mem (turns s se) s se count_body (0, 0) in
  match r with
  | inr e => ret (e, d)
  | inl (h, todo) =>
      let* d := (if 0 <? todo then puts de [120; 110; hyphen; hyphen] d else ret d) in
      let* r := foreach_codepoint mem (turns ss se) ss se (ascii_body de h) (0, d) in
      let d := match r with inl a => snd a | inr _ => d end in
      if todo =? 0 then ret (s32 h, d)
      else
        let* d := (if 0 <? h then put de hyphen d else ret d) in
        let* r := puny_loop (Z.to_nat todo) mem ss se de 128 (mk_puny 72 0 h true todo d) in
        match r with
        | inr e => ret (e, d)
        | inl d => ret (0, d)
        end
  end.

(** ** [uv__idna_toascii] *)
Definition is_dot (c : Z) : bool := (c =? dot) || (c =? 12290) || (c =? 65294) || (c =? 65377).

(** [for (si = s; si < se; )]: where the last label starts and [d], or the error. *)
Fixpoint toascii_loop (fuel : nat) (mem : list Z) (s si se d de : Z) : T ((Z * Z) + Z) :=
  if si <? se then
    match fuel with
    | O => out_of_fuel
    | S fuel =>
        let st := si in
        let* r := uv__utf8_decode1 mem si se in
        let (c, si) := r : Z * Z in
        if negb (is_dot c) then toascii_loop fuel mem s si se d de
        else
          let* r := uv__idna_toascii_label mem s st d de in
          let (rc, d) := r : Z * Z in
          if rc <? 0 then ret (inr rc)
          else
            let* d := put de dot d in
            toascii_loop fuel mem si si se d de
    end
  else ret (inl (s, d)).

Definition uv__idna_toascii (mem : list Z) (s se d de : Z) : T Z :=
  let ds := d in
  let* r := toascii_loop (turns s se) mem s s se d de in
  match r with
  | inr rc => ret rc
  | inl (s, d) =>
      let* r := (if s <? se then uv__idna_toascii_label mem s se d de else ret (0, d)) in
      let (rc, d) := r : Z * Z in
      if rc <? 0 then ret rc
      else
        let* d := put de 0 d in
        ret (d - ds)
  end.
