(* ===== verification/UvPuny.v ===== *)
(** Punycode as RFC 3492 defines it, on unbounded integers: the encoder of its
    section 6.3, the decoder of its section 6.2, and the proof that the second
    undoes the first.  [idna.c] is compared with the encoder. *)
From S2P Require Import Prelude.

#[local] Set Warnings "-clear-no-such-hyp".

(** ** The parameters of section 5, bias adaptation (6.1) and digits (5) *)
Definition initial_n : Z := 128.
Definition initial_bias : Z := 72.
Definition delimiter : Z := 45.

Definition rfc_threshold (k bias : Z) : Z :=
  if k <=? bias + 1 then 1 else if bias + 26 <=? k then 26 else k - bias.

Fixpoint adapt_loop (fuel : nat) (k delta : Z) : Z :=
  match fuel with
  | O => 0
  | S fuel => if 455 <? delta then adapt_loop fuel (k + 36) (delta / 35) else k + 36 * delta / (delta + 38)
  end.

Definition halvings (z : Z) : nat := S (S (Z.to_nat (Z.log2 z))).

Definition rfc_adapt (delta numpoints : Z) (first : bool) : Z :=
  let delta := if first then delta / 700 else delta / 2 in
  let delta := delta + delta / numpoints in
  adapt_loop (halvings delta) 0 delta.

Definition digit_code (d : Z) : Z := if d <? 26 then 97 + d else 22 + d.

Definition code_digit (c : Z) : option Z :=
  if (97 <=? c) && (c <=? 122) then Some (c - 97)
  else if (48 <=? c) && (c <=? 57) then Some (c - 22)
  else None.

(** ** The encoder *)
Fixpoint varint (fuel : nat) (bias k q : Z) : list Z :=
  match fuel with
  | O => []
  | S fuel =>
      let t := rfc_threshold k bias in
      if q <? t then [q] else t + (q - t) mod (36 - t) :: varint fuel bias (k + 36) ((q - t) / (36 - t))
  end.

Definition number (bias q : Z) : list Z := varint (halvings q) bias 36 q.

Record coder : Type := mk_coder { co_bias : Z; co_delta : Z; co_h : Z; co_first : bool }.

(** The loop on the input for the code point [n]: the digits it prints. *)
Fixpoint rfc_pass (n : Z) (cps : list Z) (s : coder) : list Z * coder :=
  match cps with
  | [] => ([], s)
  | c :: cps =>
      if c <? n then rfc_pass n cps (mk_coder (co_bias s) (co_delta s + 1) (co_h s) (co_first s))
      else if c =? n then
        let (l, s') := rfc_pass n cps
          (mk_coder (rfc_adapt (co_delta s) (co_h s + 1) (co_first s)) 0 (co_h s + 1) false) in
        (number (co_bias s) (co_delta s) ++ l, s')
      else rfc_pass n cps s
  end.

(** The least code point that is not below [n]. *)
Definition least (n : Z) (cps : list Z) : option Z :=
  foldr (fun c m => if n <=? c then Some (match m with Some m => Z.min c m | None => c end) else m) None cps.

Fixpoint rfc_loop (passes : nat) (n : Z) (cps : list Z) (s : coder) : list Z :=
  match passes, least n cps with
  | S passes, Some m =>
      let (l, s) := rfc_pass m cps (mk_coder (co_bias s) (co_delta s + (m - n) * (co_h s + 1)) (co_h s) (co_first s)) in
      l ++ rfc_loop passes (m + 1) cps (mk_coder (co_bias s) (co_delta s + 1) (co_h s) (co_first s))
  | _, _ => []
  end.

Definition basic (c : Z) : bool := c <? 128.
Definition basics (cps : list Z) : list Z := List.filter basic cps.

Definition rfc_digits (cps : list Z) : list Z :=
  rfc_loop (length cps) initial_n cps (mk_coder initial_bias 0 (zlen (basics cps)) true).

Definition rfc_encode (cps : list Z) : list Z :=
  basics cps ++ (if 0 <? zlen (basics cps) then [delimiter] else []) ++ map digit_code (rfc_digits cps).

(** ** The decoder *)
(** A number of variable length, and what follows it. *)
Fixpoint read_number (bias k : Z) (l : list Z) : option (Z * list Z) :=
  match l with
  | [] => None
  | c :: l =>
      d ← code_digit c;
      let t := rfc_threshold k bias in
      if d <? t then Some (d, l)
      else '(v, l) ← read_number bias (k + 36) l; Some (d + (36 - t) * v, l)
  end.

Record decoder : Type := mk_decoder { de_n : Z; de_i : Z; de_bias : Z; de_out : list Z }.

Definition insert_at (i : nat) (c : Z) (l : list Z) : list Z := take i l ++ c :: drop i l.

Definition decode_step (delta : Z) (s : decoder) : decoder :=
  let i := de_i s + delta in
  let len := zlen (de_out s) + 1 in
  let n := de_n s + i / len in
  mk_decoder n (i mod len + 1) (rfc_adapt delta len (de_i s =? 0)) (insert_at (Z.to_nat (i mod len)) n (de_out s)).

(** Every number has a digit at least. *)
Fixpoint decode_loop (fuel : nat) (l : list Z) (s : decoder) : option (list Z) :=
  match l, fuel with
  | [], _ => Some (de_out s)
  | _, O => None
  | _, S fuel => '(v, l) ← read_number (de_bias s) 36 l; decode_loop fuel l (decode_step v s)
  end.

(** What is before and after the last delimiter. *)
Fixpoint split_last (l : list Z) : option (list Z * list Z) :=
  match l with
  | [] => None
  | c :: l =>
      match split_last l with
      | Some (a, b) => Some (c :: a, b)
      | None => if c =? delimiter then Some ([], l) else None
      end
  end.

Definition rfc_decode (l : list Z) : option (list Z) :=
  let (out, ext) := match split_last l with Some (a, b) => (a, b) | None => ([], l) end in
  decode_loop (length ext) ext (mk_decoder initial_n 0 initial_bias out).

Example rfc_encode_sample : rfc_encode [98; 252; 99; 104; 101; 114] = [98; 99; 104; 101; 114; 45; 107; 118; 97].
Proof. reflexivity. Qed.
Example rfc_decode_sample : rfc_decode [98; 99; 104; 101; 114; 45; 107; 118; 97] = Some [98; 252; 99; 104; 101; 114].
Proof. reflexivity. Qed.

(** * The decoder undoes the encoder *)
#[local] Set Warnings "-clear-no-such-hyp".

(** ** Digits and numbers *)
Lemma rfc_threshold_range k bias : 1 <= rfc_threshold k bias <= 26.
Proof. unfold rfc_threshold. destruct (Z.leb_spec k (bias + 1)), (Z.leb_spec (bias + 26) k); lia. Qed.

Lemma code_digit_code d : 0 <= d < 36 -> code_digit (digit_code d) = Some d.
Proof.
  intros Hd. unfold digit_code, code_digit. destruct (Z.ltb_spec d 26).
  - rewrite (proj2 (Z.leb_le _ _)), (proj2 (Z.leb_le _ _)) by lia. cbn. f_equal. lia.
  - rewrite (proj2 (Z.leb_gt 97 _)) by lia. cbn. rewrite (proj2 (Z.leb_le _ _)), (proj2 (Z.leb_le _ _)) by lia.
    cbn. f_equal. lia.
Qed.

Lemma digit_code_ascii d : 0 <= d < 36 -> 48 <= digit_code d < 123.
Proof. unfold digit_code. destruct (Z.ltb_spec d 26); lia. Qed.

Definition digit (d : Z) : Prop := 0 <= d < 36.

(** The quotient of a step. *)
Lemma step_quotient k bias q : rfc_threshold k bias <= q ->
  let t := rfc_threshold k bias in
  0 <= (q - t) / (36 - t) <= q / 10 /\ t <= t + (q - t) mod (36 - t) < 36 /\
  t + (q - t) mod (36 - t) + (36 - t) * ((q - t) / (36 - t)) = q.
Proof.
  intros Hq t. pose proof (rfc_threshold_range k bias) as Ht. fold t in Ht, Hq.
  pose proof (Z.div_mod (q - t) (36 - t) ltac:(lia)) as E. pose proof (Z.mod_pos_bound (q - t) (36 - t) ltac:(lia)) as Hm.
  revert E Hm. generalize ((q - t) mod (36 - t)) ((q - t) / (36 - t)). intros r v E Hm.
  assert (0 <= v) by nia. split; [|lia]. split; [done|]. apply Z.div_le_lower_bound; [lia|]. nia.
Qed.

Lemma varint_spec fuel bias k q :
  0 <= q < 10 ^ Z.of_nat fuel ->
  Forall digit (varint (S fuel) bias k q) /\ varint (S fuel) bias k q <> [] /\
  forall rest, read_number bias k (map digit_code (varint (S fuel) bias k q) ++ rest) = Some (q, rest).
Proof.
  revert k q. induction fuel as [|fuel IH]; intros k q Hq; pose proof (rfc_threshold_range k bias) as Ht.
  - change (10 ^ Z.of_nat 0) with 1 in Hq. assert (q = 0) as -> by lia. cbn [varint].
    rewrite (proj2 (Z.ltb_lt 0 _)) by lia. split; [by repeat constructor|]. split; [done|].
    intros rest. cbn [map app read_number]. rewrite code_digit_code by lia. cbn [mbind option_bind].
    by rewrite (proj2 (Z.ltb_lt 0 _)) by lia.
  - change (varint (S (S fuel)) bias k q) with
      (let t := rfc_threshold k bias in
       if q <? t then [q] else t + (q - t) mod (36 - t) :: varint (S fuel) bias (k + 36) ((q - t) / (36 - t))).
    cbv zeta. destruct (Z.ltb_spec q (rfc_threshold k bias)) as [Hlt|Hge].
    + split; [constructor; [unfold digit; lia|constructor]|]. split; [done|].
      intros rest. cbn [map app read_number]. rewrite code_digit_code by lia. cbn [mbind option_bind].
      by rewrite (proj2 (Z.ltb_lt q _)) by lia.
    + pose proof (step_quotient k bias q Hge) as (Hv & Hd & E). cbv zeta in Hv, Hd, E.
      destruct (IH (k + 36) ((q - rfc_threshold k bias) / (36 - rfc_threshold k bias))) as (Hf & _ & Hr).
      { split; [lia|]. eapply Z.le_lt_trans; [apply Hv|]. apply Z.div_lt_upper_bound; [lia|].
        rewrite <- Z.pow_succ_r, <- Nat2Z.inj_succ by lia. lia. }
      split; [constructor; [unfold digit; lia|done]|]. split; [done|].
      intros rest. cbn [map app read_number]. rewrite code_digit_code by lia. cbn [mbind option_bind].
      rewrite (proj2 (Z.ltb_ge _ _)) by lia. rewrite Hr. cbn [mbind option_bind]. by rewrite E.
Qed.

Lemma halvings_enough q : 0 <= q -> exists f, halvings q = S f /\ q < 10 ^ Z.of_nat f.
Proof.
  intros Hq. exists (S (Z.to_nat (Z.log2 q))). split; [done|]. destruct (Z.eq_dec q 0) as [->|]; [done|].
  pose proof (Z.log2_spec q ltac:(lia)) as [_ Hl]. rewrite Nat2Z.inj_succ, Z2Nat.id by apply Z.log2_nonneg.
  eapply Z.lt_le_trans; [exact Hl|]. apply Z.pow_le_mono_l. lia.
Qed.

Lemma number_spec bias q :
  0 <= q -> Forall digit (number bias q) /\ number bias q <> [] /\
  forall rest, read_number bias 36 (map digit_code (number bias q) ++ rest) = Some (q, rest).
Proof.
  intros Hq. unfold number. destruct (halvings_enough q Hq) as (f & -> & Hf). by apply varint_spec.
Qed.

(** More fuel than digits changes nothing. *)
Lemma varint_fuel f g bias k q :
  0 <= q < 10 ^ Z.of_nat f -> q < 10 ^ Z.of_nat g -> varint (S f) bias k q = varint (S g) bias k q.
Proof.
  revert g k q. assert (forall n k, varint (S n) bias k 0 = [0]) as H0.
  { intros n k. pose proof (rfc_threshold_range k bias). cbn [varint]. by rewrite (proj2 (Z.ltb_lt 0 _)) by lia. }
  induction f as [|f IH]; intros g k q Hq Hg.
  - change (10 ^ Z.of_nat 0) with 1 in Hq. assert (q = 0) as -> by lia. by rewrite !H0.
  - destruct g as [|g]; [change (10 ^ Z.of_nat 0) with 1 in Hg; assert (q = 0) as -> by lia; by rewrite !H0|].
    change (varint (S (S f)) bias k q) with
      (let t := rfc_threshold k bias in
       if q <? t then [q] else t + (q - t) mod (36 - t) :: varint (S f) bias (k + 36) ((q - t) / (36 - t))).
    change (varint (S (S g)) bias k q) with
      (let t := rfc_threshold k bias in
       if q <? t then [q] else t + (q - t) mod (36 - t) :: varint (S g) bias (k + 36) ((q - t) / (36 - t))).
    cbv zeta. destruct (Z.ltb_spec q (rfc_threshold k bias)) as [|Hge]; [done|].
    pose proof (step_quotient k bias q Hge) as (Hv & _). cbv zeta in Hv. f_equal.
    rewrite !Nat2Z.inj_succ, !Z.pow_succ_r in * by lia.
    apply IH; [split; [lia|]|]; (eapply Z.le_lt_trans; [apply Hv|]); apply Z.div_lt_upper_bound; lia.
Qed.

(** ** Sequences of numbers *)
(** The decoder goes from [d] to [d'] on the digits [l]. *)
Definition decodes (l : list Z) (d d' : decoder) : Prop :=
  forall rest f, exists f', (f <= f')%nat /\
    decode_loop (length l + f) (map digit_code l ++ rest) d = decode_loop f' rest d'.

Lemma decodes_nil d : decodes [] d d.
Proof. intros rest f. by exists f. Qed.

Lemma decodes_app l1 l2 d d1 d2 : decodes l1 d d1 -> decodes l2 d1 d2 -> decodes (l1 ++ l2) d d2.
Proof.
  intros H1 H2 rest f. destruct (H1 (map digit_code l2 ++ rest) (length l2 + f)%nat) as (f1 & Hf1 & E1).
  destruct (H2 rest (f1 - length l2)%nat) as (f2 & Hf2 & E2). exists f2. split; [lia|].
  rewrite map_app, <- app_assoc, length_app, <- Nat.add_assoc, E1, <- E2. f_equal. lia.
Qed.

Lemma decodes_number q d : 0 <= q -> decodes (number (de_bias d) q) d (decode_step q d).
Proof.
  intros Hq rest f. destruct (number_spec (de_bias d) q Hq) as (_ & Hne & Hr). specialize (Hr rest).
  destruct (number (de_bias d) q) as [|c l]; [done|]. exists (length l + f)%nat. split; [lia|].
  cbn [map app length Nat.add decode_loop]. cbn [map app] in Hr. by rewrite Hr.
Qed.

(** ** The invariant of the two machines *)
Definition upto (n : Z) (l : list Z) : list Z := List.filter (fun c => c <=? n) l.
Definition below (n : Z) (l : list Z) : list Z := List.filter (fun c => c <? n) l.

Lemma upto_snoc n l c : upto n (l ++ [c]) = upto n l ++ (if c <=? n then [c] else []).
Proof. unfold upto. rewrite List.filter_app. cbn. by destruct (c <=? n). Qed.

(** The encoder is at the code point [n], with [P] passed and [Q] to go. *)
Record coding (n : Z) (P Q : list Z) (s : coder) (d : decoder) : Prop := {
  cod_bias : co_bias s = de_bias d;
  cod_out : de_out d = upto n P ++ below n Q;
  cod_h : co_h s = zlen (de_out d);
  cod_delta : co_delta s = (n - de_n d) * (co_h s + 1) + zlen (upto n P) - de_i d;
  cod_nonneg : 0 <= co_delta s;
  cod_i : 0 <= de_i d;
  cod_first : co_first s = (de_i d =? 0)
}.

(** A code point that is [n]. *)
Lemma coding_insert n P Q s d :
  coding n P (n :: Q) s d ->
  coding n (P ++ [n]) Q (mk_coder (rfc_adapt (co_delta s) (co_h s + 1) (co_first s)) 0 (co_h s + 1) false)
    (decode_step (co_delta s) d).
Proof.
  intros [H1 H2 H3 H4 H5 H6 H7].
  assert (below n (n :: Q) = below n Q) as Eb by (unfold below; cbn; by rewrite Z.ltb_irrefl). rewrite Eb in H2.
  assert (upto n (P ++ [n]) = upto n P ++ [n]) as Eu by (by rewrite upto_snoc, Z.leb_refl).
  assert (zlen (de_out d) = zlen (upto n P) + zlen (below n Q)) as El by by rewrite H2, zlen_app.
  pose proof (zlen_nonneg (upto n P)) as Hp. pose proof (zlen_nonneg (below n Q)) as Hb.
  assert (de_i d + co_delta s = (n - de_n d) * (zlen (de_out d) + 1) + zlen (upto n P)) as Ei by (rewrite H4, H3; lia).
  assert ((de_i d + co_delta s) / (zlen (de_out d) + 1) = n - de_n d /\
    (de_i d + co_delta s) mod (zlen (de_out d) + 1) = zlen (upto n P)) as [Ed Em].
  { rewrite Ei, Z.add_comm, Z.div_add, Z.mod_add, Z.div_small, Z.mod_small by lia. lia. }
  assert (de_out (decode_step (co_delta s) d) = (upto n P ++ [n]) ++ below n Q) as Eo.
  { unfold decode_step. cbn [de_out]. rewrite Em, Ed, zlen_to_nat, H2. unfold insert_at.
    rewrite take_app_length, drop_app_length, <- app_assoc. cbn. do 2 f_equal. lia. }
  constructor; rewrite ?Eo, ?Eu; unfold decode_step; cbn [co_bias co_delta co_h co_first de_n de_i de_bias].
  - by rewrite H3, H7.
  - done.
  - rewrite H3, El, !zlen_app. change (zlen [n]) with 1. lia.
  - rewrite Ed, Em, zlen_app. change (zlen [n]) with 1. lia.
  - done.
  - rewrite Em. lia.
  - rewrite Em. symmetry. apply Z.eqb_neq. lia.
Qed.

(** A pass over the input. *)
Lemma rfc_pass_decodes n Q P s d :
  coding n P Q s d ->
  exists d', decodes (fst (rfc_pass n Q s)) d d' /\ coding n (P ++ Q) [] (snd (rfc_pass n Q s)) d' /\
  Forall digit (fst (rfc_pass n Q s)).
Proof.
  revert P s d. induction Q as [|c Q IH]; intros P s d Hc; cbn [rfc_pass].
  - exists d. rewrite app_nil_r. split; [apply decodes_nil|]. by split; [|constructor].
  - replace (P ++ c :: Q) with ((P ++ [c]) ++ Q) by (by rewrite <- app_assoc).
    destruct (Z.ltb_spec c n) as [Hlt|Hge].
    + apply IH. destruct Hc as [H1 H2 H3 H4 H5 H6 H7].
      assert (upto n (P ++ [c]) = upto n P ++ [c]) as Eu by (rewrite upto_snoc, (proj2 (Z.leb_le _ _)) by lia; done).
      assert (below n (c :: Q) = c :: below n Q) as Eb by (unfold below; cbn; by rewrite (proj2 (Z.ltb_lt _ _))).
      constructor; cbn [co_bias co_delta co_h co_first]; rewrite ?Eu; try done.
      * by rewrite H2, Eb, <- app_assoc.
      * rewrite H4, zlen_app. change (zlen [c]) with 1. lia.
      * lia.
    + destruct (Z.eqb_spec c n) as [->|Hne].
      * pose proof (coding_insert n P Q s d Hc) as Hi. destruct (IH _ _ _ Hi) as (d' & Hd & Hc' & Hf).
        destruct (rfc_pass n Q _) as [l s']. cbn [fst snd] in *. exists d'.
        destruct Hc as [H1 _ _ _ H5 _ _]. rewrite H1. split; [|split; [done|]].
        -- eapply decodes_app; [by apply decodes_number|done].
        -- apply Forall_app. split; [by apply number_spec|done].
      * apply IH. destruct Hc as [H1 H2 H3 H4 H5 H6 H7].
        assert (upto n (P ++ [c]) = upto n P) as Eu by (rewrite upto_snoc, (proj2 (Z.leb_gt _ _)) by lia; apply app_nil_r).
        assert (below n (c :: Q) = below n Q) as Eb by (unfold below; cbn; by rewrite (proj2 (Z.ltb_ge _ _)) by lia).
        constructor; rewrite ?Eu; try done. by rewrite H2, Eb.
Qed.

(** ** The least code point *)
Lemma least_some n cps m :
  least n cps = Some m -> n <= m /\ m ∈ cps /\ forall c, c ∈ cps -> n <= c -> m <= c.
Proof.
  revert m. induction cps as [|c cps IH]; intros m; cbn; [done|].
  fold (least n cps). destruct (Z.leb_spec n c).
  - destruct (least n cps) as [v|] eqn:El; intros [= <-].
    + destruct (IH v eq_refl) as (Hv & Hin & Hmin). split; [lia|]. split.
      * destruct (Z.min_spec c v) as [[_ ->]|[_ ->]]; [by left|by right].
      * intros x [->|Hx]%elem_of_cons Hn; [lia|]. specialize (Hmin x Hx Hn). lia.
    + split; [done|]. split; [by left|]. intros x [->|Hx]%elem_of_cons Hn; [lia|]. exfalso. clear IH.
      revert El Hx. induction cps as [|y cps IH]; [by intros _ ?%elem_of_nil|]. cbn. fold (least n cps).
      destruct (Z.leb_spec n y); [done|]. intros El [->|Hx]%elem_of_cons; [lia|by apply IH].
  - intros Hm. destruct (IH m Hm) as (Hv & Hin & Hmin). split; [done|]. split; [by right|].
    intros x [->|Hx]%elem_of_cons Hn; [lia|]. by apply Hmin.
Qed.

Lemma least_none n cps : least n cps = None -> forall c, c ∈ cps -> c < n.
Proof.
  induction cps as [|y cps IH]; [by intros _ c ?%elem_of_nil|]. cbn. fold (least n cps).
  destruct (Z.leb_spec n y); [done|]. intros El c [->|Hx]%elem_of_cons; [done|by apply IH].
Qed.

Lemma filter_same {A} (f g : A -> bool) l : (forall x, x ∈ l -> f x = g x) -> List.filter f l = List.filter g l.
Proof.
  induction l as [|x l IH]; intros H; [done|]. cbn. rewrite H by by left. rewrite IH; [done|].
  intros y Hy. apply H. by right.
Qed.

Lemma filter_all {A} (f : A -> bool) l : (forall x, x ∈ l -> f x = true) -> List.filter f l = l.
Proof.
  induction l as [|x l IH]; intros H; [done|]. cbn. rewrite H by by left. rewrite IH; [done|].
  intros y Hy. apply H. by right.
Qed.

(** How many are left after a pass. *)
Definition above (n : Z) (cps : list Z) : nat := length (List.filter (fun c => n <=? c) cps).

Lemma above_less n m cps : least n cps = Some m -> (above (m + 1) cps < above n cps)%nat.
Proof.
  intros Hl. destruct (least_some n cps m Hl) as (Hn & Hin & _). clear Hl. unfold above.
  assert (forall l, (above (m + 1) l <= above n l)%nat) as Hle.
  { unfold above. induction l as [|x l IH]; [done|]. cbn. destruct (Z.leb_spec (m + 1) x), (Z.leb_spec n x); cbn; lia. }
  induction cps as [|x cps IH]; [by apply elem_of_nil in Hin|]. cbn. specialize (Hle cps). unfold above in Hle.
  apply elem_of_cons in Hin as [->|Hin].
  - rewrite (proj2 (Z.leb_gt _ _)), (proj2 (Z.leb_le _ _)) by lia. cbn. lia.
  - specialize (IH Hin). destruct (Z.leb_spec (m + 1) x), (Z.leb_spec n x); cbn; lia.
Qed.

Lemma above_length n cps : (above n cps <= length cps)%nat.
Proof. apply List.filter_length_le. Qed.

Lemma above_zero n cps : above n cps = 0%nat -> least n cps = None.
Proof.
  unfold above. induction cps as [|c cps IH]; [done|]. cbn. fold (least n cps). destruct (Z.leb_spec n c); [done|]. apply IH.
Qed.

(** More passes than code points change nothing. *)
Lemma rfc_loop_passes p q n cps s :
  (above n cps <= p)%nat -> (above n cps <= q)%nat -> rfc_loop p n cps s = rfc_loop q n cps s.
Proof.
  revert q n s. induction p as [|p IH]; intros q n s Hp Hq.
  - destruct q; cbn [rfc_loop]; rewrite ?(above_zero n cps) by lia; done.
  - destruct (least n cps) as [m|] eqn:El; [|by destruct q; cbn [rfc_loop]; rewrite El].
    pose proof (above_less n m cps El). destruct q as [|q]; [lia|]. cbn [rfc_loop]. rewrite El.
    destruct (rfc_pass m cps _) as [l s']. f_equal. apply IH; lia.
Qed.

Lemma rfc_loop_decodes passes n cps s d :
  coding n [] cps s d -> (above n cps <= passes)%nat ->
  exists d', decodes (rfc_loop passes n cps s) d d' /\ de_out d' = cps /\ Forall digit (rfc_loop passes n cps s).
Proof.
  revert n s d. induction passes as [|passes IH]; intros n s d Hc Hp; cbn [rfc_loop].
  all: destruct (least n cps) as [m|] eqn:El.
  2, 4: exists d; split; [apply decodes_nil|]; split; [|constructor]; rewrite (cod_out _ _ _ _ _ Hc); cbn;
    apply filter_all; intros x Hx; apply Z.ltb_lt; by apply (least_none n cps).
  - pose proof (above_less n m cps El). lia.
  - destruct (least_some n cps m El) as (Hn & _ & Hmin).
    assert (coding m [] cps (mk_coder (co_bias s) (co_delta s + (m - n) * (co_h s + 1)) (co_h s) (co_first s)) d) as Hm.
    { destruct Hc as [H1 H2 H3 H4 H5 H6 H7]. constructor; cbn [co_bias co_delta co_h co_first]; try done.
      - rewrite H2. cbn. apply filter_same. intros x Hx. destruct (Z.ltb_spec x n), (Z.ltb_spec x m); try lia.
        specialize (Hmin x Hx). lia.
      - rewrite H4. change (zlen (upto _ [])) with 0. lia.
      - pose proof (zlen_nonneg (de_out d)). nia. }
    destruct (rfc_pass_decodes m cps [] _ d Hm) as (d1 & Hd1 & Hc1 & Hf1).
    destruct (rfc_pass m cps _) as [l s1]. cbn [fst snd app] in *.
    destruct (IH (m + 1) (mk_coder (co_bias s1) (co_delta s1 + 1) (co_h s1) (co_first s1)) d1) as (d2 & Hd2 & Ho & Hf2).
    + destruct Hc1 as [H1 H2 H3 H4 H5 H6 H7].
      assert (upto m cps = below (m + 1) cps) as Eu.
      { apply filter_same. intros x _. destruct (Z.leb_spec x m), (Z.ltb_spec x (m + 1)); lia. }
      assert (below m [] = []) as Eb by done. rewrite Eb, app_nil_r in H2.
      constructor; cbn [co_bias co_delta co_h co_first]; try done.
      * by rewrite H2, Eu.
      * rewrite H4. rewrite H3, H2. change (zlen (upto _ [])) with 0. lia.
      * lia.
    + pose proof (above_less n m cps El). lia.
    + exists d2. split; [by eapply decodes_app|]. split; [done|]. by apply Forall_app.
Qed.

(** ** The texts *)
Lemma rfc_digits_decode cps :
  Forall digit (rfc_digits cps) /\
  decode_loop (length (rfc_digits cps)) (map digit_code (rfc_digits cps))
    (mk_decoder initial_n 0 initial_bias (basics cps)) = Some cps.
Proof.
  destruct (rfc_loop_decodes (length cps) initial_n cps (mk_coder initial_bias 0 (zlen (basics cps)) true)
    (mk_decoder initial_n 0 initial_bias (basics cps))) as (d & Hd & Ho & Hf).
  - constructor; try done; cbn [de_out co_h]; lia.
  - apply above_length.
  - split; [done|]. destruct (Hd [] 0%nat) as (f & _ & E). rewrite Nat.add_0_r, app_nil_r in E.
    unfold rfc_digits. rewrite E. destruct f; cbn; by rewrite Ho.
Qed.

Lemma split_last_none l : delimiter ∉ l -> split_last l = None.
Proof.
  induction l as [|c l IH]; [done|]. rewrite not_elem_of_cons. intros [Hc Hl]. cbn. rewrite IH by done.
  by rewrite (proj2 (Z.eqb_neq _ _)) by congruence.
Qed.

Lemma split_last_app l k : delimiter ∉ k -> split_last (l ++ delimiter :: k) = Some (l, k).
Proof.
  intros Hk. induction l as [|c l IH]; cbn; [by rewrite split_last_none|]. by rewrite IH.
Qed.

Lemma codes_plain l : Forall digit l -> delimiter ∉ map digit_code l.
Proof.
  intros Hf Hin. apply list_elem_of_fmap in Hin as (d & E & Hin). apply (proj1 (Forall_forall _ _) Hf) in Hin.
  pose proof (digit_code_ascii d Hin). unfold delimiter in E. lia.
Qed.

Lemma rfc_decode_encode cps : rfc_decode (rfc_encode cps) = Some cps.
Proof.
  destruct (rfc_digits_decode cps) as [Hf Hd]. apply codes_plain in Hf. unfold rfc_decode, rfc_encode.
  destruct (Z.ltb_spec 0 (zlen (basics cps))) as [Hb|Hb].
  - change ([delimiter] ++ map digit_code (rfc_digits cps)) with (delimiter :: map digit_code (rfc_digits cps)).
    rewrite split_last_app by done. by rewrite length_map.
  - assert (basics cps = []) as E.
    { destruct (basics cps) as [|x l]; [done|]. rewrite zlen_cons in Hb. pose proof (zlen_nonneg l). lia. }
    rewrite E in *. cbn [app]. rewrite split_last_none by done. by rewrite length_map.
Qed.
