(* ===== verification/UvIdnaDecode.v ===== *)
(** libuv, [idna.c]: what the UTF-8 decoder gives, and the loop on the code
    points of a text as a loop on a list. *)
From S2P Require Import Prelude.
From S2P Require Import Utf8.
From S2P Require Import UvInet.
From S2P Require Import UvInetProofs.
From S2P Require Import UvIdna.

#[local] Set Warnings "-clear-no-such-hyp".

(** ** The bits *)
Lemma land_lxor a b c : Z.land a (Z.lxor b c) = Z.lxor (Z.land a b) (Z.land a c).
Proof.
  apply Z.bits_inj'. intros n _. rewrite Z.land_spec, !Z.lxor_spec, !Z.land_spec.
  by destruct (Z.testbit a n), (Z.testbit b n), (Z.testbit c n).
Qed.

Lemma continuation x : 0 <= x < 64 -> Z.land 192 (128 + x) = 128 /\ Z.land (128 + x) 63 = x /\ Z.lor 128 x = 128 + x.
Proof.
  intros Hx. pose proof (forall_below 64 (fun x => (Z.land 192 (128 + x) =? 128) && (Z.land (128 + x) 63 =? x) &&
    (Z.lor 128 x =? 128 + x)) x eq_refl Hx) as H. cbv beta in H. rewrite !andb_true_iff, !Z.eqb_eq in H. tauto.
Qed.

Lemma combine a b c d : 0 <= a < 8 -> 0 <= b < 64 -> 0 <= c < 64 -> 0 <= d < 64 ->
  Z.lor (Z.lor (Z.lor (u32 (Z.shiftl a 18)) (u32 (Z.shiftl b 12))) (u32 (Z.shiftl c 6))) d =
  262144 * a + 4096 * b + 64 * c + d.
Proof.
  intros Ha Hb Hc Hd. rewrite !u32_small by (rewrite Z.shiftl_mul_pow2 by lia;
    change (2 ^ 18) with 262144; change (2 ^ 12) with 4096; change (2 ^ 6) with 64; lia).
  rewrite <- !Z.lor_assoc. rewrite (Z.lor_comm (Z.shiftl c 6)), lor_low_shifted by (change (2 ^ 6) with 64; lia).
  rewrite (Z.lor_comm (Z.shiftl b 12)), lor_low_shifted by (change (2 ^ 6) with 64; change (2 ^ 12) with 4096; lia).
  rewrite (Z.lor_comm (Z.shiftl a 18)), lor_low_shifted
    by (change (2 ^ 6) with 64; change (2 ^ 12) with 4096; change (2 ^ 18) with 262144; lia).
  change (2 ^ 6) with 64; change (2 ^ 12) with 4096; change (2 ^ 18) with 262144. lia.
Qed.

Lemma utf8_result_run {S} a b c d min p (s : S) :
  0 <= a < 8 -> 0 <= b < 64 -> 0 <= c < 64 -> 0 <= d < 64 ->
  let v := 262144 * a + 4096 * b + 64 * c + d in
  scalar v -> min <= v ->
  utf8_result a (128 + b) (128 + c) (128 + d) min p s = Done (v, p) s.
Proof.
  intros Ha Hb Hc Hd v [Hv Hs] Hm. unfold utf8_result. rewrite !land_lxor.
  destruct (continuation b Hb) as (-> & -> & _). destruct (continuation c Hc) as (-> & -> & _).
  destruct (continuation d Hd) as (-> & -> & _). change (Z.lxor (Z.lxor 128 128) 128 =? 128) with true. cbn [negb].
  rewrite combine by done. fold v. cbv zeta. rewrite (proj2 (Z.ltb_ge v min)), (proj2 (Z.ltb_ge _ v)) by lia.
  by replace ((55296 <=? v) && (v <=? 57343)) with false by (symmetry; apply not_true_iff_false; lia).
Qed.

Lemma utf8_lead n c : 0 <= n < 8 -> 0 <= c < 32 ->
  Z.land (240 + n) 7 = n /\ (c < 16 -> Z.land (224 + c) 15 = c) /\ Z.land (192 + c) 31 = c.
Proof.
  intros Hn Hc. split; [|split; [intros Hc'|]].
  - pose proof (forall_below 8 (fun x => Z.land (240 + x) 7 =? x) n eq_refl Hn) as H. by apply Z.eqb_eq in H.
  - pose proof (forall_below 16 (fun x => Z.land (224 + x) 15 =? x) c eq_refl ltac:(lia)) as H. by apply Z.eqb_eq in H.
  - pose proof (forall_below 32 (fun x => Z.land (192 + x) 31 =? x) c eq_refl Hc) as H. by apply Z.eqb_eq in H.
Qed.

(** ** [uv__utf8_decode1] on an encoded code point *)
Lemma rd_off {S} pre l k i v (s : S) : i = zlen pre + Z.of_nat k -> l !! k = Some v -> rd (pre ++ l) i s = Done v s.
Proof.
  intros -> Hl. unfold rd, zlen. rewrite (proj2 (Z.leb_le _ _)) by lia.
  rewrite lookup_app_r by lia. replace (Z.to_nat (Z.of_nat (length pre) + Z.of_nat k) - length pre)%nat with k by lia.
  by rewrite Hl.
Qed.

Lemma decode_utf8 {S} pre c post pe (s : S) :
  scalar c -> zlen pre + zlen (utf8 c) <= pe ->
  uv__utf8_decode1 (pre ++ utf8 c ++ post) (zlen pre) pe s = Done (c, zlen pre + zlen (utf8 c)) s.
Proof.
  intros Hc Hpe. pose proof (zlen_nonneg pre) as Hp0. destruct Hc as [Hc Hs]. unfold uv__utf8_decode1. unfold utf8 in *.
  destruct (Z.ltb_spec c 128) as [H7|H7].
  { rewrite (bind_rd _ _ c) by by apply rd_app. by rewrite (proj2 (Z.ltb_lt _ _)). }
  destruct (Z.ltb_spec c 2048) as [H11|H11]; [|destruct (Z.ltb_spec c 65536) as [H16|H16]].
  - change (zlen [_; _]) with 2 in *. cbn [app].
    assert (0 <= c / 64 < 32 /\ 0 <= c mod 64 < 64 /\ 2 <= c / 64) as (Hq & Hm & Hq2) by zdm.
    assert (c = 64 * (c / 64) + c mod 64) as Ec by zdm. revert Hq Hm Hq2 Ec.
    generalize (c / 64) (c mod 64). intros q m Hq Hm Hq2 ->.
    rewrite (bind_rd _ _ (192 + q)) by (apply (rd_off _ _ 0); [lia|done]). rewrite (proj2 (Z.ltb_ge _ 128)) by lia.
    unfold uv__utf8_decode1_slow. rewrite (proj2 (Z.ltb_ge 247 _)) by lia.
    rewrite (proj2 (Z.eqb_neq _ 2)), (proj2 (Z.eqb_neq _ 1)), (proj2 (Z.ltb_ge 239 _)), (proj2 (Z.ltb_ge 223 _)),
      (proj2 (Z.ltb_lt 191 _)) by lia. cbn [negb andb orb].
    rewrite (bind_rd _ _ (128 + m)) by (apply (rd_off _ _ 1); [lia|done]).
    destruct (utf8_lead 0 q) as (_ & _ & ->); [lia..|].
    destruct (continuation q) as (_ & _ & ->); [lia|]. rewrite <- Z.add_assoc.
    rewrite <- (utf8_result_run 0 0 q m 128 (zlen pre + 2)) by (unfold scalar; lia). f_equal; lia.
  - change (zlen [_; _; _]) with 3 in *. cbn [app].
    assert (0 <= c / 4096 < 16 /\ 0 <= c / 64 mod 64 < 64 /\ 0 <= c mod 64 < 64) as (Hq & Hr & Hm) by zdm.
    assert (c = 4096 * (c / 4096) + 64 * (c / 64 mod 64) + c mod 64) as Ec by zdm. revert Hq Hr Hm Ec.
    generalize (c / 4096) (c / 64 mod 64) (c mod 64). intros q r m Hq Hr Hm ->.
    rewrite (bind_rd _ _ (224 + q)) by (apply (rd_off _ _ 0); [lia|done]). rewrite (proj2 (Z.ltb_ge _ 128)) by lia.
    unfold uv__utf8_decode1_slow. rewrite (proj2 (Z.ltb_ge 247 _)) by lia.
    rewrite (proj2 (Z.eqb_neq _ 2)), (proj2 (Z.eqb_neq _ 1)), (proj2 (Z.ltb_ge 239 _)), (proj2 (Z.ltb_lt 223 _))
      by lia. cbn [negb andb orb].
    rewrite (bind_rd _ _ (128 + r)) by (apply (rd_off _ _ 1); [lia|done]).
    rewrite (bind_rd _ _ (128 + m)) by (apply (rd_off _ _ 2); [lia|done]).
    destruct (utf8_lead 0 q) as (_ & E15 & _); [lia..|]. rewrite E15 by lia.
    destruct (continuation q) as (_ & _ & ->); [lia|].
    rewrite <- (utf8_result_run 0 q r m 2048 (zlen pre + 3)) by (unfold scalar; lia). f_equal; lia.
  - change (zlen [_; _; _; _]) with 4 in *. cbn [app].
    assert (0 <= c / 262144 < 8 /\ 0 <= c / 4096 mod 64 < 64 /\ 0 <= c / 64 mod 64 < 64 /\ 0 <= c mod 64 < 64)
      as (Ho & Hq & Hr & Hm) by zdm.
    assert (c = 262144 * (c / 262144) + 4096 * (c / 4096 mod 64) + 64 * (c / 64 mod 64) + c mod 64) as Ec by zdm.
    revert Ho Hq Hr Hm Ec.
    generalize (c / 262144) (c / 4096 mod 64) (c / 64 mod 64) (c mod 64). intros o q r m Ho Hq Hr Hm ->.
    rewrite (bind_rd _ _ (240 + o)) by (apply (rd_off _ _ 0); [lia|done]). rewrite (proj2 (Z.ltb_ge _ 128)) by lia.
    unfold uv__utf8_decode1_slow. rewrite (proj2 (Z.ltb_ge 247 _)) by lia.
    rewrite (proj2 (Z.eqb_neq _ 2)), (proj2 (Z.eqb_neq _ 1)), (proj2 (Z.ltb_lt 239 _)) by lia. cbn [negb andb orb].
    rewrite (bind_rd _ _ (128 + q)) by (apply (rd_off _ _ 1); [lia|done]).
    rewrite (bind_rd _ _ (128 + r)) by (apply (rd_off _ _ 2); [lia|done]).
    rewrite (bind_rd _ _ (128 + m)) by (apply (rd_off _ _ 3); [lia|done]).
    destruct (utf8_lead o 0) as (-> & _); [lia..|].
    rewrite <- (utf8_result_run o q r m 65536 (zlen pre + 4)) by (unfold scalar; lia). f_equal; lia.
Qed.

(** ** On any bytes *)
Definition codepoint (c : Z) : Prop := 0 <= c <= 1114111.

Lemma land_low_range a n m : 0 <= n -> m = Z.ones n -> 0 <= Z.land a m < 2 ^ n.
Proof. intros Hn Em. rewrite (land_ones_mod n) by done. apply Z.mod_pos_bound. lia. Qed.

Lemma utf8_result_total a b c d min p :
  0 <= a < 8 -> exists v, (v = UINT_MAX \/ codepoint v) /\ forall S (s : S), utf8_result a b c d min p s = Done (v, p) s.
Proof.
  intros Ha. unfold utf8_result. destruct (negb _); [exists UINT_MAX; split; [by left|done]|].
  pose proof (land_low_range b 6 63 ltac:(lia) eq_refl). pose proof (land_low_range c 6 63 ltac:(lia) eq_refl).
  pose proof (land_low_range d 6 63 ltac:(lia) eq_refl). change (2 ^ 6) with 64 in *. rewrite combine by done. cbv zeta.
  destruct (_ <? min); [exists UINT_MAX; split; [by left|done]|].
  destruct (Z.ltb_spec 1114111 (262144 * a + 4096 * Z.land b 63 + 64 * Z.land c 63 + Z.land d 63)) as [Hl|Hl];
    [exists UINT_MAX; split; [by left|done]|].
  destruct (_ && _); [exists UINT_MAX; split; [by left|done]|].
  exists (262144 * a + 4096 * Z.land b 63 + 64 * Z.land c 63 + Z.land d 63). split; [right; unfold codepoint; lia|done].
Qed.

Lemma rd_some mem i : 0 <= i < zlen mem -> exists v, v ∈ mem /\ forall S (s : S), rd mem i s = Done v s.
Proof.
  intros Hi. destruct (lookup_lt_is_Some_2 mem (Z.to_nat i)) as [v Hv]; [unfold zlen in Hi; lia|].
  exists v. split; [by eapply list_elem_of_lookup_2|]. intros S s. unfold rd. rewrite (proj2 (Z.leb_le _ _)) by lia. by rewrite Hv.
Qed.

(** The decoder goes on, and reads the next three bytes at most. *)
Lemma decode_total mem p pe :
  Forall octet mem -> 0 <= p -> p + 3 < zlen mem ->
  exists c p', (c = UINT_MAX \/ codepoint c) /\ p < p' /\
  forall S (s : S), uv__utf8_decode1 mem p pe s = Done (c, p') s.
Proof.
  intros Hf Hp Hz.
  destruct (rd_some mem p) as (a & Ha & Ea); [lia|]. destruct (rd_some mem (p + 1)) as (b & _ & Eb); [lia|].
  destruct (rd_some mem (p + 1 + 1)) as (c & _ & Ec); [lia|].
  destruct (rd_some mem (p + 1 + 2)) as (d & _ & Ed); [lia|].
  apply (proj1 (Forall_forall _ _) Hf) in Ha. unfold octet in Ha. unfold uv__utf8_decode1.
  destruct (Z.ltb_spec a 128) as [H7|H7].
  { exists a, (p + 1). split; [right; unfold codepoint; lia|]. split; [lia|]. intros S s. rewrite (bind_done _ _ _ _ _ (Ea S s)).
    by rewrite (proj2 (Z.ltb_lt _ _)). }
  cut (exists v p', (v = UINT_MAX \/ codepoint v) /\ p < p' /\
    forall S (s : S), uv__utf8_decode1_slow mem (p + 1) pe a s = Done (v, p') s).
  { intros (v & p' & Hv & Hp' & E). exists v, p'. split; [done|]. split; [done|]. intros S s.
    rewrite (bind_done _ _ _ _ _ (Ea S s)). by rewrite (proj2 (Z.ltb_ge _ _)). }
  unfold uv__utf8_decode1_slow. destruct (247 <? a).
  { exists UINT_MAX, (p + 1). split; [by left|]. split; [lia|done]. }
  destruct (_ && (239 <? a)); [|destruct (_ && (223 <? a)); [|destruct (191 <? a)]].
  - destruct (utf8_result_total (Z.land a 7) b c d 65536 (p + 1 + 3)) as (v & Hv & E);
      [apply (land_low_range a 3 7); done || lia|].
    exists v, (p + 1 + 3). split; [done|]. split; [lia|]. intros S s. by rewrite (bind_done _ _ _ _ _ (Eb S s)),
      (bind_done _ _ _ _ _ (Ec S s)), (bind_done _ _ _ _ _ (Ed S s)).
  - destruct (utf8_result_total 0 (Z.lor 128 (Z.land a 15)) b c 2048 (p + 1 + 2)) as (v & Hv & E); [lia|].
    exists v, (p + 1 + 2). split; [done|]. split; [lia|]. intros S s. by rewrite (bind_done _ _ _ _ _ (Eb S s)),
      (bind_done _ _ _ _ _ (Ec S s)).
  - destruct (utf8_result_total 0 128 (Z.lor 128 (Z.land a 31)) b 128 (p + 1 + 1)) as (v & Hv & E); [lia|].
    exists v, (p + 1 + 1). split; [done|]. split; [lia|]. intros S s. by rewrite (bind_done _ _ _ _ _ (Eb S s)).
  - exists UINT_MAX, (p + 1). split; [by left|]. split; [lia|done].
Qed.

(** ** The code points of a text *)
(** What the loop on [p <= pe] visits. *)
Inductive decoded (mem : list Z) (pe : Z) : Z -> list Z -> Prop :=
| dec_past p : pe < p -> decoded mem pe p []
| dec_last p c p' :
    p <= pe -> (forall s : list Z, uv__utf8_decode1 mem p pe s = Done (c, p') s) -> pe < p' -> decoded mem pe p []
| dec_more p c p' cps :
    p < p' <= pe -> (forall s : list Z, uv__utf8_decode1 mem p pe s = Done (c, p') s) ->
    decoded mem pe p' cps -> decoded mem pe p (c :: cps).

(** The loop on a list. *)
Fixpoint fold_cps {A R} (cps : list Z) (body : Z -> A -> T (step A R)) (a : A) : T (A + R) :=
  match cps with
  | [] => ret (inl a)
  | c :: cps =>
      let* n := body c a in
      match n with
      | Next a => fold_cps cps body a
      | Break a => ret (inl a)
      | Return r => ret (inr r)
      end
  end.

Lemma foreach_run {A R} mem pe p cps (body : Z -> A -> T (step A R)) a s fuel :
  decoded mem pe p cps -> (turns p pe <= fuel)%nat -> p <= pe + 1 ->
  foreach_codepoint mem fuel p pe body a s = fold_cps cps body a s.
Proof.
  intros Hd. revert fuel a s. induction Hd as [p Hp|p c p' Hp E Hp'|p c p' cps Hp E Hd IH]; intros fuel a s Hf Hle.
  all: unfold turns in *; destruct fuel as [|fuel]; [lia|]; cbn [foreach_codepoint fold_cps].
  - by rewrite (proj2 (Z.leb_gt _ _)).
  - rewrite (proj2 (Z.leb_le _ _)) by done. rewrite (bind_done _ _ _ _ _ (E s)).
    by rewrite (proj2 (Z.leb_gt _ _)).
  - rewrite (proj2 (Z.leb_le _ _)) by lia. rewrite (bind_done _ _ _ _ _ (E s)).
    rewrite (proj2 (Z.leb_le _ _)) by lia. unfold bind. destruct (body c a s) as [n t| | |]; try done.
    destruct n; try done. apply IH; lia.
Qed.

Lemma decoded_total mem pe p :
  Forall octet mem -> 0 <= p -> pe + 3 < zlen mem ->
  exists cps, decoded mem pe p cps /\ Forall (fun c => c = UINT_MAX \/ codepoint c) cps /\ zlen cps <= Z.max 0 (pe - p).
Proof.
  intros Hf Hp Hz.
  assert (forall n p, 0 <= p -> (turns p pe <= n)%nat ->
    exists cps, decoded mem pe p cps /\ Forall (fun c => c = UINT_MAX \/ codepoint c) cps /\ zlen cps <= Z.max 0 (pe - p)) as H;
    [|by apply (H (turns p pe))].
  clear p Hp. unfold turns. induction n as [|n IH]; intros p Hp Hn.
  - exists []. split; [apply dec_past; lia|]. split; [constructor|]. change (zlen []) with 0. lia.
  - destruct (Z.lt_ge_cases pe p) as [Hlt|Hge].
    { exists []. split; [by apply dec_past|]. split; [constructor|]. change (zlen []) with 0. lia. }
    destruct (decode_total mem p pe Hf Hp ltac:(lia)) as (c & p' & Hc & Hp' & E).
    destruct (Z.lt_ge_cases pe p') as [Hlt|Hge'].
    { exists []. split; [by apply (dec_last _ _ p c p'); [|apply E|]|]. split; [constructor|]. change (zlen []) with 0. lia. }
    destruct (IH p' ltac:(lia) ltac:(lia)) as (cps & Hd & Hcs & Hl). exists (c :: cps).
    split; [by apply (dec_more _ _ p c p'); [|apply E|]|]. split; [by constructor|]. rewrite zlen_cons. lia.
Qed.

(** The byte after a text is no lead byte, or has a byte after it. *)
Definition ends (post : list Z) : Prop :=
  exists c post', post = c :: post' /\ 0 <= c < 256 /\ (c < 192 \/ post' <> []).

Lemma decode_end {S} pre post (s : S) : ends post ->
  exists c p', zlen pre < p' /\ forall S (s : S), uv__utf8_decode1 (pre ++ post) (zlen pre) (zlen pre) s = Done (c, p') s.
Proof.
  intros (c & post' & -> & Hc & Hn). pose proof (zlen_nonneg pre). unfold uv__utf8_decode1.
  assert (forall S (s : S), rd (pre ++ c :: post') (zlen pre) s = Done c s) as Ea
    by (intros ? ?; by apply rd_app).
  destruct (Z.ltb_spec c 128).
  { exists c, (zlen pre + 1). split; [lia|]. intros S' s'. rewrite (bind_done _ _ _ _ _ (Ea S' s')).
    by rewrite (proj2 (Z.ltb_lt _ _)). }
  assert (zlen pre + 1 - zlen pre = 1) as E1 by lia.
  destruct (Z.ltb_spec 247 c).
  { exists UINT_MAX, (zlen pre + 1). split; [lia|]. intros S' s'. rewrite (bind_done _ _ _ _ _ (Ea S' s')).
    rewrite (proj2 (Z.ltb_ge _ 128)) by lia. unfold uv__utf8_decode1_slow. by rewrite (proj2 (Z.ltb_lt _ _)). }
  destruct (Z.ltb_spec 191 c).
  - destruct Hn as [|Hn]; [lia|]. destruct post' as [|d post']; [done|].
    destruct (utf8_result_total 0 128 (Z.lor 128 (Z.land c 31)) d 128 (zlen pre + 1 + 1)) as (v & _ & E); [lia|].
    exists v, (zlen pre + 1 + 1). split; [lia|]. intros S' s'. rewrite (bind_done _ _ _ _ _ (Ea S' s')).
    rewrite (proj2 (Z.ltb_ge _ 128)) by lia. unfold uv__utf8_decode1_slow. rewrite (proj2 (Z.ltb_ge 247 _)) by lia.
    rewrite E1. cbn [Z.eqb Pos.eqb negb andb orb]. rewrite (proj2 (Z.ltb_lt 191 _)) by lia.
    by rewrite (bind_rd _ _ d) by (apply (rd_off _ _ 1); [lia|done]).
  - exists UINT_MAX, (zlen pre + 1). split; [lia|]. intros S' s'. rewrite (bind_done _ _ _ _ _ (Ea S' s')).
    rewrite (proj2 (Z.ltb_ge _ 128)) by lia. unfold uv__utf8_decode1_slow. rewrite (proj2 (Z.ltb_ge 247 _)) by lia.
    rewrite E1. cbn [Z.eqb Pos.eqb negb andb orb]. by rewrite (proj2 (Z.ltb_ge 191 _)) by lia.
Qed.

Lemma decoded_utf8s pre cps post :
  Forall scalar cps -> ends post ->
  decoded (pre ++ utf8s cps ++ post) (zlen (pre ++ utf8s cps)) (zlen pre) cps.
Proof.
  revert pre. induction cps as [|c cps IH]; intros pre Hf He.
  - cbn [utf8s map concat app]. rewrite app_nil_r. destruct (decode_end pre post tt He) as (c & p' & Hp & E).
    by apply (dec_last _ _ _ c p'); [|apply E|].
  - apply Forall_cons in Hf as [Hc Hf]. rewrite utf8s_cons. pose proof (zlen_utf8 c). pose proof (zlen_nonneg (utf8s cps)).
    apply (dec_more _ _ _ c (zlen pre + zlen (utf8 c))).
    + rewrite !zlen_app. lia.
    + intros s. rewrite <- app_assoc. apply decode_utf8; [done|]. rewrite !zlen_app. lia.
    + rewrite <- (zlen_app pre), app_assoc. rewrite (app_assoc pre). rewrite <- (app_assoc _ (utf8s cps)). by apply IH.
Qed.
