(* ===== verification/UvIdnaProofs.v ===== *)
(** libuv, [idna.c]: the label that is written is the text that RFC 3492's
    encoder gives, cut off where the destination ends; whole names. *)
From S2P Require Import Prelude.
From S2P Require Import Utf8 UvInet UvInetProofs UvIdna UvPuny UvIdnaDecode.

#[local] Set Warnings "-clear-no-such-hyp".

(** ** Digits *)
Lemma threshold_rfc k bias : 0 <= k < 2 ^ 32 -> 0 <= bias -> threshold k bias = rfc_threshold k bias.
Proof.
  intros Hk Hb. unfold threshold, rfc_threshold. destruct (Z.ltb_spec bias k).
  - rewrite u32_small by lia.
    destruct (Z.leb_spec k (bias + 1)), (Z.leb_spec (bias + 26) k), (Z.ltb_spec 26 (k - bias)); lia.
  - change (26 <? 1) with false. cbv iota. by rewrite (proj2 (Z.leb_le _ _)) by lia.
Qed.

Lemma rd_alphabet {S} t (s : S) : 0 <= t < 36 -> rd alphabet t s = Done (digit_code t) s.
Proof.
  intros Ht. pose proof (forall_below 36 (fun t => (0 <=? t) && bool_decide (alphabet !! Z.to_nat t = Some (digit_code t)))
    t eq_refl Ht) as H. cbv beta in H. apply andb_true_iff in H as [H0 H]. apply bool_decide_eq_true in H.
  unfold rd. by rewrite H0, H.
Qed.

Definition codes (l : list Z) : list Z := map digit_code l.

(** ** Bias adaptation *)
Lemma shrink_rfc f g b delta :
  0 <= delta < 456 * 35 ^ Z.of_nat f -> delta < 456 * 35 ^ Z.of_nat g -> 0 <= b -> b + 36 * Z.of_nat f < 2 ^ 32 ->
  exists b' delta', shrink (S f) b delta = Some (b', delta') /\ 0 <= delta' <= 455 /\ b <= b' <= b + 36 * Z.of_nat f /\
  adapt_loop (S g) b delta = b' + 36 * delta' / (delta' + 38).
Proof.
  revert g b delta. induction f as [|f IH]; intros g b delta Hf Hg Hb H32.
  - change (35 ^ Z.of_nat 0) with 1 in Hf. exists b, delta. cbn [shrink adapt_loop].
    change (35 * 26 / 2) with 455. rewrite (proj2 (Z.ltb_ge _ _)) by lia. repeat split; lia.
  - change (shrink (S (S f)) b delta) with
      (if 35 * 26 / 2 <? delta then shrink (S f) (u32 (b + 36)) (delta / 35) else Some (b, delta)).
    change (35 * 26 / 2) with 455. destruct (Z.ltb_spec 455 delta) as [Hl|Hl].
    + destruct g as [|g]; [change (35 ^ Z.of_nat 0) with 1 in Hg; lia|].
      change (adapt_loop (S (S g)) b delta) with
        (if 455 <? delta then adapt_loop (S g) (b + 36) (delta / 35) else b + 36 * delta / (delta + 38)).
      rewrite (proj2 (Z.ltb_lt _ _)) by done. rewrite u32_small by lia.
      rewrite Nat2Z.inj_succ, Z.pow_succ_r in Hf, Hg by lia.
      destruct (IH g (b + 36) (delta / 35)) as (b' & delta' & E1 & E2 & E3 & E4).
      * split; [apply Z.div_pos; lia|apply Z.div_lt_upper_bound; lia].
      * apply Z.div_lt_upper_bound; lia.
      * lia.
      * lia.
      * exists b', delta'. repeat split; try done; lia.
    + exists b, delta. cbn [adapt_loop]. rewrite (proj2 (Z.ltb_ge _ _)) by lia. repeat split; lia.
Qed.

Lemma rfc_adapt_run s d :
  0 <= pu_delta s < 2 ^ 32 -> 0 <= pu_h s < 2 ^ 32 - 1 -> 0 < pu_todo s < 2 ^ 32 ->
  let b := rfc_adapt (pu_delta s) (pu_h s + 1) (pu_first s) in
  0 <= b <= 1000 /\
  forall a, adapt s d a = Done (mk_puny b 0 (pu_h s + 1) false (pu_todo s - 1) d) a.
Proof.
  intros Hd Hh Ht. unfold rfc_adapt, adapt. cbv zeta. rewrite (u32_small (pu_h s + 1)), (u32_small (pu_todo s - 1)) by lia.
  replace (if pu_first s then pu_delta s / 2 / 350 else pu_delta s / 2)
    with (if pu_first s then pu_delta s / 700 else pu_delta s / 2)
    by (destruct (pu_first s); [by rewrite Z.div_div by lia|done]).
  set (e := if pu_first s then pu_delta s / 700 else pu_delta s / 2).
  assert (0 <= e /\ 2 * e <= pu_delta s) as [He He2].
  { unfold e. destruct (pu_first s); split; try (apply Z.div_pos; lia); zdm. }
  assert (0 <= e / (pu_h s + 1) <= e) as Hq.
  { split; [apply Z.div_pos; lia|]. apply Z.div_le_upper_bound; [lia|]. nia. }
  rewrite (u32_small (e + e / (pu_h s + 1))) by lia.
  set (v := e + e / (pu_h s + 1)). assert (0 <= v < 2 ^ 32) as Hv by (unfold v; lia).
  assert (v < 456 * 35 ^ Z.of_nat (S (Z.to_nat (Z.log2 v)))) as Hg.
  { destruct (Z.eq_dec v 0) as [->|]; [done|]. pose proof (Z.log2_spec v ltac:(lia)) as [_ Hl].
    rewrite Nat2Z.inj_succ, Z2Nat.id by apply Z.log2_nonneg.
    pose proof (Z.pow_le_mono_l 2 35 (Z.succ (Z.log2 v)) ltac:(lia)). lia. }
  destruct (shrink_rfc 7 (S (Z.to_nat (Z.log2 v))) 0 v) as (b' & v' & E1 & E2 & E3 & E4); [cbn; lia|done|done|done|].
  unfold halvings. rewrite E4. change shrink_fuel with 8%nat. rewrite E1.
  assert (0 <= 36 * v' / (v' + 38) <= 36) as Hr
    by (split; [apply Z.div_pos; lia|apply Z.div_le_upper_bound; lia]).
  change (Z.of_nat 7) with 7 in E3. rewrite (u32_small (36 * v')), (u32_small (v' + 38)), u32_small by lia.
  split; [lia|done].
Qed.

(** ** The destination *)
Section Out.
Variables (d0 de : Z) (a0 : list Z).
Hypothesis Hd0 : 0 <= d0 <= de.
Hypothesis Ha0 : de <= zlen a0.

(** Where [d] is, and the array, when the text [txt] is written from [d0] on. *)
Definition pos (txt : list Z) : Z := d0 + Z.min (zlen txt) (de - d0).
Definition arr (txt : list Z) : list Z := over d0 (take (Z.to_nat (de - d0)) txt) a0.

Lemma pos_nil : pos [] = d0.
Proof. unfold pos. change (zlen []) with 0. lia. Qed.
Lemma arr_nil : arr [] = a0.
Proof. unfold arr. rewrite take_nil. apply over_nil. Qed.

Lemma put_run c txt : octet c -> put de c (pos txt) (arr txt) = Done (pos (txt ++ [c])) (arr (txt ++ [c])).
Proof.
  intros Hc. unfold put, pos, arr. rewrite zlen_app. change (zlen [c]) with 1. pose proof (zlen_nonneg txt).
  destruct (Z.ltb_spec (d0 + Z.min (zlen txt) (de - d0)) de) as [Hlt|Hge].
  - rewrite !take_ge by (rewrite ?length_app; unfold zlen in *; cbn; lia). rewrite Z.min_l by lia.
    rewrite bind_wr by (rewrite ?zlen_over; lia). rewrite over_over by lia. unfold ret, u8.
    rewrite Z.mod_small by (unfold octet in Hc; change (2 ^ 8) with 256; lia). f_equal. lia.
  - rewrite take_app_le by (unfold zlen in *; lia). unfold ret. f_equal. lia.
Qed.

Lemma bind_put {B} c txt (k : Z -> T B) :
  octet c -> bind (put de c (pos txt)) k (arr txt) = k (pos (txt ++ [c])) (arr (txt ++ [c])).
Proof. intros Hc. apply bind_done. by apply put_run. Qed.

Lemma puts_run l txt : Forall octet l -> puts de l (pos txt) (arr txt) = Done (pos (txt ++ l)) (arr (txt ++ l)).
Proof.
  revert txt. induction l as [|c l IH]; intros txt Hf; cbn [puts]; [by rewrite app_nil_r|].
  apply Forall_cons in Hf as [Hc Hf]. rewrite bind_put by done. rewrite IH by done. by rewrite <- app_assoc.
Qed.

Lemma emit_run fuel bias k q txt :
  0 <= q < 10 ^ Z.of_nat fuel -> q < 2 ^ 32 -> 0 <= bias -> 0 <= k -> k + 36 * (Z.of_nat fuel + 1) < 2 ^ 32 ->
  let txt' := txt ++ codes (varint (S fuel) bias k q) in
  emit_digits (S fuel) de bias k q (pos txt) (arr txt) = Done (pos txt') (arr txt').
Proof.
  revert k q txt. induction fuel as [|fuel IH]; intros k q txt Hq H32 Hb Hk Hk32; pose proof (rfc_threshold_range k bias) as Ht.
  - change (10 ^ Z.of_nat 0) with 1 in Hq. assert (q = 0) as -> by lia. cbn [emit_digits varint].
    rewrite threshold_rfc by lia. rewrite (proj2 (Z.ltb_lt 0 _)) by lia.
    rewrite (bind_rd _ _ (digit_code 0)) by by apply rd_alphabet. by apply put_run.
  - change (varint (S (S fuel)) bias k q) with
      (let t := rfc_threshold k bias in
       if q <? t then [q] else t + (q - t) mod (36 - t) :: varint (S fuel) bias (k + 36) ((q - t) / (36 - t))).
    remember (S fuel) as f eqn:Ef. cbn [emit_digits]. cbv zeta. rewrite threshold_rfc by lia.
    destruct (Z.ltb_spec q (rfc_threshold k bias)) as [Hlt|Hge].
    + rewrite (bind_rd _ _ (digit_code q)) by (apply rd_alphabet; lia). apply put_run.
      pose proof (digit_code_ascii q ltac:(lia)). unfold octet. lia.
    + pose proof (step_quotient k bias q Hge) as (Hv & Hd & E). cbv zeta in Hv, Hd, E.
      rewrite (u32_small (36 - _)), (u32_small (q - _)) by lia.
      rewrite (u32_small (_ + _ mod _)) by lia. rewrite (u32_small (k + 36)) by lia.
      rewrite (bind_rd _ _ (digit_code (rfc_threshold k bias + (q - rfc_threshold k bias) mod (36 - rfc_threshold k bias))))
        by (apply rd_alphabet; lia).
      pose proof (digit_code_ascii (rfc_threshold k bias + (q - rfc_threshold k bias) mod (36 - rfc_threshold k bias))
        ltac:(lia)) as Hasc.
      rewrite bind_put by (unfold octet; lia).
      subst f. rewrite IH.
      * cbn [codes map]. by rewrite <- app_assoc.
      * split; [lia|]. eapply Z.le_lt_trans; [apply Hv|]. apply Z.div_lt_upper_bound; [lia|].
        rewrite <- Z.pow_succ_r, <- Nat2Z.inj_succ by lia. lia.
      * pose proof (Z.div_le_upper_bound q 10 q ltac:(lia) ltac:(lia)). lia.
      * done.
      * lia.
      * lia.
Qed.

Lemma emit_number bias q txt :
  0 <= q < 2 ^ 32 -> 0 <= bias ->
  let txt' := txt ++ codes (number bias q) in
  emit_digits digits_fuel de bias 36 q (pos txt) (arr txt) = Done (pos txt') (arr txt').
Proof.
  intros Hq Hb. cbv zeta. unfold number. destruct (halvings_enough q) as (f & -> & Hf); [lia|].
  rewrite (varint_fuel f 11) by (try lia; change (10 ^ Z.of_nat 11) with 100000000000; lia).
  apply emit_run; change (10 ^ Z.of_nat 11) with 100000000000; lia.
Qed.

(** ** A pass over the code points *)
Definition occurs (n : Z) (cps : list Z) : Z := zlen (List.filter (fun c => c =? n) cps).

(** The variables of the code, from those of the encoder. *)
Definition puny_of (s : coder) (todo : Z) (txt : list Z) : puny :=
  mk_puny (co_bias s) (co_delta s) (co_h s) (co_first s) todo (pos txt).

Lemma pass_run n cps s todo txt :
  0 <= co_bias s <= 1000 -> 0 <= co_delta s -> co_delta s + zlen cps < 2 ^ 32 ->
  0 <= co_h s -> co_h s + zlen cps < 2 ^ 32 - 1 -> occurs n cps <= todo < 2 ^ 32 ->
  exists l s', rfc_pass n cps s = (l, s') /\
  0 <= co_bias s' <= 1000 /\ 0 <= co_delta s' <= co_delta s + zlen cps /\ co_h s' = co_h s + occurs n cps /\
  fold_cps cps (puny_body de n) (puny_of s todo txt) (arr txt) =
  Done (inl (puny_of s' (todo - occurs n cps) (txt ++ codes l))) (arr (txt ++ codes l)).
Proof.
  revert s todo txt. induction cps as [|c cps IH]; intros s todo txt Hb Hd0' Hd Hh0 Hh Ht.
  - exists [], s. change (occurs n []) with 0. rewrite Z.sub_0_r, Z.add_0_r. cbn. rewrite app_nil_r.
    change (zlen []) with 0. repeat split; lia.
  - rewrite zlen_cons in *. pose proof (zlen_nonneg cps).
    assert (0 <= occurs n cps <= zlen cps) as Ho.
    { unfold occurs. split; [apply zlen_nonneg|]. unfold zlen. pose proof (List.filter_length_le (fun c => c =? n) cps). lia. }
    cbn [rfc_pass fold_cps]. unfold puny_body at 1. unfold puny_of. cbn [pu_delta pu_bias pu_h pu_first pu_todo pu_d].
    destruct (Z.ltb_spec c n) as [Hlt|Hge].
    + assert (occurs n (c :: cps) = occurs n cps) as Eo
        by (unfold occurs; cbn; by rewrite (proj2 (Z.eqb_neq c n)) by lia).
      rewrite Eo in *. rewrite u32_small by lia. rewrite (proj2 (Z.eqb_neq _ 0)) by lia. cbn [andb].
      rewrite (proj2 (Z.eqb_neq c n)) by lia. cbn [negb]. unfold with_delta, bind at 1, ret at 1. cbn [pu_bias pu_delta pu_h pu_first pu_todo pu_d].
      destruct (IH (mk_coder (co_bias s) (co_delta s + 1) (co_h s) (co_first s)) todo txt) as (l & s' & E1 & E2 & E3 & E4 & E5);
        cbn [co_bias co_delta co_h co_first] in *; [lia..|].
      exists l, s'. split; [exact E1|]. split; [exact E2|]. split; [lia|]. split; [lia|exact E5].
    + cbn [andb]. destruct (Z.eqb_spec c n) as [->|Hne].
      * assert (occurs n (n :: cps) = 1 + occurs n cps) as Eo
          by (unfold occurs; cbn; by rewrite Z.eqb_refl, zlen_cons).
        rewrite Eo in *. cbn [negb]. unfold with_delta. cbn [pu_bias pu_delta pu_h pu_first pu_todo pu_d].
        rewrite bind_assoc, (bind_done _ _ _ _ _ (emit_number (co_bias s) (co_delta s) txt ltac:(lia) ltac:(lia))).
        destruct (rfc_adapt_run (mk_puny (co_bias s) (co_delta s) (co_h s) (co_first s) todo (pos txt))
          (pos (txt ++ codes (number (co_bias s) (co_delta s))))) as [Hb' Ea];
          cbn [pu_bias pu_delta pu_h pu_first pu_todo pu_d] in *; [lia..|].
        rewrite bind_assoc. unfold bind at 1. cbv zeta. unfold adapt in *. cbn [pu_delta pu_first pu_h pu_todo] in *. rewrite Ea.
        unfold bind at 1, ret at 1.
        destruct (IH (mk_coder (rfc_adapt (co_delta s) (co_h s + 1) (co_first s)) 0 (co_h s + 1) false) (todo - 1)
          (txt ++ codes (number (co_bias s) (co_delta s)))) as (l & s' & E1 & E2 & E3 & E4 & E5);
          cbn [co_bias co_delta co_h co_first] in *; [lia..|].
        rewrite E1. exists (number (co_bias s) (co_delta s) ++ l), s'. split; [done|]. split; [done|]. split; [lia|].
        split; [lia|]. unfold puny_of at 1 in E5. cbn [co_bias co_delta co_h co_first] in E5. rewrite E5.
        unfold codes. rewrite map_app, app_assoc. unfold puny_of. do 3 f_equal. lia.
      * assert (occurs n (c :: cps) = occurs n cps) as Eo
          by (unfold occurs; cbn; by rewrite (proj2 (Z.eqb_neq c n)) by lia).
        rewrite Eo in *. cbn [negb]. unfold with_delta, bind at 1, ret at 1. cbn [pu_bias pu_delta pu_h pu_first pu_todo pu_d].
        destruct (IH s todo txt) as (l & s' & E1 & E2 & E3 & E4 & E5); [lia..|].
        exists l, s'. split; [exact E1|]. split; [exact E2|]. split; [lia|]. split; [lia|exact E5].
Qed.

(** The least code point. *)
Lemma least_run n cps m a :
  fold_cps cps (least_body n) m a =
  Done (inl (match least n cps with Some v => Z.min v m | None => m end)) a.
Proof.
  revert m. induction cps as [|c cps IH]; intros m; [done|]. cbn [fold_cps least foldr]. fold (least n cps).
  unfold least_body at 1, bind at 1, ret at 1. rewrite IH.
  destruct (Z.leb_spec n c), (Z.ltb_spec c m); cbn [andb]; destruct (least n cps); do 2 f_equal; lia.
Qed.

(** ** The [while] loop *)
Lemma above_split n m cps : least n cps = Some m -> Z.of_nat (above n cps) = occurs m cps + Z.of_nat (above (m + 1) cps).
Proof.
  intros Hl. destruct (least_some n cps m Hl) as (Hn & _ & Hmin). clear Hl. unfold above, occurs, zlen.
  induction cps as [|c cps IH]; [done|]. cbn.
  assert (n <= c -> m <= c) as Hc by (intros; apply Hmin; [by left|done]).
  specialize (IH (fun x Hx => Hmin x (list_elem_of_further _ _ _ Hx))).
  destruct (Z.leb_spec n c), (Z.eqb_spec c m), (Z.leb_spec (m + 1) c); cbn; lia.
Qed.

Section Loop.
Variables (mem : list Z) (ss se : Z) (cps : list Z).
Hypothesis Hdec : decoded mem se ss cps.
Hypothesis Hss : ss <= se + 1.
Hypothesis Hcps : Forall codepoint cps.
Hypothesis Hlen : 1114112 * (zlen cps + 1) < 2 ^ 32.

Lemma puny_loop_run passes n s txt :
  (above n cps <= passes)%nat -> 0 <= n <= 1114112 -> 0 <= co_bias s <= 1000 ->
  0 <= co_delta s <= n * (zlen cps + 1) -> 0 <= co_h s -> co_h s + Z.of_nat (above n cps) = zlen cps ->
  let txt' := txt ++ codes (rfc_loop passes n cps s) in
  puny_loop passes mem ss se de n (puny_of s (Z.of_nat (above n cps)) txt) (arr txt) = Done (inl (pos txt')) (arr txt').
Proof.
  revert n s txt. induction passes as [|passes IH]; intros n s txt Hp Hn Hb Hd Hh Ht; cbn [puny_loop rfc_loop];
    unfold puny_of at 1; cbn [pu_todo].
  { assert (above n cps = 0%nat) as E by lia. rewrite E. cbn. by rewrite app_nil_r. }
  destruct (Z.ltb_spec 0 (Z.of_nat (above n cps))) as [Hpos|Hpos].
  2:{ rewrite above_zero by lia. cbn. by rewrite app_nil_r. }
  destruct (least n cps) as [m|] eqn:El.
  2:{ pose proof (least_none n cps El) as Hnone. exfalso. revert Hpos. unfold above.
      rewrite (filter_same _ (fun _ => false)) by (intros x Hx; specialize (Hnone x Hx); lia).
      clear. induction cps; [done|]. cbn. done. }
  destruct (least_some n cps m El) as (Hnm & Hin & _). apply (proj1 (Forall_forall _ _) Hcps) in Hin as Hm.
  unfold codepoint in Hm. pose proof (zlen_nonneg cps) as Hz.
  pose proof (above_split n m cps El) as Hsplit. pose proof (above_less n m cps El) as Hless.
  unfold bind at 1. rewrite (foreach_run mem se ss cps) by done. rewrite least_run, El. cbv zeta.
  rewrite Z.min_l by (unfold UINT_MAX; lia). rewrite (u32_small (m - n)) by lia.
  assert (pu_h (puny_of s (Z.of_nat (above n cps)) txt) = co_h s) as -> by done.
  assert (pu_delta (puny_of s (Z.of_nat (above n cps)) txt) = co_delta s) as -> by done.
  rewrite (u32_small (co_h s + 1)) by lia.
  assert (co_delta s + (m - n) * (co_h s + 1) <= m * (zlen cps + 1)) as Hb2 by nia.
  assert (m * (zlen cps + 1) + zlen cps + 1 <= (m + 1) * (zlen cps + 1)) as Hb3 by lia.
  assert ((m + 1) * (zlen cps + 1) < 2 ^ 32) as Hb4 by nia.
  assert (0 <= (m - n) * (co_h s + 1)) as Hb5 by nia.
  assert (((UINT_MAX - co_delta s) / (co_h s + 1) <? m - n) = false) as ->.
  { apply Z.ltb_ge. apply Z.div_le_lower_bound; [lia|]. unfold UINT_MAX. lia. }
  rewrite (u32_small ((m - n) * _)), (u32_small (co_delta s + _)) by lia.
  set (s1 := mk_coder (co_bias s) (co_delta s + (m - n) * (co_h s + 1)) (co_h s) (co_first s)).
  change (with_delta (co_delta s + (m - n) * (co_h s + 1)) (puny_of s (Z.of_nat (above n cps)) txt))
    with (puny_of s1 (Z.of_nat (above n cps)) txt).
  destruct (pass_run m cps s1 (Z.of_nat (above n cps)) txt) as (l & s2 & E1 & E2 & E3 & E4 & E5);
    cbn [s1 co_bias co_delta co_h co_first]; [lia..|].
  unfold bind at 1. rewrite (foreach_run mem se ss cps) by done. rewrite E5, E1.
  cbn [s1 co_bias co_delta co_h co_first] in E3, E4.
  rewrite (u32_small (m + 1)) by lia.
  set (s3 := mk_coder (co_bias s2) (co_delta s2 + 1) (co_h s2) (co_first s2)).
  assert (with_delta (u32 (pu_delta (puny_of s2 (Z.of_nat (above n cps) - occurs m cps) (txt ++ codes l)) + 1))
    (puny_of s2 (Z.of_nat (above n cps) - occurs m cps) (txt ++ codes l)) =
    puny_of s3 (Z.of_nat (above (m + 1) cps)) (txt ++ codes l)) as ->.
  { unfold with_delta, puny_of, s3. cbn [pu_bias pu_delta pu_h pu_first pu_todo pu_d co_bias co_delta co_h co_first].
    rewrite u32_small by lia. f_equal. lia. }
  rewrite IH; cbn [s3 co_bias co_delta co_h co_first]; [|lia..].
  unfold codes. by rewrite map_app, <- app_assoc.
Qed.
End Loop.
End Out.

(** * Whole names *)
#[local] Set Warnings "-clear-no-such-hyp".

(** ** The text of a label *)
Definition others (cps : list Z) : list Z := List.filter (fun c => 128 <=? c) cps.

Definition ace_prefix : list Z := [120; 110; 45; 45].

Definition label_text (cps : list Z) : list Z :=
  if zlen (others cps) =? 0 then cps else ace_prefix ++ rfc_encode cps.

Lemma basics_others cps : zlen (basics cps) + zlen (others cps) = zlen cps.
Proof.
  induction cps as [|c cps IH]; [done|]. unfold basics, others, basic in *. cbn.
  destruct (Z.ltb_spec c 128), (Z.leb_spec 128 c); try lia; rewrite !zlen_cons; lia.
Qed.

Lemma basics_octet cps : Forall codepoint cps -> Forall octet (basics cps).
Proof.
  intros Hf. apply Forall_forall. intros x Hx. apply list_elem_of_In, filter_In in Hx as [Hx Hb].
  apply list_elem_of_In in Hx. apply (proj1 (Forall_forall _ _) Hf) in Hx. unfold basic in Hb. unfold codepoint, octet in *. lia.
Qed.

Lemma others_none cps : zlen (others cps) = 0 -> basics cps = cps.
Proof.
  induction cps as [|c cps IH]; [done|]. unfold basics, others, basic in *. cbn.
  destruct (Z.leb_spec 128 c); [rewrite zlen_cons; pose proof (zlen_nonneg (List.filter (fun c => 128 <=? c) cps)); lia|].
  rewrite (proj2 (Z.ltb_lt _ _)) by done. intros H0. by rewrite IH.
Qed.

(** ** The first loop *)
Lemma count_run cps h todo (a : list Z) :
  Forall codepoint cps -> 0 <= h -> 0 <= todo -> h + todo + zlen cps < 2 ^ 32 ->
  fold_cps cps count_body (h, todo) a = Done (inl (h + zlen (basics cps), todo + zlen (others cps))) a.
Proof.
  revert h todo. induction cps as [|c cps IH]; intros h todo Hf Hh Ht Hz; cbn [fold_cps].
  - change (zlen (basics [])) with 0. change (zlen (others [])) with 0. unfold ret. do 3 f_equal; lia.
  - apply Forall_cons in Hf as [Hc Hf]. rewrite zlen_cons in Hz. pose proof (zlen_nonneg cps). unfold count_body at 1.
    assert (c <> UINT_MAX) as Hne by (unfold codepoint, UINT_MAX in *; lia).
    unfold basics, others, basic. cbn [List.filter]. destruct (Z.ltb_spec c 128), (Z.leb_spec 128 c); try lia.
    + unfold bind at 1, ret at 1. rewrite u32_small by lia. rewrite IH by (done || lia). rewrite zlen_cons.
      unfold basics, others, basic. do 3 f_equal; lia.
    + rewrite (proj2 (Z.eqb_neq _ _)) by done. unfold bind at 1, ret at 1. rewrite u32_small by lia.
      rewrite IH by (done || lia). rewrite zlen_cons. unfold basics, others, basic. do 3 f_equal; lia.
Qed.

(** An ill-formed sequence is found. *)
Lemma count_bad cps h todo (a : list Z) : UINT_MAX ∈ cps -> fold_cps cps count_body (h, todo) a = Done (inr UV_EINVAL) a.
Proof.
  revert h todo. induction cps as [|c cps IH]; intros h todo Hin; [by apply elem_of_nil in Hin|]. cbn [fold_cps].
  unfold count_body at 1. apply elem_of_cons in Hin as [<-|Hin]; [done|].
  destruct (c <? 128); [by apply IH|]. destruct (c =? UINT_MAX); [done|by apply IH].
Qed.

(** No more than the code points for which the 32-bit arithmetic is exact. *)
Definition short (cps : list Z) : Prop := 1114112 * (zlen cps + 1) < 2 ^ 32.

Lemma scalar_codepoint cps : Forall scalar cps -> Forall codepoint cps.
Proof. intros H. eapply Forall_impl; [exact H|]. unfold scalar, codepoint. tauto. Qed.

Lemma is_dot_spec c : is_dot c = true -> scalar c /\ forall post, ends (utf8 c ++ post).
Proof.
  unfold is_dot. rewrite !orb_true_iff, !Z.eqb_eq. intros Hc.
  assert (c = 46 \/ c = 12290 \/ c = 65294 \/ c = 65377) as [->|[->|[->| ->]]] by (unfold dot in Hc; tauto).
  all: split; [unfold scalar; lia|]; intros post; eexists _, _; (split; [reflexivity|]); (split; [vm_compute; intuition congruence|]).
  1: by left.
  all: by right.
Qed.

(** A text that goes on. *)
Lemma ends_utf8s c cps post : scalar c -> ends (utf8s (c :: cps) ++ post).
Proof.
  intros [Hc _]. rewrite utf8s_cons. unfold utf8, ends.
  destruct (Z.ltb_spec c 128); [|destruct (Z.ltb_spec c 2048); [|destruct (Z.ltb_spec c 65536)]];
    eexists _, _; (split; [reflexivity|]).
  - split; [lia|left; lia].
  - split; [zdm|by right].
  - split; [zdm|by right].
  - split; [zdm|by right].
Qed.

Lemma zlen_utf8s_pos c cps : zlen (utf8s cps) < zlen (utf8s (c :: cps)).
Proof. rewrite utf8s_cons, zlen_app. pose proof (zlen_utf8 c). lia. Qed.

Lemma short_less cps cur : zlen cur <= zlen cps -> short cps -> short cur.
Proof. unfold short. lia. Qed.

Section Name.
Variables (d0 de : Z) (a0 : list Z).
Hypothesis Hd0 : 0 <= d0 <= de.
Hypothesis Ha0 : de <= zlen a0.
#[local] Abbreviation pos := (pos d0 de).
#[local] Abbreviation arr := (arr d0 de a0).

(** ** The second loop *)
Lemma ascii_run cps x h txt :
  Forall codepoint cps -> 0 <= x -> h = x + zlen (basics cps) -> h < 2 ^ 32 ->
  exists x', fold_cps cps (ascii_body de h) (x, pos txt) (arr txt) =
    Done (inl (x', pos (txt ++ basics cps))) (arr (txt ++ basics cps)).
Proof.
  revert x txt. induction cps as [|c cps IH]; intros x txt Hf Hx Hh H32; cbn [fold_cps].
  - exists x. cbn. by rewrite app_nil_r.
  - apply Forall_cons in Hf as [Hc Hf]. unfold ascii_body at 1. unfold basics, basic in *. cbn [List.filter] in *.
    unfold codepoint in Hc. destruct (Z.ltb_spec 127 c), (Z.ltb_spec c 128); try lia.
    + unfold bind at 1, ret at 1. by apply IH.
    + rewrite zlen_cons in Hh. pose proof (zlen_nonneg (List.filter (fun c => c <? 128) cps)).
      rewrite bind_assoc, (bind_put d0 de a0 Hd0 Ha0) by (unfold octet; lia). rewrite u32_small by lia.
      destruct (Z.eqb_spec (x + 1) h) as [E|E]; unfold bind at 1, ret at 1.
      * assert (List.filter (fun c => c <? 128) cps = []) as ->; [|by eexists].
        destruct (List.filter (fun c => c <? 128) cps) as [|y l]; [done|]. rewrite zlen_cons in Hh. pose proof (zlen_nonneg l). lia.
      * destruct (IH (x + 1) (txt ++ [c]) Hf) as (x' & E'); [lia..|]. exists x'. rewrite E'. by rewrite <- !app_assoc.
Qed.

(** ** A label *)
Section Label.
Variables (mem : list Z) (s se : Z) (cps : list Z).
Hypothesis Hdec : decoded mem se s cps.
Hypothesis Hs : s <= se + 1.

Lemma label_bad txt : UINT_MAX ∈ cps ->
  uv__idna_toascii_label mem s se (pos txt) de (arr txt) = Done (UV_EINVAL, pos txt) (arr txt).
Proof.
  intros Hin. unfold uv__idna_toascii_label. unfold bind at 1. rewrite (foreach_run mem se s cps) by done.
  by rewrite count_bad.
Qed.

Lemma label_run txt :
  Forall codepoint cps -> 1114112 * (zlen cps + 1) < 2 ^ 32 ->
  uv__idna_toascii_label mem s se (pos txt) de (arr txt) =
  Done (if zlen (others cps) =? 0 then zlen cps else 0, pos (txt ++ label_text cps)) (arr (txt ++ label_text cps)).
Proof.
  intros Hf Hl. pose proof (basics_others cps) as Ht. pose proof (zlen_nonneg cps). pose proof (zlen_nonneg (basics cps)).
  pose proof (zlen_nonneg (others cps)). unfold uv__idna_toascii_label. unfold bind at 1.
  rewrite (foreach_run mem se s cps), count_run by (done || lia). rewrite !Z.add_0_l. unfold label_text.
  destruct (Z.eqb_spec (zlen (others cps)) 0) as [E0|E0].
  - rewrite E0. change (0 <? 0) with false. cbv iota. unfold bind at 1, ret at 1. unfold bind at 1.
    rewrite (foreach_run mem se s cps) by done. destruct (ascii_run cps 0 (zlen (basics cps)) txt) as (x' & ->); [done|lia..|].
    change (0 =? 0) with true. cbv iota. cbn [snd]. rewrite (others_none cps) by done. unfold ret, s32.
    rewrite swrap_small by (change (2 ^ (32 - 1)) with 2147483648; lia). done.
  - rewrite (proj2 (Z.ltb_lt 0 (zlen (others cps)))) by lia. change hyphen with 45.
    rewrite (bind_done _ _ _ _ _ (puts_run d0 de a0 Hd0 Ha0 ace_prefix txt ltac:(by repeat constructor))).
    unfold bind at 1. rewrite (foreach_run mem se s cps) by done.
    destruct (ascii_run cps 0 (zlen (basics cps)) (txt ++ ace_prefix)) as (x' & ->); [done|lia..|].
    cbn [snd].
    set (txt1 := (txt ++ ace_prefix) ++ basics cps).
    assert (forall (B : Type) (k : Z -> T B),
      bind (if 0 <? zlen (basics cps) then put de 45 (pos txt1) else ret (pos txt1)) k (arr txt1) =
      k (pos (txt1 ++ (if 0 <? zlen (basics cps) then [delimiter] else [])))
        (arr (txt1 ++ (if 0 <? zlen (basics cps) then [delimiter] else [])))) as ->.
    { intros B k. destruct (0 <? zlen (basics cps)); [by rewrite (bind_put d0 de a0 Hd0 Ha0)|]. by rewrite app_nil_r. }
    set (txt2 := txt1 ++ _).
    pose proof (puny_loop_run d0 de a0 Hd0 Ha0 mem s se cps Hdec Hs Hf Hl (above 128 cps) 128
      (mk_coder initial_bias 0 (zlen (basics cps)) true) txt2) as E. cbv zeta in E. cbn [co_bias co_delta co_h] in E.
    assert (Z.of_nat (above 128 cps) = zlen (others cps)) as Ea by done.
    unfold initial_bias in E. specialize (E ltac:(lia) ltac:(lia) ltac:(lia) ltac:(lia) ltac:(lia) ltac:(lia)).
    unfold puny_of in E. cbn [co_bias co_delta co_h co_first] in E. rewrite Ea in E.
    rewrite <- Ea at 1. rewrite Nat2Z.id. rewrite (bind_done _ _ _ _ _ E). unfold ret.
    rewrite (rfc_loop_passes (above 128 cps) (length cps)) by (done || apply above_length).
    unfold txt2, txt1, rfc_encode, rfc_digits, codes, initial_n, initial_bias. by rewrite <- !app_assoc.
Qed.
End Label.

(** ** A name that is well-formed UTF-8 *)
(** The label separators of IDNA (RFC 3490, section 3.1). *)
Definition separator (c : Z) : bool := bool_decide (c ∈ [46; 12290; 65294; 65377]).

Lemma is_dot_separator c : is_dot c = separator c.
Proof.
  unfold separator, is_dot, dot. apply eq_true_iff_eq. rewrite bool_decide_eq_true, !orb_true_iff, !Z.eqb_eq.
  rewrite !elem_of_cons, elem_of_nil. tauto.
Qed.

(** [cur] is the label that is read. *)
Fixpoint name_text (cur cps : list Z) : list Z :=
  match cps with
  | [] => label_text cur
  | c :: cps => if separator c then label_text cur ++ dot :: name_text [] cps else name_text (cur ++ [c]) cps
  end.

Lemma label_text_run pre cur post txt :
  Forall scalar cur -> short cur -> ends post ->
  exists rc, 0 <= rc /\
  uv__idna_toascii_label (pre ++ utf8s cur ++ post) (zlen pre) (zlen (pre ++ utf8s cur)) (pos txt) de (arr txt) =
  Done (rc, pos (txt ++ label_text cur)) (arr (txt ++ label_text cur)).
Proof.
  intros Hf Hs He. pose proof (zlen_nonneg (utf8s cur)). pose proof (zlen_nonneg cur).
  eexists. split; [|apply label_run; [by apply decoded_utf8s| |by apply scalar_codepoint|done]].
  - destruct (_ =? 0); lia.
  - rewrite zlen_app. lia.
Qed.

(** The loop on the dots, up to the last label. *)
Lemma toascii_loop_run fuel pre cur cps post txt all :
  Forall scalar cur -> Forall scalar cps -> ends post -> short all -> zlen cur + zlen cps <= zlen all ->
  (length (utf8s cps) <= fuel)%nat ->
  let mem := pre ++ utf8s cur ++ utf8s cps ++ post in
  exists pre' cur' txt',
    toascii_loop fuel mem (zlen pre) (zlen (pre ++ utf8s cur)) (zlen (pre ++ utf8s cur ++ utf8s cps)) (pos txt) de (arr txt) =
    Done (inl (zlen pre', pos txt')) (arr txt') /\
    mem = pre' ++ utf8s cur' ++ post /\ zlen (pre' ++ utf8s cur') = zlen (pre ++ utf8s cur ++ utf8s cps) /\
    Forall scalar cur' /\ zlen cur' <= zlen all /\
    txt' ++ label_text cur' = txt ++ name_text cur cps.
Proof.
  revert fuel pre cur txt. induction cps as [|c cps IH]; intros fuel pre cur txt Hcur Hcps He Hall Hz Hfu; cbv zeta.
  - exists pre, cur, txt. cbn [utf8s map concat app]. rewrite app_nil_r.
    destruct fuel; cbn [toascii_loop]; rewrite Z.ltb_irrefl; pose proof (zlen_nonneg cur); repeat (split; [done|]);
      change (zlen []) with 0 in Hz; (split; [lia|done]).
  - pose proof (zlen_utf8s_pos c cps) as Hpos. apply Forall_cons in Hcps as [Hc Hcps]. rewrite zlen_cons in Hz.
    destruct fuel as [|fuel]; [unfold zlen in Hpos; lia|]. cbn [toascii_loop].
    pose proof (zlen_nonneg (utf8s cps)) as Hu. pose proof (zlen_utf8 c) as Hu1.
    rewrite (proj2 (Z.ltb_lt _ _)) by (rewrite !zlen_app; lia).
    assert (uv__utf8_decode1 (pre ++ utf8s cur ++ utf8s (c :: cps) ++ post) (zlen (pre ++ utf8s cur))
      (zlen (pre ++ utf8s cur ++ utf8s (c :: cps))) (arr txt) =
      Done (c, zlen (pre ++ utf8s cur) + zlen (utf8 c)) (arr txt)) as Ed.
    { rewrite utf8s_cons, (app_assoc pre), <- (app_assoc (utf8 c)). apply decode_utf8; [done|]. rewrite !zlen_app. lia. }
    rewrite (bind_done _ _ _ _ _ Ed). rewrite <- zlen_app.
    assert ((length (utf8s cps) <= fuel)%nat) as Hfu' by (unfold zlen in Hpos; lia).
    destruct (is_dot c) eqn:Edot; cbn [negb].
    + destruct (is_dot_spec c Edot) as [_ Hends].
      destruct (label_text_run pre cur (utf8s (c :: cps) ++ post) txt) as (rc & Hrc & El); [done| | |].
      { by apply (short_less all); [pose proof (zlen_nonneg cps); lia|]. }
      { rewrite utf8s_cons, <- app_assoc. apply Hends. }
      rewrite (bind_done _ _ _ _ _ El). rewrite (proj2 (Z.ltb_ge rc 0)) by done.
      rewrite (bind_put d0 de a0 Hd0 Ha0) by (unfold octet, dot; lia).
      destruct (IH fuel (pre ++ utf8s cur ++ utf8 c) [] ((txt ++ label_text cur) ++ [dot])) as (pre' & cur' & txt' & E & Em & Ez & Hf' & Hz' & Et);
        try done.
      { change (zlen []) with 0. pose proof (zlen_nonneg cur). lia. }
      exists pre', cur', txt'. cbn [utf8s map concat app] in E, Em, Ez. fold (utf8s cps) in E, Em, Ez. rewrite app_nil_r in E.
      rewrite utf8s_cons. rewrite <- !app_assoc in *.
      split; [exact E|]. split; [exact Em|]. split; [exact Ez|]. split; [done|]. split; [done|].
      rewrite Et. cbn [name_text]. by rewrite <- is_dot_separator, Edot.
    + destruct (IH fuel pre (cur ++ [c]) txt) as (pre' & cur' & txt' & E & Em & Ez & Hf' & Hz' & Et); try done.
      { apply Forall_app. by split; [|apply Forall_singleton]. }
      { rewrite zlen_app. change (zlen [c]) with 1. lia. }
      assert (utf8s (cur ++ [c]) = utf8s cur ++ utf8 c) as Eu
        by (rewrite utf8s_app; f_equal; unfold utf8s; cbn; by rewrite app_nil_r).
      rewrite Eu in *. exists pre', cur', txt'. rewrite utf8s_cons. rewrite <- !app_assoc in *.
      split; [exact E|]. split; [exact Em|]. split; [exact Ez|]. split; [done|]. split; [done|].
      rewrite Et. cbn [name_text]. by rewrite <- is_dot_separator, Edot.
Qed.

Lemma toascii_run pre cps post :
  Forall scalar cps -> short cps -> ends post ->
  let text := name_text [] cps ++ [0] in
  uv__idna_toascii (pre ++ utf8s cps ++ post) (zlen pre) (zlen (pre ++ utf8s cps)) d0 de a0 =
  Done (Z.min (zlen text) (de - d0)) (arr text).
Proof.
  intros Hf Hs He. cbv zeta. pose proof (zlen_nonneg (utf8s cps)).
  pose proof (pos_nil d0 de Hd0) as Ep. pose proof (arr_nil d0 de a0) as Ea.
  unfold uv__idna_toascii.
  destruct (toascii_loop_run (turns (zlen pre) (zlen (pre ++ utf8s cps))) pre [] cps post [] cps) as
    (pre' & cur' & txt' & E & Em & Ez & Hf' & Hz' & Et); try done.
  { unfold turns. rewrite zlen_app. unfold zlen. lia. }
  cbn [utf8s map concat app] in E, Em, Ez. fold (utf8s cps) in E, Em, Ez. rewrite app_nil_r, Ep, Ea in E.
  rewrite (bind_done _ _ _ _ _ E).
  assert (forall (B : Type) (k : Z * Z -> T B), exists rc, 0 <= rc /\
    bind (if zlen pre' <? zlen (pre ++ utf8s cps)
          then uv__idna_toascii_label (pre ++ utf8s cps ++ post) (zlen pre') (zlen (pre ++ utf8s cps)) (pos txt') de
          else ret (0, pos txt')) k (arr txt') =
    k (rc, pos (txt' ++ label_text cur')) (arr (txt' ++ label_text cur'))) as Hlast.
  { intros B k. destruct cur' as [|c cur'].
    - cbn [utf8s map concat] in Ez. rewrite app_nil_r in Ez. rewrite <- Ez, Z.ltb_irrefl. exists 0. split; [done|].
      unfold bind, ret. change (label_text []) with (@nil Z). by rewrite app_nil_r.
    - pose proof (zlen_utf8s_pos c cur'). pose proof (zlen_nonneg (utf8s cur')).
      rewrite (proj2 (Z.ltb_lt _ _)) by (rewrite <- Ez, zlen_app; lia).
      destruct (label_text_run pre' (c :: cur') post txt') as (rc & Hrc & El); [done|by apply (short_less cps)|done|].
      exists rc. split; [done|]. apply bind_done. rewrite Em, <- Ez. exact El. }
  destruct (Hlast Z (fun r : Z * Z => let (rc, d) := r in
    if rc <? 0 then ret rc else let* d1 := put de 0 d in ret (d1 - d0))) as (rc & Hrc & El). refine (eq_trans El _).
  rewrite (proj2 (Z.ltb_ge rc 0)) by done. rewrite (bind_put d0 de a0 Hd0 Ha0) by (unfold octet; lia).
  rewrite Et. cbn [app]. unfold ret, UvIdnaProofs.pos. f_equal. lia.
Qed.

(** ** A name of any bytes *)
Section AnyBytes.
Variables (mem : list Z) (se : Z).
Hypothesis Hmem : Forall octet mem.
Hypothesis Hroom : se + 3 < zlen mem.

Lemma label_total s st txt :
  0 <= s <= st -> st <= se -> 1114112 * (se - s + 1) < 2 ^ 32 ->
  exists rc txt', (rc = UV_EINVAL \/ 0 <= rc) /\
  uv__idna_toascii_label mem s st (pos txt) de (arr txt) = Done (rc, pos txt') (arr txt').
Proof.
  intros Hs Hst Hlen. destruct (decoded_total mem st s Hmem ltac:(lia) ltac:(lia)) as (cps & Hd & Hc & Hz).
  destruct (decide (UINT_MAX ∈ cps)) as [Hin|Hin].
  - exists UV_EINVAL, txt. split; [by left|]. apply (label_bad mem s st cps); [done|lia|done].
  - assert (Forall codepoint cps) as Hf.
    { apply Forall_forall. intros x Hx. apply (proj1 (Forall_forall _ _) Hc) in Hx as Hx'. by destruct Hx' as [->|]. }
    pose proof (zlen_nonneg cps). eexists _, _. split; [|apply (label_run mem s st cps); [done|lia|done|lia]].
    right. destruct (_ =? 0); lia.
Qed.

Lemma toascii_loop_total fuel s si txt :
  0 <= s <= si -> s <= se -> (Z.to_nat (se - si) <= fuel)%nat -> 1114112 * (se - s + 1) < 2 ^ 32 ->
  exists r txt', toascii_loop fuel mem s si se (pos txt) de (arr txt) =
    Done (match r with Some s' => inl (s', pos txt') | None => inr UV_EINVAL end) (arr txt') /\
  (forall s', r = Some s' -> s <= s').
Proof.
  revert s si txt. induction fuel as [|fuel IH]; intros s si txt Hs Hse Hfu Hlen; cbn [toascii_loop].
  - rewrite (proj2 (Z.ltb_ge _ _)) by lia. exists (Some s), txt. split; [done|]. intros s' [= <-]. done.
  - destruct (Z.ltb_spec si se) as [Hlt|]; [|exists (Some s), txt; split; [done|]; by intros s' [= <-]].
    destruct (decode_total mem si se Hmem ltac:(lia) ltac:(lia)) as (c & p' & _ & Hp' & E).
    rewrite (bind_done _ _ _ _ _ (E _ _)). destruct (negb (is_dot c)); [apply IH; lia|].
    destruct (label_total s si txt) as (rc & txt1 & Hrc & El); [lia..|]. rewrite (bind_done _ _ _ _ _ El).
    destruct Hrc as [->|Hrc]; [by exists None, txt1|]. rewrite (proj2 (Z.ltb_ge rc 0)) by done.
    rewrite (bind_put d0 de a0 Hd0 Ha0) by (unfold octet, dot; lia).
    destruct (Z.lt_ge_cases se p') as [Hpast|Hin].
    + exists (Some p'), (txt1 ++ [dot]). split; [|intros s' [= <-]; lia].
      destruct fuel; cbn [toascii_loop]; by rewrite (proj2 (Z.ltb_ge _ _)) by lia.
    + destruct (IH p' p' (txt1 ++ [dot])) as (r & txt2 & E2 & Hr); [lia..|]. exists r, txt2. split; [done|].
      intros s' Hs'. specialize (Hr s' Hs'). lia.
Qed.

Lemma toascii_total s :
  0 <= s <= se -> 1114112 * (se - s + 1) < 2 ^ 32 ->
  exists r txt, uv__idna_toascii mem s se d0 de a0 = Done r (arr txt) /\ (r = UV_EINVAL \/ 0 <= r <= de - d0).
Proof.
  intros Hs Hlen.
  pose proof (pos_nil d0 de Hd0) as Ep. pose proof (arr_nil d0 de a0) as Ea.
  unfold uv__idna_toascii.
  destruct (toascii_loop_total (turns s se) s s []) as (r & txt & E & Hr); [lia|lia|unfold turns; lia|lia|].
  rewrite Ep, Ea in E. rewrite (bind_done _ _ _ _ _ E). destruct r as [s'|]; [|exists UV_EINVAL, txt; split; [done|by left]].
  specialize (Hr s' eq_refl).
  assert (exists rc txt', (rc = UV_EINVAL \/ 0 <= rc) /\
    (if s' <? se then uv__idna_toascii_label mem s' se (pos txt) de else ret (0, pos txt)) (arr txt) =
    Done (rc, pos txt') (arr txt')) as (rc & txt' & Hrc & El).
  { destruct (Z.ltb_spec s' se); [apply label_total; lia|]. exists 0, txt. split; [by right|done]. }
  rewrite (bind_done _ _ _ _ _ El). destruct Hrc as [->|Hrc]; [exists UV_EINVAL, txt'; split; [done|by left]|].
  rewrite (proj2 (Z.ltb_ge rc 0)) by done. rewrite (bind_put d0 de a0 Hd0 Ha0) by (unfold octet; lia).
  eexists _, (txt' ++ [0]). split; [done|]. right. unfold UvIdnaProofs.pos. pose proof (zlen_nonneg (txt' ++ [0])). lia.
Qed.
End AnyBytes.
End Name.
