(* ===== verification/UvTextTheorems.v ===== *)
(** libuv, the text utilities: the properties of the string copy, of the address
    conversions and of the host name conversion. *)
From S2P Require Import Prelude.
From S2P Require Import Utf8.
From S2P Require Import UvInet.
From S2P Require Import UvInetProofs.
From S2P Require Import UvInet6Proofs.
From S2P Require Import UvIdna.
From S2P Require Import UvPuny.
From S2P Require Import UvIdnaDecode.
From S2P Require Import UvIdnaProofs.

#[local] Set Warnings "-clear-no-such-hyp".

(** Facts on concrete samples. *)
#[local] Ltac by_decision := apply (bool_decide_eq_true_1 _); vm_compute; reflexivity.

(** ** Bounded copies *)
(** [uv__strscpy] copies a string that fits with its terminator and returns its
    length; of a longer one it stores the prefix of [n - 1] characters and a
    terminator, and returns [UV_E2BIG]; with no room it stores nothing.  Never does it
    write outside of the [n] bytes of the destination. *)
Theorem strscpy_exact cs rest d n a :
  0 ∉ cs -> 0 <= d -> 0 <= n <= SSIZE_MAX -> d + n <= zlen a ->
  uv__strscpy d (cs ++ 0 :: rest) n a =
  if n =? 0 then Done 0 a
  else if n <=? zlen cs then Done UV_E2BIG (over d (take (Z.to_nat (n - 1)) cs ++ [0]) a)
  else Done (zlen cs) (over d (cs ++ [0]) a).
Proof.
  intros Hcs Hd Hn Ha. destruct (Z.eqb_spec n 0) as [->|Hn0]; [done|].
  destruct (Z.leb_spec n (zlen cs)); [eapply strscpy_cut|eapply strscpy_fits]; done || lia.
Qed.

Lemma strscpy_exact_witness :
  uv__strscpy 1 ([104; 101; 108; 108; 111] ++ [0]) 3 [9; 9; 9; 9; 9] = Done UV_E2BIG [9; 104; 101; 0; 9].
Proof. apply (strscpy_exact [104; 101; 108; 108; 111] [] 1 3 [9; 9; 9; 9; 9]); [by_decision|by vm_compute..]. Defined.

(** ** Addresses *)
(** the IPv4 parser accepts exactly the strings that the printer makes: a string
    is either the dotted text of four octets, which are stored, or it is refused with
    [UV_EINVAL] and the destination is left alone (no leading zeros, no signs, no
    spaces, no octet over 255, no other number of octets). *)
Theorem inet_pton4_inverts_ntop4 junk cs rest dst s :
  4 <= zlen junk -> 0 ∉ cs -> 0 <= dst -> dst + 4 <= zlen s ->
  (exists a b c d, Forall octet [a; b; c; d] /\
     (forall d0 size buf, 0 <= d0 -> zlen cs < size <= SSIZE_MAX -> d0 + size <= zlen buf ->
        uv_inet_ntop junk AF_INET [a; b; c; d] d0 size buf = Done 0 (over d0 (cs ++ [0]) buf)) /\
     uv_inet_pton junk AF_INET (Some (cs ++ 0 :: rest)) (Some dst) s = Done 0 (over dst [a; b; c; d] s)) \/
  ((forall a b c d d0 size buf, Forall octet [a; b; c; d] -> 0 <= d0 -> zlen cs < size <= SSIZE_MAX -> d0 + size <= zlen buf ->
      uv_inet_ntop junk AF_INET [a; b; c; d] d0 size buf <> Done 0 (over d0 (cs ++ [0]) buf)) /\
   uv_inet_pton junk AF_INET (Some (cs ++ 0 :: rest)) (Some dst) s = Done UV_EINVAL s).
Proof.
  intros Hj Hcs Hd Hs.
  destruct (inet_pton4_exact junk cs rest dst s Hj Hcs Hd Hs) as [(a & b & c & d & Ha & Hb & Hc & Hdd & E & Er)|[Hn Er]].
  - left. exists a, b, c, d. split; [eauto using List.Forall_cons, List.Forall_nil|]. split; [|exact Er]. intros d0 size buf Hd0 Hz Hbuf.
    pose proof (zlen_nonneg cs). change (uv_inet_ntop junk AF_INET) with inet_ntop4.
    rewrite inet_ntop4_spec by (done || lia). cbv zeta. rewrite <- E. by rewrite (proj2 (Z.leb_gt _ _)) by lia.
  - right. split; [|exact Er]. intros a b c d d0 size buf Hf Hd0 Hz Hbuf. rewrite !Forall_cons in Hf.
    destruct Hf as (Ha & Hb & Hc & Hdd & _). pose proof (zlen_nonneg cs). specialize (Hn a b c d Ha Hb Hc Hdd).
    change (uv_inet_ntop junk AF_INET) with inet_ntop4. rewrite inet_ntop4_spec by (done || lia). cbv zeta.
    destruct (size <=? zlen (ntop4_text a b c d)) eqn:El; [by intros [= ? _]|]. intros [= E]. apply Hn.
    apply Z.leb_gt in El. apply (over_text_inj d0 _ _ buf); try done; [apply ntop4_plain|lia|lia].
Qed.

Lemma inet_pton4_inverts_ntop4_witness :
  exists a b c d, Forall octet [a; b; c; d] /\
  uv_inet_pton [0; 0; 0; 0] AF_INET (Some ([49; 46; 50; 46; 51; 46; 50; 53; 53] ++ [0])) (Some 0) [9; 9; 9; 9] =
  Done 0 (over 0 [a; b; c; d] [9; 9; 9; 9]).
Proof.
  destruct (inet_pton4_inverts_ntop4 [0; 0; 0; 0] [49; 46; 50; 46; 51; 46; 50; 53; 53] [] 0 [9; 9; 9; 9])
    as [(a & b & c & d & Hf & _ & E)|[_ E]]; [by vm_compute|by_decision|done|by vm_compute| |by vm_compute in E].
  by exists a, b, c, d.
Defined.

(** C31: what [uv_inet_ntop] prints for an IPv6 address, [uv_inet_pton] reads back, for
    every address: with the longest run of zeros as [::], with an IPv4 address at
    the end, or with neither.  The text has at most 45 characters. *)
Theorem inet6_round_trip junk1 junk2 src d0 size buf dst s :
  zlen junk1 = 46 -> 4 <= zlen junk2 -> length src = 16%nat -> Forall octet src ->
  0 <= d0 -> UV__INET6_ADDRSTRLEN <= size <= SSIZE_MAX -> d0 + size <= zlen buf -> 0 <= dst -> dst + 16 <= zlen s ->
  exists text, zlen text <= 45 /\
  uv_inet_ntop junk1 AF_INET6 src d0 size buf = Done 0 (over d0 (text ++ [0]) buf) /\
  forall rest, uv_inet_pton junk2 AF_INET6 (Some (text ++ 0 :: rest)) (Some dst) s = Done 0 (over dst src s).
Proof.
  intros Hj1 Hj2 Hl Hf Hd0 Hsz Hbuf Hdst Hs. unfold UV__INET6_ADDRSTRLEN in Hsz.
  destruct (inet_ntop6_run junk1 src [] d0 size buf Hj1 Hl Hf Hd0 ltac:(lia) Hbuf) as (a & b & c & d & Ed & Ha & Hb & Hc & Hd & E).
  cbv zeta in E. rewrite app_nil_r in E.
  set (text := text6 (words_of src) (best_run (words_of src)) a b c d) in *.
  assert (zlen text <= 45) as Ht by (apply text6_bound; [done..|by apply length_words|by apply words_of_range]).
  pose proof (text6_plain (words_of src) (best_run (words_of src)) a b c d) as [H0 Hp]. fold text in H0, Hp.
  exists text. split; [done|]. split.
  - change (uv_inet_ntop junk1 AF_INET6) with (inet_ntop6 junk1). rewrite E.
    by rewrite (proj2 (Z.eqb_neq size 0)), (proj2 (Z.leb_gt size _)) by lia.
  - intros rest. pose proof (text6_reads junk2 src Hj2 Hl Hf a b c d rest dst s Ed Hdst Hs) as Er. fold text in Er.
    unfold uv_inet_pton. change (AF_INET6 =? AF_INET) with false. change (AF_INET6 =? AF_INET6) with true. cbv iota.
    by rewrite (bind_done _ _ _ _ _ (find_percent_plain text rest 0 s H0 Hp)).
Qed.

Lemma inet6_round_trip_witness :
  exists text, zlen text <= 45 /\
  uv_inet_ntop (replicate 46 7) AF_INET6 [32; 1; 13; 184; 0; 0; 0; 0; 0; 0; 0; 0; 0; 0; 0; 1] 0 46 (replicate 46 9) =
    Done 0 (over 0 (text ++ [0]) (replicate 46 9)) /\
  forall rest, uv_inet_pton [0; 0; 0; 0] AF_INET6 (Some (text ++ 0 :: rest)) (Some 0) (replicate 16 9) =
    Done 0 (over 0 [32; 1; 13; 184; 0; 0; 0; 0; 0; 0; 0; 0; 0; 0; 0; 1] (replicate 16 9)).
Proof. apply inet6_round_trip; try (by vm_compute). by_decision. Defined.

(** With no room for a text [inet_ntop6] reports success, and writes nothing. *)
Lemma inet_ntop6_no_room junk src d0 buf :
  zlen junk = 46 -> length src = 16%nat -> Forall octet src -> 0 <= d0 <= zlen buf ->
  uv_inet_ntop junk AF_INET6 src d0 0 buf = Done 0 buf.
Proof.
  intros Hj Hl Hf Hd0. change (uv_inet_ntop junk AF_INET6) with (inet_ntop6 junk).
  destruct (inet_ntop6_run junk src [] d0 0 buf Hj Hl Hf ltac:(lia) ltac:(unfold SSIZE_MAX; lia) ltac:(lia))
    as (a & b & c & d & _ & _ & _ & _ & _ & E). cbv zeta in E. by rewrite app_nil_r in E.
Qed.

(** ** UTF-8 *)
(** the decoder gives back every Unicode scalar value from its encoding, wherever
    the encoding is in a text that does not end inside of it, and goes on to the next
    byte; it never looks beyond the encoding. *)
Theorem utf8_decodes_scalars pre c post pe (s : list Z) :
  scalar c -> zlen pre + zlen (utf8 c) <= pe ->
  uv__utf8_decode1 (pre ++ utf8 c ++ post) (zlen pre) pe s = Done (c, zlen pre + zlen (utf8 c)) s.
Proof. apply decode_utf8. Qed.

Lemma utf8_decodes_scalars_witness :
  uv__utf8_decode1 ([97] ++ [240; 159; 153; 130] ++ []) 1 5 ([] : list Z) = Done (128578, 5) [].
Proof.
  apply (utf8_decodes_scalars [97] 128578 [] 5 []); [unfold scalar; split; [lia|intros [? ?]; lia]|by vm_compute].
Defined.

(** ** Host names *)
(** C30: for a label of Unicode scalar values the code computes what RFC 3492 defines:
    an ASCII label is copied, any other becomes [xn--] and the punycode of section
    6.3 on unbounded integers; what does not fit the destination is cut off.  No
    32-bit computation of it overflows for up to 3853 code points. *)
Theorem label_is_punycode pre cps post d de a :
  Forall scalar cps -> short cps -> ends post -> 0 <= d <= de -> de <= zlen a ->
  let text := if zlen (others cps) =? 0 then cps else ace_prefix ++ rfc_encode cps in
  uv__idna_toascii_label (pre ++ utf8s cps ++ post) (zlen pre) (zlen (pre ++ utf8s cps)) d de a =
  Done (if zlen (others cps) =? 0 then zlen cps else 0, d + Z.min (zlen text) (de - d))
    (over d (take (Z.to_nat (de - d)) text) a).
Proof.
  intros Hf Hs He Hd Ha. cbv zeta. fold (label_text cps). pose proof (zlen_nonneg (utf8s cps)).
  pose proof (label_run d de a Hd Ha (pre ++ utf8s cps ++ post) (zlen pre) (zlen (pre ++ utf8s cps)) cps
    ltac:(by apply decoded_utf8s) ltac:(rewrite zlen_app; lia) [] ltac:(by apply scalar_codepoint) Hs) as E.
  by rewrite pos_nil, arr_nil in E by lia.
Qed.

(** nothing is lost: the decoder of RFC 3492 (section 6.2) gives back the code
    points of the label from what is written after [xn--]. *)
Theorem label_decodes pre cps post d de a :
  Forall scalar cps -> short cps -> ends post -> 0 <= d <= de -> de <= zlen a ->
  zlen (others cps) <> 0 -> zlen (label_text cps) <= de - d ->
  exists p, rfc_decode p = Some cps /\
  uv__idna_toascii_label (pre ++ utf8s cps ++ post) (zlen pre) (zlen (pre ++ utf8s cps)) d de a =
  Done (0, d + zlen (ace_prefix ++ p)) (over d (ace_prefix ++ p) a).
Proof.
  intros Hf Hs He Hd Ha Ho Hroom. pose proof (zlen_nonneg (utf8s cps)).
  pose proof (label_run d de a Hd Ha (pre ++ utf8s cps ++ post) (zlen pre) (zlen (pre ++ utf8s cps)) cps
    ltac:(by apply decoded_utf8s) ltac:(rewrite zlen_app; lia) [] ltac:(by apply scalar_codepoint) Hs) as E.
  rewrite pos_nil, arr_nil in E by lia. exists (rfc_encode cps). split; [apply rfc_decode_encode|]. rewrite E.
  cbn [app]. unfold pos, arr. rewrite Z.min_l by lia. rewrite take_ge by (unfold zlen in *; lia).
  unfold label_text. by rewrite (proj2 (Z.eqb_neq _ 0)).
Qed.

(** The code points of a sample: a label with characters in and outside of ASCII. *)
Definition sample_label : list Z := [98; 252; 99; 104; 101; 114].

Lemma sample_label_ok : Forall scalar sample_label /\ short sample_label /\ ends [46].
Proof.
  split; [|split; [by vm_compute|]].
  - unfold sample_label, scalar. repeat (apply Forall_cons; split; [cbv beta; lia|]). by apply Forall_nil.
  - exists 46, []. split; [done|]. split; [lia|left; lia].
Qed.

Lemma label_is_punycode_witness :
  uv__idna_toascii_label ([98; 195; 188; 99; 104; 101; 114] ++ [46]) 0 7 0 16 (replicate 16 9) =
  Done (0, 13) ([120; 110; 45; 45; 98; 99; 104; 101; 114; 45; 107; 118; 97] ++ [9; 9; 9]).
Proof.
  destruct sample_label_ok as (Hf & Hs & He).
  assert (0 <= 0 <= 16 /\ 16 <= zlen (replicate 16 9)) as [H1 H2] by (split; [lia|by vm_compute]).
  exact (label_is_punycode [] sample_label [46] 0 16 (replicate 16 9) Hf Hs He H1 H2).
Defined.

Lemma label_decodes_witness :
  exists p, rfc_decode p = Some sample_label /\
  uv__idna_toascii_label ([98; 195; 188; 99; 104; 101; 114] ++ [46]) 0 7 0 16 (replicate 16 9) =
  Done (0, zlen (ace_prefix ++ p)) (over 0 (ace_prefix ++ p) (replicate 16 9)).
Proof.
  destruct sample_label_ok as (Hf & Hs & He).
  assert (0 <= 0 <= 16 /\ 16 <= zlen (replicate 16 9)) as [H1 H2] by (split; [lia|by vm_compute]).
  assert (zlen (others sample_label) <> 0 /\ zlen (label_text sample_label) <= 16 - 0) as [H3 H4] by (split; by vm_compute).
  exact (label_decodes [] sample_label [46] 0 16 (replicate 16 9) Hf Hs He H1 H2 H3 H4).
Defined.

(** C32: a name in well-formed UTF-8 is converted label by label, at each of the four
    dots of IDNA, and the labels are joined by ASCII dots.  The result counts the
    bytes that are stored, the terminator among them only when there is room for it;
    a text that is too long is cut off without an error. *)
Theorem toascii_exact pre cps post d de a :
  Forall scalar cps -> short cps -> ends post -> 0 <= d <= de -> de <= zlen a ->
  let text := name_text [] cps ++ [0] in
  uv__idna_toascii (pre ++ utf8s cps ++ post) (zlen pre) (zlen (pre ++ utf8s cps)) d de a =
  Done (Z.min (zlen text) (de - d)) (over d (take (Z.to_nat (de - d)) text) a).
Proof. intros Hf Hs He Hd Ha. by apply toascii_run. Qed.

(** [b\252cher。x] *)
Definition sample_name : list Z := sample_label ++ [12290; 120].

Lemma toascii_exact_witness :
  uv__idna_toascii ([98; 195; 188; 99; 104; 101; 114; 227; 128; 130; 120] ++ [0]) 0 11 0 20 (replicate 20 9) =
  Done 16 ([120; 110; 45; 45; 98; 99; 104; 101; 114; 45; 107; 118; 97; 46; 120; 0] ++ [9; 9; 9; 9]).
Proof.
  assert (Forall scalar sample_name) as Hf.
  { unfold sample_name, sample_label, scalar. cbn [app]. repeat (apply Forall_cons; split; [cbv beta; lia|]). by apply Forall_nil. }
  assert (short sample_name) as Hs by by vm_compute.
  assert (ends [0]) as He by (exists 0, []; split; [done|]; split; [lia|left; lia]).
  assert (0 <= 0 <= 20 /\ 20 <= zlen (replicate 20 9)) as [H1 H2] by (split; [lia|by vm_compute]).
  exact (toascii_exact [] sample_name [0] 0 20 (replicate 20 9) Hf Hs He H1 H2).
Defined.

(** on any bytes, ill-formed or not, the conversion comes to an end (no loop of
    it runs on, no division by zero, no index out of the alphabet), writes only
    between [d] and [de] and returns [UV_EINVAL] or the number of bytes written, as
    long as three bytes after the one at [se] can be read. *)
Theorem toascii_returns mem s se d de a :
  Forall octet mem -> se + 3 < zlen mem -> 0 <= s <= se -> 1114112 * (se - s + 1) < 2 ^ 32 ->
  0 <= d <= de -> de <= zlen a ->
  exists r a', uv__idna_toascii mem s se d de a = Done r a' /\
  (r = UV_EINVAL \/ 0 <= r <= de - d) /\ zlen a' = zlen a /\
  forall i, 0 <= i < d \/ de <= i -> a' !! Z.to_nat i = a !! Z.to_nat i.
Proof.
  intros Hm Hroom Hs Hlen Hd Ha.
  destruct (toascii_total d de a Hd Ha mem se Hm Hroom s Hs Hlen) as (r & txt & E & Hr).
  assert (zlen (take (Z.to_nat (de - d)) txt) <= de - d) as Hz by (unfold zlen; rewrite length_take; lia).
  exists r, (arr d de a txt). split; [done|]. split; [done|]. split; [apply zlen_over; lia|].
  intros i Hi. apply lookup_over; lia.
Qed.

Lemma toascii_returns_witness :
  exists r a', uv__idna_toascii [240; 0; 7; 7; 7] 0 1 0 2 [9; 9] = Done r a' /\
  (r = UV_EINVAL \/ 0 <= r <= 2 - 0) /\ zlen a' = zlen [9; 9] /\
  forall i, 0 <= i < 0 \/ 2 <= i -> a' !! Z.to_nat i = [9; 9] !! Z.to_nat i.
Proof.
  assert (Forall octet [240; 0; 7; 7; 7]) as Hf
    by (unfold octet; repeat (apply Forall_cons; split; [cbv beta; lia|]); by apply Forall_nil).
  apply (toascii_returns [240; 0; 7; 7; 7] 0 1 0 2 [9; 9]); [exact Hf|by vm_compute|lia|by vm_compute|lia|by vm_compute].
Defined.

(** ** What goes wrong *)
(** A sequence that is cut off at the end of a name: the switch tests the position
    less the end, which is negative there, and the bytes after the terminator are
    read. *)
Lemma truncated_sequence_overruns a : uv__idna_toascii [240; 0] 0 1 0 0 a = Undef UbRead.
Proof. reflexivity. Qed.

(** Of the continuation bytes only the exclusive or is tested: the two letters after
    the lead byte are taken for continuation bytes, and nothing is refused. *)
Lemma letters_pass_for_continuations (s : list Z) : uv__utf8_decode1 [225; 65; 65; 65] 0 3 s = Done (4161, 3) s.
Proof. reflexivity. Qed.

(** A name as long as the destination is left without a terminator, and the count is
    no error. *)
Lemma name_without_terminator : uv__idna_toascii [97; 98; 99; 0] 0 3 0 3 [9; 9; 9] = Done 3 [97; 98; 99].
Proof. reflexivity. Qed.
